(* ===== verification/_CoqProject ===== *)
-Q . S2P
Prelude.v
CString.v
Riscv.v
Kalloc.v
Vm.v
PageTable.v
AddressSpace.v
CopyUser.v
Spaces.v
UserMem.v
Printf.v
Ring.v
Pipe.v
PipeRun.v
Console.v
Fb.v
DebugGraph.v
Animation.v
Devfb.v
Libfb.v
Spinlock.v
Sleeplock.v
Block.v
Bio.v
BioLaws.v
BioSpec.v
Log.v
LogCrash.v
LogReserve.v
Txn.v
TxnOps.v
Fs.v
FsBlocks.v
FsInode.v
FsData.v
FsSpec.v
FsDir.v
File.v
FileSpec.v
FsPath.v
Mkfs.v
MkfsSpec.v
Fcntl.v
Sysfile.v
SysfileSpec.v
GoneDir.v
Proc.v
ProcMem.v
ProcSpec.v
ProcInv.v
ForkSpec.v
KernelVm.v
Trampoline.v
Exec.v
ExecSpec.v
SysExec.v
SysExecSpec.v
ExecFile.v
SleepWakeup.v
Sh.v
ShSpec.v
ShRun.v
UserInit.v
UserText.v
UserTextSpec.v
Device.v
Boot.v
Trap.v
TrapSpec.v
Virtio.v
VirtioSpec.v
VirtioLive.v
VirtioDisk.v
Kernel.v
Umalloc.v
UmallocSpec.v
