(* ===== verification/Prelude.v ===== *)
(** * A verification library for the xv6-riscv kernel of this repository

    The repository is the xv6 teaching kernel for RISC-V with a framebuffer, an
    animation driven by the timer and a few system calls added to it, its user
    programs and the tool that builds its disk image.  This library translates
    its C code into executable definitions and proves what makes each part
    correct.

    ** How code is modelled

    A C integer is a [Z]; each conversion to a fixed width, and each operation
    that may wrap, is written out ([u8] to [u64], [i16] to [i64]).  Memory is a
    function from addresses to bytes with little-endian [load] and [store_le].
    A function of the kernel is a computation of the monad [M S A]: from a
    state it returns a value and a state ([Ret]), panics with a message
    ([Panic]), runs out of fuel ([NoFuel]) or gives up the CPU until it is woken
    ([Sleep], with the rest of the function as a continuation that goes on from
    whatever state others have made).  A component's state is a record of its
    own; [zoom] runs its functions inside the record of a client along a [lens].
    A spin lock is a flag of the state that [acquire] sets, since interleavings
    are studied where they matter: in Spinlock, SleepWakeup, LogReserve,
    VirtioSpec and VirtioLive one access or one critical section at a time, in
    ProcInv and PipeRun at every point where a thread sleeps.  A thread asleep
    may go on at any time, as the code allows for; who wakes whom is part of the
    model where it decides whether anybody makes progress: in SleepWakeup, Proc,
    PipeRun, VirtioLive and Console.  The wakeups of [releasesleep], [end_op] and
    [uartintr] are no steps.

    Components meet at type classes.  Their laws are proved for the
    implementation and used by the client for [BlockCache] and [Txn] between the
    buffer cache, the log and the file system, [UserMem] between page tables and
    everything that copies, [ExecFs] between program loading and the file
    system, and [ForkEnv], what [kfork] needs of the files ([ProcEnv]).  The laws
    of [Mmio], [VirtioDevice] and [WorkingDevice] are about hardware.  [DiskLaws],
    which the buffer cache relies on, describes a transfer by its effect; it is
    proved of an ideal disk, and of the driver with its device, one thread at a
    time, for the bytes of the blocks there are ([attended_rw]).  [SysEnv] and
    [ProcEnv], the rest of the kernel as traps and processes see it, have no
    laws of their own; Kernel has their instance.

    Loops that are not structural take fuel.  Where the number of iterations
    has a bound in the code the fuel is that bound ([uvmalloc]: the pages between
    the two sizes; [namex]: the length of the path; [readi], [writei]: the
    blocks of the transfer) and the theorems say that the function returns; a
    wait that may be repeated ([wakeups], the fuel of [acquiresleep] and
    [kwait]) is fuelled by the number of times the thread is woken for
    nothing, and the theorems hold for every such number.

    ** Memory

    - CString ([kernel/string.c], the string part of [user/ulib.c]): each routine
      against what it should compute, overlap included.
    - Riscv ([kernel/riscv.h], [kernel/memlayout.h]): the macros as arithmetic.
    - Kalloc ([kernel/kalloc.c]): the free list threaded through the free pages;
      over any sequence of allocations and frees each page is free once or
      allocated once.
    - Vm ([kernel/vm.c]): three-level page tables in physical memory.  PageTable
      gives a table its meaning as a map from pages to entries; AddressSpace,
      CopyUser and Spaces show growing, shrinking, copying to and from users,
      duplicating and freeing an address space to be all or nothing, never to
      panic whatever a user passes, and not to touch what is not theirs.
    - UserMem: the class of copies between kernel and user, and its instances.
    - KernelVm ([kvmmake], [kvminit], [kvminithart] of [kernel/vm.c]): the kernel's own
      address space, page by page.

    ** Files

    - Bio, BioLaws, BioSpec ([kernel/bio.c]): the cache as a doubly linked list
      implements the interface of Block and recycles the least recently used
      clean buffer.
    - Log, LogCrash, LogReserve ([kernel/log.c]): a commit cut off after any disk
      write is, after recovery, done or not done; operations never overrun the
      log however they interleave.  Txn and TxnOps turn this into the interface
      the file system is written against.
    - Fs ([kernel/fs.c]): FsBlocks the bitmap, FsInode the inode and its block
      map, FsData and FsSpec reading and writing, FsDir directories as maps from
      names to inode numbers, FsPath path names as walks of the directory tree.
    - File, FileSpec ([kernel/file.c]), Fcntl, Sysfile and SysfileSpec
      ([kernel/sysfile.c]): open files, what a write leaves in memory and on the
      disk, descriptors and their reference counts.  GoneDir: the panic a process
      can cause from a directory whose parent was removed.
    - Pipe ([kernel/pipe.c]): pipes as queues of bytes.  PipeRun: a writer and a
      reader under any scheduling; all bytes arrive and nobody waits for ever.
    - Mkfs, MkfsSpec ([mkfs/mkfs.c]): the image the tool writes satisfies the
      invariants the theorems on the file system start from.

    ** Processes and traps

    - Spinlock, Sleeplock ([kernel/spinlock.c], [kernel/sleeplock.c]), SleepWakeup
      (the sleep and wakeup protocol of [kernel/proc.c] on several CPUs).
    - Proc ([kernel/proc.c]): the process table.  ProcSpec: waking and scheduling;
      ProcInv: pids are unique, also across context switches; ProcMem: a
      process's address space from [proc_pagetable] to [proc_freepagetable];
      ForkSpec: [kfork] copies the parent's memory, registers and files and no two
      processes share a page.
    - Trap, TrapSpec ([kernel/trap.c], [kernel/syscall.c], [kernel/sysproc.c]): the
      way from user mode through a system call, fault or interrupt and back.
    - Exec, ExecSpec ([kernel/exec.c], [kernel/elf.h]): loading a program, over the
      class [ExecFs] of what [kexec] uses of the file system.  SysExec, SysExecSpec
      ([sys_exec] of [kernel/sysfile.c]): fetching the arguments.  ExecFile: the file
      system has the laws of [ExecFs], and the whole call runs the file the
      directory tree has under the path.
    - Trampoline ([kernel/trampoline.S], [kernel/swtch.S], [kernel/kernelvec.S]): the
      assembly as lists of instructions that run on registers, memory and the
      page tables; registers survive traps and context switches.
    - Boot ([kernel/entry.S], [kernel/start.c]): from reset to supervisor mode.
    - Kernel: the table of file calls ([kernel/syscall.c]) and the table of devices
      over all the components, from the system calls down to the disk driver, as
      the environment of the traps and of the process table.

    ** Devices

    - Device ([kernel/plic.c], [kernel/uart.c]), Console on Ring ([kernel/console.c]),
      Printf ([kernel/printf.c], [user/printf.c]).
    - Virtio, VirtioSpec ([kernel/virtio_disk.c]): descriptor rings shared with the
      device; a call that returns has transferred its block.  VirtioLive: with
      wakeups, notifications and interrupts, every call under way can return.
      VirtioDisk: the driver as the buffer cache calls it.
    - Fb, Devfb ([kernel/fb.c], [kernel/devfb.c]), Animation ([kernel/animation.c] and
      its system calls), DebugGraph ([kernel/debug_graph.c]): what each routine
      paints, pixel by pixel, and what it leaves alone.

    ** User programs

    - Umalloc, UmallocSpec ([user/umalloc.c]): the allocator keeps blocks apart.
    - Sh, ShSpec, ShRun ([user/sh.c]): the parser recognises the shell's grammar,
      and a line starts the programs it stands for.
    - UserText, UserTextSpec ([user/grep.c], [user/cat.c], [user/wc.c],
      [user/echo.c]): regular expressions, and independence of how input arrives.
    - Libfb ([user/libfb.c], [user/fbviewer.c], [user/drawdemo.c]): drawing in the
      buffer of the process, and what the kernel's framebuffer shows after the
      writes.
    - UserInit ([user/init.c]): what runs after boot, with which descriptors.

    ** Not modelled

    - [kernel/main.c], which calls the initialisation of the other components in
      turn, and the spinning of the other CPUs.
    - The programs that only make system calls one after the other ([user/ls.c],
      [user/animctl.c] and the like).
    - The test programs ([user/usertests.c], [user/grind.c] and the like), which
      check the kernel through system calls.
    - The memory model of the machine: CPUs share memory sequentially
      consistently, which is what the fences of the code are for.
    - Failure of [malloc] in the constructors of commands of [user/sh.c], which
      the shell does not check: the parser always gets its memory.
    - The state of a process that sleeps inside a file call: such a call gives up
      the CPU as a step of its own, without going through the [sleep] of Proc. *)

From Stdlib Require Export ZArith Lia ZifyBool.
From stdpp Require Export base tactics numbers list strings relations sets.

Set Default Proof Using "Type".
#[global] Open Scope Z_scope.

(** ** Machine integers

    C integers are modelled as [Z]; a conversion to a fixed width is written
    out where the source performs one. *)

Definition u8 (z : Z) : Z := z mod 2 ^ 8.
Definition u16 (z : Z) : Z := z mod 2 ^ 16.
Definition u32 (z : Z) : Z := z mod 2 ^ 32.
Definition u64 (z : Z) : Z := z mod 2 ^ 64.
Definition i16 (z : Z) : Z := (z + 2 ^ 15) mod 2 ^ 16 - 2 ^ 15.
Definition i32 (z : Z) : Z := (z + 2 ^ 31) mod 2 ^ 32 - 2 ^ 31.
Definition i64 (z : Z) : Z := (z + 2 ^ 63) mod 2 ^ 64 - 2 ^ 63.

(** Linear arithmetic with division and modulo by constants. *)
Ltac dlia := Z.div_mod_to_equations; lia.

(** Closed arithmetic facts, by evaluation. *)
Ltac closed := vm_compute; first [reflexivity | congruence | split; congruence].

(** Arithmetic under the fixed-width conversions. *)
Ltac wrap_lia := unfold u8, u16, u32, u64, i16, i32, i64 in *; dlia.

Lemma u8_bound z : 0 <= u8 z < 256.
Proof. wrap_lia. Qed.

Lemma u32_bound z : 0 <= u32 z < 2 ^ 32.
Proof. wrap_lia. Qed.

Lemma u64_bound z : 0 <= u64 z < 2 ^ 64.
Proof. wrap_lia. Qed.

Lemma u8_small z : 0 <= z < 256 -> u8 z = z.
Proof. intros; apply Z.mod_small; lia. Qed.

Lemma u32_small z : 0 <= z < 2 ^ 32 -> u32 z = z.
Proof. intros; apply Z.mod_small; lia. Qed.

Lemma u64_small z : 0 <= z < 2 ^ 64 -> u64 z = z.
Proof. intros; apply Z.mod_small; lia. Qed.

Lemma i32_small z : - 2 ^ 31 <= z < 2 ^ 31 -> i32 z = z.
Proof. unfold i32. intros. rewrite Z.mod_small; lia. Qed.

Lemma lor_bound n a b : 0 <= n -> 0 <= a < 2 ^ n -> 0 <= b < 2 ^ n -> 0 <= Z.lor a b < 2 ^ n.
Proof.
  intros Hn Ha Hb. assert (H0 : 0 <= Z.lor a b) by (apply Z.lor_nonneg; lia).
  split; [exact H0|]. destruct (decide (Z.lor a b = 0)) as [->|Hne]; [lia|].
  apply Z.log2_lt_pow2; [lia|]. rewrite Z.log2_lor by lia. apply Z.max_lub_lt.
  - destruct (decide (a = 0)) as [->|]; [|apply Z.log2_lt_pow2; lia].
    destruct (decide (n = 0)) as [->|]; [|simpl; lia].
    exfalso. apply Hne. replace b with 0 by (change (2 ^ 0) with 1 in Hb; lia). reflexivity.
  - destruct (decide (b = 0)) as [->|]; [|apply Z.log2_lt_pow2; lia].
    destruct (decide (n = 0)) as [->|]; [|simpl; lia].
    exfalso. apply Hne. replace a with 0 by (change (2 ^ 0) with 1 in Ha; lia). reflexivity.
Qed.

Create HintDb width.
Create Rewrite HintDb width.
#[export] Hint Rewrite u8_small u32_small u64_small i32_small using lia : width.
#[export] Hint Resolve u8_bound u32_bound u64_bound : width.

(** ** The control monad

    Kernel code is a function of the component's state.  It returns a value,
    stops the machine with [panic], runs out of the fuel a model of an
    unbounded loop was given, or goes to sleep on a wait channel: [Sleep c s k]
    leaves the shared state [s] to the rest of the system and continues with
    [k] in whatever state the thread is woken in. *)

Inductive res (S A : Type) : Type :=
| Ret (a : A) (s : S)
| Panic (msg : string)
| NoFuel
| Sleep (chan : Z) (s : S) (k : S -> res S A).
Arguments Ret {S A} a s.
Arguments Panic {S A} msg.
Arguments NoFuel {S A}.
Arguments Sleep {S A} chan s k.

Definition M (S A : Type) : Type := S -> res S A.

Fixpoint bindr {S A B} (r : res S A) (f : A -> S -> res S B) : res S B :=
  match r with
  | Ret a s => f a s
  | Panic msg => Panic msg
  | NoFuel => NoFuel
  | Sleep c s k => Sleep c s (fun s' => bindr (k s') f)
  end.

Definition ret {S A} (a : A) : M S A := fun s => Ret a s.
Definition bind {S A B} (m : M S A) (f : A -> M S B) : M S B :=
  fun s => bindr (m s) f.
Definition panic {S A} (msg : string) : M S A := fun _ => Panic msg.
Definition nofuel {S A} : M S A := fun _ => NoFuel.
Definition gets {S A} (f : S -> A) : M S A := fun s => Ret (f s) s.
Definition modify {S} (f : S -> S) : M S unit := fun s => Ret tt (f s).
Definition when {S} (b : bool) (m : M S unit) : M S unit :=
  if b then m else ret tt.

Declare Scope kernel_scope.
Delimit Scope kernel_scope with K.
Notation "'let!' x ':=' m 'in' k" := (bind m (fun x => k))
  (at level 10, x pattern, m at level 200, k at level 200,
   format "'[v' 'let!'  x  ':='  m  'in' '/' k ']'") : kernel_scope.
Notation "m ';;' k" := (bind m (fun _ => k))
  (at level 100, k at level 200) : kernel_scope.
#[global] Open Scope kernel_scope.

(** A part of a larger state: how it is read and how it is replaced. *)
Record lens (T S : Type) : Type := Lens { view : T -> S; set : S -> T -> T }.
Arguments Lens {T S} view set.
Arguments view {T S} l.
Arguments set {T S} l.

Fixpoint zoomr {T S A} (l : lens T S) (r : res S A) (t : T) : res T A :=
  match r with
  | Ret a s => Ret a (set l s t)
  | Panic msg => Panic msg
  | NoFuel => NoFuel
  | Sleep c s k => Sleep c (set l s t) (fun t' => zoomr l (k (view l t')) t')
  end.

(** Run an operation of a component inside a state that contains it. *)
Definition zoom {T S A} (l : lens T S) (m : M S A) : M T A :=
  fun t => zoomr l (m (view l t)) t.

(** Spin locks as the executing CPU sees them inside a component: the flag is
    [lk->locked], and only this CPU can be the holder.  (Competing CPUs are the
    subject of the spin-lock component.) *)
Definition acquire {S} (l : lens S bool) : M S unit :=
  fun s => if view l s then Panic "acquire" else Ret tt (set l true s).
Definition release {S} (l : lens S bool) : M S unit :=
  fun s => if view l s then Ret tt (set l false s) else Panic "release".

(** [sleep(chan, lk)]: give up the lock, let others run, take it again. *)
Definition sleep {S} (chan : Z) (l : lens S bool) : M S unit :=
  fun s => if view l s
           then Sleep chan (set l false s) (fun s' => acquire l s')
           else Panic "release".

(** Runs in which the thread may sleep: whenever it does, the invariant holds
    of the state it leaves behind, and it goes on from any state in which the
    invariant holds. *)
Fixpoint safe {S A} (I : S -> Prop) (Q : A -> S -> Prop) (r : res S A) : Prop :=
  match r with
  | Ret a s => Q a s
  | Panic _ => False
  | NoFuel => True
  | Sleep _ s k => I s /\ forall s', I s' -> safe I Q (k s')
  end.

Lemma bind_ret_l {S A B} (m : M S A) (f : A -> M S B) s a s' :
  m s = Ret a s' -> bind m f s = f a s'.
Proof. unfold bind. intros ->. reflexivity. Qed.

Lemma bind_bind {S A B C} (m : M S A) (f : A -> M S B) (g : B -> M S C) s a s' :
  m s = Ret a s' -> bind (bind m f) g s = bind (f a) g s'.
Proof. unfold bind. intros ->. reflexivity. Qed.

Lemma bind_gets {S A B} (g : S -> A) (f : A -> M S B) s : bind (gets g) f s = f (g s) s.
Proof. reflexivity. Qed.

Lemma bind_modify {S B} (g : S -> S) (f : unit -> M S B) s :
  bind (modify g) f s = f tt (g s).
Proof. reflexivity. Qed.

Lemma bind_panic {S A B} (m : M S A) (f : A -> M S B) s msg :
  m s = Panic msg -> bind m f s = Panic msg.
Proof. unfold bind. intros ->. reflexivity. Qed.

Lemma safe_bind {S A B} (I : S -> Prop) (Q : A -> S -> Prop) (R : B -> S -> Prop)
    (r : res S A) (f : A -> S -> res S B) :
  safe I Q r -> (forall a s, Q a s -> safe I R (f a s)) -> safe I R (bindr r f).
Proof.
  intros Hr Hf. induction r as [a s|msg| |c s k IH]; simpl in *; auto.
  destruct Hr as [HI Hk]. split; auto.
Qed.

Lemma safe_mono {S A} (I : S -> Prop) (Q Q' : A -> S -> Prop) (r : res S A) :
  safe I Q r -> (forall a s, Q a s -> Q' a s) -> safe I Q' r.
Proof.
  intros Hr HQ. induction r as [a s|msg| |c s k IH]; simpl in *; auto.
  destruct Hr as [HI Hk]. split; auto.
Qed.

(** Total correctness against an environment: whenever the thread sleeps,
    [pre] holds of the state it leaves behind, and it goes on from any state the
    environment's move [R s e s'] leads to, [e] saying what the environment
    did; it always comes to an end, and [Q] holds of the moves made meanwhile,
    the result and the final state. *)
Fixpoint against {S A E} (pre : S -> Prop) (R : S -> E -> S -> Prop) (r : res S A)
    (Q : list E -> A -> S -> Prop) : Prop :=
  match r with
  | Ret a s => Q [] a s
  | Panic _ => False
  | NoFuel => False
  | Sleep _ s k => pre s /\ forall e s', R s e s' -> against pre R (k s') (fun es => Q (e :: es))
  end.

Lemma against_mono {S A E} (pre : S -> Prop) (R : S -> E -> S -> Prop) (r : res S A) : forall Q Q',
  against pre R r Q -> (forall es a s, Q es a s -> Q' es a s) -> against pre R r Q'.
Proof.
  induction r as [a s|msg| |c s k IH]; intros Q Q' Hr HQ; simpl in *; auto.
  destruct Hr as [Hp Hk]. split; [exact Hp|]. intros e s' Hs. eapply IH; [apply Hk, Hs|]. auto.
Qed.

Lemma against_bind {S A B E} (pre : S -> Prop) (R : S -> E -> S -> Prop) (r : res S A)
    (f : A -> S -> res S B) : forall Q Q',
  against pre R r Q -> (forall es a s, Q es a s -> against pre R (f a s) (fun es' => Q' (es ++ es'))) ->
  against pre R (bindr r f) Q'.
Proof.
  induction r as [a s|msg| |c s k IH]; intros Q Q' Hr Hf; simpl in *; auto.
  - apply (Hf [] a s Hr).
  - destruct Hr as [Hp Hk]. split; [exact Hp|]. intros e s' Hs. eapply IH; [apply Hk, Hs|].
    intros es a s1 HQ. apply (Hf (e :: es) a s1 HQ).
Qed.

Lemma zoom_ret {T S A} (l : lens T S) (m : M S A) t a s :
  m (view l t) = Ret a s -> zoom l m t = Ret a (set l s t).
Proof. unfold zoom. intros ->. reflexivity. Qed.

(** Taking a run apart. *)
Lemma bind_inv {S A B} (m : M S A) (f : A -> M S B) s b s2 :
  bind m f s = Ret b s2 -> exists a s1, m s = Ret a s1 /\ f a s1 = Ret b s2.
Proof. unfold bind. destruct (m s) as [a s1|msg| |c s1 k] eqn:E; simpl; intros H; try discriminate. eauto. Qed.

Lemma zoom_inv {T S A} (l : lens T S) (m : M S A) t a t' :
  zoom l m t = Ret a t' -> exists s, m (view l t) = Ret a s /\ t' = set l s t.
Proof. unfold zoom. destruct (m (view l t)) eqn:E; simpl; intros H; try discriminate. simplify_eq. eauto. Qed.

Ltac inv_bind H :=
  let a := fresh "a" in let s1 := fresh "s" in let E := fresh "E" in
  apply bind_inv in H as (a & s1 & E & H).

(** Run one monadic step whose result is known. *)
Ltac step := erewrite bind_ret_l; [|first [eassumption | reflexivity]].

(** Case analysis on the tests a definition makes. *)
Ltac case_test :=
  match goal with
  | |- context [if ?b then _ else _] => destruct b eqn:?
  | |- context [match ?o with Some _ => _ | None => _ end] => destruct o eqn:?
  end.

Ltac b2p :=
  repeat match goal with
  | H : (_ && _)%bool = true |- _ => apply andb_prop in H as [? ?]
  | H : (_ || _)%bool = false |- _ => apply orb_false_elim in H as [? ?]
  | H : (_ =? _) = true |- _ => apply Z.eqb_eq in H
  | H : (_ =? _) = false |- _ => apply Z.eqb_neq in H
  | H : (_ <? _) = true |- _ => apply Z.ltb_lt in H
  | H : (_ <? _) = false |- _ => apply Z.ltb_ge in H
  | H : (_ <=? _) = true |- _ => apply Z.leb_le in H
  | H : (_ <=? _) = false |- _ => apply Z.leb_gt in H
  | H : negb _ = true |- _ => apply negb_true_iff in H
  | H : negb _ = false |- _ => apply negb_false_iff in H
  end.

(** ** Functions changed at one point *)

Definition upd {A} (f : Z -> A) (k : Z) (v : A) : Z -> A := fun x => if x =? k then v else f x.

Lemma upd_eq {A} (f : Z -> A) k v : upd f k v k = v.
Proof. unfold upd. rewrite Z.eqb_refl. reflexivity. Qed.

Lemma upd_ne {A} (f : Z -> A) k v x : x <> k -> upd f k v x = f x.
Proof. unfold upd. intros H. apply Z.eqb_neq in H. rewrite H. reflexivity. Qed.

Lemma upd_same {A} (f : Z -> A) k v x : f k = v -> upd f k v x = f x.
Proof. intros <-. unfold upd. destruct (Z.eqb_spec x k); congruence. Qed.

(** ** Byte-addressed memory *)

Definition mem : Type := Z -> Z.

Definition store (m : mem) (a v : Z) : mem := fun x => if x =? a then v else m x.

(** [for(i = lo; i < lo + n; i++) a = body(i, a)]. *)
Fixpoint iter {A} (n : nat) (i : Z) (body : Z -> A -> A) (a : A) : A :=
  match n with
  | O => a
  | S n' => iter n' (i + 1) body (body i a)
  end.

(** Little-endian words. *)
Fixpoint load (m : mem) (a : Z) (n : nat) : Z :=
  match n with
  | O => 0
  | S n' => m a + 256 * load m (a + 1) n'
  end.

Fixpoint store_le (m : mem) (a : Z) (n : nat) (v : Z) : mem :=
  match n with
  | O => m
  | S n' => store_le (store m a (v mod 256)) (a + 1) n' (v / 256)
  end.

Definition byte_mem (m : mem) : Prop := forall x, 0 <= m x < 256.

Lemma store_eq m a v x : x = a -> store m a v x = v.
Proof. unfold store. intros ->. rewrite Z.eqb_refl. reflexivity. Qed.

Lemma store_ne m a v x : x <> a -> store m a v x = m x.
Proof. unfold store. intros H. apply Z.eqb_neq in H. rewrite H. reflexivity. Qed.

Lemma store_le_outside n : forall m a v x,
  x < a \/ a + Z.of_nat n <= x -> store_le m a n v x = m x.
Proof.
  induction n as [|n IH]; intros m a v x Hx; simpl; [reflexivity|].
  rewrite IH by lia. apply store_ne; lia.
Qed.

Lemma load_ext n : forall m m' a,
  (forall x, a <= x < a + Z.of_nat n -> m x = m' x) -> load m a n = load m' a n.
Proof.
  induction n as [|n IH]; intros m m' a H; simpl; [reflexivity|].
  rewrite (IH m m') by (intros; apply H; lia). rewrite H by lia. reflexivity.
Qed.

Lemma load_store_le_eq n : forall m a v,
  0 <= v -> load (store_le m a n v) a n = v mod 2 ^ (8 * Z.of_nat n).
Proof.
  induction n as [|n IH]; intros m a v Hv; simpl.
  { rewrite Z.mod_1_r. reflexivity. }
  rewrite store_le_outside by lia. rewrite store_eq by reflexivity.
  rewrite IH by dlia.
  replace (8 * Z.of_nat (S n)) with (8 + 8 * Z.of_nat n) by lia.
  rewrite Z.pow_add_r by lia. rewrite Z.rem_mul_r by lia. reflexivity.
Qed.

Lemma load_store8 m a v : 0 <= v < 2 ^ 64 -> load (store_le m a 8 v) a 8 = v.
Proof. intros H. rewrite load_store_le_eq by lia. apply Z.mod_small. exact H. Qed.

Lemma load_store_le_ne n k m a b v :
  a + Z.of_nat n <= b \/ b + Z.of_nat k <= a ->
  load (store_le m b k v) a n = load m a n.
Proof. intros H. apply load_ext. intros x Hx. apply store_le_outside. lia. Qed.

Lemma load_bound n : forall m a, byte_mem m -> 0 <= load m a n < 2 ^ (8 * Z.of_nat n).
Proof.
  induction n as [|n IH]; intros m a Hm; simpl; [lia|].
  specialize (IH m (a + 1) Hm). pose proof (Hm a).
  replace (8 * Z.of_nat (S n)) with (8 + 8 * Z.of_nat n) by lia.
  rewrite Z.pow_add_r by lia. lia.
Qed.

(** Reading [n] zero bytes as a word. *)
Lemma load_zero n : forall m a,
  (forall x, a <= x < a + Z.of_nat n -> m x = 0) -> load m a n = 0.
Proof.
  induction n as [|n IH]; intros m a H; simpl; [reflexivity|].
  rewrite H, IH by (intros; try apply H; lia). reflexivity.
Qed.

Lemma store_byte_mem m a v : byte_mem m -> 0 <= v < 256 -> byte_mem (store m a v).
Proof. intros H Hv x. unfold store. case_test; auto. Qed.

Lemma store_le_byte_mem n : forall m a v, byte_mem m -> byte_mem (store_le m a n v).
Proof.
  induction n as [|n IH]; intros m a v H; simpl; [exact H|].
  apply IH, store_byte_mem; [exact H|]. dlia.
Qed.

#[export] Hint Resolve store_byte_mem store_le_byte_mem : width.

Arguments load m a n : simpl never.
Arguments store_le m a n v : simpl never.
Arguments Z.pow : simpl never.

Lemma filter_ext_in {A} (P Q : A -> Prop) `{!forall x, Decision (P x), !forall x, Decision (Q x)} (l : list A) :
  (forall x, x ∈ l -> P x <-> Q x) -> filter P l = filter Q l.
Proof.
  induction l as [|x l IH]; intros HPQ; [reflexivity|]. rewrite !filter_cons.
  rewrite IH by (intros y Hy; apply HPQ; right; exact Hy).
  pose proof (HPQ x ltac:(left)). repeat case_decide; tauto.
Qed.

(** Checking a property of a range of numbers by evaluation. *)
Lemma forallb_seqZ (f : Z -> bool) n k : forallb f (seqZ 0 n) = true -> 0 <= k < n -> f k = true.
Proof.
  intros Hf Hk. rewrite forallb_forall in Hf. apply Hf. apply list_elem_of_In, elem_of_seqZ. lia.
Qed.

(** Counting after one element of a duplicate-free list has changed. *)
Lemma filter_count_update {A} (P Q : A -> Prop) `{!forall x, Decision (P x), !forall x, Decision (Q x)}
    (l : list A) (h : A) :
  NoDup l -> h ∈ l -> (forall x, x ∈ l -> x <> h -> P x <-> Q x) ->
  Z.of_nat (length (filter Q l)) =
    Z.of_nat (length (filter P l)) - (if decide (P h) then 1 else 0) + (if decide (Q h) then 1 else 0).
Proof.
  induction l as [|x l IH]; intros Hnd Hh HPQ; [apply elem_of_nil in Hh; contradiction|].
  apply NoDup_cons in Hnd as [Hx Hnd]. rewrite !filter_cons.
  apply elem_of_cons in Hh as [->|Hh].
  - rewrite (filter_ext_in Q P l).
    + repeat case_decide; simpl length; lia.
    + intros y Hy. symmetry. apply HPQ; [right; exact Hy|]. intros ->. contradiction.
  - specialize (IH Hnd Hh ltac:(intros y Hy; apply HPQ; right; exact Hy)).
    assert (Hxh : x <> h) by (intros ->; contradiction).
    pose proof (HPQ x ltac:(left) Hxh). revert IH. repeat case_decide; simpl length; intros; try tauto; lia.
Qed.
