(* ===== verification/CString.v ===== *)
(** * String and memory routines

    [kernel/string.c] and the string part of [user/ulib.c] over byte-addressed
    memory.  Pointers are addresses; a buffer never wraps around the end of the
    address space.  [char] is unsigned, as on RISC-V.  Routines whose loop is
    bounded only by a NUL byte take the number of iterations as fuel and return
    [None] when it runs out. *)

From S2P Require Import Prelude.

(** ** kernel/string.c *)

Definition memset (m : mem) (dst c n : Z) : mem :=
  iter (Z.to_nat (u32 n)) 0 (fun i m => store m (dst + i) (u8 c)) m.

Fixpoint memcmp_loop (m : mem) (s1 s2 : Z) (n : nat) : Z :=
  match n with
  | O => 0
  | S n' => if negb (m s1 =? m s2) then m s1 - m s2
            else memcmp_loop m (s1 + 1) (s2 + 1) n'
  end.

Definition memcmp (m : mem) (v1 v2 n : Z) : Z := memcmp_loop m v1 v2 (Z.to_nat (u32 n)).

(** [while(n-- > 0) *d++ = *s++;] *)
Fixpoint copy_up (m : mem) (d s : Z) (n : nat) : mem :=
  match n with
  | O => m
  | S n' => copy_up (store m d (m s)) (d + 1) (s + 1) n'
  end.

(** [while(n-- > 0) *--d = *--s;] *)
Fixpoint copy_down (m : mem) (d s : Z) (n : nat) : mem :=
  match n with
  | O => m
  | S n' => copy_down (store m (d - 1) (m (s - 1))) (d - 1) (s - 1) n'
  end.

Definition memmove (m : mem) (dst src n0 : Z) : mem :=
  let n := u32 n0 in
  if n =? 0 then m
  else if (src <? dst) && (dst <? src + n)
       then copy_down m (dst + n) (src + n) (Z.to_nat n)
       else copy_up m dst src (Z.to_nat n).

Definition memcpy (m : mem) (dst src n : Z) : mem := memmove m dst src n.

Fixpoint strncmp_loop (m : mem) (p q : Z) (n : nat) : Z :=
  match n with
  | O => 0
  | S n' => if negb (m p =? 0) && (m p =? m q)
            then strncmp_loop m (p + 1) (q + 1) n'
            else m p - m q
  end.

Definition strncmp (m : mem) (p q n : Z) : Z := strncmp_loop m p q (Z.to_nat (u32 n)).

(** [while(n-- > 0) *s++ = 0;] *)
Fixpoint zero_fill (m : mem) (s : Z) (n : nat) : mem :=
  match n with
  | O => m
  | S n' => zero_fill (store m s 0) (s + 1) n'
  end.

Fixpoint strncpy_loop (m : mem) (s t : Z) (n : nat) : mem :=
  match n with
  | O => m
  | S n' => let c := m t in
            let m' := store m s c in
            if c =? 0 then zero_fill m' (s + 1) n'
            else strncpy_loop m' (s + 1) (t + 1) n'
  end.

Definition strncpy (m : mem) (s t n : Z) : mem := strncpy_loop m s t (Z.to_nat n).

(** [n] counts the bytes left after the [--n] of the loop condition. *)
Fixpoint safestrcpy_loop (m : mem) (s t : Z) (n : nat) : mem :=
  match n with
  | O => store m s 0
  | S n' => let c := m t in
            let m' := store m s c in
            if c =? 0 then store m' (s + 1) 0
            else safestrcpy_loop m' (s + 1) (t + 1) n'
  end.

Definition safestrcpy (m : mem) (s t n : Z) : mem :=
  if n <=? 0 then m else safestrcpy_loop m s t (Z.to_nat (n - 1)).

Fixpoint strlen_loop (m : mem) (s n : Z) (fuel : nat) : option Z :=
  match fuel with
  | O => None
  | S f => if m (s + n) =? 0 then Some n else strlen_loop m s (n + 1) f
  end.

Definition strlen (fuel : nat) (m : mem) (s : Z) : option Z := strlen_loop m s 0 fuel.

(** ** user/ulib.c *)

Module Ulib.

Fixpoint strcpy (fuel : nat) (m : mem) (s t : Z) : option mem :=
  match fuel with
  | O => None
  | S f => let c := m t in
           let m' := store m s c in
           if c =? 0 then Some m' else strcpy f m' (s + 1) (t + 1)
  end.

Fixpoint strcmp (fuel : nat) (m : mem) (p q : Z) : option Z :=
  match fuel with
  | O => None
  | S f => if negb (m p =? 0) && (m p =? m q) then strcmp f m (p + 1) (q + 1)
           else Some (m p - m q)
  end.

(** The found position, or 0 for NULL. *)
Fixpoint strchr (fuel : nat) (m : mem) (s c : Z) : option Z :=
  match fuel with
  | O => None
  | S f => if m s =? 0 then Some 0
           else if m s =? c then Some s
           else strchr f m (s + 1) c
  end.

Fixpoint atoi_loop (fuel : nat) (m : mem) (s n : Z) : option Z :=
  match fuel with
  | O => None
  | S f => if (48 <=? m s) && (m s <=? 57)
           then atoi_loop f m (s + 1) (i32 (n * 10 + m s - 48))
           else Some n
  end.

Definition atoi (fuel : nat) (m : mem) (s : Z) : option Z := atoi_loop fuel m s 0.

Definition memmove (m : mem) (vdst vsrc n : Z) : mem :=
  if vdst <? vsrc then copy_up m vdst vsrc (Z.to_nat n)
  else copy_down m (vdst + n) (vsrc + n) (Z.to_nat n).

Definition memcpy (m : mem) (dst src n : Z) : mem := memmove m dst src (i32 n).

End Ulib.

(** ** What memory holds *)

(** A NUL-terminated string with contents [l] at [a]. *)
Fixpoint cstr (m : mem) (a : Z) (l : list Z) : Prop :=
  match l with
  | [] => m a = 0
  | c :: l' => c <> 0 /\ m a = c /\ cstr m (a + 1) l'
  end.

(** Block copy as one simultaneous assignment. *)
Definition moved (m : mem) (dst src n : Z) : mem :=
  fun x => if (dst <=? x) && (x <? dst + n) then m (src + (x - dst)) else m x.

(** ** Lemmas *)

Lemma iter_store_spec c n : forall m dst i x,
  iter n i (fun i m => store m (dst + i) c) m x =
  if (dst + i <=? x) && (x <? dst + i + Z.of_nat n) then c else m x.
Proof.
  induction n as [|n IH]; intros m dst i x; cbn [iter].
  - case_test; [lia | reflexivity].
  - rewrite IH. unfold store. repeat case_test; reflexivity || lia.
Qed.

Lemma memset_spec m dst c n x :
  0 <= n < 2 ^ 32 ->
  memset m dst c n x = if (dst <=? x) && (x <? dst + n) then u8 c else m x.
Proof.
  intros Hn. unfold memset. rewrite u32_small by lia.
  rewrite iter_store_spec. rewrite Z2Nat.id by lia.
  replace (dst + 0) with dst by lia. reflexivity.
Qed.

Lemma memset_in m dst c n x :
  0 <= n < 2 ^ 32 -> dst <= x < dst + n -> memset m dst c n x = u8 c.
Proof.
  intros Hn Hx. rewrite memset_spec by lia.
  case_test; [reflexivity|lia].
Qed.

Lemma memset_out m dst c n x :
  0 <= n < 2 ^ 32 -> x < dst \/ dst + n <= x -> memset m dst c n x = m x.
Proof. intros Hn Hx. rewrite memset_spec by lia. case_test; [lia|reflexivity]. Qed.

Lemma memset_byte_mem m dst c n :
  0 <= n < 2 ^ 32 -> byte_mem m -> byte_mem (memset m dst c n).
Proof. intros Hn Hm x. rewrite memset_spec by lia. case_test; auto using u8_bound. Qed.

Lemma copy_up_spec n : forall m d s x,
  d <= s \/ s + Z.of_nat n <= d ->
  copy_up m d s n x = moved m d s (Z.of_nat n) x.
Proof.
  induction n as [|n IH]; intros m d s x H; cbn [copy_up].
  - unfold moved. case_test; [lia|reflexivity].
  - rewrite IH by lia. unfold moved, store.
    repeat case_test; lia || (f_equal; lia).
Qed.

Lemma copy_down_spec n : forall m d s x,
  s <= d ->
  copy_down m d s n x = moved m (d - Z.of_nat n) (s - Z.of_nat n) (Z.of_nat n) x.
Proof.
  induction n as [|n IH]; intros m d s x H; cbn [copy_down].
  - unfold moved. case_test; [lia|reflexivity].
  - rewrite IH by lia. unfold moved, store.
    repeat case_test; lia || (f_equal; lia).
Qed.

Lemma memmove_moved m dst src n x :
  0 <= n < 2 ^ 32 -> memmove m dst src n x = moved m dst src n x.
Proof.
  intros Hn. unfold memmove. rewrite u32_small by lia.
  destruct (n =? 0) eqn:E0; b2p.
  { subst. unfold moved. case_test; [lia|reflexivity]. }
  destruct ((src <? dst) && (dst <? src + n)) eqn:E.
  - rewrite copy_down_spec by lia. rewrite Z2Nat.id by lia. f_equal; lia.
  - rewrite copy_up_spec, Z2Nat.id by lia. reflexivity.
Qed.

Lemma moved_in m dst src n x :
  dst <= x < dst + n -> moved m dst src n x = m (src + (x - dst)).
Proof.
  intros H. unfold moved. case_test; [reflexivity|lia].
Qed.

Lemma moved_out m dst src n x :
  x < dst \/ dst + n <= x -> moved m dst src n x = m x.
Proof. intros H. unfold moved. case_test; [lia|reflexivity]. Qed.

Lemma memmove_byte_mem m dst src n :
  0 <= n < 2 ^ 32 -> byte_mem m -> byte_mem (memmove m dst src n).
Proof.
  intros Hn Hm x. rewrite memmove_moved by lia. unfold moved. case_test; apply Hm.
Qed.

Lemma cstr_ext m m' l : forall a,
  (forall x, a <= x <= a + Z.of_nat (length l) -> m' x = m x) ->
  cstr m a l -> cstr m' a l.
Proof.
  induction l as [|c l IH]; intros a Hx; cbn [cstr length].
  - intros H. rewrite Hx; [exact H|simpl; lia].
  - cbn [length] in Hx. intros (Hc & Ha & Hl). split; [exact Hc|]. split.
    + rewrite Hx; [exact Ha|lia].
    + apply IH; [intros; apply Hx; lia|exact Hl].
Qed.

Lemma strncmp_loop_spec n : forall m p q l1 l2,
  cstr m p l1 -> cstr m q l2 ->
  (strncmp_loop m p q n = 0 <-> take n l1 = take n l2).
Proof.
  induction n as [|n IH]; intros m p q l1 l2 H1 H2; simpl.
  { rewrite !take_0. tauto. }
  destruct l1 as [|c1 l1], l2 as [|c2 l2]; simpl in *.
  - rewrite H1, H2. simpl. tauto.
  - destruct H2 as (Hc & Hq & _). rewrite H1. simpl. split; [lia|discriminate].
  - destruct H1 as (Hc & Hp & _). rewrite Hp, H2.
    apply Z.eqb_neq in Hc as Hc'. rewrite Hc'. simpl. split; [lia|discriminate].
  - destruct H1 as (Hc1 & Hp & H1), H2 as (Hc2 & Hq & H2). rewrite Hp, Hq.
    apply Z.eqb_neq in Hc1. rewrite Hc1. simpl.
    destruct (c1 =? c2) eqn:E; b2p.
    + subst. rewrite IH by eassumption. split; [intros ->|]; congruence.
    + split; [lia|congruence].
Qed.

Lemma safestrcpy_loop_outside n : forall m s t x,
  x < s \/ s + Z.of_nat n < x -> safestrcpy_loop m s t n x = m x.
Proof.
  induction n as [|n IH]; intros m s t x Hx; simpl.
  - apply store_ne; lia.
  - case_test; [rewrite !store_ne by lia; reflexivity|].
    rewrite IH by lia. apply store_ne; lia.
Qed.

Lemma safestrcpy_loop_cstr n : forall m s t l,
  cstr m t l -> s + Z.of_nat n < t \/ t + Z.of_nat (length l) < s ->
  cstr (safestrcpy_loop m s t n) s (take n l).
Proof.
  induction n as [|n IH]; intros m s t l Hl Hd.
  { rewrite take_0. simpl. apply store_eq; lia. }
  destruct l as [|c l]; cbn [safestrcpy_loop take cstr length] in *.
  - rewrite Hl. simpl. rewrite store_ne by lia. apply store_eq; lia.
  - destruct Hl as (Hc & Ht & Hl). rewrite Ht.
    destruct (c =? 0) eqn:E; b2p; [congruence|]. split; [exact Hc|]. split.
    + rewrite safestrcpy_loop_outside by lia. apply store_eq; lia.
    + apply IH; [|lia]. eapply cstr_ext; [|exact Hl].
      intros x Hx. apply store_ne; lia.
Qed.

Lemma strlen_loop_cstr fuel : forall m s n l,
  cstr m (s + n) l -> (length l < fuel)%nat ->
  strlen_loop m s n fuel = Some (n + Z.of_nat (length l)).
Proof.
  induction fuel as [|fuel IH]; intros m s n l Hl Hf; [lia|].
  destruct l as [|c l]; simpl in *.
  - rewrite Hl. simpl. f_equal; lia.
  - destruct Hl as (Hc & Hm & Hl). rewrite Hm.
    destruct (c =? 0) eqn:E; b2p; [congruence|].
    rewrite IH with (l := l); [f_equal; lia| |lia].
    replace (s + (n + 1)) with (s + n + 1) by lia. exact Hl.
Qed.

Lemma user_memmove_moved m dst src n x :
  0 <= n -> Ulib.memmove m dst src n x = moved m dst src n x.
Proof.
  intros Hn. unfold Ulib.memmove. case_test.
  - rewrite copy_up_spec, Z2Nat.id by lia. reflexivity.
  - rewrite copy_down_spec by lia. rewrite Z2Nat.id by lia. f_equal; lia.
Qed.

(** ** Properties *)

(** [memmove] copies the block as it was before the call, whatever the
    overlap of source and destination, and changes no other byte. *)
Theorem memmove_correct m dst src n :
  0 <= n < 2 ^ 32 ->
  (forall x, dst <= x < dst + n -> memmove m dst src n x = m (src + (x - dst))) /\
  (forall x, x < dst \/ dst + n <= x -> memmove m dst src n x = m x).
Proof.
  intros Hn. split; intros x Hx; rewrite memmove_moved by lia.
  - apply moved_in; lia.
  - apply moved_out; lia.
Qed.

Lemma memmove_correct_witness :
  memmove (fun x => x) 3 1 4 5 = 3 /\ memmove (fun x => x) 3 1 4 7 = 7.
Proof.
  split.
  - apply (proj1 (memmove_correct (fun x => x) 3 1 4 ltac:(lia)) 5); lia.
  - apply (proj2 (memmove_correct (fun x => x) 3 1 4 ltac:(lia)) 7); lia.
Defined.

(** The kernel's and the user library's [memmove], which choose the copy
    direction by different tests, have the same effect. *)
Theorem user_memmove_equiv m dst src n :
  0 <= n < 2 ^ 31 ->
  forall x, Ulib.memmove m dst src n x = memmove m dst src n x.
Proof.
  intros Hn x. rewrite user_memmove_moved, memmove_moved by lia. reflexivity.
Qed.

Lemma user_memmove_equiv_witness :
  Ulib.memmove (fun x => x) 10 2 4 12 = 4.
Proof. rewrite (user_memmove_equiv (fun x => x) 10 2 4 ltac:(lia) 12). reflexivity. Defined.

(** [strncmp] on two strings is zero exactly when they agree on their first
    [n] bytes. *)
Theorem strncmp_zero_iff m p q n l1 l2 :
  cstr m p l1 -> cstr m q l2 -> 0 <= n < 2 ^ 32 ->
  (strncmp m p q n = 0 <-> take (Z.to_nat n) l1 = take (Z.to_nat n) l2).
Proof.
  intros H1 H2 Hn. unfold strncmp. rewrite u32_small by lia.
  apply strncmp_loop_spec; assumption.
Qed.

Definition mem_of (l : list Z) : mem := fun x => default 0 (l !! Z.to_nat x).

Lemma strncmp_zero_iff_witness :
  strncmp (mem_of [97; 98; 0; 97; 98; 99; 0]) 0 3 2 = 0.
Proof.
  apply (strncmp_zero_iff (mem_of [97; 98; 0; 97; 98; 99; 0]) 0 3 2 [97; 98] [97; 98; 99]);
    cbv; repeat split; congruence.
Defined.

(** [safestrcpy] leaves a NUL-terminated copy of at most [n - 1] bytes of
    the source and writes nothing outside the [n] bytes of the destination. *)
Theorem safestrcpy_correct m s t n l :
  cstr m t l -> 0 < n -> s + n <= t \/ t + Z.of_nat (length l) < s ->
  cstr (safestrcpy m s t n) s (take (Z.to_nat (n - 1)) l) /\
  (forall x, x < s \/ s + n <= x -> safestrcpy m s t n x = m x).
Proof.
  intros Hl Hn Hd. unfold safestrcpy.
  destruct (n <=? 0) eqn:E; [lia|]. split.
  - apply safestrcpy_loop_cstr; [exact Hl|lia].
  - intros x Hx. apply safestrcpy_loop_outside. lia.
Qed.

Lemma safestrcpy_correct_witness :
  cstr (safestrcpy (mem_of [0; 0; 0; 0; 104; 101; 108; 108; 111; 0]) 0 4 4) 0 [104; 101; 108].
Proof.
  apply (safestrcpy_correct (mem_of [0; 0; 0; 0; 104; 101; 108; 108; 111; 0]) 0 4 4
           [104; 101; 108; 108; 111]).
  - cbv; repeat split; congruence.
  - lia.
  - left; lia.
Defined.

Arguments memset m dst c n : simpl never.
Arguments memmove m dst src n0 : simpl never.
