(* ===== verification/Kalloc.v ===== *)
(** * The physical page allocator

    [kernel/kalloc.c].  The free list is threaded through the free pages
    themselves, as in the code: [kmem.freelist] is the address of the first
    free page and the first eight bytes of a free page hold the address of the
    next one.  [kend] is the linker symbol [end], the first address after the
    kernel image; no operation changes it. *)

From S2P Require Import Prelude CString Riscv.

Record kst : Type := Kst {
  phys : mem;           (* physical memory *)
  freelist : Z;         (* kmem.freelist *)
  kmem_locked : bool;   (* kmem.lock *)
  kend : Z              (* end[] *)
}.

Definition set_phys (m : mem) (s : kst) : kst := Kst m (freelist s) (kmem_locked s) (kend s).
Definition set_freelist (r : Z) (s : kst) : kst := Kst (phys s) r (kmem_locked s) (kend s).
Definition kmem_lock : lens kst bool :=
  Lens kmem_locked (fun b s => Kst (phys s) (freelist s) b (kend s)).

Definition kfree (pa : Z) : M kst unit :=
  let! e := gets kend in
  if negb (pa mod PGSIZE =? 0) || (pa <? e) || (PHYSTOP <=? pa) then panic "kfree"
  else
    modify (fun s => set_phys (memset (phys s) pa 1 PGSIZE) s) ;;
    acquire kmem_lock ;;
    modify (fun s => set_phys (store_le (phys s) pa 8 (freelist s)) s) ;;
    modify (set_freelist pa) ;;
    release kmem_lock.

Definition kalloc : M kst Z :=
  acquire kmem_lock ;;
  let! r := gets freelist in
  when (negb (r =? 0)) (modify (fun s => set_freelist (load (phys s) r 8) s)) ;;
  release kmem_lock ;;
  when (negb (r =? 0)) (modify (fun s => set_phys (memset (phys s) r 5 PGSIZE) s)) ;;
  ret r.

Fixpoint freerange_loop (fuel : nat) (p pa_end : Z) : M kst unit :=
  match fuel with
  | O => nofuel
  | S f => if p + PGSIZE <=? pa_end
           then kfree p ;; freerange_loop f (p + PGSIZE) pa_end
           else ret tt
  end.

Definition freerange (pa_start pa_end : Z) : M kst unit :=
  let p := PGROUNDUP pa_start in
  freerange_loop (S (Z.to_nat ((pa_end - p) / PGSIZE))) p pa_end.

(** [initlock] clears the lock. *)
Definition kinit : M kst unit :=
  modify (set kmem_lock false) ;;
  let! e := gets kend in
  freerange e PHYSTOP.

(** ** The allocator's promise *)

(** The pages on the list that starts at [h]. *)
Fixpoint flist (m : mem) (h : Z) (l : list Z) : Prop :=
  match l with
  | [] => h = 0
  | p :: l' => h = p /\ flist m (load m p 8) l'
  end.

Definition page_ok (e p : Z) : Prop := p mod PGSIZE = 0 /\ e <= p < PHYSTOP.

Definition in_page (p x : Z) : Prop := p <= x < p + PGSIZE.

(** [l] is the list of free pages. *)
Record kinv (s : kst) (l : list Z) : Prop := {
  kinv_list : flist (phys s) (freelist s) l;
  kinv_nodup : NoDup l;
  kinv_pages : Forall (page_ok (kend s)) l;
  kinv_end : 0 < kend s;
  kinv_bytes : byte_mem (phys s);
  kinv_unlocked : kmem_locked s = false
}.

(** Memory changes at most inside page [p]; the image bound does not. *)
Definition only_page (p : Z) (s s' : kst) : Prop :=
  kend s' = kend s /\ forall x, ~ in_page p x -> phys s' x = phys s x.

Lemma page_ok_b e p :
  negb (p mod PGSIZE =? 0) || (p <? e) || (PHYSTOP <=? p) = false <-> page_ok e p.
Proof. unfold page_ok. lia. Qed.

Lemma page_ok_ne e p q : page_ok e p -> page_ok e q -> p <> q ->
  forall x, in_page p x -> ~ in_page q x.
Proof.
  unfold page_ok, in_page, PGSIZE. intros [Hp _] [Hq _] Hne x Hx Hx'. apply Hne. dlia.
Qed.

Lemma flist_ext m m' l : forall h,
  (forall p x, p ∈ l -> in_page p x -> m' x = m x) -> flist m h l -> flist m' h l.
Proof.
  induction l as [|p l IH]; intros h H; simpl; [auto|].
  intros [-> Hl]. split; [reflexivity|].
  rewrite (load_ext 8 m' m).
  - apply IH; [|exact Hl]. intros; eapply H; [right|]; eassumption.
  - intros x Hx. eapply H; [left|]. unfold in_page, PGSIZE. lia.
Qed.

(** Writes confined to a page that is not free leave the list alone. *)
Lemma flist_frame e m m' h l p :
  Forall (page_ok e) l -> page_ok e p -> p ∉ l ->
  (forall x, ~ in_page p x -> m' x = m x) -> flist m h l -> flist m' h l.
Proof.
  intros Hl Hp Hn H. apply flist_ext. intros q x Hq Hx. apply H. intros Hpx.
  rewrite Forall_forall in Hl.
  eapply (page_ok_ne e q p); eauto. intros ->. contradiction.
Qed.

Lemma kfree_panics s p : ~ page_ok (kend s) p -> kfree p s = Panic "kfree".
Proof.
  intros H. unfold kfree, bind, gets. simpl.
  destruct (_ || _) eqn:E; [reflexivity|]. apply page_ok_b in E. contradiction.
Qed.

Lemma kfree_spec s l p :
  kinv s l -> page_ok (kend s) p -> p ∉ l ->
  exists s', kfree p s = Ret tt s' /\ kinv s' (p :: l) /\ only_page p s s'.
Proof.
  intros [Hl Hnd Hpg He Hb Hu] Hp Hn.
  unfold kfree, bind, gets. simpl. rewrite (proj2 (page_ok_b _ _) Hp).
  unfold acquire, release, modify, set_phys, set_freelist. simpl. rewrite Hu. simpl.
  eexists. split; [reflexivity|].
  assert (Hout : forall x, ~ in_page p x ->
    store_le (memset (phys s) p 1 PGSIZE) p 8 (freelist s) x = phys s x).
  { unfold in_page, PGSIZE. intros x Hx. rewrite store_le_outside by lia.
    apply memset_out; lia. }
  split; [|split; [reflexivity|exact Hout]].
  assert (H0 : 0 <= freelist s < 2 ^ 64).
  { destruct l as [|q l]; simpl in Hl; [lia|]. destruct Hl as [-> _].
    apply Forall_cons in Hpg as [[_ ?] _]. unfold PHYSTOP, KERNBASE in *. lia. }
  split; simpl.
  - split; [reflexivity|]. rewrite load_store_le_eq by lia.
    rewrite Z.mod_small by (simpl; lia).
    eapply flist_frame with (p := p); eassumption.
  - constructor; assumption.
  - constructor; assumption.
  - exact He.
  - apply store_le_byte_mem, memset_byte_mem; [unfold PGSIZE; lia|exact Hb].
  - reflexivity.
Qed.

Lemma kalloc_empty s : kinv s [] -> kalloc s = Ret 0 s.
Proof.
  intros [Hl _ _ _ _ Hu]. simpl in Hl. destruct s as [m h b e]. simpl in *. subst.
  reflexivity.
Qed.

Lemma kalloc_spec s p l :
  kinv s (p :: l) ->
  exists s', kalloc s = Ret p s' /\ kinv s' l /\ only_page p s s' /\
             (p ∉ l) /\ page_ok (kend s) p /\
             forall x, in_page p x -> phys s' x = 5.
Proof.
  intros [Hl Hnd Hpg He Hb Hu]. simpl in Hl. destruct Hl as [Hh Hl].
  apply NoDup_cons in Hnd as [Hn Hnd]. apply Forall_cons in Hpg as [Hp Hpg].
  unfold kalloc, bind, acquire, release, modify, gets, when, ret, set_phys, set_freelist.
  simpl. rewrite Hu. simpl. rewrite Hh.
  assert (E : (p =? 0) = false) by (destruct Hp; lia). rewrite E. simpl.
  eexists. split; [reflexivity|].
  assert (Hout : forall x, ~ in_page p x -> memset (phys s) p 5 PGSIZE x = phys s x).
  { unfold in_page, PGSIZE. intros x Hx. apply memset_out; lia. }
  split; [split; simpl|]; auto.
  - eapply flist_frame with (p := p); eassumption.
  - apply memset_byte_mem; [unfold PGSIZE; lia|exact Hb].
  - split; [split; [reflexivity|exact Hout]|]. split; [exact Hn|]. split; [exact Hp|].
    unfold in_page, PGSIZE. intros x Hx. simpl. apply memset_in; lia.
Qed.

(** [n] consecutive pages from [p] on. *)
Fixpoint pages (p : Z) (n : nat) : list Z :=
  match n with
  | O => []
  | S n' => p :: pages (p + PGSIZE) n'
  end.

Lemma elem_of_pages n : forall p q, p mod PGSIZE = 0 ->
  (q ∈ pages p n <-> q mod PGSIZE = 0 /\ p <= q < p + Z.of_nat n * PGSIZE).
Proof.
  unfold PGSIZE. induction n as [|n IH]; intros p q Hp; simpl.
  - split; [intros H; inversion H|lia].
  - rewrite elem_of_cons, IH by (unfold PGSIZE; dlia). unfold PGSIZE. split.
    + intros [->|[? ?]]; dlia.
    + intros [? ?]. destruct (Z.eq_dec q p); [left; assumption|right; dlia].
Qed.

Lemma freerange_loop_spec n : forall fuel p pa_end s l,
  kinv s l -> kend s <= p -> p mod PGSIZE = 0 ->
  p + Z.of_nat n * PGSIZE <= pa_end < p + (Z.of_nat n + 1) * PGSIZE ->
  pa_end <= PHYSTOP -> (n < fuel)%nat -> Forall (fun q => q < p) l ->
  exists s', freerange_loop fuel p pa_end s = Ret tt s' /\
             kinv s' (reverse (pages p n) ++ l) /\ kend s' = kend s.
Proof.
  induction n as [|n IH]; intros [|fuel] p pa_end s l Hk He Hp Hend Hstop Hf Hlt; try lia;
    cbn [freerange_loop pages].
  - destruct (_ <=? _) eqn:E; [unfold PGSIZE in *; lia|]. exists s. auto.
  - destruct (_ <=? _) eqn:E; [|unfold PGSIZE in *; lia].
    destruct (kfree_spec s l p Hk) as (s1 & E1 & Hk1 & He1 & _).
    { split; [exact Hp|]. unfold PGSIZE in *. lia. }
    { intros Hin. rewrite Forall_forall in Hlt. specialize (Hlt _ Hin). lia. }
    destruct (IH fuel (p + PGSIZE) pa_end s1 (p :: l)) as (s2 & E2 & Hk2 & He2);
      [exact Hk1|unfold PGSIZE in *; lia|unfold PGSIZE in *; dlia|unfold PGSIZE in *; lia
      |lia|lia| |].
    { constructor; [unfold PGSIZE; lia|]. eapply Forall_impl; [exact Hlt|].
      unfold PGSIZE. simpl. lia. }
    exists s2. unfold bind. rewrite E1. simpl. split; [exact E2|].
    rewrite reverse_cons, <- app_assoc. split; [exact Hk2|congruence].
Qed.

Definition all_pages (e : Z) : list Z :=
  pages (PGROUNDUP e) (Z.to_nat ((PHYSTOP - PGROUNDUP e) / PGSIZE)).

Lemma kinit_spec s :
  freelist s = 0 -> byte_mem (phys s) -> 0 < kend s <= PHYSTOP ->
  exists s', kinit s = Ret tt s' /\ kinv s' (reverse (all_pages (kend s))) /\ kend s' = kend s.
Proof.
  intros Hf Hb He. unfold kinit, bind, modify, gets. simpl.
  unfold freerange, all_pages. simpl. set (p := PGROUNDUP (kend s)).
  assert (Hp : p = (kend s + 4095) / 4096 * 4096)
    by (apply PGROUNDUP_eq; unfold PHYSTOP, KERNBASE in *; lia).
  set (n := Z.to_nat ((PHYSTOP - p) / PGSIZE)).
  assert (Hn : Z.of_nat n = (PHYSTOP - p) / PGSIZE).
  { apply Z2Nat.id. apply Z.div_pos; [|reflexivity]. unfold PHYSTOP, KERNBASE in *. dlia. }
  destruct (freerange_loop_spec n (S n) p PHYSTOP (Kst (phys s) (freelist s) false (kend s)) [])
    as (s' & E & Hk & He').
  - split; simpl; auto using NoDup_nil_2. lia.
  - simpl. dlia.
  - unfold PGSIZE. dlia.
  - unfold PGSIZE in *. dlia.
  - lia.
  - lia.
  - constructor.
  - exists s'. split; [exact E|]. rewrite app_nil_r in Hk. auto.
Qed.

(** ** The allocator and its clients

    Clients hold a set of pages; they may allocate, free a page they hold, and
    write inside the pages they hold. *)

Inductive kstep : kst * list Z -> kst * list Z -> Prop :=
| kstep_alloc s s' A p : kalloc s = Ret p s' -> p <> 0 -> kstep (s, A) (s', p :: A)
| kstep_alloc_fails s s' A : kalloc s = Ret 0 s' -> kstep (s, A) (s', A)
| kstep_free s s' A1 p A2 : kfree p s = Ret tt s' -> kstep (s, A1 ++ p :: A2) (s', A1 ++ A2)
| kstep_write s A p m : p ∈ A -> byte_mem m ->
    (forall x, ~ in_page p x -> m x = phys s x) -> kstep (s, A) (set_phys m s, A).

(** Free and held pages together are the pages of RAM, each exactly once. *)
Definition conserved (e : Z) (c : kst * list Z) : Prop :=
  kend (fst c) = e /\ exists l, kinv (fst c) l /\ l ++ snd c ≡ₚ all_pages e.

Lemma all_pages_spec e p :
  0 < e <= PHYSTOP -> (p ∈ all_pages e <-> page_ok e p).
Proof.
  intros He. assert (Hp : PGROUNDUP e = (e + 4095) / 4096 * 4096)
    by (apply PGROUNDUP_eq; unfold PHYSTOP, KERNBASE in *; lia).
  unfold all_pages. rewrite elem_of_pages by (unfold PGSIZE; rewrite Hp; dlia).
  unfold page_ok, PHYSTOP, KERNBASE, PGSIZE in *. rewrite Hp, Z2Nat.id by dlia. dlia.
Qed.

Lemma pages_nodup n : forall p, NoDup (pages p n).
Proof.
  assert (Hge : forall n p q, q ∈ pages p n -> p <= q).
  { clear n. induction n as [|n IH]; intros p q H; [inversion H|].
    apply elem_of_cons in H as [->|H]; [lia|]. apply IH in H. unfold PGSIZE in H. lia. }
  induction n as [|n IH]; intros p; constructor; [|apply IH].
  intros H. apply Hge in H. unfold PGSIZE in H. lia.
Qed.

Lemma kstep_conserved e c c' :
  0 < e <= PHYSTOP -> kstep c c' -> conserved e c -> conserved e c'.
Proof.
  intros He Hs (Hend & l & Hk & Hperm).
  assert (Hok : forall p, p ∈ l ++ snd c -> page_ok e p).
  { intros p Hp. rewrite Hperm in Hp. apply all_pages_spec in Hp; assumption. }
  assert (Hnd : NoDup (l ++ snd c)) by (rewrite Hperm; apply pages_nodup).
  destruct Hs as [s s' A p E Hp0|s s' A E|s s' A1 p A2 E|s A p m Hin Hbm Hout]; simpl in *.
  - destruct l as [|q l]; [rewrite kalloc_empty in E by assumption; congruence|].
    destruct (kalloc_spec s q l Hk) as (s1 & E1 & Hk1 & [He1 _] & _).
    rewrite E1 in E. simplify_eq.
    split; [simpl; congruence|]. exists l. split; [exact Hk1|]. simpl.
    rewrite <- Hperm. simpl. symmetry. apply Permutation_middle.
  - destruct l as [|q l].
    + rewrite kalloc_empty in E by assumption. simplify_eq. split; [reflexivity|].
      exists []. auto.
    + destruct (kalloc_spec s q l Hk) as (s1 & E1 & _ & _ & _ & [_ Hq] & _).
      rewrite E1 in E. simplify_eq. lia.
  - destruct (kfree_spec s l p Hk) as (s1 & E1 & Hk1 & [He1 _]).
    + rewrite Hend. apply Hok. rewrite !elem_of_app, elem_of_cons. auto.
    + rewrite NoDup_app in Hnd. destruct Hnd as (_ & Hd & _). intros Hin. apply (Hd _ Hin).
      rewrite elem_of_app, elem_of_cons. auto.
    + rewrite E1 in E. simplify_eq. split; [simpl; congruence|]. exists (p :: l). split; [exact Hk1|]. simpl.
      rewrite <- Hperm. rewrite <- !Permutation_middle. reflexivity.
  - split; [exact Hend|]. exists l. split; [|exact Hperm].
    rewrite NoDup_app in Hnd. destruct Hnd as (_ & Hd & _).
    destruct Hk as [Hl Hn Hpg H0 Hb Hu]. split; simpl; auto.
    eapply flist_frame with (p := p) (m := phys s); eauto.
    + rewrite Hend. apply Hok. rewrite elem_of_app. auto.
    + intros Hpl. apply (Hd _ Hpl Hin).
Qed.

(** ** Properties *)

(** [kinit] terminates and makes every page between the end of the kernel
    image and the end of RAM free, each exactly once. *)
Theorem kinit_frees_all s :
  freelist s = 0 -> byte_mem (phys s) -> 0 < kend s <= PHYSTOP ->
  exists s' l, kinit s = Ret tt s' /\ kinv s' l /\ NoDup l /\
               forall p, p ∈ l <-> page_ok (kend s) p.
Proof.
  intros Hf Hb He. destruct (kinit_spec s Hf Hb He) as (s' & E & Hk & _).
  exists s', (reverse (all_pages (kend s))). split; [exact E|]. split; [exact Hk|].
  split; [apply Hk|]. intros p. rewrite elem_of_reverse. apply all_pages_spec, He.
Qed.

Definition boot_state (e : Z) : kst := Kst (fun _ => 0) 0 false e.

Lemma kinit_frees_all_witness :
  exists s' l, kinit (boot_state (PHYSTOP - 10000)) = Ret tt s' /\ kinv s' l /\ NoDup l /\
               forall p, p ∈ l <-> page_ok (PHYSTOP - 10000) p.
Proof.
  apply (kinit_frees_all (boot_state (PHYSTOP - 10000))).
  - reflexivity.
  - intros x. cbn. lia.
  - vm_compute. split; congruence.
Defined.

(** [kalloc] takes the first free page off the list and fills it with the
    junk byte 5, leaving all other memory alone; with no free page it returns
    the null pointer and changes nothing. *)
Theorem kalloc_correct s l :
  kinv s l ->
  match l with
  | [] => kalloc s = Ret 0 s
  | p :: l' => exists s', kalloc s = Ret p s' /\ kinv s' l' /\ only_page p s s' /\
                          forall x, in_page p x -> phys s' x = 5
  end.
Proof.
  intros Hk. destruct l as [|p l]; [apply kalloc_empty, Hk|].
  destruct (kalloc_spec s p l Hk) as (s' & E & Hk' & Ho & _ & _ & H5). eauto 6.
Qed.

Lemma kalloc_correct_witness : kalloc (boot_state 1) = Ret 0 (boot_state 1).
Proof.
  apply (kalloc_correct (boot_state 1) []).
  split; cbn; try lia; try constructor; try (intros x; cbn; lia); reflexivity.
Defined.

(** A page that was freed is the next one allocated, and [kfree] refuses
    (with a panic) anything that is not a page of the free range. *)
Theorem kfree_kalloc s l p :
  kinv s l -> p ∉ l ->
  (page_ok (kend s) p ->
     exists s1 s2, kfree p s = Ret tt s1 /\ kalloc s1 = Ret p s2 /\ kinv s2 l) /\
  (~ page_ok (kend s) p -> kfree p s = Panic "kfree").
Proof.
  intros Hk Hn. split; [|apply kfree_panics]. intros Hp.
  destruct (kfree_spec s l p Hk Hp Hn) as (s1 & E1 & Hk1 & _).
  destruct (kalloc_spec s1 p l Hk1) as (s2 & E2 & Hk2 & _). eauto 6.
Qed.

Lemma kfree_kalloc_witness : kfree 4097 (boot_state 1) = Panic "kfree".
Proof.
  apply (kfree_kalloc (boot_state 1) [] 4097).
  - split; cbn; try lia; try constructor; try (intros x; cbn; lia); reflexivity.
  - intros H; inversion H.
  - intros [H _]. discriminate H.
Defined.

(** C33. However clients allocate, free what they hold and write inside what
    they hold, the free pages and the held pages are together exactly the pages
    of RAM with no repetition: no page is handed out twice and none is lost. *)
Theorem allocator_conserves s0 s1 c :
  freelist s0 = 0 -> byte_mem (phys s0) -> 0 < kend s0 <= PHYSTOP ->
  kinit s0 = Ret tt s1 -> rtc kstep (s1, []) c ->
  exists l, kinv (fst c) l /\ NoDup (l ++ snd c) /\ l ++ snd c ≡ₚ all_pages (kend s0).
Proof.
  intros Hf Hb He E Hr.
  assert (Hc : conserved (kend s0) c).
  { assert (H1 : conserved (kend s0) (s1, [])).
    { destruct (kinit_spec s0 Hf Hb He) as (s & E' & Hk & He'). rewrite E' in E. simplify_eq.
      split; [exact He'|]. eexists. split; [exact Hk|]. rewrite app_nil_r.
      apply reverse_Permutation. }
    revert H1. clear E. induction Hr as [|c1 c2 c3 Hs _ IH]; intros H1; [exact H1|].
    apply IH. eapply kstep_conserved; eassumption. }
  destruct Hc as (_ & l & Hk & Hp). exists l. split; [exact Hk|]. split; [|exact Hp].
  rewrite Hp. apply pages_nodup.
Qed.

Lemma allocator_conserves_witness :
  exists s1 s2 p l, kinit (boot_state (PHYSTOP - 10000)) = Ret tt s1 /\
    kalloc s1 = Ret p s2 /\ kinv s2 l /\ l ++ [p] ≡ₚ all_pages (PHYSTOP - 10000).
Proof.
  destruct (kinit_spec (boot_state (PHYSTOP - 10000))) as (s1 & E & Hk & He);
    [reflexivity|intros x; cbn; lia|vm_compute; split; congruence|].
  destruct (kalloc_spec s1 (PHYSTOP - 4096) [PHYSTOP - 8192] Hk) as (s2 & E2 & _).
  destruct (allocator_conserves (boot_state (PHYSTOP - 10000)) s1 (s2, [PHYSTOP - 4096]))
    as (l & Hl & _ & Hp); [reflexivity|intros x; cbn; lia|vm_compute; split; congruence|exact E| |].
  - eapply rtc_l; [eapply kstep_alloc; [exact E2|discriminate]|apply rtc_refl].
  - eauto 10.
Defined.
