(* ===== verification/Vm.v ===== *)
(** * Page tables and user memory

    [kernel/vm.c] over the allocator's physical memory.  A page table is the
    physical address of its root page; every walk reads and writes the 64-bit
    entries in memory, as the code does.  The process a fault or a copy is made
    for is an argument ([uproc], the fields of [myproc()] the code reads). *)

From S2P Require Import Prelude CString Riscv Kalloc.

(** Reading and writing physical memory. *)
Definition ld64 (a : Z) : M kst Z := gets (fun s => load (phys s) a 8).
Definition st64 (a v : Z) : M kst unit := modify (fun s => set_phys (store_le (phys s) a 8 v) s).
Definition memset_k (dst c n : Z) : M kst unit :=
  modify (fun s => set_phys (memset (phys s) dst c n) s).
Definition memmove_k (dst src n : Z) : M kst unit :=
  modify (fun s => set_phys (memmove (phys s) dst src n) s).

Definition flag (pte bit : Z) : bool := negb (Z.land pte bit =? 0).

(** What [vmfault] reads of [myproc()]. *)
Record uproc : Type := Uproc { p_sz : Z; p_pagetable : Z }.

(** The loop of [walk]: the next level to descend is [level]. *)
Fixpoint walk_loop (level : nat) (pagetable va : Z) (alloc : bool) : M kst Z :=
  match level with
  | O => ret (pagetable + 8 * PX 0 va)
  | S l =>
      let pte := pagetable + 8 * PX (Z.of_nat level) va in
      let! v := ld64 pte in
      if flag v PTE_V then walk_loop l (PTE2PA v) va alloc
      else if negb alloc then ret 0
      else
        let! pt := kalloc in
        if pt =? 0 then ret 0
        else
          memset_k pt 0 PGSIZE ;;
          st64 pte (Z.lor (PA2PTE pt) PTE_V) ;;
          walk_loop l pt va alloc
  end.

Definition walk (pagetable va : Z) (alloc : bool) : M kst Z :=
  if MAXVA <=? va then panic "walk" else walk_loop 2 pagetable va alloc.

Definition walkaddr (pagetable va : Z) : M kst Z :=
  if MAXVA <=? va then ret 0
  else
    let! pte := walk pagetable va false in
    if pte =? 0 then ret 0
    else
      let! v := ld64 pte in
      if negb (flag v PTE_V) then ret 0
      else if negb (flag v PTE_U) then ret 0
      else ret (PTE2PA v).

Fixpoint mappages_loop (fuel : nat) (pagetable a last pa perm : Z) : M kst Z :=
  match fuel with
  | O => nofuel
  | S f =>
      let! pte := walk pagetable a true in
      if pte =? 0 then ret (-1)
      else
        let! v := ld64 pte in
        if flag v PTE_V then panic "mappages: remap"
        else
          st64 pte (Z.lor (Z.lor (PA2PTE pa) perm) PTE_V) ;;
          if a =? last then ret 0
          else mappages_loop f pagetable (u64 (a + PGSIZE)) last (u64 (pa + PGSIZE)) perm
  end.

Definition mappages (pagetable va size pa perm : Z) : M kst Z :=
  if negb (va mod PGSIZE =? 0) then panic "mappages: va not aligned"
  else if negb (size mod PGSIZE =? 0) then panic "mappages: size not aligned"
  else if size =? 0 then panic "mappages: size"
  else mappages_loop (Z.to_nat (size / PGSIZE)) pagetable va (u64 (va + size - PGSIZE)) pa perm.

Definition kvmmap (kpgtbl va pa sz perm : Z) : M kst unit :=
  let! r := mappages kpgtbl va sz pa perm in
  if negb (r =? 0) then panic "kvmmap" else ret tt.

Definition uvmcreate : M kst Z :=
  let! pagetable := kalloc in
  if pagetable =? 0 then ret 0
  else memset_k pagetable 0 PGSIZE ;; ret pagetable.

(** The body of the loop of [uvmunmap]; [continue] is an early return. *)
Definition unmap_page (pagetable a : Z) (do_free : bool) : M kst unit :=
  let! pte := walk pagetable a false in
  if pte =? 0 then ret tt
  else
    let! v := ld64 pte in
    if negb (flag v PTE_V) then ret tt
    else when do_free (kfree (PTE2PA v)) ;; st64 pte 0.

Fixpoint uvmunmap_loop (fuel : nat) (pagetable a stop : Z) (do_free : bool) : M kst unit :=
  match fuel with
  | O => nofuel
  | S f =>
      if a <? stop then
        unmap_page pagetable a do_free ;;
        uvmunmap_loop f pagetable (u64 (a + PGSIZE)) stop do_free
      else ret tt
  end.

Definition uvmunmap (pagetable va npages : Z) (do_free : bool) : M kst unit :=
  if negb (va mod PGSIZE =? 0) then panic "uvmunmap: not aligned"
  else uvmunmap_loop (S (Z.to_nat npages)) pagetable va (u64 (va + npages * PGSIZE)) do_free.

Definition uvmdealloc (pagetable oldsz newsz : Z) : M kst Z :=
  if oldsz <=? newsz then ret oldsz
  else
    when (PGROUNDUP newsz <? PGROUNDUP oldsz)
      (let npages := i32 ((PGROUNDUP oldsz - PGROUNDUP newsz) / PGSIZE) in
       uvmunmap pagetable (PGROUNDUP newsz) npages true) ;;
    ret newsz.

Fixpoint uvmalloc_loop (fuel : nat) (pagetable a oldsz newsz xperm : Z) : M kst Z :=
  match fuel with
  | O => nofuel
  | S f =>
      if a <? newsz then
        let! m := kalloc in
        if m =? 0 then uvmdealloc pagetable a oldsz ;; ret 0
        else
          memset_k m 0 PGSIZE ;;
          let! r := mappages pagetable a PGSIZE m (Z.lor (Z.lor PTE_R PTE_U) xperm) in
          if negb (r =? 0) then kfree m ;; uvmdealloc pagetable a oldsz ;; ret 0
          else uvmalloc_loop f pagetable (u64 (a + PGSIZE)) oldsz newsz xperm
      else ret newsz
  end.

Definition uvmalloc (pagetable oldsz newsz xperm : Z) : M kst Z :=
  if newsz <? oldsz then ret oldsz
  else
    let oldsz := PGROUNDUP oldsz in
    uvmalloc_loop (S (Z.to_nat ((newsz - oldsz + PGSIZE - 1) / PGSIZE)))
                  pagetable oldsz oldsz newsz xperm.

(** [for(i = 0; i < 512; i++)] of [freewalk]; [rec] frees a child table. *)
Fixpoint freewalk_loop (rec : Z -> M kst unit) (n : nat) (pagetable i : Z) : M kst unit :=
  match n with
  | O => ret tt
  | S n' =>
      let! pte := ld64 (pagetable + 8 * i) in
      (if flag pte PTE_V && negb (flag pte (Z.lor (Z.lor PTE_R PTE_W) PTE_X))
       then rec (PTE2PA pte) ;; st64 (pagetable + 8 * i) 0
       else if flag pte PTE_V then panic "freewalk: leaf"
       else ret tt) ;;
      freewalk_loop rec n' pagetable (i + 1)
  end.

(** [depth] bounds the recursion: a table has three levels. *)
Fixpoint freewalk (depth : nat) (pagetable : Z) : M kst unit :=
  match depth with
  | O => nofuel
  | S d => freewalk_loop (freewalk d) 512 pagetable 0 ;; kfree pagetable
  end.

Definition uvmfree (pagetable sz : Z) : M kst unit :=
  when (0 <? sz) (uvmunmap pagetable 0 (PGROUNDUP sz / PGSIZE) true) ;;
  freewalk 4 pagetable.

Fixpoint uvmcopy_loop (fuel : nat) (old new i sz : Z) : M kst Z :=
  match fuel with
  | O => nofuel
  | S f =>
      if i <? sz then
        let err := uvmunmap new 0 (i / PGSIZE) true ;; ret (-1) in
        let next := uvmcopy_loop f old new (u64 (i + PGSIZE)) sz in
        let! pte := walk old i false in
        if pte =? 0 then next
        else
          let! v := ld64 pte in
          if negb (flag v PTE_V) then next
          else
            let pa := PTE2PA v in
            let flags := u32 (PTE_FLAGS v) in
            let! m := kalloc in
            if m =? 0 then err
            else
              memmove_k m pa PGSIZE ;;
              let! r := mappages new i PGSIZE m flags in
              if negb (r =? 0) then kfree m ;; err else next
      else ret 0
  end.

Definition uvmcopy (old new sz : Z) : M kst Z :=
  uvmcopy_loop (S (Z.to_nat ((sz + PGSIZE - 1) / PGSIZE))) old new 0 sz.

Definition uvmclear (pagetable va : Z) : M kst unit :=
  let! pte := walk pagetable va false in
  if pte =? 0 then panic "uvmclear"
  else
    let! v := ld64 pte in
    st64 pte (Z.land v (u64 (Z.lnot PTE_U))).

Definition ismapped (pagetable va : Z) : M kst bool :=
  let! pte := walk pagetable va false in
  if pte =? 0 then ret false
  else
    let! v := ld64 pte in
    ret (flag v PTE_V).

Definition vmfault (p : uproc) (pagetable va : Z) (read : bool) : M kst Z :=
  if p_sz p <=? va then ret 0
  else
    let va := PGROUNDDOWN va in
    let! mapped := ismapped pagetable va in
    if mapped : bool then ret 0
    else
      let! m := kalloc in
      if m =? 0 then ret 0
      else
        memset_k m 0 PGSIZE ;;
        let! r := mappages (p_pagetable p) va PGSIZE m (Z.lor (Z.lor PTE_W PTE_U) PTE_R) in
        if negb (r =? 0) then kfree m ;; ret 0 else ret m.

(** The page behind user address [va0], faulting it in if need be. *)
Definition user_page (p : uproc) (pagetable va0 : Z) : M kst Z :=
  let! pa0 := walkaddr pagetable va0 in
  if pa0 =? 0 then vmfault p pagetable va0 false else ret pa0.

Fixpoint copyout_loop (fuel : nat) (p : uproc) (pagetable dstva src len : Z) : M kst Z :=
  match fuel with
  | O => nofuel
  | S f =>
      if 0 <? len then
        let va0 := PGROUNDDOWN dstva in
        if MAXVA <=? va0 then ret (-1)
        else
          let! pa0 := user_page p pagetable va0 in
          if pa0 =? 0 then ret (-1)
          else
            let! pte := walk pagetable va0 false in
            let! v := ld64 pte in
            if negb (flag v PTE_W) then ret (-1)
            else
              let n := Z.min (PGSIZE - (dstva - va0)) len in
              memmove_k (pa0 + (dstva - va0)) src n ;;
              copyout_loop f p pagetable (va0 + PGSIZE) (src + n) (len - n)
      else ret 0
  end.

Definition copyout (p : uproc) (pagetable dstva src len : Z) : M kst Z :=
  copyout_loop (Z.to_nat (len / PGSIZE + 3)) p pagetable dstva src len.

Fixpoint copyin_loop (fuel : nat) (p : uproc) (pagetable dst srcva len : Z) : M kst Z :=
  match fuel with
  | O => nofuel
  | S f =>
      if 0 <? len then
        let va0 := PGROUNDDOWN srcva in
        let! pa0 := user_page p pagetable va0 in
        if pa0 =? 0 then ret (-1)
        else
          let n := Z.min (PGSIZE - (srcva - va0)) len in
          memmove_k dst (pa0 + (srcva - va0)) n ;;
          copyin_loop f p pagetable (dst + n) (u64 (va0 + PGSIZE)) (len - n)
      else ret 0
  end.

Definition copyin (p : uproc) (pagetable dst srcva len : Z) : M kst Z :=
  copyin_loop (Z.to_nat (len / PGSIZE + 3)) p pagetable dst srcva len.

(** The inner loop of [copyinstr]: copies at most [n] bytes, stopping at NUL;
    returns whether the NUL was found and the bytes copied before it. *)
Fixpoint copyinstr_page (n : nat) (p dst : Z) : M kst (bool * Z) :=
  match n with
  | O => ret (false, 0)
  | S n' =>
      let! c := gets (fun s => phys s p) in
      if c =? 0 then
        modify (fun s => set_phys (store (phys s) dst 0) s) ;; ret (true, 0)
      else
        modify (fun s => set_phys (store (phys s) dst c) s) ;;
        let! (found, k) := copyinstr_page n' (p + 1) (dst + 1) in
        ret (found, k + 1)
  end.

Fixpoint copyinstr_loop (fuel : nat) (pagetable dst srcva max : Z) : M kst Z :=
  match fuel with
  | O => nofuel
  | S f =>
      if 0 <? max then
        let va0 := PGROUNDDOWN srcva in
        let! pa0 := walkaddr pagetable va0 in
        if pa0 =? 0 then ret (-1)
        else
          let n := Z.min (PGSIZE - (srcva - va0)) max in
          let! (got_null, k) := copyinstr_page (Z.to_nat n) (pa0 + (srcva - va0)) dst in
          if got_null : bool then ret 0
          else copyinstr_loop f pagetable (dst + k) (u64 (va0 + PGSIZE)) (max - k)
      else ret (-1)
  end.

Definition copyinstr (pagetable dst srcva max : Z) : M kst Z :=
  copyinstr_loop (Z.to_nat (max / PGSIZE + 3)) pagetable dst srcva max.

(** [either_copyout] and [either_copyin] of [proc.c]. *)
Definition either_copyout (p : uproc) (user_dst : bool) (dst src len : Z) : M kst Z :=
  if user_dst then copyout p (p_pagetable p) dst src len
  else memmove_k dst src len ;; ret 0.

Definition either_copyin (p : uproc) (dst : Z) (user_src : bool) (src len : Z) : M kst Z :=
  if user_src then copyin p (p_pagetable p) dst src len
  else memmove_k dst src len ;; ret 0.
