(* ===== verification/PageTable.v ===== *)
(** * What a page table means

    The abstract view of the three-level tables that [Vm] manipulates in
    memory: a table maps each page of virtual addresses to an optional entry
    ([pt_map]).  A table is well formed ([pt_wf]) when its table pages are
    pages of the allocator's range and no two paths from the root lead to the
    same page.  The theorems show that the operations of [vm.c] implement the
    corresponding updates of the abstract map and keep tables well formed. *)

From S2P Require Import Prelude CString Riscv Kalloc Vm.

(** ** Entries *)

Lemma flag_V v : flag v PTE_V = Z.odd v.
Proof.
  unfold flag, PTE_V. change (Z.shiftl 1 0) with (Z.ones 1).
  rewrite Z.land_ones, Zodd_mod by lia. change (2 ^ 1) with 2.
  pose proof (Z.mod_pos_bound v 2). lia.
Qed.

Lemma mkpte pa fl :
  pa mod 4096 = 0 -> 0 <= pa < 2 ^ 56 -> 0 <= fl < 1024 ->
  Z.lor (PA2PTE pa) fl = pa / 4096 * 1024 + fl.
Proof.
  intros Ha Hp Hf. rewrite PA2PTE_eq by lia.
  rewrite (lor_disjoint_add _ _ 10); [reflexivity|lia|exact Hf|].
  change (2 ^ 10) with 1024. apply Z_mod_mult.
Qed.

Lemma PTE2PA_mk pa fl :
  pa mod 4096 = 0 -> 0 <= pa < 2 ^ 56 -> 0 <= fl < 1024 ->
  PTE2PA (pa / 4096 * 1024 + fl) = pa.
Proof. intros Ha Hp Hf. rewrite PTE2PA_eq by dlia. dlia. Qed.

Lemma flag_V_mk pa fl : flag (pa / 4096 * 1024 + fl) PTE_V = Z.odd fl.
Proof.
  rewrite flag_V. replace (pa / 4096 * 1024 + fl) with (fl + 2 * (pa / 4096 * 512)) by lia.
  apply Z.odd_add_mul_2.
Qed.

(** ** Tables *)

(** The page an entry of an upper-level table points to. *)
Definition child (m : mem) (pt i : Z) : option Z :=
  let v := load m (pt + 8 * i) 8 in if flag v PTE_V then Some (PTE2PA v) else None.

(** The table page at the end of a path of indices from [pt]. *)
Fixpoint node (m : mem) (pt : Z) (path : list Z) : option Z :=
  match path with
  | [] => Some pt
  | i :: path' => match child m pt i with Some q => node m q path' | None => None end
  end.

Definition idx (i : Z) : Prop := 0 <= i < 512.

(** Paths that lead to table pages: at most two indices. *)
Definition short (path : list Z) : Prop := (length path <= 2)%nat /\ Forall idx path.

Definition path_of (va : Z) : list Z := [PX 2 va; PX 1 va].

(** The address of the level-0 entry for [va], if its table exists. *)
Definition leaf_slot (m : mem) (root va : Z) : option Z :=
  match node m root (path_of va) with
  | Some p => Some (p + 8 * PX 0 va)
  | None => None
  end.

(** The abstract map: the valid entry for [va]. *)
Definition pt_map (m : mem) (root va : Z) : option Z :=
  match leaf_slot m root va with
  | Some a => let v := load m a 8 in if flag v PTE_V then Some v else None
  | None => None
  end.

Record pt_wf (e : Z) (m : mem) (root : Z) (l : list Z) : Prop := {
  wf_end : 0 < e;
  wf_page : forall path p, short path -> node m root path = Some p -> page_ok e p /\ p ∉ l;
  wf_inj : forall path path' p, short path -> short path' ->
    node m root path = Some p -> node m root path' = Some p -> path = path'
}.

Lemma short_path_of va : short (path_of va).
Proof.
  split; [simpl; lia|]. unfold path_of.
  repeat constructor; apply PX_bound; lia.
Qed.

Lemma short_cons i path : short (i :: path) -> short path /\ idx i.
Proof.
  intros [Hl Hf]. apply Forall_cons in Hf as [Hi Hf]. simpl in Hl. split; [split; [lia|exact Hf]|exact Hi].
Qed.

Lemma node_app m : forall path path' pt,
  node m pt (path ++ path') =
  match node m pt path with Some q => node m q path' | None => None end.
Proof.
  induction path as [|i path IH]; intros path' pt; simpl; [reflexivity|].
  destruct (child m pt i); [apply IH|reflexivity].
Qed.

Lemma slots_disjoint e p q i j :
  page_ok e p -> page_ok e q -> idx i -> idx j -> p <> q \/ i <> j ->
  p + 8 * i + 8 <= q + 8 * j \/ q + 8 * j + 8 <= p + 8 * i.
Proof. unfold page_ok, idx, PGSIZE. intros [Hp _] [Hq _] Hi Hj H. dlia. Qed.

Lemma slot_in_page p i x : idx i -> p + 8 * i <= x < p + 8 * i + 8 -> in_page p x.
Proof. unfold idx, in_page, PGSIZE. lia. Qed.

(** Entries outside a set of changed bytes keep their children. *)
Lemma child_ext m m' pt i :
  (forall x, pt + 8 * i <= x < pt + 8 * i + 8 -> m' x = m x) ->
  child m' pt i = child m pt i.
Proof. intros H. unfold child. rewrite (load_ext 8 m' m) by exact H. reflexivity. Qed.

(** If memory agrees on every table page on the way, paths lead to the same
    pages. *)
Lemma node_ext m m' : forall path pt,
  (forall k q i, node m pt (take k path) = Some q -> path !! k = Some i ->
     child m' q i = child m q i) ->
  node m' pt path = node m pt path.
Proof.
  induction path as [|i path IH]; intros pt H; simpl; [reflexivity|].
  rewrite (H 0%nat pt i) by reflexivity.
  destruct (child m pt i) as [q|] eqn:E; [|reflexivity].
  apply IH. intros k q' i' Hn Hi. apply (H (S k)); simpl; [rewrite E; exact Hn|exact Hi].
Qed.

Lemma short_take k path : short path -> short (take k path).
Proof.
  intros [Hl Hf]. split; [rewrite length_take; lia|apply Forall_take, Hf].
Qed.

Section Tables.
Context (e : Z) (m : mem) (root : Z) (l : list Z).
Hypothesis Hwf : pt_wf e m root l.

(** Writing a level-0 entry does not move any table page. *)
Lemma node_store_leaf path0 p0 i v path :
  length path0 = 2%nat -> short path0 -> node m root path0 = Some p0 -> idx i ->
  short path ->
  node (store_le m (p0 + 8 * i) 8 v) root path = node m root path.
Proof using Hwf.
  intros Hl0 Hs0 Hn0 Hi Hs. apply node_ext. intros k q j Hq Hj.
  apply child_ext. intros x Hx. apply store_le_outside.
  assert (Hk : (k < length path)%nat) by (apply lookup_lt_is_Some; eauto).
  assert (Hsk : short (take k path)) by (apply short_take, Hs).
  assert (Hne : q <> p0).
  { intros ->. pose proof (wf_inj _ _ _ _ Hwf _ _ _ Hsk Hs0 Hq Hn0) as Heq.
    apply (f_equal length) in Heq. rewrite length_take in Heq.
    destruct Hs as [Hl _]. lia. }
  destruct (wf_page _ _ _ _ Hwf _ _ Hsk Hq) as [Hpq _].
  destruct (wf_page _ _ _ _ Hwf _ _ Hs0 Hn0) as [Hp0 _].
  assert (idx j).
  { destruct Hs as [_ Hf]. rewrite Forall_lookup in Hf. eapply Hf; eassumption. }
  destruct (slots_disjoint e q p0 j i Hpq Hp0); auto; lia.
Qed.

(** Slots of different virtual pages are different entries. *)
Lemma leaf_slot_ne va va' a a' :
  leaf_slot m root va = Some a -> leaf_slot m root va' = Some a' ->
  path_of va <> path_of va' \/ PX 0 va <> PX 0 va' ->
  a + 8 <= a' \/ a' + 8 <= a.
Proof using Hwf.
  unfold leaf_slot. intros Ha Ha' Hne.
  destruct (node m root (path_of va)) as [p|] eqn:Ep; [|discriminate].
  destruct (node m root (path_of va')) as [p'|] eqn:Ep'; [|discriminate].
  simplify_eq.
  destruct (wf_page _ _ _ _ Hwf _ _ (short_path_of va) Ep) as [Hp _].
  destruct (wf_page _ _ _ _ Hwf _ _ (short_path_of va') Ep') as [Hp' _].
  apply (slots_disjoint e); auto; try (apply PX_bound; lia).
  destruct Hne as [Hne|Hne]; [left|right; exact Hne].
  intros <-. apply Hne. eapply (wf_inj _ _ _ _ Hwf); eauto using short_path_of.
Qed.
End Tables.

(** ** Walking *)

Lemma walk_lookup s root va :
  0 <= va < MAXVA ->
  walk root va false s = Ret (default 0 (leaf_slot (phys s) root va)) s.
Proof.
  intros Hva. unfold walk. destruct (_ <=? _) eqn:E; [lia|].
  unfold leaf_slot, path_of. cbn [walk_loop node]. unfold bind, ld64, gets, child. cbn [bindr].
  change (Z.of_nat 2) with 2. change (Z.of_nat 1) with 1.
  destruct (flag (load _ (root + _) 8) PTE_V); [|reflexivity].
  cbn [bindr]. destruct (flag _ PTE_V); reflexivity.
Qed.

(** One new table page [pt], all zero, hung from entry [i] of table page [q]. *)
Record hangs (m m' : mem) (q i pt : Z) : Prop := {
  hangs_same : forall x, ~ in_page pt x -> x < q + 8 * i \/ q + 8 * i + 8 <= x -> m' x = m x;
  hangs_zero : forall x, in_page pt x -> m' x = 0;
  hangs_pte : load m' (q + 8 * i) 8 = pt / 4096 * 1024 + 1
}.

Lemma child_zero_page m pt j :
  (forall x, in_page pt x -> m x = 0) -> idx j -> child m pt j = None.
Proof.
  intros Hz Hj. unfold child. rewrite load_zero.
  - reflexivity.
  - intros x Hx. apply Hz. eapply slot_in_page; eassumption.
Qed.

(** Entries of upper-level tables have no permissions: [freewalk] tells them
    from leaves by that.  The upper half of the root is for addresses from
    [MAXVA] on. *)
Definition RWX : Z := Z.lor (Z.lor PTE_R PTE_W) PTE_X.
Definition plain (m : mem) (root : Z) : Prop := forall path i q, short (path ++ [i]) -> node m root path = Some q ->
  flag (load m (q + 8 * i) 8) PTE_V = true -> flag (load m (q + 8 * i) 8) RWX = false /\ (path = [] -> i < 256).

Lemma flag_RWX_mk pa : flag (pa / 4096 * 1024 + 1) RWX = false.
Proof.
  unfold flag. change RWX with (Z.land (Z.ones 4) 14). rewrite Z.land_assoc, Z.land_ones by lia.
  replace ((pa / 4096 * 1024 + 1) mod 2 ^ 4) with 1 by dlia. reflexivity.
Qed.

Lemma short_snoc path i : short (path ++ [i]) -> short path /\ idx i.
Proof.
  intros Hs. split; [pose proof (short_take (length path) _ Hs) as H; rewrite take_app_length in H; exact H|].
  destruct Hs as [_ Hf]. apply Forall_app in Hf as [_ Hf]. inversion Hf. assumption.
Qed.

Lemma plain_ext m m' root : (forall path, short path -> node m' root path = node m root path) ->
  (forall path i q, short (path ++ [i]) -> node m root path = Some q -> load m' (q + 8 * i) 8 = load m (q + 8 * i) 8) ->
  plain m root -> plain m' root.
Proof.
  intros Hn Hl Hp path i q Hs Hq. rewrite Hn in Hq by apply (short_snoc _ _ Hs). rewrite (Hl path i q Hs Hq). apply (Hp path i q Hs Hq).
Qed.

Section Extend.
Context (e : Z) (m m' : mem) (root : Z) (l : list Z) (path0 : list Z) (q i pt : Z).
Hypothesis Hwf : pt_wf e m root (pt :: l).
Hypothesis Hnd : NoDup (pt :: l).
Hypothesis Hs0 : short (path0 ++ [i]).
Hypothesis Hq : node m root path0 = Some q.
Hypothesis Hnone : child m q i = None.
Hypothesis Hpt : page_ok e pt.
Hypothesis Hh : hangs m m' q i pt.

Lemma path0_short : short path0.
Proof using Hs0.
  pose proof (short_take (length path0) _ Hs0) as H. rewrite take_app_length in H. exact H.
Qed.

Lemma i_idx : idx i.
Proof using Hs0.
  destruct Hs0 as [_ Hf]. apply Forall_app in Hf as [_ Hf]. inversion Hf. assumption.
Qed.

Lemma old_ne_new path p : short path -> node m root path = Some p -> p <> pt.
Proof using Hwf.
  intros Hs Hn ->. destruct (wf_page _ _ _ _ Hwf _ _ Hs Hn) as [_ H]. apply H. left.
Qed.

(** Entries of old table pages other than the new one are unchanged. *)
Lemma load_old path p j :
  short path -> node m root path = Some p -> idx j -> p <> q \/ j <> i ->
  load m' (p + 8 * j) 8 = load m (p + 8 * j) 8.
Proof using All.
  intros Hs Hn Hj Hne. apply load_ext. intros x Hx.
  pose proof (old_ne_new path p Hs Hn) as Hp.
  destruct (wf_page _ _ _ _ Hwf _ _ Hs Hn) as [Hpok _].
  destruct (wf_page _ _ _ _ Hwf _ _ path0_short Hq) as [Hqok _].
  apply (hangs_same _ _ _ _ _ Hh).
  - eapply page_ok_ne; [exact Hpok|exact Hpt|exact Hp|]. eapply slot_in_page; eassumption.
  - pose proof i_idx. destruct (slots_disjoint e p q j i); auto; lia.
Qed.

Lemma child_old path p j :
  short path -> node m root path = Some p -> idx j -> p <> q \/ j <> i ->
  child m' p j = child m p j.
Proof using All. intros. unfold child. erewrite load_old; eauto. Qed.

Lemma child_new : child m' q i = Some pt.
Proof using Hh Hpt Hwf.
  unfold child. rewrite (hangs_pte _ _ _ _ _ Hh), flag_V_mk.
  destruct Hpt as [Ha Hb]. pose proof (wf_end _ _ _ _ Hwf).
  cbn [Z.odd]. f_equal. apply PTE2PA_mk; unfold PGSIZE, PHYSTOP, KERNBASE in *; lia.
Qed.

Lemma node_old_kept path p : short path -> node m root path = Some p -> node m' root path = Some p.
Proof using All.
  revert p. induction path as [|j path IH] using rev_ind; intros p Hs Hn; [exact Hn|].
  assert (Hsp : short path).
  { pose proof (short_take (length path) _ Hs) as H. rewrite take_app_length in H. exact H. }
  rewrite node_app in Hn. rewrite node_app.
  destruct (node m root path) as [p'|] eqn:Ep; [|discriminate].
  rewrite (IH p' Hsp eq_refl). simpl in *.
  rewrite (child_old path); [exact Hn|exact Hsp|exact Ep| |].
  - destruct Hs as [_ Hf]. apply Forall_app in Hf as [_ Hf]. inversion Hf. assumption.
  - destruct (decide (p' = q)) as [->|]; [right|left; assumption].
    intros ->. rewrite Hnone in Hn. discriminate.
Qed.

Lemma node_new_cases path p :
  short path -> node m' root path = Some p ->
  node m root path = Some p \/ (path = path0 ++ [i] /\ p = pt).
Proof using All.
  revert p. induction path as [|j path IH] using rev_ind; intros p Hs Hn; [left; exact Hn|].
  assert (Hsp : short path).
  { pose proof (short_take (length path) _ Hs) as H. rewrite take_app_length in H. exact H. }
  assert (Hj : idx j).
  { destruct Hs as [_ Hf]. apply Forall_app in Hf as [_ Hf]. inversion Hf. assumption. }
  rewrite node_app in Hn. rewrite node_app.
  destruct (node m' root path) as [p'|] eqn:Ep; [|discriminate].
  destruct (IH p' Hsp eq_refl) as [Hold|[-> ->]].
  - rewrite Hold. simpl in *. destruct (decide (p' = q /\ j = i)) as [[-> ->]|Hne].
    + right. rewrite child_new in Hn. simplify_eq. split; [|reflexivity]. f_equal.
      exact (wf_inj _ _ _ _ Hwf _ _ _ Hsp path0_short Hold Hq).
    + left. rewrite (child_old path) in Hn; auto.
      destruct (decide (p' = q)); [right; intros ->; apply Hne; auto|left; assumption].
  - simpl in Hn. rewrite child_zero_page in Hn; [discriminate| |exact Hj].
    apply (hangs_zero _ _ _ _ _ Hh).
Qed.

Lemma extend_node : node m' root (path0 ++ [i]) = Some pt.
Proof using All.
  pose proof path0_short. rewrite node_app, (node_old_kept path0 q) by assumption. simpl. rewrite child_new. reflexivity.
Qed.

Lemma extend_wf : pt_wf e m' root l.
Proof using All.
  pose proof (proj1 (NoDup_cons _ _) Hnd) as [Hnin _]. split.
  - apply Hwf.
  - intros path p Hs Hn. apply node_new_cases in Hn as [Hn|[-> ->]]; auto.
    destruct (wf_page _ _ _ _ Hwf _ _ Hs Hn) as [H1 H2]. split; [exact H1|].
    intros Hin. apply H2. right. exact Hin.
  - intros path path' p Hs Hs' Hn Hn'.
    apply node_new_cases in Hn as [Hn|[-> ->]]; auto;
      apply node_new_cases in Hn' as [Hn'|[-> Hp]]; auto.
    + eapply (wf_inj _ _ _ _ Hwf); eauto.
    + exfalso. exact (old_ne_new _ _ Hs Hn Hp).
    + exfalso. exact (old_ne_new _ _ Hs' Hn' eq_refl).
Qed.

Lemma extend_map va : pt_map m' root va = pt_map m root va.
Proof using All.
  unfold pt_map, leaf_slot. pose proof (short_path_of va) as Hsv.
  destruct (node m root (path_of va)) as [p|] eqn:Ep.
  - rewrite (node_old_kept _ p) by assumption.
    rewrite (load_old (path_of va) p); auto; [apply PX_bound; lia|].
    left. intros ->. pose proof (wf_inj _ _ _ _ Hwf _ _ _ Hsv path0_short Ep Hq) as Heq.
    destruct Hs0 as [Hl _]. rewrite length_app in Hl.
    apply (f_equal length) in Heq. simpl in *. lia.
  - destruct (node m' root (path_of va)) as [p|] eqn:Ep'; [|reflexivity].
    apply node_new_cases in Ep' as [Ep'|[_ ->]]; auto; [congruence|].
    rewrite load_zero; [reflexivity|]. intros x Hx. apply (hangs_zero _ _ _ _ _ Hh).
    eapply slot_in_page; [|exact Hx]. apply PX_bound. lia.
Qed.

Lemma extend_plain : (path0 = [] -> i < 256) -> plain m root -> plain m' root.
Proof using All.
  intros H0 Hp path j p Hs Hn. destruct (short_snoc _ _ Hs) as [Hsp Hj]. destruct (node_new_cases path p Hsp Hn) as [Hold|[_ ->]].
  - destruct (decide (p = q /\ j = i)) as [[-> ->]|Hne].
    { intros _. rewrite (hangs_pte _ _ _ _ _ Hh). split; [apply flag_RWX_mk|]. rewrite (wf_inj _ _ _ _ Hwf _ _ _ Hsp path0_short Hold Hq). exact H0. }
    rewrite (load_old path p j Hsp Hold Hj); [exact (Hp path j p Hs Hold)|]. destruct (decide (p = q)); [right; intros ->; apply Hne; auto|left; assumption].
  - rewrite load_zero; [discriminate|]. intros x Hx. apply (hangs_zero _ _ _ _ _ Hh). eapply slot_in_page; eassumption.
Qed.
End Extend.

(** ** Growing a table

    What an operation that may take pages from the allocator for interior
    tables does to everything else: [l] and [l'] are the free pages before and
    after. *)
Record grows (root : Z) (s : kst) (l : list Z) (s' : kst) (l' : list Z) : Prop := {
  gr_inv : kinv s' l';
  gr_end : kend s' = kend s;
  gr_wf : pt_wf (kend s) (phys s') root l';
  gr_free : suffix l' l;
  gr_nodes : forall path p, short path -> node (phys s') root path = Some p ->
    node (phys s) root path = Some p \/ p ∈ l;
  gr_kept : forall path p, short path -> node (phys s) root path = Some p ->
    node (phys s') root path = Some p;
  gr_frame : forall x,
    (forall p, p ∈ l -> ~ in_page p x) ->
    (forall path p, short path -> node (phys s) root path = Some p -> ~ in_page p x) ->
    phys s' x = phys s x;
  gr_used : forall p, p ∈ l -> p ∈ l' \/ exists path, short path /\ node (phys s') root path = Some p;
  gr_plain : plain (phys s) root -> plain (phys s') root
}.

Lemma grows_refl root s l : kinv s l -> pt_wf (kend s) (phys s) root l -> grows root s l s l.
Proof. intros Hk Hw. split; auto. Qed.

Lemma grows_trans root s1 l1 s2 l2 s3 l3 :
  grows root s1 l1 s2 l2 -> grows root s2 l2 s3 l3 -> grows root s1 l1 s3 l3.
Proof.
  intros [I1 E1 W1 F1 N1 K1 R1 U1 P1] [I2 E2 W2 F2 N2 K2 R2 U2 P2].
  assert (Hin : forall p, p ∈ l2 -> p ∈ l1).
  { intros p Hp. destruct F1 as [k ->]. apply elem_of_app. right. exact Hp. }
  split; auto.
  - congruence.
  - rewrite <- E1. exact W2.
  - etransitivity; eassumption.
  - intros path p Hs Hn. destruct (N2 path p Hs Hn) as [Hn'|Hp]; auto.
  - intros x Hl Hn. rewrite R2, R1; auto.
    intros path p Hs Hn'. destruct (N1 path p Hs Hn') as [Hn''|Hp]; eauto.
  - intros p Hp. destruct (U1 p Hp) as [Hp2|(path & Hs & Hn)]; [auto|]. right. exists path. auto.
Qed.

(** Writes outside the free pages keep the allocator's invariant. *)
Lemma kinv_write s l m' :
  kinv s l -> byte_mem m' ->
  (forall p x, p ∈ l -> in_page p x -> m' x = phys s x) ->
  kinv (set_phys m' s) l.
Proof.
  intros [Hl Hnd Hpg He Hb Hu] Hm Hx. split; simpl; auto.
  eapply flist_ext; [|exact Hl]. exact Hx.
Qed.

(** The two writes that hang the cleared page [pt] from entry [i] of [q]. *)
Definition link_table (m : mem) (q i pt : Z) : mem :=
  store_le (memset m pt 0 PGSIZE) (q + 8 * i) 8 (Z.lor (PA2PTE pt) PTE_V).

Lemma link_table_hangs e m m1 q i pt :
  0 < e -> page_ok e q -> page_ok e pt -> q <> pt -> idx i ->
  (forall x, ~ in_page pt x -> m1 x = m x) -> hangs m (link_table m1 q i pt) q i pt.
Proof.
  intros He Hq Hpt Hne Hi Ho. unfold link_table. split.
  - intros x Hx Hx'. rewrite store_le_outside by lia.
    rewrite memset_out by (unfold in_page, PGSIZE in *; lia). apply Ho, Hx.
  - intros x Hx. assert (Hx' : ~ (q + 8 * i <= x < q + 8 * i + 8)).
    { intros H. apply (page_ok_ne _ pt q Hpt Hq (not_eq_sym Hne) x Hx).
      eapply slot_in_page; eassumption. }
    rewrite store_le_outside by lia.
    rewrite memset_in by (unfold in_page, PGSIZE in *; lia). reflexivity.
  - change PTE_V with 1. destruct Hpt as [Ha Hb].
    rewrite mkpte by (unfold PGSIZE, PHYSTOP, KERNBASE in *; lia).
    apply load_store8. unfold PHYSTOP, KERNBASE in *. dlia.
Qed.

Lemma link_table_byte_mem m q i pt : byte_mem m -> byte_mem (link_table m q i pt).
Proof. intros H. apply store_le_byte_mem, memset_byte_mem; [unfold PGSIZE; lia|exact H]. Qed.

(** Taking the page [pt] off the free list, clearing it and hanging it from a
    free entry of an existing table page. *)
Lemma hang_new_table root s pt l s1 m3 path0 q i :
  kinv s (pt :: l) -> pt_wf (kend s) (phys s) root (pt :: l) ->
  short (path0 ++ [i]) -> (path0 = [] -> i < 256) -> node (phys s) root path0 = Some q -> child (phys s) q i = None ->
  kinv s1 l -> only_page pt s s1 -> page_ok (kend s) pt -> pt ∉ l ->
  hangs (phys s) m3 q i pt -> byte_mem m3 ->
  grows root s (pt :: l) (set_phys m3 s1) l /\ node m3 root (path0 ++ [i]) = Some pt /\
  forall va, pt_map m3 root va = pt_map (phys s) root va.
Proof.
  intros Hk Hw Hs Htop Hq Hc Hk1 [He1 Ho1] Hpt Hnin Hh Hb.
  assert (Hs0 : short path0).
  { pose proof (short_take (length path0) _ Hs) as H. rewrite take_app_length in H. exact H. }
  assert (Hi : idx i).
  { destruct Hs as [_ Hf]. apply Forall_app in Hf as [_ Hf]. inversion Hf. assumption. }
  destruct (wf_page _ _ _ _ Hw _ _ Hs0 Hq) as [Hqok Hqn].
  pose proof (kinv_nodup _ _ Hk) as Hnd.
  assert (Hout : forall x, ~ in_page pt x -> ~ in_page q x -> m3 x = phys s x).
  { intros x Hx Hx'. apply (hangs_same _ _ _ _ _ Hh); [exact Hx|].
    unfold in_page, idx, PGSIZE in *. lia. }
  split; [|split; [eapply extend_node; eauto|intros va; eapply extend_map; eauto]].
  split; simpl; auto.
  - apply kinv_write; [exact Hk1|exact Hb|]. intros p x Hp Hx.
    assert (Hpok : page_ok (kend s) p).
    { rewrite <- He1. pose proof (kinv_pages _ _ Hk1) as Hf. rewrite Forall_forall in Hf. auto. }
    assert (Hpx : ~ in_page pt x) by (eapply (page_ok_ne _ p pt); eauto; intros ->; contradiction).
    rewrite Ho1 by exact Hpx. apply Hout; [exact Hpx|].
    eapply (page_ok_ne (kend s) p q); eauto. intros ->. apply Hqn. right. exact Hp.
  - eapply extend_wf; eauto.
  - exists [pt]. reflexivity.
  - intros path p Hsp Hn.
    destruct (node_new_cases (kend s) _ _ root l path0 q i pt Hw Hnd Hs Hq Hc Hpt Hh path p Hsp Hn)
      as [H|[_ ->]]; [left; exact H|right; left].
  - intros path p Hsp Hn. eapply node_old_kept; eauto.
  - intros x Hl Hn. apply Hout; [apply Hl; left|eapply Hn; eauto].
  - intros p [->|Hp]%elem_of_cons; [|auto]. right. exists (path0 ++ [i]). split; [exact Hs|]. eapply extend_node; eauto.
  - eapply extend_plain; eauto.
Qed.

Lemma leaf_slot_pos e m root l va a :
  pt_wf e m root l -> leaf_slot m root va = Some a -> 0 < a.
Proof.
  unfold leaf_slot. intros Hw Ha.
  destruct (node m root (path_of va)) as [p|] eqn:Ep; [|discriminate]. simplify_eq.
  destruct (wf_page _ _ _ _ Hw _ _ (short_path_of va) Ep) as [[_ Hp] _].
  pose proof (wf_end _ _ _ _ Hw). pose proof (PX_bound 0 va). lia.
Qed.

Lemma path_of_take va n : (n <= 1)%nat ->
  path_of va = take n (path_of va) ++ PX (2 - Z.of_nat n) va :: drop (S n) (path_of va).
Proof. intros H. destruct n as [|[|n]]; [reflexivity|reflexivity|lia]. Qed.

Lemma short_path_take va n : (n <= 1)%nat -> short (take n (path_of va) ++ [PX (2 - Z.of_nat n) va]).
Proof.
  intros H. pose proof (short_take (S n) _ (short_path_of va)) as Hs.
  destruct n as [|[|n]]; [exact Hs|exact Hs|lia].
Qed.

Lemma PX_top va : 0 <= va < MAXVA -> PX 2 va < 256.
Proof. intros Hva. rewrite PX_eq by lia. change MAXVA with (2 ^ 38) in Hva. change (2 ^ (12 + 9 * 2)) with 1073741824. dlia. Qed.

(** How many tables on the way to [va] are missing, from a level on. *)
Definition gone (m : mem) (root : Z) (path : list Z) : Z := match node m root path with Some _ => 0 | None => 1 end.
Fixpoint absent (m : mem) (root va : Z) (level : nat) : Z :=
  match level with
  | O => 0
  | S lv => gone m root (take (2 - lv) (path_of va)) + absent m root va lv
  end.

Lemma absent_bound m root va level : 0 <= absent m root va level <= Z.of_nat level.
Proof. induction level as [|level IH]; cbn [absent]; [lia|]. unfold gone. destruct (node _ _ _); lia. Qed.

Lemma gone_app m root path path' : gone m root path = 1 -> gone m root (path ++ path') = 1.
Proof. unfold gone. rewrite node_app. destruct (node m root path); [discriminate|reflexivity]. Qed.

Lemma absent_all m root va level : (level <= 1)%nat -> gone m root (take (2 - level) (path_of va)) = 1 -> absent m root va (S level) = Z.of_nat (S level).
Proof.
  intros Hl Hg. destruct level as [|[|level]]; [| |lia]; cbn [absent]; rewrite Hg; [reflexivity|].
  change (take (2 - 0) (path_of va)) with (take (2 - 1) (path_of va) ++ [PX 1 va]). rewrite gone_app by exact Hg. reflexivity.
Qed.

Lemma walk_alloc_loop root va : 0 <= va < MAXVA -> forall level s l q,
  (level <= 2)%nat -> kinv s l -> pt_wf (kend s) (phys s) root l ->
  node (phys s) root (take (2 - level) (path_of va)) = Some q ->
  exists r s' l', walk_loop level q va true s = Ret r s' /\ grows root s l s' l' /\
    (forall va', pt_map (phys s') root va' = pt_map (phys s) root va') /\
    ((r = 0 /\ l' = [] /\ Z.of_nat (length l) < absent (phys s) root va level) \/
     leaf_slot (phys s') root va = Some r /\ Z.of_nat (length l) <= Z.of_nat (length l') + absent (phys s) root va level).
Proof.
  intros Hva. induction level as [|level IH]; intros s l q Hl Hk Hw Hq.
  - exists (q + 8 * PX 0 va), s, l. split; [reflexivity|]. split; [apply grows_refl; assumption|].
    split; [reflexivity|]. right. unfold leaf_slot. change (take (2 - 0) (path_of va)) with (path_of va) in Hq.
    rewrite Hq. split; [reflexivity|]. cbn [absent]. lia.
  - cbn [walk_loop]. unfold ld64. rewrite bind_gets.
    assert (Hlev : Z.of_nat (S level) = 2 - Z.of_nat (2 - S level)) by lia.
    assert (Htake : take (2 - level) (path_of va) =
      take (2 - S level) (path_of va) ++ [PX (2 - Z.of_nat (2 - S level)) va]).
    { destruct level as [|[|level]]; [reflexivity|reflexivity|lia]. }
    rewrite Hlev. set (i := PX _ va) in *.
    destruct (child (phys s) q i) as [q'|] eqn:Ec; unfold child in Ec;
      destruct (flag _ PTE_V) eqn:Ef; try discriminate.
    + simplify_eq. assert (Hn : node (phys s) root (take (2 - level) (path_of va)) = Some (PTE2PA (load (phys s) (q + 8 * i) 8))).
      { rewrite Htake, node_app, Hq. simpl. unfold child. rewrite Ef. reflexivity. }
      cbn [absent]. unfold gone at 1 2. rewrite Hn, Z.add_0_l. apply IH; auto. lia.
    + assert (Hab : absent (phys s) root va (S level) = Z.of_nat (S level)).
      { apply absent_all; [lia|]. unfold gone. rewrite Htake, node_app, Hq. simpl. unfold child. rewrite Ef. reflexivity. }
      cbn [negb]. destruct l as [|pt l].
      { rewrite (bind_ret_l _ _ _ _ _ (kalloc_empty s Hk)). exists 0, s, [].
        split; [reflexivity|]. split; [apply grows_refl; assumption|]. split; [reflexivity|]. left. split_and!; [reflexivity..|]. rewrite Hab. cbn [length]. lia. }
      destruct (kalloc_spec s pt l Hk) as (s1 & Ek & Hk1 & Ho & Hn & Hp & _).
      rewrite (bind_ret_l _ _ _ _ _ Ek).
      assert (E : (pt =? 0) = false) by (pose proof (wf_end _ _ _ _ Hw); destruct Hp; lia). rewrite E.
      unfold memset_k, st64. rewrite !bind_modify.
      assert (Hc : child (phys s) q i = None) by (unfold child; rewrite Ef; reflexivity).
      assert (Hsh : short (take (2 - S level) (path_of va) ++ [i])) by (apply short_path_take; lia).
      assert (Hh : hangs (phys s) (link_table (phys s1) q i pt) q i pt).
      { destruct (wf_page _ _ _ _ Hw _ _ (short_take _ _ (short_path_of va)) Hq) as [Hqok Hqn].
        destruct Ho as [_ Ho]. apply (link_table_hangs (kend s)); auto.
        - apply Hk.
        - intros ->. apply Hqn. left.
        - apply PX_bound. lia. }
      assert (Htop : take (2 - S level) (path_of va) = [] -> i < 256) by (destruct level as [|[|level]]; [discriminate|intros _; apply PX_top, Hva|lia]).
      destruct (hang_new_table root s pt l s1 _ _ q i Hk Hw Hsh Htop Hq Hc Hk1 Ho Hp Hn Hh)
        as (Hg & Hnode & Hmap); [apply link_table_byte_mem, Hk1|].
      change (set_phys _ _) with (set_phys (link_table (phys s1) q i pt) s1).
      set (s3 := set_phys _ s1) in *.
      destruct (IH s3 l pt) as (r & s' & l' & Er & Hg' & Hm' & Hr).
      * lia.
      * apply (gr_inv _ _ _ _ _ Hg).
      * rewrite (gr_end _ _ _ _ _ Hg). apply (gr_wf _ _ _ _ _ Hg).
      * rewrite Htake. exact Hnode.
      * exists r, s', l'. split; [exact Er|]. split; [eapply grows_trans; eassumption|].
        split; [intros va'; rewrite Hm'; apply Hmap|]. rewrite Hab. pose proof (absent_bound (phys s3) root va level). cbn [length].
        destruct Hr as [(-> & -> & Hr)|[Hr1 Hr2]]; [left|right]; split_and!; auto; lia.
Qed.

Lemma walk_alloc root va s l :
  0 <= va < MAXVA -> kinv s l -> pt_wf (kend s) (phys s) root l ->
  exists r s' l', walk root va true s = Ret r s' /\ grows root s l s' l' /\
    (forall va', pt_map (phys s') root va' = pt_map (phys s) root va') /\
    ((r = 0 /\ l' = [] /\ Z.of_nat (length l) < absent (phys s) root va 2) \/
     leaf_slot (phys s') root va = Some r /\ Z.of_nat (length l) <= Z.of_nat (length l') + absent (phys s) root va 2).
Proof.
  intros Hva Hk Hw. unfold walk. destruct (_ <=? _) eqn:E; [lia|].
  apply walk_alloc_loop; auto.
Qed.

(** ** Writing leaf entries *)

(** Virtual addresses of the same page share the entry; others do not. *)
Lemma same_slot va va' :
  va / 4096 = va' / 4096 -> path_of va = path_of va' /\ PX 0 va = PX 0 va'.
Proof.
  assert (H : forall x k, 0 <= k -> x / 2 ^ (12 + 9 * k) = x / 4096 / 2 ^ (9 * k)).
  { intros x k Hk. rewrite Z.pow_add_r by lia. rewrite <- Z.div_div by lia. reflexivity. }
  intros E. unfold path_of. rewrite !PX_eq, !H, E by lia. split; reflexivity.
Qed.

Lemma page_number_PX va : 0 <= va < MAXVA ->
  va / 4096 = PX 2 va * 262144 + PX 1 va * 512 + PX 0 va.
Proof.
  intros H. rewrite !PX_eq by lia. change MAXVA with (2 ^ 38) in H.
  change (2 ^ (12 + 9 * 2)) with (4096 * 512 * 512).
  change (2 ^ (12 + 9 * 1)) with (4096 * 512). change (2 ^ (12 + 9 * 0)) with 4096.
  rewrite <- !Z.div_div by lia. set (n := va / 4096).
  assert (0 <= n < 2 ^ 26) by (unfold n; dlia). dlia.
Qed.

Lemma other_slot va va' :
  0 <= va < MAXVA -> 0 <= va' < MAXVA -> va / 4096 <> va' / 4096 ->
  path_of va <> path_of va' \/ PX 0 va <> PX 0 va'.
Proof.
  intros H H' Hne. destruct (decide (PX 0 va = PX 0 va')) as [E|]; [left|right; assumption].
  intros Hp. unfold path_of in Hp. apply Hne. rewrite !page_number_PX by assumption. congruence.
Qed.

Lemma pt_map_page m root va va' : va / 4096 = va' / 4096 -> pt_map m root va = pt_map m root va'.
Proof.
  intros E. apply same_slot in E as [Ep Ex]. unfold pt_map, leaf_slot. rewrite Ep, Ex. reflexivity.
Qed.

(** The valid entry a 64-bit word stands for. *)
Definition valid (v : Z) : option Z := if flag v PTE_V then Some v else None.

Lemma leaf_store e m root l va a v :
  pt_wf e m root l -> leaf_slot m root va = Some a ->
  exists p i, a = p + 8 * i /\ node m root (path_of va) = Some p /\ idx i /\
    forall path, short path -> node (store_le m a 8 v) root path = node m root path.
Proof.
  unfold leaf_slot. intros Hw Ha.
  destruct (node m root (path_of va)) as [p|] eqn:Ep; [|discriminate]. simplify_eq.
  exists p, (PX 0 va). split; [reflexivity|]. split; [reflexivity|].
  split; [apply PX_bound; lia|]. intros path Hs.
  eapply (node_store_leaf _ _ _ _ Hw (path_of va)); eauto using short_path_of. apply PX_bound. lia.
Qed.

Lemma pt_map_leaf_store e m root l va a v va' :
  pt_wf e m root l -> leaf_slot m root va = Some a ->
  0 <= va < MAXVA -> 0 <= va' < MAXVA -> 0 <= v < 2 ^ 64 ->
  pt_map (store_le m a 8 v) root va' =
  if va' / 4096 =? va / 4096 then valid v else pt_map m root va'.
Proof.
  intros Hw Ha Hva Hva' Hv.
  destruct (leaf_store e m root l va a v Hw Ha) as (p & i & -> & Hp & Hi & Hn).
  assert (Hslot : forall va0, leaf_slot (store_le m (p + 8 * i) 8 v) root va0 = leaf_slot m root va0).
  { intros va0. unfold leaf_slot. rewrite Hn by apply short_path_of. reflexivity. }
  destruct (Z.eqb_spec (va' / 4096) (va / 4096)) as [E|E].
  - rewrite (pt_map_page _ _ _ _ E). unfold pt_map. rewrite Hslot, Ha, load_store8 by exact Hv. reflexivity.
  - unfold pt_map. rewrite Hslot. destruct (leaf_slot m root va') as [a'|] eqn:Ea'; [|reflexivity].
    rewrite load_store_le_ne; [reflexivity|].
    destruct (leaf_slot_ne e m root l Hw va' va a' (p + 8 * i) Ea' Ha); [apply other_slot; auto| |]; lia.
Qed.

Lemma leaf_store_grows root s l va a v :
  kinv s l -> pt_wf (kend s) (phys s) root l -> leaf_slot (phys s) root va = Some a ->
  grows root s l (set_phys (store_le (phys s) a 8 v) s) l.
Proof.
  intros Hk Hw Ha. destruct (leaf_store _ _ _ _ va a v Hw Ha) as (p & i & -> & Hp & Hi & Hn).
  destruct (wf_page _ _ _ _ Hw _ _ (short_path_of va) Hp) as [Hpok Hpn].
  assert (Hout : forall x, ~ in_page p x -> store_le (phys s) (p + 8 * i) 8 v x = phys s x).
  { intros x Hx. apply store_le_outside. unfold in_page, idx, PGSIZE in *. lia. }
  split; auto; simpl.
  - apply kinv_write; [exact Hk|apply store_le_byte_mem, Hk|]. intros q x Hq Hx. apply Hout.
    pose proof (kinv_pages _ _ Hk) as Hf. rewrite Forall_forall in Hf.
    eapply (page_ok_ne (kend s) q p); eauto. intros ->. contradiction.
  - split; [apply Hw| |].
    + intros path q Hs. rewrite Hn by exact Hs. apply Hw, Hs.
    + intros path path' q Hs Hs'. rewrite !Hn by assumption. apply Hw; assumption.
  - intros path q Hs. rewrite Hn by exact Hs. auto.
  - intros path q Hs. rewrite Hn by exact Hs. auto.
  - intros x _ Hx. apply Hout. apply (Hx (path_of va)); auto using short_path_of.
  - apply (plain_ext (phys s)); [exact Hn|]. intros path j q Hs Hq. apply load_store_le_ne.
    destruct (short_snoc _ _ Hs) as [Hsp Hj]. destruct (wf_page _ _ _ _ Hw _ _ Hsp Hq) as [Hqok _].
    destruct (slots_disjoint (kend s) q p j i Hqok Hpok Hj Hi); [left| |]; [|lia..]. intros ->.
    pose proof (wf_inj _ _ _ _ Hw _ _ _ Hsp (short_path_of va) Hq Hp) as E. destruct Hs as [Hlen _]. rewrite length_app in Hlen.
    apply (f_equal length) in E. simpl in *. lia.
Qed.

(** ** Mapping a range *)

Definition leaf (pa perm : Z) : Z := pa / 4096 * 1024 + Z.lor perm 1.

Lemma lor_1_bound perm : 0 <= perm < 1024 -> 0 <= Z.lor perm 1 < 1024.
Proof. intros H. apply (lor_bound 10); [lia|exact H|]. change (2 ^ 10) with 1024. lia. Qed.

Lemma leaf_eq pa perm :
  pa mod 4096 = 0 -> 0 <= pa < 2 ^ 56 -> 0 <= perm < 1024 ->
  Z.lor (Z.lor (PA2PTE pa) perm) PTE_V = leaf pa perm.
Proof. intros. rewrite <- Z.lor_assoc. apply mkpte; auto. apply lor_1_bound. assumption. Qed.

Lemma leaf_bound pa perm : 0 <= pa < 2 ^ 56 -> 0 <= perm < 1024 -> 0 <= leaf pa perm < 2 ^ 54.
Proof. intros H Hp. apply lor_1_bound in Hp. unfold leaf. dlia. Qed.

Lemma flag_leaf p perm bit : 0 <= perm < 1024 -> 0 <= bit < 1024 -> Z.land 1 bit = 0 -> flag (leaf p perm) bit = flag perm bit.
Proof.
  intros Hp Hb H1. unfold flag, leaf. f_equal. f_equal.
  rewrite <- (Z.mod_small bit (2 ^ 10)) by (change (2 ^ 10) with 1024; lia). rewrite <- Z.land_ones, (Z.land_comm bit), !Z.land_assoc by lia.
  rewrite !Z.land_ones by lia. pose proof (lor_1_bound perm Hp). change (2 ^ 10) with 1024.
  replace ((p / 4096 * 1024 + Z.lor perm 1) mod 1024) with (Z.lor perm 1) by dlia. rewrite (Z.mod_small perm) by lia.
  rewrite Z.land_lor_distr_l, H1, Z.lor_0_r. reflexivity.
Qed.

Lemma leaf_valid pa perm : valid (leaf pa perm) = Some (leaf pa perm).
Proof.
  unfold valid, leaf. rewrite flag_V_mk, <- Z.bit0_odd, Z.lor_spec.
  change (Z.testbit 1 0) with true. rewrite orb_true_r. reflexivity.
Qed.

Lemma PTE2PA_leaf pa perm :
  pa mod 4096 = 0 -> 0 <= pa < 2 ^ 56 -> 0 <= perm < 1024 -> PTE2PA (leaf pa perm) = pa.
Proof. intros. apply PTE2PA_mk; auto. apply lor_1_bound. assumption. Qed.

(** The abstract effect: [k] pages from [a] on are mapped to the frames from
    [pa] on. *)
Definition map_pages (f : Z -> option Z) (a k pa perm va : Z) : option Z :=
  let i := va / 4096 - a / 4096 in
  if (0 <=? i) && (i <? k) then Some (leaf (pa + 4096 * i) perm) else f va.

Lemma map_pages_S f g a k pa perm va :
  a mod 4096 = 0 -> 0 <= k ->
  (forall va, 0 <= va < MAXVA ->
     g va = if va / 4096 =? a / 4096 then Some (leaf pa perm) else f va) ->
  0 <= va < MAXVA ->
  map_pages g (a + 4096) k (pa + 4096) perm va = map_pages f a (k + 1) pa perm va.
Proof.
  intros Ha Hk Hg Hva. unfold map_pages.
  replace ((a + 4096) / 4096) with (a / 4096 + 1) by dlia.
  set (i := va / 4096 - a / 4096). replace (va / 4096 - (a / 4096 + 1)) with (i - 1) by lia.
  rewrite Hg by exact Hva. destruct (decide (i = 0)) as [Ei|Ei].
  - assert (E : (va / 4096 =? a / 4096) = true) by lia. rewrite E, Ei.
    replace ((0 <=? 0 - 1) && _) with false by lia.
    replace ((0 <=? 0) && (0 <? k + 1)) with true by lia. f_equal. f_equal. lia.
  - assert (E : (va / 4096 =? a / 4096) = false) by lia. rewrite E.
    replace ((0 <=? i - 1) && (i - 1 <? k)) with ((0 <=? i) && (i <? k + 1)) by lia.
    destruct (_ && _); [|reflexivity]. f_equal. f_equal. lia.
Qed.

(** Tables passed on the way over [n] pages more. *)
Definition crossings (a n : Z) : Z := (a / 4096 + n) / 512 - a / 4096 / 512 + ((a / 4096 + n) / 262144 - a / 4096 / 262144).

Lemma absent_next m root a v : 0 <= a -> pt_map m root a = Some v -> absent m root (a + 4096) 2 <= crossings a 1.
Proof.
  intros Ha Hv. assert (Hq : exists q, node m root (path_of a) = Some q).
  { unfold pt_map, leaf_slot in Hv. destruct (node m root (path_of a)); [eauto|discriminate]. } destruct Hq as [q Hq].
  assert (E1 : PX 1 (a + 4096) = (a / 4096 + 1) / 512 mod 512 /\ PX 1 a = a / 4096 / 512 mod 512) by (rewrite !PX_eq by lia; change (2 ^ (12 + 9 * 1)) with 2097152; dlia).
  assert (E2 : PX 2 (a + 4096) = (a / 4096 + 1) / 262144 mod 512 /\ PX 2 a = a / 4096 / 262144 mod 512) by (rewrite !PX_eq by lia; change (2 ^ (12 + 9 * 2)) with 1073741824; dlia).
  pose proof (absent_bound m root (a + 4096) 2) as Hb. unfold crossings.
  destruct (Z.eqb_spec ((a / 4096 + 1) / 262144) (a / 4096 / 262144)) as [D2|D2]; [|dlia].
  assert (P2 : PX 2 (a + 4096) = PX 2 a) by (destruct E2 as [-> ->]; rewrite D2; reflexivity).
  assert (N1 : gone m root [PX 2 a] = 0).
  { unfold gone. unfold path_of in Hq. cbn [node] in *. destruct (child m root (PX 2 a)); [reflexivity|discriminate]. }
  cbn [absent]. change (take (2 - 1) (path_of (a + 4096))) with [PX 2 (a + 4096)]. rewrite P2, N1.
  change (take (2 - 0) (path_of (a + 4096))) with [PX 2 (a + 4096); PX 1 (a + 4096)]. rewrite P2.
  destruct (Z.eqb_spec ((a / 4096 + 1) / 512) (a / 4096 / 512)) as [D1|D1].
  - replace (PX 1 (a + 4096)) with (PX 1 a) by (destruct E1 as [-> ->]; rewrite D1; reflexivity). unfold path_of in Hq. unfold gone. rewrite Hq. lia.
  - rewrite D2. clear - D1. unfold gone. destruct (node _ _ _); dlia.
Qed.

Section Mappages.
Context (root perm : Z).
Hypothesis Hperm : 0 <= perm < 1024.

Lemma mappages_one s l a pa :
  0 <= a < MAXVA -> pa mod 4096 = 0 -> 0 <= pa < 2 ^ 56 ->
  kinv s l -> pt_wf (kend s) (phys s) root l -> pt_map (phys s) root a = None ->
  exists s' l', grows root s l s' l' /\
    ((forall f last, mappages_loop (S f) root a last pa perm s = Ret (-1) s') /\ (l' = [] /\ Z.of_nat (length l) < absent (phys s) root a 2) /\
     (forall va, 0 <= va < MAXVA -> pt_map (phys s') root va = pt_map (phys s) root va)
     \/
     (forall f last, mappages_loop (S f) root a last pa perm s =
        (if a =? last then ret 0
         else mappages_loop f root (u64 (a + PGSIZE)) last (u64 (pa + PGSIZE)) perm) s') /\
     (forall va, 0 <= va < MAXVA -> pt_map (phys s') root va =
        if va / 4096 =? a / 4096 then Some (leaf pa perm) else pt_map (phys s) root va) /\
     Z.of_nat (length l) <= Z.of_nat (length l') + absent (phys s) root a 2).
Proof using Hperm.
  intros Ha Hpa Hpb Hk Hw Hnone.
  destruct (walk_alloc root a s l Ha Hk Hw) as (r & s1 & l1 & Ew & Hg & Hm & Hr).
  destruct Hr as [(-> & -> & Hc)|[Hr Hc]].
  - exists s1, []. split; [exact Hg|]. left. split; [|split; auto].
    intros f last. cbn [mappages_loop]. rewrite (bind_ret_l _ _ _ _ _ Ew). reflexivity.
  - pose proof (gr_wf _ _ _ _ _ Hg) as Hw1. rewrite <- (gr_end _ _ _ _ _ Hg) in Hw1.
    pose proof (leaf_slot_pos _ _ _ _ _ _ Hw1 Hr) as Hpos.
    pose proof (leaf_store_grows root s1 l1 a r (leaf pa perm) (gr_inv _ _ _ _ _ Hg) Hw1 Hr) as Hg2.
    exists (set_phys (store_le (phys s1) r 8 (leaf pa perm)) s1), l1.
    split; [eapply grows_trans; eassumption|]. right. split; [|split; [|exact Hc]].
    + intros f last. cbn [mappages_loop]. rewrite (bind_ret_l _ _ _ _ _ Ew).
      destruct (Z.eqb_spec r 0) as [E|_]; [lia|].
      unfold ld64, st64. rewrite bind_gets.
      rewrite <- (Hm a) in Hnone. unfold pt_map in Hnone. rewrite Hr in Hnone.
      destruct (flag _ PTE_V); [discriminate|]. rewrite bind_modify, leaf_eq by assumption. reflexivity.
    + intros va Hva. simpl. pose proof (leaf_bound pa perm Hpb Hperm).
      rewrite (pt_map_leaf_store _ _ _ _ _ _ _ _ Hw1 Hr) by lia.
      rewrite leaf_valid, Hm. reflexivity.
Qed.

Lemma mappages_loop_spec : forall n s l a pa,
  0 <= a -> a mod 4096 = 0 -> a + 4096 * Z.of_nat (S n) <= MAXVA ->
  pa mod 4096 = 0 -> 0 <= pa -> pa + 4096 * Z.of_nat (S n) <= 2 ^ 56 ->
  kinv s l -> pt_wf (kend s) (phys s) root l ->
  (forall i, 0 <= i < Z.of_nat (S n) -> pt_map (phys s) root (a + 4096 * i) = None) ->
  let cost := absent (phys s) root a 2 + crossings a (Z.of_nat n) in
  exists r s' l' k,
    mappages_loop (S n) root a (a + 4096 * Z.of_nat n) pa perm s = Ret r s' /\
    grows root s l s' l' /\
    ((r = 0 /\ k = Z.of_nat (S n) \/ r = -1 /\ l' = [] /\ 0 <= k < Z.of_nat (S n)) /\
     (r = -1 -> Z.of_nat (length l) < cost) /\ (r = 0 -> Z.of_nat (length l) <= Z.of_nat (length l') + cost)) /\
    forall va, 0 <= va < MAXVA ->
      pt_map (phys s') root va = map_pages (pt_map (phys s) root) a k pa perm va.
Proof using Hperm.
  assert (HM : MAXVA = 2 ^ 38) by reflexivity.
  assert (Hpos : forall a n, 0 <= n -> 0 <= crossings a n) by (intros a n Hn; unfold crossings; dlia).
  induction n as [|n IH]; intros s l a pa Ha Hal Hend Hpa Hp0 Hpend Hk Hw Hfree cost; subst cost.
  all: destruct (mappages_one s l a pa) as (s1 & l1 & Hg & [(E & [-> Hc] & Hm)|(E & Hm & Hc)]); auto; try lia;
    try (rewrite <- (Z.add_0_r a); apply (Hfree 0); lia).
  1,3: exists (-1), s1, [], 0; split; [apply E|]; split; [exact Hg|]; split;
    [split; [right; repeat split; lia|split; [intros _; match goal with |- _ < _ + crossings _ ?n => specialize (Hpos a n ltac:(lia)) end; lia|discriminate]]|];
    intros va Hva; rewrite Hm by exact Hva; unfold map_pages;
    replace ((0 <=? _) && (_ <? 0)) with false by lia; reflexivity.
  - exists 0, s1, l1, 1. rewrite E. replace (a =? a + _) with true by lia.
    split; [reflexivity|]. split; [exact Hg|]. specialize (Hpos a (Z.of_nat 0) ltac:(lia)).
    split; [split; [left; lia|split; [discriminate|intros _; lia]]|]. intros va Hva.
    change 1 with (0 + 1). rewrite <- (map_pages_S _ (pt_map (phys s1) root)) by (auto; lia).
    unfold map_pages. replace ((0 <=? _) && (_ <? 0)) with false by lia. reflexivity.
  - rewrite E. replace (a =? a + _) with false by lia.
    unfold PGSIZE. rewrite !u64_small by lia.
    pose proof (gr_wf _ _ _ _ _ Hg) as Hw1. rewrite <- (gr_end _ _ _ _ _ Hg) in Hw1.
    assert (Hnext : absent (phys s1) root (a + 4096) 2 + crossings (a + 4096) (Z.of_nat n) <= crossings a (Z.of_nat (S n))).
    { pose proof (absent_next (phys s1) root a (leaf pa perm) Ha) as Hx. rewrite Hm, Z.eqb_refl in Hx by lia. specialize (Hx eq_refl).
      unfold crossings in *. replace ((a + 4096) / 4096) with (a / 4096 + 1) by dlia. replace (a / 4096 + 1 + Z.of_nat n) with (a / 4096 + Z.of_nat (S n)) by lia. lia. }
    destruct (IH s1 l1 (a + 4096) (pa + 4096)) as (r & s' & l' & k & Er & Hg' & (Hr & Hc1 & Hc2) & Hm'); try lia; try dlia; auto.
    + apply Hg.
    + intros i Hi. rewrite Hm by lia. replace (_ =? _) with false by dlia.
      replace (a + 4096 + 4096 * i) with (a + 4096 * (i + 1)) by lia. apply Hfree. lia.
    + replace (a + 4096 * Z.of_nat (S n)) with (a + 4096 + 4096 * Z.of_nat n) by lia.
      exists r, s', l', (k + 1). split; [exact Er|]. split; [eapply grows_trans; eassumption|].
      split; [split; [destruct Hr as [[-> ->]|(-> & -> & ?)]; [left|right]; repeat split; lia|split; intros Hz; [specialize (Hc1 Hz)|specialize (Hc2 Hz)]; lia]|].
      intros va Hva. rewrite Hm' by exact Hva. apply map_pages_S; auto; lia.
Qed.
End Mappages.

(** A cleared root page is a well-formed table that maps nothing. *)
Lemma node_empty m root path p :
  (forall x, in_page root x -> m x = 0) -> short path ->
  node m root path = Some p -> path = [] /\ p = root.
Proof.
  intros Hz Hs. destruct path as [|i path]; simpl; [intros; simplify_eq; auto|].
  destruct (short_cons _ _ Hs) as [_ Hi]. rewrite child_zero_page by assumption. discriminate.
Qed.

Lemma pt_wf_empty e m root l :
  0 < e -> page_ok e root -> root ∉ l -> (forall x, in_page root x -> m x = 0) ->
  pt_wf e m root l.
Proof.
  intros He Hp Hn Hz. split; [exact He| |].
  - intros path p Hs E. apply node_empty in E as [_ ->]; auto.
  - intros path path' p Hs Hs' E E'. apply node_empty in E as [-> _]; auto.
    apply node_empty in E' as [-> _]; auto.
Qed.

Lemma pt_map_empty m root va : (forall x, in_page root x -> m x = 0) -> pt_map m root va = None.
Proof.
  intros Hz. unfold pt_map, leaf_slot, path_of. cbn [node].
  rewrite child_zero_page; [reflexivity|exact Hz|apply PX_bound; lia].
Qed.

(** [mappages], with the number of pages it takes for tables. *)
Lemma mappages_run root va size pa perm s l :
  kinv s l -> pt_wf (kend s) (phys s) root l ->
  0 <= va -> va mod PGSIZE = 0 -> 0 < size -> size mod PGSIZE = 0 -> va + size <= MAXVA ->
  pa mod PGSIZE = 0 -> 0 <= pa -> pa + size <= 2 ^ 56 -> 0 <= perm < 1024 ->
  (forall a, va <= a < va + size -> pt_map (phys s) root a = None) ->
  let cost := absent (phys s) root va 2 + crossings va (size / PGSIZE - 1) in
  exists r s' l' k,
    mappages root va size pa perm s = Ret r s' /\ grows root s l s' l' /\
    ((r = 0 /\ k = size / PGSIZE \/ r = -1 /\ l' = [] /\ 0 <= k < size / PGSIZE) /\
     (r = -1 -> Z.of_nat (length l) < cost) /\ (r = 0 -> Z.of_nat (length l) <= Z.of_nat (length l') + cost)) /\
    forall a, 0 <= a < MAXVA ->
      pt_map (phys s') root a = map_pages (pt_map (phys s) root) va k pa perm a.
Proof.
  unfold PGSIZE. intros Hk Hw Hva Hal Hsz Hsal Hend Hpa Hp0 Hpend Hperm Hfree. cbv zeta.
  assert (HM : MAXVA = 2 ^ 38) by reflexivity.
  destruct (mappages_loop_spec root perm Hperm (Z.to_nat (size / 4096 - 1)) s l va pa)
    as (r & s' & l' & k & E & H); auto; try dlia.
  { intros i Hi. apply Hfree. dlia. }
  exists r, s', l', k.
  assert (Hn : Z.of_nat (S (Z.to_nat (size / 4096 - 1))) = size / 4096) by dlia.
  rewrite Hn, Z2Nat.id in H by dlia. split; [|exact H].
  unfold mappages, PGSIZE. rewrite Hal, Hsal. simpl.
  destruct (Z.eqb_spec size 0) as [|_]; [lia|].
  replace (Z.to_nat (size / 4096)) with (S (Z.to_nat (size / 4096 - 1))) by dlia.
  rewrite <- E. f_equal. rewrite u64_small by dlia. dlia.
Qed.

(** [mappages] maps exactly the requested pages.  On success every page of
    [va, va+size) has the entry for its frame and the permissions, and every
    other address keeps its entry; it fails only when the allocator is empty, and then
    a prefix of the range is mapped.  In both cases the table stays well
    formed, only free pages and table pages change, and no panic occurs. *)
Theorem mappages_correct root va size pa perm s l :
  kinv s l -> pt_wf (kend s) (phys s) root l ->
  0 <= va -> va mod PGSIZE = 0 -> 0 < size -> size mod PGSIZE = 0 -> va + size <= MAXVA ->
  pa mod PGSIZE = 0 -> 0 <= pa -> pa + size <= 2 ^ 56 -> 0 <= perm < 1024 ->
  (forall a, va <= a < va + size -> pt_map (phys s) root a = None) ->
  exists r s' l' k,
    mappages root va size pa perm s = Ret r s' /\ grows root s l s' l' /\
    (r = 0 /\ k = size / PGSIZE \/ r = -1 /\ l' = [] /\ 0 <= k < size / PGSIZE) /\
    forall a, 0 <= a < MAXVA ->
      pt_map (phys s') root a = map_pages (pt_map (phys s) root) va k pa perm a.
Proof.
  intros Hk Hw Hva Hal Hsz Hsal Hend Hpa Hp0 Hpend Hperm Hfree.
  destruct (mappages_run root va size pa perm s l) as (r & s' & l' & k & E & Hg & (Hr & _) & Hm); auto. exists r, s', l', k. auto.
Qed.

(** A small machine for examples: an empty root table and three free pages. *)
Definition ex_root : Z := KERNBASE + 4096.
Definition ex_p1 : Z := KERNBASE + 8192.
Definition ex_p2 : Z := KERNBASE + 12288.
Definition ex_p3 : Z := KERNBASE + 16384.
Definition ex_mem : mem := store_le (store_le (fun _ => 0) ex_p1 8 ex_p2) ex_p2 8 ex_p3.
Definition ex_state : kst := Kst ex_mem ex_p1 false (KERNBASE + 4096).

Lemma ex_kinv : kinv ex_state [ex_p1; ex_p2; ex_p3].
Proof.
  split; try reflexivity.
  - simpl. repeat (split; [vm_compute; reflexivity|]). vm_compute. reflexivity.
  - apply (bool_decide_unpack _). vm_compute. exact I.
  - repeat constructor; vm_compute; congruence.
  - do 2 apply store_le_byte_mem. intros x. lia.
Qed.

Lemma ex_zero x : in_page ex_root x -> ex_mem x = 0.
Proof.
  unfold in_page, ex_mem, ex_root, ex_p1, ex_p2, PGSIZE. intros Hx.
  rewrite !store_le_outside by lia. reflexivity.
Qed.

Lemma ex_wf : pt_wf (kend ex_state) (phys ex_state) ex_root [ex_p1; ex_p2; ex_p3].
Proof.
  apply pt_wf_empty; [reflexivity| | |exact ex_zero].
  - repeat split; vm_compute; congruence.
  - apply (bool_decide_unpack _). vm_compute. exact I.
Qed.

Lemma mappages_correct_witness :
  exists r s' l' k,
    mappages ex_root 8192 4096 ex_p3 22 ex_state = Ret r s' /\
    grows ex_root ex_state [ex_p1; ex_p2; ex_p3] s' l' /\
    (r = 0 /\ k = 4096 / PGSIZE \/ r = -1 /\ l' = [] /\ 0 <= k < 4096 / PGSIZE) /\
    forall a, 0 <= a < MAXVA ->
      pt_map (phys s') ex_root a = map_pages (pt_map (phys ex_state) ex_root) 8192 k ex_p3 22 a.
Proof.
  apply (mappages_correct ex_root 8192 4096 ex_p3 22 ex_state [ex_p1; ex_p2; ex_p3] ex_kinv ex_wf);
    [closed..|]. intros a _. apply pt_map_empty, ex_zero.
Defined.
