(* ===== verification/AddressSpace.v ===== *)
(** * User address spaces

    What the operations of [kernel/vm.c] on user memory promise: an address
    space ([as_wf]) is a well-formed table whose user mappings own their page
    frames, that is, frames come from the allocator, are not free, are not
    table pages, and no two pages share one.  [umem] is the user's view: a
    partial function from virtual addresses to bytes.  [top] is the end of the
    user part; the trapframe and trampoline pages above it are shared and are
    not owned. *)

From S2P Require Import Prelude CString Riscv Kalloc Vm PageTable.

Definition table_page (m : mem) (root p : Z) : Prop :=
  exists path, short path /\ node m root path = Some p.

Record as_wf (top root : Z) (s : kst) (l : list Z) : Prop := {
  as_inv : kinv s l;
  as_pt : pt_wf (kend s) (phys s) root l;
  as_page : forall va v, 0 <= va < top -> pt_map (phys s) root va = Some v ->
    page_ok (kend s) (PTE2PA v) /\ (PTE2PA v ∉ l) /\ ~ table_page (phys s) root (PTE2PA v);
  as_inj : forall va va' v v', 0 <= va < top -> 0 <= va' < top ->
    pt_map (phys s) root va = Some v -> pt_map (phys s) root va' = Some v' ->
    PTE2PA v = PTE2PA v' -> va / 4096 = va' / 4096
}.

(** The byte user code sees at [va]. *)
Definition umem (m : mem) (root va : Z) : option Z :=
  match pt_map m root va with
  | Some v => Some (m (PTE2PA v + va mod 4096))
  | None => None
  end.

(** Writes outside the table pages leave the table alone. *)
Lemma tables_ext m m' root :
  (forall p x, table_page m root p -> in_page p x -> m' x = m x) ->
  (forall path, short path -> node m' root path = node m root path) /\
  (forall va, pt_map m' root va = pt_map m root va).
Proof.
  intros H. assert (Hn : forall path, short path -> node m' root path = node m root path).
  { intros path Hs. apply node_ext. intros k q i Hq Hi. apply child_ext. intros x Hx.
    apply (H q); [exists (take k path); split; [apply short_take, Hs|exact Hq]|].
    eapply slot_in_page; [|exact Hx]. destruct Hs as [_ Hf]. rewrite Forall_lookup in Hf. eauto. }
  split; [exact Hn|]. intros va. unfold pt_map, leaf_slot. rewrite Hn by apply short_path_of.
  destruct (node m root (path_of va)) as [p|] eqn:Ep; [|reflexivity].
  rewrite (load_ext 8 m' m); [reflexivity|]. intros x Hx.
  apply (H p); [exists (path_of va); auto using short_path_of|].
  eapply slot_in_page; [|exact Hx]. apply PX_bound. lia.
Qed.

Lemma tables_plain m m' root :
  (forall p x, table_page m root p -> in_page p x -> m' x = m x) -> plain m root -> plain m' root.
Proof.
  intros H. destruct (tables_ext m m' root H) as [Hn _]. apply plain_ext; [exact Hn|]. intros path i q Hs Hq.
  destruct (short_snoc _ _ Hs) as [Hsp Hi]. apply load_ext. intros x Hx. apply (H q); [exists path; auto|].
  eapply slot_in_page; eassumption.
Qed.

Lemma pt_wf_ext e m m' root l l' :
  pt_wf e m root l ->
  (forall path, short path -> node m' root path = node m root path) ->
  (forall p, p ∈ l' -> p ∈ l \/ ~ table_page m root p) -> pt_wf e m' root l'.
Proof.
  intros Hw Hn Hl. split; [apply Hw| |].
  - intros path p Hs. rewrite Hn by exact Hs. intros Hp.
    destruct (wf_page _ _ _ _ Hw _ _ Hs Hp) as [H1 H2]. split; [exact H1|]. intros Hin.
    destruct (Hl p Hin) as [?|Ht]; [contradiction|]. apply Ht. exists path. auto.
  - intros path path' p Hs Hs'. rewrite !Hn by assumption. apply Hw; assumption.
Qed.

Lemma table_page_ext m m' root p :
  (forall path, short path -> node m' root path = node m root path) ->
  table_page m' root p <-> table_page m root p.
Proof.
  intros Hn. split; intros (path & Hs & Hp); exists path; (split; [exact Hs|]);
    [rewrite <- Hn by exact Hs|rewrite Hn by exact Hs]; exact Hp.
Qed.

(** The frame of a user page, by its virtual address. *)
Lemma as_page_free top root s l va v p :
  as_wf top root s l -> 0 <= va < top -> pt_map (phys s) root va = Some v ->
  p ∈ l -> forall x, in_page (PTE2PA v) x -> ~ in_page p x.
Proof.
  intros Ha Hva Hv Hp x. destruct (as_page _ _ _ _ Ha va v Hva Hv) as (Hok & Hn & _).
  pose proof (kinv_pages _ _ (as_inv _ _ _ _ Ha)) as Hf. rewrite Forall_forall in Hf.
  eapply (page_ok_ne (kend s)); eauto. intros <-. contradiction.
Qed.

Lemma as_page_table top root s l va v p :
  as_wf top root s l -> 0 <= va < top -> pt_map (phys s) root va = Some v ->
  table_page (phys s) root p -> forall x, in_page (PTE2PA v) x -> ~ in_page p x.
Proof.
  intros Ha Hva Hv Ht x. destruct (as_page _ _ _ _ Ha va v Hva Hv) as (Hok & _ & Hn).
  destruct Ht as (path & Hs & Hp) eqn:Et.
  destruct (wf_page _ _ _ _ (as_pt _ _ _ _ Ha) _ _ Hs Hp) as [Hpok _].
  eapply (page_ok_ne (kend s)); eauto. intros <-. apply Hn. exists path. auto.
Qed.

(** ** Unmapping *)

(** [n] pages from [a] on have been unmapped and freed. *)
Record unmapped (top root a n : Z) (s : kst) (l : list Z) (s' : kst) (l' : list Z) : Prop := {
  um_as : as_wf top root s' l';
  um_end : kend s' = kend s;
  um_map : forall va, 0 <= va < MAXVA -> pt_map (phys s') root va =
    if (a / 4096 <=? va / 4096) && (va / 4096 <? a / 4096 + n) then None
    else pt_map (phys s) root va;
  um_node : forall path, short path -> node (phys s') root path = node (phys s) root path;
  um_free : forall p, p ∈ l' <-> p ∈ l \/ exists va v, 0 <= va < top /\
    a / 4096 <= va / 4096 < a / 4096 + n /\ pt_map (phys s) root va = Some v /\ p = PTE2PA v;
  um_frame : forall x, (forall p, table_page (phys s) root p -> ~ in_page p x) ->
    (forall p, p ∈ l' -> ~ in_page p x) -> phys s' x = phys s x;
  um_plain : plain (phys s) root -> plain (phys s') root
}.

Lemma unmap_none top root a s l :
  as_wf top root s l -> pt_map (phys s) root a = None ->
  unmapped top root a 1 s l s l.
Proof.
  intros Ha Hn.
  assert (Hsame : forall va, a / 4096 <= va / 4096 < a / 4096 + 1 -> pt_map (phys s) root va = None).
  { intros va Hva. rewrite (pt_map_page _ _ va a) by lia. exact Hn. }
  split; auto.
  - intros va _. destruct (_ && _) eqn:E; [|reflexivity]. apply Hsame. lia.
  - intros p. split; [auto|]. intros [H|(va & v & _ & Hr & Hv & _)]; [exact H|].
    rewrite Hsame in Hv by lia. discriminate.
Qed.

Lemma unmap_some top root a v slot s l s1 :
  as_wf top root s l -> 0 <= a < top -> top <= MAXVA ->
  leaf_slot (phys s) root a = Some slot -> pt_map (phys s) root a = Some v ->
  kinv s1 (PTE2PA v :: l) -> only_page (PTE2PA v) s s1 ->
  unmapped top root a 1 s l (set_phys (store_le (phys s1) slot 8 0) s1) (PTE2PA v :: l).
Proof.
  intros Ha Hr Htop Hslot Hv Hk1 [He1 Ho1].
  destruct (as_page _ _ _ _ Ha a v Hr Hv) as (Hok & Hnl & Hnt).
  destruct (tables_ext (phys s) (phys s1) root) as [Hn1 Hm1].
  { intros p x Hp Hx. apply Ho1. intros Hx'. eapply (as_page_table _ _ _ _ a v p); eauto. }
  assert (Hw1 : pt_wf (kend s1) (phys s1) root (PTE2PA v :: l)).
  { rewrite He1. eapply pt_wf_ext; [apply Ha|exact Hn1|]. intros p Hp.
    apply elem_of_cons in Hp as [->|Hp]; auto. }
  assert (Hs1 : leaf_slot (phys s1) root a = Some slot).
  { unfold leaf_slot in *. rewrite Hn1 by apply short_path_of. exact Hslot. }
  pose proof (leaf_store_grows root s1 _ a slot 0 Hk1 Hw1 Hs1) as Hg.
  destruct (leaf_store _ _ _ _ a slot 0 Hw1 Hs1) as (pg & i & -> & Hpg & Hi & Hn2).
  set (m2 := store_le _ _ _ _) in *.
  assert (Hm2 : forall va, 0 <= va < MAXVA -> pt_map m2 root va =
    if va / 4096 =? a / 4096 then None else pt_map (phys s) root va).
  { intros va Hva. unfold m2. rewrite (pt_map_leaf_store _ _ _ _ _ _ _ _ Hw1 Hs1) by lia.
    rewrite Hm1. reflexivity. }
  assert (Hold : forall va w, 0 <= va < top -> pt_map m2 root va = Some w ->
    va / 4096 <> a / 4096 /\ pt_map (phys s) root va = Some w).
  { intros va w Hva. rewrite Hm2 by lia. destruct (Z.eqb_spec (va / 4096) (a / 4096)); [discriminate|auto]. }
  assert (Hnode : forall path, short path -> node m2 root path = node (phys s) root path).
  { intros path Hs. rewrite Hn2, Hn1 by exact Hs. reflexivity. }
  split; simpl; auto.
  - split; simpl; [apply Hg|apply Hg| |].
    + intros va w Hva Hw. apply Hold in Hw as [Hne Hw]; [|exact Hva].
      destruct (as_page _ _ _ _ Ha va w Hva Hw) as (H1 & H2 & H3).
      rewrite He1. split; [exact H1|]. split; [|rewrite table_page_ext by exact Hnode; exact H3].
      intros Hin. apply elem_of_cons in Hin as [Hin|Hin]; [|contradiction].
      apply Hne. apply (as_inj _ _ _ _ Ha va a w v); auto.
    + intros va va' w w' Hva Hva' Hw Hw'. apply Hold in Hw as [_ Hw]; [|exact Hva].
      apply Hold in Hw' as [_ Hw']; [|exact Hva']. eapply (as_inj _ _ _ _ Ha); eauto.
  - intros va Hva. rewrite Hm2 by exact Hva.
    replace ((a / 4096 <=? va / 4096) && _) with (va / 4096 =? a / 4096) by lia. reflexivity.
  - intros p. rewrite elem_of_cons. split.
    + intros [->|Hp]; [right; exists a, v; repeat split; auto; lia|auto].
    + intros [Hp|(va & w & Hva & Hr' & Hw & ->)]; [auto|].
      rewrite (pt_map_page _ _ va a) in Hw by lia. left. congruence.
  - intros x Ht Hl. unfold m2. rewrite store_le_outside, Ho1; [reflexivity|apply Hl; left|].
    assert (~ in_page pg x); [|unfold in_page, idx, PGSIZE in *; lia].
    apply Ht. exists (path_of a). split; [apply short_path_of|]. rewrite <- Hn1 by apply short_path_of. exact Hpg.
  - intros Hp. apply (gr_plain _ _ _ _ _ Hg). revert Hp. apply tables_plain.
    intros p x Hp Hx. apply Ho1. intros Hx'. eapply (as_page_table _ _ _ _ a v p); eauto.
Qed.

Lemma unmap_page_spec top root a s l :
  as_wf top root s l -> 0 <= a < top -> top <= MAXVA ->
  exists s' l', unmap_page root a true s = Ret tt s' /\ unmapped top root a 1 s l s' l'.
Proof.
  intros Ha Hr Htop. unfold unmap_page.
  rewrite (bind_ret_l _ _ _ _ _ (walk_lookup s root a ltac:(lia))).
  destruct (leaf_slot (phys s) root a) as [slot|] eqn:Es; simpl.
  - pose proof (leaf_slot_pos _ _ _ _ _ _ (as_pt _ _ _ _ Ha) Es).
    destruct (Z.eqb_spec slot 0) as [|_]; [lia|]. unfold ld64, st64. rewrite bind_gets.
    destruct (flag _ PTE_V) eqn:Ef; simpl.
    + assert (Hv : pt_map (phys s) root a = Some (load (phys s) slot 8))
        by (unfold pt_map; rewrite Es, Ef; reflexivity).
      destruct (as_page _ _ _ _ Ha a _ Hr Hv) as (Hok & Hnl & _).
      destruct (kfree_spec s l _ (as_inv _ _ _ _ Ha) Hok Hnl) as (s1 & Ek & Hk1 & Ho1).
      rewrite (bind_ret_l _ _ _ _ _ Ek). eexists _, _. split; [reflexivity|].
      eapply (unmap_some _ _ _ _ _ _ _ _ Ha Hr Htop Es Hv Hk1 Ho1).
    + exists s, l. split; [reflexivity|]. apply unmap_none; [exact Ha|].
      unfold pt_map. rewrite Es, Ef. reflexivity.
  - exists s, l. split; [reflexivity|]. apply unmap_none; [exact Ha|].
    unfold pt_map. rewrite Es. reflexivity.
Qed.

Lemma unmapped_0 top root a s l : as_wf top root s l -> unmapped top root a 0 s l s l.
Proof.
  intros Ha. split; auto.
  - intros va _. replace ((_ <=? _) && _) with false by lia. reflexivity.
  - intros p. split; [auto|]. intros [H|(va & v & _ & Hr & _)]; [exact H|lia].
Qed.

Lemma unmapped_trans top root a n s l s1 l1 s' l' :
  top <= MAXVA -> 0 <= n ->
  unmapped top root a 1 s l s1 l1 -> unmapped top root (a + 4096) n s1 l1 s' l' ->
  unmapped top root a (n + 1) s l s' l'.
Proof.
  intros Htop Hn0 [A1 E1 M1 N1 F1 R1 P1] [A2 E2 M2 N2 F2 R2 P2].
  assert (Hd : (a + 4096) / 4096 = a / 4096 + 1) by dlia. rewrite Hd in *.
  split; auto.
  - congruence.
  - intros va Hva. rewrite M2, M1 by exact Hva. clear - Hva Hn0.
    repeat case_test; try reflexivity; lia.
  - intros path Hs. rewrite N2, N1 by exact Hs. reflexivity.
  - intros p. rewrite F2, F1. split.
    + intros [[H|(va & v & H1 & H2 & H3 & H4)]|(va & v & H1 & H2 & H3 & H4)]; [auto|..]; right; exists va, v.
      * repeat split; auto; lia.
      * rewrite M1 in H3 by lia. destruct (_ && _) eqn:? in H3; [discriminate|]. repeat split; auto; lia.
    + intros [H|(va & v & H1 & H2 & H3 & H4)]; [auto|].
      destruct (decide (va / 4096 = a / 4096)); [left|]; right; exists va, v; repeat split; auto; try lia.
      rewrite M1 by lia. replace (_ && _) with false by lia. exact H3.
  - intros x Ht Hl. rewrite R2, R1; auto.
    + intros p Hp. apply Hl, F2. left. exact Hp.
    + intros p Hp. apply Ht. rewrite table_page_ext in Hp by exact N1. exact Hp.
Qed.

Lemma uvmunmap_loop_spec top root : top <= MAXVA -> forall n a s l,
  as_wf top root s l -> 0 <= a -> a + 4096 * Z.of_nat n <= top ->
  exists s' l', uvmunmap_loop (S n) root a (a + 4096 * Z.of_nat n) true s = Ret tt s' /\
    unmapped top root a (Z.of_nat n) s l s' l'.
Proof.
  intros Htop. assert (HM : MAXVA = 2 ^ 38) by reflexivity.
  induction n as [|n IH]; intros a s l Ha H0 Hend.
  - exists s, l. split; [|apply unmapped_0, Ha]. cbn [uvmunmap_loop].
    replace (a <? _) with false by lia. reflexivity.
  - destruct (unmap_page_spec top root a s l Ha ltac:(lia) Htop) as (s1 & l1 & E1 & U1).
    destruct (IH (a + 4096) s1 l1 (um_as _ _ _ _ _ _ _ _ U1)) as (s' & l' & E2 & U2); [lia..|].
    exists s', l'. split.
    + remember (S n) as n1. cbn [uvmunmap_loop]. replace (a <? _) with true by lia.
      rewrite (bind_ret_l _ _ _ _ _ E1). unfold PGSIZE. rewrite u64_small by lia.
      subst n1. replace (a + 4096 * Z.of_nat (S n)) with (a + 4096 + 4096 * Z.of_nat n) by lia. exact E2.
    + replace (Z.of_nat (S n)) with (Z.of_nat n + 1) by lia. eapply unmapped_trans; eauto. lia.
Qed.

Lemma uvmunmap_spec top root va npages s l :
  as_wf top root s l -> top <= MAXVA -> 0 <= va -> va mod 4096 = 0 -> 0 <= npages ->
  va + npages * 4096 <= top ->
  exists s' l', uvmunmap root va npages true s = Ret tt s' /\
    unmapped top root va npages s l s' l'.
Proof.
  intros Ha Htop H0 Hal Hn Hend. assert (HM : MAXVA = 2 ^ 38) by reflexivity.
  destruct (uvmunmap_loop_spec top root Htop (Z.to_nat npages) va s l Ha H0) as (s' & l' & E & U); [lia|].
  rewrite Z2Nat.id in * by lia. exists s', l'. split; [|exact U].
  unfold uvmunmap, PGSIZE. rewrite Hal. simpl. rewrite u64_small by lia.
  replace (va + npages * 4096) with (va + 4096 * npages) by lia. exact E.
Qed.

(** Pages that stay mapped keep their contents. *)
Lemma unmapped_umem top root a n s l s' l' va :
  top <= MAXVA -> as_wf top root s l -> unmapped top root a n s l s' l' -> 0 <= va < top ->
  umem (phys s') root va =
  if (a / 4096 <=? va / 4096) && (va / 4096 <? a / 4096 + n) then None
  else umem (phys s) root va.
Proof.
  intros Htop Ha [A E M N F R _] Hva. unfold umem. pose proof (M va ltac:(lia)) as Hm.
  rewrite Hm. destruct (_ && _) eqn:Eb; [reflexivity|].
  destruct (pt_map (phys s) root va) as [v|] eqn:Ev; [|reflexivity].
  assert (Hin : in_page (PTE2PA v) (PTE2PA v + va mod 4096)) by (unfold in_page, PGSIZE; dlia).
  rewrite R; [reflexivity| |].
  - intros p Hp. eapply (as_page_table _ _ s l va v); eauto.
  - intros p Hp. eapply (as_page_free _ _ s' l' va v); eauto.
Qed.

(** ** Growing *)

(** A page that is neither free nor a table page keeps its bytes. *)
Lemma grows_other root s l s' l' q x :
  kinv s l -> pt_wf (kend s) (phys s) root l -> grows root s l s' l' ->
  page_ok (kend s) q -> q ∉ l -> ~ table_page (phys s) root q -> in_page q x ->
  phys s' x = phys s x.
Proof.
  intros Hk Hw Hg Hq Hn Ht Hx. apply (gr_frame _ _ _ _ _ Hg).
  - intros p Hp. pose proof (kinv_pages _ _ Hk) as Hf. rewrite Forall_forall in Hf.
    eapply (page_ok_ne (kend s) q); eauto. intros ->. contradiction.
  - intros path p Hs Hp. destruct (wf_page _ _ _ _ Hw _ _ Hs Hp) as [Hpok _].
    eapply (page_ok_ne (kend s) q); eauto. intros ->. apply Ht. exists path. auto.
Qed.

Lemma grows_table root s l s' l' p :
  grows root s l s' l' -> table_page (phys s') root p -> table_page (phys s) root p \/ p ∈ l.
Proof.
  intros Hg (path & Hs & Hp). destruct (gr_nodes _ _ _ _ _ Hg path p Hs Hp); [left|auto].
  exists path. auto.
Qed.

Lemma grows_free root s l s' l' p : grows root s l s' l' -> p ∈ l' -> p ∈ l.
Proof. intros Hg Hp. destruct (gr_free _ _ _ _ _ Hg) as [k ->]. apply elem_of_app. auto. Qed.

(** The frame [p] is in nobody's hands. *)
Record fresh (top root : Z) (s : kst) (l : list Z) (p : Z) : Prop := {
  fr_ok : page_ok (kend s) p;
  fr_free : p ∉ l;
  fr_table : ~ table_page (phys s) root p;
  fr_user : forall va v, 0 <= va < top -> pt_map (phys s) root va = Some v -> PTE2PA v <> p
}.

(** Growing the table and mapping at most the fresh frame [p] at page [a]. *)
Lemma as_grows top root a p s l s' l' :
  as_wf top root s l -> fresh top root s l p -> grows root s l s' l' ->
  (forall va v, 0 <= va < top -> pt_map (phys s') root va = Some v ->
     pt_map (phys s) root va = Some v \/ (va / 4096 = a / 4096 /\ PTE2PA v = p)) ->
  as_wf top root s' l'.
Proof.
  intros Ha [Fo Ff Ft Fu] Hg Hm. pose proof (gr_end _ _ _ _ _ Hg) as He.
  assert (Hkeep : forall q, page_ok (kend s) q -> q ∉ l -> ~ table_page (phys s) root q ->
    page_ok (kend s') q /\ (q ∉ l') /\ ~ table_page (phys s') root q).
  { intros q H1 H2 H3. rewrite He. split; [exact H1|].
    split; [intros H; apply H2; eapply grows_free; eauto|].
    intros H. destruct (grows_table _ _ _ _ _ _ Hg H); auto. }
  split.
  - apply Hg.
  - rewrite He. apply Hg.
  - intros va v Hva Hv. destruct (Hm va v Hva Hv) as [Hv'|[_ ->]]; [|auto].
    destruct (as_page _ _ _ _ Ha va v Hva Hv') as (H1 & H2 & H3). auto.
  - intros va va' v v' Hva Hva' Hv Hv' E.
    destruct (Hm va v Hva Hv) as [Hw|[Hp Hw]], (Hm va' v' Hva' Hv') as [Hw'|[Hp' Hw']].
    + eapply (as_inj _ _ _ _ Ha); eauto.
    + exfalso. apply (Fu va v Hva Hw). congruence.
    + exfalso. apply (Fu va' v' Hva' Hw'). congruence.
    + congruence.
Qed.

(** A free page taken off the list, whatever is then written into it. *)
Lemma as_take top root s p l s1 :
  as_wf top root s (p :: l) -> kinv s1 l -> only_page p s s1 ->
  as_wf top root s1 l /\ fresh top root s1 l p /\
  (forall va, pt_map (phys s1) root va = pt_map (phys s) root va) /\
  (forall va, 0 <= va < top -> umem (phys s1) root va = umem (phys s) root va).
Proof.
  intros Ha Hk1 [He Ho]. pose proof (kinv_nodup _ _ (as_inv _ _ _ _ Ha)) as Hnd.
  apply NoDup_cons in Hnd as [Hnp _].
  pose proof (kinv_pages _ _ (as_inv _ _ _ _ Ha)) as Hf. apply Forall_cons in Hf as [Hp _].
  assert (Ht : ~ table_page (phys s) root p).
  { intros (path & Hs & Hn). apply (wf_page _ _ _ _ (as_pt _ _ _ _ Ha)) in Hn as [_ Hn]; [|exact Hs].
    apply Hn. left. }
  destruct (tables_ext (phys s) (phys s1) root) as [Hn Hm].
  { intros q x (path & Hs & Hq) Hx. apply Ho. intros Hx'.
    destruct (wf_page _ _ _ _ (as_pt _ _ _ _ Ha) _ _ Hs Hq) as [Hqok Hqn].
    eapply (page_ok_ne _ q p); eauto. intros ->. apply Hqn. left. }
  split; [|split; [|split]].
  - split; rewrite ?He.
    + exact Hk1.
    + eapply pt_wf_ext; [apply Ha|exact Hn|]. intros q Hq. left. right. exact Hq.
    + intros va v Hva. rewrite Hm. intros Hv.
      destruct (as_page _ _ _ _ Ha va v Hva Hv) as (H1 & H2 & H3). split; [exact H1|].
      split; [intros H; apply H2; right; exact H|]. rewrite table_page_ext by exact Hn. exact H3.
    + intros va va' v v' Hva Hva'. rewrite !Hm. apply (as_inj _ _ _ _ Ha); assumption.
  - split; rewrite ?He; auto.
    + rewrite table_page_ext by exact Hn. exact Ht.
    + intros va v Hva. rewrite Hm. intros Hv Hp'. rewrite <- Hp' in *.
      destruct (as_page _ _ _ _ Ha va v Hva Hv) as (_ & H2 & _). apply H2. left.
  - exact Hm.
  - intros va Hva. unfold umem. rewrite Hm. destruct (pt_map (phys s) root va) as [v|] eqn:Ev; [|reflexivity].
    rewrite Ho; [reflexivity|]. eapply (as_page_free _ _ s _ va v p Ha Hva Ev); [left|].
    unfold in_page, PGSIZE. dlia.
Qed.

(** ** Taking and giving back a page *)

Lemma take_tables top root s p l s1 :
  as_wf top root s (p :: l) -> only_page p s s1 ->
  (forall path, short path -> node (phys s1) root path = node (phys s) root path) /\
  (forall va, pt_map (phys s1) root va = pt_map (phys s) root va).
Proof.
  intros Ha [He Ho]. pose proof (kinv_pages _ _ (as_inv _ _ _ _ Ha)) as Hf.
  apply Forall_cons in Hf as [Hp _]. apply tables_ext. intros q x (path & Hs & Hq) Hx.
  apply Ho. intros Hx'.
  destruct (wf_page _ _ _ _ (as_pt _ _ _ _ Ha) _ _ Hs Hq) as [Hqok Hqn].
  eapply (page_ok_ne _ q p); eauto. intros ->. apply Hqn. left.
Qed.

(** [kalloc] followed by clearing the page. *)
Lemma kalloc_zero s p l :
  kinv s (p :: l) ->
  exists s1 m2, kalloc s = Ret p s1 /\ memset (phys s1) p 0 PGSIZE = m2 /\
    kinv (set_phys m2 s1) l /\ only_page p s (set_phys m2 s1) /\
    forall x, in_page p x -> m2 x = 0.
Proof.
  intros Hk. destruct (kalloc_spec s p l Hk) as (s1 & Ek & Hk1 & [He Ho] & Hn & Hp & _).
  exists s1, (memset (phys s1) p 0 PGSIZE). split; [exact Ek|]. split; [reflexivity|].
  assert (Hout : forall x, ~ in_page p x -> memset (phys s1) p 0 PGSIZE x = phys s1 x).
  { intros x Hx. apply memset_out; unfold in_page, PGSIZE in *; lia. }
  split; [|split; [split; [exact He|]|]].
  - apply kinv_write; [exact Hk1|apply memset_byte_mem; [unfold PGSIZE; lia|apply Hk1]|].
    intros q x Hq Hx. apply Hout. pose proof (kinv_pages _ _ Hk1) as Hf. rewrite Forall_forall in Hf.
    eapply (page_ok_ne (kend s) q p); eauto; [rewrite <- He; auto|]. intros ->. contradiction.
  - intros x Hx. simpl. rewrite Hout, Ho by exact Hx. reflexivity.
  - intros x Hx. rewrite memset_in by (unfold in_page, PGSIZE in *; lia). reflexivity.
Qed.

Lemma as_give top root s l p s' :
  as_wf top root s l -> fresh top root s l p -> kinv s' (p :: l) -> only_page p s s' ->
  as_wf top root s' (p :: l) /\
  (forall path, short path -> node (phys s') root path = node (phys s) root path) /\
  (forall va, pt_map (phys s') root va = pt_map (phys s) root va) /\
  (forall va, 0 <= va < top -> umem (phys s') root va = umem (phys s) root va).
Proof.
  intros Ha [Fo Ff Ft Fu] Hk' [He Ho].
  destruct (tables_ext (phys s) (phys s') root) as [Hn Hm].
  { intros q x (path & Hs & Hq) Hx. apply Ho. intros Hx'.
    destruct (wf_page _ _ _ _ (as_pt _ _ _ _ Ha) _ _ Hs Hq) as [Hqok _].
    eapply (page_ok_ne _ q p); eauto. intros ->. apply Ft. exists path. auto. }
  split; [|split; [exact Hn|split; [exact Hm|]]].
  - split; rewrite ?He.
    + exact Hk'.
    + eapply pt_wf_ext; [apply Ha|exact Hn|]. intros q Hq. apply elem_of_cons in Hq as [->|Hq]; auto.
    + intros va v Hva. rewrite Hm. intros Hv.
      destruct (as_page _ _ _ _ Ha va v Hva Hv) as (H1 & H2 & H3). split; [exact H1|].
      split; [|rewrite table_page_ext by exact Hn; exact H3].
      intros H. apply elem_of_cons in H as [H|H]; [|contradiction]. eapply Fu; eauto.
    + intros va va' v v' Hva Hva'. rewrite !Hm. apply (as_inj _ _ _ _ Ha); assumption.
  - intros va Hva. unfold umem. rewrite Hm. destruct (pt_map (phys s) root va) as [v|] eqn:Ev; [|reflexivity].
    rewrite Ho; [reflexivity|]. intros Hx. destruct (as_page _ _ _ _ Ha va v Hva Ev) as (H1 & _).
    eapply (page_ok_ne _ (PTE2PA v) p); eauto. unfold in_page, PGSIZE. dlia.
Qed.

(** The pages an address space and the allocator have between them. *)
Definition mine (top root : Z) (s : kst) (l : list Z) (q : Z) : Prop :=
  q ∈ l \/ table_page (phys s) root q \/
  exists va v, 0 <= va < top /\ pt_map (phys s) root va = Some v /\ q = PTE2PA v.

(** Nothing outside those pages is touched or acquired, and none of them is
    lost: other address spaces and the kernel's own data are isolated from the
    operation.  The mappings above the user part stay as they are. *)
Record isolated (top root : Z) (s : kst) (l : list Z) (s' : kst) (l' : list Z) : Prop := {
  iso_end : kend s' = kend s;
  iso_mine : forall q, mine top root s' l' q -> mine top root s l q;
  iso_frame : forall x, (forall q, mine top root s l q -> ~ in_page q x) -> phys s' x = phys s x;
  iso_kept : forall q, mine top root s l q -> mine top root s' l' q;
  iso_above : forall va, top <= va < MAXVA -> pt_map (phys s') root va = pt_map (phys s) root va;
  iso_plain : plain (phys s) root -> plain (phys s') root
}.

Lemma isolated_refl top root s l : isolated top root s l s l.
Proof. split; auto. Qed.

Lemma isolated_trans top root s1 l1 s2 l2 s3 l3 :
  isolated top root s1 l1 s2 l2 -> isolated top root s2 l2 s3 l3 ->
  isolated top root s1 l1 s3 l3.
Proof.
  intros [E1 M1 F1 K1 A1 P1] [E2 M2 F2 K2 A2 P2]. split; [congruence|auto| |auto| |auto].
  - intros x Hx. rewrite F2, F1; auto.
  - intros va Hva. rewrite A2, A1 by exact Hva. reflexivity.
Qed.

Lemma unmapped_isolated top root a n s l s' l' :
  top <= MAXVA -> 0 <= top -> (a / 4096 + n) * 4096 <= top -> unmapped top root a n s l s' l' -> isolated top root s l s' l'.
Proof.
  intros Htop Htop0 Hend [A E M N F R P].
  assert (Hl : forall p, p ∈ l' -> mine top root s l p).
  { intros p Hp. apply F in Hp as [Hp|(va & v & H1 & _ & H3 & H4)]; [left; exact Hp|].
    right. right. exists va, v. auto. }
  split; [exact E| | | | |exact P].
  - intros q [Hq|[Hq|(va & v & Hva & Hv & ->)]]; [auto| |].
    + right. left. rewrite <- table_page_ext by exact N. exact Hq.
    + rewrite M in Hv by lia. destruct (_ && _); [discriminate|]. right. right. exists va, v. auto.
  - intros x Hx. apply R; [|auto]. intros p Hp. apply Hx. right. left. exact Hp.
  - intros q [Hq|[Hq|(va & v & Hva & Hv & ->)]]; [left; apply F; auto| |].
    + right. left. rewrite table_page_ext by exact N. exact Hq.
    + destruct ((a / 4096 <=? va / 4096) && (va / 4096 <? a / 4096 + n)) eqn:Eb.
      * left. apply F. right. exists va, v. repeat split; auto; lia.
      * right. right. exists va, v. rewrite M, Eb by lia. auto.
  - intros va Hva. rewrite M by lia. replace (_ && _) with false by dlia. reflexivity.
Qed.

(** ** One zeroed page *)

(** The address space [s'] is [s] with a zeroed page at [a]. *)
Record zero_paged (top root a perm : Z) (s s' : kst) (p : Z) : Prop := {
  zp_map : forall va, 0 <= va < MAXVA -> pt_map (phys s') root va =
    if va / 4096 =? a / 4096 then Some (leaf p perm) else pt_map (phys s) root va;
  zp_umem : forall va, 0 <= va < top -> umem (phys s') root va =
    if va / 4096 =? a / 4096 then Some 0 else umem (phys s) root va
}.

(** The same with bytes [f] in the page. *)
Record paged (top root a perm : Z) (f : Z -> Z) (s s' : kst) (p : Z) : Prop := {
  pgd_map : forall va, 0 <= va < MAXVA -> pt_map (phys s') root va =
    if va / 4096 =? a / 4096 then Some (leaf p perm) else pt_map (phys s) root va;
  pgd_umem : forall va, 0 <= va < top -> umem (phys s') root va =
    if va / 4096 =? a / 4096 then Some (f (va mod 4096)) else umem (phys s) root va
}.

Definition same_space (top root : Z) (s s' : kst) : Prop :=
  (forall va, 0 <= va < MAXVA -> pt_map (phys s') root va = pt_map (phys s) root va) /\
  (forall va, 0 <= va < top -> umem (phys s') root va = umem (phys s) root va).

Section ZeroPage.
Context (top root a perm : Z).
Hypothesis Htop : top <= MAXVA.
Hypothesis Hperm : 0 <= perm < 1024.
Hypothesis Ha : 0 <= a < top.
Hypothesis Hal : a mod 4096 = 0.
Hypothesis Htal : top mod 4096 = 0.

Lemma mappages_page s l p :
  kinv s l -> pt_wf (kend s) (phys s) root l -> p mod 4096 = 0 -> 0 <= p < 2 ^ 56 ->
  pt_map (phys s) root a = None ->
  exists r s' l', mappages root a PGSIZE p perm s = Ret r s' /\ grows root s l s' l' /\
    (r = 0 /\ (forall va, 0 <= va < MAXVA -> pt_map (phys s') root va =
       if va / 4096 =? a / 4096 then Some (leaf p perm) else pt_map (phys s) root va)
     \/ r = -1 /\ l' = [] /\
       forall va, 0 <= va < MAXVA -> pt_map (phys s') root va = pt_map (phys s) root va).
Proof using All.
  intros Hk Hw Hp1 Hp2 Hnone. assert (HM : MAXVA = 2 ^ 38) by reflexivity. unfold PGSIZE.
  destruct (mappages_one root perm Hperm s l a p) as (s' & l' & Hg & H); auto; try lia.
  assert (E : mappages root a 4096 p perm = mappages_loop 1 root a a p perm).
  { unfold mappages, PGSIZE. rewrite Hal. simpl. change (Z.to_nat (4096 / 4096)) with 1%nat.
    replace (u64 (a + 4096 - 4096)) with a; [reflexivity|]. rewrite u64_small; lia. }
  rewrite E. destruct H as [(Er & [-> _] & Hm)|(Er & Hm & _)].
  - exists (-1), s', []. split; [apply Er|]. split; [exact Hg|]. right. auto.
  - exists 0, s', l'. split; [rewrite Er, Z.eqb_refl; reflexivity|]. split; [exact Hg|]. left. auto.
Qed.

(** Mapping the fresh frame [p] with bytes [f] at [a], or giving it back. *)
Lemma map_fresh s l p f :
  as_wf top root s l -> fresh top root s l p -> pt_map (phys s) root a = None ->
  (forall i, 0 <= i < 4096 -> phys s (p + i) = f i) ->
  exists r s' l', mappages root a PGSIZE p perm s = Ret r s' /\ grows root s l s' l' /\
    as_wf top root s' l' /\
    (r = 0 /\ paged top root a perm f s s' p
     \/ r = -1 /\ l' = [] /\ same_space top root s s' /\ fresh top root s' l' p).
Proof using All.
  intros Has Hf Hnone Hz.
  pose proof (as_inv _ _ _ _ Has) as Hk. pose proof (as_pt _ _ _ _ Has) as Hw.
  pose proof (kinv_end _ _ Hk) as He. pose proof (fr_ok _ _ _ _ _ Hf) as Hp.
  assert (HP : PTE2PA (leaf p perm) = p).
  { destruct Hp. apply PTE2PA_leaf; unfold PGSIZE, PHYSTOP, KERNBASE in *; lia. }
  destruct (mappages_page s l p Hk Hw) as (r & s' & l' & Er & Hg & Hr); [apply Hp| |exact Hnone|].
  { destruct Hp. unfold PHYSTOP, KERNBASE in *. lia. }
  assert (Hold : forall va v, 0 <= va < top -> pt_map (phys s) root va = Some v ->
    phys s' (PTE2PA v + va mod 4096) = phys s (PTE2PA v + va mod 4096)).
  { intros va v Hva Hv. destruct (as_page _ _ _ _ Has va v Hva Hv) as (H1 & H2 & H3).
    eapply grows_other; eauto. unfold in_page, PGSIZE. dlia. }
  exists r, s', l'. split; [exact Er|]. split; [exact Hg|]. destruct Hr as [[-> Hm]|(-> & -> & Hm)].
  - split.
    { eapply (as_grows top root a p); eauto. intros va v Hva. rewrite Hm by lia.
      destruct (Z.eqb_spec (va / 4096) (a / 4096)); [|auto]. intros. simplify_eq. auto. }
    left. split; [reflexivity|]. split; [exact Hm|]. intros va Hva. unfold umem.
    rewrite Hm by lia. destruct (_ =? _).
    + rewrite HP. assert (Hin : in_page p (p + va mod 4096)) by (unfold in_page, PGSIZE; dlia).
      destruct Hf. erewrite grows_other by eauto. rewrite Hz by dlia. reflexivity.
    + destruct (pt_map (phys s) root va) as [v|] eqn:Ev; [|reflexivity]. rewrite Hold; auto.
  - split.
    { eapply (as_grows top root a p); eauto. intros va v Hva. rewrite Hm by lia. auto. }
    right. split; [reflexivity|]. split; [reflexivity|]. split; [split; [exact Hm|]|].
    + intros va Hva. unfold umem. rewrite Hm by lia.
      destruct (pt_map (phys s) root va) as [v|] eqn:Ev; [|reflexivity]. rewrite Hold; auto.
    + destruct Hf as [F1 F2 F3 F4]. rewrite <- (gr_end _ _ _ _ _ Hg) in F1. split; auto.
      * apply not_elem_of_nil.
      * intros H. destruct (grows_table _ _ _ _ _ _ Hg H); auto.
      * intros va v Hva. rewrite Hm by lia. apply F4, Hva.
Qed.

Lemma grows_isolated s0 p l s s' l' :
  as_wf top root s0 (p :: l) -> only_page p s0 s -> 
  (forall va, pt_map (phys s) root va = pt_map (phys s0) root va) ->
  (forall q, table_page (phys s) root q -> table_page (phys s0) root q) ->
  grows root s l s' l' ->
  (forall va v, 0 <= va < top -> pt_map (phys s') root va = Some v ->
     pt_map (phys s) root va = Some v \/ PTE2PA v = p) ->
  (forall va v, 0 <= va < top -> pt_map (phys s) root va = Some v -> pt_map (phys s') root va = Some v) ->
  kend s' = kend s0 /\ (forall q, mine top root s' l' q -> mine top root s0 (p :: l) q) /\
  (forall x, (forall q, mine top root s0 (p :: l) q -> ~ in_page q x) -> phys s' x = phys s0 x) /\
  (forall q, mine top root s0 (p :: l) q -> q = p \/ mine top root s' l' q) /\
  (plain (phys s0) root -> plain (phys s') root).
Proof using Type.
  intros Has [He Ho] Hm Ht Hg Hm' Hmk. destruct (take_tables top root s0 p l s Has (conj He Ho)) as [Hn0 _]. split_and!.
  - rewrite (gr_end _ _ _ _ _ Hg). exact He.
  - intros q [Hq|[Hq|(va & v & Hva & Hv & ->)]].
    + left. right. eapply grows_free; eauto.
    + destruct (grows_table _ _ _ _ _ _ Hg Hq); [right; left; auto|left; right; assumption].
    + destruct (Hm' va v Hva Hv) as [Hv'| ->]; [|left; left].
      rewrite Hm in Hv'. right. right. exists va, v. auto.
  - intros x Hx. rewrite (gr_frame _ _ _ _ _ Hg).
    + apply Ho, Hx. left. left.
    + intros q Hq. apply Hx. left. right. exact Hq.
    + intros path q Hs Hq. apply Hx. right. left. apply Ht. exists path. auto.
  - intros q [Hq|[(path & Hs & Hq)|(va & v & Hva & Hv & ->)]].
    + apply elem_of_cons in Hq as [->|Hq]; [auto|]. right. destruct (gr_used _ _ _ _ _ Hg q Hq) as [Hq'|Hq']; [left|right; left]; assumption.
    + right. right. left. exists path. split; [exact Hs|]. apply (gr_kept _ _ _ _ _ Hg path q Hs). rewrite Hn0 by exact Hs. exact Hq.
    + right. right. right. exists va, v. split; [exact Hva|]. split; [|reflexivity]. apply Hmk; [exact Hva|]. rewrite Hm. exact Hv.
  - intros Hp. apply (gr_plain _ _ _ _ _ Hg). revert Hp. apply tables_plain. intros q x (path & Hs & Hq) Hx. apply Ho. intros Hx'.
    destruct (wf_page _ _ _ _ (as_pt _ _ _ _ Has) _ _ Hs Hq) as [Hqok Hqn]. pose proof (kinv_pages _ _ (as_inv _ _ _ _ Has)) as Hf.
    apply Forall_cons in Hf as [Hpok _]. eapply (page_ok_ne _ q p); eauto. intros ->. apply Hqn. left.
Qed.

(** The outcomes of mapping the frame just taken, which holds bytes [f]. *)
Lemma new_page s p l1 s2 f :
  as_wf top root s (p :: l1) -> pt_map (phys s) root a = None ->
  kinv s2 l1 -> only_page p s s2 -> (forall i, 0 <= i < 4096 -> phys s2 (p + i) = f i) ->
  exists r s3 l3, mappages root a PGSIZE p perm s2 = Ret r s3 /\
    (r = 0 /\ as_wf top root s3 l3 /\ paged top root a perm f s s3 p /\ isolated top root s (p :: l1) s3 l3 /\ suffix l3 l1
     \/ r = -1 /\ exists s4, kfree p s3 = Ret tt s4 /\ as_wf top root s4 [p] /\
       same_space top root s s4 /\ isolated top root s (p :: l1) s4 [p]).
Proof using All.
  intros Has Hnone Hk2 Ho2 Hz.
  destruct (as_take top root s p l1 s2 Has Hk2 Ho2) as (Ha2 & Hf2 & Hm2 & Hu2).
  destruct (map_fresh s2 l1 p f Ha2 Hf2) as (r & s3 & l3 & Er & Hg & Ha3 & Hr);
    [rewrite Hm2; exact Hnone|exact Hz|].
  assert (Ht : forall q, table_page (phys s2) root q -> table_page (phys s) root q).
  { intros q (path & Hs & Hq). destruct (take_tables top root s p l1 s2 Has Ho2) as [Hn _].
    exists path. rewrite <- Hn by exact Hs. auto. }
  exists r, s3, l3. split; [exact Er|]. destruct Hr as [[-> [Zm Zu]]|(-> & -> & [Sm Su] & Hf3)].
  - left. split; [reflexivity|]. split; [exact Ha3|]. split; [|split; [|apply Hg]].
    + split; intros va Hva; [rewrite Zm, Hm2 by exact Hva|rewrite Zu, Hu2 by exact Hva]; reflexivity.
    + assert (Hpl : PTE2PA (leaf p perm) = p).
      { destruct (fr_ok _ _ _ _ _ Hf2). pose proof (kinv_end _ _ Hk2). apply PTE2PA_leaf; unfold PGSIZE, PHYSTOP, KERNBASE in *; lia. }
      destruct (grows_isolated s p l1 s2 s3 l3) as (Ie & Im & If & Ik & Ip); auto.
      { intros va v Hva. rewrite Zm by lia. destruct (_ =? _); [|auto]. intros. simplify_eq. auto. }
      { intros va v Hva Hv. rewrite Zm by lia. destruct (Z.eqb_spec (va / 4096) (a / 4096)) as [E|]; [|exact Hv].
        rewrite (pt_map_page _ _ va a E), Hm2, Hnone in Hv. discriminate. }
      split; auto.
      * intros q Hq. destruct (Ik q Hq) as [->|?]; [|assumption]. right. right. exists a, (leaf p perm). split; [exact Ha|].
        rewrite Zm, Z.eqb_refl by lia. auto.
      * intros va Hva. rewrite Zm, Hm2 by lia. replace (_ =? _) with false by dlia. reflexivity.
  - right. split; [reflexivity|].
    destruct (kfree_spec s3 [] p) as (s4 & Ef & Hk4 & Ho4); [apply Ha3|apply Hf3|apply Hf3|].
    destruct (as_give top root s3 [] p s4 Ha3 Hf3 Hk4 Ho4) as (Ha4 & Hn4 & Hm4 & Hu4).
    exists s4. split; [exact Ef|]. split; [exact Ha4|]. split.
    + split; intros va Hva; [rewrite Hm4, Sm, Hm2|rewrite Hu4, Su, Hu2]; auto.
    + destruct (grows_isolated s p l1 s2 s3 []) as (Ie & Im & If & Ik & Ip); auto.
      { intros va v Hva. rewrite Sm by lia. auto. } { intros va v Hva. rewrite Sm by lia. auto. }
      destruct Ho4 as [He4 Ho4]. split; [congruence| | | | |].
      * intros q [Hq|[Hq|(va & v & Hva & Hv & ->)]].
        -- apply list_elem_of_singleton in Hq as ->. left. left.
        -- apply Im. right. left. rewrite <- table_page_ext by exact Hn4. exact Hq.
        -- apply Im. right. right. exists va, v. rewrite <- Hm4. auto.
      * intros x Hx. rewrite Ho4, If; auto. apply Hx. left. left.
      * intros q Hq. destruct (Ik q Hq) as [->|[Hq'|[Hq'|(va & v & Hva & Hv & ->)]]]; [left; left|apply elem_of_nil in Hq'; contradiction|..].
        -- right. left. rewrite table_page_ext by exact Hn4. exact Hq'.
        -- right. right. exists va, v. rewrite Hm4. auto.
      * intros va Hva. rewrite Hm4, Sm, Hm2 by lia. reflexivity.
      * intros Hp. apply Ip in Hp. revert Hp. apply tables_plain. intros q x (path & Hs & Hq) Hx. apply Ho4. intros Hx'.
        destruct (wf_page _ _ _ _ (as_pt _ _ _ _ Ha3) _ _ Hs Hq) as [Hqok _].
        assert (Hqp : q <> p) by (intros ->; apply (fr_table _ _ _ _ _ Hf3); exists path; auto).
        exact (page_ok_ne (kend s3) q p Hqok (fr_ok _ _ _ _ _ Hf3) Hqp x Hx Hx').
Qed.

(** The outcomes of allocating, clearing and mapping one page. *)
Lemma zero_page s l :
  as_wf top root s l -> pt_map (phys s) root a = None ->
  (l = [] /\ kalloc s = Ret 0 s) \/
  exists p l1 s1 r s3 l3, l = p :: l1 /\ kalloc s = Ret p s1 /\ (p =? 0) = false /\
    mappages root a PGSIZE p perm (set_phys (memset (phys s1) p 0 PGSIZE) s1) = Ret r s3 /\
    (r = 0 /\ as_wf top root s3 l3 /\ zero_paged top root a perm s s3 p /\
       isolated top root s l s3 l3 /\ suffix l3 l1
     \/ r = -1 /\ exists s4, kfree p s3 = Ret tt s4 /\ as_wf top root s4 [p] /\
       same_space top root s s4 /\ isolated top root s l s4 [p]).
Proof using All.
  intros Has Hnone. destruct l as [|p l1].
  { left. split; [reflexivity|]. apply kalloc_empty, Has. }
  right. destruct (kalloc_zero s p l1 (as_inv _ _ _ _ Has)) as (s1 & m2 & Ek & Em & Hk2 & Ho2 & Hz).
  destruct (new_page s p l1 (set_phys m2 s1) (fun _ => 0) Has Hnone Hk2 Ho2) as (r & s3 & l3 & Er & Hr).
  { intros i Hi. apply Hz. unfold in_page, PGSIZE. lia. }
  exists p, l1, s1, r, s3, l3. rewrite Em. split; [reflexivity|]. split; [exact Ek|].
  pose proof (kinv_pages _ _ (as_inv _ _ _ _ Has)) as Hf. apply Forall_cons in Hf as [[_ Hp] _].
  split; [pose proof (kinv_end _ _ (as_inv _ _ _ _ Has)); lia|]. split; [exact Er|].
  destruct Hr as [(H1 & H2 & [Zm Zu] & H4 & H5)|Hr]; [left|right; exact Hr]. split_and!; auto. split; assumption.
Qed.
End ZeroPage.

(** ** Shrinking and growing a process *)

Lemma uvmdealloc_spec top root oldsz newsz s l :
  as_wf top root s l -> top <= MAXVA -> top mod 4096 = 0 -> 0 <= newsz <= oldsz -> oldsz <= top ->
  exists s' l', uvmdealloc root oldsz newsz s = Ret newsz s' /\
    unmapped top root ((newsz + 4095) / 4096 * 4096)
      ((oldsz + 4095) / 4096 - (newsz + 4095) / 4096) s l s' l'.
Proof.
  intros Ha Htop Htal Hn Ho. assert (HM : MAXVA = 2 ^ 38) by reflexivity.
  unfold uvmdealloc. destruct (Z.leb_spec oldsz newsz).
  { replace oldsz with newsz by lia. rewrite Z.sub_diag.
    exists s, l. split; [reflexivity|]. apply unmapped_0, Ha. }
  rewrite !PGROUNDUP_eq by lia. unfold when. destruct (Z.ltb_spec ((newsz + 4095) / 4096 * 4096) ((oldsz + 4095) / 4096 * 4096)).
  - set (o := (oldsz + 4095) / 4096) in *. set (n := (newsz + 4095) / 4096) in *.
    assert (o * 4096 <= top) by (unfold o; dlia). assert (0 <= n) by (unfold n; dlia).
    unfold PGSIZE. replace ((o * 4096 - n * 4096) / 4096) with (o - n) by dlia.
    rewrite i32_small by lia.
    destruct (uvmunmap_spec top root (n * 4096) (o - n) s l Ha Htop) as (s' & l' & E & U); try lia; [dlia|].
    exists s', l'. split; [rewrite (bind_ret_l _ _ _ _ _ E); reflexivity|exact U].
  - replace ((oldsz + 4095) / 4096) with ((newsz + 4095) / 4096) by dlia. rewrite Z.sub_diag.
    exists s, l. split; [reflexivity|]. apply unmapped_0, Ha.
Qed.

(** [n] zeroed pages from [a] on were added, or everything down to [base] was
    taken away again. *)
Definition extended (top root base a n perm r newsz : Z) (s s' : kst) : Prop :=
  (r = newsz /\ forall va, 0 <= va < top ->
     if (a <=? va) && (va <? a + 4096 * n)
     then (exists p, pt_map (phys s') root va = Some (leaf p perm)) /\ umem (phys s') root va = Some 0
     else pt_map (phys s') root va = pt_map (phys s) root va /\
          umem (phys s') root va = umem (phys s) root va)
  \/
  (r = 0 /\ forall va, 0 <= va < top ->
     if (base <=? va) && (va <? a) then pt_map (phys s') root va = None /\ umem (phys s') root va = None
     else pt_map (phys s') root va = pt_map (phys s) root va /\
          umem (phys s') root va = umem (phys s) root va).

Lemma extended_step top root base a n perm r newsz s s3 s' p :
  top <= MAXVA -> base <= a -> a mod 4096 = 0 -> 0 <= base -> 0 <= n ->
  pt_map (phys s) root a = None -> 
  (forall va, 0 <= va < MAXVA -> pt_map (phys s3) root va =
     if va / 4096 =? a / 4096 then Some (leaf p perm) else pt_map (phys s) root va) ->
  (forall va, 0 <= va < top -> umem (phys s3) root va =
     if va / 4096 =? a / 4096 then Some 0 else umem (phys s) root va) ->
  extended top root base (a + 4096) n perm r newsz s3 s' ->
  extended top root base a (n + 1) perm r newsz s s'.
Proof.
  intros Htop Hba Hal Hb Hn Hnone Zm Zu [[-> H]|[-> H]]; [left|right]; (split; [reflexivity|]);
    intros va Hva; specialize (H va Hva); specialize (Zm va ltac:(lia)); specialize (Zu va Hva).
  - destruct (Z.eqb_spec (va / 4096) (a / 4096)) as [E|E].
    + replace ((a + 4096 <=? va) && _) with false in H by dlia.
      replace ((a <=? va) && _) with true by dlia. destruct H as [-> ->]. eauto.
    + replace ((a <=? va) && (va <? a + 4096 * (n + 1)))
        with ((a + 4096 <=? va) && (va <? a + 4096 + 4096 * n)) by dlia.
      rewrite <- Zm, <- Zu. exact H.
  - destruct (Z.eqb_spec (va / 4096) (a / 4096)) as [E|E].
    + replace ((base <=? va) && (va <? a + 4096)) with true in H by dlia.
      replace ((base <=? va) && (va <? a)) with false by dlia.
      unfold umem. rewrite (pt_map_page (phys s) root va a E), Hnone. destruct H as [H1 _].
      rewrite H1. auto.
    + replace ((base <=? va) && (va <? a)) with ((base <=? va) && (va <? a + 4096)) by dlia.
      destruct (_ && _); [exact H|]. rewrite <- Zm, <- Zu. exact H.
Qed.

Section Uvmalloc.
Context (top root base newsz xperm : Z).
Hypothesis Htop : top <= MAXVA.
Hypothesis Htal : top mod 4096 = 0.
Hypothesis Hbase : 0 <= base.
Hypothesis Hbal : base mod 4096 = 0.
Hypothesis Hperm : 0 <= Z.lor (Z.lor PTE_R PTE_U) xperm < 1024.

Let perm := Z.lor (Z.lor PTE_R PTE_U) xperm.

(** Undoing: the pages from [base] to [a] go away. *)
Lemma undo_spec s l a n s1 l1 :
  as_wf top root s l -> as_wf top root s1 l1 -> isolated top root s l s1 l1 ->
  same_space top root s s1 -> base <= a -> a mod 4096 = 0 -> a <= top ->
  exists s' l', uvmdealloc root a base s1 = Ret base s' /\ as_wf top root s' l' /\
    isolated top root s l s' l' /\ extended top root base a n perm 0 newsz s s'.
Proof using All.
  intros Has Has1 Hi [Sm Su] Hba Hal Hat.
  destruct (uvmdealloc_spec top root a base s1 l1 Has1 Htop Htal) as (s' & l' & E & U); [lia..|].
  replace ((base + 4095) / 4096) with (base / 4096) in U by dlia.
  replace ((a + 4095) / 4096) with (a / 4096) in U by dlia.
  replace (base / 4096 * 4096) with base in U by dlia.
  exists s', l'. split; [exact E|]. split; [apply U|]. split.
  { eapply isolated_trans; [exact Hi|]. eapply unmapped_isolated; [exact Htop|lia| |exact U]. clear -Hba Hal Hat. dlia. }
  right. split; [reflexivity|]. intros va Hva.
  rewrite (um_map _ _ _ _ _ _ _ _ U) by lia. rewrite (unmapped_umem _ _ _ _ _ _ _ _ va Htop Has1 U) by lia.
  replace ((base / 4096 <=? va / 4096) && (va / 4096 <? base / 4096 + (a / 4096 - base / 4096)))
    with ((base <=? va) && (va <? a)) by dlia.
  destruct (_ && _); [auto|]. rewrite Sm, Su by lia. auto.
Qed.

Lemma undo_all s l a n s1 l1 :
  as_wf top root s l -> as_wf top root s1 l1 -> isolated top root s l s1 l1 ->
  same_space top root s s1 -> base <= a -> a mod 4096 = 0 -> a <= top ->
  exists s' l', (uvmdealloc root a base ;; ret 0) s1 = Ret 0 s' /\ as_wf top root s' l' /\
    isolated top root s l s' l' /\ extended top root base a n perm 0 newsz s s'.
Proof using All.
  intros Has Has1 Hi Hs Hba Hal Hat. destruct (undo_spec s l a n s1 l1 Has Has1 Hi Hs Hba Hal Hat) as (s' & l' & E & H).
  exists s', l'. rewrite (bind_ret_l _ _ _ _ _ E). split; [reflexivity|exact H].
Qed.

(** When the range has more pages than there are free ones, memory runs out
    and everything is undone. *)
Lemma uvmalloc_loop_exhaust : forall n f s l a,
  (length l <= n < f)%nat -> as_wf top root s l -> base <= a -> a mod 4096 = 0 ->
  a + 4096 * (Z.of_nat n + 1) <= top -> a + 4096 * Z.of_nat n < newsz ->
  (forall va, a <= va < a + 4096 * (Z.of_nat n + 1) -> pt_map (phys s) root va = None) ->
  exists s' l', uvmalloc_loop f root a base newsz xperm s = Ret 0 s' /\
    as_wf top root s' l' /\ isolated top root s l s' l' /\
    extended top root base a (Z.of_nat n + 1) perm 0 newsz s s'.
Proof using All.
  assert (HM : MAXVA = 2 ^ 38) by reflexivity.
  induction n as [|n IH]; intros [|f] s l a Hn Has Hba Hal Hat Hnew Hfree; try lia; cbn [uvmalloc_loop];
    replace (a <? newsz) with true by lia; fold perm;
    (destruct (zero_page top root a perm Htop Hperm ltac:(lia) Hal Htal s l Has) as
      [[-> Ek]|(p & l1 & s1 & r & s3 & l3 & -> & Ek & Ep & Em & Hr)]; [apply Hfree; lia| |]);
    rewrite (bind_ret_l _ _ _ _ _ Ek).
  - apply (undo_all s [] a _ s []); auto using isolated_refl; [split; auto|lia].
  - simpl in Hn. lia.
  - apply (undo_all s [] a _ s []); auto using isolated_refl; [split; auto|lia].
  - simpl in Hn. rewrite Ep. unfold memset_k. rewrite bind_modify, (bind_ret_l _ _ _ _ _ Em).
    destruct Hr as [(-> & Ha3 & [Zm Zu] & Hi & Hsuf)|(-> & s4 & Ef & Ha4 & Hs4 & Hi)]; simpl.
    + unfold PGSIZE. rewrite u64_small by lia. apply suffix_length in Hsuf.
      destruct (IH f s3 l3 (a + 4096)) as (s' & l' & E & Ha' & Hi' & Hx); auto; try lia; [dlia| |].
      { intros va Hva. rewrite Zm by dlia. replace (_ =? _) with false by dlia. apply Hfree. lia. }
      exists s', l'. split; [exact E|]. split; [exact Ha'|]. split; [eapply isolated_trans; eauto|].
      replace (Z.of_nat (S n) + 1) with (Z.of_nat n + 1 + 1) by lia. apply (extended_step _ _ _ _ _ _ _ _ s s3 s' p); auto; try lia.
      apply Hfree. lia.
    + rewrite (bind_ret_l _ _ _ _ _ Ef). apply (undo_all s (p :: l1) a _ s4 [p]); auto. lia.
Qed.

Hypothesis Hnew : newsz <= top.

Lemma uvmalloc_loop_spec : forall n s l a,
  as_wf top root s l -> base <= a -> a mod 4096 = 0 ->
  newsz <= a + 4096 * Z.of_nat n -> (n = O \/ a + 4096 * Z.of_nat n < newsz + 4096) -> a <= top ->
  (forall va, a <= va < a + 4096 * Z.of_nat n -> pt_map (phys s) root va = None) ->
  exists r s' l', uvmalloc_loop (S n) root a base newsz xperm s = Ret r s' /\
    as_wf top root s' l' /\ isolated top root s l s' l' /\
    extended top root base a (Z.of_nat n) perm r newsz s s'.
Proof using All.
  assert (HM : MAXVA = 2 ^ 38) by reflexivity.
  induction n as [|n IH]; intros s l a Has Hba Hal Hlo Hhi Hat Hfree.
  - exists newsz, s, l. cbn [uvmalloc_loop]. replace (a <? newsz) with false by lia.
    split; [reflexivity|]. split; [exact Has|]. split; [apply isolated_refl|].
    left. split; [reflexivity|]. intros va Hva. replace (_ && _) with false by lia. auto.
  - remember (S n) as n1. cbn [uvmalloc_loop].
    assert (Ha : a + 4096 <= top) by dlia.
    replace (a <? newsz) with true by lia. fold perm.
    destruct (zero_page top root a perm Htop Hperm ltac:(lia) Hal Htal s l Has) as
      [[-> Ek]|(p & l1 & s1 & r & s3 & l3 & -> & Ek & Ep & Em & Hr)]; [apply Hfree; lia|..].
    { rewrite (bind_ret_l _ _ _ _ _ Ek). simpl.
      destruct (undo_spec s [] a (Z.of_nat n1) s []) as (s' & l' & E & H); auto using isolated_refl; [split; auto|].
      exists 0, s', l'. rewrite (bind_ret_l _ _ _ _ _ E). auto. }
    rewrite (bind_ret_l _ _ _ _ _ Ek), Ep. unfold memset_k. rewrite bind_modify.
    rewrite (bind_ret_l _ _ _ _ _ Em). destruct Hr as [(-> & Ha3 & [Zm Zu] & Hi & _)|(-> & s4 & Ef & Ha4 & Hs4 & Hi)].
    + simpl. unfold PGSIZE. rewrite u64_small by lia. subst n1.
      destruct (IH s3 l3 (a + 4096)) as (r & s' & l' & E & Ha' & Hi' & Hx); auto; try lia; [dlia| |].
      { intros va Hva. rewrite Zm by dlia. replace (_ =? _) with false by dlia. apply Hfree. lia. }
      exists r, s', l'. split; [exact E|]. split; [exact Ha'|]. split; [eapply isolated_trans; eauto|].
      rewrite Nat2Z.inj_succ. apply (extended_step _ _ _ _ _ _ _ _ s s3 s' p); auto; try lia.
      apply Hfree. lia.
    + simpl. rewrite (bind_ret_l _ _ _ _ _ Ef).
      destruct (undo_spec s (p :: l1) a (Z.of_nat n1) s4 [p]) as (s' & l' & E & H); auto.
      exists 0, s', l'. rewrite (bind_ret_l _ _ _ _ _ E). auto.
Qed.
End Uvmalloc.

Lemma uvmalloc_run top root oldsz newsz xperm s l :
  as_wf top root s l -> top <= MAXVA -> top mod 4096 = 0 ->
  0 <= oldsz <= newsz -> newsz <= top -> 0 <= xperm < 1024 ->
  (forall va, PGROUNDUP oldsz <= va < PGROUNDUP newsz -> pt_map (phys s) root va = None) ->
  exists r s' l', uvmalloc root oldsz newsz xperm s = Ret r s' /\
    as_wf top root s' l' /\ isolated top root s l s' l' /\
    (r = newsz /\ (forall va, 0 <= va < top ->
       if (PGROUNDUP oldsz <=? va) && (va <? PGROUNDUP newsz)
       then (exists p, pt_map (phys s') root va = Some (leaf p (Z.lor (Z.lor PTE_R PTE_U) xperm))) /\
            umem (phys s') root va = Some 0
       else pt_map (phys s') root va = pt_map (phys s) root va /\
            umem (phys s') root va = umem (phys s) root va)
     \/ r = 0 /\ forall va, 0 <= va < top ->
       pt_map (phys s') root va = pt_map (phys s) root va /\
       umem (phys s') root va = umem (phys s) root va).
Proof.
  intros Ha Htop Htal Hsz Hnt Hx Hfree. assert (HM : MAXVA = 2 ^ 38) by reflexivity.
  unfold uvmalloc. replace (newsz <? oldsz) with false by lia.
  rewrite !PGROUNDUP_eq in * by lia.
  set (base := (oldsz + 4095) / 4096 * 4096) in *. set (lim := (newsz + 4095) / 4096 * 4096) in *.
  assert (Hb : 0 <= base /\ base mod 4096 = 0 /\ base <= lim /\ lim <= top /\ newsz <= lim < newsz + 4096)
    by (unfold base, lim; dlia). destruct Hb as (Hb0 & Hbal & Hbl & Hlt & Hl).
  assert (Hlal : lim mod 4096 = 0) by (unfold lim; dlia).
  unfold PGSIZE. replace ((newsz - base + 4096 - 1) / 4096) with ((lim - base) / 4096) by (unfold base, lim; dlia).
  assert (Hn : 4096 * Z.of_nat (Z.to_nat ((lim - base) / 4096)) = lim - base) by dlia.
  destruct (uvmalloc_loop_spec top root base newsz xperm) with
    (n := Z.to_nat ((lim - base) / 4096)) (s := s) (l := l) (a := base)
    as (r & s' & l' & E & Ha' & Hi & Hext); auto; try lia.
  { apply (lor_bound 10); [lia|vm_compute; split; congruence|exact Hx]. }
  { intros va Hva. apply Hfree. lia. }
  exists r, s', l'. split; [exact E|]. split; [exact Ha'|]. split; [exact Hi|].
  unfold extended in Hext. rewrite Hn in Hext. replace (base + (lim - base)) with lim in Hext by lia.
  destruct Hext as [H|[-> H]]; [left; exact H|right]. split; [reflexivity|].
  intros va Hva. specialize (H va Hva). replace ((base <=? va) && (va <? base)) with false in H by lia. exact H.
Qed.

(** A size that memory cannot hold. *)
Lemma uvmalloc_beyond top root oldsz newsz xperm s l :
  as_wf top root s l -> top <= MAXVA -> top mod 4096 = 0 -> 0 <= oldsz -> top < newsz -> 0 <= xperm < 1024 ->
  PGROUNDUP oldsz + 4096 * (Z.of_nat (length l) + 1) <= top -> oldsz <= top ->
  (forall va, PGROUNDUP oldsz <= va < top -> pt_map (phys s) root va = None) ->
  exists s' l', uvmalloc root oldsz newsz xperm s = Ret 0 s' /\
    as_wf top root s' l' /\ isolated top root s l s' l' /\
    forall va, 0 <= va < top -> pt_map (phys s') root va = pt_map (phys s) root va /\
      umem (phys s') root va = umem (phys s) root va.
Proof.
  intros Ha Htop Htal Hsz Hnt Hx Hroom Hot Hfree. assert (HM : MAXVA = 2 ^ 38) by reflexivity.
  unfold uvmalloc. replace (newsz <? oldsz) with false by lia. rewrite PGROUNDUP_eq in * by lia.
  set (base := (oldsz + 4095) / 4096 * 4096) in *. assert (Hb : 0 <= base /\ base mod 4096 = 0) by (unfold base; dlia).
  destruct (uvmalloc_loop_exhaust top root base newsz xperm Htop Htal) with
    (n := length l) (f := S (Z.to_nat ((newsz - base + PGSIZE - 1) / PGSIZE))) (s := s) (l := l) (a := base)
    as (s' & l' & E & Ha' & Hi & Hext); auto; try lia.
  { apply (lor_bound 10); [lia|vm_compute; split; congruence|exact Hx]. }
  { unfold PGSIZE. dlia. }
  { intros va Hva. apply Hfree. lia. }
  exists s', l'. split; [exact E|]. split; [exact Ha'|]. split; [exact Hi|]. intros va Hva.
  destruct Hext as [[E0 _]|[_ H]]; [lia|]. specialize (H va Hva). replace ((base <=? va) && (va <? base)) with false in H by lia. exact H.
Qed.

(** C1. [uvmalloc] grows an address space all or nothing.  It either returns
    the new size with every added page mapped to a zeroed frame with the
    requested permissions, or returns 0 with the user's view exactly as it was;
    the rest of the address space keeps its entries and bytes, frames stay
    owned by one page each, and nothing outside the address space and the free
    list is touched. *)
Theorem uvmalloc_correct top root oldsz newsz xperm s l :
  as_wf top root s l -> top <= MAXVA -> top mod 4096 = 0 ->
  0 <= oldsz <= newsz -> newsz <= top -> 0 <= xperm < 1024 ->
  (forall va, PGROUNDUP oldsz <= va < PGROUNDUP newsz -> pt_map (phys s) root va = None) ->
  exists r s' l', uvmalloc root oldsz newsz xperm s = Ret r s' /\
    as_wf top root s' l' /\ isolated top root s l s' l' /\
    (r = newsz /\ (forall va, 0 <= va < top ->
       if (PGROUNDUP oldsz <=? va) && (va <? PGROUNDUP newsz)
       then (exists p, pt_map (phys s') root va = Some (leaf p (Z.lor (Z.lor PTE_R PTE_U) xperm))) /\
            umem (phys s') root va = Some 0
       else pt_map (phys s') root va = pt_map (phys s) root va /\
            umem (phys s') root va = umem (phys s) root va)
     \/ r = 0 /\ forall va, 0 <= va < top ->
       pt_map (phys s') root va = pt_map (phys s) root va /\
       umem (phys s') root va = umem (phys s) root va).
Proof. apply uvmalloc_run. Qed.

Lemma ex_as : as_wf 40960 ex_root ex_state [ex_p1; ex_p2; ex_p3].
Proof.
  split; [exact ex_kinv|exact ex_wf| |]; intros *; rewrite !(pt_map_empty _ _ _ ex_zero); discriminate.
Qed.

Lemma uvmalloc_correct_witness :
  exists r s' l', uvmalloc ex_root 0 100 4 ex_state = Ret r s' /\
    as_wf 40960 ex_root s' l' /\ isolated 40960 ex_root ex_state [ex_p1; ex_p2; ex_p3] s' l' /\
    (r = 100 /\ (forall va, 0 <= va < 40960 ->
       if (PGROUNDUP 0 <=? va) && (va <? PGROUNDUP 100)
       then (exists p, pt_map (phys s') ex_root va = Some (leaf p (Z.lor (Z.lor PTE_R PTE_U) 4))) /\
            umem (phys s') ex_root va = Some 0
       else pt_map (phys s') ex_root va = pt_map (phys ex_state) ex_root va /\
            umem (phys s') ex_root va = umem (phys ex_state) ex_root va)
     \/ r = 0 /\ forall va, 0 <= va < 40960 ->
       pt_map (phys s') ex_root va = pt_map (phys ex_state) ex_root va /\
       umem (phys s') ex_root va = umem (phys ex_state) ex_root va).
Proof.
  apply (uvmalloc_correct 40960 ex_root 0 100 4 ex_state [ex_p1; ex_p2; ex_p3] ex_as); [closed..|].
  intros va _. apply pt_map_empty, ex_zero.
Defined.

(** [uvmdealloc] shrinks an address space exactly to the pages of the new
    size: pages above it are unmapped, their frames (and no others) return to
    the free list, and every remaining page keeps its entry and its bytes. *)
Theorem uvmdealloc_correct top root oldsz newsz s l :
  as_wf top root s l -> top <= MAXVA -> top mod 4096 = 0 -> 0 <= newsz <= oldsz -> oldsz <= top ->
  exists s' l', uvmdealloc root oldsz newsz s = Ret newsz s' /\
    as_wf top root s' l' /\ isolated top root s l s' l' /\
    (forall p, p ∈ l' <-> p ∈ l \/ exists va v, PGROUNDUP newsz <= va < PGROUNDUP oldsz /\
       pt_map (phys s) root va = Some v /\ p = PTE2PA v) /\
    forall va, 0 <= va < top ->
      umem (phys s') root va =
      if (PGROUNDUP newsz <=? va) && (va <? PGROUNDUP oldsz) then None else umem (phys s) root va.
Proof.
  intros Ha Htop Htal Hn Ho. assert (HM : MAXVA = 2 ^ 38) by reflexivity.
  destruct (uvmdealloc_spec top root oldsz newsz s l Ha Htop Htal Hn Ho) as (s' & l' & E & U).
  exists s', l'. split; [exact E|]. split; [apply U|].
  split; [eapply unmapped_isolated; [exact Htop|lia| |exact U]; clear -Hn Ho Htal; dlia|].
  rewrite !PGROUNDUP_eq by lia. split.
  - intros p. rewrite (um_free _ _ _ _ _ _ _ _ U).
    assert (Heq : forall va, 0 <= va < top /\ (newsz + 4095) / 4096 * 4096 / 4096 <= va / 4096 <
        (newsz + 4095) / 4096 * 4096 / 4096 + ((oldsz + 4095) / 4096 - (newsz + 4095) / 4096) <->
      (newsz + 4095) / 4096 * 4096 <= va < (oldsz + 4095) / 4096 * 4096) by (intros; dlia).
    split; (intros [H|(va & v & H)]; [auto|right; exists va, v]); specialize (Heq va); tauto.
  - intros va Hva. rewrite (unmapped_umem _ _ _ _ _ _ _ _ va Htop Ha U Hva).
    rewrite Z.div_mul by lia.
    replace ((_ <=? va / 4096) && _) with
      (((newsz + 4095) / 4096 * 4096 <=? va) && (va <? (oldsz + 4095) / 4096 * 4096)) by dlia.
    reflexivity.
Qed.

Lemma uvmdealloc_correct_witness :
  exists s' l', uvmdealloc ex_root 40960 100 ex_state = Ret 100 s' /\
    as_wf 40960 ex_root s' l' /\ isolated 40960 ex_root ex_state [ex_p1; ex_p2; ex_p3] s' l' /\
    (forall p, p ∈ l' <-> p ∈ [ex_p1; ex_p2; ex_p3] \/
       exists va v, PGROUNDUP 100 <= va < PGROUNDUP 40960 /\
       pt_map (phys ex_state) ex_root va = Some v /\ p = PTE2PA v) /\
    forall va, 0 <= va < 40960 ->
      umem (phys s') ex_root va =
      if (PGROUNDUP 100 <=? va) && (va <? PGROUNDUP 40960) then None else umem (phys ex_state) ex_root va.
Proof.
  apply (uvmdealloc_correct 40960 ex_root 40960 100 ex_state [ex_p1; ex_p2; ex_p3] ex_as); closed.
Defined.
