(* ===== verification/CopyUser.v ===== *)
(** * Copying between the kernel and user space

    [walkaddr], [vmfault], [copyout] and [copyin] of [kernel/vm.c] against the
    user's view of memory ([umem]): a copy moves exactly the bytes it names,
    touches nothing outside the address space, faults lazily allocated pages
    in, and never stops the machine whatever addresses user code passes. *)

From S2P Require Import Prelude CString Riscv Kalloc Vm PageTable AddressSpace.

(** User-accessible pages are all below [top]. *)
Definition user_below (top root : Z) (s : kst) : Prop :=
  forall va v, top <= va < MAXVA -> pt_map (phys s) root va = Some v -> flag v PTE_U = false.

(** More is mapped, with the bytes that were there before. *)
Definition umem_le (top root : Z) (s s' : kst) : Prop :=
  (forall va v, 0 <= va < MAXVA -> pt_map (phys s) root va = Some v -> pt_map (phys s') root va = Some v) /\
  (forall va b, 0 <= va < top -> umem (phys s) root va = Some b -> umem (phys s') root va = Some b).

Lemma walkaddr_spec s root va :
  0 <= va ->
  walkaddr root va s =
  Ret (if MAXVA <=? va then 0 else
       match pt_map (phys s) root va with
       | Some v => if flag v PTE_U then PTE2PA v else 0
       | None => 0
       end) s
  \/ exists a, leaf_slot (phys s) root va = Some a /\ a = 0.
Proof.
  intros Hva. unfold walkaddr. destruct (Z.leb_spec MAXVA va); [left; reflexivity|].
  rewrite (bind_ret_l _ _ _ _ _ (walk_lookup s root va ltac:(lia))). unfold pt_map.
  destruct (leaf_slot (phys s) root va) as [a|]; [|left; reflexivity]. simpl.
  destruct (Z.eqb_spec a 0); [right; eauto|left].
  unfold ld64. rewrite bind_gets. destruct (flag _ PTE_V); [|reflexivity]. simpl.
  destruct (flag _ PTE_U); reflexivity.
Qed.

Lemma walkaddr_as top root s l va :
  as_wf top root s l -> 0 <= va < MAXVA ->
  walkaddr root va s =
  Ret (match pt_map (phys s) root va with
       | Some v => if flag v PTE_U then PTE2PA v else 0
       | None => 0
       end) s.
Proof.
  intros Ha Hva. destruct (walkaddr_spec s root va) as [E|(a & Hs & ->)]; [lia| |].
  - rewrite E. destruct (Z.leb_spec MAXVA va); [lia|reflexivity].
  - pose proof (leaf_slot_pos _ _ _ _ _ _ (as_pt _ _ _ _ Ha) Hs). lia.
Qed.

Lemma ismapped_as top root s l va :
  as_wf top root s l -> 0 <= va < MAXVA ->
  ismapped root va s = Ret (match pt_map (phys s) root va with Some _ => true | None => false end) s.
Proof.
  intros Ha Hva. unfold ismapped. rewrite (bind_ret_l _ _ _ _ _ (walk_lookup s root va Hva)).
  unfold pt_map. destruct (leaf_slot (phys s) root va) as [a|] eqn:Es; [|reflexivity]. simpl.
  pose proof (leaf_slot_pos _ _ _ _ _ _ (as_pt _ _ _ _ Ha) Es).
  destruct (Z.eqb_spec a 0); [lia|]. unfold ld64. rewrite bind_gets.
  destruct (flag _ PTE_V); reflexivity.
Qed.

Definition lazy_perm : Z := Z.lor (Z.lor PTE_W PTE_U) PTE_R.

Section Copy.
Context (top root : Z) (p : uproc).
Hypothesis Htop0 : 0 <= top.
Hypothesis Htop : top <= MAXVA.
Hypothesis Htal : top mod 4096 = 0.
Hypothesis Hroot : p_pagetable p = root.
Hypothesis Hsz : p_sz p <= top.

(** A fault below the size maps a zeroed page, or nothing changes. *)
Lemma vmfault_spec s l va rd :
  as_wf top root s l -> 0 <= va < 2 ^ 64 ->
  exists r s' l', vmfault p root va rd s = Ret r s' /\ as_wf top root s' l' /\
    isolated top root s l s' l' /\
    (r = 0 /\ same_space top root s s'
     \/ r <> 0 /\ va < p_sz p /\ pt_map (phys s) root va = None /\
        PTE2PA (leaf r lazy_perm) = r /\
        zero_paged top root va lazy_perm s s' r).
Proof using All.
  intros Ha Hva. unfold vmfault. destruct (Z.leb_spec (p_sz p) va).
  { exists 0, s, l. split; [reflexivity|]. split; [exact Ha|]. split; [apply isolated_refl|].
    left. split; [reflexivity|]. split; auto. }
  rewrite PGROUNDDOWN_eq by lia. set (a := va / 4096 * 4096).
  assert (Haa : 0 <= a < top /\ a mod 4096 = 0 /\ a / 4096 = va / 4096) by (unfold a; dlia).
  destruct Haa as (Har & Hal & Hpg).
  rewrite (bind_ret_l _ _ _ _ _ (ismapped_as top root s l a Ha ltac:(lia))).
  destruct (pt_map (phys s) root a) as [v|] eqn:Ev.
  { exists 0, s, l. split; [reflexivity|]. split; [exact Ha|]. split; [apply isolated_refl|].
    left. split; [reflexivity|]. split; auto. }
  assert (Hperm : 0 <= lazy_perm < 1024) by (vm_compute; split; congruence).
  destruct (zero_page top root a lazy_perm Htop Hperm Har Hal Htal s l Ha Ev) as
    [[-> Ek]|(q & l1 & s1 & r & s3 & l3 & -> & Ek & Ep & Em & Hr)].
  { rewrite (bind_ret_l _ _ _ _ _ Ek). exists 0, s, []. split; [reflexivity|]. split; [exact Ha|].
    split; [apply isolated_refl|]. left. split; [reflexivity|]. split; auto. }
  rewrite (bind_ret_l _ _ _ _ _ Ek), Ep. unfold memset_k. rewrite bind_modify, Hroot.
  fold lazy_perm. rewrite (bind_ret_l _ _ _ _ _ Em).
  destruct Hr as [(-> & Ha3 & [Zm Zu] & Hi & _)|(-> & s4 & Ef & Ha4 & Hs4 & Hi)]; simpl.
  - exists q, s3, l3. split; [reflexivity|]. split; [exact Ha3|]. split; [exact Hi|]. right.
    rewrite Hpg in Zm, Zu. split; [lia|]. split; [lia|].
    split; [rewrite (pt_map_page _ _ va a) by lia; exact Ev|]. split; [|split; assumption].
    pose proof (kinv_pages _ _ (as_inv _ _ _ _ Ha)) as Hf. apply Forall_cons in Hf as [[Hq1 Hq2] _].
    pose proof (kinv_end _ _ (as_inv _ _ _ _ Ha)).
    apply PTE2PA_leaf; unfold PGSIZE, PHYSTOP, KERNBASE in *; lia.
  - rewrite (bind_ret_l _ _ _ _ _ Ef). exists 0, s4, [q]. split; [reflexivity|].
    split; [exact Ha4|]. split; [exact Hi|]. left. auto.
Qed.

Lemma same_space_le s s' : same_space top root s s' -> umem_le top root s s'.
Proof using Type. intros [Hm Hu]. split; intros va v Hva; [rewrite Hm|rewrite Hu]; auto. Qed.

Lemma zero_paged_le s s' va r :
  pt_map (phys s) root va = None -> zero_paged top root va lazy_perm s s' r ->
  umem_le top root s s'.
Proof using Type.
  intros Hn [Zm Zu]. split; intros va' v Hva Hv.
  - rewrite Zm by exact Hva. destruct (Z.eqb_spec (va' / 4096) (va / 4096)) as [E|]; [|exact Hv].
    rewrite (pt_map_page _ _ va' va E), Hn in Hv. discriminate.
  - rewrite Zu by exact Hva. destruct (Z.eqb_spec (va' / 4096) (va / 4096)) as [E|]; [|exact Hv].
    unfold umem in Hv. rewrite (pt_map_page _ _ va' va E), Hn in Hv. discriminate.
Qed.
Lemma umem_le_refl s : umem_le top root s s.
Proof using Type. split; auto. Qed.

Lemma umem_le_trans s1 s2 s3 :
  umem_le top root s1 s2 -> umem_le top root s2 s3 -> umem_le top root s1 s3.
Proof using Type. intros [A1 B1] [A2 B2]. split; auto. Qed.

(** The frame behind a user address, or 0. *)
Lemma user_page_spec s l va :
  as_wf top root s l -> user_below top root s -> 0 <= va < 2 ^ 64 ->
  exists pa s' l', user_page p root va s = Ret pa s' /\ as_wf top root s' l' /\
    isolated top root s l s' l' /\ umem_le top root s s' /\ user_below top root s' /\
    (pa = 0 \/ (pa <> 0 /\ va < top /\ exists v, pt_map (phys s') root va = Some v /\ PTE2PA v = pa)) /\
    (forall v, va < top -> pt_map (phys s) root va = Some v -> flag v PTE_U = true -> pa <> 0).
Proof using All.
  intros Ha Hub Hva. unfold user_page.
  assert (Hw : walkaddr root va s = Ret (if MAXVA <=? va then 0 else
     match pt_map (phys s) root va with
     | Some v => if flag v PTE_U then PTE2PA v else 0 | None => 0 end) s).
  { destruct (Z.leb_spec MAXVA va).
    - unfold walkaddr. replace (MAXVA <=? va) with true by lia. reflexivity.
    - apply (walkaddr_as top root s l); auto; lia. }
  rewrite (bind_ret_l _ _ _ _ _ Hw). clear Hw.
  destruct (Z.leb_spec MAXVA va) as [Hm|Hm].
  { simpl. unfold vmfault. replace (p_sz p <=? va) with true by lia.
    exists 0, s, l. repeat (split; [solve [reflexivity|assumption|apply isolated_refl|apply umem_le_refl]|]).
    split; [auto|lia]. }
  destruct (pt_map (phys s) root va) as [v|] eqn:Ev; [destruct (flag v PTE_U) eqn:Eu|].
  { assert (Hvt : va < top).
    { destruct (Z.ltb_spec va top); [assumption|]. rewrite (Hub va v) in Eu by (auto; lia). discriminate. }
    destruct (as_page _ _ _ _ Ha va v ltac:(lia) Ev) as ([_ Hok] & _).
    pose proof (kinv_end _ _ (as_inv _ _ _ _ Ha)).
    replace (PTE2PA v =? 0) with false by lia.
    exists (PTE2PA v), s, l.
    repeat (split; [solve [reflexivity|assumption|apply isolated_refl|apply umem_le_refl]|]).
    split; [right; split; [lia|]; eauto|lia]. }
  1,2: destruct (vmfault_spec s l va false Ha Hva) as (r & s' & l' & E & Ha' & Hi & Hr); simpl; rewrite E;
    exists r, s', l'; split; [reflexivity|]; split; [exact Ha'|]; split; [exact Hi|];
    destruct Hr as [[-> Hs]|(Hr & Hlt & Hn & Hl & Hz)].
  1,3: split; [apply same_space_le, Hs|]; split;
    [intros va' v' Hva' Hv'; rewrite (proj1 Hs) in Hv' by lia; eapply Hub; eauto|];
    split; [auto|intros; simplify_eq; congruence].
  - congruence.
  - split; [eapply zero_paged_le; eauto|]. split.
    + intros va' v' Hva' Hv'. rewrite (zp_map _ _ _ _ _ _ _ Hz) in Hv' by lia.
      replace (va' / 4096 =? va / 4096) with false in Hv' by dlia. eapply Hub; eauto.
    + split; [|discriminate]. right. split; [exact Hr|]. split; [lia|].
      exists (leaf r lazy_perm). split; [|exact Hl].
      rewrite (zp_map _ _ _ _ _ _ _ Hz), Z.eqb_refl by lia. reflexivity.
Qed.

(** Writing inside the frame of the user page of [va]. *)
Lemma user_write s l va v m' :
  as_wf top root s l -> 0 <= va < top -> pt_map (phys s) root va = Some v -> byte_mem m' ->
  (forall x, ~ in_page (PTE2PA v) x -> m' x = phys s x) ->
  as_wf top root (set_phys m' s) l /\ isolated top root s l (set_phys m' s) l /\
  (forall va', pt_map m' root va' = pt_map (phys s) root va') /\
  (forall va', 0 <= va' < top -> va' / 4096 <> va / 4096 ->
     umem m' root va' = umem (phys s) root va').
Proof using Type.
  intros Ha Hva Hv Hb Ho.
  destruct (tables_ext (phys s) m' root) as [Hn Hm].
  { intros q x Hq Hx. apply Ho. intros Hx'. eapply (as_page_table _ _ _ _ va v q); eauto. }
  split; [|split; [|split; [exact Hm|]]].
  - split; simpl.
    + apply kinv_write; [apply Ha|exact Hb|]. intros q x Hq Hx. apply Ho. intros Hx'.
      eapply (as_page_free _ _ _ _ va v q); eauto.
    + eapply pt_wf_ext; [apply Ha|exact Hn|auto].
    + intros va' v' Hva'. rewrite Hm, table_page_ext by exact Hn. apply Ha, Hva'.
    + intros va1 va2 v1 v2 H1 H2. rewrite !Hm. apply (as_inj _ _ _ _ Ha); assumption.
  - split; [reflexivity| | | | |].
    + intros q [Hq|[Hq|(va' & v' & H1 & H2 & H3)]]; simpl in *; [left; exact Hq|right; left|right; right].
      * rewrite <- table_page_ext by exact Hn. exact Hq.
      * exists va', v'. rewrite <- Hm. auto.
    + intros x Hx. apply Ho, Hx. right. right. exists va, v. auto.
    + intros q [Hq|[Hq|(va' & v' & H1 & H2 & H3)]]; simpl in *; [left; exact Hq|right; left|right; right]; simpl.
      * rewrite table_page_ext by exact Hn. exact Hq.
      * exists va', v'. rewrite Hm. auto.
    + intros va' _. apply Hm.
    + apply tables_plain. intros q x Hq Hx. apply Ho. intros Hx'. eapply (as_page_table _ _ _ _ va v q); eauto.
  - intros va' Hva' Hne. unfold umem. rewrite Hm.
    destruct (pt_map (phys s) root va') as [v'|] eqn:Ev'; [|reflexivity].
    rewrite Ho; [reflexivity|].
    destruct (as_page _ _ _ _ Ha va v Hva Hv) as (H1 & _).
    destruct (as_page _ _ _ _ Ha va' v' Hva' Ev') as (H1' & _).
    apply (page_ok_ne (kend s) (PTE2PA v')); auto; [|unfold in_page, PGSIZE; dlia].
    intros E. apply Hne. eapply (as_inj _ _ _ _ Ha); eauto.
Qed.
(** The entry [walk] finds for a mapped page. *)
Lemma walk_mapped s l va v {B} (k : Z -> M kst B) :
  as_wf top root s l -> 0 <= va < MAXVA -> pt_map (phys s) root va = Some v ->
  (let! pte := walk root va false in let! w := ld64 pte in k w) s = k v s.
Proof using Type.
  intros Ha Hva Hv. rewrite (bind_ret_l _ _ _ _ _ (walk_lookup s root va Hva)).
  unfold pt_map in Hv. destruct (leaf_slot (phys s) root va) as [a|]; [|discriminate].
  destruct (flag _ PTE_V); [|discriminate]. injection Hv as <-. reflexivity.
Qed.

(** Kernel bytes that belong to no page of the address space or the free list. *)
Definition kernel_range (s : kst) (l : list Z) (a n : Z) : Prop :=
  forall x q, a <= x < a + n -> mine top root s l q -> ~ in_page q x.

(** Every page of the range is mapped, user-accessible and writable. *)
Definition writable (s : kst) (a n : Z) : Prop :=
  forall va, a <= va < a + n -> va < top /\ exists v, pt_map (phys s) root va = Some v /\
    flag v PTE_U = true /\ flag v PTE_W = true.

Record copied_out (dstva src len r : Z) (s : kst) (l : list Z) (s' : kst) (l' : list Z) : Prop := {
  co_as : as_wf top root s' l';
  co_iso : isolated top root s l s' l';
  co_below : user_below top root s';
  co_map : forall va v, 0 <= va < MAXVA -> pt_map (phys s) root va = Some v ->
    pt_map (phys s') root va = Some v;
  co_bytes : r = 0 -> forall i, 0 <= i < len -> dstva + i < top /\
    umem (phys s') root (dstva + i) = Some (phys s (src + i));
  co_rest : forall va b, 0 <= va < top -> va < dstva \/ dstva + len <= va ->
    umem (phys s) root va = Some b -> umem (phys s') root va = Some b;
  co_result : r = 0 \/ r = -1;
  co_total : writable s dstva len -> r = 0
}.

Lemma copyout_fail dstva src len s l s1 l1 :
  as_wf top root s1 l1 -> isolated top root s l s1 l1 -> umem_le top root s s1 ->
  user_below top root s1 -> ~ writable s dstva len -> copied_out dstva src len (-1) s l s1 l1.
Proof using Type.
  intros Ha Hi [Hm Hu] Hb Hn. split; auto; [discriminate|]. intros H. contradiction.
Qed.

(** One page's worth of bytes, then the rest. *)
Lemma copied_out_step dstva src len n s l s1 l1 s' l' r v :
  0 <= dstva -> 0 < n <= len -> dstva / 4096 = (dstva + n - 1) / 4096 -> dstva < top ->
  kernel_range s l src len ->
  as_wf top root s1 l1 -> isolated top root s l s1 l1 -> umem_le top root s s1 ->
  pt_map (phys s1) root dstva = Some v ->
  let m2 := memmove (phys s1) (PTE2PA v + dstva mod 4096) src n in
  let s2 := set_phys m2 s1 in
  copied_out (dstva + n) (src + n) (len - n) r s2 l1 s' l' ->
  copied_out dstva src len r s l s' l'.
Proof using Htop Htal.
  intros Hd Hn Hpg Hdt Hk Ha1 Hi1 [Hm1 Hu1] Hv m2 s2 [A I Bl Mp B R Rs T].
  assert (Hmm : forall x, m2 x = moved (phys s1) (PTE2PA v + dstva mod 4096) src n x).
  { intros x. apply memmove_moved. dlia. }
  destruct (user_write s1 l1 dstva v m2 Ha1 ltac:(lia) Hv) as (Ha2 & Hi2 & Hm2 & Hu2).
  { intros x. rewrite Hmm. unfold moved. case_test; apply Ha1. }
  { intros x Hx. rewrite Hmm. apply moved_out. unfold in_page, PGSIZE in Hx. dlia. }
  assert (Hi12 : isolated top root s l s2 l1) by (eapply isolated_trans; eauto).
  assert (Hsrc : forall i, 0 <= i < len -> phys s1 (src + i) = phys s (src + i)).
  { intros i Hi. apply (iso_frame _ _ _ _ _ _ Hi1). intros q Hq. apply (Hk (src + i) q); [lia|exact Hq]. }
  assert (Hsrc2 : forall i, 0 <= i < len -> m2 (src + i) = phys s (src + i)).
  { intros i Hi. apply (iso_frame _ _ _ _ _ _ Hi12). intros q Hq. apply (Hk (src + i) q); [lia|exact Hq]. }
  assert (Hnew : forall i, 0 <= i < n -> umem m2 root (dstva + i) = Some (phys s (src + i))).
  { intros i Hi. unfold umem. rewrite Hm2, (pt_map_page _ _ (dstva + i) dstva), Hv by dlia.
    f_equal. rewrite Hmm, moved_in by dlia. rewrite <- Hsrc by lia. f_equal. dlia. }
  split; auto.
  - eapply isolated_trans; eauto.
  - intros va w Hva Hw. apply Mp; [exact Hva|]. simpl. rewrite Hm2. auto.
  - intros Hr i Hi. destruct (Z.ltb_spec i n).
    + assert (dstva + i < top).
      { destruct (Z.ltb_spec (dstva + i) top); [assumption|]. dlia. }
      split; [assumption|]. apply R; [lia|lia|]. apply Hnew. lia.
    + replace (dstva + i) with (dstva + n + (i - n)) by lia. destruct (B Hr (i - n) ltac:(lia)) as [Hst ->].
      split; [exact Hst|]. simpl. replace (src + n + (i - n)) with (src + i) by lia. rewrite Hsrc2 by lia. reflexivity.
  - intros va b Hva Ho Hb. apply R; [exact Hva|lia|]. simpl.
    destruct (Z.eqb_spec (va / 4096) (dstva / 4096)) as [E|E].
    + apply Hu1 in Hb; [|exact Hva]. rewrite <- Hb. unfold umem. rewrite Hm2.
      rewrite (pt_map_page _ _ va dstva E), Hv. f_equal. rewrite Hmm. apply moved_out. dlia.
    + rewrite Hu2 by assumption. auto.
  - intros Hw. apply T. intros va Hva. destruct (Hw va ltac:(lia)) as (Hvt & w & Hw1 & Hw2).
    split; [exact Hvt|]. exists w. split; [|exact Hw2]. simpl. rewrite Hm2. apply Hm1; [lia|exact Hw1].
Qed.
Lemma copied_out_nil dstva src s l :
  as_wf top root s l -> user_below top root s -> copied_out dstva src 0 0 s l s l.
Proof using Type. intros Ha Hb. split; auto using isolated_refl. intros _ i Hi. lia. Qed.

Lemma copyout_loop_spec : forall f s l dstva src len,
  as_wf top root s l -> user_below top root s -> 0 <= dstva < 2 ^ 64 -> 0 <= len ->
  (dstva mod 4096 + len + 4095) / 4096 < Z.of_nat f -> kernel_range s l src len ->
  exists r s' l', copyout_loop f p root dstva src len s = Ret r s' /\
    copied_out dstva src len r s l s' l'.
Proof using All.
  assert (HM : MAXVA = 2 ^ 38) by reflexivity.
  induction f as [|f IH]; intros s l dstva src len Ha Hub Hd Hlen Hf Hk; [exfalso; dlia|].
  cbn [copyout_loop]. destruct (Z.ltb_spec 0 len) as [H0|H0].
  2: { exists 0, s, l. split; [reflexivity|]. replace len with 0 by lia. apply copied_out_nil; assumption. }
  rewrite PGROUNDDOWN_eq by lia. set (va0 := dstva / 4096 * 4096).
  assert (Hoff : dstva - va0 = dstva mod 4096 /\ va0 / 4096 = dstva / 4096 /\ va0 mod 4096 = 0)
    by (unfold va0; dlia). destruct Hoff as (Hoff & Hpg & Hal). rewrite Hoff. unfold PGSIZE.
  destruct (Z.leb_spec MAXVA va0) as [Hm|Hm].
  { exists (-1), s, l. split; [reflexivity|]. apply copyout_fail; auto using isolated_refl, umem_le_refl.
    intros Hw. destruct (Hw dstva ltac:(lia)). unfold va0 in *. dlia. }
  destruct (user_page_spec s l va0 Ha Hub) as (pa & s1 & l1 & E & Ha1 & Hi1 & Hu1 & Hub1 & Hpa & Htot);
    [unfold va0; dlia|].
  rewrite (bind_ret_l _ _ _ _ _ E).
  destruct Hpa as [->|(Hpa & Hvt & v & Hv & <-)].
  { exists (-1), s1, l1. split; [reflexivity|]. apply copyout_fail; auto.
    intros Hw. destruct (Hw dstva ltac:(lia)) as (Hdt & w & Hw1 & Hw2 & _).
    apply (Htot w); auto; [unfold va0; dlia|]. rewrite (pt_map_page _ _ va0 dstva) by exact Hpg. exact Hw1. }
  replace (PTE2PA v =? 0) with false by lia.
  rewrite (walk_mapped s1 l1 va0 v) by (auto; unfold va0 in *; dlia).
  assert (Hv' : pt_map (phys s1) root dstva = Some v)
    by (rewrite (pt_map_page _ _ dstva va0) by lia; exact Hv).
  destruct (flag v PTE_W) eqn:Ew; simpl.
  2: { exists (-1), s1, l1. split; [reflexivity|]. apply copyout_fail; auto.
       intros Hw. destruct (Hw dstva ltac:(lia)) as (Hdt & w & Hw1 & _ & Hw2).
       apply (proj1 Hu1) in Hw1; [|lia]. congruence. }
  unfold memmove_k. rewrite bind_modify. set (n := Z.min _ _).
  assert (Hn : 0 < n <= len /\ n <= 4096 - dstva mod 4096 <= 4096 /\ (n = len \/ n = 4096 - dstva mod 4096))
    by (unfold n; dlia). destruct Hn as (Hn & Hn' & Hcase).
  set (s2 := set_phys _ s1).
  assert (Hrest : exists r s' l', copyout_loop f p root (va0 + 4096) (src + n) (len - n) s2 = Ret r s' /\
    copied_out (dstva + n) (src + n) (len - n) r s2 l1 s' l').
  { destruct (user_write s1 l1 dstva v (phys s2) Ha1 ltac:(unfold va0 in *; dlia) Hv') as (Ha2 & Hi2 & Hm2 & _).
    { apply memmove_byte_mem; [lia|apply Ha1]. }
    { intros x Hx. unfold s2. simpl. rewrite memmove_moved by lia. apply moved_out. unfold in_page, PGSIZE in Hx. lia. }
    assert (Hub2 : user_below top root s2)
      by (intros va w Hva; unfold s2; simpl; rewrite Hm2; apply Hub1, Hva).
    destruct (decide (n = len)) as [->|Hne].
    - rewrite Z.sub_diag. destruct f as [|f']; [dlia|]. exists 0, s2, l1.
      split; [reflexivity|]. apply copied_out_nil; assumption.
    - destruct Hcase as [?|Hcase]; [contradiction|].
      replace (va0 + 4096) with (dstva + n) by lia. apply IH; auto; try lia.
      + replace ((dstva + n) mod 4096) with 0 by dlia. dlia.
      + intros x q Hx Hq. apply (Hk x q); [lia|]. apply (iso_mine _ _ _ _ _ _ Hi1), (iso_mine _ _ _ _ _ _ Hi2), Hq. }
  destruct Hrest as (r & s' & l' & Er & Hc). exists r, s', l'. split; [exact Er|].
  eapply (copied_out_step dstva src len n s l s1 l1); eauto; unfold va0 in *; try lia; dlia.
Qed.
(** Writing kernel memory leaves the address space as it is. *)
Lemma kernel_write s l a n m' :
  as_wf top root s l -> kernel_range s l a n -> byte_mem m' ->
  (forall x, x < a \/ a + n <= x -> m' x = phys s x) ->
  as_wf top root (set_phys m' s) l /\ same_space top root s (set_phys m' s) /\
  (forall q, mine top root (set_phys m' s) l q -> mine top root s l q).
Proof using Htop.
  intros Ha Hk Hb Ho.
  assert (Hq : forall q x, mine top root s l q -> in_page q x -> m' x = phys s x).
  { intros q x Hq Hx. apply Ho. destruct (decide (x < a \/ a + n <= x)) as [|Hin]; [assumption|].
    exfalso. eapply (Hk x q); eauto; lia. }
  destruct (tables_ext (phys s) m' root) as [Hn Hm].
  { intros q x Ht Hx. eapply Hq; eauto. right. left. exact Ht. }
  split; [split; simpl|split; [split; simpl|]].
  - apply kinv_write; [apply Ha|exact Hb|]. intros q x Hl Hx. eapply Hq; eauto. left. exact Hl.
  - eapply pt_wf_ext; [apply Ha|exact Hn|auto].
  - intros va v Hva. rewrite Hm, table_page_ext by exact Hn. apply Ha, Hva.
  - intros va1 va2 v1 v2 H1 H2. rewrite !Hm. apply (as_inj _ _ _ _ Ha); assumption.
  - intros va _. apply Hm.
  - intros va Hva. unfold umem. rewrite Hm. destruct (pt_map (phys s) root va) as [v|] eqn:Ev; [|reflexivity].
    f_equal. apply (Hq (PTE2PA v)); [right; right; eauto|]. unfold in_page, PGSIZE. dlia.
  - intros q [H|[H|(va & v & H1 & H2 & H3)]]; [left; exact H|right; left|right; right].
    + rewrite <- table_page_ext by exact Hn. exact H.
    + exists va, v. rewrite <- Hm. auto.
Qed.

(** Every page of the range is mapped and user-accessible. *)
Definition readable (s : kst) (a n : Z) : Prop :=
  forall va, a <= va < a + n -> va < top /\ exists v, pt_map (phys s) root va = Some v /\
    flag v PTE_U = true.

Record copied_in (dst srcva len r : Z) (s : kst) (l : list Z) (s' : kst) (l' : list Z) : Prop := {
  ci_as : as_wf top root s' l';
  ci_le : umem_le top root s s';
  ci_below : user_below top root s';
  ci_end : kend s' = kend s;
  ci_mine : forall q, mine top root s' l' q -> mine top root s l q;
  ci_frame : forall x, x < dst \/ dst + len <= x ->
    (forall q, mine top root s l q -> ~ in_page q x) -> phys s' x = phys s x;
  ci_bytes : r = 0 -> forall i, 0 <= i < len -> srcva + i < top /\
    umem (phys s') root (srcva + i) = Some (phys s' (dst + i));
  ci_result : r = 0 \/ r = -1;
  ci_total : readable s srcva len -> r = 0
}.

Lemma copied_in_iso dst srcva len r s l s1 l1 :
  as_wf top root s1 l1 -> isolated top root s l s1 l1 -> umem_le top root s s1 ->
  user_below top root s1 -> r = 0 /\ len = 0 \/ r = -1 /\ ~ readable s srcva len ->
  copied_in dst srcva len r s l s1 l1.
Proof using Type.
  intros Ha [Ie Im If] Hu Hb Hr. split; auto.
  - intros -> i Hi. destruct Hr as [[_ ->]|[? _]]; [lia|discriminate].
  - destruct Hr as [[-> _]|[-> _]]; auto.
  - intros H. destruct Hr as [[-> _]|[_ ?]]; [reflexivity|contradiction].
Qed.

Lemma copied_in_step dst srcva len n s l s1 l1 s' l' r v :
  0 <= srcva -> 0 < n <= len -> srcva / 4096 = (srcva + n - 1) / 4096 -> srcva < top ->
  kernel_range s l dst len ->
  as_wf top root s1 l1 -> isolated top root s l s1 l1 -> umem_le top root s s1 ->
  pt_map (phys s1) root srcva = Some v ->
  let s2 := set_phys (memmove (phys s1) dst (PTE2PA v + srcva mod 4096) n) s1 in
  copied_in (dst + n) (srcva + n) (len - n) r s2 l1 s' l' ->
  copied_in dst srcva len r s l s' l'.
Proof using Htop Htal.
  intros Hd Hn Hpg Hdt Hk Ha1 Hi1 Hu1 Hv s2 [A U Bl E Mn F B Rs T].
  assert (Hk1 : kernel_range s1 l1 dst n).
  { intros x q Hx Hq. apply (Hk x q); [lia|]. apply (iso_mine _ _ _ _ _ _ Hi1), Hq. }
  assert (Hmm : forall x, phys s2 x = moved (phys s1) dst (PTE2PA v + srcva mod 4096) n x).
  { intros x. apply memmove_moved. dlia. }
  destruct (kernel_write s1 l1 dst n (phys s2) Ha1 Hk1) as (Ha2 & [Sm Su] & Hmi).
  { apply memmove_byte_mem; [dlia|apply Ha1]. }
  { intros x Hx. rewrite Hmm. apply moved_out. lia. }
  assert (Hu2 : umem_le top root s1 s2) by (apply same_space_le; split; assumption).
  split; auto.
  - eapply umem_le_trans; [exact Hu1|]. eapply umem_le_trans; eassumption.
  - rewrite E. apply (iso_end _ _ _ _ _ _ Hi1).
  - intros q Hq. apply (iso_mine _ _ _ _ _ _ Hi1), Hmi, Mn, Hq.
  - intros x Hx Ho. rewrite F, Hmm, moved_out by (try lia; intros q Hq; apply Ho, (iso_mine _ _ _ _ _ _ Hi1), Hmi, Hq).
    apply (iso_frame _ _ _ _ _ _ Hi1), Ho.
  - intros Hr i Hi. destruct (Z.ltb_spec i n) as [Hin|Hin].
    + assert (Hst : srcva + i < top) by (destruct (Z.ltb_spec (srcva + i) top); [assumption|dlia]).
      split; [exact Hst|].
      rewrite (F (dst + i)) by first [lia|intros q Hq; apply (Hk1 (dst + i) q); [lia|apply Hmi, Hq]].
      apply (proj2 U); [lia|]. rewrite Su by lia. unfold umem.
      rewrite (pt_map_page _ _ (srcva + i) srcva), Hv by dlia.
      f_equal. rewrite Hmm, moved_in by lia. f_equal. dlia.
    + replace (srcva + i) with (srcva + n + (i - n)) by lia.
      destruct (B Hr (i - n) ltac:(lia)) as [Hst ->]. split; [exact Hst|]. do 2 f_equal. lia.
  - intros Hw. apply T. intros va Hva. destruct (Hw va ltac:(lia)) as (Hvt & w & Hw1 & Hw2).
    split; [exact Hvt|]. exists w. split; [|exact Hw2]. rewrite Sm by lia. apply Hu1; [lia|exact Hw1].
Qed.

Lemma copyin_loop_spec : forall f s l dst srcva len,
  as_wf top root s l -> user_below top root s -> 0 <= srcva < 2 ^ 64 -> 0 <= len ->
  (srcva mod 4096 + len + 4095) / 4096 < Z.of_nat f -> kernel_range s l dst len ->
  exists r s' l', copyin_loop f p root dst srcva len s = Ret r s' /\
    copied_in dst srcva len r s l s' l'.
Proof using All.
  assert (HM : MAXVA = 2 ^ 38) by reflexivity.
  induction f as [|f IH]; intros s l dst srcva len Ha Hub Hd Hlen Hf Hk; [exfalso; dlia|].
  cbn [copyin_loop]. destruct (Z.ltb_spec 0 len) as [H0|H0].
  2: { exists 0, s, l. split; [reflexivity|]. apply copied_in_iso; auto using isolated_refl, umem_le_refl. lia. }
  rewrite PGROUNDDOWN_eq by lia. set (va0 := srcva / 4096 * 4096).
  assert (Hoff : srcva - va0 = srcva mod 4096 /\ va0 / 4096 = srcva / 4096 /\ va0 mod 4096 = 0)
    by (unfold va0; dlia). destruct Hoff as (Hoff & Hpg & Hal). rewrite Hoff. unfold PGSIZE.
  destruct (user_page_spec s l va0 Ha Hub) as (pa & s1 & l1 & E & Ha1 & Hi1 & Hu1 & Hub1 & Hpa & Htot);
    [unfold va0; dlia|].
  rewrite (bind_ret_l _ _ _ _ _ E).
  destruct Hpa as [->|(Hpa & Hvt & v & Hv & <-)].
  { exists (-1), s1, l1. split; [reflexivity|]. apply copied_in_iso; auto. right. split; [reflexivity|].
    intros Hw. destruct (Hw srcva ltac:(lia)) as (Hdt & w & Hw1 & Hw2).
    apply (Htot w); auto; [unfold va0; dlia|]. rewrite (pt_map_page _ _ va0 srcva) by exact Hpg. exact Hw1. }
  replace (PTE2PA v =? 0) with false by lia.
  assert (Hv' : pt_map (phys s1) root srcva = Some v)
    by (rewrite (pt_map_page _ _ srcva va0) by lia; exact Hv).
  unfold memmove_k. rewrite bind_modify. set (n := Z.min _ _).
  assert (Hn : 0 < n <= len /\ n <= 4096 - srcva mod 4096 <= 4096 /\ (n = len \/ n = 4096 - srcva mod 4096))
    by (unfold n; dlia). destruct Hn as (Hn & Hn' & Hcase).
  set (s2 := set_phys _ s1). rewrite u64_small by lia.
  assert (Hk1 : kernel_range s1 l1 dst n).
  { intros x q Hx Hq. apply (Hk x q); [lia|]. apply (iso_mine _ _ _ _ _ _ Hi1), Hq. }
  assert (Hrest : exists r s' l', copyin_loop f p root (dst + n) (va0 + 4096) (len - n) s2 = Ret r s' /\
    copied_in (dst + n) (srcva + n) (len - n) r s2 l1 s' l').
  { destruct (kernel_write s1 l1 dst n (phys s2) Ha1 Hk1) as (Ha2 & [Sm Su] & Hmi).
    { apply memmove_byte_mem; [lia|apply Ha1]. }
    { intros x Hx. unfold s2. simpl. rewrite memmove_moved by lia. apply moved_out. lia. }
    assert (Hub2 : user_below top root s2) by (intros va w Hva; rewrite Sm by lia; apply Hub1, Hva).
    destruct (decide (n = len)) as [Hne|Hne].
    - destruct f as [|f']; [dlia|]. exists 0, s2, l1. rewrite Hne, Z.sub_diag.
      split; [reflexivity|]. apply copied_in_iso; auto using isolated_refl, umem_le_refl.
    - destruct Hcase as [?|Hcase]; [contradiction|].
      replace (va0 + 4096) with (srcva + n) by lia. apply IH; auto; try lia.
      + replace ((srcva + n) mod 4096) with 0 by dlia. dlia.
      + intros x q Hx Hq. apply (Hk x q); [lia|]. apply (iso_mine _ _ _ _ _ _ Hi1), Hmi, Hq. }
  destruct Hrest as (r & s' & l' & Er & Hc). exists r, s', l'. split; [exact Er|].
  eapply (copied_in_step dst srcva len n s l s1 l1); eauto; unfold va0 in *; try lia; dlia.
Qed.
End Copy.

(** Bytes of the kernel image are in nobody's page. *)
Lemma kernel_range_image top root s l a n :
  as_wf top root s l -> a + n <= kend s -> kernel_range top root s l a n.
Proof.
  intros Ha Hend x q Hx [Hq|[(path & Hs & Hq)|(va & v & Hva & Hv & ->)]] Hin.
  - pose proof (kinv_pages _ _ (as_inv _ _ _ _ Ha)) as Hf. rewrite Forall_forall in Hf.
    destruct (Hf q Hq). unfold in_page in Hin. lia.
  - destruct (wf_page _ _ _ _ (as_pt _ _ _ _ Ha) _ _ Hs Hq) as [[_ H] _]. unfold in_page in Hin. lia.
  - destruct (as_page _ _ _ _ Ha va v Hva Hv) as ([_ H] & _). unfold in_page in Hin. lia.
Qed.

(** C2. [copyout] is safe for every user address and length.  It never panics;
    it returns 0 or -1, and 0 whenever the range is mapped writable user
    memory; on 0 the user sees exactly the kernel's bytes in the range; all
    other mapped user bytes keep their values, and nothing outside the address
    space and the free list is touched. *)
Theorem copyout_correct top root p dstva src len s l :
  0 <= top <= MAXVA -> top mod 4096 = 0 -> p_pagetable p = root -> p_sz p <= top ->
  as_wf top root s l -> user_below top root s ->
  0 <= dstva < 2 ^ 64 -> 0 <= len -> kernel_range top root s l src len ->
  exists r s' l', copyout p root dstva src len s = Ret r s' /\
    (r = 0 \/ r = -1) /\ (writable top root s dstva len -> r = 0) /\
    (r = 0 -> forall i, 0 <= i < len -> dstva + i < top /\
       umem (phys s') root (dstva + i) = Some (phys s (src + i))) /\
    (forall va b, 0 <= va < top -> va < dstva \/ dstva + len <= va ->
       umem (phys s) root va = Some b -> umem (phys s') root va = Some b) /\
    as_wf top root s' l' /\ isolated top root s l s' l'.
Proof.
  intros Htop Htal Hr Hsz Ha Hub Hd Hlen Hk. unfold copyout, PGSIZE.
  destruct (copyout_loop_spec top root p ltac:(lia) ltac:(lia) Htal Hr Hsz
              (Z.to_nat (len / 4096 + 3)) s l dstva src len) as (r & s' & l' & E & []); auto; [dlia|].
  exists r, s', l'. auto 10.
Qed.

Definition ex_proc : uproc := Uproc 4096 ex_root.

Lemma ex_user_below : user_below 40960 ex_root ex_state.
Proof. intros va v _. rewrite (pt_map_empty _ _ _ ex_zero). discriminate. Qed.

Lemma copyout_correct_witness :
  exists r s' l', copyout ex_proc ex_root 10 KERNBASE 8 ex_state = Ret r s' /\
    (r = 0 \/ r = -1) /\ (writable 40960 ex_root ex_state 10 8 -> r = 0) /\
    (r = 0 -> forall i, 0 <= i < 8 -> 10 + i < 40960 /\
       umem (phys s') ex_root (10 + i) = Some (phys ex_state (KERNBASE + i))) /\
    (forall va b, 0 <= va < 40960 -> va < 10 \/ 10 + 8 <= va ->
       umem (phys ex_state) ex_root va = Some b -> umem (phys s') ex_root va = Some b) /\
    as_wf 40960 ex_root s' l' /\ isolated 40960 ex_root ex_state [ex_p1; ex_p2; ex_p3] s' l'.
Proof.
  apply (copyout_correct 40960 ex_root ex_proc 10 KERNBASE 8 ex_state [ex_p1; ex_p2; ex_p3]);
    [closed|closed|closed|closed|exact ex_as|exact ex_user_below|closed|closed|].
  apply kernel_range_image; [exact ex_as|closed].
Defined.

(** [copyin] is safe for every user address and length.  It never panics;
    it returns 0 or -1, and 0 whenever the range is mapped user memory; on 0
    the destination holds exactly the user's bytes; kernel memory outside the
    destination is untouched, and the user's memory keeps its contents (pages
    faulted in on the way are added zeroed). *)
Theorem copyin_correct top root p dst srcva len s l :
  0 <= top <= MAXVA -> top mod 4096 = 0 -> p_pagetable p = root -> p_sz p <= top ->
  as_wf top root s l -> user_below top root s ->
  0 <= srcva < 2 ^ 64 -> 0 <= len -> kernel_range top root s l dst len ->
  exists r s' l', copyin p root dst srcva len s = Ret r s' /\
    (r = 0 \/ r = -1) /\ (readable top root s srcva len -> r = 0) /\
    (r = 0 -> forall i, 0 <= i < len -> srcva + i < top /\
       umem (phys s') root (srcva + i) = Some (phys s' (dst + i))) /\
    (forall x, x < dst \/ dst + len <= x ->
       (forall q, mine top root s l q -> ~ in_page q x) -> phys s' x = phys s x) /\
    umem_le top root s s' /\ as_wf top root s' l'.
Proof.
  intros Htop Htal Hr Hsz Ha Hub Hd Hlen Hk. unfold copyin, PGSIZE.
  destruct (copyin_loop_spec top root p ltac:(lia) ltac:(lia) Htal Hr Hsz
              (Z.to_nat (len / 4096 + 3)) s l dst srcva len) as (r & s' & l' & E & []); auto; [dlia|].
  exists r, s', l'. auto 10.
Qed.

Lemma copyin_correct_witness :
  exists r s' l', copyin ex_proc ex_root KERNBASE 10 8 ex_state = Ret r s' /\
    (r = 0 \/ r = -1) /\ (readable 40960 ex_root ex_state 10 8 -> r = 0) /\
    (r = 0 -> forall i, 0 <= i < 8 -> 10 + i < 40960 /\
       umem (phys s') ex_root (10 + i) = Some (phys s' (KERNBASE + i))) /\
    (forall x, x < KERNBASE \/ KERNBASE + 8 <= x ->
       (forall q, mine 40960 ex_root ex_state [ex_p1; ex_p2; ex_p3] q -> ~ in_page q x) ->
       phys s' x = phys ex_state x) /\
    umem_le 40960 ex_root ex_state s' /\ as_wf 40960 ex_root s' l'.
Proof.
  apply (copyin_correct 40960 ex_root ex_proc KERNBASE 10 8 ex_state [ex_p1; ex_p2; ex_p3]);
    [closed|closed|closed|closed|exact ex_as|exact ex_user_below|closed|closed|].
  apply kernel_range_image; [exact ex_as|closed].
Defined.
