(* ===== verification/Spaces.v ===== *)
(** * The life of an address space

    Freeing page tables ([freewalk], [uvmfree]), copying an address space
    ([uvmcopy]), and address spaces side by side: what is done to one of them
    leaves the others as they are. *)

From S2P Require Import Prelude CString Riscv Kalloc Vm PageTable AddressSpace CopyUser.

(** ** Freeing tables *)

(** The table pages below and including [p], of a table of height [h]. *)
Fixpoint tree (h : nat) (m : mem) (p : Z) : list Z :=
  match h with
  | O => [p]
  | S h => p :: (seqZ 0 512 ≫= fun i => match child m p i with Some q => tree h m q | None => [] end)
  end.

(** Nothing is mapped, and entries for tables have no permissions. *)
Fixpoint bare (h : nat) (m : mem) (p : Z) : Prop :=
  forall i, idx i -> flag (load m (p + 8 * i) 8) PTE_V = true ->
  match h with
  | O => False
  | S h => flag (load m (p + 8 * i) 8) RWX = false /\ bare h m (PTE2PA (load m (p + 8 * i) 8))
  end.

Definition kids (h : nat) (m : mem) (p i : Z) : list Z := match child m p i with Some q => tree h m q | None => [] end.

Lemma tree_root h m p : p ∈ tree h m p.
Proof. destruct h; left. Qed.

Lemma kids_in_tree h m p i q : idx i -> q ∈ kids h m p i -> q ∈ tree (S h) m p.
Proof.
  intros Hi Hq. right. apply list_elem_of_bind. exists i. split; [exact Hq|]. apply elem_of_seqZ. unfold idx in Hi. lia.
Qed.

Lemma bind_ext_in {A B} (f g : A -> list B) l : (forall x, x ∈ l -> f x = g x) -> l ≫= f = l ≫= g.
Proof.
  induction l as [|a l IH]; intros H; [reflexivity|]. cbn [mbind list_bind]. rewrite (H a) by left. f_equal. apply IH. intros x Hx. apply H. right. exact Hx.
Qed.

Lemma tree_ext h m m' : forall p, (forall q x, q ∈ tree h m p -> in_page q x -> m' x = m x) ->
  tree h m' p = tree h m p /\ (bare h m p -> bare h m' p).
Proof.
  induction h as [|h IH]; intros p H.
  - split; [reflexivity|]. intros Hb i Hi. rewrite (load_ext 8 m' m); [apply Hb, Hi|].
    intros x Hx. apply (H p); [apply tree_root|]. eapply slot_in_page; eassumption.
  - assert (Hl : forall i, idx i -> load m' (p + 8 * i) 8 = load m (p + 8 * i) 8).
    { intros i Hi. apply load_ext. intros x Hx. apply (H p); [apply tree_root|]. eapply slot_in_page; eassumption. }
    assert (Hk : forall i q, idx i -> child m p i = Some q -> tree h m' q = tree h m q /\ (bare h m q -> bare h m' q)).
    { intros i q Hi Hc. apply IH. intros r x Hr. apply H. apply (kids_in_tree h m p i r Hi). unfold kids. rewrite Hc. exact Hr. }
    split.
    + cbn [tree]. f_equal. apply bind_ext_in. intros i Hi. apply elem_of_seqZ in Hi. assert (Hx : idx i) by (unfold idx; lia).
      unfold child at 1. rewrite Hl by exact Hx. fold (child m p i). destruct (child m p i) as [q|] eqn:Ec; [|reflexivity]. apply (Hk i q Hx Ec).
    + intros Hb i Hi. cbn [bare] in *. rewrite Hl by exact Hi. intros Hv. destruct (Hb i Hi Hv) as [H1 H2]. split; [exact H1|].
      apply (Hk i _ Hi); [unfold child; rewrite Hv; reflexivity|exact H2].
Qed.

(** Pages [ps] were given back: only they and page [p] have changed. *)
Record given (ps : list Z) (s : kst) (l : list Z) (s' : kst) (l' : list Z) : Prop := {
  gv_inv : kinv s' l';
  gv_end : kend s' = kend s;
  gv_list : l' ≡ₚ ps ++ l
}.

(** What [freewalk] needs to know of the table pages [ps] it is going to free. *)
Definition ours (ps : list Z) (s : kst) (l : list Z) : Prop :=
  NoDup ps /\ Forall (page_ok (kend s)) ps /\ forall q, q ∈ ps -> q ∉ l.

Lemma other_page e ps q x : Forall (page_ok e) ps -> page_ok e q -> q ∉ ps -> in_page q x -> forall r, r ∈ ps -> ~ in_page r x.
Proof.
  intros Hf Hq Hn Hx r Hr Hx'. rewrite Forall_forall in Hf. apply (page_ok_ne e q r Hq (Hf r Hr)) with x; auto. intros ->. contradiction.
Qed.

(** One entry: the table it names is freed and the entry cleared; the pages
    [rest] and the other entries of [p] are as before. *)
Lemma free_entry (rec : Z -> M kst unit) p q tr rest i s l :
  (exists s' l', rec q s = Ret tt s' /\ given tr s l s' l' /\ forall x, (forall r, r ∈ tr -> ~ in_page r x) -> phys s' x = phys s x) ->
  ours (p :: tr ++ rest) s l -> idx i ->
  exists s' l', (rec q ;; st64 (p + 8 * i) 0) s = Ret tt s' /\ given tr s l s' l' /\
    (forall x, (forall r, r ∈ p :: tr -> ~ in_page r x) -> phys s' x = phys s x) /\
    (forall r x, r ∈ rest -> in_page r x -> phys s' x = phys s x) /\
    (forall j, idx j -> j <> i -> load (phys s') (p + 8 * j) 8 = load (phys s) (p + 8 * j) 8).
Proof.
  intros (s1 & l1 & E1 & [Hk1 He1 Hl1] & Hf1) (Hnd & Hok & Hfree) Hi. apply NoDup_cons in Hnd as [Hp Hnd]. apply NoDup_app in Hnd as (Hnd1 & Hdis & Hnd2).
  apply Forall_cons in Hok as [Hpok Hok]. apply Forall_app in Hok as [Hok1 Hok2]. rewrite elem_of_app in Hp. assert (Hpl : p ∉ l) by (apply Hfree; left).
  assert (Hx1 : forall r x, r = p \/ r ∈ rest -> in_page r x -> phys s1 x = phys s x).
  { intros r x Hr Hx. apply Hf1. apply (other_page (kend s) tr r x Hok1); auto.
    - destruct Hr as [->|Hr]; [exact Hpok|]. rewrite Forall_forall in Hok2. auto.
    - destruct Hr as [->|Hr]; [tauto|]. intros Hr'. apply (Hdis r Hr' Hr). }
  set (s2 := set_phys (store_le (phys s1) (p + 8 * i) 8 0) s1).
  assert (Hst : forall x, ~ in_page p x -> phys s2 x = phys s1 x) by (intros x Hx; apply store_le_outside; unfold in_page, PGSIZE, idx in *; lia).
  exists s2, l1. split; [rewrite (bind_ret_l _ _ _ _ _ E1); reflexivity|]. split_and!.
  - split; [|exact He1|exact Hl1]. apply kinv_write; [exact Hk1|apply store_le_byte_mem, Hk1|]. intros r x Hr Hx. apply Hst. intros Hx'.
    pose proof (kinv_pages _ _ Hk1) as Hf. rewrite Forall_forall in Hf. specialize (Hf r Hr). rewrite He1 in Hf.
    apply (page_ok_ne (kend s) r p Hf Hpok) with x; auto. intros ->. rewrite Hl1, elem_of_app in Hr. tauto.
  - intros x Hx. rewrite Hst by (apply Hx; left). apply Hf1. intros r Hr. apply Hx. right. exact Hr.
  - intros r x Hr Hx. rewrite Hst; [apply (Hx1 r); auto|]. intros Hx'. apply (other_page (kend s) rest p x Hok2 Hpok ltac:(tauto) Hx' r Hr Hx).
  - intros j Hj Hne. unfold s2. cbn [phys set_phys]. rewrite load_store_le_ne by lia. apply load_ext. intros x Hx. apply (Hx1 p); [auto|].
    eapply slot_in_page; eassumption.
Qed.

(** The loop over the entries from [i] on; [rec] frees the tables they name. *)
Lemma freewalk_loop_spec (h : nat) (rec : Z -> M kst unit) p :
  (forall q s l, kinv s l -> ours (tree h (phys s) q) s l -> bare h (phys s) q ->
     exists s' l', rec q s = Ret tt s' /\ given (tree h (phys s) q) s l s' l' /\
       forall x, (forall r, r ∈ tree h (phys s) q -> ~ in_page r x) -> phys s' x = phys s x) ->
  forall n i s l, 0 <= i -> i + Z.of_nat n = 512 -> kinv s l ->
  ours (p :: (seqZ i (Z.of_nat n) ≫= kids h (phys s) p)) s l ->
  (forall j, i <= j < 512 -> flag (load (phys s) (p + 8 * j) 8) PTE_V = true ->
     flag (load (phys s) (p + 8 * j) 8) RWX = false /\ bare h (phys s) (PTE2PA (load (phys s) (p + 8 * j) 8))) ->
  exists s' l', freewalk_loop rec n p i s = Ret tt s' /\ given (seqZ i (Z.of_nat n) ≫= kids h (phys s) p) s l s' l' /\
    forall x, (forall r, r ∈ p :: (seqZ i (Z.of_nat n) ≫= kids h (phys s) p) -> ~ in_page r x) -> phys s' x = phys s x.
Proof.
  intros Hrec. induction n as [|n IH]; intros i s l Hi Hn Hk Hours Hbare.
  { exists s, l. split; [reflexivity|]. split; [split; auto|auto]. }
  cbn [freewalk_loop]. unfold ld64. rewrite bind_gets. set (v := load (phys s) (p + 8 * i) 8).
  rewrite (seqZ_cons i (Z.of_nat (S n))) in Hours |- * by lia. cbn [mbind list_bind] in *.
  replace (Z.pred (Z.of_nat (S n))) with (Z.of_nat n) in * by lia. replace (Z.succ i) with (i + 1) in * by lia.
  set (rest := seqZ (i + 1) (Z.of_nat n) ≫= kids h (phys s) p) in *.
  destruct (flag v PTE_V) eqn:Ev; cbn [andb].
  2: { assert (Ekid : kids h (phys s) p i = []) by (unfold kids, child; fold v; rewrite Ev; reflexivity). rewrite Ekid in *.
       erewrite bind_ret_l by reflexivity. apply IH; auto; try lia. intros j Hj. apply Hbare. lia. }
  destruct (Hbare i ltac:(lia) Ev) as [Hrwx Hb]. fold v in Hrwx, Hb. change (Z.lor (Z.lor PTE_R PTE_W) PTE_X) with RWX. rewrite Hrwx. cbn [negb].
  assert (Ekid : kids h (phys s) p i = tree h (phys s) (PTE2PA v)) by (unfold kids, child; fold v; rewrite Ev; reflexivity). rewrite Ekid in *.
  set (tr := tree h (phys s) (PTE2PA v)) in *. destruct Hours as (Hnd & Hok & Hfree).
  destruct (free_entry rec p (PTE2PA v) tr rest i s l) as (s2 & l2 & E2 & [Hk2 He2 Hl2] & Hf2 & Hr2 & Hload); [|split_and!; auto|unfold idx; lia|].
  { apply Hrec; auto. split_and!; [|apply Forall_cons in Hok as [_ Hok]; apply Forall_app in Hok; apply Hok|intros q Hq; apply Hfree; right; apply elem_of_app; auto].
    apply NoDup_cons in Hnd as [_ Hnd]. apply NoDup_app in Hnd. apply Hnd. }
  rewrite (bind_ret_l _ _ _ _ _ E2).
  assert (Hkid : forall j q, i < j < 512 -> child (phys s) p j = Some q -> tree h (phys s2) q = tree h (phys s) q /\ (bare h (phys s) q -> bare h (phys s2) q)).
  { intros j q Hj Hc. apply tree_ext. intros r x Hr. apply Hr2. apply list_elem_of_bind. exists j. split; [unfold kids; rewrite Hc; exact Hr|].
    apply elem_of_seqZ. lia. }
  assert (Erest : seqZ (i + 1) (Z.of_nat n) ≫= kids h (phys s2) p = rest).
  { apply bind_ext_in. intros j Hj. apply elem_of_seqZ in Hj. unfold kids at 1. unfold child. rewrite Hload by (unfold idx; lia). fold (child (phys s) p j). unfold kids.
    destruct (child (phys s) p j) as [q|] eqn:Ec; [|reflexivity]. apply (Hkid j q); [lia|exact Ec]. }
  destruct (IH (i + 1) s2 l2) as (s' & l' & E' & [Hk' He' Hl'] & Hf'); auto; try lia; rewrite ?Erest in *.
  { apply NoDup_cons in Hnd as [Hp Hnd]. apply NoDup_app in Hnd as (_ & Hdis & Hnd2). rewrite elem_of_app in Hp.
    apply Forall_cons in Hok as [Hpok Hok]. apply Forall_app in Hok as [_ Hok2]. split_and!.
    - apply NoDup_cons. split; [tauto|exact Hnd2].
    - rewrite He2. constructor; assumption.
    - intros q Hq. rewrite Hl2, elem_of_app. intros [Hq'|Hq']; [|apply (Hfree q); [rewrite elem_of_cons, elem_of_app in *; tauto|exact Hq']].
      apply elem_of_cons in Hq as [->|Hq]; [tauto|]. apply (Hdis q Hq' Hq). }
  { intros j Hj. rewrite Hload by (unfold idx; lia). intros Hv. destruct (Hbare j ltac:(lia) Hv) as [H1 H2]. split; [exact H1|].
    apply (Hkid j); [lia|unfold child; rewrite Hv; reflexivity|exact H2]. }
  exists s', l'. split; [exact E'|]. split; [split; [exact Hk'|congruence|]|].
  - rewrite Hl', Hl2, !app_assoc. apply Permutation_app_tail, Permutation_app_comm.
  - intros x Hx. rewrite Hf', Hf2; [reflexivity|..]; intros r Hr; apply Hx; rewrite elem_of_cons, ?elem_of_app in *; tauto.
Qed.

Lemma freewalk_loop_none rec p s : forall n i, 0 <= i -> i + Z.of_nat n <= 512 ->
  (forall j, idx j -> flag (load (phys s) (p + 8 * j) 8) PTE_V = false) -> freewalk_loop rec n p i s = Ret tt s.
Proof.
  induction n as [|n IH]; intros i Hi Hn Hno; [reflexivity|]. cbn [freewalk_loop]. unfold ld64. rewrite bind_gets, Hno by (unfold idx; lia). cbn [andb].
  erewrite bind_ret_l by reflexivity. apply IH; auto; lia.
Qed.

(** [freewalk] gives back exactly the table pages. *)
Lemma freewalk_spec h : forall d p s l, (h <= d)%nat -> kinv s l -> ours (tree h (phys s) p) s l -> bare h (phys s) p ->
  exists s' l', freewalk (S d) p s = Ret tt s' /\ given (tree h (phys s) p) s l s' l' /\
    forall x, (forall r, r ∈ tree h (phys s) p -> ~ in_page r x) -> phys s' x = phys s x.
Proof.
  induction h as [|h IH]; intros d p s l Hd Hk Hours Hb; cbn [freewalk].
  - destruct Hours as (_ & Hok & Hfree). rewrite (bind_ret_l _ _ _ tt s).
    2: { apply freewalk_loop_none; [lia..|]. intros j Hj. destruct (flag _ _) eqn:E; [destruct (Hb j Hj E)|reflexivity]. }
    destruct (kfree_spec s l p Hk) as (s' & E & Hk' & [He Ho]); [apply Forall_cons in Hok; apply Hok|apply Hfree; left|].
    exists s', (p :: l). split; [exact E|]. split; [split; auto|]. intros x Hx. apply Ho, Hx. left.
  - destruct d as [|d]; [lia|].
    assert (Hrec : forall q s l, kinv s l -> ours (tree h (phys s) q) s l -> bare h (phys s) q ->
      exists s' l', freewalk (S d) q s = Ret tt s' /\ given (tree h (phys s) q) s l s' l' /\
        forall x, (forall r, r ∈ tree h (phys s) q -> ~ in_page r x) -> phys s' x = phys s x) by (intros; apply IH; auto; lia).
    destruct (freewalk_loop_spec h (freewalk (S d)) p Hrec 512 0 s l ltac:(lia) eq_refl Hk Hours) as (s1 & l1 & E1 & [Hk1 He1 Hl1] & Hf1).
    { intros j Hj Hv. apply (Hb j Hj Hv). }
    destruct Hours as (Hnd & Hok & Hfree). change (tree (S h) (phys s) p) with (p :: (seqZ 0 (Z.of_nat 512) ≫= kids h (phys s) p)) in *.
    apply NoDup_cons in Hnd as [Hp _]. apply Forall_cons in Hok as [Hpok _].
    destruct (kfree_spec s1 l1 p Hk1) as (s' & E & Hk' & [He Ho]); [rewrite He1; exact Hpok| |].
    { rewrite Hl1, elem_of_app. intros [Hq|Hq]; [exact (Hp Hq)|]. apply (Hfree p); [left|exact Hq]. }
    exists s', (p :: l1). split; [rewrite (bind_ret_l _ _ _ _ _ E1); exact E|]. split; [split; [exact Hk'|congruence|rewrite Hl1; reflexivity]|].
    intros x Hx. rewrite Ho, Hf1; auto. apply Hx. left.
Qed.

(** ** Whole tables *)

Lemma tree_elem h m : forall p q, q ∈ tree h m p <-> exists path, (length path <= h)%nat /\ Forall idx path /\ node m p path = Some q.
Proof.
  induction h as [|h IH]; intros p q; cbn [tree].
  - rewrite list_elem_of_singleton. split; [intros ->; exists []; auto|]. intros ([|i path] & Hl & _ & Hn); simpl in *; [congruence|lia].
  - rewrite elem_of_cons, list_elem_of_bind. split.
    + intros [->|(i & Hq & Hi)]; [exists []; split_and!; auto; simpl; lia|]. apply elem_of_seqZ in Hi.
      destruct (child m p i) as [r|] eqn:Ec; [|apply elem_of_nil in Hq; contradiction]. apply IH in Hq as (path & Hl & Hf & Hn).
      exists (i :: path). split; [simpl; lia|]. split; [constructor; [unfold idx; lia|exact Hf]|]. simpl. rewrite Ec. exact Hn.
    + intros ([|i path] & Hl & Hf & Hn); [left; simpl in Hn; congruence|]. right. apply Forall_cons in Hf as [Hi Hf]. simpl in Hn, Hl.
      exists i. split; [|apply elem_of_seqZ; unfold idx in Hi; lia]. destruct (child m p i) as [r|]; [|discriminate]. apply IH. exists path. split_and!; auto; lia.
Qed.

Lemma tree_nodup h m : forall p,
  (forall path path' q, (length path <= h)%nat -> (length path' <= h)%nat -> Forall idx path -> Forall idx path' ->
     node m p path = Some q -> node m p path' = Some q -> path = path') -> NoDup (tree h m p).
Proof.
  induction h as [|h IH]; intros p Hinj; cbn [tree]; [apply NoDup_singleton|].
  assert (Hkid : forall i q, i ∈ seqZ 0 512 -> q ∈ match child m p i with Some r => tree h m r | None => [] end ->
    exists path, (length path <= h)%nat /\ Forall idx (i :: path) /\ node m p (i :: path) = Some q).
  { intros i q Hi Hq. apply elem_of_seqZ in Hi. destruct (child m p i) as [r|] eqn:Ec; [|apply elem_of_nil in Hq; contradiction].
    apply tree_elem in Hq as (path & Hl & Hf & Hn). exists path. split; [exact Hl|]. split; [constructor; [unfold idx; lia|exact Hf]|].
    simpl. rewrite Ec. exact Hn. }
  apply NoDup_cons. split.
  - intros Hp. apply list_elem_of_bind in Hp as (i & Hq & Hi). destruct (Hkid i p Hi Hq) as (path & Hl & Hf & Hn).
    assert (E : i :: path = []) by (apply (Hinj _ _ p); simpl; auto; lia). discriminate.
  - apply NoDup_bind; [| |apply NoDup_seqZ].
    + intros i j q Hi Hj Hqi Hqj. destruct (Hkid i q Hi Hqi) as (pi & Li & Fi & Ni). destruct (Hkid j q Hj Hqj) as (pj & Lj & Fj & Nj).
      assert (E : i :: pi = j :: pj) by (apply (Hinj _ _ q); simpl; auto; lia). congruence.
    + intros i Hi. destruct (child m p i) as [r|] eqn:Ec; [|apply NoDup_nil; exact I]. apply IH. intros path path' q Hl Hl' Hf Hf' Hn Hn'.
      apply elem_of_seqZ in Hi. assert (Hx : idx i) by (unfold idx; lia).
      assert (E : i :: path = i :: path') by (apply (Hinj _ _ q); simpl; rewrite ?Ec; auto; lia). congruence.
Qed.

Lemma tree_table m root q : q ∈ tree 2 m root <-> table_page m root q.
Proof. rewrite tree_elem. unfold table_page, short. split; intros (path & H); exists path; tauto. Qed.

(** The address whose entries are [i], [j] and [k]. *)
Lemma address i j k : 0 <= i < 256 -> idx j -> idx k ->
  exists va, 0 <= va < MAXVA /\ path_of va = [i; j] /\ PX 0 va = k.
Proof.
  intros Hi Hj Hk. exists ((i * 512 + j) * 512 * 4096 + k * 4096). unfold idx in *. change MAXVA with (2 ^ 38).
  split; [lia|]. unfold path_of. rewrite !PX_eq by lia.
  change (2 ^ (12 + 9 * 2)) with 1073741824. change (2 ^ (12 + 9 * 1)) with 2097152. change (2 ^ (12 + 9 * 0)) with 4096.
  split; [f_equal; [|f_equal]|]; dlia.
Qed.

Lemma bare_tables m root : plain m root -> (forall va, 0 <= va < MAXVA -> pt_map m root va = None) -> bare 2 m root.
Proof.
  intros Hp Hnone i Hi Hv. destruct (Hp [] i root) as [H1 Hi']; auto; [split; [simpl; lia|repeat constructor; apply Hi]|]. split; [exact H1|].
  intros j Hj Hv'. assert (Hn1 : node m root [i] = Some (PTE2PA (load m (root + 8 * i) 8))) by (simpl; unfold child; rewrite Hv; reflexivity).
  destruct (Hp [i] j _ ltac:(split; [simpl; lia|repeat constructor; first [apply Hi|apply Hj]]) Hn1 Hv') as [H2 _]. split; [exact H2|].
  intros k Hk Hv''. destruct (address i j k) as (va & Hva & Ep & E0); auto; [unfold idx in Hi; specialize (Hi' eq_refl); lia|].
  specialize (Hnone va Hva). unfold pt_map, leaf_slot in Hnone. rewrite Ep, E0 in Hnone. simpl in Hnone. unfold child in Hnone.
  rewrite Hv in Hnone. simpl in Hnone. rewrite Hv' in Hnone. rewrite Hv'' in Hnone. discriminate.
Qed.

(** A table that maps nothing is freed. *)
Lemma free_tables root s l : kinv s l -> pt_wf (kend s) (phys s) root l -> plain (phys s) root ->
  (forall va, 0 <= va < MAXVA -> pt_map (phys s) root va = None) ->
  exists s' l', freewalk 4 root s = Ret tt s' /\ kinv s' l' /\ kend s' = kend s /\ (forall q, q ∈ l' <-> q ∈ l \/ table_page (phys s) root q) /\
    forall x, (forall q, table_page (phys s) root q -> ~ in_page q x) -> phys s' x = phys s x.
Proof.
  intros Hk Hw Hp Hnone. assert (Ht : forall q, q ∈ tree 2 (phys s) root -> page_ok (kend s) q /\ q ∉ l).
  { intros q Hq. apply tree_table in Hq as (path & Hs & Hn). apply (wf_page _ _ _ _ Hw path q Hs Hn). }
  destruct (freewalk_spec 2 3 root s l ltac:(lia) Hk) as (s' & l' & E & [Hk' He Hl] & Hf).
  - split_and!; [|apply Forall_forall; intros q Hq; apply Ht, Hq|intros q Hq; apply Ht, Hq]. apply tree_nodup. intros path path' q H1 H2 H3 H4.
    apply (wf_inj _ _ _ _ Hw); split; assumption.
  - apply bare_tables; assumption.
  - exists s', l'. split; [exact E|]. split; [exact Hk'|]. split; [exact He|]. split.
    + intros q. rewrite Hl, elem_of_app, tree_table. tauto.
    + intros x Hx. apply Hf. intros q Hq. apply Hx, tree_table, Hq.
Qed.

(** Freeing an address space whose pages are all below [sz]. *)
Lemma uvmfree_run top root sz s l : as_wf top root s l -> 0 <= top <= MAXVA -> top mod 4096 = 0 -> 0 <= sz <= top -> plain (phys s) root ->
  (forall va, PGROUNDUP sz <= va < MAXVA -> pt_map (phys s) root va = None) ->
  exists s' l', uvmfree root sz s = Ret tt s' /\ kinv s' l' /\ kend s' = kend s /\ (forall q, q ∈ l' <-> mine top root s l q) /\
    forall x, (forall q, mine top root s l q -> ~ in_page q x) -> phys s' x = phys s x.
Proof.
  intros Ha Htop Htal Hsz Hp Hnone. assert (HM : MAXVA = 2 ^ 38) by reflexivity. rewrite PGROUNDUP_eq in Hnone by lia.
  set (n := (sz + 4095) / 4096) in *. assert (Hn : 0 <= n /\ n * 4096 <= top) by (unfold n; dlia).
  assert (H1 : exists s1 l1, when (0 <? sz) (uvmunmap root 0 (PGROUNDUP sz / PGSIZE) true) s = Ret tt s1 /\ unmapped top root 0 n s l s1 l1).
  { rewrite PGROUNDUP_eq by lia. fold n. unfold PGSIZE. rewrite Z.div_mul by lia. destruct (Z.ltb_spec 0 sz); cbn [when].
    - apply uvmunmap_spec; auto; lia.
    - exists s, l. split; [reflexivity|]. replace n with 0 by (unfold n; dlia). apply unmapped_0, Ha. }
  destruct H1 as (s1 & l1 & E1 & U). pose proof (um_as _ _ _ _ _ _ _ _ U) as Ha1.
  destruct (free_tables root s1 l1) as (s' & l' & E2 & Hk' & He & Hl & Hf); [apply Ha1|apply Ha1|apply (um_plain _ _ _ _ _ _ _ _ U), Hp|..].
  { intros va Hva. rewrite (um_map _ _ _ _ _ _ _ _ U va Hva). rewrite Z.div_0_l by lia. destruct (_ && _) eqn:E; [reflexivity|]. apply Hnone. dlia. }
  exists s', l'. split; [unfold uvmfree; rewrite (bind_ret_l _ _ _ _ _ E1); exact E2|]. split; [exact Hk'|]. split; [rewrite He; apply U|].
  assert (Hmine : forall q, q ∈ l' <-> mine top root s l q).
  { intros q. rewrite Hl, (um_free _ _ _ _ _ _ _ _ U), (table_page_ext _ _ _ _ (um_node _ _ _ _ _ _ _ _ U)). unfold mine. split.
    - intros [[Hq|(va & v & Hva & _ & Hv & ->)]|Hq]; eauto 10.
    - intros [Hq|[Hq|(va & v & Hva & Hv & ->)]]; auto. left. right. exists va, v. split_and!; auto; [lia|lia|rewrite Z.div_0_l by lia; dlia|].
      rewrite Z.div_0_l by lia. destruct (decide (va / 4096 < n)); [lia|]. rewrite Hnone in Hv by dlia. discriminate. }
  split; [exact Hmine|]. intros x Hx. rewrite Hf, (um_frame _ _ _ _ _ _ _ _ U); [reflexivity|..].
  - intros q Hq. apply Hx. right. left. exact Hq.
  - intros q Hq. apply Hx, Hmine, Hl. left. exact Hq.
  - intros q Hq. apply Hx. right. left. rewrite <- (table_page_ext _ _ _ _ (um_node _ _ _ _ _ _ _ _ U)). exact Hq.
Qed.

(** ** Side by side *)

(** The pages of an address space. *)
Definition owns (top root : Z) (s : kst) (q : Z) : Prop :=
  table_page (phys s) root q \/ exists va v, 0 <= va < top /\ pt_map (phys s) root va = Some v /\ q = PTE2PA v.

Lemma mine_owns top root s l q : mine top root s l q <-> q ∈ l \/ owns top root s q.
Proof. unfold mine, owns. tauto. Qed.

Lemma owns_ok top root s l q : as_wf top root s l -> owns top root s q -> page_ok (kend s) q /\ q ∉ l.
Proof.
  intros Ha [(path & Hs & Hn)|(va & v & Hva & Hv & ->)]; [apply (wf_page _ _ _ _ (as_pt _ _ _ _ Ha) path q Hs Hn)|].
  destruct (as_page _ _ _ _ Ha va v Hva Hv) as (? & ? & _). auto.
Qed.

(** What an address space looks like from inside. *)
Record unchanged (top root : Z) (s s' : kst) : Prop := {
  uc_node : forall path, short path -> node (phys s') root path = node (phys s) root path;
  uc_map : forall va, pt_map (phys s') root va = pt_map (phys s) root va;
  uc_umem : forall va, 0 <= va < top -> umem (phys s') root va = umem (phys s) root va;
  uc_plain : plain (phys s) root -> plain (phys s') root
}.

Lemma unchanged_refl top root s : unchanged top root s s.
Proof. split; auto. Qed.

Lemma unchanged_trans top root s1 s2 s3 : unchanged top root s1 s2 -> unchanged top root s2 s3 -> unchanged top root s1 s3.
Proof.
  intros [A1 A2 A3 A4] [B1 B2 B3 B4]. split; [| | |auto].
  - intros path Hs. rewrite B1, A1 by exact Hs. reflexivity.
  - intros va. rewrite B2, A2. reflexivity.
  - intros va Hva. rewrite B3, A3 by exact Hva. reflexivity.
Qed.

Lemma unchanged_owns top root s s' q : unchanged top root s s' -> owns top root s' q <-> owns top root s q.
Proof.
  intros [A1 A2 A3 A4]. unfold owns. rewrite table_page_ext by exact A1. split; intros [H|(va & v & Hva & Hv & E)]; auto; right; exists va, v;
    [rewrite <- A2|rewrite A2]; auto.
Qed.

(** A change elsewhere. *)
Lemma space_frame top root s l s' l' : as_wf top root s l -> kinv s' l' -> kend s' = kend s ->
  (forall q, owns top root s q -> q ∉ l') -> (forall q x, owns top root s q -> in_page q x -> phys s' x = phys s x) ->
  as_wf top root s' l' /\ unchanged top root s s'.
Proof.
  intros Ha Hk He Hl Hx.
  assert (Ht : forall p x, table_page (phys s) root p -> in_page p x -> phys s' x = phys s x) by (intros p x Hp; apply Hx; left; exact Hp).
  destruct (tables_ext (phys s) (phys s') root Ht) as [Hn Hm]. split.
  - split; [exact Hk| |..].
    + rewrite He. eapply pt_wf_ext; [apply Ha|exact Hn|]. intros p Hp. right. intros Hp'. apply (Hl p); [left; exact Hp'|exact Hp].
    + intros va v Hva. rewrite Hm. intros Hv. destruct (as_page _ _ _ _ Ha va v Hva Hv) as (H1 & H2 & H3). rewrite He. split; [exact H1|].
      split; [apply Hl; right; exists va, v; auto|]. rewrite table_page_ext by exact Hn. exact H3.
    + intros va va' v v' Hva Hva'. rewrite !Hm. apply (as_inj _ _ _ _ Ha); assumption.
  - split; [exact Hn|exact Hm| |apply tables_plain, Ht]. intros va Hva. unfold umem. rewrite Hm. destruct (pt_map (phys s) root va) as [v|] eqn:Ev; [|reflexivity].
    rewrite (Hx (PTE2PA v)); [reflexivity|right; exists va, v; auto|unfold in_page, PGSIZE; dlia].
Qed.

(** Two address spaces with pages of their own. *)
Definition disjoint_spaces (t1 r1 t2 r2 : Z) (s : kst) : Prop := forall q, owns t1 r1 s q -> ~ owns t2 r2 s q.

(** Work on one address space: only its own pages and free ones are written,
    and each of them still is one or the other. *)
Record confined (top root : Z) (s : kst) (l : list Z) (s' : kst) (l' : list Z) : Prop := {
  cf_end : kend s' = kend s;
  cf_mine : forall q, mine top root s' l' q <-> mine top root s l q;
  cf_frame : forall x, (forall q, mine top root s l q -> ~ in_page q x) -> phys s' x = phys s x;
  cf_plain : plain (phys s) root -> plain (phys s') root
}.

Lemma isolated_confined top root s l s' l' : isolated top root s l s' l' -> confined top root s l s' l'.
Proof. intros [Ie Im If Ik Ia Ip]. split; auto. split; auto. Qed.

Lemma confined_trans top root s1 l1 s2 l2 s3 l3 :
  confined top root s1 l1 s2 l2 -> confined top root s2 l2 s3 l3 -> confined top root s1 l1 s3 l3.
Proof.
  intros [E1 M1 F1 P1] [E2 M2 F2 P2]. split; [congruence| | |auto].
  - intros q. rewrite M2. apply M1.
  - intros x Hx. rewrite F2, F1; auto. intros q Hq. apply Hx, M1, Hq.
Qed.

Lemma mine_ok top root s l q : as_wf top root s l -> mine top root s l q -> page_ok (kend s) q.
Proof.
  intros Ha Hq. apply mine_owns in Hq as [Hq|Hq]; [|apply (owns_ok _ _ _ _ _ Ha Hq)].
  pose proof (kinv_pages _ _ (as_inv _ _ _ _ Ha)) as Hf. rewrite Forall_forall in Hf. auto.
Qed.

(** Pages [T] that are not this address space's can be worked on. *)
Lemma elsewhere (T : Z -> Prop) top root s l s' l' : as_wf top root s l -> kinv s' l' -> kend s' = kend s ->
  (forall q, T q -> page_ok (kend s) q) -> (forall q, owns top root s q -> ~ T q) -> (forall q, q ∈ l' -> T q) ->
  (forall x, (forall q, T q -> ~ in_page q x) -> phys s' x = phys s x) ->
  as_wf top root s' l' /\ unchanged top root s s'.
Proof.
  intros Ha Hk He Hok Hown Hl Hf. apply (space_frame top root s l s' l' Ha Hk He).
  - intros q Hq Hql. exact (Hown q Hq (Hl q Hql)).
  - intros q x Hq Hx. apply Hf. intros r Hr Hx'. apply (page_ok_ne (kend s) q r) with x; auto; [apply (owns_ok _ _ _ _ _ Ha Hq)|].
    intros ->. exact (Hown r Hq Hr).
Qed.

(** What an operation does to one, the other does not notice. *)
Lemma bystander t1 r1 t2 r2 s l s' l' : as_wf t1 r1 s l -> as_wf t2 r2 s l -> disjoint_spaces t1 r1 t2 r2 s ->
  kinv s' l' -> confined t2 r2 s l s' l' ->
  as_wf t1 r1 s' l' /\ unchanged t1 r1 s s' /\ disjoint_spaces t1 r1 t2 r2 s'.
Proof.
  intros H1 H2 Hd Hk [Ie Im If _].
  assert (Hmine : forall q, owns t1 r1 s q -> ~ mine t2 r2 s l q).
  { intros q Hq. rewrite mine_owns. intros [Hl|Ho]; [apply (owns_ok _ _ _ _ _ H1 Hq), Hl|exact (Hd q Hq Ho)]. }
  destruct (elsewhere (mine t2 r2 s l) t1 r1 s l s' l' H1 Hk Ie) as [Ha Hu]; auto.
  - intros q. apply mine_ok, H2.
  - intros q Hq. apply Im. left. exact Hq.
  - split; [exact Ha|]. split; [exact Hu|]. intros q Hq Ho. apply (unchanged_owns _ _ _ _ _ Hu) in Hq.
    apply (Hmine q Hq), Im, mine_owns. auto.
Qed.

(** ** Copying *)

Section Copy.
Context (top old new : Z).
Hypothesis (Htop0 : 0 <= top) (Htop : top <= MAXVA) (Htal : top mod 4096 = 0).

(** The pair of address spaces a copy works on. *)
Record two_spaces (s : kst) (l : list Z) : Prop := {
  pr_old : as_wf top old s l;
  pr_new : as_wf top new s l;
  pr_apart : disjoint_spaces top old top new s
}.

Lemma pair_step s l s' l' : two_spaces s l -> as_wf top new s' l' -> isolated top new s l s' l' ->
  two_spaces s' l' /\ unchanged top old s s'.
Proof using.
  intros [H1 H2 Hd] Hn Hi. destruct (bystander top old top new s l s' l' H1 H2 Hd (as_inv _ _ _ _ Hn) (isolated_confined _ _ _ _ _ _ Hi)) as (Ha & Hu & Hd').
  split; [split; assumption|exact Hu].
Qed.

(** The entry of the copy of a page. *)
Definition copy_of (m m' : mem) (va : Z) : Prop :=
  umem m' new va = umem m old va /\
  match pt_map m old va with
  | Some v => exists p, pt_map m' new va = Some (leaf p (PTE_FLAGS v))
  | None => pt_map m' new va = None
  end.

(** [n] pages from [i] on were copied, or all pages below were taken away. *)
Definition copied (i n r : Z) (s s' : kst) : Prop :=
  (r = 0 /\ forall va, 0 <= va < top ->
     if (i <=? va) && (va <? i + 4096 * n) then copy_of (phys s) (phys s') va
     else pt_map (phys s') new va = pt_map (phys s) new va /\ umem (phys s') new va = umem (phys s) new va) \/
  (r = -1 /\ forall va, 0 <= va < top -> pt_map (phys s') new va = if va <? i then None else pt_map (phys s) new va).

(** The page that gets the copy. *)
Lemma filled_page s l v i p : as_wf top old s (p :: l) -> 0 <= i < top -> pt_map (phys s) old i = Some v ->
  exists s1, kalloc s = Ret p s1 /\ (p =? 0) = false /\
    kinv (set_phys (memmove (phys s1) p (PTE2PA v) PGSIZE) s1) l /\
    only_page p s (set_phys (memmove (phys s1) p (PTE2PA v) PGSIZE) s1) /\
    forall k, 0 <= k < 4096 -> memmove (phys s1) p (PTE2PA v) PGSIZE (p + k) = phys s (PTE2PA v + k).
Proof using.
  intros Ha Hi Hv. destruct (kalloc_spec s p l (as_inv _ _ _ _ Ha)) as (s1 & Ek & Hk1 & [He Ho] & Hn & Hp & _).
  destruct (as_page _ _ _ _ Ha i v Hi Hv) as (Hq & Hql & _). assert (Hqp : PTE2PA v <> p) by (intros E; apply Hql; rewrite E; left).
  exists s1. split; [exact Ek|]. split; [destruct Hp; pose proof (kinv_end _ _ Hk1); lia|].
  assert (Hout : forall x, ~ in_page p x -> memmove (phys s1) p (PTE2PA v) PGSIZE x = phys s1 x).
  { intros x Hx. rewrite memmove_moved by (unfold PGSIZE; lia). unfold moved. replace (_ && _) with false; [reflexivity|]. unfold in_page in Hx. lia. }
  split; [|split; [split; [exact He|]|]].
  - apply kinv_write; [exact Hk1|apply memmove_byte_mem; [unfold PGSIZE; lia|apply Hk1]|]. intros q x Hq' Hx. apply Hout.
    pose proof (kinv_pages _ _ Hk1) as Hf. rewrite Forall_forall in Hf. specialize (Hf q Hq'). rewrite He in Hf.
    apply (page_ok_ne (kend s) q p Hf Hp); [intros ->; contradiction|exact Hx].
  - intros x Hx. simpl. rewrite Hout, Ho by exact Hx. reflexivity.
  - intros k Hk. rewrite memmove_moved by (unfold PGSIZE; lia). unfold moved, PGSIZE. replace (_ && _) with true by lia.
    replace (PTE2PA v + (p + k - p)) with (PTE2PA v + k) by lia. apply Ho.
    apply (page_ok_ne (kend s) (PTE2PA v) p Hq Hp Hqp). unfold in_page, PGSIZE. lia.
Qed.

(** An entry that is looked up and used if it is valid. *)
Lemma walk_entry {A} root s l va (F : M kst A) (G : Z -> M kst A) : as_wf top root s l -> 0 <= va < MAXVA ->
  (let! pte := walk root va false in
   if pte =? 0 then F else let! v := ld64 pte in if negb (flag v PTE_V) then F else G v) s =
  match pt_map (phys s) root va with Some v => G v s | None => F s end.
Proof using.
  intros Ha Hva. rewrite (bind_ret_l _ _ _ _ _ (walk_lookup s root va Hva)). unfold pt_map.
  destruct (leaf_slot (phys s) root va) as [a|] eqn:Es; [|reflexivity]. simpl.
  pose proof (leaf_slot_pos _ _ _ _ _ _ (as_pt _ _ _ _ Ha) Es). destruct (Z.eqb_spec a 0) as [|_]; [lia|].
  unfold ld64. rewrite bind_gets. destruct (flag _ PTE_V); reflexivity.
Qed.

Lemma copied_skip i n r s s' : 0 <= n -> i mod 4096 = 0 -> 0 <= i -> pt_map (phys s) old i = None -> pt_map (phys s) new i = None ->
  copied (i + 4096) n r s s' -> copied i (n + 1) r s s'.
Proof using.
  intros Hn Hal Hi Ho Hw [[-> H]|[-> H]]; [left|right]; (split; [reflexivity|]); intros va Hva; specialize (H va Hva).
  - destruct (Z.eqb_spec (va / 4096) (i / 4096)) as [E|E].
    + replace (_ && _) with false in H by dlia. replace (_ && _) with true by dlia. destruct H as [H1 H2].
      unfold copy_of. rewrite H1, H2. unfold umem. rewrite !(pt_map_page _ _ va i E), Ho, Hw. auto.
    + replace ((i <=? va) && (va <? i + 4096 * (n + 1)))
        with ((i + 4096 <=? va) && (va <? i + 4096 + 4096 * n)) by dlia. exact H.
  - rewrite H. destruct (Z.eqb_spec (va / 4096) (i / 4096)) as [E|E].
    + rewrite (pt_map_page _ _ va i E), Hw. destruct (_ <? _), (_ <? _); reflexivity.
    + replace (va <? i + 4096) with (va <? i) by dlia. reflexivity.
Qed.

Lemma copied_page i n r s s3 s' p v : 0 <= n -> i mod 4096 = 0 -> 0 <= i ->
  pt_map (phys s) old i = Some v -> pt_map (phys s) new i = None ->
  paged top new i (PTE_FLAGS v) (fun k => phys s (PTE2PA v + k)) s s3 p -> unchanged top old s s3 ->
  copied (i + 4096) n r s3 s' -> copied i (n + 1) r s s'.
Proof using Htop.
  intros Hn Hal Hi Ho Hw [Pm Pu] Hc [[-> H]|[-> H]]; [left|right]; (split; [reflexivity|]); intros va Hva; specialize (H va Hva);
    specialize (Pm va ltac:(lia)); specialize (Pu va Hva).
  - destruct (Z.eqb_spec (va / 4096) (i / 4096)) as [E|E].
    + replace (_ && _) with false in H by dlia. replace (_ && _) with true by dlia. destruct H as [H1 H2].
      unfold copy_of. rewrite H1, H2, Pm, Pu. unfold umem. rewrite (pt_map_page (phys s) old va i E), Ho. eauto.
    + replace ((i <=? va) && (va <? i + 4096 * (n + 1)))
        with ((i + 4096 <=? va) && (va <? i + 4096 + 4096 * n)) by dlia.
      destruct (_ && _); [|rewrite <- Pm, <- Pu; exact H]. unfold copy_of in *.
      rewrite (uc_umem _ _ _ _ Hc), (uc_map _ _ _ _ Hc) in H by exact Hva. exact H.
  - rewrite H. destruct (Z.eqb_spec (va / 4096) (i / 4096)) as [E|E].
    + replace (va <? i + 4096) with true by dlia. rewrite (pt_map_page _ _ va i E), Hw. destruct (va <? i); reflexivity.
    + replace (va <? i + 4096) with (va <? i) by dlia. rewrite Pm. reflexivity.
Qed.

(** Giving up: the pages below [i] go away again. *)
Lemma copy_undo i n s l s1 l1 : two_spaces s l -> as_wf top new s1 l1 -> isolated top new s l s1 l1 -> same_space top new s s1 ->
  0 <= i <= top -> i mod 4096 = 0 ->
  exists s' l', (uvmunmap new 0 (i / PGSIZE) true ;; ret (-1)) s1 = Ret (-1) s' /\ two_spaces s' l' /\
    isolated top new s l s' l' /\ unchanged top old s s' /\ copied i n (-1) s s'.
Proof using Htop Htop0 Htal.
  intros Hp Ha1 Hi [Sm _] Hr Hal. unfold PGSIZE.
  destruct (uvmunmap_spec top new 0 (i / 4096) s1 l1 Ha1 Htop) as (s' & l' & E & U); [lia|reflexivity|dlia..|].
  exists s', l'. rewrite (bind_ret_l _ _ _ _ _ E). split; [reflexivity|].
  assert (Hi' : isolated top new s l s' l') by (eapply isolated_trans; [exact Hi|]; eapply unmapped_isolated; [exact Htop|exact Htop0| |exact U]; dlia).
  destruct (pair_step s l s' l' Hp (um_as _ _ _ _ _ _ _ _ U) Hi') as [Hp' Hu]. split; [exact Hp'|]. split; [exact Hi'|]. split; [exact Hu|].
  right. split; [reflexivity|]. intros va Hva. rewrite (um_map _ _ _ _ _ _ _ _ U), Sm by lia. clear -Hva Hal Hr.
  change (0 / 4096) with 0. destruct (_ && _) eqn:E1, (_ <? i) eqn:E2; try reflexivity; exfalso; dlia.
Qed.

Lemma PTE_FLAGS_range v : 0 <= PTE_FLAGS v < 1024.
Proof using. unfold PTE_FLAGS. change 1023 with (Z.ones 10). rewrite Z.land_ones by lia. apply Z.mod_pos_bound. lia. Qed.

Lemma uvmcopy_loop_spec sz : sz <= top -> forall n s l i,
  two_spaces s l -> 0 <= i -> i mod 4096 = 0 ->
  sz <= i + 4096 * Z.of_nat n -> (n = O \/ i + 4096 * Z.of_nat n < sz + 4096) -> i <= top ->
  (forall va, i <= va < i + 4096 * Z.of_nat n -> pt_map (phys s) new va = None) ->
  exists r s' l', uvmcopy_loop (S n) old new i sz s = Ret r s' /\ two_spaces s' l' /\ isolated top new s l s' l' /\
    unchanged top old s s' /\ copied i (Z.of_nat n) r s s'.
Proof using All.
  intros Hsz. assert (HM : MAXVA = 2 ^ 38) by reflexivity.
  induction n as [|n IH]; intros s l i Hp Hi Hal Hlo Hhi Hit Hfree.
  - exists 0, s, l. cbn [uvmcopy_loop]. replace (i <? sz) with false by lia.
    split; [reflexivity|]. split; [exact Hp|]. split; [apply isolated_refl|]. split; [apply unchanged_refl|].
    left. split; [reflexivity|]. intros va Hva. replace (_ && _) with false by lia. auto.
  - remember (S n) as n1. cbn [uvmcopy_loop]. assert (Hi4 : i + 4096 <= top) by dlia.
    replace (i <? sz) with true by lia. cbv zeta.
    replace (u64 (i + PGSIZE)) with (i + 4096) by (unfold PGSIZE; rewrite u64_small; lia).
    rewrite (walk_entry old s l i) by first [apply Hp|lia]. assert (Hni : pt_map (phys s) new i = None) by (apply Hfree; lia).
    assert (E1 : Z.of_nat n1 = Z.of_nat n + 1) by lia.
    destruct (pt_map (phys s) old i) as [v|] eqn:Ev.
    2:{ destruct (IH s l (i + 4096)) as (r & s' & l' & E & H1 & H2 & H3 & H4); auto; try lia; [dlia|intros va Hva; apply Hfree; lia|].
        subst n1. exists r, s', l'. do 4 (split; [assumption|]). rewrite E1. apply copied_skip; auto; lia. }
    destruct l as [|p l].
    { rewrite (bind_ret_l _ _ _ _ _ (kalloc_empty s (as_inv _ _ _ _ (pr_old _ _ Hp)))). simpl.
      destruct (copy_undo i (Z.of_nat n1) s [] s []) as (s' & l' & E & H); auto; [apply Hp|apply isolated_refl|split; auto|]. exists (-1), s', l'. auto. }
    destruct (filled_page s l v i p (pr_old _ _ Hp) ltac:(lia) Ev) as (s1 & Ek & Ep & Hk & Ho & Hf).
    rewrite (bind_ret_l _ _ _ _ _ Ek), Ep. unfold memmove_k. rewrite bind_modify, u32_small by (pose proof (PTE_FLAGS_range v); lia).
    destruct (new_page top new i (PTE_FLAGS v) Htop (PTE_FLAGS_range v) ltac:(lia) Hal Htal s p l _ _ (pr_new _ _ Hp) Hni Hk Ho Hf) as
      (r & s3 & l3 & Em & Hr). rewrite (bind_ret_l _ _ _ _ _ Em). destruct Hr as [(-> & Ha3 & Hg & Hiso & _)|(-> & s4 & Ef & Ha4 & Hs4 & Hiso)]; simpl.
    + destruct (pair_step s (p :: l) s3 l3 Hp Ha3 Hiso) as [Hp3 Hu3].
      destruct (IH s3 l3 (i + 4096)) as (r & s' & l' & E & H1 & H2 & H3 & H4); auto; try lia; [dlia| |].
      { intros va Hva. rewrite (pgd_map _ _ _ _ _ _ _ _ Hg) by dlia. replace (_ =? _) with false by dlia. apply Hfree. lia. }
      subst n1. exists r, s', l'. split; [exact E|]. split; [exact H1|]. split; [eapply isolated_trans; eassumption|].
      split; [eapply unchanged_trans; eassumption|]. rewrite E1. apply (copied_page i _ r s s3 s' p v); auto; lia.
    + rewrite (bind_ret_l _ _ _ _ _ Ef). destruct (copy_undo i (Z.of_nat n1) s (p :: l) s4 [p]) as (s' & l' & E & H); auto.
      exists (-1), s', l'. auto.
Qed.
End Copy.

(** ** A new address space *)

Lemma uvmcreate_run s l : kinv s l ->
  (l = [] /\ uvmcreate s = Ret 0 s) \/
  exists p l1 s', l = p :: l1 /\ p <> 0 /\ uvmcreate s = Ret p s' /\ kinv s' l1 /\ only_page p s s' /\ page_ok (kend s) p /\ (p ∉ l1) /\
    forall x, in_page p x -> phys s' x = 0.
Proof.
  intros Hk. unfold uvmcreate. destruct l as [|p l1]; [left|right].
  { split; [reflexivity|]. rewrite (bind_ret_l _ _ _ _ _ (kalloc_empty s Hk)). reflexivity. }
  destruct (kalloc_zero s p l1 Hk) as (s1 & m2 & Ek & Em & Hk2 & Ho2 & Hz).
  pose proof (kinv_pages _ _ Hk) as Hf. apply Forall_cons in Hf as [Hp _].
  pose proof (kinv_nodup _ _ Hk) as Hn. apply NoDup_cons in Hn as [Hn _].
  assert (Hp0 : p <> 0) by (destruct Hp; pose proof (kinv_end _ _ Hk); lia).
  exists p, l1, (set_phys m2 s1). rewrite (bind_ret_l _ _ _ _ _ Ek). destruct (Z.eqb_spec p 0) as [|_]; [contradiction|].
  unfold memset_k. rewrite bind_modify, Em. split_and!; auto; apply Ho2.
Qed.

Lemma blank_space top root s l : kinv s l -> page_ok (kend s) root -> root ∉ l -> (forall x, in_page root x -> phys s x = 0) ->
  as_wf top root s l /\ plain (phys s) root /\ (forall va, pt_map (phys s) root va = None) /\ forall q, owns top root s q -> q = root.
Proof.
  intros Hk Hr Hl Hz. assert (Hnone : forall va, pt_map (phys s) root va = None) by (intros va; apply pt_map_empty, Hz).
  assert (Hn : forall path q, Forall idx path -> node (phys s) root path = Some q -> path = [] /\ q = root).
  { intros [|i path] q Hf Hq; simpl in Hq; [split; congruence|]. apply Forall_cons in Hf as [Hi _].
    rewrite child_zero_page in Hq by assumption. discriminate. }
  split; [|split; [|split; [exact Hnone|]]].
  - split; [exact Hk|apply pt_wf_empty; auto; apply Hk| |]; intros *; rewrite !Hnone; discriminate.
  - intros path i q Hs Hq. destruct (short_snoc _ _ Hs) as [[_ Hf] Hi]. apply Hn in Hq as [-> ->]; [|exact Hf].
    pose proof (child_zero_page (phys s) root i Hz Hi) as Hc. unfold child in Hc. destruct (flag _ _); [discriminate Hc|discriminate].
  - intros q [(path & [_ Hf] & Hq)|(va & v & _ & Hv & _)]; [apply Hn in Hq; [apply Hq|exact Hf]|]. rewrite Hnone in Hv. discriminate.
Qed.

(** It is apart from every other one, and they stay as they are. *)
Lemma new_space_apart top root top' p s l s' : as_wf top root s (p :: l) -> kinv s' l -> only_page p s s' ->
  (forall x, in_page p x -> phys s' x = 0) ->
  as_wf top root s' l /\ unchanged top root s s' /\ disjoint_spaces top root top' p s'.
Proof.
  intros Ha Hk [He Ho] Hz. pose proof (kinv_pages _ _ (as_inv _ _ _ _ Ha)) as Hf. apply Forall_cons in Hf as [Hp _].
  pose proof (kinv_nodup _ _ (as_inv _ _ _ _ Ha)) as Hn. apply NoDup_cons in Hn as [Hn _].
  destruct (space_frame top root s (p :: l) s' l Ha Hk He) as [Ha' Hu].
  - intros q Hq Hl. apply (owns_ok _ _ _ _ _ Ha Hq). right. exact Hl.
  - intros q x Hq Hx. apply Ho. destruct (owns_ok _ _ _ _ _ Ha Hq) as [Hok Hql].
    apply (page_ok_ne (kend s) q p Hok Hp); [intros ->; apply Hql; left|exact Hx].
  - split; [exact Ha'|]. split; [exact Hu|]. intros q Hq Hq'. rewrite <- He in Hp.
    destruct (blank_space top' p s' l Hk Hp Hn Hz) as (_ & _ & _ & Hown). apply Hown in Hq' as ->.
    apply (unchanged_owns _ _ _ _ _ Hu) in Hq. apply (owns_ok _ _ _ _ _ Ha Hq). left.
Qed.

Lemma uvmcopy_run top old new sz s l :
  0 <= top <= MAXVA -> top mod 4096 = 0 -> 0 <= sz <= top -> two_spaces top old new s l ->
  (forall va, 0 <= va < PGROUNDUP sz -> pt_map (phys s) new va = None) ->
  exists r s' l', uvmcopy old new sz s = Ret r s' /\ two_spaces top old new s' l' /\
    isolated top new s l s' l' /\ unchanged top old s s' /\
    (r = 0 /\ (forall va, 0 <= va < top ->
       if va <? PGROUNDUP sz then copy_of old new (phys s) (phys s') va
       else pt_map (phys s') new va = pt_map (phys s) new va /\ umem (phys s') new va = umem (phys s) new va)
     \/ r = -1 /\ forall va, 0 <= va < top -> pt_map (phys s') new va = pt_map (phys s) new va).
Proof.
  intros Htop Htal Hsz Hp Hfree. assert (HM : MAXVA = 2 ^ 38) by reflexivity. rewrite PGROUNDUP_eq in * by lia.
  unfold uvmcopy, PGSIZE. replace (sz + 4096 - 1) with (sz + 4095) by lia. set (n := (sz + 4095) / 4096) in *.
  assert (Hn : 0 <= n /\ sz <= 4096 * n < sz + 4096) by (unfold n; dlia).
  destruct (uvmcopy_loop_spec top old new ltac:(lia) ltac:(lia) Htal sz ltac:(lia) (Z.to_nat n) s l 0 Hp)
    as (r & s' & l' & E & H1 & H2 & H3 & H4); try lia; [reflexivity|intros va Hva; apply Hfree; lia|].
  exists r, s', l'. do 4 (split; [assumption|]). rewrite Z2Nat.id in H4 by lia.
  destruct H4 as [[-> H]|[-> H]]; [left|right]; (split; [reflexivity|]); intros va Hva; specialize (H va Hva).
  - replace ((0 <=? va) && (va <? 0 + 4096 * n)) with (va <? n * 4096) in H by lia. exact H.
  - replace (va <? 0) with false in H by lia. exact H.
Qed.

(** [uvmcopy] copies an address space all or nothing.  It either returns 0,
    and then every mapped page below the size has a page of its own in the new
    address space with the same flags and the same bytes and an unmapped page
    stays unmapped; or it returns -1, and then the new address space maps what
    it mapped before.  The old address space looks as it did, the two still
    share no page, and nothing but the new address space and the free list is
    written. *)
Theorem uvmcopy_correct top old new sz s l :
  0 <= top <= MAXVA -> top mod 4096 = 0 -> 0 <= sz <= top -> two_spaces top old new s l ->
  (forall va, 0 <= va < PGROUNDUP sz -> pt_map (phys s) new va = None) ->
  exists r s' l', uvmcopy old new sz s = Ret r s' /\ two_spaces top old new s' l' /\
    isolated top new s l s' l' /\ unchanged top old s s' /\
    (r = 0 /\ (forall va, 0 <= va < top ->
       if va <? PGROUNDUP sz then copy_of old new (phys s) (phys s') va
       else pt_map (phys s') new va = pt_map (phys s) new va /\ umem (phys s') new va = umem (phys s) new va)
     \/ r = -1 /\ forall va, 0 <= va < top -> pt_map (phys s') new va = pt_map (phys s) new va).
Proof. apply uvmcopy_run. Qed.

(** The example machine with a second, empty address space. *)
Lemma ex_second : exists s l, uvmcreate ex_state = Ret ex_p1 s /\ two_spaces 40960 ex_root ex_p1 s l /\ forall va, pt_map (phys s) ex_p1 va = None.
Proof.
  destruct (uvmcreate_run _ _ ex_kinv) as [[E _]|(p & l & s & E & Hp & Ec & Hk & Ho & Hok & Hn & Hz)]; [discriminate|].
  injection E as <- <-. exists s, [ex_p2; ex_p3]. split; [exact Ec|].
  rewrite <- (proj1 Ho) in Hok. destruct (blank_space 40960 ex_p1 s _ Hk Hok Hn Hz) as (Ha & _ & Hnone & _). split; [|exact Hnone].
  destruct (new_space_apart 40960 ex_root 40960 ex_p1 _ _ s ex_as Hk Ho Hz) as (Ha' & _ & Hd). split; assumption.
Qed.

Lemma uvmcopy_correct_witness :
  exists s l r s' l', uvmcreate ex_state = Ret ex_p1 s /\ uvmcopy ex_root ex_p1 5000 s = Ret r s' /\
    isolated 40960 ex_p1 s l s' l' /\ unchanged 40960 ex_root s s'.
Proof.
  destruct ex_second as (s & l & E & Hp & Hnone).
  destruct (uvmcopy_correct 40960 ex_root ex_p1 5000 s l) as (r & s' & l' & Ec & _ & Hi & Hu & _); [closed|closed|closed|exact Hp|auto|].
  exists s, l, r, s', l'. auto.
Defined.
