(* ===== verification/UserMem.v ===== *)
(** * User memory as the drivers see it

    Pipes, the console and the file system move bytes between a buffer of their
    own and an address of the current process with copyin, copyout and the
    either_ variants.  [UserMem] is the class of such copies, a buffer being the
    list of its bytes; [UserMemLaws] what they promise for user addresses.  The
    functions of Vm.v are an instance, over a kernel buffer at a fixed address
    ([VmUser]); a map from addresses to bytes is another, for examples
    ([IdealMem]). *)

From S2P Require Import Prelude CString Riscv Kalloc Vm PageTable AddressSpace CopyUser.

Class UserMem (U : Type) : Type := {
  copyin_bytes : bool -> Z -> Z -> M U (option (list Z));   (* None: -1 *)
  copyout_bytes : bool -> Z -> list Z -> M U bool;          (* false: -1 *)
  copyin_over : bool -> Z -> list Z -> M U (bool * list Z)  (* what the buffer holds before and after *)
}.

Definition bytes (bs : list Z) : Prop := Forall (fun b => 0 <= b < 256) bs.

Class UserMemLaws (U : Type) `{UserMem U} : Type := {
  um_inv : U -> Prop;
  um_max : Z;
  um_mem : U -> Z -> option Z;
  um_can_read : U -> Z -> Prop;
  um_can_write : U -> Z -> Prop;
  um_in : forall u src n, um_inv u -> 0 <= src < 2 ^ 64 -> 0 <= n <= um_max ->
    exists r u', copyin_bytes true src n u = Ret r u' /\ um_inv u' /\
      (forall a b, um_mem u a = Some b -> um_mem u' a = Some b) /\
      (forall a, um_can_read u a -> um_can_read u' a) /\ (forall a, um_can_write u a -> um_can_write u' a) /\
      ((forall a, src <= a < src + n -> um_can_read u a) -> r <> None) /\
      (forall bs, r = Some bs -> Z.of_nat (length bs) = n /\ bytes bs /\
         forall i b, bs !! i = Some b -> um_mem u' (src + Z.of_nat i) = Some b);
  um_out : forall u dst bs, um_inv u -> 0 <= dst < 2 ^ 64 -> Z.of_nat (length bs) <= um_max -> bytes bs ->
    exists r u', copyout_bytes true dst bs u = Ret r u' /\ um_inv u' /\
      (forall a b, a < dst \/ dst + Z.of_nat (length bs) <= a -> um_mem u a = Some b -> um_mem u' a = Some b) /\
      (forall a, um_can_read u a -> um_can_read u' a) /\ (forall a, um_can_write u a -> um_can_write u' a) /\
      ((forall a, dst <= a < dst + Z.of_nat (length bs) -> um_can_write u a) -> r = true) /\
      (r = true -> forall i b, bs !! i = Some b -> um_mem u' (dst + Z.of_nat i) = Some b);
  um_over : forall u src old, um_inv u -> 0 <= src < 2 ^ 64 -> Z.of_nat (length old) <= um_max -> bytes old ->
    exists ok new u', copyin_over true src old u = Ret (ok, new) u' /\ um_inv u' /\
      (forall a b, um_mem u a = Some b -> um_mem u' a = Some b) /\
      (forall a, um_can_read u a -> um_can_read u' a) /\ (forall a, um_can_write u a -> um_can_write u' a) /\
      length new = length old /\ bytes new /\
      ((forall a, src <= a < src + Z.of_nat (length old) -> um_can_read u a) -> ok = true) /\
      (ok = true -> forall i b, new !! i = Some b -> um_mem u' (src + Z.of_nat i) = Some b)
}.

(** ** Virtual memory *)

(** Kernel bytes [a], [a+1], ... *)
Definition read_bytes (m : mem) (a : Z) (n : nat) : list Z := (fun i => m (a + Z.of_nat i)) <$> seq 0 n.
Fixpoint write_bytes (m : mem) (a : Z) (bs : list Z) : mem :=
  match bs with
  | [] => m
  | b :: bs' => write_bytes (store m a b) (a + 1) bs'
  end.

Lemma read_bytes_lookup m a n i : (i < n)%nat -> read_bytes m a n !! i = Some (m (a + Z.of_nat i)).
Proof. intros Hi. unfold read_bytes. rewrite list_lookup_fmap, lookup_seq_lt by exact Hi. reflexivity. Qed.

Lemma write_bytes_outside bs : forall m a x, x < a \/ a + Z.of_nat (length bs) <= x ->
  write_bytes m a bs x = m x.
Proof.
  induction bs as [|b bs IH]; intros m a x Hx; simpl in *; [reflexivity|].
  rewrite IH by lia. apply store_ne. lia.
Qed.

Lemma write_bytes_lookup bs : forall m a i b, bs !! i = Some b -> write_bytes m a bs (a + Z.of_nat i) = b.
Proof.
  induction bs as [|b' bs IH]; intros m a i b Hi; [discriminate|]. destruct i as [|i]; simpl in *.
  - simplify_eq. rewrite Z.add_0_r, write_bytes_outside by lia. apply store_eq. reflexivity.
  - replace (a + Z.of_nat (S i)) with (a + 1 + Z.of_nat i) by lia. auto.
Qed.

Lemma write_bytes_byte bs : forall m a, byte_mem m -> bytes bs -> byte_mem (write_bytes m a bs).
Proof.
  induction bs as [|b bs IH]; intros m a Hm Hb; [exact Hm|]. apply Forall_cons in Hb as [Hb Hbs].
  apply IH; [apply store_byte_mem; assumption|exact Hbs].
Qed.

Module VmUser.
(** The memory of the machine, the process the copies are made for, and the
    address of the kernel's buffer. *)
Record uenv : Type := Uenv { ue_kst : kst; ue_proc : uproc; ue_buf : Z }.

Definition ue_lens : lens uenv kst := Lens ue_kst (fun k u => Uenv k (ue_proc u) (ue_buf u)).

#[global] Instance vm_user : UserMem uenv := {
  copyin_bytes user src n :=
    let! u := gets (fun u => u) in
    let! r := zoom ue_lens (either_copyin (ue_proc u) (ue_buf u) user src n) in
    if r =? -1 then ret None
    else gets (fun u => Some (read_bytes (phys (ue_kst u)) (ue_buf u) (Z.to_nat n)));
  copyout_bytes user dst bs :=
    let! u := gets (fun u => u) in
    zoom ue_lens (modify (fun k => set_phys (write_bytes (phys k) (ue_buf u) bs) k)) ;;
    let! r := zoom ue_lens (either_copyout (ue_proc u) user dst (ue_buf u) (Z.of_nat (length bs))) in
    ret (negb (r =? -1));
  copyin_over user src old :=
    let! u := gets (fun u => u) in
    zoom ue_lens (modify (fun k => set_phys (write_bytes (phys k) (ue_buf u) old) k)) ;;
    let! r := zoom ue_lens (either_copyin (ue_proc u) (ue_buf u) user src (Z.of_nat (length old))) in
    gets (fun u => (negb (r =? -1), read_bytes (phys (ue_kst u)) (ue_buf u) (length old)))
}.

Record vm_inv (top max : Z) (u : uenv) : Prop := {
  vi_top : 0 <= top <= MAXVA;
  vi_al : top mod 4096 = 0;
  vi_sz : p_sz (ue_proc u) <= top;
  vi_wf : exists l, as_wf top (p_pagetable (ue_proc u)) (ue_kst u) l /\
    user_below top (p_pagetable (ue_proc u)) (ue_kst u) /\
    kernel_range top (p_pagetable (ue_proc u)) (ue_kst u) l (ue_buf u) max
}.

Definition vm_mem (top : Z) (u : uenv) (a : Z) : option Z :=
  if decide (0 <= a < top) then umem (phys (ue_kst u)) (p_pagetable (ue_proc u)) a else None.
Definition vm_can (top bit : Z) (u : uenv) (a : Z) : Prop :=
  0 <= a < top /\ exists v, pt_map (phys (ue_kst u)) (p_pagetable (ue_proc u)) a = Some v /\
    flag v PTE_U = true /\ (bit = PTE_W -> flag v PTE_W = true).

Lemma vm_can_mono top bit u u' :
  top <= MAXVA -> ue_proc u' = ue_proc u ->
  (forall va v, 0 <= va < MAXVA -> pt_map (phys (ue_kst u)) (p_pagetable (ue_proc u)) va = Some v ->
     pt_map (phys (ue_kst u')) (p_pagetable (ue_proc u)) va = Some v) ->
  forall a, vm_can top bit u a -> vm_can top bit u' a.
Proof.
  intros Ht Hp Hm a (Ha & v & Hv & Hf). split; [exact Ha|]. exists v. rewrite Hp.
  split; [apply Hm; [lia|exact Hv]|exact Hf].
Qed.

Lemma vm_in top max u src n :
  vm_inv top max u -> 0 <= src < 2 ^ 64 -> 0 <= n <= max ->
  exists r u', copyin_bytes true src n u = Ret r u' /\ vm_inv top max u' /\
    (forall a b, vm_mem top u a = Some b -> vm_mem top u' a = Some b) /\
    (forall a, vm_can top 0 u a -> vm_can top 0 u' a) /\ (forall a, vm_can top PTE_W u a -> vm_can top PTE_W u' a) /\
    ((forall a, src <= a < src + n -> vm_can top 0 u a) -> r <> None) /\
    (forall bs, r = Some bs -> Z.of_nat (length bs) = n /\ bytes bs /\
       forall i b, bs !! i = Some b -> vm_mem top u' (src + Z.of_nat i) = Some b).
Proof.
  intros [Ht Hal Hsz (l & Ha & Hub & Hk)] Hs Hn. destruct u as [k p buf]. simpl in *.
  set (root := p_pagetable p) in *. unfold either_copyin, copyin. fold root.
  assert (Hk' : kernel_range top root k l buf n) by (intros x q Hx; apply Hk; lia).
  destruct (copyin_loop_spec top root p ltac:(lia) ltac:(lia) Hal eq_refl Hsz
    (Z.to_nat (n / PGSIZE + 3)) k l buf src n) as (r & k' & l' & E & [A [Up Uc] Bl En Mn F By Rs T]); auto;
    [lia|unfold PGSIZE; dlia|].
  rewrite bind_gets. erewrite bind_ret_l by (apply zoom_ret; exact E).
  exists (if r =? -1 then None else Some (read_bytes (phys k') buf (Z.to_nat n))), (Uenv k' p buf).
  split; [destruct (r =? -1); reflexivity|].
  split.
  { split; auto. exists l'. split; [exact A|]. split; [exact Bl|]. intros x q Hx Hq. eapply Hk; eauto. }
  split.
  { intros a b. unfold vm_mem. case_decide; [|discriminate]. simpl. apply Uc. assumption. }
  split; [|split].
  1,2: apply (vm_can_mono top _ (Uenv k p buf)); [lia|reflexivity|exact Up].
  split.
  - intros Hr. destruct (Z.eqb_spec r (-1)) as [E1|E1]; [|discriminate]. exfalso.
    assert (r = 0); [|lia]. apply T. intros va Hva. destruct (Hr va Hva) as (H1 & v & H2 & H3 & _).
    split; [lia|]. exists v. auto.
  - intros bs Hbs. destruct (Z.eqb_spec r (-1)) as [E1|E1]; [discriminate|]. injection Hbs as <-.
    assert (r = 0) by lia. specialize (By H). split; [unfold read_bytes; rewrite length_fmap, length_seq; lia|].
    split.
    + apply Forall_forall. intros b Hb. apply list_elem_of_fmap in Hb as (i & -> & _).
      apply (kinv_bytes _ _ (as_inv _ _ _ _ A)).
    + intros i b Hi. assert (Hlt : (i < Z.to_nat n)%nat).
      { apply lookup_lt_Some in Hi. unfold read_bytes in Hi. rewrite length_fmap, length_seq in Hi. exact Hi. }
      rewrite read_bytes_lookup in Hi by exact Hlt. injection Hi as <-.
      destruct (By (Z.of_nat i) ltac:(lia)) as [B1 B2]. unfold vm_mem. rewrite decide_True by lia. exact B2.
Qed.

Lemma vm_out top max u dst bs :
  vm_inv top max u -> 0 <= dst < 2 ^ 64 -> Z.of_nat (length bs) <= max -> bytes bs ->
  exists r u', copyout_bytes true dst bs u = Ret r u' /\ vm_inv top max u' /\
    (forall a b, a < dst \/ dst + Z.of_nat (length bs) <= a -> vm_mem top u a = Some b -> vm_mem top u' a = Some b) /\
    (forall a, vm_can top 0 u a -> vm_can top 0 u' a) /\ (forall a, vm_can top PTE_W u a -> vm_can top PTE_W u' a) /\
    ((forall a, dst <= a < dst + Z.of_nat (length bs) -> vm_can top PTE_W u a) -> r = true) /\
    (r = true -> forall i b, bs !! i = Some b -> vm_mem top u' (dst + Z.of_nat i) = Some b).
Proof.
  intros [Ht Hal Hsz (l & Ha & Hub & Hk)] Hd Hn Hb. destruct u as [k p buf]. simpl in *.
  set (root := p_pagetable p) in *. unfold either_copyout, copyout. fold root.
  rewrite bind_gets. erewrite bind_ret_l by (apply zoom_ret; reflexivity).
  set (m := write_bytes (phys k) buf bs). set (n := Z.of_nat (length bs)) in *.
  assert (Hk' : kernel_range top root k l buf n) by (intros x q Hx; apply Hk; lia).
  destruct (kernel_write top root ltac:(lia) k l buf n m Ha Hk') as (Ha1 & [Sm Su] & Mn1).
  { apply write_bytes_byte; [apply (kinv_bytes _ _ (as_inv _ _ _ _ Ha))|exact Hb]. }
  { intros x Hx. apply write_bytes_outside. unfold n in Hx. lia. }
  simpl in Sm, Su. set (k1 := set_phys m k) in *.
  assert (Hub1 : user_below top root k1) by (intros va w Hva; simpl; rewrite Sm by lia; apply Hub, Hva).
  destruct (copyout_loop_spec top root p ltac:(lia) ltac:(lia) Hal eq_refl Hsz
    (Z.to_nat (n / PGSIZE + 3)) k1 l dst buf n) as (r & k' & l' & E & [A Is Bl Up By Rs Rt T]); auto;
    [unfold n; lia|unfold PGSIZE; dlia|intros x q Hx Hq; eapply Hk'; eauto|].
  erewrite bind_ret_l by (apply zoom_ret; exact E).
  exists (negb (r =? -1)), (Uenv k' p buf). split; [reflexivity|].
  assert (Hm : forall va v, 0 <= va < MAXVA -> pt_map (phys k) root va = Some v -> pt_map (phys k') root va = Some v).
  { intros va v Hva Hv. apply Up; [exact Hva|]. simpl. rewrite Sm by exact Hva. exact Hv. }
  split.
  { split; auto. exists l'. split; [exact A|]. split; [exact Bl|]. intros x q Hx Hq. eapply Hk; [exact Hx|].
    apply Mn1. apply (iso_mine _ _ _ _ _ _ Is), Hq. }
  split.
  { intros a b Ho. unfold vm_mem. case_decide; [|discriminate]. simpl. intros Hu. apply Rs; auto.
    simpl. rewrite Su by assumption. exact Hu. }
  split; [|split].
  1,2: apply (vm_can_mono top _ (Uenv k p buf)); [lia|reflexivity|exact Hm].
  split.
  - intros Hw. assert (r = 0); [|lia]. apply T. intros va Hva. destruct (Hw va Hva) as (H1 & v & H2 & H3 & H4).
    split; [lia|]. exists v. simpl in H2. split; [simpl; rewrite Sm by lia; exact H2|]. auto.
  - intros Hr i b Hi. assert (r = 0) by lia. pose proof (lookup_lt_Some _ _ _ Hi) as Hlt.
    destruct (By H (Z.of_nat i) ltac:(lia)) as [Htop Hu]. simpl in Hu. unfold m in Hu.
    rewrite (write_bytes_lookup _ _ _ _ _ Hi) in Hu. unfold vm_mem. rewrite decide_True by lia. exact Hu.
Qed.

(** Filling the kernel's buffer leaves the address space as it is. *)
Lemma vm_fill top max u old :
  vm_inv top max u -> Z.of_nat (length old) <= max -> bytes old ->
  let u1 := Uenv (set_phys (write_bytes (phys (ue_kst u)) (ue_buf u) old) (ue_kst u)) (ue_proc u) (ue_buf u) in
  vm_inv top max u1 /\ (forall a, vm_mem top u1 a = vm_mem top u a) /\
  (forall bit a, vm_can top bit u1 a <-> vm_can top bit u a).
Proof.
  intros [Ht Hal Hsz (l & Ha & Hub & Hk)] Hn Hb u1. set (root := p_pagetable (ue_proc u)) in *.
  assert (Hk' : kernel_range top root (ue_kst u) l (ue_buf u) (Z.of_nat (length old)))
    by (intros x q Hx; apply Hk; lia).
  destruct (kernel_write top root ltac:(lia) (ue_kst u) l (ue_buf u) (Z.of_nat (length old))
    (write_bytes (phys (ue_kst u)) (ue_buf u) old) Ha Hk') as (Ha1 & [Sm Su] & Mn1).
  { apply write_bytes_byte; [apply (kinv_bytes _ _ (as_inv _ _ _ _ Ha))|exact Hb]. }
  { intros x Hx. apply write_bytes_outside. lia. }
  split; [|split].
  - split; auto. exists l. split; [exact Ha1|]. split.
    + intros va w Hva. simpl. fold root. rewrite Sm by lia. apply Hub, Hva.
    + intros x q Hx Hq. eapply Hk; eauto.
  - intros a. unfold vm_mem. case_decide; [|reflexivity]. apply Su. assumption.
  - intros bit a. unfold vm_can. simpl. fold root. split; intros (Hr & v & Hv & Hf); (split; [exact Hr|]);
      exists v; (split; [|exact Hf]); [rewrite <- Sm by lia|rewrite Sm by lia]; exact Hv.
Qed.

Lemma vm_over top max u src old :
  vm_inv top max u -> 0 <= src < 2 ^ 64 -> Z.of_nat (length old) <= max -> bytes old ->
  exists ok new u', copyin_over true src old u = Ret (ok, new) u' /\ vm_inv top max u' /\
    (forall a b, vm_mem top u a = Some b -> vm_mem top u' a = Some b) /\
    (forall a, vm_can top 0 u a -> vm_can top 0 u' a) /\ (forall a, vm_can top PTE_W u a -> vm_can top PTE_W u' a) /\
    length new = length old /\ bytes new /\
    ((forall a, src <= a < src + Z.of_nat (length old) -> vm_can top 0 u a) -> ok = true) /\
    (ok = true -> forall i b, new !! i = Some b -> vm_mem top u' (src + Z.of_nat i) = Some b).
Proof.
  intros Hi Hs Hn Hb. destruct (vm_fill top max u old Hi Hn Hb) as (Hi1 & Hm1 & Hc1). cbv zeta in *.
  set (u1 := Uenv _ (ue_proc u) (ue_buf u)) in *.
  destruct (vm_in top max u1 src (Z.of_nat (length old)) Hi1 Hs ltac:(lia)) as (r & u' & E & V1 & V2 & V3 & V4 & V5 & V6).
  unfold copyin_bytes, vm_user in E. rewrite bind_gets in E. inv_bind E.
  assert (Hz : exists k', s = Uenv k' (ue_proc u) (ue_buf u)).
  { pose proof E0 as E1. apply zoom_inv in E1 as (k' & _ & ->). exists k'. reflexivity. }
  destruct Hz as [k' ->]. simpl copyin_over. rewrite bind_gets.
  erewrite bind_ret_l by (apply zoom_ret; reflexivity).
  change (set ue_lens _ u) with u1. change (ue_proc u) with (ue_proc u1). change (ue_buf u) with (ue_buf u1).
  rewrite (bind_ret_l _ _ _ _ _ E0). set (u2 := Uenv k' (ue_proc u1) (ue_buf u1)) in *.
  assert (Hr : r = (if a =? -1 then None else Some (read_bytes (phys k') (ue_buf u1) (length old))) /\ u' = u2).
  { destruct (a =? -1); unfold ret, gets in E; rewrite ?Nat2Z.id in E; injection E as <- <-; auto. }
  destruct Hr as [-> ->].
  exists (negb (a =? -1)), (read_bytes (phys k') (ue_buf u1) (length old)), u2. split; [reflexivity|].
  split; [exact V1|]. split; [intros x b Hx; apply V2; rewrite Hm1; exact Hx|].
  split; [intros x Hx; apply V3, Hc1, Hx|]. split; [intros x Hx; apply V4, Hc1, Hx|].
  split; [unfold read_bytes; rewrite length_fmap; apply length_seq|]. split.
  { apply Forall_forall. intros b Hin. apply list_elem_of_fmap in Hin as (i & -> & _).
    destruct (vi_wf _ _ _ V1) as (l & Hw & _). apply (kinv_bytes _ _ (as_inv _ _ _ _ Hw)). }
  split.
  - intros Hrd. destruct (a =? -1); [|reflexivity]. exfalso. apply V5; [|reflexivity].
    intros x Hx. apply Hc1, Hrd, Hx.
  - intros Hok. destruct (a =? -1); [discriminate|]. apply (V6 _ eq_refl).
Qed.

#[global] Instance vm_user_laws (top max : Z) : UserMemLaws uenv := {
  um_inv := vm_inv top max;
  um_max := max;
  um_mem := vm_mem top;
  um_can_read := vm_can top 0;
  um_can_write := vm_can top PTE_W;
  um_in := vm_in top max;
  um_out := vm_out top max;
  um_over := vm_over top max
}.
End VmUser.

(** ** A map of bytes *)

Module IdealMem.
Definition imem : Type := Z -> option Z.

(** Bytes up to the first one that is not mapped. *)
Fixpoint gather (u : imem) (a : Z) (n : nat) : option (list Z) :=
  match n with
  | O => Some []
  | S n => match u a, gather u (a + 1) n with Some b, Some bs => Some (b :: bs) | _, _ => None end
  end.
Definition scatter (u : imem) (a : Z) (bs : list Z) : imem := fun x =>
  if decide (a <= x < a + Z.of_nat (length bs)) then bs !! Z.to_nat (x - a) else u x.

(** Byte by byte up to the first one that is not mapped. *)
Fixpoint overlay (u : imem) (a : Z) (old : list Z) : bool * list Z :=
  match old with
  | [] => (true, [])
  | o :: old' =>
      match u a with
      | Some b => let '(ok, new) := overlay u (a + 1) old' in (ok, b :: new)
      | None => (false, old)
      end
  end.

#[global] Instance ideal_mem : UserMem imem := {
  copyin_bytes _ src n u := Ret (gather u src (Z.to_nat n)) u;
  copyout_bytes _ dst bs u :=
    match gather u dst (length bs) with Some _ => Ret true (scatter u dst bs) | None => Ret false u end;
  copyin_over _ src old u := Ret (overlay u src old) u
}.

Lemma gather_some u n : forall a bs, gather u a n = Some bs ->
  length bs = n /\ forall i b, bs !! i = Some b -> u (a + Z.of_nat i) = Some b.
Proof.
  induction n as [|n IH]; intros a bs E; simpl in E.
  - simplify_eq. split; [reflexivity|]. intros i b Hi. discriminate.
  - destruct (u a) as [b0|] eqn:E0; [|discriminate]. destruct (gather u (a + 1) n) as [bs'|] eqn:E1; [|discriminate].
    simplify_eq. destruct (IH _ _ E1) as [H1 H2]. split; [simpl; lia|]. intros [|i] b Hi; simpl in Hi.
    + simplify_eq. rewrite Z.add_0_r. exact E0.
    + replace (a + Z.of_nat (S i)) with (a + 1 + Z.of_nat i) by lia. auto.
Qed.

Lemma gather_total u n : forall a, (forall x, a <= x < a + Z.of_nat n -> u x <> None) -> gather u a n <> None.
Proof.
  induction n as [|n IH]; intros a Ha; simpl; [discriminate|].
  destruct (u a) eqn:E; [|exfalso; apply (Ha a); [lia|exact E]].
  destruct (gather u (a + 1) n) eqn:E1; [discriminate|]. exfalso. apply (IH (a + 1)); [|exact E1].
  intros x Hx. apply Ha. lia.
Qed.

Lemma overlay_spec u : (forall a b, u a = Some b -> 0 <= b < 256) -> forall old a, bytes old ->
  let '(ok, new) := overlay u a old in
  length new = length old /\ bytes new /\
  ((forall x, a <= x < a + Z.of_nat (length old) -> u x <> None) -> ok = true) /\
  (ok = true -> forall i b, new !! i = Some b -> u (a + Z.of_nat i) = Some b).
Proof.
  intros Hu. induction old as [|o old IH]; intros a Hb; cbn [overlay].
  - repeat split; auto. intros _ i b Hi. discriminate.
  - apply Forall_cons in Hb as [Ho Hb]. destruct (u a) as [b0|] eqn:E.
    + specialize (IH (a + 1) Hb). destruct (overlay u (a + 1) old) as [ok new]. destruct IH as (I1 & I2 & I3 & I4).
      split; [simpl; lia|]. split; [constructor; [eapply Hu, E|exact I2]|]. split.
      * intros Hm. apply I3. intros x Hx. apply Hm. simpl length. lia.
      * intros Hok [|i] b Hi; simpl in Hi; [simplify_eq; rewrite Z.add_0_r; exact E|].
        replace (a + Z.of_nat (S i)) with (a + 1 + Z.of_nat i) by lia. auto.
    + split; [reflexivity|]. split; [constructor; assumption|]. split; [|discriminate].
      intros Hm. exfalso. apply (Hm a); [simpl length; lia|exact E].
Qed.

#[global] Instance ideal_mem_laws (max : Z) : UserMemLaws imem.
Proof.
  refine {| um_inv u := forall a b, u a = Some b -> 0 <= b < 256; um_max := max; um_mem u := u;
            um_can_read u a := u a <> None; um_can_write u a := u a <> None |}.
  - intros u src n Hi Hs Hn. exists (gather u src (Z.to_nat n)), u.
    split; [reflexivity|]. split; [exact Hi|]. do 3 (split; [auto|]). split.
    + intros Hr. apply gather_total. intros x Hx. apply Hr. lia.
    + intros bs Hb. apply gather_some in Hb as [H1 H2]. split; [lia|]. split; [|exact H2].
      apply Forall_lookup. intros i b Hb. eapply Hi, H2, Hb.
  - intros u dst bs Hi Hd Hn Hb. simpl. set (n := Z.of_nat (length bs)).
    assert (Hsc : forall i b, bs !! i = Some b -> scatter u dst bs (dst + Z.of_nat i) = Some b).
    { intros i b Hib. unfold scatter. pose proof (lookup_lt_Some _ _ _ Hib). rewrite decide_True by lia.
      rewrite <- Hib. f_equal. lia. }
    assert (Hkeep : forall a, u a <> None -> scatter u dst bs a <> None).
    { intros a Ha. unfold scatter. case_decide; [|exact Ha]. apply not_eq_None_Some, lookup_lt_is_Some. lia. }
    destruct (gather u dst (length bs)) as [old|] eqn:E.
    + exists true, (scatter u dst bs). split; [reflexivity|]. split.
      { intros a b. unfold scatter. case_decide; [|apply Hi]. intros Hl. unfold bytes in Hb.
        rewrite Forall_lookup in Hb. eapply Hb, Hl. }
      split; [|auto 10]. intros a b Ho Hab. unfold scatter. rewrite decide_False by (unfold n in Ho; lia). exact Hab.
    + exists false, u. split; [reflexivity|]. split; [exact Hi|]. do 3 (split; [auto|]). split; [|discriminate].
      intros Hw. exfalso. apply (gather_total u (length bs) dst); [|exact E]. intros x Hx. apply Hw. unfold n. lia.
  - intros u src old Hi Hs Hn Hb. pose proof (overlay_spec u Hi old src Hb) as Ho. simpl.
    destruct (overlay u src old) as [ok new]. exists ok, new, u. split; [reflexivity|]. auto 10.
Defined.
End IdealMem.
