(* ===== verification/Printf.v ===== *)
(** * Formatted output

    [kernel/printf.c] and [user/printf.c]: the characters [printf] sends to the
    console or to a file, as a function of the format and the arguments.  A
    format is the list of its characters up to the NUL; an argument is an integer
    or a string.  The result is None when the format asks for an argument that
    is not there, which C leaves undefined. *)

From S2P Require Import Prelude.

Definition str (s : string) : list Z := (fun c => Z.of_N (Ascii.N_of_ascii c)) <$> String.list_ascii_of_string s.
Definition chr (s : string) : Z := default 0 (head (str s)).

Inductive arg : Type :=
| Int (z : Z)
| Str (s : option (list Z)).    (* None: a null pointer *)

(** [do buf[i++] = digits[x % base]; while((x /= base) != 0);] in the order the
    digits are stored; 64 rounds are enough for a 64-bit number. *)
Fixpoint digit_loop (fuel : nat) (digits : list Z) (x base : Z) : list Z :=
  match fuel with
  | O => []
  | S fuel =>
      nth (Z.to_nat (x mod base)) digits 0 ::
      (if x / base =? 0 then [] else digit_loop fuel digits (x / base) base)
  end.

(** The contents of [buf] when it is printed, from the end to the start. *)
Definition printint_buf (digits : list Z) (xx base : Z) (sign : bool) : list Z :=
  let neg := sign && (xx <? 0) in
  let x := if neg then u64 (- xx) else u64 xx in
  digit_loop 64 digits x base ++ (if neg then [chr "-"] else []).

Definition printint (digits : list Z) (xx base : Z) (sign : bool) : list Z :=
  reverse (printint_buf digits xx base sign).

(** Sixteen digits, the highest first; [i] digits are left. *)
Fixpoint printptr_loop (i : nat) (digits : list Z) (x : Z) : list Z :=
  match i with
  | O => []
  | S i => nth (Z.to_nat (Z.shiftr x 60)) digits 0 :: printptr_loop i digits (u64 (Z.shiftl x 4))
  end.

Definition printptr (digits : list Z) (x : Z) : list Z :=
  chr "0" :: chr "x" :: printptr_loop 16 digits x.

Definition null_str : list Z := str "(null)".

(** Print [o], then go on with [k] and the remaining arguments. *)
Definition emit_int (f : Z -> list Z) (args : list arg) (k : list arg -> option (list Z)) : option (list Z) :=
  match args with
  | Int z :: args' => (fun o => f z ++ o) <$> k args'
  | _ => None
  end.
Definition emit_str (args : list arg) (k : list arg -> option (list Z)) : option (list Z) :=
  match args with
  | Str s :: args' => (fun o => default null_str s ++ o) <$> k args'
  | _ => None
  end.
Definition emit (cs : list Z) (r : option (list Z)) : option (list Z) := (fun o => cs ++ o) <$> r.

Module Kernel.
Definition digits : list Z := str "0123456789abcdef".

Definition isc (c : Z) (s : string) : bool := c =? chr s.

Fixpoint printf (fmt : list Z) (args : list arg) : option (list Z) :=
  match fmt with
  | [] => Some []
  | cx :: rest =>
      if negb (isc cx "%") then emit [cx] (printf rest args)
      else
        match rest with
        | [] => Some []
        | c0 :: rest1 =>
            let after0 := printf rest1 in
            if isc c0 "d" then emit_int (fun z => printint digits (i32 z) 10 true) args after0
            else if isc c0 "u" then emit_int (fun z => printint digits (u32 z) 10 false) args after0
            else if isc c0 "x" then emit_int (fun z => printint digits (u32 z) 16 false) args after0
            else if isc c0 "p" then emit_int (fun z => printptr digits (u64 z)) args after0
            else if isc c0 "c" then emit_int (fun z => [u32 z]) args after0
            else if isc c0 "s" then emit_str args after0
            else if isc c0 "%" then emit [chr "%"] (after0 args)
            else if isc c0 "l" then
              match rest1 with
              | [] => emit [chr "%"; c0] (after0 args)
              | c1 :: rest2 =>
                  let after1 := printf rest2 in
                  if isc c1 "d" then emit_int (fun z => printint digits (i64 z) 10 true) args after1
                  else if isc c1 "u" then emit_int (fun z => printint digits (i64 z) 10 false) args after1
                  else if isc c1 "x" then emit_int (fun z => printint digits (i64 z) 16 false) args after1
                  else if isc c1 "l" then
                    match rest2 with
                    | [] => emit [chr "%"; c0] (after0 args)
                    | c2 :: rest3 =>
                        let after2 := printf rest3 in
                        if isc c2 "d" then emit_int (fun z => printint digits (i64 z) 10 true) args after2
                        else if isc c2 "u" then emit_int (fun z => printint digits (i64 z) 10 false) args after2
                        else if isc c2 "x" then emit_int (fun z => printint digits (i64 z) 16 false) args after2
                        else emit [chr "%"; c0] (after0 args)
                    end
                  else emit [chr "%"; c0] (after0 args)
              end
            else emit [chr "%"; c0] (after0 args)
        end
  end.
End Kernel.

Module User.
Definition digits : list Z := str "0123456789ABCDEF".

Fixpoint vprintf (fmt : list Z) (args : list arg) : option (list Z) :=
  match fmt with
  | [] => Some []
  | c :: rest =>
      if negb (c =? chr "%") then emit [c] (vprintf rest args)
      else
        match rest with
        | [] => Some []
        | c :: rest1 =>
            if c =? chr "d" then emit_int (fun z => printint digits (i32 z) 10 true) args (vprintf rest1)
            else if c =? chr "x" then emit_int (fun z => printint digits (i32 z) 16 false) args (vprintf rest1)
            else if c =? chr "p" then emit_int (fun z => printptr digits (u64 z)) args (vprintf rest1)
            else if c =? chr "s" then emit_str args (vprintf rest1)
            else if c =? chr "c" then emit_int (fun z => [u8 z]) args (vprintf rest1)
            else if c =? chr "%" then emit [chr "%"] (vprintf rest1 args)
            else emit [chr "%"; c] (vprintf rest1 args)
        end
  end.
End User.

(** ** Numbers *)

Definition render (digits : list Z) (ds : list Z) : list Z := (fun d => nth (Z.to_nat d) digits 0) <$> ds.
Definition value (base : Z) (ds : list Z) : Z := foldl (fun a d => a * base + d) 0 ds.

(** The value of digits stored lowest first. *)
Definition rvalue (base : Z) (ds : list Z) : Z := foldr (fun d a => d + base * a) 0 ds.

Lemma value_reverse base ds : value base (reverse ds) = rvalue base ds.
Proof.
  unfold value. induction ds as [|d ds IH]; [reflexivity|].
  rewrite reverse_cons, foldl_app, IH. simpl. lia.
Qed.

Lemma digit_loop_spec digits base fuel : forall x, 2 <= base -> 0 <= x < base ^ Z.of_nat fuel -> (0 < fuel)%nat ->
  exists ds, digit_loop fuel digits x base = render digits ds /\ Forall (fun d => 0 <= d < base) ds /\
    rvalue base ds = x /\ (x = 0 /\ ds = [0] \/ 0 < x /\ exists ds' d, ds = ds' ++ [d] /\ d <> 0).
Proof.
  induction fuel as [|fuel IH]; intros x Hb Hx Hf; [lia|]. cbn [digit_loop].
  assert (Hd : 0 <= x mod base < base) by (apply Z.mod_pos_bound; lia).
  pose proof (Z.div_mod x base ltac:(lia)) as Hdm.
  destruct (Z.eqb_spec (x / base) 0) as [E|E].
  - exists [x mod base]. split; [reflexivity|]. split; [constructor; [exact Hd|constructor]|].
    split; [simpl; lia|]. destruct (decide (x = 0)) as [->|Hne].
    + left. rewrite Z.mod_0_l by lia. auto.
    + right. split; [lia|]. exists [], (x mod base). split; [reflexivity|lia].
  - assert (Hq : 0 < x / base) by (pose proof (Z.div_pos x base); lia).
    destruct fuel as [|fuel]; [rewrite Z.pow_1_r in Hx; rewrite Z.div_small in E by lia; lia|].
    destruct (IH (x / base)) as (ds & E1 & E2 & E3 & E4); [lia| |lia|].
    { split; [lia|]. apply Z.div_lt_upper_bound; [lia|]. rewrite <- Z.pow_succ_r by lia.
      replace (Z.succ (Z.of_nat (S fuel))) with (Z.of_nat (S (S fuel))) by lia. lia. }
    exists (x mod base :: ds). split; [rewrite E1; reflexivity|]. split; [constructor; assumption|].
    split; [simpl; rewrite E3; lia|]. right. split; [nia|].
    destruct E4 as [[E4 _]|[_ (ds' & d & -> & Hnz)]]; [lia|]. exists (x mod base :: ds'), d. auto.
Qed.

Lemma rvalue_bound base ds d : 2 <= base -> Forall (fun d => 0 <= d < base) (ds ++ [d]) -> d <> 0 ->
  base ^ Z.of_nat (length ds) <= rvalue base (ds ++ [d]).
Proof.
  intros Hb. induction ds as [|d' ds IH]; intros Hf Hd; simpl in *.
  - apply Forall_cons in Hf as [Hf _]. rewrite Z.pow_0_r. lia.
  - apply Forall_cons in Hf as [Hf1 Hf2]. specialize (IH Hf2 Hd).
    replace (Z.of_nat (S (length ds))) with (Z.succ (Z.of_nat (length ds))) by lia. rewrite Z.pow_succ_r by lia. nia.
Qed.

(** Printing a number: the digits are those of its value in the base, without
    leading zeros, after a minus sign when the number is negative and the
    conversion signed, for every 64-bit number including the least one; and
    they fit in the 20 bytes of the buffer. *)
Theorem printint_correct (digits : list Z) (xx base : Z) (sign : bool) :
  base = 10 \/ base = 16 -> - 2 ^ 63 <= xx < 2 ^ 63 ->
  exists ds, printint digits xx base sign =
      (if sign && (xx <? 0) then [chr "-"] else []) ++ render digits ds /\
    Forall (fun d => 0 <= d < base) ds /\
    value base ds = (if sign then Z.abs xx else u64 xx) /\
    (ds = [0] \/ exists d ds', ds = d :: ds' /\ d <> 0) /\
    (length (printint_buf digits xx base sign) <= 20)%nat.
Proof.
  intros Hb Hx. unfold printint, printint_buf. set (neg := sign && (xx <? 0)).
  set (x := if neg then u64 (- xx) else u64 xx).
  assert (Hx0 : 0 <= x < 2 ^ 64) by (unfold x; destruct neg; apply u64_bound).
  assert (Hxv : x = if sign then Z.abs xx else u64 xx).
  { unfold x, neg. destruct sign; simpl; [|reflexivity]. destruct (Z.ltb_spec xx 0); unfold u64; dlia. }
  assert (Hxn : neg = true -> x <= 2 ^ 63).
  { unfold x, neg. destruct sign; [simpl|discriminate]. destruct (Z.ltb_spec xx 0); [|discriminate].
    intros _. unfold u64. dlia. }
  destruct (digit_loop_spec digits base 64 x) as (ds & E1 & E2 & E3 & E4); [lia| |lia|].
  { split; [lia|]. apply Z.lt_le_trans with (2 ^ 64); [lia|]. apply Z.pow_le_mono_l. lia. }
  rewrite E1. exists (reverse ds). split.
  - rewrite reverse_app. destruct neg; unfold render; rewrite <- ?fmap_reverse; reflexivity.
  - split; [apply Forall_reverse, E2|]. split; [rewrite value_reverse; lia|]. split.
    + destruct E4 as [[_ ->]|[_ (ds' & d & -> & Hd)]]; [left; reflexivity|right]. exists d, (reverse ds').
      rewrite reverse_app. auto.
    + rewrite length_app. unfold render. rewrite length_fmap.
      assert (Hlen : (length ds <= if neg then 19 else 20)%nat); [|destruct neg; simpl; lia].
      destruct E4 as [[_ ->]|[_ (ds' & d & -> & Hd)]]; [destruct neg; simpl; lia|].
      pose proof (rvalue_bound base ds' d ltac:(lia) E2 Hd) as Hlow. rewrite E3 in Hlow.
      rewrite length_app. simpl length.
      assert (Hp : forall k, (k <= length ds')%nat -> 10 ^ Z.of_nat k <= x).
      { intros k Hk. apply Z.le_trans with (base ^ Z.of_nat (length ds')); [|lia].
        apply Z.le_trans with (base ^ Z.of_nat k); [apply Z.pow_le_mono_l|apply Z.pow_le_mono_r]; lia. }
      destruct neg.
      * destruct (decide (length ds' + 1 <= 19)%nat) as [|Hn]; [assumption|]. specialize (Hp 19%nat ltac:(lia)).
        specialize (Hxn eq_refl). change (10 ^ Z.of_nat 19) with 10000000000000000000 in Hp. lia.
      * destruct (decide (length ds' + 1 <= 20)%nat) as [|Hn]; [assumption|]. specialize (Hp 20%nat ltac:(lia)).
        change (10 ^ Z.of_nat 20) with 100000000000000000000 in Hp. lia.
Qed.

Lemma printint_correct_witness : exists ds,
  printint Kernel.digits (- 2 ^ 63) 10 true = [chr "-"] ++ render Kernel.digits ds /\
  Forall (fun d => 0 <= d < 10) ds /\ value 10 ds = 2 ^ 63 /\
  (ds = [0] \/ exists d ds', ds = d :: ds' /\ d <> 0) /\
  (length (printint_buf Kernel.digits (- 2 ^ 63) 10 true) <= 20)%nat.
Proof. apply (printint_correct Kernel.digits (- 2 ^ 63) 10 true); [left; reflexivity|closed]. Defined.

(** ** Formats *)

(** The parts a format consists of; the number is how many l's it has. *)
Inductive piece : Type :=
| Lit (c : Z)
| Dec (l : nat)
| Uns (l : nat)
| Hex (l : nat)
| Ptr
| Chr
| Text
| Percent.

Definition ells (l : nat) : list Z := replicate l (chr "l").

Definition fmt_of (p : piece) : list Z :=
  match p with
  | Lit c => [c]
  | Dec l => chr "%" :: ells l ++ [chr "d"]
  | Uns l => chr "%" :: ells l ++ [chr "u"]
  | Hex l => chr "%" :: ells l ++ [chr "x"]
  | Ptr => str "%p"
  | Chr => str "%c"
  | Text => str "%s"
  | Percent => str "%%"
  end.

Definition piece_ok (p : piece) : bool :=
  match p with
  | Lit c => negb (c =? chr "%")
  | Dec l | Uns l | Hex l => (l <=? 2)%nat
  | _ => true
  end.

(** What a part stands for. *)
Definition show (p : piece) (args : list arg) (k : list arg -> option (list Z)) : option (list Z) :=
  let d := Kernel.digits in
  match p with
  | Lit c => emit [c] (k args)
  | Dec O => emit_int (fun z => printint d (i32 z) 10 true) args k
  | Dec _ => emit_int (fun z => printint d (i64 z) 10 true) args k
  | Uns O => emit_int (fun z => printint d (u32 z) 10 false) args k
  | Uns _ => emit_int (fun z => printint d (i64 z) 10 false) args k
  | Hex O => emit_int (fun z => printint d (u32 z) 16 false) args k
  | Hex _ => emit_int (fun z => printint d (i64 z) 16 false) args k
  | Ptr => emit_int (fun z => printptr d (u64 z)) args k
  | Chr => emit_int (fun z => [u32 z]) args k
  | Text => emit_str args k
  | Percent => emit [chr "%"] (k args)
  end.

Fixpoint show_all (ps : list piece) (args : list arg) : option (list Z) :=
  match ps with
  | [] => Some []
  | p :: ps' => show p args (show_all ps')
  end.

Lemma emit_int_ext f args k k' : (forall a, k a = k' a) -> emit_int f args k = emit_int f args k'.
Proof. intros E. destruct args as [|[z|o] args]; simpl; rewrite ?E; reflexivity. Qed.
Lemma emit_str_ext args k k' : (forall a, k a = k' a) -> emit_str args k = emit_str args k'.
Proof. intros E. destruct args as [|[z|o] args]; simpl; rewrite ?E; reflexivity. Qed.

(** The kernel's printf prints each part of its format as the part says: for
    any sequence of plain characters and of the conversions d, u, x (with up to
    two l's), p, c, s and %%, the output is the concatenation of the plain
    characters and of the renderings of the arguments, in order. *)
Theorem printf_pieces (ps : list piece) (args : list arg) :
  forallb piece_ok ps = true ->
  Kernel.printf (concat (fmt_of <$> ps)) args = show_all ps args.
Proof.
  revert args. induction ps as [|p ps IH]; intros args Hok; [reflexivity|].
  simpl in Hok. apply andb_true_iff in Hok as [Hp Hps]. rewrite fmap_cons. cbn [concat show_all].
  set (rest := concat (fmt_of <$> ps)) in *.
  assert (Hk : forall a, Kernel.printf rest a = show_all ps a) by (intros a; apply IH, Hps). clearbody rest.
  destruct p as [c|l|l|l| | | |]; simpl in Hp.
  - cbn [fmt_of app Kernel.printf]. unfold Kernel.isc. rewrite Hp. simpl. rewrite Hk. reflexivity.
  - destruct l as [|[|[|l]]]; [..|discriminate]; apply emit_int_ext, Hk.
  - destruct l as [|[|[|l]]]; [..|discriminate]; apply emit_int_ext, Hk.
  - destruct l as [|[|[|l]]]; [..|discriminate]; apply emit_int_ext, Hk.
  - apply emit_int_ext, Hk.
  - apply emit_int_ext, Hk.
  - apply emit_str_ext, Hk.
  - change (emit [chr "%"] (Kernel.printf rest args) = emit [chr "%"] (show_all ps args)). rewrite Hk. reflexivity.
Qed.

Lemma printf_pieces_witness :
  Kernel.printf (str "x=%d %ls%lx") [Int (-5)] = None /\
  Kernel.printf (concat (fmt_of <$> [Lit 120; Lit 61; Dec 0; Hex 1])) [Int (-5); Int (-1)] =
    show_all [Lit 120; Lit 61; Dec 0; Hex 1] [Int (-5); Int (-1)].
Proof. split; [reflexivity|]. apply (printf_pieces [Lit 120; Lit 61; Dec 0; Hex 1] [Int (-5); Int (-1)]). reflexivity. Defined.

(** The parts that user programs print as the kernel does. *)
Definition shared (p : piece) : bool :=
  match p with Lit c => negb (c =? chr "%") | Dec O | Text | Percent => true | _ => false end.

Lemma decimal_digits x base : 2 <= base <= 10 -> forall fuel,
  digit_loop fuel User.digits x base = digit_loop fuel Kernel.digits x base.
Proof.
  intros Hb fuel. revert x. induction fuel as [|fuel IH]; intros x; [reflexivity|]. cbn [digit_loop].
  rewrite IH. f_equal. pose proof (Z.mod_pos_bound x base ltac:(lia)).
  assert (Hn : (Z.to_nat (x mod base) < 10)%nat) by lia. revert Hn. generalize (Z.to_nat (x mod base)).
  intros n Hn. do 10 (destruct n as [|n]; [reflexivity|]). lia.
Qed.

(** On formats with plain characters, %d, %s and %% only, the user library
    writes what the kernel's printf prints. *)
Theorem vprintf_agrees (ps : list piece) (args : list arg) :
  forallb shared ps = true ->
  User.vprintf (concat (fmt_of <$> ps)) args = Kernel.printf (concat (fmt_of <$> ps)) args.
Proof.
  revert args. induction ps as [|p ps IH]; intros args Hok; [reflexivity|].
  simpl in Hok. apply andb_true_iff in Hok as [Hp Hps]. rewrite fmap_cons. cbn [concat].
  set (rest := concat (fmt_of <$> ps)) in *.
  assert (Hk : forall a, User.vprintf rest a = Kernel.printf rest a) by (intros a; apply IH, Hps). clearbody rest.
  destruct p as [c|[|l]|l|l| | | |]; try discriminate; simpl in Hp.
  - cbn [fmt_of app Kernel.printf User.vprintf]. unfold Kernel.isc. rewrite Hp. simpl. rewrite Hk. reflexivity.
  - change (emit_int (fun z => printint User.digits (i32 z) 10 true) args (User.vprintf rest) =
            emit_int (fun z => printint Kernel.digits (i32 z) 10 true) args (Kernel.printf rest)).
    rewrite (emit_int_ext _ _ _ _ Hk). destruct args as [|[z|o] args]; [reflexivity| |reflexivity]. simpl.
    unfold printint, printint_buf. rewrite decimal_digits by lia. reflexivity.
  - apply emit_str_ext, Hk.
  - change (emit [chr "%"] (User.vprintf rest args) = emit [chr "%"] (Kernel.printf rest args)).
    rewrite Hk. reflexivity.
Qed.

Lemma vprintf_agrees_witness :
  User.vprintf (concat (fmt_of <$> [Dec 0; Lit 10])) [Int 42] =
  Kernel.printf (concat (fmt_of <$> [Dec 0; Lit 10])) [Int 42].
Proof. apply (vprintf_agrees [Dec 0; Lit 10] [Int 42]). reflexivity. Defined.

(** The two differ on %x of a number with its highest bit set, which the user
    library extends to 64 bits, and the user library knows neither %u nor %l. *)
Lemma vprintf_differs :
  User.vprintf (str "%x") [Int (-1)] = Some (str "FFFFFFFFFFFFFFFF") /\
  Kernel.printf (str "%x") [Int (-1)] = Some (str "ffffffff") /\
  User.vprintf (str "%lu") [Int 1] = Some (str "%lu") /\
  Kernel.printf (str "%lu") [Int 1] = Some (str "1").
Proof. repeat split. Qed.
