(* ===== verification/Ring.v ===== *)
(** * Circular buffers with wrapping counters

    Pipes and the console keep a queue in an array whose size divides 2^32,
    indexed by 32-bit counters modulo the size.  [ring] is the list of the
    elements from a counter on. *)

From S2P Require Import Prelude.

Definition ring (sz : Z) (d : mem) (start n : Z) : list Z :=
  (fun i => d ((start + i) mod sz)) <$> seqZ 0 n.

Section Ring.
Context (sz : Z) (Hsz : 0 < sz).

Lemma ring_length d start n : length (ring sz d start n) = Z.to_nat n.
Proof using. unfold ring. rewrite length_fmap. apply length_seqZ. Qed.

Lemma ring_0 d start : ring sz d start 0 = [].
Proof using. reflexivity. Qed.

Lemma ring_1 d start : ring sz d start 1 = [d (start mod sz)].
Proof using. unfold ring. rewrite seqZ_cons by lia. simpl. rewrite Z.add_0_r. reflexivity. Qed.

Lemma ring_app d start a b : 0 <= a -> 0 <= b ->
  ring sz d start (a + b) = ring sz d start a ++ ring sz d (start + a) b.
Proof using.
  intros Ha Hb. unfold ring. rewrite seqZ_app, fmap_app by lia. f_equal.
  replace (0 + a) with (a + 0) by lia. rewrite <- fmap_add_seqZ, <- list_fmap_compose.
  apply list_fmap_ext. intros k i _. simpl. f_equal. f_equal. lia.
Qed.

(** Only the remainder of the start matters. *)
Lemma ring_cong d start start' n : start mod sz = start' mod sz -> ring sz d start n = ring sz d start' n.
Proof using Hsz.
  intros E. apply list_fmap_ext. intros k i _. simpl.
  rewrite <- (Z.add_mod_idemp_l start), <- (Z.add_mod_idemp_l start'), E by lia. reflexivity.
Qed.

Lemma ring_u32 d start n : (sz | 2 ^ 32) -> ring sz d (u32 start) n = ring sz d start n.
Proof using Hsz.
  intros Hd. apply ring_cong. apply Z.mod_mod_divide, Hd.
Qed.

Lemma ring_cons d start n : 0 < n ->
  ring sz d start n = d (start mod sz) :: ring sz d (start + 1) (n - 1).
Proof using.
  intros Hn. replace n with (1 + (n - 1)) at 1 by lia. rewrite ring_app, ring_1 by lia. reflexivity.
Qed.

Lemma ring_snoc d start n : 0 < n ->
  ring sz d start n = ring sz d start (n - 1) ++ [d ((start + (n - 1)) mod sz)].
Proof using.
  intros Hn. replace n with ((n - 1) + 1) at 1 by lia. rewrite ring_app, ring_1 by lia. reflexivity.
Qed.

(** A store past the end leaves the elements before it. *)
Lemma ring_store d start n k c : 0 <= k -> n + k < sz -> 0 <= n ->
  ring sz (store d ((start + n + k) mod sz) c) start n = ring sz d start n.
Proof using Hsz.
  intros Hk Hn H0. apply list_fmap_ext. intros j i Hi. apply list_elem_of_lookup_2, elem_of_seqZ in Hi. simpl.
  apply store_ne. intros E.
  assert (H : (start + n + k - (start + i)) mod sz = 0) by (rewrite Zminus_mod, <- E, Z.sub_diag; reflexivity).
  rewrite Z.mod_small in H by lia. lia.
Qed.

Lemma ring_put d start n c : 0 <= n < sz ->
  ring sz (store d ((start + n) mod sz) c) start (n + 1) = ring sz d start n ++ [c].
Proof using Hsz.
  intros Hn. rewrite ring_app, ring_1 by lia. f_equal; [|f_equal; apply store_eq; reflexivity].
  replace ((start + n) mod sz) with ((start + n + 0) mod sz) by (f_equal; lia). apply ring_store; lia.
Qed.
End Ring.
