(* ===== verification/Pipe.v ===== *)
(** * Pipes

    [kernel/pipe.c].  The state of a pipe, the kill flag of the calling process
    and its memory ([UserMem]).  The counters are 32-bit and wrap; the buffer is
    the queue of the bytes between them.  The processes asleep on the two wait
    channels are part of the state: [sleep] adds the caller, [wakeup] makes all
    of them runnable.  The page of the pipe is freed through [page_free]. *)

From S2P Require Import Prelude UserMem Ring.

Definition PIPESIZE : Z := 512.

Record pipe (U : Type) : Type := Pipe {
  pi_lock : bool;
  pi_data : Z -> Z;
  pi_nread : Z;
  pi_nwrite : Z;
  pi_readopen : bool;
  pi_writeopen : bool;
  pi_sleeping : Z -> bool;  (* is some process asleep on the channel *)
  pi_killed : bool;     (* killed(myproc()) *)
  pi_user : U
}.
Arguments Pipe {U}.
Arguments pi_lock {U}.
Arguments pi_data {U}.
Arguments pi_nread {U}.
Arguments pi_nwrite {U}.
Arguments pi_readopen {U}.
Arguments pi_writeopen {U}.
Arguments pi_sleeping {U}.
Arguments pi_killed {U}.
Arguments pi_user {U}.

Section Pipe.
Context {U : Type} `{UserMem U}.

Definition pipe_lock : lens (pipe U) bool :=
  Lens pi_lock (fun l s => Pipe l (pi_data s) (pi_nread s) (pi_nwrite s) (pi_readopen s) (pi_writeopen s)
                                (pi_sleeping s) (pi_killed s) (pi_user s)).
Definition user_of : lens (pipe U) U :=
  Lens pi_user (fun u s => Pipe (pi_lock s) (pi_data s) (pi_nread s) (pi_nwrite s) (pi_readopen s)
                                (pi_writeopen s) (pi_sleeping s) (pi_killed s) u).

(** [pi->data[pi->nwrite++ % PIPESIZE] = ch] *)
Definition put_byte (ch : Z) (s : pipe U) : pipe U :=
  Pipe (pi_lock s) (store (pi_data s) (pi_nwrite s mod PIPESIZE) ch) (pi_nread s) (u32 (pi_nwrite s + 1))
       (pi_readopen s) (pi_writeopen s) (pi_sleeping s) (pi_killed s) (pi_user s).
(** [pi->nread++] *)
Definition next_byte (s : pipe U) : pipe U :=
  Pipe (pi_lock s) (pi_data s) (u32 (pi_nread s + 1)) (pi_nwrite s)
       (pi_readopen s) (pi_writeopen s) (pi_sleeping s) (pi_killed s) (pi_user s).

(** The wait channels are the addresses of the counters. *)
Definition chan_nread : Z := 0.
Definition chan_nwrite : Z := 1.

Definition set_sleeping (ch : Z) (b : bool) (s : pipe U) : pipe U :=
  Pipe (pi_lock s) (pi_data s) (pi_nread s) (pi_nwrite s) (pi_readopen s) (pi_writeopen s)
       (upd (pi_sleeping s) ch b) (pi_killed s) (pi_user s).

(** [wakeup(ch)]: whoever sleeps on the channel is runnable again. *)
Definition wakeup (ch : Z) : M (pipe U) unit := modify (set_sleeping ch false).

(** [sleep(ch, &pi->lock)] *)
Definition sleep_on (ch : Z) : M (pipe U) unit := modify (set_sleeping ch true) ;; sleep ch pipe_lock.

Fixpoint pipewrite_loop (fuel : nat) (addr n i : Z) : M (pipe U) Z :=
  match fuel with
  | O => nofuel
  | S fuel =>
      if i <? n then
        let! s := gets (fun s => s) in
        if negb (pi_readopen s) || pi_killed s then release pipe_lock ;; ret (-1)
        else if pi_nwrite s =? u32 (pi_nread s + PIPESIZE) then
          wakeup chan_nread ;; sleep_on chan_nwrite ;; pipewrite_loop fuel addr n i
        else
          let! r := zoom user_of (copyin_bytes true (u64 (addr + i)) 1) in
          match r with
          | Some (ch :: _) => modify (put_byte ch) ;; pipewrite_loop fuel addr n (i + 1)
          | _ => wakeup chan_nread ;; release pipe_lock ;; ret i
          end
      else wakeup chan_nread ;; release pipe_lock ;; ret i
  end.

Definition pipewrite (fuel : nat) (addr n : Z) : M (pipe U) Z :=
  acquire pipe_lock ;; pipewrite_loop fuel addr n 0.

(** Waiting for data: false when the process was killed meanwhile. *)
Fixpoint piperead_wait (fuel : nat) : M (pipe U) bool :=
  match fuel with
  | O => nofuel
  | S fuel =>
      let! s := gets (fun s => s) in
      if (pi_nread s =? pi_nwrite s) && pi_writeopen s then
        if pi_killed s then ret false
        else sleep_on chan_nread ;; piperead_wait fuel
      else ret true
  end.

(** At most [k] more bytes, [i] read so far. *)
Fixpoint piperead_loop (k : nat) (addr i : Z) : M (pipe U) Z :=
  match k with
  | O => ret i
  | S k =>
      let! s := gets (fun s => s) in
      if pi_nread s =? pi_nwrite s then ret i
      else
        let ch := pi_data s (pi_nread s mod PIPESIZE) in
        let! ok := zoom user_of (copyout_bytes true (u64 (addr + i)) [ch]) in
        if negb ok then ret (if i =? 0 then -1 else i)
        else modify next_byte ;; piperead_loop k addr (i + 1)
  end.

Definition piperead (fuel : nat) (addr n : Z) : M (pipe U) Z :=
  acquire pipe_lock ;;
  let! ok := piperead_wait fuel in
  if negb ok then release pipe_lock ;; ret (-1)
  else
    let! i := piperead_loop (Z.to_nat n) addr 0 in
    wakeup chan_nwrite ;;
    release pipe_lock ;;
    ret i.

(** Closing one end; the page is freed with the second. *)
Definition pipeclose (page_free : M U unit) (writable : bool) : M (pipe U) unit :=
  acquire pipe_lock ;;
  (if writable
   then modify (fun s => Pipe (pi_lock s) (pi_data s) (pi_nread s) (pi_nwrite s) (pi_readopen s) false
                              (pi_sleeping s) (pi_killed s) (pi_user s)) ;; wakeup chan_nread
   else modify (fun s => Pipe (pi_lock s) (pi_data s) (pi_nread s) (pi_nwrite s) false (pi_writeopen s)
                              (pi_sleeping s) (pi_killed s) (pi_user s)) ;; wakeup chan_nwrite) ;;
  let! s := gets (fun s => s) in
  if negb (pi_readopen s) && negb (pi_writeopen s) then
    release pipe_lock ;; zoom user_of page_free
  else release pipe_lock.

(** ** The queue *)

Definition count (s : pipe U) : Z := u32 (pi_nwrite s - pi_nread s).
Definition queue (s : pipe U) : list Z := ring PIPESIZE (pi_data s) (pi_nread s) (count s).

(** The pipe as it is between the steps of the threads that share it; with the
    lock or not. *)
Record pipe_ok (s : pipe U) : Prop := {
  po_nread : 0 <= pi_nread s < 2 ^ 32;
  po_nwrite : 0 <= pi_nwrite s < 2 ^ 32;
  po_count : count s <= PIPESIZE;
  po_bytes : forall i, 0 <= pi_data s i < 256
}.

Lemma count_range s : 0 <= count s < 2 ^ 32.
Proof. apply u32_bound. Qed.

Lemma queue_length s : Z.of_nat (length (queue s)) = count s.
Proof. unfold queue. rewrite ring_length. pose proof (count_range s). lia. Qed.

Lemma queue_bytes s : pipe_ok s -> bytes (queue s).
Proof.
  intros Hs. apply Forall_forall. intros b Hb. apply list_elem_of_fmap in Hb as (i & -> & _).
  apply (po_bytes _ Hs).
Qed.

Lemma count_empty s : pipe_ok s -> (pi_nread s =? pi_nwrite s) = (count s =? 0).
Proof. intros [H1 H2 H3 _]. unfold count, u32 in *. dlia. Qed.

Lemma count_full s : pipe_ok s -> (pi_nwrite s =? u32 (pi_nread s + PIPESIZE)) = (count s =? PIPESIZE).
Proof. intros [H1 H2 H3 _]. unfold count, u32, PIPESIZE in *. dlia. Qed.

(** Appending a byte. *)
Lemma put_byte_queue s ch : pipe_ok s -> count s < PIPESIZE -> 0 <= ch < 256 ->
  pipe_ok (put_byte ch s) /\ count (put_byte ch s) = count s + 1 /\ queue (put_byte ch s) = queue s ++ [ch].
Proof.
  intros [H1 H2 H3 H4] Hc Hch. pose proof (count_range s).
  assert (Hc' : count (put_byte ch s) = count s + 1) by (unfold count, put_byte, u32, PIPESIZE in *; simpl; dlia).
  split; [|split; [exact Hc'|]].
  - split; auto; simpl.
    + apply u32_bound.
    + lia.
    + intros i. unfold store. case_test; auto.
  - unfold queue. rewrite Hc'. simpl. rewrite <- (ring_put PIPESIZE) by (unfold PIPESIZE in *; lia).
    do 2 f_equal. unfold count, u32, PIPESIZE in *. dlia.
Qed.

(** Taking the first byte. *)
Lemma next_byte_queue s : pipe_ok s -> 0 < count s ->
  pipe_ok (next_byte s) /\ queue s = pi_data s (pi_nread s mod PIPESIZE) :: queue (next_byte s).
Proof.
  intros [H1 H2 H3 H4] Hc. pose proof (count_range s).
  assert (Hc' : count (next_byte s) = count s - 1) by (unfold count, next_byte, u32, PIPESIZE in *; simpl; dlia).
  split.
  - split; auto; [apply u32_bound|lia].
  - unfold queue. rewrite Hc', ring_cons by lia. simpl. rewrite ring_u32; [reflexivity|reflexivity|].
    exists (2 ^ 23). reflexivity.
Qed.

(** ** Blocking *)

Lemma sleep_on_run {A} ch (k : M (pipe U) A) s : pi_lock s = true ->
  (sleep_on ch ;; k) s =
  Sleep ch (set pipe_lock false (set_sleeping ch true s)) (fun s' => bindr (acquire pipe_lock s') (fun _ => k)).
Proof. intros Hl. unfold sleep_on, bind, sleep. simpl. rewrite Hl. reflexivity. Qed.

Lemma wake_release {A} ch (a : A) s : pi_lock s = true ->
  (wakeup ch ;; release pipe_lock ;; ret a) s = Ret a (set pipe_lock false (set_sleeping ch false s)).
Proof. intros Hl. unfold wakeup, bind, release. simpl. rewrite Hl. reflexivity. Qed.

(** Closing one end while the other is open: the processes that wait for this
    end are woken, to find it closed, and the bytes stay. *)
Lemma pipeclose_wakes page_free (writable : bool) s : pi_lock s = false ->
  (if writable then pi_readopen s else pi_writeopen s) = true ->
  exists s', pipeclose page_free writable s = Ret tt s' /\ pi_lock s' = false /\ queue s' = queue s /\
    pi_writeopen s' = negb writable && pi_writeopen s /\ pi_readopen s' = writable && pi_readopen s /\
    pi_sleeping s' (if writable then chan_nread else chan_nwrite) = false /\ pi_user s' = pi_user s.
Proof.
  intros Hl Ho. destruct s, writable; simpl in *; subst; eexists; (split; [reflexivity|]); repeat split; apply andb_true_r.
Qed.

(** What the rest of the system does while a writer sleeps: readers take the
    bytes [e] from the front of the queue. *)
Definition drains (s : pipe U) (e : list Z) (s' : pipe U) : Prop :=
  pipe_ok s' /\ pi_lock s' = false /\ pi_readopen s' = true /\ pi_killed s' = false /\
  pi_user s' = pi_user s /\ e <> [] /\ queue s = e ++ queue s'.

(** A writer sleeps on a full buffer with every reader awake. *)
Definition is_full (s : pipe U) : Prop := count s = PIPESIZE /\ pi_sleeping s chan_nread = false.

Context `{UL : !UserMemLaws U}.

(** [bs] are the bytes of the process at [a]. *)
Definition at_addr (u : U) (a : Z) (bs : list Z) : Prop :=
  forall i b, bs !! i = Some b -> um_mem u (a + Z.of_nat i) = Some b.

Lemma at_addr_cons u a b bs : um_mem u a = Some b -> at_addr u (a + 1) bs -> at_addr u a (b :: bs).
Proof.
  intros Hb Hbs [|i] b' Hi; simpl in Hi; [simplify_eq; rewrite Z.add_0_r; exact Hb|].
  replace (a + Z.of_nat (S i)) with (a + 1 + Z.of_nat i) by lia. auto.
Qed.

Lemma pipewrite_loop_spec fuel addr n : forall s i,
  pipe_ok s -> pi_lock s = true -> pi_readopen s = true -> pi_killed s = false -> um_inv (pi_user s) ->
  1 <= um_max -> 0 <= addr -> addr + n <= 2 ^ 64 -> 0 <= i <= n ->
  (forall a, addr <= a < addr + n -> um_can_read (pi_user s) a) ->
  2 * (n - i) + 1 + (if count s =? PIPESIZE then 1 else 0) <= Z.of_nat fuel ->
  against is_full drains (pipewrite_loop fuel addr n i s) (fun out r s' => r = n /\
    pipe_ok s' /\ pi_lock s' = false /\ pi_sleeping s' chan_nread = false /\ um_inv (pi_user s') /\
    (forall a b, um_mem (pi_user s) a = Some b -> um_mem (pi_user s') a = Some b) /\
    exists bs, Z.of_nat (length bs) = n - i /\ at_addr (pi_user s') (addr + i) bs /\
      concat out ++ queue s' = queue s ++ bs).
Proof.
  induction fuel as [|fuel IH]; intros s i Hok Hl Hro Hk Hu Hm Ha Han Hi Hr Hf.
  { exfalso. destruct (_ =? _); lia. }
  cbn [pipewrite_loop]. destruct (Z.ltb_spec i n) as [Hin|Hin].
  2: { rewrite wake_release by exact Hl. simpl. split; [lia|]. split; [destruct Hok; split; auto|].
       split; [reflexivity|]. split; [apply upd_eq|]. split; [exact Hu|]. split; [auto|]. exists []. split; [simpl; lia|].
       split; [intros j b Hj; discriminate|]. rewrite app_nil_r. reflexivity. }
  rewrite bind_gets, Hro, Hk, count_full by exact Hok. cbn [negb orb].
  destruct (Z.eqb_spec (count s) PIPESIZE) as [Hc|Hc].
  - unfold wakeup. rewrite bind_modify, sleep_on_run by exact Hl. simpl. split; [split; [exact Hc|reflexivity]|].
    intros e s' (D1 & D2 & D3 & D4 & D5 & D6 & D7). unfold acquire. simpl. rewrite D2. simpl.
    set (s1 := Pipe true _ _ _ _ _ _ _ _).
    assert (Hc1 : count s1 <> PIPESIZE).
    { assert (count s1 = count s') as -> by reflexivity. rewrite <- queue_length.
      assert (E : Z.of_nat (length (queue s)) = PIPESIZE) by (rewrite queue_length; exact Hc).
      change (queue s = e ++ queue s') in D7. rewrite D7, length_app in E. destruct e; [contradiction|].
      simpl in E. lia. }
    eapply against_mono; [apply (IH s1 i); auto; simpl; try lia|].
    + destruct D1; split; auto.
    + rewrite D5. exact Hu.
    + rewrite D5. exact Hr.
    + destruct (Z.eqb_spec (count s1) PIPESIZE); [contradiction|lia].
    + simpl. intros es r s2 (E1 & E2 & E3 & Es & E4 & E5 & bs & B1 & B2 & B3).
      rewrite D5 in E5. repeat (split; [assumption|]). exists bs. repeat (split; [assumption|]).
      change (queue s = e ++ queue s') in D7. change (queue s1) with (queue s') in B3.
      rewrite D7, <- !app_assoc, <- B3. reflexivity.
  - assert (Hc' : count s < PIPESIZE) by (pose proof (po_count _ Hok); lia).
    rewrite u64_small by lia.
    destruct (um_in (pi_user s) (addr + i) 1) as (r & u & E & U1 & U2 & U3 & U4 & U5 & U6); auto; [lia..|].
    destruct r as [bs|]; [|exfalso; apply U5; [intros a Ha'; apply Hr; lia|reflexivity]].
    destruct (U6 bs eq_refl) as (L1 & L2 & L3). destruct bs as [|ch [|]]; simpl in L1; [lia| |lia].
    apply Forall_cons in L2 as [Hch _]. specialize (L3 0%nat ch eq_refl). rewrite Z.add_0_r in L3.
    erewrite bind_ret_l by (apply zoom_ret; exact E). cbv iota. rewrite bind_modify.
    destruct (put_byte_queue s ch Hok Hc' Hch) as (P1 & P2 & P3). set (s1 := put_byte ch (set user_of u s)).
    change (count (put_byte ch s)) with (count s1) in P2. change (queue (put_byte ch s)) with (queue s1) in P3.
    eapply against_mono; [apply (IH s1 (i + 1)); auto; try lia|].
    + destruct P1. split; auto.
    + rewrite P2. destruct (_ =? _); lia.
    + intros es r s2 (E1 & E2 & E3 & Es & E4 & E5 & bs & B1 & B2 & B3). split; [exact E1|].
      repeat (split; [auto|]). exists (ch :: bs). split; [simpl; lia|]. split.
      * apply at_addr_cons; [apply E5, L3|]. replace (addr + i + 1) with (addr + (i + 1)) by lia. exact B2.
      * rewrite B3, P3, <- app_assoc. reflexivity.
Qed.

(** What the rest of the system does while a reader sleeps: writers append the
    bytes [e], or the last one closes its end. *)
Definition fills (s : pipe U) (e : list Z) (s' : pipe U) : Prop :=
  pipe_ok s' /\ pi_lock s' = false /\ pi_killed s' = false /\ pi_user s' = pi_user s /\
  queue s' = queue s ++ e /\ (e <> [] \/ pi_writeopen s' = false).

Definition is_empty (s : pipe U) : Prop := queue s = [] /\ pi_writeopen s = true.

Lemma queue_nil s : count s = 0 -> queue s = [].
Proof. intros Hc. unfold queue. rewrite Hc. reflexivity. Qed.

Lemma piperead_wait_spec fuel s :
  pipe_ok s -> pi_lock s = true -> pi_killed s = false -> (2 <= fuel)%nat ->
  against is_empty fills (piperead_wait fuel s) (fun es ok s' => ok = true /\
    pipe_ok s' /\ pi_lock s' = true /\ pi_user s' = pi_user s /\ queue s' = queue s ++ concat es).
Proof.
  intros Hok Hl Hk Hf. destruct fuel as [|[|fuel]]; [lia..|].
  cbn [piperead_wait]. rewrite bind_gets, count_empty by exact Hok.
  destruct (Z.eqb_spec (count s) 0) as [Hc|Hc]; cbn [andb].
  2: { simpl. rewrite app_nil_r. auto. }
  destruct (pi_writeopen s) eqn:Hw; [|simpl; rewrite app_nil_r; auto].
  rewrite Hk, sleep_on_run by exact Hl. simpl. split; [split; [apply queue_nil, Hc|exact Hw]|].
  intros e s' (D1 & D2 & D3 & D4 & D5 & D6). unfold acquire. simpl. rewrite D2. cbn [bindr].
  rewrite bind_gets, count_empty by (destruct D1; split; auto).
  set (s1 := Pipe true _ _ _ _ _ _ _ _). change (queue s' = queue s ++ e) in D5.
  assert (Hex : (count s1 =? 0) && pi_writeopen s1 = false).
  { destruct D6 as [D6|D6]; [|simpl; rewrite D6; apply andb_false_r].
    assert (Hq : count s1 = Z.of_nat (length (queue s'))) by (rewrite queue_length; reflexivity).
    rewrite Hq, D5, length_app. destruct e; [contradiction|]. simpl length.
    destruct (Z.eqb_spec (Z.of_nat (length (queue s) + S (length e))) 0); [lia|reflexivity]. }
  rewrite Hex. simpl. rewrite app_nil_r. split; [reflexivity|]. split; [destruct D1; split; auto|]. auto.
Qed.

(** The ends, the kill flag and who sleeps are the same. *)
Definition ends (s' s : pipe U) : Prop :=
  pi_readopen s' = pi_readopen s /\ pi_writeopen s' = pi_writeopen s /\ pi_killed s' = pi_killed s /\
  pi_sleeping s' = pi_sleeping s.

Lemma piperead_loop_spec k addr : forall s i,
  pipe_ok s -> pi_lock s = true -> um_inv (pi_user s) -> 1 <= um_max ->
  0 <= i -> 0 <= addr -> addr + i + Z.of_nat k <= 2 ^ 64 ->
  exists (j : nat) r s', piperead_loop k addr i s = Ret r s' /\ (j <= k)%nat /\ (j <= length (queue s))%nat /\
    (r = i + Z.of_nat j \/ r = -1 /\ i = 0 /\ j = O) /\
    pipe_ok s' /\ pi_lock s' = true /\ ends s' s /\ um_inv (pi_user s') /\
    (forall a, um_can_write (pi_user s) a -> um_can_write (pi_user s') a) /\ queue s' = drop j (queue s) /\
    at_addr (pi_user s') (addr + i) (take j (queue s)) /\
    (forall a b, a < addr + i \/ addr + i + Z.of_nat k <= a ->
       um_mem (pi_user s) a = Some b -> um_mem (pi_user s') a = Some b) /\
    ((forall a, addr + i <= a < addr + i + Z.of_nat k -> um_can_write (pi_user s) a) ->
       j = min k (length (queue s)) /\ r <> -1).
Proof.
  induction k as [|k IH]; intros s i Hok Hl Hu Hm Hi Ha Hak; cbn [piperead_loop].
  - exists O, i, s. split; [reflexivity|]. split; [lia|]. split; [lia|]. split; [left; lia|].
    do 2 (split; [assumption|]). split; [repeat split|]. split; [assumption|]. split; [auto|]. split; [rewrite drop_0; reflexivity|].
    split; [intros n b Hn; discriminate|]. split; [auto|]. intros _. split; [reflexivity|lia].
  - rewrite bind_gets, count_empty by exact Hok. destruct (Z.eqb_spec (count s) 0) as [Hc|Hc].
    + rewrite (queue_nil s Hc). exists O, i, s. split; [reflexivity|]. split; [lia|]. split; [lia|].
      split; [left; lia|]. do 2 (split; [assumption|]). split; [repeat split|]. split; [assumption|]. split; [auto|]. split; [apply queue_nil, Hc|].
      split; [intros n b Hn; discriminate|]. split; [auto|]. intros _. split; [reflexivity|lia].
    + destruct (next_byte_queue s Hok ltac:(pose proof (count_range s); lia)) as [N1 N2].
      set (ch := pi_data s (pi_nread s mod PIPESIZE)) in *. rewrite u64_small by lia.
      destruct (um_out (pi_user s) (addr + i) [ch]) as (ok & u & E & U1 & U2 & U3 & U4 & U5 & U6); auto; simpl length; try lia.
      { constructor; [apply (po_bytes _ Hok)|constructor]. }
      simpl length in U2, U5. erewrite bind_ret_l by (apply zoom_ret; exact E).
      set (s0 := set user_of u s). rewrite N2.
      destruct ok; cbn [negb].
      * rewrite bind_modify. set (s1 := next_byte s0).
        assert (Hq : queue s1 = queue (next_byte s)) by reflexivity.
        destruct (IH s1 (i + 1)) as (j & r & s' & E' & J1 & J2 & J3 & J4 & J5 & Je & J6 & Jw & J7 & J8 & J9 & J10); auto; try lia.
        { destruct N1; split; auto. }
        rewrite Hq in *. specialize (U6 eq_refl 0%nat ch eq_refl). rewrite Z.add_0_r in U6.
        exists (S j), r, s'. split; [exact E'|]. split; [lia|]. split; [simpl; lia|].
        split; [left; destruct J3 as [J3|J3]; lia|]. do 4 (split; [assumption|]). split; [auto|].
        split; [exact J7|]. split; [|split].
        -- apply at_addr_cons; [apply J9; [lia|exact U6]|]. replace (addr + i + 1) with (addr + (i + 1)) by lia. exact J8.
        -- intros a b Ho Hb. apply J9; [lia|]. apply U2; [lia|exact Hb].
        -- intros Hw. destruct J10 as [J10 J11]; [intros a Haw; apply U4, Hw; lia|]. simpl. split; [lia|exact J11].
      * exists O, (if i =? 0 then -1 else i), s0. split; [reflexivity|]. split; [lia|]. split; [lia|].
        split; [destruct (Z.eqb_spec i 0); [right|left]; lia|]. split; [destruct Hok; split; auto|].
        split; [exact Hl|]. split; [repeat split|]. split; [exact U1|]. split; [exact U4|]. split; [exact N2|]. split; [intros n b Hn; discriminate|].
        split; [intros a b Ho; apply U2; lia|]. intros Hw. exfalso.
        assert (false = true); [|discriminate]. apply U5. intros a Haw. apply Hw. lia.
Qed.
End Pipe.

(** A write of n readable bytes to a pipe whose readers stay returns n, however
    often the buffer fills up and readers drain it while the writer sleeps; it
    sleeps only when the buffer is full and no reader is asleep, and the bytes
    the readers took meanwhile followed by those left in the buffer are the
    bytes that were in the buffer followed by the process's n bytes.  No reader
    is asleep when it returns.  The 32-bit counters may wrap on the way. *)
Theorem pipewrite_fifo {U} `{UL : UserMemLaws U} (fuel : nat) (addr n : Z) (s : pipe U) :
  pipe_ok s -> pi_lock s = false -> pi_readopen s = true -> pi_killed s = false -> um_inv (pi_user s) ->
  1 <= um_max -> 0 <= addr -> 0 <= n -> addr + n <= 2 ^ 64 ->
  (forall a, addr <= a < addr + n -> um_can_read (pi_user s) a) -> 2 * n + 2 <= Z.of_nat fuel ->
  against is_full drains (pipewrite fuel addr n s) (fun out r s' => r = n /\
    pipe_ok s' /\ pi_lock s' = false /\ pi_sleeping s' chan_nread = false /\
    exists bs, Z.of_nat (length bs) = n /\ at_addr (pi_user s') addr bs /\
      concat out ++ queue s' = queue s ++ bs).
Proof.
  intros Hok Hl Hro Hk Hu Hm Ha Hn Han Hr Hf. unfold pipewrite, bind, acquire. simpl. rewrite Hl. simpl.
  set (s1 := Pipe true _ _ _ _ _ _ _ _).
  eapply against_mono; [apply (pipewrite_loop_spec fuel addr n s1 0); auto; try lia|].
  - destruct Hok; split; auto.
  - destruct (_ =? _); lia.
  - intros es r s' (E1 & E2 & E3 & Es & E4 & E5 & bs & B1 & B2 & B3). split; [exact E1|]. split; [exact E2|].
    split; [exact E3|]. split; [exact Es|]. exists bs. rewrite Z.sub_0_r in B1. rewrite Z.add_0_r in B2.
    split; [exact B1|]. split; [exact B2|]. rewrite B3. reflexivity.
Qed.

(** A read takes bytes from the front of the pipe and hands them to the
    process in order.  It sleeps only while the pipe is empty and has a writer;
    what it returns after being woken is the number of bytes taken, all that
    are there up to n if the destination is writable; a byte that could not be
    delivered stays in the pipe, and -1 means that nothing was taken.  No writer
    is asleep when it returns. *)
Theorem piperead_fifo {U} `{UL : UserMemLaws U} (fuel : nat) (addr n : Z) (s : pipe U) :
  pipe_ok s -> pi_lock s = false -> pi_killed s = false -> um_inv (pi_user s) ->
  1 <= um_max -> 0 <= addr -> 0 <= n -> addr + n <= 2 ^ 64 -> (2 <= fuel)%nat ->
  against is_empty fills (piperead fuel addr n s) (fun inc r s' =>
    let q := queue s ++ concat inc in
    exists j : nat, (j <= length q)%nat /\ Z.of_nat j <= n /\ (r = Z.of_nat j \/ r = -1 /\ j = O) /\
      queue s' = drop j q /\ at_addr (pi_user s') addr (take j q) /\ pi_lock s' = false /\ pi_sleeping s' chan_nwrite = false /\
      (forall a b, a < addr \/ addr + n <= a ->
         um_mem (pi_user s) a = Some b -> um_mem (pi_user s') a = Some b) /\
      ((forall a, addr <= a < addr + n -> um_can_write (pi_user s) a) ->
         r = Z.min n (Z.of_nat (length q)))).
Proof.
  intros Hok Hl Hk Hu Hm Ha Hn Han Hf. unfold piperead, bind at 1, acquire. simpl. rewrite Hl. simpl.
  set (s1 := Pipe true _ _ _ _ _ _ _ _).
  eapply against_bind; [apply (piperead_wait_spec fuel s1); auto; destruct Hok; split; auto|].
  intros es ok s2 (-> & W1 & W2 & W3 & W4). cbn [negb].
  change (queue s1) with (queue s) in W4. simpl in W3.
  destruct (piperead_loop_spec (Z.to_nat n) addr s2 0) as (j & r & s3 & E & J1 & J2 & J3 & J4 & J5 & Je & J6 & Jw & J7 & J8 & J9 & J10);
    auto; try lia; [rewrite W3; exact Hu|].
  rewrite (bind_ret_l _ _ _ _ _ E). rewrite wake_release by exact J5. simpl. rewrite app_nil_r.
  rewrite W4, W3, Z.add_0_r in *. exists j. split; [exact J2|]. split; [lia|].
  split; [destruct J3 as [J3|J3]; [left|right]; lia|]. split; [exact J7|]. split; [exact J8|].
  split; [reflexivity|]. split; [reflexivity|]. split; [intros a b Ho; apply J9; lia|].
  intros Hw. destruct J10 as [J10 J11]; [intros a Haw; apply Hw; lia|]. lia.
Qed.

Import IdealMem.

(** A pipe whose counters are about to wrap, holding one byte. *)
Definition ex_imem : imem := fun a => if (0 <=? a) && (a <? 4096) then Some (a mod 256) else None.
Definition ex_pipe : pipe imem :=
  Pipe false (fun _ => 7) (2 ^ 32 - 1) 0 true true (fun _ => false) false ex_imem.

Lemma ex_pipe_ok : pipe_ok ex_pipe.
Proof. split; closed. Qed.

Lemma ex_imem_inv a b : ex_imem a = Some b -> 0 <= b < 256.
Proof. unfold ex_imem. destruct (_ && _); [|discriminate]. intros E. simplify_eq. dlia. Qed.

Lemma ex_imem_mapped a : 100 <= a < 104 -> ex_imem a <> None.
Proof. intros Ha. unfold ex_imem. replace (_ && _) with true by lia. discriminate. Qed.

Lemma pipewrite_fifo_witness :
  against is_full drains (pipewrite 10 100 4 ex_pipe) (fun out r s' => r = 4 /\
    pipe_ok s' /\ pi_lock s' = false /\ pi_sleeping s' chan_nread = false /\
    exists bs, Z.of_nat (length bs) = 4 /\ at_addr (UL := ideal_mem_laws 512) (pi_user s') 100 bs /\
      concat out ++ queue s' = queue ex_pipe ++ bs).
Proof.
  apply (pipewrite_fifo (UL := ideal_mem_laws 512) 10 100 4 ex_pipe);
    [exact ex_pipe_ok|reflexivity|reflexivity|reflexivity|exact ex_imem_inv|closed|closed|closed|closed|
     exact ex_imem_mapped|closed].
Defined.

Lemma piperead_fifo_witness :
  against is_empty fills (piperead 2 100 4 ex_pipe) (fun inc r s' =>
    let q := queue ex_pipe ++ concat inc in
    exists j : nat, (j <= length q)%nat /\ Z.of_nat j <= 4 /\ (r = Z.of_nat j \/ r = -1 /\ j = O) /\
      queue s' = drop j q /\ at_addr (UL := ideal_mem_laws 512) (pi_user s') 100 (take j q) /\ pi_lock s' = false /\ pi_sleeping s' chan_nwrite = false /\
      (forall a b, a < 100 \/ 100 + 4 <= a -> ex_imem a = Some b -> pi_user s' a = Some b) /\
      ((forall a, 100 <= a < 100 + 4 -> ex_imem a <> None) -> r = Z.min 4 (Z.of_nat (length q)))).
Proof.
  apply (piperead_fifo (UL := ideal_mem_laws 512) 2 100 4 ex_pipe);
    [exact ex_pipe_ok|reflexivity|reflexivity|exact ex_imem_inv|closed|closed|closed|closed|lia].
Defined.
