(* ===== verification/PipeRun.v ===== *)
(** * A writer and a reader of one pipe

    Two processes share a pipe ([kernel/pipe.c]): one writes a buffer, the
    other reads for ever.  Each has its own memory.  A process runs from where
    it takes [pi->lock] to where it gives it up, in [release] or in [sleep];
    nobody else touches the pipe meanwhile, so these stretches are the steps of
    the system, in any order the scheduler likes.  A process that sleeps takes
    no step until some [wakeup] of the other made it runnable. *)

From stdpp Require Import relations.
From S2P Require Import Prelude UserMem Ring Pipe.

(** ** The system *)

Section System.
Context {U : Type} `{UL : UserMemLaws U}.

Inductive thread : Type :=
| Ready (k : pipe U -> res (pipe U) Z)
| Asleep (ch : Z) (k : pipe U -> res (pipe U) Z)
| Finished (r : Z).

Record sys : Type := Sys {
  y_pipe : pipe U;
  y_w : thread;         (* the writer and its memory *)
  y_wu : U;
  y_r : thread;         (* the reader and its memory *)
  y_ru : U;
  y_taken : list Z      (* what the reader found in its buffer so far *)
}.

(** After a step the other process is ready if it has been woken. *)
Definition settle (s : pipe U) (t : thread) : thread :=
  match t with
  | Asleep ch k => if pi_sleeping s ch then t else Ready k
  | _ => t
  end.

(** The bytes of a process at [a]. *)
Fixpoint bytes_at (u : U) (a : Z) (k : nat) : list Z :=
  match k with
  | O => []
  | S k => match um_mem u a with Some b => b :: bytes_at u (a + 1) k | None => [] end
  end.

(** The writer calls [pipewrite(pi, waddr, n)], the reader
    [piperead(pi, raddr, m)] again and again. *)
Context (wfuel rfuel : nat) (waddr n raddr m : Z).

Definition run_writer (y : sys) : option sys :=
  match y_w y with
  | Ready k =>
      match k (set user_of (y_wu y) (y_pipe y)) with
      | Ret r s => Some (Sys s (Finished r) (pi_user s) (settle s (y_r y)) (y_ru y) (y_taken y))
      | Sleep ch s k => Some (Sys s (Asleep ch k) (pi_user s) (settle s (y_r y)) (y_ru y) (y_taken y))
      | _ => None
      end
  | _ => None
  end.

Definition run_reader (y : sys) : option sys :=
  match y_r y with
  | Ready k =>
      match k (set user_of (y_ru y) (y_pipe y)) with
      | Ret r s => Some (Sys s (settle s (y_w y)) (y_wu y) (Ready (piperead rfuel raddr m)) (pi_user s)
                             (y_taken y ++ bytes_at (pi_user s) raddr (Z.to_nat r)))
      | Sleep ch s k => Some (Sys s (settle s (y_w y)) (y_wu y) (Asleep ch k) (pi_user s) (y_taken y))
      | _ => None
      end
  | _ => None
  end.

Inductive step (y y' : sys) : Prop :=
| step_writer : run_writer y = Some y' -> step y y'
| step_reader : run_reader y = Some y' -> step y y'.

Definition start (s : pipe U) (wu ru : U) : sys :=
  Sys s (Ready (pipewrite wfuel waddr n)) wu (Ready (piperead rfuel raddr m)) ru [].

(** Is a process ready? *)
Definition ready (t : thread) : Z := match t with Ready _ => 1 | _ => 0 end.

Lemma ready_range t : 0 <= ready t <= 1.
Proof using. destruct t; simpl; lia. Qed.
End System.

(** ** One step of each process *)

Section Steps.
Context {U : Type} `{UL : UserMemLaws U} (waddr n raddr m : Z).
Context (Hmax : 1 <= um_max) (Hwa : 0 <= waddr) (Hn : 0 < n) (Hwn : waddr + n <= 2 ^ 64).
Context (Hra : 0 <= raddr) (Hm : 0 < m) (Hrm : raddr + m <= 2 ^ 64).
Implicit Types s : pipe U.

(** The rest of a [pipewrite] that has written [i] bytes. *)
Definition wcont (i extra : Z) (k : pipe U -> res (pipe U) Z) : Prop :=
  exists f, 2 * (n - i) + 1 + extra <= Z.of_nat f /\
    forall s, pi_lock s = false -> k s = pipewrite_loop f waddr n i (set pipe_lock true s).

Definition full (s : pipe U) : Z := if count s =? PIPESIZE then 1 else 0.

(** From [s] to [s'] the writer went from byte [i] to byte [i']. *)
Record put (i i' : Z) (s s' : pipe U) : Prop := {
  pt_ok : pipe_ok s';
  pt_lock : pi_lock s' = false;
  pt_ends : pi_readopen s' = pi_readopen s /\ pi_writeopen s' = pi_writeopen s /\ pi_killed s' = pi_killed s;
  pt_woken : pi_sleeping s' chan_nread = false;
  pt_inv : um_inv (pi_user s');
  pt_mem : forall a b, um_mem (pi_user s) a = Some b -> um_mem (pi_user s') a = Some b;
  pt_can : forall a, um_can_read (pi_user s) a -> um_can_read (pi_user s') a;
  pt_bytes : exists bs, Z.of_nat (length bs) = i' - i /\ at_addr (pi_user s') (waddr + i) bs /\ queue s' = queue s ++ bs
}.

Lemma put_nil i s s' : pipe_ok s -> um_inv (pi_user s) -> s' = set pipe_lock false (set_sleeping chan_nread false s) -> put i i s s'.
Proof using.
  intros Hok Hu ->. split; auto; simpl; [destruct Hok; split; auto|].
  exists []. split; [simpl; lia|]. split; [intros j b Hj; discriminate|]. rewrite app_nil_r. reflexivity.
Qed.

(** One byte copied in and put, and what follows. *)
Lemma put_cons i i' s s' u ch : pipe_ok s -> count s < PIPESIZE -> 0 <= ch < 256 ->
  (forall a b, um_mem (pi_user s) a = Some b -> um_mem u a = Some b) -> (forall a, um_can_read (pi_user s) a -> um_can_read u a) ->
  um_mem u (waddr + i) = Some ch -> put (i + 1) i' (put_byte ch (set user_of u s)) s' -> put i i' s s'.
Proof using.
  intros Hok Hc Hch U2 U3 Hb [P1 P2 P3 P4 P5 P6 P7 (bs & B1 & B2 & B3)].
  destruct (put_byte_queue s ch Hok Hc Hch) as (_ & _ & Q).
  change (queue (put_byte ch (set user_of u s))) with (queue (put_byte ch s)) in B3.
  split; auto. exists (ch :: bs). split; [simpl; lia|]. split.
  - apply at_addr_cons; [apply P6, Hb|]. replace (waddr + i + 1) with (waddr + (i + 1)) by lia. exact B2.
  - rewrite B3, Q, <- app_assoc. reflexivity.
Qed.

(** A step of the writer: it writes all, or fills the buffer and sleeps. *)
Lemma pipewrite_step f : forall s i,
  pipe_ok s -> pi_lock s = true -> pi_readopen s = true -> pi_killed s = false -> um_inv (pi_user s) ->
  (forall a, waddr <= a < waddr + n -> um_can_read (pi_user s) a) -> 0 <= i <= n -> 2 * (n - i) + 1 + full s <= Z.of_nat f ->
  (exists s', pipewrite_loop f waddr n i s = Ret n s' /\ put i n s s') \/
  (exists i' s' k, pipewrite_loop f waddr n i s = Sleep chan_nwrite s' k /\ put i i' s s' /\ i <= i' < n /\
     count s' = PIPESIZE /\ pi_sleeping s' chan_nwrite = true /\ wcont i' 0 k).
Proof using Hmax Hwa Hn Hwn.
  unfold full. induction f as [|f IH]; intros s i Hok Hl Hro Hk Hu Hr Hi Hf; [exfalso; destruct (_ =? _); lia|].
  cbn [pipewrite_loop]. destruct (Z.ltb_spec i n) as [Hin|Hin].
  2: { left. eexists. rewrite wake_release by exact Hl. replace n with i by lia. split; [reflexivity|]. apply put_nil; auto. }
  rewrite bind_gets, Hro, Hk, count_full by exact Hok. cbn [negb orb].
  destruct (Z.eqb_spec (count s) PIPESIZE) as [Hc|Hc].
  - right. unfold wakeup. rewrite bind_modify, sleep_on_run by exact Hl. eexists i, _, _. split; [reflexivity|].
    split; [|split; [lia|split; [exact Hc|split; [reflexivity|]]]].
    + destruct (put_nil i s _ Hok Hu eq_refl) as [P1 P2 P3 P4 P5 P6 P7 P8]. split; auto. destruct P1. split; auto.
    + exists f. split; [lia|]. intros s' Hl'. unfold acquire. simpl. rewrite Hl'. reflexivity.
  - assert (Hc' : count s < PIPESIZE) by (pose proof (po_count _ Hok); lia). rewrite u64_small by lia.
    destruct (um_in (pi_user s) (waddr + i) 1) as (r & u & E & U1 & U2 & U3 & U4 & U5 & U6); auto; [lia..|].
    destruct r as [bs|]; [|exfalso; apply U5; [intros a Ha'; apply Hr; lia|reflexivity]].
    destruct (U6 bs eq_refl) as (L1 & L2 & L3). destruct bs as [|ch [|]]; simpl in L1; [lia| |lia].
    apply Forall_cons in L2 as [Hch _]. specialize (L3 0%nat ch eq_refl). rewrite Z.add_0_r in L3.
    erewrite bind_ret_l by (apply zoom_ret; exact E). cbv iota. rewrite bind_modify.
    destruct (put_byte_queue s ch Hok Hc' Hch) as (P1 & P2 & _). set (s1 := put_byte ch (set user_of u s)).
    destruct (IH s1 (i + 1)) as [(s' & E' & P)|(i' & s' & k & E' & P & Hi' & R)]; auto; try lia.
    + destruct P1. split; auto.
    + destruct (_ =? _); lia.
    + left. exists s'. split; [exact E'|]. apply (put_cons i n s s' u ch); auto.
    + right. exists i', s', k. split; [exact E'|]. split; [apply (put_cons i i' s s' u ch); auto|]. split; [lia|exact R].
Qed.

(** The rest of a [piperead] that has not found a byte yet. *)
Definition read_body (f : nat) : M (pipe U) Z :=
  let! ok := piperead_wait f in
  if negb ok then release pipe_lock ;; ret (-1)
  else
    let! i := piperead_loop (Z.to_nat m) raddr 0 in
    wakeup chan_nwrite ;;
    release pipe_lock ;;
    ret i.

Definition rcont (f0 : nat) (k : pipe U -> res (pipe U) Z) : Prop :=
  exists f, (f0 <= f)%nat /\ forall s, pi_lock s = false -> k s = read_body f (set pipe_lock true s).

Lemma read_body_sleeps f s : pipe_ok s -> pi_lock s = true -> pi_writeopen s = true -> pi_killed s = false -> count s = 0 ->
  (2 <= f)%nat -> exists k, read_body f s = Sleep chan_nread (set pipe_lock false (set_sleeping chan_nread true s)) k /\ rcont 1 k.
Proof using.
  intros Hok Hl Hw Hk Hc Hf. destruct f as [|f]; [lia|]. unfold read_body, bind at 1. cbn [piperead_wait].
  rewrite bind_gets, count_empty, Hc, Hw, Hk by exact Hok. cbn [Z.eqb andb]. rewrite sleep_on_run by exact Hl. cbn [bindr].
  eexists. split; [reflexivity|]. exists f. split; [lia|]. intros s' Hl'. unfold acquire. simpl. rewrite Hl'. reflexivity.
Qed.

Lemma read_body_takes f s : pipe_ok s -> pi_lock s = true -> 0 < count s -> um_inv (pi_user s) ->
  (forall a, raddr <= a < raddr + m -> um_can_write (pi_user s) a) -> (1 <= f)%nat ->
  exists j s', read_body f s = Ret (Z.of_nat j) s' /\ j = min (Z.to_nat m) (length (queue s)) /\
    pipe_ok s' /\ pi_lock s' = false /\ pi_readopen s' = pi_readopen s /\ pi_writeopen s' = pi_writeopen s /\ pi_killed s' = pi_killed s /\
    pi_sleeping s' chan_nwrite = false /\ um_inv (pi_user s') /\
    (forall a, um_can_write (pi_user s) a -> um_can_write (pi_user s') a) /\
    queue s' = drop j (queue s) /\ at_addr (pi_user s') raddr (take j (queue s)).
Proof using Hmax Hra Hm Hrm.
  intros Hok Hl Hc Hu Hw Hf. destruct f as [|f]; [lia|]. unfold read_body.
  assert (E0 : piperead_wait (S f) s = Ret true s).
  { cbn [piperead_wait]. rewrite bind_gets, count_empty by exact Hok. replace (count s =? 0) with false by lia. reflexivity. }
  rewrite (bind_ret_l _ _ _ _ _ E0). cbn [negb].
  destruct (piperead_loop_spec (Z.to_nat m) raddr s 0) as (j & r & s' & E & J1 & J2 & J3 & J4 & J5 & (Je1 & Je2 & Je3 & _) & J6 & Jw & J7 & J8 & _ & J10);
    auto; try lia. rewrite Z.add_0_r in J8, J10. destruct J10 as [J10 J11]; [intros a Ha; apply Hw; lia|].
  rewrite (bind_ret_l _ _ _ _ _ E), wake_release by exact J5.
  exists j, (set pipe_lock false (set_sleeping chan_nwrite false s')).
  split; [f_equal; destruct J3 as [J3|J3]; lia|]. split; [exact J10|]. split; [destruct J4; split; auto|].
  repeat (split; [assumption || reflexivity|]). exact J8.
Qed.

Lemma bytes_at_addr (u : U) a bs : at_addr u a bs -> bytes_at u a (length bs) = bs.
Proof using.
  revert a. induction bs as [|b bs IH]; intros a Hb; [reflexivity|]. cbn [length bytes_at].
  pose proof (Hb 0%nat b eq_refl) as H0. rewrite Z.add_0_r in H0. rewrite H0. f_equal. apply IH. intros i c Hi.
  replace (a + 1 + Z.of_nat i) with (a + Z.of_nat (S i)) by lia. apply Hb. exact Hi.
Qed.
End Steps.

(** ** Every execution *)

Section Runs.
Context {U : Type} `{UL : UserMemLaws U} (waddr n raddr m : Z) (q0 : list Z).
Context (Hmax : 1 <= um_max) (Hwa : 0 <= waddr) (Hn : 0 < n) (Hwn : waddr + n <= 2 ^ 64).
Context (Hra : 0 <= raddr) (Hm : 0 < m) (Hrm : raddr + m <= 2 ^ 64).
Implicit Types (s : pipe U) (y : sys (U := U)) (t : thread (U := U)).

Definition writer_at (i : Z) s t : Prop :=
  match t with
  | Finished r => r = n /\ i = n
  | Ready k => i < n /\ wcont waddr n i (full s) k
  | Asleep ch k => i < n /\ ch = chan_nwrite /\ pi_sleeping s ch = true /\ count s = PIPESIZE /\ wcont waddr n i 0 k
  end.

Definition reader_at s t : Prop :=
  match t with
  | Finished _ => False
  | Ready k => rcont raddr m (if count s =? 0 then 2 else 1) k
  | Asleep ch k => ch = chan_nread /\ pi_sleeping s ch = true /\ count s = 0 /\ rcont raddr m 1 k
  end.

(** The writer has written [i] bytes; nobody sleeps who could go on; what was
    taken and what is in the buffer is what was put, in order. *)
Record invariant (i : Z) y : Prop := {
  iv_ok : pipe_ok (y_pipe y);
  iv_lock : pi_lock (y_pipe y) = false;
  iv_open : pi_readopen (y_pipe y) = true /\ pi_writeopen (y_pipe y) = true /\ pi_killed (y_pipe y) = false;
  iv_i : 0 <= i <= n;
  iv_wu : um_inv (y_wu y);
  iv_can : forall a, waddr <= a < waddr + n -> um_can_read (y_wu y) a;
  iv_ru : um_inv (y_ru y);
  iv_canw : forall a, raddr <= a < raddr + m -> um_can_write (y_ru y) a;
  iv_bytes : exists bs, Z.of_nat (length bs) = i /\ at_addr (y_wu y) waddr bs /\ y_taken y ++ queue (y_pipe y) = q0 ++ bs;
  iv_w : writer_at i (y_pipe y) (y_w y);
  iv_r : reader_at (y_pipe y) (y_r y)
}.

Definition todo (i : Z) y : Z := 4 * (n - i) + 2 * count (y_pipe y) + ready (y_w y) + ready (y_r y).

Lemma writer_settle i s s' t : writer_at i s t ->
  (count s' < PIPESIZE /\ pi_sleeping s' chan_nwrite = false) \/ (count s' = count s /\ pi_sleeping s' chan_nwrite = pi_sleeping s chan_nwrite) ->
  writer_at i s' (settle s' t).
Proof using All.
  intros H0 Hs. destruct t as [k|ch k|r]; simpl in *; auto.
  - destruct H0 as (Hi & f & Hf & Hk). split; [exact Hi|]. exists f. split; [|exact Hk]. unfold full in *.
    destruct (Z.eqb_spec (count s') PIPESIZE) as [E|E]; [|destruct (_ =? _); lia]. destruct Hs as [[Hs _]|[Hs _]]; [lia|]. rewrite <- Hs, E in Hf. exact Hf.
  - destruct H0 as (Hi & -> & Hsl & Hc & Hk). destruct Hs as [[Hs1 Hs2]|[Hs1 Hs2]]; rewrite Hs2.
    + split; [exact Hi|]. destruct Hk as (f & Hf & Hk). exists f. split; [|exact Hk]. unfold full. replace (count s' =? PIPESIZE) with false by lia. exact Hf.
    + rewrite Hsl. simpl. rewrite Hs2, Hs1. auto 6.
Qed.

Lemma reader_settle s s' t : reader_at s t -> 0 < count s' -> pi_sleeping s' chan_nread = false -> reader_at s' (settle s' t).
Proof using All.
  intros H0 Hc Hs. destruct t as [k|ch k|r]; simpl in *; auto.
  - replace (count s' =? 0) with false by lia. destruct H0 as (f & Hf & Hk). exists f. split; [destruct (_ =? _); lia|exact Hk].
  - destruct H0 as (-> & Hsl & Hc0 & Hk). rewrite Hs. simpl. replace (count s' =? 0) with false by lia. exact Hk.
Qed.

Lemma at_addr_app (u : U) a b1 b2 : at_addr u a b1 -> at_addr u (a + Z.of_nat (length b1)) b2 -> at_addr u a (b1 ++ b2).
Proof using All.
  intros H1 H2 i b Hi. apply lookup_app_Some in Hi as [Hi|[Hi Hi2]]; [auto|].
  replace (a + Z.of_nat i) with (a + Z.of_nat (length b1) + Z.of_nat (i - length b1)) by lia. auto.
Qed.

(** The state after the writer has run. *)
Lemma writer_after i i' y y' s' t : invariant i y -> put waddr i i' (set pipe_lock true (set user_of (y_wu y) (y_pipe y))) s' ->
  i <= i' <= n -> (i < i' \/ 0 < count (y_pipe y)) -> writer_at i' s' t -> ready t = 0 -> ready (y_w y) = 1 ->
  y' = Sys s' t (pi_user s') (settle s' (y_r y)) (y_ru y) (y_taken y) ->
  invariant i' y' /\ todo i' y' < todo i y.
Proof using All.
  intros [V1 V2 (V3 & V4 & V5) V6 V7 V8 V9 V10 (bs & B1 & B2 & B3) V11 V12] [P1 P2 (P3 & P4 & P5) P6 P7 P8 P9 (bs' & B4 & B5 & B6)] Hi Hpos Ht Hrt Hrw ->.
  change (queue (set pipe_lock true (set user_of (y_wu y) (y_pipe y)))) with (queue (y_pipe y)) in B6.
  assert (Hc : count s' = count (y_pipe y) + (i' - i)) by (rewrite <- !queue_length, B6, length_app; lia).
  pose proof (count_range (y_pipe y)) as Hcr.
  assert (Hi' : 0 <= i' <= n) by (clear -V6 Hi; lia). assert (Hc0 : 0 < count s') by (clear -Hc Hpos Hcr Hi; lia).
  split.
  - split; cbn [y_pipe y_w y_wu y_r y_ru y_taken];
      [exact P1|exact P2|rewrite P3, P4, P5; auto|exact Hi'|exact P7|intros a Ha; apply P9, V8, Ha|exact V9|exact V10|
       |exact Ht|apply (reader_settle (y_pipe y)); assumption].
    exists (bs ++ bs'). split; [rewrite length_app; clear -B1 B4; lia|]. split.
    + apply at_addr_app; [intros j b Hj; apply P8, B2, Hj|]. rewrite B1. exact B5.
    + rewrite B6, app_assoc, B3, app_assoc. reflexivity.
  - unfold todo. cbn [y_pipe y_w y_wu y_r y_ru y_taken]. rewrite Hc, Hrt, Hrw. pose proof (ready_range (settle s' (y_r y))).
    pose proof (ready_range (y_r y)) as Hrr. destruct (decide (i < i')) as [Hlt|Hge]; [clear -Hlt Hrr H0; lia|].
    assert (ready (y_r y) = 1) as E; [|clear -E Hrr Hge H0 Hi; lia]. destruct (y_r y); [reflexivity| |contradiction].
    destruct V12 as (_ & _ & V12 & _). clear -V12 Hpos Hge. lia.
Qed.

Lemma writer_runs i y k : invariant i y -> y_w y = Ready k ->
  exists i' y', run_writer y = Some y' /\ invariant i' y' /\ todo i' y' < todo i y.
Proof using All.
  intros V Hw. pose proof V as [V1 V2 (V3 & V4 & V5) V6 V7 V8 V9 V10 _ V11 V12]. unfold run_writer. rewrite Hw in V11 |- *.
  destruct V11 as (Hi & f & Hf & Hk). rewrite Hk by exact V2.
  assert (Hrw : ready (y_w y) = 1) by (rewrite Hw; reflexivity).
  destruct (pipewrite_step waddr n Hmax Hwa Hn Hwn f (set pipe_lock true (set user_of (y_wu y) (y_pipe y))) i)
    as [(s' & E & P)|(i' & s' & k' & E & P & Hi' & Hc & Hs & Hk')]; auto; try lia; [destruct V1; split; auto| |].
  - rewrite E. eexists n, _. split; [reflexivity|].
    apply (writer_after i n y _ s' (Finished n)); [exact V|exact P|clear -Hi; lia|left; exact Hi|split; reflexivity|reflexivity|exact Hrw|reflexivity].
  - rewrite E. eexists i', _. split; [reflexivity|].
    apply (writer_after i i' y _ s' (Asleep chan_nwrite k')); [exact V|exact P|clear -Hi'; lia| | |reflexivity|exact Hrw|reflexivity].
    + destruct (decide (i < i')) as [Hlt|Hge]; [left; exact Hlt|right]. destruct (pt_bytes _ _ _ _ _ P) as (bs & B1 & _ & B3).
      destruct bs; [|simpl in B1; clear -B1 Hge; lia]. rewrite app_nil_r in B3.
      assert (E1 : count s' = count (y_pipe y)) by (rewrite <- !queue_length, B3; reflexivity). rewrite <- E1, Hc. reflexivity.
    + split; [apply Hi'|]. auto.
Qed.

(** The state after the reader has taken [j] bytes. *)
Lemma reader_takes rfuel i y k : (2 <= rfuel)%nat -> invariant i y -> y_r y = Ready k -> 0 < count (y_pipe y) ->
  exists y', run_reader rfuel raddr m y = Some y' /\ invariant i y' /\ todo i y' < todo i y.
Proof using All.
  intros Hrf [V1 V2 (V3 & V4 & V5) V6 V7 V8 V9 V10 (bs & B1 & B2 & B3) V11 V12] Hr Hc. unfold run_reader. rewrite Hr in V12 |- *.
  destruct V12 as (f & Hf & Hk). rewrite Hk by exact V2.
  destruct (read_body_takes raddr m Hmax Hra Hm Hrm f (set pipe_lock true (set user_of (y_ru y) (y_pipe y))))
    as (j & s' & E & Hj & R1 & R2 & R3 & R4 & R5 & R6 & R7 & R8 & R9 & R10); auto; [destruct V1; split; auto|destruct (_ =? _); clear -Hf; lia|].
  change (queue (set pipe_lock true (set user_of (y_ru y) (y_pipe y)))) with (queue (y_pipe y)) in *.
  pose proof (queue_length (y_pipe y)) as Hql. pose proof (po_count _ V1) as Hcm.
  assert (Hj0 : (1 <= j <= length (queue (y_pipe y)))%nat) by (clear -Hj Hql Hc Hm; lia).
  assert (Hc' : count s' = count (y_pipe y) - Z.of_nat j) by (rewrite <- !queue_length, R9, length_drop; clear -Hj0; lia).
  assert (Hlt : count s' < PIPESIZE) by (clear -Hc' Hcm Hj0; lia).
  rewrite E. eexists. split; [reflexivity|]. rewrite Nat2Z.id. split.
  - split; cbn [y_pipe y_w y_wu y_r y_ru y_taken];
      [exact R1|exact R2|rewrite R3, R4, R5; auto|exact V6|exact V7|exact V8|exact R7|intros a Ha; apply R8, V10, Ha|
       |apply (writer_settle i (y_pipe y)); [exact V11|left; auto]|].
    + exists bs. split; [exact B1|]. split; [exact B2|]. rewrite <- B3, <- app_assoc, R9. f_equal.
      assert (Et : length (take j (queue (y_pipe y))) = j) by (rewrite length_take; clear -Hj0; lia).
      pose proof (bytes_at_addr (pi_user s') raddr _ R10) as Eb. rewrite Et in Eb. rewrite Eb. apply take_drop.
    + exists rfuel. split; [destruct (count s' =? 0); clear -Hrf; lia|]. intros s Hl. unfold piperead, bind at 1, acquire. simpl. rewrite Hl. reflexivity.
  - unfold todo. cbn [y_pipe y_w y_wu y_r y_ru y_taken]. rewrite Hr, Hc'. cbn [ready].
    pose proof (ready_range (settle s' (y_w y))) as H1. pose proof (ready_range (y_w y)) as H2. clear -H1 H2 Hj0. lia.
Qed.

Lemma reader_sleeps rfuel i y k : invariant i y -> y_r y = Ready k -> count (y_pipe y) = 0 ->
  exists y', run_reader rfuel raddr m y = Some y' /\ invariant i y' /\ todo i y' < todo i y.
Proof using All.
  intros [V1 V2 (V3 & V4 & V5) V6 V7 V8 V9 V10 V11 V12 V13] Hr Hc. unfold run_reader. rewrite Hr in V13 |- *.
  destruct V13 as (f & Hf & Hk). rewrite Hk by exact V2. rewrite Hc in Hf. cbn [Z.eqb] in Hf.
  destruct (read_body_sleeps raddr m f (set pipe_lock true (set user_of (y_ru y) (y_pipe y)))) as (k' & E & Hk'); auto; [destruct V1; split; auto|].
  rewrite E. eexists. split; [reflexivity|]. set (s' := set pipe_lock false _).
  assert (Hst : (count s' < PIPESIZE /\ pi_sleeping s' chan_nwrite = false) \/
    (count s' = count (y_pipe y) /\ pi_sleeping s' chan_nwrite = pi_sleeping (y_pipe y) chan_nwrite)) by (right; split; reflexivity).
  split.
  - split; cbn [y_pipe y_w y_wu y_r y_ru y_taken]; auto; [destruct V1; split; auto|apply (writer_settle i (y_pipe y)); assumption|].
    split; [reflexivity|]. split; [apply upd_eq|]. split; [exact Hc|exact Hk'].
  - unfold todo. cbn [y_pipe y_w y_wu y_r y_ru y_taken]. rewrite Hr. change (count s') with (count (y_pipe y)). cbn [ready].
    assert (E1 : ready (settle s' (y_w y)) = ready (y_w y)); [|rewrite E1; clear; lia].
    destruct (y_w y) as [|ch kw|]; [reflexivity| |reflexivity]. destruct V12 as (_ & _ & _ & V12 & _). rewrite Hc in V12. discriminate.
Qed.

Lemma reader_runs rfuel i y k : (2 <= rfuel)%nat -> invariant i y -> y_r y = Ready k ->
  exists y', run_reader rfuel raddr m y = Some y' /\ invariant i y' /\ todo i y' < todo i y.
Proof using All.
  intros Hrf V Hr. pose proof (count_range (y_pipe y)) as Hc. destruct (decide (count (y_pipe y) = 0)) as [H0|H0].
  - apply (reader_sleeps rfuel i y k); assumption.
  - apply (reader_takes rfuel i y k); auto. clear -Hc H0. lia.
Qed.

Lemma step_invariant rfuel i y y' : (2 <= rfuel)%nat -> invariant i y -> step rfuel raddr m y y' ->
  exists i', invariant i' y' /\ todo i' y' < todo i y.
Proof using All.
  intros Hrf V [E|E].
  - destruct (y_w y) as [k|ch k|r] eqn:Hw; [|unfold run_writer in E; rewrite Hw in E; discriminate ..].
    destruct (writer_runs i y k V Hw) as (i' & y2 & E2 & V2). rewrite E2 in E. simplify_eq. eauto.
  - destruct (y_r y) as [k|ch k|r] eqn:Hr; [|unfold run_reader in E; rewrite Hr in E; discriminate ..].
    destruct (reader_runs rfuel i y k Hrf V Hr) as (y2 & E2 & V2). rewrite E2 in E. simplify_eq. eauto.
Qed.

Lemma steps_bounded rfuel k : forall i y1 y2, (2 <= rfuel)%nat -> nsteps (step rfuel raddr m) k y1 y2 -> invariant i y1 ->
  Z.of_nat k <= todo i y1.
Proof using All.
  induction k as [|k IH]; intros i y1 y2 Hrf Hs Hi.
  - pose proof (count_range (y_pipe y1)) as H1. pose proof (iv_i _ _ Hi) as H2. unfold todo.
    pose proof (ready_range (y_w y1)) as H3. pose proof (ready_range (y_r y1)) as H4. clear -H1 H2 H3 H4. lia.
  - inversion Hs as [|? ? y3 ? H3 H4]; subst. destruct (step_invariant rfuel i y1 y3 Hrf Hi H3) as (i' & Hi' & Ht).
    pose proof (IH i' y3 y2 Hrf H4 Hi') as H5. clear -H5 Ht. lia.
Qed.

(** Nobody can go on only when all is delivered. *)
Lemma stuck_done rfuel i y : (2 <= rfuel)%nat -> invariant i y -> (forall y', ~ step rfuel raddr m y y') ->
  y_w y = Finished n /\ queue (y_pipe y) = [] /\
  exists bs, Z.of_nat (length bs) = n /\ at_addr (y_wu y) waddr bs /\ y_taken y = q0 ++ bs.
Proof using All.
  intros Hrf V Hst. pose proof V as [V1 V2 _ V6 V7 V8 V9 V10 (bs & B1 & B2 & B3) V11 V12].
  destruct (y_r y) as [k|ch k|r] eqn:Hr; [|destruct V12 as (_ & _ & Hc & _)|contradiction].
  { destruct (reader_runs rfuel i y k Hrf V Hr) as (y2 & E2 & _). exfalso. apply (Hst y2). right. exact E2. }
  destruct (y_w y) as [k2|ch2 k2|r] eqn:Hw; [|destruct V11 as (_ & _ & _ & V11 & _); rewrite Hc in V11; discriminate|].
  { destruct (writer_runs i y k2 V Hw) as (i' & y2 & E2 & _). exfalso. apply (Hst y2). left. exact E2. }
  destruct V11 as [-> Hi]. pose proof (queue_nil _ Hc) as Hq. split; [reflexivity|]. split; [exact Hq|].
  exists bs. split; [rewrite B1; exact Hi|]. split; [exact B2|]. rewrite <- B3, Hq, app_nil_r. reflexivity.
Qed.
End Runs.

(** C30. A pipe delivers every byte written, in order, and neither side waits
    for ever.  A process writes n readable bytes, another reads m bytes at a
    time for ever, and the scheduler runs them in any order in which a process
    asleep runs only after a [wakeup] of its channel.  Then every execution is
    finite, within 4 n + 2 c + 2 steps for c bytes in the buffer at first; and
    when nobody can run, the write has returned n, the buffer is empty and the
    reader has got the bytes that were in the buffer followed by the n bytes
    of the writer. *)
Theorem pipe_delivers {U} `{UL : UserMemLaws U} (wfuel rfuel : nat) (waddr n raddr m : Z) (s : pipe U) (wu ru : U) :
  1 <= um_max -> 0 <= waddr -> 0 < n -> waddr + n <= 2 ^ 64 -> 0 <= raddr -> 0 < m -> raddr + m <= 2 ^ 64 ->
  2 * n + 2 <= Z.of_nat wfuel -> (2 <= rfuel)%nat ->
  pipe_ok s -> pi_lock s = false -> pi_readopen s = true -> pi_writeopen s = true -> pi_killed s = false ->
  um_inv wu -> (forall a, waddr <= a < waddr + n -> um_can_read wu a) ->
  um_inv ru -> (forall a, raddr <= a < raddr + m -> um_can_write ru a) ->
  let y0 := start wfuel rfuel waddr n raddr m s wu ru in
  (forall k y, nsteps (step rfuel raddr m) k y0 y -> Z.of_nat k <= 4 * n + 2 * count s + 2) /\
  (forall y, rtc (step rfuel raddr m) y0 y -> (forall y', ~ step rfuel raddr m y y') ->
     y_w y = Finished n /\ queue (y_pipe y) = [] /\
     exists bs, Z.of_nat (length bs) = n /\ at_addr (y_wu y) waddr bs /\ y_taken y = queue s ++ bs).
Proof.
  intros Hmax Hwa Hn Hwn Hra Hm Hrm Hwf Hrf Hok Hl Hro Hwo Hk Hwu Hcan Hru Hcanw y0.
  assert (V : invariant waddr n raddr m (queue s) 0 y0).
  { split; auto; [clear -Hn; lia| | |].
    - exists []. split; [reflexivity|]. split; [intros j b Hj; discriminate|]. rewrite app_nil_r. reflexivity.
    - split; [exact Hn|]. exists wfuel. split; [unfold full; destruct (_ =? _); clear -Hwf; lia|].
      intros s1 Hl1. unfold pipewrite, bind, acquire. simpl. rewrite Hl1. reflexivity.
    - exists rfuel. split; [destruct (_ =? _); clear -Hrf; lia|]. intros s1 Hl1. unfold piperead, bind at 1, acquire. simpl. rewrite Hl1. reflexivity. }
  pose proof (step_invariant waddr n raddr m (queue s) Hmax Hwa Hn Hwn Hra Hm Hrm rfuel) as Hstep.
  split.
  - intros k y Hs.
    pose proof (steps_bounded waddr n raddr m (queue s) Hmax Hwa Hn Hwn Hra Hm Hrm rfuel k 0 y0 y Hrf Hs V) as Hb. unfold todo, y0 in Hb. cbn [start y_pipe y_w y_r ready] in Hb. clear -Hb. lia.
  - intros y Hs. assert (exists i, invariant waddr n raddr m (queue s) i y) as [i Vi].
    { clear -Hs V Hstep Hrf. revert V. generalize 0. induction Hs as [y|y y1 y2 H1 _ IH]; intros i V; [eauto|].
      destruct (Hstep i y y1 Hrf V H1) as (i' & V' & _). eauto. }
    apply (stuck_done waddr n raddr m (queue s) Hmax Hwa Hn Hwn Hra Hm Hrm rfuel i y Hrf Vi).
Qed.

Import IdealMem.

(** 600 bytes through a pipe of 512 whose counters wrap, ten at a time. *)
Lemma pipe_delivers_witness :
  let y0 := start 1300 2 100 600 2000 10 ex_pipe ex_imem ex_imem in
  let st := step (UL := ideal_mem_laws 512) 2 2000 10 in
  (forall k y, nsteps st k y0 y -> Z.of_nat k <= 4 * 600 + 2 * count ex_pipe + 2) /\
  (forall y, rtc st y0 y -> (forall y', ~ st y y') ->
     y_w y = Finished 600 /\ queue (y_pipe y) = [] /\
     exists bs, Z.of_nat (length bs) = 600 /\ at_addr (UL := ideal_mem_laws 512) (y_wu y) 100 bs /\ y_taken y = queue ex_pipe ++ bs).
Proof.
  apply (pipe_delivers (UL := ideal_mem_laws 512) 1300 2 100 600 2000 10 ex_pipe ex_imem ex_imem);
    [closed|closed|closed|closed|closed|closed|closed|closed|lia|exact ex_pipe_ok|reflexivity|reflexivity|reflexivity|reflexivity
    |exact ex_imem_inv| |exact ex_imem_inv|]; intros a Ha; simpl; unfold ex_imem; replace (_ && _) with true by lia; discriminate.
Defined.
