(* ===== verification/Console.v ===== *)
(** * The console

    [kernel/console.c]: the input line editor and the read and write operations
    of the console device.  The input buffer is circular, with a read, a write
    and an edit counter; the characters between the first two are complete
    lines, the rest is the line being edited.  Characters sent to the UART, the
    process list printed for control-P and the wakeups of readers are recorded
    in order in [cs_out]. *)

From S2P Require Import Prelude UserMem Ring.

Definition BACKSPACE : Z := 256.
Definition C (x : Z) : Z := x - 64.
Definition INPUT_BUF_SIZE : Z := 128.

Inductive out : Type :=
| Putc (c : Z)
| Procdump
| Wakeup.               (* wakeup(&cons.r) *)

Record cons (U : Type) : Type := Cons {
  cs_lock : bool;
  cs_buf : Z -> Z;
  cs_r : Z;
  cs_w : Z;
  cs_e : Z;
  cs_out : list out;
  cs_killed : bool;     (* killed(myproc()) *)
  cs_user : U
}.
Arguments Cons {U}.
Arguments cs_lock {U}.
Arguments cs_buf {U}.
Arguments cs_r {U}.
Arguments cs_w {U}.
Arguments cs_e {U}.
Arguments cs_out {U}.
Arguments cs_killed {U}.
Arguments cs_user {U}.

Section Console.
Context {U : Type} `{UserMem U}.

Definition cons_lock : lens (cons U) bool :=
  Lens cs_lock (fun l s => Cons l (cs_buf s) (cs_r s) (cs_w s) (cs_e s) (cs_out s) (cs_killed s) (cs_user s)).
Definition cons_user : lens (cons U) U :=
  Lens cs_user (fun u s => Cons (cs_lock s) (cs_buf s) (cs_r s) (cs_w s) (cs_e s) (cs_out s) (cs_killed s) u).
Definition set_r (r : Z) (s : cons U) : cons U :=
  Cons (cs_lock s) (cs_buf s) (u32 r) (cs_w s) (cs_e s) (cs_out s) (cs_killed s) (cs_user s).
Definition set_w (w : Z) (s : cons U) : cons U :=
  Cons (cs_lock s) (cs_buf s) (cs_r s) (u32 w) (cs_e s) (cs_out s) (cs_killed s) (cs_user s).
Definition set_e (e : Z) (s : cons U) : cons U :=
  Cons (cs_lock s) (cs_buf s) (cs_r s) (cs_w s) (u32 e) (cs_out s) (cs_killed s) (cs_user s).
Definition emit (o : list out) (s : cons U) : cons U :=
  Cons (cs_lock s) (cs_buf s) (cs_r s) (cs_w s) (cs_e s) (cs_out s ++ o) (cs_killed s) (cs_user s).
(** [cons.buf[cons.e++ % INPUT_BUF_SIZE] = c] *)
Definition put_e (c : Z) (s : cons U) : cons U :=
  Cons (cs_lock s) (store (cs_buf s) (cs_e s mod INPUT_BUF_SIZE) (u8 c)) (cs_r s) (cs_w s)
       (u32 (cs_e s + 1)) (cs_out s) (cs_killed s) (cs_user s).

Definition consputc (c : Z) : M (cons U) unit :=
  if c =? BACKSPACE then modify (emit [Putc 8; Putc 32; Putc 8])
  else modify (emit [Putc c]).

(** [uartwrite] hands the bytes over in order. *)
Definition uartwrite (bs : list Z) : M (cons U) unit := modify (emit (Putc <$> bs)).

(** At most [k] more rounds. *)
Fixpoint consolewrite_loop (k : nat) (user_src : bool) (src n i : Z) : M (cons U) Z :=
  match k with
  | O => nofuel
  | S k =>
      if i <? n then
        let nn := Z.min 32 (n - i) in
        let! r := zoom cons_user (copyin_bytes user_src (u64 (src + i)) nn) in
        match r with
        | None => ret i
        | Some buf => uartwrite buf ;; consolewrite_loop k user_src src n (i + nn)
        end
      else ret i
  end.

Definition consolewrite (user_src : bool) (src n : Z) : M (cons U) Z :=
  consolewrite_loop (Z.to_nat (Z.max 0 n / 32 + 2)) user_src src n 0.

Definition chan_r : Z := 0.

(** Wait for input: false when the process was killed meanwhile. *)
Fixpoint consoleread_wait (fuel : nat) : M (cons U) bool :=
  match fuel with
  | O => nofuel
  | S fuel =>
      let! s := gets (fun s => s) in
      if cs_r s =? cs_w s then
        if cs_killed s then ret false
        else sleep chan_r cons_lock ;; consoleread_wait fuel
      else ret true
  end.

(** [n] characters are still wanted; the result is the [n] at the end, or None
    for a killed process, which has released the lock. *)
Fixpoint consoleread_loop (fuel n : nat) (target : Z) (user_dst : bool) (dst : Z) : M (cons U) (option Z) :=
  match n with
  | O => ret (Some 0)
  | S n' =>
      let! ok := consoleread_wait fuel in
      if negb ok then release cons_lock ;; ret None
      else
        let! s := gets (fun s => s) in
        let c := cs_buf s (cs_r s mod INPUT_BUF_SIZE) in
        modify (fun s => set_r (cs_r s + 1) s) ;;
        if c =? C 68 then
          when (Z.of_nat n <? target) (modify (fun s => set_r (cs_r s - 1) s)) ;;
          ret (Some (Z.of_nat n))
        else
          let! ok := zoom cons_user (copyout_bytes user_dst dst [c]) in
          if negb ok then ret (Some (Z.of_nat n))
          else if c =? 10 then ret (Some (Z.of_nat n'))
          else consoleread_loop fuel n' target user_dst (u64 (dst + 1))
  end.

Definition consoleread (fuel : nat) (user_dst : bool) (dst n : Z) : M (cons U) Z :=
  let target := n in
  acquire cons_lock ;;
  let! r := (if 0 <? n then consoleread_loop fuel (Z.to_nat n) target user_dst dst else ret (Some n)) in
  match r with
  | None => ret (-1)
  | Some n => release cons_lock ;; ret (target - n)
  end.

(** Control-U: at most [k] characters are left to erase. *)
Fixpoint kill_line (k : nat) : M (cons U) unit :=
  match k with
  | O => nofuel
  | S k =>
      let! s := gets (fun s => s) in
      if negb (cs_e s =? cs_w s) && negb (cs_buf s (u32 (cs_e s - 1) mod INPUT_BUF_SIZE) =? 10) then
        modify (set_e (cs_e s - 1)) ;; consputc BACKSPACE ;; kill_line k
      else ret tt
  end.

Definition consoleintr (c : Z) : M (cons U) unit :=
  acquire cons_lock ;;
  (if c =? C 80 then modify (emit [Procdump])
   else if c =? C 85 then kill_line (Z.to_nat INPUT_BUF_SIZE + 1)
   else if (c =? C 72) || (c =? 127) then
     let! s := gets (fun s => s) in
     when (negb (cs_e s =? cs_w s)) (modify (set_e (cs_e s - 1)) ;; consputc BACKSPACE)
   else
     let! s := gets (fun s => s) in
     when (negb (c =? 0) && (u32 (cs_e s - cs_r s) <? INPUT_BUF_SIZE))
       (let c := if c =? 13 then 10 else c in
        consputc c ;;
        modify (put_e c) ;;
        let! s := gets (fun s => s) in
        when ((c =? 10) || (c =? C 68) || (u32 (cs_e s - cs_r s) =? INPUT_BUF_SIZE))
          (modify (set_w (cs_e s)) ;; modify (emit [Wakeup])))) ;;
  release cons_lock.

(** ** Lines *)

Definition nlines (s : cons U) : Z := u32 (cs_w s - cs_r s).
Definition nedit (s : cons U) : Z := u32 (cs_e s - cs_w s).

(** The characters of complete lines, and the line being edited. *)
Definition lines (s : cons U) : list Z := ring INPUT_BUF_SIZE (cs_buf s) (cs_r s) (nlines s).
Definition editing (s : cons U) : list Z := ring INPUT_BUF_SIZE (cs_buf s) (cs_w s) (nedit s).

Record cons_ok (s : cons U) : Prop := {
  co_r : 0 <= cs_r s < 2 ^ 32;
  co_w : 0 <= cs_w s < 2 ^ 32;
  co_e : 0 <= cs_e s < 2 ^ 32;
  co_size : nlines s + nedit s <= INPUT_BUF_SIZE;
  co_bytes : forall i, 0 <= cs_buf s i < 256;
  co_line : 10 ∉ editing s
}.

(** What a character does to the lines and the line being edited. *)
Definition edit (c : Z) (st : list Z * list Z) : list Z * list Z :=
  let '(ls, ed) := st in
  if c =? C 80 then (ls, ed)
  else if c =? C 85 then (ls, [])
  else if (c =? C 72) || (c =? 127) then (ls, removelast ed)
  else if (c =? 0) || (INPUT_BUF_SIZE <=? Z.of_nat (length ls + length ed)) then (ls, ed)
  else
    let c := if c =? 13 then 10 else c in
    let ed := ed ++ [c] in
    if (c =? 10) || (c =? C 68) || (Z.of_nat (length ls + length ed) =? INPUT_BUF_SIZE) then (ls ++ ed, [])
    else (ls, ed).

Lemma nlines_range s : 0 <= nlines s < 2 ^ 32.
Proof. apply u32_bound. Qed.
Lemma nedit_range s : 0 <= nedit s < 2 ^ 32.
Proof. apply u32_bound. Qed.

Lemma lines_length s : Z.of_nat (length (lines s)) = nlines s.
Proof. unfold lines. rewrite ring_length. pose proof (nlines_range s). lia. Qed.
Lemma editing_length s : Z.of_nat (length (editing s)) = nedit s.
Proof. unfold editing. rewrite ring_length. pose proof (nedit_range s). lia. Qed.

Lemma size_pos : 0 < INPUT_BUF_SIZE.
Proof. reflexivity. Qed.
Lemma size_divides : (INPUT_BUF_SIZE | 2 ^ 32).
Proof. exists (2 ^ 25). reflexivity. Qed.

(** The counters, and the total in the buffer. *)
Lemma total s : cons_ok s -> u32 (cs_e s - cs_r s) = nlines s + nedit s.
Proof. intros [H1 H2 H3 H4 _ _]. unfold nlines, nedit, u32, INPUT_BUF_SIZE in *. dlia. Qed.

Lemma edit_end s : cons_ok s -> (cs_e s =? cs_w s) = (nedit s =? 0).
Proof. intros [H1 H2 H3 H4 _ _]. unfold nlines, nedit, u32, INPUT_BUF_SIZE in *. dlia. Qed.

Lemma edit_index s : cons_ok s ->
  cs_e s mod INPUT_BUF_SIZE = (cs_w s + nedit s) mod INPUT_BUF_SIZE /\
  cs_e s mod INPUT_BUF_SIZE = (cs_r s + nlines s + nedit s) mod INPUT_BUF_SIZE.
Proof. intros [H1 H2 H3 H4 _ _]. unfold nlines, nedit, u32, INPUT_BUF_SIZE in *. split; dlia. Qed.

(** A character is appended to the line being edited. *)
Lemma put_e_spec s c : cons_ok s -> nlines s + nedit s < INPUT_BUF_SIZE -> 0 <= c < 256 ->
  lines (put_e c s) = lines s /\ editing (put_e c s) = editing s ++ [c] /\
  nlines (put_e c s) = nlines s /\ nedit (put_e c s) = nedit s + 1 /\ (c <> 10 -> cons_ok (put_e c s)).
Proof.
  intros Hok Hc Hb. pose proof (edit_index s Hok) as [I1 I2].
  pose proof (nlines_range s). pose proof (nedit_range s).
  assert (Hn : nedit (put_e c s) = nedit s + 1).
  { destruct Hok. unfold nedit, put_e, nlines, u32, INPUT_BUF_SIZE in *. simpl. dlia. }
  assert (He : editing (put_e c s) = editing s ++ [c]).
  { unfold editing. rewrite Hn. simpl. rewrite I1, u8_small by exact Hb. apply ring_put; [apply size_pos|lia]. }
  split; [|split; [exact He|split; [reflexivity|split; [exact Hn|]]]].
  - unfold lines. simpl. rewrite I2. apply ring_store; [apply size_pos|lia..].
  - intros Hne. destruct Hok as [R1 R2 R3 R4 R5 R6]. split; auto.
    + apply u32_bound.
    + rewrite Hn. change (nlines (put_e c s)) with (nlines s). lia.
    + intros i. simpl. unfold store. case_test; [apply u8_bound|apply R5].
    + rewrite He. intros Hin. apply elem_of_app in Hin as [Hin|Hin]; [contradiction|].
      apply list_elem_of_singleton in Hin. lia.
Qed.

(** The line being edited is complete. *)
Lemma set_w_spec s : 0 <= cs_r s < 2 ^ 32 -> 0 <= cs_w s < 2 ^ 32 -> 0 <= cs_e s < 2 ^ 32 ->
  nlines s + nedit s <= INPUT_BUF_SIZE -> (forall i, 0 <= cs_buf s i < 256) ->
  lines (set_w (cs_e s) s) = lines s ++ editing s /\ editing (set_w (cs_e s) s) = [] /\
  cons_ok (set_w (cs_e s) s).
Proof.
  intros R1 R2 R3 R4 R5. pose proof (nlines_range s). pose proof (nedit_range s).
  assert (Hn : nlines (set_w (cs_e s) s) = nlines s + nedit s).
  { unfold nedit, nlines, u32, INPUT_BUF_SIZE in *. simpl. unfold u32. dlia. }
  assert (Hn' : nedit (set_w (cs_e s) s) = 0) by (unfold nedit; simpl; unfold u32; dlia).
  assert (He : editing (set_w (cs_e s) s) = []) by (unfold editing; rewrite Hn'; reflexivity).
  split; [|split; [exact He|]].
  - unfold lines. rewrite Hn. simpl. rewrite ring_app by lia. f_equal. unfold editing.
    apply ring_cong; [apply size_pos|]. unfold nlines, u32, INPUT_BUF_SIZE in *. dlia.
  - split; auto; [simpl; apply u32_bound|rewrite Hn, Hn'; lia|]. rewrite He. apply not_elem_of_nil.
Qed.

(** The last character of the line being edited is erased. *)
Lemma set_e_spec s : cons_ok s -> nedit s <> 0 ->
  lines (set_e (cs_e s - 1) s) = lines s /\ editing (set_e (cs_e s - 1) s) = removelast (editing s) /\
  nedit (set_e (cs_e s - 1) s) = nedit s - 1 /\ cons_ok (set_e (cs_e s - 1) s).
Proof.
  intros Hok Hne. pose proof (nedit_range s).
  assert (Hn : nedit (set_e (cs_e s - 1) s) = nedit s - 1).
  { destruct Hok. unfold nedit, nlines, u32, INPUT_BUF_SIZE in *. simpl. unfold u32. dlia. }
  assert (He : editing (set_e (cs_e s - 1) s) = removelast (editing s)).
  { unfold editing. rewrite Hn. simpl. rewrite (ring_snoc _ _ _ (nedit s)) by lia. rewrite removelast_last.
    reflexivity. }
  split; [reflexivity|]. split; [exact He|]. split; [exact Hn|].
  destruct Hok as [R1 R2 R3 R4 R5 R6]. split; auto.
  - apply u32_bound.
  - rewrite Hn. change (nlines (set_e (cs_e s - 1) s)) with (nlines s). lia.
  - rewrite He. intros Hin. apply R6. unfold editing in *. rewrite (ring_snoc _ _ _ (nedit s)) in * by lia.
    rewrite removelast_last in Hin. apply elem_of_app. left. exact Hin.
Qed.

Lemma erased_char s : cons_ok s -> nedit s <> 0 ->
  (cs_buf s (u32 (cs_e s - 1) mod INPUT_BUF_SIZE) =? 10) = false.
Proof.
  intros Hok Hne. pose proof (nedit_range s). apply Z.eqb_neq. intros E. apply (co_line _ Hok).
  unfold editing. rewrite ring_snoc by lia. apply elem_of_app. right. apply list_elem_of_singleton.
  rewrite <- E. f_equal. destruct Hok. unfold nedit, nlines, u32, INPUT_BUF_SIZE in *. dlia.
Qed.

(** The echo of a character; readers are woken when a line is complete. *)
Definition rubout : list out := [Putc 8; Putc 32; Putc 8].
Definition echo (c : Z) (st : list Z * list Z) : list out :=
  let '(ls, ed) := st in
  if c =? C 80 then [Procdump]
  else if c =? C 85 then concat (replicate (length ed) rubout)
  else if (c =? C 72) || (c =? 127) then if ed is [] then [] else rubout
  else if (c =? 0) || (INPUT_BUF_SIZE <=? Z.of_nat (length ls + length ed)) then []
  else
    let c := if c =? 13 then 10 else c in
    if (c =? 10) || (c =? C 68) || (Z.of_nat (length ls + length ed) + 1 =? INPUT_BUF_SIZE) then [Putc c; Wakeup]
    else [Putc c].

Lemma cons_ok_lock l s : cons_ok s -> cons_ok (set cons_lock l s).
Proof. intros []. split; auto. Qed.
Lemma cons_ok_emit o s : cons_ok s -> cons_ok (emit o s).
Proof. intros []. split; auto. Qed.

Lemma kill_line_spec k : forall s, cons_ok s -> nedit s < Z.of_nat k ->
  exists s', kill_line k s = Ret tt s' /\ cons_ok s' /\ cs_lock s' = cs_lock s /\
    lines s' = lines s /\ editing s' = [] /\
    cs_out s' = cs_out s ++ concat (replicate (length (editing s)) rubout).
Proof.
  induction k as [|k IH]; intros s Hok Hk; [pose proof (nedit_range s); lia|].
  cbn [kill_line]. rewrite bind_gets, edit_end by exact Hok.
  destruct (Z.eqb_spec (nedit s) 0) as [E|E]; cbn [negb andb].
  - exists s. assert (Hn : editing s = []) by (unfold editing; rewrite E; reflexivity). rewrite Hn. simpl.
    rewrite app_nil_r. auto 10.
  - rewrite erased_char by assumption. cbn [negb]. rewrite bind_modify. unfold consputc. simpl. rewrite bind_modify.
    destruct (set_e_spec s Hok E) as (E1 & E2 & E3 & E4).
    destruct (IH (emit rubout (set_e (cs_e s - 1) s))) as (s' & R1 & R2 & R3 & R4 & R5 & R6).
    + apply cons_ok_emit, E4.
    + change (nedit (emit rubout (set_e (cs_e s - 1) s))) with (nedit (set_e (cs_e s - 1) s)). lia.
    + exists s'. split; [exact R1|]. split; [exact R2|]. split; [exact R3|]. split; [rewrite R4; exact E1|].
      split; [exact R5|]. rewrite R6.
      change (editing (emit rubout (set_e (cs_e s - 1) s))) with (editing (set_e (cs_e s - 1) s)). rewrite E2.
      assert (Hl : length (editing s) = S (length (removelast (editing s)))).
      { unfold editing. rewrite (ring_snoc _ _ _ (nedit s)) by (pose proof (nedit_range s); lia).
        rewrite removelast_last, length_app. simpl. lia. }
      rewrite Hl. simpl. rewrite <- !app_assoc. reflexivity.
Qed.

Lemma erase_spec s : cons_ok s ->
  exists s', (let! s := gets (fun s => s) in
      when (negb (cs_e s =? cs_w s)) (modify (set_e (cs_e s - 1)) ;; consputc BACKSPACE)) s = Ret tt s' /\
    cons_ok s' /\ cs_lock s' = cs_lock s /\ lines s' = lines s /\ editing s' = removelast (editing s) /\
    cs_out s' = cs_out s ++ (if editing s is [] then [] else rubout).
Proof.
  intros Hok. rewrite bind_gets, edit_end by exact Hok. pose proof (editing_length s) as Le.
  destruct (Z.eqb_spec (nedit s) 0) as [E|E]; cbn [negb when].
  - assert (Hn : editing s = []) by (unfold editing; rewrite E; reflexivity).
    exists s. rewrite Hn, app_nil_r. auto 10.
  - destruct (set_e_spec s Hok E) as (E1 & E2 & E3 & E4). exists (emit rubout (set_e (cs_e s - 1) s)).
    split; [reflexivity|]. split; [apply cons_ok_emit, E4|]. split; [reflexivity|]. split; [exact E1|].
    split; [exact E2|]. pose proof (nedit_range s). destruct (editing s); [simpl in Le; lia|reflexivity].
Qed.

Lemma unlock_ret (s : cons U) : cs_lock s = true -> release cons_lock s = Ret tt (set cons_lock false s).
Proof. intros E. unfold release. simpl. rewrite E. reflexivity. Qed.

Lemma store_char_spec s c : cons_ok s -> cs_lock s = true -> 0 < c < 256 -> nlines s + nedit s < INPUT_BUF_SIZE ->
  exists s', (consputc c ;; modify (put_e c) ;; let! s := gets (fun s => s) in
      when ((c =? 10) || (c =? C 68) || (u32 (cs_e s - cs_r s) =? INPUT_BUF_SIZE)) (modify (set_w (cs_e s)) ;; modify (emit [Wakeup]))) s =
        Ret tt s' /\ cons_ok s' /\ cs_lock s' = true /\
    let full := (c =? 10) || (c =? C 68) || (nlines s + nedit s + 1 =? INPUT_BUF_SIZE) in
    cs_out s' = cs_out s ++ (if full then [Putc c; Wakeup] else [Putc c]) /\
    (lines s', editing s') = if full then (lines s ++ editing s ++ [c], []) else (lines s, editing s ++ [c]).
Proof.
  intros Hok Hl Hc Hn. unfold consputc. replace (c =? BACKSPACE) with false by (unfold BACKSPACE; lia).
  rewrite !bind_modify, bind_gets. set (s1 := emit [Putc c] s).
  destruct (put_e_spec s1 c (cons_ok_emit _ _ Hok) Hn ltac:(lia)) as (P1 & P2 & P3 & P4 & P5).
  set (s2 := put_e c s1) in *. change (lines s1) with (lines s) in P1. change (editing s1) with (editing s) in P2.
  change (nlines s1) with (nlines s) in P3. change (nedit s1) with (nedit s) in P4.
  assert (Ht : u32 (cs_e s2 - cs_r s2) = nlines s + nedit s + 1).
  { destruct Hok. unfold s2, s1, nlines, nedit, u32, INPUT_BUF_SIZE in *. simpl. unfold u32. dlia. }
  rewrite Ht. destruct ((c =? 10) || (c =? C 68) || (nlines s + nedit s + 1 =? INPUT_BUF_SIZE)) eqn:E; cbn [when].
  - destruct (set_w_spec s2) as (W1 & W2 & W3).
    + apply Hok.
    + apply Hok.
    + apply u32_bound.
    + lia.
    + intros i. unfold s2, put_e. simpl. unfold store. case_test; [apply u8_bound|apply Hok].
    + exists (emit [Wakeup] (set_w (cs_e s2) s2)). split; [reflexivity|]. split; [apply cons_ok_emit, W3|]. split; [exact Hl|].
      split; [simpl; rewrite <- app_assoc; reflexivity|].
      change (lines (emit [Wakeup] (set_w (cs_e s2) s2))) with (lines (set_w (cs_e s2) s2)).
      change (editing (emit [Wakeup] (set_w (cs_e s2) s2))) with (editing (set_w (cs_e s2) s2)). rewrite W1, W2, P1, P2. reflexivity.
  - eexists. split; [reflexivity|]. split; [apply P5; lia|]. split; [exact Hl|]. split; [reflexivity|].
    rewrite P1, P2. reflexivity.
Qed.

(** ** Reading *)

Lemma lines_empty s : cons_ok s -> (cs_r s =? cs_w s) = (nlines s =? 0).
Proof. intros [H1 H2 H3 H4 _ _]. unfold nlines, nedit, u32, INPUT_BUF_SIZE in *. dlia. Qed.

Lemma set_r_spec s : cons_ok s -> nlines s <> 0 ->
  cons_ok (set_r (cs_r s + 1) s) /\
  lines s = cs_buf s (cs_r s mod INPUT_BUF_SIZE) :: lines (set_r (cs_r s + 1) s) /\
  set_r (cs_r (set_r (cs_r s + 1) s) - 1) (set_r (cs_r s + 1) s) = s.
Proof.
  intros Hok Hne. pose proof (nlines_range s).
  assert (Hn : nlines (set_r (cs_r s + 1) s) = nlines s - 1).
  { destruct Hok. unfold nlines, nedit, u32, INPUT_BUF_SIZE in *. simpl. unfold u32. dlia. }
  split; [|split].
  - destruct Hok as [R1 R2 R3 R4 R5 R6]. split; auto; [apply u32_bound|].
    rewrite Hn. change (nedit (set_r (cs_r s + 1) s)) with (nedit s). lia.
  - unfold lines. rewrite Hn, ring_cons by lia. simpl. rewrite ring_u32; [reflexivity|apply size_pos|apply size_divides].
  - destruct s as [lk bf r w e o k u]. unfold set_r. simpl. f_equal. destruct Hok. simpl in *. unfold u32. dlia.
Qed.

(** The characters a read of at most [n] returns from the complete lines [q],
    and what is left of them; None when it has to wait for more. *)
Fixpoint read_line (n : nat) (first : bool) (q : list Z) : option (list Z * list Z) :=
  match n, q with
  | O, _ => Some ([], q)
  | S _, [] => None
  | S n', c :: q' =>
      if c =? C 68 then Some ([], if first then q' else q)
      else if c =? 10 then Some ([c], q')
      else
        match read_line n' false q' with
        | Some (del, rest) => Some (c :: del, rest)
        | None => None
        end
  end.

(** While a reader sleeps, interrupts complete more lines. *)
Definition arrives (s : cons U) (e : list Z) (s' : cons U) : Prop :=
  cons_ok s' /\ cs_lock s' = false /\ cs_killed s' = false /\ cs_user s' = cs_user s /\
  e <> [] /\ lines s' = lines s ++ e.

Definition no_lines (s : cons U) : Prop := lines s = [].

Lemma consoleread_wait_spec fuel s :
  cons_ok s -> cs_lock s = true -> cs_killed s = false -> (2 <= fuel)%nat ->
  against no_lines arrives (consoleread_wait fuel s) (fun es ok s' => ok = true /\
    cons_ok s' /\ cs_lock s' = true /\ cs_killed s' = false /\ cs_user s' = cs_user s /\
    lines s' = lines s ++ concat es /\ nlines s' <> 0).
Proof.
  intros Hok Hl Hk Hf. destruct fuel as [|[|fuel]]; [lia..|].
  cbn [consoleread_wait]. rewrite bind_gets, lines_empty by exact Hok.
  destruct (Z.eqb_spec (nlines s) 0) as [Hc|Hc].
  2: { simpl. rewrite app_nil_r. auto 10. }
  rewrite Hk. unfold bind at 1, sleep. simpl. rewrite Hl. simpl.
  split; [unfold no_lines, lines; change (nlines _) with (nlines s); rewrite Hc; reflexivity|].
  intros e s' (D1 & D2 & D3 & D4 & D5 & D6). unfold acquire. simpl. rewrite D2. cbn [bindr].
  rewrite bind_gets, lines_empty by (apply (cons_ok_lock true s'), D1).
  change (nlines _ =? 0) with (nlines s' =? 0). change (lines s' = lines s ++ e) in D6.
  assert (Hne : nlines s' <> 0).
  { rewrite <- lines_length, D6, length_app. destruct e; [contradiction|]. simpl. lia. }
  apply Z.eqb_neq in Hne as Hne'. rewrite Hne'. simpl. rewrite app_nil_r.
  split; [reflexivity|]. split; [apply (cons_ok_lock true s'), D1|]. auto 10.
Qed.

Context `{UL : !UserMemLaws U}.

Lemma consoleread_loop_spec fuel target : forall n dst s,
  cons_ok s -> cs_lock s = true -> cs_killed s = false -> (2 <= fuel)%nat -> um_inv (cs_user s) ->
  1 <= um_max -> 0 <= dst -> dst + Z.of_nat n < 2 ^ 64 -> Z.of_nat n <= target ->
  (forall a, dst <= a < dst + Z.of_nat n -> um_can_write (cs_user s) a) ->
  against no_lines arrives (consoleread_loop fuel n target true dst s) (fun es r s' =>
    exists del rest, read_line n (Z.of_nat n =? target) (lines s ++ concat es) = Some (del, rest) /\
      r = Some (Z.of_nat n - Z.of_nat (length del)) /\ lines s' = rest /\ cons_ok s' /\ cs_lock s' = true /\
      um_inv (cs_user s') /\
      (forall i b, del !! i = Some b -> um_mem (cs_user s') (dst + Z.of_nat i) = Some b) /\
      (forall a b, a < dst -> um_mem (cs_user s) a = Some b -> um_mem (cs_user s') a = Some b)).
Proof.
  induction n as [|n IH]; intros dst s Hok Hl Hk Hf Hu Hm Hd Hdn Ht Hw.
  - simpl. exists [], (lines s). rewrite app_nil_r. split; [reflexivity|]. split; [reflexivity|].
    repeat (split; [assumption || reflexivity|]). split; [intros i b Hi; discriminate|auto].
  - cbn [consoleread_loop]. eapply against_bind; [apply consoleread_wait_spec; assumption|].
    intros es ok s1 (-> & W1 & W2 & W3 & W4 & W5 & W6). cbn [negb]. rewrite bind_gets, bind_modify.
    destruct (set_r_spec s1 W1 W6) as (S1 & S2 & S3). set (c := cs_buf s1 _) in *. set (s2 := set_r _ s1) in *.
    destruct (c =? C 68) eqn:Ec.
    { assert (E : (when (Z.of_nat (S n) <? target) (modify (fun s => set_r (cs_r s - 1) s)) ;;
        ret (Some (Z.of_nat (S n)))) s2 = Ret (Some (Z.of_nat (S n))) (if Z.of_nat (S n) =? target then s2 else s1)).
      { destruct (Z.eqb_spec (Z.of_nat (S n)) target) as [E|E].
        - replace (_ <? _) with false by lia. reflexivity.
        - replace (_ <? _) with true by lia. cbn [when]. rewrite bind_modify, S3. reflexivity. }
      rewrite E. cbn [against]. rewrite app_nil_r, <- W5, S2. cbn [read_line]. rewrite Ec. clear E.
      destruct (Z.of_nat (S n) =? target); eexists [], _; (split; [reflexivity|]);
        (split; [simpl length; f_equal; lia|]); (split; [auto|]); simpl cs_user; rewrite ?W4;
        repeat (split; [assumption|]); (split; [intros i b Hi; discriminate|auto]). }
    rewrite <- W4 in Hu, Hw.
    destruct (um_out (cs_user s2) dst [c]) as (ok & u & E & U1 & U2 & U3 & U4 & U5 & U6); auto; simpl length; try lia.
    { constructor; [apply (co_bytes _ W1)|constructor]. }
    rewrite U5 in * by (intros a Ha; apply Hw; simpl in Ha; lia).
    specialize (U6 eq_refl 0%nat c eq_refl). rewrite Z.add_0_r in U6. simpl length in U2.
    erewrite bind_ret_l by (apply zoom_ret; exact E). cbn [negb].
    set (s3 := set cons_user u s2). assert (L3 : lines s3 = lines s2) by reflexivity.
    assert (Hok3 : cons_ok s3) by (destruct S1; split; auto).
    destruct (c =? 10) eqn:E10.
    { simpl. exists [c], (lines s2). rewrite app_nil_r, <- W5, S2. simpl. rewrite Ec, E10.
      split; [reflexivity|]. split; [simpl; f_equal; lia|]. split; [reflexivity|]. split; [exact Hok3|].
      split; [exact W2|]. split; [exact U1|]. split.
      - intros [|i] b Hi; [|discriminate]. injection Hi as <-. rewrite Z.add_0_r. exact U6.
      - intros a b Ha Hb. apply U2; [lia|]. simpl. rewrite W4. exact Hb. }
    rewrite u64_small by lia. eapply against_mono; [apply (IH (dst + 1) s3); auto; simpl; try lia|].
    { intros a Ha. apply U4. simpl. apply Hw. lia. }
    intros es' r s' (del & rest & R1 & R2 & R3 & R4 & R5 & R6 & R7 & R8).
    exists (c :: del), rest. rewrite concat_app, app_assoc, <- W5, S2. simpl. rewrite Ec, E10.
    replace (Z.of_nat n =? target) with false in R1 by lia. rewrite L3 in R1. rewrite R1.
    split; [reflexivity|]. split; [rewrite R2; simpl; f_equal; lia|]. repeat (split; [assumption|]). split.
    + intros [|i] b Hi; simpl in Hi.
      * injection Hi as <-. rewrite Z.add_0_r. apply R8; [lia|exact U6].
      * replace (dst + Z.of_nat (S i)) with (dst + 1 + Z.of_nat i) by lia. auto.
    + intros a b Ha Hb. apply R8; [lia|]. apply U2; [lia|]. simpl. rewrite W4. exact Hb.
Qed.

Lemma consolewrite_loop_spec src n : forall k i s,
  um_inv (cs_user s) -> 32 <= um_max -> 0 <= src -> src + n <= 2 ^ 64 -> 0 <= i <= n ->
  n - i <= 32 * (Z.of_nat k - 1) ->
  exists r s' bs, consolewrite_loop k true src n i s = Ret r s' /\ i <= r <= n /\
    cs_out s' = cs_out s ++ (Putc <$> bs) /\ Z.of_nat (length bs) = r - i /\
    (forall a b, um_mem (cs_user s) a = Some b -> um_mem (cs_user s') a = Some b) /\
    (forall j b, bs !! j = Some b -> um_mem (cs_user s') (src + i + Z.of_nat j) = Some b) /\
    ((forall a, src + i <= a < src + n -> um_can_read (cs_user s) a) -> r = n).
Proof.
  induction k as [|k IH]; intros i s Hu Hm Hs Hn Hi Hk; [lia|]. cbn [consolewrite_loop].
  assert (Hstop : forall u, (forall a b, um_mem (cs_user s) a = Some b -> um_mem u a = Some b) ->
    exists s' bs, Ret i (set cons_user u s) = Ret i s' /\ cs_user s' = u /\
      cs_out s' = cs_out s ++ (Putc <$> bs) /\ Z.of_nat (length bs) = i - i /\
      (forall a b, um_mem (cs_user s) a = Some b -> um_mem u a = Some b) /\
      (forall j b, bs !! j = Some b -> um_mem u (src + i + Z.of_nat j) = Some b)).
  { intros u Hmono. exists (set cons_user u s), []. simpl. rewrite app_nil_r.
    repeat (split; [reflexivity || lia || assumption|]). intros j b Hj. discriminate. }
  destruct (Z.ltb_spec i n) as [Hin|Hin].
  2: { destruct (Hstop (cs_user s) ltac:(auto)) as (s' & bs & E & <- & S1 & S2 & S3 & S4).
       exists i, s', bs. destruct s; simpl in *. split; [exact E|]. split; [lia|]. split; [exact S1|].
       split; [exact S2|]. split; [exact S3|]. split; [exact S4|]. intros. lia. }
  rewrite u64_small by lia. set (nn := Z.min 32 (n - i)).
  destruct (um_in (cs_user s) (src + i) nn) as (r & u & E & U1 & U2 & U3 & U4 & U5 & U6); auto; [lia..|].
  erewrite bind_ret_l by (apply zoom_ret; exact E). destruct r as [buf|].
  - destruct (U6 buf eq_refl) as (L1 & L2 & L3). cbv iota. unfold uartwrite. rewrite bind_modify.
    set (s1 := emit (Putc <$> buf) (set cons_user u s)).
    destruct (IH (i + nn) s1) as (r & s' & bs & R1 & R2 & R3 & R4 & R5 & R6 & R7); auto; try lia.
    exists r, s', (buf ++ bs). split; [exact R1|]. split; [lia|].
    split; [rewrite R3; simpl; rewrite fmap_app, app_assoc; reflexivity|]. rewrite length_app.
    split; [lia|]. split; [auto|]. split.
    + intros j b Hj. apply lookup_app_Some in Hj as [Hj|[Hlen Hj]]; [apply R5, L3, Hj|].
      apply R6 in Hj. rewrite <- Hj. f_equal. lia.
    + intros Hr. apply R7. intros a Ha. apply U3, Hr. lia.
  - destruct (Hstop u U2) as (s' & bs & Es & <- & S1 & S2 & S3 & S4). exists i, s', bs.
    split; [exact Es|]. split; [lia|]. split; [exact S1|]. split; [exact S2|]. split; [exact S3|].
    split; [exact S4|]. intros Hr. exfalso. apply U5; [|reflexivity]. intros a Ha. apply Hr. lia.
Qed.
End Console.

(** C35. The interrupt handler implements the line editor: each character acts on
    the complete lines and the line being edited as [edit] says (erase, kill
    line, end of line, end of file, a full buffer), nothing is lost when the
    32-bit counters wrap, the screen is sent the matching echo, and readers are
    woken exactly when a line is complete. *)
Theorem consoleintr_edits {U} `{UserMem U} (c : Z) (s : cons U) :
  cons_ok s -> cs_lock s = false -> 0 <= c < 256 ->
  exists s', consoleintr c s = Ret tt s' /\ cons_ok s' /\ cs_lock s' = false /\
    (lines s', editing s') = edit c (lines s, editing s) /\
    cs_out s' = cs_out s ++ echo c (lines s, editing s).
Proof.
  intros Hok Hl Hc. unfold consoleintr. rewrite (bind_ret_l _ _ _ tt (set cons_lock true s))
    by (unfold acquire; simpl; rewrite Hl; reflexivity).
  pose proof (cons_ok_lock true s Hok) as Hok1. set (s1 := set cons_lock true s) in *.
  assert (Hl1 : cs_lock s1 = true) by reflexivity.
  change (lines s) with (lines s1). change (editing s) with (editing s1). change (cs_out s) with (cs_out s1).
  clearbody s1. clear s Hok Hl. unfold edit, echo.
  assert (Hfin : forall s2 : cons U, cons_ok s2 -> cs_lock s2 = true -> forall m, m s1 = Ret tt s2 ->
    exists s', (m ;; release cons_lock) s1 = Ret tt s' /\ cons_ok s' /\ cs_lock s' = false /\
      (lines s', editing s') = (lines s2, editing s2) /\ cs_out s' = cs_out s2).
  { intros s2 H2 L2 m E. rewrite (bind_ret_l _ _ _ _ _ E), unlock_ret by exact L2. eexists. split; [reflexivity|].
    split; [apply cons_ok_lock, H2|]. auto. }
  destruct (c =? C 80).
  { apply (Hfin (emit [Procdump] s1)); auto. apply cons_ok_emit, Hok1. }
  destruct (c =? C 85).
  { destruct (kill_line_spec (Z.to_nat INPUT_BUF_SIZE + 1) s1 Hok1) as (s2 & E & K1 & K2 & K3 & K4 & K5).
    { pose proof (co_size _ Hok1). pose proof (nlines_range s1). unfold INPUT_BUF_SIZE in *. lia. }
    rewrite Hl1 in K2. destruct (Hfin s2 K1 K2 _ E) as (s' & F1 & F2 & F3 & F4 & F5).
    exists s'. rewrite F4, F5, K3, K4, K5. auto. }
  pose proof (lines_length s1) as Ll. pose proof (editing_length s1) as Le. pose proof (nedit_range s1) as Hne.
  destruct ((c =? C 72) || (c =? 127)).
  { destruct (erase_spec s1 Hok1) as (s2 & E & K1 & K2 & K3 & K4 & K5).
    rewrite Hl1 in K2. destruct (Hfin s2 K1 K2 _ E) as (s' & F1 & F2 & F3 & F4 & F5).
    exists s'. rewrite F4, F5, K3, K4, K5. auto. }
  destruct (Z.eqb_spec c 0) as [E0|E0]; cbn [orb negb andb].
  { destruct (Hfin s1 Hok1 Hl1 (ret tt)) as (s' & F1 & F2 & F3 & F4 & F5); [reflexivity|].
    exists s'. rewrite F4, F5, app_nil_r. auto. }
  set (m := let! s := gets (fun s => s) in _). rewrite Nat2Z.inj_add, Ll, Le.
  destruct (Z.leb_spec INPUT_BUF_SIZE (nlines s1 + nedit s1)) as [Hfull|Hroom].
  { destruct (Hfin s1 Hok1 Hl1 m) as (s' & F1 & F2 & F3 & F4 & F5).
    { unfold m. rewrite bind_gets, total by exact Hok1. replace (_ <? _) with false by lia. reflexivity. }
    exists s'. rewrite F4, F5, app_nil_r. auto. }
  set (c' := if c =? 13 then 10 else c) in *.
  assert (Hc' : 0 < c' < 256) by (unfold c'; destruct (c =? 13); lia).
  destruct (store_char_spec s1 c' Hok1 Hl1 Hc' Hroom) as (s2 & E & S1 & S2 & S3 & S4).
  destruct (Hfin s2 S1 S2 m) as (s' & F1 & F2 & F3 & F4 & F5).
  { unfold m. rewrite bind_gets, total by exact Hok1. replace (_ <? _) with true by lia. exact E. }
  exists s'. rewrite F4, F5, S4, S3. split; [exact F1|]. split; [exact F2|]. split; [exact F3|].
  replace (Z.of_nat (length (lines s1) + length (editing s1 ++ [c']))) with (nlines s1 + nedit s1 + 1)
    by (rewrite length_app; simpl; lia). split; [reflexivity|].
  replace (Z.of_nat (length (lines s1) + length (editing s1)) + 1) with (nlines s1 + nedit s1 + 1) by lia. reflexivity.
Qed.

(** "ab", backspace, "c", return *)
Definition ex_cons : cons IdealMem.imem :=
  Cons false (fun _ => 97) (2 ^ 32 - 1) 0 1 [] false (fun _ => None).

Lemma ex_cons_ok : cons_ok ex_cons.
Proof. split; try closed. intros Hin. repeat (apply elem_of_cons in Hin as [Hin|Hin]; [discriminate|]).
  apply elem_of_nil in Hin. contradiction. Qed.

Lemma consoleintr_edits_witness :
  exists s', consoleintr 13 ex_cons = Ret tt s' /\ cons_ok s' /\ cs_lock s' = false /\
    (lines s', editing s') = edit 13 ([97], [97]) /\ cs_out s' = [] ++ echo 13 ([97], [97]).
Proof. apply (consoleintr_edits 13 ex_cons); [exact ex_cons_ok|reflexivity|lia]. Defined.

(** Reading the console: the caller gets the characters [read_line] takes from
    the complete lines, at most n and at most one line, ending early at
    control-D (which is kept for the next read unless it comes first); it
    sleeps only while no complete line is there, whatever arrives meanwhile;
    the result is the number of characters delivered. *)
Theorem consoleread_line {U} `{UL : UserMemLaws U} (fuel : nat) (dst n : Z) (s : cons U) :
  cons_ok s -> cs_lock s = false -> cs_killed s = false -> (2 <= fuel)%nat -> um_inv (cs_user s) ->
  1 <= um_max -> 0 <= dst -> 0 <= n -> dst + n < 2 ^ 64 ->
  (forall a, dst <= a < dst + n -> um_can_write (cs_user s) a) ->
  against no_lines arrives (consoleread fuel true dst n s) (fun es r s' =>
    exists del rest, read_line (Z.to_nat n) true (lines s ++ concat es) = Some (del, rest) /\
      r = Z.of_nat (length del) /\ lines s' = rest /\ cons_ok s' /\ cs_lock s' = false /\
      forall i b, del !! i = Some b -> um_mem (cs_user s') (dst + Z.of_nat i) = Some b).
Proof.
  intros Hok Hl Hk Hf Hu Hm Hd Hn Hdn Hw. unfold consoleread. unfold bind at 1, acquire. simpl. rewrite Hl. cbn [bindr].
  pose proof (cons_ok_lock true s Hok) as Hok1. set (s1 := Cons true _ _ _ _ _ _ _).
  assert (Hfin : forall r (s2 : cons U), cs_lock s2 = true ->
    (release cons_lock ;; ret (n - r)) s2 = Ret (n - r) (set cons_lock false s2)).
  { intros r s2 E. unfold bind, release. simpl. rewrite E. reflexivity. }
  destruct (Z.ltb_spec 0 n) as [H0|H0].
  - eapply against_bind; [apply (consoleread_loop_spec fuel n (Z.to_nat n) dst s1); auto; try lia|].
    + intros a Ha. apply Hw. lia.
    + intros es r s' (del & rest & R1 & -> & R3 & R4 & R5 & R6 & R7 & R8). rewrite Hfin by exact R5.
      cbn [against]. exists del, rest. rewrite Z2Nat.id, Z.eqb_refl in R1 by lia. rewrite app_nil_r.
      split; [exact R1|]. split; [lia|]. split; [exact R3|]. split; [apply cons_ok_lock, R4|].
      split; [reflexivity|exact R7].
  - replace n with 0 in * by lia. unfold bind at 1, ret at 1. cbn [bindr]. rewrite Hfin by reflexivity.
    cbn [against]. exists [], (lines s). rewrite app_nil_r. split; [reflexivity|]. split; [reflexivity|].
    split; [reflexivity|]. split; [apply cons_ok_lock, Hok1|]. split; [reflexivity|]. intros i b Hi. discriminate.
Qed.

Definition ex_cons_user : cons IdealMem.imem :=
  Cons false (fun _ => 97) (2 ^ 32 - 1) 0 1 [] false (fun a => if (0 <=? a) && (a <? 4096) then Some 0 else None).

Lemma consoleread_line_witness :
  against no_lines arrives (consoleread 2 true 16 3 ex_cons_user) (fun es r s' =>
    exists del rest, read_line 3 true ([97] ++ concat es) = Some (del, rest) /\
      r = Z.of_nat (length del) /\ lines s' = rest /\ cons_ok s' /\ cs_lock s' = false /\
      forall i b, del !! i = Some b -> cs_user s' (16 + Z.of_nat i) = Some b).
Proof.
  apply (consoleread_line (UL := IdealMem.ideal_mem_laws 32) 2 16 3 ex_cons_user);
    [|reflexivity|reflexivity|lia| |closed|closed|closed|closed|].
  - destruct ex_cons_ok; split; auto.
  - intros a b. simpl. destruct (_ && _); [|discriminate]. intros E. simplify_eq. lia.
  - intros a Ha. simpl. replace (_ && _) with true by lia. discriminate.
Defined.

(** Writing to the console sends the process's n bytes to the UART in order,
    32 at a time, and returns n when they are all readable; otherwise it
    returns the number sent, and those are a prefix. *)
Theorem consolewrite_correct {U} `{UL : UserMemLaws U} (src n : Z) (s : cons U) :
  um_inv (cs_user s) -> 32 <= um_max -> 0 <= src -> 0 <= n -> src + n <= 2 ^ 64 ->
  exists r s' bs, consolewrite true src n s = Ret r s' /\ 0 <= r <= n /\
    cs_out s' = cs_out s ++ (Putc <$> bs) /\ Z.of_nat (length bs) = r /\
    (forall i b, bs !! i = Some b -> um_mem (cs_user s') (src + Z.of_nat i) = Some b) /\
    ((forall a, src <= a < src + n -> um_can_read (cs_user s) a) -> r = n).
Proof.
  intros Hu Hm Hs Hn Hsn. unfold consolewrite. replace (Z.max 0 n) with n by lia.
  destruct (consolewrite_loop_spec src n (Z.to_nat (n / 32 + 2)) 0 s) as (r & s' & bs & R1 & R2 & R3 & R4 & R5 & R6 & R7);
    auto; [lia|dlia|].
  exists r, s', bs. rewrite Z.sub_0_r in R4. rewrite Z.add_0_r in R6, R7. auto 10.
Qed.

Lemma consolewrite_correct_witness :
  exists r s' bs, consolewrite true 16 40 ex_cons_user = Ret r s' /\ 0 <= r <= 40 /\
    cs_out s' = [] ++ (Putc <$> bs) /\ Z.of_nat (length bs) = r /\
    (forall i b, bs !! i = Some b -> cs_user s' (16 + Z.of_nat i) = Some b) /\
    ((forall a, 16 <= a < 16 + 40 -> cs_user ex_cons_user a <> None) -> r = 40).
Proof.
  apply (consolewrite_correct (UL := IdealMem.ideal_mem_laws 32) 16 40 ex_cons_user);
    [|closed|closed|closed|closed].
  intros a b. simpl. destruct (_ && _); [|discriminate]. intros E. simplify_eq. lia.
Defined.
