(* ===== verification/Fb.v ===== *)
(** * The framebuffer

    [kernel/fb.c]: a 128 by 128 array [fb_mem] of 32-bit pixels inside the
    kernel image, at address [fb], and the drawing routines.  Drawing works on
    byte-addressed memory, so that a write outside the array would be visible.
    The theorems describe what each routine paints, pixel by pixel, and that
    it changes no byte outside the array. *)

From S2P Require Import Prelude CString Riscv.

Definition FB_WIDTH : Z := 128.
Definition FB_HEIGHT : Z := 128.
Definition fb_size_bytes : Z := FB_WIDTH * FB_HEIGHT * 4.

(** [fb_mem[i] = color] and [fb_mem[i]]. *)
Definition fb_put (fb : Z) (m : mem) (i color : Z) : mem := store_le m (fb + 4 * i) 4 color.
Definition fb_get (fb : Z) (m : mem) (i : Z) : Z := load m (fb + 4 * i) 4.

(** [for(i = lo; i < hi; i++) ...]. *)
Definition for_up {A} (lo hi : Z) (body : Z -> A -> A) (a : A) : A :=
  iter (Z.to_nat (hi - lo)) lo body a.

Definition fb_clear (fb : Z) (m : mem) (color : Z) : mem :=
  let size := FB_WIDTH * FB_HEIGHT in
  let m := for_up 0 ((size + 3) / 4)
    (fun k m =>
       let i := 4 * k in
       let m := fb_put fb m i color in
       let m := fb_put fb m (i + 1) color in
       let m := fb_put fb m (i + 2) color in
       fb_put fb m (i + 3) color) m in
  for_up (size / 4 * 4) size (fun i m => fb_put fb m i color) m.

Definition fb_init (fb : Z) (m : mem) : mem := fb_clear fb m 0.

Definition in_bounds (x y : Z) : bool :=
  negb ((x <? 0) || (FB_WIDTH <=? x) || (y <? 0) || (FB_HEIGHT <=? y)).

Definition fb_draw_pixel (fb : Z) (m : mem) (x y color : Z) : mem :=
  if negb (in_bounds x y) then m else fb_put fb m (y * FB_WIDTH + x) color.

Definition fb_draw_rect (fb : Z) (m : mem) (x y w h color : Z) : mem :=
  for_up y (i32 (y + h))
    (fun yy m => for_up x (i32 (x + w)) (fun xx m => fb_draw_pixel fb m xx yy color) m) m.

Definition fb_width : Z := FB_WIDTH.
Definition fb_height : Z := FB_HEIGHT.

Definition fb_test_pattern (fb : Z) (m : mem) : mem :=
  for_up 0 FB_HEIGHT
    (fun y m => for_up 0 FB_WIDTH
       (fun x m => fb_put fb m (y * FB_WIDTH + x) (Z.lxor (x * 5) (y * 7))) m) m.

(** The loop over the longer axis of [fb_draw_line], until the major coordinate
    [a] reaches [a1]; the minor coordinate is [b]; [draw] puts a pixel. *)
Fixpoint line_loop (fuel : nat) (draw : Z -> Z -> mem -> mem) (a a1 b err sa sb da db : Z)
    (m : mem) : option mem :=
  match fuel with
  | O => None
  | S f =>
      if a =? a1 then Some m
      else
        let m := draw a b m in
        let err := err - db in
        if err <? 0 then line_loop f draw (a + sa) a1 (b + sb) (err + da) sa sb da db m
        else line_loop f draw (a + sa) a1 b err sa sb da db m
  end.

Definition fb_draw_line (fb : Z) (m : mem) (x0 y0 x1 y1 color : Z) : option mem :=
  let dx := i32 (x1 - x0) in
  let dy := i32 (y1 - y0) in
  let sx := if 0 <=? dx then 1 else -1 in
  let sy := if 0 <=? dy then 1 else -1 in
  let dx := if 0 <=? dx then dx else i32 (- dx) in
  let dy := if 0 <=? dy then dy else i32 (- dy) in
  if dy <? dx then
    match line_loop (S (Z.to_nat dx)) (fun x y m => fb_draw_pixel fb m x y color)
            x0 x1 y0 (dx / 2) sx sy dx dy m with
    | Some m => Some (fb_draw_pixel fb m x1 y1 color)
    | None => None
    end
  else
    match line_loop (S (Z.to_nat dy)) (fun y x m => fb_draw_pixel fb m x y color)
            y0 y1 x0 (dy / 2) sy sx dy dx m with
    | Some m => Some (fb_draw_pixel fb m x1 y1 color)
    | None => None
    end.

Definition fb_draw_box (fb : Z) (m : mem) (x y w h color : Z) : option mem :=
  let x1 := i32 (x + w - 1) in
  let y1 := i32 (y + h - 1) in
  match fb_draw_line fb m x y x1 y color with
  | Some m =>
      match fb_draw_line fb m x y x y1 color with
      | Some m =>
          match fb_draw_line fb m x1 y x1 y1 color with
          | Some m => fb_draw_line fb m x y1 x1 y1 color
          | None => None
          end
      | None => None
      end
  | None => None
  end.

Definition fb_draw_box_filled (fb : Z) (m : mem) (x y w h color : Z) : mem :=
  for_up y (i32 (y + h))
    (fun yy m => for_up x (i32 (x + w)) (fun xx m => fb_draw_pixel fb m xx yy color) m) m.

(** The eight pixels of one step of the circle. *)
Definition circle_points (cx cy x y : Z) : list (Z * Z) :=
  [(i32 (cx + x), i32 (cy + y)); (i32 (cx + y), i32 (cy + x));
   (i32 (cx - y), i32 (cy + x)); (i32 (cx - x), i32 (cy + y));
   (i32 (cx - x), i32 (cy - y)); (i32 (cx - y), i32 (cy - x));
   (i32 (cx + y), i32 (cy - x)); (i32 (cx + x), i32 (cy - y))].

(** Put the pixels of a list, in order. *)
Definition plot (fb color : Z) (pts : list (Z * Z)) (m : mem) : mem :=
  foldl (fun m '(x, y) => fb_draw_pixel fb m x y color) m pts.

Fixpoint circle_loop (fuel : nat) (fb : Z) (cx cy x y err color : Z) (m : mem) : option mem :=
  match fuel with
  | O => None
  | S f =>
      if y <=? x then
        let m := plot fb color (circle_points cx cy x y) m in
        let y := y + 1 in
        let err := if err <=? 0 then i32 (err + (2 * y + 1)) else err in
        if 0 <? err then
          let x := x - 1 in
          circle_loop f fb cx cy x y (i32 (err - (2 * x + 1))) color m
        else circle_loop f fb cx cy x y err color m
      else Some m
  end.

Definition fb_draw_circle (fb : Z) (m : mem) (cx cy r color : Z) : option mem :=
  circle_loop (S (Z.to_nat (r + 1))) fb cx cy r 0 0 color m.

(** [fb_blit_sprite], [fb_swap_buffers], [fb_flush_region] and
    [fb_print_ascii_if_needed] have empty bodies. *)
Definition fb_blit_sprite (m : mem) (x y sprite color_key : Z) : mem := m.
Definition fb_swap_buffers (m : mem) : mem := m.
Definition fb_flush_region (m : mem) (x y w h : Z) : mem := m.
Definition fb_print_ascii_if_needed (m : mem) : mem := m.

(** ** The sprite decompressor *)

(** [for(i = 0; i < n && count < max_pixels; i++) dst[count++] = color]; returns
    the new [count]. *)
Fixpoint rle_run (n : nat) (m : mem) (dst count max_pixels color : Z) : mem * Z :=
  match n with
  | O => (m, count)
  | S n' =>
      if count <? max_pixels
      then rle_run n' (store_le m (dst + 4 * count) 4 color) dst (count + 1) max_pixels color
      else (m, count)
  end.

(** The literal loop; returns also the advanced [src]. *)
Fixpoint rle_lit (n : nat) (m : mem) (src dst count max_pixels : Z) : mem * Z * Z :=
  match n with
  | O => (m, count, src)
  | S n' =>
      if count <? max_pixels
      then rle_lit n' (store_le m (dst + 4 * count) 4 (load m src 4)) (src + 4) dst (count + 1) max_pixels
      else (m, count, src)
  end.

Fixpoint rle_loop (fuel : nat) (m : mem) (src dst count max_pixels : Z) : option (mem * Z) :=
  match fuel with
  | O => None
  | S f =>
      if (count <? max_pixels) && negb (m src =? 255) then
        let byte := m src in
        let src := src + 1 in
        let n := Z.to_nat (Z.land byte 127 + 1) in
        if negb (Z.land byte 128 =? 0) then
          let color := load m src 4 in
          let '(m, count) := rle_run n m dst count max_pixels color in
          rle_loop f m (src + 4) dst count max_pixels
        else
          let '(m, count, src) := rle_lit n m src dst count max_pixels in
          rle_loop f m src dst count max_pixels
      else Some (m, count)
  end.

Definition fb_rle_decompress (m : mem) (src dst max_pixels : Z) : option (mem * Z) :=
  if (src =? 0) || (dst =? 0) then Some (m, 0)
  else rle_loop (S (Z.to_nat max_pixels)) m src dst 0 max_pixels.

(** ** The ASCII preview *)

Definition ascii_map : list Z := [32; 46; 58; 45; 61; 43; 42; 35; 37; 64].

(** The character printed for a pixel's colour: luminance scaled to the map. *)
Definition ascii_index (c : Z) : Z :=
  let r := Z.land (Z.shiftr c 16) 255 in
  let g := Z.land (Z.shiftr c 8) 255 in
  let b := Z.land c 255 in
  let lum := (30 * r + 59 * g + 11 * b) / 100 in
  lum * (Z.of_nat (length ascii_map) - 1) / 255.

(** The rows of characters printed, [None] for a read outside the map. *)
Definition fb_print_ascii_now (fb : Z) (m : mem) : list (list (option Z)) :=
  let sw := 64 in
  let sh := 16 in
  let sx := FB_WIDTH / sw in
  let sy := FB_HEIGHT / sh in
  (fun ry => (fun rx => ascii_map !! Z.to_nat (ascii_index (fb_get fb m (ry * sy * FB_WIDTH + rx * sx))))
     <$> seqZ 0 sw) <$> seqZ 0 sh.

Definition fb_print_ascii_preview (fb : Z) (m : mem) : list (list (option Z)) :=
  fb_print_ascii_now fb m.

(** ** What drawing does *)

Definition pixel (fb : Z) (m : mem) (x y : Z) : Z := fb_get fb m (y * FB_WIDTH + x).

(** [m'] is [m] with the on-screen pixels of [A] in [color]; no byte outside
    the array has changed. *)
Record paints (fb color : Z) (A : Z -> Z -> Prop) (m m' : mem) : Prop := {
  paints_on : forall x y, in_bounds x y = true ->
    (A x y /\ pixel fb m' x y = color) \/ (~ A x y /\ pixel fb m' x y = pixel fb m x y);
  paints_off : forall a, a < fb \/ fb + fb_size_bytes <= a -> m' a = m a
}.

Lemma in_bounds_iff x y : in_bounds x y = true <-> 0 <= x < 128 /\ 0 <= y < 128.
Proof. unfold in_bounds, FB_WIDTH, FB_HEIGHT. lia. Qed.

(** The array ends inside the 64-bit address space and colours are words. *)
Definition word (c : Z) : Prop := 0 <= c < 2 ^ 32.

Lemma fb_get_put fb m i j c : word c ->
  fb_get fb (fb_put fb m i c) j = if i =? j then c else fb_get fb m j.
Proof.
  intros Hc. unfold fb_get, fb_put. destruct (Z.eqb_spec i j) as [->|Hne].
  - rewrite load_store_le_eq by apply Hc. apply Z.mod_small. exact Hc.
  - apply load_store_le_ne. lia.
Qed.

Lemma fb_put_off fb m i c a : 0 <= i < 16384 -> a < fb \/ fb + fb_size_bytes <= a ->
  fb_put fb m i c a = m a.
Proof. intros Hi Ha. apply store_le_outside. unfold fb_size_bytes, FB_WIDTH, FB_HEIGHT in Ha. lia. Qed.

Section Painting.
Context (fb color : Z).
Hypothesis Hc : word color.

Lemma paints_nil m : paints fb color (fun _ _ => False) m m.
Proof using Type. split; auto. Qed.

Lemma paints_ext A B m m' :
  (forall x y, in_bounds x y = true -> A x y <-> B x y) ->
  paints fb color A m m' -> paints fb color B m m'.
Proof using Type.
  intros H [On Off]. split; [|exact Off]. intros x y Hb. rewrite <- (H x y Hb). auto.
Qed.

Lemma paints_app A B m1 m2 m3 :
  paints fb color A m1 m2 -> paints fb color B m2 m3 ->
  paints fb color (fun x y => A x y \/ B x y) m1 m3.
Proof using Type.
  intros [On1 Off1] [On2 Off2]. split.
  - intros x y Hb. destruct (On2 x y Hb) as [[H ->]|[H ->]]; [auto|].
    destruct (On1 x y Hb) as [[H' ->]|[H' ->]]; [auto|]. right. tauto.
  - intros a Ha. rewrite Off2, Off1; auto.
Qed.

Lemma draw_pixel_paints m x y :
  paints fb color (fun x' y' => x' = x /\ y' = y) m (fb_draw_pixel fb m x y color).
Proof using Hc.
  unfold fb_draw_pixel. destruct (in_bounds x y) eqn:E; simpl.
  - apply in_bounds_iff in E. split.
    + intros x' y' Hb. apply in_bounds_iff in Hb. unfold pixel. rewrite fb_get_put by exact Hc.
      unfold FB_WIDTH. destruct (Z.eqb_spec (y * 128 + x) (y' * 128 + x')); [left|right]; lia.
    + intros a Ha. apply fb_put_off; [|exact Ha]. unfold FB_WIDTH. lia.
  - split; [|auto]. intros x' y' Hb. right. split; [|reflexivity]. intros [-> ->]. congruence.
Qed.

(** A loop paints what its iterations paint. *)
Lemma for_up_paints (A : Z -> Z -> Z -> Prop) body : forall n lo m,
  (forall i m, lo <= i < lo + Z.of_nat n -> paints fb color (A i) m (body i m)) ->
  paints fb color (fun x y => exists i, lo <= i < lo + Z.of_nat n /\ A i x y) m (iter n lo body m).
Proof using Type.
  induction n as [|n IH]; intros lo m H.
  - eapply paints_ext; [|apply paints_nil]. intros x y _. split; [tauto|]. intros (i & Hi & _). lia.
  - cbn [iter]. eapply paints_ext;
      [|eapply paints_app; [apply (H lo); lia|apply (IH (lo + 1)); intros; apply H; lia]].
    intros x y _. split.
    + intros [HA|(i & Hi & HA)]; [exists lo|exists i]; (split; [lia|exact HA]).
    + intros (i & Hi & HA). destruct (decide (i = lo)) as [->|]; [auto|]. right. exists i. split; [lia|exact HA].
Qed.

Lemma plot_paints : forall pts m,
  paints fb color (fun x y => (x, y) ∈ pts) m (plot fb color pts m).
Proof using Hc.
  induction pts as [|[px py] pts IH]; intros m.
  - eapply paints_ext; [|apply paints_nil]. intros x y _. split; [tauto|]. apply not_elem_of_nil.
  - eapply paints_ext; [|eapply paints_app; [apply draw_pixel_paints|apply IH]].
    intros x y _. rewrite elem_of_cons. split.
    + intros [[-> ->]|H]; auto.
    + intros [H|H]; [simplify_eq|]; auto.
Qed.

Lemma rect_paints m x y w h :
  paints fb color (fun px py => x <= px < i32 (x + w) /\ y <= py < i32 (y + h)) m
    (fb_draw_rect fb m x y w h color).
Proof using Hc.
  eapply paints_ext; [|apply (for_up_paints (fun yy px py => x <= px < i32 (x + w) /\ py = yy))].
  - intros px py _. cbv beta. split; [intros (i & Hi & Hx & ->); lia|]. intros [Hx Hy]. exists py. lia.
  - intros yy m' _. eapply paints_ext; [|apply (for_up_paints (fun xx px py => px = xx /\ py = yy))].
    + intros px py _. cbv beta. split; [intros (i & Hi & -> & ->); lia|]. intros [Hx ->]. exists px. lia.
    + intros xx m'' _. apply draw_pixel_paints.
Qed.

(** The unrolled clear writes every pixel. *)
Lemma clear_paints m : paints fb color (fun _ _ => True) m (fb_clear fb m color).
Proof using Hc.
  assert (Hput : forall i m, 0 <= i < 16384 ->
    paints fb color (fun x y => y * 128 + x = i) m (fb_put fb m i color)).
  { intros i m' Hi. split.
    - intros x y _. unfold pixel. rewrite fb_get_put by exact Hc. unfold FB_WIDTH.
      destruct (Z.eqb_spec i (y * 128 + x)); [left|right]; lia.
    - intros a Ha. apply fb_put_off; assumption. }
  unfold fb_clear. set (m1 := for_up 0 _ _ m).
  assert (H1 : paints fb color (fun x y => exists k, 0 <= k < 4096 /\ 4 * k <= y * 128 + x < 4 * k + 4) m m1).
  { unfold m1. eapply paints_ext;
      [|apply (for_up_paints (fun k x y => 4 * k <= y * 128 + x < 4 * k + 4))].
    - intros x y _. cbv beta. unfold FB_WIDTH, FB_HEIGHT. split; intros (k & Hk & H); exists k; dlia.
    - intros k m' Hk. unfold FB_WIDTH, FB_HEIGHT in Hk.
      assert (0 <= k < 4096) by dlia.
      eapply paints_ext; [|do 3 (eapply paints_app; [|apply Hput; lia]); apply Hput; lia].
      intros x y _. cbv beta. lia. }
  eapply paints_ext; [|eapply paints_app; [exact H1|]].
  2: apply (for_up_paints (fun i x y => y * 128 + x = i)); intros i m' Hi;
     apply Hput; unfold FB_WIDTH, FB_HEIGHT in *; dlia.
  intros x y Hb. apply in_bounds_iff in Hb. split; [auto|]. intros _. left.
  exists ((y * 128 + x) / 4). dlia.
Qed.
End Painting.

(** ** Lines *)

(** [j] is the minor offset nearest to the ideal line at major offset [k]:
    within half a pixel, [j = k * db / da] up to rounding. *)
Definition nearest (da db k j : Z) : Prop :=
  if da =? 0 then j = 0 else - (da / 2) <= j * da - k * db < da - da / 2.

(** The pixels of the line between two points, one per step of the longer
    axis. *)
Definition on_line (x0 y0 x1 y1 x y : Z) : Prop :=
  let dx := Z.abs (x1 - x0) in
  let dy := Z.abs (y1 - y0) in
  let sx := if x0 <=? x1 then 1 else -1 in
  let sy := if y0 <=? y1 then 1 else -1 in
  if dy <? dx
  then exists k j, 0 <= k <= dx /\ nearest dx dy k j /\ x = x0 + sx * k /\ y = y0 + sy * j
  else exists k j, 0 <= k <= dy /\ nearest dy dx k j /\ y = y0 + sy * k /\ x = x0 + sx * j.

Lemma draw_pixel_paints' fb color : word color -> forall x y m,
  paints fb color (fun px py => px = x /\ py = y) m (fb_draw_pixel fb m x y color).
Proof. intros. apply draw_pixel_paints. assumption. Qed.

Lemma draw_pixel_paints_swap fb color : word color -> forall y x m,
  paints fb color (fun px py => py = y /\ px = x) m (fb_draw_pixel fb m x y color).
Proof. intros. eapply paints_ext; [|apply draw_pixel_paints; assumption]. tauto. Qed.

Section Line.
Context (fb color : Z).
Context (draw : Z -> Z -> mem -> mem) (Q : Z -> Z -> Z -> Z -> Prop).
Hypothesis Hdraw : forall a b m, paints fb color (Q a b) m (draw a b m).
Context (a1 sa sb da db : Z).
Hypothesis Hsa : sa = 1 \/ sa = -1.
Hypothesis Hdb : 0 <= db <= da.

(** From error term [err], the minor offset after [i] steps is the one that
    keeps the error term in [0, da). *)
Lemma line_loop_paints : forall n a b err m,
  a1 = a + sa * Z.of_nat n -> (n = O \/ 0 <= err < da) ->
  exists m', line_loop (S n) draw a a1 b err sa sb da db m = Some m' /\
    paints fb color (fun x y => exists i j, 0 <= i < Z.of_nat n /\
      0 <= err - i * db + j * da < da /\ Q (a + sa * i) (b + sb * j) x y) m m'.
Proof using Hdraw Hsa Hdb.
  induction n as [|n IH]; intros a b err m Ha He.
  - exists m. cbn [line_loop]. replace (a =? a1) with true by lia. split; [reflexivity|].
    eapply paints_ext; [|apply paints_nil]. intros x y _. split; [tauto|]. intros (i & j & Hi & _). lia.
  - destruct He as [|He]; [discriminate|]. remember (S n) as n1 eqn:En. cbn [line_loop].
    assert (E : (a =? a1) = false) by (destruct Hsa; subst; lia). rewrite E.
    assert (Hstep : exists b' err' c, 
      (if err - db <? 0 then line_loop n1 draw (a + sa) a1 (b + sb) (err - db + da) sa sb da db (draw a b m)
       else line_loop n1 draw (a + sa) a1 b (err - db) sa sb da db (draw a b m)) =
      line_loop n1 draw (a + sa) a1 b' err' sa sb da db (draw a b m) /\
      0 <= err' < da /\ b' = b + sb * c /\ err' = err - db + c * da).
    { destruct (Z.ltb_spec (err - db) 0);
        [exists (b + sb), (err - db + da), 1|exists b, (err - db), 0]; (split; [reflexivity|]); lia. }
    destruct Hstep as (b' & err' & c & -> & He' & -> & ->).
    destruct (IH (a + sa) (b + sb * c) (err - db + c * da) (draw a b m)) as (m' & E' & Hp); [lia|lia|].
    exists m'. split; [exact E'|]. rewrite En.
    eapply paints_ext; [|eapply paints_app; [apply Hdraw|exact Hp]].
    intros x y _. cbv beta. split.
    + intros [HQ|(i & j & Hi & Hj & HQ)].
      * exists 0, 0. split; [lia|]. split; [lia|]. rewrite !Z.mul_0_r, !Z.add_0_r. exact HQ.
      * exists (i + 1), (j + c). split; [lia|]. split; [lia|].
        replace (a + sa * (i + 1)) with (a + sa + sa * i) by lia.
        replace (b + sb * (j + c)) with (b + sb * c + sb * j) by lia. exact HQ.
    + intros (i & j & Hi & Hj & HQ). destruct (decide (i = 0)) as [->|Hne]; [left|right].
      * assert (j = 0) as -> by nia. rewrite !Z.mul_0_r, !Z.add_0_r in HQ. exact HQ.
      * exists (i - 1), (j - c). split; [lia|]. split; [lia|].
        replace (a + sa + sa * (i - 1)) with (a + sa * i) by lia.
        replace (b + sb * c + sb * (j - c)) with (b + sb * j) by lia. exact HQ.
Qed.

(** The loop and the final end point together. *)
Lemma line_paints a b m :
  a1 = a + sa * da ->
  exists m', line_loop (S (Z.to_nat da)) draw a a1 b (da / 2) sa sb da db m = Some m' /\
    paints fb color (fun x y => exists k j, 0 <= k <= da /\ nearest da db k j /\
      Q (a + sa * k) (b + sb * j) x y) m (draw a1 (b + sb * db) m').
Proof using Hdraw Hsa Hdb.
  intros Ha. destruct (line_loop_paints (Z.to_nat da) a b (da / 2) m) as (m' & E & Hp); [lia| |].
  { destruct (decide (da = 0)) as [->|]; [left; reflexivity|right; dlia]. }
  exists m'. split; [exact E|]. eapply paints_ext; [|eapply paints_app; [exact Hp|apply Hdraw]].
  intros x y _. cbv beta. unfold nearest. rewrite Z2Nat.id by lia. split.
  - intros [(k & j & Hk & Hj & HQ)|HQ].
    + exists k, j. split; [lia|]. split; [|exact HQ]. destruct (Z.eqb_spec da 0); dlia.
    + exists da, db. split; [lia|]. split; [|subst; exact HQ]. destruct (Z.eqb_spec da 0); [lia|dlia].
  - intros (k & j & Hk & Hj & HQ). destruct (decide (k = da)) as [->|Hne].
    + right. assert (j = db) as ->; [|subst; exact HQ].
      destruct (Z.eqb_spec da 0); [lia|]. assert (0 < da) by lia.
      assert (-da < (j - db) * da < da) by dlia. nia.
    + left. exists k, j. split; [lia|]. split; [|exact HQ].
      destruct (Z.eqb_spec da 0); [lia|dlia].
Qed.
End Line.

(** Coordinates for which the screen arithmetic does not overflow an int. *)
Definition coord (x : Z) : Prop := - 2 ^ 29 <= x < 2 ^ 29.

(** [fb_draw_rect] paints exactly the part of the rectangle that is on the
    screen, whatever its position and size, and writes nowhere else. *)
Theorem fb_draw_rect_correct fb m x y w h color :
  coord x -> coord y -> coord w -> coord h -> word color ->
  (forall px py, in_bounds px py = true ->
     pixel fb (fb_draw_rect fb m x y w h color) px py =
     if (x <=? px) && (px <? x + w) && (y <=? py) && (py <? y + h) then color
     else pixel fb m px py) /\
  (forall a, a < fb \/ fb + fb_size_bytes <= a -> fb_draw_rect fb m x y w h color a = m a).
Proof.
  unfold coord. intros Hx Hy Hw Hh Hc. destruct (rect_paints fb color Hc m x y w h) as [On Off].
  split; [|exact Off]. intros px py Hb.
  rewrite !i32_small in On by lia. destruct (On px py Hb) as [[H ->]|[H ->]]; case_test; try reflexivity; lia.
Qed.

Lemma fb_draw_rect_correct_witness :
  (forall px py, in_bounds px py = true ->
     pixel 4096 (fb_draw_rect 4096 (fun _ => 0) (-3) 120 10 20 255) px py =
     if (-3 <=? px) && (px <? -3 + 10) && (120 <=? py) && (py <? 120 + 20) then 255
     else pixel 4096 (fun _ => 0) px py) /\
  (forall a, a < 4096 \/ 4096 + fb_size_bytes <= a ->
     fb_draw_rect 4096 (fun _ => 0) (-3) 120 10 20 255 a = 0).
Proof. apply (fb_draw_rect_correct 4096 (fun _ => 0) (-3) 120 10 20 255); closed. Defined.

(** The unrolled [fb_clear] sets every pixel of the screen to the colour
    and writes no byte outside the array. *)
Theorem fb_clear_correct fb m color :
  word color ->
  (forall x y, in_bounds x y = true -> pixel fb (fb_clear fb m color) x y = color) /\
  (forall a, a < fb \/ fb + fb_size_bytes <= a -> fb_clear fb m color a = m a).
Proof.
  intros Hc. destruct (clear_paints fb color Hc m) as [On Off]. split; [|exact Off].
  intros x y Hb. destruct (On x y Hb) as [[_ H]|[H _]]; [exact H|tauto].
Qed.

Lemma fb_clear_correct_witness :
  (forall x y, in_bounds x y = true -> pixel 4096 (fb_clear 4096 (fun _ => 7) 255) x y = 255) /\
  (forall a, a < 4096 \/ 4096 + fb_size_bytes <= a -> fb_clear 4096 (fun _ => 7) 255 a = 7).
Proof. apply (fb_clear_correct 4096 (fun _ => 7) 255). closed. Defined.

Lemma fb_draw_line_run fb m x0 y0 x1 y1 color :
  coord x0 -> coord y0 -> coord x1 -> coord y1 -> word color ->
  exists m', fb_draw_line fb m x0 y0 x1 y1 color = Some m' /\
    paints fb color (on_line x0 y0 x1 y1) m m'.
Proof.
  unfold coord. intros Hx0 Hy0 Hx1 Hy1 Hc. unfold fb_draw_line, on_line.
  rewrite !(i32_small (_ - _)) by lia.
  replace (if 0 <=? x1 - x0 then x1 - x0 else _) with (Z.abs (x1 - x0))
    by (destruct (Z.leb_spec 0 (x1 - x0)); rewrite ?i32_small; lia).
  replace (if 0 <=? y1 - y0 then y1 - y0 else _) with (Z.abs (y1 - y0))
    by (destruct (Z.leb_spec 0 (y1 - y0)); rewrite ?i32_small; lia).
  replace (0 <=? x1 - x0) with (x0 <=? x1) by lia. replace (0 <=? y1 - y0) with (y0 <=? y1) by lia.
  set (sx := if x0 <=? x1 then 1 else -1). set (sy := if y0 <=? y1 then 1 else -1).
  assert (Hsx : (sx = 1 \/ sx = -1) /\ x1 = x0 + sx * Z.abs (x1 - x0)) by (unfold sx; case_test; lia).
  assert (Hsy : (sy = 1 \/ sy = -1) /\ y1 = y0 + sy * Z.abs (y1 - y0)) by (unfold sy; case_test; lia).
  destruct Hsx as [Hsx Ex], Hsy as [Hsy Ey].
  destruct (Z.ltb_spec (Z.abs (y1 - y0)) (Z.abs (x1 - x0))) as [Hd|Hd].
  - destruct (line_paints fb color (fun x y m => fb_draw_pixel fb m x y color)
      (fun a b x y => x = a /\ y = b) (draw_pixel_paints' fb color Hc) x1 sx sy
      (Z.abs (x1 - x0)) (Z.abs (y1 - y0)) Hsx ltac:(lia) x0 y0 m Ex) as (m' & -> & Hp).
    rewrite <- Ey in Hp. eauto.
  - destruct (line_paints fb color (fun y x m => fb_draw_pixel fb m x y color)
      (fun a b x y => y = a /\ x = b) (draw_pixel_paints_swap fb color Hc) y1 sy sx
      (Z.abs (y1 - y0)) (Z.abs (x1 - x0)) Hsy ltac:(lia) y0 x0 m Ey) as (m' & -> & Hp).
    rewrite <- Ex in Hp. eauto.
Qed.

(** C38. [fb_draw_line] terminates and paints exactly the on-screen pixels of the
    line: for every step along the longer axis, the pixel within half a pixel
    of the ideal line, from the first end point to the second, and no byte
    outside the array. *)
Theorem fb_draw_line_correct fb m x0 y0 x1 y1 color :
  coord x0 -> coord y0 -> coord x1 -> coord y1 -> word color ->
  exists m', fb_draw_line fb m x0 y0 x1 y1 color = Some m' /\
    paints fb color (on_line x0 y0 x1 y1) m m'.
Proof. apply fb_draw_line_run. Qed.

Lemma fb_draw_line_correct_witness :
  exists m', fb_draw_line 4096 (fun _ => 0) (-5) 3 100 40 255 = Some m' /\
    paints 4096 255 (on_line (-5) 3 100 40) (fun _ => 0) m'.
Proof. apply (fb_draw_line_correct 4096 (fun _ => 0) (-5) 3 100 40 255); closed. Defined.

(** ** Circles *)

Lemma circle_points_iff cx cy x y px py : coord cx -> coord cy -> 0 <= x < 2 ^ 29 -> 0 <= y < 2 ^ 29 ->
  (px, py) ∈ circle_points cx cy x y <->
  (Z.abs (px - cx) = x /\ Z.abs (py - cy) = y) \/ (Z.abs (px - cx) = y /\ Z.abs (py - cy) = x).
Proof.
  unfold coord. intros Hcx Hcy Hx Hy. unfold circle_points.
  rewrite !i32_small by lia. rewrite !elem_of_cons, elem_of_nil.
  assert (E : forall a b, (px, py) = (a, b) <-> px = a /\ py = b)
    by (intros; split; [intros; simplify_eq; auto|intros [-> ->]; reflexivity]).
  assert (Habs : forall p c d, 0 <= d -> Z.abs (p - c) = d <-> p = c + d \/ p = c - d) by (intros; lia).
  rewrite !E, !Habs by lia. clear. tauto.
Qed.

(** The octant of the circle of radius [r]: in row [b] the pixel furthest out
    with [a^2 + (b + 1)^2 <= r^2 + 1]. *)
Definition octant (r a b : Z) : Prop :=
  0 <= b <= a /\ a * a + (b + 1) * (b + 1) <= r * r + 1 < (a + 1) * (a + 1) + (b + 1) * (b + 1).

(** The pixels of the circle: the octant and its seven reflections. *)
Definition on_circle (cx cy r x y : Z) : Prop :=
  octant r (Z.abs (x - cx)) (Z.abs (y - cy)) \/ octant r (Z.abs (y - cy)) (Z.abs (x - cx)).

#[export] Instance octant_dec r a b : Decision (octant r a b).
Proof. unfold octant. apply _. Defined.

#[export] Instance on_circle_dec cx cy r x y : Decision (on_circle cx cy r x y).
Proof. unfold on_circle. apply _. Defined.

(** A row has at most one pixel. *)
Lemma octant_row r a x y : 0 <= x -> 0 <= a ->
  x * x + (y + 1) * (y + 1) <= r * r + 1 < (x + 1) * (x + 1) + (y + 1) * (y + 1) ->
  a * a + (y + 1) * (y + 1) <= r * r + 1 < (a + 1) * (a + 1) + (y + 1) * (y + 1) -> a = x.
Proof. intros Hx Ha H1 H2. assert (~ a < x) by nia. assert (~ x < a) by nia. lia. Qed.

Lemma octant_rows r x y a b : 0 <= x -> 0 <= y -> y <= x ->
  x * x + (y + 1) * (y + 1) <= r * r + 1 < (x + 1) * (x + 1) + (y + 1) * (y + 1) ->
  (octant r a b /\ y <= b <-> (a = x /\ b = y) \/ (octant r a b /\ y + 1 <= b)).
Proof.
  intros Hx Hy Hyx Hr. split.
  - intros [HO Hb]. destruct (decide (b = y)) as [->|]; [left|right; split; [exact HO|lia]].
    destruct HO as [H1 H2]. split; [|reflexivity]. apply (octant_row r a x y); lia.
  - intros [[-> ->]|[HO Hb]]; [|split; [exact HO|lia]]. split; [split; lia|lia].
Qed.

(** The running error is the distance to the circle, so it is positive
    exactly when the column is one too far out. *)
Definition circle_inv (r x y err : Z) : Prop :=
  r * r + 1 < (x + 1) * (x + 1) + (y + 1) * (y + 1) /\
  (y <= x -> err = x * x + (y + 1) * (y + 1) - (r * r + 1) /\ - (2 * x + 1) < err <= 0).

Lemma circle_inv_stay r x y err : 0 <= y -> y <= x -> circle_inv r x y err -> err + (2 * (y + 1) + 1) <= 0 ->
  circle_inv r x (y + 1) (err + (2 * (y + 1) + 1)).
Proof. intros Hy Hyx [Hmax Herr] Hle. destruct (Herr Hyx) as [He Hb]. split; [nia|]. intros _. split; [nia|lia]. Qed.

Lemma circle_inv_in r x y err : 0 <= y -> y <= x -> circle_inv r x y err -> 0 < err + (2 * (y + 1) + 1) ->
  circle_inv r (x - 1) (y + 1) (err + (2 * (y + 1) + 1) - (2 * (x - 1) + 1)).
Proof. intros Hy Hyx [Hmax Herr] Hle. destruct (Herr Hyx) as [He Hb]. split; [nia|]. intros Hin. split; [nia|lia]. Qed.

Lemma circle_loop_paints fb color cx cy r : word color -> coord cx -> coord cy -> r < 2 ^ 29 ->
  forall fuel x y err m, -1 <= x <= r -> 0 <= y -> x - y + 1 < Z.of_nat fuel -> (0 < fuel)%nat ->
  circle_inv r x y err ->
  exists m', circle_loop fuel fb cx cy x y err color m = Some m' /\
    paints fb color (fun px py =>
      (octant r (Z.abs (px - cx)) (Z.abs (py - cy)) /\ y <= Z.abs (py - cy)) \/
      (octant r (Z.abs (py - cy)) (Z.abs (px - cx)) /\ y <= Z.abs (px - cx))) m m'.
Proof.
  intros Hc Hcx Hcy Hr.
  induction fuel as [|f IH]; intros x y err m Hx Hy Hf Hpos Hinv; [lia|]. cbn [circle_loop].
  destruct (Z.leb_spec y x) as [Hyx|Hyx].
  - pose proof Hinv as [Hmax Herr]. destruct (Herr Hyx) as [He Hb].
    replace (err <=? 0) with true by lia. rewrite (i32_small (err + _)) by lia.
    set (m1 := plot fb color _ m).
    assert (Hstep : exists x' err', x - 1 <= x' <= x /\ circle_inv r x' (y + 1) err' /\
      (if 0 <? err + (2 * (y + 1) + 1)
       then circle_loop f fb cx cy (x - 1) (y + 1) (i32 (err + (2 * (y + 1) + 1) - (2 * (x - 1) + 1))) color m1
       else circle_loop f fb cx cy x (y + 1) (err + (2 * (y + 1) + 1)) color m1) = circle_loop f fb cx cy x' (y + 1) err' color m1).
    { destruct (Z.ltb_spec 0 (err + (2 * (y + 1) + 1))); eexists _, _; (split; [|split; [|reflexivity]]); try lia.
      - rewrite i32_small by lia. apply circle_inv_in; assumption || lia.
      - apply circle_inv_stay; assumption || lia. }
    destruct Hstep as (x' & err' & Hx' & Hinv' & ->).
    destruct (IH x' (y + 1) err' m1) as (m' & E & Hp); [lia..|exact Hinv'|].
    exists m'. split; [exact E|].
    eapply paints_ext; [|eapply paints_app; [apply plot_paints, Hc|exact Hp]].
    intros px py _. cbv beta. rewrite circle_points_iff by (auto; lia).
    rewrite !(octant_rows r x y) by lia. tauto.
  - exists m. split; [reflexivity|]. destruct Hinv as [Hmax _].
    eapply paints_ext; [|apply paints_nil]. intros px py _. cbv beta.
    assert (Hno : forall a b, octant r a b /\ y <= b -> False) by (intros a b [[H1 H2] H3]; nia).
    split; [tauto|]. intros [H|H]; exact (Hno _ _ H).
Qed.

Lemma fb_draw_circle_run fb m cx cy r color : coord cx -> coord cy -> r < 2 ^ 29 -> word color ->
  exists m', fb_draw_circle fb m cx cy r color = Some m' /\
    paints fb color (fun x y => 0 <= r /\ on_circle cx cy r x y) m m'.
Proof.
  intros Hcx Hcy Hr Hc. unfold fb_draw_circle. destruct (Z.ltb_spec r 0) as [Hn|Hn].
  { exists m. cbn [circle_loop]. replace (0 <=? r) with false by lia. split; [reflexivity|].
    eapply paints_ext; [|apply paints_nil]. intros px py _. cbv beta. split; [tauto|lia]. }
  destruct (circle_loop_paints fb color cx cy r Hc Hcx Hcy Hr (S (Z.to_nat (r + 1))) r 0 0 m)
    as (m' & E & Hp); [lia..|split; [nia|intros _; split; lia]|].
  exists m'. split; [exact E|]. eapply paints_ext; [|exact Hp]. intros px py _. cbv beta. unfold on_circle.
  split; [|intros [_ [H|H]]; [left|right]; (split; [exact H|lia])]. tauto.
Qed.

(** The pixels of a circle are symmetric under reflection in both axes and in
    the diagonals, lie in the square of the radius and contain the four
    extreme points. *)
Lemma on_circle_sym cx cy r u v : on_circle cx cy r (cx + u) (cy + v) ->
  on_circle cx cy r (cx - u) (cy + v) /\ on_circle cx cy r (cx + u) (cy - v) /\ on_circle cx cy r (cx + v) (cy + u).
Proof.
  unfold on_circle. replace (Z.abs (cx + u - cx)) with (Z.abs u) by lia. replace (Z.abs (cy + v - cy)) with (Z.abs v) by lia.
  replace (Z.abs (cx - u - cx)) with (Z.abs u) by lia. replace (Z.abs (cy - v - cy)) with (Z.abs v) by lia.
  replace (Z.abs (cx + v - cx)) with (Z.abs v) by lia. replace (Z.abs (cy + u - cy)) with (Z.abs u) by lia. tauto.
Qed.

Lemma on_circle_square cx cy r x y : 0 <= r -> on_circle cx cy r x y -> Z.abs (x - cx) <= r /\ Z.abs (y - cy) <= r.
Proof. intros Hr [[H1 H2]|[H1 H2]]; split; nia. Qed.

Lemma on_circle_extreme cx cy r : 0 <= r -> on_circle cx cy r (cx + r) cy.
Proof.
  intros Hr. left. replace (Z.abs (cx + r - cx)) with r by lia. replace (Z.abs (cy - cy)) with 0 by lia.
  split; [lia|]. nia.
Qed.

(** [fb_draw_circle] terminates for every radius and paints exactly the
    on-screen pixels of the circle: in every row [b] of an octant the pixel
    furthest out with [a^2 + (b + 1)^2 <= r^2 + 1], and its reflections.  A
    negative radius paints nothing, and no byte outside the array changes. *)
Theorem fb_draw_circle_correct fb m cx cy r color :
  coord cx -> coord cy -> r < 2 ^ 29 -> word color ->
  exists m', fb_draw_circle fb m cx cy r color = Some m' /\
    paints fb color (fun x y => 0 <= r /\ on_circle cx cy r x y) m m'.
Proof. apply fb_draw_circle_run. Qed.

Lemma fb_draw_circle_correct_witness :
  exists m', fb_draw_circle 4096 (fun _ => 0) 10 20 5 255 = Some m' /\
    paints 4096 255 (fun x y => 0 <= 5 /\ on_circle 10 20 5 x y) (fun _ => 0) m'.
Proof. apply (fb_draw_circle_correct 4096 (fun _ => 0) 10 20 5 255); closed. Defined.

(** ** Compressed sprites *)

(** The format: [rle_stream m a e px] when the bytes from [a] up to [e] encode
    the pixels [px]: runs (1 to 127 copies of one pixel), literal blocks (1 to
    128 pixels), and the end mark 0xFF. *)
Inductive rle_stream (m : mem) : Z -> Z -> list Z -> Prop :=
| rle_end a : m a = 255 -> rle_stream m a (a + 1) []
| rle_runs a e n c px :
    (1 <= n <= 127)%nat -> m a = 127 + Z.of_nat n -> load m (a + 1) 4 = c -> word c ->
    rle_stream m (a + 5) e px -> rle_stream m a e (replicate n c ++ px)
| rle_lits a e cs px :
    (1 <= length cs <= 128)%nat -> m a = Z.of_nat (length cs) - 1 ->
    (forall i c, cs !! i = Some c -> load m (a + 1 + 4 * Z.of_nat i) 4 = c /\ word c) ->
    rle_stream m (a + 1 + 4 * Z.of_nat (length cs)) e px -> rle_stream m a e (cs ++ px).

(** [m'] is [m] with the pixels [px] stored from index [k] of the array [dst]. *)
Record stored (dst k : Z) (px : list Z) (m m' : mem) : Prop := {
  stored_px : forall i c, px !! i = Some c -> load m' (dst + 4 * (k + Z.of_nat i)) 4 = c;
  stored_off : forall a, a < dst + 4 * k \/ dst + 4 * (k + Z.of_nat (length px)) <= a -> m' a = m a
}.

Lemma stored_nil dst k m : stored dst k [] m m.
Proof. split; [intros i c H; rewrite lookup_nil in H; discriminate|auto]. Qed.

Lemma stored_app dst k px px' m1 m2 m3 :
  stored dst k px m1 m2 -> stored dst (k + Z.of_nat (length px)) px' m2 m3 ->
  stored dst k (px ++ px') m1 m3.
Proof.
  intros [S1 O1] [S2 O2]. split.
  - intros i c Hi. apply lookup_app_Some in Hi as [Hi|[Hl Hi]].
    + rewrite <- (S1 i c Hi). apply load_ext. intros a Ha. apply lookup_lt_Some in Hi. apply O2. lia.
    + rewrite <- (S2 _ c Hi). f_equal. lia.
  - intros a Ha. rewrite length_app in Ha. rewrite O2, O1; [reflexivity|lia..].
Qed.

Lemma stored_one dst k c m : word c -> stored dst k [c] m (store_le m (dst + 4 * k) 4 c).
Proof.
  intros Hc. split.
  - intros [|i] c' H; [|discriminate]. injection H as <-. rewrite Z.add_0_r.
    rewrite load_store_le_eq by apply Hc. apply Z.mod_small, Hc.
  - intros a Ha. simpl in Ha. apply store_le_outside. lia.
Qed.

Lemma rle_run_spec dst max c : word c -> forall n m k, k <= max ->
  exists m', rle_run n m dst k max c = (m', k + Z.of_nat (length (take (Z.to_nat (max - k)) (replicate n c)))) /\
    stored dst k (take (Z.to_nat (max - k)) (replicate n c)) m m'.
Proof.
  intros Hc. induction n as [|n IH]; intros m k Hk; simpl.
  - exists m. rewrite take_nil, Z.add_0_r. split; [reflexivity|apply stored_nil].
  - destruct (Z.ltb_spec k max).
    + replace (Z.to_nat (max - k)) with (S (Z.to_nat (max - (k + 1)))) by lia.
      destruct (IH (store_le m (dst + 4 * k) 4 c) (k + 1)) as (m' & E & Hs); [lia|].
      exists m'. rewrite E. simpl. split; [f_equal; lia|].
      apply (stored_app dst k [c] _ m (store_le m (dst + 4 * k) 4 c)); [apply stored_one, Hc|exact Hs].
    + replace (Z.to_nat (max - k)) with 0%nat by lia. exists m. simpl. rewrite Z.add_0_r.
      split; [reflexivity|apply stored_nil].
Qed.

Lemma rle_lit_spec dst max : forall cs m src k, k <= max ->
  (forall i c, cs !! i = Some c -> load m (src + 4 * Z.of_nat i) 4 = c /\ word c) ->
  src + 4 * Z.of_nat (length cs) <= dst + 4 * k \/ dst + 4 * max <= src ->
  exists m', let px := take (Z.to_nat (max - k)) cs in
    rle_lit (length cs) m src dst k max =
      (m', k + Z.of_nat (length px), src + 4 * Z.of_nat (length px)) /\ stored dst k px m m'.
Proof.
  induction cs as [|c cs IH]; intros m src k Hk Hcs Hd; simpl.
  - exists m. rewrite take_nil. simpl. rewrite !Z.add_0_r. split; [reflexivity|apply stored_nil].
  - destruct (Z.ltb_spec k max).
    + destruct (Hcs 0%nat c eq_refl) as [Hl Hc]. simpl in Hl. rewrite Z.add_0_r in Hl. rewrite Hl.
      replace (Z.to_nat (max - k)) with (S (Z.to_nat (max - (k + 1)))) by lia.
      destruct (IH (store_le m (dst + 4 * k) 4 c) (src + 4) (k + 1)) as (m' & E & Hs); [lia| |simpl in Hd; lia|].
      { intros i c' Hi. destruct (Hcs (S i) c' Hi) as [Hl' Hw']. split; [|exact Hw'].
        rewrite <- Hl'. apply lookup_lt_Some in Hi. simpl in Hd.
        rewrite load_store_le_ne by lia. f_equal. lia. }
      exists m'. cbv zeta in E. rewrite E. simpl. split; [f_equal; [f_equal|]; lia|].
      apply (stored_app dst k [c] _ m (store_le m (dst + 4 * k) 4 c)); [apply stored_one, Hc|exact Hs].
    + replace (Z.to_nat (max - k)) with 0%nat by lia. exists m. simpl. rewrite !Z.add_0_r.
      split; [reflexivity|apply stored_nil].
Qed.

Lemma rle_stream_lt m a e px : rle_stream m a e px -> a < e.
Proof. induction 1; lia. Qed.

Lemma land_127_128 b : 0 <= b < 256 -> b / 128 * 128 + Z.land b 127 = b /\
  Z.land b 127 = b mod 128 /\ (Z.land b 128 =? 0) = (b <? 128).
Proof.
  intros Hb. assert (H1 : Z.land b 127 = b mod 128) by (change 127 with (Z.ones 7); apply Z.land_ones; lia).
  rewrite H1. split; [dlia|]. split; [reflexivity|].
  assert (H2 : forallb (fun b => Bool.eqb (Z.land b 128 =? 0) (b <? 128)) (seqZ 0 256) = true)
    by (vm_compute; reflexivity).
  rewrite forallb_forall in H2. apply eqb_prop, H2, list_elem_of_In, elem_of_seqZ. lia.
Qed.

(** A decoded block, possibly cut off at the limit, and then the rest. *)
Lemma rle_block dst max k blk px m m1 f src :
  0 <= k < max -> (0 < f)%nat -> stored dst k (take (Z.to_nat (max - k)) blk) m m1 ->
  (Z.of_nat (length blk) <= max - k ->
   exists m', let k' := k + Z.of_nat (length blk) in
     rle_loop f m1 src dst k' max =
       Some (m', k' + Z.of_nat (length (take (Z.to_nat (max - k')) px))) /\
     stored dst k' (take (Z.to_nat (max - k')) px) m1 m') ->
  exists m', rle_loop f m1 src dst (k + Z.of_nat (length (take (Z.to_nat (max - k)) blk))) max =
      Some (m', k + Z.of_nat (length (take (Z.to_nat (max - k)) (blk ++ px)))) /\
    stored dst k (take (Z.to_nat (max - k)) (blk ++ px)) m m'.
Proof.
  intros Hk Hf S1 Hrest. rewrite take_app.
  destruct (Z.leb_spec (Z.of_nat (length blk)) (max - k)).
  - rewrite (take_ge blk) in * by lia. destruct Hrest as (m' & E & S2); [lia|]. cbv zeta in *.
    exists m'. rewrite E.
    replace (Z.to_nat (max - k) - length blk)%nat with (Z.to_nat (max - (k + Z.of_nat (length blk)))) by lia.
    split; [do 2 f_equal; rewrite length_app; lia|]. eapply stored_app; eassumption.
  - replace (Z.to_nat (max - k) - length blk)%nat with 0%nat by lia. rewrite take_0, app_nil_r.
    exists m1. split; [|exact S1]. rewrite length_take. destruct f; [lia|]. cbn [rle_loop].
    replace (_ <? max) with false by lia. reflexivity.
Qed.

Lemma rle_loop_spec dst max m0 src e px :
  rle_stream m0 src e px -> e <= dst \/ dst + 4 * max <= src ->
  forall m k fuel, (forall x, src <= x < e -> m x = m0 x) -> 0 <= k <= max ->
  max - k < Z.of_nat fuel ->
  exists m', rle_loop fuel m src dst k max =
      Some (m', k + Z.of_nat (length (take (Z.to_nat (max - k)) px))) /\
    stored dst k (take (Z.to_nat (max - k)) px) m m'.
Proof.
  induction 1 as [a E|a e n c px Hn Ea El Hc Hs IH|a e cs px Hn Ea El Hs IH];
    intros Hd m k fuel Hm Hk Hf; (destruct fuel as [|f]; [lia|]); cbn [rle_loop].
  { rewrite take_nil. exists m. rewrite (Hm a), E by lia.
    change (negb (255 =? 255)) with false. rewrite andb_false_r. simpl length. rewrite Z.add_0_r.
    split; [reflexivity|apply stored_nil]. }
  all: pose proof (rle_stream_lt _ _ _ _ Hs) as Hlt; rewrite (Hm a), Ea by lia;
    destruct (Z.ltb_spec k max);
    [|replace (Z.to_nat (max - k)) with 0%nat by lia; rewrite take_0; exists m; simpl length;
      rewrite Z.add_0_r; split; [reflexivity|apply stored_nil]].
  - destruct (land_127_128 (127 + Z.of_nat n)) as (_ & H2 & H3); [lia|].
    replace (127 + Z.of_nat n =? 255) with false by lia. cbn [negb andb]. rewrite H3.
    replace (127 + Z.of_nat n <? 128) with false by lia. cbn [negb].
    replace (Z.to_nat (Z.land (127 + Z.of_nat n) 127 + 1)) with n by (rewrite H2; dlia).
    rewrite (load_ext 4 m m0) by (intros; apply Hm; lia). rewrite El.
    destruct (rle_run_spec dst max c Hc n m k) as (m1 & -> & S1); [lia|].
    replace (a + 1 + 4) with (a + 5) by lia. apply rle_block; [lia|lia|exact S1|].
    intros Hlen. apply IH; [lia| |rewrite length_replicate in *; lia..].
    intros x Hx. rewrite (stored_off _ _ _ _ _ S1); [apply Hm; lia|]. rewrite length_take in *. lia.
  - destruct (land_127_128 (Z.of_nat (length cs) - 1)) as (_ & H2 & H3); [lia|].
    replace (Z.of_nat (length cs) - 1 =? 255) with false by lia. cbn [negb andb]. rewrite H3.
    replace (Z.of_nat (length cs) - 1 <? 128) with true by lia. cbn [negb].
    replace (Z.to_nat (Z.land (Z.of_nat (length cs) - 1) 127 + 1)) with (length cs) by (rewrite H2; dlia).
    destruct (rle_lit_spec dst max cs m (a + 1) k) as (m1 & E1 & S1); [lia| |lia|].
    { intros i c Hi. pose proof (lookup_lt_Some _ _ _ Hi).
      rewrite (load_ext 4 m m0) by (intros; apply Hm; lia). auto. }
    cbv zeta in E1. rewrite E1. apply rle_block; [lia|lia|exact S1|].
    intros Hlen. rewrite (take_ge cs) by lia. apply IH; [lia| |lia..].
    intros x Hx. rewrite (stored_off _ _ _ _ _ S1); [apply Hm; lia|]. rewrite length_take in *. lia.
Qed.

(** C39. Decompression inverts the sprite format: a stream that encodes [px]
    decodes to the first [max_pixels] pixels of [px], the count says how many,
    and nothing but those destination pixels is written. *)
Theorem fb_rle_decompress_correct m src e px dst max_pixels :
  rle_stream m src e px -> src <> 0 -> dst <> 0 -> 0 <= max_pixels ->
  e <= dst \/ dst + 4 * max_pixels <= src ->
  exists m', fb_rle_decompress m src dst max_pixels =
      Some (m', Z.min max_pixels (Z.of_nat (length px))) /\
    stored dst 0 (take (Z.to_nat max_pixels) px) m m'.
Proof.
  intros Hs Hsrc Hdst Hmax Hd. unfold fb_rle_decompress.
  replace ((src =? 0) || (dst =? 0)) with false by lia.
  destruct (rle_loop_spec dst max_pixels m src e px Hs Hd m 0 (S (Z.to_nat max_pixels)))
    as (m' & E & S); [auto|lia|lia|].
  rewrite Z.sub_0_r in *. exists m'. rewrite E. split; [|exact S].
  do 2 f_equal. rewrite length_take. lia.
Qed.

(** A run of three red pixels, a literal blue one, the end mark. *)
Definition ex_sprite : mem :=
  let m := store_le (store (fun _ => 255) 100 130) 101 4 16711680 in
  store_le (store m 105 0) 106 4 255.

Lemma ex_sprite_stream : rle_stream ex_sprite 100 111 (replicate 3 16711680 ++ [255] ++ []).
Proof.
  apply (rle_runs _ 100 111 3 16711680); [lia|reflexivity|reflexivity|closed|].
  apply (rle_lits _ 105 111 [255]); [simpl; lia|reflexivity| |].
  - intros [|i] c H; [|discriminate]. injection H as <-. split; [reflexivity|closed].
  - apply (rle_end _ 110). reflexivity.
Qed.

Lemma fb_rle_decompress_correct_witness :
  exists m', fb_rle_decompress ex_sprite 100 4096 10 = Some (m', Z.min 10 4) /\
    stored 4096 0 (take (Z.to_nat 10) (replicate 3 16711680 ++ [255] ++ [])) ex_sprite m'.
Proof.
  apply (fb_rle_decompress_correct ex_sprite 100 111 _ 4096 10 ex_sprite_stream); [closed..|].
  left. closed.
Defined.

(** The ASCII preview never reads outside its character table: every pixel
    value selects one of the ten characters. *)
Theorem fb_ascii_preview_safe fb m row c :
  row ∈ fb_print_ascii_preview fb m -> c ∈ row -> c <> None.
Proof.
  unfold fb_print_ascii_preview, fb_print_ascii_now. intros Hr Hc ->.
  apply list_elem_of_fmap in Hr as (ry & -> & _). apply list_elem_of_fmap in Hc as (rx & Hc & _).
  symmetry in Hc. apply lookup_ge_None in Hc. revert Hc.
  generalize (fb_get fb m (ry * (FB_HEIGHT / 16) * FB_WIDTH + rx * (FB_WIDTH / 64))). intros v.
  unfold ascii_index. change 255 with (Z.ones 8) at 1 2 3. rewrite !Z.land_ones by lia.
  change (2 ^ 8) with 256. change (length ascii_map) with 10%nat.
  set (r := _ mod 256). set (g := _ mod 256). set (b := v mod 256).
  assert (0 <= r < 256 /\ 0 <= g < 256 /\ 0 <= b < 256) by (unfold r, g, b; repeat split; apply Z.mod_pos_bound; lia).
  change (Z.of_nat 10 - 1) with 9. dlia.
Qed.

Lemma fb_ascii_preview_safe_witness :
  Some 64 ∈ default [] (fb_print_ascii_preview 4096 (fun _ => 255) !! 0%nat) /\ Some 64 <> None.
Proof.
  assert (H : Some 64 ∈ default [] (fb_print_ascii_preview 4096 (fun _ => 255) !! 0%nat))
    by (apply list_elem_of_lookup; exists 0%nat; vm_compute; reflexivity).
  split; [exact H|].
  eapply (fb_ascii_preview_safe 4096 (fun _ => 255)); [|exact H].
  apply list_elem_of_lookup. exists 0%nat. vm_compute. reflexivity.
Defined.
