(* ===== verification/DebugGraph.v ===== *)
(** * The debug sampler

    [kernel/debug_graph.c]: a circular buffer of the last 128 samples and the
    ASCII dump of them.  [ring] relates the buffer to the abstract history of
    recorded samples. *)

From S2P Require Import Prelude.

Definition DBG_SAMPLES : Z := 128.
Definition DBG_ASCII_WIDTH : Z := 60.

(** [struct dbg_sample]. *)
Record sample : Type := Sample { when_ : Z; value : Z }.

Record dbg : Type := Dbg {
  samples : list sample;
  head : Z;
  count : Z;
  dbg_locked : bool;
  dbg_inited : bool
}.

Definition dbg_lock : lens dbg bool :=
  Lens dbg_locked (fun b s => Dbg (samples s) (head s) (count s) b (dbg_inited s)).

(** The loop that zeroes [samples[i]] for [i < DBG_SAMPLES], with [head] and
    [count]. *)
Definition dbg_reset (s : dbg) : dbg :=
  Dbg ((fun _ => Sample 0 0) <$> samples s) 0 0 (dbg_locked s) (dbg_inited s).

Definition dbg_init : M dbg unit :=
  let! inited := gets dbg_inited in
  if inited : bool then ret tt
  else
    modify (set dbg_lock false) ;;
    acquire dbg_lock ;;
    modify dbg_reset ;;
    modify (fun s => Dbg (samples s) (head s) (count s) (dbg_locked s) true) ;;
    release dbg_lock.

Definition dbg_clear : M dbg unit :=
  acquire dbg_lock ;;
  modify dbg_reset ;;
  release dbg_lock.

Definition dbg_record (ticks v : Z) : M dbg unit :=
  let! inited := gets dbg_inited in
  when (negb inited) dbg_init ;;
  acquire dbg_lock ;;
  modify (fun s =>
    Dbg (<[Z.to_nat (head s) := Sample ticks v]> (samples s))
        ((head s + 1) mod DBG_SAMPLES)
        (if count s <? DBG_SAMPLES then count s + 1 else count s)
        (dbg_locked s) (dbg_inited s)) ;;
  release dbg_lock.

(** One line of the dump: time stamp, value, number of stars. *)
Record dbg_line : Type := Line { l_when : Z; l_value : Z; l_len : Z }.

Definition dbg_at (s : dbg) (idx_start i : Z) : sample :=
  default (Sample 0 0) (samples s !! Z.to_nat ((idx_start + i) mod DBG_SAMPLES)).

Definition dbg_maxv (s : dbg) (idx_start : Z) : Z :=
  foldl (fun maxv i => let v := value (dbg_at s idx_start i) in if maxv <? v then v else maxv)
        1 (seqZ 0 (count s)).

Definition bar_len (v maxv : Z) : Z :=
  let len := Z.quot (i32 (v * DBG_ASCII_WIDTH)) maxv in
  let len := if len <? 0 then 0 else len in
  if DBG_ASCII_WIDTH <? len then DBG_ASCII_WIDTH else len.

(** What is printed: [None] for "no samples", else the maximum and the lines. *)
Definition dbg_dump_ascii : M dbg (option (Z * list dbg_line)) :=
  let! inited := gets dbg_inited in
  when (negb inited) dbg_init ;;
  acquire dbg_lock ;;
  let! n := gets count in
  if n =? 0 then release dbg_lock ;; ret None
  else
    let! out := gets (fun s =>
      let idx_start := (head s - count s + DBG_SAMPLES) mod DBG_SAMPLES in
      let maxv := dbg_maxv s idx_start in
      (maxv, (fun i => let sm := dbg_at s idx_start i in
                       Line (when_ sm) (value sm) (bar_len (value sm) maxv)) <$> seqZ 0 (count s))) in
    release dbg_lock ;;
    ret (Some out).

(** ** The promise: the last 128 samples, oldest first *)

Definition retained (hs : list sample) : list sample := drop (length hs - 128) hs.

Record ring (s : dbg) (hs : list sample) : Prop := {
  ring_len : length (samples s) = 128%nat;
  ring_head : 0 <= head s < 128;
  ring_count : count s = Z.of_nat (length (retained hs));
  ring_at : forall i sm, retained hs !! i = Some sm ->
    samples s !! Z.to_nat ((head s - count s + Z.of_nat i) mod 128) = Some sm;
  ring_ready : dbg_inited s = true;
  ring_unlocked : dbg_locked s = false
}.

Lemma retained_len hs : length (retained hs) = Nat.min (length hs) 128.
Proof. unfold retained. rewrite length_drop. lia. Qed.

Lemma retained_snoc hs sm :
  retained (hs ++ [sm]) = drop (length (retained hs) - 127) (retained hs) ++ [sm].
Proof.
  unfold retained. rewrite length_app, length_drop, drop_drop. simpl.
  rewrite drop_app_le by lia. f_equal. f_equal. lia.
Qed.

Lemma dbg_record_ring s hs ticks v :
  ring s hs ->
  exists s', dbg_record ticks v s = Ret tt s' /\ ring s' (hs ++ [Sample ticks v]).
Proof.
  intros [Hl Hh Hc Ha Hr Hu]. unfold dbg_record. rewrite bind_gets, Hr. simpl.
  unfold bind, acquire, modify, release, ret. simpl. rewrite Hu. simpl.
  eexists. split; [reflexivity|].
  pose proof (retained_len hs) as Hn. pose proof (retained_len (hs ++ [Sample ticks v])) as Hn'.
  rewrite length_app in Hn'. simpl in Hn'.
  assert (Hcnt : (if count s <? DBG_SAMPLES then count s + 1 else count s) =
    Z.of_nat (length (retained (hs ++ [Sample ticks v])))) by (unfold DBG_SAMPLES; case_test; lia).
  split; simpl; auto.
  - rewrite length_insert. exact Hl.
  - unfold DBG_SAMPLES. dlia.
  - intros i sm Hi. rewrite Hcnt. unfold DBG_SAMPLES. rewrite retained_snoc in Hi.
    apply lookup_app_Some in Hi as [Hi|[Hge Hi]].
    + pose proof (lookup_lt_Some _ _ _ Hi) as Hlt. rewrite length_drop in Hlt.
      rewrite lookup_drop in Hi. specialize (Ha _ _ Hi). rewrite list_lookup_insert_ne.
      * rewrite <- Ha. f_equal. f_equal. dlia.
      * dlia.
    + rewrite length_drop in Hge. apply list_lookup_singleton_Some in Hi as [Hi <-].
      rewrite length_drop in Hi.
      replace (Z.to_nat _) with (Z.to_nat (head s)) by dlia.
      apply list_lookup_insert_eq. lia.
Qed.

Lemma dbg_init_ring s :
  length (samples s) = 128%nat -> dbg_inited s = false ->
  exists s', dbg_init s = Ret tt s' /\ ring s' [].
Proof.
  intros Hl Hi. unfold dbg_init. rewrite bind_gets, Hi.
  unfold bind, acquire, modify, release, ret. simpl. eexists. split; [reflexivity|].
  split; simpl; auto; [rewrite length_fmap; exact Hl|lia|].
  intros i sm H. discriminate.
Qed.

(** Recording a list of samples in order. *)
Fixpoint record_all (l : list sample) : M dbg unit :=
  match l with
  | [] => ret tt
  | sm :: l' => dbg_record (when_ sm) (value sm) ;; record_all l'
  end.

Lemma record_all_ring l : forall s hs, ring s hs ->
  exists s', record_all l s = Ret tt s' /\ ring s' (hs ++ l).
Proof.
  induction l as [|[t v] l IH]; intros s hs Hr; cbn [record_all].
  - exists s. rewrite app_nil_r. auto.
  - destruct (dbg_record_ring s hs t v Hr) as (s1 & E & H1).
    rewrite (bind_ret_l _ _ _ _ _ E). destruct (IH s1 _ H1) as (s' & E' & H').
    exists s'. rewrite <- app_assoc in H'. auto.
Qed.

Lemma bar_len_bound v maxv : 0 <= bar_len v maxv <= 60.
Proof. unfold bar_len, DBG_ASCII_WIDTH. repeat case_test; lia. Qed.

Lemma foldl_max {A} (f : A -> Z) l : forall m0,
  let r := foldl (fun maxv i => let v := f i in if maxv <? v then v else maxv) m0 l in
  m0 <= r /\ forall i, i ∈ l -> f i <= r.
Proof.
  induction l as [|a l IH]; intros m0; simpl.
  - split; [lia|]. intros i Hi. apply elem_of_nil in Hi. contradiction.
  - destruct (Z.ltb_spec m0 (f a)).
    all: edestruct IH as [H1 H2]; (split; [etransitivity; [|exact H1]; lia|]).
    all: intros i Hi; apply elem_of_cons in Hi as [->|Hi]; [etransitivity; [|exact H1]; lia|auto].
Qed.

(** The samples the dump visits are the retained ones, oldest first. *)
Lemma dump_order s hs : ring s hs ->
  let start := (head s - count s + DBG_SAMPLES) mod DBG_SAMPLES in
  dbg_at s start <$> seqZ 0 (count s) = retained hs.
Proof.
  intros [Hl Hh Hc Ha Hr Hu] start. apply list_eq. intros i.
  rewrite list_lookup_fmap. destruct (retained hs !! i) as [sm|] eqn:Ei.
  - pose proof (lookup_lt_Some _ _ _ Ei) as Hi. rewrite lookup_seqZ_lt by lia. simpl.
    unfold dbg_at, start, DBG_SAMPLES. specialize (Ha i sm Ei).
    replace (((head s - count s + 128) mod 128 + (0 + Z.of_nat i)) mod 128)
      with ((head s - count s + Z.of_nat i) mod 128) by dlia.
    rewrite Ha. reflexivity.
  - apply lookup_ge_None in Ei. rewrite lookup_seqZ_ge by lia. reflexivity.
Qed.

(** The sampler keeps the last 128 samples: after recording any sequence of
    samples, the dump shows exactly the most recent ones, oldest first, with
    every bar between 0 and 60 stars and the printed maximum at least every
    value. *)
Theorem dbg_dump_correct s hs l :
  ring s hs ->
  exists s1 s2 out, record_all l s = Ret tt s1 /\ dbg_dump_ascii s1 = Ret out s2 /\
    ring s2 (hs ++ l) /\
    match out with
    | None => hs ++ l = []
    | Some (maxv, lines) =>
        (fun ln => Sample (l_when ln) (l_value ln)) <$> lines = retained (hs ++ l) /\
        Forall (fun ln => 0 <= l_len ln <= DBG_ASCII_WIDTH /\ l_value ln <= maxv) lines
    end.
Proof.
  intros Hr. destruct (record_all_ring l s hs Hr) as (s1 & E1 & H1).
  pose proof (dump_order s1 _ H1) as Ho. cbv zeta in Ho. pose proof H1 as [Hl Hh Hc Ha Hrd Hu].
  assert (Hs2 : set dbg_lock false (set dbg_lock true s1) = s1) by (destruct s1; simpl in *; congruence).
  exists s1, s1. unfold dbg_dump_ascii. rewrite bind_gets, Hrd.
  unfold bind, acquire, release, gets, ret. simpl. rewrite Hu. simpl in *.
  destruct (Z.eqb_spec (count s1) 0) as [E|E]; simpl; rewrite Hs2; eexists; (split; [exact E1|]);
    (split; [reflexivity|]); (split; [exact H1|]).
  - rewrite retained_len in Hc. destruct (hs ++ l); [reflexivity|simpl in Hc; lia].
  - split.
    + rewrite <- Ho. rewrite <- list_fmap_compose. apply list_fmap_ext. intros i x _.
      unfold dbg_at. simpl. destruct (default _ _). reflexivity.
    + apply Forall_fmap, Forall_forall. intros i Hi. simpl. split; [apply bar_len_bound|].
      apply (foldl_max (fun i => value (dbg_at _ _ i)) (seqZ 0 (count s1)) 1). exact Hi.
Qed.

Definition dbg_boot : dbg := Dbg (replicate 128 (Sample 0 0)) 0 0 false true.

Lemma dbg_boot_ring : ring dbg_boot [].
Proof. split; simpl; auto; [lia|]. intros i sm H. discriminate. Qed.

Lemma dbg_dump_correct_witness :
  exists s1 s2 out, record_all (replicate 130 (Sample 3 7)) dbg_boot = Ret tt s1 /\
    dbg_dump_ascii s1 = Ret out s2 /\
    ring s2 ([] ++ replicate 130 (Sample 3 7)) /\
    match out with
    | None => [] ++ replicate 130 (Sample 3 7) = []
    | Some (maxv, lines) =>
        (fun ln => Sample (l_when ln) (l_value ln)) <$> lines = retained ([] ++ replicate 130 (Sample 3 7)) /\
        Forall (fun ln => 0 <= l_len ln <= DBG_ASCII_WIDTH /\ l_value ln <= maxv) lines
    end.
Proof. apply (dbg_dump_correct dbg_boot [] _ dbg_boot_ring). Defined.
