(* ===== verification/Animation.v ===== *)
(** * The kernel animation

    [kernel/animation.c] (a rectangle that bounces along the screen), the timer
    hook [anim_tick] of [kernel/trap.c] and the system calls of
    [kernel/sysproc.c] that control it.  The theorems give the position after
    any number of frames in closed form, show that the screen always shows
    exactly the rectangle at that position, and that frames are paced by the
    configured number of ticks. *)

From S2P Require Import Prelude Fb DebugGraph.

(** [anim_frame_state_t]. *)
Record frame_state : Type := FrameState {
  last_tick : Z; target_ticks : Z; frame_count : Z; delta_time : Z
}.

(** The static variables of [animation.c], [sysproc.c] and [trap.c]. *)
Record anim : Type := Anim {
  ax : Z; ay : Z; adx : Z; aw : Z; ah : Z;
  prev_x : Z; prev_y : Z; frame_no : Z;
  anim_frame_state : frame_state;
  animation_enabled : bool;
  anim_ticks_per_frame : Z;
  anim_tick_counter : Z
}.

Definition anim_boot : anim :=
  Anim 0 50 1 20 12 0 50 0 (FrameState 0 0 0 0) false 10 0.

(** [animation_init] after [fb_init]. *)
Definition animation_init (fb : Z) (m : mem) (a : anim) : mem * anim :=
  (fb_init fb m,
   Anim (ax a) (ay a) (adx a) (aw a) (ah a) (prev_x a) (prev_y a) (frame_no a)
        (FrameState 0 1 0 0) (animation_enabled a) (anim_ticks_per_frame a) (anim_tick_counter a)).

Definition erase_previous (fb : Z) (m : mem) (a : anim) : mem :=
  fb_draw_rect fb m (prev_x a) (prev_y a) (aw a) (ah a) 0.

Definition animation_update (a : anim) : anim :=
  let frame_no' := i32 (frame_no a + 1) in
  let x := i32 (ax a + adx a) in
  let tpf := if anim_ticks_per_frame a <=? 0 then 1 else anim_ticks_per_frame a in
  let '(x', dx') :=
    if (x <? 0) || (fb_width <=? i32 (x + aw a))
    then (i32 (x + i32 (- adx a)), i32 (- adx a)) else (x, adx a) in
  Anim x' (ay a) dx' (aw a) (ah a) (ax a) (ay a) frame_no'
       (anim_frame_state a) (animation_enabled a) tpf (anim_tick_counter a).

Definition draw_next_frame (fb : Z) (m : mem) (a : anim) : mem :=
  let m := erase_previous fb m a in
  let m := fb_draw_rect fb m (ax a) (ay a) (aw a) (ah a) 16719904 in
  fb_print_ascii_if_needed m.

Definition set_counter (c : Z) (a : anim) : anim :=
  Anim (ax a) (ay a) (adx a) (aw a) (ah a) (prev_x a) (prev_y a) (frame_no a)
       (anim_frame_state a) (animation_enabled a) (anim_ticks_per_frame a) c.
Definition set_enabled (b : bool) (a : anim) : anim :=
  Anim (ax a) (ay a) (adx a) (aw a) (ah a) (prev_x a) (prev_y a) (frame_no a)
       (anim_frame_state a) b (anim_ticks_per_frame a) (anim_tick_counter a).
Definition set_tpf (n : Z) (a : anim) : anim :=
  Anim (ax a) (ay a) (adx a) (aw a) (ah a) (prev_x a) (prev_y a) (frame_no a)
       (anim_frame_state a) (animation_enabled a) n (anim_tick_counter a).

(** What [anim_tick] works on: the animation, the framebuffer's memory, the
    sampler and the tick count. *)
Record asys : Type := Asys { s_anim : anim; s_mem : mem; s_dbg : dbg; s_ticks : Z }.

Definition the_dbg : lens asys dbg :=
  Lens s_dbg (fun d s => Asys (s_anim s) (s_mem s) d (s_ticks s)).
Definition on_anim (f : anim -> anim) : M asys unit :=
  modify (fun s => Asys (f (s_anim s)) (s_mem s) (s_dbg s) (s_ticks s)).
Definition on_screen (f : mem -> anim -> mem) : M asys unit :=
  modify (fun s => Asys (s_anim s) (f (s_mem s) (s_anim s)) (s_dbg s) (s_ticks s)).

Definition anim_tick (fb : Z) : M asys unit :=
  let! enabled := gets (fun s => animation_enabled (s_anim s)) in
  if negb enabled then ret tt
  else
    on_anim (fun a => set_counter (i32 (anim_tick_counter a + 1)) a) ;;
    let! early := gets (fun s => anim_tick_counter (s_anim s) <? anim_ticks_per_frame (s_anim s)) in
    if early : bool then ret tt
    else
      on_anim (set_counter 0) ;;
      on_anim animation_update ;;
      on_screen (draw_next_frame fb) ;;
      let! c := gets (fun s => anim_tick_counter (s_anim s)) in
      let! t := gets s_ticks in
      zoom the_dbg (dbg_record t c).

(** ** System calls: the return value and the effect *)

Definition sys_start_anim : M asys Z := on_anim (set_enabled true) ;; ret 0.
Definition sys_stop_anim : M asys Z := on_anim (set_enabled false) ;; ret 0.

Definition sys_set_speed (speed : Z) : M asys Z :=
  if speed <? 1 then ret (-1)
  else
    let speed := if 1000000 <? speed then 1000000 else speed in
    on_anim (set_tpf speed) ;; ret 0.

Definition sys_view_anim (fb : Z) : M asys (list (list (option Z))) :=
  gets (fun s => fb_print_ascii_preview fb (s_mem s)).

Definition sys_fb_write (fb x y color : Z) : M asys Z :=
  on_screen (fun m _ => fb_draw_pixel fb m x y (u32 color)) ;; ret 0.

Definition sys_fb_clear (fb color : Z) : M asys Z :=
  on_screen (fun m _ => fb_clear fb m (u32 color)) ;; ret 0.

Definition sys_debuggraph : M asys (option (Z * list dbg_line)) := zoom the_dbg dbg_dump_ascii.

(** ** Where the rectangle is *)

(** The horizontal position after [n] frames: a triangle wave between 0 and 107
    that stays two frames at each end. *)
Definition wave (n : Z) : Z := let k := n mod 216 in if k <=? 107 then k else 215 - k.
Definition dir (n : Z) : Z := if n mod 216 <=? 107 then 1 else -1.

(** The animation after [k] frames, [c] ticks into the next one. *)
Definition anim_at (fs : frame_state) (p k c : Z) : anim :=
  Anim (wave k) 50 (dir k) 20 12 (wave (k - 1)) 50 (i32 k) fs true p c.

Lemma wave_bound n : 0 <= wave n <= 107.
Proof. unfold wave. cbv zeta. case_test; dlia. Qed.

Lemma wave_step k :
  wave (k + 1) = let x := wave k + dir k in if (x <? 0) || (108 <=? x) then wave k else x.
Proof. unfold wave, dir. cbv zeta. repeat case_test; dlia. Qed.

Lemma dir_step k :
  dir (k + 1) = let x := wave k + dir k in if (x <? 0) || (108 <=? x) then - dir k else dir k.
Proof. unfold wave, dir. cbv zeta. repeat case_test; dlia. Qed.

Lemma dir_cases k : dir k = 1 \/ dir k = -1.
Proof. unfold dir. case_test; auto. Qed.

Lemma update_at fs p k c : 1 <= p -> animation_update (anim_at fs p k c) = anim_at fs p (k + 1) c.
Proof.
  intros Hp. unfold animation_update, anim_at, fb_width, FB_WIDTH. simpl.
  pose proof (wave_bound k). pose proof (dir_cases k).
  replace (p <=? 0) with false by lia. replace (k + 1 - 1) with k by lia.
  rewrite !(i32_small (wave k + dir k)), !(i32_small (wave k + dir k + 20)), !(i32_small (- dir k)),
    !(i32_small (wave k + dir k + - dir k)) by lia.
  replace (i32 (i32 k + 1)) with (i32 (k + 1)) by wrap_lia.
  rewrite wave_step, dir_step. cbv zeta.
  replace (128 <=? wave k + dir k + 20) with (108 <=? wave k + dir k) by lia.
  destruct (_ || _); f_equal; lia.
Qed.

(** ** What is on the screen *)

Definition red : Z := 16719904.
Definition in_rect (x px py : Z) : bool :=
  (x <=? px) && (px <? x + 20) && (50 <=? py) && (py <? 62).

(** The screen after [k] frames: nothing but the rectangle. *)
Record screen_at (fb k : Z) (m0 m : mem) : Prop := {
  scr_black : forall px py, in_bounds px py = true -> in_rect (wave k) px py = false ->
    pixel fb m px py = 0;
  scr_red : 0 < k -> forall px py, in_bounds px py = true -> in_rect (wave k) px py = true ->
    pixel fb m px py = red;
  scr_off : forall a, a < fb \/ fb + fb_size_bytes <= a -> m a = m0 a
}.

Lemma draw_at fb fs p k c m0 m :
  0 <= k -> screen_at fb k m0 m ->
  screen_at fb (k + 1) m0 (draw_next_frame fb m (anim_at fs p (k + 1) c)).
Proof.
  intros Hk [Hb Hr Ho]. unfold draw_next_frame, erase_previous, fb_print_ascii_if_needed, anim_at. simpl.
  replace (k + 1 - 1) with k by lia. pose proof (wave_bound k). pose proof (wave_bound (k + 1)).
  set (m1 := fb_draw_rect fb m _ _ _ _ 0).
  destruct (rect_paints fb 0 ltac:(unfold word; lia) m (wave k) 50 20 12) as [On1 Off1].
  destruct (rect_paints fb 16719904 ltac:(unfold word; lia) m1 (wave (k + 1)) 50 20 12) as [On2 Off2].
  fold m1 in On1, Off1. rewrite !i32_small in On1, On2 by lia.
  split.
  - intros px py Hp Hi. unfold in_rect in Hi. destruct (On2 px py Hp) as [[H' _]|[_ ->]]; [lia|].
    destruct (On1 px py Hp) as [[_ ->]|[H' ->]]; [reflexivity|]. apply Hb; [exact Hp|]. unfold in_rect. lia.
  - intros _ px py Hp Hi. unfold in_rect in Hi. destruct (On2 px py Hp) as [[_ ->]|[H' _]]; [reflexivity|lia].
  - intros a Ha. rewrite Off2, Off1 by exact Ha. auto.
Qed.

(** ** Pacing *)

(** The calls of the hook, with the tick counts [ts] they find; what happens in
    between only advances the clock. *)
Fixpoint hooks (fb : Z) (ts : list Z) : M asys unit :=
  match ts with
  | [] => ret tt
  | t :: ts => modify (fun s => Asys (s_anim s) (s_mem s) (s_dbg s) t) ;; anim_tick fb ;; hooks fb ts
  end.

(** The frames shown in the calls [ts], and the samples: each has the tick count
    of the call that completed the frame. *)
Definition frames (p : Z) (ts : list Z) : Z := Z.of_nat (length ts) / p.
Definition samples (p : Z) (ts : list Z) : list sample :=
  (fun j => Sample (nth (Z.to_nat ((Z.of_nat j + 1) * p - 1)) ts 0) 0) <$> seq 0 (Z.to_nat (frames p ts)).

Lemma samples_same p ts t : 1 <= p -> frames p (ts ++ [t]) = frames p ts -> samples p (ts ++ [t]) = samples p ts.
Proof.
  intros Hp E. unfold samples. rewrite E. apply list_fmap_ext. intros i j Hj. apply lookup_seq in Hj as [-> Hi]. f_equal. apply app_nth1.
  unfold frames in Hi. assert ((Z.of_nat (0 + i) + 1) * p <= Z.of_nat (length ts)); [|lia].
  assert (Z.of_nat (0 + i) + 1 <= Z.of_nat (length ts) / p) as H by lia. apply (Z.mul_le_mono_nonneg_r _ _ p) in H; [|lia].
  pose proof (Z.mul_div_le (Z.of_nat (length ts)) p ltac:(lia)). lia.
Qed.

Lemma samples_next p ts t : 1 <= p -> Z.of_nat (length ts) + 1 = (frames p ts + 1) * p ->
  samples p (ts ++ [t]) = samples p ts ++ [Sample t 0] /\ frames p (ts ++ [t]) = frames p ts + 1.
Proof.
  intros Hp E. assert (Ef : frames p (ts ++ [t]) = frames p ts + 1).
  { unfold frames at 1. rewrite length_app. simpl.
    replace (Z.of_nat (length ts + 1)) with ((frames p ts + 1) * p) by lia. apply Z.div_mul. lia. }
  split; [|exact Ef]. assert (Hk : 0 <= frames p ts) by (apply Z.div_pos; lia). unfold samples. rewrite Ef.
  replace (Z.to_nat (frames p ts + 1)) with (Z.to_nat (frames p ts) + 1)%nat by lia. rewrite seq_app, fmap_app. f_equal.
  - apply list_fmap_ext. intros i j Hj. apply lookup_seq in Hj as [-> Hi]. f_equal. apply app_nth1.
    assert (Z.of_nat (0 + i) + 1 <= frames p ts) as H by lia. apply (Z.mul_le_mono_nonneg_r _ _ p) in H; [|lia]. lia.
  - simpl. rewrite Z2Nat.id by exact Hk.
    replace (Z.to_nat ((frames p ts + 1) * p - 1)) with (length ts) by lia. rewrite nth_middle. reflexivity.
Qed.

(** The state after the calls [ts]. *)
Record ticked (fb p : Z) (fs : frame_state) (m0 : mem) (ts : list Z) (s : asys) : Prop := {
  tk_anim : s_anim s = anim_at fs p (frames p ts) (Z.of_nat (length ts) mod p);
  tk_screen : screen_at fb (frames p ts) m0 (s_mem s);
  tk_dbg : ring (s_dbg s) (samples p ts)
}.

Lemma anim_tick_step fb p fs m0 ts t s :
  1 <= p <= 1000000 -> ticked fb p fs m0 ts s -> s_ticks s = t ->
  exists s', anim_tick fb s = Ret tt s' /\ ticked fb p fs m0 (ts ++ [t]) s'.
Proof.
  intros Hp [Ha Hs Hd] Ht. unfold anim_tick, on_anim, on_screen.
  rewrite bind_gets, Ha. simpl. rewrite bind_modify, bind_gets, Ha. simpl.
  set (n := Z.of_nat (length ts)) in *.
  assert (Hl : Z.of_nat (length (ts ++ [t])) = n + 1) by (rewrite length_app; simpl; lia).
  assert (Hm : 0 <= n mod p < p) by (apply Z.mod_pos_bound; lia).
  rewrite i32_small by lia.
  assert (Hn : n = p * frames p ts + n mod p) by (apply Z.div_mod; lia).
  assert (Hq : 0 <= frames p ts) by (apply Z.div_pos; lia).
  set (k := frames p ts) in *. set (c := n mod p) in *.
  destruct (Z.ltb_spec (c + 1) p) as [Hc|Hc].
  - eexists. split; [reflexivity|].
    assert (E : frames p (ts ++ [t]) = k) by (unfold frames; rewrite Hl; symmetry; apply (Z.div_unique_pos _ _ _ (c + 1)); lia).
    assert (E' : Z.of_nat (length (ts ++ [t])) mod p = c + 1) by (rewrite Hl; symmetry; apply (Z.mod_unique_pos _ _ k); lia).
    split; simpl; rewrite ?E, ?E'; auto. rewrite samples_same by (lia || exact E). exact Hd.
  - rewrite !bind_modify, !bind_gets. simpl. unfold set_counter. simpl.
    change (Anim (wave k) 50 (dir k) 20 12 (wave (k - 1)) 50 (i32 k) fs true p 0) with (anim_at fs p k 0).
    rewrite update_at by lia.
    destruct (dbg_record_ring _ _ (s_ticks s) 0 Hd) as (d' & Ed & Hd').
    rewrite (zoom_ret the_dbg _ _ tt d') by exact Ed. eexists. split; [reflexivity|].
    destruct (samples_next p ts t ltac:(lia)) as [Es E]; [fold n k; lia|]. fold k in E.
    assert (E' : Z.of_nat (length (ts ++ [t])) mod p = 0) by (rewrite Hl; symmetry; apply (Z.mod_unique_pos _ _ (k + 1)); lia).
    split; simpl; rewrite ?E, ?E'; auto.
    + apply draw_at; auto.
    + rewrite Es, <- Ht. exact Hd'.
Qed.

Lemma hooks_run fb p fs m0 : 1 <= p <= 1000000 -> forall ts pre s, ticked fb p fs m0 pre s ->
  exists s', hooks fb ts s = Ret tt s' /\ ticked fb p fs m0 (pre ++ ts) s'.
Proof.
  intros Hp. induction ts as [|t ts IH]; intros pre s [Ha Hs Hd]; [exists s; rewrite app_nil_r; split; [reflexivity|split; assumption]|].
  cbn [hooks]. rewrite bind_modify.
  destruct (anim_tick_step fb p fs m0 pre t (Asys (s_anim s) (s_mem s) (s_dbg s) t) Hp) as (s1 & E1 & T1); [split; assumption|reflexivity|].
  rewrite (bind_ret_l _ _ _ _ _ E1). destruct (IH (pre ++ [t]) s1 T1) as (s' & E & T). exists s'. split; [exact E|].
  rewrite <- app_assoc in T. exact T.
Qed.

(** C36. The timer hook paces and draws the animation.  After any number of calls,
    which find the tick counts [ts], with [p] calls per frame, exactly one frame
    in [p] calls has been shown; the rectangle is at its closed-form position,
    fully on the screen, and once a frame has been shown the screen holds the
    rectangle on black and nothing else; no byte outside the framebuffer has
    changed, and the sampler has received the value 0 once per frame, with the
    tick count of the call that completed the frame. *)
Theorem anim_tick_correct fb p fs m0 ts s :
  1 <= p <= 1000000 ->
  s_anim s = anim_at fs p 0 0 -> ring (s_dbg s) [] ->
  (forall px py, in_bounds px py = true -> pixel fb (s_mem s) px py = 0) ->
  (forall a, a < fb \/ fb + fb_size_bytes <= a -> s_mem s a = m0 a) ->
  exists s', hooks fb ts s = Ret tt s' /\
    let k := frames p ts in
    s_anim s' = anim_at fs p k (Z.of_nat (length ts) mod p) /\
    (0 <= ax (s_anim s') /\ ax (s_anim s') + aw (s_anim s') < fb_width) /\
    (0 < k -> forall px py, in_bounds px py = true ->
       pixel fb (s_mem s') px py = if in_rect (wave k) px py then red else 0) /\
    (forall a, a < fb \/ fb + fb_size_bytes <= a -> s_mem s' a = m0 a) /\
    ring (s_dbg s') (samples p ts).
Proof.
  intros Hp Ha Hd Hb Ho.
  assert (H0 : ticked fb p fs m0 [] s).
  { split; unfold samples, frames; simpl; rewrite ?Z.div_0_l, ?Z.mod_0_l by lia; auto. split; auto. intros H. lia. }
  destruct (hooks_run fb p fs m0 Hp ts [] s H0) as (s' & E & [Ha' Hs' Hd']).
  simpl in *. exists s'. split; [exact E|]. split; [exact Ha'|]. split; [|split; [|split; [apply Hs'|exact Hd']]].
  - rewrite Ha'. simpl. pose proof (wave_bound (frames p ts)). unfold fb_width, FB_WIDTH. lia.
  - intros Hk px py Hpx. destruct (in_rect _ px py) eqn:E'; [apply (scr_red _ _ _ _ Hs')|apply (scr_black _ _ _ _ Hs')]; auto.
Qed.

Definition ex_asys : asys :=
  Asys (set_tpf 3 (set_enabled true anim_boot)) (fun _ => 0) dbg_boot 17.

(** The clock advances by two between the calls. *)
Lemma anim_tick_correct_witness :
  let ts := (fun i => 17 + 2 * i) <$> seqZ 0 1000 in
  exists s', hooks 4096 ts ex_asys = Ret tt s' /\
    let k := frames 3 ts in
    s_anim s' = anim_at (FrameState 0 0 0 0) 3 k (Z.of_nat (length ts) mod 3) /\
    (0 <= ax (s_anim s') /\ ax (s_anim s') + aw (s_anim s') < fb_width) /\
    (0 < k -> forall px py, in_bounds px py = true ->
       pixel 4096 (s_mem s') px py = if in_rect (wave k) px py then red else 0) /\
    (forall a, a < 4096 \/ 4096 + fb_size_bytes <= a -> s_mem s' a = 0) /\
    ring (s_dbg s') (samples 3 ts).
Proof.
  apply (anim_tick_correct 4096 3 (FrameState 0 0 0 0) (fun _ => 0) ((fun i => 17 + 2 * i) <$> seqZ 0 1000) ex_asys);
    [lia|reflexivity|exact dbg_boot_ring|reflexivity|reflexivity].
Defined.
