(* ===== verification/Devfb.v ===== *)
(** * The framebuffer device

    [kernel/devfb.c]: reads and writes of /dev/fb as copies between user memory
    and the framebuffer's bytes.  [fb] is the address of the pixel array and
    [hdr] the address of the local header array on the kernel stack. *)

From S2P Require Import Prelude CString Riscv Kalloc Vm PageTable AddressSpace CopyUser Fb.

Record fbst : Type := Fbst { f_k : kst; f_locked : bool }.

Definition fb_lock : lens fbst bool := Lens f_locked (fun b s => Fbst (f_k s) b).
Definition the_kst : lens fbst kst := Lens f_k (fun k s => Fbst k (f_locked s)).

Definition fbdev_init (fb : Z) : M fbst unit :=
  modify (set fb_lock false) ;;
  zoom the_kst (modify (fun k => set_phys (fb_init fb (phys k)) k)).

Definition fbdev_read (fb : Z) (p : uproc) (user_dst : bool) (dst n : Z) : M fbst Z :=
  if n <=? 0 then ret 0
  else
    let n := if fb_size_bytes <? n then fb_size_bytes else n in
    acquire fb_lock ;;
    let! copied := zoom the_kst (either_copyout p user_dst dst fb n) in
    release fb_lock ;;
    ret (if copied <? 0 then -1 else n).

(** The validation of a rectangle header; the sums are C ints. *)
Definition rect_rejected (x y w h : Z) : bool :=
  (w <=? 0) || (h <=? 0) || (x <? 0) || (y <? 0)
  || (FB_WIDTH <? i32 (x + w)) || (FB_HEIGHT <? i32 (y + h)).

(** The row loop: rows [row .. h-1], [n] of them left; false if a copy failed. *)
Fixpoint write_rows (n : nat) (fb : Z) (p : uproc) (user_src : bool) (src x y w row : Z) : M kst bool :=
  match n with
  | O => ret true
  | S n' =>
      let user_off := u64 (src + 16 + row * w * 4) in
      let dst := fb + 4 * ((y + row) * FB_WIDTH) + 4 * x in
      let! r := either_copyin p dst user_src user_off (w * 4) in
      if r <? 0 then ret false
      else write_rows n' fb p user_src src x y w (row + 1)
  end.

Definition fbdev_write (fb hdr : Z) (p : uproc) (user_src : bool) (src n : Z) : M fbst Z :=
  if n <=? 0 then ret 0
  else
    acquire fb_lock ;;
    if n =? fb_size_bytes then
      let! copied := zoom the_kst (either_copyin p fb user_src src n) in
      release fb_lock ;;
      ret (if copied <? 0 then -1 else n)
    else if 16 <=? n then
      let! r := zoom the_kst (either_copyin p hdr user_src src 16) in
      if r <? 0 then release fb_lock ;; ret (-1)
      else
        let! k := gets f_k in
        let x := i32 (load (phys k) hdr 4) in
        let y := i32 (load (phys k) (hdr + 4) 4) in
        let w := i32 (load (phys k) (hdr + 8) 4) in
        let h := i32 (load (phys k) (hdr + 12) 4) in
        if rect_rejected x y w h then release fb_lock ;; ret (-1)
        else
          let expected := u64 (16 + u64 (w * h * 4)) in
          if n <? expected then release fb_lock ;; ret (-1)
          else
            let! ok := zoom the_kst (write_rows (Z.to_nat h) fb p user_src src x y w 0) in
            if negb ok then release fb_lock ;; ret (-1)
            else release fb_lock ;; ret (i32 expected)
    else
      let n := if fb_size_bytes <? n then fb_size_bytes else n in
      let! copied := zoom the_kst (either_copyin p fb user_src src n) in
      release fb_lock ;;
      ret (if copied <? 0 then -1 else n).

(** ** Safety *)

(** Without overflow the validation keeps the rectangle on the screen. *)
Lemma rect_accepted x y w h :
  x + w < 2 ^ 31 -> y + h < 2 ^ 31 -> rect_rejected x y w h = false ->
  0 <= x /\ 0 < w /\ x + w <= 128 /\ 0 <= y /\ 0 < h /\ y + h <= 128.
Proof.
  unfold rect_rejected, FB_WIDTH, FB_HEIGHT. intros H1 H2 H.
  assert (0 <= x /\ 0 < w /\ 0 <= y /\ 0 < h) by lia.
  rewrite !i32_small in H by lia. lia.
Qed.

(** The address space after a copy into a part of kernel memory. *)
Record kept (top root : Z) (A : Z -> Prop) (s : kst) (l : list Z) (s' : kst) (l' : list Z) : Prop := {
  kp_as : as_wf top root s' l';
  kp_below : user_below top root s';
  kp_le : umem_le top root s s';
  kp_end : kend s' = kend s;
  kp_mine : forall q, mine top root s' l' q -> mine top root s l q;
  kp_frame : forall a, ~ A a -> (forall q, mine top root s l q -> ~ in_page q a) -> phys s' a = phys s a
}.

Lemma kept_refl top root A s l : as_wf top root s l -> user_below top root s -> kept top root A s l s l.
Proof. intros Ha Hb. split; auto using umem_le_refl. Qed.

Lemma kept_trans top root A s1 l1 s2 l2 s3 l3 :
  kept top root A s1 l1 s2 l2 -> kept top root A s2 l2 s3 l3 -> kept top root A s1 l1 s3 l3.
Proof.
  intros [? ? U1 E1 M1 F1] [? ? U2 E2 M2 F2]. split; auto.
  - eapply umem_le_trans; eassumption.
  - congruence.
  - intros a Ha Hm. rewrite F2, F1; auto.
Qed.

Lemma kept_mono top root (A B : Z -> Prop) s l s' l' :
  (forall a, A a -> B a) -> kept top root A s l s' l' -> kept top root B s l s' l'.
Proof. intros H [? ? ? ? ? F]. split; auto. Qed.

Section Write.
Context (top root : Z) (p : uproc) (fb : Z).
Hypothesis Htop : 0 <= top <= MAXVA.
Hypothesis Htal : top mod 4096 = 0.
Hypothesis Hroot : p_pagetable p = root.
Hypothesis Hsz : p_sz p <= top.

Definition range (a n x : Z) : Prop := a <= x < a + n.

(** A copy from user memory into a kernel range. *)
Lemma copyin_kept s l dst src len :
  as_wf top root s l -> user_below top root s -> 0 <= src < 2 ^ 64 -> 0 <= len ->
  kernel_range top root s l dst len ->
  exists r s' l', either_copyin p dst true src len s = Ret r s' /\ (r = 0 \/ r = -1) /\
    kept top root (range dst len) s l s' l' /\
    (r = 0 -> forall i, 0 <= i < len -> src + i < top /\
       umem (phys s') root (src + i) = Some (phys s' (dst + i))).
Proof using All.
  intros Ha Hb Hs Hl Hk. unfold either_copyin, copyin, PGSIZE. rewrite Hroot.
  destruct (copyin_loop_spec top root p ltac:(lia) ltac:(lia) Htal Hroot Hsz
    (Z.to_nat (len / 4096 + 3)) s l dst src len) as (r & s' & l' & E & [A U Bl En Mn F By Rs T]); auto; [dlia|].
  exists r, s', l'. split; [exact E|]. split; [exact Rs|]. split; [|exact By].
  split; auto. intros a Hn. apply F. unfold range in Hn. lia.
Qed.

Definition row_area (x y w row a : Z) : Prop := range (fb + 4 * ((y + row) * FB_WIDTH) + 4 * x) (w * 4) a.
Definition rows_area (x y w row n a : Z) : Prop :=
  exists r, row <= r < row + n /\ row_area x y w r a.

(** Rows written so far hold the user's pixels. *)
Definition row_copied (src x y w row : Z) (s : kst) : Prop :=
  forall i, 0 <= i < w * 4 -> src + 16 + row * w * 4 + i < top /\
    umem (phys s) root (src + 16 + row * w * 4 + i) =
    Some (phys s (fb + 4 * ((y + row) * FB_WIDTH) + 4 * x + i)).

Lemma row_area_disjoint x y w r r' a :
  0 <= x -> 0 < w -> x + w <= 128 -> row_area x y w r a -> row_area x y w r' a -> r = r'.
Proof using Type. unfold row_area, range, FB_WIDTH. lia. Qed.

(** A row survives writes to other rows. *)
Lemma row_copied_kept src x y w row B s l s' l' :
  kept top root B s l s' l' -> 0 <= src + 16 + row * w * 4 ->
  (forall a, row_area x y w row a -> ~ B a /\ a < kend s) ->
  as_wf top root s l -> row_copied src x y w row s -> row_copied src x y w row s'.
Proof using Type.
  intros Hk H0 Hd Ha Hc i Hi. destruct (Hd (fb + 4 * ((y + row) * FB_WIDTH) + 4 * x + i)) as [Hn He].
  { unfold row_area, range. lia. }
  destruct (Hc i Hi) as [Ht Hu]. split; [exact Ht|].
  rewrite (kp_frame _ _ _ _ _ _ _ Hk).
  - apply (kp_le _ _ _ _ _ _ _ Hk); [lia|exact Hu].
  - exact Hn.
  - intros q Hq. eapply (kernel_range_image top root s l _ 1 Ha); [|split; [reflexivity|lia]|exact Hq]. lia.
Qed.

Lemma write_rows_spec src x y w : 
  0 <= x -> 0 < w -> x + w <= 128 -> 0 <= y -> 0 <= src -> src + 2 ^ 17 < 2 ^ 64 ->
  forall n row s l, 0 <= row -> y + row + Z.of_nat n <= 128 -> fb + fb_size_bytes <= kend s ->
  as_wf top root s l -> user_below top root s ->
  exists ok s' l', write_rows n fb p true src x y w row s = Ret ok s' /\
    kept top root (rows_area x y w row (Z.of_nat n)) s l s' l' /\
    (ok = true -> forall r, row <= r < row + Z.of_nat n -> row_copied src x y w r s').
Proof using All.
  intros Hx Hw Hxw Hy Hs Hs'. unfold fb_size_bytes, FB_WIDTH, FB_HEIGHT.
  induction n as [|n IH]; intros row s l Hr Hyn He Ha Hb; cbn [write_rows].
  - exists true, s, l. split; [reflexivity|]. split; [apply kept_refl; assumption|]. lia.
  - set (dst := fb + 4 * ((y + row) * FB_WIDTH) + 4 * x).
    assert (Hrow : forall a, row_area x y w row a <-> dst <= a < dst + w * 4) by (intros; reflexivity).
    assert (Hin : dst + w * 4 <= kend s) by (unfold dst, FB_WIDTH; lia).
    assert (Hrw : 0 <= row * w <= 127 * 128) by nia.
    rewrite u64_small by lia.
    destruct (copyin_kept s l dst (src + 16 + row * w * 4) (w * 4)) as (r & s1 & l1 & E & Rr & K1 & B1);
      auto; [lia|lia|apply kernel_range_image; assumption|].
    rewrite (bind_ret_l _ _ _ _ _ E). destruct Rr as [->| ->].
    2: { exists false, s1, l1. split; [reflexivity|]. split; [|discriminate].
         eapply kept_mono; [|exact K1]. intros a Hr'. exists row. split; [lia|]. apply Hrow, Hr'. }
    simpl (0 <? 0). cbv iota.
    destruct (IH (row + 1) s1 l1) as (ok & s' & l' & E' & K2 & B2);
      [lia|lia|rewrite (kp_end _ _ _ _ _ _ _ K1); lia|apply K1|apply K1|].
    exists ok, s', l'. split; [exact E'|]. split.
    + eapply kept_trans; [eapply kept_mono; [|exact K1]|eapply kept_mono; [|exact K2]].
      * intros a Hr'. exists row. split; [lia|]. apply Hrow, Hr'.
      * intros a (r & Hr1 & Hr2). exists r. split; [lia|exact Hr2].
    + intros Hok r Hr1. destruct (decide (r = row)) as [->|Hne]; [|apply B2; [exact Hok|lia]].
      eapply (row_copied_kept _ _ _ _ _ _ s1 l1); [exact K2|nia| |apply K1|].
      * intros a Ha'. pose proof (proj1 (Hrow a) Ha'). rewrite (kp_end _ _ _ _ _ _ _ K1). split; [|lia].
        intros (r & Hr2 & Hr3). assert (r = row) by (apply (row_area_disjoint x y w r row a); auto). lia.
      * intros i Hi. apply B1; [reflexivity|exact Hi].
Qed.
End Write.

(** C40. Writing a rectangle to /dev/fb copies the user's pixels row by row into
    the rectangle and nowhere else: for a header that lies on the screen, the
    copy never panics, changes only the bytes of the rectangle in kernel
    memory, and when it succeeds every row holds exactly the user's bytes. *)
Theorem write_rows_correct top p fb src x y w h s l :
  0 <= top <= MAXVA -> top mod 4096 = 0 -> p_sz p <= top ->
  as_wf top (p_pagetable p) s l -> user_below top (p_pagetable p) s ->
  fb + fb_size_bytes <= kend s -> 0 <= src -> src + 2 ^ 17 < 2 ^ 64 ->
  0 <= x -> 0 < w -> x + w <= FB_WIDTH -> 0 <= y -> 0 < h -> y + h <= FB_HEIGHT ->
  exists ok s' l', write_rows (Z.to_nat h) fb p true src x y w 0 s = Ret ok s' /\
    as_wf top (p_pagetable p) s' l' /\
    (forall a, ~ rows_area fb x y w 0 h a ->
       (forall q, mine top (p_pagetable p) s l q -> ~ in_page q a) -> phys s' a = phys s a) /\
    (forall a, rows_area fb x y w 0 h a -> fb <= a < fb + fb_size_bytes) /\
    (ok = true -> forall row i, 0 <= row < h -> 0 <= i < w * 4 ->
       umem (phys s') (p_pagetable p) (src + 16 + row * w * 4 + i) =
       Some (phys s' (fb + 4 * ((y + row) * FB_WIDTH) + 4 * x + i))).
Proof.
  intros Htop Htal Hsz Ha Hb Hfb Hs Hs' Hx Hw Hxw Hy Hh Hyh.
  destruct (write_rows_spec top (p_pagetable p) p fb Htop Htal eq_refl Hsz src x y w Hx Hw Hxw Hy Hs Hs'
    (Z.to_nat h) 0 s l) as (ok & s' & l' & E & [Ka _ _ _ _ Kf] & B); auto;
    [lia|unfold FB_HEIGHT in *; lia|].
  rewrite Z2Nat.id in * by lia. exists ok, s', l'. split; [exact E|]. split; [exact Ka|].
  split; [exact Kf|]. split.
  - intros a (r & Hr & Hra). unfold row_area, range, fb_size_bytes, FB_WIDTH, FB_HEIGHT in *. lia.
  - intros Hok row i Hr Hi. apply (B Hok row); [lia|exact Hi].
Qed.

Lemma write_rows_correct_witness :
  exists ok s' l', write_rows (Z.to_nat 2) 4096 ex_proc true 100 3 4 5 0 ex_state = Ret ok s' /\
    as_wf 40960 ex_root s' l' /\
    (forall a, ~ rows_area 4096 3 4 5 0 2 a ->
       (forall q, mine 40960 ex_root ex_state [ex_p1; ex_p2; ex_p3] q -> ~ in_page q a) ->
       phys s' a = phys ex_state a) /\
    (forall a, rows_area 4096 3 4 5 0 2 a -> 4096 <= a < 4096 + fb_size_bytes) /\
    (ok = true -> forall row i, 0 <= row < 2 -> 0 <= i < 5 * 4 ->
       umem (phys s') ex_root (100 + 16 + row * 5 * 4 + i) =
       Some (phys s' (4096 + 4 * ((4 + row) * FB_WIDTH) + 4 * 3 + i))).
Proof.
  apply (write_rows_correct 40960 ex_proc 4096 100 3 4 5 2 ex_state [ex_p1; ex_p2; ex_p3]);
    [closed|closed|closed|exact ex_as|exact ex_user_below|closed..].
Defined.

(** The rectangle check is not a bounds check: because [x + w] is computed in
    32 bits, the header x = 0x7fffffff, w = 1 is accepted, and the row it
    addresses lies outside the framebuffer. *)
Theorem rect_check_overflow fb :
  rect_rejected 2147483647 0 1 1 = false /\
  forall a, row_area fb 2147483647 0 1 0 a -> fb + fb_size_bytes <= a.
Proof.
  split; [reflexivity|]. unfold row_area, range, fb_size_bytes, FB_WIDTH, FB_HEIGHT. lia.
Qed.
