(* ===== verification/Libfb.v ===== *)
(** * Drawing from user programs

    [user/libfb.c], the library that draws into a pixel buffer of the process
    and sends it to /dev/fb, and two programs that draw: [user/fbviewer.c] with
    the library and [user/drawdemo.c] with rectangles in the format the device
    accepts ([Devfb]).  The buffer is at address [buf] of the process; the state
    has the descriptor, the memory and the system calls made so far with the
    bytes they pass. *)

From S2P Require Import Prelude CString Riscv Kalloc Vm PageTable AddressSpace CopyUser Fb Devfb.

Inductive call : Type :=
| Open (path : list Z)
| Close (fd : Z)
| Write (fd : Z) (bytes : list Z)
| Pause (n : Z).

Record lfb : Type := Lfb {
  l_fd : Z;              (* fb_fd *)
  l_mem : mem;
  l_calls : list call    (* oldest first *)
}.

Definition set_fd (fd : Z) (s : lfb) : lfb := Lfb fd (l_mem s) (l_calls s).
Definition set_mem (m : mem) (s : lfb) : lfb := Lfb (l_fd s) m (l_calls s).
Definition calls (c : call) (s : lfb) : lfb := Lfb (l_fd s) (l_mem s) (l_calls s ++ [c]).

(** The bytes a system call finds at [a]. *)
Definition at_user (m : mem) (a n : Z) : list Z := (fun i => m (a + i)) <$> seqZ 0 n.

Section Libfb.
Context (buf : Z).

(** [write(fb_fd, fb_buffer, ...)], with or without a descriptor. *)
Definition flush (s : lfb) : lfb := calls (Write (l_fd s) (at_user (l_mem s) buf fb_size_bytes)) s.

Definition libfb_clear (color : Z) (s : lfb) : lfb :=
  if l_fd s <? 0 then s else
  flush (set_mem (for_up 0 (FB_WIDTH * FB_HEIGHT) (fun i m => fb_put buf m i color) (l_mem s)) s).

(** "/dev/fb" *)
Definition DEVFB : list Z := [47; 100; 101; 118; 47; 102; 98].

(** [fd] is what [open] returns. *)
Definition libfb_init (fd : Z) (s : lfb) : lfb :=
  let s := set_fd fd (calls (Open DEVFB) s) in
  if fd <? 0 then s else libfb_clear 0 s.

Definition libfb_close (s : lfb) : lfb :=
  if 0 <=? l_fd s then set_fd (-1) (calls (Close (l_fd s)) s) else s.

Definition libfb_draw_pixel (fd x y color : Z) (m : mem) : mem :=
  if fd <? 0 then m else
  if (x <? 0) || (FB_WIDTH <=? x) || (y <? 0) || (FB_HEIGHT <=? y) then m
  else fb_put buf m (y * FB_WIDTH + x) color.

Definition libfb_draw_rect (x y w h color : Z) (s : lfb) : lfb :=
  flush (set_mem
    (for_up y (i32 (y + h)) (fun yy m => for_up x (i32 (x + w)) (fun xx m => libfb_draw_pixel (l_fd s) xx yy color m) m) (l_mem s)) s).

Definition libfb_draw_line (x0 y0 x1 y1 color : Z) (s : lfb) : option lfb :=
  let dx := i32 (x1 - x0) in
  let dy := i32 (y1 - y0) in
  let sx := if 0 <=? dx then 1 else -1 in
  let sy := if 0 <=? dy then 1 else -1 in
  let dx := if 0 <=? dx then dx else i32 (- dx) in
  let dy := if 0 <=? dy then dy else i32 (- dy) in
  let draw x y m := libfb_draw_pixel (l_fd s) x y color m in
  if dy <? dx then
    match line_loop (S (Z.to_nat dx)) draw x0 x1 y0 (dx / 2) sx sy dx dy (l_mem s) with
    | Some m => Some (flush (set_mem (draw x1 y1 m) s))
    | None => None
    end
  else
    match line_loop (S (Z.to_nat dy)) (fun y x => draw x y) y0 y1 x0 (dy / 2) sy sx dy dx (l_mem s) with
    | Some m => Some (flush (set_mem (draw x1 y1 m) s))
    | None => None
    end.

(** The loop of [libfb_draw_circle]. *)
Fixpoint round_loop (fuel : nat) (fd cx cy x y err color : Z) (m : mem) : option mem :=
  match fuel with
  | O => None
  | S f =>
      if y <=? x then
        let m := foldl (fun m '(px, py) => libfb_draw_pixel fd px py color m) m (circle_points cx cy x y) in
        let y := y + 1 in
        let err := if err <=? 0 then i32 (err + (2 * y + 1)) else err in
        if 0 <? err then
          let x := x - 1 in
          round_loop f fd cx cy x y (i32 (err - (2 * x + 1))) color m
        else round_loop f fd cx cy x y err color m
      else Some m
  end.

Definition libfb_draw_circle (cx cy r color : Z) (s : lfb) : option lfb :=
  match round_loop (S (Z.to_nat (r + 1))) (l_fd s) cx cy r 0 0 color (l_mem s) with
  | Some m => Some (flush (set_mem m s))
  | None => None
  end.

Definition libfb_draw_box (x y w h color : Z) (s : lfb) : option lfb :=
  let x1 := i32 (x + w - 1) in
  let y1 := i32 (y + h - 1) in
  s ← libfb_draw_line x y x1 y color s;
  s ← libfb_draw_line x y x y1 color s;
  s ← libfb_draw_line x1 y x1 y1 color s;
  libfb_draw_line x y1 x1 y1 color s.

Definition libfb_width : Z := FB_WIDTH.
Definition libfb_height : Z := FB_HEIGHT.

(** The character for a colour. *)
Definition preview_char (c : Z) : option Z :=
  let r := Z.land (Z.shiftr c 16) 255 in
  let g := Z.land (Z.shiftr c 8) 255 in
  let b := Z.land c 255 in
  let lum := (30 * r + 59 * g + 11 * b) / 100 in
  let idx := lum * 9 / 255 in
  let idx := if 9 <? idx then 9 else idx in
  ascii_map !! Z.to_nat idx.

(** The rows printed, [None] for a read outside the map. *)
Definition libfb_show_ascii_preview (s : lfb) : list (list (option Z)) :=
  let sw := 64 in
  let sh := 16 in
  let sx := FB_WIDTH / sw in
  let sy := FB_HEIGHT / sh in
  (fun ry => (fun rx => preview_char (fb_get buf (l_mem s) (ry * sy * FB_WIDTH + rx * sx))) <$> seqZ 0 sw) <$> seqZ 0 sh.

Definition libfb_fill_color (color : Z) (s : lfb) : lfb := libfb_clear color s.

Definition libfb_test_pattern (s : lfb) : lfb :=
  flush (set_mem (for_up 0 FB_HEIGHT (fun y m => for_up 0 FB_WIDTH
    (fun x m => fb_put buf m (y * FB_WIDTH + x) (Z.lxor (x * 5) (y * 7))) m) (l_mem s)) s).

(** The colour of a pixel of the gradient; [int] division truncates. *)
Definition gradient_color (w h xx yy : Z) : Z :=
  let r := Z.quot (i32 (xx * 255)) w in
  let g := Z.quot (i32 (yy * 255)) h in
  let b := 128 in
  u32 (Z.lor (Z.lor (i32 (Z.shiftl r 16)) (i32 (Z.shiftl g 8))) b).

Definition libfb_draw_gradient (x y w h : Z) (s : lfb) : lfb :=
  flush (set_mem (for_up y (i32 (y + h)) (fun yy m => for_up x (i32 (x + w))
    (fun xx m => libfb_draw_pixel (l_fd s) xx yy (gradient_color w h xx yy) m) m) (l_mem s)) s).

Definition libfb_get_ticks : Z := 0.

(** ** [fbviewer] *)

Definition COLOR_RED : Z := 0xff0000.
Definition COLOR_GREEN : Z := 0x00ff00.
Definition COLOR_BLUE : Z := 0x0000ff.
Definition COLOR_YELLOW : Z := 0xffff00.
Definition COLOR_CYAN : Z := 0x00ffff.
Definition COLOR_MAGENTA : Z := 0xff00ff.
Definition COLOR_WHITE : Z := 0xffffff.
Definition COLOR_BLACK : Z := 0x000000.

(** The first half of [draw_demo_scene], rectangles in the corners. *)
Definition demo_corners (s : lfb) : lfb :=
  let s := libfb_clear COLOR_BLACK s in
  let s := libfb_draw_rect 2 2 20 20 COLOR_RED s in
  let s := libfb_draw_rect (FB_WIDTH - 22) 2 20 20 COLOR_GREEN s in
  let s := libfb_draw_rect 2 (FB_HEIGHT - 22) 20 20 COLOR_BLUE s in
  libfb_draw_rect (FB_WIDTH - 22) (FB_HEIGHT - 22) 20 20 COLOR_YELLOW s.

(** The second half: circles, boxes and diagonals. *)
Definition demo_figures (s : lfb) : option lfb :=
  s ← libfb_draw_circle (FB_WIDTH / 2) (FB_HEIGHT / 2) 15 COLOR_CYAN s;
  s ← libfb_draw_circle (FB_WIDTH / 2) (FB_HEIGHT / 2) 10 COLOR_MAGENTA s;
  s ← libfb_draw_circle (FB_WIDTH / 2) (FB_HEIGHT / 2) 5 COLOR_WHITE s;
  s ← libfb_draw_box 30 30 40 40 COLOR_GREEN s;
  s ← libfb_draw_box (FB_WIDTH - 70) 30 40 40 COLOR_RED s;
  s ← libfb_draw_line 0 0 (FB_WIDTH - 1) (FB_HEIGHT - 1) COLOR_CYAN s;
  libfb_draw_line (FB_WIDTH - 1) 0 0 (FB_HEIGHT - 1) COLOR_MAGENTA s.

Definition draw_demo_scene (s : lfb) : option lfb := demo_figures (demo_corners s).

(** The new position and direction on one axis. *)
Definition bounce (x dx limit : Z) : Z * Z :=
  let x := x + dx in
  (x, if (x <=? 0) || (limit <=? x + 15) then - dx else dx).

(** The loop of [draw_animation_demo]; the delay loop has no effect. *)
Fixpoint animate (frames : nat) (x y dx dy : Z) (s : lfb) : option lfb :=
  match frames with
  | O => Some s
  | S frames =>
      let s := libfb_clear COLOR_BLACK s in
      let s := libfb_draw_rect x y 15 15 COLOR_RED s in
      s ← libfb_draw_box 0 0 FB_WIDTH FB_HEIGHT COLOR_WHITE s;
      let '(x, dx) := bounce x dx FB_WIDTH in
      let '(y, dy) := bounce y dy FB_HEIGHT in
      animate frames x y dx dy s
  end.

Definition draw_animation_demo (s : lfb) : option lfb := animate 50 10 10 1 1 s.

End Libfb.

(** ** [drawdemo] *)

Section Drawdemo.
Context (buf : Z).

Definition DW : Z := 16.
Definition DH : Z := 16.
Definition bufsize : Z := 16 + DW * DH * 4.

Definition demo_color (x y : Z) : Z :=
  Z.lor (Z.lor 0xff000000 (Z.shiftl (x * 255 / DW) 16)) (Z.shiftl (y * 255 / DH) 8).

Definition demo_pixels (m : mem) : mem :=
  for_up 0 DH (fun y m => for_up 0 DW (fun x m => store_le m (buf + 16 + 4 * (y * DW + x)) 4 (demo_color x y)) m) m.

Definition demo_header (t : Z) (m : mem) : mem :=
  let m := store_le m buf 4 (t mod (FB_WIDTH - DW)) in
  let m := store_le m (buf + 4) 4 20 in
  let m := store_le m (buf + 8) 4 DW in
  store_le m (buf + 12) 4 DH.

(** The loop over [t], [n] rounds of it. *)
Fixpoint demo_loop (n : nat) (fd t : Z) (s : lfb) : lfb :=
  match n with
  | O => s
  | S n =>
      let s := set_mem (demo_header t (l_mem s)) s in
      let s := calls (Write fd (at_user (l_mem s) buf bufsize)) s in
      demo_loop n fd (t + 1) (calls (Pause 10) s)
  end.

(** [fd] is what [open] returns; [buf] what [malloc] does. *)
Definition drawdemo (fd : Z) (s : lfb) : option lfb :=
  let s := calls (Open DEVFB) s in
  if fd <? 0 then None else
  if buf =? 0 then None else
  let s := set_mem (demo_pixels (l_mem s)) s in
  Some (calls (Close fd) (demo_loop 200 fd 0 s)).

End Drawdemo.

#[local] Opaque at_user.

Lemma some_bind {A B} (a : A) (f : A -> option B) : (Some a ≫= f) = f a.
Proof. reflexivity. Qed.

(** ** With a descriptor the library draws as the kernel does *)

Section Same.
Context (buf fd : Z) (Hfd : 0 <= fd).

Lemma pixel_same x y color m : libfb_draw_pixel buf fd x y color m = fb_draw_pixel buf m x y color.
Proof using Hfd.
  unfold libfb_draw_pixel, fb_draw_pixel, in_bounds. replace (fd <? 0) with false by lia. rewrite negb_involutive. reflexivity.
Qed.

Lemma iter_ext {A} n : forall i (f g : Z -> A -> A) a, (forall i a, f i a = g i a) -> iter n i f a = iter n i g a.
Proof using. induction n as [|n IH]; intros i f g a H; cbn [iter]; [reflexivity|]. rewrite H. apply IH, H. Qed.

Lemma for_up_ext {A} lo hi (f g : Z -> A -> A) a : (forall i a, f i a = g i a) -> for_up lo hi f a = for_up lo hi g a.
Proof using. apply iter_ext. Qed.

Lemma line_loop_ext n : forall d d' a a1 b err sa sb da db m, (forall x y m, d x y m = d' x y m) ->
  line_loop n d a a1 b err sa sb da db m = line_loop n d' a a1 b err sa sb da db m.
Proof using.
  induction n as [|n IH]; intros d d' a a1 b err sa sb da db m H; cbn [line_loop]; [reflexivity|]. rewrite H, !(IH d d') by exact H. reflexivity.
Qed.

Lemma round_same n : forall cx cy x y err color m, round_loop buf n fd cx cy x y err color m = circle_loop n buf cx cy x y err color m.
Proof using Hfd.
  induction n as [|n IH]; intros cx cy x y err color m; cbn [round_loop circle_loop]; [reflexivity|]. rewrite !IH.
  assert (Ep : forall l m, foldl (fun m '(px, py) => libfb_draw_pixel buf fd px py color m) m l = plot buf color l m).
  { induction l as [|[px py] l IHl]; intros m'; cbn [foldl]; [reflexivity|]. rewrite IHl, pixel_same. reflexivity. }
  rewrite Ep. reflexivity.
Qed.
End Same.

Lemma rect_same buf s x y w h color : 0 <= l_fd s ->
  libfb_draw_rect buf x y w h color s = flush buf (set_mem (fb_draw_rect buf (l_mem s) x y w h color) s).
Proof.
  intros Hfd. unfold libfb_draw_rect, fb_draw_rect. apply (f_equal (fun m => flush buf (set_mem m s))). apply for_up_ext. intros yy m. apply for_up_ext. intros xx m'. apply pixel_same, Hfd.
Qed.

Lemma line_same buf s x0 y0 x1 y1 color : 0 <= l_fd s ->
  libfb_draw_line buf x0 y0 x1 y1 color s = (fun m => flush buf (set_mem m s)) <$> fb_draw_line buf (l_mem s) x0 y0 x1 y1 color.
Proof.
  intros Hfd. unfold libfb_draw_line, fb_draw_line. cbv zeta. destruct (_ <? _).
  - rewrite (line_loop_ext _ _ (fun x y m => fb_draw_pixel buf m x y color)) by (intros; apply pixel_same, Hfd).
    destruct (line_loop _ _ _ _ _ _ _ _ _ _ _); [|reflexivity]. rewrite pixel_same by exact Hfd. reflexivity.
  - rewrite (line_loop_ext _ _ (fun y x m => fb_draw_pixel buf m x y color)) by (intros; apply pixel_same, Hfd).
    destruct (line_loop _ _ _ _ _ _ _ _ _ _ _); [|reflexivity]. rewrite pixel_same by exact Hfd. reflexivity.
Qed.

Lemma circle_same buf s cx cy r color : 0 <= l_fd s ->
  libfb_draw_circle buf cx cy r color s = (fun m => flush buf (set_mem m s)) <$> fb_draw_circle buf (l_mem s) cx cy r color.
Proof.
  intros Hfd. unfold libfb_draw_circle, fb_draw_circle. rewrite round_same by exact Hfd. destruct (circle_loop _ _ _ _ _ _ _ _ _); reflexivity.
Qed.

Lemma prefix_run buf color n m : word color -> n <= 16384 ->
  paints buf color (fun x y => 0 <= y * 128 + x < n) m (for_up 0 n (fun i m => fb_put buf m i color) m).
Proof.
  intros Hc Hn. eapply paints_ext; [|apply (for_up_paints buf color (fun i x y => y * 128 + x = i))].
  - intros x y Hb. cbv beta. split; [intros (i & Hi & <-); lia|]. intros H. exists (y * 128 + x). lia.
  - intros i m' Hi. split.
    + intros x y _. unfold pixel. rewrite fb_get_put by exact Hc. unfold FB_WIDTH. destruct (Z.eqb_spec i (y * 128 + x)); [left|right]; lia.
    + intros a Ha. apply fb_put_off; [lia|exact Ha].
Qed.

Lemma clear_run buf color m : word color ->
  paints buf color (fun _ _ => True) m (for_up 0 (FB_WIDTH * FB_HEIGHT) (fun i m => fb_put buf m i color) m).
Proof.
  intros Hc. refine (paints_ext _ _ _ _ _ _ _ (prefix_run buf color (FB_WIDTH * FB_HEIGHT) m Hc (Z.le_refl _))).
  intros x y Hb. apply in_bounds_iff in Hb. unfold FB_WIDTH, FB_HEIGHT. lia.
Qed.

(** ** Shapes *)

Inductive shape : Type :=
| Clear
| Rect (x y w h : Z)
| Line (x0 y0 x1 y1 : Z)
| Circle (cx cy r : Z)
| Box (x y w h : Z).

Definition draw (buf : Z) (f : shape) (color : Z) (s : lfb) : option lfb :=
  match f with
  | Clear => Some (libfb_clear buf color s)
  | Rect x y w h => Some (libfb_draw_rect buf x y w h color s)
  | Line x0 y0 x1 y1 => libfb_draw_line buf x0 y0 x1 y1 color s
  | Circle cx cy r => libfb_draw_circle buf cx cy r color s
  | Box x y w h => libfb_draw_box buf x y w h color s
  end.

Definition shape_ok (f : shape) : Prop :=
  match f with
  | Clear => True
  | Rect x y w h => coord x /\ coord y /\ coord w /\ coord h
  | Line x0 y0 x1 y1 => coord x0 /\ coord y0 /\ coord x1 /\ coord y1
  | Circle cx cy r => coord cx /\ coord cy /\ r < 2 ^ 29
  | Box x y w h => coord x /\ coord y /\ coord (x + w - 1) /\ coord (y + h - 1)
  end.

(** The pixels [A] are those of the shape. *)
Definition fills_shape (f : shape) (A : Z -> Z -> Prop) : Prop :=
  match f with
  | Clear => forall x y, A x y
  | Rect x0 y0 w h => forall x y, A x y <-> x0 <= x < x0 + w /\ y0 <= y < y0 + h
  | Line x0 y0 x1 y1 => forall x y, A x y <-> on_line x0 y0 x1 y1 x y
  | Circle cx cy r => forall x y, A x y <-> 0 <= r /\ on_circle cx cy r x y
  | Box x0 y0 w h => let x1 := x0 + w - 1 in let y1 := y0 + h - 1 in
      forall x y, A x y <-> on_line x0 y0 x1 y0 x y \/ on_line x0 y0 x0 y1 x y \/ on_line x1 y0 x1 y1 x y \/ on_line x0 y1 x1 y1 x y
  end.

(** What was sent last is the buffer. *)
Definition shown (buf : Z) (s : lfb) : Prop := last (l_calls s) = Some (Write (l_fd s) (at_user (l_mem s) buf fb_size_bytes)).

(** A step that paints [A] and sends the buffer. *)
Record painted (buf color : Z) (A : Z -> Z -> Prop) (s s' : lfb) : Prop := {
  pt_fd : l_fd s' = l_fd s;
  pt_mem : paints buf color A (l_mem s) (l_mem s');
  pt_shown : shown buf s'
}.

Lemma flush_painted buf color A s m : paints buf color A (l_mem s) m -> painted buf color A s (flush buf (set_mem m s)).
Proof. intros H. split; [reflexivity|exact H|]. apply last_snoc. Qed.

Lemma painted_ext buf color (A B : Z -> Z -> Prop) s s' : (forall x y, A x y <-> B x y) -> painted buf color A s s' -> painted buf color B s s'.
Proof. intros H [P1 P2 P3]. split; auto. eapply paints_ext; [|exact P2]. auto. Qed.

Lemma painted_app buf color A B s1 s2 s3 : painted buf color A s1 s2 -> painted buf color B s2 s3 -> painted buf color (fun x y => A x y \/ B x y) s1 s3.
Proof. intros [P1 P2 P3] [Q1 Q2 Q3]. split; [congruence| |exact Q3]. eapply paints_app; eassumption. Qed.

Lemma clear_painted buf color s : 0 <= l_fd s -> word color -> painted buf color (fun _ _ => True) s (libfb_clear buf color s).
Proof. intros Hfd Hc. unfold libfb_clear. replace (l_fd s <? 0) with false by lia. apply flush_painted, clear_run, Hc. Qed.

Lemma rect_painted buf color s x y w h : 0 <= l_fd s -> word color -> coord x -> coord y -> coord w -> coord h ->
  painted buf color (fun px py => x <= px < x + w /\ y <= py < y + h) s (libfb_draw_rect buf x y w h color s).
Proof.
  unfold coord. intros Hfd Hc Hx Hy Hw Hh. rewrite rect_same by exact Hfd. apply flush_painted.
  pose proof (rect_paints buf color Hc (l_mem s) x y w h) as H. rewrite !i32_small in H by lia. exact H.
Qed.

Lemma line_painted buf color s x0 y0 x1 y1 : 0 <= l_fd s -> word color -> coord x0 -> coord y0 -> coord x1 -> coord y1 ->
  exists s', libfb_draw_line buf x0 y0 x1 y1 color s = Some s' /\ painted buf color (on_line x0 y0 x1 y1) s s'.
Proof.
  intros Hfd Hc H1 H2 H3 H4. rewrite line_same by exact Hfd. destruct (fb_draw_line_run buf (l_mem s) x0 y0 x1 y1 color H1 H2 H3 H4 Hc) as (m & -> & Hp).
  eexists. split; [reflexivity|]. apply flush_painted, Hp.
Qed.

Lemma box_painted buf color s x y w h : 0 <= l_fd s -> word color -> shape_ok (Box x y w h) ->
  exists s' A, libfb_draw_box buf x y w h color s = Some s' /\ painted buf color A s s' /\ fills_shape (Box x y w h) A.
Proof.
  intros Hfd Hc (Hx & Hy & Hx1 & Hy1). unfold libfb_draw_box. rewrite (i32_small (x + w - 1)), (i32_small (y + h - 1)) by (unfold coord in *; lia). cbv zeta.
  destruct (line_painted buf color s x y (x + w - 1) y) as (s1 & -> & P1); auto. assert (F1 := pt_fd _ _ _ _ _ P1). rewrite ?some_bind.
  destruct (line_painted buf color s1 x y x (y + h - 1)) as (s2 & -> & P2); auto; [lia|]. assert (F2 := pt_fd _ _ _ _ _ P2). rewrite ?some_bind.
  destruct (line_painted buf color s2 (x + w - 1) y (x + w - 1) (y + h - 1)) as (s3 & -> & P3); auto; [lia|]. assert (F3 := pt_fd _ _ _ _ _ P3). rewrite ?some_bind.
  destruct (line_painted buf color s3 x (y + h - 1) (x + w - 1) (y + h - 1)) as (s4 & -> & P4); auto; [lia|].
  exists s4. eexists. split; [reflexivity|]. split; [exact (painted_app _ _ _ _ _ _ _ P1 (painted_app _ _ _ _ _ _ _ P2 (painted_app _ _ _ _ _ _ _ P3 P4)))|].
  intros px py. cbv beta. tauto.
Qed.

Lemma circle_painted buf color s cx cy r : 0 <= l_fd s -> word color -> shape_ok (Circle cx cy r) ->
  exists s' A, libfb_draw_circle buf cx cy r color s = Some s' /\ painted buf color A s s' /\ fills_shape (Circle cx cy r) A.
Proof.
  intros Hfd Hc (Hx & Hy & Hr). rewrite circle_same by exact Hfd.
  destruct (fb_draw_circle_run buf (l_mem s) cx cy r color Hx Hy Hr Hc) as (m & -> & Hp).
  eexists _, _. split; [reflexivity|]. split; [apply flush_painted, Hp|]. intros px py. reflexivity.
Qed.

Lemma draw_run buf f color s : 0 <= l_fd s -> word color -> shape_ok f ->
  exists s' A, draw buf f color s = Some s' /\ painted buf color A s s' /\ fills_shape f A.
Proof.
  intros Hfd Hc Hok. destruct f; simpl draw.
  - eexists _, (fun _ _ => True). split; [reflexivity|]. split; [apply clear_painted; assumption|]. exact (fun _ _ => I).
  - destruct Hok as (H1 & H2 & H3 & H4). eexists _, _. split; [reflexivity|]. split; [apply rect_painted; assumption|]. intros px py. reflexivity.
  - destruct Hok as (H1 & H2 & H3 & H4). destruct (line_painted buf color s x0 y0 x1 y1) as (s' & E & P); auto. exists s', (on_line x0 y0 x1 y1).
    split; [exact E|]. split; [exact P|]. intros px py. reflexivity.
  - apply circle_painted; assumption.
  - apply box_painted; assumption.
Qed.

Lemma rect_fd buf x y w h color s : l_fd (libfb_draw_rect buf x y w h color s) = l_fd s.
Proof. reflexivity. Qed.

Lemma corners_fd buf s : 0 <= l_fd s -> l_fd (demo_corners buf s) = l_fd s.
Proof.
  intros Hfd. pose proof (pt_fd _ _ _ _ _ (clear_painted buf COLOR_BLACK s Hfd ltac:(closed))) as F0. unfold demo_corners. rewrite !rect_fd. exact F0.
Qed.

Lemma demo_runs buf s : 0 <= l_fd s -> exists s', draw_demo_scene buf s = Some s' /\ l_fd s' = l_fd s /\ shown buf s'.
Proof.
  intros Hfd. unfold draw_demo_scene. pose proof (corners_fd buf s Hfd) as E1. generalize dependent (demo_corners buf s). intros s1 E1. unfold demo_figures.
  destruct (circle_painted buf COLOR_CYAN s1 (FB_WIDTH / 2) (FB_HEIGHT / 2) 15) as (s2 & A2 & -> & P2 & _); [lia|closed|repeat split; closed|]. pose proof (pt_fd _ _ _ _ _ P2). rewrite ?some_bind.
  destruct (circle_painted buf COLOR_MAGENTA s2 (FB_WIDTH / 2) (FB_HEIGHT / 2) 10) as (s3 & A3 & -> & P3 & _); [lia|closed|repeat split; closed|]. pose proof (pt_fd _ _ _ _ _ P3). rewrite ?some_bind.
  destruct (circle_painted buf COLOR_WHITE s3 (FB_WIDTH / 2) (FB_HEIGHT / 2) 5) as (s4 & A4 & -> & P4 & _); [lia|closed|repeat split; closed|]. pose proof (pt_fd _ _ _ _ _ P4). rewrite ?some_bind.
  destruct (box_painted buf COLOR_GREEN s4 30 30 40 40) as (s5 & A5 & -> & P5 & _); [lia|closed|repeat split; closed|]. pose proof (pt_fd _ _ _ _ _ P5). rewrite ?some_bind.
  destruct (box_painted buf COLOR_RED s5 (FB_WIDTH - 70) 30 40 40) as (s6 & A6 & -> & P6 & _); [lia|closed|repeat split; closed|]. pose proof (pt_fd _ _ _ _ _ P6). rewrite ?some_bind.
  destruct (line_painted buf COLOR_CYAN s6 0 0 (FB_WIDTH - 1) (FB_HEIGHT - 1)) as (s7 & -> & P7); [lia|closed ..|]. pose proof (pt_fd _ _ _ _ _ P7). rewrite ?some_bind.
  destruct (line_painted buf COLOR_MAGENTA s7 (FB_WIDTH - 1) 0 0 (FB_HEIGHT - 1)) as (s8 & -> & P8); [lia|closed ..|]. pose proof (pt_fd _ _ _ _ _ P8). rewrite ?some_bind.
  exists s8. split; [reflexivity|]. split; [congruence|apply P8].
Qed.

(** The moving rectangle of the animation. *)
Record inside (x dx limit : Z) : Prop := {
  in_dir : dx = 1 \/ dx = -1;
  in_pos : 0 <= x /\ x + 15 <= limit;
  in_low : x = 0 -> dx = 1;
  in_high : x + 15 = limit -> dx = -1
}.

Lemma bounce_inside x dx limit : 16 < limit -> inside x dx limit -> let '(x', dx') := bounce x dx limit in inside x' dx' limit.
Proof.
  intros Hl [H1 H2 H3 H4]. unfold bounce. destruct ((x + dx <=? 0) || (limit <=? x + dx + 15)) eqn:E; split; lia.
Qed.

(** However long it runs, the rectangle of the animation stays on the screen. *)
Lemma animate_runs buf n : forall x y dx dy s, 0 <= l_fd s -> inside x dx FB_WIDTH -> inside y dy FB_HEIGHT ->
  exists s', animate buf n x y dx dy s = Some s' /\ l_fd s' = l_fd s.
Proof.
  induction n as [|n IH]; intros x y dx dy s Hfd Hx Hy; cbn [animate]; [eauto|].
  assert (Hc := clear_painted buf COLOR_BLACK s Hfd ltac:(closed)). set (s1 := libfb_clear buf COLOR_BLACK s) in *. pose proof (pt_fd _ _ _ _ _ Hc) as F1.
  set (s2 := libfb_draw_rect buf x y 15 15 COLOR_RED s1). assert (F2 : l_fd s2 = l_fd s1) by reflexivity.
  destruct (box_painted buf COLOR_WHITE s2 0 0 FB_WIDTH FB_HEIGHT) as (s3 & A & -> & P & _); [lia|closed|repeat split; closed|]. rewrite ?some_bind.
  pose proof (pt_fd _ _ _ _ _ P) as F3. pose proof (bounce_inside x dx FB_WIDTH ltac:(closed) Hx) as Bx. pose proof (bounce_inside y dy FB_HEIGHT ltac:(closed) Hy) as By.
  destruct (bounce x dx FB_WIDTH) as [x' dx'], (bounce y dy FB_HEIGHT) as [y' dy']. destruct (IH x' y' dx' dy' s3) as (s' & E & F); auto; [lia|].
  exists s'. split; [exact E|]. congruence.
Qed.

(** Inside its rectangle at the origin the gradient keeps its channels apart; a
    rectangle elsewhere has pixels whose green runs over into red. *)
Lemma gradient_channels w h x y : 0 < w <= 4096 -> 0 < h <= 4096 -> 0 <= x < w -> 0 <= y < h ->
  gradient_color w h x y = (x * 255 / w) * 65536 + (y * 255 / h) * 256 + 128 /\ x * 255 / w < 256 /\ y * 255 / h < 256.
Proof.
  intros Hw Hh Hx Hy. unfold gradient_color. rewrite !(i32_small (_ * 255)) by lia. rewrite !Z.quot_div_nonneg by lia.
  assert (Hr : 0 <= x * 255 / w < 256) by (split; [apply Z.div_pos; lia|apply Z.div_lt_upper_bound; lia]).
  assert (Hg : 0 <= y * 255 / h < 256) by (split; [apply Z.div_pos; lia|apply Z.div_lt_upper_bound; lia]).
  set (r := x * 255 / w) in *. set (g := y * 255 / h) in *. rewrite !Z.shiftl_mul_pow2 by lia. rewrite !i32_small by lia. split; [|lia].
  rewrite (lor_disjoint_add (r * 2 ^ 16) (g * 2 ^ 8) 16), (lor_disjoint_add _ 128 8) by dlia. rewrite u32_small by lia. lia.
Qed.

Lemma gradient_spills : gradient_color 100 100 40 109 = 0x671580 /\ 40 * 255 / 100 = 0x66.
Proof. split; reflexivity. Qed.

(** ** On the screen *)

(** The kernel's framebuffer after a write of a whole buffer. *)
Lemma write_all_run top root p fb hdr src k l : 0 <= top <= MAXVA -> top mod 4096 = 0 -> p_pagetable p = root -> p_sz p <= top ->
  as_wf top root k l -> user_below top root k -> 0 <= src < 2 ^ 64 -> kernel_range top root k l fb fb_size_bytes -> readable top root k src fb_size_bytes ->
  exists k' l', fbdev_write fb hdr p true src fb_size_bytes (Fbst k false) = Ret fb_size_bytes (Fbst k' false) /\
    as_wf top root k' l' /\ umem_le top root k k' /\
    (forall i, 0 <= i < fb_size_bytes -> src + i < top /\ umem (phys k') root (src + i) = Some (phys k' (fb + i))) /\
    (forall x, ~ range fb fb_size_bytes x -> (forall q, mine top root k l q -> ~ in_page q x) -> phys k' x = phys k x).
Proof.
  intros Htop Htal Hr Hsz Ha Hb Hs Hk Hread.
  destruct (copyin_loop_spec top root p ltac:(lia) ltac:(lia) Htal Hr Hsz (Z.to_nat (fb_size_bytes / 4096 + 3)) k l fb src fb_size_bytes)
    as (r & k' & l' & E & C); auto; [unfold fb_size_bytes, FB_WIDTH, FB_HEIGHT; lia|unfold fb_size_bytes, FB_WIDTH, FB_HEIGHT; dlia|].
  pose proof (ci_total _ _ _ _ _ _ _ _ _ _ C Hread) as ->. exists k', l'.
  split; [|split; [apply C|split; [apply C|split; [apply C; reflexivity|]]]].
  - unfold fbdev_write. change (fb_size_bytes <=? 0) with false. cbv iota. rewrite (bind_ret_l _ _ _ tt (Fbst k true)) by reflexivity. rewrite Z.eqb_refl.
    rewrite (bind_ret_l _ _ _ 0 (Fbst k' true)); [rewrite (bind_ret_l _ _ _ tt (Fbst k' false)) by reflexivity; reflexivity|].
    apply (zoom_ret the_kst _ (Fbst k true) 0 k'). unfold either_copyin, copyin, PGSIZE. rewrite Hr. exact E.
  - intros x Hx Hm. apply (ci_frame _ _ _ _ _ _ _ _ _ _ C); [unfold range in Hx; lia|exact Hm].
Qed.

(** Pixels depend on the bytes of the array. *)
Lemma pixel_ext a b m m' x y : in_bounds x y = true -> (forall i, 0 <= i < fb_size_bytes -> m' (b + i) = m (a + i)) -> pixel b m' x y = pixel a m x y.
Proof.
  intros Hb H. apply in_bounds_iff in Hb. unfold pixel, fb_get, FB_WIDTH. unfold fb_size_bytes, FB_WIDTH, FB_HEIGHT in H.
  assert (Hl : forall n c d, (forall i, 0 <= i < Z.of_nat n -> m' (c + i) = m (d + i)) -> load m' c n = load m d n).
  { clear. induction n as [|n IH]; intros c d H; cbn [load]; [reflexivity|]. pose proof (H 0 ltac:(lia)) as H0. rewrite !Z.add_0_r in H0. change (load ?m ?a (S n)) with (m a + 256 * load m (a + 1) n). rewrite H0. do 2 f_equal.
    apply IH. intros i Hi. rewrite <- !Z.add_assoc. apply H. lia. }
  apply Hl. intros i Hi. rewrite <- !Z.add_assoc. apply H. lia.
Qed.

(** When the kernel serves a write of the buffer of a process whose memory is
    [m'], its framebuffer shows [A] in [color] over the pixels of [m]. *)
Definition device_shows (buf color : Z) (A : Z -> Z -> Prop) (m m' : mem) : Prop :=
  forall top p fb hdr k l, 0 <= top <= MAXVA -> top mod 4096 = 0 -> p_sz p <= top -> let root := p_pagetable p in
    as_wf top root k l -> user_below top root k -> 0 <= buf < 2 ^ 64 -> kernel_range top root k l fb fb_size_bytes -> readable top root k buf fb_size_bytes ->
    (forall i, 0 <= i < fb_size_bytes -> umem (phys k) root (buf + i) = Some (m' (buf + i))) ->
    exists k' l', fbdev_write fb hdr p true buf fb_size_bytes (Fbst k false) = Ret fb_size_bytes (Fbst k' false) /\ as_wf top root k' l' /\
      (forall x y, in_bounds x y = true ->
         A x y /\ pixel fb (phys k') x y = color \/ ~ A x y /\ pixel fb (phys k') x y = pixel buf m x y) /\
      (forall x, ~ range fb fb_size_bytes x -> (forall q, mine top root k l q -> ~ in_page q x) -> phys k' x = phys k x).

Lemma paints_device buf color A m m' : paints buf color A m m' -> device_shows buf color A m m'.
Proof.
  intros P top p fb hdr k l Htop Htal Hsz root Ha Hb Hbuf Hk Hread Hmem.
  destruct (write_all_run top root p fb hdr buf k l Htop Htal eq_refl Hsz Ha Hb Hbuf Hk Hread) as (k' & l' & E' & Ha' & [_ Hle] & Hby & Hfr).
  exists k', l'. split; [exact E'|]. split; [exact Ha'|]. split; [|exact Hfr]. intros x y Hin.
  rewrite (pixel_ext buf fb m' (phys k') x y Hin); [apply (paints_on _ _ _ _ _ P x y Hin)|].
  intros i Hi. destruct (Hby i Hi) as [Ht Hu]. rewrite (Hle (buf + i) _ ltac:(lia) (Hmem i Hi)) in Hu. congruence.
Qed.

(** C37. What a program draws with the library is what the kernel's framebuffer
    shows.  While the device is open, drawing a shape in the buffer of the
    process ends, paints exactly the on-screen pixels of the shape and no other
    memory, and sends the buffer with the last system call it makes; when the
    kernel serves that [write], reading the buffer through the page table of
    the process, every pixel of its framebuffer has the colour of the shape if
    it belongs to the shape, and what the buffer had before otherwise, and no
    other kernel memory changes. *)
Theorem drawing_reaches_screen (buf color : Z) (f : shape) (s : lfb) :
  0 <= l_fd s -> word color -> shape_ok f ->
  exists s' A, draw buf f color s = Some s' /\ fills_shape f A /\ l_fd s' = l_fd s /\
    last (l_calls s') = Some (Write (l_fd s') (at_user (l_mem s') buf fb_size_bytes)) /\
    (forall a, a < buf \/ buf + fb_size_bytes <= a -> l_mem s' a = l_mem s a) /\ device_shows buf color A (l_mem s) (l_mem s').
Proof.
  intros Hfd Hc Hok. destruct (draw_run buf f color s Hfd Hc Hok) as (s' & A & E & [P1 P2 P3] & HA). exists s', A.
  split_and!; auto; [apply (paints_off _ _ _ _ _ P2)|apply paints_device, P2].
Qed.

Lemma drawing_reaches_screen_witness :
  exists s' A, draw 8192 (Circle 64 64 15) COLOR_CYAN (Lfb 3 (fun _ => 0) []) = Some s' /\ fills_shape (Circle 64 64 15) A /\ l_fd s' = 3 /\
    last (l_calls s') = Some (Write (l_fd s') (at_user (l_mem s') 8192 fb_size_bytes)) /\
    (forall a, a < 8192 \/ 8192 + fb_size_bytes <= a -> l_mem s' a = 0) /\ device_shows 8192 COLOR_CYAN A (fun _ => 0) (l_mem s').
Proof. apply (drawing_reaches_screen 8192 COLOR_CYAN (Circle 64 64 15) (Lfb 3 (fun _ => 0) [])); [closed|closed|repeat split; closed]. Defined.

(** ** [drawdemo] *)

(** The fields of the header the device finds in the bytes written. *)
Definition header_field (bs : list Z) (k : Z) : Z := i32 (load (fun x => nth (Z.to_nat x) bs 0) (4 * k) 4).

(** A write the device takes as a rectangle. *)
Definition accepted (bs : list Z) : Prop :=
  let x := header_field bs 0 in let y := header_field bs 1 in let w := header_field bs 2 in let h := header_field bs 3 in
  Z.of_nat (length bs) = 16 + w * h * 4 /\ Z.of_nat (length bs) <> fb_size_bytes /\ rect_rejected x y w h = false.

#[local] Transparent at_user.

Lemma at_user_nth m a n i : 0 <= i < n -> nth (Z.to_nat i) (at_user m a n) 0 = m (a + i).
Proof. intros Hi. unfold at_user. rewrite nth_lookup, list_lookup_fmap, lookup_seqZ_lt by lia. simpl. f_equal. lia. Qed.

Lemma at_user_field m a n k : 0 <= k -> 4 * k + 4 <= n -> header_field (at_user m a n) k = i32 (load m (a + 4 * k) 4).
Proof.
  intros Hk Hn. unfold header_field. f_equal. assert (H : forall j o, 0 <= o -> o + Z.of_nat j <= n ->
    load (fun x => nth (Z.to_nat x) (at_user m a n) 0) o j = load m (a + o) j).
  { induction j as [|j IH]; intros o Ho Hj; [reflexivity|].
    change (load ?m ?a (S j)) with (m a + 256 * load m (a + 1) j). cbv beta. rewrite at_user_nth, IH by lia. do 3 f_equal. lia. }
  apply H; lia.
Qed.

Lemma demo_accepted buf t m : 0 <= t -> accepted (at_user (demo_header buf t m) buf bufsize).
Proof.
  intros Ht. pose proof (Z.mod_pos_bound t (FB_WIDTH - DW) ltac:(closed)) as Hm. change (FB_WIDTH - DW) with 112 in *.
  assert (E : header_field (at_user (demo_header buf t m) buf bufsize) 0 = t mod 112 /\ header_field (at_user (demo_header buf t m) buf bufsize) 1 = 20 /\
    header_field (at_user (demo_header buf t m) buf bufsize) 2 = 16 /\ header_field (at_user (demo_header buf t m) buf bufsize) 3 = 16).
  { rewrite !at_user_field by (unfold bufsize, DW, DH; lia). unfold demo_header. change (FB_WIDTH - DW) with 112. unfold DW, DH.
    change (4 * 0) with 0. change (4 * 1) with 4. change (4 * 2) with 8. change (4 * 3) with 12. rewrite Z.add_0_r.
    split_and!; rewrite ?(load_store_le_ne 4 4) by lia; rewrite load_store_le_eq by lia; change (2 ^ (8 * Z.of_nat 4)) with (2 ^ 32); rewrite Z.mod_small by lia; apply i32_small; lia. }
  destruct E as (E0 & E1 & E2 & E3). unfold accepted. rewrite E0, E1, E2, E3. assert (El : Z.of_nat (length (at_user (demo_header buf t m) buf bufsize)) = 1040) by reflexivity.
  rewrite El. unfold rect_rejected, FB_WIDTH, FB_HEIGHT. rewrite !i32_small by lia. split_and!; [reflexivity|closed|lia].
Qed.

Lemma in_calls c d s : d ∈ l_calls (calls c s) <-> d ∈ l_calls s \/ d = c.
Proof. unfold calls. cbn [l_calls]. rewrite elem_of_app, list_elem_of_singleton. reflexivity. Qed.

Lemma in_set_mem d m s : d ∈ l_calls (set_mem m s) <-> d ∈ l_calls s.
Proof. reflexivity. Qed.

Lemma demo_loop_accepted buf fd n : forall t s bs, 0 <= t -> Write fd bs ∈ l_calls (demo_loop buf n fd t s) -> Write fd bs ∈ l_calls s \/ accepted bs.
Proof.
  induction n as [|n IH]; intros t s bs Ht Hin; cbn [demo_loop] in Hin; [auto|]. apply IH in Hin; [|lia]. destruct Hin as [Hin|]; [|auto].
  rewrite !in_calls, in_set_mem in Hin. destruct Hin as [[Hin|Hin]|Hin]; [auto| |discriminate]. injection Hin as ->. right. apply demo_accepted, Ht.
Qed.

(** Every frame of the demo is a rectangle the device accepts. *)
Lemma drawdemo_accepted buf fd s : 0 <= fd -> buf <> 0 -> exists s', drawdemo buf fd s = Some s' /\
  forall bs, Write fd bs ∈ l_calls s' -> Write fd bs ∈ l_calls s \/ accepted bs.
Proof.
  intros Hfd Hbuf. unfold drawdemo. replace (fd <? 0) with false by lia. replace (buf =? 0) with false by lia. eexists. split; [reflexivity|].
  generalize 200%nat. intros n bs. rewrite in_calls. intros [Hin|]; [|discriminate].
  apply demo_loop_accepted in Hin as [Hin|]; [|auto|lia]. rewrite in_set_mem, in_calls in Hin. destruct Hin as [|]; [auto|discriminate].
Qed.
