(* ===== verification/Spinlock.v ===== *)
(** * Spin locks

    [kernel/spinlock.c].  One lock and the CPUs that compete for it.  A CPU goes
    through [acquire], its critical section and [release] one memory access at
    a time ([exec]); a run is any sequence of CPU numbers, the CPU to move next.
    The CPUs share memory sequentially consistently, which is what the fences in
    the source are for. *)

From S2P Require Import Prelude.

(** ** Nested interrupt disabling *)

Record cpu : Type := Cpu {
  c_intr : bool;      (* sstatus.SIE *)
  c_noff : Z;
  c_intena : bool
}.

Definition push_off (c : cpu) : cpu :=
  let old := c_intr c in
  Cpu false (i32 (c_noff c + 1)) (if c_noff c =? 0 then old else c_intena c).

Definition pop_off (c : cpu) : string + cpu :=
  if c_intr c then inl "pop_off - interruptible"
  else if c_noff c <? 1 then inl "pop_off"
  else
    let n := i32 (c_noff c - 1) in
    inr (Cpu ((n =? 0) && c_intena c) n (c_intena c)).

(** ** The lock *)

(** Where a CPU is. *)
Inductive pc : Type :=
| Out        (* not using the lock *)
| Check1     (* acquire: holding(lk), about to read lk->locked *)
| Check2     (* acquire: holding(lk), about to read lk->cpu *)
| Spin       (* acquire: about to swap *)
| Got        (* acquire: about to record the CPU *)
| Inside     (* critical section; next is release: holding(lk) reads lk->locked *)
| Check3     (* release: holding(lk), about to read lk->cpu *)
| Clear      (* release: about to clear lk->cpu *)
| Unlock     (* release: about to clear lk->locked *)
| Pop.       (* release: about to call pop_off *)

Record spin : Type := Spinlock {
  sp_locked : bool;
  sp_cpu : option nat;
  sp_pc : nat -> pc;
  sp_cpus : nat -> cpu
}.

Definition initlock (s : spin) : spin := Spinlock false None (sp_pc s) (sp_cpus s).

Definition goto (i : nat) (p : pc) (s : spin) : spin :=
  Spinlock (sp_locked s) (sp_cpu s) (fun j => if decide (j = i) then p else sp_pc s j) (sp_cpus s).
Definition set_cpu (i : nat) (c : cpu) (s : spin) : spin :=
  Spinlock (sp_locked s) (sp_cpu s) (sp_pc s) (fun j => if decide (j = i) then c else sp_cpus s j).
Definition set_lock (l : bool) (c : option nat) (s : spin) : spin :=
  Spinlock l c (sp_pc s) (sp_cpus s).

(** [lk->cpu == mycpu()] *)
Definition is_mine (s : spin) (i : nat) : bool := bool_decide (sp_cpu s = Some i).

(** CPU [i] makes its next access. *)
Definition exec (i : nat) (s : spin) : string + spin :=
  match sp_pc s i with
  | Out => inr (goto i Check1 (set_cpu i (push_off (sp_cpus s i)) s))
  | Check1 => inr (goto i (if sp_locked s then Check2 else Spin) s)
  | Check2 => if is_mine s i then inl "acquire" else inr (goto i Spin s)
  | Spin => if sp_locked s then inr s else inr (goto i Got (set_lock true (sp_cpu s) s))
  | Got => inr (goto i Inside (set_lock (sp_locked s) (Some i) s))
  | Inside => if sp_locked s then inr (goto i Check3 s) else inl "release"
  | Check3 => if is_mine s i then inr (goto i Clear s) else inl "release"
  | Clear => inr (goto i Unlock (set_lock (sp_locked s) None s))
  | Unlock => inr (goto i Pop (set_lock false (sp_cpu s) s))
  | Pop =>
      match pop_off (sp_cpus s i) with
      | inl msg => inl msg
      | inr c => inr (goto i Out (set_cpu i c s))
      end
  end.

Fixpoint run (sched : list nat) (s : spin) : string + spin :=
  match sched with
  | [] => inr s
  | i :: sched' =>
      match exec i s with
      | inl msg => inl msg
      | inr s' => run sched' s'
      end
  end.

(** ** The invariant *)

Definition owns (p : pc) : bool :=
  match p with Got | Inside | Check3 | Clear | Unlock => true | _ => false end.
Definition recorded (p : pc) : bool :=
  match p with Inside | Check3 | Clear => true | _ => false end.

(** The nesting depth and interrupts of a CPU; [lo] is the least depth. *)
Definition cpu_ok (p : pc) (c : cpu) : Prop :=
  match p with
  | Out => 0 <= c_noff c < 2 ^ 31 - 1 /\ (0 < c_noff c -> c_intr c = false)
  | _ => 1 <= c_noff c < 2 ^ 31 /\ c_intr c = false
  end.

Record spin_inv (s : spin) : Prop := {
  si_excl : forall i j, owns (sp_pc s i) = true -> owns (sp_pc s j) = true -> i = j;
  si_locked : forall i, owns (sp_pc s i) = true -> sp_locked s = true;
  si_free : sp_locked s = true -> exists i, owns (sp_pc s i) = true;
  si_cpu : forall i, sp_cpu s = Some i <-> recorded (sp_pc s i) = true;
  si_ok : forall i, cpu_ok (sp_pc s i) (sp_cpus s i)
}.

Lemma push_off_ok c : cpu_ok Out c -> cpu_ok Check1 (push_off c).
Proof. intros [H1 H2]. simpl in *. rewrite i32_small by lia. split; [lia|reflexivity]. Qed.

Lemma pop_off_ok c : cpu_ok Pop c -> exists c', pop_off c = inr c' /\ cpu_ok Out c'.
Proof.
  intros [H1 H2]. unfold pop_off. rewrite H2, i32_small by lia. replace (c_noff c <? 1) with false by lia.
  eexists. split; [reflexivity|]. simpl. split; [lia|]. intros H. replace (_ =? 0) with false by lia. reflexivity.
Qed.

(** CPU [i] moves to [p]: what has to be checked. *)
Lemma inv_update s s' i p :
  spin_inv s -> (forall j, sp_pc s' j = if decide (j = i) then p else sp_pc s j) ->
  (forall j, j <> i -> sp_cpus s' j = sp_cpus s j) -> cpu_ok p (sp_cpus s' i) ->
  (owns p = true -> owns (sp_pc s i) = true \/ sp_locked s = false) ->
  sp_locked s' = owns p || sp_locked s && negb (owns (sp_pc s i)) ->
  sp_cpu s' = (if recorded p then Some i else if recorded (sp_pc s i) then None else sp_cpu s) ->
  spin_inv s'.
Proof.
  intros [I1 I2 I3 I4 I5] Hpc Hcpus Hok Hown Hl Hc.
  assert (Hoth : owns p = true -> forall j, j <> i -> owns (sp_pc s j) = false).
  { intros Hp j Hj. destruct (owns (sp_pc s j)) eqn:E; [|reflexivity].
    destruct (Hown Hp) as [Hi|Hf]; [destruct Hj; auto|]. rewrite (I2 j E) in Hf. discriminate. }
  split.
  - intros j k. rewrite !Hpc. repeat case_decide; subst; auto; intros H1 H2;
      rewrite Hoth in *; auto; discriminate.
  - intros j. rewrite Hpc, Hl. case_decide as Ej; [intros ->; reflexivity|]. intros Hj. rewrite (I2 j Hj).
    destruct (owns (sp_pc s i)) eqn:E; [destruct Ej; auto|]. rewrite orb_true_r. reflexivity.
  - rewrite Hl. intros [Hp|Hp]%orb_true_iff; [exists i; rewrite Hpc, decide_True by reflexivity; exact Hp|].
    apply andb_true_iff in Hp as [Hp Hi]. destruct (I3 Hp) as [j Hj]. exists j. rewrite Hpc.
    case_decide; [subst; rewrite Hj in Hi; discriminate|exact Hj].
  - intros j. rewrite Hpc, Hc. destruct (recorded p) eqn:Ep.
    + case_decide as Ej; [subst; tauto|]. assert (Hp : owns p = true) by (destruct p; simpl in *; congruence).
      pose proof (Hoth Hp j Ej) as Hj. split; [congruence|]. destruct (sp_pc s j); simpl in *; congruence.
    + destruct (recorded (sp_pc s i)) eqn:Ei.
      * case_decide; [subst; rewrite Ep; split; congruence|]. rewrite <- I4. apply I4 in Ei. rewrite Ei.
        split; congruence.
      * case_decide; [subst; rewrite I4, Ei, Ep; tauto|apply I4].
  - intros j. rewrite Hpc. case_decide as Ej; [subst; exact Hok|]. rewrite Hcpus by exact Ej. apply I5.
Qed.


Lemma exec_inv i s : spin_inv s -> exists s', exec i s = inr s' /\ spin_inv s'.
Proof.
  intros Hi. pose proof (si_ok _ Hi i) as Hok. pose proof (si_locked _ Hi i) as Hl.
  pose proof (si_cpu _ Hi i) as Hc. unfold exec, is_mine.
  destruct (sp_pc s i) eqn:Epc; simpl in Hl, Hc, Hok; try rewrite (Hl eq_refl).
  - eexists. split; [reflexivity|]. eapply (inv_update s _ i Check1); simpl; rewrite ?Epc; auto.
    + intros j Hj. rewrite decide_False by exact Hj. reflexivity.
    + rewrite decide_True by reflexivity. apply push_off_ok, Hok.
    + rewrite andb_true_r. reflexivity.
  - eexists. split; [reflexivity|].
    eapply (inv_update s _ i (if sp_locked s then Check2 else Spin)); simpl; rewrite ?Epc; auto;
      destruct (sp_locked s); simpl; auto.
  - rewrite bool_decide_false by (rewrite Hc; discriminate). eexists. split; [reflexivity|].
    eapply (inv_update s _ i Spin); simpl; rewrite ?Epc; auto. rewrite andb_true_r. reflexivity.
  - destruct (sp_locked s) eqn:El; eexists; (split; [reflexivity|]); [exact Hi|].
    eapply (inv_update s _ i Got); simpl; rewrite ?Epc; auto.
  - eexists. split; [reflexivity|]. eapply (inv_update s _ i Inside); simpl; rewrite ?Epc; auto.
  - eexists. split; [reflexivity|].
    eapply (inv_update s _ i Check3); simpl; rewrite ?Epc; auto. apply Hc. reflexivity.
  - rewrite bool_decide_true by (apply Hc; reflexivity). eexists. split; [reflexivity|].
    eapply (inv_update s _ i Clear); simpl; rewrite ?Epc; auto. apply Hc. reflexivity.
  - eexists. split; [reflexivity|]. eapply (inv_update s _ i Unlock); simpl; rewrite ?Epc; auto.
  - eexists. split; [reflexivity|]. eapply (inv_update s _ i Pop); simpl; rewrite ?Epc; auto.
    rewrite andb_false_r. reflexivity.
  - destruct (pop_off_ok (sp_cpus s i) Hok) as (c & -> & Hc'). eexists. split; [reflexivity|].
    eapply (inv_update s _ i Out); simpl; rewrite ?Epc; auto.
    + intros j Hj. rewrite decide_False by exact Hj. reflexivity.
    + rewrite decide_True by reflexivity. exact Hc'.
    + rewrite andb_true_r. reflexivity.
Qed.

Lemma run_inv sched : forall s, spin_inv s -> exists s', run sched s = inr s' /\ spin_inv s'.
Proof.
  induction sched as [|i sched IH]; intros s Hi; simpl; [eauto|].
  destruct (exec_inv i s Hi) as (s' & -> & Hi'). auto.
Qed.

(** C31. Mutual exclusion.  CPUs that use an initialised lock, each going through
    acquire and release over and over with their accesses interleaved in any
    order, never panic; at any time at most one of them is between taking the
    lock and giving it up, the lock records that CPU as its holder while it is
    in its critical section, and every CPU inside acquire, the critical section
    or release has its interrupts off. *)
Theorem spinlock_mutex (sched : list nat) (s : spin) :
  (forall i, sp_pc s i = Out /\ cpu_ok Out (sp_cpus s i)) ->
  exists s', run sched (initlock s) = inr s' /\
    (forall i j, owns (sp_pc s' i) = true -> owns (sp_pc s' j) = true -> i = j) /\
    (forall i, sp_pc s' i = Inside -> sp_locked s' = true /\ sp_cpu s' = Some i) /\
    (forall i, sp_pc s' i <> Out -> c_intr (sp_cpus s' i) = false).
Proof.
  intros Hs. destruct (run_inv sched (initlock s)) as (s' & E & [I1 I2 I3 I4 I5]).
  - split; simpl; intros; try (destruct (Hs i) as [Hp Hc]; rewrite Hp in *); simpl in *; try discriminate;
      auto. split; discriminate.
  - exists s'. split; [exact E|]. split; [exact I1|]. split.
    + intros i Hp. split; [apply (I2 i)|apply I4]; rewrite Hp; reflexivity.
    + intros i Hp. specialize (I5 i). destruct (sp_pc s' i); simpl in I5; tauto.
Qed.

Definition ex_spin : spin := Spinlock true (Some 3%nat) (fun _ => Out) (fun _ => Cpu true 0 false).

Lemma spinlock_mutex_witness : exists s',
  run [0; 1; 0; 1; 0; 1; 0; 1; 1; 0; 0; 1]%nat (initlock ex_spin) = inr s' /\
  (forall i j, owns (sp_pc s' i) = true -> owns (sp_pc s' j) = true -> i = j) /\
  (forall i, sp_pc s' i = Inside -> sp_locked s' = true /\ sp_cpu s' = Some i) /\
  (forall i, sp_pc s' i <> Out -> c_intr (sp_cpus s' i) = false).
Proof.
  apply (spinlock_mutex [0; 1; 0; 1; 0; 1; 0; 1; 1; 0; 0; 1]%nat ex_spin).
  intros i. split; [reflexivity|]. simpl. split; [closed|]. intros H. discriminate.
Defined.

Lemma pop_push c : 0 <= c_noff c < 2 ^ 31 - 1 -> (0 < c_noff c -> c_intr c = false) ->
  pop_off (push_off c) = inr (Cpu (c_intr c) (c_noff c) (if c_noff c =? 0 then c_intr c else c_intena c)).
Proof.
  intros H1 H2. unfold pop_off, push_off. simpl. rewrite i32_small by lia.
  replace (c_noff c + 1 <? 1) with false by lia. rewrite i32_small by lia.
  replace (c_noff c + 1 - 1) with (c_noff c) by lia. destruct (Z.eqb_spec (c_noff c) 0); [reflexivity|].
  rewrite H2 by lia. reflexivity.
Qed.

Definition pop_off_from (r : string + cpu) : string + cpu :=
  match r with inr c => pop_off c | inl m => inl m end.

Lemma pops_pushes n : forall c, 0 < c_noff c -> c_noff c + Z.of_nat n < 2 ^ 31 -> c_intr c = false ->
  Nat.iter n pop_off_from (inr (Nat.iter n push_off c)) = inr c.
Proof.
  induction n as [|n IH]; intros c H1 H2 H3; [reflexivity|].
  rewrite (Nat.iter_succ_r n push_off), Nat.iter_succ.
  rewrite IH; simpl; rewrite ?i32_small by lia; try lia; try reflexivity.
  rewrite pop_push by lia. replace (c_noff c =? 0) with false by lia. destruct c; reflexivity.
Qed.

Lemma pushes_off n : forall c, 0 <= c_noff c -> c_noff c + Z.of_nat (S n) < 2 ^ 31 ->
  c_intr (Nat.iter (S n) push_off c) = false /\ c_noff (Nat.iter (S n) push_off c) = c_noff c + Z.of_nat (S n).
Proof.
  induction n as [|n IH]; intros c H1 H2; [simpl; rewrite i32_small by lia; split; [reflexivity|lia]|].
  rewrite Nat.iter_succ. destruct (IH c H1 ltac:(lia)) as [A1 A2]. set (d := Nat.iter _ _ _) in *.
  clearbody d. split; [reflexivity|]. simpl c_noff. rewrite A2, i32_small by lia. lia.
Qed.

(** Interrupts are disabled by nested calls of push_off and come back exactly
    when the outermost pop_off undoes the first push_off, if they were enabled
    before it: [n] calls of push_off and then [n] of pop_off restore the
    interrupt flag and the depth, none of them panics, and interrupts are off
    in between. *)
Theorem push_pop_nest (n : nat) (c : cpu) :
  0 <= c_noff c -> c_noff c + Z.of_nat (S n) < 2 ^ 31 -> (0 < c_noff c -> c_intr c = false) ->
  let down := Nat.iter (S n) push_off c in
  c_intr down = false /\ c_noff down = c_noff c + Z.of_nat (S n) /\
  Nat.iter (S n) pop_off_from (inr down) =
    inr (Cpu (c_intr c) (c_noff c) (if c_noff c =? 0 then c_intr c else c_intena c)).
Proof.
  intros H1 H2 H3 down. destruct (pushes_off n c H1 H2) as [A1 A2]. split; [exact A1|]. split; [exact A2|].
  unfold down. rewrite (Nat.iter_succ_r n push_off), Nat.iter_succ.
  rewrite pops_pushes; simpl; rewrite ?i32_small by lia; try lia; try reflexivity.
  apply pop_push; [lia|exact H3].
Qed.

Lemma push_pop_nest_witness :
  Nat.iter 3 pop_off_from (inr (Nat.iter 3 push_off (Cpu true 0 false))) = inr (Cpu true 0 true).
Proof. apply (push_pop_nest 2 (Cpu true 0 false)); [closed|closed|discriminate]. Defined.
