(* ===== verification/Sleeplock.v ===== *)
(** * Sleeping locks

    [kernel/sleeplock.c].  A sleep lock is a flag and the pid of its holder,
    protected by a spin lock.  The operations are written for a sleep lock
    inside a larger state; [fuel] bounds how often a waiting thread is woken and
    finds the lock taken again. *)

From S2P Require Import Prelude.

Record sleeplock : Type := Sleeplock {
  sl_lk : bool;       (* spinlock lk *)
  sl_locked : bool;
  sl_pid : Z
}.

Definition sl_spin : lens sleeplock bool :=
  Lens sl_lk (fun b l => Sleeplock b (sl_locked l) (sl_pid l)).

Definition set_locked (b : bool) (l : sleeplock) : sleeplock := Sleeplock (sl_lk l) b (sl_pid l).
Definition set_pid (p : Z) (l : sleeplock) : sleeplock := Sleeplock (sl_lk l) (sl_locked l) p.

Definition initsleeplock : sleeplock := Sleeplock false false 0.

(** [chan] is the address of the lock. *)
Fixpoint acquiresleep_loop (fuel : nat) (chan : Z) : M sleeplock unit :=
  match fuel with
  | O => nofuel
  | S fuel =>
      let! l := gets (fun l => l) in
      if sl_locked l then sleep chan sl_spin ;; acquiresleep_loop fuel chan else ret tt
  end.

Definition acquiresleep (fuel : nat) (chan mypid : Z) : M sleeplock unit :=
  acquire sl_spin ;;
  acquiresleep_loop fuel chan ;;
  modify (set_locked true) ;;
  modify (set_pid mypid) ;;
  release sl_spin.

(** [wakeup(lk)] makes the waiting threads runnable and leaves the lock as it is. *)
Definition releasesleep : M sleeplock unit :=
  acquire sl_spin ;;
  modify (set_locked false) ;;
  modify (set_pid 0) ;;
  release sl_spin.

Definition holdingsleep (mypid : Z) : M sleeplock bool :=
  acquire sl_spin ;;
  let! r := gets (fun l => sl_locked l && (sl_pid l =? mypid)) in
  release sl_spin ;;
  ret r.

Lemma acquiresleep_free fuel chan pid l : sl_lk l = false -> sl_locked l = false ->
  acquiresleep (S fuel) chan pid l = Ret tt (Sleeplock false true pid).
Proof. destruct l. simpl. intros -> ->. reflexivity. Qed.

Lemma releasesleep_ret l : sl_lk l = false -> releasesleep l = Ret tt (Sleeplock false false 0).
Proof. destruct l. simpl. intros ->. reflexivity. Qed.

Lemma holdingsleep_ret pid l : sl_lk l = false ->
  holdingsleep pid l = Ret (sl_locked l && (sl_pid l =? pid)) l.
Proof. destruct l. simpl. intros ->. reflexivity. Qed.

(** Whatever the other threads do while it sleeps, a thread that returns from
    [acquiresleep] holds the lock, and it never sleeps with the spin lock held. *)
Lemma acquiresleep_safe fuel chan pid l : sl_lk l = false ->
  safe (fun l => sl_lk l = false) (fun _ l' => l' = Sleeplock false true pid)
    (acquiresleep fuel chan pid l).
Proof.
  intros Hl. unfold acquiresleep. unfold bind at 1, acquire. simpl. rewrite Hl. simpl.
  apply (safe_bind _ (fun _ l => sl_lk l = true)).
  2: { intros _ [k b p] Hk. simpl in Hk. rewrite Hk. reflexivity. }
  assert (Hk : sl_lk (Sleeplock true (sl_locked l) (sl_pid l)) = true) by reflexivity.
  revert Hk. generalize (Sleeplock true (sl_locked l) (sl_pid l)). clear.
  induction fuel as [|fuel IH]; intros l Hl; cbn [acquiresleep_loop]; [exact I|].
  rewrite bind_gets. destruct (sl_locked l); [|exact Hl].
  unfold bind, sleep. simpl. rewrite Hl. simpl. split; [reflexivity|].
  intros l' Hl'. unfold acquire. simpl. rewrite Hl'. simpl. apply IH. reflexivity.
Qed.
