(* ===== verification/Block.v ===== *)
(** * The block cache as its clients see it

    The interface between the buffer cache ([kernel/bio.c]) and the layers above
    it.  The abstract state ([bst]) holds the blocks on disk, the blocks as seen
    through the cache, reference counts and locks, and the sequence of disk
    writes; each cache operation is one abstract update.  [BlockCache] is the
    class of implementations, [BlockCacheLaws] what they promise: every
    operation implements its abstract update, provided its caller respects the
    discipline of the cache (a buffer is released clean or pinned, a block
    is not read twice at a time, and not all buffers are in use). *)

From S2P Require Import Prelude.

Definition BSIZE : Z := 1024.
Definition MAXOPBLOCKS : Z := 10.
Definition LOGBLOCKS : Z := MAXOPBLOCKS * 3.
Definition NBUF : Z := MAXOPBLOCKS * 3.

(** Reference counts are unsigned ints; below this bound one more fits. *)
Definition REFMAX : Z := 2 ^ 32 - 1.

(** The contents of a block, byte by byte. *)
Definition block : Type := Z -> Z.

(** ** The abstract cache *)

Record bst : Type := Bst {
  a_disk : Z -> block;
  a_view : Z -> block;
  a_ref : Z -> Z;
  a_held : Z -> bool;
  a_busy : Z;                   (* blocks with a positive reference count *)
  a_writes : list (Z * block)   (* disk writes so far, oldest first *)
}.

(** States are compared block by block. *)
#[global] Instance bst_equiv : Equiv bst := fun a a' =>
  (forall b, a_disk a b = a_disk a' b) /\ (forall b, a_view a b = a_view a' b) /\
  (forall b, a_ref a b = a_ref a' b) /\ (forall b, a_held a b = a_held a' b) /\
  a_busy a = a_busy a' /\ a_writes a = a_writes a'.

#[global] Instance bst_equivalence : Equivalence (≡@{bst}).
Proof.
  split.
  - intros a. repeat split.
  - intros a a' (H1 & H2 & H3 & H4 & H5 & H6). repeat split; auto.
  - intros a a' a'' (H1 & H2 & H3 & H4 & H5 & H6) (G1 & G2 & G3 & G4 & G5 & G6).
    repeat split; congruence || (intros; etransitivity; eauto).
Qed.

Definition a_get (b : Z) (a : bst) : bst :=
  Bst (a_disk a) (a_view a) (upd (a_ref a) b (a_ref a b + 1)) (upd (a_held a) b true)
      (if a_ref a b =? 0 then a_busy a + 1 else a_busy a) (a_writes a).
Definition a_set (b : Z) (d : block) (a : bst) : bst :=
  Bst (a_disk a) (upd (a_view a) b d) (a_ref a) (a_held a) (a_busy a) (a_writes a).
Definition a_write (b : Z) (a : bst) : bst :=
  Bst (upd (a_disk a) b (a_view a b)) (a_view a) (a_ref a) (a_held a) (a_busy a)
      (a_writes a ++ [(b, a_view a b)]).
Definition a_pin (b : Z) (a : bst) : bst :=
  Bst (a_disk a) (a_view a) (upd (a_ref a) b (a_ref a b + 1)) (a_held a) (a_busy a) (a_writes a).
Definition a_unpin (b : Z) (a : bst) : bst :=
  Bst (a_disk a) (a_view a) (upd (a_ref a) b (a_ref a b - 1)) (a_held a)
      (if a_ref a b =? 1 then a_busy a - 1 else a_busy a) (a_writes a).
Definition a_rel (b : Z) (a : bst) : bst :=
  let a := a_unpin b a in
  Bst (a_disk a) (a_view a) (a_ref a) (upd (a_held a) b false) (a_busy a) (a_writes a).

#[global] Instance a_get_proper b : Proper ((≡) ==> (≡)) (a_get b).
Proof.
  intros a a' (H1 & H2 & H3 & H4 & H5 & H6). unfold a_get. rewrite H3, H5.
  repeat split; simpl; auto; intros; unfold upd; case_test; auto.
Qed.

#[global] Instance a_set_proper b d : Proper ((≡) ==> (≡)) (a_set b d).
Proof.
  intros a a' (H1 & H2 & H3 & H4 & H5 & H6). unfold a_set.
  repeat split; simpl; auto; intros; unfold upd; case_test; auto.
Qed.

#[global] Instance a_write_proper b : Proper ((≡) ==> (≡)) (a_write b).
Proof.
  intros a a' (H1 & H2 & H3 & H4 & H5 & H6). unfold a_write. rewrite H2, H6.
  repeat split; simpl; auto; intros; unfold upd; case_test; auto.
Qed.

#[global] Instance a_pin_proper b : Proper ((≡) ==> (≡)) (a_pin b).
Proof.
  intros a a' (H1 & H2 & H3 & H4 & H5 & H6). unfold a_pin. rewrite H3.
  repeat split; simpl; auto; intros; unfold upd; case_test; auto.
Qed.

#[global] Instance a_unpin_proper b : Proper ((≡) ==> (≡)) (a_unpin b).
Proof.
  intros a a' (H1 & H2 & H3 & H4 & H5 & H6). unfold a_unpin. rewrite H3, H5.
  repeat split; simpl; auto; intros; unfold upd; case_test; auto.
Qed.

#[global] Instance a_rel_proper b : Proper ((≡) ==> (≡)) (a_rel b).
Proof.
  intros a a' H. apply (a_unpin_proper b) in H. destruct H as (H1 & H2 & H3 & H4 & H5 & H6).
  unfold a_rel. repeat split; simpl in *; auto; intros; unfold upd in *; case_test; auto.
Qed.

(** ** Implementations *)

(** A buffer is a pointer; [bdata] and [bblockno] are its fields. *)
Class BlockCache (S : Type) : Type := {
  bread : Z -> Z -> M S Z;
  bwrite : Z -> M S unit;
  brelse : Z -> M S unit;
  bpin : Z -> M S unit;
  bunpin : Z -> M S unit;
  bdata : S -> Z -> block;
  bblockno : S -> Z -> Z;
  bset : Z -> block -> M S unit
}.

(** What an implementation promises for the blocks of device [dev]. *)
Class BlockCacheLaws (S : Type) `{BlockCache S} (dev : Z) : Type := {
  bc_inv : S -> Prop;
  bc_abs : S -> bst;
  bc_handle : S -> Z -> Z -> Prop;   (* buffer, block *)
  bc_data : forall s h b, bc_inv s -> bc_handle s h b ->
    bdata s h = a_view (bc_abs s) b /\ bblockno s h = b;
  bc_read : forall s b, bc_inv s -> a_held (bc_abs s) b = false ->
    0 < a_ref (bc_abs s) b \/ a_busy (bc_abs s) < NBUF -> a_ref (bc_abs s) b < REFMAX ->
    exists h s', bread dev b s = Ret h s' /\ bc_inv s' /\ bc_handle s' h b /\
      bc_abs s' ≡ a_get b (bc_abs s) /\
      (forall h' b', bc_handle s h' b' -> 0 < a_ref (bc_abs s) b' -> bc_handle s' h' b');
  bc_set : forall s h b d, bc_inv s -> bc_handle s h b -> a_held (bc_abs s) b = true ->
    0 < a_ref (bc_abs s) b ->
    exists s', bset h d s = Ret tt s' /\ bc_inv s' /\ bc_abs s' ≡ a_set b d (bc_abs s) /\
      (forall h' b', bc_handle s h' b' -> bc_handle s' h' b');
  bc_write : forall s h b, bc_inv s -> bc_handle s h b -> a_held (bc_abs s) b = true ->
    0 < a_ref (bc_abs s) b ->
    exists s', bwrite h s = Ret tt s' /\ bc_inv s' /\ bc_abs s' ≡ a_write b (bc_abs s) /\
      (forall h' b', bc_handle s h' b' -> bc_handle s' h' b');
  bc_pin : forall s h b, bc_inv s -> bc_handle s h b -> 0 < a_ref (bc_abs s) b < REFMAX ->
    exists s', bpin h s = Ret tt s' /\ bc_inv s' /\ bc_abs s' ≡ a_pin b (bc_abs s) /\
      (forall h' b', bc_handle s h' b' -> bc_handle s' h' b');
  bc_unpin : forall s h b, bc_inv s -> bc_handle s h b -> 1 < a_ref (bc_abs s) b ->
    exists s', bunpin h s = Ret tt s' /\ bc_inv s' /\ bc_abs s' ≡ a_unpin b (bc_abs s) /\
      (forall h' b', bc_handle s h' b' -> bc_handle s' h' b');
  bc_rel : forall s h b, bc_inv s -> bc_handle s h b -> a_held (bc_abs s) b = true ->
    0 < a_ref (bc_abs s) b ->
    1 < a_ref (bc_abs s) b \/ a_view (bc_abs s) b = a_disk (bc_abs s) b ->
    exists s', brelse h s = Ret tt s' /\ bc_inv s' /\ bc_abs s' ≡ a_rel b (bc_abs s) /\
      (forall h' b', bc_handle s h' b' -> bc_handle s' h' b')
}.

(** ** Reading abstract states *)

Lemma eqv_disk (a a' : bst) b : a ≡ a' -> a_disk a b = a_disk a' b.
Proof. intros H. apply H. Qed.
Lemma eqv_view (a a' : bst) b : a ≡ a' -> a_view a b = a_view a' b.
Proof. intros H. apply H. Qed.
Lemma eqv_ref (a a' : bst) b : a ≡ a' -> a_ref a b = a_ref a' b.
Proof. intros H. apply H. Qed.
Lemma eqv_held (a a' : bst) b : a ≡ a' -> a_held a b = a_held a' b.
Proof. intros H. apply H. Qed.
Lemma eqv_busy (a a' : bst) : a ≡ a' -> a_busy a = a_busy a'.
Proof. intros H. apply H. Qed.
Lemma eqv_writes (a a' : bst) : a ≡ a' -> a_writes a = a_writes a'.
Proof. intros H. apply H. Qed.

(** Reduce an observation of a state to one of the state it came from. *)
Ltac abs_step :=
  match goal with
  | H : ?a ≡ _ |- context [a_disk ?a ?b] => rewrite (eqv_disk _ _ b H)
  | H : ?a ≡ _ |- context [a_view ?a ?b] => rewrite (eqv_view _ _ b H)
  | H : ?a ≡ _ |- context [a_ref ?a ?b] => rewrite (eqv_ref _ _ b H)
  | H : ?a ≡ _ |- context [a_held ?a ?b] => rewrite (eqv_held _ _ b H)
  | H : ?a ≡ _ |- context [a_busy ?a] => rewrite (eqv_busy _ _ H)
  | H : ?a ≡ _ |- context [a_writes ?a] => rewrite (eqv_writes _ _ H)
  end.

(** Case analysis on the comparisons of block numbers and counts, innermost
    first. *)
Ltac cases_eqb :=
  repeat match goal with
  | |- context [?x =? ?y] =>
      lazymatch x with
      | context [if _ then _ else _] => fail
      | _ => destruct (Z.eqb_spec x y); subst; try congruence; try lia
      end
  end.

Ltac abs_solve :=
  repeat abs_step; simpl; unfold upd; cases_eqb; try congruence; try lia; auto.

(** Two abstract states that differ only by computation. *)
Ltac abs_eq := repeat split; intros; simpl; unfold upd; cases_eqb; try congruence; try lia; auto.

(** ** The ideal cache

    The abstract state itself, with block numbers as buffers, is an
    implementation; it serves for examples. *)
Module Ideal.
#[global] Instance ideal_cache : BlockCache bst := {
  bread _ b a :=
    if a_held a b then Panic "would wait"
    else if (a_ref a b <=? 0) && (NBUF <=? a_busy a) then Panic "bget: no buffers"
    else Ret b (a_get b a);
  bwrite b a := if a_held a b then Ret tt (a_write b a) else Panic "bwrite";
  brelse b a := if a_held a b then Ret tt (a_rel b a) else Panic "brelse";
  bpin b a := Ret tt (a_pin b a);
  bunpin b a := Ret tt (a_unpin b a);
  bdata a b := a_view a b;
  bblockno _ b := b;
  bset b d a := Ret tt (a_set b d a)
}.

#[global] Instance ideal_laws (dev : Z) : BlockCacheLaws bst dev.
Proof.
  refine {| bc_inv := fun _ => True; bc_abs := fun a => a; bc_handle := fun _ h b => h = b |}.
  - intros s h b _ ->. auto.
  - intros s b _ Hh Hb _. simpl. rewrite Hh. replace (_ && _) with false by lia.
    eexists _, _. split; [reflexivity|]. auto.
  - intros s h b d _ -> Hh Hr. eexists. split; [reflexivity|]. auto.
  - intros s h b _ -> Hh Hr. simpl. rewrite Hh. eexists. split; [reflexivity|]. auto.
  - intros s h b _ -> Hr. eexists. split; [reflexivity|]. auto.
  - intros s h b _ -> Hr. eexists. split; [reflexivity|]. auto.
  - intros s h b _ -> Hh Hr _. simpl. rewrite Hh. eexists. split; [reflexivity|]. auto.
Defined.
End Ideal.
