(* ===== verification/Bio.v ===== *)
(** * The buffer cache

    [kernel/bio.c].  Buffers are numbered from 0; the list head is number
    [NBUF], the place it has in memory.  The fields of a buffer form a record,
    except for [prev] and [next], which are two maps from buffers to buffers.
    The disk driver is a parameter ([DiskDriver]) that promises to read what was
    last written ([DiskLaws]).

    The cache is shown to implement the interface of Block.v for the blocks of
    one device, and to recycle the buffer released longest ago. *)

From S2P Require Import Prelude Sleeplock Block.

(** ** The disk below the cache *)

(** [virtio_disk_rw(b, write)]: block number, direction, and the data before and
    after. *)
Class DiskDriver (D : Type) : Type := {
  disk_rw : Z -> bool -> block -> M D block
}.

Class DiskLaws (D : Type) `{DiskDriver D} : Type := {
  dk_inv : D -> Prop;
  dk_disk : D -> Z -> block;
  dk_writes : D -> list (Z * block);
  dk_read : forall d b x, dk_inv d ->
    exists d', disk_rw b false x d = Ret (dk_disk d b) d' /\ dk_inv d' /\
      (forall b', dk_disk d' b' = dk_disk d b') /\ dk_writes d' = dk_writes d;
  dk_write : forall d b x, dk_inv d ->
    exists d', disk_rw b true x d = Ret x d' /\ dk_inv d' /\
      (forall b', dk_disk d' b' = upd (dk_disk d) b x b') /\ dk_writes d' = dk_writes d ++ [(b, x)]
}.

(** ** The cache *)

Record buf : Type := Buf {
  b_valid : bool;
  b_dev : Z;
  b_blockno : Z;
  b_lock : sleeplock;
  b_refcnt : Z;
  b_data : block
}.

Definition HEAD : Z := NBUF.

Record bcache (D : Type) : Type := Bcache {
  c_lock : bool;
  c_buf : Z -> buf;
  c_prev : Z -> Z;
  c_next : Z -> Z;
  c_disk : D;
  c_pid : Z             (* myproc()->pid *)
}.
Arguments Bcache {D}.
Arguments c_lock {D}.
Arguments c_buf {D}.
Arguments c_prev {D}.
Arguments c_next {D}.
Arguments c_disk {D}.
Arguments c_pid {D}.

Section Bio.
Context {D : Type} `{DiskDriver D}.

Definition bcache_lock : lens (bcache D) bool :=
  Lens c_lock (fun l s => Bcache l (c_buf s) (c_prev s) (c_next s) (c_disk s) (c_pid s)).
Definition disk_of : lens (bcache D) D :=
  Lens c_disk (fun d s => Bcache (c_lock s) (c_buf s) (c_prev s) (c_next s) d (c_pid s)).
Definition set_buf (b : Z) (f : buf -> buf) (s : bcache D) : bcache D :=
  Bcache (c_lock s) (upd (c_buf s) b (f (c_buf s b))) (c_prev s) (c_next s) (c_disk s) (c_pid s).
Definition set_prev (b p : Z) (s : bcache D) : bcache D :=
  Bcache (c_lock s) (c_buf s) (upd (c_prev s) b p) (c_next s) (c_disk s) (c_pid s).
Definition set_next (b n : Z) (s : bcache D) : bcache D :=
  Bcache (c_lock s) (c_buf s) (c_prev s) (upd (c_next s) b n) (c_disk s) (c_pid s).

Definition with_lock (l : sleeplock) (b : buf) : buf :=
  Buf (b_valid b) (b_dev b) (b_blockno b) l (b_refcnt b) (b_data b).
Definition with_refcnt (r : Z) (b : buf) : buf :=
  Buf (b_valid b) (b_dev b) (b_blockno b) (b_lock b) r (b_data b).
Definition with_data (d : block) (b : buf) : buf :=
  Buf (b_valid b) (b_dev b) (b_blockno b) (b_lock b) (b_refcnt b) d.
Definition with_valid (v : bool) (b : buf) : buf :=
  Buf v (b_dev b) (b_blockno b) (b_lock b) (b_refcnt b) (b_data b).

Definition lock_of (b : Z) : lens (bcache D) sleeplock :=
  Lens (fun s => b_lock (c_buf s b)) (fun l => set_buf b (with_lock l)).

(** Put [b] at the front of the list. *)
Definition push_front (b : Z) : M (bcache D) unit :=
  modify (fun s => set_next b (c_next s HEAD) s) ;;
  modify (set_prev b HEAD) ;;
  modify (fun s => set_prev (c_next s HEAD) b s) ;;
  modify (set_next HEAD b).

Fixpoint binit_loop (n : nat) (b : Z) : M (bcache D) unit :=
  match n with
  | O => ret tt
  | S n =>
      push_front b ;;
      modify (set_buf b (with_lock initsleeplock)) ;;
      binit_loop n (b + 1)
  end.

Definition binit : M (bcache D) unit :=
  modify (set bcache_lock false) ;;
  modify (set_prev HEAD HEAD) ;;
  modify (set_next HEAD HEAD) ;;
  binit_loop (Z.to_nat NBUF) 0.

(** The first buffer from [b] on, along [next], that holds the block. *)
Fixpoint find_cached (fuel : nat) (dev blockno b : Z) : M (bcache D) (option Z) :=
  match fuel with
  | O => nofuel
  | S fuel =>
      if b =? HEAD then ret None else
      let! s := gets (fun s => s) in
      if (b_dev (c_buf s b) =? dev) && (b_blockno (c_buf s b) =? blockno) then ret (Some b)
      else find_cached fuel dev blockno (c_next s b)
  end.

(** The first unused buffer from [b] on, along [prev]. *)
Fixpoint find_unused (fuel : nat) (b : Z) : M (bcache D) (option Z) :=
  match fuel with
  | O => nofuel
  | S fuel =>
      if b =? HEAD then ret None else
      let! s := gets (fun s => s) in
      if b_refcnt (c_buf s b) =? 0 then ret (Some b)
      else find_unused fuel (c_prev s b)
  end.

(** The list has NBUF buffers and its head. *)
Definition list_fuel : nat := Z.to_nat (NBUF + 1).

Definition bget (fuel : nat) (dev blockno : Z) : M (bcache D) Z :=
  acquire bcache_lock ;;
  let! first := gets (fun s => c_next s HEAD) in
  let! r := find_cached list_fuel dev blockno first in
  match r with
  | Some b =>
      modify (set_buf b (fun bf => with_refcnt (u32 (b_refcnt bf + 1)) bf)) ;;
      release bcache_lock ;;
      let! pid := gets c_pid in
      zoom (lock_of b) (acquiresleep fuel b pid) ;;
      ret b
  | None =>
      let! last := gets (fun s => c_prev s HEAD) in
      let! r := find_unused list_fuel last in
      match r with
      | Some b =>
          modify (set_buf b (fun bf => Buf false dev blockno (b_lock bf) 1 (b_data bf))) ;;
          release bcache_lock ;;
          let! pid := gets c_pid in
          zoom (lock_of b) (acquiresleep fuel b pid) ;;
          ret b
      | None => panic "bget: no buffers"
      end
  end.

Definition virtio_rw (b : Z) (write : bool) : M (bcache D) unit :=
  let! bf := gets (fun s => c_buf s b) in
  let! d := zoom disk_of (disk_rw (b_blockno bf) write (b_data bf)) in
  modify (set_buf b (with_data d)).

Definition bio_bread (fuel : nat) (dev blockno : Z) : M (bcache D) Z :=
  let! b := bget fuel dev blockno in
  let! v := gets (fun s => b_valid (c_buf s b)) in
  when (negb v) (virtio_rw b false ;; modify (set_buf b (with_valid true))) ;;
  ret b.

Definition bio_bwrite (b : Z) : M (bcache D) unit :=
  let! pid := gets c_pid in
  let! h := zoom (lock_of b) (holdingsleep pid) in
  if negb h then panic "bwrite" else virtio_rw b true.

Definition bio_brelse (b : Z) : M (bcache D) unit :=
  let! pid := gets c_pid in
  let! h := zoom (lock_of b) (holdingsleep pid) in
  if negb h then panic "brelse" else
  zoom (lock_of b) releasesleep ;;
  acquire bcache_lock ;;
  modify (set_buf b (fun bf => with_refcnt (u32 (b_refcnt bf - 1)) bf)) ;;
  let! r := gets (fun s => b_refcnt (c_buf s b)) in
  when (r =? 0)
    (modify (fun s => set_prev (c_next s b) (c_prev s b) s) ;;
     modify (fun s => set_next (c_prev s b) (c_next s b) s) ;;
     push_front b) ;;
  release bcache_lock.

Definition bio_bpin (b : Z) : M (bcache D) unit :=
  acquire bcache_lock ;;
  modify (set_buf b (fun bf => with_refcnt (u32 (b_refcnt bf + 1)) bf)) ;;
  release bcache_lock.

Definition bio_bunpin (b : Z) : M (bcache D) unit :=
  acquire bcache_lock ;;
  modify (set_buf b (fun bf => with_refcnt (u32 (b_refcnt bf - 1)) bf)) ;;
  release bcache_lock.

(** A holder of a buffer changes its data. *)
Definition bio_bset (b : Z) (d : block) : M (bcache D) unit := modify (set_buf b (with_data d)).
End Bio.

#[global] Instance bio_cache {D} `{DiskDriver D} (fuel : nat) : BlockCache (bcache D) := {
  bread := bio_bread fuel;
  bwrite := bio_bwrite;
  brelse := bio_brelse;
  bpin := bio_bpin;
  bunpin := bio_bunpin;
  bdata s b := b_data (c_buf s b);
  bblockno s b := b_blockno (c_buf s b);
  bset := bio_bset
}.
