(* ===== verification/BioLaws.v ===== *)
(** * The buffer cache implements the block interface

    The recency list as a ring of pointers, the invariant of the cache, the
    laws of Block.v for it, and the recycling order. *)

From S2P Require Import Prelude Sleeplock Block Bio.

(** ** Rings *)

(** Following [nx] from [x] visits [l] and arrives at [y]; [pv] leads back. *)
Fixpoint linked (nx pv : Z -> Z) (x : Z) (l : list Z) (y : Z) : Prop :=
  match l with
  | [] => nx x = y /\ pv y = x
  | z :: l' => nx x = z /\ pv z = x /\ linked nx pv z l' y
  end.

Lemma linked_app nx pv l1 : forall x z l2 y,
  linked nx pv x (l1 ++ z :: l2) y <-> linked nx pv x l1 z /\ linked nx pv z l2 y.
Proof.
  induction l1 as [|a l1 IH]; intros x z l2 y; simpl; [tauto|]. rewrite IH. tauto.
Qed.

Lemma linked_rev nx pv l : forall x y, linked nx pv x l y -> linked pv nx y (reverse l) x.
Proof.
  induction l as [|a l IH]; intros x y; simpl; [tauto|]. intros (H1 & H2 & H3).
  rewrite reverse_cons. apply linked_app. split; [apply IH, H3|]. simpl. auto.
Qed.

Lemma linked_frame nx pv nx' pv' l : forall x y,
  (forall u, u ∈ x :: l -> nx' u = nx u) -> (forall u, u ∈ l ++ [y] -> pv' u = pv u) ->
  linked nx pv x l y -> linked nx' pv' x l y.
Proof.
  induction l as [|a l IH]; intros x y Hn Hp; simpl.
  - intros [H1 H2]. rewrite Hn, Hp by (simpl; left). auto.
  - intros (H1 & H2 & H3). rewrite Hn, Hp by (simpl; left). split; [exact H1|]. split; [exact H2|].
    apply IH; [| |exact H3]; intros u Hu; [apply Hn|apply Hp; simpl]; right; exact Hu.
Qed.

Lemma linked_next_in nx pv x l y : linked nx pv x l y -> nx x ∈ l ++ [y].
Proof. destruct l; simpl; intros [-> _]; left. Qed.

Lemma linked_prev_in nx pv l : forall x y, linked nx pv x l y -> pv y ∈ x :: l.
Proof.
  induction l as [|a l IH]; intros x y; simpl; [intros [_ ->]; left|].
  intros (_ & _ & H). right. apply IH, H.
Qed.

(** Taking [b] out of the ring. *)
Lemma linked_unlink nx pv l2 b y : forall l1 x,
  linked nx pv x l1 b -> linked nx pv b l2 y -> NoDup (x :: l1 ++ b :: l2) -> y ∉ l1 ++ b :: l2 ->
  linked (upd nx (pv b) (nx b)) (upd pv (nx b) (pv b)) x (l1 ++ l2) y.
Proof.
  induction l1 as [|a l1 IH]; intros x H1 H2 Hnd Hy.
  - simpl in *. destruct H1 as [Hx Hb]. rewrite Hb.
    apply NoDup_cons in Hnd as [Hx' Hnd]. apply NoDup_cons in Hnd as [Hb' Hnd].
    destruct l2 as [|c l2]; simpl in *.
    + destruct H2 as [H2 H3]. rewrite H2, !upd_eq. auto.
    + destruct H2 as (H2 & H3 & H4). rewrite H2, !upd_eq. split; [reflexivity|]. split; [reflexivity|].
      apply NoDup_cons in Hnd as [Hc Hnd].
      eapply linked_frame; [| |exact H4]; intros u Hu; apply upd_ne; intros ->.
      * apply Hx'. right. exact Hu.
      * apply elem_of_app in Hu as [Hu|Hu]; [contradiction|]. apply list_elem_of_singleton in Hu. subst.
        apply Hy. right. left.
  - simpl in H1. destruct H1 as (Hx & Ha & H1). simpl app in *.
    apply NoDup_cons in Hnd as [Hx' Hnd].
    pose proof (linked_prev_in _ _ _ _ _ H1) as Hp. pose proof (linked_next_in _ _ _ _ _ H2) as Hq.
    simpl. rewrite !upd_ne.
    + split; [exact Hx|]. split; [exact Ha|]. apply IH; auto. intros Hy'. apply Hy. right. exact Hy'.
    + intros ->. apply NoDup_cons in Hnd as [Ha' Hnd].
      apply elem_of_app in Hq as [Hq|Hq].
      * apply Ha'. apply elem_of_app. right. right. exact Hq.
      * apply list_elem_of_singleton in Hq. subst y. apply Hy. left.
    + intros ->. apply Hx'. apply elem_of_cons in Hp as [->|Hp]; [left|].
      right. apply elem_of_app. left. exact Hp.
Qed.

(** Putting [b] at the front. *)
Lemma linked_push nx pv h b l :
  linked nx pv h l h -> b ∉ h :: l -> h ∉ l -> NoDup l ->
  linked (upd (upd nx b (nx h)) h b) (upd (upd pv b h) (nx h) b) h (b :: l) h.
Proof.
  intros Hl Hb Hh Hnd. apply not_elem_of_cons in Hb as [Hbh Hbl].
  pose proof (linked_next_in _ _ _ _ _ Hl) as Hq.
  assert (Hbq : b <> nx h).
  { intros E. rewrite <- E in Hq. apply elem_of_app in Hq as [Hq|Hq]; [contradiction|].
    apply list_elem_of_singleton in Hq. contradiction. }
  split; [apply upd_eq|]. split; [rewrite upd_ne, upd_eq by exact Hbq; reflexivity|].
  destruct l as [|c l]; simpl in *.
  - destruct Hl as [Hl1 Hl2]. rewrite Hl1 in *. rewrite upd_ne by exact Hbh. rewrite !upd_eq. auto.
  - destruct Hl as (Hl1 & Hl2 & Hl3). rewrite Hl1 in *. rewrite upd_ne by exact Hbh.
    rewrite !upd_eq. split; [reflexivity|]. split; [reflexivity|].
    apply NoDup_cons in Hnd as [Hc Hnd].
    eapply linked_frame; [| |exact Hl3]; intros u Hu.
    + rewrite !upd_ne; [reflexivity| |]; intros ->; contradiction.
    + assert (u ∉ [c]).
      { intros Hc'. apply list_elem_of_singleton in Hc'. subst u.
        apply elem_of_app in Hu as [Hu|Hu]; [contradiction|]. apply list_elem_of_singleton in Hu. apply Hh. rewrite Hu. left. }
      rewrite !upd_ne; [reflexivity| |].
      * intros ->. apply elem_of_app in Hu as [Hu|Hu]; [apply Hbl; right; exact Hu|].
        apply list_elem_of_singleton in Hu. contradiction.
      * intros ->. apply H. left.
Qed.

(** ** The invariant *)

Definition all_bufs : list Z := seqZ 0 NBUF.

Section Laws.
Context {D : Type} `{DL : DiskLaws D} (dev : Z).

(** [order] lists the buffers from the most to the least recently released. *)
Definition in_order (s : bcache D) (order : list Z) : Prop :=
  linked (c_next s) (c_prev s) HEAD order HEAD /\ order ≡ₚ all_bufs.

Record bio_inv (s : bcache D) : Prop := {
  bi_lock : c_lock s = false;
  bi_order : exists order, in_order s order;
  bi_uniq : forall i j, i ∈ all_bufs -> j ∈ all_bufs ->
    b_dev (c_buf s i) = dev -> b_dev (c_buf s j) = dev ->
    b_blockno (c_buf s i) = b_blockno (c_buf s j) -> i = j;
  bi_ref : forall i, i ∈ all_bufs -> 0 <= b_refcnt (c_buf s i) < 2 ^ 32;
  bi_spin : forall i, i ∈ all_bufs -> sl_lk (b_lock (c_buf s i)) = false;
  bi_idle : forall i, i ∈ all_bufs -> b_refcnt (c_buf s i) = 0 ->
    sl_locked (b_lock (c_buf s i)) = false;
  bi_clean : forall i, i ∈ all_bufs -> b_refcnt (c_buf s i) = 0 -> b_dev (c_buf s i) = dev ->
    b_valid (c_buf s i) = true -> b_data (c_buf s i) = dk_disk (c_disk s) (b_blockno (c_buf s i));
  bi_disk : dk_inv (c_disk s)
}.

(** ** The blocks the cache shows *)

Definition holds (s : bcache D) (b i : Z) : bool :=
  (b_dev (c_buf s i) =? dev) && (b_blockno (c_buf s i) =? b).

Definition cached (s : bcache D) (b : Z) : option Z := head (filter (fun i => holds s b i) all_bufs).

Definition bio_view (s : bcache D) (b : Z) : block :=
  match cached s b with
  | Some i => if b_valid (c_buf s i) then b_data (c_buf s i) else dk_disk (c_disk s) b
  | None => dk_disk (c_disk s) b
  end.

Definition busy (s : bcache D) : Z :=
  Z.of_nat (length (filter (fun i => 0 < b_refcnt (c_buf s i)) all_bufs)).

Definition bio_abs (s : bcache D) : bst := {|
  a_disk := dk_disk (c_disk s);
  a_view := bio_view s;
  a_ref b := match cached s b with Some i => b_refcnt (c_buf s i) | None => 0 end;
  a_held b := match cached s b with Some i => sl_locked (b_lock (c_buf s i)) | None => false end;
  a_busy := busy s;
  a_writes := dk_writes (c_disk s)
|}.

(** Buffer [h] holds block [b]; if it is locked, this process holds the lock. *)
Definition bio_handle (s : bcache D) (h b : Z) : Prop :=
  h ∈ all_bufs /\ b_dev (c_buf s h) = dev /\ b_blockno (c_buf s h) = b /\ b_valid (c_buf s h) = true /\
  (sl_locked (b_lock (c_buf s h)) = true -> sl_pid (b_lock (c_buf s h)) = c_pid s).

Lemma holds_true s b i : holds s b i = true <-> b_dev (c_buf s i) = dev /\ b_blockno (c_buf s i) = b.
Proof. unfold holds. rewrite andb_true_iff, !Z.eqb_eq. reflexivity. Qed.

Lemma cached_some s b i : cached s b = Some i ->
  i ∈ all_bufs /\ b_dev (c_buf s i) = dev /\ b_blockno (c_buf s i) = b.
Proof.
  unfold cached. intros E. assert (Hi : i ∈ filter (fun i => holds s b i) all_bufs).
  { destruct (filter _ _); simplify_eq/=. left. }
  apply list_elem_of_filter in Hi as [Hh Hi]. apply Is_true_true, holds_true in Hh. tauto.
Qed.

Lemma cached_none s b i : cached s b = None -> i ∈ all_bufs -> b_dev (c_buf s i) = dev ->
  b_blockno (c_buf s i) <> b.
Proof.
  unfold cached. intros E Hi Hd Hb.
  assert (Hin : i ∈ filter (fun i => holds s b i) all_bufs).
  { apply list_elem_of_filter. split; [|exact Hi]. apply Is_true_true, holds_true. auto. }
  destruct (filter _ _); [apply elem_of_nil in Hin; contradiction|discriminate].
Qed.

Lemma cached_is s b i : bio_inv s -> i ∈ all_bufs -> b_dev (c_buf s i) = dev ->
  b_blockno (c_buf s i) = b -> cached s b = Some i.
Proof using.
  intros Hi Hin Hd Hb. destruct (cached s b) as [j|] eqn:E.
  - apply cached_some in E as (Hj & Hdj & Hbj). f_equal. apply (bi_uniq _ Hi); congruence.
  - exfalso. eapply cached_none; eauto.
Qed.

Lemma cached_ext s s' b :
  (forall i, i ∈ all_bufs -> b_dev (c_buf s' i) = b_dev (c_buf s i) /\
                             b_blockno (c_buf s' i) = b_blockno (c_buf s i)) ->
  cached s' b = cached s b.
Proof.
  intros Hs. unfold cached. f_equal. apply filter_ext_in. intros i Hi.
  destruct (Hs i Hi) as [E1 E2]. unfold holds. rewrite E1, E2. reflexivity.
Qed.

(** ** Changing one buffer *)

(** [s'] is [s] with buffer [h] replaced and driver state [d]. *)
Record changed (s : bcache D) (h : Z) (bf : buf) (d : D) (s' : bcache D) : Prop := {
  ch_lock : c_lock s' = false;
  ch_buf : c_buf s' h = bf;
  ch_other : forall i, i <> h -> c_buf s' i = c_buf s i;
  ch_disk : c_disk s' = d;
  ch_pid : c_pid s' = c_pid s
}.

Lemma all_bufs_nodup : NoDup all_bufs.
Proof. apply NoDup_seqZ. Qed.

(** The buffer keeps its block: what has to be checked for the invariant. *)
Lemma inv_changed s h bf d s' order :
  bio_inv s -> changed s h bf d s' -> in_order s' order -> h ∈ all_bufs ->
  b_dev bf = b_dev (c_buf s h) -> b_blockno bf = b_blockno (c_buf s h) ->
  0 <= b_refcnt bf < 2 ^ 32 -> sl_lk (b_lock bf) = false ->
  (b_refcnt bf = 0 -> sl_locked (b_lock bf) = false /\
    (b_dev bf = dev -> b_valid bf = true -> b_data bf = dk_disk d (b_blockno bf))) ->
  (forall b, b_dev bf <> dev \/ b <> b_blockno bf -> dk_disk d b = dk_disk (c_disk s) b) ->
  dk_inv d -> bio_inv s'.
Proof using.
  intros Hi Hc Ho Hh Ed Eb Hr Hs Hz Hdk Hd. destruct Hc as [C1 C2 C3 C4 C5].
  assert (Hb : forall i, c_buf s' i = if decide (i = h) then bf else c_buf s i).
  { intros i. case_decide; subst; auto. }
  assert (Hkey : forall i, b_dev (c_buf s' i) = b_dev (c_buf s i) /\ b_blockno (c_buf s' i) = b_blockno (c_buf s i)).
  { intros i. rewrite Hb. case_decide; subst; auto. }
  split; auto.
  - exists order. exact Ho.
  - intros i j Hi1 Hj1 E1 E2 E3. rewrite (proj1 (Hkey i)) in E1. rewrite (proj1 (Hkey j)) in E2.
    rewrite (proj2 (Hkey i)), (proj2 (Hkey j)) in E3.
    apply (bi_uniq _ Hi); auto.
  - intros i Hi1. rewrite Hb. case_decide; [exact Hr|]. apply (bi_ref _ Hi), Hi1.
  - intros i Hi1. rewrite Hb. case_decide; [exact Hs|]. apply (bi_spin _ Hi), Hi1.
  - intros i Hi1. rewrite Hb. case_decide; [apply Hz|]. apply (bi_idle _ Hi), Hi1.
  - intros i Hi1. rewrite C4, Hb. case_decide as Ei; [apply Hz|]. intros R E V.
    rewrite Hdk; [apply (bi_clean _ Hi); auto|].
    destruct (decide (b_dev bf = dev)) as [E'|E']; [right|left; exact E']. intros E2.
    apply Ei, (bi_uniq _ Hi); congruence.
  - rewrite C4. exact Hd.
Qed.

(** What the cache shows afterwards. *)
Lemma abs_changed s h bf d s' b :
  bio_inv s -> bio_inv s' -> changed s h bf d s' -> h ∈ all_bufs ->
  b_dev (c_buf s h) = dev -> b_blockno (c_buf s h) = b -> b_dev bf = dev -> b_blockno bf = b ->
  (forall b', b' <> b -> dk_disk d b' = dk_disk (c_disk s) b') ->
  bio_abs s' ≡ Bst (dk_disk d)
    (upd (bio_view s) b (if b_valid bf then b_data bf else dk_disk d b))
    (upd (a_ref (bio_abs s)) b (b_refcnt bf)) (upd (a_held (bio_abs s)) b (sl_locked (b_lock bf)))
    (busy s - (if decide (0 < b_refcnt (c_buf s h)) then 1 else 0) + (if decide (0 < b_refcnt bf) then 1 else 0))
    (dk_writes d).
Proof using.
  intros Hi Hi' Hc Hh Ed Eb Ed' Eb' Hdk. destruct Hc as [C1 C2 C3 C4 C5].
  assert (Hcb : cached s' b = Some h) by (apply cached_is; auto; congruence).
  assert (Hco : forall b', b' <> b -> match cached s' b' with Some i => i <> h | None => True end /\
                                      cached s' b' = cached s b').
  { intros b' Hb'. assert (E : cached s' b' = cached s b').
    { apply cached_ext. intros i Hin. destruct (decide (i = h)) as [->|Ei]; [rewrite C2; split; congruence|].
      rewrite C3 by exact Ei. auto. }
    split; [|exact E]. destruct (cached s' b') as [i|] eqn:Ec; [|exact I].
    apply cached_some in Ec as (_ & _ & Ec). intros ->. congruence. }
  assert (Hsel : forall (A : Type) (f : buf -> A) (x : A) b', b' <> b ->
    match cached s' b' with Some i => f (c_buf s' i) | None => x end =
    match cached s b' with Some i => f (c_buf s i) | None => x end).
  { intros A f x b' Hb'. destruct (Hco b' Hb') as [Hne <-]. destruct (cached s' b') as [i|]; [|reflexivity].
    rewrite C3 by exact Hne. reflexivity. }
  repeat split; intros; simpl.
  - rewrite C4. reflexivity.
  - unfold upd. destruct (Z.eqb_spec b0 b) as [->|Hne]; unfold bio_view.
    + rewrite Hcb, C2, C4. reflexivity.
    + rewrite C4, (Hsel _ (fun bf => if b_valid bf then b_data bf else dk_disk d b0)), Hdk by exact Hne.
      reflexivity.
  - unfold upd. destruct (Z.eqb_spec b0 b) as [->|Hne]; [rewrite Hcb, C2; reflexivity|].
    apply (Hsel _ b_refcnt _ _ Hne).
  - unfold upd. destruct (Z.eqb_spec b0 b) as [->|Hne]; [rewrite Hcb, C2; reflexivity|].
    apply (Hsel _ (fun bf => sl_locked (b_lock bf)) _ _ Hne).
  - unfold busy. rewrite (filter_count_update (fun i => 0 < b_refcnt (c_buf s i)) _ all_bufs h).
    + rewrite C2. reflexivity.
    + apply all_bufs_nodup.
    + exact Hh.
    + intros i _ Hne. rewrite C3 by exact Hne. reflexivity.
  - rewrite C4. reflexivity.
Qed.

(** ** Searching the list *)

Lemma find_cached_spec b (s : bcache D) l : forall x n,
  linked (c_next s) (c_prev s) x l HEAD -> HEAD ∉ l -> (length l < n)%nat ->
  find_cached n dev b (c_next s x) s = Ret (head (filter (fun i => holds s b i) l)) s.
Proof.
  induction l as [|a l IH]; intros x n Hl Hh Hn; (destruct n as [|n]; [simpl in Hn; lia|]); simpl in Hl.
  - destruct Hl as [-> _]. cbn [find_cached]. rewrite Z.eqb_refl. reflexivity.
  - destruct Hl as (-> & _ & Hl). apply not_elem_of_cons in Hh as [Ha Hh]. cbn [find_cached].
    destruct (Z.eqb_spec a HEAD); [congruence|]. rewrite bind_gets, filter_cons.
    fold (holds s b a). destruct (holds s b a); [rewrite decide_True by exact I; reflexivity|].
    rewrite decide_False by tauto. apply IH; auto. simpl in Hn. lia.
Qed.

Lemma find_unused_spec (s : bcache D) l : forall x n,
  linked (c_prev s) (c_next s) x l HEAD -> HEAD ∉ l -> (length l < n)%nat ->
  find_unused n (c_prev s x) s = Ret (head (filter (fun i => b_refcnt (c_buf s i) = 0) l)) s.
Proof.
  induction l as [|a l IH]; intros x n Hl Hh Hn; (destruct n as [|n]; [simpl in Hn; lia|]); simpl in Hl.
  - destruct Hl as [-> _]. cbn [find_unused]. rewrite Z.eqb_refl. reflexivity.
  - destruct Hl as (-> & _ & Hl). apply not_elem_of_cons in Hh as [Ha Hh]. cbn [find_unused].
    destruct (Z.eqb_spec a HEAD); [congruence|]. rewrite bind_gets, filter_cons.
    destruct (Z.eqb_spec (b_refcnt (c_buf s a)) 0) as [E|E]; [rewrite decide_True by exact E; reflexivity|].
    rewrite decide_False by exact E. apply IH; auto. simpl in Hn. lia.
Qed.

Lemma order_facts (s : bcache D) order : in_order s order ->
  (HEAD ∉ order) /\ NoDup order /\ length order = Z.to_nat NBUF /\ (forall i, i ∈ order <-> i ∈ all_bufs).
Proof using.
  intros [_ Hp]. split; [|split; [|split]].
  - rewrite Hp. unfold all_bufs. rewrite elem_of_seqZ. unfold HEAD. lia.
  - rewrite Hp. apply all_bufs_nodup.
  - rewrite Hp. apply length_seqZ.
  - intros i. rewrite Hp. reflexivity.
Qed.

(** The buffer that is recycled: the unused one released longest ago. *)
Definition victim (s : bcache D) (order : list Z) : option Z :=
  head (filter (fun i => b_refcnt (c_buf s i) = 0) (reverse order)).

Lemma victim_some s order h : in_order s order -> victim s order = Some h ->
  h ∈ all_bufs /\ b_refcnt (c_buf s h) = 0.
Proof using.
  intros Ho E. unfold victim in E.
  assert (Hin : h ∈ filter (fun i => b_refcnt (c_buf s i) = 0) (reverse order)).
  { destruct (filter _ _); simplify_eq/=. left. }
  apply list_elem_of_filter in Hin as [Hr Hin]. rewrite elem_of_reverse in Hin.
  apply order_facts in Ho as (_ & _ & _ & Ho). rewrite <- Ho. auto.
Qed.

Lemma victim_exists s order : bio_inv s -> in_order s order -> busy s < NBUF ->
  exists h, victim s order = Some h.
Proof using.
  intros Hi Ho Hb. unfold victim.
  destruct (filter _ (reverse order)) as [|h l] eqn:E; [|exists h; reflexivity].
  exfalso. unfold busy in Hb. rewrite (filter_ext_in _ (fun _ => True) all_bufs) in Hb.
  - replace (filter (fun _ => True) all_bufs) with all_bufs in Hb.
    + unfold all_bufs in Hb. rewrite length_seqZ in Hb. unfold NBUF, MAXOPBLOCKS in Hb. lia.
    + generalize all_bufs. induction l as [|i l IH]; [reflexivity|].
      rewrite filter_cons, decide_True by exact I. congruence.
  - intros i Hin. split; [intros; exact I|intros _]. pose proof (bi_ref _ Hi i Hin) as Hr.
    assert (b_refcnt (c_buf s i) <> 0); [|lia]. intros E0.
    assert (Hf : i ∈ filter (fun i => b_refcnt (c_buf s i) = 0) (reverse order)).
    { apply list_elem_of_filter. split; [exact E0|]. rewrite elem_of_reverse.
      apply order_facts in Ho as (_ & _ & _ & Ho). apply Ho, Hin. }
    rewrite E in Hf. apply elem_of_nil in Hf. contradiction.
Qed.

Lemma find_cached_all s order b : bio_inv s -> in_order s order ->
  find_cached list_fuel dev b (c_next s HEAD) (set bcache_lock true s) =
    Ret (cached s b) (set bcache_lock true s).
Proof using.
  intros Hi Ho. pose proof (order_facts _ _ Ho) as (H1 & H2 & H3 & H4).
  rewrite (find_cached_spec b (set bcache_lock true s) order HEAD); [|apply Ho|exact H1|rewrite H3; unfold list_fuel, NBUF, MAXOPBLOCKS; lia].
  change (holds (set bcache_lock true s) b) with (holds s b).
  f_equal. destruct (filter _ order) as [|i l] eqn:E; simpl.
  - destruct (cached s b) as [j|] eqn:Ej; [|reflexivity]. exfalso.
    apply cached_some in Ej as (Hj & Ej). rewrite <- holds_true in Ej.
    assert (Hf : j ∈ filter (fun i => holds s b i) order).
    { apply list_elem_of_filter. split; [apply Is_true_true, Ej|apply H4, Hj]. }
    rewrite E in Hf. apply elem_of_nil in Hf. contradiction.
  - symmetry. assert (Hf : i ∈ filter (fun i => holds s b i) order) by (rewrite E; left).
    apply list_elem_of_filter in Hf as [Hf Hin]. apply Is_true_true, holds_true in Hf.
    apply cached_is; try tauto. apply H4, Hin.
Qed.

(** ** Getting a buffer *)

Definition same_links (s s' : bcache D) : Prop := c_next s' = c_next s /\ c_prev s' = c_prev s.

Lemma in_order_links s s' order : same_links s s' -> in_order s order -> in_order s' order.
Proof. intros [E1 E2] [H1 H2]. split; [|exact H2]. rewrite E1, E2. exact H1. Qed.

Lemma virtio_read_spec s h : dk_inv (c_disk s) ->
  exists s' d', virtio_rw h false s = Ret tt s' /\ c_lock s' = c_lock s /\ same_links s s' /\
    c_buf s' = upd (c_buf s) h (with_data (dk_disk (c_disk s) (b_blockno (c_buf s h))) (c_buf s h)) /\
    c_disk s' = d' /\ c_pid s' = c_pid s /\ dk_inv d' /\
    (forall b, dk_disk d' b = dk_disk (c_disk s) b) /\ dk_writes d' = dk_writes (c_disk s).
Proof using.
  intros Hd. destruct (dk_read (c_disk s) (b_blockno (c_buf s h)) (b_data (c_buf s h)) Hd) as (d' & E & I' & V & W).
  unfold virtio_rw. rewrite bind_gets. erewrite bind_ret_l by (apply zoom_ret; exact E).
  eexists _, d'. split; [reflexivity|]. repeat split; auto.
Qed.

(** The disk after a read. *)
Definition reads (d d' : D) : Prop :=
  dk_inv d' /\ (forall b, dk_disk d' b = dk_disk d b) /\ dk_writes d' = dk_writes d.

(** From a locked buffer to the end of [bread]. *)
Lemma bread_tail s0 s h bf : dk_inv (c_disk s) -> same_links s0 s -> changed s0 h bf (c_disk s0) s ->
  exists s' d', (let! v := gets (fun s => b_valid (c_buf s h)) in
    when (negb v) (virtio_rw h false ;; modify (set_buf h (with_valid true))) ;; ret h) s = Ret h s' /\
    same_links s0 s' /\ reads (c_disk s0) d' /\
    changed s0 h (with_valid true (with_data
      (if b_valid bf then b_data bf else dk_disk (c_disk s0) (b_blockno bf)) bf)) d' s'.
Proof using.
  intros Hd Hl [C1 C2 C3 C4 C5]. rewrite bind_gets, C2. destruct (b_valid bf) eqn:Ev; cbn [negb when].
  - exists s, (c_disk s0). split; [reflexivity|]. split; [exact Hl|].
    split; [rewrite C4 in Hd; split; auto|]. split; auto. rewrite C2. destruct bf.
    unfold with_valid, with_data. simpl in *. congruence.
  - destruct (virtio_read_spec s h Hd) as (s1 & d' & E & L1 & L2 & L3 & L4 & L5 & L6 & L7 & L8).
    eexists _, d'. split.
    { unfold bind at 1. unfold bind at 1. rewrite E. reflexivity. }
    destruct Hl as [Hn Hp], L2 as [Ln Lp]. split; [split; simpl; congruence|].
    rewrite <- C4. split; [split; auto|].
    split; simpl; try congruence.
    + rewrite L3, !upd_eq, C2. reflexivity.
    + intros i Hne. rewrite upd_ne, L3, upd_ne by exact Hne. auto.
Qed.

Definition locked_by (pid : Z) : sleeplock := Sleeplock false true pid.


Lemma bget_lock fuel (s : bcache D) h : sl_lk (b_lock (c_buf s h)) = false ->
  sl_locked (b_lock (c_buf s h)) = false ->
  (release bcache_lock ;; let! pid := gets c_pid in zoom (lock_of h) (acquiresleep (S fuel) h pid) ;; ret h)
    (set bcache_lock true s) = Ret h (set_buf h (with_lock (locked_by (c_pid s))) (set bcache_lock false s)).
Proof.
  intros H1 H2. unfold bind at 1, release. simpl. rewrite bind_gets.
  erewrite bind_ret_l by (apply zoom_ret; apply acquiresleep_free; [exact H1|exact H2]). reflexivity.
Qed.

Lemma acquire_bcache s : bio_inv s -> acquire bcache_lock s = Ret tt (set bcache_lock true s).
Proof. intros Hi. unfold acquire. simpl. rewrite (bi_lock _ Hi). reflexivity. Qed.

Lemma bget_found fuel s order b h :
  bio_inv s -> in_order s order -> cached s b = Some h ->
  sl_locked (b_lock (c_buf s h)) = false -> b_refcnt (c_buf s h) < REFMAX ->
  exists s', bget (S fuel) dev b s = Ret h s' /\ same_links s s' /\
    changed s h (with_lock (locked_by (c_pid s)) (with_refcnt (b_refcnt (c_buf s h) + 1) (c_buf s h)))
      (c_disk s) s'.
Proof using.
  intros Hi Ho Hc Hl Hr. destruct (cached_some _ _ _ Hc) as (Hin & Ed & Eb).
  pose proof (bi_ref _ Hi h Hin) as Hr0. unfold bget.
  rewrite (bind_ret_l _ _ _ _ _ (acquire_bcache s Hi)), bind_gets.
  rewrite (bind_ret_l _ _ _ _ _ (find_cached_all s order b Hi Ho)), Hc, bind_modify.
  change (set_buf h ?f (set bcache_lock true s)) with (set bcache_lock true (set_buf h f s)).
  rewrite bget_lock; simpl; rewrite ?upd_eq; simpl; [|apply (bi_spin _ Hi), Hin|exact Hl].
  eexists. split; [reflexivity|]. split; [split; reflexivity|]. split; simpl; auto.
  - rewrite !upd_eq. unfold with_lock, with_refcnt, REFMAX, u32 in *. simpl. rewrite Z.mod_small by lia. reflexivity.
  - intros i Hne. rewrite !upd_ne by exact Hne. reflexivity.
Qed.

Lemma bget_recycle fuel s order b h :
  bio_inv s -> in_order s order -> cached s b = None -> victim s order = Some h ->
  exists s', bget (S fuel) dev b s = Ret h s' /\ same_links s s' /\
    changed s h (Buf false dev b (locked_by (c_pid s)) 1 (b_data (c_buf s h))) (c_disk s) s'.
Proof using.
  intros Hi Ho Hc Hv. destruct (victim_some _ _ _ Ho Hv) as [Hin Hr]. unfold bget.
  rewrite (bind_ret_l _ _ _ _ _ (acquire_bcache s Hi)), bind_gets.
  rewrite (bind_ret_l _ _ _ _ _ (find_cached_all s order b Hi Ho)), Hc, bind_gets.
  pose proof (order_facts _ _ Ho) as (H1 & H2 & H3 & H4).
  rewrite (bind_ret_l _ _ _ (Some h) (set bcache_lock true s)).
  2: { rewrite (find_unused_spec (set bcache_lock true s) (reverse order) HEAD).
       - unfold victim in Hv. rewrite <- Hv. reflexivity.
       - apply linked_rev, Ho.
       - rewrite elem_of_reverse. exact H1.
       - rewrite length_reverse, H3. unfold list_fuel, NBUF, MAXOPBLOCKS. lia. }
  rewrite bind_modify.
  change (set_buf h ?f (set bcache_lock true s)) with (set bcache_lock true (set_buf h f s)).
  rewrite bget_lock; simpl; rewrite ?upd_eq; simpl;
    [|apply (bi_spin _ Hi), Hin|apply (bi_idle _ Hi); assumption].
  eexists. split; [reflexivity|]. split; [split; reflexivity|]. split; simpl; auto.
  - rewrite !upd_eq. reflexivity.
  - intros i Hne. rewrite !upd_ne by exact Hne. reflexivity.
Qed.

(** A recycled buffer: nothing the cache shows is lost. *)
Lemma inv_recycled s h bf d s' order b :
  bio_inv s -> changed s h bf d s' -> in_order s' order -> h ∈ all_bufs -> reads (c_disk s) d ->
  cached s b = None -> b_refcnt (c_buf s h) = 0 ->
  b_dev bf = dev -> b_blockno bf = b -> b_refcnt bf = 1 -> sl_lk (b_lock bf) = false -> bio_inv s'.
Proof using.
  intros Hi [C1 C2 C3 C4 C5] Ho Hh (Hd & Hdk & _) Hc R Ed Eb Er Hs.
  assert (Hb : forall i, c_buf s' i = if decide (i = h) then bf else c_buf s i).
  { intros i. case_decide; subst; auto. }
  split; auto.
  - exists order. exact Ho.
  - intros i j Hi1 Hj1. rewrite !Hb. repeat case_decide; subst; auto; intros E1 E2 E3.
    + exfalso. apply (cached_none s _ j Hc); auto.
    + exfalso. apply (cached_none s _ i Hc); auto.
    + apply (bi_uniq _ Hi); auto.
  - intros i Hi1. rewrite Hb. case_decide; [lia|]. apply (bi_ref _ Hi), Hi1.
  - intros i Hi1. rewrite Hb. case_decide; [exact Hs|]. apply (bi_spin _ Hi), Hi1.
  - intros i Hi1. rewrite Hb. case_decide; [lia|]. apply (bi_idle _ Hi), Hi1.
  - intros i Hi1. rewrite C4, Hb. case_decide; [lia|]. rewrite Hdk. apply (bi_clean _ Hi), Hi1.
  - rewrite C4. exact Hd.
Qed.

Lemma abs_recycled s h bf d s' b :
  bio_inv s -> bio_inv s' -> changed s h bf d s' -> h ∈ all_bufs -> reads (c_disk s) d ->
  cached s b = None -> b_refcnt (c_buf s h) = 0 ->
  b_dev bf = dev -> b_blockno bf = b -> b_refcnt bf = 1 -> sl_locked (b_lock bf) = true ->
  b_data bf = dk_disk (c_disk s) b ->
  bio_abs s' ≡ a_get b (bio_abs s).
Proof using.
  intros Hi Hi' [C1 C2 C3 C4 C5] Hh (Hd & Hdk & Hw) Hc R Ed Eb Er Hs Hdt.
  assert (Hcb : cached s' b = Some h) by (apply cached_is; auto; congruence).
  assert (Hco : forall b', b' <> b -> (exists i, i <> h /\ cached s' b' = Some i /\ cached s b' = Some i) \/
    (cached s' b' = None /\ (cached s b' = None \/ cached s b' = Some h))).
  { intros b' Hne. destruct (cached s' b') as [i|] eqn:E.
    - left. exists i. apply cached_some in E as (E1 & E2 & E3).
      assert (i <> h) by congruence. rewrite C3 in E2, E3 by assumption.
      split; [assumption|]. split; [reflexivity|]. apply cached_is; auto.
    - right. split; [reflexivity|]. destruct (cached s b') as [i|] eqn:E'; [right|left; reflexivity].
      apply cached_some in E' as (E1 & E2 & E3). destruct (decide (i = h)) as [->|Hih]; [reflexivity|].
      exfalso. apply (cached_none s' b' i E); rewrite ?C3; auto. }
  assert (Hview : bio_view s b = dk_disk (c_disk s) b) by (unfold bio_view; rewrite Hc; reflexivity).
  repeat split; intros; simpl.
  - rewrite C4. apply Hdk.
  - destruct (decide (b0 = b)) as [->|Hne].
    + rewrite Hview. unfold bio_view. rewrite Hcb, C2, C4, Hdk, Hdt. destruct (b_valid bf); reflexivity.
    + unfold bio_view. rewrite C4, Hdk. destruct (Hco b0 Hne) as [(i & Hih & -> & ->)|[-> [->| E]]].
      * rewrite C3 by exact Hih. reflexivity.
      * reflexivity.
      * rewrite E. apply cached_some in E as (E1 & E2 & E3). destruct (b_valid (c_buf s h)) eqn:Ev; [|reflexivity].
        rewrite (bi_clean _ Hi h) by auto. congruence.
  - rewrite Hc. unfold upd. destruct (Z.eqb_spec b0 b) as [->|Hne]; [rewrite Hcb, C2; exact Er|].
    destruct (Hco b0 Hne) as [(i & Hih & -> & ->)|[-> [->| ->]]]; [rewrite C3 by exact Hih|..]; auto.
  - unfold upd. destruct (Z.eqb_spec b0 b) as [->|Hne]; [rewrite Hcb, C2; exact Hs|].
    destruct (Hco b0 Hne) as [(i & Hih & -> & ->)|[-> [->| ->]]]; [rewrite C3 by exact Hih|..]; auto.
    symmetry. apply (bi_idle _ Hi); auto.
  - rewrite Hc, Z.eqb_refl. unfold busy.
    rewrite (filter_count_update (fun i => 0 < b_refcnt (c_buf s i)) _ all_bufs h).
    + rewrite C2, R, Er. simpl. lia.
    + apply all_bufs_nodup.
    + exact Hh.
    + intros i _ Hne. rewrite C3 by exact Hne. reflexivity.
  - rewrite C4. exact Hw.
Qed.

(** ** The operations *)

Lemma handle_changed s h bf d s' h' b' : changed s h bf d s' -> bio_handle s h' b' -> h' <> h ->
  bio_handle s' h' b'.
Proof.
  intros [C1 C2 C3 C4 C5] (H1 & H2 & H3 & H4 & H5) Hne. unfold bio_handle. rewrite C3, C5 by exact Hne. auto.
Qed.

Lemma bread_spec fuel s order b :
  bio_inv s -> in_order s order -> a_held (bio_abs s) b = false ->
  0 < a_ref (bio_abs s) b \/ a_busy (bio_abs s) < NBUF -> a_ref (bio_abs s) b < REFMAX ->
  exists h s', bio_bread (S fuel) dev b s = Ret h s' /\ bio_inv s' /\ in_order s' order /\
    bio_handle s' h b /\ bio_abs s' ≡ a_get b (bio_abs s) /\
    (cached s b = Some h \/ cached s b = None /\ victim s order = Some h) /\
    (forall h' b', bio_handle s h' b' -> 0 < a_ref (bio_abs s) b' -> bio_handle s' h' b').
Proof using.
  intros Hi Ho Hh Hb Hr. simpl in Hh, Hb, Hr. unfold bio_bread.
  destruct (cached s b) as [h|] eqn:Ec.
  - destruct (cached_some _ _ _ Ec) as (Hin & Ed & Eb). pose proof (bi_ref _ Hi h Hin) as Hr0.
    destruct (bget_found fuel s order b h) as (s1 & E1 & L1 & C1); auto.
    rewrite (bind_ret_l _ _ _ _ _ E1).
    destruct (bread_tail s s1 h _ ltac:(rewrite (ch_disk _ _ _ _ _ C1); apply Hi) L1 C1)
      as (s' & d' & E & L & (Rd & Rv & Rw) & C). simpl in C.
    assert (Ho' : in_order s' order) by (eapply in_order_links; eassumption).
    assert (Hi' : bio_inv s').
    { eapply inv_changed; eauto; simpl; unfold REFMAX in *; lia. }
    exists h, s'. split; [exact E|]. split; [exact Hi'|]. split; [exact Ho'|]. split; [|split; [|split; [auto|]]].
    + unfold bio_handle. rewrite (ch_buf _ _ _ _ _ C), (ch_pid _ _ _ _ _ C). simpl. auto 10.
    + rewrite (abs_changed s h _ d' s' b) by (eauto; simpl; auto).
      unfold a_get. simpl. rewrite Ec, Rw.
      repeat split; intros; simpl; auto.
      * unfold upd. destruct (Z.eqb_spec b0 b) as [->|Hne]; [|reflexivity].
        unfold bio_view. rewrite Ec. destruct (b_valid _); congruence.
      * destruct (Z.eqb_spec (b_refcnt (c_buf s h)) 0) as [E0|E0]; repeat case_decide; lia.
    + intros h' b' Hh' _. destruct (decide (h' = h)) as [->|Hne]; [|eapply handle_changed; eauto].
      destruct Hh' as (H1 & H2 & H3 & H4 & H5). unfold bio_handle.
      rewrite (ch_buf _ _ _ _ _ C), (ch_pid _ _ _ _ _ C). simpl. auto 10.
  - destruct Hb as [Hb|Hb]; [lia|]. destruct (victim_exists s order Hi Ho Hb) as [h Hv].
    destruct (victim_some _ _ _ Ho Hv) as [Hin Hr0].
    destruct (bget_recycle fuel s order b h) as (s1 & E1 & L1 & C1); auto.
    rewrite (bind_ret_l _ _ _ _ _ E1).
    destruct (bread_tail s s1 h _ ltac:(rewrite (ch_disk _ _ _ _ _ C1); apply Hi) L1 C1)
      as (s' & d' & E & L & Rd & C). simpl in C.
    assert (Ho' : in_order s' order) by (eapply in_order_links; eassumption).
    assert (Hi' : bio_inv s') by (eapply inv_recycled; eauto).
    exists h, s'. split; [exact E|]. split; [exact Hi'|]. split; [exact Ho'|]. split; [|split; [|split; [auto|]]].
    + unfold bio_handle. rewrite (ch_buf _ _ _ _ _ C), (ch_pid _ _ _ _ _ C). simpl. auto 10.
    + eapply abs_recycled; eauto.
    + intros h' b' Hh' Hr'. eapply handle_changed; eauto. intros ->.
      destruct Hh' as (H1 & H2 & H3 & _). simpl in Hr'. rewrite (cached_is s b' h) in Hr' by auto. lia.
Qed.

(** An operation that changes a buffer of the device and keeps its block. *)
Lemma op_changed s h b bf d s' order :
  bio_inv s -> bio_handle s h b -> in_order s' order ->
  changed s h bf d s' -> b_dev bf = dev -> b_blockno bf = b -> b_valid bf = true ->
  0 <= b_refcnt bf < 2 ^ 32 -> sl_lk (b_lock bf) = false ->
  (b_refcnt bf = 0 -> sl_locked (b_lock bf) = false /\ b_data bf = dk_disk d b) ->
  (sl_locked (b_lock bf) = true -> sl_pid (b_lock bf) = c_pid s) ->
  (forall b', b' <> b -> dk_disk d b' = dk_disk (c_disk s) b') -> dk_inv d ->
  bio_inv s' /\ (forall h' b', bio_handle s h' b' -> bio_handle s' h' b').
Proof using.
  intros Hi (H1 & H2 & H3 & H4 & H5) Ho Hc Ed Eb Ev Hr Hs Hz Hp Hdk Hd. split.
  - eapply inv_changed; [exact Hi|exact Hc|exact Ho|exact H1| | |exact Hr|exact Hs| | |exact Hd].
    + congruence.
    + congruence.
    + intros Hr0. destruct (Hz Hr0) as [Z1 Z2]. rewrite Eb. auto.
    + intros b' [Hb'|Hb']; [congruence|]. apply Hdk. congruence.
  - intros h' b' Hh. destruct (decide (h' = h)) as [->|Hne]; [|eapply handle_changed; eauto].
    destruct Hh as (G1 & G2 & G3 & G4 & G5). unfold bio_handle.
    rewrite (ch_buf _ _ _ _ _ Hc), (ch_pid _ _ _ _ _ Hc). repeat split; auto; congruence.
Qed.

Lemma handle_ref s h b : bio_inv s -> bio_handle s h b ->
  cached s b = Some h /\ a_ref (bio_abs s) b = b_refcnt (c_buf s h) /\
  a_held (bio_abs s) b = sl_locked (b_lock (c_buf s h)) /\ a_view (bio_abs s) b = b_data (c_buf s h).
Proof using.
  intros Hi (H1 & H2 & H3 & H4 & H5). pose proof (cached_is s b h Hi H1 H2 H3) as Hc.
  split; [exact Hc|]. simpl. unfold bio_view. rewrite Hc, H4. auto.
Qed.

Lemma bset_spec s order h b d : bio_inv s -> in_order s order -> bio_handle s h b ->
  a_held (bio_abs s) b = true -> 0 < a_ref (bio_abs s) b ->
  exists s', bio_bset h d s = Ret tt s' /\ bio_inv s' /\ in_order s' order /\
    bio_abs s' ≡ a_set b d (bio_abs s) /\ (forall h' b', bio_handle s h' b' -> bio_handle s' h' b').
Proof using.
  intros Hi Ho Hh Hl Hr. destruct (handle_ref s h b Hi Hh) as (Hc & R1 & R2 & R3).
  rewrite R1 in Hr. pose proof Hh as (H1 & H2 & H3 & H4 & H5). pose proof (bi_ref _ Hi h H1).
  eexists. split; [reflexivity|]. set (s' := set_buf _ _ _).
  assert (Ho' : in_order s' order) by exact Ho.
  assert (C : changed s h (with_data d (c_buf s h)) (c_disk s) s').
  { split; simpl; auto; [apply (bi_lock _ Hi)|apply upd_eq|]. intros i Hne. apply upd_ne, Hne. }
  destruct (op_changed s h b _ _ s' order Hi Hh Ho' C) as [Hi' Hh']; simpl; auto; try lia;
    [apply (bi_spin _ Hi), H1|apply (bi_disk _ Hi)|].
  split; [exact Hi'|]. split; [exact Ho'|]. split; [|exact Hh'].
  rewrite (abs_changed s h _ _ s' b) by (eauto; simpl; auto).
  unfold a_set. repeat split; intros; simpl; auto.
  - rewrite H4. reflexivity.
  - apply (upd_same (a_ref (bio_abs s))). exact R1.
  - apply (upd_same (a_held (bio_abs s))). exact R2.
  - lia.
Qed.

Lemma holding_spec s h b : bio_inv s -> bio_handle s h b -> sl_locked (b_lock (c_buf s h)) = true ->
  zoom (lock_of h) (holdingsleep (c_pid s)) s = Ret true (set_buf h (with_lock (b_lock (c_buf s h))) s).
Proof using.
  intros Hi (H1 & H2 & H3 & H4 & H5) Hl. unfold zoom. rewrite holdingsleep_ret by apply (bi_spin _ Hi h H1).
  simpl. rewrite Hl, (H5 Hl), Z.eqb_refl. reflexivity.
Qed.

Lemma bwrite_spec s order h b : bio_inv s -> in_order s order -> bio_handle s h b ->
  a_held (bio_abs s) b = true -> 0 < a_ref (bio_abs s) b ->
  exists s', bio_bwrite h s = Ret tt s' /\ bio_inv s' /\ in_order s' order /\
    bio_abs s' ≡ a_write b (bio_abs s) /\ (forall h' b', bio_handle s h' b' -> bio_handle s' h' b').
Proof using.
  intros Hi Ho Hh Hl Hr. destruct (handle_ref s h b Hi Hh) as (Hc & R1 & R2 & R3).
  rewrite R1 in Hr. rewrite R2 in Hl. pose proof Hh as (H1 & H2 & H3 & H4 & H5). pose proof (bi_ref _ Hi h H1).
  pose proof (bi_spin _ Hi h H1) as Hs.
  destruct (dk_write (c_disk s) (b_blockno (c_buf s h)) (b_data (c_buf s h)) (bi_disk _ Hi)) as (d & E & Id & V & W).
  unfold bio_bwrite. rewrite bind_gets.
  rewrite (bind_ret_l _ _ _ _ _ (holding_spec s h b Hi Hh Hl)). cbn [negb]. unfold virtio_rw. rewrite bind_gets.
  simpl c_buf. rewrite upd_eq. unfold with_lock at 1 2. simpl b_blockno. simpl b_data.
  erewrite bind_ret_l by (apply zoom_ret; exact E).
  eexists. split; [reflexivity|]. set (s' := set_buf _ _ _).
  assert (Ho' : in_order s' order) by exact Ho.
  assert (C : changed s h (c_buf s h) d s').
  { split; simpl; auto; [apply (bi_lock _ Hi)| |].
    - rewrite !upd_eq. destruct (c_buf s h). reflexivity.
    - intros i Hne. rewrite !upd_ne by exact Hne. reflexivity. }
  destruct (op_changed s h b _ _ s' order Hi Hh Ho' C) as [Hi' Hh']; simpl; auto; try lia.
  { intros b' Hne. rewrite V. apply upd_ne. congruence. }
  split; [exact Hi'|]. split; [exact Ho'|]. split; [|exact Hh'].
  rewrite (abs_changed s h _ d s' b) by (eauto; simpl; auto; intros; rewrite V; apply upd_ne; congruence).
  unfold a_write. rewrite R3. rewrite H3 in V, W. repeat split; intros; simpl; auto.
  - rewrite H4. apply upd_same. exact R3.
  - apply (upd_same (a_ref (bio_abs s))). exact R1.
  - apply (upd_same (a_held (bio_abs s))). exact R2.
  - lia.
Qed.

(** Changing the reference count and the lock of a buffer. *)
Lemma count_changed s h b r l s' order :
  bio_inv s -> bio_handle s h b -> in_order s' order ->
  changed s h (with_lock l (with_refcnt r (c_buf s h))) (c_disk s) s' ->
  0 <= r < 2 ^ 32 -> sl_lk l = false -> (sl_locked l = true -> sl_pid l = c_pid s) ->
  (r = 0 -> sl_locked l = false /\ a_view (bio_abs s) b = a_disk (bio_abs s) b) ->
  0 < a_ref (bio_abs s) b ->
  bio_inv s' /\ (forall h' b', bio_handle s h' b' -> bio_handle s' h' b') /\
  bio_abs s' ≡ Bst (a_disk (bio_abs s)) (a_view (bio_abs s)) (upd (a_ref (bio_abs s)) b r)
    (upd (a_held (bio_abs s)) b (sl_locked l))
    (if r =? 0 then a_busy (bio_abs s) - 1 else a_busy (bio_abs s)) (a_writes (bio_abs s)).
Proof using.
  intros Hi Hh Ho C Hr Hl Hp Hz Hpos. destruct (handle_ref s h b Hi Hh) as (Hc & R1 & R2 & R3).
  rewrite R1 in Hpos. rewrite R3 in Hz. pose proof Hh as (H1 & H2 & H3 & H4 & H5).
  destruct (op_changed s h b _ _ s' order Hi Hh Ho C) as [Hi' Hh']; simpl; auto;
    [apply (bi_disk _ Hi)|].
  split; [exact Hi'|]. split; [exact Hh'|].
  rewrite (abs_changed s h _ _ s' b) by (eauto; simpl; auto). simpl. repeat split; intros; simpl; auto.
  - rewrite H4. apply upd_same. exact R3.
  - destruct (Z.eqb_spec r 0); repeat case_decide; lia.
Qed.

Lemma bpin_spec s order h b : bio_inv s -> in_order s order -> bio_handle s h b ->
  0 < a_ref (bio_abs s) b < REFMAX ->
  exists s', bio_bpin h s = Ret tt s' /\ bio_inv s' /\ in_order s' order /\
    bio_abs s' ≡ a_pin b (bio_abs s) /\ (forall h' b', bio_handle s h' b' -> bio_handle s' h' b').
Proof using.
  intros Hi Ho Hh Hr. destruct (handle_ref s h b Hi Hh) as (Hc & R1 & R2 & R3).
  pose proof Hh as (H1 & H2 & H3 & H4 & H5). unfold REFMAX in Hr.
  set (s' := set bcache_lock false (set_buf h (fun bf => with_refcnt (u32 (b_refcnt bf + 1)) bf) s)).
  exists s'. split; [unfold bio_bpin; rewrite (bind_ret_l _ _ _ _ _ (acquire_bcache s Hi)); reflexivity|].
  destruct (count_changed s h b (b_refcnt (c_buf s h) + 1) (b_lock (c_buf s h)) s' order) as (I' & Hh' & A');
    auto; try lia; [|apply (bi_spin _ Hi h H1)|].
  { split; simpl; auto; [|intros i Hne; apply upd_ne, Hne]. rewrite upd_eq. rewrite R1 in Hr.
    unfold with_refcnt, with_lock, u32. simpl. rewrite Z.mod_small by lia. reflexivity. }
  split; [exact I'|]. split; [exact Ho|]. split; [|exact Hh']. rewrite A', <- R1.
  replace (a_ref (bio_abs s) b + 1 =? 0) with false by lia. unfold a_pin.
  repeat split; intros; cbn [a_held]; auto. apply upd_same. exact R2.
Qed.

Lemma bunpin_spec s order h b : bio_inv s -> in_order s order -> bio_handle s h b ->
  1 < a_ref (bio_abs s) b ->
  exists s', bio_bunpin h s = Ret tt s' /\ bio_inv s' /\ in_order s' order /\
    bio_abs s' ≡ a_unpin b (bio_abs s) /\ (forall h' b', bio_handle s h' b' -> bio_handle s' h' b').
Proof using.
  intros Hi Ho Hh Hr. destruct (handle_ref s h b Hi Hh) as (Hc & R1 & R2 & R3).
  pose proof Hh as (H1 & H2 & H3 & H4 & H5). pose proof (bi_ref _ Hi h H1) as Hb.
  set (s' := set bcache_lock false (set_buf h (fun bf => with_refcnt (u32 (b_refcnt bf - 1)) bf) s)).
  exists s'. split; [unfold bio_bunpin; rewrite (bind_ret_l _ _ _ _ _ (acquire_bcache s Hi)); reflexivity|]. rewrite <- R1 in Hb.
  destruct (count_changed s h b (b_refcnt (c_buf s h) - 1) (b_lock (c_buf s h)) s' order) as (I' & Hh' & A');
    auto; try lia; [|apply (bi_spin _ Hi h H1)|].
  { split; simpl; auto; [|intros i Hne; apply upd_ne, Hne]. rewrite upd_eq. rewrite R1 in Hr.
    unfold with_refcnt, with_lock, u32. simpl. rewrite Z.mod_small by lia. reflexivity. }
  split; [exact I'|]. split; [exact Ho|]. split; [|exact Hh']. rewrite A', <- R1.
  replace (a_ref (bio_abs s) b - 1 =? 0) with false by lia. unfold a_unpin.
  replace (a_ref (bio_abs s) b =? 1) with false by lia.
  repeat split; intros; cbn [a_held]; auto. apply upd_same. exact R2.
Qed.

(** ** Releasing a buffer *)

Definition move_front (h : Z) (order : list Z) : list Z := h :: filter (fun i => i <> h) order.

Lemma move_front_split h l1 l2 : NoDup (l1 ++ h :: l2) -> move_front h (l1 ++ h :: l2) = h :: l1 ++ l2.
Proof using.
  intros Hnd. apply NoDup_app in Hnd as (N1 & N2 & N3). apply NoDup_cons in N3 as [N3 N4].
  unfold move_front. rewrite filter_app, filter_cons, decide_False by tauto.
  assert (Hf : forall l : list Z, h ∉ l -> filter (fun i => i <> h) l = l).
  { induction l as [|x l IH]; intros Hl; [reflexivity|]. apply not_elem_of_cons in Hl as [Hx Hl].
    rewrite filter_cons, decide_True, IH by auto. reflexivity. }
  rewrite !Hf; auto. intros Hin. apply (N2 h Hin). left.
Qed.

Lemma relink_spec (s : bcache D) order h : in_order s order -> h ∈ order ->
  exists s', (modify (fun s => set_prev (c_next s h) (c_prev s h) s) ;;
              modify (fun s => set_next (c_prev s h) (c_next s h) s) ;; push_front h) s = Ret tt s' /\
    c_lock s' = c_lock s /\ c_buf s' = c_buf s /\ c_disk s' = c_disk s /\ c_pid s' = c_pid s /\
    in_order s' (move_front h order).
Proof using.
  intros Ho Hh. pose proof (order_facts _ _ Ho) as (F1 & F2 & F3 & F4). destruct Ho as [Hl Hp].
  apply list_elem_of_split in Hh as (l1 & l2 & ->). rewrite move_front_split by exact F2.
  assert (Hhead : HEAD <> h) by (intros E; apply F1; rewrite E; apply elem_of_app; right; left).
  assert (F1' : HEAD ∉ l1 ++ l2).
  { intros Hin. apply F1. apply elem_of_app in Hin as [Hin|Hin]; apply elem_of_app; [left|right; right]; exact Hin. }
  assert (Hnh : (h ∉ l1 ++ l2) /\ NoDup (l1 ++ l2)).
  { pose proof F2 as F2'. rewrite <- Permutation_middle in F2'. apply NoDup_cons in F2'. exact F2'. }
  pose proof (proj1 (linked_app _ _ _ _ _ _ _) Hl) as [Hl1 Hl2].
  pose proof (linked_unlink _ _ l2 h HEAD l1 HEAD Hl1 Hl2) as Hu.
  specialize (Hu ltac:(apply NoDup_cons; auto) F1).
  assert (Hself : c_next s h <> h).
  { intros E. apply linked_next_in in Hl2. rewrite E in Hl2. apply elem_of_app in Hl2 as [Hl2|Hl2].
    - apply Hnh. apply elem_of_app. right. exact Hl2.
    - apply list_elem_of_singleton in Hl2. congruence. }
  eexists. split; [reflexivity|]. do 4 (split; [reflexivity|]). split.
  - simpl c_next. simpl c_prev. rewrite (upd_ne (c_prev s)) by congruence.
    set (nx := upd (c_next s) (c_prev s h) (c_next s h)) in *.
    set (pv := upd (c_prev s) (c_next s h) (c_prev s h)) in *.
    rewrite (upd_ne nx h) by exact Hhead. apply linked_push; auto; [|apply Hnh].
    apply not_elem_of_cons. split; [congruence|apply Hnh].
  - rewrite <- Hp. apply Permutation_middle.
Qed.

(** [brelse] up to the test of the reference count. *)
Lemma brelse_start s h b : bio_inv s -> bio_handle s h b -> sl_locked (b_lock (c_buf s h)) = true ->
  0 < b_refcnt (c_buf s h) ->
  exists s2, bio_brelse h s =
      (when (b_refcnt (c_buf s h) - 1 =? 0)
        (modify (fun s => set_prev (c_next s h) (c_prev s h) s) ;;
         modify (fun s => set_next (c_prev s h) (c_next s h) s) ;; push_front h) ;;
       release bcache_lock) s2 /\
    c_lock s2 = true /\ same_links s s2 /\
    changed s h (with_lock (Sleeplock false false 0) (with_refcnt (b_refcnt (c_buf s h) - 1) (c_buf s h)))
      (c_disk s) (set bcache_lock false s2).
Proof using.
  intros Hi Hh Hl Hr. pose proof Hh as (H1 & _). pose proof (bi_ref _ Hi h H1) as Hb.
  unfold bio_brelse. rewrite bind_gets, (bind_ret_l _ _ _ _ _ (holding_spec s h b Hi Hh Hl)). cbn [negb].
  set (s0 := set_buf h _ s).
  rewrite (bind_ret_l _ _ _ tt (set_buf h (with_lock (Sleeplock false false 0)) s0)).
  2: { unfold zoom. rewrite releasesleep_ret; [reflexivity|]. simpl. rewrite upd_eq. apply (bi_spin _ Hi h H1). }
  rewrite (bind_ret_l _ _ _ tt (set bcache_lock true (set_buf h (with_lock (Sleeplock false false 0)) s0))).
  2: { unfold acquire. simpl. rewrite (bi_lock _ Hi). reflexivity. }
  rewrite bind_modify, bind_gets. simpl c_buf at 1. rewrite !upd_eq. simpl b_refcnt.
  unfold u32. rewrite Z.mod_small by lia.
  eexists. split; [reflexivity|]. split; [reflexivity|]. split; [split; reflexivity|].
  split; simpl; auto.
  - rewrite !upd_eq. simpl. unfold u32. rewrite Z.mod_small by lia. reflexivity.
  - intros i Hne. rewrite !upd_ne by exact Hne. reflexivity.
Qed.

Lemma brelse_spec s order h b : bio_inv s -> in_order s order -> bio_handle s h b ->
  a_held (bio_abs s) b = true -> 0 < a_ref (bio_abs s) b ->
  1 < a_ref (bio_abs s) b \/ a_view (bio_abs s) b = a_disk (bio_abs s) b ->
  exists s', bio_brelse h s = Ret tt s' /\ bio_inv s' /\
    in_order s' (if a_ref (bio_abs s) b =? 1 then move_front h order else order) /\
    bio_abs s' ≡ a_rel b (bio_abs s) /\ (forall h' b', bio_handle s h' b' -> bio_handle s' h' b').
Proof using.
  intros Hi Ho Hh Hl Hr Hcl. destruct (handle_ref s h b Hi Hh) as (Hc & R1 & R2 & R3).
  rewrite R2 in Hl. rewrite R1 in Hr. pose proof Hh as (H1 & H2 & H3 & H4 & H5).
  pose proof (bi_ref _ Hi h H1) as Hb.
  destruct (brelse_start s h b Hi Hh Hl Hr) as (s2 & -> & L1 & L2 & C).
  assert (Ho2 : in_order s2 order) by (eapply in_order_links; eassumption).
  set (order' := if a_ref (bio_abs s) b =? 1 then move_front h order else order).
  assert (HF : exists s', (when (b_refcnt (c_buf s h) - 1 =? 0)
        (modify (fun s => set_prev (c_next s h) (c_prev s h) s) ;;
         modify (fun s => set_next (c_prev s h) (c_next s h) s) ;; push_front h) ;;
       release bcache_lock) s2 = Ret tt s' /\ in_order s' order' /\
     changed s h (with_lock (Sleeplock false false 0) (with_refcnt (b_refcnt (c_buf s h) - 1) (c_buf s h)))
      (c_disk s) s').
  { unfold order'. rewrite R1. destruct (Z.eqb_spec (b_refcnt (c_buf s h)) 1) as [E1|E1].
    - replace (b_refcnt (c_buf s h) - 1 =? 0) with true by lia. cbn [when].
      destruct (relink_spec s2 order h Ho2) as (s3 & E & K1 & K2 & K3 & K4 & K5).
      { apply order_facts in Ho as (_ & _ & _ & Ho). apply Ho, H1. }
      rewrite (bind_ret_l _ _ _ _ _ E). exists (set bcache_lock false s3).
      split; [unfold release; simpl; rewrite K1, L1; reflexivity|]. split; [exact K5|].
      destruct C as [C1 C2 C3 C4 C5]. simpl in *. split; simpl; try congruence.
      intros i Hne. rewrite K2. apply C3, Hne.
    - replace (b_refcnt (c_buf s h) - 1 =? 0) with false by lia. cbn [when].
      exists (set bcache_lock false s2). split; [unfold bind, ret, release; simpl; rewrite L1; reflexivity|].
      split; [exact Ho2|exact C]. }
  destruct HF as (s' & E & Ho' & C'). exists s'. split; [exact E|].
  destruct (count_changed s h b _ _ s' order' Hi Hh Ho' C') as (I' & Hh' & A');
    [lia|reflexivity|discriminate| |rewrite R1; exact Hr|].
  { intros E0. split; [reflexivity|]. destruct Hcl as [Hcl|Hcl]; [lia|exact Hcl]. }
  split; [exact I'|]. split; [exact Ho'|]. split; [|exact Hh']. rewrite A'. unfold a_rel, a_unpin.
  rewrite R1. cbn [sl_locked]. replace (b_refcnt (c_buf s h) - 1 =? 0) with (b_refcnt (c_buf s h) =? 1) by lia.
  repeat split.
Qed.
End Laws.

(** The buffer cache over a disk that keeps its promises is a block cache. *)
#[global] Instance bio_laws {D} `{DiskLaws D} (fuel : nat) (dev : Z) :
  @BlockCacheLaws (bcache D) (bio_cache (S fuel)) dev.
Proof.
  refine (@Build_BlockCacheLaws (bcache D) (bio_cache (S fuel)) dev (bio_inv dev) (bio_abs dev) (bio_handle dev)
    _ _ _ _ _ _ _).
  - intros s h b Hi Hh. destruct (handle_ref dev s h b Hi Hh) as (_ & _ & _ & ->).
    destruct Hh as (_ & _ & Hb & _). auto.
  - intros s b Hi Hh Hb Hr. destruct (bi_order _ _ Hi) as [order Ho].
    destruct (bread_spec dev fuel s order b Hi Ho Hh Hb Hr) as (h & s' & E & I' & _ & Hh' & A & _ & P).
    exists h, s'. auto 10.
  - intros s h b d Hi Hh Hl Hr. destruct (bi_order _ _ Hi) as [order Ho].
    destruct (bset_spec dev s order h b d Hi Ho Hh Hl Hr) as (s' & E & I' & _ & A & P). exists s'. auto.
  - intros s h b Hi Hh Hl Hr. destruct (bi_order _ _ Hi) as [order Ho].
    destruct (bwrite_spec dev s order h b Hi Ho Hh Hl Hr) as (s' & E & I' & _ & A & P). exists s'. auto.
  - intros s h b Hi Hh Hr. destruct (bi_order _ _ Hi) as [order Ho].
    destruct (bpin_spec dev s order h b Hi Ho Hh Hr) as (s' & E & I' & _ & A & P). exists s'. auto.
  - intros s h b Hi Hh Hr. destruct (bi_order _ _ Hi) as [order Ho].
    destruct (bunpin_spec dev s order h b Hi Ho Hh Hr) as (s' & E & I' & _ & A & P). exists s'. auto.
  - intros s h b Hi Hh Hl Hr Hc. destruct (bi_order _ _ Hi) as [order Ho].
    destruct (brelse_spec dev s order h b Hi Ho Hh Hl Hr Hc) as (s' & E & I' & _ & A & P). exists s'. auto.
Defined.
