(* ===== verification/BioSpec.v ===== *)
(** * What the buffer cache does

    The state after [binit], the disk as an ideal store for examples, and the
    statements on reading and releasing a block. *)

From S2P Require Import Prelude Sleeplock Block Bio BioLaws.

(** ** An ideal disk *)

Module IdealDisk.
Record idisk : Type := Idisk { i_disk : Z -> block; i_writes : list (Z * block) }.

#[global] Instance idisk_driver : DiskDriver idisk := {
  disk_rw b write x d :=
    if write then Ret x (Idisk (upd (i_disk d) b x) (i_writes d ++ [(b, x)]))
    else Ret (i_disk d b) d
}.

#[global] Instance idisk_laws : DiskLaws idisk.
Proof.
  refine {| dk_inv := fun _ => True; dk_disk := i_disk; dk_writes := i_writes |}.
  - intros d b x _. eexists. split; [reflexivity|]. auto.
  - intros d b x _. eexists. split; [reflexivity|]. auto.
Defined.
End IdealDisk.

(** ** Initialisation *)

Section Init.
Context {D : Type} `{DL : DiskLaws D} (dev : Z).

(** Static memory is zero at boot. *)
Definition zero_buf : buf := Buf false 0 0 (Sleeplock false false 0) 0 (fun _ => 0).
Definition bio_boot (d : D) (pid : Z) : bcache D :=
  Bcache false (fun _ => zero_buf) (fun _ => 0) (fun _ => 0) d pid.

Lemma binit_loop_spec n : forall (s : bcache D) b l,
  linked (c_next s) (c_prev s) HEAD l HEAD -> (forall i, i ∈ l -> i < b) -> NoDup l ->
  b + Z.of_nat n <= HEAD -> (forall i, c_buf s i = zero_buf) ->
  exists s', binit_loop n b s = Ret tt s' /\
    linked (c_next s') (c_prev s') HEAD (reverse (seqZ b (Z.of_nat n)) ++ l) HEAD /\
    c_lock s' = c_lock s /\ (forall i, c_buf s' i = zero_buf) /\ c_disk s' = c_disk s /\ c_pid s' = c_pid s.
Proof using.
  induction n as [|n IH]; intros s b l Hl Hlt Hnd Hb Hz; cbn [binit_loop].
  - exists s. split; [reflexivity|]. split; [exact Hl|]. auto.
  - set (s1 := set_buf b (with_lock initsleeplock) (Bcache (c_lock s) (c_buf s)
        (upd (upd (c_prev s) b HEAD) (c_next s HEAD) b) (upd (upd (c_next s) b (c_next s HEAD)) HEAD b)
        (c_disk s) (c_pid s))).
    assert (E : forall k : M (bcache D) unit,
      (push_front b ;; modify (set_buf b (with_lock initsleeplock)) ;; k) s = k s1).
    { intros k. unfold push_front. unfold bind, modify. simpl. unfold s1, set_buf, set_next, set_prev. simpl.
      rewrite (upd_ne (c_next s) b (c_next s HEAD) HEAD) by lia. reflexivity. }
    rewrite E. destruct (IH s1 (b + 1) (b :: l)) as (s' & E' & L1 & L2 & L3 & L4 & L5).
    + unfold s1. simpl c_next. simpl c_prev. apply linked_push; auto.
      * apply not_elem_of_cons. split; [lia|]. intros Hin. apply Hlt in Hin. lia.
      * intros Hin. apply Hlt in Hin. lia.
    + intros i Hi. apply elem_of_cons in Hi as [->|Hi]; [lia|]. apply Hlt in Hi. lia.
    + apply NoDup_cons. split; [|exact Hnd]. intros Hin. apply Hlt in Hin. lia.
    + lia.
    + intros i. unfold s1. simpl. unfold upd. case_test; [rewrite Hz; reflexivity|apply Hz].
    + exists s'. split; [exact E'|]. split; [|auto].
      rewrite (seqZ_cons b) by lia. replace (Z.pred (Z.of_nat (S n))) with (Z.of_nat n) by lia.
      rewrite reverse_cons, <- app_assoc. replace (Z.succ b) with (b + 1) by lia. exact L1.
Qed.

Lemma binit_spec d pid : dev <> 0 -> dk_inv d ->
  exists s, binit (bio_boot d pid) = Ret tt s /\ bio_inv dev s /\ in_order s (reverse all_bufs) /\
    c_disk s = d /\ (forall i, c_buf s i = zero_buf).
Proof using.
  intros Hdev Hd. unfold binit. rewrite !bind_modify.
  destruct (binit_loop_spec (Z.to_nat NBUF) (set_next HEAD HEAD (set_prev HEAD HEAD (set bcache_lock false (bio_boot d pid)))) 0 [])
    as (s & E & L1 & L2 & L3 & L4 & L5); auto.
  - simpl. rewrite !upd_eq. auto.
  - intros i Hi. apply elem_of_nil in Hi. contradiction.
  - constructor.
  - unfold HEAD. reflexivity.
  - rewrite app_nil_r in L1. exists s. split; [exact E|].
    assert (Ho : in_order s (reverse all_bufs)).
    { split; [exact L1|]. apply reverse_Permutation. }
    split; [|auto]. split; auto.
    + exists (reverse all_bufs). exact Ho.
    + intros i j _ _ E1. rewrite L3 in E1. simpl in E1. congruence.
    + intros i _. rewrite L3. simpl. lia.
    + intros i _. rewrite L3. reflexivity.
    + intros i _ _. rewrite L3. reflexivity.
    + intros i _ _. rewrite L3. discriminate.
    + rewrite L4. exact Hd.
Qed.
End Init.

Section NoBuffers.
Context {D : Type} `{DL : DiskLaws D} (dev : Z).

Lemma all_busy (s : bcache D) i : NBUF <= busy s -> i ∈ all_bufs -> 0 < b_refcnt (c_buf s i).
Proof using.
  intros Hb Hi. destruct (decide (0 < b_refcnt (c_buf s i))) as [Hp|Hp]; [exact Hp|]. exfalso.
  pose proof (filter_count_update (fun i => 0 < b_refcnt (c_buf s i)) (fun j => j = i \/ 0 < b_refcnt (c_buf s j))
    all_bufs i all_bufs_nodup Hi ltac:(intros; tauto)) as Hc.
  destruct (decide (0 < b_refcnt (c_buf s i))); [contradiction|].
  destruct (decide (i = i \/ _)); [|tauto].
  pose proof (length_filter (fun j => j = i \/ 0 < b_refcnt (c_buf s j)) all_bufs) as Hl.
  unfold all_bufs at 2 in Hl. rewrite length_seqZ in Hl. unfold busy in Hb. unfold NBUF, MAXOPBLOCKS in *. lia.
Qed.

Lemma bread_panics fuel s order b : bio_inv dev s -> in_order s order ->
  cached dev s b = None -> NBUF <= busy s -> bio_bread fuel dev b s = Panic "bget: no buffers".
Proof using.
  intros Hi Ho Hc Hb. unfold bio_bread, bget. apply bind_panic.
  rewrite (bind_ret_l _ _ _ _ _ (acquire_bcache dev s Hi)), bind_gets.
  rewrite (bind_ret_l _ _ _ _ _ (find_cached_all dev s order b Hi Ho)), Hc, bind_gets.
  pose proof (order_facts _ _ Ho) as (H1 & H2 & H3 & H4).
  rewrite (bind_ret_l _ _ _ None (set bcache_lock true s)); [reflexivity|].
  rewrite (find_unused_spec (set bcache_lock true s) (reverse order) HEAD).
  - f_equal. destruct (filter _ (reverse order)) as [|i l] eqn:E; [reflexivity|]. exfalso.
    assert (Hin : i ∈ i :: l) by left. rewrite <- E in Hin.
    apply list_elem_of_filter in Hin as [Hr Hin]. rewrite elem_of_reverse, H4 in Hin. simpl in Hr.
    pose proof (all_busy s i Hb Hin). lia.
  - apply linked_rev, Ho.
  - rewrite elem_of_reverse. exact H1.
  - rewrite length_reverse, H3. unfold list_fuel, NBUF, MAXOPBLOCKS. lia.
Qed.
End NoBuffers.

(** ** The statements *)

(** [binit] links the zeroed buffers into a ring, last buffer first, in which
    every block is seen as it is on disk, none is locked and none is in use. *)
Theorem binit_correct {D} `{DiskLaws D} (dev : Z) (d : D) (pid : Z) :
  dev <> 0 -> dk_inv d ->
  exists s, binit (bio_boot d pid) = Ret tt s /\ bio_inv dev s /\ in_order s (reverse all_bufs) /\
    a_busy (bio_abs dev s) = 0 /\
    forall b, a_view (bio_abs dev s) b = dk_disk d b /\ a_ref (bio_abs dev s) b = 0 /\
              a_held (bio_abs dev s) b = false.
Proof.
  intros Hdev Hd. destruct (binit_spec dev d pid Hdev Hd) as (s & E & I & Ho & Hds & Hz).
  exists s. split; [exact E|]. split; [exact I|]. split; [exact Ho|]. split.
  - simpl. unfold busy. rewrite (filter_ext_in _ (fun _ => False) all_bufs); [reflexivity|].
    intros i _. rewrite Hz. simpl. lia.
  - intros b. assert (Hc : cached dev s b = None).
    { destruct (cached dev s b) as [i|] eqn:Ec; [|reflexivity]. apply cached_some in Ec as (_ & Ec & _).
      rewrite Hz in Ec. simpl in Ec. congruence. }
    simpl. unfold bio_view. rewrite Hc, Hds. auto.
Qed.

Import IdealDisk.
Definition ex_idisk : idisk := Idisk (fun b _ => b mod 256) [].

Lemma binit_correct_witness : exists s, binit (bio_boot ex_idisk 1) = Ret tt s /\ bio_inv 1 s /\
  in_order s (reverse all_bufs) /\ a_busy (bio_abs 1 s) = 0 /\
  forall b, a_view (bio_abs 1 s) b = dk_disk ex_idisk b /\ a_ref (bio_abs 1 s) b = 0 /\
            a_held (bio_abs 1 s) b = false.
Proof. apply (binit_correct 1 ex_idisk 1); [discriminate|exact I]. Defined.

(** C29. [bread] of a block nobody has locked returns a locked buffer with the
    block's current contents: the buffer that caches it, or else the unused
    buffer released longest ago, whose old block stays visible because it is
    clean.  In every abstract respect it takes one reference and the lock.
    When the block is not cached and every buffer is in use, it panics. *)
Theorem bread_correct {D} `{DiskLaws D} (fuel : nat) (dev : Z) (s : bcache D) (order : list Z) (b : Z) :
  bio_inv dev s -> in_order s order ->
  (a_held (bio_abs dev s) b = false -> a_ref (bio_abs dev s) b < REFMAX ->
   0 < a_ref (bio_abs dev s) b \/ busy s < NBUF ->
   exists h s', bio_bread (S fuel) dev b s = Ret h s' /\ bio_inv dev s' /\ in_order s' order /\
     b_data (c_buf s' h) = a_view (bio_abs dev s) b /\ bio_abs dev s' ≡ a_get b (bio_abs dev s) /\
     h = default (default 0 (victim s order)) (cached dev s b)) /\
  (cached dev s b = None -> NBUF <= busy s -> bio_bread (S fuel) dev b s = Panic "bget: no buffers").
Proof.
  intros Hi Ho. split.
  - intros Hh Hr Hb. destruct (bread_spec dev fuel s order b Hi Ho Hh Hb Hr) as (h & s' & E & I' & Ho' & Hh' & A & P & _).
    exists h, s'. split; [exact E|]. split; [exact I'|]. split; [exact Ho'|].
    destruct (handle_ref dev s' h b I' Hh') as (_ & _ & _ & V). split.
    + rewrite <- V, (eqv_view _ _ b A). reflexivity.
    + split; [exact A|]. destruct P as [->|[-> ->]]; reflexivity.
  - apply bread_panics with order; assumption.
Qed.

(** The cache after boot, and after block 5 has been read. *)
Definition ex_bio : bcache idisk :=
  match binit (bio_boot ex_idisk 1) with Ret _ s => s | _ => bio_boot ex_idisk 1 end.
Definition ex_bio_read : bcache idisk :=
  match bio_bread 1 1 5 ex_bio with Ret _ s => s | _ => ex_bio end.

Lemma ex_bio_inv : bio_inv 1 ex_bio /\ in_order ex_bio (reverse all_bufs).
Proof.
  destruct (binit_spec 1 ex_idisk 1) as (s & E & Hi & Ho & _); [discriminate|exact I|].
  unfold ex_bio. rewrite E. auto.
Qed.

Lemma bread_correct_witness :
  exists h s', bio_bread 1 1 5 ex_bio = Ret h s' /\ bio_inv 1 s' /\ in_order s' (reverse all_bufs) /\
    b_data (c_buf s' h) = a_view (bio_abs 1 ex_bio) 5 /\ bio_abs 1 s' ≡ a_get 5 (bio_abs 1 ex_bio) /\
    h = default (default 0 (victim ex_bio (reverse all_bufs))) (cached 1 ex_bio 5).
Proof.
  apply (bread_correct 0 1 ex_bio (reverse all_bufs) 5 (proj1 ex_bio_inv) (proj2 ex_bio_inv)).
  - vm_compute. reflexivity.
  - vm_compute. reflexivity.
  - right. vm_compute. reflexivity.
Defined.

(** [brelse] of a locked buffer that is clean or otherwise in use gives back
    the lock and one reference; when that was the last reference the buffer
    becomes the most recently released one, and otherwise the order stays.
    Every other buffer keeps its block. *)
Theorem brelse_correct {D} `{DiskLaws D} (dev : Z) (s : bcache D) (order : list Z) (h b : Z) :
  bio_inv dev s -> in_order s order -> bio_handle dev s h b ->
  a_held (bio_abs dev s) b = true -> 0 < a_ref (bio_abs dev s) b ->
  1 < a_ref (bio_abs dev s) b \/ a_view (bio_abs dev s) b = a_disk (bio_abs dev s) b ->
  exists s', bio_brelse h s = Ret tt s' /\ bio_inv dev s' /\
    in_order s' (if a_ref (bio_abs dev s) b =? 1 then move_front h order else order) /\
    bio_abs dev s' ≡ a_rel b (bio_abs dev s) /\
    forall h' b', bio_handle dev s h' b' -> bio_handle dev s' h' b'.
Proof. apply brelse_spec. Qed.

Lemma brelse_correct_witness : exists s', bio_brelse 0 ex_bio_read = Ret tt s' /\ bio_inv 1 s' /\
  in_order s' (move_front 0 (reverse all_bufs)) /\ bio_abs 1 s' ≡ a_rel 5 (bio_abs 1 ex_bio_read) /\
  forall h' b', bio_handle 1 ex_bio_read h' b' -> bio_handle 1 s' h' b'.
Proof.
  assert (Hr : bio_inv 1 ex_bio_read /\ in_order ex_bio_read (reverse all_bufs)).
  { destruct ex_bio_inv as [Hi Ho].
    destruct (bread_spec 1 0 ex_bio (reverse all_bufs) 5 Hi Ho) as (h & s' & E & Hi' & Ho' & _);
      [vm_compute; reflexivity|right; vm_compute; reflexivity|vm_compute; reflexivity|].
    unfold ex_bio_read. rewrite E. auto. }
  apply (brelse_correct 1 ex_bio_read (reverse all_bufs) 0 5 (proj1 Hr) (proj2 Hr)).
  - split; [apply elem_of_seqZ; unfold NBUF, MAXOPBLOCKS; lia|]. vm_compute. auto.
  - vm_compute. reflexivity.
  - vm_compute. reflexivity.
  - right. vm_compute. reflexivity.
Defined.
