(* ===== verification/Log.v ===== *)
(** * The file system log

    [kernel/log.c] over any block cache that keeps the promises of [Block].
    The theorems: a commit makes exactly the writes the protocol prescribes,
    in order; whatever prefix of them reaches the disk before a crash, recovery
    leaves either none or all of the transaction's blocks; absorption and
    reservation keep the log from overflowing. *)

From S2P Require Import Prelude Block.

(** The in-memory [struct log] with the cache below it. *)
Record logst (S : Type) : Type := Logst {
  l_cache : S;
  l_start : Z;
  l_outstanding : Z;
  l_committing : bool;
  l_dev : Z;
  l_n : Z;               (* lh.n *)
  l_block : list Z;      (* lh.block[LOGBLOCKS] *)
  l_locked : bool
}.
Arguments Logst {S} _ _ _ _ _ _ _ _.
Arguments l_cache {S} _.
Arguments l_start {S} _.
Arguments l_outstanding {S} _.
Arguments l_committing {S} _.
Arguments l_dev {S} _.
Arguments l_n {S} _.
Arguments l_block {S} _.
Arguments l_locked {S} _.

(** The header block on disk. *)
Definition hdr_n (d : block) : Z := i32 (load d 0 4).
Definition hdr_block (d : block) (i : Z) : Z := i32 (load d (4 + 4 * i) 4).

Fixpoint hdr_put_blocks (d : block) (i : Z) (bs : list Z) : block :=
  match bs with
  | [] => d
  | b :: bs' => hdr_put_blocks (store_le d (4 + 4 * i) 4 (u32 b)) (i + 1) bs'
  end.

Definition hdr_put (d : block) (n : Z) (bs : list Z) : block :=
  hdr_put_blocks (store_le d 0 4 (u32 n)) 0 (take (Z.to_nat n) bs).

Section Log.
Context {S : Type} `{BlockCache S}.

Definition cache_of : lens (logst S) S :=
  Lens l_cache (fun c s => Logst c (l_start s) (l_outstanding s) (l_committing s) (l_dev s)
                                 (l_n s) (l_block s) (l_locked s)).
Definition log_lock : lens (logst S) bool :=
  Lens l_locked (fun b s => Logst (l_cache s) (l_start s) (l_outstanding s) (l_committing s) (l_dev s)
                                  (l_n s) (l_block s) b).
Definition set_n (n : Z) (s : logst S) : logst S :=
  Logst (l_cache s) (l_start s) (l_outstanding s) (l_committing s) (l_dev s) n (l_block s) (l_locked s).
Definition set_block (bs : list Z) (s : logst S) : logst S :=
  Logst (l_cache s) (l_start s) (l_outstanding s) (l_committing s) (l_dev s) (l_n s) bs (l_locked s).
Definition set_outstanding (k : Z) (s : logst S) : logst S :=
  Logst (l_cache s) (l_start s) k (l_committing s) (l_dev s) (l_n s) (l_block s) (l_locked s).
Definition set_committing (b : bool) (s : logst S) : logst S :=
  Logst (l_cache s) (l_start s) (l_outstanding s) b (l_dev s) (l_n s) (l_block s) (l_locked s).

Definition log_chan : Z := 0.

Definition nth_block (i : Z) : M (logst S) Z := gets (fun s => nth (Z.to_nat i) (l_block s) 0).

(** The body of the loop of [install_trans]: copy log block [t] to its home [dst]. *)
Definition install_block (dev t dst : Z) (recovering : bool) : M S unit :=
  let! lbuf := bread dev t in
  let! dbuf := bread dev dst in
  let! d := gets (fun c => bdata c lbuf) in
  bset dbuf d ;;
  bwrite dbuf ;;
  when (negb recovering) (bunpin dbuf) ;;
  brelse lbuf ;;
  brelse dbuf.

(** Iterations [tail .. n-1] of that loop. *)
Fixpoint install_loop (k : nat) (tail : Z) (recovering : bool) : M (logst S) unit :=
  match k with
  | O => ret tt
  | Datatypes.S k' =>
      let! start := gets l_start in
      let! dev := gets l_dev in
      let! dst := nth_block tail in
      zoom cache_of (install_block dev (start + tail + 1) dst recovering) ;;
      install_loop k' (tail + 1) recovering
  end.

Definition install_trans (recovering : bool) : M (logst S) unit :=
  let! n := gets l_n in install_loop (Z.to_nat n) 0 recovering.

Definition read_head : M (logst S) unit :=
  let! start := gets l_start in
  let! dev := gets l_dev in
  let! buf := zoom cache_of (bread dev start) in
  let! d := gets (fun s => bdata (l_cache s) buf) in
  modify (set_n (hdr_n d)) ;;
  modify (fun s => set_block
    ((hdr_block d <$> seqZ 0 (hdr_n d)) ++ drop (Z.to_nat (hdr_n d)) (l_block s)) s) ;;
  zoom cache_of (brelse buf).

(** [write_head] on the cache, given the in-memory header. *)
Definition put_head (dev start n : Z) (bs : list Z) : M S unit :=
  let! buf := bread dev start in
  let! d := gets (fun c => bdata c buf) in
  bset buf (hdr_put d n bs) ;;
  bwrite buf ;;
  brelse buf.

Definition write_head : M (logst S) unit :=
  let! start := gets l_start in
  let! dev := gets l_dev in
  let! n := gets l_n in
  let! bs := gets l_block in
  zoom cache_of (put_head dev start n bs).

Definition recover_from_log : M (logst S) unit :=
  read_head ;;
  install_trans true ;;
  modify (set_n 0) ;;
  write_head.

Definition initlog (dev logstart : Z) : M (logst S) unit :=
  if BSIZE <=? 4 + 4 * LOGBLOCKS then panic "initlog: too big logheader"
  else
    modify (fun s => Logst (l_cache s) logstart (l_outstanding s) (l_committing s) dev
                           (l_n s) (l_block s) false) ;;
    recover_from_log.

(** The body of the loop of [write_log]: copy block [src] to log block [t]. *)
Definition log_block (dev t src : Z) : M S unit :=
  let! to := bread dev t in
  let! from := bread dev src in
  let! d := gets (fun c => bdata c from) in
  bset to d ;;
  bwrite to ;;
  brelse from ;;
  brelse to.

Fixpoint write_log_loop (k : nat) (tail : Z) : M (logst S) unit :=
  match k with
  | O => ret tt
  | Datatypes.S k' =>
      let! start := gets l_start in
      let! dev := gets l_dev in
      let! src := nth_block tail in
      zoom cache_of (log_block dev (start + tail + 1) src) ;;
      write_log_loop k' (tail + 1)
  end.

Definition write_log : M (logst S) unit :=
  let! n := gets l_n in write_log_loop (Z.to_nat n) 0.

Definition commit : M (logst S) unit :=
  let! n := gets l_n in
  when (0 <? n)
    (write_log ;;
     write_head ;;
     install_trans false ;;
     modify (set_n 0) ;;
     write_head).

(** The waiting loop of [begin_op]; each turn that has to wait sleeps once. *)
Fixpoint begin_op_loop (fuel : nat) : M (logst S) unit :=
  match fuel with
  | O => nofuel
  | Datatypes.S f =>
      let! s := gets (fun s => s) in
      if l_committing s then sleep log_chan log_lock ;; begin_op_loop f
      else if LOGBLOCKS <? l_n s + (l_outstanding s + 1) * MAXOPBLOCKS
      then sleep log_chan log_lock ;; begin_op_loop f
      else
        modify (fun s => set_outstanding (l_outstanding s + 1) s) ;;
        release log_lock
  end.

Definition begin_op (fuel : nat) : M (logst S) unit := acquire log_lock ;; begin_op_loop fuel.

(** [wakeup(&log)] makes waiting threads runnable; it changes nothing here. *)
Definition end_op : M (logst S) unit :=
  acquire log_lock ;;
  modify (fun s => set_outstanding (l_outstanding s - 1) s) ;;
  let! s := gets (fun s => s) in
  if l_committing s then panic "log.committing"
  else
    let do_commit := l_outstanding s =? 0 in
    when do_commit (modify (set_committing true)) ;;
    release log_lock ;;
    when do_commit
      (commit ;;
       acquire log_lock ;;
       modify (set_committing false) ;;
       release log_lock).

(** The index at which a block number is found, or [length bs]. *)
Fixpoint find_block (bs : list Z) (b : Z) : nat :=
  match bs with
  | [] => O
  | b' :: bs' => if b' =? b then O else Datatypes.S (find_block bs' b)
  end.

Definition log_write (b : Z) : M (logst S) unit :=
  acquire log_lock ;;
  let! s := gets (fun s => s) in
  if LOGBLOCKS <=? l_n s then panic "too big a transaction"
  else if l_outstanding s <? 1 then panic "log_write outside of trans"
  else
    let! bno := gets (fun s => bblockno (l_cache s) b) in
    let i := find_block (take (Z.to_nat (l_n s)) (l_block s)) bno in
    modify (set_block (<[i := bno]> (l_block s))) ;;
    when (Z.of_nat i =? l_n s)
      (zoom cache_of (bpin b) ;;
       modify (fun s => set_n (l_n s + 1) s)) ;;
    release log_lock.
End Log.

(** ** One block at a time *)

(** Block [t] gets contents [d], in the cache and on disk. *)
Definition a_copy (t : Z) (d : block) (a : bst) : bst :=
  Bst (upd (a_disk a) t d) (upd (a_view a) t d) (a_ref a) (a_held a) (a_busy a)
      (a_writes a ++ [(t, d)]).

(** The same, and a pin of [t] is given up. *)
Definition a_install (t : Z) (d : block) (a : bst) : bst := a_unpin t (a_copy t d a).

#[global] Instance a_copy_proper t d : Proper ((≡) ==> (≡)) (a_copy t d).
Proof.
  intros a a' (H1 & H2 & H3 & H4 & H5 & H6). unfold a_copy. rewrite H6.
  repeat split; simpl; auto; intros; unfold upd; case_test; auto.
Qed.

#[global] Instance a_install_proper t d : Proper ((≡) ==> (≡)) (a_install t d).
Proof. unfold a_install. solve_proper. Qed.

Section Steps.
Context {S : Type} `{BlockCache S} (dev : Z) `{!BlockCacheLaws S dev}.

Lemma log_block_spec c t b :
  let a := bc_abs c in
  bc_inv c -> a_held a t = false -> a_held a b = false -> t <> b ->
  0 <= a_ref a t < REFMAX -> 0 < a_ref a b < REFMAX -> a_busy a < NBUF ->
  exists c', log_block dev t b c = Ret tt c' /\ bc_inv c' /\ bc_abs c' ≡ a_copy t (a_view a b) a.
Proof.
  intros a. subst a. intros Hi Ht Hb Hne Hrt Hrb Hbusy. unfold log_block.
  destruct (bc_read c t) as (h1 & c1 & E1 & I1 & H1 & A1 & _); auto; [lia|].
  rewrite (bind_ret_l _ _ _ _ _ E1).
  destruct (bc_read c1 b) as (h2 & c2 & E2 & I2 & H2 & A2 & P2); auto;
    [abs_solve|left; abs_solve|abs_solve|].
  rewrite (bind_ret_l _ _ _ _ _ E2), bind_gets. rewrite A1 in A2.
  apply P2 in H1; [|abs_solve]. clear P2.
  destruct (bc_data c2 h2 b I2 H2) as [-> _].
  assert (Hv : a_view (bc_abs c2) b = a_view (bc_abs c) b) by abs_solve. rewrite Hv.
  destruct (bc_set c2 h1 t (a_view (bc_abs c) b)) as (c3 & E3 & I3 & A3 & P3); auto; [abs_solve..|].
  rewrite (bind_ret_l _ _ _ _ _ E3). rewrite A2 in A3. apply P3 in H1. apply P3 in H2.
  destruct (bc_write c3 h1 t) as (c4 & E4 & I4 & A4 & P4); auto; [abs_solve..|].
  rewrite (bind_ret_l _ _ _ _ _ E4). rewrite A3 in A4. apply P4 in H1. apply P4 in H2.
  destruct (bc_rel c4 h2 b) as (c5 & E5 & I5 & A5 & P5); auto; [abs_solve..|left; abs_solve|].
  rewrite (bind_ret_l _ _ _ _ _ E5). rewrite A4 in A5. apply P5 in H1.
  destruct (bc_rel c5 h1 t) as (c6 & E6 & I6 & A6 & _); auto; [abs_solve..|right; abs_solve|].
  rewrite A5 in A6. exists c6. split; [exact E6|]. split; [exact I6|]. rewrite A6.
  abs_eq.
Qed.

Lemma install_block_spec c t b recovering :
  let a := bc_abs c in
  bc_inv c -> a_held a t = false -> a_held a b = false -> t <> b ->
  0 <= a_ref a t < REFMAX -> 0 <= a_ref a b < REFMAX -> (recovering = false -> 0 < a_ref a b) ->
  a_busy a + 1 < NBUF \/ (0 < a_ref a b /\ a_busy a < NBUF) -> a_view a t = a_disk a t ->
  exists c', install_block dev t b recovering c = Ret tt c' /\ bc_inv c' /\
    bc_abs c' ≡ (if recovering then a_copy else a_install) b (a_view a t) a.
Proof.
  intros a. subst a. intros Hi Ht Hb Hne Hrt Hrb Hpin Hbusy Hclean. unfold install_block.
  destruct (bc_read c t) as (h1 & c1 & E1 & I1 & H1 & A1 & _); auto; [right; lia|lia|].
  rewrite (bind_ret_l _ _ _ _ _ E1).
  destruct (bc_read c1 b) as (h2 & c2 & E2 & I2 & H2 & A2 & P2); auto.
  { abs_solve. }
  { destruct Hbusy as [Hbusy|[? ?]]; [right|left]; abs_solve. }
  { abs_solve. }
  rewrite (bind_ret_l _ _ _ _ _ E2), bind_gets. rewrite A1 in A2.
  apply P2 in H1; [|abs_solve]. clear P2.
  destruct (bc_data c2 h1 t I2 H1) as [-> _].
  assert (Hv : a_view (bc_abs c2) t = a_view (bc_abs c) t) by abs_solve. rewrite Hv.
  destruct (bc_set c2 h2 b (a_view (bc_abs c) t)) as (c3 & E3 & I3 & A3 & P3); auto; [abs_solve..|].
  rewrite (bind_ret_l _ _ _ _ _ E3). rewrite A2 in A3. apply P3 in H1. apply P3 in H2.
  destruct (bc_write c3 h2 b) as (c4 & E4 & I4 & A4 & P4); auto; [abs_solve..|].
  rewrite (bind_ret_l _ _ _ _ _ E4). rewrite A3 in A4. apply P4 in H1. apply P4 in H2.
  assert (Hu : exists c5, when (negb recovering) (bunpin h2) c4 = Ret tt c5 /\ bc_inv c5 /\
    bc_abs c5 ≡ (if recovering then bc_abs c4 else a_unpin b (bc_abs c4)) /\
    bc_handle c5 h1 t /\ bc_handle c5 h2 b).
  { destruct recovering; simpl; [exists c4; auto 10|].
    specialize (Hpin eq_refl).
    destruct (bc_unpin c4 h2 b) as (c5 & E5 & I5 & A5 & P5); auto; [abs_solve|].
    exists c5. auto 10. }
  destruct Hu as (c5 & E5 & I5 & A5 & H1' & H2').
  rewrite (bind_ret_l _ _ _ _ _ E5).
  assert (A5' : bc_abs c5 ≡ (if recovering then (fun x => x) else a_unpin b)
    (a_write b (a_set b (a_view (bc_abs c) t) (a_get b (a_get t (bc_abs c)))))).
  { rewrite A5. destruct recovering; [exact A4|]. rewrite A4. reflexivity. }
  clear A5 A4 A3 A2 A1.
  destruct (bc_rel c5 h1 t) as (c6 & E6 & I6 & A6 & P6); auto;
    [destruct recovering; abs_solve..|right; destruct recovering; abs_solve|].
  rewrite (bind_ret_l _ _ _ _ _ E6). rewrite A5' in A6. apply P6 in H2'.
  destruct (bc_rel c6 h2 b) as (c7 & E7 & I7 & A7 & _); auto;
    [destruct recovering; abs_solve..|right; destruct recovering; abs_solve|].
  rewrite A6 in A7. exists c7. split; [exact E7|]. split; [exact I7|]. rewrite A7.
  destruct recovering; abs_eq.
Qed.

Lemma put_head_spec c start n bs :
  let a := bc_abs c in
  bc_inv c -> a_held a start = false -> 0 <= a_ref a start < REFMAX -> a_busy a < NBUF ->
  exists c', put_head dev start n bs c = Ret tt c' /\ bc_inv c' /\
    bc_abs c' ≡ a_copy start (hdr_put (a_view a start) n bs) a.
Proof.
  intros a. subst a. intros Hi Ht Hrt Hbusy. unfold put_head.
  destruct (bc_read c start) as (h1 & c1 & E1 & I1 & H1 & A1 & _); auto; [lia|].
  rewrite (bind_ret_l _ _ _ _ _ E1), bind_gets.
  destruct (bc_data c1 h1 start I1 H1) as [-> _].
  assert (Hv : a_view (bc_abs c1) start = a_view (bc_abs c) start) by abs_solve. rewrite Hv.
  destruct (bc_set c1 h1 start (hdr_put (a_view (bc_abs c) start) n bs)) as (c3 & E3 & I3 & A3 & P3);
    auto; [abs_solve..|].
  rewrite (bind_ret_l _ _ _ _ _ E3). rewrite A1 in A3. apply P3 in H1.
  destruct (bc_write c3 h1 start) as (c4 & E4 & I4 & A4 & P4); auto; [abs_solve..|].
  rewrite (bind_ret_l _ _ _ _ _ E4). rewrite A3 in A4. apply P4 in H1.
  destruct (bc_rel c4 h1 start) as (c5 & E5 & I5 & A5 & P5); auto; [abs_solve..|right; abs_solve|].
  rewrite A4 in A5. exists c5. split; [exact E5|]. split; [exact I5|]. rewrite A5. abs_eq.
Qed.
End Steps.

(** ** Sequences of writes *)

Definition apply_writes (d : Z -> block) (ws : list (Z * block)) : Z -> block :=
  foldl (fun d '(b, v) => upd d b v) d ws.

(** The abstract state after writing [ws] through the cache. *)
Definition a_apply (ws : list (Z * block)) (a : bst) : bst :=
  Bst (apply_writes (a_disk a) ws) (apply_writes (a_view a) ws) (a_ref a) (a_held a) (a_busy a)
      (a_writes a ++ ws).

Fixpoint a_unpins (bs : list Z) (a : bst) : bst :=
  match bs with
  | [] => a
  | b :: bs' => a_unpins bs' (a_unpin b a)
  end.

(** Writes to consecutive blocks from [t] on. *)
Fixpoint seq_writes (t : Z) (ds : list block) : list (Z * block) :=
  match ds with
  | [] => []
  | d :: ds' => (t, d) :: seq_writes (t + 1) ds'
  end.

Lemma apply_writes_app d ws ws' : apply_writes d (ws ++ ws') = apply_writes (apply_writes d ws) ws'.
Proof. apply foldl_app. Qed.

Lemma apply_writes_ext ws : forall d d' b, d b = d' b -> apply_writes d ws b = apply_writes d' ws b.
Proof.
  induction ws as [|[b' v] ws IH]; intros d d' b Hd; simpl; [exact Hd|].
  apply IH. unfold upd. case_test; auto.
Qed.

Lemma apply_writes_other ws d b : b ∉ ws.*1 -> apply_writes d ws b = d b.
Proof.
  revert d. induction ws as [|[b' v] ws IH]; intros d Hb; simpl; [reflexivity|].
  apply not_elem_of_cons in Hb as [Hne Hb]. rewrite IH by exact Hb. apply upd_ne, Hne.
Qed.

Lemma apply_writes_in ws : forall d b v, NoDup ws.*1 -> (b, v) ∈ ws -> apply_writes d ws b = v.
Proof.
  induction ws as [|[b' v'] ws IH]; intros d b v Hnd Hin; [apply elem_of_nil in Hin; contradiction|].
  simpl in Hnd. apply NoDup_cons in Hnd as [Hn Hnd]. simpl.
  apply elem_of_cons in Hin as [Hin|Hin]; [|apply IH; assumption].
  simplify_eq. rewrite apply_writes_other by exact Hn. apply upd_eq.
Qed.

#[global] Instance a_apply_proper ws : Proper ((≡) ==> (≡)) (a_apply ws).
Proof.
  intros a a' (H1 & H2 & H3 & H4 & H5 & H6). unfold a_apply. rewrite H6.
  repeat split; simpl; auto; intros; apply apply_writes_ext; auto.
Qed.

#[global] Instance a_unpins_proper bs : Proper ((≡) ==> (≡)) (a_unpins bs).
Proof.
  induction bs as [|b bs IH]; intros a a' Ha; simpl; [exact Ha|]. apply IH. rewrite Ha. reflexivity.
Qed.

Lemma a_apply_app ws ws' a : a_apply ws' (a_apply ws a) ≡ a_apply (ws ++ ws') a.
Proof. unfold a_apply. simpl. rewrite !apply_writes_app, app_assoc. reflexivity. Qed.

Lemma a_apply_unpins ws bs a : a_apply ws (a_unpins bs a) = a_unpins bs (a_apply ws a).
Proof. revert a. induction bs as [|b bs IH]; intros a; simpl; [reflexivity|]. rewrite IH. reflexivity. Qed.

Lemma a_unpins_view bs a b : a_view (a_unpins bs a) b = a_view a b.
Proof. revert a. induction bs as [|b' bs IH]; intros a; simpl; [reflexivity|]. rewrite IH. reflexivity. Qed.

Lemma a_unpins_disk bs a b : a_disk (a_unpins bs a) b = a_disk a b.
Proof. revert a. induction bs as [|b' bs IH]; intros a; simpl; [reflexivity|]. rewrite IH. reflexivity. Qed.

Lemma a_unpins_writes bs a : a_writes (a_unpins bs a) = a_writes a.
Proof. revert a. induction bs as [|b bs IH]; intros a; simpl; [reflexivity|]. rewrite IH. reflexivity. Qed.

Lemma seq_writes_fst t ds : (seq_writes t ds).*1 = seqZ t (Z.of_nat (length ds)).
Proof.
  revert t. induction ds as [|d ds IH]; intros t; simpl; [reflexivity|].
  rewrite IH. rewrite (seqZ_cons t) by lia. f_equal. f_equal; lia.
Qed.

Lemma seq_writes_lookup ds : forall t d i, ds !! i = Some d -> (t + Z.of_nat i, d) ∈ seq_writes t ds.
Proof.
  induction ds as [|d' ds IH]; intros t d i Hi; [discriminate|]. destruct i as [|i]; simpl in *.
  - simplify_eq. rewrite Z.add_0_r. left.
  - right. replace (t + Z.of_nat (S i)) with (t + 1 + Z.of_nat i) by lia. auto.
Qed.

(** Writes of the contents of log blocks [t], [t+1], ... to the blocks [bs]. *)
Fixpoint home_writes (v : Z -> block) (t : Z) (bs : list Z) : list (Z * block) :=
  match bs with
  | [] => []
  | b :: bs' => (b, v t) :: home_writes v (t + 1) bs'
  end.

Lemma home_writes_ext v v' bs : forall t,
  (forall i, t <= i < t + Z.of_nat (length bs) -> v i = v' i) -> home_writes v t bs = home_writes v' t bs.
Proof.
  induction bs as [|b bs IH]; intros t Hv; simpl; [reflexivity|]. simpl in Hv.
  rewrite (Hv t) by lia. f_equal. apply IH. intros i Hi. apply Hv. lia.
Qed.

Lemma home_writes_fst v t bs : (home_writes v t bs).*1 = bs.
Proof. revert t. induction bs as [|b bs IH]; intros t; simpl; [reflexivity|]. rewrite IH. reflexivity. Qed.

(** The state in which the blocks [bs] can be copied to or from the log: they
    are distinct and outside the log, nothing is locked, a buffer is free, and
    the log's own blocks are clean. *)
Record ready (start : Z) (bs : list Z) (a : bst) : Prop := {
  rd_nodup : NoDup bs;
  rd_len : Z.of_nat (length bs) <= LOGBLOCKS;
  rd_home : forall b, b ∈ bs -> b < start \/ start + LOGBLOCKS < b;
  rd_held : forall b, a_held a b = false;
  rd_ref : forall b, 0 <= a_ref a b < REFMAX;
  rd_busy : a_busy a < NBUF;
  rd_clean : forall t, start <= t <= start + LOGBLOCKS -> a_view a t = a_disk a t
}.

Definition pinned (bs : list Z) (a : bst) : Prop := forall b, b ∈ bs -> 0 < a_ref a b.

#[global] Instance ready_proper start bs : Proper ((≡) ==> impl) (ready start bs).
Proof.
  intros a a' (H1 & H2 & H3 & H4 & H5 & H6) [R1 R2 R3 R4 R5 R6 R7].
  split; auto; intros; rewrite <- ?H1, <- ?H2, <- ?H3, <- ?H4, <- ?H5; auto.
Qed.

#[global] Instance pinned_proper bs : Proper ((≡) ==> impl) (pinned bs).
Proof. intros a a' Ha Hp b Hb. rewrite <- (eqv_ref _ _ b Ha). auto. Qed.

Lemma ready_apply start bs ws a : ready start bs a -> ready start bs (a_apply ws a).
Proof.
  intros [R1 R2 R3 R4 R5 R6 R7]. split; simpl; auto. intros t Ht. apply apply_writes_ext. auto.
Qed.

Lemma ready_unpin start b bs a :
  ready start (b :: bs) a -> pinned (b :: bs) a ->
  ready start bs (a_unpin b a) /\ pinned bs (a_unpin b a).
Proof.
  intros [R1 R2 R3 R4 R5 R6 R7] Hp. apply NoDup_cons in R1 as [Rn R1].
  assert (0 < a_ref a b) by (apply Hp; left). split.
  - split; auto; simpl; simpl in R2.
    + lia.
    + intros b' Hb'. apply R3. right. exact Hb'.
    + intros b'. pose proof (R5 b). unfold upd. case_test; [lia|auto].
    + case_test; lia.
  - intros b' Hb'. simpl. rewrite upd_ne by (intros ->; contradiction). apply Hp. right. exact Hb'.
Qed.

Lemma ready_install start b bs d a :
  ready start (b :: bs) a -> pinned (b :: bs) a ->
  ready start bs (a_install b d a) /\ pinned bs (a_install b d a).
Proof.
  intros Hr Hp. apply (ready_unpin start b bs (a_apply [(b, d)] a)); [apply ready_apply, Hr|exact Hp].
Qed.

Lemma ready_unpins start bs : forall a,
  ready start bs a -> pinned bs a -> ready start [] (a_unpins bs a).
Proof.
  induction bs as [|b bs IH]; intros a Hr Hp; simpl; [exact Hr|].
  destruct (ready_unpin _ _ _ _ Hr Hp). auto.
Qed.

Lemma ready_tail start b bs a : ready start (b :: bs) a -> ready start bs a.
Proof.
  intros [R1 R2 R3 R4 R5 R6 R7]. apply NoDup_cons in R1 as [Rn R1]. simpl in R2.
  split; auto; [lia|]. intros b' Hb'. apply R3. right. exact Hb'.
Qed.

(** ** The loops *)

(** The home blocks from index [tail] on. *)
Definition blocks_at {S} (s : logst S) (tail : Z) (bs : list Z) : Prop :=
  forall i b, bs !! i = Some b -> nth (Z.to_nat tail + i) (l_block s) 0 = b.

Lemma blocks_at_cons {S} (s : logst S) tail b bs :
  0 <= tail -> blocks_at s tail (b :: bs) -> nth (Z.to_nat tail) (l_block s) 0 = b /\ blocks_at s (tail + 1) bs.
Proof.
  intros Ht Hb. split.
  - rewrite <- (Hb 0%nat b eq_refl). f_equal. lia.
  - intros i b' Hi. rewrite <- (Hb (Datatypes.S i) b' Hi). f_equal. lia.
Qed.

Section Loops.
Context {S : Type} `{BlockCache S} (dev : Z) `{!BlockCacheLaws S dev}.

Lemma write_log_loop_spec start : forall bs tail s,
  l_dev s = dev -> l_start s = start -> blocks_at s tail bs -> 0 <= tail ->
  tail + Z.of_nat (length bs) <= LOGBLOCKS ->
  bc_inv (l_cache s) -> ready start bs (bc_abs (l_cache s)) -> pinned bs (bc_abs (l_cache s)) ->
  exists c', write_log_loop (length bs) tail s = Ret tt (set cache_of c' s) /\ bc_inv c' /\
    bc_abs c' ≡ a_apply (seq_writes (start + tail + 1) (a_view (bc_abs (l_cache s)) <$> bs))
                        (bc_abs (l_cache s)).
Proof.
  induction bs as [|b bs IH]; intros tail s Hd Hs Hb Ht Hlen Hi Hr Hp.
  - exists (l_cache s). destruct s; simpl in *. split; [reflexivity|]. split; [exact Hi|].
    unfold a_apply. simpl. rewrite app_nil_r. repeat split.
  - apply blocks_at_cons in Hb as [Hb0 Hb]; [|exact Ht]. simpl in Hlen.
    cbn [length write_log_loop]. unfold nth_block. rewrite !bind_gets, Hd, Hs, Hb0.
    set (t := start + tail + 1). pose proof (rd_home _ _ _ Hr b ltac:(left)) as Hhome.
    destruct (log_block_spec dev (l_cache s) t b) as (c1 & E1 & I1 & A1); auto; try apply Hr.
    { unfold t. lia. }
    { split; [apply Hp; left|apply Hr]. }
    rewrite (bind_ret_l _ _ _ tt (set cache_of c1 s)) by (apply zoom_ret; exact E1).
    destruct (IH (tail + 1) (set cache_of c1 s)) as (c' & E' & I' & A'); auto; try lia.
    { simpl. rewrite A1. apply (ready_apply _ _ [(t, a_view (bc_abs (l_cache s)) b)]). eapply ready_tail, Hr. }
    { simpl. rewrite A1. intros b' Hb'. apply Hp. right. exact Hb'. }
    exists c'. split; [exact E'|]. split; [exact I'|]. rewrite A'. simpl l_cache.
    replace (a_view (bc_abs c1) <$> bs) with (a_view (bc_abs (l_cache s)) <$> bs).
    2: { apply list_fmap_ext. intros i b' Hb'. rewrite (eqv_view _ _ b' A1). simpl.
         rewrite upd_ne; [reflexivity|]. apply list_elem_of_lookup_2 in Hb'.
         pose proof (rd_home _ _ _ Hr b' ltac:(right; exact Hb')). unfold t. lia. }
    rewrite A1. change (a_copy t ?d ?a) with (a_apply [(t, d)] a).
    rewrite a_apply_app. simpl. replace (start + (tail + 1) + 1) with (t + 1) by (unfold t; lia). reflexivity.
Qed.

Lemma install_loop_spec start : forall bs tail s,
  l_dev s = dev -> l_start s = start -> blocks_at s tail bs -> 0 <= tail ->
  tail + Z.of_nat (length bs) <= LOGBLOCKS ->
  bc_inv (l_cache s) -> ready start bs (bc_abs (l_cache s)) -> pinned bs (bc_abs (l_cache s)) ->
  exists c', install_loop (length bs) tail false s = Ret tt (set cache_of c' s) /\ bc_inv c' /\
    bc_abs c' ≡ a_unpins bs (a_apply (home_writes (a_view (bc_abs (l_cache s))) (start + tail + 1) bs)
                                     (bc_abs (l_cache s))).
Proof.
  induction bs as [|b bs IH]; intros tail s Hd Hs Hb Ht Hlen Hi Hr Hp.
  - exists (l_cache s). destruct s; simpl in *. split; [reflexivity|]. split; [exact Hi|].
    unfold a_apply. simpl. rewrite app_nil_r. repeat split.
  - apply blocks_at_cons in Hb as [Hb0 Hb]; [|exact Ht]. simpl in Hlen.
    cbn [length install_loop]. unfold nth_block. rewrite !bind_gets, Hd, Hs, Hb0.
    set (t := start + tail + 1). pose proof (rd_home _ _ _ Hr b ltac:(left)) as Hhome.
    assert (Hpb : 0 < a_ref (bc_abs (l_cache s)) b) by (apply Hp; left).
    destruct (install_block_spec dev (l_cache s) t b false) as (c1 & E1 & I1 & A1); auto; try apply Hr.
    { unfold t. lia. }
    { right. split; [exact Hpb|apply Hr]. }
    { unfold t. lia. }
    rewrite (bind_ret_l _ _ _ tt (set cache_of c1 s)) by (apply zoom_ret; exact E1).
    destruct (ready_install start b bs (a_view (bc_abs (l_cache s)) t) _ Hr Hp) as [Hr1 Hp1].
    destruct (IH (tail + 1) (set cache_of c1 s)) as (c' & E' & I' & A'); auto; try lia.
    { simpl. rewrite A1. exact Hr1. }
    { simpl. rewrite A1. exact Hp1. }
    exists c'. split; [exact E'|]. split; [exact I'|]. rewrite A'. simpl l_cache. simpl a_unpins.
    rewrite (home_writes_ext (a_view (bc_abs c1)) (a_view (bc_abs (l_cache s)))).
    2: { intros i Hj. rewrite (eqv_view _ _ i A1). simpl. apply upd_ne. lia. }
    rewrite A1. replace (start + (tail + 1) + 1) with (t + 1) by (unfold t; lia).
    apply a_unpins_proper. unfold a_install.
    change (a_apply ?ws (a_unpin b ?x)) with (a_unpin b (a_apply ws x)).
    apply a_unpin_proper. change (a_copy b ?d ?a) with (a_apply [(b, d)] a).
    rewrite a_apply_app. reflexivity.
Qed.
Lemma recover_loop_spec start : forall bs tail s,
  l_dev s = dev -> l_start s = start -> blocks_at s tail bs -> 0 <= tail ->
  tail + Z.of_nat (length bs) <= LOGBLOCKS ->
  bc_inv (l_cache s) -> ready start bs (bc_abs (l_cache s)) -> a_busy (bc_abs (l_cache s)) + 1 < NBUF ->
  exists c', install_loop (length bs) tail true s = Ret tt (set cache_of c' s) /\ bc_inv c' /\
    bc_abs c' ≡ a_apply (home_writes (a_view (bc_abs (l_cache s))) (start + tail + 1) bs)
                        (bc_abs (l_cache s)).
Proof.
  induction bs as [|b bs IH]; intros tail s Hd Hs Hb Ht Hlen Hi Hr Hbusy.
  - exists (l_cache s). destruct s; simpl in *. split; [reflexivity|]. split; [exact Hi|].
    unfold a_apply. simpl. rewrite app_nil_r. repeat split.
  - apply blocks_at_cons in Hb as [Hb0 Hb]; [|exact Ht]. simpl in Hlen.
    cbn [length install_loop]. unfold nth_block. rewrite !bind_gets, Hd, Hs, Hb0.
    set (t := start + tail + 1). pose proof (rd_home _ _ _ Hr b ltac:(left)) as Hhome.
    destruct (install_block_spec dev (l_cache s) t b true) as (c1 & E1 & I1 & A1); auto; try apply Hr.
    { unfold t. lia. }
    { discriminate. }
    { unfold t. lia. }
    rewrite (bind_ret_l _ _ _ tt (set cache_of c1 s)) by (apply zoom_ret; exact E1).
    destruct (IH (tail + 1) (set cache_of c1 s)) as (c' & E' & I' & A'); auto; try lia.
    { simpl. rewrite A1. apply (ready_apply _ _ [(b, a_view (bc_abs (l_cache s)) t)]). eapply ready_tail, Hr. }
    { simpl. rewrite (eqv_busy _ _ A1). exact Hbusy. }
    exists c'. split; [exact E'|]. split; [exact I'|]. rewrite A'. simpl l_cache.
    rewrite (home_writes_ext (a_view (bc_abs c1)) (a_view (bc_abs (l_cache s)))).
    2: { intros i Hj. rewrite (eqv_view _ _ i A1). simpl. apply upd_ne. lia. }
    rewrite A1. replace (start + (tail + 1) + 1) with (t + 1) by (unfold t; lia).
    change (a_copy b ?d ?a) with (a_apply [(b, d)] a). rewrite a_apply_app. reflexivity.
Qed.

Lemma write_head_spec bs s :
  l_dev s = dev -> bc_inv (l_cache s) -> ready (l_start s) bs (bc_abs (l_cache s)) ->
  let d := hdr_put (a_view (bc_abs (l_cache s)) (l_start s)) (l_n s) (l_block s) in
  exists c', write_head s = Ret tt (set cache_of c' s) /\ bc_inv c' /\
    bc_abs c' ≡ a_apply [(l_start s, d)] (bc_abs (l_cache s)).
Proof.
  intros Hd Hi Hr d. unfold write_head. rewrite !bind_gets, Hd.
  destruct (put_head_spec dev (l_cache s) (l_start s) (l_n s) (l_block s)) as (c' & E & I & A);
    auto; try apply Hr.
  exists c'. split; [apply zoom_ret; exact E|]. split; [exact I|exact A].
Qed.

(** The disk writes of a commit, in order. *)
Definition commit_writes (start : Z) (bs : list Z) (lblock : list Z) (v : Z -> block) : list (Z * block) :=
  let h1 := hdr_put (v start) (Z.of_nat (length bs)) lblock in
  seq_writes (start + 1) (v <$> bs) ++ [(start, h1)] ++
  ((fun b => (b, v b)) <$> bs) ++ [(start, hdr_put h1 0 lblock)].

(** Reading back what was just written to the log. *)
Lemma home_writes_log v bs : forall t,
  (forall b, b ∈ bs -> b < t \/ t + Z.of_nat (length bs) <= b) ->
  home_writes (apply_writes v (seq_writes t (v <$> bs))) t bs = (fun b => (b, v b)) <$> bs.
Proof.
  intros t Hb. enough (Hgen : forall bs' t' v', (forall i b, bs' !! i = Some b -> v' (t' + Z.of_nat i) = v b) ->
    home_writes v' t' bs' = (fun b => (b, v b)) <$> bs').
  { apply Hgen. intros i b Hi. apply apply_writes_in.
    - rewrite seq_writes_fst. apply NoDup_seqZ.
    - apply seq_writes_lookup. rewrite list_lookup_fmap, Hi. reflexivity. }
  induction bs' as [|b bs' IH]; intros t' v' Hv; simpl; [reflexivity|].
  f_equal; [f_equal; rewrite <- (Hv 0%nat b eq_refl); f_equal; lia|].
  apply IH. intros i b' Hi. rewrite <- (Hv (Datatypes.S i) b' Hi). f_equal. lia.
Qed.

Lemma commit_spec bs s :
  l_dev s = dev -> l_n s = Z.of_nat (length bs) -> take (length bs) (l_block s) = bs -> bs <> [] ->
  bc_inv (l_cache s) -> ready (l_start s) bs (bc_abs (l_cache s)) -> pinned bs (bc_abs (l_cache s)) ->
  exists c', commit s = Ret tt (set_n 0 (set cache_of c' s)) /\ bc_inv c' /\
    bc_abs c' ≡ a_unpins bs (a_apply (commit_writes (l_start s) bs (l_block s) (a_view (bc_abs (l_cache s))))
                                     (bc_abs (l_cache s))).
Proof.
  intros Hd Hn Htk Hne Hi Hr Hp. set (a := bc_abs (l_cache s)) in *. set (st := l_start s) in *.
  pose proof (rd_len _ _ _ Hr) as Hlen.
  assert (Hpos : 0 < l_n s) by (destruct bs; [contradiction|simpl in Hn; lia]).
  assert (Hbl : forall s' : logst S, l_block s' = l_block s -> blocks_at s' 0 bs).
  { intros s' E i b Hb. rewrite E. rewrite <- Htk in Hb. apply lookup_take_Some in Hb as [Hb _].
    simpl. apply nth_lookup_Some. exact Hb. }
  unfold commit. rewrite bind_gets. replace (0 <? l_n s) with true by lia. cbn [when].
  (* write_log *)
  destruct (write_log_loop_spec st bs 0 s) as (c1 & E1 & I1 & A1); auto; try lia.
  unfold write_log. erewrite bind_ret_l.
  2: { rewrite bind_gets, Hn, Nat2Z.id. exact E1. }
  replace (st + 0 + 1) with (st + 1) in A1 by lia. fold a in A1.
  set (s1 := set cache_of c1 s). set (w1 := seq_writes (st + 1) (a_view a <$> bs)) in *.
  (* write_head *)
  assert (R1 : ready (l_start s1) bs (bc_abs (l_cache s1))) by (simpl; rewrite A1; apply ready_apply, Hr).
  destruct (write_head_spec bs s1) as (c2 & E2 & I2 & A2); auto.
  rewrite (bind_ret_l _ _ _ _ _ E2). simpl l_start in A2. simpl l_cache in A2. fold st in A2.
  assert (Hv1 : a_view (bc_abs c1) st = a_view a st).
  { rewrite (eqv_view _ _ st A1). simpl. apply apply_writes_other. unfold w1. rewrite seq_writes_fst.
    rewrite elem_of_seqZ. lia. }
  rewrite Hv1 in A2. simpl l_n in A2. simpl l_block in A2. rewrite Hn in A2. rewrite A1, a_apply_app in A2.
  set (h1 := hdr_put (a_view a st) (Z.of_nat (length bs)) (l_block s)) in *.
  set (s2 := set cache_of c2 s1).
  (* install_trans *)
  destruct (install_loop_spec st bs 0 s2) as (c3 & E3 & I3 & A3); auto; try lia.
  { simpl. rewrite A2. apply ready_apply, Hr. }
  { simpl. rewrite A2. exact Hp. }
  unfold install_trans. erewrite bind_ret_l.
  2: { rewrite bind_gets. simpl l_n. rewrite Hn, Nat2Z.id. exact E3. }
  rewrite bind_modify. replace (st + 0 + 1) with (st + 1) in A3 by lia. simpl l_cache in A3.
  set (s3 := set_n 0 (set cache_of c3 s2)).
  assert (Hw2 : home_writes (a_view (bc_abs c2)) (st + 1) bs = (fun b => (b, a_view a b)) <$> bs).
  { rewrite (home_writes_ext _ (apply_writes (a_view a) w1)).
    - apply home_writes_log. intros b Hb. pose proof (rd_home _ _ _ Hr b Hb). lia.
    - intros i Hj. rewrite (eqv_view _ _ i A2). simpl. rewrite apply_writes_app. simpl. apply upd_ne. lia. }
  rewrite Hw2, A2, a_apply_app in A3.
  set (w2 := (fun b => (b, a_view a b)) <$> bs) in *.
  (* write_head again *)
  assert (R3 : ready (l_start s3) [] (bc_abs (l_cache s3))).
  { simpl. rewrite A3. apply ready_unpins; [apply ready_apply, Hr|exact Hp]. }
  destruct (write_head_spec [] s3) as (c4 & E4 & I4 & A4); auto.
  rewrite E4. exists c4. split; [reflexivity|]. split; [exact I4|].
  simpl l_start in A4. simpl l_cache in A4. simpl l_n in A4. simpl l_block in A4. fold st in A4.
  assert (Hv3 : a_view (bc_abs c3) st = h1).
  { rewrite (eqv_view _ _ st A3), a_unpins_view. simpl. rewrite !apply_writes_app. simpl.
    rewrite apply_writes_other; [apply upd_eq|]. unfold w2. rewrite <- list_fmap_compose. simpl.
    rewrite list_elem_of_fmap. intros (b & Hb1 & Hb2). pose proof (rd_home _ _ _ Hr b Hb2).
    simpl in Hb1. subst b. lia. }
  rewrite Hv3 in A4. rewrite A4, A3, a_apply_unpins, a_apply_app. unfold commit_writes. fold st a.
  rewrite <- !app_assoc. reflexivity.
Qed.
End Loops.
