(* ===== verification/LogCrash.v ===== *)
(** * Crash safety of the log

    What recovery ([read_head], [install_trans], [initlog] of [kernel/log.c])
    does to a disk on which a commit stopped half way.  A crash keeps a prefix of
    the commit's disk writes; [booted] is the empty cache after a reboot. *)

From S2P Require Import Prelude Block Log.

(** ** The header block *)

Lemma hdr_put_blocks_off bs : forall d i x,
  x < 4 + 4 * i \/ 4 + 4 * (i + Z.of_nat (length bs)) <= x -> hdr_put_blocks d i bs x = d x.
Proof.
  induction bs as [|b bs IH]; intros d i x Hx; simpl; [reflexivity|]. simpl in Hx.
  rewrite IH by lia. apply store_le_outside. lia.
Qed.

Lemma i32_u32 z : - 2 ^ 31 <= z < 2 ^ 31 -> i32 (u32 z mod 2 ^ (8 * Z.of_nat 4)) = z.
Proof. change (2 ^ (8 * Z.of_nat 4)) with (2 ^ 32). intros H. wrap_lia. Qed.

Lemma hdr_n_put d n bs : 0 <= n < 2 ^ 31 -> hdr_n (hdr_put d n bs) = n.
Proof.
  intros Hn. unfold hdr_n, hdr_put.
  rewrite (load_ext 4 _ (store_le d 0 4 (u32 n))) by (intros; apply hdr_put_blocks_off; lia).
  rewrite load_store_le_eq by (pose proof (u32_bound n); lia). apply i32_u32. lia.
Qed.

Lemma hdr_blocks_put bs : forall d i j b, bs !! j = Some b -> 0 <= b < 2 ^ 31 ->
  hdr_block (hdr_put_blocks d i bs) (i + Z.of_nat j) = b.
Proof.
  induction bs as [|b' bs IH]; intros d i j b Hj Hb; [discriminate|].
  destruct j as [|j]; simpl in *.
  - simplify_eq. unfold hdr_block. rewrite Z.add_0_r.
    rewrite (load_ext 4 _ (store_le d (4 + 4 * i) 4 (u32 b))) by (intros; apply hdr_put_blocks_off; lia).
    rewrite load_store_le_eq by (pose proof (u32_bound b); lia). apply i32_u32. lia.
  - replace (i + Z.of_nat (S j)) with (i + 1 + Z.of_nat j) by lia. apply IH; assumption.
Qed.

(** The block numbers recovery reads from a header that a commit wrote. *)
Lemma hdr_read_put d bs lblock :
  take (length bs) lblock = bs -> Z.of_nat (length bs) < 2 ^ 31 ->
  (forall b, b ∈ bs -> 0 <= b < 2 ^ 31) ->
  let h := hdr_put d (Z.of_nat (length bs)) lblock in
  hdr_block h <$> seqZ 0 (hdr_n h) = bs.
Proof.
  intros Htk Hlen Hb h. unfold h. rewrite hdr_n_put by lia. apply list_eq. intros i.
  rewrite list_lookup_fmap. destruct (bs !! i) as [b|] eqn:Ei.
  - pose proof (lookup_lt_Some _ _ _ Ei). rewrite lookup_seqZ_lt by lia. simpl.
    unfold hdr_put. rewrite Nat2Z.id, Htk. f_equal. apply hdr_blocks_put; [exact Ei|].
    apply Hb. apply list_elem_of_lookup_2 in Ei. exact Ei.
  - apply lookup_ge_None in Ei. rewrite lookup_seqZ_ge by lia. reflexivity.
Qed.

Section Recovery.
Context {S : Type} `{BlockCache S} (dev : Z) `{!BlockCacheLaws S dev}.

Lemma read_head_spec s :
  let a := bc_abs (l_cache s) in
  l_dev s = dev -> bc_inv (l_cache s) -> a_held a (l_start s) = false -> 0 <= a_ref a (l_start s) < REFMAX ->
  a_busy a < NBUF -> a_view a (l_start s) = a_disk a (l_start s) ->
  let d := a_view a (l_start s) in
  exists c', read_head s =
      Ret tt (set_block ((hdr_block d <$> seqZ 0 (hdr_n d)) ++ drop (Z.to_nat (hdr_n d)) (l_block s))
        (set_n (hdr_n d) (set cache_of c' s))) /\
    bc_inv c' /\ bc_abs c' ≡ a.
Proof.
  intros a Hd Hi Hh Hr Hb Hcl. subst a. unfold read_head. rewrite !bind_gets, Hd.
  destruct (bc_read (l_cache s) (l_start s)) as (h1 & c1 & E1 & I1 & H1 & A1 & _); auto; [lia|].
  rewrite (bind_ret_l _ _ _ h1 (set cache_of c1 s)) by (apply zoom_ret; exact E1).
  rewrite bind_gets, !bind_modify. simpl l_cache. simpl l_block.
  destruct (bc_data c1 h1 _ I1 H1) as [-> _].
  assert (Hv : a_view (bc_abs c1) (l_start s) = a_view (bc_abs (l_cache s)) (l_start s)) by abs_solve.
  rewrite Hv.
  destruct (bc_rel c1 h1 (l_start s)) as (c2 & E2 & I2 & A2 & _); auto; [abs_solve..|right; abs_solve|].
  exists c2. split; [erewrite zoom_ret by exact E2; reflexivity|]. split; [exact I2|].
  rewrite A2, A1. abs_eq.
Qed.

Lemma recover_spec s bs :
  let a := bc_abs (l_cache s) in let d := a_view a (l_start s) in
  l_dev s = dev -> bc_inv (l_cache s) -> ready (l_start s) bs a -> a_busy a + 1 < NBUF ->
  hdr_block d <$> seqZ 0 (hdr_n d) = bs -> 0 <= hdr_n d ->
  exists s' h, recover_from_log s = Ret tt s' /\ bc_inv (l_cache s') /\ l_n s' = 0 /\ hdr_n h = 0 /\
    bc_abs (l_cache s') ≡
      a_apply (home_writes (a_view a) (l_start s + 1) bs ++ [(l_start s, h)]) a.
Proof.
  intros a d Hd Hi Hr Hbusy Hbs Hn. subst a. unfold recover_from_log.
  destruct (read_head_spec s) as (c1 & E1 & I1 & A1); auto; try apply Hr; [unfold LOGBLOCKS, MAXOPBLOCKS; lia|].
  rewrite (bind_ret_l _ _ _ _ _ E1). fold d. rewrite Hbs. set (s1 := set_block _ _).
  assert (Hlen : Z.of_nat (length bs) = hdr_n d).
  { rewrite <- Hbs, length_fmap, length_seqZ. lia. }
  pose proof (rd_len _ _ _ Hr) as HlenL.
  destruct (recover_loop_spec dev (l_start s) bs 0 s1) as (c2 & E2 & I2 & A2); auto; try lia.
  { intros i b Hb. simpl. rewrite app_nth1 by (apply lookup_lt_Some in Hb; exact Hb).
    apply nth_lookup_Some. exact Hb. }
  { simpl. rewrite A1. exact Hr. }
  { simpl. rewrite (eqv_busy _ _ A1). exact Hbusy. }
  unfold install_trans. erewrite bind_ret_l.
  2: { rewrite bind_gets. simpl l_n. rewrite <- Hlen, Nat2Z.id. exact E2. }
  rewrite bind_modify. replace (l_start s + 0 + 1) with (l_start s + 1) in A2 by lia.
  simpl l_cache in A2.
  rewrite (home_writes_ext (a_view (bc_abs c1)) (a_view (bc_abs (l_cache s)))) in A2
    by (intros i _; apply (eqv_view _ _ i A1)).
  rewrite A1 in A2. set (s3 := set_n 0 (set cache_of c2 s1)).
  destruct (write_head_spec dev bs s3) as (c4 & E4 & I4 & A4); auto.
  { simpl. rewrite A2. apply ready_apply, Hr. }
  cbv zeta in A4. set (h := hdr_put _ _ _) in A4.
  assert (Hh : hdr_n h = 0) by (apply hdr_n_put; simpl; lia). clearbody h.
  exists (set cache_of c4 s3), h. split; [exact E4|]. split; [exact I4|]. split; [reflexivity|].
  split; [exact Hh|]. simpl l_cache. rewrite A4. simpl l_cache. simpl l_start.
  rewrite A2, a_apply_app. reflexivity.
Qed.
End Recovery.

(** ** Crashes *)

(** After a reboot the cache is empty and shows the disk [d]. *)
Record booted (d : Z -> block) (a : bst) : Prop := {
  bt_disk : forall b, a_disk a b = d b;
  bt_view : forall b, a_view a b = d b;
  bt_ref : forall b, a_ref a b = 0;
  bt_held : forall b, a_held a b = false;
  bt_busy : a_busy a = 0
}.

Lemma home_keys (v : Z -> block) bs ws b : ws ⊆ (fun b => (b, v b)) <$> bs -> b ∈ ws.*1 -> b ∈ bs.
Proof.
  intros Hs Hb. apply list_elem_of_fmap in Hb as ([b' x] & -> & Hx). apply Hs in Hx.
  apply list_elem_of_fmap in Hx as (b'' & E & Hb''). simplify_eq. exact Hb''.
Qed.

(** The blocks [bs] installed from log blocks that hold [v]. *)
Lemma installed_home start bs (d v : Z -> block) b : NoDup bs ->
  (forall i b, bs !! i = Some b -> d (start + 1 + Z.of_nat i) = v b) ->
  apply_writes d (home_writes d (start + 1) bs) b = if decide (b ∈ bs) then v b else d b.
Proof.
  intros Hnd Hv.
  assert (E : home_writes d (start + 1) bs = (fun b => (b, v b)) <$> bs).
  { clear Hnd. revert Hv. generalize (start + 1). induction bs as [|b' bs' IH]; intros t Hv; simpl; [reflexivity|].
    rewrite <- (Hv 0%nat b' eq_refl). f_equal; [f_equal; f_equal; lia|]. apply IH.
    intros i x Hx. rewrite <- (Hv (S i) x Hx). f_equal. lia. }
  rewrite E. case_decide as Hin.
  - apply apply_writes_in.
    + rewrite <- list_fmap_compose. simpl. rewrite list_fmap_id. exact Hnd.
    + apply list_elem_of_fmap. exists b. auto.
  - apply apply_writes_other. intros H'. apply Hin. eapply home_keys; [reflexivity|exact H'].
Qed.

Section Crash.
Context (start : Z) (bs lblock : list Z) (d0 v : Z -> block).
Hypothesis Hnd : NoDup bs.
Hypothesis Hlen : Z.of_nat (length bs) <= LOGBLOCKS.
Hypothesis Hhome : forall b, b ∈ bs -> b < start \/ start + LOGBLOCKS < b.
Hypothesis Hint : forall b, b ∈ bs -> 0 <= b < 2 ^ 31.
Hypothesis Htk : take (length bs) lblock = bs.
Hypothesis Hclean : hdr_n (d0 start) = 0.

Definition crashed (k : nat) : Z -> block := apply_writes d0 (take k (commit_writes start bs lblock v)).

Definition outside (b : Z) : Prop := b < start \/ start + LOGBLOCKS < b.

Lemma log_keys_outside k b : outside b \/ b = start ->
  b ∉ (take k (seq_writes (start + 1) (v <$> bs))).*1.
Proof using Hlen.
  intros Hb. rewrite fmap_take. rewrite seq_writes_fst.
  intros Hin. apply elem_of_take in Hin as (i & Hi & _). apply list_elem_of_lookup_2, elem_of_seqZ in Hi.
  rewrite length_fmap in Hi. unfold outside in Hb. lia.
Qed.

(** Before the header is written nothing has happened. *)
Lemma crash_early k : (k <= length bs)%nat ->
  hdr_n (crashed k start) = 0 /\ forall b, outside b -> crashed k b = d0 b.
Proof using Hlen Hclean.
  intros Hk. unfold crashed, commit_writes. cbv zeta.
  assert (Hl : length (seq_writes (start + 1) (v <$> bs)) = length bs).
  { rewrite <- (length_fmap fst), seq_writes_fst, length_seqZ, length_fmap. lia. }
  rewrite take_app_le by lia. split.
  - rewrite apply_writes_other by (apply log_keys_outside; auto). exact Hclean.
  - intros b Hb. apply apply_writes_other, log_keys_outside. auto.
Qed.
Let h1 := hdr_put (v start) (Z.of_nat (length bs)) lblock.

Lemma log_writes_len : length (seq_writes (start + 1) (v <$> bs)) = length bs.
Proof using Type. rewrite <- (length_fmap fst), seq_writes_fst, length_seqZ, length_fmap. lia. Qed.

Lemma take_subseteq {A} n (l : list A) : take n l ⊆ l.
Proof using Type. intros x Hx. apply elem_of_take in Hx as (i & Hi & _). eapply list_elem_of_lookup_2, Hi. Qed.

(** Once the header is written the log holds the transaction. *)
Lemma crash_late k : (length bs < k < 2 * length bs + 2)%nat ->
  crashed k start = h1 /\
  (forall i b, bs !! i = Some b -> crashed k (start + 1 + Z.of_nat i) = v b) /\
  (forall b, outside b -> b ∉ bs -> crashed k b = d0 b).
Proof using Hnd Hlen Hhome.
  intros Hk. unfold crashed, commit_writes. cbv zeta. fold h1. pose proof log_writes_len as Hl.
  rewrite take_app_ge by lia. rewrite Hl. replace (k - length bs)%nat with (S (k - length bs - 1)) by lia.
  cbn [take app]. rewrite take_app_le by (rewrite length_fmap; lia).
  set (w1 := seq_writes _ _). set (w2 := take _ _).
  assert (Hw2 : forall b, b ∈ w2.*1 -> b ∈ bs) by (intros b; apply (home_keys v), take_subseteq).
  rewrite apply_writes_app. simpl. split; [|split].
  - rewrite apply_writes_other; [apply upd_eq|]. intros Hin. apply Hw2, Hhome in Hin. lia.
  - intros i b Hi. pose proof (lookup_lt_Some _ _ _ Hi).
    rewrite apply_writes_other by (intros Hin; apply Hw2, Hhome in Hin; lia).
    rewrite upd_ne by lia. apply apply_writes_in; [unfold w1; rewrite seq_writes_fst; apply NoDup_seqZ|].
    apply seq_writes_lookup. rewrite list_lookup_fmap, Hi. reflexivity.
  - intros b Hb Hn. rewrite apply_writes_other by (intros Hin; apply Hn, Hw2, Hin).
    rewrite upd_ne by (unfold outside in Hb; unfold LOGBLOCKS, MAXOPBLOCKS in *; lia).
    apply apply_writes_other. unfold w1. rewrite seq_writes_fst, elem_of_seqZ, length_fmap.
    unfold outside in Hb. lia.
Qed.

(** After the last write the log is clear and the blocks are at home. *)
Lemma crash_done k : (2 * length bs + 2 <= k)%nat ->
  hdr_n (crashed k start) = 0 /\
  forall b, outside b -> crashed k b = if decide (b ∈ bs) then v b else d0 b.
Proof using Hnd Hlen Hhome.
  intros Hk. unfold crashed. rewrite take_ge.
  2: { unfold commit_writes. cbv zeta. rewrite !length_app, log_writes_len, length_fmap. simpl. lia. }
  unfold commit_writes. cbv zeta. fold h1. rewrite !app_assoc, apply_writes_app. simpl. split.
  - rewrite upd_eq. apply hdr_n_put. lia.
  - intros b Hb. rewrite upd_ne by (unfold outside in Hb; unfold LOGBLOCKS, MAXOPBLOCKS in *; lia).
    rewrite apply_writes_app. case_decide as Hin.
    + apply apply_writes_in.
      * rewrite <- list_fmap_compose. simpl. rewrite list_fmap_id. exact Hnd.
      * apply list_elem_of_fmap. exists b. auto.
    + rewrite apply_writes_other by (intros H'; apply Hin; eapply home_keys; [reflexivity|exact H']).
      rewrite apply_writes_app. simpl.
      rewrite upd_ne by (unfold outside in Hb; unfold LOGBLOCKS, MAXOPBLOCKS in *; lia).
      apply apply_writes_other. rewrite seq_writes_fst, elem_of_seqZ, length_fmap.
      unfold outside in Hb. lia.
Qed.
(** What recovery finds in the header after a crash, and what installing it
    gives. *)
Lemma crash_recovers k :
  let d := crashed k in
  exists bs', hdr_block (d start) <$> seqZ 0 (hdr_n (d start)) = bs' /\ 0 <= hdr_n (d start) /\
    NoDup bs' /\ Z.of_nat (length bs') <= LOGBLOCKS /\ (forall b, b ∈ bs' -> outside b) /\
    forall b, outside b -> apply_writes d (home_writes d (start + 1) bs') b =
      if decide ((length bs < k)%nat /\ b ∈ bs) then v b else d0 b.
Proof using All.
  intros d.
  assert (Hempty : hdr_n (d start) = 0 ->
    (forall b, outside b -> d b = if decide ((length bs < k)%nat /\ b ∈ bs) then v b else d0 b) ->
    exists bs', hdr_block (d start) <$> seqZ 0 (hdr_n (d start)) = bs' /\ 0 <= hdr_n (d start) /\
      NoDup bs' /\ Z.of_nat (length bs') <= LOGBLOCKS /\ (forall b, b ∈ bs' -> outside b) /\
      forall b, outside b -> apply_writes d (home_writes d (start + 1) bs') b =
        if decide ((length bs < k)%nat /\ b ∈ bs) then v b else d0 b).
  { intros E HP. exists []. rewrite E. split; [reflexivity|]. split; [lia|]. split; [constructor|].
    split; [simpl; unfold LOGBLOCKS, MAXOPBLOCKS; lia|]. split; [|exact HP].
    intros b Hx. apply elem_of_nil in Hx. contradiction. }
  destruct (decide (k <= length bs)%nat) as [Hk|Hk].
  { destruct (crash_early k Hk) as [H0 Hb]. apply Hempty; [exact H0|]. intros b Ho. unfold d.
    rewrite Hb by exact Ho. rewrite decide_False by lia. reflexivity. }
  destruct (decide (k < 2 * length bs + 2)%nat) as [Hk2|Hk2].
  - destruct (crash_late k ltac:(lia)) as (H0 & Hl & Hb). fold d in H0, Hl, Hb. exists bs. rewrite H0.
    split; [apply hdr_read_put; auto; unfold LOGBLOCKS, MAXOPBLOCKS in *; lia|].
    split; [unfold h1; rewrite hdr_n_put by (unfold LOGBLOCKS, MAXOPBLOCKS in *; lia); lia|].
    split; [exact Hnd|]. split; [exact Hlen|]. split; [exact Hhome|]. intros b Ho.
    rewrite (installed_home start bs d v b Hnd Hl).
    destruct (decide (b ∈ bs)); [rewrite decide_True by (split; [lia|assumption])|rewrite decide_False by tauto];
      auto.
  - destruct (crash_done k ltac:(lia)) as [H0 Hb]. apply Hempty; [exact H0|]. intros b Ho. unfold d.
    rewrite Hb by exact Ho.
    destruct (decide (b ∈ bs)); [rewrite decide_True by (split; [lia|assumption])|rewrite decide_False by tauto];
      reflexivity.
Qed.
End Crash.

(** Starting the log on a rebooted machine installs the blocks of its header. *)
Lemma initlog_booted {S : Type} `{BlockCache S} (dev : Z) `{!BlockCacheLaws S dev} start d bs s :
  bc_inv (l_cache s) -> booted d (bc_abs (l_cache s)) -> NoDup bs ->
  Z.of_nat (length bs) <= LOGBLOCKS -> (forall b, b ∈ bs -> outside start b) ->
  hdr_block (d start) <$> seqZ 0 (hdr_n (d start)) = bs -> 0 <= hdr_n (d start) ->
  exists s', initlog dev start s = Ret tt s' /\ bc_inv (l_cache s') /\ l_n s' = 0 /\
    hdr_n (a_disk (bc_abs (l_cache s')) start) = 0 /\
    forall b, outside start b ->
      a_disk (bc_abs (l_cache s')) b = apply_writes d (home_writes d (start + 1) bs) b /\
      a_view (bc_abs (l_cache s')) b = a_disk (bc_abs (l_cache s')) b.
Proof.
  intros Hi [B1 B2 B3 B4 B5] Hnd Hlen Hhome Hbs Hn. unfold initlog, BSIZE, LOGBLOCKS, MAXOPBLOCKS.
  change (1024 <=? 4 + 4 * (10 * 3)) with false. cbv iota. rewrite bind_modify.
  set (s1 := Logst _ _ _ _ _ _ _ _).
  destruct (recover_spec dev s1 bs) as (s' & h & E & I & N & Hh & A); auto.
  { simpl. split; auto; intros.
    - rewrite B3. closed.
    - rewrite B5. unfold NBUF, MAXOPBLOCKS. lia.
    - rewrite B1, B2. reflexivity. }
  { simpl. rewrite B5. unfold NBUF, MAXOPBLOCKS. lia. }
  { simpl. rewrite B2. exact Hbs. }
  { simpl. rewrite B2. exact Hn. }
  exists s'. split; [exact E|]. split; [exact I|]. split; [exact N|]. simpl in A.
  rewrite (home_writes_ext _ d) in A by (intros; apply B2). split.
  - rewrite (eqv_disk _ _ start A). simpl. rewrite apply_writes_app. simpl. rewrite upd_eq. exact Hh.
  - intros b Hb. rewrite (eqv_disk _ _ b A), (eqv_view _ _ b A). simpl. rewrite !apply_writes_app. simpl.
    rewrite !upd_ne by (unfold outside in Hb; unfold LOGBLOCKS, MAXOPBLOCKS in *; lia).
    split; apply apply_writes_ext; [apply B1|rewrite B1, B2; reflexivity].
Qed.

(** C7. Transactions are atomic across crashes.  A commit of the blocks [bs]
    writes the sequence [commit_writes]; whatever number [k] of these writes has
    reached the disk when the machine stops, starting the log on the
    rebooted machine clears the log and leaves every block outside the log area
    with its new contents if the header had been written, and with its old
    contents if not. *)
Theorem log_crash_atomic {S : Type} `{BlockCache S} (dev : Z) `{!BlockCacheLaws S dev} bs s s2 k :
  let a := bc_abs (l_cache s) in
  let ws := commit_writes (l_start s) bs (l_block s) (a_view a) in
  l_dev s = dev -> l_n s = Z.of_nat (length bs) -> take (length bs) (l_block s) = bs -> bs <> [] ->
  (forall b, b ∈ bs -> 0 <= b < 2 ^ 31) ->
  bc_inv (l_cache s) -> ready (l_start s) bs a -> pinned bs a -> hdr_n (a_disk a (l_start s)) = 0 ->
  bc_inv (l_cache s2) -> booted (apply_writes (a_disk a) (take k ws)) (bc_abs (l_cache s2)) ->
  (exists s1, commit s = Ret tt s1 /\ a_writes (bc_abs (l_cache s1)) = a_writes a ++ ws) /\
  exists s3, initlog dev (l_start s) s2 = Ret tt s3 /\
    hdr_n (a_disk (bc_abs (l_cache s3)) (l_start s)) = 0 /\
    forall b, outside (l_start s) b ->
      a_disk (bc_abs (l_cache s3)) b =
      if decide ((length bs < k)%nat /\ b ∈ bs) then a_view a b else a_disk a b.
Proof.
  intros a ws Hd Hn Htk Hne Hint Hi Hr Hp Hcl Hi2 Hbt. split.
  { destruct (commit_spec dev bs s Hd Hn Htk Hne Hi Hr Hp) as (c' & E & I & A).
    eexists. split; [exact E|]. simpl. rewrite (eqv_writes _ _ A), a_unpins_writes. reflexivity. }
  pose proof (rd_nodup _ _ _ Hr) as Hnd. pose proof (rd_len _ _ _ Hr) as Hlen.
  pose proof (rd_home _ _ _ Hr) as Hhome. set (st := l_start s) in *.
  change (apply_writes (a_disk a) (take k ws)) with (crashed st bs (l_block s) (a_disk a) (a_view a) k) in Hbt.
  set (d := crashed _ _ _ _ _ _) in *.
  destruct (crash_recovers st bs (l_block s) (a_disk a) (a_view a) Hnd Hlen Hhome Hint Htk Hcl k)
    as (bs' & E1 & E2 & E3 & E4 & E5 & E6).
  destruct (initlog_booted dev st d bs' s2 Hi2 Hbt E3 E4 E5 E1 E2) as (s3 & Es & _ & _ & Hh & Hf).
  exists s3. split; [exact Es|]. split; [exact Hh|]. intros b Ho.
  destruct (Hf b Ho) as [-> _]. apply E6, Ho.
Qed.

Import Ideal.

(** Blocks 100 and 101 have been changed and logged; the log starts at 2. *)
Definition ex_view (b : Z) : block := if b =? 100 then (fun _ => 7) else if b =? 101 then (fun _ => 8) else fun _ => 0.
Definition ex_ref (b : Z) : Z := if (b =? 100) || (b =? 101) then 1 else 0.
Definition ex_log : logst bst :=
  Logst (Bst (fun _ _ => 0) ex_view ex_ref (fun _ => false) 2 []) 2 0 false 1 2
        (100 :: 101 :: replicate 28 0) false.
Definition ex_crash (k : nat) : logst bst :=
  let d := apply_writes (fun _ _ => 0) (take k (commit_writes 2 [100; 101] (l_block ex_log) ex_view)) in
  Logst (Bst d d (fun _ => 0) (fun _ => false) 0 []) 0 0 false 0 0 (replicate 30 0) false.

Lemma ex_log_ready : ready 2 [100; 101] (l_cache ex_log).
Proof.
  split; simpl; auto.
  - apply (bool_decide_unpack _). vm_compute. exact I.
  - unfold LOGBLOCKS, MAXOPBLOCKS. lia.
  - intros b Hb. unfold LOGBLOCKS, MAXOPBLOCKS. repeat (apply elem_of_cons in Hb as [->|Hb]; [lia|]).
    apply elem_of_nil in Hb. contradiction.
  - intros b. unfold ex_ref, REFMAX. case_test; lia.
  - unfold NBUF, MAXOPBLOCKS. lia.
  - intros t Ht. unfold LOGBLOCKS, MAXOPBLOCKS in Ht. unfold ex_view.
    replace (t =? 100) with false by lia. replace (t =? 101) with false by lia. reflexivity.
Qed.

Lemma log_crash_atomic_witness :
  (exists s1, commit ex_log = Ret tt s1 /\
     a_writes (l_cache s1) = [] ++ commit_writes 2 [100; 101] (l_block ex_log) ex_view) /\
  exists s3, initlog 1 2 (ex_crash 4) = Ret tt s3 /\
    hdr_n (a_disk (l_cache s3) 2) = 0 /\
    forall b, outside 2 b ->
      a_disk (l_cache s3) b =
      if decide ((2 < 4)%nat /\ b ∈ [100; 101]) then ex_view b else fun _ => 0.
Proof.
  refine (log_crash_atomic 1 [100; 101] ex_log (ex_crash 4) 4 eq_refl eq_refl eq_refl _ _ I ex_log_ready _
    eq_refl I _).
  - discriminate.
  - intros b Hb. repeat (apply elem_of_cons in Hb as [->|Hb]; [lia|]). apply elem_of_nil in Hb. contradiction.
  - intros b Hb. repeat (apply elem_of_cons in Hb as [->|Hb]; [vm_compute; reflexivity|]).
    apply elem_of_nil in Hb. contradiction.
  - split; reflexivity.
Defined.
