(* ===== verification/LogReserve.v ===== *)
(** * Space in the log

    The reservation discipline of [begin_op], [log_write] and [end_op] of
    [kernel/log.c]: interleaved operations as a transition system, and the
    invariant that keeps the log from overflowing. *)

From S2P Require Import Prelude Block Log.

(** ** Reservation

    Which runs of [begin_op], [log_write] and [end_op] fit into the log, for any
    cache.  [us] lists, for every operation in progress, how many blocks it has
    logged. *)
Section Reservation.
Context {S : Type} `{BlockCache S}.

Definition others_same (s s' : logst S) : Prop :=
  l_outstanding s' = l_outstanding s /\ l_committing s' = l_committing s /\ l_locked s' = l_locked s.

Lemma write_log_loop_same k : forall tail (s s' : logst S),
  write_log_loop k tail s = Ret tt s' -> others_same s s' /\ l_n s' = l_n s.
Proof.
  induction k as [|k IH]; intros tail s s' E; cbn [write_log_loop] in E.
  - unfold ret in E. simplify_eq. repeat split.
  - unfold nth_block in E. rewrite !bind_gets in E. inv_bind E. apply zoom_inv in E0 as (c & _ & ->).
    apply IH in E as [(? & ? & ?) ?]. repeat split; assumption.
Qed.

Lemma install_loop_same k r : forall tail (s s' : logst S),
  install_loop k tail r s = Ret tt s' -> others_same s s' /\ l_n s' = l_n s.
Proof.
  induction k as [|k IH]; intros tail s s' E; cbn [install_loop] in E.
  - unfold ret in E. simplify_eq. repeat split.
  - unfold nth_block in E. rewrite !bind_gets in E. inv_bind E. apply zoom_inv in E0 as (c & _ & ->).
    apply IH in E as [(? & ? & ?) ?]. repeat split; assumption.
Qed.

Lemma write_head_same (s s' : logst S) : write_head s = Ret tt s' -> others_same s s' /\ l_n s' = l_n s.
Proof.
  unfold write_head. rewrite !bind_gets. intros E. apply zoom_inv in E as (c & _ & ->). repeat split.
Qed.

Lemma commit_same (s s' : logst S) : commit s = Ret tt s' -> others_same s s' /\ l_n s' <= 0.
Proof.
  unfold commit. rewrite bind_gets. destruct (Z.ltb_spec 0 (l_n s)); cbn [when]; intros E.
  2: { unfold ret in E. simplify_eq. repeat split; assumption. }
  inv_bind E. unfold write_log in E0. rewrite bind_gets in E0. destruct a.
  apply write_log_loop_same in E0 as [(A1 & A2 & A3) A4].
  inv_bind E. destruct a. apply write_head_same in E0 as [(B1 & B2 & B3) B4].
  inv_bind E. destruct a. unfold install_trans in E0. rewrite bind_gets in E0.
  apply install_loop_same in E0 as [(C1 & C2 & C3) C4].
  rewrite bind_modify in E. apply write_head_same in E as [(D1 & D2 & D3) D4]. simpl in *.
  split; [split; [|split]|].
  - rewrite D1, C1, B1. exact A1.
  - rewrite D2, C2, B2. exact A2.
  - rewrite D3, C3, B3. exact A3.
  - rewrite D4. reflexivity.
Qed.

Inductive log_step : logst S * list Z -> logst S * list Z -> Prop :=
| step_begin s us s' : begin_op 1 s = Ret tt s' -> log_step (s, us) (s', 0 :: us)
| step_write s us i u h s' : us !! i = Some u -> u < MAXOPBLOCKS -> log_write h s = Ret tt s' ->
    log_step (s, us) (s', <[i := u + 1]> us)
| step_end s us i s' : (i < length us)%nat -> end_op s = Ret tt s' -> log_step (s, us) (s', delete i us).

(** The blocks the operations in progress may still log. *)
Definition budget (us : list Z) : Z := foldr (fun u z => MAXOPBLOCKS - u + z) 0 us.

Record reserved (p : logst S * list Z) : Prop := {
  rs_unlocked : l_locked p.1 = false;
  rs_committing : l_committing p.1 = false;
  rs_outstanding : l_outstanding p.1 = Z.of_nat (length p.2);
  rs_used : Forall (fun u => 0 <= u <= MAXOPBLOCKS) p.2;
  rs_fits : l_n p.1 + budget p.2 <= LOGBLOCKS
}.

Lemma budget_insert us : forall i u v, us !! i = Some u ->
  budget (<[i := v]> us) = budget us + u - v.
Proof.
  induction us as [|u' us IH]; intros [|i] u v Hi; simpl in *; simplify_eq; [lia|].
  rewrite (IH i u v Hi). lia.
Qed.

Lemma budget_delete us : forall i u, us !! i = Some u ->
  budget (delete i us) = budget us - (MAXOPBLOCKS - u).
Proof.
  induction us as [|u' us IH]; intros [|i] u Hi; simpl in Hi; simplify_eq.
  - simpl. lia.
  - change (delete (Datatypes.S i) (u' :: us)) with (u' :: delete i us).
    unfold budget in *. simpl. rewrite (IH i u Hi). lia.
Qed.

Lemma budget_bound us : Forall (fun u => 0 <= u <= MAXOPBLOCKS) us ->
  0 <= budget us <= MAXOPBLOCKS * Z.of_nat (length us).
Proof. induction 1 as [|u us Hu _ IH]; simpl length; unfold budget in *; simpl; lia. Qed.

Lemma begin_op_ret (s s' : logst S) :
  begin_op 1 s = Ret tt s' -> l_locked s = false ->
  l_committing s = false /\ l_n s + (l_outstanding s + 1) * MAXOPBLOCKS <= LOGBLOCKS /\
  l_n s' = l_n s /\ l_outstanding s' = l_outstanding s + 1 /\ l_committing s' = false /\ l_locked s' = false.
Proof.
  intros E Hu. unfold begin_op in E. inv_bind E. unfold acquire in E0. simpl in E0. rewrite Hu in E0.
  simplify_eq. cbn [begin_op_loop] in E. rewrite bind_gets in E. simpl in E.
  destruct (l_committing s) eqn:Ec; [inv_bind E; unfold sleep in E0; discriminate|].
  destruct (Z.ltb_spec LOGBLOCKS (l_n s + (l_outstanding s + 1) * MAXOPBLOCKS));
    [inv_bind E; unfold sleep in E0; discriminate|].
  rewrite bind_modify in E. unfold release in E. simpl in E. simplify_eq. repeat split; auto.
Qed.

Lemma log_write_ret h (s s' : logst S) :
  log_write h s = Ret tt s' -> l_locked s = false ->
  l_n s <= l_n s' <= l_n s + 1 /\ l_outstanding s' = l_outstanding s /\
  l_committing s' = l_committing s /\ l_locked s' = false.
Proof.
  intros E Hu. unfold log_write in E. inv_bind E. unfold acquire in E0. simpl in E0. rewrite Hu in E0.
  simplify_eq. rewrite bind_gets in E. simpl in E.
  destruct (LOGBLOCKS <=? l_n s); [discriminate|]. destruct (l_outstanding s <? 1); [discriminate|].
  rewrite bind_gets, bind_modify in E. simpl in E. inv_bind E. unfold release in E. 
  destruct (Z.of_nat _ =? l_n s); cbn [when] in E0.
  - inv_bind E0. apply zoom_inv in E1 as (c & _ & ->). unfold modify in E0. simpl in E0. simplify_eq.
    simpl in E. simplify_eq. simpl. repeat split; lia.
  - unfold ret in E0. simplify_eq. simpl in E. simplify_eq. simpl. repeat split; lia.
Qed.

Lemma end_op_ret (s s' : logst S) :
  end_op s = Ret tt s' -> l_locked s = false ->
  l_outstanding s' = l_outstanding s - 1 /\ l_committing s' = false /\ l_locked s' = false /\
  (l_outstanding s' = 0 -> l_n s' <= 0) /\ (l_outstanding s' <> 0 -> l_n s' = l_n s).
Proof.
  intros E Hu. unfold end_op in E. inv_bind E. unfold acquire in E0. simpl in E0. rewrite Hu in E0.
  simplify_eq. rewrite bind_modify, bind_gets in E. simpl in E.
  destruct (l_committing s) eqn:Ec; [discriminate|].
  destruct (Z.eqb_spec (l_outstanding s - 1) 0) as [Eo|Eo]; cbn [when] in E.
  - rewrite bind_modify in E. inv_bind E. unfold release in E0. simpl in E0. simplify_eq.
    inv_bind E. destruct a. apply commit_same in E0 as [(A1 & A2 & A3) A4]. simpl in *.
    unfold bind, acquire, modify, release in E. simpl in E. rewrite A3 in E. simpl in E. simplify_eq. simpl.
    repeat split; auto; lia.
  - unfold bind, release, ret in E. simpl in E. simplify_eq. simpl.
    repeat split; auto; intros; lia.
Qed.

Lemma log_step_reserved p p' : log_step p p' -> reserved p -> reserved p'.
Proof.
  intros Hs [R1 R2 R3 R4 R5]. pose proof (budget_bound _ R4).
  destruct Hs as [s us s' E|s us i u h s' Hi Hu E|s us i s' Hi E]; simpl in *.
  - apply begin_op_ret in E as (E1 & E2 & E3 & E4 & E5 & E6); [|exact R1].
    split; simpl; auto; [lia|constructor; [unfold MAXOPBLOCKS; lia|exact R4]|]. unfold budget in *. simpl. lia.
  - apply log_write_ret in E as (E1 & E2 & E3 & E4); [|exact R1].
    assert (Hu0 : 0 <= u) by (rewrite Forall_forall in R4; apply list_elem_of_lookup_2, R4 in Hi; lia).
    split; simpl.
    + exact E4.
    + congruence.
    + rewrite length_insert. lia.
    + apply Forall_insert; [exact R4|lia].
    + rewrite (budget_insert us i u) by exact Hi. lia.
  - apply end_op_ret in E as (E1 & E2 & E3 & E4 & E5); [|exact R1].
    destruct (lookup_lt_is_Some_2 us i Hi) as [u Hu].
    assert (Hu0 : 0 <= u <= MAXOPBLOCKS) by (rewrite Forall_forall in R4; apply list_elem_of_lookup_2, R4 in Hu; lia).
    pose proof (length_delete us i ltac:(eauto)) as Hl.
    split; simpl; [exact E3|exact E2|lia|apply Forall_delete, R4|].
    destruct (decide (l_outstanding s' = 0)) as [E0|E0].
    + specialize (E4 E0). destruct us as [|u0 [|u1 us]]; simpl in *; [lia| |lia].
      destruct i; [|simpl in *; lia]. simpl. unfold LOGBLOCKS, MAXOPBLOCKS. lia.
    + rewrite (E5 E0), (budget_delete us i u Hu). lia.
Qed.

Lemma budget_lookup us : forall i u, Forall (fun u => 0 <= u <= MAXOPBLOCKS) us -> us !! i = Some u ->
  MAXOPBLOCKS - u <= budget us.
Proof.
  intros i u Hf Hi. pose proof (budget_delete us i u Hi) as Hd.
  pose proof (budget_bound _ (Forall_delete _ us i Hf)). lia.
Qed.
End Reservation.

(** C27. The log cannot overflow.  From an idle log, however begin_op, log_write
    and end_op of any number of operations interleave, as long as each
    operation logs at most MAXOPBLOCKS blocks, log_write succeeds for every
    operation with budget left (given that the cache can pin the buffer):
    neither "too big a transaction" nor "log_write outside of trans" occurs. *)
Theorem log_never_overflows {S : Type} `{BlockCache S} (s0 : logst S) (p : logst S * list Z) i u h c :
  l_locked s0 = false -> l_committing s0 = false -> l_outstanding s0 = 0 -> l_n s0 <= LOGBLOCKS ->
  rtc log_step (s0, []) p -> p.2 !! i = Some u -> u < MAXOPBLOCKS ->
  bpin h (l_cache p.1) = Ret tt c ->
  exists s', log_write h p.1 = Ret tt s'.
Proof.
  intros H1 H2 H3 H4 Hrtc Hi Hu Hpin.
  assert (Hr : reserved p).
  { assert (H0 : reserved (s0, [])) by (split; simpl; auto; unfold budget; simpl; lia).
    clear Hi Hu H1 H2 H3 H4. induction Hrtc as [|x y z Hs _ IH]; [exact H0|].
    apply IH; [exact Hpin|eapply log_step_reserved; eassumption]. }
  destruct Hr as [R1 R2 R3 R4 R5]. destruct p as [s us]. simpl in *.
  pose proof (lookup_lt_Some _ _ _ Hi) as Hlen. pose proof (budget_lookup us i u R4 Hi) as Hb.
  unfold log_write. erewrite bind_ret_l by (unfold acquire; simpl; rewrite R1; reflexivity).
  rewrite bind_gets. simpl. replace (LOGBLOCKS <=? l_n s) with false by lia.
  replace (l_outstanding s <? 1) with false by lia. rewrite bind_gets, bind_modify. simpl.
  destruct (Z.of_nat _ =? l_n s); cbn [when].
  - unfold bind, zoom, modify, release. simpl. rewrite Hpin. simpl. eauto.
  - unfold bind, ret, release. simpl. eauto.
Qed.

Import Ideal.

(** One operation has begun and logged block 7. *)
Definition ex_idle : logst bst :=
  Logst (Bst (fun _ _ => 0) (fun _ _ => 0) (fun _ => 1) (fun _ => false) 3 []) 2 0 false 1 0 (replicate 30 0) false.
Definition ex_begun : logst bst := set_outstanding 1 ex_idle.
Definition ex_logged : logst bst :=
  Logst (a_pin 7 (l_cache ex_idle)) 2 1 false 1 1 (<[0%nat := 7]> (replicate 30 0)) false.

Lemma log_never_overflows_witness :
  exists s', log_write 8 ex_logged = Ret tt s'.
Proof.
  apply (log_never_overflows ex_idle (ex_logged, [1]) 0 1 8 (a_pin 8 (l_cache ex_logged)));
    [reflexivity|reflexivity|reflexivity|closed| |reflexivity|closed|reflexivity].
  eapply rtc_l; [|eapply rtc_l; [|apply rtc_refl]].
  - apply (step_begin ex_idle [] ex_begun). reflexivity.
  - apply (step_write ex_begun [0] 0 0 7 ex_logged); reflexivity.
Defined.
