(* ===== verification/Txn.v ===== *)
(** * Blocks inside a transaction

    The file system reads blocks through the cache, changes them in place, hands
    each changed block to [log_write] and releases it.  [Txn] is the class of
    these operations; [TxnLaws] says what they do to the contents of the blocks
    as everybody sees them, for a caller that releases no block it has changed
    without logging it, holds few blocks at a time and stays within the room
    the log has left.  The log over a block cache is an instance. *)

From S2P Require Import Prelude Block Log.

Class Txn (S : Type) : Type := {
  t_bread : Z -> Z -> M S Z;
  t_log_write : Z -> M S unit;
  t_brelse : Z -> M S unit;
  t_data : S -> Z -> block;
  t_put : Z -> block -> M S unit
}.

(** The buffers held are pairs of a buffer and its block. *)
Record tst : Type := Tst {
  t_view : Z -> block;
  t_held : list (Z * Z);
  t_dirty : list Z;      (* blocks changed and not yet logged *)
  t_logged : list Z;     (* blocks logged since the operation began *)
  t_room : Z             (* further blocks that may be logged *)
}.

(** Logging a block again costs nothing: it is absorbed. *)
Definition t_cost (t : tst) (b : Z) : Z := if decide (b ∈ t_logged t) then 0 else 1.

Definition HELDMAX : Z := 4.

Class TxnLaws (S : Type) `{Txn S} (dev : Z) : Type := {
  t_home : Z -> Prop;     (* blocks outside the log *)
  t_rep : S -> tst -> Prop;
  t_rep_view : forall s t v, t_rep s t -> (forall b, v b = t_view t b) ->
    t_rep s (Tst v (t_held t) (t_dirty t) (t_logged t) (t_room t));
  t_rep_room : forall s t r, t_rep s t -> r <= t_room t -> t_rep s (Tst (t_view t) (t_held t) (t_dirty t) (t_logged t) r);
  t_rep_data : forall s t h b, t_rep s t -> (h, b) ∈ t_held t -> t_data s h = t_view t b;
  t_read : forall s t b, t_rep s t -> b ∉ (t_held t).*2 -> Z.of_nat (length (t_held t)) < HELDMAX ->
    exists h s', t_bread dev b s = Ret h s' /\
      t_rep s' (Tst (t_view t) ((h, b) :: t_held t) (t_dirty t) (t_logged t) (t_room t));
  t_set : forall s t h b d, t_rep s t -> (h, b) ∈ t_held t ->
    exists s', t_put h d s = Ret tt s' /\
      t_rep s' (Tst (upd (t_view t) b d) (t_held t) (b :: t_dirty t) (t_logged t) (t_room t));
  t_log : forall s t h b, t_rep s t -> (h, b) ∈ t_held t -> t_home b -> t_cost t b <= t_room t ->
    exists s', t_log_write h s = Ret tt s' /\
      t_rep s' (Tst (t_view t) (t_held t) (filter (fun x => x <> b) (t_dirty t)) (b :: t_logged t) (t_room t - t_cost t b));
  t_rel : forall s t h b, t_rep s t -> (h, b) ∈ t_held t -> b ∉ t_dirty t ->
    exists s', t_brelse h s = Ret tt s' /\
      t_rep s' (Tst (t_view t) (filter (fun p => p <> (h, b)) (t_held t)) (t_dirty t) (t_logged t) (t_room t))
}.

(** ** The log is an instance *)

#[global] Instance log_txn {S} `{BlockCache S} : Txn (logst S) := {
  t_bread dev b := zoom cache_of (bread dev b);
  t_log_write := log_write;
  t_brelse h := zoom cache_of (brelse h);
  t_data s h := bdata (l_cache s) h;
  t_put h d := zoom cache_of (bset h d)
}.

Section LogTxn.
Context {S : Type} `{BlockCache S} (dev : Z) `{!BlockCacheLaws S dev}.
(** Where the log is, and how many operations are in progress. *)
Context (start ops : Z).

Definition log_home (b : Z) : Prop := b < start \/ start + LOGBLOCKS < b.

Definition logged (s : logst S) : list Z := take (Z.to_nat (l_n s)) (l_block s).
Definition held_of (t : tst) : list Z := (t_held t).*2.

(** How many of the blocks [bs] are not in the log. *)
Definition unlogged (s : logst S) (bs : list Z) : Z :=
  Z.of_nat (length (filter (fun b => b ∉ logged s) bs)).

Record log_rep (s : logst S) (t : tst) : Prop := {
  lr_inv : bc_inv (l_cache s);
  lr_locked : l_locked s = false;
  lr_dev : l_dev s = dev;
  lr_start : l_start s = start;
  lr_ops : l_outstanding s = ops;
  lr_committing : l_committing s = false;
  lr_idle : ops <= 0 -> t_room t <= 0 /\ t_logged t = [] /\ l_n s = 0;
  lr_home : forall b, b ∈ logged s -> log_home b;
  lr_len : Z.of_nat (length (l_block s)) = LOGBLOCKS;
  lr_n : 0 <= l_n s <= LOGBLOCKS - HELDMAX;
  lr_nodup : NoDup (logged s);
  lr_room : l_n s + t_room t <= LOGBLOCKS - HELDMAX;
  lr_view : forall b, a_view (bc_abs (l_cache s)) b = t_view t b;
  lr_distinct : NoDup (held_of t);
  lr_handle : forall h b, (h, b) ∈ t_held t -> bc_handle (l_cache s) h b;
  lr_nheld : Z.of_nat (length (t_held t)) <= HELDMAX;
  lr_held : forall b, a_held (bc_abs (l_cache s)) b = bool_decide (b ∈ held_of t);
  lr_ref : forall b, a_ref (bc_abs (l_cache s)) b =
    (if decide (b ∈ held_of t) then 1 else 0) + (if decide (b ∈ logged s) then 1 else 0);
  lr_busy : a_busy (bc_abs (l_cache s)) <= l_n s + unlogged s (held_of t);
  lr_clean : forall b, b ∉ logged s -> b ∉ t_dirty t ->
    a_view (bc_abs (l_cache s)) b = a_disk (bc_abs (l_cache s)) b;
  lr_logged : forall b, b ∈ t_logged t -> b ∈ logged s
}.

Lemma held_in t h b : (h, b) ∈ t_held t -> b ∈ held_of t.
Proof. intros Hi. apply list_elem_of_fmap. exists (h, b). auto. Qed.

Lemma unlogged_cons s b bs : unlogged s (b :: bs) = unlogged s bs + (if decide (b ∈ logged s) then 0 else 1).
Proof.
  unfold unlogged. rewrite filter_cons. destruct (decide (b ∈ logged s)); [rewrite decide_False by tauto; lia|].
  rewrite decide_True by assumption. simpl. lia.
Qed.

Lemma unlogged_le s bs : 0 <= unlogged s bs <= Z.of_nat (length bs).
Proof. unfold unlogged. pose proof (length_filter (fun b => b ∉ logged s) bs). lia. Qed.

Lemma log_read s t b : log_rep s t -> b ∉ held_of t -> Z.of_nat (length (t_held t)) < HELDMAX ->
  exists h s', t_bread dev b s = Ret h s' /\
    log_rep s' (Tst (t_view t) ((h, b) :: t_held t) (t_dirty t) (t_logged t) (t_room t)).
Proof using.
  intros R Hb Hn. destruct R as [R1 R2 D1 D2 D3 D4 D5 D6 R4 R5 R6 R7 R8 R9 R10 R11 R12 R13 R14 R15 R16].
  assert (Hr : a_ref (bc_abs (l_cache s)) b = if decide (b ∈ logged s) then 1 else 0).
  { rewrite R13, decide_False by exact Hb. reflexivity. }
  destruct (bc_read (l_cache s) b) as (h & c & E & I & Hh & A & P); auto.
  { rewrite R12. apply bool_decide_false. exact Hb. }
  { right. pose proof (unlogged_le s (held_of t)) as Hu.
    assert (Hlen : length (held_of t) = length (t_held t)) by apply length_fmap.
    unfold LOGBLOCKS, NBUF, HELDMAX, MAXOPBLOCKS in *. lia. }
  { rewrite Hr. unfold REFMAX. case_decide; lia. }
  assert (El : logged (set cache_of c s) = logged s) by reflexivity.
  assert (Eu : forall l, unlogged (set cache_of c s) l = unlogged s l) by reflexivity.
  exists h, (set cache_of c s). split; [apply zoom_ret; exact E|].
  split; simpl in *; rewrite ?El, ?Eu; auto.
  - intros b'. rewrite (eqv_view _ _ b' A). apply R8.
  - apply NoDup_cons. auto.
  - intros h' b' Hin. apply elem_of_cons in Hin as [Hin|Hin]; [injection Hin as -> ->; exact Hh|].
    apply P; [auto|]. rewrite R13, decide_True by (eapply held_in; eauto). destruct (decide (b' ∈ logged s)); lia.
  - lia.
  - intros b'. rewrite (eqv_held _ _ b' A). simpl. unfold upd. destruct (Z.eqb_spec b' b) as [->|Hne].
    + symmetry. apply bool_decide_true. left.
    + rewrite R12. apply bool_decide_ext. unfold held_of. simpl. rewrite elem_of_cons. tauto.
  - intros b'. rewrite (eqv_ref _ _ b' A). simpl. unfold upd, held_of. simpl. destruct (Z.eqb_spec b' b) as [->|Hne].
    + rewrite Hr, (decide_True (P := b ∈ b :: _)) by left. rewrite ?El. lia.
    + rewrite R13. f_equal. apply decide_ext. unfold held_of. simpl. rewrite elem_of_cons. tauto.
  - rewrite (eqv_busy _ _ A). simpl. rewrite Hr.
    change (held_of _) with (b :: held_of t). rewrite unlogged_cons. destruct (decide (b ∈ logged s)); simpl; lia.
  - intros b' H1 H2. rewrite (eqv_view _ _ b' A), (eqv_disk _ _ b' A). apply R15; assumption.
Qed.

Lemma log_set s t h b d : log_rep s t -> (h, b) ∈ t_held t ->
  exists s', t_put h d s = Ret tt s' /\
    log_rep s' (Tst (upd (t_view t) b d) (t_held t) (b :: t_dirty t) (t_logged t) (t_room t)).
Proof using.
  intros R Hin. destruct R as [R1 R2 D1 D2 D3 D4 D5 D6 R4 R5 R6 R7 R8 R9 R10 R11 R12 R13 R14 R15 R16].
  pose proof (held_in _ _ _ Hin) as Hb.
  destruct (bc_set (l_cache s) h b d) as (c & E & I & A & P); auto.
  { rewrite R12. apply bool_decide_true. exact Hb. }
  { rewrite R13, decide_True by exact Hb. destruct (decide (b ∈ logged s)); lia. }
  assert (El : logged (set cache_of c s) = logged s) by reflexivity.
  assert (Eu : forall l, unlogged (set cache_of c s) l = unlogged s l) by reflexivity.
  exists (set cache_of c s). split; [apply zoom_ret; exact E|].
  split; simpl in *; rewrite ?El, ?Eu; auto.
  - intros b'. rewrite (eqv_view _ _ b' A). simpl. unfold upd. case_test; auto.
  - intros b'. rewrite (eqv_held _ _ b' A). apply R12.
  - intros b'. rewrite (eqv_ref _ _ b' A). apply R13.
  - rewrite (eqv_busy _ _ A). exact R14.
  - intros b' H1 H2. apply not_elem_of_cons in H2 as [H2 H3]. rewrite (eqv_view _ _ b' A), (eqv_disk _ _ b' A).
    simpl. rewrite upd_ne by exact H2. apply R15; assumption.
Qed.

Lemma held_split (h b : Z) (l : list (Z * Z)) : NoDup l.*2 -> (h, b) ∈ l ->
  l ≡ₚ (h, b) :: filter (fun p => p <> (h, b)) l.
Proof.
  induction l as [|[h1 b1] l IH]; intros Hnd Hin; [apply elem_of_nil in Hin; contradiction|].
  simpl in Hnd. apply NoDup_cons in Hnd as [Hn Hnd]. rewrite filter_cons.
  apply elem_of_cons in Hin as [Hin|Hin].
  - injection Hin as -> ->. rewrite decide_False by tauto. apply Permutation_skip.
    clear -Hn. induction l as [|[h2 b2] l IH]; [reflexivity|]. simpl in Hn. apply not_elem_of_cons in Hn as [H1 H2].
    rewrite filter_cons, decide_True by congruence. apply Permutation_skip, IH, H2.
  - rewrite decide_True.
    + rewrite (IH Hnd Hin) at 1. apply Permutation_swap.
    + intros E. simplify_eq. apply Hn. apply list_elem_of_fmap. exists (h, b). auto.
Qed.

#[local] Instance unlogged_proper s : Proper ((≡ₚ) ==> (=)) (unlogged s).
Proof. intros l l' Hl. unfold unlogged. rewrite Hl. reflexivity. Qed.

Lemma log_rel s t h b : log_rep s t -> (h, b) ∈ t_held t -> b ∉ t_dirty t ->
  exists s', t_brelse h s = Ret tt s' /\
    log_rep s' (Tst (t_view t) (filter (fun p => p <> (h, b)) (t_held t)) (t_dirty t) (t_logged t) (t_room t)).
Proof using.
  intros R Hin Hd. destruct R as [R1 R2 D1 D2 D3 D4 D5 D6 R4 R5 R6 R7 R8 R9 R10 R11 R12 R13 R14 R15 R16].
  pose proof (held_in _ _ _ Hin) as Hb.
  assert (Hr : a_ref (bc_abs (l_cache s)) b = 1 + if decide (b ∈ logged s) then 1 else 0).
  { rewrite R13, decide_True by exact Hb. reflexivity. }
  destruct (bc_rel (l_cache s) h b) as (c & E & I & A & P); auto.
  { rewrite R12. apply bool_decide_true. exact Hb. }
  { rewrite Hr. case_decide; lia. }
  { rewrite Hr. case_decide as Hl; [left; lia|right; auto]. }
  pose proof (held_split h b (t_held t) R9 Hin) as Hsp.
  assert (Hsp2 : held_of t ≡ₚ b :: (filter (fun p => p <> (h, b)) (t_held t)).*2)
    by (unfold held_of; rewrite Hsp at 1; reflexivity).
  assert (Hnd : NoDup (b :: (filter (fun p => p <> (h, b)) (t_held t)).*2)) by (rewrite <- Hsp2; exact R9).
  apply NoDup_cons in Hnd as [Hnb Hnd].
  assert (El : logged (set cache_of c s) = logged s) by reflexivity.
  assert (Eu : forall l, unlogged (set cache_of c s) l = unlogged s l) by reflexivity.
  exists (set cache_of c s). split; [apply zoom_ret; exact E|].
  split; simpl in *; rewrite ?El, ?Eu; auto.
  - intros b'. rewrite (eqv_view _ _ b' A). apply R8.
  - intros h' b' Hp. apply list_elem_of_filter in Hp as [_ Hp]. auto.
  - rewrite Hsp in R11. simpl in R11. lia.
  - intros b'. rewrite (eqv_held _ _ b' A). simpl. unfold upd. destruct (Z.eqb_spec b' b) as [->|Hne].
    + symmetry. apply bool_decide_false. exact Hnb.
    + rewrite R12. apply bool_decide_ext. rewrite Hsp2, elem_of_cons. unfold held_of. simpl. tauto.
  - intros b'. rewrite (eqv_ref _ _ b' A). simpl. unfold upd. destruct (Z.eqb_spec b' b) as [->|Hne].
    + rewrite (decide_False (P := b ∈ held_of _)) by exact Hnb. lia.
    + rewrite R13. f_equal. apply decide_ext. rewrite Hsp2, elem_of_cons. unfold held_of. simpl. tauto.
  - rewrite (eqv_busy _ _ A). simpl. rewrite Hr.
    rewrite Hsp2, unlogged_cons in R14.
    change (held_of (Tst _ ?l _ _ _)) with (l.*2). destruct (decide (b ∈ logged s)); simpl; lia.
  - intros b' H1 H2. rewrite (eqv_view _ _ b' A), (eqv_disk _ _ b' A). apply R15; assumption.
Qed.

Lemma find_block_spec bs b :
  if decide (b ∈ bs) then bs !! find_block bs b = Some b else find_block bs b = length bs.
Proof using.
  induction bs as [|b' bs IH]; cbn [find_block].
  - rewrite decide_False by apply not_elem_of_nil. reflexivity.
  - destruct (Z.eqb_spec b' b) as [->|Hne]; [rewrite decide_True by left; reflexivity|].
    destruct (decide (b ∈ bs)) as [Hin|Hin].
    + rewrite decide_True by (right; exact Hin). exact IH.
    + rewrite decide_False by (rewrite elem_of_cons; intros [E|E]; [congruence|contradiction]).
      rewrite IH. reflexivity.
Qed.

(** [log_write] of a held block: absorbed, or appended and pinned. *)
Lemma log_write_cases s h b c :
  l_locked s = false -> 1 <= l_outstanding s -> 0 <= l_n s < LOGBLOCKS ->
  Z.of_nat (length (l_block s)) = LOGBLOCKS -> bblockno (l_cache s) h = b ->
  bpin h (l_cache s) = Ret tt c ->
  log_write h s = Ret tt (if decide (b ∈ logged s) then s else
    Logst c (l_start s) (l_outstanding s) (l_committing s) (l_dev s) (l_n s + 1)
      (<[Z.to_nat (l_n s) := b]> (l_block s)) false).
Proof using.
  intros Hl Ho Hn Hlen Hb Hp. unfold log_write.
  rewrite (bind_ret_l _ _ _ tt (set log_lock true s)) by (unfold acquire; simpl; rewrite Hl; reflexivity).
  rewrite bind_gets. replace (LOGBLOCKS <=? l_n (set log_lock true s)) with false by (simpl; lia).
  replace (l_outstanding (set log_lock true s) <? 1) with false by (simpl; lia).
  rewrite bind_gets, bind_modify. simpl l_cache. rewrite Hb. simpl l_n. simpl l_block. fold (logged s).
  pose proof (find_block_spec (logged s) b) as Hf. set (i := find_block (logged s) b) in *.
  assert (Hll : length (logged s) = Z.to_nat (l_n s)) by (unfold logged; rewrite length_take; lia).
  destruct (decide (b ∈ logged s)) as [Hin|Hin].
  - pose proof (lookup_lt_Some _ _ _ Hf) as Hi. replace (Z.of_nat i =? l_n s) with false by lia. cbn [when].
    unfold logged in Hf. apply lookup_take_Some in Hf as [Hf _]. rewrite list_insert_id by exact Hf.
    unfold bind, ret, release, set_block. simpl. rewrite <- Hl. destruct s; reflexivity.
  - rewrite Hf, Hll. replace (Z.of_nat (Z.to_nat (l_n s)) =? l_n s) with true by lia. cbn [when].
    unfold bind, zoom, modify, release. simpl. rewrite Hp. reflexivity.
Qed.

Lemma log_log s t h b : log_rep s t -> (h, b) ∈ t_held t -> log_home b -> t_cost t b <= t_room t ->
  exists s', t_log_write h s = Ret tt s' /\
    log_rep s' (Tst (t_view t) (t_held t) (filter (fun x => x <> b) (t_dirty t)) (b :: t_logged t) (t_room t - t_cost t b)).
Proof using.
  intros R Hin Hhome Hroom. destruct R as [R1 R2 D1 D2 D3 D4 D5 D6 R4 R5 R6 R7 R8 R9 R10 R11 R12 R13 R14 R15 R16].
  pose proof (held_in _ _ _ Hin) as Hb. unfold HELDMAX in *.
  assert (Ho : 1 <= l_outstanding s).
  { rewrite D3. destruct (decide (1 <= ops)) as [|Hops]; [assumption|]. exfalso. destruct (D5 ltac:(lia)) as (Hr0 & Hl0 & _).
    unfold t_cost in Hroom. rewrite Hl0 in Hroom. rewrite decide_False in Hroom by apply not_elem_of_nil. lia. }
  assert (Hr : a_ref (bc_abs (l_cache s)) b = 1 + if decide (b ∈ logged s) then 1 else 0).
  { rewrite R13, decide_True by exact Hb. reflexivity. }
  destruct (bc_pin (l_cache s) h b) as (c & E & I & A & P); auto.
  { rewrite Hr. unfold REFMAX. case_decide; lia. }
  destruct (bc_data (l_cache s) h b R1 (R10 h b Hin)) as [_ Hbn].
  simpl t_log_write. rewrite (log_write_cases s h b c) by (auto; lia). eexists. split; [reflexivity|].
  assert (Hdirty : forall b', b' <> b -> b' ∉ filter (fun x => x <> b) (t_dirty t) -> b' ∉ t_dirty t).
  { intros b' Hne Hd Hd'. apply Hd, list_elem_of_filter. auto. }
  destruct (decide (b ∈ logged s)) as [Hlg|Hlg].
  { split; try assumption; cbn [t_room t_logged]; try (unfold HELDMAX, t_cost in *; case_decide; lia);
      [|intros b' Hb'; apply elem_of_cons in Hb' as [->|Hb']; auto]. intros b' H1 H2. apply R15; [exact H1|]. apply Hdirty; [|exact H2].
    intros ->. exact (H1 Hlg). }
  assert (Hcost : t_cost t b = 1) by (unfold t_cost; rewrite decide_False; auto). rewrite Hcost in *.
  set (s' := Logst c _ _ _ _ _ _ _).
  assert (El : logged s' = logged s ++ [b]).
  { unfold logged, s'. simpl. replace (Z.to_nat (l_n s + 1)) with (Datatypes.S (Z.to_nat (l_n s))) by lia.
    rewrite (take_S_r _ _ b) by (apply list_lookup_insert_eq; lia). rewrite take_insert_ge by lia. reflexivity. }
  assert (Eu : unlogged s' (held_of t) = unlogged s (held_of t) - 1).
  { unfold unlogged. rewrite (filter_count_update (fun x => x ∉ logged s) _ (held_of t) b); auto.
    - rewrite decide_True by exact Hlg. rewrite decide_False; [lia|]. rewrite El, elem_of_app, list_elem_of_singleton. tauto.
    - intros x _ Hx. rewrite El, elem_of_app, list_elem_of_singleton. tauto. }
  split; rewrite ?El; try assumption; cbn [t_room t_view l_n l_block]; try (unfold s', HELDMAX; simpl; lia).
  - intros b' Hb'. apply elem_of_app in Hb' as [Hb'|Hb']; [auto|]. apply list_elem_of_singleton in Hb' as ->. exact Hhome.
  - simpl. rewrite length_insert. exact R4.
  - apply NoDup_app. split; [exact R6|]. split; [|apply NoDup_singleton]. intros x Hx Hx'.
    apply list_elem_of_singleton in Hx'. subst. contradiction.
  - intros b'. change (l_cache s') with c. rewrite (eqv_view _ _ b' A). apply R8.
  - intros h' b' Hh'. apply P, R10, Hh'.
  - intros b'. change (l_cache s') with c. rewrite (eqv_held _ _ b' A). apply R12.
  - intros b'. change (l_cache s') with c. rewrite (eqv_ref _ _ b' A). simpl. unfold upd. destruct (Z.eqb_spec b' b) as [->|Hne].
    + rewrite Hr, decide_True by exact Hb. rewrite decide_True by (apply elem_of_app; right; left). lia.
    + rewrite R13. f_equal. apply decide_ext. rewrite elem_of_app, list_elem_of_singleton. tauto.
  - change (l_cache s') with c. rewrite (eqv_busy _ _ A). change (held_of (Tst _ (t_held t) _ _ _)) with (held_of t). rewrite Eu. simpl. lia.
  - change (l_cache s') with c. intros b' H1 H2. apply not_elem_of_app in H1 as [H1 H3].
    rewrite (eqv_view _ _ b' A), (eqv_disk _ _ b' A). apply R15; [exact H1|]. apply Hdirty; [|exact H2].
    intros ->. apply H3. left.
  - intros b' Hb'. apply elem_of_app. apply elem_of_cons in Hb' as [->|Hb']; [right; left|left; auto].
Qed.
End LogTxn.

Definition log_txn_laws {S} `{BlockCache S} (dev : Z) `{!BlockCacheLaws S dev} (start ops : Z) : TxnLaws (logst S) dev.
Proof.
  refine {| t_home := log_home start; t_rep := log_rep dev start ops |}.
  - intros s t v [R1 R2 D1 D2 D3 D4 D5 D6 R4 R5 R6 R7 R8 R9 R10 R11 R12 R13 R14 R15 R16] Hv. split; auto.
    intros b. simpl. rewrite Hv. apply R8.
  - intros s t r [R1 R2 D1 D2 D3 D4 D5 D6 R4 R5 R6 R7 R8 R9 R10 R11 R12 R13 R14 R15 R16] Hr. split; auto; simpl; [|lia].
    intros Ho. destruct (D5 Ho) as (? & ? & ?). repeat split; auto; lia.
  - intros s t h b R Hin. destruct (bc_data (l_cache s) h b (lr_inv _ _ _ _ _ R) (lr_handle _ _ _ _ _ R h b Hin)) as [E _].
    simpl. rewrite E. apply (lr_view _ _ _ _ _ R).
  - apply log_read.
  - apply log_set.
  - apply log_log.
  - apply log_rel.
Defined.

(** Transactions themselves. *)
Class TxnCtl (S : Type) : Type := {
  t_begin_op : M S unit;
  t_end_op : M S unit;
  t_initlog : Z -> Z -> M S unit
}.

#[global] Instance log_ctl {S} `{BlockCache S} (fuel : nat) : TxnCtl (logst S) := {
  t_begin_op := begin_op fuel;
  t_end_op := end_op;
  t_initlog := initlog
}.
