(* ===== verification/TxnOps.v ===== *)
(** * Whole operations on the log

    What a file system operation gets from [begin_op] and [end_op] of
    [kernel/log.c], when it is the only one in progress: room for
    [MAXOPBLOCKS] blocks at the start, and at the end the blocks as the
    operation left them, on disk. *)

From S2P Require Import Prelude Block Log Txn.

(** The laws of the blocks between operations, and within one. *)
Class TxnCtlLaws (S : Type) `{Txn S} `{TxnCtl S} (dev : Z) (TI TA : TxnLaws S dev) : Type := {
  t_same_home : forall b, t_home (TxnLaws := TI) b <-> t_home (TxnLaws := TA) b;
  t_begin : forall s v, t_rep (TxnLaws := TI) s (Tst v [] [] [] 0) ->
    exists s', t_begin_op s = Ret tt s' /\ t_rep (TxnLaws := TA) s' (Tst v [] [] [] MAXOPBLOCKS);
  t_end : forall s v L r, t_rep (TxnLaws := TA) s (Tst v [] [] L r) ->
    exists s' v', t_end_op s = Ret tt s' /\ t_rep (TxnLaws := TI) s' (Tst v' [] [] [] 0) /\
      (forall b, t_home (TxnLaws := TI) b -> v' b = v b) /\
      ((forall b, byte_mem (v b)) -> forall b, byte_mem (v' b))
}.

(** ** Unpinning a set of blocks *)

Lemma a_unpins_held bs a b : a_held (a_unpins bs a) b = a_held a b.
Proof. revert a. induction bs as [|b' bs IH]; intros a; simpl; [reflexivity|]. rewrite IH. reflexivity. Qed.

Lemma a_unpins_ref bs : forall a b, NoDup bs ->
  a_ref (a_unpins bs a) b = a_ref a b - (if decide (b ∈ bs) then 1 else 0).
Proof.
  induction bs as [|b' bs IH]; intros a b Hnd; simpl; [lia|]. apply NoDup_cons in Hnd as [Hn Hnd].
  rewrite IH by exact Hnd. simpl. unfold upd. destruct (Z.eqb_spec b b') as [->|Hne].
  - rewrite decide_False by exact Hn. rewrite decide_True by left. lia.
  - f_equal. apply decide_ext. rewrite elem_of_cons. tauto.
Qed.

Lemma a_unpins_busy bs : forall a, NoDup bs -> (forall b, b ∈ bs -> a_ref a b = 1) ->
  a_busy (a_unpins bs a) = a_busy a - Z.of_nat (length bs).
Proof.
  induction bs as [|b bs IH]; intros a Hnd Hr; simpl; [lia|]. apply NoDup_cons in Hnd as [Hn Hnd].
  rewrite IH by (try exact Hnd; intros b' Hb'; simpl; rewrite upd_ne by (intros ->; contradiction);
    apply Hr; right; exact Hb').
  simpl. rewrite (Hr b) by left. rewrite Z.eqb_refl. lia.
Qed.

Lemma apply_writes_agree ws : forall d d' b, b ∈ ws.*1 -> apply_writes d ws b = apply_writes d' ws b.
Proof.
  induction ws as [|[b' v] ws IH]; intros d d' b Hb; simpl in *; [apply elem_of_nil in Hb; contradiction|].
  destruct (decide (b ∈ ws.*1)) as [Hi|Hi]; [apply IH, Hi|].
  apply elem_of_cons in Hb as [->|Hb]; [|contradiction].
  rewrite !apply_writes_other by exact Hi. rewrite !upd_eq. reflexivity.
Qed.

(** A commit leaves the blocks outside the log as they were seen. *)
Lemma commit_writes_view start bs lblock v b :
  Z.of_nat (length bs) <= LOGBLOCKS -> NoDup bs -> log_home start b ->
  apply_writes v (commit_writes start bs lblock v) b = v b.
Proof.
  intros Hlen Hnd Hb. unfold commit_writes. rewrite !apply_writes_app. simpl.
  assert (Hs : b <> start) by (unfold log_home in Hb; unfold LOGBLOCKS, MAXOPBLOCKS in *; lia).
  rewrite upd_ne by exact Hs.
  assert (Hf : ((fun x => (x, v x)) <$> bs).*1 = bs) by (rewrite <- list_fmap_compose; apply list_fmap_id).
  destruct (decide (b ∈ bs)) as [Hi|Hi].
  - apply apply_writes_in; [rewrite Hf; exact Hnd|]. apply list_elem_of_fmap. exists b. auto.
  - rewrite apply_writes_other by (rewrite Hf; exact Hi). rewrite upd_ne by exact Hs.
    apply apply_writes_other. rewrite seq_writes_fst, elem_of_seqZ, length_fmap. unfold log_home in Hb. lia.
Qed.

Lemma commit_writes_fst start bs lblock v b : b ∈ bs -> b ∈ (commit_writes start bs lblock v).*1.
Proof.
  intros Hb. unfold commit_writes. rewrite !fmap_app, !elem_of_app. right. right. left.
  rewrite <- list_fmap_compose. apply list_elem_of_fmap. exists b. auto.
Qed.

(** What it writes is made of bytes. *)
Lemma apply_writes_bytes ws : forall d, (forall b, byte_mem (d b)) -> Forall (fun w => byte_mem w.2) ws ->
  forall b, byte_mem (apply_writes d ws b).
Proof.
  induction ws as [|[b' v] ws IH]; intros d Hd Hw b; [apply Hd|]. apply Forall_cons in Hw as [Hv Hw].
  simpl. apply IH; [|exact Hw]. intros b''. unfold upd. case_test; auto.
Qed.

Lemma hdr_put_bytes d n bs : byte_mem d -> byte_mem (hdr_put d n bs).
Proof.
  intros Hd. unfold hdr_put. generalize (take (Z.to_nat n) bs). intros l.
  assert (H0 : byte_mem (store_le d 0 4 (u32 n))) by (apply store_le_byte_mem, Hd). revert H0.
  generalize (store_le d 0 4 (u32 n)). generalize 0. induction l as [|b l IH]; intros i d' Hd'; simpl; [exact Hd'|].
  apply IH, store_le_byte_mem, Hd'.
Qed.

Lemma commit_writes_bytes start bs lblock v : (forall b, byte_mem (v b)) ->
  forall b, byte_mem (apply_writes v (commit_writes start bs lblock v) b).
Proof.
  intros Hv. apply apply_writes_bytes; [exact Hv|]. unfold commit_writes.
  assert (Hs : forall t, Forall (fun w => byte_mem w.2) (seq_writes t (v <$> bs))).
  { induction bs as [|b bs IH]; intros t; simpl; constructor; auto. apply Hv. }
  apply Forall_app_2; [apply Hs|]. apply Forall_app_2; [repeat constructor; apply hdr_put_bytes, Hv|].
  apply Forall_app_2; [|repeat constructor; apply hdr_put_bytes, hdr_put_bytes, Hv].
  apply Forall_fmap, Forall_forall. intros b _. apply Hv.
Qed.

Section LogOps.
Context {S : Type} `{BlockCache S} (dev : Z) `{!BlockCacheLaws S dev} (start : Z).

Lemma begin_op_ok s v fuel : (0 < fuel)%nat -> log_rep dev start 0 s (Tst v [] [] [] 0) ->
  exists s', begin_op fuel s = Ret tt s' /\ log_rep dev start 1 s' (Tst v [] [] [] MAXOPBLOCKS).
Proof.
  intros Hf R. destruct R as [R1 R2 D1 D2 D3 D4 D5 D6 R4 R5 R6 R7 R8 R9 R10 R11 R12 R13 R14 R15 R16].
  destruct (D5 ltac:(lia)) as (_ & _ & Hn). destruct fuel as [|fuel]; [lia|].
  exists (set_outstanding 1 s). unfold begin_op.
  rewrite (bind_ret_l _ _ _ tt (set log_lock true s)) by (unfold acquire; simpl; rewrite R2; reflexivity).
  cbn [begin_op_loop]. rewrite bind_gets. cbn [set log_lock l_committing l_n l_outstanding]. rewrite D4, Hn, D3.
  replace (LOGBLOCKS <? 0 + (0 + 1) * MAXOPBLOCKS) with false by reflexivity.
  rewrite bind_modify. split.
  - unfold release, set_outstanding. simpl. rewrite D4, Hn, R2. reflexivity.
  - split; simpl in *; auto; try lia. rewrite Hn. unfold LOGBLOCKS, HELDMAX, MAXOPBLOCKS. lia.
Qed.

(** The cache is as a commit needs it when no buffer is held. *)
Lemma idle_ready s v L r : log_rep dev start 1 s (Tst v [] [] L r) ->
  ready start (logged s) (bc_abs (l_cache s)) /\ pinned (logged s) (bc_abs (l_cache s)) /\
  Z.of_nat (length (logged s)) = l_n s.
Proof.
  intros R. destruct R as [R1 R2 D1 D2 D3 D4 D5 D6 R4 R5 R6 R7 R8 R9 R10 R11 R12 R13 R14 R15 R16].
  assert (Hl : Z.of_nat (length (logged s)) = l_n s).
  { unfold logged. rewrite length_take. unfold HELDMAX in *. lia. }
  split; [|split; [|exact Hl]].
  - split; auto.
    + unfold HELDMAX in *. lia.
    + intros b. rewrite R13. rewrite decide_False by apply not_elem_of_nil. unfold REFMAX. case_decide; lia.
    + unfold unlogged in R14. simpl in R14. unfold LOGBLOCKS, HELDMAX, NBUF, MAXOPBLOCKS in *. lia.
    + intros t Ht. apply R15; [|apply not_elem_of_nil]. intros Hi. apply D6 in Hi. unfold log_home in Hi. lia.
  - intros b Hb. rewrite R13. rewrite (decide_True (P := b ∈ logged s)) by exact Hb. case_decide; lia.
Qed.

(** The state after the last operation ends, when [commit] left cache [c]. *)
Definition ended (c : S) (s : logst S) : logst S := set_outstanding 0 (set_n 0 (set cache_of c s)).

Lemma ended_rep s v L r c v' : log_rep dev start 1 s (Tst v [] [] L r) ->
  bc_inv c -> (forall b, a_held (bc_abs c) b = false) -> (forall b, a_ref (bc_abs c) b = 0) ->
  a_busy (bc_abs c) <= 0 -> (forall b, a_view (bc_abs c) b = a_disk (bc_abs c) b) ->
  (forall b, a_view (bc_abs c) b = v' b) ->
  log_rep dev start 0 (ended c s) (Tst v' [] [] [] 0).
Proof.
  intros R Hi Hh Hr Hb Hc Hv. destruct R as [R1 R2 D1 D2 D3 D4 D5 D6 R4 R5 R6 R7 R8 R9 R10 R11 R12 R13 R14 R15 R16].
  split; simpl in *; auto; try (unfold LOGBLOCKS, HELDMAX, MAXOPBLOCKS; lia); try apply NoDup_nil_2;
    try (intros b Hb'; apply elem_of_nil in Hb'; contradiction).
  intros h b Hb'. apply elem_of_nil in Hb'. contradiction.
Qed.

Lemma commit_ok (s : logst S) v L r : log_rep dev start 1 s (Tst v [] [] L r) ->
  let s1 := set_committing true (set_outstanding 0 s) in
  exists c v', commit s1 = Ret tt (set_n 0 (set cache_of c s1)) /\
    log_rep dev start 0 (ended c s) (Tst v' [] [] [] 0) /\ (forall b, log_home start b -> v' b = v b) /\
    ((forall b, byte_mem (v b)) -> forall b, byte_mem (v' b)).
Proof.
  intros R s1. destruct (idle_ready _ _ _ _ R) as (Hr & Hp & Hl).
  pose proof R as [R1 R2 D1 D2 D3 D4 D5 D6 R4 R5 R6 R7 R8 R9 R10 R11 R12 R13 R14 R15 R16].
  assert (Href : forall b, a_ref (bc_abs (l_cache s)) b = if decide (b ∈ logged s) then 1 else 0).
  { intros b. rewrite R13, decide_False by apply not_elem_of_nil. reflexivity. }
  assert (Hbusy : a_busy (bc_abs (l_cache s)) <= l_n s) by (unfold unlogged in R14; simpl in R14; lia).
  assert (Hheld : forall b, a_held (bc_abs (l_cache s)) b = false) by apply Hr.
  destruct (decide (logged s = [])) as [He|He].
  { rewrite He in *. exists (l_cache s), v. split; [|split; [|auto]].
    - unfold commit. rewrite bind_gets. change (l_n s1) with (l_n s). rewrite <- Hl. simpl. unfold ret, s1.
      unfold set_committing, set_outstanding, set_n. simpl. rewrite <- Hl. reflexivity.
    - apply (ended_rep _ _ _ _ _ _ R); auto; [simpl in Hl; lia|]. intros b. apply R15; apply not_elem_of_nil. }
  assert (Hlen : Z.of_nat (length (logged s)) <= LOGBLOCKS) by (unfold HELDMAX in *; lia).
  destruct (commit_spec dev (logged s) s1) as (c & E & I & A); auto.
  { unfold logged. rewrite length_take. simpl. f_equal. unfold HELDMAX in *. lia. }
  { change (l_start s1) with (l_start s). rewrite D2. exact Hr. }
  change (l_start s1) with (l_start s) in A. change (l_cache s1) with (l_cache s) in A. rewrite D2 in A.
  exists c, (a_view (bc_abs c)). split; [exact E|]. split.
  - apply (ended_rep _ _ _ _ _ _ R); auto.
    + intros b. rewrite (eqv_held _ _ b A), a_unpins_held. apply Hheld.
    + intros b. rewrite (eqv_ref _ _ b A), a_unpins_ref by exact R6. simpl. rewrite Href. case_decide; lia.
    + rewrite (eqv_busy _ _ A), a_unpins_busy; [simpl; lia|exact R6|].
      intros b Hb. simpl. rewrite Href. apply decide_True, Hb.
    + intros b. rewrite (eqv_view _ _ b A), (eqv_disk _ _ b A), a_unpins_view, a_unpins_disk. simpl.
      destruct (decide (b ∈ logged s)) as [Hb|Hb]; [apply apply_writes_agree, commit_writes_fst, Hb|].
      apply apply_writes_ext, R15; [exact Hb|apply not_elem_of_nil].
  - split; [intros b Hb; rewrite (eqv_view _ _ b A), a_unpins_view; simpl; rewrite commit_writes_view by assumption; apply R8|].
    intros Hv b. rewrite (eqv_view _ _ b A), a_unpins_view. simpl. apply commit_writes_bytes.
    intros b'. change (l_cache s1) with (l_cache s). rewrite R8. apply Hv.
Qed.

Lemma end_op_ok (s : logst S) v L r : log_rep dev start 1 s (Tst v [] [] L r) ->
  exists s' v', end_op s = Ret tt s' /\ log_rep dev start 0 s' (Tst v' [] [] [] 0) /\
    (forall b, log_home start b -> v' b = v b) /\ ((forall b, byte_mem (v b)) -> forall b, byte_mem (v' b)).
Proof.
  intros R. destruct (commit_ok s v L r R) as (c & v' & E & R' & Hv).
  exists (ended c s), v'. split; [|auto].
  pose proof (lr_locked _ _ _ _ _ R) as R2. pose proof (lr_ops _ _ _ _ _ R) as D3.
  pose proof (lr_committing _ _ _ _ _ R) as D4.
  unfold end_op. rewrite (bind_ret_l _ _ _ tt (set log_lock true s)) by (unfold acquire; simpl; rewrite R2; reflexivity).
  rewrite bind_modify, bind_gets. cbn [set log_lock set_outstanding l_committing l_outstanding]. rewrite D4, D3.
  change (1 - 1 =? 0) with true. cbn [when]. rewrite bind_modify.
  erewrite bind_ret_l by reflexivity.
  erewrite bind_ret_l.
  2: { etransitivity; [|exact E]. f_equal. unfold set_committing, set_outstanding. simpl. rewrite <- R2. reflexivity. }
  erewrite bind_ret_l by (unfold acquire; simpl; rewrite R2; reflexivity).
  rewrite bind_modify. unfold release, ended. simpl. unfold set_committing, set_outstanding, set_n. simpl.
  rewrite <- D4, <- R2 at 1. reflexivity.
Qed.
End LogOps.

#[global] Instance log_ctl_laws {S} `{BlockCache S} (dev : Z) `{!BlockCacheLaws S dev} (start : Z) (fuel : nat) :
  TxnCtlLaws (logst S) (H0 := log_ctl (Datatypes.S fuel)) dev (log_txn_laws dev start 0) (log_txn_laws dev start 1).
Proof.
  split.
  - intros b. reflexivity.
  - intros s v R. apply (begin_op_ok dev start s v (Datatypes.S fuel)); [lia|exact R].
  - intros s v L r R. apply (end_op_ok dev start s v L r R).
Qed.
