(* ===== verification/Fs.v ===== *)
(** * The file system

    [kernel/fs.c] over transactional blocks ([Txn]).  Inodes in memory are
    numbered by their place in the table, [NULL] is no inode.  On-disk
    structures are read and written byte by byte in block contents.  Copies to
    and from user memory go through [UserMem]; a directory entry that is copied
    to or from a local variable is a list of bytes. *)

From S2P Require Import Prelude Sleeplock Block Log Txn UserMem.

Definition ROOTDEV : Z := 1.
Definition ROOTINO : Z := 1.
Definition FSMAGIC : Z := 0x10203040.
Definition NDIRECT : Z := 12.
Definition NINDIRECT : Z := BSIZE / 4.
Definition MAXFILE : Z := NDIRECT + NINDIRECT.
Definition DIRSIZ : Z := 14.
Definition NINODE : Z := 50.
Definition IPB : Z := BSIZE / 64.
Definition BPB : Z := BSIZE * 8.
Definition T_DIR : Z := 1.
Definition T_FILE : Z := 2.
Definition T_DEVICE : Z := 3.
Definition NULL : Z := -1.

Record superblock : Type := Sb {
  sb_magic : Z;
  sb_size : Z;
  sb_nblocks : Z;
  sb_ninodes : Z;
  sb_nlog : Z;
  sb_logstart : Z;
  sb_inodestart : Z;
  sb_bmapstart : Z
}.

Definition IBLOCK (i : Z) (sb : superblock) : Z := u32 (i / IPB + sb_inodestart sb).
Definition BBLOCK (b : Z) (sb : superblock) : Z := u32 (b / BPB + sb_bmapstart sb).

Definition get_sb (d : block) : superblock :=
  let f i := load d (4 * i) 4 in
  Sb (f 0) (f 1) (f 2) (f 3) (f 4) (f 5) (f 6) (f 7).

(** The in-memory inode. *)
Record inode : Type := Inode {
  i_dev : Z;
  i_inum : Z;
  i_ref : Z;
  i_lock : sleeplock;
  i_valid : bool;
  i_type : Z;
  i_major : Z;
  i_minor : Z;
  i_nlink : Z;
  i_size : Z;
  i_addrs : list Z
}.

(** The on-disk inode at offset [o] of a block. *)
Definition dinode_off (inum : Z) : Z := (inum mod IPB) * 64.
Definition d_type (d : block) (o : Z) : Z := i16 (load d o 2).
Definition d_major (d : block) (o : Z) : Z := i16 (load d (o + 2) 2).
Definition d_minor (d : block) (o : Z) : Z := i16 (load d (o + 4) 2).
Definition d_nlink (d : block) (o : Z) : Z := i16 (load d (o + 6) 2).
Definition d_size (d : block) (o : Z) : Z := load d (o + 8) 4.
Definition d_addrs (d : block) (o : Z) : list Z :=
  (fun k => load d (o + 12 + 4 * k) 4) <$> seqZ 0 (NDIRECT + 1).

Fixpoint put_words (d : block) (o : Z) (ws : list Z) : block :=
  match ws with
  | [] => d
  | w :: ws' => put_words (store_le d o 4 w) (o + 4) ws'
  end.

Definition put_dinode (d : block) (o type major minor nlink size : Z) (addrs : list Z) : block :=
  let d := store_le d o 2 (u16 type) in
  let d := store_le d (o + 2) 2 (u16 major) in
  let d := store_le d (o + 4) 2 (u16 minor) in
  let d := store_le d (o + 6) 2 (u16 nlink) in
  let d := store_le d (o + 8) 4 size in
  put_words d (o + 12) addrs.

Record stat : Type := Stat { st_dev : Z; st_ino : Z; st_type : Z; st_nlink : Z; st_size : Z }.

Record fs (T U : Type) : Type := FS {
  f_txn : T;
  f_sb : superblock;
  f_itlock : bool;            (* itable.lock *)
  f_inode : Z -> inode;       (* itable.inode *)
  f_cwd : Z;                  (* myproc()->cwd *)
  f_pid : Z;                  (* myproc()->pid *)
  f_user : U;
  f_console : list string     (* messages printed *)
}.
Arguments FS {T U}.
Arguments f_txn {T U}.
Arguments f_sb {T U}.
Arguments f_itlock {T U}.
Arguments f_inode {T U}.
Arguments f_cwd {T U}.
Arguments f_pid {T U}.
Arguments f_user {T U}.
Arguments f_console {T U}.

Section Fs.
Context {T U : Type} `{TX : Txn T} `{TC : TxnCtl T} `{UM : UserMem U}.
(** How often a thread that waits for an inode is woken to find it locked. *)
Context (wakeups : nat).

Definition txn_of : lens (fs T U) T :=
  Lens f_txn (fun x s => FS x (f_sb s) (f_itlock s) (f_inode s) (f_cwd s) (f_pid s) (f_user s) (f_console s)).
Definition user_of : lens (fs T U) U :=
  Lens f_user (fun x s => FS (f_txn s) (f_sb s) (f_itlock s) (f_inode s) (f_cwd s) (f_pid s) x (f_console s)).
Definition itable_lock : lens (fs T U) bool :=
  Lens f_itlock (fun x s => FS (f_txn s) (f_sb s) x (f_inode s) (f_cwd s) (f_pid s) (f_user s) (f_console s)).
Definition set_sb (x : superblock) (s : fs T U) : fs T U :=
  FS (f_txn s) x (f_itlock s) (f_inode s) (f_cwd s) (f_pid s) (f_user s) (f_console s).
Definition set_inode (ip : Z) (f : inode -> inode) (s : fs T U) : fs T U :=
  FS (f_txn s) (f_sb s) (f_itlock s) (upd (f_inode s) ip (f (f_inode s ip))) (f_cwd s) (f_pid s) (f_user s) (f_console s).
Definition say (m : string) (s : fs T U) : fs T U :=
  FS (f_txn s) (f_sb s) (f_itlock s) (f_inode s) (f_cwd s) (f_pid s) (f_user s) (f_console s ++ [m]).

Definition with_ref (r : Z) (i : inode) : inode :=
  Inode (i_dev i) (i_inum i) r (i_lock i) (i_valid i) (i_type i) (i_major i) (i_minor i) (i_nlink i) (i_size i) (i_addrs i).
Definition with_lock (l : sleeplock) (i : inode) : inode :=
  Inode (i_dev i) (i_inum i) (i_ref i) l (i_valid i) (i_type i) (i_major i) (i_minor i) (i_nlink i) (i_size i) (i_addrs i).
Definition with_valid (v : bool) (i : inode) : inode :=
  Inode (i_dev i) (i_inum i) (i_ref i) (i_lock i) v (i_type i) (i_major i) (i_minor i) (i_nlink i) (i_size i) (i_addrs i).
Definition with_type (t : Z) (i : inode) : inode :=
  Inode (i_dev i) (i_inum i) (i_ref i) (i_lock i) (i_valid i) t (i_major i) (i_minor i) (i_nlink i) (i_size i) (i_addrs i).
Definition with_nlink (n : Z) (i : inode) : inode :=
  Inode (i_dev i) (i_inum i) (i_ref i) (i_lock i) (i_valid i) (i_type i) (i_major i) (i_minor i) n (i_size i) (i_addrs i).
Definition with_majmin (ma mi : Z) (i : inode) : inode :=
  Inode (i_dev i) (i_inum i) (i_ref i) (i_lock i) (i_valid i) (i_type i) ma mi (i_nlink i) (i_size i) (i_addrs i).
Definition with_size (n : Z) (i : inode) : inode :=
  Inode (i_dev i) (i_inum i) (i_ref i) (i_lock i) (i_valid i) (i_type i) (i_major i) (i_minor i) (i_nlink i) n (i_addrs i).
Definition with_addr (k a : Z) (i : inode) : inode :=
  Inode (i_dev i) (i_inum i) (i_ref i) (i_lock i) (i_valid i) (i_type i) (i_major i) (i_minor i) (i_nlink i) (i_size i)
        (<[Z.to_nat k := a]> (i_addrs i)).

Definition inode_lock (ip : Z) : lens (fs T U) sleeplock :=
  Lens (fun s => i_lock (f_inode s ip)) (fun l => set_inode ip (with_lock l)).

(** Shorthands for the block operations. *)
Definition bread (dev b : Z) : M (fs T U) Z := zoom txn_of (t_bread dev b).
Definition brelse (bp : Z) : M (fs T U) unit := zoom txn_of (t_brelse bp).
Definition log_write (bp : Z) : M (fs T U) unit := zoom txn_of (t_log_write bp).
Definition data (bp : Z) : M (fs T U) block := gets (fun s => t_data (f_txn s) bp).
Definition put_data (bp : Z) (d : block) : M (fs T U) unit := zoom txn_of (t_put bp d).
Definition get_inode (ip : Z) : M (fs T U) inode := gets (fun s => f_inode s ip).
Definition the_sb : M (fs T U) superblock := gets f_sb.

(** ** Blocks *)

Definition readsb (dev : Z) : M (fs T U) unit :=
  let! bp := bread dev 1 in
  let! d := data bp in
  modify (set_sb (get_sb d)) ;;
  brelse bp.

Definition bzero (dev bno : Z) : M (fs T U) unit :=
  let! bp := bread dev bno in
  put_data bp (fun _ => 0) ;;
  log_write bp ;;
  brelse bp.

(** [bp->data[bi/8] & (1 << (bi % 8))] *)
Definition bit_of (d : block) (bi : Z) : Z := Z.land (d (bi / 8)) (Z.shiftl 1 (bi mod 8)).

(** The first clear bit among the [n] from [bi] on. *)
Fixpoint find_bit (n : nat) (d : block) (bi : Z) : option Z :=
  match n with
  | O => None
  | S n => if bit_of d bi =? 0 then Some bi else find_bit n d (bi + 1)
  end.

Definition set_bit (d : block) (bi : Z) : block := store d (bi / 8) (Z.lor (d (bi / 8)) (Z.shiftl 1 (bi mod 8))).
Definition clear_bit (d : block) (bi : Z) : block :=
  store d (bi / 8) (Z.land (d (bi / 8)) (Z.lnot (Z.shiftl 1 (bi mod 8)))).

Fixpoint balloc_loop (fuel : nat) (dev b : Z) : M (fs T U) Z :=
  match fuel with
  | O => nofuel
  | S fuel =>
      let! sb := the_sb in
      if b <? sb_size sb then
        let! bp := bread dev (BBLOCK b sb) in
        let! d := data bp in
        match find_bit (Z.to_nat (Z.min BPB (sb_size sb - b))) d 0 with
        | Some bi =>
            put_data bp (set_bit d bi) ;;
            log_write bp ;;
            brelse bp ;;
            bzero dev (b + bi) ;;
            ret (b + bi)
        | None => brelse bp ;; balloc_loop fuel dev (b + BPB)
        end
      else
        modify (say "balloc: out of blocks") ;; ret 0
  end.

Definition balloc (dev : Z) : M (fs T U) Z :=
  let! sb := the_sb in
  balloc_loop (Z.to_nat (sb_size sb / BPB + 2)) dev 0.

Definition bfree (dev b : Z) : M (fs T U) unit :=
  let! sb := the_sb in
  let! bp := bread dev (BBLOCK b sb) in
  let bi := b mod BPB in
  let! d := data bp in
  if bit_of d bi =? 0 then panic "freeing free block" else
  put_data bp (clear_bit d bi) ;;
  log_write bp ;;
  brelse bp.

(** ** Inodes *)

Fixpoint iinit_loop (n : nat) (i : Z) : M (fs T U) unit :=
  match n with
  | O => ret tt
  | S n => modify (set_inode i (with_lock initsleeplock)) ;; iinit_loop n (i + 1)
  end.

Definition iinit : M (fs T U) unit :=
  modify (set itable_lock false) ;;
  iinit_loop (Z.to_nat NINODE) 0.

(** The scan of [iget]: the entry that holds the inode, or the first free one. *)
Fixpoint iget_scan (n : nat) (tbl : Z -> inode) (dev inum ip : Z) (empty : option Z) : option Z * option Z :=
  match n with
  | O => (None, empty)
  | S n =>
      let i := tbl ip in
      if (0 <? i_ref i) && (i_dev i =? dev) && (i_inum i =? inum) then (Some ip, empty)
      else iget_scan n tbl dev inum (ip + 1)
             (match empty with None => if i_ref i =? 0 then Some ip else None | Some _ => empty end)
  end.

Definition iget (dev inum : Z) : M (fs T U) Z :=
  acquire itable_lock ;;
  let! tbl := gets f_inode in
  match iget_scan (Z.to_nat NINODE) tbl dev inum 0 None with
  | (Some ip, _) =>
      modify (set_inode ip (fun i => with_ref (i32 (i_ref i + 1)) i)) ;;
      release itable_lock ;;
      ret ip
  | (None, None) => panic "iget: no inodes"
  | (None, Some ip) =>
      modify (set_inode ip (fun i => Inode dev inum 1 (i_lock i) false (i_type i) (i_major i) (i_minor i)
                                           (i_nlink i) (i_size i) (i_addrs i))) ;;
      release itable_lock ;;
      ret ip
  end.

Fixpoint ialloc_loop (n : nat) (dev type inum : Z) : M (fs T U) Z :=
  match n with
  | O => modify (say "ialloc: no inodes") ;; ret NULL
  | S n =>
      let! sb := the_sb in
      let! bp := bread dev (IBLOCK inum sb) in
      let! d := data bp in
      let o := dinode_off inum in
      if d_type d o =? 0 then
        put_data bp (store_le (fun x => if (o <=? x) && (x <? o + 64) then 0 else d x) o 2 (u16 type)) ;;
        log_write bp ;;
        brelse bp ;;
        iget dev inum
      else brelse bp ;; ialloc_loop n dev type (inum + 1)
  end.

Definition ialloc (dev type : Z) : M (fs T U) Z :=
  let! sb := the_sb in
  ialloc_loop (Z.to_nat (sb_ninodes sb - 1)) dev type 1.

Definition iupdate (ip : Z) : M (fs T U) unit :=
  let! sb := the_sb in
  let! i := get_inode ip in
  let! bp := bread (i_dev i) (IBLOCK (i_inum i) sb) in
  let! d := data bp in
  put_data bp (put_dinode d (dinode_off (i_inum i)) (i_type i) (i_major i) (i_minor i) (i_nlink i) (i_size i) (i_addrs i)) ;;
  log_write bp ;;
  brelse bp.

Definition idup (ip : Z) : M (fs T U) Z :=
  acquire itable_lock ;;
  modify (set_inode ip (fun i => with_ref (i32 (i_ref i + 1)) i)) ;;
  release itable_lock ;;
  ret ip.

Definition ilock (ip : Z) : M (fs T U) unit :=
  let! i := get_inode ip in
  if (ip =? NULL) || (i_ref i <? 1) then panic "ilock" else
  let! pid := gets f_pid in
  zoom (inode_lock ip) (acquiresleep wakeups ip pid) ;;
  let! i := get_inode ip in
  when (negb (i_valid i))
    (let! sb := the_sb in
     let! bp := bread (i_dev i) (IBLOCK (i_inum i) sb) in
     let! d := data bp in
     let o := dinode_off (i_inum i) in
     modify (set_inode ip (fun i => Inode (i_dev i) (i_inum i) (i_ref i) (i_lock i) (i_valid i)
       (d_type d o) (d_major d o) (d_minor d o) (d_nlink d o) (d_size d o) (d_addrs d o))) ;;
     brelse bp ;;
     modify (set_inode ip (with_valid true)) ;;
     let! i := get_inode ip in
     if i_type i =? 0 then panic "ilock: no type" else ret tt).

Definition iunlock (ip : Z) : M (fs T U) unit :=
  if ip =? NULL then panic "iunlock" else
  let! pid := gets f_pid in
  let! h := zoom (inode_lock ip) (holdingsleep pid) in
  let! i := get_inode ip in
  if negb h || (i_ref i <? 1) then panic "iunlock"
  else zoom (inode_lock ip) releasesleep.

(** ** Contents *)

(** [addrs[i]] for i in a range: free the block and clear the slot. *)
Fixpoint trunc_direct (n : nat) (ip i : Z) : M (fs T U) unit :=
  match n with
  | O => ret tt
  | S n =>
      let! x := get_inode ip in
      let a := nth (Z.to_nat i) (i_addrs x) 0 in
      when (negb (a =? 0)) (bfree (i_dev x) a ;; modify (set_inode ip (with_addr i 0))) ;;
      trunc_direct n ip (i + 1)
  end.

(** Free the blocks an indirect block with contents [d] lists, from [j] on. *)
Fixpoint trunc_indirect (n : nat) (dev : Z) (d : block) (j : Z) : M (fs T U) unit :=
  match n with
  | O => ret tt
  | S n =>
      let a := load d (4 * j) 4 in
      when (negb (a =? 0)) (bfree dev a) ;;
      trunc_indirect n dev d (j + 1)
  end.

Definition itrunc (ip : Z) : M (fs T U) unit :=
  trunc_direct (Z.to_nat NDIRECT) ip 0 ;;
  let! x := get_inode ip in
  let ind := nth (Z.to_nat NDIRECT) (i_addrs x) 0 in
  when (negb (ind =? 0))
    (let! bp := bread (i_dev x) ind in
     let! d := data bp in
     trunc_indirect (Z.to_nat NINDIRECT) (i_dev x) d 0 ;;
     brelse bp ;;
     bfree (i_dev x) ind ;;
     modify (set_inode ip (with_addr NDIRECT 0))) ;;
  modify (set_inode ip (with_size 0)) ;;
  iupdate ip.

Definition iput (ip : Z) : M (fs T U) unit :=
  acquire itable_lock ;;
  let! i := get_inode ip in
  when ((i_ref i =? 1) && i_valid i && (i_nlink i =? 0))
    (let! pid := gets f_pid in
     zoom (inode_lock ip) (acquiresleep wakeups ip pid) ;;
     release itable_lock ;;
     itrunc ip ;;
     modify (set_inode ip (with_type 0)) ;;
     iupdate ip ;;
     modify (set_inode ip (with_valid false)) ;;
     zoom (inode_lock ip) releasesleep ;;
     acquire itable_lock) ;;
  modify (set_inode ip (fun i => with_ref (i32 (i_ref i - 1)) i)) ;;
  release itable_lock.

Definition iunlockput (ip : Z) : M (fs T U) unit := iunlock ip ;; iput ip.

Fixpoint ireclaim_loop (n : nat) (dev inum : Z) : M (fs T U) unit :=
  match n with
  | O => ret tt
  | S n =>
      let! sb := the_sb in
      let! bp := bread dev (IBLOCK inum sb) in
      let! d := data bp in
      let o := dinode_off inum in
      let! ip :=
        (if negb (d_type d o =? 0) && (d_nlink d o =? 0) then
           modify (say "ireclaim: orphaned inode") ;; iget dev inum
         else ret NULL) in
      brelse bp ;;
      when (negb (ip =? NULL))
        (zoom txn_of t_begin_op ;;
         ilock ip ;;
         iunlock ip ;;
         iput ip ;;
         zoom txn_of t_end_op) ;;
      ireclaim_loop n dev (inum + 1)
  end.

Definition ireclaim (dev : Z) : M (fs T U) unit :=
  let! sb := the_sb in
  ireclaim_loop (Z.to_nat (sb_ninodes sb - 1)) dev 1.

Definition fsinit (dev : Z) : M (fs T U) unit :=
  readsb dev ;;
  let! sb := the_sb in
  if negb (sb_magic sb =? FSMAGIC) then panic "invalid file system" else
  zoom txn_of (t_initlog dev (sb_logstart sb)) ;;
  ireclaim dev.

Definition bmap (ip bn : Z) : M (fs T U) Z :=
  let! x := get_inode ip in
  if bn <? NDIRECT then
    let addr := nth (Z.to_nat bn) (i_addrs x) 0 in
    if addr =? 0 then
      let! addr := balloc (i_dev x) in
      if addr =? 0 then ret 0
      else modify (set_inode ip (with_addr bn addr)) ;; ret addr
    else ret addr
  else
    let bn := bn - NDIRECT in
    if bn <? NINDIRECT then
      let addr := nth (Z.to_nat NDIRECT) (i_addrs x) 0 in
      let! addr :=
        (if addr =? 0 then
           let! addr := balloc (i_dev x) in
           if addr =? 0 then ret 0
           else modify (set_inode ip (with_addr NDIRECT addr)) ;; ret addr
         else ret addr) in
      if addr =? 0 then ret 0 else
      let! bp := bread (i_dev x) addr in
      let! d := data bp in
      let addr := load d (4 * bn) 4 in
      let! addr :=
        (if addr =? 0 then
           let! addr := balloc (i_dev x) in
           when (negb (addr =? 0))
             (let! d := data bp in put_data bp (store_le d (4 * bn) 4 addr) ;; log_write bp) ;;
           ret addr
         else ret addr) in
      brelse bp ;;
      ret addr
    else panic "bmap: out of range".

Definition stati (ip : Z) : M (fs T U) stat :=
  let! i := get_inode ip in
  ret (Stat (i_dev i) (i_inum i) (i_type i) (i_nlink i) (i_size i)).

(** [bp->data + off .. + m] as bytes, and their replacement. *)
Definition slice (d : block) (off m : Z) : list Z := read_bytes d off (Z.to_nat m).
Definition splice (d : block) (off : Z) (bs : list Z) : block := write_bytes d off bs.

(** Where the bytes read go: [either_copyout], or a local variable.  [R] is what
    has been collected so far. *)
Fixpoint readi_loop {R : Type} (sink : R -> Z -> list Z -> M (fs T U) (bool * R))
    (fuel : nat) (ip : Z) (acc : R) (dst off tot n : Z) : M (fs T U) (Z * R) :=
  match fuel with
  | O => nofuel
  | S fuel =>
      if tot <? n then
        let! addr := bmap ip (off / BSIZE) in
        if addr =? 0 then ret (tot, acc) else
        let! x := get_inode ip in
        let! bp := bread (i_dev x) addr in
        let m := Z.min (n - tot) (BSIZE - off mod BSIZE) in
        let! d := data bp in
        let! (ok, acc) := sink acc dst (slice d (off mod BSIZE) m) in
        if negb ok then brelse bp ;; ret (-1, acc)
        else brelse bp ;; readi_loop sink fuel ip acc (u64 (dst + m)) (u32 (off + m)) (tot + m) n
      else ret (tot, acc)
  end.

Definition readi_gen {R : Type} (sink : R -> Z -> list Z -> M (fs T U) (bool * R))
    (ip : Z) (acc : R) (dst off n : Z) : M (fs T U) (Z * R) :=
  let! x := get_inode ip in
  if (i_size x <? off) || (u32 (off + n) <? off) then ret (0, acc)
  else
    let n := if i_size x <? off + n then i_size x - off else n in
    readi_loop sink (Z.to_nat (n / BSIZE + 3)) ip acc dst off 0 n.

Definition user_sink (user_dst : bool) (acc : unit) (dst : Z) (bs : list Z) : M (fs T U) (bool * unit) :=
  let! ok := zoom user_of (copyout_bytes user_dst dst bs) in ret (ok, tt).
Definition local_sink (acc : list Z) (dst : Z) (bs : list Z) : M (fs T U) (bool * list Z) :=
  ret (true, acc ++ bs).

Definition readi (ip : Z) (user_dst : bool) (dst off n : Z) : M (fs T U) Z :=
  let! (tot, _) := readi_gen (user_sink user_dst) ip tt dst off n in ret tot.
(** [readi(ip, 0, (uint64)&x, off, n)] for a local variable x: its bytes. *)
Definition readi_local (ip off n : Z) : M (fs T U) (Z * list Z) := readi_gen local_sink ip [] 0 off n.

(** Where the bytes written come from: what the buffer holds after the copy. *)
Fixpoint writei_loop (src : Z -> list Z -> M (fs T U) (bool * list Z))
    (fuel : nat) (ip addr0 off tot n : Z) : M (fs T U) (Z * Z) :=
  match fuel with
  | O => nofuel
  | S fuel =>
      if tot <? n then
        let! addr := bmap ip (off / BSIZE) in
        if addr =? 0 then ret (tot, off) else
        let! x := get_inode ip in
        let! bp := bread (i_dev x) addr in
        let m := Z.min (n - tot) (BSIZE - off mod BSIZE) in
        let! d := data bp in
        let! (ok, new) := src addr0 (slice d (off mod BSIZE) m) in
        put_data bp (splice d (off mod BSIZE) new) ;;
        if negb ok then brelse bp ;; ret (tot, off)
        else
          log_write bp ;;
          brelse bp ;;
          writei_loop src fuel ip (u64 (addr0 + m)) (u32 (off + m)) (tot + m) n
      else ret (tot, off)
  end.

Definition writei_gen (src : Z -> list Z -> M (fs T U) (bool * list Z)) (ip addr0 off n : Z) : M (fs T U) Z :=
  let! x := get_inode ip in
  if (i_size x <? off) || (u32 (off + n) <? off) then ret (-1)
  else if MAXFILE * BSIZE <? u32 (off + n) then ret (-1)
  else
    let! (tot, off) := writei_loop src (Z.to_nat (n / BSIZE + 3)) ip addr0 off 0 n in
    let! x := get_inode ip in
    when (i_size x <? off) (modify (set_inode ip (with_size off))) ;;
    iupdate ip ;;
    ret tot.

Definition user_src (user : bool) (a : Z) (old : list Z) : M (fs T U) (bool * list Z) :=
  zoom user_of (copyin_over user a old).
(** A local variable whose bytes are [bs], at address 0. *)
Definition local_src (bs : list Z) (a : Z) (old : list Z) : M (fs T U) (bool * list Z) :=
  ret (true, take (length old) (drop (Z.to_nat a) bs)).

Definition writei (ip : Z) (user : bool) (src off n : Z) : M (fs T U) Z :=
  writei_gen (user_src user) ip src off n.
Definition writei_local (ip : Z) (bs : list Z) (off : Z) : M (fs T U) Z :=
  writei_gen (local_src bs) ip 0 off (Z.of_nat (length bs)).

(** ** Directories *)

(** Strings are lists of characters, NUL after the last one. *)
Definition cchar (s : list Z) (i : Z) : Z := nth (Z.to_nat i) s 0.

(** [strncmp] from character [i] on, at most [n] of them. *)
Fixpoint strncmp_from (n : nat) (p q : list Z) (i : Z) : Z :=
  match n with
  | O => 0
  | S n' =>
      let cp := cchar p i in
      let cq := cchar q i in
      if negb (cp =? 0) && (cp =? cq) then strncmp_from n' p q (i + 1) else cp - cq
  end.

Definition namecmp (s t : list Z) : Z := strncmp_from (Z.to_nat DIRSIZ) s t 0.

(** [struct dirent] is 16 bytes: the inode number and the name. *)
Definition DIRENT : Z := 16.
Definition de_inum (de : list Z) : Z := cchar de 0 + 256 * cchar de 1.
Definition de_name (de : list Z) : list Z := drop 2 de.
Definition mk_dirent (inum : Z) (name : list Z) : list Z :=
  [u16 inum mod 256; u16 inum / 256] ++ take (Z.to_nat DIRSIZ) (name ++ replicate (Z.to_nat DIRSIZ) 0).

(** The result is the inode and the offset of its entry. *)
Fixpoint dirlookup_loop (fuel : nat) (dp : Z) (name : list Z) (off : Z) : M (fs T U) (Z * Z) :=
  match fuel with
  | O => nofuel
  | S fuel =>
      let! x := get_inode dp in
      if off <? i_size x then
        let! (r, de) := readi_local dp off DIRENT in
        if negb (r =? DIRENT) then panic "dirlookup read"
        else if de_inum de =? 0 then dirlookup_loop fuel dp name (u32 (off + DIRENT))
        else if namecmp name (de_name de) =? 0 then
          let! ip := iget (i_dev x) (de_inum de) in ret (ip, off)
        else dirlookup_loop fuel dp name (u32 (off + DIRENT))
      else ret (NULL, 0)
  end.

Definition dirlookup (dp : Z) (name : list Z) : M (fs T U) (Z * Z) :=
  let! x := get_inode dp in
  if negb (i_type x =? T_DIR) then panic "dirlookup not DIR"
  else dirlookup_loop (Z.to_nat (i_size x / DIRENT + 2)) dp name 0.

(** The offset of the first empty entry, or the end. *)
Fixpoint dirlink_loop (fuel : nat) (dp off : Z) : M (fs T U) Z :=
  match fuel with
  | O => nofuel
  | S fuel =>
      let! x := get_inode dp in
      if off <? i_size x then
        let! (r, de) := readi_local dp off DIRENT in
        if negb (r =? DIRENT) then panic "dirlink read"
        else if de_inum de =? 0 then ret off
        else dirlink_loop fuel dp (off + DIRENT)
      else ret off
  end.

Definition dirlink (dp : Z) (name : list Z) (inum : Z) : M (fs T U) Z :=
  let! (ip, _) := dirlookup dp name in
  if negb (ip =? NULL) then iput ip ;; ret (-1)
  else
    let! x := get_inode dp in
    let! off := dirlink_loop (Z.to_nat (i_size x / DIRENT + 2)) dp 0 in
    let! r := writei_local dp (mk_dirent inum name) off in
    ret (if negb (r =? DIRENT) then -1 else 0).
End Fs.

(** ** Paths *)

Definition slash : Z := 47.

Fixpoint skip_slashes (path : list Z) : list Z :=
  match path with
  | c :: path' => if c =? slash then skip_slashes path' else path
  | [] => []
  end.

(** The characters up to the next slash, and the rest. *)
Fixpoint span_elem (path : list Z) : list Z * list Z :=
  match path with
  | c :: path' => if c =? slash then ([], path) else let '(e, r) := span_elem path' in (c :: e, r)
  | [] => ([], [])
  end.

(** The next element, cut to DIRSIZ characters, and the path after it. *)
Definition skipelem (path : list Z) : option (list Z * list Z) :=
  let path := skip_slashes path in
  match path with
  | [] => None
  | _ =>
      let '(s, path) := span_elem path in
      Some (take (Z.to_nat DIRSIZ) s, skip_slashes path)
  end.

Section Names.
Context {T U : Type} `{TX : Txn T} `{TC : TxnCtl T} `{UM : UserMem U}.
Context (wakeups : nat).

(** Each round takes an element off the path.  With [parent], the result is the
    directory and the last element. *)
Fixpoint namex_loop (fuel : nat) (ip : Z) (path name : list Z) (parent : bool) : M (fs T U) (Z * list Z) :=
  match fuel with
  | O => nofuel
  | S fuel =>
      match skipelem path with
      | None =>
          if parent then iput wakeups ip ;; ret (NULL, name)
          else ret (ip, name)
      | Some (name, path) =>
          ilock wakeups ip ;;
          let! x := get_inode ip in
          if negb (i_type x =? T_DIR) then iunlockput wakeups ip ;; ret (NULL, name)
          else if parent && bool_decide (path = []) then iunlock ip ;; ret (ip, name)
          else
            let! (next, _) := dirlookup ip name in
            if next =? NULL then iunlockput wakeups ip ;; ret (NULL, name)
            else iunlockput wakeups ip ;; namex_loop fuel next path name parent
      end
  end.

Definition namex (path : list Z) (parent : bool) : M (fs T U) (Z * list Z) :=
  let! ip := (if cchar path 0 =? slash then iget ROOTDEV ROOTINO
              else let! cwd := gets f_cwd in idup cwd) in
  namex_loop (S (length path)) ip path [] parent.

Definition namei (path : list Z) : M (fs T U) Z :=
  let! (ip, _) := namex path false in ret ip.
Definition nameiparent (path : list Z) : M (fs T U) (Z * list Z) := namex path true.
End Names.
