(* ===== verification/FsBlocks.v ===== *)
(** * Blocks of the file system

    The free-block bitmap of [kernel/fs.c]: [balloc] takes the first free block,
    marks it and zeroes it, [bfree] gives one back.  Everything is stated of
    the blocks as the transaction sees them, for any implementation of
    transactional blocks. *)

From S2P Require Import Prelude Sleeplock Block Log Txn UserMem Fs.

(** ** Bits *)

Definition bit (d : block) (i : Z) : bool := Z.testbit (d (i / 8)) (i mod 8).

Lemma shiftl1_bit n k : 0 <= n -> 0 <= k -> Z.testbit (Z.shiftl 1 n) k = (k =? n).
Proof. intros Hn Hk. rewrite Z.shiftl_1_l, Z.pow2_bits_eqb by lia. apply Z.eqb_sym. Qed.

Lemma bit_of_bit d i : 0 <= i -> (bit_of d i =? 0) = negb (bit d i).
Proof.
  intros Hi. unfold bit_of, bit. assert (Hm : 0 <= i mod 8) by dlia.
  destruct (Z.testbit (d (i / 8)) (i mod 8)) eqn:E; simpl.
  - apply Z.eqb_neq. intros H0. apply (f_equal (fun z => Z.testbit z (i mod 8))) in H0.
    rewrite Z.land_spec, E, shiftl1_bit, Z.eqb_refl, Z.bits_0 in H0 by lia. discriminate.
  - apply Z.eqb_eq. apply Z.bits_inj'. intros k Hk. rewrite Z.land_spec, shiftl1_bit, Z.bits_0 by lia.
    destruct (Z.eqb_spec k (i mod 8)) as [->|Hne]; [rewrite E; reflexivity|apply andb_false_r].
Qed.

Lemma bit_set d i j : 0 <= i -> 0 <= j -> bit (set_bit d i) j = (j =? i) || bit d j.
Proof.
  intros Hi Hj. unfold bit, set_bit, store. destruct (Z.eqb_spec (j / 8) (i / 8)) as [E|E].
  - rewrite Z.lor_spec, shiftl1_bit, E by dlia. rewrite orb_comm. f_equal.
    destruct (Z.eqb_spec (j mod 8) (i mod 8)), (Z.eqb_spec j i); auto; dlia.
  - destruct (Z.eqb_spec j i); [subst; contradiction|reflexivity].
Qed.

Lemma bit_clear d i j : 0 <= i -> 0 <= j -> bit (clear_bit d i) j = negb (j =? i) && bit d j.
Proof.
  intros Hi Hj. unfold bit, clear_bit, store. destruct (Z.eqb_spec (j / 8) (i / 8)) as [E|E].
  - rewrite Z.land_spec, Z.lnot_spec, shiftl1_bit, E by dlia. rewrite andb_comm. f_equal. f_equal.
    destruct (Z.eqb_spec (j mod 8) (i mod 8)), (Z.eqb_spec j i); auto; dlia.
  - destruct (Z.eqb_spec j i); [subst; contradiction|reflexivity].
Qed.

Lemma find_bit_spec n d : forall i, 0 <= i ->
  match find_bit n d i with
  | Some j => i <= j < i + Z.of_nat n /\ bit d j = false /\ (forall k, i <= k < j -> bit d k = true)
  | None => forall k, i <= k < i + Z.of_nat n -> bit d k = true
  end.
Proof.
  induction n as [|n IH]; intros i Hi; cbn [find_bit]; [intros; lia|].
  rewrite bit_of_bit by exact Hi. destruct (bit d i) eqn:E; simpl negb; cbv iota.
  - specialize (IH (i + 1) ltac:(lia)). destruct (find_bit n d (i + 1)) as [j|].
    + destruct IH as (H1 & H2 & H3). repeat split; try lia; auto. intros k Hk.
      destruct (decide (k = i)) as [->|]; [exact E|]. apply H3. lia.
    + intros k Hk. destruct (decide (k = i)) as [->|]; [exact E|]. apply IH. lia.
  - repeat split; try lia; auto.
Qed.

(** ** Geometry *)

Definition datastart (sb : superblock) : Z := sb_bmapstart sb + sb_size sb / BPB + 1.

(** Arithmetic with the constants of the layout. *)
Ltac geom := unfold datastart in *; change IPB with 16 in *; change BPB with 8192 in *; change BSIZE with 1024 in *; dlia.

Record sb_ok (sb : superblock) : Prop := {
  sb_size_ok : 0 <= sb_size sb < 2 ^ 31;
  sb_inode_ok : 0 < sb_inodestart sb;
  sb_ninodes_ok : 0 <= sb_ninodes sb;
  sb_bmap_ok : sb_inodestart sb + sb_ninodes sb / IPB < sb_bmapstart sb;
  sb_data_ok : datastart sb <= sb_size sb
}.

(** Block [b] is marked in use. *)
Definition used (v : Z -> block) (sb : superblock) (b : Z) : bool := bit (v (BBLOCK b sb)) (b mod BPB).

(** The blocks before the data blocks are in use: [balloc] never gives out a
    block of the bitmap, of the inodes or of the log. *)
Definition reserved (v : Z -> block) (sb : superblock) : Prop :=
  forall b, 0 <= b < datastart sb -> used v sb b = true.

Lemma BBLOCK_eq sb b : sb_ok sb -> 0 <= b < sb_size sb -> BBLOCK b sb = b / BPB + sb_bmapstart sb.
Proof.
  intros [H1 H2 H3 H4 H5] Hb. unfold BBLOCK. apply u32_small. geom.
Qed.

Lemma BBLOCK_range sb b : sb_ok sb -> 0 <= b < sb_size sb -> sb_bmapstart sb <= BBLOCK b sb < datastart sb.
Proof. intros Hs Hb. rewrite BBLOCK_eq by assumption. unfold datastart, BPB, BSIZE. dlia. Qed.

Definition take_block (v : Z -> block) (sb : superblock) (b : Z) : Z -> block :=
  upd (upd v (BBLOCK b sb) (set_bit (v (BBLOCK b sb)) (b mod BPB))) b (fun _ => 0).
Definition give_block (v : Z -> block) (sb : superblock) (b : Z) : Z -> block :=
  upd v (BBLOCK b sb) (clear_bit (v (BBLOCK b sb)) (b mod BPB)).

Lemma used_take v sb b b' : sb_ok sb -> datastart sb <= b < sb_size sb -> 0 <= b' < sb_size sb ->
  used (take_block v sb b) sb b' = (b' =? b) || used v sb b'.
Proof.
  intros Hs Hb Hb'. assert (0 < datastart sb) by (destruct Hs; geom).
  pose proof (BBLOCK_range sb b' Hs Hb') as Hr.
  unfold used, take_block. rewrite upd_ne by lia. unfold upd.
  rewrite !BBLOCK_eq by (assumption || lia). destruct (Z.eqb_spec (b' / BPB + sb_bmapstart sb) (b / BPB + sb_bmapstart sb)) as [E|E].
  - rewrite bit_set by (unfold BPB, BSIZE; dlia). rewrite E. f_equal. apply eq_iff_eq_true. rewrite !Z.eqb_eq.
    unfold BPB, BSIZE in *. dlia.
  - destruct (Z.eqb_spec b' b); [subst; contradiction|reflexivity].
Qed.

Lemma used_give v sb b b' : sb_ok sb -> 0 <= b < sb_size sb -> 0 <= b' < sb_size sb ->
  used (give_block v sb b) sb b' = negb (b' =? b) && used v sb b'.
Proof.
  intros Hs Hb Hb'. unfold used, give_block, upd. rewrite !BBLOCK_eq by assumption.
  destruct (Z.eqb_spec (b' / BPB + sb_bmapstart sb) (b / BPB + sb_bmapstart sb)) as [E|E].
  - rewrite bit_clear by (unfold BPB, BSIZE; dlia). rewrite E. f_equal. f_equal. apply eq_iff_eq_true. rewrite !Z.eqb_eq.
    unfold BPB, BSIZE in *. dlia.
  - destruct (Z.eqb_spec b' b); [subst; contradiction|reflexivity].
Qed.

Lemma reserved_take v sb b : sb_ok sb -> reserved v sb -> datastart sb <= b < sb_size sb -> reserved (take_block v sb b) sb.
Proof.
  intros Hs Hr Hb b' Hb'. destruct Hs as [? ? ? ? ?]. rewrite used_take by (try split; lia).
  rewrite (Hr b' Hb'). apply orb_true_r.
Qed.

Lemma reserved_free v sb b : reserved v sb -> 0 <= b -> used v sb b = false -> datastart sb <= b.
Proof. intros Hr Hb Hu. destruct (decide (b < datastart sb)) as [Hlt|]; [|lia]. rewrite Hr in Hu by lia. discriminate. Qed.

Lemma used_upd v sb b d b' : sb_ok sb -> datastart sb <= b -> 0 <= b' < sb_size sb ->
  used (upd v b d) sb b' = used v sb b'.
Proof. intros Hs Hb Hb'. pose proof (BBLOCK_range sb b' Hs Hb'). unfold used. rewrite upd_ne by lia. reflexivity. Qed.

Lemma used_upd_inode v sb b d b' : sb_ok sb -> b < sb_bmapstart sb -> 0 <= b' < sb_size sb ->
  used (upd v b d) sb b' = used v sb b'.
Proof. intros Hs Hb Hb'. pose proof (BBLOCK_range sb b' Hs Hb'). unfold used. rewrite upd_ne by lia. reflexivity. Qed.

Lemma datastart_pos sb : sb_ok sb -> 0 < sb_bmapstart sb < datastart sb.
Proof. intros [H1 H2 H3 H4 H5]. geom. Qed.

Lemma inode_bmap sb : sb_ok sb -> sb_inodestart sb < sb_bmapstart sb.
Proof. intros [H1 H2 H3 H4 H5]. geom. Qed.

(** A block that is taken changes no other block but those of the bitmap. *)
Lemma take_block_other v sb b c : sb_ok sb -> datastart sb <= b < sb_size sb -> c <> b ->
  c < sb_bmapstart sb \/ datastart sb <= c -> take_block v sb b c = v c.
Proof.
  intros Hs Hb Hne Hc. pose proof (datastart_pos sb Hs). pose proof (BBLOCK_range sb b Hs ltac:(lia)).
  unfold take_block. rewrite !upd_ne by lia. reflexivity.
Qed.

(** Blocks hold bytes. *)
Definition byte_view (v : Z -> block) : Prop := forall b, byte_mem (v b).

Lemma byte_upd v b d : byte_view v -> byte_mem d -> byte_view (upd v b d).
Proof. intros Hv Hd b'. unfold upd. case_test; auto. Qed.

Lemma byte_take v sb b : byte_view v -> byte_view (take_block v sb b).
Proof.
  intros Hv. apply byte_upd; [apply byte_upd; [exact Hv|]|intros x; lia].
  apply store_byte_mem; [apply Hv|]. apply (lor_bound 8); [lia|apply Hv|].
  rewrite Z.shiftl_1_l. assert (Hm : 0 <= b mod BPB mod 8 < 8) by dlia. split; [lia|].
  apply Z.pow_lt_mono_r; lia.
Qed.

(** ** Steps on blocks *)

Section Blocks.
Context {T U : Type} `{TX : Txn T} (dev : Z) `{TL : !TxnLaws T dev}.
Implicit Types s : fs T U.

Definition at_txn (x : T) (s : fs T U) : fs T U := set txn_of x s.

Definition cost (L : list Z) (b : Z) : Z := if decide (b ∈ L) then 0 else 1.

Lemma cost_bound L b : 0 <= cost L b <= 1.
Proof using. unfold cost. case_decide; lia. Qed.

(** The buffers held, the contents of the blocks, the blocks logged and the room
    left in the log; nothing is changed and not yet logged. *)
Record blocks_of (x : T) (sb : superblock) (H : list (Z * Z)) (v : Z -> block) (L : list Z) (r : Z) : Prop := {
  bl_rep : t_rep x (Tst v H [] L r);
  bl_home : forall b, sb_inodestart sb <= b -> t_home b
}.
Definition blocks (s : fs T U) := blocks_of (f_txn s) (f_sb s).

Lemma blocks_room s H v L r r' : blocks s H v L r -> r' <= r -> blocks s H v L r'.
Proof using. intros [B Hh] Hr. split; [|exact Hh]. apply (t_rep_room _ (Tst v H [] L r) r' B). exact Hr. Qed.

Lemma blocks_view s H v v' L r : blocks s H v L r -> (forall b, v' b = v b) -> blocks s H v' L r.
Proof using. intros [B Hh] Hv. split; [|exact Hh]. apply (t_rep_view _ (Tst v H [] L r) v' B). exact Hv. Qed.

Lemma filter_held h b (H : list (Z * Z)) : b ∉ H.*2 -> filter (fun p => p <> (h, b)) ((h, b) :: H) = H.
Proof using.
  intros Hb. rewrite filter_cons, decide_False by tauto. induction H as [|[h1 b1] H IH]; [reflexivity|].
  simpl in Hb. apply not_elem_of_cons in Hb as [H1 H2]. rewrite filter_cons, decide_True by congruence.
  rewrite IH by exact H2. reflexivity.
Qed.

(** Looking at a block. *)
Lemma peek s H v L r b : blocks s H v L r -> b ∉ H.*2 -> Z.of_nat (length H) < HELDMAX ->
  exists h x, bread dev b s = Ret h (at_txn x s) /\ t_data x h = v b /\
    blocks (at_txn x s) ((h, b) :: H) v L r.
Proof using.
  intros [B Hh] Hb Hn. destruct (t_read (f_txn s) _ b B Hb Hn) as (h & x & E & R). exists h, x.
  split; [apply zoom_ret; exact E|]. split; [|split; [exact R|exact Hh]].
  apply (t_rep_data x _ h b R). left.
Qed.

Lemma unpeek s h b H v L r : blocks s ((h, b) :: H) v L r -> b ∉ H.*2 ->
  exists x, brelse h s = Ret tt (at_txn x s) /\ blocks (at_txn x s) H v L r.
Proof using.
  intros [B Hh] Hb. destruct (t_rel (f_txn s) _ h b B) as (x & E & R); [left|apply not_elem_of_nil|].
  exists x. split; [apply zoom_ret; exact E|]. simpl t_held in R. rewrite filter_held in R by exact Hb. split; [exact R|exact Hh].
Qed.

(** Changing and logging a block that is held. *)
Lemma poke s h b H v L r d : blocks s ((h, b) :: H) v L r -> b ∉ H.*2 -> sb_inodestart (f_sb s) <= b -> cost L b <= r ->
  exists x1 x2, put_data h d s = Ret tt (at_txn x1 s) /\ log_write h (at_txn x1 s) = Ret tt (at_txn x2 s) /\
    t_data x2 h = d /\ blocks (at_txn x2 s) ((h, b) :: H) (upd v b d) (b :: L) (r - cost L b).
Proof using.
  intros [B Hh] Hb Hin Hr. destruct (t_set (f_txn s) _ h b d B) as (x1 & E1 & R1); [left|].
  destruct (t_log x1 _ h b R1) as (x2 & E2 & R2); [left|apply Hh, Hin|exact Hr|].
  cbn [t_view t_held t_dirty t_logged t_room] in R2.
  replace (filter _ [b]) with (@nil Z) in R2 by (rewrite filter_cons, decide_False by tauto; reflexivity).
  exists x1, x2. split; [apply zoom_ret; exact E1|]. split; [apply (zoom_ret txn_of _ (at_txn x1 s)); exact E2|].
  split; [|split; [exact R2|exact Hh]]. rewrite (t_rep_data x2 _ h b R2) by left. apply upd_eq.
Qed.

(** The whole read-modify-log-release cycle. *)
Lemma edit s H v L r b : blocks s H v L r -> b ∉ H.*2 -> Z.of_nat (length H) < HELDMAX ->
  sb_inodestart (f_sb s) <= b -> cost L b <= r ->
  exists h x, bread dev b s = Ret h (at_txn x s) /\ t_data x h = v b /\
    forall d, exists x1 x2 x3, put_data h d (at_txn x s) = Ret tt (at_txn x1 s) /\
      log_write h (at_txn x1 s) = Ret tt (at_txn x2 s) /\ brelse h (at_txn x2 s) = Ret tt (at_txn x3 s) /\
      blocks (at_txn x3 s) H (upd v b d) (b :: L) (r - cost L b).
Proof using.
  intros B Hb Hn Hin Hr. destruct (peek s H v L r b B Hb Hn) as (h & x & E & D & B1). exists h, x.
  split; [exact E|]. split; [exact D|]. intros d.
  destruct (poke _ h b H v L r d B1 Hb Hin Hr) as (x1 & x2 & E1 & E2 & _ & B2).
  destruct (unpeek _ h b _ _ _ _ B2 Hb) as (x3 & E3 & B3). exists x1, x2, x3. auto.
Qed.

Lemma bzero_ok s H v L r b : blocks s H v L r -> b ∉ H.*2 -> Z.of_nat (length H) < HELDMAX ->
  sb_inodestart (f_sb s) <= b -> cost L b <= r ->
  exists x, bzero dev b s = Ret tt (at_txn x s) /\ blocks (at_txn x s) H (upd v b (fun _ => 0)) (b :: L) (r - cost L b).
Proof using.
  intros B Hb Hn Hin Hr. destruct (edit s H v L r b B Hb Hn Hin Hr) as (h & x & E & _ & K).
  destruct (K (fun _ => 0)) as (x1 & x2 & x3 & E1 & E2 & E3 & B3). exists x3. split; [|exact B3].
  unfold bzero. do 3 step. exact E3.
Qed.

(** ** Allocation *)

(** The blocks held meanwhile are data blocks in use. *)
Definition held_ok (v : Z -> block) (sb : superblock) (H : list (Z * Z)) : Prop :=
  forall b, b ∈ H.*2 -> datastart sb <= b < sb_size sb /\ used v sb b = true.

Definition out_of_blocks : string := "balloc: out of blocks".

(** What [balloc] does: the first free block is marked and zeroed, or there is
    none. *)
Definition balloc_post (s : fs T U) (H : list (Z * Z)) (v : Z -> block) (L : list Z) (r : Z) (res : res (fs T U) Z) : Prop :=
  let sb := f_sb s in
  (exists b x, res = Ret b (at_txn x s) /\ datastart sb <= b < sb_size sb /\ used v sb b = false /\
     (forall b', 0 <= b' < b -> used v sb b' = true) /\
     blocks (at_txn x s) H (take_block v sb b) (b :: BBLOCK b sb :: L) (r - cost L (BBLOCK b sb) - 1)) \/
  ((forall b, 0 <= b < sb_size sb -> used v sb b = true) /\
   exists x, res = Ret 0 (say out_of_blocks (at_txn x s)) /\ blocks (at_txn x s) H v L r).

Lemma balloc_take s H v L r b h x : let sb := f_sb s in
  sb_ok sb -> datastart sb <= b < sb_size sb -> used v sb b = false -> held_ok v sb H ->
  Z.of_nat (length H) < HELDMAX -> cost L (BBLOCK b sb) + 1 <= r ->
  blocks (at_txn x s) ((h, BBLOCK b sb) :: H) v L r ->
  exists x', (put_data h (set_bit (v (BBLOCK b sb)) (b mod BPB)) ;; log_write h ;; brelse h ;; bzero dev b ;; ret b)
               (at_txn x s) = Ret b (at_txn x' s) /\
    blocks (at_txn x' s) H (take_block v sb b) (b :: BBLOCK b sb :: L) (r - cost L (BBLOCK b sb) - 1).
Proof using TL.
  intros sb Hs Hb Hu Hh Hn Hr B. pose proof (inode_bmap sb Hs). pose proof (BBLOCK_range sb b Hs ltac:(destruct Hs; geom)) as HB.
  assert (HBH : BBLOCK b sb ∉ H.*2) by (intros Hi; apply Hh in Hi as [Hi _]; lia).
  assert (HbH : b ∉ H.*2) by (intros Hi; apply Hh in Hi as [_ Hi]; congruence).
  destruct (poke _ h _ H v L r (set_bit (v (BBLOCK b sb)) (b mod BPB)) B HBH ltac:(simpl; fold sb; lia) ltac:(lia)) as (x1 & x2 & E1 & E2 & _ & B2).
  destruct (unpeek _ h _ _ _ _ _ B2 HBH) as (x3 & E3 & B3).
  destruct (bzero_ok _ H _ _ _ b B3 HbH Hn ltac:(simpl; fold sb; lia)) as (x4 & E4 & B4).
  { pose proof (cost_bound (BBLOCK b sb :: L) b). lia. }
  exists x4. split; [do 4 step; reflexivity|].
  eapply blocks_room; [exact B4|]. pose proof (cost_bound (BBLOCK b sb :: L) b). lia.
Qed.

Lemma balloc_loop_ok H v L r : forall fuel b s, let sb := f_sb s in
  sb_ok sb -> reserved v sb -> held_ok v sb H -> Z.of_nat (length H) < HELDMAX ->
  (forall b, 0 <= b < sb_size sb -> cost L (BBLOCK b sb) + 1 <= r) ->
  blocks s H v L r -> 0 <= b < sb_size sb + BPB -> b mod BPB = 0 -> sb_size sb < b + BPB * (Z.of_nat fuel - 1) ->
  (forall b', 0 <= b' < b -> b' < sb_size sb -> used v sb b' = true) ->
  balloc_post s H v L r (balloc_loop fuel dev b s).
Proof using TL.
  induction fuel as [|fuel IH]; intros b s sb Hs Hres Hh Hn Hr B Hb0 Hbm Hf Hbelow; [lia|].
  cbn [balloc_loop]. unfold the_sb. rewrite bind_gets. unfold balloc_post. fold sb.
  destruct (Z.ltb_spec b (sb_size sb)) as [Hlt|Hge].
  2: { right. split; [intros b' Hb'; apply Hbelow; lia|]. exists (f_txn s). split; [destruct s; reflexivity|exact B]. }
  pose proof (BBLOCK_range sb b Hs ltac:(lia)) as HB.
  assert (HBH : BBLOCK b sb ∉ H.*2) by (intros Hi; apply Hh in Hi as [Hi _]; lia).
  destruct (peek s H v L r (BBLOCK b sb) B HBH Hn) as (h & x & E & D & B1). step.
  unfold data. rewrite bind_gets. change (f_txn (at_txn x s)) with x. rewrite D.
  assert (Hsame : forall k, 0 <= k < BPB -> b + k < sb_size sb -> BBLOCK (b + k) sb = BBLOCK b sb /\ (b + k) mod BPB = k).
  { intros k Hk Hk2. rewrite !BBLOCK_eq by (assumption || lia). unfold BPB, BSIZE in *. split; dlia. }
  pose proof (find_bit_spec (Z.to_nat (Z.min BPB (sb_size sb - b))) (v (BBLOCK b sb)) 0 ltac:(lia)) as Hfb.
  destruct (find_bit _ _ 0) as [bi|].
  - destruct Hfb as (H1 & H2 & H3). destruct (Hsame bi ltac:(lia) ltac:(lia)) as [E1 E2].
    assert (Hu : used v sb (b + bi) = false) by (unfold used; rewrite E1, E2; exact H2).
    pose proof (reserved_free v sb (b + bi) Hres ltac:(lia) Hu) as Hd.
    assert (Hrange : datastart sb <= b + bi < sb_size sb) by lia.
    destruct (balloc_take s H v L r (b + bi) h x Hs Hrange Hu Hh Hn) as (x' & Ex & Bx).
    { apply Hr. fold sb. lia. } { fold sb. rewrite E1. exact B1. }
    fold sb in Ex, Bx. rewrite E1, E2 in Ex. left. exists (b + bi), x'. rewrite Ex.
    split; [reflexivity|]. split; [exact Hrange|]. split; [exact Hu|]. split; [|exact Bx].
    intros b' Hb'. destruct (decide (b' < b)); [apply Hbelow; lia|].
    destruct (Hsame (b' - b) ltac:(lia) ltac:(lia)) as [E3 E4]. replace (b + (b' - b)) with b' in * by lia.
    unfold used. rewrite E3, E4. apply H3. lia.
  - destruct (unpeek _ h _ _ _ _ _ B1 HBH) as (x2 & E2 & B2). step.
    assert (Hnext : forall b', 0 <= b' < b + BPB -> b' < sb_size sb -> used v sb b' = true).
    { intros b' Hb' Hb2. destruct (decide (b' < b)); [apply Hbelow; lia|].
      destruct (Hsame (b' - b) ltac:(lia) ltac:(lia)) as [E3 E4]. replace (b + (b' - b)) with b' in * by lia.
      unfold used. rewrite E3, E4. apply Hfb. lia. }
    assert (Hm : 0 <= b + BPB < sb_size sb + BPB /\ (b + BPB) mod BPB = 0 /\
                 sb_size sb < b + BPB + BPB * (Z.of_nat fuel - 1)) by (unfold BPB, BSIZE in *; dlia).
    destruct Hm as (M1 & M2 & M3).
    exact (IH (b + BPB) (at_txn x2 s) Hs Hres Hh Hn Hr B2 M1 M2 M3 Hnext).
Qed.

Lemma balloc_ok s H v L r : let sb := f_sb s in
  sb_ok sb -> reserved v sb -> held_ok v sb H -> Z.of_nat (length H) < HELDMAX ->
  (forall b, 0 <= b < sb_size sb -> cost L (BBLOCK b sb) + 1 <= r) ->
  blocks s H v L r -> balloc_post s H v L r (balloc dev s).
Proof using TL.
  intros sb Hs Hres Hh Hn Hr B. unfold balloc, the_sb. rewrite bind_gets.
  pose proof (sb_size_ok _ Hs). apply balloc_loop_ok; auto; try lia; fold sb; unfold BPB, BSIZE; dlia.
Qed.

Lemma bfree_ok s H v L r b : let sb := f_sb s in
  sb_ok sb -> 0 <= b < sb_size sb -> held_ok v sb H -> Z.of_nat (length H) < HELDMAX ->
  cost L (BBLOCK b sb) <= r -> blocks s H v L r ->
  if used v sb b
  then exists x, bfree dev b s = Ret tt (at_txn x s) /\
         blocks (at_txn x s) H (give_block v sb b) (BBLOCK b sb :: L) (r - cost L (BBLOCK b sb))
  else bfree dev b s = Panic "freeing free block".
Proof using TL.
  intros sb Hs Hb Hh Hn Hr B. pose proof (inode_bmap sb Hs). pose proof (BBLOCK_range sb b Hs Hb) as HB.
  assert (HBH : BBLOCK b sb ∉ H.*2) by (intros Hi; apply Hh in Hi as [Hi _]; lia).
  destruct (edit s H v L r _ B HBH Hn ltac:(fold sb; lia) Hr) as (h & x & E & D & K).
  unfold bfree, the_sb. rewrite bind_gets. fold sb. step. unfold data. rewrite bind_gets.
  change (f_txn (at_txn x s)) with x. rewrite D, bit_of_bit by (unfold BPB, BSIZE; dlia).
  unfold used. destruct (bit _ _); simpl negb; cbv iota; [|reflexivity].
  destruct (K (clear_bit (v (BBLOCK b sb)) (b mod BPB))) as (x1 & x2 & x3 & E1 & E2 & E3 & B3).
  exists x3. split; [cbn [negb]; do 2 step; exact E3|exact B3].
Qed.
End Blocks.
