(* ===== verification/FsInode.v ===== *)
(** * Inodes and their blocks

    The on-disk inode is what [iupdate] wrote; [bmap] finds or allocates the
    block that holds a part of a file.  A file is seen as the map from block
    numbers within the file to disk blocks ([addr_of]). *)

From S2P Require Import Prelude Sleeplock Block Log Txn UserMem Fs FsBlocks.

(** ** The on-disk inode *)

Lemma put_words_outside ws : forall d o x, x < o \/ o + 4 * Z.of_nat (length ws) <= x -> put_words d o ws x = d x.
Proof.
  induction ws as [|w ws IH]; intros d o x Hx; [reflexivity|]. simpl in *. rewrite IH by lia. apply store_le_outside. lia.
Qed.

Lemma put_words_load ws : forall d o k w, ws !! k = Some w -> 0 <= w < 2 ^ 32 ->
  load (put_words d o ws) (o + 4 * Z.of_nat k) 4 = w.
Proof.
  induction ws as [|w0 ws IH]; intros d o k w Hk Hw; [discriminate|]. destruct k as [|k]; simpl in Hk |- *.
  - simplify_eq. rewrite Z.add_0_r, (load_ext 4 _ (store_le d o 4 w)) by (intros; apply put_words_outside; lia).
    rewrite load_store_le_eq by lia. apply Z.mod_small. exact Hw.
  - replace (o + 4 * Z.of_nat (S k)) with (o + 4 + 4 * Z.of_nat k) by lia. auto.
Qed.

Lemma i16_load m a v : - 2 ^ 15 <= v < 2 ^ 15 -> i16 (load (store_le m a 2 (u16 v)) a 2) = v.
Proof. intros Hv. rewrite load_store_le_eq by wrap_lia. change (2 ^ (8 * Z.of_nat 2)) with (2 ^ 16). wrap_lia. Qed.

(** The fields an inode may hold. *)
Record fields_ok (i : inode) : Prop := {
  fo_type : - 2 ^ 15 <= i_type i < 2 ^ 15;
  fo_major : - 2 ^ 15 <= i_major i < 2 ^ 15;
  fo_minor : - 2 ^ 15 <= i_minor i < 2 ^ 15;
  fo_nlink : - 2 ^ 15 <= i_nlink i < 2 ^ 15;
  fo_size : 0 <= i_size i < 2 ^ 32;
  fo_len : length (i_addrs i) = Z.to_nat (NDIRECT + 1);
  fo_addrs : Forall (fun a => 0 <= a < 2 ^ 32) (i_addrs i)
}.

Definition put_inode (d : block) (o : Z) (i : inode) : block :=
  put_dinode d o (i_type i) (i_major i) (i_minor i) (i_nlink i) (i_size i) (i_addrs i).

Lemma put_inode_outside d o i x : length (i_addrs i) = Z.to_nat (NDIRECT + 1) -> x < o \/ o + 64 <= x ->
  put_inode d o i x = d x.
Proof.
  intros Hl Hx. unfold put_inode, put_dinode, NDIRECT in *. rewrite put_words_outside by lia.
  rewrite !store_le_outside by lia. reflexivity.
Qed.

(** A store determines the bytes it covers. *)
Lemma store_le_ext n : forall (m m' : mem) a v x, a <= x < a + Z.of_nat n \/ m x = m' x ->
  store_le m a n v x = store_le m' a n v x.
Proof.
  induction n as [|n IH]; intros m m' a v x Hx; [change (m x = m' x); destruct Hx; [lia|assumption]|].
  change (store_le (store m a (v mod 256)) (a + 1) n (v / 256) x = store_le (store m' a (v mod 256)) (a + 1) n (v / 256) x).
  apply IH. destruct (decide (x = a)) as [->|Hne]; [right; rewrite !store_eq by reflexivity; reflexivity|].
  destruct Hx as [Hx|Hx]; [left; lia|right; rewrite !store_ne by lia; exact Hx].
Qed.

Lemma put_words_ext ws : forall d d' o x, o <= x < o + 4 * Z.of_nat (length ws) \/ d x = d' x ->
  put_words d o ws x = put_words d' o ws x.
Proof.
  induction ws as [|w ws IH]; intros d d' o x Hx; [destruct Hx; [simpl in *; lia|assumption]|].
  simpl put_words. apply IH. destruct (decide (o + 4 <= x < o + 4 + 4 * Z.of_nat (length ws))); [left; assumption|right].
  apply store_le_ext. simpl length in Hx. destruct Hx; [left; lia|right; assumption].
Qed.

Lemma put_inode_inside d d' o i x : length (i_addrs i) = Z.to_nat (NDIRECT + 1) -> o <= x < o + 64 ->
  put_inode d o i x = put_inode d' o i x.
Proof.
  intros Hl Hx. unfold put_inode, put_dinode, NDIRECT in *. apply put_words_ext.
  destruct (decide (o + 12 <= x)); [left; lia|right].
  apply store_le_ext; destruct (decide (o + 8 <= x)); [left; lia|right].
  apply store_le_ext; destruct (decide (o + 6 <= x)); [left; lia|right].
  apply store_le_ext; destruct (decide (o + 4 <= x)); [left; lia|right].
  apply store_le_ext; destruct (decide (o + 2 <= x)); [left; lia|right].
  apply store_le_ext; left; lia.
Qed.

Lemma put_words_byte ws : forall d o, byte_mem d -> byte_mem (put_words d o ws).
Proof. induction ws as [|w ws IH]; intros d o Hd; [exact Hd|]. apply IH, store_le_byte_mem, Hd. Qed.

Lemma put_inode_byte d o i : byte_mem d -> byte_mem (put_inode d o i).
Proof. intros Hd. apply put_words_byte. repeat apply store_le_byte_mem. exact Hd. Qed.

Ltac skip_store := rewrite ?load_store_le_ne by lia.

Lemma load_put_words n ws d o a : a + Z.of_nat n <= o -> load (put_words d o ws) a n = load d a n.
Proof. intros H. apply load_ext. intros x Hx. apply put_words_outside. lia. Qed.

(** Reading back an inode gives what was written. *)
Lemma dinode_roundtrip d o i : fields_ok i ->
  let d' := put_inode d o i in
  d_type d' o = i_type i /\ d_major d' o = i_major i /\ d_minor d' o = i_minor i /\ d_nlink d' o = i_nlink i /\
  d_size d' o = i_size i /\ d_addrs d' o = i_addrs i.
Proof.
  intros [H1 H2 H3 H4 H5 H6 H7]. unfold d_type, d_major, d_minor, d_nlink, d_size, put_inode, put_dinode. cbv zeta.
  rewrite !load_put_words by lia.
  repeat apply conj; [skip_store; apply i16_load; assumption ..|skip_store|].
  - rewrite load_store_le_eq by lia. apply Z.mod_small. exact H5.
  - unfold d_addrs. apply list_eq. intros k. rewrite list_lookup_fmap.
    destruct (i_addrs i !! k) as [a|] eqn:E.
    + pose proof (lookup_lt_Some _ _ _ E) as Hk. rewrite lookup_seqZ_lt by lia. simpl. f_equal.
      rewrite Z.add_0_l. apply put_words_load; [exact E|]. rewrite Forall_lookup in H7. eauto.
    + apply lookup_ge_None in E. rewrite lookup_seqZ_ge by lia. reflexivity.
Qed.

(** ** The blocks of a file *)

Definition with_addrs (A : list Z) (i : inode) : inode :=
  Inode (i_dev i) (i_inum i) (i_ref i) (i_lock i) (i_valid i) (i_type i) (i_major i) (i_minor i) (i_nlink i) (i_size i) A.

Definition ind_of (i : inode) : Z := nth (Z.to_nat NDIRECT) (i_addrs i) 0.

(** The disk block of block [bn] of the file, 0 if there is none. *)
Definition addr_of (v : Z -> block) (i : inode) (bn : Z) : Z :=
  if bn <? NDIRECT then nth (Z.to_nat bn) (i_addrs i) 0
  else if ind_of i =? 0 then 0 else load (v (ind_of i)) (4 * (bn - NDIRECT)) 4.

Definition owned (v : Z -> block) (i : inode) (b : Z) : Prop :=
  b <> 0 /\ (b = ind_of i \/ exists bn, 0 <= bn < MAXFILE /\ addr_of v i bn = b).

(** The blocks of a file are data blocks in use, each in one place. *)
Record file_ok (v : Z -> block) (sb : superblock) (i : inode) : Prop := {
  fk_len : length (i_addrs i) = Z.to_nat (NDIRECT + 1);
  fk_owned : forall b, owned v i b -> datastart sb <= b < sb_size sb /\ used v sb b = true;
  fk_inj : forall b1 b2, 0 <= b1 < MAXFILE -> 0 <= b2 < MAXFILE ->
    addr_of v i b1 = addr_of v i b2 -> addr_of v i b1 <> 0 -> b1 = b2;
  fk_ind : ind_of i <> 0 -> forall bn, 0 <= bn < MAXFILE -> addr_of v i bn <> ind_of i
}.

Lemma owned_addr v i bn : 0 <= bn < MAXFILE -> addr_of v i bn <> 0 -> owned v i (addr_of v i bn).
Proof. intros Hb H0. split; [exact H0|]. right. eauto. Qed.

Lemma owned_ind v i : ind_of i <> 0 -> owned v i (ind_of i).
Proof. intros H0. split; auto. Qed.

(** A file depends on its indirect block and on the bitmap only. *)
Lemma addr_of_ext v v' i bn : (ind_of i <> 0 -> v' (ind_of i) = v (ind_of i)) -> addr_of v' i bn = addr_of v i bn.
Proof.
  intros H. unfold addr_of. destruct (bn <? NDIRECT); [reflexivity|].
  destruct (Z.eqb_spec (ind_of i) 0) as [E|E]; [reflexivity|]. rewrite H by exact E. reflexivity.
Qed.

Lemma owned_ext v v' i b : (ind_of i <> 0 -> v' (ind_of i) = v (ind_of i)) -> owned v' i b <-> owned v i b.
Proof.
  intros H. unfold owned. split; intros [H0 Ho]; (split; [exact H0|]); destruct Ho as [Ho|(bn & Hb & Ho)]; auto; right; exists bn;
    rewrite ?(addr_of_ext v v') in * by exact H; auto.
Qed.

Lemma file_ok_ext v v' sb i : file_ok v sb i -> (ind_of i <> 0 -> v' (ind_of i) = v (ind_of i)) ->
  (forall b, datastart sb <= b < sb_size sb -> used v sb b = true -> used v' sb b = true) -> file_ok v' sb i.
Proof.
  intros [H1 H2 H3 H4] Hi Hu. split; [exact H1| | |].
  - intros b Hb. apply (owned_ext v v') in Hb; [|exact Hi]. apply H2 in Hb as [Hb Hub]. auto.
  - intros b1 b2 Hb1 Hb2. rewrite !(addr_of_ext v v') by exact Hi. auto.
  - intros H0 bn Hbn. rewrite (addr_of_ext v v') by exact Hi. auto.
Qed.

Lemma file_ok_take v sb i b : sb_ok sb -> file_ok v sb i -> datastart sb <= b < sb_size sb -> used v sb b = false ->
  file_ok (take_block v sb b) sb i /\ ~ owned v i b /\ forall bn, addr_of (take_block v sb b) i bn = addr_of v i bn.
Proof.
  intros Hs Hf Hb Hu. assert (Hi : ind_of i <> 0 -> take_block v sb b (ind_of i) = v (ind_of i)).
  { intros H0. destruct (fk_owned _ _ _ Hf _ (owned_ind v i H0)) as [Hr Hu']. apply take_block_other; auto; [congruence|lia]. }
  split; [|split].
  - apply (file_ok_ext v); auto. intros b' Hb' Hu'. pose proof (datastart_pos sb Hs). rewrite used_take by (auto; lia). rewrite Hu'. apply orb_true_r.
  - intros Ho. destruct (fk_owned _ _ _ Hf _ Ho). congruence.
  - intros bn. apply addr_of_ext. exact Hi.
Qed.

(** ** Filling a slot *)

Lemma nth_insert (l : list Z) k j a : (j < length l)%nat -> nth k (<[j := a]> l) 0 = if decide (k = j) then a else nth k l 0.
Proof.
  intros Hj. rewrite !nth_lookup. case_decide as E.
  - subst. rewrite list_lookup_insert_eq by lia. reflexivity.
  - rewrite list_lookup_insert_ne by congruence. reflexivity.
Qed.

(** What becomes of a file when block [bn] gets the fresh disk block [b]. *)
Lemma file_ok_fill v v' sb i i' bn b :
  file_ok v sb i -> 0 <= bn < MAXFILE -> addr_of v i bn = 0 -> b <> 0 -> ~ owned v i b ->
  length (i_addrs i') = length (i_addrs i) -> ind_of i' = ind_of i ->
  datastart sb <= b < sb_size sb -> used v' sb b = true ->
  (forall c, datastart sb <= c < sb_size sb -> used v sb c = true -> used v' sb c = true) ->
  (forall bn', 0 <= bn' < MAXFILE -> addr_of v' i' bn' = if decide (bn' = bn) then b else addr_of v i bn') ->
  file_ok v' sb i'.
Proof.
  intros [H1 H2 H3 H4] Hbn H0 Hb0 Hno Hl Hind Hb Hub Hu Ha. split.
  - congruence.
  - intros c [Hc0 [Hc|(bn' & Hbn' & Hc)]].
    + subst c. rewrite Hind in *. destruct (H2 _ (owned_ind v i Hc0)). auto.
    + rewrite Ha in Hc by exact Hbn'. case_decide; [subst; auto|].
      destruct (H2 c); [split; [exact Hc0|right; eauto]|]. auto.
  - intros b1 b2 Hb1 Hb2 E Hne. rewrite !Ha in * by assumption. repeat case_decide; subst; auto.
    + exfalso. apply Hno. split; [exact Hb0|]. right. eauto.
    + exfalso. apply Hno. split; [exact Hb0|]. right. eauto.
  - rewrite Hind. intros Hi0 bn' Hbn'. rewrite Ha by exact Hbn'. case_decide; [|auto].
    intros ->. apply Hno, owned_ind, Hi0.
Qed.

Lemma addr_direct v i k b bn : length (i_addrs i) = Z.to_nat (NDIRECT + 1) -> 0 <= k < NDIRECT -> 0 <= bn < MAXFILE ->
  addr_of v (with_addr k b i) bn = if decide (bn = k) then b else addr_of v i bn.
Proof.
  intros Hl Hk Hbn. unfold addr_of, ind_of, NDIRECT in *. simpl i_addrs. rewrite !nth_insert by lia.
  destruct (Z.ltb_spec bn 12).
  - destruct (decide (bn = k)) as [->|Hne]; [rewrite decide_True by reflexivity; reflexivity|].
    rewrite decide_False by lia. reflexivity.
  - rewrite !decide_False by lia. reflexivity.
Qed.

Lemma ind_direct i k b : length (i_addrs i) = Z.to_nat (NDIRECT + 1) -> 0 <= k < NDIRECT -> ind_of (with_addr k b i) = ind_of i.
Proof. intros Hl Hk. unfold ind_of, NDIRECT in *. simpl i_addrs. rewrite nth_insert, decide_False by lia. reflexivity. Qed.

Lemma ind_indirect i b : length (i_addrs i) = Z.to_nat (NDIRECT + 1) -> ind_of (with_addr NDIRECT b i) = b.
Proof. intros Hl. unfold ind_of, NDIRECT in *. simpl i_addrs. rewrite nth_insert, decide_True by (reflexivity || lia). reflexivity. Qed.

(** An indirect block of zeroes adds nothing to the file. *)
Lemma addr_indirect v i b bn : length (i_addrs i) = Z.to_nat (NDIRECT + 1) -> ind_of i = 0 ->
  (forall x, v b x = 0) -> 0 <= bn < MAXFILE -> addr_of v (with_addr NDIRECT b i) bn = addr_of v i bn.
Proof.
  intros Hl H0 Hz Hbn. unfold addr_of. rewrite ind_indirect by exact Hl. rewrite H0.
  destruct (Z.ltb_spec bn NDIRECT).
  - unfold NDIRECT in *. simpl i_addrs. rewrite nth_insert, decide_False by lia. reflexivity.
  - rewrite Z.eqb_refl. destruct (Z.eqb_spec b 0); [reflexivity|]. apply load_zero. auto.
Qed.

Lemma file_ok_indirect v sb i b : file_ok v sb i -> ind_of i = 0 -> b <> 0 -> ~ owned v i b ->
  datastart sb <= b < sb_size sb -> used v sb b = true -> (forall x, v b x = 0) ->
  file_ok v sb (with_addr NDIRECT b i).
Proof.
  intros [H1 H2 H3 H4] Hi Hb0 Hno Hb Hu Hz.
  assert (Ha : forall bn, 0 <= bn < MAXFILE -> addr_of v (with_addr NDIRECT b i) bn = addr_of v i bn)
    by (intros; apply addr_indirect; auto).
  assert (Hi' : ind_of (with_addr NDIRECT b i) = b) by (apply ind_indirect; exact H1).
  split.
  - simpl. rewrite length_insert. exact H1.
  - intros c [Hc0 [Hc|(bn & Hbn & Hc)]]; [rewrite Hi' in Hc; subst; auto|].
    apply H2. split; [exact Hc0|]. right. exists bn. rewrite <- Ha by exact Hbn. auto.
  - intros b1 b2 Hb1 Hb2. rewrite !Ha by assumption. auto.
  - rewrite Hi'. intros _ bn Hbn E. rewrite Ha in E by exact Hbn. apply Hno. split; [exact Hb0|]. right. eauto.
Qed.

(** An entry of the indirect block. *)
Lemma addr_entry v i k b bn : ind_of i <> 0 -> NDIRECT <= k < MAXFILE -> 0 <= b < 2 ^ 32 -> 0 <= bn < MAXFILE ->
  addr_of (upd v (ind_of i) (store_le (v (ind_of i)) (4 * (k - NDIRECT)) 4 b)) i bn =
    if decide (bn = k) then b else addr_of v i bn.
Proof.
  intros H0 Hk Hb Hbn. unfold addr_of. rewrite upd_eq. destruct (Z.eqb_spec (ind_of i) 0); [contradiction|].
  destruct (Z.ltb_spec bn NDIRECT); [rewrite decide_False by lia; reflexivity|].
  destruct (decide (bn = k)) as [->|Hne].
  - rewrite load_store_le_eq by lia. apply Z.mod_small. exact Hb.
  - apply load_store_le_ne. lia.
Qed.

(** ** How the blocks change while a file grows *)

Record grows (v v' : Z -> block) (sb : superblock) (i i' : inode) : Prop := {
  g_low : forall b, b < sb_bmapstart sb -> v' b = v b;
  g_data : forall b, datastart sb <= b < sb_size sb -> used v sb b = true -> b <> ind_of i -> v' b = v b;
  g_used : forall b, 0 <= b < sb_size sb -> used v sb b = true -> used v' sb b = true;
  g_new : forall b, 0 <= b < sb_size sb -> used v' sb b = true -> used v sb b = true \/ owned v' i' b;
  g_ind : ind_of i' = ind_of i \/
    (ind_of i = 0 /\ datastart sb <= ind_of i' < sb_size sb /\ used v sb (ind_of i') = false);
  g_addr : forall bn, 0 <= bn < MAXFILE -> addr_of v i bn <> 0 -> addr_of v' i' bn = addr_of v i bn;
  g_byte : byte_view v -> byte_view v'
}.

Lemma fgrows_refl v sb i : grows v v sb i i.
Proof. split; auto. Qed.

Lemma grows_owned v v' sb i i' b : grows v v' sb i i' -> owned v i b -> owned v' i' b.
Proof.
  intros [G1 G2 G3 G4 G5 G6 G7] [H0 [Hb|(bn & Hbn & Hb)]]; (split; [exact H0|]).
  - destruct G5 as [E|[E _]]; [left; congruence|congruence].
  - right. exists bn. split; [exact Hbn|]. rewrite G6; congruence.
Qed.

Lemma fgrows_trans v1 v2 v3 sb i1 i2 i3 : sb_ok sb ->
  grows v1 v2 sb i1 i2 -> grows v2 v3 sb i2 i3 -> grows v1 v3 sb i1 i3.
Proof.
  intros Hs A B. pose proof (fun b => grows_owned _ _ _ _ _ b B) as Ho. pose proof (datastart_pos sb Hs).
  destruct A as [A1 A2 A3 A4 A5 A6 A7], B as [B1 B2 B3 B4 B5 B6 B7]. split; [..|auto].
  - intros b Hb. rewrite B1, A1 by exact Hb. reflexivity.
  - intros b Hb Hu Hne. rewrite B2; auto; [apply A3; [lia|exact Hu]|].
    destruct A5 as [->|(_ & _ & A5)]; congruence.
  - auto.
  - intros b Hb Hu. apply B4 in Hu as [Hu|Hu]; auto. apply A4 in Hu as [Hu|Hu]; auto.
  - destruct A5 as [A5|(A5 & A5' & A5'')], B5 as [B5|(B5 & B5' & B5'')]; [left; congruence| | |lia].
    + right. split; [congruence|]. split; [exact B5'|]. destruct (used v1 sb (ind_of i3)) eqn:E; auto.
      rewrite A3 in B5'' by (assumption || lia). discriminate.
    + right. rewrite B5. auto.
  - intros bn Hbn H0. rewrite B6, A6; auto. rewrite A6; auto.
Qed.

(** The effect of taking a fresh block. *)
Lemma take_facts v sb i b : sb_ok sb -> reserved v sb -> file_ok v sb i -> datastart sb <= b < sb_size sb -> used v sb b = false ->
  let v1 := take_block v sb b in
  reserved v1 sb /\ file_ok v1 sb i /\ ~ owned v1 i b /\ (forall bn, addr_of v1 i bn = addr_of v i bn) /\
  (forall x, v1 b x = 0) /\ (forall c, 0 <= c < sb_size sb -> used v1 sb c = (c =? b) || used v sb c).
Proof.
  intros Hs Hr Hf Hb Hu v1. destruct (file_ok_take v sb i b Hs Hf Hb Hu) as (F1 & F2 & F3).
  split; [apply reserved_take; assumption|]. split; [exact F1|]. split.
  { intros Ho. apply F2. destruct Ho as [H0 [Ho|(bn & Hbn & Ho)]]; split; auto. right. exists bn. rewrite <- F3. auto. }
  split; [exact F3|]. split; [intros x; unfold v1, take_block; rewrite upd_eq; reflexivity|].
  intros c Hc. apply used_take; assumption.
Qed.

(** A step in which the file gets the fresh block [b]. *)
Lemma grows_take v v' sb i i' b : sb_ok sb -> file_ok v sb i -> datastart sb <= b < sb_size sb -> used v sb b = false ->
  (forall c, c < sb_bmapstart sb \/ (datastart sb <= c /\ c <> b /\ c <> ind_of i) -> v' c = take_block v sb b c) ->
  (forall c, 0 <= c < sb_size sb -> used v' sb c = (c =? b) || used v sb c) ->
  owned v' i' b -> ind_of i' = ind_of i \/ (ind_of i = 0 /\ ind_of i' = b) ->
  (forall bn, 0 <= bn < MAXFILE -> addr_of v i bn <> 0 -> addr_of v' i' bn = addr_of v i bn) ->
  (byte_view v -> byte_view v') ->
  grows v v' sb i i'.
Proof.
  intros Hs Hf Hb Hu Hv Hu' Ho Hi Ha Hbv. pose proof (datastart_pos sb Hs). split; auto.
  - intros c Hc. rewrite Hv by auto. apply take_block_other; auto; lia.
  - intros c Hc Huc Hne. assert (c <> b) by congruence. rewrite Hv by (right; auto with lia). apply take_block_other; auto; lia.
  - intros c Hc Huc. rewrite Hu', Huc by exact Hc. apply orb_true_r.
  - intros c Hc Huc. rewrite Hu' in Huc by exact Hc. apply orb_prop in Huc as [E|E]; [|auto].
    apply Z.eqb_eq in E as ->. auto.
  - destruct Hi as [Hi|[Hi ->]]; auto.
Qed.

(** ** [bmap] *)

Section Bmap.
Context {T U : Type} `{TX : Txn T} (dev : Z) `{TL : !TxnLaws T dev}.
Implicit Types s : fs T U.

(** Inode [ip] may have new blocks; everything else outside the transaction is
    as it was. *)
Record same_but (ip : Z) (s s' : fs T U) : Prop := {
  sf_sb : f_sb s' = f_sb s;
  sf_itlock : f_itlock s' = f_itlock s;
  sf_cwd : f_cwd s' = f_cwd s;
  sf_pid : f_pid s' = f_pid s;
  sf_user : f_user s' = f_user s;
  sf_inode : forall j, j <> ip -> f_inode s' j = f_inode s j;
  sf_fields : f_inode s' ip = with_addrs (i_addrs (f_inode s' ip)) (f_inode s ip)
}.

Lemma same_but_refl ip s : same_but ip s s.
Proof using. split; auto. destruct (f_inode s ip); reflexivity. Qed.

Lemma same_but_trans ip s1 s2 s3 : same_but ip s1 s2 -> same_but ip s2 s3 -> same_but ip s1 s3.
Proof using.
  intros [A1 A2 A3 A4 A5 A6 A7] [B1 B2 B3 B4 B5 B6 B7]. split; try congruence.
  - intros j Hj. rewrite B6, A6 by exact Hj. reflexivity.
  - rewrite B7, A7. reflexivity.
Qed.

Lemma same_but_txn ip s x : same_but ip s (at_txn x s).
Proof using. split; auto. simpl. destruct (f_inode s ip); reflexivity. Qed.

Lemma same_but_say ip s m : same_but ip s (say m s).
Proof using. split; auto. simpl. destruct (f_inode s ip); reflexivity. Qed.

Lemma same_but_addr ip s k b : same_but ip s (set_inode ip (with_addr k b) s).
Proof using.
  split; auto; simpl.
  - intros j Hj. apply upd_ne. exact Hj.
  - rewrite upd_eq. reflexivity.
Qed.

(** The bitmap is one block. *)
Definition one_bitmap (sb : superblock) : Prop := sb_size sb <= BPB.

Lemma BBLOCK_one sb b : sb_ok sb -> one_bitmap sb -> 0 <= b < sb_size sb -> BBLOCK b sb = sb_bmapstart sb.
Proof using. intros Hs Ho Hb. rewrite BBLOCK_eq by assumption. unfold one_bitmap in Ho. geom. Qed.

(** Blocks that growing the file may have to log, besides one per new block. *)
Definition need (sb : superblock) (L : list Z) (i : inode) : Z :=
  cost L (sb_bmapstart sb) + (if ind_of i =? 0 then 1 else cost L (ind_of i)).

Lemma cost_cons L a b : cost (a :: L) b = if decide (b = a) then 0 else cost L b.
Proof using.
  unfold cost. destruct (decide (b = a)) as [->|Hne]; [rewrite decide_True by left; reflexivity|].
  apply decide_ext. rewrite elem_of_cons. tauto.
Qed.

Lemma cost_mono L a b : cost (a :: L) b <= cost L b.
Proof using. rewrite cost_cons. pose proof (cost_bound L b). case_decide; lia. Qed.

Lemma need_bound sb L i : 0 <= need sb L i <= 2.
Proof using. unfold need. pose proof (cost_bound L (sb_bmapstart sb)). pose proof (cost_bound L (ind_of i)). case_test; lia. Qed.

Definition all_used (v : Z -> block) (sb : superblock) : Prop := forall b, 0 <= b < sb_size sb -> used v sb b = true.

Lemma balloc1 s H v L r : let sb := f_sb s in
  sb_ok sb -> one_bitmap sb -> reserved v sb -> held_ok v sb H -> Z.of_nat (length H) < HELDMAX ->
  cost L (sb_bmapstart sb) + 1 <= r -> blocks dev s H v L r ->
  (exists b x, balloc dev s = Ret b (at_txn x s) /\ datastart sb <= b < sb_size sb /\ used v sb b = false /\
     blocks dev (at_txn x s) H (take_block v sb b) (b :: sb_bmapstart sb :: L) (r - cost L (sb_bmapstart sb) - 1)) \/
  (all_used v sb /\ exists x, balloc dev s = Ret 0 (say out_of_blocks (at_txn x s)) /\ blocks dev (at_txn x s) H v L r).
Proof using TL.
  intros sb Hs Ho Hr Hh Hn Hc B. pose proof (datastart_pos sb Hs).
  destruct (balloc_ok dev s H v L r Hs Hr Hh Hn) as [(b & x & E & Hb & Hu & _ & B1)|HR]; auto.
  { intros b Hb. rewrite BBLOCK_one by assumption. exact Hc. }
  left. exists b, x. fold sb in B1, Hb, Hu. rewrite BBLOCK_one in B1 by (assumption || lia). auto.
Qed.

(** What [bmap] does: the file has block [bn] afterwards, unless the disk is
    full; a block that was there stays, a new one is zero. *)
Definition bmap_post (ip bn : Z) (s : fs T U) (v : Z -> block) (L : list Z) (r : Z) (res : res (fs T U) Z) : Prop :=
  let sb := f_sb s in let i := f_inode s ip in
  exists a s' v' L' r', res = Ret a s' /\ same_but ip s s' /\ blocks dev s' [] v' L' r' /\
    let i' := f_inode s' ip in
    reserved v' sb /\ file_ok v' sb i' /\ grows v v' sb i i' /\ a = addr_of v' i' bn /\
    (forall bn', 0 <= bn' < MAXFILE -> bn' <> bn -> addr_of v' i' bn' = addr_of v i bn') /\
    (addr_of v i bn = 0 -> a <> 0 -> (forall x, v' a x = 0) /\ a ∈ L' /\ used v sb a = false) /\
    (a = 0 -> all_used v' sb) /\
    r - need sb L i - (if addr_of v i bn =? 0 then 1 else 0) <= r' - need sb L' i'.

(** The block is there. *)
Lemma bmap_there s v L r ip bn x : let sb := f_sb s in let i := f_inode s ip in
  reserved v sb -> file_ok v sb i -> addr_of v i bn <> 0 -> blocks dev (at_txn x s) [] v L r ->
  bmap_post ip bn s v L r (Ret (addr_of v i bn) (at_txn x s)).
Proof using.
  intros sb i Hr Hf H0 B. exists (addr_of v i bn), (at_txn x s), v, L, r. split; [reflexivity|].
  split; [apply same_but_txn|]. split; [exact B|]. cbv zeta. change (f_inode (at_txn x s) ip) with i. fold sb.
  split; [exact Hr|]. split; [exact Hf|]. split; [apply fgrows_refl|]. split; [reflexivity|]. split; [auto|].
  split; [contradiction|]. split; [contradiction|]. fold i. replace (addr_of v i bn =? 0) with false by lia. lia.
Qed.

(** There is no room for it. *)
Lemma bmap_full s v L r ip bn x m : let sb := f_sb s in let i := f_inode s ip in
  reserved v sb -> file_ok v sb i -> addr_of v i bn = 0 -> all_used v sb -> blocks dev (at_txn x s) [] v L r ->
  bmap_post ip bn s v L r (Ret 0 (say m (at_txn x s))).
Proof using.
  intros sb i Hr Hf H0 Hall B. exists 0, (say m (at_txn x s)), v, L, r. split; [reflexivity|].
  split; [eapply same_but_trans; [apply same_but_txn|apply same_but_say]|]. split; [exact B|]. cbv zeta.
  change (f_inode (say m (at_txn x s)) ip) with i. fold sb.
  split; [exact Hr|]. split; [exact Hf|]. split; [apply fgrows_refl|]. split; [symmetry; exact H0|]. split; [auto|].
  split; [contradiction|]. split; [auto|]. fold i. rewrite H0. simpl. lia.
Qed.

(** It is made from a fresh block [b]. *)
Lemma bmap_fresh s s' v v' L L' r r' ip bn b : let sb := f_sb s in let i := f_inode s ip in let i' := f_inode s' ip in
  sb_ok sb -> reserved v sb -> file_ok v sb i -> addr_of v i bn = 0 -> 0 <= bn < MAXFILE ->
  datastart sb <= b < sb_size sb -> used v sb b = false ->
  same_but ip s s' -> blocks dev s' [] v' L' r' ->
  length (i_addrs i') = length (i_addrs i) -> ind_of i' = ind_of i ->
  (forall c, c < sb_bmapstart sb \/ (datastart sb <= c /\ c <> ind_of i) -> v' c = take_block v sb b c) ->
  (forall c, 0 <= c < sb_size sb -> used v' sb c = (c =? b) || used v sb c) ->
  (forall bn', 0 <= bn' < MAXFILE -> addr_of v' i' bn' = if decide (bn' = bn) then b else addr_of v i bn') ->
  (byte_view v -> byte_view v') -> b ∈ L' -> r - need sb L i - 1 <= r' - need sb L' i' ->
  bmap_post ip bn s v L r (Ret b s').
Proof using.
  intros sb i i' Hs Hr Hf H0 Hbn Hb Hu Hsame B Hlen Hind Hv Hused Ha Hbv HL Hroom.
  pose proof (datastart_pos sb Hs) as Hds. pose proof (take_facts v sb i b Hs Hr Hf Hb Hu) as (F1 & F2 & F3 & F4 & F5 & F6).
  assert (Hno : ~ owned v i b) by (intros Ho; destruct (fk_owned _ _ _ Hf _ Ho); congruence).
  assert (Hbi : b <> ind_of i) by (intros E; apply Hno; rewrite E; apply owned_ind; lia).
  assert (Eb : addr_of v' i' bn = b) by (rewrite Ha, decide_True by auto; reflexivity).
  exists b, s', v', L', r'. split; [reflexivity|]. split; [exact Hsame|]. split; [exact B|]. cbv zeta. fold sb i i'.
  split. { intros c Hc. destruct Hs. rewrite Hused, (Hr c Hc) by lia. apply orb_true_r. }
  split. { eapply (file_ok_fill v v' sb i i' bn b); eauto; [lia|rewrite Hused, Z.eqb_refl by lia; reflexivity|].
           intros c Hc Huc. rewrite Hused, Huc by lia. apply orb_true_r. }
  split. { eapply grows_take; eauto.
           - intros c [Hc|(Hc & _ & Hc')]; apply Hv; auto.
           - rewrite <- Eb. apply owned_addr; [exact Hbn|]. rewrite Eb. lia.
           - intros bn' Hbn' Hn0. rewrite Ha by exact Hbn'. rewrite decide_False by congruence. reflexivity. }
  split; [symmetry; exact Eb|]. split; [intros bn' Hbn' Hne; rewrite Ha, decide_False by auto; reflexivity|].
  split; [intros _ _; split; [intros x; rewrite Hv by (right; lia); apply F5|auto]|]. split; [lia|].
  rewrite H0. exact Hroom.
Qed.

Lemma need_after sb L i b : need sb (b :: sb_bmapstart sb :: L) i <= (if ind_of i =? 0 then 1 else cost L (ind_of i)).
Proof using.
  unfold need. rewrite !cost_cons. rewrite (decide_True (P := sb_bmapstart sb = sb_bmapstart sb)) by reflexivity.
  pose proof (cost_bound L (ind_of i)). repeat case_decide; case_test; lia.
Qed.

Lemma held_nil v sb : held_ok v sb [].
Proof using. intros b Hb. apply elem_of_nil in Hb. contradiction. Qed.

Lemma bmap_direct s v L r ip bn : let sb := f_sb s in let i := f_inode s ip in
  sb_ok sb -> one_bitmap sb -> reserved v sb -> file_ok v sb i -> i_dev i = dev ->
  0 <= bn < NDIRECT -> need sb L i + 1 <= r -> blocks dev s [] v L r ->
  bmap_post ip bn s v L r (bmap ip bn s).
Proof using TL.
  intros sb i Hs Ho Hr Hf Hd Hbn Hroom B. pose proof (datastart_pos sb Hs) as Hds.
  assert (HM : 0 <= bn < MAXFILE) by (unfold MAXFILE, NINDIRECT, BSIZE, NDIRECT in *; dlia).
  unfold bmap, get_inode. rewrite bind_gets. fold i. replace (bn <? NDIRECT) with true by lia.
  assert (Ea : addr_of v i bn = nth (Z.to_nat bn) (i_addrs i) 0) by (unfold addr_of; replace (bn <? NDIRECT) with true by lia; reflexivity).
  rewrite <- Ea. destruct (Z.eqb_spec (addr_of v i bn) 0) as [E0|E0].
  2: { replace s with (at_txn (f_txn s) s) at 2 by (destruct s; reflexivity). apply bmap_there; auto. }
  rewrite Hd. assert (Hc : cost L (sb_bmapstart sb) + 1 <= r).
  { unfold need in *. pose proof (cost_bound L (ind_of i)). destruct (ind_of i =? 0); lia. }
  destruct (balloc1 s [] v L r Hs Ho Hr (held_nil _ _) ltac:(simpl; unfold HELDMAX; lia) Hc B)
    as [(b & x & E & Hb & Hu & B1)|(Hall & x & E & B1)]; step.
  2: { apply bmap_full; auto. }
  fold sb in Hb, Hu, B1.
  replace (b =? 0) with false by lia. rewrite bind_modify. unfold ret.
  pose proof (fk_len _ _ _ Hf) as Hlen. pose proof (take_facts v sb i b Hs Hr Hf Hb Hu) as (F1 & F2 & F3 & F4 & F5 & F6).
  set (s' := set_inode ip (with_addr bn b) (at_txn x s)).
  assert (Ei : f_inode s' ip = with_addr bn b i) by (simpl; apply upd_eq).
  assert (Eind : ind_of (with_addr bn b i) = ind_of i) by (apply ind_direct; [exact Hlen|exact Hbn]).
  eapply (bmap_fresh s s' v (take_block v sb b) L _ r _ ip bn b); eauto; rewrite ?Ei; auto.
  - eapply same_but_trans; [apply same_but_txn|apply same_but_addr].
  - simpl. apply length_insert.
  - intros bn' Hbn'. rewrite addr_direct by (assumption || lia). rewrite F4. reflexivity.
  - apply byte_take.
  - left.
  - pose proof (need_after sb L (with_addr bn b i) b). rewrite Eind in *. unfold need at 1. fold sb i. lia.
Qed.

(** First the indirect block... *)
Definition get_indirect (ip addr : Z) (x : inode) : M (fs T U) Z :=
  if addr =? 0 then
    let! addr := balloc (i_dev x) in
    if addr =? 0 then ret 0
    else modify (set_inode ip (with_addr NDIRECT addr)) ;; ret addr
  else ret addr.

Lemma get_indirect_ok s v L r ip : let sb := f_sb s in let i := f_inode s ip in
  sb_ok sb -> one_bitmap sb -> reserved v sb -> file_ok v sb i -> i_dev i = dev ->
  need sb L i + 1 <= r -> blocks dev s [] v L r ->
  (exists s1 v1 L1 r1, let i1 := f_inode s1 ip in get_indirect ip (ind_of i) i s = Ret (ind_of i1) s1 /\ ind_of i1 <> 0 /\
     same_but ip s s1 /\ blocks dev s1 [] v1 L1 r1 /\ reserved v1 sb /\ file_ok v1 sb i1 /\ grows v v1 sb i i1 /\
     (forall bn, 0 <= bn < MAXFILE -> addr_of v1 i1 bn = addr_of v i bn) /\ r - need sb L i <= r1 - need sb L1 i1) \/
  (exists m x, get_indirect ip (ind_of i) i s = Ret 0 (say m (at_txn x s)) /\ ind_of i = 0 /\ all_used v sb /\
     blocks dev (at_txn x s) [] v L r).
Proof using TL.
  intros sb i Hs Ho Hr Hf Hd Hroom B. pose proof (datastart_pos sb Hs) as Hds. unfold get_indirect.
  destruct (Z.eqb_spec (ind_of i) 0) as [E0|E0].
  2: { left. exists s, v, L, r. cbv zeta. fold i. repeat apply conj; auto using same_but_refl, fgrows_refl. lia. }
  rewrite Hd. assert (Hc : cost L (sb_bmapstart sb) + 1 <= r) by (unfold need in *; rewrite E0 in *; simpl in *; lia).
  destruct (balloc1 s [] v L r Hs Ho Hr (held_nil _ _) ltac:(simpl; unfold HELDMAX; lia) Hc B)
    as [(b & x & E & Hb & Hu & B1)|(Hall & x & E & B1)]; step.
  2: { right. exists out_of_blocks, x. auto. }
  fold sb in Hb, Hu, B1. left. replace (b =? 0) with false by lia. rewrite bind_modify. unfold ret.
  pose proof (fk_len _ _ _ Hf) as Hlen. pose proof (take_facts v sb i b Hs Hr Hf Hb Hu) as (F1 & F2 & F3 & F4 & F5 & F6).
  set (s' := set_inode ip (with_addr NDIRECT b) (at_txn x s)).
  assert (Ei : f_inode s' ip = with_addr NDIRECT b i) by (simpl; apply upd_eq).
  assert (Eind : ind_of (with_addr NDIRECT b i) = b) by (apply ind_indirect; exact Hlen).
  assert (Ha : forall bn, 0 <= bn < MAXFILE -> addr_of (take_block v sb b) (with_addr NDIRECT b i) bn = addr_of v i bn).
  { intros bn Hbn. rewrite addr_indirect by auto. apply F4. }
  exists s', (take_block v sb b), (b :: sb_bmapstart sb :: L), (r - cost L (sb_bmapstart sb) - 1).
  cbv zeta. rewrite Ei, Eind. repeat apply conj; auto; try lia.
  - eapply same_but_trans; [apply same_but_txn|apply same_but_addr].
  - apply file_ok_indirect; auto; [lia|]. rewrite F6, Z.eqb_refl by lia. reflexivity.
  - eapply (grows_take v _ sb i _ b); eauto using byte_take. split; [lia|]. left. auto.
  - unfold need. rewrite Eind, E0, !cost_cons. simpl.
    rewrite (decide_True (P := b = b)), (decide_True (P := sb_bmapstart sb = sb_bmapstart sb)) by reflexivity.
    replace (b =? 0) with false by lia. repeat case_decide; lia.
Qed.

(** ... then its entry. *)
Definition get_entry (addr : Z) (bn : Z) (x : inode) : M (fs T U) Z :=
  let! bp := bread (i_dev x) addr in
  let! d := data bp in
  let addr := load d (4 * bn) 4 in
  let! addr :=
    (if addr =? 0 then
       let! addr := balloc (i_dev x) in
       when (negb (addr =? 0))
         (let! d := data bp in put_data bp (store_le d (4 * bn) 4 addr) ;; log_write bp) ;;
       ret addr
     else ret addr) in
  brelse bp ;;
  ret addr.

Lemma bmap_unfold ip bn s : NDIRECT <= bn -> bn - NDIRECT < NINDIRECT ->
  bmap ip bn s = (let! x := get_inode ip in
                  let! addr := get_indirect ip (ind_of x) x in
                  if addr =? 0 then ret 0 else get_entry addr (bn - NDIRECT) x) s.
Proof using.
  intros H1 H2. unfold bmap, get_inode. rewrite !bind_gets. replace (bn <? NDIRECT) with false by lia.
  replace (bn - NDIRECT <? NINDIRECT) with true by lia. reflexivity.
Qed.

(** Recording the fresh block [b] in the indirect block. *)
Lemma record_entry s v L r ip h bn b x : let sb := f_sb s in let i := f_inode s ip in
  let v1 := take_block v sb b in let ind := ind_of i in
  sb_ok sb -> one_bitmap sb -> reserved v sb -> file_ok v sb i -> ind <> 0 -> NDIRECT <= bn < MAXFILE -> addr_of v i bn = 0 ->
  datastart sb <= b < sb_size sb -> used v sb b = false -> need sb L i + 1 <= r ->
  blocks dev (at_txn x s) [(h, ind)] v1 (b :: sb_bmapstart sb :: L) (r - cost L (sb_bmapstart sb) - 1) ->
  bmap_post ip bn s v L r
    (((let! d := data h in put_data h (store_le d (4 * (bn - NDIRECT)) 4 b) ;; log_write h) ;;
      brelse h ;; ret b) (at_txn x s)).
Proof using TL.
  intros sb i v1 ind Hs Ho Hr Hf Hi Hbn H0 Hb Hu Hroom B. pose proof (datastart_pos sb Hs) as Hds.
  pose proof (take_facts v sb i b Hs Hr Hf Hb Hu) as (F1 & F2 & F3 & F4 & F5 & F6). fold v1 in F1, F2, F3, F4, F5, F6.
  destruct (fk_owned _ _ _ Hf ind (owned_ind v i Hi)) as [Hir Hiu].
  assert (Hb32 : 0 <= b < 2 ^ 32) by (destruct Hs; lia).
  assert (HbnM : 0 <= bn < MAXFILE) by (unfold NDIRECT in *; lia).
  assert (Hbi : b <> ind) by (intros ->; congruence).
  assert (Hcost : cost L (sb_bmapstart sb) + 1 + cost (b :: sb_bmapstart sb :: L) ind <= r /\
                  cost (b :: sb_bmapstart sb :: L) ind = cost L ind).
  { rewrite !cost_cons, !decide_False by lia. unfold need in *. fold ind in Hroom.
    replace (ind =? 0) with false in Hroom by lia. lia. }
  destruct Hcost as [Hcost Ecost].
  assert (E0 : data h (at_txn x s) = Ret (v1 ind) (at_txn x s)).
  { unfold data, gets. rewrite (t_rep_data _ _ h ind (bl_rep _ _ _ _ _ _ _ B)) by left. reflexivity. }
  rewrite (bind_bind _ _ _ _ _ _ E0).
  destruct (poke dev _ h ind [] v1 _ _ (store_le (v1 ind) (4 * (bn - NDIRECT)) 4 b) B (not_elem_of_nil _)) as (x1 & x2 & E1 & E2 & _ & B2);
    [pose proof (inode_bmap sb Hs); simpl; fold sb; lia|lia|].
  destruct (unpeek dev _ h ind [] _ _ _ B2 (not_elem_of_nil _)) as (x3 & E3 & B3).
  rewrite (bind_bind _ _ _ _ _ _ E1). do 2 step. unfold ret.
  eapply (bmap_fresh s (at_txn x3 s) v _ L _ r _ ip bn b); eauto; fold sb i; try lia.
  - apply same_but_txn.
  - fold ind. intros c Hc. apply upd_ne. destruct Hc; lia.
  - intros c Hc. rewrite used_upd by (auto; lia). apply F6. exact Hc.
  - intros bn' Hbn'. change (f_inode (at_txn x3 s) ip) with i. fold ind. unfold ind. rewrite addr_entry by auto. rewrite F4. reflexivity.
  - intros Hbv. apply byte_upd; [apply byte_take; exact Hbv|]. apply store_le_byte_mem, byte_take. exact Hbv.
  - right. left.
  - change (f_inode (at_txn x3 s) ip) with i. unfold need. fold ind. rewrite Ecost. replace (ind =? 0) with false by lia.
    rewrite (cost_cons _ ind ind), decide_True by reflexivity. rewrite !cost_cons.
    rewrite (decide_True (P := sb_bmapstart sb = sb_bmapstart sb)) by reflexivity. repeat case_decide; lia.
Qed.

Lemma get_entry_ok s v L r ip bn x0 : let sb := f_sb s in let i := f_inode s ip in
  sb_ok sb -> one_bitmap sb -> reserved v sb -> file_ok v sb i -> i_dev x0 = dev -> ind_of i <> 0 ->
  NDIRECT <= bn < MAXFILE -> need sb L i + 1 <= r -> blocks dev s [] v L r ->
  bmap_post ip bn s v L r (get_entry (ind_of i) (bn - NDIRECT) x0 s).
Proof using TL.
  intros sb i Hs Ho Hr Hf Hd Hi Hbn Hroom B. pose proof (datastart_pos sb Hs) as Hds.
  destruct (fk_owned _ _ _ Hf (ind_of i) (owned_ind v i Hi)) as [Hir Hiu].
  unfold get_entry. rewrite Hd.
  destruct (peek dev s [] v L r (ind_of i) B (not_elem_of_nil _) ltac:(simpl; unfold HELDMAX; lia)) as (h & x & E & D & B1). step.
  unfold data at 1. rewrite bind_gets. change (f_txn (at_txn x s)) with x. rewrite D.
  assert (Ea : load (v (ind_of i)) (4 * (bn - NDIRECT)) 4 = addr_of v i bn).
  { unfold addr_of. replace (bn <? NDIRECT) with false by lia. replace (ind_of i =? 0) with false by lia. reflexivity. }
  rewrite Ea. destruct (Z.eqb_spec (addr_of v i bn) 0) as [E0|E0].
  2: { rewrite (bind_ret_l (ret _) _ _ (addr_of v i bn) (at_txn x s)) by reflexivity.
       destruct (unpeek dev _ h _ [] _ _ _ B1 (not_elem_of_nil _)) as (x3 & E3 & B3). step.
       apply (bmap_there s v L r ip bn x3); auto. }
  assert (Hc : cost L (sb_bmapstart sb) + 1 <= r).
  { unfold need in *. pose proof (cost_bound L (ind_of i)). destruct (ind_of i =? 0); lia. }
  assert (Hh : held_ok v sb [(h, ind_of i)]).
  { intros c Hc'. apply list_elem_of_singleton in Hc' as ->. auto. }
  destruct (balloc1 (at_txn x s) [(h, ind_of i)] v L r Hs Ho Hr Hh ltac:(simpl; unfold HELDMAX; lia) Hc B1)
    as [(b & x1 & E1 & Hb & Hu & B2)|(Hall & x1 & E1 & B2)].
  - change (f_sb (at_txn x s)) with sb in Hb, Hu, B2. change (at_txn x1 (at_txn x s)) with (at_txn x1 s) in E1, B2.
    pose proof (record_entry s v L r ip h bn b x1 Hs Ho Hr Hf Hi Hbn E0 Hb Hu Hroom B2) as P.
    rewrite (bind_bind _ _ _ _ _ _ E1). replace (negb (b =? 0)) with true by lia. cbn [when].
    unfold bind at 1 in P. unfold bind at 1 2. destruct ((let! d := data h in _) (at_txn x1 s)) as [[] s2| | |];
      [exact P|destruct P as (? & ? & ? & ? & ? & P & _); discriminate ..].
  - rewrite (bind_bind _ _ _ _ _ _ E1). cbn [negb Z.eqb when].
    change (at_txn x1 (at_txn x s)) with (at_txn x1 s) in B2 |- *.
    destruct (unpeek dev _ h _ [] _ _ _ B2 (not_elem_of_nil _)) as (x3 & E3 & B3).
    assert (E4 : brelse h (say out_of_blocks (at_txn x1 s)) = Ret tt (say out_of_blocks (at_txn x3 s))).
    { unfold brelse, zoom in E3 |- *. simpl view in E3 |- *. destruct (t_brelse h x1) as [[] x4| | |]; simpl in E3 |- *; try discriminate.
      injection E3 as ->. reflexivity. }
    rewrite (bind_bind _ _ _ _ tt (say out_of_blocks (at_txn x1 s))) by reflexivity.
    rewrite (bind_ret_l _ _ _ 0 (say out_of_blocks (at_txn x1 s))) by reflexivity.
    rewrite (bind_ret_l _ _ _ _ _ E4). apply (bmap_full s v L r ip bn x3); auto.
Qed.

Lemma bmap_ok s v L r ip bn : let sb := f_sb s in let i := f_inode s ip in
  sb_ok sb -> one_bitmap sb -> reserved v sb -> file_ok v sb i -> i_dev i = dev ->
  0 <= bn < MAXFILE -> need sb L i + 1 <= r -> blocks dev s [] v L r ->
  bmap_post ip bn s v L r (bmap ip bn s).
Proof using TL.
  intros sb i Hs Ho Hr Hf Hd Hbn Hroom B. destruct (decide (bn < NDIRECT)); [apply bmap_direct; auto; lia|].
  rewrite bmap_unfold by (unfold MAXFILE in *; lia). unfold get_inode. rewrite bind_gets. fold i.
  destruct (get_indirect_ok s v L r ip Hs Ho Hr Hf Hd Hroom B)
    as [(s1 & v1 & L1 & r1 & E & Hi & Hsame & B1 & Hr1 & Hf1 & G & Ha & Hroom1)|(m & x & E & Hi & Hall & B1)];
    fold i in E; step.
  2: { apply bmap_full; auto. fold i. unfold addr_of. replace (bn <? NDIRECT) with false by lia.
       fold i in Hi. rewrite Hi. reflexivity. }
  fold sb i in Hr1, Hf1, G, Ha, Hroom1. replace (ind_of (f_inode s1 ip) =? 0) with false by lia.
  pose proof (sf_sb _ _ _ Hsame) as Esb. fold sb in Esb.
  pose proof (get_entry_ok s1 v1 L1 r1 ip bn i) as P. cbv zeta in P. rewrite Esb in P.
  destruct P as (a & s' & v' & L' & r' & E' & Hsame' & B' & P1 & P2 & P3 & P4 & P5 & P6 & P7 & P8); auto; try lia.
  rewrite Esb in *. exists a, s', v', L', r'. rewrite E'. split; [reflexivity|].
  split; [eapply same_but_trans; eauto|]. split; [exact B'|]. cbv zeta. fold sb i. rewrite Ha in P6, P8 by exact Hbn.
  repeat apply conj; auto; [eapply fgrows_trans; eauto| | |lia].
  - intros bn' Hbn' Hne. rewrite P5 by auto. auto.
  - intros E0 Ea. destruct (P6 E0 Ea) as (Q1 & Q2 & Q3). split; [exact Q1|]. split; [exact Q2|].
    destruct (used v sb a) eqn:Eu; [|reflexivity].
    assert (Ha' : 0 <= a < sb_size sb).
    { pose proof (datastart_pos sb Hs). assert (Ho' : owned v' (f_inode s' ip) a) by (rewrite P4; apply owned_addr; congruence).
      destruct (fk_owned _ _ _ P2 _ Ho'). lia. }
    rewrite (g_used _ _ _ _ _ G a Ha' Eu) in Q3. discriminate.
Qed.

(** ** [iupdate] *)

Definition inode_in (sb : superblock) (inum : Z) : Prop := 0 <= inum < sb_ninodes sb.

Lemma IBLOCK_eq sb inum : sb_ok sb -> inode_in sb inum ->
  IBLOCK inum sb = inum / IPB + sb_inodestart sb /\ 0 < IBLOCK inum sb < sb_bmapstart sb /\ sb_inodestart sb <= IBLOCK inum sb.
Proof using.
  intros [H1 H2 H3 H4 H5] Hi. unfold inode_in in Hi.
  assert (E : IBLOCK inum sb = inum / IPB + sb_inodestart sb) by (unfold IBLOCK; apply u32_small; geom).
  rewrite E. split; [reflexivity|]. split; geom.
Qed.

(** The blocks after inode [i] has been written. *)
Definition write_inode (v : Z -> block) (sb : superblock) (i : inode) : Z -> block :=
  let ib := IBLOCK (i_inum i) sb in upd v ib (put_inode (v ib) (dinode_off (i_inum i)) i).

Lemma iupdate_ok s v L r ip : let sb := f_sb s in let i := f_inode s ip in let ib := IBLOCK (i_inum i) sb in
  i_dev i = dev -> sb_inodestart sb <= ib -> cost L ib <= r -> blocks dev s [] v L r ->
  exists x, iupdate ip s = Ret tt (at_txn x s) /\ blocks dev (at_txn x s) [] (write_inode v sb i) (ib :: L) (r - cost L ib).
Proof using TL.
  intros sb i ib Hd Hin Hc B.
  destruct (edit dev s [] v L r ib B (not_elem_of_nil _) ltac:(simpl; unfold HELDMAX; lia) Hin Hc) as (h & x & E & D & K).
  destruct (K (put_inode (v ib) (dinode_off (i_inum i)) i)) as (x1 & x2 & x3 & E1 & E2 & E3 & B3).
  exists x3. split; [|exact B3]. unfold iupdate, the_sb, get_inode. rewrite !bind_gets. fold sb i. rewrite Hd. fold ib.
  step. unfold data. rewrite bind_gets. change (f_txn (at_txn x s)) with x. rewrite D.
  change (put_dinode _ _ _ _ _ _ _ _) with (put_inode (v ib) (dinode_off (i_inum i)) i). do 2 step. exact E3.
Qed.

(** Writing an inode changes no file and no bit of the bitmap. *)
Lemma write_inode_other v sb i b : sb_ok sb -> inode_in sb (i_inum i) -> b <= 0 \/ sb_bmapstart sb <= b -> write_inode v sb i b = v b.
Proof using. intros Hs Hi Hb. destruct (IBLOCK_eq sb (i_inum i) Hs Hi) as [_ Hr]. apply upd_ne. lia. Qed.

Lemma write_inode_used v sb i b : sb_ok sb -> inode_in sb (i_inum i) -> 0 <= b < sb_size sb ->
  used (write_inode v sb i) sb b = used v sb b.
Proof using. intros Hs Hi Hb. destruct (IBLOCK_eq sb (i_inum i) Hs Hi) as [_ Hr]. apply used_upd_inode; auto. lia. Qed.

Lemma write_inode_file v sb i i' : sb_ok sb -> inode_in sb (i_inum i) -> file_ok v sb i' ->
  file_ok (write_inode v sb i) sb i' /\ (forall bn, addr_of (write_inode v sb i) i' bn = addr_of v i' bn).
Proof using.
  intros Hs Hi Hf. pose proof (datastart_pos sb Hs).
  assert (He : ind_of i' <> 0 -> write_inode v sb i (ind_of i') = v (ind_of i')).
  { intros E. apply write_inode_other; auto. destruct (fk_owned _ _ _ Hf _ (owned_ind v i' E)). lia. }
  split; [|intros; apply addr_of_ext; exact He].
  apply (file_ok_ext v); auto. intros b Hb Hu. rewrite write_inode_used by (auto; lia). exact Hu.
Qed.
End Bmap.
