(* ===== verification/FsData.v ===== *)
(** * File contents

    [readi] and [writei]: a file is a sequence of bytes.  Reading gives the
    bytes, writing replaces them, and neither depends on how the file is cut
    into blocks; other files are not touched.  The bytes go to and come from
    user memory or a local variable. *)

From S2P Require Import Prelude Sleeplock Block Log Txn UserMem Fs FsBlocks FsInode.

Definition byte_at (v : Z -> block) (i : inode) (off : Z) : Z := v (addr_of v i (off / BSIZE)) (off mod BSIZE).
Definition contents (v : Z -> block) (i : inode) (off n : Z) : list Z := (fun k => byte_at v i (off + k)) <$> seqZ 0 n.

Lemma contents_length v i off n : 0 <= n -> Z.of_nat (length (contents v i off n)) = n.
Proof. intros Hn. unfold contents. rewrite length_fmap, length_seqZ. lia. Qed.

Lemma contents_lookup v i off n k b : contents v i off n !! k = Some b <-> Z.of_nat k < n /\ b = byte_at v i (off + Z.of_nat k).
Proof.
  unfold contents. rewrite list_lookup_fmap. destruct (decide (Z.of_nat k < n)) as [Hk|Hk].
  - rewrite lookup_seqZ_lt by lia. simpl. rewrite Z.add_0_l. split; [intros E; simplify_eq; auto|intros [_ ->]; reflexivity].
  - rewrite lookup_seqZ_ge by lia. simpl. split; [discriminate|lia].
Qed.

Lemma contents_app v i off n m : 0 <= n -> 0 <= m -> contents v i off (n + m) = contents v i off n ++ contents v i (off + n) m.
Proof.
  intros Hn Hm. apply list_eq. intros k. apply option_eq. intros b. rewrite contents_lookup.
  pose proof (contents_length v i off n Hn) as Hl. destruct (decide (Z.of_nat k < n)) as [Hk|Hk].
  - rewrite lookup_app_l, contents_lookup by lia. split; intros [? ?]; split; auto; lia.
  - rewrite lookup_app_r, contents_lookup by lia.
    replace (off + n + Z.of_nat (k - length (contents v i off n))) with (off + Z.of_nat k) by lia.
    split; intros [? ?]; split; auto; lia.
Qed.

(** Within a block. *)
Lemma byte_at_near v i off k : 0 <= off -> 0 <= k -> off mod BSIZE + k < BSIZE ->
  byte_at v i (off + k) = v (addr_of v i (off / BSIZE)) (off mod BSIZE + k).
Proof.
  intros H1 H2 H3. unfold byte_at. replace ((off + k) / BSIZE) with (off / BSIZE) by (unfold BSIZE in *; dlia).
  replace ((off + k) mod BSIZE) with (off mod BSIZE + k) by (unfold BSIZE in *; dlia). reflexivity.
Qed.

Lemma slice_lookup d o m k b : slice d o m !! k = Some b <-> Z.of_nat k < m /\ b = d (o + Z.of_nat k).
Proof.
  unfold slice, read_bytes. rewrite list_lookup_fmap. destruct (decide (Z.of_nat k < m)) as [Hk|Hk].
  - rewrite lookup_seq_lt by lia. simpl. split; [intros E; simplify_eq; auto|intros [_ ->]; reflexivity].
  - rewrite lookup_seq_ge by lia. simpl. split; [discriminate|lia].
Qed.

Lemma slice_length d o m : 0 <= m -> Z.of_nat (length (slice d o m)) = m.
Proof. intros Hm. unfold slice, read_bytes. rewrite length_fmap, length_seq. lia. Qed.

Lemma slice_contents v i off m : 0 <= off -> 0 <= m -> off mod BSIZE + m <= BSIZE ->
  slice (v (addr_of v i (off / BSIZE))) (off mod BSIZE) m = contents v i off m.
Proof.
  intros H1 H2 H3. apply list_eq. intros k. apply option_eq. intros b. rewrite slice_lookup, contents_lookup.
  split; intros [Hk E]; (split; [exact Hk|]); rewrite E, byte_at_near by lia; reflexivity.
Qed.

(** The size of the next piece. *)
Lemma piece_size n tot off : 0 <= tot < n -> 0 <= off ->
  let m := Z.min (n - tot) (BSIZE - off mod BSIZE) in 0 < m <= BSIZE /\ tot + m <= n /\ off mod BSIZE + m <= BSIZE /\
    (tot + m = n \/ (off + m) mod BSIZE = 0).
Proof. intros Ht Ho. unfold BSIZE. dlia. Qed.

(** ** Reading *)

Section Read.
Context {T U : Type} `{TX : Txn T} (dev : Z) `{TL : !TxnLaws T dev} `{UM : UserMem U}.
Implicit Types s : fs T U.

Lemma bmap_exists s v L r ip bn : let i := f_inode s ip in
  i_dev i = dev -> 0 <= bn < MAXFILE -> addr_of v i bn <> 0 -> blocks dev s [] v L r ->
  exists x, bmap ip bn s = Ret (addr_of v i bn) (at_txn x s) /\ blocks dev (at_txn x s) [] v L r.
Proof using.
  intros i Hd Hbn H0 B. destruct (decide (bn < NDIRECT)) as [Hlt|Hge].
  - exists (f_txn s). split; [|exact B]. unfold bmap, get_inode. rewrite bind_gets. fold i.
    unfold addr_of in *. replace (bn <? NDIRECT) with true in * by lia.
    replace (nth (Z.to_nat bn) (i_addrs i) 0 =? 0) with false by lia. destruct s; reflexivity.
  - rewrite bmap_unfold by (unfold MAXFILE in *; lia). unfold get_inode. rewrite bind_gets. fold i.
    unfold addr_of in *. replace (bn <? NDIRECT) with false in * by lia.
    destruct (Z.eqb_spec (ind_of i) 0) as [E|E]; [contradiction|]. unfold get_indirect at 1.
    replace (ind_of i =? 0) with false by lia. rewrite (bind_ret_l _ _ _ (ind_of i) s) by reflexivity.
    replace (ind_of i =? 0) with false by lia. unfold get_entry. rewrite Hd.
    destruct (peek dev s [] v L r (ind_of i) B (not_elem_of_nil _) ltac:(simpl; unfold HELDMAX; lia)) as (h & x & E1 & D & B1). step.
    unfold data. rewrite bind_gets. change (f_txn (at_txn x s)) with x. rewrite D.
    replace (load _ _ _ =? 0) with false by lia.
    rewrite (bind_ret_l _ _ _ (load (v (ind_of i)) (4 * (bn - NDIRECT)) 4) (at_txn x s)) by reflexivity.
    destruct (unpeek dev _ h _ [] _ _ _ B1 (not_elem_of_nil _)) as (x3 & E3 & B3). step. exists x3. split; [reflexivity|exact B3].
Qed.

Definition at_user (u : U) (s : fs T U) : fs T U := set user_of u s.

(** A consumer of bytes: what it has made of the first [k] of them, or that it
    has given up. *)
Definition sink_ok {R} (sink : R -> Z -> list Z -> M (fs T U) (bool * R)) (v : Z -> block) (i : inode) (off dst n : Z)
    (good : Z -> R -> U -> Prop) (bad : R -> U -> Prop) : Prop :=
  forall k m acc s, 0 <= k -> 0 < m <= BSIZE -> k + m <= n -> good k acc (f_user s) ->
    exists ok acc' u', sink acc (u64 (dst + k)) (contents v i (off + k) m) s = Ret (ok, acc') (at_user u' s) /\
      if ok then good (k + m) acc' u' else bad acc' u'.

Lemma u64_step a k m : u64 (u64 (a + k) + m) = u64 (a + (k + m)).
Proof using. wrap_lia. Qed.

Lemma readi_loop_ok {R} (sink : R -> Z -> list Z -> M (fs T U) (bool * R)) v L r ip off dst n good bad :
  forall fuel k acc s, let i := f_inode s ip in
  i_dev i = dev -> 0 <= off -> off + n <= MAXFILE * BSIZE ->
  (forall o, off <= o < off + n -> addr_of v i (o / BSIZE) <> 0) ->
  sink_ok sink v i off dst n good bad ->
  blocks dev s [] v L r -> 0 <= k <= n ->
  1 <= Z.of_nat fuel -> (k < n -> (off + n - 1) / BSIZE - (off + k) / BSIZE + 2 <= Z.of_nat fuel) ->
  good k acc (f_user s) ->
  exists tot acc' u' x, readi_loop sink fuel ip acc (u64 (dst + k)) (off + k) k n s = Ret (tot, acc') (at_user u' (at_txn x s)) /\
    blocks dev (at_txn x s) [] v L r /\ ((tot = n /\ good n acc' u') \/ (tot = -1 /\ bad acc' u')).
Proof using TL.
  induction fuel as [|fuel IH]; intros k acc s i Hd Hoff Hmax Hfill Hsink B Hk Hf1 Hf2 Hgood; [lia|].
  cbn [readi_loop]. destruct (Z.ltb_spec k n) as [Hlt|Hge].
  2: { exists k, acc, (f_user s), (f_txn s). split; [destruct s; reflexivity|]. split; [exact B|]. left.
       replace n with k by lia. auto. }
  pose proof (piece_size n k (off + k) ltac:(lia) ltac:(lia)) as (Hm1 & Hm2 & Hm3 & Hm4).
  set (m := Z.min (n - k) (BSIZE - (off + k) mod BSIZE)) in *.
  assert (Hbn : 0 <= (off + k) / BSIZE < MAXFILE) by (unfold BSIZE in *; dlia).
  assert (Ha : addr_of v i ((off + k) / BSIZE) <> 0) by (apply Hfill; lia).
  destruct (bmap_exists s v L r ip _ Hd Hbn Ha B) as (x & E & B1). step. fold i.
  replace (addr_of v i ((off + k) / BSIZE) =? 0) with false by lia.
  unfold get_inode. rewrite bind_gets. change (f_inode (at_txn x s) ip) with i. rewrite Hd.
  destruct (peek dev _ [] v L r _ B1 (not_elem_of_nil (addr_of v i ((off + k) / BSIZE))) ltac:(simpl; unfold HELDMAX; lia)) as (h & x1 & E1 & D & B2). step.
  unfold data. rewrite bind_gets. change (f_txn (at_txn x1 (at_txn x s))) with x1. rewrite D, slice_contents by lia.
  change (at_txn x1 (at_txn x s)) with (at_txn x1 s) in *.
  destruct (Hsink k m acc (at_txn x1 s) ltac:(lia) Hm1 Hm2 Hgood) as (ok & acc' & u' & E2 & Hok). step. fold m.
  destruct (unpeek dev (at_user u' (at_txn x1 s)) h _ [] v L r B2 (not_elem_of_nil _)) as (x2 & E3 & B3).
  change (at_txn x2 (at_user u' (at_txn x1 s))) with (at_user u' (at_txn x2 s)) in *.
  destruct ok; cbn [negb]; step.
  - rewrite u64_step. replace (u32 (off + k + m)) with (off + (k + m)) by (rewrite u32_small; unfold MAXFILE, NDIRECT, NINDIRECT, BSIZE in *; dlia).
    specialize (Hf2 Hlt). assert (Hf3 : 1 <= Z.of_nat fuel) by (unfold BSIZE in *; dlia).
    assert (Hf4 : k + m < n -> (off + n - 1) / BSIZE - (off + (k + m)) / BSIZE + 2 <= Z.of_nat fuel)
      by (intros Hkm; destruct Hm4 as [Hm4|Hm4]; [lia|]; unfold BSIZE in *; dlia).
    destruct (IH (k + m) acc' (at_user u' (at_txn x2 s))) as (tot & acc2 & u2 & x3 & E4 & B4 & Hres); auto; try lia.
    exists tot, acc2, u2, x3. rewrite E4. auto.
  - exists (-1), acc', u', x2. auto.
Qed.

(** How many bytes a read of [n] at [off] gives. *)
Definition avail (i : inode) (off n : Z) : Z :=
  if (i_size i <? off) || (2 ^ 32 <=? off + n) then 0 else Z.min n (i_size i - off).

(** Every byte of the file has a block. *)
Record has_blocks (v : Z -> block) (i : inode) : Prop := {
  hb_size : 0 <= i_size i <= MAXFILE * BSIZE;
  hb_filled : forall o, 0 <= o < i_size i -> addr_of v i (o / BSIZE) <> 0
}.

Lemma readi_gen_ok {R} (sink : R -> Z -> list Z -> M (fs T U) (bool * R)) v L r ip off dst n acc good bad s :
  let i := f_inode s ip in let n' := avail i off n in
  i_dev i = dev -> 0 <= off < 2 ^ 32 -> 0 <= n < 2 ^ 32 -> 0 <= dst < 2 ^ 64 -> has_blocks v i ->
  sink_ok sink v i off dst n' good bad -> blocks dev s [] v L r -> good 0 acc (f_user s) ->
  exists tot acc' u' x, readi_gen sink ip acc dst off n s = Ret (tot, acc') (at_user u' (at_txn x s)) /\
    blocks dev (at_txn x s) [] v L r /\ ((tot = n' /\ good n' acc' u') \/ (tot = -1 /\ bad acc' u')).
Proof using TL.
  intros i n' Hd Hoff Hn Hdst [Hs1 Hs2] Hsink B Hgood. unfold readi_gen, get_inode. rewrite bind_gets. fold i.
  assert (Eb : (u32 (off + n) <? off) = (2 ^ 32 <=? off + n)) by (apply eq_iff_eq_true; rewrite Z.ltb_lt, Z.leb_le; wrap_lia).
  rewrite Eb. unfold avail in n'. destruct ((i_size i <? off) || (2 ^ 32 <=? off + n)) eqn:Et.
  { exists 0, acc, (f_user s), (f_txn s). split; [destruct s; reflexivity|]. split; [exact B|]. left. auto. }
  b2p. replace (if i_size i <? off + n then i_size i - off else n) with n' by (unfold n'; case_test; b2p; lia).
  assert (Hn' : 0 <= n' <= n) by (unfold n'; lia).
  pose proof (readi_loop_ok sink v L r ip off dst n' good bad (Z.to_nat (n' / BSIZE + 3)) 0 acc s) as P.
  rewrite !Z.add_0_r, u64_small in P by exact Hdst.
  apply P; auto; fold i; try lia; try (unfold BSIZE in *; dlia).
  intros o Ho. apply Hs2. lia.
Qed.

(** Reading into a local variable gives the bytes of the file. *)
Lemma readi_local_ok v L r ip off n s : let i := f_inode s ip in let n' := avail i off n in
  i_dev i = dev -> 0 <= off < 2 ^ 32 -> 0 <= n < 2 ^ 32 -> has_blocks v i -> blocks dev s [] v L r ->
  exists x, readi_local ip off n s = Ret (n', contents v i off n') (at_txn x s) /\ blocks dev (at_txn x s) [] v L r.
Proof using TL.
  intros i n' Hd Hoff Hn Hb B.
  pose proof (readi_gen_ok local_sink v L r ip off 0 n [] (fun k acc u => acc = contents v i off k /\ u = f_user s)
                (fun _ _ => False) s) as P.
  destruct P as (tot & acc & u & x & E & B1 & [[-> [-> ->]]|[_ []]]); auto; try lia.
  - intros k m acc s1 Hk Hm Hkm [-> Hu]. exists true, (contents v i off k ++ contents v i (off + k) m), (f_user s1).
    fold i. split; [unfold local_sink, ret; destruct s1; reflexivity|]. split; [|congruence]. rewrite contents_app by lia. reflexivity.
  - exists x. split; [|exact B1]. unfold readi_local. fold i n' in E. rewrite E. destruct s; reflexivity.
Qed.

Context `{UL : !UserMemLaws U}.

(** Reading into user memory. *)
Record read_good (u0 : U) (v : Z -> block) (i : inode) (off dst n k : Z) (u : U) : Prop := {
  rg_inv : um_inv u;
  rg_out : forall a b, a < dst \/ dst + n <= a -> um_mem u0 a = Some b -> um_mem u a = Some b;
  rg_in : forall j, 0 <= j < k -> um_mem u (dst + j) = Some (byte_at v i (off + j));
  rg_can : forall a, um_can_write u0 a -> um_can_write u a
}.
Definition read_bad (u0 : U) (dst n : Z) (u : U) : Prop :=
  um_inv u /\ (forall a b, a < dst \/ dst + n <= a -> um_mem u0 a = Some b -> um_mem u a = Some b) /\
  ~ (forall a, dst <= a < dst + n -> um_can_write u0 a).

Lemma user_sink_ok v i off dst n (u0 : U) : byte_view v -> BSIZE <= um_max -> 0 <= dst -> dst + n <= 2 ^ 64 ->
  sink_ok (user_sink true) v i off dst n (fun k _ u => read_good u0 v i off dst n k u) (fun _ u => read_bad u0 dst n u).
Proof using UL.
  intros Hv Hmax Hdst Hend k m acc s Hk Hm Hkm [G1 G2 G3 G4]. rewrite u64_small by lia.
  pose proof (contents_length v i (off + k) m ltac:(lia)) as Hl.
  destruct (um_out (f_user s) (dst + k) (contents v i (off + k) m)) as (ok & u' & E & I & Hframe & _ & Hcan & Htrue & Hin); auto; try lia.
  { apply Forall_lookup. intros j b Hj. apply contents_lookup in Hj as [_ ->]. apply Hv. }
  exists ok, tt, u'. split; [unfold user_sink; rewrite (bind_ret_l _ _ _ ok (at_user u' s)); [reflexivity|apply zoom_ret; exact E]|].
  destruct ok; [split|split; [|split]]; auto.
  - intros a b Ha Hb. apply Hframe; [lia|]. auto.
  - intros j Hj. destruct (decide (j < k)) as [Hjk|Hjk].
    + apply Hframe; [lia|]. apply G3. lia.
    + replace (dst + j) with (dst + k + Z.of_nat (Z.to_nat (j - k))) by lia. apply Hin; [reflexivity|].
      apply contents_lookup. split; [lia|]. f_equal. lia.
  - intros a b Ha Hb. apply Hframe; [lia|]. auto.
  - intros Hall. assert (false = true) as [=]. apply Htrue. intros a Ha. apply G4, Hall. lia.
Qed.
End Read.

(** ** Writing *)

(** How the blocks change while file [i] is written: no block of another file is
    touched, and the file only gets blocks that were free. *)
Record extends (v v' : Z -> block) (sb : superblock) (i i' : inode) : Prop := {
  e_low : forall b, b < sb_bmapstart sb -> v' b = v b;
  e_other : forall b, datastart sb <= b < sb_size sb -> used v sb b = true -> ~ owned v i b -> v' b = v b;
  e_used : forall b, 0 <= b < sb_size sb -> used v sb b = true -> used v' sb b = true;
  e_new : forall b, 0 <= b < sb_size sb -> used v' sb b = true -> used v sb b = true \/ owned v' i' b;
  e_fresh : forall b, owned v' i' b -> owned v i b \/ used v sb b = false;
  e_old : forall b, owned v i b -> owned v' i' b;
  e_addr : forall bn, 0 <= bn < MAXFILE -> addr_of v i bn <> 0 -> addr_of v' i' bn = addr_of v i bn
}.

Lemma extends_refl v sb i : extends v v sb i i.
Proof. split; auto. Qed.

Lemma extends_trans v1 v2 v3 sb i1 i2 i3 : sb_ok sb -> file_ok v3 sb i3 ->
  extends v1 v2 sb i1 i2 -> extends v2 v3 sb i2 i3 -> extends v1 v3 sb i1 i3.
Proof.
  intros Hs Hf A B. pose proof (datastart_pos sb Hs).
  destruct A as [A1 A2 A3 A4 A5 A6 A7], B as [B1 B2 B3 B4 B5 B6 B7]. split; auto.
  - intros b Hb. rewrite B1, A1 by exact Hb. reflexivity.
  - intros b Hb Hu Hno. rewrite B2; auto; [apply A3; [lia|exact Hu]|]. intros Ho.
    apply A5 in Ho as [Ho|Ho]; [contradiction|congruence].
  - intros b Hb Hu. apply B4 in Hu as [Hu|Hu]; auto. apply A4 in Hu as [Hu|Hu]; auto.
  - intros b Ho. destruct (fk_owned _ _ _ Hf b Ho) as [Hb _]. apply B5 in Ho as [Ho|Ho]; auto.
    right. destruct (used v1 sb b) eqn:E; auto. rewrite A3 in Ho by (auto; lia). discriminate.
  - intros bn Hbn H0. rewrite B7, A7; auto. rewrite A7; auto.
Qed.

(** A step of [bmap] is such a change. *)
Lemma grows_extends v v' sb i i' bn a : sb_ok sb -> file_ok v sb i -> grows v v' sb i i' -> 0 <= bn < MAXFILE ->
  a = addr_of v' i' bn -> (addr_of v i bn = 0 -> a <> 0 -> used v sb a = false) ->
  (forall bn', 0 <= bn' < MAXFILE -> bn' <> bn -> addr_of v' i' bn' = addr_of v i bn') -> extends v v' sb i i'.
Proof.
  intros Hs Hf G Hbn Ha Hfresh Hoth. pose proof (fun b => grows_owned _ _ _ _ _ b G) as Hold.
  destruct G as [G1 G2 G3 G4 G5 G6 G7]. split; auto.
  - intros b Hb Hu Hno. apply G2; auto. intros ->. apply Hno, owned_ind. pose proof (datastart_pos sb Hs). lia.
  - intros b [H0 [Hb|(bn' & Hbn' & Hb)]].
    + destruct G5 as [E|(E & _ & Hu)]; [left|right; congruence]. split; [exact H0|]. left. congruence.
    + destruct (decide (bn' = bn)) as [->|Hne].
      * destruct (decide (addr_of v i bn = 0)) as [E|E]; [right; rewrite <- Hb, <- Ha; apply Hfresh; congruence|].
        left. split; [exact H0|]. right. exists bn. split; [exact Hbn|]. rewrite <- Hb, G6 by assumption. reflexivity.
      * left. split; [exact H0|]. right. exists bn'. split; [exact Hbn'|]. rewrite <- Hb, Hoth by assumption. reflexivity.
Qed.

(** Bytes that were there before are not changed by [bmap]. *)
Lemma grows_byte v v' sb i i' o : file_ok v sb i -> grows v v' sb i i' -> 0 <= o < MAXFILE * BSIZE ->
  addr_of v i (o / BSIZE) <> 0 -> byte_at v' i' o = byte_at v i o.
Proof.
  intros Hf G Ho Ha. assert (Hbn : 0 <= o / BSIZE < MAXFILE) by (unfold BSIZE in *; dlia).
  unfold byte_at. rewrite (g_addr _ _ _ _ _ G) by assumption.
  destruct (fk_owned _ _ _ Hf _ (owned_addr v i _ Hbn Ha)) as [Hr Hu].
  rewrite (g_data _ _ _ _ _ G); auto. destruct (decide (ind_of i = 0)) as [E|E]; [rewrite E; exact Ha|].
  apply (fk_ind _ _ _ Hf); assumption.
Qed.

(** Replacing bytes inside data block [bn]. *)
Lemma splice_lookup d o bs x : splice d o bs x =
  if decide (o <= x < o + Z.of_nat (length bs)) then nth (Z.to_nat (x - o)) bs 0 else d x.
Proof.
  unfold splice. case_decide as E.
  - replace x with (o + Z.of_nat (Z.to_nat (x - o))) at 1 by lia. apply write_bytes_lookup.
    rewrite nth_lookup. destruct (bs !! Z.to_nat (x - o)) eqn:El; [reflexivity|].
    apply lookup_ge_None in El. lia.
  - apply write_bytes_outside. lia.
Qed.

Lemma file_ok_splice v sb i bn d : sb_ok sb -> file_ok v sb i -> 0 <= bn < MAXFILE -> addr_of v i bn <> 0 ->
  let v' := upd v (addr_of v i bn) d in
  file_ok v' sb i /\ (forall bn', addr_of v' i bn' = addr_of v i bn') /\ extends v v' sb i i.
Proof.
  intros Hs Hf Hbn Ha v'. destruct (fk_owned _ _ _ Hf _ (owned_addr v i _ Hbn Ha)) as [Hr Hu].
  pose proof (datastart_pos sb Hs).
  assert (Hi : ind_of i <> 0 -> v' (ind_of i) = v (ind_of i)).
  { intros E. apply upd_ne. intros E'. exact (fk_ind _ _ _ Hf E bn Hbn (eq_sym E')). }
  assert (Hu' : forall b, 0 <= b < sb_size sb -> used v' sb b = used v sb b).
  { intros b Hb. apply used_upd; auto. lia. }
  assert (Ha' : forall bn', addr_of v' i bn' = addr_of v i bn') by (intros; apply addr_of_ext; exact Hi).
  split; [apply (file_ok_ext v); auto; intros; rewrite Hu' by lia; auto|]. split; [exact Ha'|]. split; auto.
  - intros b Hb. apply upd_ne. lia.
  - intros b Hb Hub Hno. apply upd_ne. intros ->. apply Hno, owned_addr; assumption.
  - intros b Hb Hub. rewrite Hu'; assumption.
  - intros b Hb Hub. rewrite Hu' in Hub by assumption. auto.
  - intros b Ho. left. apply (owned_ext v v'); auto.
  - intros b Ho. apply (owned_ext v v'); auto.
Qed.

Lemma byte_splice v sb i off new o : file_ok v sb i -> 0 <= off < MAXFILE * BSIZE -> 0 <= o < MAXFILE * BSIZE ->
  (forall bn', addr_of (upd v (addr_of v i (off / BSIZE)) (splice (v (addr_of v i (off / BSIZE))) (off mod BSIZE) new)) i bn' = addr_of v i bn') ->
  addr_of v i (off / BSIZE) <> 0 -> off mod BSIZE + Z.of_nat (length new) <= BSIZE ->
  byte_at (upd v (addr_of v i (off / BSIZE)) (splice (v (addr_of v i (off / BSIZE))) (off mod BSIZE) new)) i o =
    if decide (off <= o < off + Z.of_nat (length new)) then nth (Z.to_nat (o - off)) new 0 else byte_at v i o.
Proof.
  intros Hf Hoff Ho Haddr Ha Hlen. unfold byte_at at 1. rewrite Haddr. unfold upd at 1.
  destruct (Z.eqb_spec (addr_of v i (o / BSIZE)) (addr_of v i (off / BSIZE))) as [E|E].
  - assert (Eb : o / BSIZE = off / BSIZE).
    { apply (fk_inj _ _ _ Hf); auto; [unfold BSIZE in *; dlia ..|congruence]. }
    rewrite splice_lookup. assert (Hiff : off mod BSIZE <= o mod BSIZE < off mod BSIZE + Z.of_nat (length new) <->
      off <= o < off + Z.of_nat (length new)) by (unfold BSIZE in *; dlia).
    case_decide as D; [rewrite decide_True by tauto|rewrite decide_False by tauto].
    + f_equal. f_equal. unfold BSIZE in *. dlia.
    + unfold byte_at. rewrite Eb. reflexivity.
  - rewrite decide_False; [reflexivity|]. intros D. apply E. f_equal. unfold BSIZE in *. dlia.
Qed.

Section Write.
Context {T U : Type} `{TX : Txn T} (dev : Z) `{TL : !TxnLaws T dev} `{UM : UserMem U}.
Implicit Types s : fs T U.

(** A producer of bytes: [good k w u] says that the first [k] bytes are [w]. *)
Definition src_ok (src : Z -> list Z -> M (fs T U) (bool * list Z)) (a n : Z) (good : Z -> list Z -> U -> Prop) : Prop :=
  forall k m old w s, 0 <= k -> 0 < m <= BSIZE -> k + m <= n -> Z.of_nat (length old) = m -> bytes old ->
    good k w (f_user s) ->
    exists new u', src (u64 (a + k)) old s = Ret (true, new) (at_user u' s) /\ length new = length old /\ bytes new /\
      good (k + m) (w ++ new) u'.

(** After [k] bytes. *)
Record written (ip : Z) (s0 s : fs T U) (v0 v : Z -> block) (L : list Z) (r off k : Z) (w : list Z) : Prop := {
  w_same : same_but ip (at_user (f_user s) s0) s;
  w_blocks : blocks dev s [] v L r;
  w_reserved : reserved v (f_sb s0);
  w_file : file_ok v (f_sb s0) (f_inode s ip);
  w_ext : extends v0 v (f_sb s0) (f_inode s0 ip) (f_inode s ip);
  w_len : Z.of_nat (length w) = k;
  w_there : forall o, off <= o < off + k -> addr_of v (f_inode s ip) (o / BSIZE) <> 0;
  w_new : forall j, 0 <= j < k -> byte_at v (f_inode s ip) (off + j) = nth (Z.to_nat j) w 0;
  w_old : forall o, 0 <= o < MAXFILE * BSIZE -> ~ (off <= o < off + k) ->
    addr_of v0 (f_inode s0 ip) (o / BSIZE) <> 0 -> byte_at v (f_inode s ip) o = byte_at v0 (f_inode s0 ip) o;
  w_byte : byte_view v
}.

Lemma written_sb ip s0 s v0 v L r off k w : written ip s0 s v0 v L r off k w -> f_sb s = f_sb s0.
Proof using. intros W. exact (sf_sb _ _ _ (w_same _ _ _ _ _ _ _ _ _ _ W)). Qed.

Lemma written_dev ip s0 s v0 v L r off k w : written ip s0 s v0 v L r off k w -> i_dev (f_inode s ip) = i_dev (f_inode s0 ip).
Proof using. intros W. rewrite (sf_fields _ _ _ (w_same _ _ _ _ _ _ _ _ _ _ W)). reflexivity. Qed.

(** [bmap] in the middle of a write. *)
Lemma write_bmap ip s0 s v0 v L r off k w : let sb := f_sb s0 in
  sb_ok sb -> one_bitmap sb -> written ip s0 s v0 v L r off k w -> i_dev (f_inode s0 ip) = dev ->
  0 <= off -> 0 <= k -> off + k < MAXFILE * BSIZE -> need sb L (f_inode s ip) + 1 <= r ->
  exists a s' v' L' r', bmap ip ((off + k) / BSIZE) s = Ret a s' /\ f_user s' = f_user s /\
    written ip s0 s' v0 v' L' r' off k w /\ a = addr_of v' (f_inode s' ip) ((off + k) / BSIZE) /\
    (a = 0 -> all_used v' sb) /\
    (a <> 0 -> r - need sb L (f_inode s ip) - 1 <= r' - cost L' a - need sb L' (f_inode s' ip)) /\
    r - need sb L (f_inode s ip) - 1 <= r' - need sb L' (f_inode s' ip).
Proof using TL.
  intros sb Hs Ho W Hd Hoff Hk Hmax Hroom. pose proof (written_sb _ _ _ _ _ _ _ _ _ _ W) as Esb.
  pose proof (written_dev _ _ _ _ _ _ _ _ _ _ W) as Edev. destruct W as [W1 W2 W3 W4 W5 W6 W7 W8 W9 W10].
  assert (Hbn : 0 <= (off + k) / BSIZE < MAXFILE) by (unfold BSIZE in *; dlia).
  pose proof (bmap_ok dev s v L r ip ((off + k) / BSIZE)) as P. cbv zeta in P. rewrite Esb in P. fold sb in P, W3, W4, W5.
  destruct P as (a & s' & v' & L' & r' & E & P1 & P2 & P3 & P4 & P5 & P6 & P7 & P8 & P9 & P10); auto; [congruence|].
  rewrite Esb in *. fold sb in P3, P4, P5, P8, P9, P10. pose proof (sf_user _ _ _ P1) as Eu.
  exists a, s', v', L', r'. split; [exact E|]. split; [exact Eu|]. split.
  { split; auto; fold sb.
    - rewrite Eu. eapply same_but_trans; [exact W1|]. exact P1.
    - eapply extends_trans; [exact Hs|exact P4|exact W5|].
      eapply grows_extends; [exact Hs|exact W4|exact P5|exact Hbn|exact P6| |exact P7].
      intros H0 Ha. apply (P8 H0 Ha).
    - intros o Hok. rewrite (g_addr _ _ _ _ _ P5); auto. unfold BSIZE in *. dlia.
    - intros j Hj. rewrite (grows_byte v v' sb (f_inode s ip)); auto; [lia|]. apply W7. lia.
    - intros o Hob Hno Ha. rewrite (grows_byte v v' sb (f_inode s ip)); auto.
      rewrite (e_addr _ _ _ _ _ W5); auto. unfold BSIZE in *. dlia.
    - exact (g_byte _ _ _ _ _ P5 W10). }
  split; [exact P6|]. split; [exact P9|].
  destruct (Z.eqb_spec (addr_of v (f_inode s ip) ((off + k) / BSIZE)) 0) as [E0|E0].
  - split; [|lia]. intros Ha. destruct (P8 E0 Ha) as (_ & HL & _).
    assert (cost L' a = 0) by (unfold cost; rewrite decide_True by exact HL; reflexivity). lia.
  - pose proof (cost_bound L' a). lia.
Qed.

(** One piece. *)
Lemma write_piece ip s0 s v0 v L r off k w h x new m : let sb := f_sb s0 in let a := addr_of v (f_inode s ip) ((off + k) / BSIZE) in
  sb_ok sb -> written ip s0 s v0 v L r off k w -> 0 <= off -> 0 <= k -> off + k < MAXFILE * BSIZE -> a <> 0 -> cost L a <= r ->
  Z.of_nat (length new) = m -> (off + k) mod BSIZE + m <= BSIZE -> bytes new -> 0 < m ->
  blocks dev (at_txn x s) [(h, a)] v L r -> forall u,
  exists x1 x2 x3, put_data h (splice (v a) ((off + k) mod BSIZE) new) (at_user u (at_txn x s)) = Ret tt (at_user u (at_txn x1 s)) /\
    log_write h (at_user u (at_txn x1 s)) = Ret tt (at_user u (at_txn x2 s)) /\
    brelse h (at_user u (at_txn x2 s)) = Ret tt (at_user u (at_txn x3 s)) /\
    written ip s0 (at_user u (at_txn x3 s)) v0 (upd v a (splice (v a) ((off + k) mod BSIZE) new)) (a :: L) (r - cost L a) off (k + m) (w ++ new).
Proof using TL.
  intros sb a Hs W Hoff Hk Hmax Ha Hc Hm Hfit Hnew Hm0 B u.
  pose proof (written_sb _ _ _ _ _ _ _ _ _ _ W) as Esb. destruct W as [W1 W2 W3 W4 W5 W6 W7 W8 W9 W10].
  fold sb in W3, W4, W5. assert (Hbn : 0 <= (off + k) / BSIZE < MAXFILE) by (unfold BSIZE in *; dlia).
  assert (Hia : sb_inodestart (f_sb s) <= a).
  { rewrite Esb. fold sb. destruct (fk_owned _ _ _ W4 _ (owned_addr v _ _ Hbn Ha)).
    pose proof (datastart_pos sb Hs). pose proof (inode_bmap sb Hs). fold a in H. lia. }
  destruct (poke dev (at_user u (at_txn x s)) h a [] v L r (splice (v a) ((off + k) mod BSIZE) new) B (not_elem_of_nil _) Hia Hc)
    as (x1 & x2 & E1 & E2 & _ & B2).
  destruct (unpeek dev _ h a [] _ _ _ B2 (not_elem_of_nil _)) as (x3 & E3 & B3).
  exists x1, x2, x3. split; [exact E1|]. split; [exact E2|]. split; [exact E3|].
  destruct (file_ok_splice v sb (f_inode s ip) ((off + k) / BSIZE) (splice (v a) ((off + k) mod BSIZE) new) Hs W4 Hbn Ha) as (F1 & F2 & F3).
  fold a in F1, F2, F3. set (v' := upd v a _) in *.
  assert (Hbyte : forall o, 0 <= o < MAXFILE * BSIZE -> byte_at v' (f_inode s ip) o =
    if decide (off + k <= o < off + k + m) then nth (Z.to_nat (o - (off + k))) new 0 else byte_at v (f_inode s ip) o).
  { intros o Hob. rewrite <- Hm. apply (byte_splice v sb); auto; try lia. }
  split; auto; fold sb.
  - eapply same_but_trans; [|apply (same_but_txn ip (at_user u s) x3)].
    destruct W1 as [V1 V2 V3 V4 V5 V6 V7]. split; auto.
  - intros b Hb. pose proof (datastart_pos sb Hs). destruct Hs. change (f_inode (at_user u (at_txn x3 s)) ip) with (f_inode s ip) in *.
    apply (e_used _ _ _ _ _ F3); [lia|]. apply W3. exact Hb.
  - eapply extends_trans; eauto.
  - rewrite length_app. lia.
  - intros o Hob. change (f_inode (at_user u (at_txn x3 s)) ip) with (f_inode s ip). rewrite F2.
    destruct (decide (o < off + k)); [apply W7; lia|]. replace (o / BSIZE) with ((off + k) / BSIZE) by (unfold BSIZE in *; dlia). exact Ha.
  - intros j Hj. change (f_inode (at_user u (at_txn x3 s)) ip) with (f_inode s ip).
    rewrite Hbyte by (unfold BSIZE in *; dlia). case_decide as D.
    + rewrite app_nth2 by lia. f_equal. lia.
    + rewrite W8 by lia. rewrite app_nth1 by lia. reflexivity.
  - intros o Hob Hno Ha0. change (f_inode (at_user u (at_txn x3 s)) ip) with (f_inode s ip).
    rewrite Hbyte, decide_False by lia. apply W9; auto. lia.
  - apply byte_upd; [exact W10|]. apply write_bytes_byte; [apply W10|exact Hnew].
Qed.

(** Blocks still to be visited. *)
Definition left (off n k : Z) : Z := if k <? n then (off + n - 1) / BSIZE - (off + k) / BSIZE + 1 else 0.

Lemma left_step off n k m : 0 <= off -> 0 <= k < n -> 0 < m -> k + m <= n -> k + m = n \/ (off + k + m) mod BSIZE = 0 ->
  1 <= left off n k /\ left off n (k + m) <= left off n k - 1.
Proof using.
  intros Hoff Hk Hm Hkm Hcase. unfold left. replace (k <? n) with true by lia.
  destruct (Z.ltb_spec (k + m) n); unfold BSIZE in *; dlia.
Qed.

Lemma bytes_slice v b o m : byte_view v -> bytes (slice (v b) o m).
Proof using. intros Hv. apply Forall_lookup. intros j c Hj. apply slice_lookup in Hj as [_ ->]. apply Hv. Qed.

Lemma writei_loop_ok src a n good q ip s0 v0 off : let sb := f_sb s0 in
  sb_ok sb -> one_bitmap sb -> i_dev (f_inode s0 ip) = dev -> 0 <= off -> off + n <= MAXFILE * BSIZE ->
  src_ok src a n good ->
  forall fuel k s v L r w, written ip s0 s v0 v L r off k w -> good k w (f_user s) -> 0 <= k <= n ->
  1 + left off n k <= Z.of_nat fuel -> need sb L (f_inode s ip) + left off n k + q <= r -> 0 <= q ->
  exists tot s' v' L' r' w', writei_loop src fuel ip (u64 (a + k)) (off + k) k n s = Ret (tot, off + tot) s' /\
    written ip s0 s' v0 v' L' r' off tot w' /\ good tot w' (f_user s') /\ k <= tot <= n /\
    (tot = n \/ all_used v' sb) /\ q <= r'.
Proof using TL.
  intros sb Hs Ho Hd Hoff Hmax Hsrc. induction fuel as [|fuel IH]; intros k s v L r w W Hgood Hk Hf Hroom Hq.
  { exfalso. unfold left in Hf. destruct (Z.ltb_spec k n); unfold BSIZE in *; dlia. }
  cbn [writei_loop]. destruct (Z.ltb_spec k n) as [Hlt|Hge].
  2: { exists k, s, v, L, r, w. pose proof (need_bound sb L (f_inode s ip)). unfold left in Hroom.
       replace (k <? n) with false in Hroom by lia. repeat apply conj; auto; try lia. }
  pose proof (piece_size n k (off + k) ltac:(lia) ltac:(lia)) as (Hm1 & Hm2 & Hm3 & Hm4).
  set (m := Z.min (n - k) (BSIZE - (off + k) mod BSIZE)) in *.
  destruct (left_step off n k m Hoff ltac:(lia) ltac:(lia) Hm2 Hm4) as [Hl1 Hl2].
  destruct (write_bmap ip s0 s v0 v L r off k w Hs Ho W Hd Hoff ltac:(lia) ltac:(lia) ltac:(fold sb; lia))
    as (b & s1 & v1 & L1 & r1 & E & Eu & W1 & Eb & Hfull & Hroom1 & Hroom2). fold sb in Hfull, Hroom1, Hroom2. step.
  pose proof (need_bound sb L1 (f_inode s1 ip)) as Hn1.
  destruct (Z.eqb_spec b 0) as [E0|E0].
  { exists k, s1, v1, L1, r1, w. rewrite Eu. repeat apply conj; auto; lia. }
  unfold get_inode. rewrite bind_gets, (written_dev _ _ _ _ _ _ _ _ _ _ W1), Hd.
  destruct (peek dev s1 [] v1 L1 r1 b (w_blocks _ _ _ _ _ _ _ _ _ _ W1) (not_elem_of_nil _) ltac:(simpl; unfold HELDMAX; lia)) as (h & x & E1 & D & B1).
  step. unfold data. rewrite bind_gets. change (f_txn (at_txn x s1)) with x. rewrite D.
  pose proof (slice_length (v1 b) ((off + k) mod BSIZE) m ltac:(lia)) as Hlen.
  destruct (Hsrc k m (slice (v1 b) ((off + k) mod BSIZE) m) w (at_txn x s1)) as (new & u & E2 & Hnl & Hnb & Hg); auto; try lia.
  { apply bytes_slice. exact (w_byte _ _ _ _ _ _ _ _ _ _ W1). } { simpl. rewrite Eu. exact Hgood. }
  fold m. step. specialize (Hroom1 E0). rewrite Eb in E0, B1, Hroom1, D |- *.
  destruct (write_piece ip s0 s1 v0 v1 L1 r1 off k w h x new m Hs W1 Hoff ltac:(lia) ltac:(lia) E0 ltac:(lia) ltac:(lia) Hm3 Hnb ltac:(lia) B1 u)
    as (x1 & x2 & x3 & E3 & E4 & E5 & W2). step. cbn [negb]. do 2 step.
  rewrite u64_step. replace (u32 (off + k + m)) with (off + (k + m)) by (rewrite u32_small; unfold MAXFILE, NDIRECT, NINDIRECT, BSIZE in *; dlia).
  destruct (IH (k + m) _ _ _ _ _ W2) as (tot & s' & v' & L' & r' & w' & E6 & W3 & G3 & T3 & F3 & Q3); auto; try lia.
  { change (f_inode (at_user u (at_txn x3 s1)) ip) with (f_inode s1 ip).
    assert (need sb (addr_of v1 (f_inode s1 ip) ((off + k) / BSIZE) :: L1) (f_inode s1 ip) <= need sb L1 (f_inode s1 ip)); [|lia].
    unfold need. pose proof (cost_mono L1 (addr_of v1 (f_inode s1 ip) ((off + k) / BSIZE)) (sb_bmapstart sb)).
    pose proof (cost_mono L1 (addr_of v1 (f_inode s1 ip) ((off + k) / BSIZE)) (ind_of (f_inode s1 ip))). case_test; lia. }
  exists tot, s', v', L', r', w'. rewrite E6. repeat apply conj; auto; lia.
Qed.

(** The whole write: [tot] bytes [w] at [off]. *)
Record wrote (ip : Z) (s s' : fs T U) (v v' : Z -> block) (off tot : Z) (w : list Z) : Prop := {
  wr_sb : f_sb s' = f_sb s;
  wr_itlock : f_itlock s' = f_itlock s;
  wr_cwd : f_cwd s' = f_cwd s;
  wr_pid : f_pid s' = f_pid s;
  wr_inodes : forall j, j <> ip -> f_inode s' j = f_inode s j;
  wr_inode : f_inode s' ip =
    with_size (Z.max (i_size (f_inode s ip)) (off + tot)) (with_addrs (i_addrs (f_inode s' ip)) (f_inode s ip));
  wr_reserved : reserved v' (f_sb s);
  wr_file : file_ok v' (f_sb s) (f_inode s' ip);
  wr_blocks : has_blocks v' (f_inode s' ip);
  wr_byte : byte_view v';
  wr_len : Z.of_nat (length w) = tot;
  wr_new : contents v' (f_inode s' ip) off tot = w;
  wr_old : forall o, 0 <= o < i_size (f_inode s ip) -> ~ (off <= o < off + tot) ->
    byte_at v' (f_inode s' ip) o = byte_at v (f_inode s ip) o;
  wr_disk : v' (IBLOCK (i_inum (f_inode s ip)) (f_sb s)) =
    put_inode (v (IBLOCK (i_inum (f_inode s ip)) (f_sb s))) (dinode_off (i_inum (f_inode s ip))) (f_inode s' ip);
  wr_low : forall b, b < sb_bmapstart (f_sb s) -> b <> IBLOCK (i_inum (f_inode s ip)) (f_sb s) -> v' b = v b;
  wr_other : forall b, datastart (f_sb s) <= b < sb_size (f_sb s) -> used v (f_sb s) b = true ->
    ~ owned v (f_inode s ip) b -> v' b = v b;
  wr_used : forall b, 0 <= b < sb_size (f_sb s) -> used v (f_sb s) b = true -> used v' (f_sb s) b = true;
  wr_fresh : forall b, owned v' (f_inode s' ip) b -> owned v (f_inode s ip) b \/ used v (f_sb s) b = false
}.

Lemma written_nil ip s v L r off : blocks dev s [] v L r -> reserved v (f_sb s) -> file_ok v (f_sb s) (f_inode s ip) ->
  byte_view v -> written ip s s v v L r off 0 [].
Proof using.
  intros B Hr Hf Hb. split; auto; try lia; [|apply extends_refl].
  destruct s; simpl. split; auto. simpl. destruct (f_inode ip); reflexivity.
Qed.

Lemma with_size_owned v i n b : owned v (with_size n i) b <-> owned v i b.
Proof using. reflexivity. Qed.

(** Putting the inode on disk after the loop. *)
Lemma written_wrote ip s s1 s' v v1 L r off tot w : let sb := f_sb s in
  let i' := with_size (Z.max (i_size (f_inode s ip)) (off + tot)) (f_inode s1 ip) in
  f_sb s' = f_sb s1 -> f_itlock s' = f_itlock s1 -> f_cwd s' = f_cwd s1 -> f_pid s' = f_pid s1 ->
  (forall j, j <> ip -> f_inode s' j = f_inode s1 j) -> f_inode s' ip = i' ->
  sb_ok sb -> inode_in sb (i_inum (f_inode s ip)) -> has_blocks v (f_inode s ip) ->
  written ip s s1 v v1 L r off tot w -> 0 <= off <= i_size (f_inode s ip) -> 0 <= tot -> off + tot <= MAXFILE * BSIZE ->
  wrote ip s s' v (write_inode v1 sb i') off tot w.
Proof using.
  intros sb i' S1 S2 S3 S4 S5 Ei Hs Hin [Hb1 Hb2] W Hoff Htot Hmax. pose proof (datastart_pos sb Hs) as Hds.
  destruct W as [[V1 V2 V3 V4 V5 V6 V7] W2 W3 W4 W5 W6 W7 W8 W9 W10]. fold sb in W3, W4, W5.
  assert (Einum : i_inum i' = i_inum (f_inode s ip)) by (unfold i'; rewrite V7; reflexivity).
  assert (Hin' : inode_in sb (i_inum i')) by (rewrite Einum; exact Hin).
  destruct (IBLOCK_eq sb (i_inum i') Hs Hin') as [_ Hib].
  assert (Hf1 : file_ok v1 sb i') by (destruct W4; split; auto).
  destruct (write_inode_file v1 sb i' i' Hs Hin' Hf1) as [Hf2 Ha2].
  assert (Hbyte : forall o, 0 <= o < MAXFILE * BSIZE -> byte_at (write_inode v1 sb i') i' o = byte_at v1 (f_inode s1 ip) o).
  { intros o Ho. unfold byte_at. rewrite Ha2. change (addr_of v1 i' (o / BSIZE)) with (addr_of v1 (f_inode s1 ip) (o / BSIZE)).
    rewrite write_inode_other; auto. destruct (decide (addr_of v1 (f_inode s1 ip) (o / BSIZE) = 0)) as [E|E]; [lia|right].
    assert (Hbn : 0 <= o / BSIZE < MAXFILE) by (unfold BSIZE in *; dlia).
    destruct (fk_owned _ _ _ W4 _ (owned_addr v1 _ _ Hbn E)). lia. }
  assert (Howned : forall b, owned (write_inode v1 sb i') i' b <-> owned v1 (f_inode s1 ip) b).
  { intros b. unfold owned. split; intros [H0 [Hb|(bn & Hbn & Hb)]]; (split; [exact H0|]); auto; right; exists bn;
      rewrite ?Ha2 in *; auto. }
  split; rewrite ?Ei; fold sb; auto; try (rewrite ?S1, ?S2, ?S3, ?S4; assumption).
  - intros j Hj. rewrite S5 by exact Hj. apply V6. exact Hj.
  - unfold i'. rewrite V7. reflexivity.
  - intros b Hb. destruct Hs. rewrite write_inode_used; [apply W3; exact Hb|split; auto|auto|lia].
  - split; [unfold i'; simpl; lia|]. intros o Ho. rewrite Ha2. change (addr_of v1 i' (o / BSIZE)) with (addr_of v1 (f_inode s1 ip) (o / BSIZE)).
    destruct (decide (off <= o < off + tot)) as [D|D]; [apply W7; exact D|].
    assert (Ho' : 0 <= o < i_size (f_inode s ip)) by (unfold i' in Ho; simpl in Ho; lia).
    rewrite (e_addr _ _ _ _ _ W5); [apply Hb2; exact Ho'|unfold BSIZE in *; dlia|apply Hb2; exact Ho'].
  - apply byte_upd; [exact W10|]. apply put_inode_byte, W10.
  - apply list_eq. intros j. apply option_eq. intros b. rewrite contents_lookup. split.
    + intros [Hj ->]. rewrite Hbyte, W8 by lia. rewrite Nat2Z.id.
      destruct (lookup_lt_is_Some_2 w j) as [c Hc]; [lia|]. rewrite Hc. f_equal. rewrite nth_lookup, Hc. reflexivity.
    + intros Hj. pose proof (lookup_lt_Some _ _ _ Hj). split; [lia|]. rewrite Hbyte, W8 by lia.
      rewrite Nat2Z.id, nth_lookup, Hj. reflexivity.
  - intros o Ho Hno. rewrite Hbyte by lia. apply W9; auto. lia.
  - unfold write_inode. rewrite <- Einum. rewrite upd_eq. f_equal. apply (e_low _ _ _ _ _ W5). lia.
  - intros b Hb Hne. rewrite <- Einum in Hne. unfold write_inode. rewrite upd_ne by exact Hne. apply (e_low _ _ _ _ _ W5). exact Hb.
  - intros b Hb Hu Hno. rewrite write_inode_other by (auto; lia). apply (e_other _ _ _ _ _ W5); assumption.
  - intros b Hb Hu. rewrite write_inode_used by auto. apply (e_used _ _ _ _ _ W5); assumption.
  - intros b Hb. apply Howned in Hb. apply (e_fresh _ _ _ _ _ W5). exact Hb.
Qed.

(** [writei] refuses a write that starts beyond the end or would make the file too large. *)
Definition write_refused (i : inode) (off n : Z) : bool :=
  (i_size i <? off) || (2 ^ 32 <=? off + n) || (MAXFILE * BSIZE <? off + n).

Lemma refused_eq i off n : 0 <= off < 2 ^ 32 -> 0 <= n < 2 ^ 32 ->
  ((i_size i <? off) || (u32 (off + n) <? off)) = (i_size i <? off) || (2 ^ 32 <=? off + n).
Proof using. intros H1 H2. f_equal. apply eq_iff_eq_true. rewrite Z.ltb_lt, Z.leb_le. wrap_lia. Qed.

Lemma writei_refused src ip a off n s : 0 <= off < 2 ^ 32 -> 0 <= n < 2 ^ 32 ->
  write_refused (f_inode s ip) off n = true -> writei_gen src ip a off n s = Ret (-1) s.
Proof using.
  intros H1 H2 Hr. unfold writei_gen, get_inode. rewrite bind_gets, refused_eq by assumption.
  unfold write_refused in Hr. destruct ((i_size (f_inode s ip) <? off) || (2 ^ 32 <=? off + n)) eqn:E; [reflexivity|].
  simpl in Hr. b2p. rewrite u32_small by lia. replace (MAXFILE * BSIZE <? off + n) with true by lia. reflexivity.
Qed.

(** Blocks a write logs at most. *)
Definition write_cost (sb : superblock) (L : list Z) (i : inode) (off n : Z) : Z :=
  need sb L i + left off n 0 + 1.

Lemma writei_gen_ok src a n good ip off s v L r : let sb := f_sb s in let i := f_inode s ip in
  sb_ok sb -> one_bitmap sb -> reserved v sb -> file_ok v sb i -> has_blocks v i -> byte_view v -> i_dev i = dev ->
  inode_in sb (i_inum i) -> 0 <= off < 2 ^ 32 -> 0 <= n < 2 ^ 32 -> 0 <= a < 2 ^ 64 -> write_refused i off n = false ->
  src_ok src a n good -> good 0 [] (f_user s) -> blocks dev s [] v L r -> write_cost sb L i off n <= r ->
  exists tot s' v' L' r' w, writei_gen src ip a off n s = Ret tot s' /\ blocks dev s' [] v' L' r' /\
    wrote ip s s' v v' off tot w /\ good tot w (f_user s') /\ 0 <= tot <= n /\ (tot = n \/ all_used v' sb).
Proof using TL.
  intros sb i Hs Ho Hr Hf Hb Hbv Hd Hin Hoff Hn Ha Href Hsrc Hgood B Hroom.
  unfold writei_gen, get_inode. rewrite bind_gets. fold i. rewrite refused_eq by assumption.
  unfold write_refused in Href. apply orb_false_elim in Href as [Href1 Href2]. rewrite Href1. b2p.
  rewrite u32_small by lia. replace (MAXFILE * BSIZE <? off + n) with false by lia.
  pose proof (written_nil ip s v L r off B Hr Hf Hbv) as W0. unfold write_cost in Hroom.
  assert (Hfuel : 1 + left off n 0 <= Z.of_nat (Z.to_nat (n / BSIZE + 3))).
  { unfold left. case_test; unfold BSIZE in *; dlia. }
  pose proof (writei_loop_ok src a n good 1 ip s v off Hs Ho Hd ltac:(lia) ltac:(lia) Hsrc
    _ 0 s v L r [] W0 Hgood ltac:(lia) Hfuel ltac:(fold sb i; lia) ltac:(lia)) as P.
  rewrite !Z.add_0_r, u64_small in P by exact Ha.
  destruct P as (tot & s1 & v1 & L1 & r1 & w & E & W & G & Ht & Hfull & Hq). rewrite (bind_ret_l _ _ _ _ _ E).
  rewrite bind_gets. pose proof (w_same _ _ _ _ _ _ _ _ _ _ W) as HS.
  assert (Esz : i_size (f_inode s1 ip) = i_size i) by (rewrite (sf_fields _ _ _ HS); reflexivity).
  set (s2 := if i_size (f_inode s1 ip) <? off + tot then set_inode ip (with_size (off + tot)) s1 else s1).
  rewrite (bind_ret_l _ _ _ tt s2) by (unfold s2; destruct (i_size (f_inode s1 ip) <? off + tot); reflexivity).
  set (i' := with_size (Z.max (i_size i) (off + tot)) (f_inode s1 ip)).
  assert (Ei : f_inode s2 ip = i').
  { unfold s2, i'. destruct (Z.ltb_spec (i_size (f_inode s1 ip)) (off + tot)).
    - simpl. rewrite upd_eq. rewrite Z.max_r by lia. reflexivity.
    - rewrite Z.max_l, <- Esz by lia. destruct (f_inode s1 ip); reflexivity. }
  assert (Hs2 : f_sb s2 = f_sb s1 /\ f_itlock s2 = f_itlock s1 /\ f_cwd s2 = f_cwd s1 /\ f_pid s2 = f_pid s1 /\ f_user s2 = f_user s1 /\
                f_txn s2 = f_txn s1 /\ forall j, j <> ip -> f_inode s2 j = f_inode s1 j).
  { unfold s2. destruct (i_size (f_inode s1 ip) <? off + tot); repeat split; auto. intros j Hj. simpl. apply upd_ne. exact Hj. }
  destruct Hs2 as (S1 & S2 & S3 & S4 & S5 & S6 & S7). pose proof (sf_sb _ _ _ HS) as Esb. simpl in Esb.
  assert (B2 : blocks dev s2 [] v1 L1 r1) by (unfold blocks; rewrite S6, S1; exact (w_blocks _ _ _ _ _ _ _ _ _ _ W)).
  destruct (iupdate_ok dev s2 v1 L1 r1 ip) as (x & E3 & B3); auto.
  { rewrite Ei. unfold i'. simpl. rewrite (written_dev _ _ _ _ _ _ _ _ _ _ W). exact Hd. }
  { rewrite Ei, S1, Esb. unfold i'. simpl. rewrite (sf_fields _ _ _ HS). simpl. apply (IBLOCK_eq (f_sb s)); assumption. }
  { pose proof (cost_bound L1 (IBLOCK (i_inum (f_inode s2 ip)) (f_sb s2))). lia. }
  rewrite S1, Esb, Ei in B3. step. exists tot, (at_txn x s2), (write_inode v1 sb i'), (IBLOCK (i_inum i') sb :: L1), (r1 - cost L1 (IBLOCK (i_inum i') sb)), w.
  split; [reflexivity|]. split; [exact B3|].
  assert (Hoff2 : 0 <= off <= i_size (f_inode s ip)) by (fold i; lia).
  split; [eapply (written_wrote ip s s1); eauto; lia|]. simpl f_user. rewrite S5. repeat apply conj; auto; try lia.
  destruct Hfull as [Hfull|Hfull]; [auto|right]. intros c Hc.
  rewrite write_inode_used; auto. unfold i'. simpl. rewrite (sf_fields _ _ _ HS). exact Hin.
Qed.
End Write.
