(* ===== verification/FsSpec.v ===== *)
(** * What the file system promises

    The contracts of block allocation, reading and writing, put together from
    the lemmas on blocks, inodes and contents, and shown to be satisfiable on a
    small disk under the write-ahead log. *)

From S2P Require Import Prelude Sleeplock Block Log Txn UserMem Fs FsBlocks FsInode FsData.

Section Spec.
Context {T U : Type} `{TX : Txn T} (dev : Z) `{TL : !TxnLaws T dev} `{UM : UserMem U} `{UL : !UserMemLaws U}.
Implicit Types s : fs T U.

(** File [ip] is open and well formed, the blocks contain [v], and the
    transaction has room for [r] more. *)
Record ready (s : fs T U) (v : Z -> block) (L : list Z) (r ip : Z) : Prop := {
  rd_sb : sb_ok (f_sb s);
  rd_one : one_bitmap (f_sb s);
  rd_reserved : reserved v (f_sb s);
  rd_file : file_ok v (f_sb s) (f_inode s ip);
  rd_has : has_blocks v (f_inode s ip);
  rd_byte : byte_view v;
  rd_dev : i_dev (f_inode s ip) = dev;
  rd_in : inode_in (f_sb s) (i_inum (f_inode s ip));
  rd_blocks : blocks dev s [] v L r
}.

Lemma ready_wrote s s' v v' L L' r r' ip off tot w : ready s v L r ip -> wrote ip s s' v v' off tot w ->
  blocks dev s' [] v' L' r' -> ready s' v' L' r' ip.
Proof using.
  intros [R1 R2 R3 R4 R5 R6 R7 R8 R9] W B. destruct W as [W1 _ _ _ _ W6 W7 W8 W9 W10 _ _ _ _ _ _ _ _].
  split; rewrite ?W1; auto; rewrite W6; assumption.
Qed.

(** Allocating a block, given any disk whose bitmap marks the blocks before
    the data blocks as used: the first free block is returned, it is marked
    used and filled with zeroes, no other mark changes and no other block but
    the bitmap's; when all blocks are used the result is 0 and nothing
    changes. *)
Theorem balloc_correct s v L r :
  sb_ok (f_sb s) -> reserved v (f_sb s) -> blocks dev s [] v L r -> 2 <= r ->
  exists b s' v' L' r', balloc dev s = Ret b s' /\ blocks dev s' [] v' L' r' /\ r - 2 <= r' /\
    (b = 0 /\ all_used v (f_sb s) /\ v' = v \/
     datastart (f_sb s) <= b < sb_size (f_sb s) /\ used v (f_sb s) b = false /\
     (forall b', 0 <= b' < b -> used v (f_sb s) b' = true) /\
     (forall b', 0 <= b' < sb_size (f_sb s) -> used v' (f_sb s) b' = (b' =? b) || used v (f_sb s) b') /\
     (forall x, v' b x = 0) /\
     (forall b', b' <> b -> b' < sb_bmapstart (f_sb s) \/ datastart (f_sb s) <= b' -> v' b' = v b')).
Proof using TL.
  intros Hs Hr B Hroom. pose proof (datastart_pos _ Hs).
  destruct (balloc_ok dev s [] v L r Hs Hr (held_nil _ _)) as [(b & x & E & Hb & Hu & Hleast & B1)|(Hall & x & E & B1)]; auto.
  { simpl. unfold HELDMAX. lia. }
  { intros b Hb. pose proof (cost_bound L (BBLOCK b (f_sb s))). lia. }
  - pose proof (cost_bound L (BBLOCK b (f_sb s))). exists b, (at_txn x s), (take_block v (f_sb s) b). do 2 eexists.
    split; [exact E|]. split; [exact B1|]. split; [lia|]. right. split; [exact Hb|]. split; [exact Hu|]. split; [exact Hleast|].
    split; [intros; apply used_take; auto|]. split; [intros; unfold take_block; rewrite upd_eq; reflexivity|].
    intros b' Hne Hb'. apply take_block_other; auto.
  - exists 0. do 4 eexists. split; [exact E|]. split; [exact B1|]. split; [lia|]. left. auto.
Qed.

(** C32. Reading from a file into user memory: the number of bytes is what the
    file has at the offset, at most what was asked for; they are the file's
    bytes, and nothing else of the process changes.  The result is -1 only
    when some address of the buffer cannot be written. *)
Theorem readi_correct s v L r ip dst off n : let i := f_inode s ip in let n' := avail i off n in
  ready s v L r ip -> um_inv (f_user s) -> BSIZE <= um_max ->
  0 <= off < 2 ^ 32 -> 0 <= n < 2 ^ 32 -> 0 <= dst < 2 ^ 64 -> dst + n <= 2 ^ 64 ->
  exists res u x, readi ip true dst off n s = Ret res (at_user u (at_txn x s)) /\ blocks dev (at_txn x s) [] v L r /\
    um_inv u /\ (forall a b, a < dst \/ dst + n <= a -> um_mem (f_user s) a = Some b -> um_mem u a = Some b) /\
    (res = n' /\ (forall j, 0 <= j < n' -> um_mem u (dst + j) = Some (byte_at v i (off + j))) \/
     res = -1 /\ ~ (forall a, dst <= a < dst + n -> um_can_write (f_user s) a)).
Proof using TL UL.
  intros i n' [R1 R2 R3 R4 R5 R6 R7 R8 R9] Hu Hmax Hoff Hn Hd Hend. fold i in R4, R5, R7, R8.
  assert (Hn' : 0 <= n' <= n) by (unfold n', avail; destruct R5; case_test; b2p; lia).
  pose proof (user_sink_ok (T := T) v i off dst n' (f_user s) R6 Hmax ltac:(lia) ltac:(lia)) as Hsink.
  destruct (readi_gen_ok dev (user_sink true) v L r ip off dst n tt _ _ s R7 Hoff Hn Hd R5 Hsink R9)
    as (tot & acc & u & x & E & B & Hres).
  { split; auto; lia. }
  exists tot, u, x. split; [unfold readi; rewrite (bind_ret_l _ _ _ _ _ E); reflexivity|]. split; [exact B|].
  fold i n' in Hres. destruct Hres as [[-> [G1 G2 G3 G4]]|[-> (G1 & G2 & G3)]].
  - split; [exact G1|]. split; [intros a b Ha; apply G2; lia|]. left. auto.
  - split; [exact G1|]. split; [intros a b Ha; apply G2; lia|]. right. split; [reflexivity|]. intros Hall. apply G3. intros a Ha. apply Hall. lia.
Qed.

(** Bytes of a readable user buffer. *)
Record write_good (u0 : U) (a k : Z) (w : list Z) (u : U) : Prop := {
  wg_inv : um_inv u;
  wg_len : Z.of_nat (length w) = k;
  wg_in : forall j b, w !! j = Some b -> um_mem u (a + Z.of_nat j) = Some b;
  wg_keep : forall x b, um_mem u0 x = Some b -> um_mem u x = Some b;
  wg_can : forall x, um_can_read u0 x -> um_can_read u x
}.

Lemma user_src_ok a n (u0 : U) : BSIZE <= um_max -> 0 <= a -> a + n <= 2 ^ 64 ->
  (forall x, a <= x < a + n -> um_can_read u0 x) -> src_ok (T := T) (user_src true) a n (write_good u0 a).
Proof using UL.
  intros Hmax Ha Hend Hcan k m old w s Hk Hm Hkm Hlen Hold [G1 G2 G3 G4 G5]. rewrite u64_small by lia.
  destruct (um_over (f_user s) (a + k) old) as (ok & new & u & E & I & Hkeep & Hr & _ & Hl & Hb & Hok & Hin); auto; try lia.
  assert (ok = true) as ->. { apply Hok. intros x Hx. apply G5, Hcan. lia. }
  exists new, u. split; [apply zoom_ret; exact E|]. split; [exact Hl|]. split; [exact Hb|]. split; auto.
  - rewrite length_app. lia.
  - intros j b Hj. apply lookup_app_Some in Hj as [Hj|[Hj1 Hj2]]; [auto|].
    replace (a + Z.of_nat j) with (a + k + Z.of_nat (j - length w)) by lia. auto.
Qed.

Lemma writei_run s v L r ip src off n : let i := f_inode s ip in
  ready s v L r ip -> um_inv (f_user s) -> BSIZE <= um_max -> 0 <= off < 2 ^ 32 -> 0 <= n < 2 ^ 32 ->
  0 <= src < 2 ^ 64 -> src + n <= 2 ^ 64 -> (forall x, src <= x < src + n -> um_can_read (f_user s) x) ->
  write_cost (f_sb s) L i off n <= r -> write_refused i off n = false ->
  exists tot s' v' L' r' w, writei ip true src off n s = Ret tot s' /\ ready s' v' L' r' ip /\
    wrote ip s s' v v' off tot w /\ write_good (f_user s) src tot w (f_user s') /\ 0 <= tot <= n /\
    (tot = n \/ all_used v' (f_sb s)).
Proof using TL UL.
  intros i R Hu Hmax Hoff Hn Hsrc Hend Hcan Hroom Eref. pose proof R as [R1 R2 R3 R4 R5 R6 R7 R8 R9].
  destruct (writei_gen_ok dev (user_src true) src n (write_good (f_user s) src) ip off s v L r)
    as (tot & s' & v' & L' & r' & w & E & B & W & G & Ht & Hfull); auto.
  { apply user_src_ok; auto. lia. }
  { split; auto. intros j b Hj. discriminate. }
  exists tot, s', v', L', r', w. repeat apply conj; auto; try lia. eapply ready_wrote; eauto.
Qed.

(** C14. Writing to a file from a readable user buffer.  A write that starts
    beyond the end of the file or would make it too large is refused and
    changes nothing.  Otherwise the bytes written are the buffer's, they are
    the file's bytes at the offset, the rest of the file keeps its bytes, the
    file grows as needed and its inode on disk is brought up to date; the blocks
    of other files and other inodes are not touched, and the file system is well
    formed again.  Fewer bytes than asked for are written only when the disk
    is full. *)
Theorem writei_correct s v L r ip src off n : let i := f_inode s ip in
  ready s v L r ip -> um_inv (f_user s) -> BSIZE <= um_max -> 0 <= off < 2 ^ 32 -> 0 <= n < 2 ^ 32 ->
  0 <= src < 2 ^ 64 -> src + n <= 2 ^ 64 -> (forall x, src <= x < src + n -> um_can_read (f_user s) x) ->
  write_cost (f_sb s) L i off n <= r ->
  if write_refused i off n then writei ip true src off n s = Ret (-1) s
  else exists tot s' v' L' r' w, writei ip true src off n s = Ret tot s' /\ ready s' v' L' r' ip /\
    wrote ip s s' v v' off tot w /\ write_good (f_user s) src tot w (f_user s') /\ 0 <= tot <= n /\
    (tot = n \/ all_used v' (f_sb s)).
Proof using TL UL.
  intros i R Hu Hmax Hoff Hn Hsrc Hend Hcan Hroom. destruct (write_refused i off n) eqn:Eref; [apply writei_refused; auto|].
  apply (writei_run s v L r ip src off n); auto.
Qed.

Lemma local_src_ok (bs : list Z) (u0 : U) : bytes bs -> Z.of_nat (length bs) < 2 ^ 64 ->
  src_ok (T := T) (local_src bs) 0 (Z.of_nat (length bs)) (fun k w u => w = take (Z.to_nat k) bs /\ u = u0).
Proof using.
  intros Hb Hl64 k m old w s Hk Hm Hkm Hlen Hold [-> Hu]. rewrite Z.add_0_l, u64_small by lia.
  exists (take (length old) (drop (Z.to_nat k) bs)), (f_user s).
  split; [unfold local_src, ret; destruct s; reflexivity|]. split; [rewrite length_take, length_drop; lia|].
  split; [apply Forall_take, Forall_drop, Hb|]. split; [|exact Hu].
  replace (Z.to_nat (k + m)) with (Z.to_nat k + length old)%nat by lia. rewrite take_take_drop. reflexivity.
Qed.

(** What is written can be read back: a kernel buffer written to a file,
    followed by a read of the same place, gives the buffer. *)
Theorem write_read s v L r ip bs off : let i := f_inode s ip in let n := Z.of_nat (length bs) in
  ready s v L r ip -> bytes bs -> 0 <= off < 2 ^ 32 -> n < 2 ^ 32 -> write_refused i off n = false ->
  write_cost (f_sb s) L i off n <= r ->
  exists tot s1 s2 v1, writei_local ip bs off s = Ret tot s1 /\ (tot = n \/ all_used v1 (f_sb s)) /\ 0 <= tot <= n /\
    readi_local ip off tot s1 = Ret (tot, take (Z.to_nat tot) bs) s2.
Proof using TL.
  intros i n R Hb Hoff Hn Href Hroom. pose proof R as [R1 R2 R3 R4 R5 R6 R7 R8 R9].
  destruct (writei_gen_ok dev (local_src bs) 0 n (fun k w u => w = take (Z.to_nat k) bs /\ u = f_user s) ip off s v L r)
    as (tot & s1 & v1 & L1 & r1 & w & E & B & W & [G _] & Ht & Hfull); auto; try lia.
  { apply local_src_ok; auto. lia. }
  { exists tot, s1. pose proof (ready_wrote _ _ _ _ _ _ _ _ _ _ _ _ R W B) as R'. destruct R' as [Q1 Q2 Q3 Q4 Q5 Q6 Q7 Q8 Q9].
    assert (Eav : avail (f_inode s1 ip) off tot = tot).
    { unfold avail. unfold write_refused in Href. b2p. rewrite (wr_inode _ _ _ _ _ _ _ _ W). simpl. fold i.
      replace (Z.max (i_size i) (off + tot) <? off) with false by lia. replace (2 ^ 32 <=? off + tot) with false by lia. simpl. lia. }
    destruct (readi_local_ok dev v1 L1 r1 ip off tot s1) as (x & E2 & B2); auto; try lia.
    rewrite Eav in E2. exists (at_txn x s1), v1. split; [exact E|]. split; [exact Hfull|]. split; [lia|].
    rewrite E2, (wr_new _ _ _ _ _ _ _ _ W), G. reflexivity. }
Qed.
End Spec.

(** ** A small disk *)

Module ExampleDisk.
Import Ideal IdealMem.

(** 64 blocks, 16 inodes; blocks 36 to 39 are in use besides the reserved ones. *)
Definition ex_sb : superblock := Sb FSMAGIC 64 28 16 31 2 33 35.
Definition ex_view (b : Z) : block := fun x => if b =? 35 then if (0 <=? x) && (x <? 5) then 255 else 0 else 0.
(** A file of 1500 bytes in blocks 36 and 37. *)
Definition ex_inode : inode :=
  Inode 1 2 1 (Sleeplock true false 7) true T_FILE 0 0 1 1500 [36; 37; 0; 0; 0; 0; 0; 0; 0; 0; 0; 0; 0].
Definition ex_log : logst bst :=
  Logst (Bst ex_view ex_view (fun _ => 0) (fun _ => false) 0 []) 2 1 false 1 0 (replicate 30 0) false.
Definition ex_mem : imem := fun a => if (0 <=? a) && (a <? 8192) then Some (a mod 256) else None.
Definition ex_fs : fs (logst bst) imem := FS ex_log ex_sb false (fun _ => ex_inode) 0 7 ex_mem [].

(** The log is at block 2, and one operation is in progress. *)
#[export] Instance ex_txn_laws : TxnLaws (logst bst) 1 := log_txn_laws 1 2 1.

Lemma ex_sb_ok : sb_ok ex_sb.
Proof. split; closed. Qed.

Lemma ex_reserved : reserved ex_view ex_sb.
Proof. intros b Hb. apply (forallb_seqZ (used ex_view ex_sb) 36); [reflexivity|exact Hb]. Qed.

Lemma ex_byte : byte_view ex_view.
Proof. intros b x. unfold ex_view. repeat case_test; lia. Qed.

Lemma ex_addr bn : 0 <= bn < MAXFILE ->
  addr_of ex_view ex_inode bn = if bn =? 0 then 36 else if bn =? 1 then 37 else 0.
Proof.
  intros Hb. apply Z.eqb_eq.
  apply (forallb_seqZ (fun bn => addr_of ex_view ex_inode bn =? if bn =? 0 then 36 else if bn =? 1 then 37 else 0) MAXFILE);
    [reflexivity|exact Hb].
Qed.

Lemma ex_file : file_ok ex_view ex_sb ex_inode.
Proof.
  split; [reflexivity| | |].
  - intros b [H0 [Hb|(bn & Hbn & Hb)]]; [exfalso; apply H0; exact Hb|]. rewrite ex_addr in Hb by exact Hbn.
    destruct (bn =? 0); [subst; split; closed|]. destruct (bn =? 1); [subst; split; closed|]. congruence.
  - intros b1 b2 H1 H2. rewrite !ex_addr by assumption. intros E H0.
    destruct (Z.eqb_spec b1 0), (Z.eqb_spec b2 0), (Z.eqb_spec b1 1), (Z.eqb_spec b2 1); subst; congruence || lia.
  - intros H0. exfalso. apply H0. reflexivity.
Qed.

Lemma ex_has : has_blocks ex_view ex_inode.
Proof.
  split; [closed|]. intros o Ho. change (i_size ex_inode) with 1500 in Ho.
  rewrite ex_addr by (unfold MAXFILE, NDIRECT, NINDIRECT, BSIZE; dlia).
  destruct (Z.eqb_spec (o / BSIZE) 0); [lia|]. destruct (Z.eqb_spec (o / BSIZE) 1); [lia|]. unfold BSIZE in *. dlia.
Qed.

(** A transaction has begun, and nothing is in the log. *)
Lemma ex_blocks : blocks (T := logst bst) (U := imem) 1 ex_fs [] ex_view [] 26.
Proof.
  split.
  - split; try reflexivity; try (vm_compute; congruence); try (split; vm_compute; congruence).
    + intros b Hb. apply elem_of_nil in Hb. contradiction.
    + apply NoDup_nil. exact I.
    + apply NoDup_nil. exact I.
    + intros h b Hin. apply elem_of_nil in Hin. contradiction.
  - intros b Hb. right. simpl in Hb. unfold LOGBLOCKS, MAXOPBLOCKS. lia.
Qed.

Lemma ex_ready : ready (T := logst bst) (U := imem) 1 ex_fs ex_view [] 26 0.
Proof.
  split; [exact ex_sb_ok|vm_compute; congruence|exact ex_reserved|exact ex_file|exact ex_has|exact ex_byte|reflexivity|split; closed|exact ex_blocks].
Qed.

(** Block 40 is the first free one. *)
Lemma balloc_correct_witness :
  exists b s' v' L' r', balloc (U := imem) 1 ex_fs = Ret b s' /\ blocks 1 s' [] v' L' r' /\ 26 - 2 <= r' /\
    (b = 0 /\ all_used ex_view ex_sb /\ v' = ex_view \/
     datastart ex_sb <= b < sb_size ex_sb /\ used ex_view ex_sb b = false /\
     (forall b', 0 <= b' < b -> used ex_view ex_sb b' = true) /\
     (forall b', 0 <= b' < sb_size ex_sb -> used v' ex_sb b' = (b' =? b) || used ex_view ex_sb b') /\
     (forall x, v' b x = 0) /\
     (forall b', b' <> b -> b' < sb_bmapstart ex_sb \/ datastart ex_sb <= b' -> v' b' = ex_view b')).
Proof.
  apply (balloc_correct (U := imem) 1 ex_fs ex_view [] 26); [exact ex_sb_ok|exact ex_reserved|exact ex_blocks|lia].
Defined.

#[local] Instance ex_mem_laws : UserMemLaws imem := ideal_mem_laws 4096.

Lemma ex_mem_inv : um_inv (f_user ex_fs).
Proof. intros a b. simpl. unfold ex_mem. case_test; [|discriminate]. intros E. simplify_eq. dlia. Qed.

(** 600 bytes at offset 1000 of the file: 500 are there, in two blocks. *)
Lemma readi_correct_witness :
  exists res u x, readi 0 true 100 1000 600 ex_fs = Ret res (at_user u (at_txn x ex_fs)) /\
    blocks 1 (at_txn x ex_fs) [] ex_view [] 26 /\ um_inv u /\
    (forall a b, a < 100 \/ 100 + 600 <= a -> um_mem (f_user ex_fs) a = Some b -> um_mem u a = Some b) /\
    (res = 500 /\ (forall j, 0 <= j < 500 -> um_mem u (100 + j) = Some (byte_at ex_view ex_inode (1000 + j))) \/
     res = -1 /\ ~ (forall a, 100 <= a < 100 + 600 -> um_can_write (f_user ex_fs) a)).
Proof.
  apply (readi_correct 1 ex_fs ex_view [] 26 0 100 1000 600); try lia; [exact ex_ready|exact ex_mem_inv|closed].
Defined.

(** 3000 bytes at offset 1000: blocks 2 and 3 of the file are allocated. *)
Lemma writei_correct_witness :
  exists tot s' v' L' r' w, writei 0 true 100 1000 3000 ex_fs = Ret tot s' /\ ready 1 s' v' L' r' 0 /\
    wrote 0 ex_fs s' ex_view v' 1000 tot w /\ write_good (f_user ex_fs) 100 tot w (f_user s') /\ 0 <= tot <= 3000 /\
    (tot = 3000 \/ all_used v' ex_sb).
Proof.
  apply (writei_correct 1 ex_fs ex_view [] 26 0 100 1000 3000); try lia; [exact ex_ready|exact ex_mem_inv|closed| |closed].
  intros x Hx. simpl. unfold ex_mem. replace (_ && _) with true by lia. discriminate.
Defined.

Lemma write_read_witness :
  exists tot s1 s2 v1, writei_local 0 (seqZ 1 100) 1000 ex_fs = Ret tot s1 /\ (tot = 100 \/ all_used v1 ex_sb) /\ 0 <= tot <= 100 /\
    readi_local 0 1000 tot s1 = Ret (tot, take (Z.to_nat tot) (seqZ 1 100)) s2.
Proof.
  apply (write_read 1 ex_fs ex_view [] 26 0 (seqZ 1 100) 1000); try lia; [exact ex_ready| |closed|reflexivity|closed].
  apply Forall_forall. intros x Hx. apply elem_of_seqZ in Hx. lia.
Defined.
End ExampleDisk.
