(* ===== verification/FsDir.v ===== *)
(** * Directories and paths

    A directory is a file of 16-byte entries; seen from outside it is a partial
    map from names to inode numbers, names being compared up to the first NUL
    and in the first [DIRSIZ] characters ([key]).  [dirlookup] is the lookup of
    that map and [dirlink] its insertion; [iget] keeps at most one entry per
    inode in the table of inodes in memory; [skipelem] takes a path apart. *)

From S2P Require Import Prelude Sleeplock Block Log Txn UserMem Fs FsBlocks FsInode FsData FsSpec.

(** ** Names *)

Fixpoint upto_nul (s : list Z) : list Z :=
  match s with
  | [] => []
  | c :: s' => if c =? 0 then [] else c :: upto_nul s'
  end.
Definition key (name : list Z) : list Z := upto_nul (take (Z.to_nat DIRSIZ) name).

Lemma strncmp_shift n c d p q : forall i, 0 <= i -> strncmp_from n (c :: p) (d :: q) (i + 1) = strncmp_from n p q i.
Proof.
  induction n as [|n IH]; intros i Hi; [reflexivity|]. cbn [strncmp_from].
  assert (E : forall x l, cchar (x :: l) (i + 1) = cchar l i).
  { intros x l. unfold cchar. replace (Z.to_nat (i + 1)) with (S (Z.to_nat i)) by lia. reflexivity. }
  rewrite !E, IH by lia. reflexivity.
Qed.

(** An empty rest of a string reads as NUL. *)
Lemma strncmp_nil_l n q : strncmp_from n [] q 0 = strncmp_from n [0] q 0.
Proof. destruct n; [reflexivity|]. cbn [strncmp_from]. destruct q; reflexivity. Qed.

Lemma strncmp_key n : forall p q, (strncmp_from n p q 0 = 0 <-> upto_nul (take n p) = upto_nul (take n q)).
Proof.
  induction n as [|n IH]; intros p q; [simpl; tauto|].
  destruct p as [|c p], q as [|d q]; cbn [strncmp_from take firstn upto_nul]; unfold cchar; simpl nth.
  - simpl. tauto.
  - destruct (Z.eqb_spec d 0) as [->|Hd]; simpl; [tauto|]. split; intros H; [lia|discriminate].
  - destruct (Z.eqb_spec c 0) as [->|Hc]; simpl; [tauto|]. destruct (Z.eqb_spec c 0); [contradiction|]. split; intros H; [lia|discriminate].
  - destruct (Z.eqb_spec c 0) as [->|Hc]; simpl.
    + destruct (Z.eqb_spec d 0) as [->|Hd]; [tauto|]. split; intros H; [lia|discriminate].
    + destruct (Z.eqb_spec c d) as [->|Hcd]; simpl.
      * destruct (Z.eqb_spec d 0); [contradiction|]. replace 1 with (0 + 1) by lia. rewrite strncmp_shift by lia.
        rewrite IH. split; [intros ->; reflexivity|congruence].
      * destruct (Z.eqb_spec d 0); (split; intros H; [lia|congruence]).
Qed.

(** [namecmp] is 0 exactly on names that are the same. *)
Lemma namecmp_key s t : (namecmp s t =? 0) = bool_decide (key s = key t).
Proof.
  apply eq_iff_eq_true. rewrite Z.eqb_eq, bool_decide_eq_true. unfold namecmp, key. apply strncmp_key.
Qed.

Lemma upto_nul_app a b : upto_nul (a ++ 0 :: b) = upto_nul a.
Proof. induction a as [|c a IH]; [reflexivity|]. simpl. rewrite IH. reflexivity. Qed.

(** The entry [dirlink] makes carries the name and the number. *)
Lemma mk_dirent_length inum name : length (mk_dirent inum name) = 16%nat.
Proof. unfold mk_dirent. rewrite length_app, length_take, length_app, length_replicate. change (Z.to_nat DIRSIZ) with 14%nat. cbn [length]. lia. Qed.

Lemma mk_dirent_inum inum name : 0 <= inum < 2 ^ 16 -> de_inum (mk_dirent inum name) = inum.
Proof. intros Hi. unfold de_inum, cchar. change (Z.to_nat 0) with 0%nat. change (Z.to_nat 1) with 1%nat. unfold mk_dirent. cbn [app nth]. unfold u16. dlia. Qed.

Lemma mk_dirent_name inum name : key (de_name (mk_dirent inum name)) = key name.
Proof.
  unfold key. change (de_name _) with (take (Z.to_nat DIRSIZ) (name ++ replicate (Z.to_nat DIRSIZ) 0)). rewrite take_take, Nat.min_id.
  destruct (decide (length name < Z.to_nat DIRSIZ)%nat) as [Hl|Hl].
  - rewrite take_app, (take_ge name) by lia. rewrite take_replicate. unfold DIRSIZ in *.
    destruct (Nat.min (Z.to_nat 14 - length name) (Z.to_nat 14)) as [|k] eqn:E; [lia|]. apply upto_nul_app.
  - rewrite take_app_le by lia. reflexivity.
Qed.

Lemma mk_dirent_bytes inum name : bytes name -> bytes (mk_dirent inum name).
Proof.
  intros Hn. unfold mk_dirent. pose proof (Z.mod_pos_bound inum (2 ^ 16) ltac:(lia)). apply Forall_app. split.
  - repeat constructor; unfold u16 in *; dlia.
  - apply Forall_take, Forall_app. split; [exact Hn|]. apply Forall_replicate. lia.
Qed.

(** ** The table of inodes *)

Definition holds (tbl : Z -> inode) (dev inum k : Z) : bool :=
  (0 <? i_ref (tbl k)) && (i_dev (tbl k) =? dev) && (i_inum (tbl k) =? inum).

(** An inode has at most one entry, and reference counts stay in range. *)
Record itable_ok (tbl : Z -> inode) : Prop := {
  it_one : forall dev inum j k, 0 <= j < NINODE -> 0 <= k < NINODE -> holds tbl dev inum j = true -> holds tbl dev inum k = true -> j = k;
  it_ref : forall k, 0 <= k < NINODE -> 0 <= i_ref (tbl k) < 2 ^ 31 - 1
}.

Lemma iget_scan_spec n tbl dev inum : forall ip e,
  match iget_scan n tbl dev inum ip e with
  | (Some j, _) => ip <= j < ip + Z.of_nat n /\ holds tbl dev inum j = true
  | (None, e') => (forall k, ip <= k < ip + Z.of_nat n -> holds tbl dev inum k = false) /\
      match e with
      | Some _ => e' = e
      | None => match e' with
                | Some j => ip <= j < ip + Z.of_nat n /\ i_ref (tbl j) = 0
                | None => forall k, ip <= k < ip + Z.of_nat n -> i_ref (tbl k) <> 0
                end
      end
  end.
Proof.
  induction n as [|n IH]; intros ip e; cbn [iget_scan].
  { split; [intros; lia|]. destruct e; auto. intros; lia. }
  fold (holds tbl dev inum ip). destruct (holds tbl dev inum ip) eqn:Eh; [split; [lia|exact Eh]|].
  assert (Hall : forall (P : Z -> Prop), P ip -> (forall k, ip + 1 <= k < ip + 1 + Z.of_nat n -> P k) -> forall k, ip <= k < ip + Z.of_nat (S n) -> P k).
  { intros P H1 H2 k Hk. destruct (decide (k = ip)) as [->|]; [exact H1|]. apply H2. lia. }
  set (e1 := match e with None => if i_ref (tbl ip) =? 0 then Some ip else None | Some _ => e end).
  specialize (IH (ip + 1) e1). destruct (iget_scan n tbl dev inum (ip + 1) e1) as [[j|] e'].
  - destruct IH as [H1 H2]. split; [lia|exact H2].
  - destruct IH as [H1 H2]. split; [apply Hall; assumption|]. destruct e as [x|]; [exact H2|]. unfold e1 in H2.
    destruct (Z.eqb_spec (i_ref (tbl ip)) 0) as [E0|E0].
    + subst e'. split; [lia|exact E0].
    + destruct e' as [j|]; [destruct H2; split; [lia|assumption]|]. apply Hall; assumption.
Qed.

(** ** Lists of entries *)

Fixpoint lookup_in (l : list (list Z)) (k : list Z) : option Z :=
  match l with
  | [] => None
  | de :: l => if de_inum de =? 0 then lookup_in l k
               else if bool_decide (k = key (de_name de)) then Some (de_inum de) else lookup_in l k
  end.

Lemma lookup_in_fill l w k : forall m de, l !! m = Some de -> de_inum de = 0 -> de_inum w <> 0 ->
  lookup_in l (key (de_name w)) = None ->
  lookup_in (<[m := w]> l) k = if decide (k = key (de_name w)) then Some (de_inum w) else lookup_in l k.
Proof.
  induction l as [|d l IH]; intros m de Hm H0 Hw Hn; [discriminate|]. destruct m as [|m].
  - simpl in Hm. simplify_eq. change (<[0%nat := w]> (de :: l)) with (w :: l). cbn [lookup_in] in *. replace (de_inum de =? 0) with true in * by lia.
    replace (de_inum w =? 0) with false by lia. case_decide as E; [rewrite bool_decide_true by exact E|rewrite bool_decide_false by exact E]; reflexivity.
  - simpl in Hm. change (<[S m := w]> (d :: l)) with (d :: <[m := w]> l). cbn [lookup_in] in *. destruct (de_inum d =? 0); [eapply IH; eauto|].
    destruct (bool_decide (key (de_name w) = key (de_name d))) eqn:E; [discriminate|]. apply bool_decide_eq_false in E.
    rewrite (IH m de Hm H0 Hw Hn).
    case_bool_decide as E'; [|reflexivity]. rewrite decide_False by congruence. reflexivity.
Qed.

Lemma lookup_in_app l w k : de_inum w <> 0 -> lookup_in l (key (de_name w)) = None ->
  lookup_in (l ++ [w]) k = if decide (k = key (de_name w)) then Some (de_inum w) else lookup_in l k.
Proof.
  intros Hw. induction l as [|d l IH]; intros Hn; cbn [app lookup_in] in *.
  - replace (de_inum w =? 0) with false by lia. case_decide as E; [rewrite bool_decide_true by exact E|rewrite bool_decide_false by exact E]; reflexivity.
  - destruct (de_inum d =? 0); [auto|]. destruct (bool_decide (key (de_name w) = key (de_name d))) eqn:E; [discriminate|].
    apply bool_decide_eq_false in E. rewrite (IH Hn). case_bool_decide as E'; [|reflexivity].
    rewrite decide_False by congruence. reflexivity.
Qed.

Section Dir.
Context {T U : Type} `{TX : Txn T} (dev : Z) `{TL : !TxnLaws T dev} `{UM : UserMem U}.
Implicit Types s : fs T U.

Lemma iget_run (s : fs T U) inum : f_itlock s = false ->
  iget dev inum s =
    match iget_scan (Z.to_nat NINODE) (f_inode s) dev inum 0 None with
    | (Some ip, _) => Ret ip (set_inode ip (fun i => with_ref (i32 (i_ref i + 1)) i) s)
    | (None, None) => Panic "iget: no inodes"
    | (None, Some ip) => Ret ip (set_inode ip (fun i => Inode dev inum 1 (i_lock i) false (i_type i) (i_major i) (i_minor i)
                                           (i_nlink i) (i_size i) (i_addrs i)) s)
    end.
Proof using.
  intros Hl. unfold iget. rewrite (bind_ret_l _ _ _ tt (set itable_lock true s)) by (unfold acquire; simpl; rewrite Hl; reflexivity).
  rewrite bind_gets. change (f_inode (set itable_lock true s)) with (f_inode s).
  destruct (iget_scan _ _ _ _ _ _) as [[j|] [e|]]; destruct s; simpl in *; subst; reflexivity.
Qed.

(** The table of inodes keeps one entry per inode: [iget] returns the entry
    of the inode if there is one, and a free entry otherwise; its reference
    count goes up by one, no other entry changes, and the table is well formed
    again.  It panics only when the inode is not there and no entry is free. *)
Theorem iget_correct (s : fs T U) inum : f_itlock s = false -> itable_ok (f_inode s) ->
  (forall k, 0 <= k < NINODE -> i_ref (f_inode s k) + 1 < 2 ^ 31 - 1) ->
  (exists ip s', iget dev inum s = Ret ip s' /\ 0 <= ip < NINODE /\ itable_ok (f_inode s') /\
     holds (f_inode s') dev inum ip = true /\ i_ref (f_inode s' ip) = i_ref (f_inode s ip) + 1 /\
     (i_ref (f_inode s ip) = 0 -> i_valid (f_inode s' ip) = false) /\
     (forall k, k <> ip -> f_inode s' k = f_inode s k) /\ f_txn s' = f_txn s /\ f_itlock s' = false) \/
  (iget dev inum s = Panic "iget: no inodes" /\
   forall k, 0 <= k < NINODE -> i_ref (f_inode s k) <> 0 /\ holds (f_inode s) dev inum k = false).
Proof using.
  intros Hl [Hone Href] Hroom. rewrite iget_run by exact Hl.
  pose proof (iget_scan_spec (Z.to_nat NINODE) (f_inode s) dev inum 0 None) as Hs.
  assert (Hn : 0 + Z.of_nat (Z.to_nat NINODE) = NINODE) by reflexivity. rewrite Hn in Hs. clear Hn.
  destruct (iget_scan _ _ _ _ _ _) as [[j|] e].
  - left. destruct Hs as [Hj Hh]. pose proof (Href j Hj). pose proof (Hroom j Hj) as Hr1. eexists j, _. split; [reflexivity|]. split; [exact Hj|].
    assert (Eh : forall d n k, holds (upd (f_inode s) j (with_ref (i32 (i_ref (f_inode s j) + 1)) (f_inode s j))) d n k = holds (f_inode s) d n k).
    { intros d n k. unfold holds, upd. destruct (Z.eqb_spec k j) as [->|]; [|reflexivity]. simpl. rewrite i32_small by lia.
      unfold holds in Hh. b2p. do 2 f_equal. apply eq_iff_eq_true. rewrite !Z.ltb_lt. lia. }
    simpl. split; [|split; [rewrite Eh; exact Hh|]].
    + split; [intros d n a b Ha Hb; rewrite !Eh; eauto|]. intros k Hk. unfold upd. case_test; [|auto]. simpl. rewrite i32_small; lia.
    + rewrite upd_eq. simpl. rewrite i32_small by lia. repeat split; auto.
      * unfold holds in Hh. b2p. lia.
      * intros k Hk. apply upd_ne. exact Hk.
  - destruct Hs as [Hno Hs]. destruct e as [j|].
    2: { right. split; [reflexivity|]. intros k Hk. auto. }
    left. destruct Hs as [Hj H0]. eexists j, _. split; [reflexivity|]. split; [exact Hj|]. simpl.
    set (new := Inode dev inum 1 _ _ _ _ _ _ _ _).
    assert (Ej : forall d n, holds (upd (f_inode s) j new) d n j = (dev =? d) && (inum =? n)) by (intros; unfold holds; rewrite upd_eq; reflexivity).
    assert (Ek : forall d n k, k <> j -> holds (upd (f_inode s) j new) d n k = holds (f_inode s) d n k) by (intros; unfold holds; rewrite upd_ne by assumption; reflexivity).
    split; [|split; [rewrite Ej, !Z.eqb_refl; reflexivity|]].
    + split.
      * intros d n a b Ha Hb. destruct (decide (a = j)) as [->|Ha'], (decide (b = j)) as [->|Hb']; auto; rewrite ?Ej, ?Ek by assumption.
        -- intros H1 H2. b2p. assert (d = dev) as -> by lia. assert (n = inum) as -> by lia. rewrite Hno in H2 by exact Hb. discriminate.
        -- intros H1 H2. b2p. assert (d = dev) as -> by lia. assert (n = inum) as -> by lia. rewrite Hno in H1 by exact Ha. discriminate.
        -- apply Hone; assumption.
      * intros k Hk. unfold upd. case_test; [simpl; lia|auto].
    + rewrite upd_eq. simpl. repeat split; auto; [lia|]. intros k Hk. apply upd_ne. exact Hk.
Qed.

(** ** The directory as a map *)

(** The first of [n] entries from [off] on that is in use and has the name. *)
Fixpoint dir_scan (n : nat) (v : Z -> block) (i : inode) (name : list Z) (off : Z) : option (Z * Z) :=
  match n with
  | O => None
  | S n =>
      let de := contents v i off DIRENT in
      if de_inum de =? 0 then dir_scan n v i name (off + DIRENT)
      else if bool_decide (key name = key (de_name de)) then Some (de_inum de, off)
      else dir_scan n v i name (off + DIRENT)
  end.

Definition dir_find (v : Z -> block) (i : inode) (name : list Z) : option (Z * Z) :=
  dir_scan (Z.to_nat (i_size i / DIRENT)) v i name 0.
Definition dir_get (v : Z -> block) (i : inode) (name : list Z) : option Z := fst <$> dir_find v i name.

Record dir_ok (v : Z -> block) (i : inode) : Prop := {
  dk_type : i_type i = T_DIR;
  dk_size : i_size i mod DIRENT = 0;
  dk_has : has_blocks v i
}.

(** Reading one entry. *)
Lemma read_entry v L r dp off s : let i := f_inode s dp in
  i_dev i = dev -> has_blocks v i -> 0 <= off -> off + DIRENT <= i_size i -> blocks dev s [] v L r ->
  exists x, readi_local dp off DIRENT s = Ret (DIRENT, contents v i off DIRENT) (at_txn x s) /\ blocks dev (at_txn x s) [] v L r.
Proof using TL.
  intros i Hd Hb Hoff Hfit B. pose proof (hb_size _ _ Hb) as Hsz.
  assert (Hmax : i_size i < 2 ^ 31) by (unfold MAXFILE, NDIRECT, NINDIRECT, BSIZE in *; dlia).
  assert (Hav : avail i off DIRENT = DIRENT).
  { unfold avail. replace (i_size i <? off) with false by (unfold DIRENT in *; lia).
    replace (2 ^ 32 <=? off + DIRENT) with false by lia. simpl. lia. }
  destruct (readi_local_ok dev v L r dp off DIRENT s) as (x & E & B1); auto; try (unfold DIRENT in *; lia).
  fold i in E. rewrite Hav in E. eauto.
Qed.

Lemma dirlookup_loop_ok v L r dp name : forall n fuel off s, let i := f_inode s dp in
  i_dev i = dev -> has_blocks v i -> 0 <= off -> off + DIRENT * Z.of_nat n = i_size i -> (n < fuel)%nat -> blocks dev s [] v L r ->
  exists x, blocks dev (at_txn x s) [] v L r /\
    dirlookup_loop fuel dp name off s =
      match dir_scan n v i name off with
      | None => Ret (NULL, 0) (at_txn x s)
      | Some (inum, o) => (let! ip := iget dev inum in ret (ip, o)) (at_txn x s)
      end.
Proof using TL.
  induction n as [|n IH]; intros fuel off s i Hd Hb Hoff Hsz Hf B; (destruct fuel as [|fuel]; [lia|]); cbn [dirlookup_loop dir_scan];
    unfold get_inode; rewrite bind_gets; fold i.
  - replace (off <? i_size i) with false by lia. exists (f_txn s). split; [exact B|]. destruct s; reflexivity.
  - replace (off <? i_size i) with true by (unfold DIRENT in *; lia). rewrite Hd.
    destruct (read_entry v L r dp off s Hd Hb Hoff) as (x & E & B1); auto; [fold i; unfold DIRENT in *; lia|]. fold i in E. step. cbv beta iota.
    rewrite Z.eqb_refl. cbn [negb]. rewrite namecmp_key.
    assert (Hu : u32 (off + DIRENT) = off + DIRENT).
    { apply u32_small. pose proof (hb_size _ _ Hb). unfold DIRENT, MAXFILE, NDIRECT, NINDIRECT, BSIZE in *. dlia. }
    destruct (IH fuel (off + DIRENT) (at_txn x s)) as (x2 & B2 & E2); auto; try (simpl; fold i; unfold DIRENT in *; lia).
    change (f_inode (at_txn x s) dp) with i in E2. rewrite Hu.
    destruct (de_inum _ =? 0); [exists x2; auto|]. destruct (bool_decide _); [|exists x2; auto].
    exists x. split; [exact B1|reflexivity].
Qed.

Lemma dirlookup_ok v L r dp name s : let i := f_inode s dp in
  i_dev i = dev -> dir_ok v i -> blocks dev s [] v L r ->
  exists x, blocks dev (at_txn x s) [] v L r /\
    dirlookup dp name s =
      match dir_find v i name with
      | None => Ret (NULL, 0) (at_txn x s)
      | Some (inum, o) => (let! ip := iget dev inum in ret (ip, o)) (at_txn x s)
      end.
Proof using TL.
  intros i Hd [H1 H2 H3] B. unfold dirlookup, get_inode. rewrite bind_gets. fold i. rewrite H1.
  pose proof (hb_size _ _ H3). apply dirlookup_loop_ok; auto; fold i; unfold DIRENT in *; dlia.
Qed.

(** The first free entry, or the end. *)
Fixpoint free_scan (n : nat) (v : Z -> block) (i : inode) (off : Z) : Z :=
  match n with
  | O => off
  | S n => if de_inum (contents v i off DIRENT) =? 0 then off else free_scan n v i (off + DIRENT)
  end.

Lemma dirlink_loop_ok v L r dp : forall n fuel off s, let i := f_inode s dp in
  i_dev i = dev -> has_blocks v i -> 0 <= off -> off + DIRENT * Z.of_nat n = i_size i -> (n < fuel)%nat -> blocks dev s [] v L r ->
  exists x, blocks dev (at_txn x s) [] v L r /\ dirlink_loop fuel dp off s = Ret (free_scan n v i off) (at_txn x s).
Proof using TL.
  induction n as [|n IH]; intros fuel off s i Hd Hb Hoff Hsz Hf B; (destruct fuel as [|fuel]; [lia|]); cbn [dirlink_loop free_scan];
    unfold get_inode; rewrite bind_gets; fold i.
  - replace (off <? i_size i) with false by lia. exists (f_txn s). split; [exact B|]. destruct s; reflexivity.
  - replace (off <? i_size i) with true by (unfold DIRENT in *; lia).
    destruct (read_entry v L r dp off s Hd Hb Hoff) as (x & E & B1); auto; [fold i; unfold DIRENT in *; lia|]. fold i in E. step. cbv beta iota.
    rewrite Z.eqb_refl. cbn [negb]. destruct (de_inum _ =? 0); [exists x; split; [exact B1|reflexivity]|].
    destruct (IH fuel (off + DIRENT) (at_txn x s)) as (x2 & B2 & E2); auto; try (simpl; fold i; unfold DIRENT in *; lia).
    exists x2. auto.
Qed.

Lemma free_scan_range n v i : forall off, exists m, (m <= n)%nat /\ free_scan n v i off = off + DIRENT * Z.of_nat m /\
  (m = n \/ de_inum (contents v i (off + DIRENT * Z.of_nat m) DIRENT) = 0).
Proof using.
  induction n as [|n IH]; intros off; cbn [free_scan].
  - exists 0%nat. repeat split; auto. lia.
  - destruct (Z.eqb_spec (de_inum (contents v i off DIRENT)) 0) as [E|E].
    + exists 0%nat. split; [lia|]. split; [lia|]. right. rewrite Z.mul_0_r, Z.add_0_r. exact E.
    + destruct (IH (off + DIRENT)) as (m & H1 & H2 & H3). exists (S m). split; [lia|]. split; [lia|].
      destruct H3 as [->|H3]; [left; reflexivity|right]. rewrite <- H3. do 2 f_equal. lia.
Qed.

Definition entries_from (n : nat) (v : Z -> block) (i : inode) (off : Z) : list (list Z) :=
  (fun k => contents v i (off + DIRENT * Z.of_nat k) DIRENT) <$> seq 0 n.
Definition entries (v : Z -> block) (i : inode) : list (list Z) := entries_from (Z.to_nat (i_size i / DIRENT)) v i 0.

Lemma entries_from_S n v i off : entries_from (S n) v i off = contents v i off DIRENT :: entries_from n v i (off + DIRENT).
Proof using.
  unfold entries_from. cbn [seq fmap list_fmap]. f_equal; [f_equal; lia|].
  rewrite <- fmap_S_seq, <- list_fmap_compose. apply list_fmap_ext. intros j k _. simpl. f_equal. lia.
Qed.

Lemma dir_scan_entries n v i name : forall off, fst <$> dir_scan n v i name off = lookup_in (entries_from n v i off) (key name).
Proof using.
  induction n as [|n IH]; intros off; [reflexivity|]. rewrite entries_from_S. cbn [dir_scan lookup_in].
  destruct (de_inum _ =? 0); [apply IH|]. destruct (bool_decide _); [reflexivity|apply IH].
Qed.

Lemma dir_get_entries v i name : dir_get v i name = lookup_in (entries v i) (key name).
Proof using. apply dir_scan_entries. Qed.

Lemma entries_lookup v i k de : entries v i !! k = Some de <->
  (k < Z.to_nat (i_size i / DIRENT))%nat /\ de = contents v i (DIRENT * Z.of_nat k) DIRENT.
Proof using.
  unfold entries, entries_from. rewrite list_lookup_fmap. destruct (decide (k < Z.to_nat (i_size i / DIRENT))%nat) as [Hk|Hk].
  - rewrite lookup_seq_lt by lia. simpl. split; [intros E; simplify_eq; auto|intros [_ ->]; reflexivity].
  - rewrite lookup_seq_ge by lia. simpl. split; [discriminate|lia].
Qed.

(** The entries after entry [m] has been written. *)
Lemma entries_wrote ip s s' v v' m w : let i := f_inode s ip in let i' := f_inode s' ip in let n := Z.to_nat (i_size i / DIRENT) in
  0 <= i_size i -> i_size i mod DIRENT = 0 -> (m <= n)%nat -> length w = 16%nat ->
  wrote ip s s' v v' (DIRENT * Z.of_nat m) DIRENT w ->
  entries v' i' = if decide (m = n) then entries v i ++ [w] else <[m := w]> (entries v i).
Proof using.
  intros i i' n H0 Hmod Hm Hw W. pose proof (wr_inode _ _ _ _ _ _ _ _ W) as Ei. pose proof (wr_new _ _ _ _ _ _ _ _ W) as Hnew. fold i' in Hnew.
  assert (Esz : i_size i' = Z.max (i_size i) (DIRENT * Z.of_nat m + DIRENT)) by (unfold i'; rewrite Ei; reflexivity).
  assert (Hsz : i_size i = DIRENT * Z.of_nat n) by (unfold n, DIRENT in *; dlia).
  assert (En' : Z.to_nat (i_size i' / DIRENT) = if decide (m = n) then S n else n).
  { rewrite Esz, Hsz. unfold DIRENT. case_decide; dlia. }
  assert (Hold : forall k, (k < n)%nat -> k <> m -> contents v' i' (DIRENT * Z.of_nat k) DIRENT = contents v i (DIRENT * Z.of_nat k) DIRENT).
  { intros k Hk Hne. apply list_fmap_ext. intros j x Hx. apply lookup_seqZ in Hx as [-> Hj].
    apply (wr_old _ _ _ _ _ _ _ _ W); fold i; unfold DIRENT in *; lia. }
  assert (Hlen : length (entries v i) = n) by (unfold entries, entries_from; rewrite length_fmap, length_seq; reflexivity).
  apply list_eq. intros k. apply option_eq. intros de. rewrite entries_lookup, En'. fold n.
  destruct (decide (m = n)) as [->|Hmn].
  - destruct (decide (k < n)%nat) as [Hk|Hk].
    + rewrite lookup_app_l, entries_lookup, <- Hold by lia. split; intros [? ?]; split; auto; lia.
    + rewrite lookup_app_r, Hlen by lia. destruct (decide (k = n)) as [->|Hkn].
      * rewrite Nat.sub_diag. change ([w] !! 0%nat) with (Some w). rewrite Hnew. split; [intros [_ ->]; reflexivity|intros E; simplify_eq; split; [lia|reflexivity]].
      * rewrite lookup_ge_None_2 by (simpl; lia). split; [lia|discriminate].
  - destruct (decide (k = m)) as [->|Hkm].
    + rewrite list_lookup_insert_eq by lia. rewrite Hnew. split; [intros [_ ->]; reflexivity|intros E; simplify_eq; split; [lia|reflexivity]].
    + rewrite list_lookup_insert_ne, entries_lookup by congruence. fold n. split; intros [H1 H2]; (split; [exact H1|]); rewrite H2, ?Hold by lia; auto.
Qed.

(** Writing one entry fits in a transaction with room for four blocks. *)
Lemma entry_cost sb L i m : 0 <= m -> write_cost sb L i (DIRENT * m) DIRENT <= 4.
Proof using.
  intros Hm. unfold write_cost. pose proof (need_bound sb L i). unfold left. change (0 <? DIRENT) with true. unfold DIRENT, BSIZE. dlia.
Qed.

Lemma link_entry s v L r dp name inum m : let i := f_inode s dp in let n := Z.to_nat (i_size i / DIRENT) in
  ready dev s v L r dp -> dir_ok v i -> bytes name -> 0 < inum < 2 ^ 16 -> 4 <= r -> dir_get v i name = None ->
  (m <= n)%nat -> (m = n \/ de_inum (contents v i (DIRENT * Z.of_nat m) DIRENT) = 0) ->
  (exists s' v' L' r', writei_local dp (mk_dirent inum name) (DIRENT * Z.of_nat m) s = Ret DIRENT s' /\
     ready dev s' v' L' r' dp /\ dir_ok v' (f_inode s' dp) /\
     (forall name', dir_get v' (f_inode s' dp) name' = if decide (key name' = key name) then Some inum else dir_get v i name')) \/
  (exists tot s', writei_local dp (mk_dirent inum name) (DIRENT * Z.of_nat m) s = Ret tot s' /\ tot <> DIRENT /\
     (i_size i = MAXFILE * BSIZE \/ exists v' L' r', ready dev s' v' L' r' dp /\ all_used v' (f_sb s))).
Proof using TL.
  intros i n R [Dt Dm Db] Hname Hinum Hr Hnone Hm Hslot. pose proof R as [R1 R2 R3 R4 R5 R6 R7 R8 R9]. fold i in R4, R5, R7, R8.
  pose proof (hb_size _ _ R5) as Hsz. assert (Hmax : MAXFILE * BSIZE < 2 ^ 31) by (unfold MAXFILE, NDIRECT, NINDIRECT, BSIZE; dlia).
  assert (Hsn : i_size i = DIRENT * Z.of_nat n) by (unfold n, DIRENT in *; dlia).
  pose proof (mk_dirent_length inum name) as Hl. unfold writei_local. replace (Z.of_nat (length (mk_dirent inum name))) with DIRENT by (rewrite Hl; reflexivity).
  assert (Hoff : 0 <= DIRENT * Z.of_nat m <= i_size i) by (rewrite Hsn; unfold DIRENT; lia).
  destruct (write_refused i (DIRENT * Z.of_nat m) DIRENT) eqn:Eref.
  { right. exists (-1), s. split; [apply writei_refused; auto; unfold DIRENT in *; lia|]. split; [unfold DIRENT; lia|]. left.
    unfold write_refused in Eref. replace (i_size i <? DIRENT * Z.of_nat m) with false in Eref by lia.
    replace (2 ^ 32 <=? DIRENT * Z.of_nat m + DIRENT) with false in Eref by (unfold DIRENT in *; lia). simpl in Eref. b2p.
    unfold MAXFILE, NDIRECT, NINDIRECT, BSIZE, DIRENT in *. dlia. }
  destruct (writei_gen_ok dev (local_src (mk_dirent inum name)) 0 DIRENT (fun k w u => w = take (Z.to_nat k) (mk_dirent inum name) /\ u = f_user s)
              dp (DIRENT * Z.of_nat m) s v L r) as (tot & s' & v' & L' & r' & w & E & B & W & [G _] & Ht & Hfull); auto; try (unfold DIRENT in *; lia).
  { replace DIRENT with (Z.of_nat (length (mk_dirent inum name))) by (rewrite Hl; reflexivity).
    apply local_src_ok; [apply mk_dirent_bytes; exact Hname|rewrite Hl; lia]. }
  { fold i. pose proof (entry_cost (f_sb s) L i (Z.of_nat m) ltac:(lia)). lia. }
  pose proof (ready_wrote dev _ _ _ _ _ _ _ _ _ _ _ _ R W B) as R'.
  destruct (decide (tot = DIRENT)) as [->|Hne].
  2: { right. exists tot, s'. split; [exact E|]. split; [exact Hne|]. right. exists v', L', r'. destruct Hfull; [contradiction|auto]. }
  left. exists s', v', L', r'. split; [exact E|]. split; [exact R'|].
  assert (Ew : w = mk_dirent inum name) by (rewrite G, take_ge by (rewrite Hl; unfold DIRENT; lia); reflexivity).
  pose proof (wr_inode _ _ _ _ _ _ _ _ W) as Ei. fold i in Ei. split.
  { destruct R' as [_ _ _ _ Q5 _ _ _ _]. split; [rewrite Ei; exact Dt| |exact Q5]. rewrite Ei. simpl. rewrite Hsn. unfold DIRENT in *. dlia. }
  intros name'. assert (Hlw : length w = 16%nat) by (rewrite Ew; exact Hl).
  rewrite !dir_get_entries, (entries_wrote dp s s' v v' m w (proj1 Hsz) Dm Hm Hlw W). fold i n.
  rewrite dir_get_entries in Hnone. rewrite <- (mk_dirent_name inum name) in Hnone |- *. rewrite <- Ew in Hnone |- *.
  assert (Hiw : de_inum w = inum) by (rewrite Ew; apply mk_dirent_inum; lia).
  destruct (decide (m = n)) as [->|Hmn].
  - rewrite lookup_in_app by (rewrite ?Hiw; auto; lia). rewrite Hiw. reflexivity.
  - destruct Hslot as [Hslot|Hslot]; [contradiction|].
    rewrite (lookup_in_fill _ _ _ m (contents v i (DIRENT * Z.of_nat m) DIRENT)); auto; [rewrite Hiw; reflexivity| |lia].
    apply entries_lookup. split; [fold n; lia|reflexivity].
Qed.

(** C9. Directories implement maps from names to inode numbers, names being the
    same if their first 14 characters up to a NUL are.  Looking up a name gives
    the entry the map has for it, or no inode.  Linking a name that is there
    fails; linking a new name returns 0 and the map has gained exactly that
    name, or it returns -1, which happens only when the disk is full or the
    directory has its maximal size. *)
Theorem directory_refines_map wakeups s v L r dp name inum : let i := f_inode s dp in
  ready dev s v L r dp -> dir_ok v i -> bytes name -> 0 < inum < 2 ^ 16 -> 4 <= r ->
  (exists x, blocks dev (at_txn x s) [] v L r /\
     match dir_get v i name with
     | None => dirlookup dp name s = Ret (NULL, 0) (at_txn x s)
     | Some k => exists o, dirlookup dp name s = (let! ip := iget dev k in ret (ip, o)) (at_txn x s) /\
         forall ip s1, iget dev k (at_txn x s) = Ret ip s1 -> ip <> NULL ->
           dirlink wakeups dp name inum s = (iput wakeups ip ;; ret (-1)) s1
     end) /\
  (dir_get v i name = None ->
   exists res s', dirlink wakeups dp name inum s = Ret res s' /\
     (res = 0 /\ (exists v' L' r', ready dev s' v' L' r' dp /\ dir_ok v' (f_inode s' dp) /\
        forall name', dir_get v' (f_inode s' dp) name' = if decide (key name' = key name) then Some inum else dir_get v i name') \/
      res = -1 /\ (i_size i = MAXFILE * BSIZE \/ exists v' L' r', ready dev s' v' L' r' dp /\ all_used v' (f_sb s)))).
Proof using TL.
  intros i R D Hname Hinum Hr. pose proof R as [R1 R2 R3 R4 R5 R6 R7 R8 R9].
  destruct (dirlookup_ok v L r dp name s R7 D R9) as (x & B & E). fold i in E. split.
  - exists x. split; [exact B|]. unfold dir_get. destruct (dir_find v i name) as [[k o]|]; simpl; [|exact E].
    exists o. split; [exact E|]. intros ip s1 Eg Hip. unfold dirlink. unfold bind at 1. rewrite E. unfold bind at 1.
    rewrite Eg. cbn [bindr ret]. replace (negb (ip =? NULL)) with true by lia. reflexivity.
  - intros Hnone. assert (Hfind : dir_find v i name = None) by (unfold dir_get in Hnone; destruct (dir_find v i name); [discriminate|reflexivity]).
    rewrite Hfind in E. unfold dirlink. rewrite (bind_ret_l _ _ _ _ _ E). cbv beta iota. cbn [negb Z.eqb NULL Pos.eqb].
    unfold get_inode. rewrite bind_gets. change (f_inode (at_txn x s) dp) with i.
    destruct D as [Dt Dm Db]. pose proof (hb_size _ _ Db) as Hsz.
    destruct (dirlink_loop_ok v L r dp (Z.to_nat (i_size i / DIRENT)) (Z.to_nat (i_size i / DIRENT + 2)) 0 (at_txn x s)) as (x2 & B2 & E2); auto;
      try (simpl; fold i; unfold DIRENT in *; dlia).
    change (f_inode (at_txn x s) dp) with i in E2. rewrite (bind_ret_l _ _ _ _ _ E2).
    destruct (free_scan_range (Z.to_nat (i_size i / DIRENT)) v i 0) as (m & M1 & M2 & M3). rewrite Z.add_0_l in M2, M3. rewrite M2.
    assert (R2' : ready dev (at_txn x2 s) v L r dp) by (split; assumption).
    change (at_txn x2 (at_txn x s)) with (at_txn x2 s).
    destruct (link_entry (at_txn x2 s) v L r dp name inum m R2') as [(s' & v' & L' & r' & E3 & R' & D' & G)|(tot & s' & E3 & Hne & H)]; auto; [split; assumption| |].
    + rewrite (bind_ret_l _ _ _ _ _ E3). exists 0, s'. split; [reflexivity|]. left. split; [reflexivity|]. exists v', L', r'. auto.
    + rewrite (bind_ret_l _ _ _ _ _ E3). exists (-1), s'. replace (tot =? DIRENT) with false by lia. split; [reflexivity|]. right. auto.
Qed.
End Dir.

(** ** Paths *)

(** The pieces between slashes, and those of them that are not empty. *)
Fixpoint pieces (path : list Z) : list (list Z) :=
  match path with
  | [] => [[]]
  | c :: path =>
      if c =? slash then [] :: pieces path
      else match pieces path with
           | e :: es => (c :: e) :: es
           | [] => [[c]]
           end
  end.
Definition elems (path : list Z) : list (list Z) := filter (fun e => e <> []) (pieces path).

Lemma elems_slash path : elems (slash :: path) = elems path.
Proof. unfold elems. cbn [pieces]. rewrite Z.eqb_refl, filter_cons, decide_False by tauto. reflexivity. Qed.

Lemma elems_skip path : elems (skip_slashes path) = elems path /\ (length (skip_slashes path) <= length path)%nat.
Proof.
  induction path as [|c path IH]; [auto|]. cbn [skip_slashes]. destruct (Z.eqb_spec c slash) as [->|Hc]; [|auto].
  rewrite elems_slash. simpl. split; [apply IH|]. destruct IH. lia.
Qed.

Lemma skip_head path c rest : skip_slashes path = c :: rest -> c <> slash.
Proof.
  induction path as [|d path IH]; simpl; [discriminate|]. destruct (Z.eqb_spec d slash) as [->|Hd]; [exact IH|].
  intros E. congruence.
Qed.

Lemma span_pieces path e rest : span_elem path = (e, rest) ->
  (length rest <= length path)%nat /\
  ((rest = [] /\ pieces path = [e]) \/ exists rest', rest = slash :: rest' /\ pieces path = e :: pieces rest').
Proof.
  revert e rest. induction path as [|c path IH]; intros e rest E; simpl in E.
  - simplify_eq. auto.
  - destruct (Z.eqb_spec c slash) as [->|Hc].
    + simplify_eq. split; [auto|]. right. exists path. auto.
    + destruct (span_elem path) as [e1 r1]. injection E as <- <-. destruct (IH e1 r1 eq_refl) as [Hl IHr].
      split; [simpl; lia|]. cbn [pieces]. replace (c =? slash) with false by lia.
      destruct IHr as [[-> ->]|(rest' & -> & ->)]; eauto.
Qed.

Lemma elems_empty path : skip_slashes path = path -> (path = [] <-> elems path = []).
Proof.
  intros Hs. split; [intros ->; reflexivity|]. destruct path as [|c path]; [reflexivity|].
  pose proof (skip_head _ _ _ Hs) as Hc. unfold elems. cbn [pieces]. replace (c =? slash) with false by lia.
  destruct (pieces path); rewrite filter_cons, decide_True by discriminate; discriminate.
Qed.

Lemma skip_skip path : skip_slashes (skip_slashes path) = skip_slashes path.
Proof.
  induction path as [|c path IH]; [reflexivity|]. simpl. destruct (c =? slash) eqn:E; [exact IH|]. simpl. rewrite E. reflexivity.
Qed.

(** [skipelem] takes a path apart at its slashes: it finds no element exactly
    when the path has none, and otherwise splits off the first one, cut to
    [DIRSIZ] characters, leaving a shorter path with the remaining elements; the
    rest is the empty string exactly when the element was the last one, which is
    how [nameiparent] knows where to stop. *)
Theorem skipelem_correct path :
  match skipelem path with
  | None => elems path = []
  | Some (name, rest) => exists e, elems path = e :: elems rest /\ e <> [] /\ name = take (Z.to_nat DIRSIZ) e /\
      (length rest < length path)%nat /\ (rest = [] <-> elems rest = [])
  end.
Proof.
  destruct (elems_skip path) as [Es Hl]. unfold skipelem. destruct (skip_slashes path) as [|c p] eqn:E.
  { rewrite <- Es. reflexivity. }
  pose proof (skip_head _ _ _ E) as Hc. destruct (span_elem (c :: p)) as [e rest] eqn:Esp.
  destruct (span_pieces _ _ _ Esp) as [Hlr Hp]. destruct (elems_skip rest) as [Er Hl2].
  assert (He : e <> []).
  { intros ->. simpl in Esp. replace (c =? slash) with false in Esp by lia. destruct (span_elem p). discriminate. }
  assert (Hlt : (length rest < length (c :: p))%nat).
  { simpl in Esp. replace (c =? slash) with false in Esp by lia. destruct (span_elem p) as [e1 r1] eqn:E1. injection Esp as <- <-.
    destruct (span_pieces _ _ _ E1) as [Hl1 _]. simpl. lia. }
  exists e. split; [|split; [exact He|split; [reflexivity|split; [lia|apply elems_empty, skip_skip]]]].
  rewrite <- Es, Er. unfold elems at 1. destruct Hp as [[-> ->]|(rest' & -> & ->)].
  - rewrite filter_cons, decide_True by exact He. reflexivity.
  - rewrite filter_cons, decide_True by exact He. reflexivity.
Qed.

(** ** Examples *)

Module ExampleDir.
Import Ideal IdealMem ExampleDisk.

(** Inode 2 as a directory of 64 free entries. *)
Definition ex_dir : inode :=
  Inode 1 2 1 (Sleeplock true false 7) true T_DIR 0 0 1 1024 [36; 37; 0; 0; 0; 0; 0; 0; 0; 0; 0; 0; 0].
Definition ex_dirfs : fs (logst bst) imem :=
  FS ex_log ex_sb false (fun k => if k =? 0 then ex_dir else Inode 0 0 0 initsleeplock false 0 0 0 0 0 []) 0 7 ex_mem [].

Lemma ex_dir_has : has_blocks ex_view ex_dir.
Proof.
  split; [closed|]. intros o Ho. change (i_size ex_dir) with 1024 in Ho. change (addr_of ex_view ex_dir) with (addr_of ex_view ex_inode).
  rewrite ex_addr by (unfold MAXFILE, NDIRECT, NINDIRECT, BSIZE; dlia). destruct (Z.eqb_spec (o / BSIZE) 0); [lia|]. unfold BSIZE in *. dlia.
Qed.

Lemma ex_dir_ready : ready (T := logst bst) (U := imem) 1 ex_dirfs ex_view [] 26 0.
Proof.
  split; [exact ex_sb_ok|vm_compute; congruence|exact ex_reserved| |exact ex_dir_has|exact ex_byte|reflexivity|split; closed|exact ex_blocks].
  destruct ex_file as [F1 F2 F3 F4]. split; assumption.
Qed.

Lemma ex_dir_ok : dir_ok ex_view ex_dir.
Proof. split; [reflexivity|reflexivity|exact ex_dir_has]. Qed.

Lemma ex_dir_table : itable_ok (f_inode ex_dirfs).
Proof.
  split.
  - intros d n j k Hj Hk. unfold holds. simpl. destruct (Z.eqb_spec j 0), (Z.eqb_spec k 0); simpl; try discriminate. congruence.
  - intros k Hk. simpl. destruct (k =? 0); simpl; lia.
Qed.

Lemma iget_correct_witness :
  (exists ip s', iget 1 5 ex_dirfs = Ret ip s' /\ 0 <= ip < NINODE /\ itable_ok (f_inode s') /\
     holds (f_inode s') 1 5 ip = true /\ i_ref (f_inode s' ip) = i_ref (f_inode ex_dirfs ip) + 1 /\
     (i_ref (f_inode ex_dirfs ip) = 0 -> i_valid (f_inode s' ip) = false) /\
     (forall k, k <> ip -> f_inode s' k = f_inode ex_dirfs k) /\ f_txn s' = f_txn ex_dirfs /\ f_itlock s' = false) \/
  (iget 1 5 ex_dirfs = Panic "iget: no inodes" /\
   forall k, 0 <= k < NINODE -> i_ref (f_inode ex_dirfs k) <> 0 /\ holds (f_inode ex_dirfs) 1 5 k = false).
Proof.
  apply (iget_correct 1 ex_dirfs 5); [reflexivity|exact ex_dir_table|]. intros k Hk. simpl. destruct (k =? 0); simpl; lia.
Defined.

(** The name "ab" is not there and gets inode 5. *)
Lemma directory_refines_map_witness :
  exists res s', dirlink 3 0 [97; 98] 5 ex_dirfs = Ret res s' /\
    (res = 0 /\ (exists v' L' r', ready 1 s' v' L' r' 0 /\ dir_ok v' (f_inode s' 0) /\
       forall name', dir_get v' (f_inode s' 0) name' = if decide (key name' = key [97; 98]) then Some 5 else dir_get ex_view ex_dir name') \/
     res = -1 /\ (i_size ex_dir = MAXFILE * BSIZE \/ exists v' L' r', ready 1 s' v' L' r' 0 /\ all_used v' ex_sb)).
Proof.
  apply (directory_refines_map (U := imem) 1 3 ex_dirfs ex_view [] 26 0 [97; 98] 5); try lia; [exact ex_dir_ready|exact ex_dir_ok| |].
  - repeat constructor; lia.
  - reflexivity.
Defined.
End ExampleDir.
