(* ===== verification/File.v ===== *)
(** * Open files

    [kernel/file.c] and the allocation of pipes of [kernel/pipe.c]: the table of
    open files, over the file system ([Fs]), the pipes ([Pipe]) and the
    devices.  Files are numbered by their place in the table, a pipe by the
    address of its page.  The functions of the device table [devsw] are given
    by their drivers; they act on the state of the devices and the memory of
    the process. *)

From S2P Require Import Prelude Riscv Kalloc Vm Sleeplock Block Log Txn UserMem Fs Pipe.

Definition NFILE : Z := 100.
Definition NDEV : Z := 10.
Definition NOFILE : Z := 16.

Inductive ftype : Type := FD_NONE | FD_PIPE | FD_INODE | FD_DEVICE.

Record file : Type := File {
  fi_type : ftype;
  fi_ref : Z;
  fi_readable : bool;
  fi_writable : bool;
  fi_pipe : Z;
  fi_ip : Z;
  fi_off : Z;
  fi_major : Z
}.

Definition fi_set_ref (r : Z) (f : file) : file :=
  File (fi_type f) r (fi_readable f) (fi_writable f) (fi_pipe f) (fi_ip f) (fi_off f) (fi_major f).
Definition fi_set_type (t : ftype) (f : file) : file :=
  File t (fi_ref f) (fi_readable f) (fi_writable f) (fi_pipe f) (fi_ip f) (fi_off f) (fi_major f).
Definition fi_set_off (o : Z) (f : file) : file :=
  File (fi_type f) (fi_ref f) (fi_readable f) (fi_writable f) (fi_pipe f) (fi_ip f) o (fi_major f).
(** The four fields [pipealloc] sets. *)
Definition fi_set_pipe (readable writable : bool) (pi : Z) (f : file) : file :=
  File FD_PIPE (fi_ref f) readable writable pi (fi_ip f) (fi_off f) (fi_major f).

(** Pages, and strings of the current process. *)
Class UserProc (U : Type) : Type := {
  page_alloc : M U Z;                              (* kalloc: 0 when there is none *)
  page_free : Z -> M U unit;
  copyin_str : Z -> Z -> M U (option (list Z));    (* copyinstr; None: -1 *)
  user_sz : U -> Z                                 (* p->sz *)
}.

(** The kernel as the system calls of one process see it. *)
Record kern (T U D : Type) : Type := Kern {
  k_fs : fs T U;
  k_ftlock : bool;              (* ftable.lock *)
  k_file : Z -> file;           (* ftable.file *)
  k_pipe : Z -> pipe unit;      (* by page; the process part is kept elsewhere *)
  k_killed : bool;              (* myproc()->killed *)
  k_ofile : Z -> Z;             (* myproc()->ofile, NULL for none *)
  k_args : Z -> Z;              (* trapframe a0 .. a5 *)
  k_dev : D                     (* the state of the devices *)
}.
Arguments Kern {T U D}.
Arguments k_fs {T U D}.
Arguments k_ftlock {T U D}.
Arguments k_file {T U D}.
Arguments k_pipe {T U D}.
Arguments k_killed {T U D}.
Arguments k_ofile {T U D}.
Arguments k_args {T U D}.
Arguments k_dev {T U D}.

(** An entry of the device table. *)
Record devops (S : Type) : Type := Devops {
  dev_read : option (bool -> Z -> Z -> M S Z);
  dev_write : option (bool -> Z -> Z -> M S Z)
}.
Arguments Devops {S}.
Arguments dev_read {S}.
Arguments dev_write {S}.

Section File.
Context {T U D : Type} `{TX : Txn T} `{TC : TxnCtl T} `{UM : UserMem U} `{UP : UserProc U}.
(** The device table, and what the kernel stack holds where [struct stat] has
    no field. *)
Context (devsw : Z -> devops (D * U)) (stack : list Z).
(** How often a thread that waits is woken for nothing. *)
Context (wakeups : nat).

Definition fs_of : lens (kern T U D) (fs T U) :=
  Lens k_fs (fun x s => Kern x (k_ftlock s) (k_file s) (k_pipe s) (k_killed s) (k_ofile s) (k_args s) (k_dev s)).
Definition ftable_lock : lens (kern T U D) bool :=
  Lens k_ftlock (fun x s => Kern (k_fs s) x (k_file s) (k_pipe s) (k_killed s) (k_ofile s) (k_args s) (k_dev s)).
Definition set_file (f : Z) (g : file -> file) (s : kern T U D) : kern T U D :=
  Kern (k_fs s) (k_ftlock s) (upd (k_file s) f (g (k_file s f))) (k_pipe s) (k_killed s) (k_ofile s) (k_args s) (k_dev s).
Definition set_pipe (pi : Z) (p : pipe unit) (s : kern T U D) : kern T U D :=
  Kern (k_fs s) (k_ftlock s) (k_file s) (upd (k_pipe s) pi p) (k_killed s) (k_ofile s) (k_args s) (k_dev s).
Definition set_ofile (fd f : Z) (s : kern T U D) : kern T U D :=
  Kern (k_fs s) (k_ftlock s) (k_file s) (k_pipe s) (k_killed s) (upd (k_ofile s) fd f) (k_args s) (k_dev s).
Definition proc_user : lens (kern T U D) U :=
  Lens (fun s => f_user (k_fs s)) (fun u s => set fs_of (set Fs.user_of u (k_fs s)) s).
Definition dev_of : lens (kern T U D) (D * U) :=
  Lens (fun s => (k_dev s, f_user (k_fs s)))
       (fun x s => let s := set proc_user x.2 s in
          Kern (k_fs s) (k_ftlock s) (k_file s) (k_pipe s) (k_killed s) (k_ofile s) (k_args s) x.1).

(** Pipe [pi] with the process that uses it. *)
Definition pipe_of (pi : Z) : lens (kern T U D) (pipe U) :=
  Lens (fun s => let p := k_pipe s pi in
          Pipe (pi_lock p) (pi_data p) (pi_nread p) (pi_nwrite p) (pi_readopen p) (pi_writeopen p)
               (pi_sleeping p) (k_killed s) (f_user (k_fs s)))
       (fun p s => set_pipe pi (Pipe (pi_lock p) (pi_data p) (pi_nread p) (pi_nwrite p) (pi_readopen p)
                                     (pi_writeopen p) (pi_sleeping p) false tt)
                            (set proc_user (pi_user p) s)).

Definition get_file (f : Z) : M (kern T U D) file := gets (fun s => k_file s f).
Definition begin_op : M (kern T U D) unit := zoom fs_of (zoom txn_of t_begin_op).
Definition end_op : M (kern T U D) unit := zoom fs_of (zoom txn_of t_end_op).

Definition fileinit : M (kern T U D) unit := modify (set ftable_lock false).

Fixpoint filealloc_scan (n : nat) (tbl : Z -> file) (f : Z) : option Z :=
  match n with
  | O => None
  | S n => if fi_ref (tbl f) =? 0 then Some f else filealloc_scan n tbl (f + 1)
  end.

Definition filealloc : M (kern T U D) Z :=
  acquire ftable_lock ;;
  let! tbl := gets k_file in
  match filealloc_scan (Z.to_nat NFILE) tbl 0 with
  | Some f =>
      modify (set_file f (fi_set_ref 1)) ;;
      release ftable_lock ;;
      ret f
  | None => release ftable_lock ;; ret NULL
  end.

Definition filedup (f : Z) : M (kern T U D) Z :=
  acquire ftable_lock ;;
  let! x := get_file f in
  if fi_ref x <? 1 then panic "filedup" else
  modify (set_file f (fi_set_ref (i32 (fi_ref x + 1)))) ;;
  release ftable_lock ;;
  ret f.

Definition fileclose (f : Z) : M (kern T U D) unit :=
  acquire ftable_lock ;;
  let! x := get_file f in
  if fi_ref x <? 1 then panic "fileclose" else
  let r := fi_ref x - 1 in
  modify (set_file f (fi_set_ref r)) ;;
  if 0 <? r then release ftable_lock
  else
    let! ff := get_file f in
    modify (set_file f (fi_set_ref 0)) ;;
    modify (set_file f (fi_set_type FD_NONE)) ;;
    release ftable_lock ;;
    match fi_type ff with
    | FD_PIPE => zoom (pipe_of (fi_pipe ff)) (pipeclose (page_free (fi_pipe ff)) (fi_writable ff))
    | FD_INODE | FD_DEVICE =>
        begin_op ;;
        zoom fs_of (iput wakeups (fi_ip ff)) ;;
        end_op
    | FD_NONE => ret tt
    end.

(** The 24 bytes of a [struct stat]; four of them belong to no field. *)
Definition le_bytes (n : nat) (v : Z) : list Z := read_bytes (store_le (fun _ => 0) 0 n v) 0 n.
Definition stat_bytes (st : stat) : list Z :=
  le_bytes 4 (u32 (st_dev st)) ++ le_bytes 4 (st_ino st) ++ le_bytes 2 (u16 (st_type st)) ++
  le_bytes 2 (u16 (st_nlink st)) ++ take 4 stack ++ le_bytes 8 (st_size st).

Definition filestat (f addr : Z) : M (kern T U D) Z :=
  let! x := get_file f in
  match fi_type x with
  | FD_INODE | FD_DEVICE =>
      zoom fs_of (ilock wakeups (fi_ip x)) ;;
      let! st := zoom fs_of (stati (fi_ip x)) in
      zoom fs_of (iunlock (fi_ip x)) ;;
      let! ok := zoom proc_user (copyout_bytes true addr (stat_bytes st)) in
      ret (if ok then 0 else -1)
  | _ => ret (-1)
  end.

Definition fileread (f addr n : Z) : M (kern T U D) Z :=
  let! x := get_file f in
  if negb (fi_readable x) then ret (-1) else
  match fi_type x with
  | FD_PIPE => zoom (pipe_of (fi_pipe x)) (piperead (S wakeups) addr n)
  | FD_DEVICE =>
      if (fi_major x <? 0) || (NDEV <=? fi_major x) then ret (-1)
      else match dev_read (devsw (fi_major x)) with
           | None => ret (-1)
           | Some read => zoom dev_of (read true addr n)
           end
  | FD_INODE =>
      zoom fs_of (ilock wakeups (fi_ip x)) ;;
      let! r := zoom fs_of (readi (fi_ip x) true addr (fi_off x) (u32 n)) in
      when (0 <? r) (modify (set_file f (fi_set_off (u32 (fi_off x + r))))) ;;
      zoom fs_of (iunlock (fi_ip x)) ;;
      ret r
  | FD_NONE => panic "fileread"
  end.

Definition WRITEMAX : Z := ((MAXOPBLOCKS - 1 - 1 - 2) / 2) * BSIZE.

(** The loop of [filewrite]: the number of bytes written when it ends. *)
Fixpoint filewrite_loop (fuel : nat) (f addr n i : Z) : M (kern T U D) Z :=
  match fuel with
  | O => nofuel
  | S fuel =>
      if i <? n then
        let n1 := if WRITEMAX <? n - i then WRITEMAX else n - i in
        let! ip := gets (fun s => fi_ip (k_file s f)) in
        begin_op ;;
        zoom fs_of (ilock wakeups ip) ;;
        let! x := get_file f in
        let! r := zoom fs_of (writei ip true (u64 (addr + i)) (fi_off x) n1) in
        when (0 <? r) (modify (set_file f (fi_set_off (u32 (fi_off x + r))))) ;;
        zoom fs_of (iunlock ip) ;;
        end_op ;;
        if negb (r =? n1) then ret i else filewrite_loop fuel f addr n (i + r)
      else ret i
  end.

Definition filewrite (f addr n : Z) : M (kern T U D) Z :=
  let! x := get_file f in
  if negb (fi_writable x) then ret (-1) else
  match fi_type x with
  | FD_PIPE => zoom (pipe_of (fi_pipe x)) (pipewrite (S (Z.to_nat n) + wakeups) addr n)
  | FD_DEVICE =>
      if (fi_major x <? 0) || (NDEV <=? fi_major x) then ret (-1)
      else match dev_write (devsw (fi_major x)) with
           | None => ret (-1)
           | Some write => zoom dev_of (write true addr n)
           end
  | FD_INODE =>
      let! i := filewrite_loop (Z.to_nat (n / WRITEMAX + 2)) f addr n 0 in
      ret (if i =? n then n else -1)
  | FD_NONE => panic "filewrite"
  end.

(** The two files of a new pipe, or None. *)
Definition pipealloc : M (kern T U D) (option (Z * Z)) :=
  let! f0 := filealloc in
  let! f1 := (if f0 =? NULL then ret NULL else filealloc) in
  let! pi := (if (f0 =? NULL) || (f1 =? NULL) then ret 0 else zoom proc_user page_alloc) in
  if (f0 =? NULL) || (f1 =? NULL) || (pi =? 0) then
    when (negb (f0 =? NULL)) (fileclose f0) ;;
    when (negb (f1 =? NULL)) (fileclose f1) ;;
    ret None
  else
    modify (fun s => set_pipe pi (Pipe false (pi_data (k_pipe s pi)) 0 0 true true (pi_sleeping (k_pipe s pi)) false tt) s) ;;
    modify (set_file f0 (fi_set_pipe true false pi)) ;;
    modify (set_file f1 (fi_set_pipe false true pi)) ;;
    ret (Some (f0, f1)).
End File.
