(* ===== verification/FileSpec.v ===== *)
(** * What open files promise

    Whole system calls on open files, over the file system and the log: each
    part of a write is an operation of its own, and the parts add up. *)

From S2P Require Import Prelude Riscv Kalloc Vm Sleeplock Block Log Txn TxnOps UserMem Fs FsBlocks FsInode FsData FsSpec Pipe File.

(** ** Inode locks *)

Section Locks.
Context {T U : Type} `{TX : Txn T} `{UM : UserMem U}.
Implicit Types s : fs T U.

Lemma ilock_valid wakeups s ip : let i := f_inode s ip in
  ip <> NULL -> 1 <= i_ref i -> sl_lk (i_lock i) = false -> sl_locked (i_lock i) = false -> i_valid i = true ->
  ilock (S wakeups) ip s = Ret tt (set_inode ip (with_lock (Sleeplock false true (f_pid s))) s).
Proof.
  intros i Hip Hr Hl1 Hl2 Hv. unfold ilock, get_inode. rewrite bind_gets. fold i.
  replace (ip =? NULL) with false by lia. replace (i_ref i <? 1) with false by lia. cbn [orb].
  rewrite bind_gets. rewrite (bind_ret_l _ _ _ tt (set (inode_lock ip) (Sleeplock false true (f_pid s)) s)).
  2: { apply zoom_ret. apply acquiresleep_free; assumption. }
  rewrite bind_gets. simpl. rewrite upd_eq. simpl. fold i. rewrite Hv. reflexivity.
Qed.

(** The same with inodes [g]. *)
Definition at_inodes (g : Z -> inode) (s : fs T U) : fs T U :=
  FS (f_txn s) (f_sb s) (f_itlock s) g (f_cwd s) (f_pid s) (f_user s) (f_console s).

Lemma iunlock_held s ip : let i := f_inode s ip in
  ip <> NULL -> 1 <= i_ref i -> i_lock i = Sleeplock false true (f_pid s) ->
  exists g, iunlock ip s = Ret tt (at_inodes g s) /\
    forall j, g j = if j =? ip then with_lock (Sleeplock false false 0) i else f_inode s j.
Proof.
  intros i Hip Hr Hl. unfold iunlock, get_inode. replace (ip =? NULL) with false by lia. rewrite bind_gets.
  assert (Hz : zoom (inode_lock ip) (holdingsleep (f_pid s)) s = Ret true (set (inode_lock ip) (i_lock i) s)).
  { apply zoom_ret. simpl. fold i. rewrite holdingsleep_ret by (rewrite Hl; reflexivity). rewrite Hl. simpl. rewrite Z.eqb_refl. reflexivity. }
  rewrite (bind_ret_l _ _ _ _ _ Hz). rewrite bind_gets. simpl. rewrite upd_eq. simpl. fold i.
  replace (i_ref i <? 1) with false by lia. simpl. eexists. split.
  - erewrite zoom_ret; [|apply releasesleep_ret; simpl; rewrite upd_eq; simpl; rewrite Hl; reflexivity]. reflexivity.
  - intros j. simpl. unfold upd. rewrite Z.eqb_refl. simpl. destruct (j =? ip); reflexivity.
Qed.
End Locks.

(** ** Between operations *)

Record same_file (i i' : inode) : Prop := {
  sf_dev : i_dev i' = i_dev i;
  sf_inum : i_inum i' = i_inum i;
  sf_size : i_size i' = i_size i;
  sf_addrs : i_addrs i' = i_addrs i
}.

Lemma same_file_lock l i : same_file i (with_lock l i).
Proof. split; reflexivity. Qed.

Lemma same_addr i i' v bn : same_file i i' -> addr_of v i' bn = addr_of v i bn.
Proof. intros [_ _ _ E]. unfold addr_of, ind_of. rewrite E. reflexivity. Qed.

Lemma same_owned i i' v b : same_file i i' -> owned v i' b <-> owned v i b.
Proof.
  intros E. assert (Ei : ind_of i' = ind_of i) by (unfold ind_of; rewrite (sf_addrs _ _ E); reflexivity).
  unfold owned. rewrite Ei. split; intros [H0 [H|(bn & Hb & H)]]; (split; [exact H0|]); auto; right; exists bn;
    rewrite ?(same_addr i i') in * by exact E; auto.
Qed.

Lemma same_file_ok i i' v sb : same_file i i' -> file_ok v sb i -> file_ok v sb i'.
Proof.
  intros E [H1 H2 H3 H4]. assert (Ei : ind_of i' = ind_of i) by (unfold ind_of; rewrite (sf_addrs _ _ E); reflexivity). split.
  - rewrite (sf_addrs _ _ E). exact H1.
  - intros b Hb. apply H2. apply (same_owned i i'); assumption.
  - intros b1 b2 Hb1 Hb2. rewrite !(same_addr i i') by exact E. auto.
  - rewrite Ei. intros H0 bn Hb. rewrite (same_addr i i') by exact E. auto.
Qed.

(** Blocks outside the log determine the file system. *)
Section Agree.
Context (sb : superblock) (v v' : Z -> block) (Hsb : sb_ok sb) (Hv : forall b, sb_inodestart sb <= b -> v' b = v b).

Lemma agree_used b : 0 <= b < sb_size sb -> used v' sb b = used v sb b.
Proof using Hsb Hv.
  intros Hb. pose proof (BBLOCK_range sb b Hsb Hb). pose proof (inode_bmap sb Hsb). unfold used. rewrite Hv by lia. reflexivity.
Qed.

Lemma agree_data b : datastart sb <= b -> v' b = v b.
Proof using Hsb Hv. intros Hb. pose proof (inode_bmap sb Hsb). pose proof (datastart_pos sb Hsb). apply Hv. lia. Qed.

Lemma agree_ind i : file_ok v sb i -> ind_of i <> 0 -> v' (ind_of i) = v (ind_of i).
Proof using Hsb Hv.
  intros Hf H0. destruct (fk_owned _ _ _ Hf _ (owned_ind v i H0)) as [Hr _]. apply agree_data. lia.
Qed.

Lemma agree_byte i i' o : same_file i i' -> file_ok v sb i -> has_blocks v i -> 0 <= o < i_size i ->
  byte_at v' i' o = byte_at v i o.
Proof using Hsb Hv.
  intros E Hf Hb Ho. unfold byte_at. rewrite (same_addr i i') by exact E.
  rewrite (addr_of_ext v v' i) by (apply agree_ind, Hf).
  rewrite agree_data; [reflexivity|]. pose proof (hb_filled _ _ Hb o Ho) as H0. pose proof (hb_size _ _ Hb).
  apply (fk_owned _ _ _ Hf). apply owned_addr; [|exact H0]. unfold MAXFILE, NDIRECT, NINDIRECT, BSIZE in *. dlia.
Qed.
End Agree.

Section Move.
Context {T U : Type} `{TX : Txn T} (dev : Z).
Implicit Types s : fs T U.

Lemma ready_move (TL TL' : TxnLaws T dev) s s' v v' L L' r r' ip :
  ready dev (TL := TL) s v L r ip -> f_sb s' = f_sb s -> same_file (f_inode s ip) (f_inode s' ip) ->
  (forall b, sb_inodestart (f_sb s) <= b -> v' b = v b) -> byte_view v' ->
  blocks dev (TL := TL') s' [] v' L' r' -> ready dev (TL := TL') s' v' L' r' ip.
Proof.
  intros [R1 R2 R3 R4 R5 R6 R7 R8 R9] Es Ei Hv Hb B. split; rewrite ?Es; auto.
  - intros b Hb'. pose proof (datastart_pos _ R1). rewrite (agree_used _ v v'); auto. destruct R1. geom.
  - apply (same_file_ok (f_inode s ip)); [exact Ei|]. apply (file_ok_ext v); [exact R4| |].
    + apply (agree_ind (f_sb s)); assumption.
    + intros b Hb' Hu. pose proof (datastart_pos _ R1). rewrite (agree_used _ v v'); auto. lia.
  - destruct R5 as [H1 H2]. split; rewrite (sf_size _ _ Ei); [exact H1|]. intros o Ho.
    rewrite (same_addr (f_inode s ip)) by exact Ei. rewrite (addr_of_ext v v') by (apply (agree_ind (f_sb s)); assumption). auto.
  - rewrite (sf_dev _ _ Ei). exact R7.
  - rewrite (sf_inum _ _ Ei). exact R8.
Qed.
End Move.

(** Byte [k] of inode [inum] on disk. *)
Definition dinode_byte (v : Z -> block) (sb : superblock) (inum k : Z) : Z := v (IBLOCK inum sb) (dinode_off inum + k).

(** The inode on disk is [i]. *)
Definition on_disk (v : Z -> block) (sb : superblock) (i : inode) : Prop := forall k, 0 <= k < 64 ->
  dinode_byte v sb (i_inum i) k = put_inode (fun _ => 0) (dinode_off (i_inum i)) i (dinode_off (i_inum i) + k).

(** After [iupdate] the inode on disk is the one in memory, and the others are
    as they were. *)
Section Updated.
Context (sb : superblock) (v v' : Z -> block) (i : inode).
Context (Hsb : sb_ok sb) (Hin : inode_in sb (i_inum i)) (Hlen : length (i_addrs i) = Z.to_nat (NDIRECT + 1)).
Context (Hv : v' (IBLOCK (i_inum i) sb) = put_inode (v (IBLOCK (i_inum i) sb)) (dinode_off (i_inum i)) i).
Context (Hlow : forall b, sb_inodestart sb <= b < sb_bmapstart sb -> b <> IBLOCK (i_inum i) sb -> v' b = v b).

Lemma updated_on_disk : on_disk v' sb i.
Proof using Hlen Hv. intros k Hk. unfold dinode_byte. rewrite Hv. apply put_inode_inside; [exact Hlen|lia]. Qed.

Lemma updated_others inum k : inode_in sb inum -> inum <> i_inum i -> 0 <= k < 64 ->
  dinode_byte v' sb inum k = dinode_byte v sb inum k.
Proof using All.
  intros Hi Hne Hk. unfold dinode_byte. pose proof (IBLOCK_eq sb inum Hsb Hi) as (E1 & R1 & R2).
  pose proof (IBLOCK_eq sb _ Hsb Hin) as (E2 & R3 & R4).
  destruct (decide (IBLOCK inum sb = IBLOCK (i_inum i) sb)) as [Eb|Nb]; [|rewrite Hlow by (lia || assumption); reflexivity].
  rewrite Eb, Hv. apply put_inode_outside; [exact Hlen|]. rewrite E1, E2 in Eb.
  unfold dinode_off. change IPB with 16 in *. dlia.
Qed.
End Updated.

(** ** Writing *)

Section Write.
Context {T U D : Type} `{TX : Txn T} `{TC : TxnCtl T} (dev : Z) {TI TA : TxnLaws T dev} `{CL : !TxnCtlLaws T dev TI TA}.
Context `{UM : UserMem U} `{UL : !UserMemLaws U} (wakeups : nat).
Implicit Types s : kern T U D.

(** The file system's file of open file [f], which no thread has locked. *)
Record file_open (s : kern T U D) (f : Z) (v : Z -> block) : Prop := {
  fo_type : fi_type (k_file s f) = FD_INODE;
  fo_off : 0 <= fi_off (k_file s f) < 2 ^ 32;
  fo_ip : fi_ip (k_file s f) <> NULL;
  fo_ref : 1 <= i_ref (f_inode (k_fs s) (fi_ip (k_file s f)));
  fo_spin : sl_lk (i_lock (f_inode (k_fs s) (fi_ip (k_file s f)))) = false;
  fo_free : sl_locked (i_lock (f_inode (k_fs s) (fi_ip (k_file s f)))) = false;
  fo_valid : i_valid (f_inode (k_fs s) (fi_ip (k_file s f))) = true;
  fo_ready : FsSpec.ready dev (TL := TI) (k_fs s) v [] 0 (fi_ip (k_file s f))
}.

(** [tot] bytes [w] have been written at [off] through open file [f]: on disk
    the inode of the file is the one in memory, every other inode is as it was,
    and so are the blocks of every other file. *)
Record progress (f : Z) (s s' : kern T U D) (v v' : Z -> block) (off tot : Z) (w : list Z) : Prop := {
  pg_rest : k_ftlock s' = k_ftlock s /\ k_pipe s' = k_pipe s /\ k_killed s' = k_killed s /\
    k_ofile s' = k_ofile s /\ k_args s' = k_args s /\ k_dev s' = k_dev s;
  pg_file : k_file s' f = fi_set_off (off + tot) (k_file s f);
  pg_files : forall g, g <> f -> k_file s' g = k_file s g;
  pg_sb : f_sb (k_fs s') = f_sb (k_fs s);
  pg_inodes : forall j, j <> fi_ip (k_file s f) -> f_inode (k_fs s') j = f_inode (k_fs s) j;
  pg_inum : i_inum (f_inode (k_fs s') (fi_ip (k_file s f))) = i_inum (f_inode (k_fs s) (fi_ip (k_file s f)));
  pg_size : i_size (f_inode (k_fs s') (fi_ip (k_file s f))) =
    Z.max (i_size (f_inode (k_fs s) (fi_ip (k_file s f)))) (off + tot);
  pg_len : Z.of_nat (length w) = tot;
  pg_new : contents v' (f_inode (k_fs s') (fi_ip (k_file s f))) off tot = w;
  pg_old : forall o, 0 <= o < i_size (f_inode (k_fs s) (fi_ip (k_file s f))) -> ~ (off <= o < off + tot) ->
    byte_at v' (f_inode (k_fs s') (fi_ip (k_file s f))) o = byte_at v (f_inode (k_fs s) (fi_ip (k_file s f))) o;
  pg_other : forall b, datastart (f_sb (k_fs s)) <= b < sb_size (f_sb (k_fs s)) ->
    used v (f_sb (k_fs s)) b = true -> ~ owned v (f_inode (k_fs s) (fi_ip (k_file s f))) b ->
    v' b = v b /\ ~ owned v' (f_inode (k_fs s') (fi_ip (k_file s f))) b;
  pg_used : forall b, 0 <= b < sb_size (f_sb (k_fs s)) -> used v (f_sb (k_fs s)) b = true -> used v' (f_sb (k_fs s)) b = true;
  pg_disk : (s' = s /\ v' = v) \/ on_disk v' (f_sb (k_fs s)) (f_inode (k_fs s') (fi_ip (k_file s f)));
  pg_dinodes : forall inum, inode_in (f_sb (k_fs s)) inum -> inum <> i_inum (f_inode (k_fs s) (fi_ip (k_file s f))) ->
    forall k, 0 <= k < 64 -> dinode_byte v' (f_sb (k_fs s)) inum k = dinode_byte v (f_sb (k_fs s)) inum k
}.

Lemma progress_trans f s s1 s2 v v1 v2 off t1 t2 w1 w2 :
  0 <= off -> 0 <= t1 -> 0 <= t2 -> sb_ok (f_sb (k_fs s)) ->
  progress f s s1 v v1 off t1 w1 -> progress f s1 s2 v1 v2 (off + t1) t2 w2 ->
  off <= i_size (f_inode (k_fs s) (fi_ip (k_file s f))) -> progress f s s2 v v2 off (t1 + t2) (w1 ++ w2).
Proof using.
  intros Hoff H1 H2 Hsb [A0 A1 A2 A3 A4 A5 A6 A7 A8 A9 A10 A11 A12 A13] [B0 B1 B2 B3 B4 B5 B6 B7 B8 B9 B10 B11 B12 B13] Hsz.
  assert (Eip : fi_ip (k_file s1 f) = fi_ip (k_file s f)) by (rewrite A1; reflexivity). rewrite Eip in *. rewrite A3 in *.
  destruct A0 as (A01 & A02 & A03 & A04 & A05 & A06). destruct B0 as (B01 & B02 & B03 & B04 & B05 & B06).
  split.
  - repeat apply conj; congruence.
  - rewrite B1, A1. unfold fi_set_off. simpl. f_equal. lia.
  - intros g Hg. rewrite B2, A2; auto.
  - congruence.
  - intros j Hj. rewrite B4, A4; auto.
  - congruence.
  - rewrite B6, A6. lia.
  - rewrite length_app. lia.
  - rewrite contents_app by lia. rewrite B8. f_equal. rewrite <- A8. apply list_eq. intros k. apply option_eq. intros b.
    rewrite !contents_lookup. split; intros [Hk E]; (split; [exact Hk|]); rewrite E; [|symmetry]; apply B9; lia.
  - intros o Ho Hn. rewrite B9, A9 by (rewrite ?A6; lia). reflexivity.
  - intros b Hb Hu Ho. destruct (A10 b Hb Hu Ho) as [E1 Ho1]. destruct (B10 b Hb) as [E2 Ho2]; auto.
    { apply A11; [pose proof (datastart_pos _ Hsb); lia|exact Hu]. }
    split; [congruence|exact Ho2].
  - auto.
  - destruct B12 as [[-> ->]|B12]; [exact A12|right; exact B12].
  - intros inum Hin Hne k Hk. rewrite B13, A13 by (rewrite ?A5; assumption). reflexivity.
Qed.

Lemma chunk_cost sb i off n : 0 <= off -> 0 <= n <= WRITEMAX -> write_cost sb [] i off n <= MAXOPBLOCKS.
Proof using.
  intros Ho Hn. unfold write_cost, left. pose proof (need_bound sb [] i).
  change WRITEMAX with 3072 in Hn. unfold MAXOPBLOCKS, BSIZE. case_test; dlia.
Qed.

(** Starting an operation and locking the inode. *)
Lemma begin_lock s f v : file_open s f v ->
  let ip := fi_ip (k_file s f) in
  exists x y, begin_op s = Ret tt (set fs_of (at_txn x (k_fs s)) s) /\
    zoom fs_of (ilock (S wakeups) ip) (set fs_of (at_txn x (k_fs s)) s) = Ret tt (set fs_of y s) /\
    y = set_inode ip (with_lock (Sleeplock false true (f_pid (k_fs s)))) (at_txn x (k_fs s)) /\
    FsSpec.ready dev (TL := TA) y v [] MAXOPBLOCKS ip.
Proof using CL.
  intros [F1 F2 F3 F4 F5 F6 F7 F8] ip. fold ip in F3, F4, F5, F6, F7, F8.
  pose proof (rd_blocks _ _ _ _ _ _ F8) as [B Hh].
  destruct (t_begin (f_txn (k_fs s)) v B) as (x & E & R). eexists x, _.
  split; [|split; [|split; [reflexivity|]]].
  - unfold begin_op. apply (zoom_ret fs_of), (zoom_ret txn_of), E.
  - rewrite (zoom_ret fs_of _ _ tt (set_inode ip (with_lock (Sleeplock false true (f_pid (k_fs s)))) (at_txn x (k_fs s)))).
    + reflexivity.
    + apply (ilock_valid wakeups (at_txn x (k_fs s)) ip); assumption.
  - apply (ready_move dev TI TA _ _ v v _ _ _ _ ip F8); try reflexivity.
    + simpl. rewrite upd_eq. apply same_file_lock.
    + apply F8.
    + split; [exact R|]. intros b Hb. apply t_same_home, Hh, Hb.
Qed.

(** Unlocking the inode and ending the operation. *)
Lemma unlock_end s f y v L r : let ip := fi_ip (k_file s f) in
  k_fs s = y -> ip <> NULL -> 1 <= i_ref (f_inode y ip) -> i_lock (f_inode y ip) = Sleeplock false true (f_pid y) ->
  FsSpec.ready dev (TL := TA) y v L r ip ->
  exists s1 s2 z v', zoom fs_of (iunlock ip) s = Ret tt s1 /\ end_op s1 = Ret tt s2 /\ s2 = set fs_of z s /\
    FsSpec.ready dev (TL := TI) z v' [] 0 ip /\ f_sb z = f_sb y /\ f_user z = f_user y /\
    (forall j, f_inode z j = if j =? ip then with_lock (Sleeplock false false 0) (f_inode y ip) else f_inode y j) /\
    (forall b, sb_inodestart (f_sb y) <= b -> v' b = v b).
Proof using CL.
  intros ip Ey Hip Hr Hl R. destruct (iunlock_held y ip Hip Hr Hl) as (g & E & Hg).
  pose proof (rd_blocks _ _ _ _ _ _ R) as [B Hh].
  destruct (t_end (f_txn y) v L r B) as (x & v' & E2 & R2 & Hv & Hb).
  set (z := at_txn x (at_inodes g y)). exists (set fs_of (at_inodes g y) s), (set fs_of z s), z, v'.
  assert (Hv' : forall b, sb_inodestart (f_sb y) <= b -> v' b = v b) by (intros b Hb'; apply Hv, t_same_home, Hh, Hb').
  split; [apply (zoom_ret fs_of); simpl; rewrite Ey; exact E|].
  split.
  { unfold end_op. rewrite (zoom_ret fs_of _ _ tt z); [reflexivity|]. apply (zoom_ret txn_of). exact E2. }
  split; [reflexivity|]. split; [|split; [reflexivity|split; [reflexivity|split; [exact Hg|exact Hv']]]].
  apply (ready_move dev TA TI y z v v' _ _ _ _ ip R); try reflexivity.
  - simpl. rewrite Hg, Z.eqb_refl. apply same_file_lock.
  - exact Hv'.
  - exact (Hb (rd_byte _ _ _ _ _ _ R)).
  - split; [exact R2|]. intros b Hb'. apply t_same_home, Hh, Hb'.
Qed.

(** Putting a locked write and its end together. *)
Lemma chunk_done s s' f v (y y2 z : fs T U) v2 v' pid tot w : let x := k_file s f in let ino := f_inode (k_fs s) (fi_ip x) in
  file_open s f v -> f_sb y = f_sb (k_fs s) -> f_inode y (fi_ip x) = with_lock (Sleeplock false true pid) ino ->
  (forall j, j <> fi_ip x -> f_inode y j = f_inode (k_fs s) j) ->
  wrote (fi_ip x) y y2 v v2 (fi_off x) tot w ->
  FsSpec.ready dev (TL := TI) z v' [] 0 (fi_ip x) -> f_sb z = f_sb y2 ->
  (forall j, f_inode z j = if j =? fi_ip x then with_lock (Sleeplock false false 0) (f_inode y2 (fi_ip x)) else f_inode y2 j) ->
  (forall b, sb_inodestart (f_sb y2) <= b -> v' b = v2 b) -> 0 <= tot -> fi_off x + tot < 2 ^ 32 ->
  s' = set fs_of z (if 0 <? tot then set_file f (fi_set_off (u32 (fi_off x + tot))) s else s) ->
  file_open s' f v' /\ progress f s s' v v' (fi_off x) tot w.
Proof using.
  intros x ino [F1 F2 F3 F4 F5 F6 F7 F8] Esb Ei Hj W Rz Ez Hz Hv Ht Hoff Es'. fold x in F2, F3, F4, F5, F6, F7, F8.
  pose proof W as [W1 W2 W3 W4 W5 W6 W7 W8 W9 W10 W11 W12 W13 W14 W15 W16 W17 W18]. rewrite Ei, Esb in *.
  pose proof (rd_sb _ _ _ _ _ _ F8) as Hsb.
  assert (Ef : k_file s' f = fi_set_off (fi_off x + tot) x).
  { rewrite Es'. destruct (Z.ltb_spec 0 tot); simpl.
    - rewrite upd_eq. fold x. rewrite u32_small by lia. reflexivity.
    - replace (fi_off x + tot) with (fi_off x) by lia. fold x. destruct x; reflexivity. }
  assert (Efs : k_fs s' = z) by (rewrite Es'; reflexivity).
  assert (Hzi : f_inode z (fi_ip x) = with_lock (Sleeplock false false 0) (f_inode y2 (fi_ip x))) by (rewrite Hz, Z.eqb_refl; reflexivity).
  assert (Hsame : same_file (f_inode y2 (fi_ip x)) (f_inode z (fi_ip x))) by (rewrite Hzi; apply same_file_lock).
  assert (Hsz : i_size (f_inode y2 (fi_ip x)) = Z.max (i_size ino) (fi_off x + tot)) by (rewrite W6; reflexivity).
  rewrite W1 in *.
  assert (Hnum : i_inum (f_inode y2 (fi_ip x)) = i_inum ino) by (rewrite W6; reflexivity).
  pose proof (IBLOCK_eq _ _ Hsb (rd_in _ _ _ _ _ _ F8)) as (_ & Hib1 & Hib2). fold ino in Hib1, Hib2.
  assert (Hbyte : forall o, 0 <= o < i_size (f_inode y2 (fi_ip x)) -> byte_at v' (f_inode z (fi_ip x)) o = byte_at v2 (f_inode y2 (fi_ip x)) o).
  { intros o Ho. apply (agree_byte (f_sb (k_fs s))); auto. }
  split.
  - split; rewrite ?Ef, ?Efs; cbn [fi_type fi_off fi_ip fi_set_off]; auto; rewrite ?Hzi; auto; try lia; rewrite W6; simpl; auto.
  - split; rewrite ?Efs; fold x; fold ino.
    + rewrite Es'. destruct (0 <? tot); repeat split.
    + exact Ef.
    + intros g Hg. rewrite Es'. destruct (0 <? tot); simpl; [apply upd_ne, Hg|reflexivity].
    + congruence.
    + intros j Hne. rewrite Hz. replace (j =? fi_ip x) with false by lia. rewrite W5, Hj; auto.
    + rewrite Hzi, W6. reflexivity.
    + rewrite Hzi. exact Hsz.
    + exact W11.
    + rewrite <- W12. apply list_eq. intros k. apply option_eq. intros b. rewrite !contents_lookup.
      split; intros [Hk E]; (split; [exact Hk|]); rewrite E; [|symmetry]; apply Hbyte; lia.
    + intros o Ho Hn. rewrite Hbyte by lia. apply (W13 o Ho Hn).
    + intros b Hb Hu Ho. split.
      * rewrite Hv by (pose proof (inode_bmap _ Hsb); pose proof (datastart_pos _ Hsb); lia). apply W16; auto.
      * rewrite (same_owned _ _ _ _ Hsame). rewrite (owned_ext v2 v') by (apply (agree_ind (f_sb (k_fs s))); auto).
        intros Ho'. apply W18 in Ho' as [Ho'|Ho']; [exact (Ho Ho')|congruence].
    + intros b Hb Hu. rewrite (agree_used (f_sb (k_fs s)) v2 v') by auto. apply W17; auto.
    + right. apply (updated_on_disk _ v); rewrite Hzi; [apply W8|]. cbn [i_inum with_lock]. rewrite Hnum, Hv by lia. exact W14.
    + intros inum Hi Hne k Hk.
      apply (updated_others _ _ _ (f_inode z (fi_ip x))); rewrite ?Hzi; cbn [i_inum i_addrs with_lock]; rewrite ?Hnum;
        [exact Hsb|apply F8|apply W8|rewrite Hv by lia; exact W14| |exact Hi|exact Hne|exact Hk].
      intros b Hb Hnb. rewrite Hv by lia. apply W15; [lia|exact Hnb].
Qed.

(** One round of the loop of [filewrite]. *)
Lemma write_chunk s f v addr n i fuel : let x := k_file s f in let ino := f_inode (k_fs s) (fi_ip x) in
  let n1 := Z.min WRITEMAX (n - i) in
  file_open s f v -> um_inv (f_user (k_fs s)) -> BSIZE <= um_max ->
  0 <= i < n -> 0 <= addr -> addr + n <= 2 ^ 64 ->
  (forall a, addr <= a < addr + n -> um_can_read (f_user (k_fs s)) a) ->
  write_refused ino (fi_off x) (n - i) = false ->
  exists tot s' v' w, filewrite_loop (S wakeups) (S fuel) f addr n i s =
      (if tot =? n1 then filewrite_loop (S wakeups) fuel f addr n (i + tot) s' else Ret i s') /\
    file_open s' f v' /\ progress f s s' v v' (fi_off x) tot w /\
    write_good (f_user (k_fs s)) (addr + i) tot w (f_user (k_fs s')) /\
    0 <= tot <= n1 /\ (tot = n1 \/ all_used v' (f_sb (k_fs s))).
Proof using CL UL.
  intros x ino n1 F Hu Hmax Hi Ha Hend Hcan Href.
  assert (Hw : WRITEMAX = 3072) by reflexivity.
  destruct (begin_lock s f v F) as (t & y & E1 & E2 & Ey & Ry). fold x in E2, Ey, Ry.
  pose proof F as [F1 F2 F3 F4 F5 F6 F7 F8]. fold x in F2, F3, F4, F5, F6, F7, F8. fold ino in F4, F5, F6, F7.
  assert (Eiy : f_inode y (fi_ip x) = with_lock (Sleeplock false true (f_pid (k_fs s))) ino) by (rewrite Ey; simpl; apply upd_eq).
  assert (Esb : f_sb y = f_sb (k_fs s)) by (rewrite Ey; reflexivity).
  assert (Eus : f_user y = f_user (k_fs s)) by (rewrite Ey; reflexivity).
  assert (Hn1 : n1 = if WRITEMAX <? n - i then WRITEMAX else n - i) by (unfold n1; destruct (Z.ltb_spec WRITEMAX (n - i)); lia).
  unfold write_refused in Href. b2p.
  destruct (writei_run dev (TL := TA) y v [] MAXOPBLOCKS (fi_ip x) (addr + i) (fi_off x) n1)
    as (tot & y2 & v2 & L2 & r2 & w & E3 & R2 & W & G & Ht & Hfull); rewrite ?Eus, ?Esb; auto; try lia.
  { intros a Ha'. apply Hcan. lia. }
  { apply chunk_cost; lia. }
  { rewrite Eiy. unfold write_refused. simpl. lia. }
  cbn [filewrite_loop]. replace (i <? n) with true by lia. rewrite <- Hn1. rewrite bind_gets. fold x.
  rewrite (bind_ret_l _ _ _ _ _ E1), (bind_ret_l _ _ _ _ _ E2). unfold get_file. rewrite bind_gets.
  change (k_file (set fs_of y s) f) with x. rewrite (u64_small (addr + i)) by lia.
  rewrite (bind_ret_l _ _ _ tot (set fs_of y2 s)) by exact (zoom_ret fs_of _ (set fs_of y s) _ _ E3).
  set (s1 := if 0 <? tot then set_file f (fi_set_off (u32 (fi_off x + tot))) (set fs_of y2 s) else set fs_of y2 s).
  rewrite (bind_ret_l _ _ _ tt s1) by (unfold s1; destruct (0 <? tot); reflexivity).
  assert (Wl : i_lock (f_inode y2 (fi_ip x)) = Sleeplock false true (f_pid y2)).
  { rewrite (wr_inode _ _ _ _ _ _ _ _ W), (wr_pid _ _ _ _ _ _ _ _ W), Eiy, Ey. reflexivity. }
  assert (Wr : i_ref (f_inode y2 (fi_ip x)) = i_ref ino) by (rewrite (wr_inode _ _ _ _ _ _ _ _ W), Eiy; reflexivity).
  assert (Eip : fi_ip (k_file s1 f) = fi_ip x) by (unfold s1; destruct (0 <? tot); simpl; rewrite ?upd_eq; reflexivity).
  destruct (unlock_end s1 f y2 v2 L2 r2) as (s2 & s3 & z & v' & E4 & E5 & Es3 & Rz & Ez & Eu & Hz & Hv);
    rewrite ?Eip, ?Wr; auto.
  { unfold s1. destruct (0 <? tot); reflexivity. }
  rewrite Eip in E4, Rz, Hz.
  rewrite (bind_ret_l _ _ _ _ _ E4), (bind_ret_l _ _ _ _ _ E5).
  exists tot, s3, v', w. split; [destruct (tot =? n1); reflexivity|].
  destruct (chunk_done s s3 f v y y2 z v2 v' (f_pid (k_fs s)) tot w F) as [HF HP]; auto; try lia.
  { intros j Hj. rewrite Ey. simpl. apply upd_ne, Hj. }
  { fold x. change (MAXFILE * BSIZE) with 274432 in *. lia. }
  { rewrite Es3. unfold s1. destruct (0 <? tot); reflexivity. }
  split; [exact HF|]. split; [exact HP|]. split; [rewrite Es3; simpl; rewrite Eu, <- Eus; exact G|]. split; [lia|].
  destruct Hfull as [Hfull|Hfull]; [auto|right]. rewrite Esb in Hfull. intros b Hb.
  rewrite (agree_used (f_sb (k_fs s)) v2 v'); [apply Hfull; exact Hb|apply F8| |exact Hb].
  rewrite (wr_sb _ _ _ _ _ _ _ _ W), Esb in Hv. exact Hv.
Qed.

Lemma write_good_app (u0 u1 u2 : U) a k1 k2 w1 w2 : 0 <= k1 -> 0 <= k2 ->
  write_good u0 a k1 w1 u1 -> write_good u1 (a + k1) k2 w2 u2 -> write_good u0 a (k1 + k2) (w1 ++ w2) u2.
Proof using.
  intros H1 H2 [A1 A2 A3 A4 A5] [B1 B2 B3 B4 B5]. split; auto.
  - rewrite length_app. lia.
  - intros j b Hj. apply lookup_app_Some in Hj as [Hj|[Hj Hj2]]; [auto|].
    replace (a + Z.of_nat j) with (a + k1 + Z.of_nat (j - length w1)) by lia. auto.
Qed.

(** The rounds from byte [i] on. *)
Lemma filewrite_loop_ok f addr n : 0 <= addr -> addr + n <= 2 ^ 64 -> BSIZE <= um_max -> forall fuel s v i,
  let x := k_file s f in let ino := f_inode (k_fs s) (fi_ip x) in
  file_open s f v -> um_inv (f_user (k_fs s)) -> 0 <= i <= n -> (n - i + WRITEMAX - 1) / WRITEMAX + 1 <= Z.of_nat fuel ->
  (forall a, addr <= a < addr + n -> um_can_read (f_user (k_fs s)) a) ->
  write_refused ino (fi_off x) (n - i) = false ->
  exists res tot s' v' w, filewrite_loop (S wakeups) fuel f addr n i s = Ret res s' /\
    file_open s' f v' /\ progress f s s' v v' (fi_off x) tot w /\
    write_good (f_user (k_fs s)) (addr + i) tot w (f_user (k_fs s')) /\
    0 <= tot <= n - i /\ (res = n /\ tot = n - i \/ res < n /\ tot < n - i /\ all_used v' (f_sb (k_fs s))).
Proof using CL UL.
  intros Ha Hend Hmax. induction fuel as [|fuel IH]; intros s v i x ino F Hu Hi Hfuel Hcan Href.
  { change WRITEMAX with 3072 in Hfuel. dlia. }
  destruct (decide (i < n)) as [Hlt|Hge].
  2: { exists i, 0, s, v, []. cbn [filewrite_loop]. replace (i <? n) with false by lia. pose proof F as [F1 F2 F3 F4 F5 F6 F7 F8].
    fold x in F2. split; [reflexivity|]. split; [exact F|]. split; [|split; [|lia]].
    - split; fold x; fold ino; auto; try lia; [repeat split|rewrite Z.add_0_r; destruct x; reflexivity|].
      unfold write_refused in Href. b2p. lia.
    - split; auto. intros j b Hj. discriminate. }
  destruct (write_chunk s f v addr n i fuel F Hu Hmax) as (tot & s1 & v1 & w & E & F1 & P & G & Ht & Hfull); auto; try lia.
  fold x in P. rewrite E. set (n1 := Z.min WRITEMAX (n - i)) in *.
  destruct (Z.eqb_spec tot n1) as [->|Hne].
  - pose proof (pg_file _ _ _ _ _ _ _ _ P) as Ef. fold x in Ef.
    assert (Hw : WRITEMAX = 3072) by reflexivity.
    destruct (IH s1 v1 (i + n1) F1) as (res & t2 & s2 & v2 & w2 & E2 & F2 & P2 & G2 & Ht2 & Hres); try lia; auto.
    + apply (wg_inv _ _ _ _ _ G).
    + rewrite Hw in *. unfold n1 in *. dlia.
    + intros a Ha'. apply (wg_can _ _ _ _ _ G), Hcan, Ha'.
    + rewrite Ef. unfold fi_set_off. cbn [fi_ip fi_off]. unfold write_refused in Href |- *. b2p.
      pose proof (pg_size _ _ _ _ _ _ _ _ P) as Hsz. fold x in Hsz. fold ino in Hsz. rewrite Hsz. lia.
    + rewrite Ef in P2. unfold fi_set_off in P2. cbn [fi_off] in P2. rewrite (pg_sb _ _ _ _ _ _ _ _ P) in Hres.
      exists res, (n1 + t2), s2, v2, (w ++ w2). split; [exact E2|]. split; [exact F2|]. split; [|split; [|split; [lia|]]].
      * apply (progress_trans f s s1 s2 v v1 v2); auto; try lia; [apply F|apply F|].
        unfold write_refused in Href. b2p. assumption.
      * eapply write_good_app; eauto; try lia. rewrite <- Z.add_assoc. exact G2.
      * destruct Hres as [[? ?]|(? & ? & ?)]; [left; lia|right; repeat split; auto; lia].
  - exists i, tot, s1, v1, w. split; [reflexivity|]. split; [exact F1|]. split; [exact P|]. split; [exact G|]. split; [lia|].
    right. destruct Hfull as [Hfull|Hfull]; [contradiction|]. repeat split; auto; lia.
Qed.

(** C8. Writing a user buffer to an open file, whatever its length: the file
    system operations it is made of each fit into the log; at the end all are
    on disk, the file has the bytes of the buffer at the offset the open file
    had and its other bytes, the offset has moved past them, the inode of the
    file on disk is the one in memory, and no other file has changed: neither
    its inode on disk nor any block it has.  The result is the number of bytes, or -1 if the disk filled up
    before all were written. *)
Theorem filewrite_correct (devsw : Z -> devops (D * U)) s f v addr n : let x := k_file s f in let ino := f_inode (k_fs s) (fi_ip x) in
  file_open s f v -> fi_writable x = true -> um_inv (f_user (k_fs s)) -> BSIZE <= um_max ->
  0 <= n < 2 ^ 31 -> 0 <= addr -> addr + n <= 2 ^ 64 ->
  (forall a, addr <= a < addr + n -> um_can_read (f_user (k_fs s)) a) ->
  write_refused ino (fi_off x) n = false ->
  exists res tot s' v' w, filewrite devsw (S wakeups) f addr n s = Ret res s' /\
    file_open s' f v' /\ progress f s s' v v' (fi_off x) tot w /\
    write_good (f_user (k_fs s)) addr tot w (f_user (k_fs s')) /\
    (res = n /\ tot = n \/ res = -1 /\ 0 <= tot < n /\ all_used v' (f_sb (k_fs s))).
Proof using CL UL.
  intros x ino F Hw Hu Hmax Hn Ha Hend Hcan Href.
  destruct (filewrite_loop_ok f addr n Ha Hend Hmax (Z.to_nat (n / WRITEMAX + 2)) s v 0 F Hu)
    as (res & tot & s' & v' & w & E & F' & P & G & Ht & Hres); auto; try lia.
  { change WRITEMAX with 3072. dlia. }
  { rewrite Z.sub_0_r. exact Href. }
  exists (if res =? n then n else -1), tot, s', v', w. unfold filewrite, get_file. rewrite bind_gets. fold x. rewrite Hw. cbn [negb].
  pose proof (fo_type _ _ _ F) as Htype. fold x in Htype. rewrite Htype, (bind_ret_l _ _ _ _ _ E). rewrite Z.add_0_r in G.
  split; [reflexivity|]. split; [exact F'|]. split; [exact P|]. split; [exact G|].
  destruct (Z.eqb_spec res n); destruct Hres as [[? ?]|(? & ? & ?)];
    first [left; split; lia | right; split; [lia|split; [lia|assumption]] | lia].
Qed.
End Write.

(** ** An example *)

Module ExampleFile.
Import Ideal IdealMem ExampleDisk.

(** The disk of [ExampleDisk] between operations, with an open file of 1500
    bytes of which 1400 have been read or written. *)
Definition ex_idle : logst bst :=
  Logst (Bst ex_view ex_view (fun _ => 0) (fun _ => false) 0 []) 2 0 false 1 0 (replicate 30 0) false.
Definition ex_idle_fs : fs (logst bst) imem :=
  FS ex_idle ex_sb false (fun _ => with_lock (Sleeplock false false 0) ex_inode) 0 7 ex_mem [].
Definition ex_open : file := File FD_INODE 1 true true 0 0 1400 0.
Definition ex_kern : kern (logst bst) imem unit :=
  Kern ex_idle_fs false (fun _ => ex_open) (fun _ => Pipe false (fun _ => 0) 0 0 false false (fun _ => false) false tt) false
       (fun _ => NULL) (fun _ => 0) tt.

Definition ex_TI : TxnLaws (logst bst) 1 := log_txn_laws 1 2 0.
Definition ex_TA : TxnLaws (logst bst) 1 := log_txn_laws 1 2 1.

#[local] Instance ex_mem_laws : UserMemLaws imem := ideal_mem_laws 4096.

Lemma ex_idle_blocks : blocks 1 (TL := ex_TI) ex_idle_fs [] ex_view [] 0.
Proof.
  split.
  - split; try reflexivity; try (vm_compute; congruence); try (split; vm_compute; congruence).
    + intros _. repeat split. vm_compute. congruence.
    + intros b Hb. apply elem_of_nil in Hb. contradiction.
    + apply NoDup_nil. exact I.
    + apply NoDup_nil. exact I.
    + intros h b Hin. apply elem_of_nil in Hin. contradiction.
  - intros b Hb. right. simpl in Hb. unfold LOGBLOCKS, MAXOPBLOCKS. lia.
Qed.

Lemma ex_file_open : file_open 1 (TI := ex_TI) ex_kern 0 ex_view.
Proof.
  split; [reflexivity|split; closed|discriminate|closed|reflexivity|reflexivity|reflexivity|].
  apply (ready_move 1 _ ex_TI ex_fs ex_idle_fs ex_view ex_view [] [] 26 0 0 ex_ready); try reflexivity.
  - apply same_file_lock.
  - exact ex_byte.
  - exact ex_idle_blocks.
Qed.

(** 4000 bytes are written in two operations. *)
Lemma filewrite_correct_witness :
  exists res tot s' v' w, filewrite (TC := log_ctl 1) (fun _ => Devops None None) 1 0 100 4000 ex_kern = Ret res s' /\
    file_open 1 (TI := ex_TI) s' 0 v' /\ progress 0 ex_kern s' ex_view v' 1400 tot w /\
    write_good ex_mem 100 tot w (f_user (k_fs s')) /\
    (res = 4000 /\ tot = 4000 \/ res = -1 /\ 0 <= tot < 4000 /\ all_used v' ex_sb).
Proof.
  apply (filewrite_correct (TC := log_ctl 1) 1 (TI := ex_TI) (TA := ex_TA) (CL := log_ctl_laws 1 2 0) 0
           (fun _ => Devops None None) ex_kern 0 ex_view 100 4000).
  - exact ex_file_open.
  - reflexivity.
  - exact ex_mem_inv.
  - vm_compute. congruence.
  - lia.
  - lia.
  - lia.
  - intros a Ha. simpl. unfold ex_mem. replace (_ && _) with true by lia. discriminate.
  - reflexivity.
Defined.
End ExampleFile.
