(* ===== verification/FsPath.v ===== *)
(** * Path names

    [namex] walks the tree of directories on the disk.  What a path stands for
    is said without inodes in memory, locks or reference counts ([resolve]); the
    table of inodes is described by the reference counts of its entries, the
    entry that is locked and the disk inodes of those that are valid ([table]). *)

From S2P Require Import Prelude Sleeplock Block Log Txn TxnOps UserMem Fs FsBlocks FsInode FsData FsSpec FsDir File FileSpec.

(** ** The tree on the disk *)

Section Tree.
Context (dev : Z) (v : Z -> block) (sb : superblock).

(** The inode as the disk has it. *)
Definition dinode (inum : Z) : inode :=
  let d := v (IBLOCK inum sb) in let o := dinode_off inum in
  Inode dev inum 0 initsleeplock true (d_type d o) (d_major d o) (d_minor d o) (d_nlink d o) (d_size d o) (d_addrs d o).

Definition live (inum : Z) : Prop := inode_in sb inum /\ i_type (dinode inum) <> 0.
Definition linked (inum : Z) : Prop := live inum /\ 0 < i_nlink (dinode inum).

(** Inodes in use have their blocks, and the entries of a directory that has a
    name lead to inodes that have names. *)
Record image_ok : Prop := {
  im_file : forall i, live i -> file_ok v sb (dinode i) /\ has_blocks v (dinode i);
  im_dir : forall i, live i -> i_type (dinode i) = T_DIR -> i_size (dinode i) mod DIRENT = 0;
  im_entry : forall i name j, linked i -> i_type (dinode i) = T_DIR -> dir_get v (dinode i) name = Some j -> linked j;
  im_root : linked ROOTINO
}.

(** The inode reached from [inum] by the names [ns]; with [parent], the
    directory that has the last of them. *)
Fixpoint resolve (parent : bool) (inum : Z) (ns : list (list Z)) : option Z :=
  match ns with
  | [] => if parent then None else Some inum
  | n :: ns =>
      if i_type (dinode inum) =? T_DIR then
        if parent && bool_decide (ns = []) then Some inum
        else match dir_get v (dinode inum) n with
             | Some j => resolve parent j ns
             | None => None
             end
      else None
  end.

Lemma walk_linked : image_ok -> forall ns parent inum j, linked inum -> resolve parent inum ns = Some j -> linked j.
Proof.
  intros Him. induction ns as [|n ns IH]; intros parent inum j Hl E; cbn [resolve] in E.
  { destruct parent; [discriminate|]. injection E as <-. exact Hl. }
  destruct (Z.eqb_spec (i_type (dinode inum)) T_DIR) as [Ht|]; [|discriminate].
  destruct (_ && _); [injection E as <-; exact Hl|]. destruct (dir_get _ _ n) as [k|] eqn:Ek; [|discriminate].
  eapply IH; [|exact E]. eapply (im_entry Him); eauto.
Qed.

(** An inode in memory that has what the disk has. *)
Record loaded (i : inode) : Prop := {
  ld_type : i_type i = i_type (dinode (i_inum i));
  ld_major : i_major i = i_major (dinode (i_inum i));
  ld_minor : i_minor i = i_minor (dinode (i_inum i));
  ld_nlink : i_nlink i = i_nlink (dinode (i_inum i));
  ld_size : i_size i = i_size (dinode (i_inum i));
  ld_addrs : i_addrs i = i_addrs (dinode (i_inum i))
}.
End Tree.

Lemma byte_at_same v i i' o : i_addrs i' = i_addrs i -> byte_at v i' o = byte_at v i o.
Proof. intros E. unfold byte_at, addr_of, ind_of. rewrite E. reflexivity. Qed.

Lemma dir_scan_same v i i' name n : i_addrs i' = i_addrs i -> forall off, dir_scan n v i' name off = dir_scan n v i name off.
Proof.
  intros E. assert (Ec : forall off, contents v i' off DIRENT = contents v i off DIRENT).
  { intros off. unfold contents. apply list_fmap_ext. intros k x _. apply byte_at_same, E. }
  induction n as [|n IH]; intros off; cbn [dir_scan]; [reflexivity|]. rewrite Ec, IH. reflexivity.
Qed.

Lemma dir_get_same v i i' name : i_addrs i' = i_addrs i -> i_size i' = i_size i -> dir_get v i' name = dir_get v i name.
Proof. intros E1 E2. unfold dir_get, dir_find. rewrite E2, (dir_scan_same v i i') by exact E1. reflexivity. Qed.

Lemma has_blocks_same v i i' : i_addrs i' = i_addrs i -> i_size i' = i_size i -> has_blocks v i -> has_blocks v i'.
Proof.
  intros E1 E2 [H1 H2]. split; rewrite E2; [exact H1|]. intros o Ho.
  unfold addr_of, ind_of. rewrite E1. apply H2, Ho.
Qed.

(** ** The table of inodes *)

Section Table.
Context {T U : Type} `{TX : Txn T} (dev : Z) `{TL : !TxnLaws T dev}.
Implicit Types s : fs T U.

(** Entry [k] has [R k] references; entry [h], if any, is locked by the running
    process and no other is. *)
Record table (h : Z) (R : Z -> Z) (v : Z -> block) (s : fs T U) : Prop := {
  tb_itlock : f_itlock s = false;
  tb_ref : forall k, 0 <= k < NINODE -> i_ref (f_inode s k) = R k /\ 0 <= R k < 2 ^ 31;
  tb_one : forall j k, 0 <= j < NINODE -> 0 <= k < NINODE -> 0 < R j -> 0 < R k ->
    i_inum (f_inode s j) = i_inum (f_inode s k) -> j = k;
  tb_entry : forall k, 0 <= k < NINODE -> 0 < R k ->
    i_dev (f_inode s k) = dev /\ live dev v (f_sb s) (i_inum (f_inode s k)) /\
    (i_valid (f_inode s k) = true -> loaded dev v (f_sb s) (f_inode s k));
  tb_locks : forall k, 0 <= k < NINODE ->
    if k =? h then i_lock (f_inode s k) = Sleeplock false true (f_pid s)
    else sl_lk (i_lock (f_inode s k)) = false /\ sl_locked (i_lock (f_inode s k)) = false
}.

(** The entries in use keep their inodes. *)
Definition same_inums (R : Z -> Z) (g g' : Z -> inode) : Prop := forall k, 0 <= k < NINODE -> 0 < R k -> i_inum (g' k) = i_inum (g k).

Lemma table_ext h R R' v s : (forall k, 0 <= k < NINODE -> R' k = R k) -> table h R v s -> table h R' v s.
Proof using.
  intros E [H1 H2 H3 H4 H5]. split; auto.
  - intros k Hk. rewrite E by exact Hk. auto.
  - intros j k Hj Hk. rewrite !E by assumption. auto.
  - intros k Hk. rewrite E by exact Hk. auto.
Qed.

Lemma table_txn h R v x s : table h R v s -> table h R v (at_txn x s).
Proof using. intros []. split; assumption. Qed.

(** One entry changes. *)
Lemma table_set h h' R v s g ip r : table h R v s -> 0 <= ip < NINODE -> (forall k, k <> ip -> g k = f_inode s k) ->
  i_ref (g ip) = r -> 0 <= r < 2 ^ 31 ->
  (0 < r -> (forall k, 0 <= k < NINODE -> k <> ip -> 0 < R k -> i_inum (f_inode s k) <> i_inum (g ip)) /\
     i_dev (g ip) = dev /\ live dev v (f_sb s) (i_inum (g ip)) /\ (i_valid (g ip) = true -> loaded dev v (f_sb s) (g ip))) ->
  (if ip =? h' then i_lock (g ip) = Sleeplock false true (f_pid s)
   else sl_lk (i_lock (g ip)) = false /\ sl_locked (i_lock (g ip)) = false) ->
  (forall k, 0 <= k < NINODE -> k <> ip -> (k =? h') = (k =? h)) ->
  table h' (upd R ip r) v (at_inodes g s).
Proof using.
  intros [H1 H2 H3 H4 H5] Hip Hg Hr Hrb Hnew Hlk Hh. split; cbn [at_inodes f_itlock f_inode f_sb f_pid].
  - exact H1.
  - intros k Hk. unfold upd. destruct (Z.eqb_spec k ip) as [->|Hne]; [auto|]. rewrite Hg by exact Hne. auto.
  - intros j k Hj Hk. unfold upd. destruct (Z.eqb_spec j ip) as [->|Hj'], (Z.eqb_spec k ip) as [->|Hk']; auto.
    + rewrite (Hg k Hk'). intros Hr1 Hr2 E. destruct (Hnew Hr1) as [Hn _]. destruct (Hn k Hk Hk' Hr2). congruence.
    + rewrite (Hg j Hj'). intros Hr1 Hr2 E. destruct (Hnew Hr2) as [Hn _]. destruct (Hn j Hj Hj' Hr1 E).
    + rewrite (Hg j Hj'), (Hg k Hk'). auto.
  - intros k Hk. unfold upd. destruct (Z.eqb_spec k ip) as [->|Hne]; [apply Hnew|]. rewrite Hg by exact Hne. auto.
  - intros k Hk. destruct (decide (k = ip)) as [->|Hne]; [exact Hlk|]. rewrite Hh, Hg by assumption. apply H5, Hk.
Qed.

(** The same entry with other bookkeeping. *)
Lemma table_entry h R v s ip : table h R v s -> 0 <= ip < NINODE -> 0 < R ip ->
  (forall k, 0 <= k < NINODE -> k <> ip -> 0 < R k -> i_inum (f_inode s k) <> i_inum (f_inode s ip)) /\
  i_dev (f_inode s ip) = dev /\ live dev v (f_sb s) (i_inum (f_inode s ip)) /\
  (i_valid (f_inode s ip) = true -> loaded dev v (f_sb s) (f_inode s ip)).
Proof using.
  intros Ht Hip Hr. split; [|apply (tb_entry _ _ _ _ Ht ip Hip Hr)].
  intros k Hk Hne Hrk E. apply Hne. apply (tb_one _ _ _ _ Ht); auto.
Qed.

Lemma iget_step h R v s inum : table h R v s -> live dev v (f_sb s) inum ->
  (exists j, 0 <= j < NINODE /\ R j = 0) -> (forall k, 0 <= k < NINODE -> R k + 1 < 2 ^ 31) ->
  exists ip g, iget dev inum s = Ret ip (at_inodes g s) /\ 0 <= ip < NINODE /\ i_inum (g ip) = inum /\
    table h (upd R ip (R ip + 1)) v (at_inodes g s) /\ same_inums R (f_inode s) g /\
    (forall k, i_lock (g k) = i_lock (f_inode s k)).
Proof using.
  intros Ht Hlive (j0 & Hj0 & Hfree) Hroom. rewrite iget_run by apply Ht.
  pose proof (iget_scan_spec (Z.to_nat NINODE) (f_inode s) dev inum 0 None) as Hs. change (0 + Z.of_nat (Z.to_nat NINODE)) with NINODE in Hs.
  assert (Hlock : forall k, 0 <= k < NINODE -> if k =? h then i_lock (f_inode s k) = Sleeplock false true (f_pid s)
    else sl_lk (i_lock (f_inode s k)) = false /\ sl_locked (i_lock (f_inode s k)) = false) by apply Ht.
  destruct (iget_scan _ _ _ _ _ _) as [[j|] e].
  - destruct Hs as [Hj Hh]. unfold holds in Hh. b2p. destruct (tb_ref _ _ _ _ Ht j Hj) as [Er Hr]. pose proof (Hroom j Hj).
    exists j, (upd (f_inode s) j (with_ref (i32 (i_ref (f_inode s j) + 1)) (f_inode s j))). rewrite upd_eq.
    split; [reflexivity|]. split; [exact Hj|]. split; [simpl; lia|]. split; [|split].
    + apply (table_set h h R v s); rewrite ?upd_eq; auto; [intros; apply upd_ne; assumption|simpl; rewrite i32_small; lia|lia|..].
      * intros _. destruct (table_entry h R v s j Ht Hj ltac:(lia)) as (E1 & E2 & E3 & E4). split_and!; auto.
        intros Hv. destruct (E4 Hv). split; assumption.
      * apply Hlock, Hj.
    + intros k Hk Hk'. unfold upd. destruct (Z.eqb_spec k j); [subst; reflexivity|reflexivity].
    + intros k. unfold upd. destruct (Z.eqb_spec k j); [subst; reflexivity|reflexivity].
  - destruct Hs as [Hno Hs]. destruct e as [j|]; [|destruct (Hs j0 Hj0); destruct (tb_ref _ _ _ _ Ht j0 Hj0); congruence].
    destruct Hs as [Hj Hr0]. destruct (tb_ref _ _ _ _ Ht j Hj) as [Er _]. rewrite Hr0 in Er. set (i := f_inode s j).
    exists j, (upd (f_inode s) j (Inode dev inum 1 (i_lock i) false (i_type i) (i_major i) (i_minor i) (i_nlink i) (i_size i) (i_addrs i))).
    split; [reflexivity|]. split; [exact Hj|]. rewrite upd_eq. split; [reflexivity|]. split; [|split].
    + apply (table_set h h R v s); rewrite ?upd_eq; auto; [intros; apply upd_ne; assumption|simpl; lia|lia|..].
      * intros _. split_and!; auto; [|discriminate]. intros k Hk Hne Hrk. simpl. specialize (Hno k Hk). unfold holds in Hno.
        destruct (tb_ref _ _ _ _ Ht k Hk) as [Ek _]. destruct (tb_entry _ _ _ _ Ht k Hk Hrk) as (Ed & _). rewrite Ek, Ed, Z.eqb_refl in Hno.
        replace (0 <? R k) with true in Hno by lia. simpl in Hno. lia.
      * apply Hlock, Hj.
    + intros k Hk Hk'. unfold upd. destruct (Z.eqb_spec k j); [subst; lia|reflexivity].
    + intros k. unfold upd. destruct (Z.eqb_spec k j); [subst; reflexivity|reflexivity].
Qed.

(** What [ilock] makes of an entry. *)
Definition locked_inode (v : Z -> block) (s : fs T U) (i : inode) : inode :=
  let d := dinode dev v (f_sb s) (i_inum i) in
  if i_valid i then with_lock (Sleeplock false true (f_pid s)) i
  else Inode (i_dev i) (i_inum i) (i_ref i) (Sleeplock false true (f_pid s)) true
         (i_type d) (i_major d) (i_minor d) (i_nlink d) (i_size d) (i_addrs d).

Lemma ilock_run wakeups R v L r s ip : table NULL R v s -> 0 <= ip < NINODE -> 0 < R ip -> blocks dev s [] v L r ->
  exists x g, ilock (S wakeups) ip s = Ret tt (at_inodes g (at_txn x s)) /\ blocks dev (at_txn x s) [] v L r /\
    g ip = locked_inode v s (f_inode s ip) /\ (forall k, k <> ip -> g k = f_inode s k).
Proof using TL.
  intros Ht Hip Hr B. set (i := f_inode s ip). destruct (tb_ref _ _ _ _ Ht ip Hip) as [Er _].
  destruct (tb_entry _ _ _ _ Ht ip Hip Hr) as (Ed & [Hin Hty] & Hld). pose proof (tb_locks _ _ _ _ Ht ip Hip) as Hl.
  replace (ip =? NULL) with false in Hl by (unfold NULL; lia). destruct Hl as [Hl1 Hl2]. fold i in Er, Ed, Hin, Hty, Hld, Hl1, Hl2.
  assert (Hnull : ip <> NULL) by (unfold NULL; lia). unfold locked_inode.
  destruct (i_valid i) eqn:Ev.
  { exists (f_txn s), (upd (f_inode s) ip (with_lock (Sleeplock false true (f_pid s)) i)).
    rewrite ilock_valid by (fold i; assumption || lia). split; [destruct s; reflexivity|]. split; [exact B|].
    rewrite upd_eq. split; [reflexivity|]. intros k Hk. apply upd_ne, Hk. }
  unfold ilock, get_inode. rewrite bind_gets. fold i. replace (ip =? NULL) with false by lia. replace (i_ref i <? 1) with false by lia. cbn [orb].
  rewrite bind_gets. set (s1 := set_inode ip (with_lock (Sleeplock false true (f_pid s))) s).
  rewrite (bind_ret_l _ _ _ tt s1) by (apply (zoom_ret (inode_lock ip)); apply acquiresleep_free; assumption).
  rewrite bind_gets. assert (E1 : f_inode s1 ip = with_lock (Sleeplock false true (f_pid s)) i) by apply upd_eq. rewrite E1.
  cbn [with_lock i_valid i_dev i_inum]. rewrite Ev. cbn [negb when]. unfold the_sb. rewrite bind_gets. rewrite Ed.
  destruct (peek dev s1 [] v L r (IBLOCK (i_inum i) (f_sb s1)) B (not_elem_of_nil _) ltac:(simpl; unfold HELDMAX; lia)) as (hb & x & E2 & D & B1). step.
  unfold data. rewrite bind_gets. change (f_txn (at_txn x s1)) with x. rewrite D, bind_modify.
  match goal with |- context [set_inode ip ?f (at_txn x s1)] => set (s2 := set_inode ip f (at_txn x s1)) end.
  destruct (unpeek dev s2 hb _ [] v L r B1 (not_elem_of_nil _)) as (x2 & E3 & B2). step. rewrite bind_modify, bind_gets.
  set (s3 := set_inode ip (with_valid true) (at_txn x2 s2)).
  assert (E4 : f_inode s3 ip = locked_inode v s i) by (unfold locked_inode; rewrite Ev; simpl; rewrite !upd_eq; reflexivity).
  unfold locked_inode in E4. rewrite Ev, Ed in E4.
  assert (Ety : (i_type (f_inode s3 ip) =? 0) = false) by (rewrite E4; apply Z.eqb_neq, Hty). rewrite Ety.
  exists x2, (f_inode s3). split; [reflexivity|]. split; [exact B2|]. split; [exact E4|].
  intros k Hk. simpl. rewrite !upd_ne by exact Hk. reflexivity.
Qed.

Lemma ilock_step wakeups R v L r s ip : table NULL R v s -> 0 <= ip < NINODE -> 0 < R ip -> blocks dev s [] v L r ->
  exists x g, ilock (S wakeups) ip s = Ret tt (at_inodes g (at_txn x s)) /\ blocks dev (at_txn x s) [] v L r /\
    table ip R v (at_inodes g (at_txn x s)) /\ i_inum (g ip) = i_inum (f_inode s ip) /\ i_dev (g ip) = dev /\
    i_valid (g ip) = true /\ loaded dev v (f_sb s) (g ip) /\ (forall k, k <> ip -> g k = f_inode s k).
Proof using TL.
  intros Ht Hip Hr B. destruct (ilock_run wakeups R v L r s ip Ht Hip Hr B) as (x & g & E & B1 & Eg & Hg). exists x, g.
  set (i := f_inode s ip) in *. destruct (tb_ref _ _ _ _ Ht ip Hip) as [Er Hrb]. destruct (table_entry _ _ _ _ _ Ht Hip Hr) as (H1 & H2 & H3 & H4). fold i in Er, H1, H2, H3, H4.
  assert (Hin : i_inum (g ip) = i_inum i) by (rewrite Eg; unfold locked_inode; destruct (i_valid i); reflexivity).
  assert (Hld : loaded dev v (f_sb s) (g ip)).
  { rewrite Eg. unfold locked_inode. destruct (i_valid i) eqn:Ev; [destruct (H4 eq_refl); split; assumption|split; reflexivity]. }
  assert (Hlk : i_lock (g ip) = Sleeplock false true (f_pid s)) by (rewrite Eg; unfold locked_inode; destruct (i_valid i); reflexivity).
  assert (Hrest : i_ref (g ip) = i_ref i /\ i_dev (g ip) = i_dev i /\ i_valid (g ip) = true)
    by (rewrite Eg; unfold locked_inode; destruct (i_valid i) eqn:Ev; auto). destruct Hrest as (Hr1 & Hd1 & Hv1).
  split; [exact E|]. split; [exact B1|]. split; [|split_and!; auto; congruence].
  apply (table_ext ip (upd R ip (R ip))); [intros k Hk; unfold upd; destruct (Z.eqb_spec k ip); congruence|].
  apply (table_set NULL ip R v (at_txn x s) g ip (R ip)); auto using table_txn; [congruence|intros _; split_and!; auto; try congruence|..].
  - rewrite Hin. exact H1.
  - rewrite Hin. exact H3.
  - rewrite Z.eqb_refl. exact Hlk.
  - intros k Hk Hne. unfold NULL. lia.
Qed.

(** A reference to an inode with a name is given up. *)
Lemma iput_step wakeups R v s ip : table NULL R v s -> 0 <= ip < NINODE -> 0 < R ip ->
  linked dev v (f_sb s) (i_inum (f_inode s ip)) ->
  exists g, iput wakeups ip s = Ret tt (at_inodes g s) /\ table NULL (upd R ip (R ip - 1)) v (at_inodes g s) /\
    (forall k, i_inum (g k) = i_inum (f_inode s k)) /\ (forall k, k <> ip -> g k = f_inode s k).
Proof using.
  intros Ht Hip Hr [_ Hlink]. set (i := f_inode s ip) in *. destruct (tb_ref _ _ _ _ Ht ip Hip) as [Er Hrb]. fold i in Er.
  destruct (table_entry _ _ _ _ _ Ht Hip Hr) as (H1 & H2 & H3 & H4). fold i in H1, H2, H3, H4.
  pose proof (tb_itlock _ _ _ _ Ht) as Hl. pose proof (tb_locks _ _ _ _ Ht ip Hip) as Hlk.
  exists (upd (f_inode s) ip (with_ref (i32 (i_ref i - 1)) i)). split; [|split; [|split]].
  - unfold iput. rewrite (bind_ret_l _ _ _ tt (set itable_lock true s)) by (unfold acquire; simpl; rewrite Hl; reflexivity).
    unfold get_inode. rewrite bind_gets. change (f_inode (set itable_lock true s) ip) with i.
    replace ((i_ref i =? 1) && i_valid i && (i_nlink i =? 0)) with false.
    2: { symmetry. destruct (i_valid i) eqn:Ev; [|rewrite andb_false_r; reflexivity]. destruct (H4 eq_refl). lia. }
    cbn [when]. erewrite bind_ret_l by reflexivity. rewrite bind_modify. unfold release, set_inode, at_inodes. simpl. fold i. rewrite <- Hl at 1.
    reflexivity.
  - apply (table_set NULL NULL R v s); rewrite ?upd_eq; auto; [intros; apply upd_ne; assumption|simpl; rewrite i32_small; lia|lia|].
    intros _. split_and!; auto. intros Hv. destruct (H4 Hv). split; assumption.
  - intros k. unfold upd. destruct (Z.eqb_spec k ip); [subst; reflexivity|reflexivity].
  - intros k Hk. apply upd_ne, Hk.
Qed.

Lemma iunlock_step R v s ip : table ip R v s -> 0 <= ip < NINODE -> 0 < R ip ->
  exists g, iunlock ip s = Ret tt (at_inodes g s) /\ table NULL R v (at_inodes g s) /\
    (forall k, i_inum (g k) = i_inum (f_inode s k)) /\ (forall k, k <> ip -> g k = f_inode s k).
Proof using.
  intros Ht Hip Hr. destruct (tb_ref _ _ _ _ Ht ip Hip) as [Er Hrb]. pose proof (tb_locks _ _ _ _ Ht ip Hip) as Hlk. rewrite Z.eqb_refl in Hlk.
  destruct (iunlock_held s ip ltac:(unfold NULL; lia) ltac:(lia) Hlk) as (g & E & Hg). exists g. split; [exact E|].
  assert (Hgi : g ip = with_lock (Sleeplock false false 0) (f_inode s ip)) by (rewrite Hg, Z.eqb_refl; reflexivity).
  assert (Hgk : forall k, k <> ip -> g k = f_inode s k) by (intros k Hk; rewrite Hg; replace (k =? ip) with false by lia; reflexivity).
  split; [|split; [|exact Hgk]].
  - apply (table_ext NULL (upd R ip (R ip))); [intros k Hk; unfold upd; destruct (Z.eqb_spec k ip); congruence|].
    destruct (table_entry _ _ _ _ _ Ht Hip Hr) as (H1 & H2 & H3 & H4).
    apply (table_set ip NULL R v s g ip (R ip)); rewrite ?Hgi; auto.
    + intros _. split_and!; auto. intros Hv. destruct (H4 Hv). split; assumption.
    + unfold NULL. replace (ip =? -1) with false by lia. auto.
    + intros k Hk Hne. unfold NULL. lia.
  - intros k. destruct (decide (k = ip)) as [->|Hne]; [rewrite Hgi|rewrite Hgk by exact Hne]; reflexivity.
Qed.

Lemma iunlockput_step wakeups R v s ip : table ip R v s -> 0 <= ip < NINODE -> 0 < R ip ->
  linked dev v (f_sb s) (i_inum (f_inode s ip)) ->
  exists g, iunlockput wakeups ip s = Ret tt (at_inodes g s) /\ table NULL (upd R ip (R ip - 1)) v (at_inodes g s) /\
    (forall k, i_inum (g k) = i_inum (f_inode s k)) /\ (forall k, k <> ip -> g k = f_inode s k).
Proof using.
  intros Ht Hip Hr Hl. destruct (iunlock_step R v s ip Ht Hip Hr) as (g & E & Ht1 & Hn1 & Hg1).
  destruct (iput_step wakeups R v (at_inodes g s) ip Ht1 Hip Hr) as (g2 & E2 & Ht2 & Hn2 & Hg2); [simpl; rewrite Hn1; exact Hl|].
  exists g2. split; [unfold iunlockput; rewrite (bind_ret_l _ _ _ _ _ E); exact E2|]. split; [exact Ht2|].
  split; intros k; [rewrite Hn2; apply Hn1|]. intros Hk. rewrite Hg2 by exact Hk. apply Hg1, Hk.
Qed.

Lemma idup_step R v s ip : table NULL R v s -> 0 <= ip < NINODE -> 0 < R ip -> R ip + 1 < 2 ^ 31 ->
  exists g, idup ip s = Ret ip (at_inodes g s) /\ table NULL (upd R ip (R ip + 1)) v (at_inodes g s) /\
    (forall k, i_inum (g k) = i_inum (f_inode s k)).
Proof using.
  intros Ht Hip Hr Hroom. set (i := f_inode s ip). destruct (tb_ref _ _ _ _ Ht ip Hip) as [Er Hrb]. fold i in Er.
  destruct (table_entry _ _ _ _ _ Ht Hip Hr) as (H1 & H2 & H3 & H4). pose proof (tb_itlock _ _ _ _ Ht) as Hl.
  exists (upd (f_inode s) ip (with_ref (i32 (i_ref i + 1)) i)). split; [|split].
  - unfold idup. rewrite (bind_ret_l _ _ _ tt (set itable_lock true s)) by (unfold acquire; simpl; rewrite Hl; reflexivity).
    rewrite bind_modify. destruct s; simpl in *; subst; reflexivity.
  - apply (table_set NULL NULL R v s); rewrite ?upd_eq; auto; [intros; apply upd_ne; assumption|simpl; rewrite i32_small; lia|lia|..].
    + intros _. split_and!; auto. intros Hv. destruct (H4 Hv). split; assumption.
    + apply (tb_locks _ _ _ _ Ht ip Hip).
  - intros k. unfold upd. destruct (Z.eqb_spec k ip); [subst; reflexivity|reflexivity].
Qed.
End Table.

(** ** Walking *)

Lemma key_take name : key (take (Z.to_nat DIRSIZ) name) = key name.
Proof. unfold key. rewrite take_take, Nat.min_id. reflexivity. Qed.

Lemma dir_get_take v i name : dir_get v i (take (Z.to_nat DIRSIZ) name) = dir_get v i name.
Proof.
  unfold dir_get, dir_find. f_equal. generalize 0. induction (Z.to_nat (i_size i / DIRENT)) as [|n IH]; intros off; cbn [dir_scan]; [reflexivity|].
  rewrite key_take, IH. reflexivity.
Qed.

Section Walk.
Context {T U : Type} `{TX : Txn T} (dev : Z) `{TL : !TxnLaws T dev} `{UM : UserMem U}.
Implicit Types s : fs T U.

(** Only the cached blocks and the table of inodes are different. *)
Definition moved (s s' : fs T U) : Prop := exists x g, s' = at_inodes g (at_txn x s).

Lemma moved_trans s1 s2 s3 : moved s1 s2 -> moved s2 s3 -> moved s1 s3.
Proof using. intros (x & g & ->) (x' & g' & ->). exists x', g'. reflexivity. Qed.

Lemma moved_inodes s g : moved s (at_inodes g s).
Proof using. exists (f_txn s), g. destruct s; reflexivity. Qed.

Lemma moved_txn s x : moved s (at_txn x s).
Proof using. exists x, (f_inode s). destruct s; reflexivity. Qed.

Lemma moved_sb s s' : moved s s' -> f_sb s' = f_sb s.
Proof using. intros (x & g & ->). reflexivity. Qed.

Lemma loaded_dir v sb i : image_ok dev v sb -> live dev v sb (i_inum i) -> loaded dev v sb i -> i_type i = T_DIR -> dir_ok v i.
Proof using.
  intros Him Hl [L1 L2 L3 L4 L5 L6] Ht. split; [exact Ht|rewrite L5; apply (im_dir _ _ _ Him); congruence|].
  apply (has_blocks_same v (dinode dev v sb (i_inum i))); auto. apply (im_file _ _ _ Him), Hl.
Qed.

(** Looking a name up in a locked directory. *)
Lemma dirlookup_step R v L r s ip name : table dev ip R v s -> 0 <= ip < NINODE -> 0 < R ip -> i_valid (f_inode s ip) = true ->
  image_ok dev v (f_sb s) -> i_type (f_inode s ip) = T_DIR -> linked dev v (f_sb s) (i_inum (f_inode s ip)) ->
  (exists j, 0 <= j < NINODE /\ R j = 0) -> (forall k, 0 <= k < NINODE -> R k + 1 < 2 ^ 31) -> blocks dev s [] v L r ->
  exists next o s', dirlookup ip name s = Ret (next, o) s' /\ moved s s' /\ blocks dev s' [] v L r /\ same_inums R (f_inode s) (f_inode s') /\
    match dir_get v (dinode dev v (f_sb s) (i_inum (f_inode s ip))) name with
    | Some j => 0 <= next < NINODE /\ i_inum (f_inode s' next) = j /\ table dev ip (upd R next (R next + 1)) v s'
    | None => next = NULL /\ table dev ip R v s'
    end.
Proof using TL.
  intros Ht Hip Hr Hv Him Hty Hl Hfree Hroom B. destruct (tb_entry _ _ _ _ _ Ht ip Hip Hr) as (Hd & Hlv & Hld). specialize (Hld Hv).
  destruct (dirlookup_ok dev v L r ip name s Hd (loaded_dir _ _ _ Him Hlv Hld Hty) B) as (x & B1 & E).
  pose proof (dir_get_same v (dinode dev v (f_sb s) (i_inum (f_inode s ip))) (f_inode s ip) name (ld_addrs _ _ _ _ Hld) (ld_size _ _ _ _ Hld)) as Eg.
  rewrite <- Eg. assert (Hlook : forall j, dir_get v (f_inode s ip) name = Some j -> live dev v (f_sb s) j).
  { intros j Hj. rewrite Eg in Hj. eapply (im_entry _ _ _ Him); eauto. rewrite <- (ld_type _ _ _ _ Hld). exact Hty. }
  unfold dir_get in Hlook |- *. destruct (dir_find v (f_inode s ip) name) as [[j o]|]; cbn [fmap option_fmap option_map fst] in *.
  - destruct (iget_step dev ip R v (at_txn x s) j (table_txn _ _ _ _ _ _ Ht) (Hlook j eq_refl) Hfree Hroom) as (nx & g & E1 & Hn & Hi & Ht1 & Hs & _).
    exists nx, o, (at_inodes g (at_txn x s)). split; [rewrite E, (bind_ret_l _ _ _ _ _ E1); reflexivity|].
    split; [exists x, g; reflexivity|]. split; [exact B1|]. split; [exact Hs|]. split_and!; auto; apply Hn.
  - exists NULL, 0, (at_txn x s). split; [exact E|]. split; [apply moved_txn|]. split; [exact B1|]. split; [intros k _ _; reflexivity|].
    split; [reflexivity|]. apply table_txn, Ht.
Qed.

(** What the walk leaves, as against the references [R0] of everybody else. *)
Definition arrived (parent : bool) (R0 : Z -> Z) (v : Z -> block) (s s' : fs T U) (to : option Z) (names : list (list Z)) (res : Z * list Z) : Prop :=
  same_inums R0 (f_inode s) (f_inode s') /\
  match to with
  | Some j => 0 <= res.1 < NINODE /\ i_inum (f_inode s' res.1) = j /\ table dev NULL (upd R0 res.1 (R0 res.1 + 1)) v s' /\
      (parent = true -> exists e, last names = Some e /\ res.2 = take (Z.to_nat DIRSIZ) e)
  | None => res.1 = NULL /\ table dev NULL R0 v s'
  end.

Lemma arrived_from parent R0 v s s1 s' to names names' res : same_inums R0 (f_inode s) (f_inode s1) ->
  (parent = true -> to <> None -> last names' = last names) ->
  arrived parent R0 v s1 s' to names' res -> arrived parent R0 v s s' to names res.
Proof using.
  intros Hs Hn [H1 H2]. split; [intros k Hk Hr; rewrite H1, Hs; auto|]. destruct to as [j|]; [|exact H2].
  destruct H2 as (G1 & G2 & G3 & G4). split_and!; auto; try apply G1. intros Hp. rewrite <- Hn by (exact Hp || discriminate). apply G4, Hp.
Qed.

(** References in range, and two entries that are free. *)
Record roomy (R0 : Z -> Z) : Prop := {
  rm_range : forall k, 0 <= k < NINODE -> 0 <= R0 k /\ R0 k + 2 < 2 ^ 31;
  rm_free : exists a b, 0 <= a < NINODE /\ 0 <= b < NINODE /\ a <> b /\ R0 a = 0 /\ R0 b = 0
}.

Lemma roomy_one R0 ip : roomy R0 -> (exists j, 0 <= j < NINODE /\ upd R0 ip (R0 ip + 1) j = 0) /\
  forall k, 0 <= k < NINODE -> upd R0 ip (R0 ip + 1) k + 1 < 2 ^ 31.
Proof using.
  intros [H1 (a & b & Ha & Hb & Hab & Ra & Rb)]. split.
  - destruct (decide (a = ip)) as [->|]; [exists b|exists a]; rewrite upd_ne by congruence; auto.
  - intros k Hk. destruct (H1 k Hk). unfold upd. destruct (Z.eqb_spec k ip); subst; lia.
Qed.

(** Giving the directory up. *)
Lemma walk_leaves wakeups R v s ip : table dev ip R v s -> 0 <= ip < NINODE -> 0 < R ip -> linked dev v (f_sb s) (i_inum (f_inode s ip)) ->
  exists s', iunlockput wakeups ip s = Ret tt s' /\ moved s s' /\ f_txn s' = f_txn s /\ (forall k, i_inum (f_inode s' k) = i_inum (f_inode s k)) /\
    forall R', (forall k, 0 <= k < NINODE -> R' k = if k =? ip then R k - 1 else R k) -> table dev NULL R' v s'.
Proof using.
  intros Ht Hip Hr Hl. destruct (iunlockput_step dev wakeups R v s ip Ht Hip Hr Hl) as (g & E & Ht1 & Hn & _).
  exists (at_inodes g s). split; [exact E|]. split; [apply moved_inodes|]. split; [reflexivity|]. split; [exact Hn|].
  intros R' HR. eapply table_ext; [|exact Ht1]. intros k Hk. rewrite HR by exact Hk. unfold upd. destruct (Z.eqb_spec k ip); subst; reflexivity.
Qed.

Lemma blocks_moved s s' v L r : blocks dev s [] v L r -> f_txn s' = f_txn s -> f_sb s' = f_sb s -> blocks dev s' [] v L r.
Proof using. unfold blocks. intros B -> ->. exact B. Qed.

Lemma moved_refl s : moved s s.
Proof using. exists (f_txn s), (f_inode s). destruct s; reflexivity. Qed.

(** The references while the walk has entry [ip]. *)
Definition one_more (R0 : Z -> Z) (ip : Z) : Z -> Z := upd R0 ip (R0 ip + 1).

Lemma one_less R0 ip k : R0 k = if k =? ip then one_more R0 ip k - 1 else one_more R0 ip k.
Proof using. unfold one_more, upd. destruct (Z.eqb_spec k ip); subst; lia. Qed.

Lemma one_more_pos R0 ip k : roomy R0 -> 0 <= k < NINODE -> 0 < R0 k \/ k = ip -> 0 < one_more R0 ip k.
Proof using. intros [H _] Hk Hor. specialize (H k Hk). unfold one_more, upd. destruct (Z.eqb_spec k ip); subst; lia. Qed.

(** The walk ends without success at the locked entry [ip]. *)
Lemma walk_fails wakeups parent R0 v L r s s2 ip names (nm : list Z) : roomy R0 -> 0 <= ip < NINODE ->
  linked dev v (f_sb s) (i_inum (f_inode s ip)) -> table dev ip (one_more R0 ip) v s2 -> moved s s2 -> blocks dev s2 [] v L r ->
  same_inums (one_more R0 ip) (f_inode s) (f_inode s2) ->
  exists res s', (iunlockput wakeups ip ;; ret (NULL, nm)) s2 = Ret res s' /\ moved s s' /\ blocks dev s' [] v L r /\
    arrived parent R0 v s s' None names res.
Proof using.
  intros Hroom Hip Hl Ht M B Hs. assert (Hpos : 0 < one_more R0 ip ip) by (apply one_more_pos; auto).
  destruct (walk_leaves wakeups (one_more R0 ip) v s2 ip Ht Hip Hpos) as (s3 & E3 & M3 & Et & Hn3 & Ht3).
  { rewrite (moved_sb _ _ M), Hs by assumption. exact Hl. }
  exists (NULL, nm), s3. rewrite (bind_ret_l _ _ _ _ _ E3). split; [reflexivity|]. split; [eauto using moved_trans|].
  split; [apply (blocks_moved s2); auto using moved_sb|]. split; [|split; [reflexivity|apply Ht3; intros; apply one_less]].
  intros k Hk Hrk. rewrite Hn3. apply Hs; [exact Hk|]. apply one_more_pos; auto.
Qed.

(** The path is at its end. *)
Lemma path_end wakeups (parent : bool) R0 v L r s ip (name : list Z) : roomy R0 -> 0 <= ip < NINODE ->
  linked dev v (f_sb s) (i_inum (f_inode s ip)) -> table dev NULL (one_more R0 ip) v s -> blocks dev s [] v L r ->
  exists res s', (if parent then iput wakeups ip ;; ret (NULL, name) else ret (ip, name)) s = Ret res s' /\ moved s s' /\ blocks dev s' [] v L r /\
    arrived parent R0 v s s' (resolve dev v (f_sb s) parent (i_inum (f_inode s ip)) []) [] res.
Proof using.
  intros Hroom Hip Hl Ht B. assert (Hpos : 0 < one_more R0 ip ip) by (apply one_more_pos; auto). cbn [resolve]. destruct parent.
  - destruct (iput_step dev wakeups (one_more R0 ip) v s ip Ht Hip Hpos Hl) as (g & E & Ht1 & Hn & _).
    exists (NULL, name), (at_inodes g s). rewrite (bind_ret_l _ _ _ _ _ E). split; [reflexivity|]. split; [apply moved_inodes|].
    split; [exact B|]. split; [intros k _ _; apply Hn|]. split; [reflexivity|]. eapply table_ext; [|exact Ht1].
    intros k Hk. rewrite (one_less R0 ip k). unfold upd at 1. destruct (Z.eqb_spec k ip); subst; reflexivity.
  - exists (ip, name), s. split; [reflexivity|]. split; [apply moved_refl|]. split; [exact B|].
    split; [intros k _ _; reflexivity|]. split_and!; auto; try apply Hip. discriminate.
Qed.

(** From a directory to the next entry. *)
Lemma go_on wakeups R0 v L r s s2 ip nx : roomy R0 -> 0 <= ip < NINODE -> 0 <= nx < NINODE ->
  linked dev v (f_sb s) (i_inum (f_inode s ip)) -> table dev ip (upd (one_more R0 ip) nx (one_more R0 ip nx + 1)) v s2 -> moved s s2 ->
  blocks dev s2 [] v L r -> same_inums (one_more R0 ip) (f_inode s) (f_inode s2) ->
  exists s3, iunlockput wakeups ip s2 = Ret tt s3 /\ moved s s3 /\ blocks dev s3 [] v L r /\ table dev NULL (one_more R0 nx) v s3 /\
    same_inums R0 (f_inode s) (f_inode s3) /\ i_inum (f_inode s3 nx) = i_inum (f_inode s2 nx).
Proof using.
  intros Hroom Hip Hnx Hl Ht M B Hs. assert (Hpos : 0 < one_more R0 ip ip) by (apply one_more_pos; auto).
  destruct (walk_leaves wakeups _ v s2 ip Ht Hip) as (s3 & E3 & M3 & Et & Hn3 & Ht3).
  { unfold upd. destruct (Z.eqb_spec ip nx); subst; lia. } { rewrite (moved_sb _ _ M), Hs by assumption. exact Hl. }
  exists s3. split; [exact E3|]. split; [eauto using moved_trans|]. split; [apply (blocks_moved s2); auto using moved_sb|].
  split; [|split; [|apply Hn3]].
  - apply Ht3. intros k Hk. unfold one_more, upd. destruct (Z.eqb_spec k nx), (Z.eqb_spec k ip); subst; rewrite ?Z.eqb_refl; try lia.
    replace (nx =? ip) with false by lia. lia.
  - intros k Hk Hrk. rewrite Hn3. apply Hs; [exact Hk|]. apply one_more_pos; auto.
Qed.

Lemma namex_loop_ok wakeups v L r parent R0 : roomy R0 -> forall fuel path name ip s,
  image_ok dev v (f_sb s) -> table dev NULL (one_more R0 ip) v s -> 0 <= ip < NINODE ->
  linked dev v (f_sb s) (i_inum (f_inode s ip)) -> blocks dev s [] v L r -> (length path < fuel)%nat ->
  exists res s', namex_loop (S wakeups) fuel ip path name parent s = Ret res s' /\ moved s s' /\ blocks dev s' [] v L r /\
    arrived parent R0 v s s' (resolve dev v (f_sb s) parent (i_inum (f_inode s ip)) (elems path)) (elems path) res.
Proof using TL.
  intros Hroom. induction fuel as [|fuel IH]; intros path name ip s Him Ht Hip Hl B Hf; [lia|]. cbn [namex_loop].
  assert (Hpos : 0 < one_more R0 ip ip) by (apply one_more_pos; auto). destruct (roomy_one R0 ip Hroom) as [Hfree Hinc].
  pose proof (skipelem_correct path) as Hsk. destruct (skipelem path) as [[nm rest]|].
  2: { rewrite Hsk. apply path_end; assumption. }
  destruct Hsk as (e & Ee & Hne & -> & Hlt & Hlast). rewrite Ee. set (nm := take (Z.to_nat DIRSIZ) e).
  destruct (ilock_step dev wakeups _ v L r s ip Ht Hip Hpos B) as (x & g & E1 & B1 & Ht1 & Hi1 & Hd1 & Hv1 & Hld & Hg).
  rewrite (bind_ret_l _ _ _ _ _ E1). set (s1 := at_inodes g (at_txn x s)) in *. unfold get_inode. rewrite bind_gets.
  assert (M1 : moved s s1) by (exists x, g; reflexivity). assert (Hl1 : linked dev v (f_sb s1) (i_inum (f_inode s1 ip))) by (simpl; rewrite Hi1; exact Hl).
  assert (Hn1 : forall k, i_inum (f_inode s1 k) = i_inum (f_inode s k)).
  { intros k. simpl. destruct (decide (k = ip)) as [->|Hk]; [exact Hi1|rewrite Hg by exact Hk; reflexivity]. }
  assert (Hs1 : same_inums (one_more R0 ip) (f_inode s) (f_inode s1)) by (intros k _ _; apply Hn1).
  cbn [resolve]. change (f_inode s1 ip) with (g ip). rewrite (ld_type _ _ _ _ Hld), Hi1.
  destruct (Z.eqb_spec (i_type (dinode dev v (f_sb s) (i_inum (f_inode s ip)))) T_DIR) as [Hty|Hty]; cbn [negb]; [|eapply walk_fails; eauto].
  replace (bool_decide (elems rest = [])) with (bool_decide (rest = [])) by (apply bool_decide_ext; exact Hlast).
  destruct (parent && bool_decide (rest = [])) eqn:Epar.
  { destruct (iunlock_step dev _ v s1 ip Ht1 Hip Hpos) as (g2 & E2 & Ht2 & Hn2 & _). apply andb_prop in Epar as [_ Erest]. apply bool_decide_eq_true in Erest.
    exists (ip, nm), (at_inodes g2 s1). rewrite (bind_ret_l _ _ _ _ _ E2). split; [reflexivity|].
    split; [eauto using moved_trans, moved_inodes|]. split; [exact B1|]. split; [intros k _ _; simpl; rewrite Hn2; apply Hn1|].
    split_and!; auto; try apply Hip; [simpl; rewrite Hn2; apply Hn1|]. intros _. exists e. subst rest. auto. }
  destruct (dirlookup_step _ v L r s1 ip nm Ht1 Hip Hpos Hv1 Him) as (nx & o & s2 & E2 & M2 & B2 & Hs2 & Hres); auto.
  { simpl. rewrite (ld_type _ _ _ _ Hld), Hi1. exact Hty. }
  rewrite (bind_ret_l _ _ _ _ _ E2). cbv beta iota. unfold nm in Hres. rewrite dir_get_take, Hn1 in Hres. change (f_sb s1) with (f_sb s) in Hres.
  assert (Hs12 : same_inums (one_more R0 ip) (f_inode s) (f_inode s2)) by (intros k Hk Hrk; rewrite Hs2, Hs1; auto).
  assert (M12 : moved s s2) by eauto using moved_trans.
  destruct (dir_get v _ e) as [j|] eqn:Ej.
  2: { destruct Hres as [-> Ht2]. rewrite Z.eqb_refl. apply (walk_fails (S wakeups) parent R0 v L r s s2 ip); auto. }
  destruct Hres as (Hnx & Hj & Ht2). replace (nx =? NULL) with false by (unfold NULL; lia).
  destruct (go_on (S wakeups) R0 v L r s s2 ip nx) as (s3 & E3 & M3 & B3 & Ht3 & Hs3 & Hi3); auto. rewrite (bind_ret_l _ _ _ _ _ E3).
  rewrite Hj in Hi3. destruct (IH rest nm nx s3) as (res & s4 & E4 & M4 & B4 & Harr); rewrite ?(moved_sb _ _ M3); auto; [|lia|].
  { rewrite Hi3. exact (im_entry _ _ _ Him _ _ _ Hl Hty Ej). }
  exists res, s4. split; [exact E4|]. split; [eauto using moved_trans|]. split; [exact B4|]. rewrite Hi3, (moved_sb _ _ M3) in Harr.
  eapply arrived_from; [exact Hs3| |exact Harr]. intros -> Hto. destruct (elems rest) as [|e' es]; [destruct Hto; reflexivity|]. reflexivity.
Qed.
End Walk.

Section Namex.
Context {T U : Type} `{TX : Txn T} `{TL : !TxnLaws T ROOTDEV} `{UM : UserMem U}.
Implicit Types s : fs T U.

(** The inode a path starts from. *)
Definition start_of (s : fs T U) (path : list Z) : Z :=
  if cchar path 0 =? slash then ROOTINO else i_inum (f_inode s (f_cwd s)).

Lemma namex_run wakeups path parent s v L r R : image_ok ROOTDEV v (f_sb s) -> table ROOTDEV NULL R v s -> roomy R ->
  (cchar path 0 <> slash -> 0 <= f_cwd s < NINODE /\ 0 < R (f_cwd s) /\ linked ROOTDEV v (f_sb s) (i_inum (f_inode s (f_cwd s)))) ->
  blocks ROOTDEV s [] v L r ->
  exists res s', namex (S wakeups) path parent s = Ret res s' /\ moved s s' /\ blocks ROOTDEV s' [] v L r /\
    arrived ROOTDEV parent R v s s' (resolve ROOTDEV v (f_sb s) parent (start_of s path) (elems path)) (elems path) res.
Proof using TL.
  intros Him Ht Hroom Hcwd B. unfold namex, start_of. destruct (Z.eqb_spec (cchar path 0) slash) as [Hs|Hs].
  - assert (Hinc : forall k, 0 <= k < NINODE -> R k + 1 < 2 ^ 31) by (intros k Hk; destruct (rm_range _ Hroom k Hk); lia).
    destruct (iget_step ROOTDEV NULL R v s ROOTINO Ht (proj1 (im_root _ _ _ Him))) as (ip & g & E & Hip & Hi & Ht1 & Hsame & _); auto.
    { destruct (rm_free _ Hroom) as (a & b & Ha & _ & _ & Ra & _). eauto. }
    rewrite (bind_ret_l _ _ _ _ _ E).
    destruct (namex_loop_ok ROOTDEV wakeups v L r parent R Hroom (S (length path)) path [] ip (at_inodes g s)) as (res & s' & E1 & M & B1 & Ha); auto.
    { simpl. rewrite Hi. apply (im_root _ _ _ Him). }
    exists res, s'. split; [exact E1|]. split; [eauto using moved_trans, moved_inodes|]. split; [exact B1|].
    change (f_inode (at_inodes g s) ip) with (g ip) in Ha. rewrite Hi in Ha. eapply arrived_from; [|intros _ _; reflexivity|exact Ha]. exact Hsame.
  - destruct (Hcwd Hs) as (Hc & Hr & Hl). rewrite (bind_bind _ _ _ _ _ _ (eq_refl : gets f_cwd s = Ret (f_cwd s) s)). destruct (rm_range _ Hroom _ Hc).
    destruct (idup_step ROOTDEV R v s (f_cwd s) Ht Hc Hr ltac:(lia)) as (g & E & Ht1 & Hn). rewrite (bind_ret_l _ _ _ _ _ E).
    destruct (namex_loop_ok ROOTDEV wakeups v L r parent R Hroom (S (length path)) path [] (f_cwd s) (at_inodes g s)) as (res & s' & E1 & M & B1 & Ha); auto.
    { simpl. rewrite Hn. exact Hl. }
    exists res, s'. split; [exact E1|]. split; [eauto using moved_trans, moved_inodes|]. split; [exact B1|].
    change (f_inode (at_inodes g s) (f_cwd s)) with (g (f_cwd s)) in Ha. rewrite Hn in Ha.
    eapply arrived_from; [|intros _ _; reflexivity|exact Ha]. intros k _ _. apply Hn.
Qed.

(** C10. Path names are looked up in the tree on the disk.  Whatever the path, [namex]
    ends, without a panic, with an entry of the table for the inode the walk
    from the root or the current directory leads to - for [nameiparent], the
    directory that has the last name, and that name - or with no entry if there
    is none.  The entry has one more reference and nothing else does; no lock is
    left, no other inode in use has lost its entry, and nothing is written. *)
Theorem namex_resolves wakeups path parent s v L r R : image_ok ROOTDEV v (f_sb s) -> table ROOTDEV NULL R v s -> roomy R ->
  (cchar path 0 <> slash -> 0 <= f_cwd s < NINODE /\ 0 < R (f_cwd s) /\ linked ROOTDEV v (f_sb s) (i_inum (f_inode s (f_cwd s)))) ->
  blocks ROOTDEV s [] v L r ->
  exists res s', namex (S wakeups) path parent s = Ret res s' /\ moved s s' /\ blocks ROOTDEV s' [] v L r /\
    arrived ROOTDEV parent R v s s' (resolve ROOTDEV v (f_sb s) parent (start_of s path) (elems path)) (elems path) res.
Proof using TL. apply namex_run. Qed.
End Namex.

(** ** A small tree *)

(** A file with one block. *)
Lemma one_block_file v sb i a : i_addrs i = a :: replicate 12 0 -> datastart sb <= a < sb_size sb -> a <> 0 -> used v sb a = true ->
  0 <= i_size i <= BSIZE -> file_ok v sb i /\ has_blocks v i.
Proof.
  intros Ea Hr H0 Hu Hs. assert (Hind : ind_of i = 0) by (unfold ind_of; rewrite Ea; reflexivity).
  assert (Haddr : forall bn, 0 <= bn -> addr_of v i bn = if bn =? 0 then a else 0).
  { intros bn Hbn. unfold addr_of. rewrite Hind, Ea. destruct (Z.eqb_spec bn 0) as [->|Hne]; [reflexivity|].
    destruct (bn <? NDIRECT); [|reflexivity]. replace (Z.to_nat bn) with (S (Z.to_nat (bn - 1))) by lia.
    cbn [nth]. rewrite nth_lookup. destruct (replicate 12 0 !! _) as [x|] eqn:Ex; [|reflexivity]. apply lookup_replicate in Ex as [-> _]. reflexivity. }
  split; split.
  - rewrite Ea. reflexivity.
  - intros b [Hb [->|(bn & Hbn & <-)]]; [congruence|]. rewrite Haddr in * by lia. destruct (bn =? 0); [auto|congruence].
  - intros b1 b2 H1 H2. rewrite !Haddr by lia. destruct (Z.eqb_spec b1 0), (Z.eqb_spec b2 0); congruence.
  - congruence.
  - unfold MAXFILE, NDIRECT, NINDIRECT, BSIZE in *. dlia.
  - intros o Ho. rewrite Haddr by (unfold BSIZE in *; dlia). replace (o / BSIZE =? 0) with true by (unfold BSIZE in *; dlia). exact H0.
Qed.

Lemma lookup_in_entry l k j : lookup_in l k = Some j -> exists de, de ∈ l /\ de_inum de = j /\ j <> 0.
Proof.
  induction l as [|de l IH]; cbn [lookup_in]; [discriminate|]. destruct (Z.eqb_spec (de_inum de) 0); [|destruct (bool_decide _)].
  - intros E. destruct (IH E) as (d & Hd & ?). exists d. split; [right; exact Hd|assumption].
  - intros E. injection E as <-. exists de. split; [left|auto].
  - intros E. destruct (IH E) as (d & Hd & ?). exists d. split; [right; exact Hd|assumption].
Qed.

Module ExampleTree.
Import Ideal IdealMem ExampleDisk.

Definition words (l : list Z) : list Z := l ≫= (fun w => [w mod 256; w / 256 mod 256]).
(** An inode on the disk with one block. *)
Definition disk_inode (type nlink size a : Z) : list Z := words ([type; 0; 0; nlink; size; 0; a; 0] ++ replicate 24 0).
(** The root directory has the directory "bin", which has the file "sh". *)
Definition tree_blocks (b : Z) : list Z :=
  if b =? 33 then replicate 64 0 ++ disk_inode T_DIR 1 32 36 ++ disk_inode T_FILE 1 1000 37 ++ disk_inode T_DIR 1 16 38
  else if b =? 36 then mk_dirent 1 [46] ++ mk_dirent 3 [98; 105; 110]
  else if b =? 38 then mk_dirent 2 [115; 104]
  else [].
Definition tree_view (b : Z) : block := fun x => if b =? 35 then ex_view 35 x else if x <? 0 then 0 else nth (Z.to_nat x) (tree_blocks b) 0.
Definition tree_log : logst bst :=
  Logst (Bst tree_view tree_view (fun _ => 0) (fun _ => false) 0 []) 2 1 false 1 0 (replicate 30 0) false.
(** The table is empty but for the current directory, which is the root. *)
Definition tree_table (k : Z) : inode := if k =? 4 then Inode 1 1 1 initsleeplock false 0 0 0 0 0 [] else Inode 0 0 0 initsleeplock false 0 0 0 0 0 [].
Definition tree_fs : fs (logst bst) imem := FS tree_log ex_sb false tree_table 4 7 ex_mem [].
Definition tree_refs (k : Z) : Z := if k =? 4 then 1 else 0.

Lemma tree_live i : live 1 tree_view ex_sb i -> i = 1 \/ i = 2 \/ i = 3.
Proof.
  intros [Hi Ht].
  pose proof (forallb_seqZ (fun i => (i_type (dinode 1 tree_view ex_sb i) =? 0) || (i =? 1) || (i =? 2) || (i =? 3)) 16 i eq_refl Hi) as Hb.
  cbv beta in Hb. lia.
Qed.

Lemma tree_linked i : i = 1 \/ i = 2 \/ i = 3 -> linked 1 tree_view ex_sb i.
Proof. intros Hi. destruct Hi as [->|[->| ->]]; (split; [split; [split; closed|discriminate]|closed]). Qed.

Lemma tree_image : image_ok 1 tree_view ex_sb.
Proof.
  split.
  - intros i [->|[->| ->]]%tree_live; [apply (one_block_file _ _ _ 36)|apply (one_block_file _ _ _ 37)|apply (one_block_file _ _ _ 38)]; try reflexivity; closed.
  - intros i [->|[->| ->]]%tree_live Ht; reflexivity || discriminate.
  - intros i name j [Hi _] Ht Hg. apply tree_linked. rewrite dir_get_entries in Hg. apply lookup_in_entry in Hg as (de & Hde & <- & _).
    assert (Hb : forallb (fun de => (de_inum de =? 1) || (de_inum de =? 2) || (de_inum de =? 3)) (entries tree_view (dinode 1 tree_view ex_sb i)) = true)
      by (destruct (tree_live i Hi) as [->|[->| ->]]; [reflexivity|discriminate|reflexivity]).
    rewrite forallb_forall in Hb. specialize (Hb de (proj1 (list_elem_of_In _ _) Hde)). lia.
  - apply tree_linked. auto.
Qed.

Lemma tree_table_ok : table (T := logst bst) (U := imem) 1 NULL tree_refs tree_view tree_fs.
Proof.
  split; [reflexivity|..].
  - intros k Hk. simpl. unfold tree_table, tree_refs. destruct (k =? 4); simpl; lia.
  - intros j k Hj Hk. unfold tree_refs. destruct (Z.eqb_spec j 4), (Z.eqb_spec k 4); lia.
  - intros k Hk. unfold tree_refs. destruct (Z.eqb_spec k 4) as [->|]; [|lia]. intros _. split; [reflexivity|]. split; [apply (tree_linked 1); auto|discriminate].
  - intros k Hk. replace (k =? NULL) with false by (unfold NULL; lia). simpl. unfold tree_table. destruct (k =? 4); split; reflexivity.
Qed.

Lemma tree_roomy : roomy tree_refs.
Proof. split; [intros k _; unfold tree_refs; destruct (k =? 4); lia|]. exists 0, 1. split_and!; closed || lia. Qed.

Lemma tree_started : blocks (T := logst bst) (U := imem) 1 tree_fs [] tree_view [] 26.
Proof.
  split.
  - split; try reflexivity; try (vm_compute; congruence); try (split; vm_compute; congruence).
    + intros b Hb. apply elem_of_nil in Hb. contradiction.
    + apply NoDup_nil. exact I.
    + apply NoDup_nil. exact I.
    + intros h b Hin. apply elem_of_nil in Hin. contradiction.
  - intros b Hb. right. simpl in Hb. unfold LOGBLOCKS, MAXOPBLOCKS. lia.
Qed.

(** [bin//sh] from the root is inode 2. *)
Lemma namex_resolves_witness : exists res s', namex 1 [98; 105; 110; 47; 47; 115; 104] false tree_fs = Ret res s' /\
  0 <= res.1 < NINODE /\ i_inum (f_inode s' res.1) = 2.
Proof.
  destruct (namex_resolves (T := logst bst) (U := imem) 0 [98; 105; 110; 47; 47; 115; 104] false tree_fs tree_view [] 26 tree_refs
    tree_image tree_table_ok tree_roomy) with (2 := tree_started) as (res & s' & E & _ & _ & Ha).
  { intros _. split; [split; closed|]. split; [reflexivity|]. apply (tree_linked 1). auto. }
  exists res, s'. split; [exact E|].
  assert (Ew : resolve ROOTDEV tree_view (f_sb tree_fs) false (start_of tree_fs [98; 105; 110; 47; 47; 115; 104]) (elems [98; 105; 110; 47; 47; 115; 104]) = Some 2)
    by (vm_compute; reflexivity).
  rewrite Ew in Ha. destruct Ha as (_ & H1 & H2 & _). split; [exact H1|exact H2].
Defined.
End ExampleTree.
