(* ===== verification/Mkfs.v ===== *)
(** * The builder of the file system image

    [mkfs/mkfs.c], which runs on the host and writes the disk image the kernel
    boots from.  The image is a sequence of sectors; the host's files are
    parameters: whether the image can be created, and for each name the pieces
    in which [read] delivers the file, if it can be opened.  [die] and a failed
    [assert] end the program.  The progress messages are not modelled. *)

From S2P Require Import Prelude Block UserMem Fs.

(** ** The program *)

Definition FSSIZE : Z := 2000.
Definition NINODES : Z := 200.
Definition nbitmap : Z := FSSIZE / BPB + 1.
Definition ninodeblocks : Z := NINODES / IPB + 1.
Definition nlog : Z := LOGBLOCKS + 1.
Definition nmeta : Z := 2 + nlog + ninodeblocks + nbitmap.
Definition nblocks : Z := FSSIZE - nmeta.

(** The byte order of the disk, on a little-endian host. *)
Definition xshort (x : Z) : Z :=
  let y := store (fun _ => 0) 0 (u8 x) in
  let y := store y 1 (u8 (Z.shiftr x 8)) in
  load y 0 2.
Definition xint (x : Z) : Z :=
  let y := store (fun _ => 0) 0 (u8 x) in
  let y := store y 1 (u8 (Z.shiftr x 8)) in
  let y := store y 2 (u8 (Z.shiftr x 16)) in
  let y := store y 3 (u8 (Z.shiftr x 24)) in
  load y 0 4.

Record mk : Type := Mk {
  m_disk : Z -> block;     (* the sectors of the image *)
  m_len : Z;               (* how many sectors the image file has *)
  m_sb : superblock;
  m_freeinode : Z;
  m_freeblock : Z
}.

Definition set_disk (d : Z -> block) (n : Z) (s : mk) : mk := Mk d n (m_sb s) (m_freeinode s) (m_freeblock s).
Definition set_sb (sb : superblock) (s : mk) : mk := Mk (m_disk s) (m_len s) sb (m_freeinode s) (m_freeblock s).
Definition set_freeinode (i : Z) (s : mk) : mk := Mk (m_disk s) (m_len s) (m_sb s) i (m_freeblock s).
Definition set_freeblock (b : Z) (s : mk) : mk := Mk (m_disk s) (m_len s) (m_sb s) (m_freeinode s) b.

(** The sector at byte offset [sec * BSIZE], a 32-bit product. *)
Definition sector (sec : Z) : Z := u32 (sec * BSIZE) / BSIZE.

Definition wsect (sec : Z) (buf : block) : M mk unit :=
  modify (fun s => set_disk (upd (m_disk s) (sector sec) buf) (Z.max (m_len s) (sector sec + 1)) s).

Definition rsect (sec : Z) : M mk block :=
  let! n := gets m_len in
  if sector sec <? n then gets (fun s => m_disk s (sector sec)) else panic "read".

(** [struct dinode]. *)
Record dino : Type := Dino {
  di_type : Z;
  di_major : Z;
  di_minor : Z;
  di_nlink : Z;
  di_size : Z;
  di_addrs : list Z
}.

Definition get_dino (d : block) (o : Z) : dino := Dino (d_type d o) (d_major d o) (d_minor d o) (d_nlink d o) (d_size d o) (d_addrs d o).
Definition put_dino (d : block) (o : Z) (i : dino) : block :=
  put_dinode d o (di_type i) (di_major i) (di_minor i) (di_nlink i) (di_size i) (di_addrs i).
Definition di_set_size (n : Z) (i : dino) : dino := Dino (di_type i) (di_major i) (di_minor i) (di_nlink i) n (di_addrs i).
Definition di_set_addr (k a : Z) (i : dino) : dino :=
  Dino (di_type i) (di_major i) (di_minor i) (di_nlink i) (di_size i) (<[Z.to_nat k := a]> (di_addrs i)).
Definition di_addr (i : dino) (k : Z) : Z := nth (Z.to_nat k) (di_addrs i) 0.

Definition winode (inum : Z) (ip : dino) : M mk unit :=
  let! sb := gets m_sb in
  let bn := IBLOCK inum sb in
  let! buf := rsect bn in
  wsect bn (put_dino buf (dinode_off inum) ip).

Definition rinode (inum : Z) : M mk dino :=
  let! sb := gets m_sb in
  let bn := IBLOCK inum sb in
  let! buf := rsect bn in
  ret (get_dino buf (dinode_off inum)).

Definition ialloc (type : Z) : M mk Z :=
  let! inum := gets m_freeinode in
  modify (set_freeinode (u32 (inum + 1))) ;;
  winode inum (Dino (xshort type) 0 0 (xshort 1) (xint 0) (replicate (Z.to_nat (NDIRECT + 1)) 0)) ;;
  ret inum.

Fixpoint mark (n : nat) (i : Z) (buf : block) : block :=
  match n with
  | O => buf
  | S n => mark n (i + 1) (store buf (i / 8) (u8 (Z.lor (buf (i / 8)) (Z.shiftl 1 (i mod 8)))))
  end.

Definition balloc (used : Z) : M mk unit :=
  if negb (used <? BPB) then panic "used < BPB" else
  let! sb := gets m_sb in
  wsect (sb_bmapstart sb) (mark (Z.to_nat used) 0 (fun _ => 0)).

(** [freeblock++]. *)
Definition next_block : M mk Z :=
  let! b := gets m_freeblock in
  modify (set_freeblock (u32 (b + 1))) ;;
  ret b.

(** The inode with block [k] of its array allocated. *)
Definition address (din : dino) (k : Z) : M mk dino :=
  if xint (di_addr din k) =? 0 then
    let! b := next_block in ret (di_set_addr k (xint b) din)
  else ret din.

(** The entry of the indirect block for block [fbn], allocated. *)
Definition indirect_entry (din : dino) (fbn : Z) : M mk Z :=
  let! indirect := rsect (xint (di_addr din NDIRECT)) in
  let j := 4 * (fbn - NDIRECT) in
  if load indirect j 4 =? 0 then
    let! b := next_block in
    let indirect := store_le indirect j 4 (xint b) in
    wsect (xint (di_addr din NDIRECT)) indirect ;;
    ret (xint (load indirect j 4))
  else ret (xint (load indirect j 4)).

(** The sector that has block [fbn] of the file, and the inode. *)
Definition file_block (din : dino) (fbn : Z) : M mk (Z * dino) :=
  if fbn <? NDIRECT then
    let! din := address din fbn in
    ret (xint (di_addr din fbn), din)
  else
    let! din := address din NDIRECT in
    let! x := indirect_entry din fbn in
    ret (x, din).

(** [p] is what remains to be appended; every round takes a byte or more. *)
Fixpoint iappend_loop (fuel : nat) (p : list Z) (off : Z) (din : dino) : M mk (Z * dino) :=
  match fuel with
  | O => nofuel
  | S fuel =>
      match p with
      | [] => ret (off, din)
      | _ =>
          let fbn := off / BSIZE in
          if negb (fbn <? MAXFILE) then panic "fbn < MAXFILE" else
          let! (x, din) := file_block din fbn in
          let n1 := Z.min (Z.of_nat (length p)) ((fbn + 1) * BSIZE - off) in
          let! buf := rsect x in
          wsect x (splice buf (off - fbn * BSIZE) (take (Z.to_nat n1) p)) ;;
          iappend_loop fuel (drop (Z.to_nat n1) p) (u32 (off + n1)) din
      end
  end.

Definition iappend (inum : Z) (p : list Z) : M mk unit :=
  let! din := rinode inum in
  let off := xint (di_size din) in
  let! (off, din) := iappend_loop (S (length p)) p off din in
  winode inum (di_set_size (xint off) din).

(** [while((cc = read(fd, buf, sizeof(buf))) > 0) iappend(inum, buf, cc)] *)
Fixpoint append_pieces (inum : Z) (pieces : list (list Z)) : M mk unit :=
  match pieces with
  | [] => ret tt
  | [] :: _ => ret tt
  | p :: pieces => iappend inum p ;; append_pieces inum pieces
  end.

Fixpoint wipe (n : nat) (i : Z) : M mk unit :=
  match n with
  | O => ret tt
  | S n => wsect i (fun _ => 0) ;; wipe n (i + 1)
  end.

Section Mkfs.
Context (creates : list Z -> bool) (host : list Z -> option (list (list Z))).

(** "user/" *)
Definition USER : list Z := [117; 115; 101; 114; 47].
Definition short (arg : list Z) : list Z := if strncmp_from 5 arg USER 0 =? 0 then drop 5 arg else arg.
Definition unscore (name : list Z) : list Z := if cchar name 0 =? 95 then drop 1 name else name.

Definition add_file (rootino : Z) (arg : list Z) : M mk unit :=
  let shortname := short arg in
  if bool_decide (47 ∈ shortname) then panic "index(shortname, '/') == 0" else
  match host arg with
  | None => panic "open"
  | Some pieces =>
      let shortname := unscore shortname in
      if negb (Z.of_nat (length shortname) <=? DIRSIZ) then panic "strlen(shortname) <= DIRSIZ" else
      let! inum := ialloc T_FILE in
      iappend rootino (mk_dirent (xshort inum) shortname) ;;
      append_pieces inum pieces
  end.

Fixpoint add_files (rootino : Z) (args : list (list Z)) : M mk unit :=
  match args with
  | [] => ret tt
  | arg :: args => add_file rootino arg ;; add_files rootino args
  end.

Definition layout : superblock :=
  Sb FSMAGIC (xint FSSIZE) (xint nblocks) (xint NINODES) (xint nlog) (xint 2) (xint (2 + nlog)) (xint (2 + nlog + ninodeblocks)).

Definition sb_words (sb : superblock) : list Z :=
  [sb_magic sb; sb_size sb; sb_nblocks sb; sb_ninodes sb; sb_nlog sb; sb_logstart sb; sb_inodestart sb; sb_bmapstart sb].

Definition main (argv : list (list Z)) : M mk unit :=
  match argv with
  | [] => panic "Usage: mkfs fs.img files..."
  | img :: args =>
      if negb (creates img) then panic "open" else
      modify (set_sb layout) ;;
      modify (set_freeblock nmeta) ;;
      wipe (Z.to_nat FSSIZE) 0 ;;
      wsect 1 (put_words (fun _ => 0) 0 (sb_words layout)) ;;
      let! rootino := ialloc T_DIR in
      if negb (rootino =? ROOTINO) then panic "rootino == ROOTINO" else
      iappend rootino (mk_dirent (xshort rootino) [46]) ;;
      iappend rootino (mk_dirent (xshort rootino) [46; 46]) ;;
      add_files rootino args ;;
      let! din := rinode rootino in
      let off := xint (di_size din) in
      let off := u32 ((off / BSIZE + 1) * BSIZE) in
      winode rootino (di_set_size (xint off) din) ;;
      let! b := gets m_freeblock in
      balloc b
  end.

End Mkfs.

(** The program starts with an empty image file. *)
Definition start : mk := Mk (fun _ _ => 0) 0 (Sb 0 0 0 0 0 0 0 0) 1 0.
