(* ===== verification/MkfsSpec.v ===== *)
(** * The image is a file system

    [mkfs_correct]: the image [mkfs] builds is one the kernel accepts.  It
    satisfies the invariants under which the theorems on the kernel's inodes,
    directories and paths hold, and every file that was given is in the root
    directory under its name with its contents. *)

From S2P Require Import Prelude Sleeplock Block Log Txn UserMem Fs FsBlocks FsInode FsData FsDir FsPath Mkfs.

(** ** Words and sectors *)

Lemma xint_id x : 0 <= x < 2 ^ 32 -> xint x = x.
Proof.
  intros Hx. change (xint x) with (u8 x + 256 * (u8 (Z.shiftr x 8) + 256 * (u8 (Z.shiftr x 16) + 256 * (u8 (Z.shiftr x 24) + 256 * 0)))).
  rewrite !Z.shiftr_div_pow2 by lia. unfold u8. dlia.
Qed.

Lemma xshort_id x : 0 <= x < 2 ^ 16 -> xshort x = x.
Proof.
  intros Hx. change (xshort x) with (u8 x + 256 * (u8 (Z.shiftr x 8) + 256 * 0)). rewrite Z.shiftr_div_pow2 by lia. unfold u8. dlia.
Qed.

Lemma sector_id sec : 0 <= sec < FSSIZE -> sector sec = sec.
Proof. intros Hs. unfold sector, FSSIZE, BSIZE in *. rewrite u32_small by lia. dlia. Qed.

Definition at_disk (v : Z -> block) (s : mk) : mk := set_disk v (m_len s) s.

Lemma wsect_run sec buf s : m_len s = FSSIZE -> 0 <= sec < FSSIZE -> wsect sec buf s = Ret tt (at_disk (upd (m_disk s) sec buf) s).
Proof.
  intros Hl Hs. unfold wsect, modify, at_disk. rewrite sector_id by exact Hs. do 2 f_equal. lia.
Qed.

Lemma rsect_run sec s : m_len s = FSSIZE -> 0 <= sec < FSSIZE -> rsect sec s = Ret (m_disk s sec) s.
Proof.
  intros Hl Hs. unfold rsect. rewrite bind_gets, Hl, sector_id by exact Hs. replace (sec <? FSSIZE) with true by lia. reflexivity.
Qed.

(** ** One file

    The blocks a file has are its first [K] blocks and, with [I], its indirect
    block.  Each block of the image has a label, the file it belongs to and its
    place there, so no block is in two places. *)

Definition inode_of (A : list Z) : inode := Inode 0 0 0 initsleeplock true 0 0 0 0 0 A.
Definition blk (v : Z -> block) (A : list Z) (bn : Z) : Z := addr_of v (inode_of A) bn.
Definition ind (A : list Z) : Z := nth (Z.to_nat NDIRECT) A 0.

Record file_in (lab : Z -> Z * Z) (v : Z -> block) (free inum : Z) (A : list Z) (K : Z) (I : bool) (bs : list Z) : Prop := {
  fi_len : length A = Z.to_nat (NDIRECT + 1);
  fi_max : 0 <= K <= MAXFILE;
  fi_fit : Z.of_nat (length bs) <= K * BSIZE;
  fi_blk : forall bn, 0 <= bn < MAXFILE -> blk v A bn <> 0 <-> bn < K;
  fi_ind : ind A <> 0 <-> I = true;
  fi_lab : forall bn, 0 <= bn < K -> nmeta <= blk v A bn < free /\ lab (blk v A bn) = (inum, bn);
  fi_labi : I = true -> nmeta <= ind A < free /\ lab (ind A) = (inum, -1);
  fi_byte : forall o, 0 <= o < K * BSIZE -> v (blk v A (o / BSIZE)) (o mod BSIZE) = nth (Z.to_nat o) bs 0
}.

(** What appending to file [inum] does to the other blocks. *)
Record enlarges (inum : Z) (lab : Z -> Z * Z) (v : Z -> block) (free : Z) (lab' : Z -> Z * Z) (v' : Z -> block) (free' : Z) : Prop := {
  ex_free : free <= free';
  ex_lab : forall b, b < free -> lab' b = lab b;
  ex_old : forall b, b < free -> b < nmeta \/ fst (lab b) <> inum -> v' b = v b;
  ex_new : forall b, free' <= b -> v' b = v b
}.

Lemma enlarges_refl inum lab v free : enlarges inum lab v free lab v free.
Proof. split; auto; lia. Qed.

Lemma enlarges_trans inum lab v free lab1 v1 free1 lab2 v2 free2 :
  enlarges inum lab v free lab1 v1 free1 -> enlarges inum lab1 v1 free1 lab2 v2 free2 -> enlarges inum lab v free lab2 v2 free2.
Proof.
  intros [F1 L1 O1 N1] [F2 L2 O2 N2]. split; [lia|..].
  - intros b Hb. rewrite L2, L1 by lia. reflexivity.
  - intros b Hb Hi. rewrite O2; [auto|lia|]. rewrite L1 by lia. exact Hi.
  - intros b Hb. rewrite N2, N1 by lia. reflexivity.
Qed.

Ltac consts := change nmeta with 47 in *; change FSSIZE with 2000 in *; change MAXFILE with 268 in *; change NDIRECT with 12 in *; change BSIZE with 1024 in *; change NINODES with 200 in *.

Lemma blk_direct v A bn : bn < NDIRECT -> blk v A bn = nth (Z.to_nat bn) A 0.
Proof. intros H. unfold blk, addr_of. replace (bn <? NDIRECT) with true by lia. reflexivity. Qed.

Lemma blk_indirect v A bn : NDIRECT <= bn -> blk v A bn = if ind A =? 0 then 0 else load (v (ind A)) (4 * (bn - NDIRECT)) 4.
Proof. intros H. unfold blk, addr_of. replace (bn <? NDIRECT) with false by lia. reflexivity. Qed.

Lemma blk_ext v v' A bn : (ind A <> 0 -> v' (ind A) = v (ind A)) -> blk v' A bn = blk v A bn.
Proof. intros H. apply addr_of_ext. exact H. Qed.

(** A file is as before when its blocks are. *)
Lemma file_in_ext lab v free inum A K I bs lab' v' free' : file_in lab v free inum A K I bs -> free <= free' ->
  (forall b, nmeta <= b < free -> fst (lab b) = inum -> v' b = v b /\ lab' b = lab b) -> file_in lab' v' free' inum A K I bs.
Proof.
  intros [H1 H2 H3 H4 H5 H6 H7 H8] Hf Hv.
  assert (Hi : ind A <> 0 -> v' (ind A) = v (ind A)).
  { intros Hi. apply H5 in Hi. destruct (H7 Hi) as [Hr Hl]. apply Hv; [exact Hr|]. rewrite Hl. reflexivity. }
  assert (Hb : forall bn, 0 <= bn < K -> v' (blk v A bn) = v (blk v A bn) /\ lab' (blk v A bn) = lab (blk v A bn)).
  { intros bn Hbn. destruct (H6 bn Hbn) as [Hr Hl]. apply Hv; [exact Hr|]. rewrite Hl. reflexivity. }
  split; auto.
  - intros bn Hbn. rewrite (blk_ext v v') by exact Hi. auto.
  - intros bn Hbn. rewrite (blk_ext v v') by exact Hi. destruct (H6 bn Hbn) as [Hr Hl]. destruct (Hb bn Hbn) as [_ ->]. split; [lia|exact Hl].
  - intros Ht. destruct (H7 Ht) as [Hr Hl]. destruct (Hv (ind A) Hr) as [_ ->]; [rewrite Hl; reflexivity|]. split; [lia|exact Hl].
  - intros o Ho. rewrite (blk_ext v v') by exact Hi. destruct (Hb (o / BSIZE)) as [-> _]; [consts; dlia|]. auto.
Qed.

Lemma file_in_other lab v free inum A K I bs j lab' v' free' :
  file_in lab v free inum A K I bs -> enlarges j lab v free lab' v' free' -> inum <> j -> file_in lab' v' free' inum A K I bs.
Proof.
  intros F [E1 E2 E3 E4] Hj. apply (file_in_ext lab v free); auto. intros b Hb Hl. split; [|apply E2; lia]. apply E3; [lia|]. right. congruence.
Qed.

(** A block in one place is not in another. *)
Lemma blk_apart lab v free inum A K I bs b1 b2 : file_in lab v free inum A K I bs -> 0 <= b1 < K -> 0 <= b2 < K ->
  blk v A b1 = blk v A b2 -> b1 = b2.
Proof. intros F H1 H2 E. destruct (fi_lab _ _ _ _ _ _ _ _ F b1 H1) as [_ E1], (fi_lab _ _ _ _ _ _ _ _ F b2 H2) as [_ E2]. congruence. Qed.

Lemma blk_not_ind lab v free inum A K I bs bn : file_in lab v free inum A K I bs -> 0 <= bn < K -> I = true -> blk v A bn <> ind A.
Proof.
  intros F Hb HI E. destruct (fi_lab _ _ _ _ _ _ _ _ F bn Hb) as [_ E1], (fi_labi _ _ _ _ _ _ _ _ F HI) as [_ E2]. rewrite E, E2 in E1. injection E1. lia.
Qed.

(** One more block, all zero, at the end of a file whose other blocks are where they were. *)
Lemma file_in_more lab v free inum A K I bs v' A' : file_in lab v free inum A K I bs -> K < MAXFILE -> nmeta <= free ->
  (forall x, v free x = 0) -> length A' = length A -> ind A' = ind A ->
  (forall bn, 0 <= bn < MAXFILE -> blk v' A' bn = if bn =? K then free else blk v A bn) ->
  (forall b, (I = true -> b <> ind A) -> v' b = v b) -> file_in (upd lab free (inum, K)) v' (free + 1) inum A' (K + 1) I bs.
Proof.
  intros F HK Hf Hz Hl Hi Hb Hv. assert (0 < nmeta) by (consts; dlia). destruct F as [H1 H2 H3 H4 H5 H6 H7 H8] eqn:EF.
  assert (Hnz : forall bn, 0 <= bn < K -> v' (blk v A bn) = v (blk v A bn)).
  { intros bn Hbn. apply Hv. intros HI. apply (blk_not_ind _ _ _ _ _ _ _ _ _ F Hbn HI). }
  split; [congruence|lia|consts; lia|..].
  - intros bn Hbn. rewrite Hb by lia. destruct (Z.eqb_spec bn K) as [->|Hne]; [lia|]. rewrite H4 by lia. lia.
  - rewrite Hi. exact H5.
  - intros bn Hbn. rewrite Hb by lia. destruct (Z.eqb_spec bn K) as [->|Hne]; [rewrite upd_eq; split; [lia|reflexivity]|].
    destruct (H6 bn ltac:(lia)) as [Hr Hlb]. rewrite upd_ne by lia. split; [lia|exact Hlb].
  - intros HI. rewrite Hi. destruct (H7 HI) as [Hr Hlb]. rewrite upd_ne by lia. split; [lia|exact Hlb].
  - intros o Ho. assert (Hq : 0 <= o / BSIZE < K + 1) by (consts; dlia). rewrite Hb by lia. destruct (Z.eqb_spec (o / BSIZE) K) as [E|Hne].
    + rewrite nth_overflow by (consts; dlia). rewrite Hv; [apply Hz|]. intros HI. pose proof (H7 HI). lia.
    + rewrite Hnz by lia. apply H8. consts. dlia.
Qed.

Lemma direct_alloc lab v free inum A K I bs : file_in lab v free inum A K I bs -> K < NDIRECT -> nmeta <= free -> (forall x, v free x = 0) ->
  file_in (upd lab free (inum, K)) v (free + 1) inum (<[Z.to_nat K := free]> A) (K + 1) I bs.
Proof.
  intros F HK Hf Hz. pose proof (fi_len _ _ _ _ _ _ _ _ F) as Hl. pose proof (fi_max _ _ _ _ _ _ _ _ F) as Hm.
  assert (Hi : ind (<[Z.to_nat K := free]> A) = ind A).
  { unfold ind. rewrite !nth_lookup, list_lookup_insert_ne by (consts; lia). reflexivity. }
  apply (file_in_more lab v free inum A K I bs); auto; [consts; dlia|apply length_insert|].
  intros bn Hbn. destruct (Z.ltb_spec bn NDIRECT) as [Hd|Hd].
  - rewrite !blk_direct, !nth_lookup by lia. destruct (Z.eqb_spec bn K) as [->|Hne].
    + rewrite list_lookup_insert_eq by (rewrite Hl; consts; lia). reflexivity.
    + rewrite list_lookup_insert_ne by lia. reflexivity.
  - rewrite !blk_indirect, Hi by lia. replace (bn =? K) with false by lia. reflexivity.
Qed.

Lemma entry_alloc lab v free inum A K bs : file_in lab v free inum A K true bs -> NDIRECT <= K < MAXFILE -> nmeta <= free < FSSIZE -> (forall x, v free x = 0) ->
  file_in (upd lab free (inum, K)) (upd v (ind A) (store_le (v (ind A)) (4 * (K - NDIRECT)) 4 free)) (free + 1) inum A (K + 1) true bs.
Proof.
  intros F HK Hf Hz. pose proof (proj2 (fi_ind _ _ _ _ _ _ _ _ F) eq_refl) as Hi.
  apply (file_in_more lab v free inum A K true bs); auto; [lia|lia| |intros b Hb; apply upd_ne; auto].
  intros bn Hbn. destruct (Z.ltb_spec bn NDIRECT) as [Hd|Hd].
  - rewrite !blk_direct by lia. replace (bn =? K) with false by lia. reflexivity.
  - rewrite !blk_indirect, upd_eq by lia. replace (ind A =? 0) with false by lia. destruct (Z.eqb_spec bn K) as [->|Hne].
    + rewrite load_store_le_eq by (consts; lia). apply Z.mod_small. consts. lia.
    + apply load_store_le_ne. lia.
Qed.

Lemma ind_alloc lab v free inum A bs : file_in lab v free inum A NDIRECT false bs -> nmeta <= free -> (forall x, v free x = 0) ->
  file_in (upd lab free (inum, -1)) v (free + 1) inum (<[Z.to_nat NDIRECT := free]> A) NDIRECT true bs.
Proof.
  intros F Hf Hz. assert (0 < nmeta) by (consts; dlia). destruct F as [H1 H2 H3 H4 H5 H6 H7 H8].
  assert (Hi : ind (<[Z.to_nat NDIRECT := free]> A) = free).
  { unfold ind. rewrite nth_lookup, list_lookup_insert_eq by (rewrite H1; consts; lia). reflexivity. }
  assert (Hb : forall bn, 0 <= bn < MAXFILE -> blk v (<[Z.to_nat NDIRECT := free]> A) bn = blk v A bn).
  { intros bn Hbn. destruct (Z.ltb_spec bn NDIRECT) as [Hd|Hd].
    - rewrite !blk_direct, !nth_lookup, list_lookup_insert_ne by (consts; lia). reflexivity.
    - rewrite !blk_indirect, Hi by lia. assert (E : ind A = 0) by (destruct (decide (ind A = 0)) as [|Hn]; [assumption|apply H5 in Hn; discriminate]).
      rewrite E. replace (free =? 0) with false by lia. apply load_zero. intros; apply Hz. }
  assert (HM : NDIRECT < MAXFILE) by (consts; dlia).
  split; [rewrite length_insert; exact H1|exact H2|exact H3|..].
  - intros bn Hbn. rewrite Hb by exact Hbn. auto.
  - rewrite Hi. split; [reflexivity|lia].
  - intros bn Hbn. rewrite Hb by lia. destruct (H6 bn Hbn) as [Hr Hl]. rewrite upd_ne by lia. split; [lia|exact Hl].
  - intros _. rewrite Hi, upd_eq. split; [lia|reflexivity].
  - intros o Ho. rewrite Hb by (consts; dlia). auto.
Qed.

(** ** Appending *)

Definition to (v : Z -> block) (free : Z) (s : mk) : mk := Mk v (m_len s) (m_sb s) (m_freeinode s) free.
Definition di_with (A : list Z) (d : dino) : dino := Dino (di_type d) (di_major d) (di_minor d) (di_nlink d) (di_size d) A.

(** The blocks a file of [K] blocks takes, its indirect block included. *)
Definition takes (K : Z) : Z := K + Z.b2z (NDIRECT <? K).

Record blank (s : mk) : Prop := {
  bl_len : m_len s = FSSIZE;
  bl_low : nmeta <= m_freeblock s;
  bl_zero : forall b x, m_freeblock s <= b < FSSIZE -> m_disk s b x = 0
}.

Lemma blank_enlarges inum lab lab' v' free' s :
  blank s -> enlarges inum lab (m_disk s) (m_freeblock s) lab' v' free' -> blank (to v' free' s).
Proof. intros [H1 H2 H3] [E1 E2 E3 E4]. split; [exact H1|simpl; lia|]. intros b x Hb. simpl in *. rewrite E4 by lia. apply H3. lia. Qed.

Lemma next_block_run s : m_freeblock s < FSSIZE -> 0 <= m_freeblock s -> next_block s = Ret (m_freeblock s) (to (m_disk s) (m_freeblock s + 1) s).
Proof. intros H H0. unfold next_block. rewrite bind_gets, bind_modify, u32_small by (consts; lia). reflexivity. Qed.

Lemma enlarges_label inum lab v free x : enlarges inum lab v free (upd lab free x) v (free + 1).
Proof. split; auto; [lia|]. intros b Hb. apply upd_ne. lia. Qed.

Lemma enlarges_write inum lab v free b d : nmeta <= b < free -> fst (lab b) = inum -> enlarges inum lab v free lab (upd v b d) free.
Proof.
  intros Hb Hl. split; auto; [lia| |].
  - intros c Hc Ho. apply upd_ne. intros ->. destruct Ho; [lia|contradiction].
  - intros c Hc. apply upd_ne. lia.
Qed.

Lemma address_old s din k : 0 < di_addr din k < FSSIZE -> address din k s = Ret din s.
Proof. intros H. unfold address. rewrite xint_id by (consts; lia). replace (_ =? 0) with false by lia. reflexivity. Qed.

Lemma address_new s din k : di_addr din k = 0 -> nmeta <= m_freeblock s < FSSIZE ->
  address din k s = Ret (di_set_addr k (m_freeblock s) din) (to (m_disk s) (m_freeblock s + 1) s).
Proof.
  intros E H. unfold address. rewrite E. change (xint 0 =? 0) with true. cbv iota. erewrite bind_ret_l by (apply next_block_run; consts; lia).
  rewrite xint_id by (consts; lia). reflexivity.
Qed.

Lemma di_with_id din : di_with (di_addrs din) din = din.
Proof. destruct din; reflexivity. Qed.
Lemma to_id s : to (m_disk s) (m_freeblock s) s = s.
Proof. destruct s; reflexivity. Qed.

Lemma blk_none lab v free inum A K I bs : file_in lab v free inum A K I bs -> K < MAXFILE -> blk v A K = 0.
Proof.
  intros F HK. pose proof (fi_max _ _ _ _ _ _ _ _ F). destruct (decide (blk v A K = 0)) as [E|E]; [exact E|]. apply (fi_blk _ _ _ _ _ _ _ _ F) in E; lia.
Qed.

Lemma file_block_direct lab s inum din K I bs fbn : let v := m_disk s in let free := m_freeblock s in
  file_in lab v free inum (di_addrs din) K I bs -> 0 <= fbn <= K -> fbn < NDIRECT -> blank s ->
  forall K', K' = Z.max K (fbn + 1) -> free + (K' - K) <= FSSIZE ->
  exists lab' A', file_block din fbn s = Ret (blk v A' fbn, di_with A' din) (to v (free + (K' - K)) s) /\
    file_in lab' v (free + (K' - K)) inum A' K' I bs /\ enlarges inum lab v free lab' v (free + (K' - K)).
Proof.
  intros v free F Hf Hd [B1 B2 B3] K' HK' Hc. unfold file_block. replace (fbn <? NDIRECT) with true by lia.
  assert (Ea : di_addr din fbn = blk v (di_addrs din) fbn) by (rewrite blk_direct by exact Hd; reflexivity).
  destruct (Z.ltb_spec fbn K) as [HK|HK].
  - destruct (fi_lab _ _ _ _ _ _ _ _ F fbn ltac:(lia)) as [Hr _]. assert (EK : K' = K) by lia. rewrite EK, Z.sub_diag, Z.add_0_r in *.
    exists lab, (di_addrs din). split; [|split; [exact F|apply enlarges_refl]].
    erewrite bind_ret_l by (apply address_old; consts; lia). unfold v, free. rewrite di_with_id, to_id, xint_id, Ea by (consts; lia). reflexivity.
  - assert (fbn = K) as -> by lia. assert (EK : K' = K + 1) by lia. rewrite EK in *. replace (K + 1 - K) with 1 in * by lia.
    assert (HM : K < MAXFILE) by (consts; lia). pose proof (blk_none _ _ _ _ _ _ _ _ F HM) as E0.
    pose proof (direct_alloc _ _ _ _ _ _ _ _ F Hd B2 ltac:(intros x; apply B3; unfold free in *; lia)) as F'.
    exists (upd lab free (inum, K)), (<[Z.to_nat K := free]> (di_addrs din)). split; [|split; [exact F'|apply enlarges_label]].
    erewrite bind_ret_l by (apply address_new; [congruence|unfold free in *; lia]). fold v free.
    destruct (fi_lab _ _ _ _ _ _ _ _ F' K ltac:(lia)) as [Hr _].
    change (di_addr (di_set_addr K free din) K) with (nth (Z.to_nat K) (<[Z.to_nat K := free]> (di_addrs din)) 0). rewrite <- (blk_direct v) by exact Hd.
    rewrite xint_id by (consts; lia). reflexivity.
Qed.

(** The indirect block. *)
Lemma address_indirect lab s inum din K bs : let v := m_disk s in let free := m_freeblock s in let n := 1 - Z.b2z (NDIRECT <? K) in
  file_in lab v free inum (di_addrs din) K (NDIRECT <? K) bs -> NDIRECT <= K -> blank s -> free + n <= FSSIZE ->
  exists lab' A', address din NDIRECT s = Ret (di_with A' din) (to v (free + n) s) /\
    file_in lab' v (free + n) inum A' K true bs /\ enlarges inum lab v free lab' v (free + n).
Proof.
  intros v free n F HK [B1 B2 B3] Hc. unfold n in *. destruct (Z.ltb_spec NDIRECT K) as [H|H]; cbn [Z.b2z] in *.
  - exists lab, (di_addrs din). rewrite Z.sub_diag, Z.add_0_r. split; [|split; [exact F|apply enlarges_refl]].
    destruct (fi_labi _ _ _ _ _ _ _ _ F eq_refl) as [Hr _]. unfold v, free. rewrite di_with_id, to_id. apply address_old.
    change (di_addr din NDIRECT) with (ind (di_addrs din)). consts; lia.
  - assert (K = NDIRECT) as -> by lia. exists (upd lab free (inum, -1)), (<[Z.to_nat NDIRECT := free]> (di_addrs din)).
    split; [|split; [|apply enlarges_label]].
    + apply address_new; [|unfold free in *; lia]. change (di_addr din NDIRECT) with (ind (di_addrs din)).
      destruct (decide (ind (di_addrs din) = 0)) as [|E]; [assumption|]. apply (fi_ind _ _ _ _ _ _ _ _ F) in E. discriminate.
    + apply ind_alloc; [exact F|exact B2|]. intros x. apply B3. unfold free in *. lia.
Qed.

Lemma indirect_entry_run lab s inum din K bs fbn : let v := m_disk s in let free := m_freeblock s in
  file_in lab v free inum (di_addrs din) K true bs -> NDIRECT <= fbn <= K -> fbn < MAXFILE -> blank s ->
  forall K', K' = Z.max K (fbn + 1) -> free + (K' - K) <= FSSIZE ->
  exists lab' v', indirect_entry din fbn s = Ret (blk v' (di_addrs din) fbn) (to v' (free + (K' - K)) s) /\
    file_in lab' v' (free + (K' - K)) inum (di_addrs din) K' true bs /\ enlarges inum lab v free lab' v' (free + (K' - K)).
Proof.
  intros v free F Hf HM [B1 B2 B3] K' HK' Hc. destruct (fi_labi _ _ _ _ _ _ _ _ F eq_refl) as [Hi Hil]. set (A := di_addrs din) in *.
  assert (0 < nmeta) by (consts; lia). assert (free <= FSSIZE) by lia.
  unfold indirect_entry. change (di_addr din NDIRECT) with (ind A). rewrite xint_id by (consts; lia).
  erewrite bind_ret_l by (apply rsect_run; [exact B1|consts; lia]). cbv zeta. fold v.
  assert (Eb : load (v (ind A)) (4 * (fbn - NDIRECT)) 4 = blk v A fbn) by (rewrite blk_indirect by lia; replace (ind A =? 0) with false by lia; reflexivity).
  rewrite Eb. destruct (Z.ltb_spec fbn K) as [HK|HK].
  - destruct (fi_lab _ _ _ _ _ _ _ _ F fbn ltac:(consts; lia)) as [Hr _]. replace (_ =? 0) with false by (consts; lia).
    assert (EK : K' = K) by lia. rewrite EK, Z.sub_diag, Z.add_0_r in *. exists lab, v. split; [|split; [exact F|apply enlarges_refl]].
    rewrite xint_id by (consts; lia). unfold v, free. rewrite to_id. reflexivity.
  - assert (fbn = K) as -> by lia. assert (EK : K' = K + 1) by lia. rewrite EK in *. replace (K + 1 - K) with 1 in * by lia.
    rewrite (blk_none _ _ _ _ _ _ _ _ F HM). cbn [Z.eqb]. assert (Hfr : nmeta <= free < FSSIZE) by (unfold free in *; lia).
    pose proof (entry_alloc _ _ _ _ _ _ _ F ltac:(lia) Hfr ltac:(intros x; apply B3; unfold free in *; lia)) as F'.
    exists (upd lab free (inum, K)), (upd v (ind A) (store_le (v (ind A)) (4 * (K - NDIRECT)) 4 free)). split; [|split; [exact F'|]].
    + erewrite bind_ret_l by (apply next_block_run; unfold free in *; lia). fold v free. cbv zeta. rewrite (xint_id free) by (consts; lia).
      erewrite bind_ret_l by (apply wsect_run; [exact B1|lia]).
      replace (load (store_le _ _ _ _) _ 4) with (blk (upd v (ind A) (store_le (v (ind A)) (4 * (K - NDIRECT)) 4 free)) A K)
        by (rewrite blk_indirect, upd_eq by lia; replace (ind A =? 0) with false by lia; reflexivity).
      destruct (fi_lab _ _ _ _ _ _ _ _ F' K ltac:(consts; lia)) as [Hr _]. rewrite xint_id by (consts; lia). reflexivity.
    + eapply enlarges_trans; [apply enlarges_write; [exact Hi|rewrite Hil; reflexivity]|apply enlarges_label].
Qed.

(** Finding or allocating block [fbn]. *)
Lemma file_block_run lab s inum din K bs fbn : let v := m_disk s in let free := m_freeblock s in
  file_in lab v free inum (di_addrs din) K (NDIRECT <? K) bs -> 0 <= fbn <= K -> fbn < MAXFILE -> blank s ->
  forall K', K' = Z.max K (fbn + 1) -> let free' := free + (takes K' - takes K) in free' <= FSSIZE ->
  exists lab' v' A', file_block din fbn s = Ret (blk v' A' fbn, di_with A' din) (to v' free' s) /\
    file_in lab' v' free' inum A' K' (NDIRECT <? K') bs /\ enlarges inum lab v free lab' v' free'.
Proof.
  intros v free F Hf HM B K' HK' free' Hc. destruct (Z.ltb_spec fbn NDIRECT) as [Hd|Hd].
  - assert (ET : takes K' - takes K = K' - K) by (unfold takes; destruct (Z.ltb_spec NDIRECT K), (Z.ltb_spec NDIRECT K'); simpl; lia).
    unfold free' in *. rewrite ET in *. destruct (file_block_direct lab s inum din K _ bs fbn F Hf Hd B K' HK' Hc) as (lab' & A' & E & F' & X).
    exists lab', v, A'. split; [exact E|]. split; [|exact X]. replace (NDIRECT <? K') with (NDIRECT <? K) by lia. exact F'.
  - set (n := 1 - Z.b2z (NDIRECT <? K)) in *. assert (ET : takes K' - takes K = n + (K' - K)).
    { unfold takes, n. replace (NDIRECT <? K') with true by lia. simpl. lia. }
    unfold free' in *. rewrite ET in *. replace (NDIRECT <? K') with true by lia.
    destruct (address_indirect lab s inum din K bs F ltac:(lia) B) as (lab1 & A1 & E1 & F1 & X1); [fold n free; lia|]. fold v n free in E1, F1, X1.
    pose proof (blank_enlarges _ _ _ _ _ _ B X1) as B1. set (s1 := to v (free + n) s) in *.
    destruct (indirect_entry_run lab1 s1 inum (di_with A1 din) K bs fbn F1 ltac:(lia) HM B1 K' HK') as (lab2 & v2 & E2 & F2 & X2); [simpl; lia|].
    change (m_freeblock s1) with (free + n) in *. rewrite <- Z.add_assoc in *. exists lab2, v2, A1. split; [|split; [exact F2|]].
    + unfold file_block. replace (fbn <? NDIRECT) with false by lia. erewrite bind_ret_l by exact E1. erewrite bind_ret_l by exact E2. reflexivity.
    + eapply enlarges_trans; [exact X1|exact X2].
Qed.

(** Writing into the last block. *)
Lemma append_data lab v free inum A K I bs p : let off := Z.of_nat (length bs) in let x := blk v A (off / BSIZE) in
  file_in lab v free inum A K I bs -> off / BSIZE < K -> off mod BSIZE + Z.of_nat (length p) <= BSIZE ->
  file_in lab (upd v x (splice (v x) (off mod BSIZE) p)) free inum A K I (bs ++ p).
Proof.
  intros off x F HK Hp. assert (Hq : 0 <= off / BSIZE < K) by (split; [apply Z.div_pos; unfold off; consts; lia|exact HK]).
  assert (Hi : forall d, I = true -> upd v x d (ind A) = v (ind A)).
  { intros d HI. apply upd_ne. intros E. apply (blk_not_ind _ _ _ _ _ _ _ _ (off / BSIZE) F Hq HI). symmetry. exact E. }
  assert (Hb : forall d bn, blk (upd v x d) A bn = blk v A bn).
  { intros d bn. apply blk_ext. intros H. apply Hi. apply (fi_ind _ _ _ _ _ _ _ _ F). exact H. }
  pose proof F as [H1 H2 H3 H4 H5 H6 H7 H8]. split; auto; try (intros; rewrite Hb; auto; fail).
  - rewrite length_app. fold off in H3. unfold off in *. consts. dlia.
  - intros o Ho. rewrite Hb. assert (Ho' : 0 <= o / BSIZE < K) by (consts; dlia). specialize (H8 o Ho).
    unfold upd. destruct (Z.eqb_spec (blk v A (o / BSIZE)) x) as [E|E].
    + apply (blk_apart _ _ _ _ _ _ _ _ _ _ F Ho' Hq) in E. rewrite E in H8. fold x in H8. unfold splice.
      destruct (decide (Z.to_nat o < length bs)%nat) as [Hl|Hl].
      * rewrite write_bytes_outside, app_nth1 by (unfold off in *; consts; dlia). exact H8.
      * rewrite app_nth2 by lia. destruct (p !! (Z.to_nat o - length bs)%nat) as [b|] eqn:Ep.
        -- rewrite nth_lookup, Ep. replace (o mod BSIZE) with (off mod BSIZE + Z.of_nat (Z.to_nat o - length bs)) by (unfold off in *; consts; dlia).
           apply write_bytes_lookup. exact Ep.
        -- rewrite nth_lookup, Ep. apply lookup_ge_None in Ep. rewrite write_bytes_outside by (unfold off in *; consts; dlia).
           rewrite H8. apply nth_overflow. lia.
    + rewrite H8. destruct (decide (Z.to_nat o < length bs)%nat) as [Hl|Hl]; [rewrite app_nth1 by lia; reflexivity|].
      rewrite !nth_overflow; [reflexivity| |lia]. rewrite length_app. destruct (decide (length bs + length p <= Z.to_nat o)%nat); [assumption|].
      exfalso. apply E. unfold x. f_equal. unfold off in *. consts. dlia.
Qed.

(** The blocks that [n] bytes fill. *)
Definition fills (n : Z) : Z := (n + (BSIZE - 1)) / BSIZE.

Lemma takes_mono K K' : K <= K' -> takes K <= takes K'.
Proof. intros H. unfold takes. destruct (Z.ltb_spec NDIRECT K), (Z.ltb_spec NDIRECT K'); simpl; lia. Qed.
Lemma fills_mono n m : n <= m -> fills n <= fills m.
Proof. intros H. unfold fills. consts. dlia. Qed.

(** A file at rest. *)
Definition file_has (lab : Z -> Z * Z) (v : Z -> block) (free inum : Z) (A bs : list Z) : Prop :=
  let K := fills (Z.of_nat (length bs)) in file_in lab v free inum A K (NDIRECT <? K) bs.

Definition grown (free n m : Z) : Z := free + (takes (fills m) - takes (fills n)).

Lemma iappend_round lab s inum din bs p : let off := Z.of_nat (length bs) in let fbn := off / BSIZE in
  let free' := grown (m_freeblock s) off (off + Z.of_nat (length p)) in
  p <> [] -> off mod BSIZE + Z.of_nat (length p) <= BSIZE -> fbn < MAXFILE ->
  file_has lab (m_disk s) (m_freeblock s) inum (di_addrs din) bs -> blank s -> free' <= FSSIZE ->
  exists lab' v' A', (let! (x, din) := file_block din fbn in let! buf := rsect x in wsect x (splice buf (off - fbn * BSIZE) p) ;; ret din) s =
      Ret (di_with A' din) (to v' free' s) /\
    file_has lab' v' free' inum A' (bs ++ p) /\ enlarges inum lab (m_disk s) (m_freeblock s) lab' v' free'.
Proof.
  intros off fbn free' Hp Hfit HM F B Hc. set (K := fills off). assert (Hlen : 0 < Z.of_nat (length p)) by (destruct p; [congruence|simpl; lia]).
  set (K' := fills (off + Z.of_nat (length p))). assert (EK : K' = Z.max K (fbn + 1)) by (unfold K', K, fbn, fills, off in *; consts; dlia).
  destruct (file_block_run lab s inum din K bs fbn F ltac:(unfold K, fbn, fills, off; consts; dlia) HM B K' EK Hc) as (lab1 & v1 & A1 & E1 & F1 & X1).
  change (m_freeblock s + (takes K' - takes K)) with free' in *. pose proof (blank_enlarges _ _ _ _ _ _ B X1) as B1.
  assert (Hq : 0 <= fbn < K') by (unfold fbn, off in *; consts; dlia). destruct (fi_lab _ _ _ _ _ _ _ _ F1 fbn Hq) as [Hr Hl].
  pose proof (append_data _ _ _ _ _ _ _ _ p F1 ltac:(fold off fbn; lia) Hfit) as F2. fold off fbn in F2.
  exists lab1, (upd v1 (blk v1 A1 fbn) (splice (v1 (blk v1 A1 fbn)) (off mod BSIZE) p)), A1. split; [|split].
  - erewrite bind_ret_l by exact E1. cbv beta iota. erewrite bind_ret_l by (apply rsect_run; [apply B1|consts; lia]).
    erewrite bind_ret_l by (apply wsect_run; [apply B1|consts; lia]). cbn [m_disk to]. replace (off - fbn * BSIZE) with (off mod BSIZE) by (unfold fbn; consts; dlia).
    reflexivity.
  - unfold file_has. replace (Z.of_nat (length (bs ++ p))) with (off + Z.of_nat (length p)) by (rewrite length_app; lia). exact F2.
  - eapply enlarges_trans; [exact X1|]. apply enlarges_write; [exact Hr|rewrite Hl; reflexivity].
Qed.

Lemma iappend_loop_run inum : forall fuel p lab s din bs, let off := Z.of_nat (length bs) in let m := off + Z.of_nat (length p) in
  (length p < fuel)%nat -> file_has lab (m_disk s) (m_freeblock s) inum (di_addrs din) bs -> blank s -> m <= MAXFILE * BSIZE ->
  grown (m_freeblock s) off m <= FSSIZE ->
  exists lab' v' A', iappend_loop fuel p off din s = Ret (m, di_with A' din) (to v' (grown (m_freeblock s) off m) s) /\
    file_has lab' v' (grown (m_freeblock s) off m) inum A' (bs ++ p) /\
    enlarges inum lab (m_disk s) (m_freeblock s) lab' v' (grown (m_freeblock s) off m).
Proof.
  induction fuel as [|fuel IH]; intros p lab s din bs off m Hfu F B Hm Hc; [lia|]. cbn [iappend_loop].
  destruct (decide (p = [])) as [->|Hp].
  { exists lab, (m_disk s), (di_addrs din). assert (E : m = off) by (unfold m; simpl; lia). rewrite E. unfold grown. rewrite Z.sub_diag, Z.add_0_r, app_nil_r, to_id, di_with_id.
    split; [reflexivity|]. split; [exact F|apply enlarges_refl]. }
  assert (Hlen : 0 < Z.of_nat (length p)) by (destruct p; [congruence|simpl; lia]).
  set (fbn := off / BSIZE). set (n1 := Z.min (Z.of_nat (length p)) ((fbn + 1) * BSIZE - off)). set (p1 := take (Z.to_nat n1) p). set (p2 := drop (Z.to_nat n1) p).
  assert (Hn1 : 0 < n1 <= Z.of_nat (length p) /\ off mod BSIZE + n1 <= BSIZE) by (unfold n1, fbn; consts; dlia).
  assert (Hl1 : Z.of_nat (length p1) = n1) by (unfold p1; rewrite length_take; lia). assert (Hl2 : Z.of_nat (length p2) = Z.of_nat (length p) - n1) by (unfold p2; rewrite length_drop; lia).
  assert (HF : fbn < MAXFILE) by (unfold fbn, m, off in *; consts; dlia).
  assert (Hg : grown (m_freeblock s) off (off + Z.of_nat (length p1)) <= FSSIZE).
  { unfold grown in *. pose proof (takes_mono _ _ (fills_mono (off + Z.of_nat (length p1)) m ltac:(lia))). lia. }
  destruct (iappend_round lab s inum din bs p1) as (lab1 & v1 & A1 & E1 & F1 & X1); auto; [intros E; rewrite E in Hl1; simpl in Hl1; lia|fold off; lia|].
  fold off in E1, F1, X1, Hg. fold fbn in E1. set (free1 := grown (m_freeblock s) off (off + Z.of_nat (length p1))) in *.
  destruct (IH p2 lab1 (to v1 free1 s) (di_with A1 din) (bs ++ p1)) as (lab2 & v2 & A2 & E2 & F2 & X2);
    [lia|exact F1|eapply blank_enlarges; eassumption|rewrite length_app; lia|..].
  { rewrite length_app, Nat2Z.inj_add. fold off. replace (off + Z.of_nat (length p1) + Z.of_nat (length p2)) with m by lia. unfold free1, grown in *. simpl. lia. }
  rewrite length_app, Nat2Z.inj_add in E2, F2, X2. fold off in E2, F2, X2.
  replace (off + Z.of_nat (length p1) + Z.of_nat (length p2)) with m in E2, F2, X2 by lia.
  replace (grown (m_freeblock (to v1 free1 s)) (off + Z.of_nat (length p1)) m) with (grown (m_freeblock s) off m) in E2, F2, X2 by (unfold free1, grown; simpl; lia).
  rewrite <- app_assoc in F2. replace (p1 ++ p2) with p in F2 by (symmetry; apply take_drop).
  exists lab2, v2, A2. split; [|split; [exact F2|eapply enlarges_trans; [exact X1|exact X2]]].
  destruct p as [|b p']; [congruence|]. replace (fbn <? MAXFILE) with true by lia. cbn [negb]. fold n1. fold p1 p2.
  rewrite (u32_small (off + n1)) by (unfold m, off in *; consts; lia). rewrite Hl1 in E2.
  apply bind_inv in E1 as ((x & d1) & s1 & Ea & E1). cbv beta iota in E1. apply bind_inv in E1 as (buf & s2 & Eb & E1). apply bind_inv in E1 as ([] & s3 & Ec & E1).
  injection E1 as -> ->. erewrite bind_ret_l by exact Ea. cbv beta iota. erewrite bind_ret_l by exact Eb. erewrite bind_ret_l by exact Ec. exact E2.
Qed.

(** ** Inodes *)

Lemma layout_eq : layout = Sb FSMAGIC FSSIZE nblocks NINODES nlog 2 33 46.
Proof. reflexivity. Qed.

Lemma IBLOCK_layout i : 0 <= i < NINODES -> IBLOCK i layout = i / 16 + 33 /\ 33 <= IBLOCK i layout < 46.
Proof.
  intros Hi. assert (E : IBLOCK i layout = i / 16 + 33) by (unfold IBLOCK; rewrite layout_eq; change IPB with 16; apply u32_small; consts; simpl; dlia).
  rewrite E. split; [reflexivity|]. consts. dlia.
Qed.

Definition ino (v : Z -> block) (i : Z) : dino := get_dino (v (IBLOCK i layout)) (dinode_off i).

Record dino_ok (d : dino) : Prop := {
  do_type : - 2 ^ 15 <= di_type d < 2 ^ 15;
  do_major : - 2 ^ 15 <= di_major d < 2 ^ 15;
  do_minor : - 2 ^ 15 <= di_minor d < 2 ^ 15;
  do_nlink : - 2 ^ 15 <= di_nlink d < 2 ^ 15;
  do_size : 0 <= di_size d < 2 ^ 32;
  do_len : length (di_addrs d) = Z.to_nat (NDIRECT + 1);
  do_addrs : Forall (fun a => 0 <= a < 2 ^ 32) (di_addrs d)
}.

Definition with_ino (v : Z -> block) (i : Z) (d : dino) : Z -> block :=
  upd v (IBLOCK i layout) (put_dino (v (IBLOCK i layout)) (dinode_off i) d).

Lemma ino_same v i d : dino_ok d -> ino (with_ino v i d) i = d.
Proof.
  intros [H1 H2 H3 H4 H5 H6 H7]. unfold ino, with_ino. rewrite upd_eq.
  set (j := Inode 0 0 0 initsleeplock true (di_type d) (di_major d) (di_minor d) (di_nlink d) (di_size d) (di_addrs d)).
  change (put_dino ?b ?o d) with (put_inode b o j). unfold get_dino.
  assert (Hj : fields_ok j) by (split; assumption).
  destruct (dinode_roundtrip (v (IBLOCK i layout)) (dinode_off i) j Hj) as (-> & -> & -> & -> & -> & ->). destruct d; reflexivity.
Qed.

Lemma get_dino_ext d d' o : (forall x, o <= x < o + 64 -> d' x = d x) -> get_dino d' o = get_dino d o.
Proof.
  intros H. assert (Hl : forall a n, o <= a -> a + Z.of_nat n <= o + 64 -> load d' a n = load d a n) by (intros a n H1 H2; apply load_ext; intros x Hx; apply H; lia).
  unfold get_dino, d_type, d_major, d_minor, d_nlink, d_size. rewrite !Hl by lia. f_equal. unfold d_addrs. apply list_fmap_ext. intros k x Hk.
  apply lookup_seqZ in Hk as [-> Hk]. apply Hl; consts; lia.
Qed.

Lemma ino_other v i d j : dino_ok d -> 0 <= i < NINODES -> 0 <= j < NINODES -> i <> j -> ino (with_ino v i d) j = ino v j.
Proof.
  intros Hd Hi Hj Hne. unfold ino, with_ino, upd. destruct (Z.eqb_spec (IBLOCK j layout) (IBLOCK i layout)) as [E|E]; [|reflexivity].
  rewrite <- E. apply get_dino_ext. intros x Hx. destruct (IBLOCK_layout i Hi) as [E1 _], (IBLOCK_layout j Hj) as [E2 _].
  apply (put_inode_outside _ _ (Inode 0 0 0 initsleeplock true (di_type d) (di_major d) (di_minor d) (di_nlink d) (di_size d) (di_addrs d))); [apply Hd|].
  unfold dinode_off in *. change IPB with 16 in *. dlia.
Qed.

Lemma with_ino_block v i d b : 0 <= i < NINODES -> b < 33 \/ 46 <= b -> with_ino v i d b = v b.
Proof. intros Hi Hb. destruct (IBLOCK_layout i Hi) as [_ Hr]. apply upd_ne. lia. Qed.

Lemma ino_ext v v' i : 0 <= i < NINODES -> (forall b, b < nmeta -> v' b = v b) -> ino v' i = ino v i.
Proof. intros Hi H. destruct (IBLOCK_layout i Hi) as [_ Hr]. unfold ino. rewrite H by (consts; lia). reflexivity. Qed.

Lemma winode_run i d s : m_sb s = layout -> m_len s = FSSIZE -> 0 <= i < NINODES -> winode i d s = Ret tt (at_disk (with_ino (m_disk s) i d) s).
Proof.
  intros Hs Hl Hi. destruct (IBLOCK_layout i Hi) as [_ Hr]. unfold winode. rewrite bind_gets, Hs. cbv zeta.
  erewrite bind_ret_l by (apply rsect_run; [exact Hl|consts; lia]). apply wsect_run; [exact Hl|consts; lia].
Qed.

Lemma rinode_run i s : m_sb s = layout -> m_len s = FSSIZE -> 0 <= i < NINODES -> rinode i s = Ret (ino (m_disk s) i) s.
Proof.
  intros Hs Hl Hi. destruct (IBLOCK_layout i Hi) as [_ Hr]. unfold rinode. rewrite bind_gets, Hs. cbv zeta.
  erewrite bind_ret_l by (apply rsect_run; [exact Hl|consts; lia]). reflexivity.
Qed.

(** ** The image being built

    Inode [k + 1] has the type and the bytes of entry [k] of [F]. *)

Definition need (F : list (Z * list Z)) : Z := foldr (fun f n => takes (fills (Z.of_nat (length f.2))) + n) 0 F.

Definition sb_block : block := put_words (fun _ => 0) 0 (sb_words layout).

Record image (lab : Z -> Z * Z) (s : mk) (F : list (Z * list Z)) : Prop := {
  ig_sb : m_sb s = layout;
  ig_blank : blank s;
  ig_next : m_freeinode s = 1 + Z.of_nat (length F);
  ig_room : Z.of_nat (length F) < NINODES;
  ig_types : Forall (fun f => 0 < f.1 < 4) F;
  ig_need : m_freeblock s = nmeta + need F;
  ig_top : m_freeblock s <= FSSIZE;
  ig_head : forall b, 0 <= b < 33 -> m_disk s b = if b =? 1 then sb_block else fun _ => 0;
  ig_file : forall k ty bs, F !! k = Some (ty, bs) -> exists A,
    ino (m_disk s) (1 + Z.of_nat k) = Dino ty 0 0 1 (Z.of_nat (length bs)) A /\
    file_has lab (m_disk s) (m_freeblock s) (1 + Z.of_nat k) A bs;
  ig_rest : forall i, 0 <= i < NINODES -> i = 0 \/ Z.of_nat (length F) < i -> di_type (ino (m_disk s) i) = 0
}.

Ltac mk_fields := cbn [at_disk set_disk set_freeinode set_freeblock set_sb to m_disk m_len m_sb m_freeinode m_freeblock].

Lemma takes_pos n : 0 <= takes (fills (Z.of_nat n)).
Proof. unfold takes, fills. consts. destruct (Z.ltb_spec 12 ((Z.of_nat n + (1024 - 1)) / 1024)); simpl; dlia. Qed.

Lemma need_cons ty bs F : need ((ty, bs) :: F) = takes (fills (Z.of_nat (length bs))) + need F.
Proof. reflexivity. Qed.

Lemma need_app F G : need (F ++ G) = need F + need G.
Proof. induction F as [|f F IH]; simpl; [reflexivity|]. rewrite IH. lia. Qed.

Lemma need_insert k ty bs bs' F : F !! k = Some (ty, bs) ->
  need (<[k := (ty, bs')]> F) = need F + (takes (fills (Z.of_nat (length bs'))) - takes (fills (Z.of_nat (length bs)))).
Proof.
  revert k. induction F as [|f F IH]; intros [|k] H; simpl in H; simplify_eq; simpl; [lia|]. rewrite (IH k H). lia.
Qed.

Lemma empty_file lab v free inum : file_has lab v free inum (replicate (Z.to_nat (NDIRECT + 1)) 0) [].
Proof.
  assert (Hi : ind (replicate (Z.to_nat (NDIRECT + 1)) 0) = 0) by reflexivity.
  unfold file_has. change (fills (Z.of_nat (length []))) with 0. change (NDIRECT <? 0) with false. split; try (simpl; consts; lia); try discriminate.
  - intros bn Hbn. split; [|lia]. intros H. exfalso. apply H. destruct (Z.ltb_spec bn NDIRECT).
    + rewrite blk_direct, nth_lookup by lia. destruct (replicate _ 0 !! _) as [x|] eqn:Ex; [|reflexivity]. apply lookup_replicate in Ex as [-> _]. reflexivity.
    + rewrite blk_indirect, Hi by lia. reflexivity.
  - rewrite Hi. split; [congruence|discriminate].
Qed.

(** Addresses of a file fit their words. *)
Lemma file_addrs lab v free inum A K I bs : file_in lab v free inum A K I bs -> free <= FSSIZE -> Forall (fun a => 0 <= a < 2 ^ 32) A.
Proof.
  intros F Hf. apply Forall_lookup. intros k a Hk. pose proof (lookup_lt_Some _ _ _ Hk) as Hl. rewrite (fi_len _ _ _ _ _ _ _ _ F) in Hl.
  destruct (decide (a = 0)) as [->|Hne]; [lia|]. assert (En : nth k A 0 = a) by (rewrite nth_lookup, Hk; reflexivity).
  assert (Hr : nmeta <= a < free); [|consts; lia]. destruct (decide (k = Z.to_nat NDIRECT)) as [->|Hk'].
  - change (ind A = a) in En. rewrite <- En. apply (fi_labi _ _ _ _ _ _ _ _ F). apply (fi_ind _ _ _ _ _ _ _ _ F). congruence.
  - assert (Eb : blk v A (Z.of_nat k) = a) by (rewrite blk_direct, Nat2Z.id by (consts; lia); exact En).
    rewrite <- Eb. apply (fi_lab _ _ _ _ _ _ _ _ F). split; [lia|]. apply (fi_blk _ _ _ _ _ _ _ _ F); [consts; lia|congruence].
Qed.

(** Writing inode [k + 1] when its blocks are there. *)
Lemma file_dino_ok lab v free inum A ty bs : file_has lab v free inum A bs -> 0 < ty < 4 -> free <= FSSIZE ->
  dino_ok (Dino ty 0 0 1 (Z.of_nat (length bs)) A).
Proof.
  intros F Ht Hf. pose proof (fi_fit _ _ _ _ _ _ _ _ F). pose proof (fi_max _ _ _ _ _ _ _ _ F).
  split; simpl; try lia; [consts; lia|apply F|eapply file_addrs; eassumption].
Qed.

Lemma file_has_disk lab v v' free inum A bs : file_has lab v free inum A bs -> (forall b, nmeta <= b -> v' b = v b) -> file_has lab v' free inum A bs.
Proof. intros F H. eapply file_in_ext; [exact F|lia|]. intros b Hb _. split; [apply H; lia|reflexivity]. Qed.

Lemma with_ino_data v i d b : 0 <= i < NINODES -> nmeta <= b -> with_ino v i d b = v b.
Proof. intros Hi Hb. apply with_ino_block; [exact Hi|]. consts. lia. Qed.

Lemma ialloc_run lab s F ty : image lab s F -> Z.of_nat (length F) + 1 < NINODES -> 0 < ty < 4 -> exists s',
  ialloc ty s = Ret (1 + Z.of_nat (length F)) s' /\ image lab s' (F ++ [(ty, [])]).
Proof.
  intros [I1 I2 I3 I4 I5 I6 I7 I8 I9 I10] Hr Ht. set (n := Z.of_nat (length F)) in *. pose proof I2 as [B1 B2 B3].
  assert (Hn : 0 <= 1 + n < NINODES) by lia. set (d := Dino ty 0 0 1 0 (replicate (Z.to_nat (NDIRECT + 1)) 0)).
  assert (Hd : dino_ok d) by (apply (file_dino_ok lab (m_disk s) (m_freeblock s) (1 + n) _ ty []); [apply empty_file|exact Ht|exact I7]).
  exists (at_disk (with_ino (m_disk s) (1 + n) d) (set_freeinode (2 + n) s)). split.
  - unfold ialloc. rewrite bind_gets, I3, bind_modify, u32_small by (consts; lia). rewrite xshort_id by lia. change (xshort 1) with 1. change (xint 0) with 0.
    fold d. replace (1 + n + 1) with (2 + n) by lia. erewrite bind_ret_l by (apply winode_run; [exact I1|exact B1|exact Hn]). reflexivity.
  - split; mk_fields; auto.
    + split; [exact B1|exact B2|]. intros b x Hb. simpl in *. rewrite with_ino_data by lia. auto.
    + rewrite length_app. simpl. lia.
    + rewrite length_app. simpl. lia.
    + apply Forall_app. split; [exact I5|]. constructor; [exact Ht|constructor].
    + rewrite need_app. change (need [(ty, [])]) with 0. lia.
    + intros b Hb. rewrite with_ino_block by lia. auto.
    + intros k ty' bs Hk. apply lookup_app_Some in Hk as [Hk|[Hk1 Hk]].
      * destruct (I9 _ _ _ Hk) as (A & E & Hf). pose proof (lookup_lt_Some _ _ _ Hk). exists A. rewrite ino_other by (auto; lia). split; [exact E|].
        eapply file_has_disk; [exact Hf|]. intros b Hb. apply with_ino_data; lia.
      * apply list_lookup_singleton_Some in Hk as [Hk2 Hk]. injection Hk as <- <-. replace (1 + Z.of_nat k) with (1 + n) by lia.
        exists (replicate (Z.to_nat (NDIRECT + 1)) 0). rewrite ino_same by exact Hd. split; [reflexivity|apply empty_file].
    + intros i Hi Ho. rewrite length_app in Ho. simpl in Ho. rewrite ino_other by (auto; lia). apply I10; lia.
Qed.

Lemma iappend_run lab s F k ty bs p : image lab s F -> F !! k = Some (ty, bs) -> let F' := <[k := (ty, bs ++ p)]> F in
  Z.of_nat (length (bs ++ p)) <= MAXFILE * BSIZE -> nmeta + need F' <= FSSIZE ->
  exists lab' s', iappend (1 + Z.of_nat k) p s = Ret tt s' /\ image lab' s' F'.
Proof.
  intros [I1 I2 I3 I4 I5 I6 I7 I8 I9 I10] Hk F' Hm Hn. pose proof I2 as [B1 B2 B3]. destruct (I9 _ _ _ Hk) as (A & E & Hf).
  pose proof (lookup_lt_Some _ _ _ Hk) as Hlt. set (i := 1 + Z.of_nat k) in *. assert (Hi : 0 <= i < NINODES) by lia.
  assert (Ht : 0 < ty < 4) by (rewrite Forall_lookup in I5; apply (I5 k _ Hk)).
  assert (Hnd : nmeta + need F' = grown (m_freeblock s) (Z.of_nat (length bs)) (Z.of_nat (length bs) + Z.of_nat (length p))).
  { unfold F', grown. rewrite (need_insert _ _ _ _ _ Hk), I6, length_app, Nat2Z.inj_add. lia. }
  rewrite length_app, Nat2Z.inj_add in Hm. set (free' := grown _ _ _) in *. set (din := Dino ty 0 0 1 (Z.of_nat (length bs)) A) in *.
  destruct (iappend_loop_run i (S (length p)) p lab s din bs ltac:(lia) Hf I2 Hm) as (lab' & v' & A' & E' & Hf' & X); [fold free'; lia|]. fold free' in E', Hf', X.
  pose proof (file_dino_ok _ _ _ _ _ ty _ Hf' Ht ltac:(lia)) as Hd. rewrite length_app, Nat2Z.inj_add in Hd. set (d' := Dino _ _ _ _ _ _) in Hd.
  pose proof (blank_enlarges _ _ _ _ _ _ I2 X) as B'.
  exists lab', (at_disk (with_ino v' i d') (to v' free' s)). split.
  - unfold iappend. erewrite bind_ret_l by (apply rinode_run; assumption). rewrite E. cbv zeta. change (di_size din) with (Z.of_nat (length bs)).
    rewrite xint_id by (consts; lia). erewrite bind_ret_l by exact E'. cbv beta iota. rewrite xint_id by (consts; lia).
    apply (winode_run i d' (to v' free' s)); assumption.
  - assert (Hlow : forall b, b < nmeta -> v' b = m_disk s b) by (intros b Hb; apply (ex_old _ _ _ _ _ _ _ X); [pose proof (bl_low _ I2); lia|auto]).
    split; mk_fields; auto; unfold F'; rewrite ?length_insert; auto.
    + destruct B' as [C1 C2 C3]. split; [exact C1|exact C2|]. intros b x Hb. mk_fields. rewrite with_ino_data by (simpl in *; lia). apply C3. exact Hb.
    + apply Forall_insert; assumption.
    + lia.
    + intros b Hb. rewrite with_ino_block, Hlow by (consts; lia). auto.
    + intros k2 ty2 bs2 Hk2. destruct (decide (k2 = k)) as [->|Hne].
      * rewrite list_lookup_insert_eq in Hk2 by exact Hlt. injection Hk2 as <- <-. exists A'. fold i. rewrite ino_same by exact Hd.
        split; [unfold d'; rewrite length_app, Nat2Z.inj_add; reflexivity|]. eapply file_has_disk; [exact Hf'|]. intros b Hb. apply with_ino_data; assumption.
      * rewrite list_lookup_insert_ne in Hk2 by congruence. destruct (I9 _ _ _ Hk2) as (A2 & E2 & Hf2). pose proof (lookup_lt_Some _ _ _ Hk2).
        exists A2. rewrite ino_other by (auto; unfold i; lia). rewrite (ino_ext (m_disk s)) by (auto; lia). split; [exact E2|].
        eapply file_has_disk; [eapply file_in_other; [exact Hf2|exact X|unfold i; lia]|]. intros b Hb. apply with_ino_data; assumption.
    + intros j Hj Ho. rewrite ino_other by (auto; unfold i; lia). rewrite (ino_ext (m_disk s)) by auto. auto.
Qed.

(** What [read] delivers of a file. *)
Fixpoint delivered (pieces : list (list Z)) : list Z :=
  match pieces with
  | [] => []
  | [] :: _ => []
  | p :: pieces => p ++ delivered pieces
  end.

Lemma need_mono k ty bs p F : F !! k = Some (ty, bs) -> need F <= need (<[k := (ty, bs ++ p)]> F).
Proof.
  intros H. rewrite (need_insert _ _ _ _ _ H). pose proof (takes_mono _ _ (fills_mono (Z.of_nat (length bs)) (Z.of_nat (length (bs ++ p))) ltac:(rewrite length_app; lia))). lia.
Qed.

Lemma append_pieces_run pieces : forall lab s F k ty bs, image lab s F -> F !! k = Some (ty, bs) -> let F' := <[k := (ty, bs ++ delivered pieces)]> F in
  Z.of_nat (length (bs ++ delivered pieces)) <= MAXFILE * BSIZE -> nmeta + need F' <= FSSIZE ->
  exists lab' s', append_pieces (1 + Z.of_nat k) pieces s = Ret tt s' /\ image lab' s' F'.
Proof.
  induction pieces as [|p pieces IH]; intros lab s F k ty bs Hi Hk F' Hm Hn; cbn [append_pieces delivered] in *.
  { exists lab, s. unfold F'. rewrite app_nil_r, list_insert_id by exact Hk. auto. }
  destruct p as [|b p]; [exists lab, s; unfold F'; rewrite app_nil_r, list_insert_id by exact Hk; auto|]. set (q := b :: p) in *.
  pose proof (lookup_lt_Some _ _ _ Hk) as Hlt. set (F1 := <[k := (ty, bs ++ q)]> F).
  assert (H1 : F1 !! k = Some (ty, bs ++ q)) by (apply list_lookup_insert_eq; exact Hlt).
  assert (E2 : <[k := (ty, (bs ++ q) ++ delivered pieces)]> F1 = F') by (unfold F', F1; rewrite list_insert_insert_eq, <- app_assoc; reflexivity).
  pose proof (need_mono k ty (bs ++ q) (delivered pieces) F1 H1) as Hmono. rewrite E2 in Hmono.
  destruct (iappend_run lab s F k ty bs q Hi Hk) as (lab1 & s1 & Ea & I1); [rewrite !length_app in *; lia|fold F1; lia|].
  destruct (IH lab1 s1 F1 k ty (bs ++ q) I1 H1) as (lab2 & s2 & Eb & I2); [rewrite <- app_assoc; exact Hm|rewrite E2; exact Hn|].
  rewrite E2 in I2. exists lab2, s2. split; [|exact I2]. erewrite bind_ret_l by exact Ea. exact Eb.
Qed.

(** ** The files *)

Lemma wipe_run n : forall i s, 0 <= i -> i + Z.of_nat n <= FSSIZE -> m_len s = i -> (forall b, 0 <= b < i -> m_disk s b = fun _ => 0) ->
  exists v, wipe n i s = Ret tt (set_disk v (i + Z.of_nat n) s) /\ forall b, 0 <= b < i + Z.of_nat n -> v b = fun _ => 0.
Proof.
  induction n as [|n IH]; intros i s Hi Hn Hl Hz; cbn [wipe].
  - exists (m_disk s). rewrite Z.add_0_r. split; [destruct s; simpl in *; subst; reflexivity|exact Hz].
  - unfold wsect. rewrite bind_modify, sector_id by lia.
    destruct (IH (i + 1) (set_disk (upd (m_disk s) i (fun _ => 0)) (Z.max (m_len s) (i + 1)) s)) as (v & E & Hv); simpl; try lia.
    + intros b Hb. unfold upd. case_test; [reflexivity|apply Hz; lia].
    + exists v. rewrite E. replace (i + 1 + Z.of_nat n) with (i + Z.of_nat (S n)) in * by lia. split; [reflexivity|exact Hv].
Qed.

Section Files.
Context (creates : list Z -> bool) (host : list Z -> option (list (list Z))).

Definition name_of (arg : list Z) : list Z := unscore (short arg).
Definition data_of (arg : list Z) : list Z := delivered (default [] (host arg)).

(** An argument [mkfs] can put into the image. *)
Record fits (arg : list Z) : Prop := {
  ft_slash : (47 ∉ short arg);
  ft_opens : is_Some (host arg);
  ft_name : Z.of_nat (length (name_of arg)) <= DIRSIZ;
  ft_size : Z.of_nat (length (data_of arg)) <= MAXFILE * BSIZE
}.

Fixpoint dents (i : Z) (names : list (list Z)) : list (list Z) :=
  match names with
  | [] => []
  | n :: names => mk_dirent i n :: dents (i + 1) names
  end.

Definition files_of (args : list (list Z)) : list (Z * list Z) := (fun arg => (T_FILE, data_of arg)) <$> args.
Definition after (root : list Z) (files : list (Z * list Z)) (args : list (list Z)) : list (Z * list Z) :=
  (T_DIR, root ++ concat (dents (2 + Z.of_nat (length files)) (name_of <$> args))) :: files ++ files_of args.

Lemma need_pos F : 0 <= need F.
Proof using. induction F as [|f F IH]; simpl; [lia|]. pose proof (takes_pos (length f.2)). lia. Qed.

Lemma need_in_after root files args : need ((T_DIR, root) :: files) <= need (after root files args).
Proof using.
  unfold after. simpl. rewrite need_app, length_app. pose proof (need_pos (files_of args)).
  pose proof (takes_mono _ _ (fills_mono (Z.of_nat (length root)) (Z.of_nat (length root + length (concat (dents (2 + Z.of_nat (length files)) (name_of <$> args))))) ltac:(lia))). lia.
Qed.

Lemma dents_length names : forall i, length (concat (dents i names)) = (16 * length names)%nat.
Proof using. induction names as [|n names IH]; intros i; cbn [dents concat]; [reflexivity|]. rewrite length_app, mk_dirent_length, IH. simpl length. lia. Qed.

Lemma add_file_run lab s root files arg : image lab s ((T_DIR, root) :: files) -> fits arg ->
  Z.of_nat (length root) = 16 * (2 + Z.of_nat (length files)) -> Z.of_nat (length files) + 2 < NINODES ->
  let F' := (T_DIR, root ++ mk_dirent (2 + Z.of_nat (length files)) (name_of arg)) :: files ++ [(T_FILE, data_of arg)] in
  nmeta + need F' <= FSSIZE -> exists lab' s', add_file host ROOTINO arg s = Ret tt s' /\ image lab' s' F'.
Proof using.
  intros Hi [T1 [pieces T2] T3 T4] Hl Hr F' Hn. unfold add_file. rewrite bool_decide_eq_false_2 by exact T1. rewrite T2. fold (name_of arg).
  replace (Z.of_nat (length (name_of arg)) <=? DIRSIZ) with true by lia. cbn [negb].
  destruct (ialloc_run lab s _ T_FILE Hi) as (s1 & E1 & I1); [simpl; lia|unfold T_FILE; lia|].
  set (inum := 2 + Z.of_nat (length files)) in *. replace (1 + Z.of_nat (length ((T_DIR, root) :: files))) with inum in E1 by (simpl; lia).
  erewrite bind_ret_l by exact E1. rewrite xshort_id by (consts; lia). set (de := mk_dirent inum (name_of arg)) in *.
  assert (Hde : length de = 16%nat) by apply mk_dirent_length.
  assert (Hmono : need ((T_DIR, root ++ de) :: files ++ [(T_FILE, [])]) <= need F').
  { unfold F'. rewrite !need_cons, !need_app, !need_cons. pose proof (takes_pos (length (data_of arg))). change (takes (fills (Z.of_nat (length [])))) with 0. lia. }
  destruct (iappend_run lab s1 _ 0 T_DIR root de I1 eq_refl) as (lab2 & s2 & E2 & I2); [rewrite length_app, Hde; consts; lia|exact (Z.le_trans _ _ _ (proj1 (Z.add_le_mono_l _ _ nmeta) Hmono) Hn)|].
  erewrite bind_ret_l by exact E2. change (<[0%nat := _]> _) with ((T_DIR, root ++ de) :: files ++ [(T_FILE, [])]) in I2.
  assert (Hk : ((T_DIR, root ++ de) :: files ++ [(T_FILE, [])]) !! S (length files) = Some (T_FILE, [])) by (simpl; rewrite list_lookup_middle; reflexivity).
  assert (ED : data_of arg = delivered pieces) by (unfold data_of; rewrite T2; reflexivity). rewrite ED in T4.
  assert (EF : <[S (length files) := (T_FILE, [] ++ delivered pieces)]> ((T_DIR, root ++ de) :: files ++ [(T_FILE, [])]) = F').
  { unfold F'. rewrite ED. simpl. f_equal. rewrite insert_app_r_alt, Nat.sub_diag by lia. reflexivity. }
  replace inum with (1 + Z.of_nat (S (length files))) by lia.
  destruct (append_pieces_run pieces lab2 s2 _ _ T_FILE [] I2 Hk) as (lab3 & s3 & E3 & I3); [exact T4|rewrite EF; exact Hn|].
  rewrite EF in I3. eauto.
Qed.

Lemma add_files_run args : forall lab s root files, image lab s ((T_DIR, root) :: files) -> Forall fits args ->
  Z.of_nat (length root) = 16 * (2 + Z.of_nat (length files)) -> Z.of_nat (length files) + Z.of_nat (length args) + 1 < NINODES ->
  nmeta + need (after root files args) <= FSSIZE ->
  exists lab' s', add_files host ROOTINO args s = Ret tt s' /\ image lab' s' (after root files args).
Proof using.
  induction args as [|arg args IH]; intros lab s root files Hi Hf Hl Hr Hn; cbn [add_files].
  { exists lab, s. split; [reflexivity|]. unfold after. simpl. rewrite !app_nil_r. exact Hi. }
  inversion_clear Hf as [|? ? Hfa Hfs]. set (inum := 2 + Z.of_nat (length files)) in *.
  set (root1 := root ++ mk_dirent inum (name_of arg)). set (files1 := files ++ [(T_FILE, data_of arg)]).
  assert (EA : after root1 files1 args = after root files (arg :: args)).
  { unfold after, root1, files1. rewrite length_app, fmap_cons. cbn [dents concat]. fold inum. replace (2 + Z.of_nat (length files + length [(T_FILE, data_of arg)])) with (inum + 1) by (simpl; lia).
    rewrite <- !app_assoc. reflexivity. }
  rewrite <- EA in *. pose proof (need_in_after root1 files1 args) as Hmono. simpl length in Hr.
  destruct (add_file_run lab s root files arg Hi Hfa Hl ltac:(lia)) as (lab1 & s1 & E1 & I1); [fold inum root1 files1; lia|].
  fold inum root1 files1 in I1. erewrite bind_ret_l by exact E1. apply (IH lab1 s1 root1 files1 I1 Hfs).
  - unfold root1, files1. rewrite !length_app, mk_dirent_length. simpl. lia.
  - unfold files1. rewrite length_app. simpl. lia.
  - exact Hn.
Qed.

End Files.

(** ** The image as the kernel sees it *)

Lemma mark_bit n : forall i buf j, byte_mem buf -> 0 <= i -> 0 <= j -> bit (mark n i buf) j = (i <=? j) && (j <? i + Z.of_nat n) || bit buf j.
Proof.
  induction n as [|n IH]; intros i buf j Hb Hi Hj; cbn [mark].
  { replace ((i <=? j) && (j <? i + Z.of_nat 0)) with false by lia. reflexivity. }
  assert (Hs : 0 <= Z.shiftl 1 (i mod 8) < 2 ^ 8).
  { rewrite Z.shiftl_1_l. pose proof (Z.mod_pos_bound i 8 ltac:(lia)). split; [apply Z.pow_nonneg; lia|apply Z.pow_lt_mono_r; lia]. }
  assert (Hl : 0 <= Z.lor (buf (i / 8)) (Z.shiftl 1 (i mod 8)) < 2 ^ 8) by (apply lor_bound; [lia|apply Hb|exact Hs]).
  rewrite u8_small by exact Hl. rewrite IH by (auto using store_byte_mem; lia). change (store buf _ _) with (set_bit buf i).
  rewrite bit_set by assumption. destruct (Z.eqb_spec j i), (Z.leb_spec (i + 1) j), (Z.leb_spec i j), (Z.ltb_spec j (i + 1 + Z.of_nat n)), (Z.ltb_spec j (i + Z.of_nat (S n))); simpl; try reflexivity; lia.
Qed.

Lemma layout_ok : sb_ok layout.
Proof. split; vm_compute; intuition congruence. Qed.

Lemma datastart_layout : datastart layout = nmeta.
Proof. reflexivity. Qed.

Lemma get_sb_block : get_sb sb_block = layout.
Proof. vm_compute. reflexivity. Qed.

(** A block map of which the first [free] blocks are in use. *)
Definition marked (v : Z -> block) (free : Z) : Prop := forall b, 0 <= b < FSSIZE -> used v layout b = (b <? free).

Lemma bitmap_marked v free : 0 <= free <= FSSIZE -> marked (upd v 46 (mark (Z.to_nat free) 0 (fun _ => 0))) free.
Proof.
  intros Hf b Hb. unfold used. rewrite BBLOCK_eq by (exact layout_ok || exact Hb). rewrite layout_eq. cbn [sb_bmapstart].
  change BPB with 8192. replace (b / 8192 + 46) with 46 by (consts; dlia). rewrite upd_eq, Z.mod_small by (consts; lia).
  rewrite mark_bit by (try lia; intros x; lia). replace (bit (fun _ => 0) b) with false by (symmetry; apply Z.bits_0). rewrite orb_false_r. lia.
Qed.

Section Kernel.
Context (dev : Z) (v : Z -> block) (free : Z) (lab : Z -> Z * Z).
Context (HM : marked v free) (Hfree : free <= FSSIZE).

Lemma dinode_ino i : let d := ino v i in
  dinode dev v layout i = Inode dev i 0 initsleeplock true (di_type d) (di_major d) (di_minor d) (di_nlink d) (di_size d) (di_addrs d).
Proof using. reflexivity. Qed.

(** The kernel's view of a file. *)
Lemma kernel_file i K I bs : file_in lab v free i (di_addrs (ino v i)) K I bs -> 0 <= di_size (ino v i) <= K * BSIZE -> I = (NDIRECT <? K) ->
  file_ok v layout (dinode dev v layout i) /\ has_blocks v (dinode dev v layout i).
Proof using HM Hfree.
  intros F Hs HI. set (A := di_addrs (ino v i)) in *. assert (0 < nmeta) by (consts; lia).
  assert (Ea : forall bn, addr_of v (dinode dev v layout i) bn = blk v A bn) by reflexivity.
  assert (Ei : ind_of (dinode dev v layout i) = ind A) by reflexivity.
  assert (Hb : forall bn, 0 <= bn < MAXFILE -> blk v A bn <> 0 -> 0 <= bn < K) by (intros bn Hbn H0; apply (fi_blk _ _ _ _ _ _ _ _ F) in H0; lia).
  split; split.
  - apply (fi_len _ _ _ _ _ _ _ _ F).
  - intros b [H0 Ho]. rewrite datastart_layout. change (sb_size layout) with FSSIZE. rewrite Ei in Ho.
    assert (Hr : nmeta <= b < free); [|split; [lia|rewrite HM by lia; lia]]. destruct Ho as [->|(bn & Hbn & <-)].
    + apply (fi_labi _ _ _ _ _ _ _ _ F). apply (fi_ind _ _ _ _ _ _ _ _ F). exact H0.
    + apply (fi_lab _ _ _ _ _ _ _ _ F). auto.
  - intros b1 b2 Hb1 Hb2. rewrite !Ea. intros E E0. apply (blk_apart _ _ _ _ _ _ _ _ _ _ F); auto. apply Hb; congruence.
  - rewrite Ei. intros H0 bn Hbn. rewrite Ea. intros E. apply (blk_not_ind _ _ _ _ _ _ _ _ bn F); [apply Hb; congruence|apply (fi_ind _ _ _ _ _ _ _ _ F); exact H0|exact E].
  - pose proof (fi_max _ _ _ _ _ _ _ _ F). change (i_size (dinode dev v layout i)) with (di_size (ino v i)). consts. lia.
  - intros o Ho. rewrite Ea. change (i_size (dinode dev v layout i)) with (di_size (ino v i)) in Ho. pose proof (fi_max _ _ _ _ _ _ _ _ F).
    apply (fi_blk _ _ _ _ _ _ _ _ F); consts; dlia.
Qed.

Lemma kernel_byte i K I bs o : file_in lab v free i (di_addrs (ino v i)) K I bs -> 0 <= o < K * BSIZE ->
  byte_at v (dinode dev v layout i) o = nth (Z.to_nat o) bs 0.
Proof using. intros F Ho. apply (fi_byte _ _ _ _ _ _ _ _ F o Ho). Qed.

Lemma kernel_contents i K I bs : file_in lab v free i (di_addrs (ino v i)) K I bs ->
  contents v (dinode dev v layout i) 0 (Z.of_nat (length bs)) = bs.
Proof using.
  intros F. pose proof (fi_fit _ _ _ _ _ _ _ _ F). apply list_eq. intros k. apply option_eq. intros b. rewrite contents_lookup, Z.add_0_l.
  destruct (bs !! k) as [b'|] eqn:E.
  - pose proof (lookup_lt_Some _ _ _ E). rewrite (kernel_byte i K I bs) by (auto; lia). rewrite Nat2Z.id, nth_lookup, E. simpl. split; [intros [_ ->]; reflexivity|intros [= ->]; split; [lia|reflexivity]].
  - apply lookup_ge_None in E. split; [lia|discriminate].
Qed.

End Kernel.

(** Entries of a directory whose bytes are those of [E], then zeros. *)
Lemma entries_bytes v i k m : forall E off, Forall (fun de => length de = 16%nat) E ->
  (forall j, 0 <= j < 16 * (Z.of_nat (length E) + Z.of_nat m) -> byte_at v i (off + j) = nth (Z.to_nat j) (concat E) 0) ->
  lookup_in (entries_from (length E + m) v i off) k = lookup_in E k.
Proof.
  assert (Hc : forall de off, length de = 16%nat -> (forall j, 0 <= j < 16 -> byte_at v i (off + j) = nth (Z.to_nat j) de 0) -> contents v i off DIRENT = de).
  { intros de off Hl Hb. apply list_eq. intros j. apply option_eq. intros b. rewrite contents_lookup. change DIRENT with 16. destruct (de !! j) as [b'|] eqn:Ej.
    - pose proof (lookup_lt_Some _ _ _ Ej). rewrite Hb by lia. rewrite Nat2Z.id, nth_lookup, Ej. simpl. split; [intros [_ ->]; reflexivity|intros [= ->]; split; [lia|reflexivity]].
    - apply lookup_ge_None in Ej. split; [lia|discriminate]. }
  induction E as [|de E IH]; intros off Hl Hb.
  - simpl in *. revert off Hb. clear Hl. induction m as [|m IHm]; intros off Hb; [reflexivity|]. rewrite entries_from_S. cbn [lookup_in].
    rewrite (Hc (replicate 16 0)); [|reflexivity|].
    + change (de_inum (replicate 16 0) =? 0) with true. cbv iota. apply IHm. intros j Hj. change DIRENT with 16. replace (off + 16 + j) with (off + (16 + j)) by lia. rewrite Hb by lia. destruct (Z.to_nat (16 + j)), (Z.to_nat j); reflexivity.
    + intros j Hj. rewrite Hb by lia. rewrite nth_lookup. destruct (replicate 16 0 !! _) eqn:Ej; [apply lookup_replicate in Ej as [-> _]|]; destruct (Z.to_nat j); reflexivity.
  - inversion_clear Hl as [|? ? Hde HE]. cbn [length] in *. rewrite Nat.add_succ_l, entries_from_S. cbn [concat] in Hb. cbn [lookup_in]. rewrite (Hc de); auto.
    + rewrite IH; auto. intros j Hj. change DIRENT with 16. replace (off + 16 + j) with (off + (16 + j)) by lia. rewrite Hb, app_nth2 by lia. f_equal. lia.
    + intros j Hj. rewrite Hb, app_nth1 by lia. reflexivity.
Qed.

Lemma dents_find names : forall i k n, 0 < i -> i + Z.of_nat (length names) < 2 ^ 16 -> NoDup (key <$> names) -> names !! k = Some n ->
  lookup_in (dents i names) (key n) = Some (i + Z.of_nat k).
Proof.
  induction names as [|m names IH]; intros i k n Hi Hl Hd Hk; [discriminate|]. rewrite fmap_cons in Hd. apply NoDup_cons in Hd as [Hm Hd].
  simpl length in Hl. cbn [dents lookup_in]. rewrite mk_dirent_inum, mk_dirent_name by lia. replace (i =? 0) with false by lia. destruct k as [|k]; simpl in Hk.
  - simplify_eq. rewrite bool_decide_eq_true_2 by reflexivity. f_equal. lia.
  - rewrite bool_decide_eq_false_2; [rewrite (IH (i + 1) k n) by (auto; lia); f_equal; lia|].
    intros E. apply Hm. rewrite <- E. apply list_elem_of_fmap. exists n. split; [reflexivity|]. eapply list_elem_of_lookup_2. exact Hk.
Qed.

Lemma dents_inums names : forall i de, 0 < i -> i + Z.of_nat (length names) < 2 ^ 16 -> de ∈ dents i names -> i <= de_inum de < i + Z.of_nat (length names).
Proof.
  induction names as [|m names IH]; intros i de Hi Hl Hde; cbn [dents] in Hde; [apply elem_of_nil in Hde; contradiction|]. simpl length in *.
  apply elem_of_cons in Hde as [->|Hde]; [rewrite mk_dirent_inum; lia|]. apply IH in Hde; lia.
Qed.

Lemma dents_16 names : forall i, Forall (fun de => length de = 16%nat) (dents i names).
Proof. induction names as [|n names IH]; intros i; cbn [dents]; constructor; auto using mk_dirent_length. Qed.

(** The image [mkfs] leaves. *)
Record finished (lab : Z -> Z * Z) (v : Z -> block) (free : Z) (root : list Z) (files : list (Z * list Z)) : Prop := {
  fn_mark : marked v free;
  fn_free : nmeta <= free <= FSSIZE;
  fn_head : forall b, 0 <= b < 33 -> v b = if b =? 1 then sb_block else fun _ => 0;
  fn_room : 1 + Z.of_nat (length files) < NINODES;
  fn_root : exists A, ino v ROOTINO = Dino T_DIR 0 0 1 (fills (Z.of_nat (length root)) * BSIZE) A /\ file_has lab v free ROOTINO A root;
  fn_file : forall k ty bs, files !! k = Some (ty, bs) -> exists A,
    ino v (2 + Z.of_nat k) = Dino ty 0 0 1 (Z.of_nat (length bs)) A /\ file_has lab v free (2 + Z.of_nat k) A bs;
  fn_rest : forall i, 0 <= i < NINODES -> i = 0 \/ 1 + Z.of_nat (length files) < i -> di_type (ino v i) = 0
}.

(** The last part of [main]. *)
Definition close_image : M mk unit :=
  let! din := rinode ROOTINO in
  let off := xint (di_size din) in
  let off := u32 ((off / BSIZE + 1) * BSIZE) in
  winode ROOTINO (di_set_size (xint off) din) ;;
  let! b := gets m_freeblock in
  balloc b.

Definition closed_dino (n : Z) (A : list Z) : dino := Dino T_DIR 0 0 1 ((n / BSIZE + 1) * BSIZE) A.
Definition closed_disk (v : Z -> block) (free n : Z) (A : list Z) : Z -> block :=
  upd (with_ino v ROOTINO (closed_dino n A)) 46 (mark (Z.to_nat free) 0 (fun _ => 0)).

Lemma ROOTINO_in : 0 <= ROOTINO < NINODES.
Proof. unfold ROOTINO. consts. lia. Qed.

Lemma close_steps lab s root files : image lab s ((T_DIR, root) :: files) -> let n := Z.of_nat (length root) in
  exists A, let v := closed_disk (m_disk s) (m_freeblock s) n A in
    close_image s = Ret tt (at_disk v s) /\ file_has lab v (m_freeblock s) ROOTINO A root /\ ino v ROOTINO = closed_dino n A /\
    (forall b, nmeta <= b -> v b = m_disk s b) /\ (forall i, 0 <= i < NINODES -> i <> ROOTINO -> ino v i = ino (m_disk s) i).
Proof.
  intros [I1 I2 I3 I4 I5 I6 I7 I8 I9 I10] n. pose proof I2 as [B1 B2 B3]. destruct (I9 0%nat T_DIR root eq_refl) as (A & E & Hf).
  change (1 + Z.of_nat 0) with ROOTINO in *. fold n in E. exists A. set (d := closed_dino n A). pose proof ROOTINO_in as H1.
  assert (Hn : 0 <= n <= MAXFILE * BSIZE) by (pose proof (fi_fit _ _ _ _ _ _ _ _ Hf); pose proof (fi_max _ _ _ _ _ _ _ _ Hf); unfold n in *; consts; lia).
  assert (Hd : dino_ok d).
  { pose proof (file_dino_ok _ _ _ _ _ T_DIR _ Hf ltac:(unfold T_DIR; lia) I7) as [D1 D2 D3 D4 D5 D6 D7]. split; auto. simpl. consts. dlia. }
  assert (Hv : forall b, nmeta <= b -> closed_disk (m_disk s) (m_freeblock s) n A b = m_disk s b).
  { intros b Hb. unfold closed_disk. rewrite upd_ne by (consts; lia). apply with_ino_data; assumption. }
  assert (Hino : forall i, 0 <= i < NINODES -> ino (closed_disk (m_disk s) (m_freeblock s) n A) i = ino (with_ino (m_disk s) ROOTINO d) i).
  { intros i Hi. destruct (IBLOCK_layout i Hi) as [_ Hr]. unfold ino, closed_disk. rewrite upd_ne by lia. reflexivity. }
  split; [|split; [eapply file_has_disk; eassumption|split; [rewrite Hino by exact H1; apply ino_same, Hd|split; [exact Hv|]]]].
  - unfold close_image. erewrite bind_ret_l by (apply rinode_run; assumption). rewrite E. cbv zeta. cbn [di_size]. rewrite (xint_id n) by (consts; lia).
    rewrite u32_small, xint_id by (consts; dlia). change (di_set_size _ _) with d.
    erewrite bind_ret_l by (apply winode_run; assumption). rewrite bind_gets. unfold balloc. mk_fields.
    replace (m_freeblock s <? BPB) with true by (change BPB with 8192; consts; lia). cbn [negb]. rewrite bind_gets. mk_fields. rewrite I1, layout_eq. cbn [sb_bmapstart].
    rewrite wsect_run; [reflexivity|exact B1|consts; lia].
  - intros i Hi Hne. rewrite Hino by exact Hi. apply ino_other; auto.
Qed.

Lemma close_run lab s root files : image lab s ((T_DIR, root) :: files) -> Z.of_nat (length root) mod BSIZE <> 0 ->
  exists s', close_image s = Ret tt s' /\ finished lab (m_disk s') (m_freeblock s') root files /\ m_freeblock s' = m_freeblock s /\ m_len s' = FSSIZE.
Proof.
  intros Im Hm. destruct (close_steps _ _ _ _ Im) as (A & E & Hf & Hroot & Hv & Hino). destruct Im as [I1 I2 I3 I4 I5 I6 I7 I8 I9 I10]. pose proof I2 as [B1 B2 B3].
  set (v2 := closed_disk _ _ _ _) in *. exists (at_disk v2 s). split; [exact E|]. split; [|split; [reflexivity|exact B1]]. simpl length in *. pose proof ROOTINO_in.
  split; mk_fields.
  - apply bitmap_marked. consts. lia.
  - consts. lia.
  - intros b Hb. unfold v2, closed_disk. rewrite upd_ne, with_ino_block by lia. auto.
  - lia.
  - exists A. split; [|exact Hf]. rewrite Hroot. unfold closed_dino. f_equal. unfold fills. consts. dlia.
  - intros k ty bs Hk. destruct (I9 (S k) ty bs Hk) as (A2 & E2 & Hf2). pose proof (lookup_lt_Some _ _ _ Hk). unfold ROOTINO in *.
    replace (1 + Z.of_nat (S k)) with (2 + Z.of_nat k) in * by lia. exists A2. rewrite Hino by lia. split; [exact E2|]. eapply file_has_disk; eassumption.
  - intros i Hi Ho. unfold ROOTINO in *. rewrite Hino by lia. apply I10; lia.
Qed.

(** When the entries of the root directory fill its blocks exactly, the size
    [main] gives it includes a block the directory does not have. *)
Lemma root_hole dev lab s root files : image lab s ((T_DIR, root) :: files) -> Z.of_nat (length root) mod BSIZE = 0 -> Z.of_nat (length root) < MAXFILE * BSIZE ->
  exists s', close_image s = Ret tt s' /\ ~ has_blocks (m_disk s') (dinode dev (m_disk s') layout ROOTINO).
Proof.
  intros Im Hm Hs. destruct (close_steps _ _ _ _ Im) as (A & E & Hf & Hroot & _). eexists. split; [exact E|]. mk_fields. intros [_ H].
  set (v2 := closed_disk _ _ _ _) in *. set (n := Z.of_nat (length root)) in *. assert (Hn : 0 <= n) by (unfold n; lia).
  apply (H n); [rewrite dinode_ino, Hroot; simpl; consts; dlia|]. rewrite dinode_ino, Hroot.
  change (blk v2 A (n / BSIZE) = 0). replace (n / BSIZE) with (fills n) by (unfold fills; consts; dlia). apply (blk_none _ _ _ _ _ _ _ _ Hf).
  fold n. unfold fills. consts. dlia.
Qed.

Lemma blank_image : exists s, (modify (set_sb layout) ;; modify (set_freeblock nmeta) ;; wipe (Z.to_nat FSSIZE) 0 ;; wsect 1 sb_block) start = Ret tt s /\
  image (fun _ => (0, 0)) s [].
Proof.
  rewrite !bind_modify. set (s0 := set_freeblock nmeta (set_sb layout start)).
  destruct (wipe_run (Z.to_nat FSSIZE) 0 s0) as (v & E & Hv); [lia|consts; lia|reflexivity|intros; lia|]. replace (0 + Z.of_nat (Z.to_nat FSSIZE)) with FSSIZE in * by reflexivity.
  erewrite bind_ret_l by exact E. rewrite wsect_run; [|reflexivity|consts; lia]. eexists. split; [reflexivity|].
  assert (Hz : forall b, 0 <= b < FSSIZE -> b <> 1 -> upd v 1 sb_block b = fun _ => 0) by (intros b Hb Hne; rewrite upd_ne by exact Hne; apply Hv, Hb).
  split; mk_fields; try reflexivity.
  - split; [reflexivity|reflexivity|]. intros b x Hb. mk_fields. change (m_freeblock _) with nmeta in Hb. rewrite Hz by (consts; lia). reflexivity.
  - constructor.
  - change nmeta with 47. consts. simpl. lia.
  - intros b Hb. unfold upd. case_test; [reflexivity|]. apply Hv. consts. lia.
  - intros k ty bs Hk. discriminate.
  - intros i Hi _. destruct (IBLOCK_layout i Hi) as [_ Hr]. unfold ino. rewrite Hz by (consts; lia). reflexivity.
Qed.

Section Correct.
Context (creates : list Z -> bool) (host : list Z -> option (list (list Z))).

Definition dot : list Z := [46].
Definition dotdot : list Z := [46; 46].
Definition root_entries (args : list (list Z)) : list (list Z) := mk_dirent ROOTINO dot :: mk_dirent ROOTINO dotdot :: dents 2 (name_of <$> args).

(** The blocks the files and the root directory need. *)
Definition needed (args : list (list Z)) : Z :=
  takes (fills (DIRENT * (2 + Z.of_nat (length args)))) + need (files_of host args).

Lemma after_root args : after host (mk_dirent ROOTINO dot ++ mk_dirent ROOTINO dotdot) [] args = (T_DIR, concat (root_entries args)) :: files_of host args.
Proof using. unfold after, root_entries. cbn [concat]. rewrite <- app_assoc. reflexivity. Qed.

Lemma root_length args : length (concat (root_entries args)) = (16 * (2 + length args))%nat.
Proof using. unfold root_entries. cbn [concat]. rewrite !length_app, !mk_dirent_length, dents_length, length_fmap. lia. Qed.

Lemma main_run img args : creates img = true -> Forall (fits host) args -> Z.of_nat (length args) + 1 < NINODES ->
  (2 + Z.of_nat (length args)) mod 64 <> 0 -> nmeta + needed args <= FSSIZE ->
  exists lab s, main creates host (img :: args) start = Ret tt s /\
    finished lab (m_disk s) (m_freeblock s) (concat (root_entries args)) (files_of host args) /\ m_freeblock s = nmeta + needed args /\ m_len s = FSSIZE.
Proof using.
  intros Hc Hf Hn Hm Hb. unfold main. rewrite Hc. cbn [negb]. fold sb_block.
  destruct blank_image as (s0 & E0 & I0). rewrite !bind_modify in E0 |- *. apply bind_inv in E0 as ([] & s1 & Ew & E0). erewrite bind_ret_l by exact Ew. erewrite bind_ret_l by exact E0. clear Ew E0.
  destruct (ialloc_run _ s0 [] T_DIR I0) as (s2 & E2 & I2); [reflexivity|unfold T_DIR; lia|]. erewrite bind_ret_l by exact E2. clear E2. cbn [app] in I2.
  change (1 + Z.of_nat (length [])) with ROOTINO. change (ROOTINO =? ROOTINO) with true. cbn [negb]. change (xshort ROOTINO) with ROOTINO.
  destruct (iappend_run _ s2 _ 0 T_DIR [] (mk_dirent ROOTINO dot) I2 eq_refl) as (lab3 & s3 & E3 & I3); [vm_compute; congruence|vm_compute; congruence|].
  erewrite bind_ret_l by exact E3. clear E3.
  destruct (iappend_run _ s3 _ 0 T_DIR _ (mk_dirent ROOTINO dotdot) I3 eq_refl) as (lab4 & s4 & E4 & I4); [vm_compute; congruence|vm_compute; congruence|].
  erewrite bind_ret_l by exact E4. clear E4.
  assert (EN : need (after host (mk_dirent ROOTINO dot ++ mk_dirent ROOTINO dotdot) [] args) = needed args).
  { rewrite after_root, need_cons, root_length. unfold needed. do 3 f_equal. change DIRENT with 16. lia. }
  destruct (add_files_run host args lab4 s4 (mk_dirent ROOTINO dot ++ mk_dirent ROOTINO dotdot) []) as (lab5 & s5 & E5 & I5); [exact I4|exact Hf|reflexivity|simpl; lia|lia|].
  erewrite bind_ret_l by exact E5. rewrite after_root in I5.
  destruct (close_run lab5 s5 _ _ I5) as (s6 & E6 & F6 & Hfr & Hl6); [rewrite root_length; consts; dlia|].
  exists lab5, s6. split; [exact E6|]. split; [exact F6|]. split; [|exact Hl6]. rewrite Hfr, (ig_need _ _ _ I5), <- after_root, EN. reflexivity.
Qed.

End Correct.

(** ** A finished image is one the kernel accepts *)

Section Finished.
Context (host : list Z -> option (list (list Z))) (dev : Z) (lab : Z -> Z * Z) (v : Z -> block) (free : Z) (args : list (list Z)).
Context (Fin : finished lab v free (concat (root_entries args)) (files_of host args)).

#[local] Abbreviation N := (Z.of_nat (length args)).

Lemma args_room : 1 + N < NINODES.
Proof using Fin. pose proof (fn_room _ _ _ _ _ Fin) as H. unfold files_of in H. rewrite length_fmap in H. exact H. Qed.

(** Every inode in use is the root or one of the files. *)
Lemma inode_cases i : 0 <= i < NINODES -> di_type (ino v i) <> 0 -> i = ROOTINO \/ exists k arg, i = 2 + Z.of_nat k /\ args !! k = Some arg.
Proof using Fin.
  intros Hi Ht. destruct (decide (i = ROOTINO)) as [|Hne]; [auto|right]. assert (Hr : 2 <= i < 2 + N).
  { pose proof (fn_rest _ _ _ _ _ Fin i Hi) as H. unfold files_of in H. rewrite length_fmap in H. unfold ROOTINO in Hne. destruct (decide (2 <= i < 2 + N)); [assumption|]. exfalso. apply Ht, H. lia. }
  destruct (args !! Z.to_nat (i - 2)) as [arg|] eqn:E; [|apply lookup_ge_None in E; lia]. exists (Z.to_nat (i - 2)), arg. split; [lia|exact E].
Qed.

Lemma file_inode k arg : args !! k = Some arg -> exists A, let i := 2 + Z.of_nat k in
  ino v i = Dino T_FILE 0 0 1 (Z.of_nat (length (data_of host arg))) A /\ file_has lab v free i A (data_of host arg).
Proof using Fin. intros Hk. apply (fn_file _ _ _ _ _ Fin). unfold files_of. rewrite list_lookup_fmap, Hk. reflexivity. Qed.

Lemma used_in i : 0 <= i < NINODES -> di_type (ino v i) <> 0 -> exists bs, let K := fills (Z.of_nat (length bs)) in
  file_in lab v free i (di_addrs (ino v i)) K (NDIRECT <? K) bs /\ 0 <= di_size (ino v i) <= K * BSIZE /\ di_nlink (ino v i) = 1 /\
  (di_type (ino v i) = T_DIR -> i = ROOTINO).
Proof using Fin.
  intros Hi Ht. destruct (inode_cases i Hi Ht) as [->|(k & arg & -> & Hk)].
  - destruct (fn_root _ _ _ _ _ Fin) as (A & E & F). exists (concat (root_entries args)). rewrite E. cbn [di_addrs di_size di_nlink di_type].
    split; [exact F|]. split; [unfold fills; consts; dlia|auto].
  - destruct (file_inode k arg Hk) as (A & E & F). exists (data_of host arg). rewrite E. cbn [di_addrs di_size di_nlink di_type].
    split; [exact F|]. split; [unfold fills; consts; dlia|]. split; [reflexivity|discriminate].
Qed.

Lemma live_type i : live dev v layout i <-> 0 <= i < NINODES /\ di_type (ino v i) <> 0.
Proof using. reflexivity. Qed.

Lemma file_linked i : ROOTINO <= i < 2 + N -> linked dev v layout i.
Proof using Fin.
  intros Hi. pose proof args_room as Hr. unfold linked, live, inode_in. change (sb_ninodes layout) with NINODES. rewrite dinode_ino. cbn [i_type i_nlink].
  unfold ROOTINO in Hi. destruct (decide (i = 1)) as [->|Hne].
  - destruct (fn_root _ _ _ _ _ Fin) as (A & E & _). unfold ROOTINO in E. rewrite E. cbn [di_type di_nlink]. unfold T_DIR. consts. lia.
  - destruct (args !! Z.to_nat (i - 2)) as [arg|] eqn:Ea; [|apply lookup_ge_None in Ea; lia]. destruct (file_inode _ arg Ea) as (A & E & _).
    replace (2 + Z.of_nat (Z.to_nat (i - 2))) with i in E by lia. rewrite E. cbn [di_type di_nlink]. unfold T_FILE. lia.
Qed.

Lemma root_lookup name : dir_get v (dinode dev v layout ROOTINO) name = lookup_in (root_entries args) (key name).
Proof using Fin.
  destruct (fn_root _ _ _ _ _ Fin) as (A & E & F). rewrite dir_get_entries. unfold entries. set (E0 := root_entries args) in *.
  set (n := Z.of_nat (length (concat E0))) in *. assert (Hn : n = 16 * Z.of_nat (length E0)).
  { unfold n, E0. rewrite root_length. unfold root_entries. simpl length. assert (H : forall i l, length (dents i l) = length l) by (intros i l; revert i; induction l; intros; simpl; auto).
    rewrite H, length_fmap. lia. }
  assert (Ei : i_size (dinode dev v layout ROOTINO) = fills n * BSIZE) by (rewrite dinode_ino, E; reflexivity).
  rewrite Ei. set (m := (Z.to_nat (fills n * BSIZE / DIRENT) - length E0)%nat).
  assert (Hle : Z.of_nat (length E0) <= fills n * BSIZE / DIRENT) by (unfold fills; change DIRENT with 16; consts; dlia).
  replace (Z.to_nat (fills n * BSIZE / DIRENT)) with (length E0 + m)%nat by lia. apply entries_bytes.
  - unfold E0, root_entries. constructor; [apply mk_dirent_length|]. constructor; [apply mk_dirent_length|apply dents_16].
  - intros j Hj. rewrite Z.add_0_l. unfold file_has in F. fold n in F. apply (kernel_byte dev v free lab ROOTINO _ _ _ _ ltac:(rewrite E; exact F)).
    unfold m in Hj. change DIRENT with 16 in *. unfold fills in *. consts. dlia.
Qed.

Lemma finished_image : image_ok dev v layout.
Proof using Fin.
  pose proof (fn_mark _ _ _ _ _ Fin) as HM. pose proof (fn_free _ _ _ _ _ Fin) as Hfr. pose proof args_room as Hr. split.
  - intros i [Hi Ht]%live_type. destruct (used_in i Hi Ht) as (bs & F & Hs & _). apply (kernel_file dev v free lab HM ltac:(lia) i _ _ bs F Hs eq_refl).
  - intros i [Hi Ht]%live_type Hd. destruct (used_in i Hi Ht) as (bs & F & Hs & _ & Hroot). rewrite (Hroot Hd) in *. destruct (fn_root _ _ _ _ _ Fin) as (A & E & _).
    rewrite dinode_ino, E. cbn [i_size di_size]. change DIRENT with 16. consts. dlia.
  - intros i name j [[Hi Ht]%live_type _] Hd Hg. destruct (used_in i Hi Ht) as (bs & F & Hs & _ & Hroot). rewrite (Hroot Hd), root_lookup in Hg.
    apply lookup_in_entry in Hg as (de & Hde & <- & _). apply file_linked. unfold root_entries in Hde. apply elem_of_cons in Hde as [->|Hde]; [rewrite mk_dirent_inum; unfold ROOTINO; lia|].
    apply elem_of_cons in Hde as [->|Hde]; [rewrite mk_dirent_inum; unfold ROOTINO; lia|]. apply dents_inums in Hde; rewrite ?length_fmap in *; unfold ROOTINO; consts; lia.
  - apply file_linked. unfold ROOTINO. lia.
Qed.

(** No block is in two files. *)
Lemma finished_apart i j b : live dev v layout i -> live dev v layout j -> owned v (dinode dev v layout i) b -> owned v (dinode dev v layout j) b -> i = j.
Proof using Fin.
  assert (Hl : forall i, live dev v layout i -> owned v (dinode dev v layout i) b -> fst (lab b) = i).
  { clear i j. intros i [Hi Ht]%live_type [H0 Ho]. destruct (used_in i Hi Ht) as (bs & F & _). destruct Ho as [->|(bn & Hbn & <-)].
    - change (ind (di_addrs (ino v i)) <> 0) in H0. apply (fi_ind _ _ _ _ _ _ _ _ F) in H0. destruct (fi_labi _ _ _ _ _ _ _ _ F H0) as [_ E].
      change (fst (lab (ind (di_addrs (ino v i)))) = i). rewrite E. reflexivity.
    - change (blk v (di_addrs (ino v i)) bn <> 0) in H0. apply (fi_blk _ _ _ _ _ _ _ _ F bn Hbn) in H0. destruct (fi_lab _ _ _ _ _ _ _ _ F bn ltac:(lia)) as [_ E].
      change (fst (lab (blk v (di_addrs (ino v i)) bn)) = i). rewrite E. reflexivity. }
  intros Hi Hj Oi Oj. rewrite <- (Hl i Hi Oi), <- (Hl j Hj Oj). reflexivity.
Qed.

Lemma finished_file k arg : NoDup (key <$> dot :: dotdot :: (name_of <$> args)) -> args !! k = Some arg -> let i := dinode dev v layout (2 + Z.of_nat k) in
  dir_get v (dinode dev v layout ROOTINO) (name_of arg) = Some (2 + Z.of_nat k) /\
  i_type i = T_FILE /\ i_nlink i = 1 /\ i_size i = Z.of_nat (length (data_of host arg)) /\ contents v i 0 (i_size i) = data_of host arg.
Proof using Fin.
  intros Hd Hk i. pose proof args_room as Hr. destruct (file_inode k arg Hk) as (A & E & F). split.
  - rewrite root_lookup. assert (Hn : (name_of <$> args) !! k = Some (name_of arg)) by (rewrite list_lookup_fmap, Hk; reflexivity).
    rewrite !fmap_cons in Hd. apply NoDup_cons in Hd as [H1 Hd]. apply NoDup_cons in Hd as [H2 Hd].
    assert (Hin : key (name_of arg) ∈ key <$> (name_of <$> args)) by (apply list_elem_of_fmap; eexists; split; [reflexivity|eapply list_elem_of_lookup_2; exact Hn]).
    unfold root_entries. cbn [lookup_in]. rewrite !mk_dirent_inum, !mk_dirent_name by (unfold ROOTINO; lia). change (ROOTINO =? 0) with false. cbv iota.
    rewrite !bool_decide_eq_false_2; [|intros e; apply H2; rewrite <- e; exact Hin|intros e; apply H1; rewrite <- e; right; exact Hin].
    apply dents_find; auto; [lia|rewrite length_fmap; consts; lia].
  - assert (Es : i_size i = Z.of_nat (length (data_of host arg))) by (unfold i; rewrite dinode_ino, E; reflexivity).
    split_and!; [unfold i; rewrite dinode_ino, E; reflexivity ..|exact Es|]. rewrite Es. apply (kernel_contents dev v free lab (2 + Z.of_nat k) _ _ _ ltac:(rewrite E; exact F)).
Qed.

End Finished.

(** C6. [mkfs] builds the file system the kernel expects.  Given files whose
    names are short, distinct and without a slash, that are not too many and
    fit the disk, and a root directory that does not exactly fill its blocks,
    it ends normally and leaves [FSSIZE] sectors that have: a superblock with
    the kernel's magic number and a sound layout; an empty log; exactly the
    allocated blocks marked in the bitmap, the blocks before the data among
    them; a tree that satisfies the kernel's invariant on inodes, directories
    and links, in which no block belongs to two files; and every file under
    its name in the root directory, with its contents. *)
Theorem mkfs_correct (creates : list Z -> bool) (host : list Z -> option (list (list Z))) (dev : Z) (img : list Z) (args : list (list Z)) :
  creates img = true -> Forall (fits host) args -> NoDup (key <$> dot :: dotdot :: (name_of <$> args)) ->
  Z.of_nat (length args) + 1 < NINODES -> (2 + Z.of_nat (length args)) mod 64 <> 0 -> nmeta + needed host args <= FSSIZE ->
  exists s, main creates host (img :: args) start = Ret tt s /\ m_len s = FSSIZE /\
    let v := m_disk s in let sb := get_sb (v 1) in
    sb_magic sb = FSMAGIC /\ sb_size sb = FSSIZE /\ sb_ok sb /\
    load (v (sb_logstart sb)) 0 4 = 0 /\
    (forall b, 0 <= b < FSSIZE -> used v sb b = (b <? nmeta + needed host args)) /\ reserved v sb /\
    image_ok dev v sb /\
    (forall i j b, live dev v sb i -> live dev v sb j -> owned v (dinode dev v sb i) b -> owned v (dinode dev v sb j) b -> i = j) /\
    forall k arg, args !! k = Some arg -> let i := dinode dev v sb (2 + Z.of_nat k) in
      dir_get v (dinode dev v sb ROOTINO) (name_of arg) = Some (2 + Z.of_nat k) /\
      i_type i = T_FILE /\ i_nlink i = 1 /\ i_size i = Z.of_nat (length (data_of host arg)) /\ contents v i 0 (i_size i) = data_of host arg.
Proof.
  intros Hc Hf Hd Hn Hm Hb. destruct (main_run creates host img args Hc Hf Hn Hm Hb) as (lab & s & E & Fin & Hfr & Hl).
  exists s. split; [exact E|]. split; [exact Hl|]. cbv zeta. pose proof (fn_head _ _ _ _ _ Fin) as Hh. pose proof (fn_mark _ _ _ _ _ Fin) as HM.
  pose proof (fn_free _ _ _ _ _ Fin) as Hrange. rewrite Hfr in *.
  rewrite (Hh 1 ltac:(lia)). cbn [Z.eqb Pos.eqb]. rewrite get_sb_block. change (sb_logstart layout) with 2. rewrite (Hh 2 ltac:(lia)). cbn [Z.eqb Pos.eqb].
  split_and!; try reflexivity; try exact layout_ok.
  - exact HM.
  - intros b Hr. rewrite datastart_layout in Hr. rewrite HM by (consts; lia). lia.
  - eapply finished_image. exact Fin.
  - intros i j b. eapply finished_apart. exact Fin.
  - intros k arg. eapply finished_file; eassumption.
Qed.

Module ExampleMkfs.

(** "user/_sh", which [read] delivers in two pieces, and "README". *)
Definition sh_arg : list Z := USER ++ [95; 115; 104].
Definition readme_arg : list Z := [82; 69; 65; 68; 77; 69].
Definition ex_host (arg : list Z) : option (list (list Z)) :=
  if bool_decide (arg = sh_arg) then Some [[127; 69; 76; 70]; [2; 1]] else if bool_decide (arg = readme_arg) then Some [[104; 105; 10]] else None.

Lemma mkfs_correct_witness : exists s, main (fun _ => true) ex_host [[102; 115]; sh_arg; readme_arg] start = Ret tt s /\ m_len s = FSSIZE /\
  let v := m_disk s in let sb := get_sb (v 1) in
  sb_magic sb = FSMAGIC /\ sb_size sb = FSSIZE /\ sb_ok sb /\ load (v (sb_logstart sb)) 0 4 = 0 /\
  (forall b, 0 <= b < FSSIZE -> used v sb b = (b <? nmeta + needed ex_host [sh_arg; readme_arg])) /\ reserved v sb /\ image_ok 1 v sb /\
  (forall i j b, live 1 v sb i -> live 1 v sb j -> owned v (dinode 1 v sb i) b -> owned v (dinode 1 v sb j) b -> i = j) /\
  forall k arg, [sh_arg; readme_arg] !! k = Some arg -> let i := dinode 1 v sb (2 + Z.of_nat k) in
    dir_get v (dinode 1 v sb ROOTINO) (name_of arg) = Some (2 + Z.of_nat k) /\
    i_type i = T_FILE /\ i_nlink i = 1 /\ i_size i = Z.of_nat (length (data_of ex_host arg)) /\ contents v i 0 (i_size i) = data_of ex_host arg.
Proof.
  apply (mkfs_correct (fun _ => true) ex_host 1 [102; 115] [sh_arg; readme_arg]).
  - reflexivity.
  - assert (Hf : forall arg, arg = sh_arg \/ arg = readme_arg -> fits ex_host arg).
    { intros arg Ha. destruct Ha as [->| ->]; (split; [refine (bool_decide_unpack _ _); vm_compute; exact I|eexists; vm_compute; reflexivity|vm_compute; congruence ..]). }
    repeat (apply Forall_cons_2; [apply Hf; auto|]). constructor.
  - refine (bool_decide_unpack _ _). vm_compute. exact I.
  - reflexivity.
  - vm_compute. congruence.
  - vm_compute. congruence.
Defined.

End ExampleMkfs.
