(* ===== verification/Sysfile.v ===== *)
(** * File system calls

    [kernel/sysfile.c], with the access to system call arguments of
    [kernel/syscall.c].  The arguments are the registers [k_args]; path names
    are copied in from user memory.  A system call returns its result; the
    trap handler stores it. *)

From S2P Require Import Prelude Sleeplock Block Log Txn UserMem Fs Pipe File Fcntl.

Definition MAXPATH : Z := 128.
Definition dot : list Z := [46].
Definition dotdot : list Z := [46; 46].

Section Sysfile.
Context {T U D : Type} `{TX : Txn T} `{TC : TxnCtl T} `{UM : UserMem U} `{UP : UserProc U}.
Context (devsw : Z -> devops (D * U)) (stack : list Z) (wakeups : nat).

(** ** Arguments *)

Definition fetchaddr (addr : Z) : M (kern T U D) (option Z) :=
  let! sz := gets (fun s => user_sz (f_user (k_fs s))) in
  if (sz <=? addr) || (sz <? u64 (addr + 8)) then ret None else
  let! r := zoom proc_user (copyin_bytes true addr 8) in
  ret (match r with Some bs => Some (load (write_bytes (fun _ => 0) 0 bs) 0 8) | None => None end).

(** The string, whose length is the result in C. *)
Definition fetchstr (addr max : Z) : M (kern T U D) (option (list Z)) :=
  zoom proc_user (copyin_str addr max).

Definition argraw (n : Z) : M (kern T U D) Z :=
  if (0 <=? n) && (n <=? 5) then gets (fun s => k_args s n) else panic "argraw".
Definition argint (n : Z) : M (kern T U D) Z := let! a := argraw n in ret (i32 a).
Definition argaddr (n : Z) : M (kern T U D) Z := argraw n.
Definition argstr (n max : Z) : M (kern T U D) (option (list Z)) :=
  let! addr := argaddr n in fetchstr addr max.

(** The descriptor and the file. *)
Definition argfd (n : Z) : M (kern T U D) (option (Z * Z)) :=
  let! fd := argint n in
  if (fd <? 0) || (NOFILE <=? fd) then ret None else
  let! f := gets (fun s => k_ofile s fd) in
  ret (if f =? NULL then None else Some (fd, f)).

Fixpoint fdalloc_scan (n : nat) (ofile : Z -> Z) (fd : Z) : option Z :=
  match n with
  | O => None
  | S n => if ofile fd =? NULL then Some fd else fdalloc_scan n ofile (fd + 1)
  end.

Definition fdalloc (f : Z) : M (kern T U D) Z :=
  let! ofile := gets k_ofile in
  match fdalloc_scan (Z.to_nat NOFILE) ofile 0 with
  | Some fd => modify (set_ofile fd f) ;; ret fd
  | None => ret (-1)
  end.

(** ** Descriptors *)

Definition sys_dup : M (kern T U D) Z :=
  let! a := argfd 0 in
  match a with
  | None => ret (-1)
  | Some (_, f) =>
      let! fd := fdalloc f in
      if fd <? 0 then ret (-1) else
      filedup f ;;
      ret fd
  end.

Definition sys_read : M (kern T U D) Z :=
  let! p := argaddr 1 in
  let! n := argint 2 in
  let! a := argfd 0 in
  match a with
  | None => ret (-1)
  | Some (_, f) => fileread devsw wakeups f p n
  end.

Definition sys_write : M (kern T U D) Z :=
  let! p := argaddr 1 in
  let! n := argint 2 in
  let! a := argfd 0 in
  match a with
  | None => ret (-1)
  | Some (_, f) => filewrite devsw wakeups f p n
  end.

Definition sys_close : M (kern T U D) Z :=
  let! a := argfd 0 in
  match a with
  | None => ret (-1)
  | Some (fd, f) =>
      modify (set_ofile fd NULL) ;;
      fileclose wakeups f ;;
      ret 0
  end.

Definition sys_fstat : M (kern T U D) Z :=
  let! st := argaddr 1 in
  let! a := argfd 0 in
  match a with
  | None => ret (-1)
  | Some (_, f) => filestat stack wakeups f st
  end.

(** ** Names *)

Definition add_nlink (d : Z) (i : inode) : inode := with_nlink (i16 (i_nlink i + d)) i.

Definition link_bad (ip : Z) : M (kern T U D) Z :=
  zoom fs_of (ilock wakeups ip ;; modify (set_inode ip (add_nlink (-1))) ;; iupdate ip ;; iunlockput wakeups ip) ;;
  end_op ;;
  ret (-1).

Definition sys_link : M (kern T U D) Z :=
  let! old := argstr 0 MAXPATH in
  match old with None => ret (-1) | Some old =>
  let! new := argstr 1 MAXPATH in
  match new with None => ret (-1) | Some new =>
    begin_op ;;
    let! ip := zoom fs_of (namei wakeups old) in
    if ip =? NULL then end_op ;; ret (-1) else
    zoom fs_of (ilock wakeups ip) ;;
    let! i := gets (fun s => f_inode (k_fs s) ip) in
    if i_type i =? T_DIR then zoom fs_of (iunlockput wakeups ip) ;; end_op ;; ret (-1) else
    zoom fs_of (modify (set_inode ip (add_nlink 1)) ;; iupdate ip ;; iunlock ip) ;;
    let! (dp, name) := zoom fs_of (nameiparent wakeups new) in
    if dp =? NULL then link_bad ip else
    zoom fs_of (ilock wakeups dp) ;;
    let! (i, d) := gets (fun s => (f_inode (k_fs s) ip, f_inode (k_fs s) dp)) in
    let! r := (if negb (i_dev d =? i_dev i) then ret (-1) else zoom fs_of (dirlink wakeups dp name (i_inum i))) in
    if r <? 0 then zoom fs_of (iunlockput wakeups dp) ;; link_bad ip else
    zoom fs_of (iunlockput wakeups dp) ;;
    zoom fs_of (iput wakeups ip) ;;
    end_op ;;
    ret 0
  end end.

Fixpoint isdirempty_loop (fuel : nat) (dp off : Z) : M (fs T U) bool :=
  match fuel with
  | O => nofuel
  | S fuel =>
      let! x := get_inode dp in
      if off <? i_size x then
        let! (r, de) := readi_local dp off DIRENT in
        if negb (r =? DIRENT) then panic "isdirempty: readi"
        else if negb (de_inum de =? 0) then ret false
        else isdirempty_loop fuel dp (off + DIRENT)
      else ret true
  end.

Definition isdirempty (dp : Z) : M (fs T U) bool :=
  let! x := get_inode dp in
  isdirempty_loop (Z.to_nat (i_size x / DIRENT + 2)) dp (2 * DIRENT).

Definition unlink_bad (dp : Z) : M (kern T U D) Z :=
  zoom fs_of (iunlockput wakeups dp) ;; end_op ;; ret (-1).

Definition sys_unlink : M (kern T U D) Z :=
  let! path := argstr 0 MAXPATH in
  match path with None => ret (-1) | Some path =>
    begin_op ;;
    let! (dp, name) := zoom fs_of (nameiparent wakeups path) in
    if dp =? NULL then end_op ;; ret (-1) else
    zoom fs_of (ilock wakeups dp) ;;
    if (namecmp name dot =? 0) || (namecmp name dotdot =? 0) then unlink_bad dp else
    let! (ip, off) := zoom fs_of (dirlookup dp name) in
    if ip =? NULL then unlink_bad dp else
    zoom fs_of (ilock wakeups ip) ;;
    let! i := gets (fun s => f_inode (k_fs s) ip) in
    if i_nlink i <? 1 then panic "unlink: nlink < 1" else
    let! full := (if i_type i =? T_DIR then let! e := zoom fs_of (isdirempty ip) in ret (negb e) else ret false) in
    if full : bool then zoom fs_of (iunlockput wakeups ip) ;; unlink_bad dp else
    let! r := zoom fs_of (writei_local dp (replicate (Z.to_nat DIRENT) 0) off) in
    if negb (r =? DIRENT) then panic "unlink: writei" else
    when (i_type i =? T_DIR) (zoom fs_of (modify (set_inode dp (add_nlink (-1))) ;; iupdate dp)) ;;
    zoom fs_of (iunlockput wakeups dp) ;;
    zoom fs_of (modify (set_inode ip (add_nlink (-1))) ;; iupdate ip ;; iunlockput wakeups ip) ;;
    end_op ;;
    ret 0
  end.

(** The inode, locked, or NULL. *)
Definition create_fail (ip dp : Z) : M (fs T U) Z :=
  modify (set_inode ip (with_nlink 0)) ;;
  iupdate ip ;;
  iunlockput wakeups ip ;;
  iunlockput wakeups dp ;;
  ret NULL.

Definition create (path : list Z) (type major minor : Z) : M (fs T U) Z :=
  let! (dp, name) := nameiparent wakeups path in
  if dp =? NULL then ret NULL else
  ilock wakeups dp ;;
  let! (ip, _) := dirlookup dp name in
  if negb (ip =? NULL) then
    iunlockput wakeups dp ;;
    ilock wakeups ip ;;
    let! i := get_inode ip in
    if (type =? T_FILE) && ((i_type i =? T_FILE) || (i_type i =? T_DEVICE)) then ret ip
    else iunlockput wakeups ip ;; ret NULL
  else
  let! d := get_inode dp in
  let! ip := ialloc (i_dev d) type in
  if ip =? NULL then iunlockput wakeups dp ;; ret NULL else
  ilock wakeups ip ;;
  modify (set_inode ip (with_majmin major minor)) ;;
  modify (set_inode ip (with_nlink 1)) ;;
  iupdate ip ;;
  let! i := get_inode ip in
  let! failed :=
    (if type =? T_DIR then
       let! r := dirlink wakeups ip dot (i_inum i) in
       if r <? 0 then ret true else
       let! d := get_inode dp in
       let! r := dirlink wakeups ip dotdot (i_inum d) in
       ret (r <? 0)
     else ret false) in
  if failed : bool then create_fail ip dp else
  let! r := dirlink wakeups dp name (i_inum i) in
  if r <? 0 then create_fail ip dp else
  when (type =? T_DIR) (modify (set_inode dp (add_nlink 1)) ;; iupdate dp) ;;
  iunlockput wakeups dp ;;
  ret ip.

Definition open_fail (ip : Z) : M (kern T U D) Z :=
  zoom fs_of (iunlockput wakeups ip) ;; end_op ;; ret (-1).

(** The fields of a file just opened; [off] keeps its value for a device, and
    [major] for a file. *)
Definition open_file (i : inode) (ip omode : Z) (f : file) : file :=
  let device := i_type i =? T_DEVICE in
  let wronly := negb (Z.land omode O_WRONLY =? 0) in
  let rdwr := negb (Z.land omode O_RDWR =? 0) in
  File (if device then FD_DEVICE else FD_INODE) (fi_ref f) (negb wronly) (wronly || rdwr) (fi_pipe f) ip
       (if device then fi_off f else 0) (if device then i_major i else fi_major f).

Definition sys_open : M (kern T U D) Z :=
  let! omode := argint 1 in
  let! path := argstr 0 MAXPATH in
  match path with None => ret (-1) | Some path =>
    begin_op ;;
    (* the locked inode, or NULL after an error *)
    let! ip :=
      (if negb (Z.land omode O_CREATE =? 0) then zoom fs_of (create path T_FILE 0 0)
       else
         let! ip := zoom fs_of (namei wakeups path) in
         if ip =? NULL then ret NULL else
         zoom fs_of (ilock wakeups ip) ;;
         let! i := gets (fun s => f_inode (k_fs s) ip) in
         if (i_type i =? T_DIR) && negb (omode =? O_RDONLY) then zoom fs_of (iunlockput wakeups ip) ;; ret NULL
         else ret ip) in
    if ip =? NULL then end_op ;; ret (-1) else
    let! i := gets (fun s => f_inode (k_fs s) ip) in
    if (i_type i =? T_DEVICE) && ((i_major i <? 0) || (NDEV <=? i_major i)) then open_fail ip else
    let! f := filealloc in
    if f =? NULL then open_fail ip else
    let! fd := fdalloc f in
    if fd <? 0 then fileclose wakeups f ;; open_fail ip else
    modify (set_file f (open_file i ip omode)) ;;
    when (negb (Z.land omode O_TRUNC =? 0) && (i_type i =? T_FILE)) (zoom fs_of (itrunc ip)) ;;
    zoom fs_of (iunlock ip) ;;
    end_op ;;
    ret fd
  end.

Definition sys_mkdir : M (kern T U D) Z :=
  begin_op ;;
  let! path := argstr 0 MAXPATH in
  let! ip := (match path with None => ret NULL | Some path => zoom fs_of (create path T_DIR 0 0) end) in
  if ip =? NULL then end_op ;; ret (-1) else
  zoom fs_of (iunlockput wakeups ip) ;;
  end_op ;;
  ret 0.

Definition sys_mknod : M (kern T U D) Z :=
  begin_op ;;
  let! major := argint 1 in
  let! minor := argint 2 in
  let! path := argstr 0 MAXPATH in
  let! ip := (match path with None => ret NULL | Some path => zoom fs_of (create path T_DEVICE (i16 major) (i16 minor)) end) in
  if ip =? NULL then end_op ;; ret (-1) else
  zoom fs_of (iunlockput wakeups ip) ;;
  end_op ;;
  ret 0.

Definition set_cwd (ip : Z) (s : fs T U) : fs T U :=
  FS (f_txn s) (f_sb s) (f_itlock s) (f_inode s) ip (f_pid s) (f_user s) (f_console s).

Definition sys_chdir : M (kern T U D) Z :=
  begin_op ;;
  let! path := argstr 0 MAXPATH in
  let! ip := (match path with None => ret NULL | Some path => zoom fs_of (namei wakeups path) end) in
  if ip =? NULL then end_op ;; ret (-1) else
  zoom fs_of (ilock wakeups ip) ;;
  let! i := gets (fun s => f_inode (k_fs s) ip) in
  if negb (i_type i =? T_DIR) then zoom fs_of (iunlockput wakeups ip) ;; end_op ;; ret (-1) else
  zoom fs_of (iunlock ip) ;;
  let! cwd := gets (fun s => f_cwd (k_fs s)) in
  zoom fs_of (iput wakeups cwd) ;;
  end_op ;;
  zoom fs_of (modify (set_cwd ip)) ;;
  ret 0.

(** ** Pipes *)

Definition pipe_fail (rf wf : Z) : M (kern T U D) Z :=
  fileclose wakeups rf ;; fileclose wakeups wf ;; ret (-1).

Definition sys_pipe : M (kern T U D) Z :=
  let! fdarray := argaddr 0 in
  let! p := pipealloc wakeups in
  match p with None => ret (-1) | Some (rf, wf) =>
    let! fd0 := fdalloc rf in
    if fd0 <? 0 then pipe_fail rf wf else
    let! fd1 := fdalloc wf in
    if fd1 <? 0 then modify (set_ofile fd0 NULL) ;; pipe_fail rf wf else
    let! ok := zoom proc_user (copyout_bytes true fdarray (le_bytes 4 fd0)) in
    let! ok := (if ok : bool then zoom proc_user (copyout_bytes true (u64 (fdarray + 4)) (le_bytes 4 fd1)) else ret false) in
    if negb ok then
      modify (set_ofile fd0 NULL) ;;
      modify (set_ofile fd1 NULL) ;;
      pipe_fail rf wf
    else ret 0
  end.
End Sysfile.
