(* ===== verification/SysfileSpec.v ===== *)
(** * What the file system calls promise

    Descriptors and reference counts: whatever the calls do in the file
    system, the reference count of every open file stays the number of
    descriptors that name it. *)

From S2P Require Import Prelude Sleeplock Block Log Txn TxnOps UserMem Fs FsSpec Pipe File FileSpec Sysfile Fcntl FsPath.

Section Descriptors.
Context {T U D : Type} `{TX : Txn T} `{TC : TxnCtl T} `{UM : UserMem U} `{UP : UserProc U}.
Context (devsw : Z -> devops (D * U)) (stack : list Z) (wakeups : nat).
Implicit Types s : kern T U D.

(** How many descriptors of the process name file [f]. *)
Definition refs (s : kern T U D) (f : Z) : Z :=
  Z.of_nat (length (filter (fun fd => k_ofile s fd = f) (seqZ 0 NOFILE))).

(** Every reference to an open file is a descriptor of this process or one of
    the [others], held elsewhere. *)
Record fds_ok (others : Z -> Z) (s : kern T U D) : Prop := {
  fd_range : forall fd, 0 <= fd < NOFILE -> k_ofile s fd = NULL \/ 0 <= k_ofile s fd < NFILE;
  fd_count : forall f, 0 <= f < NFILE -> fi_ref (k_file s f) = refs s f + others f;
  fd_lock : k_ftlock s = false
}.

Definition plus (f d : Z) (o : Z -> Z) : Z -> Z := upd o f (o f + d).

(** Parts of the state other than the table and the descriptors. *)
Definition same_fds (s s' : kern T U D) : Prop :=
  k_file s' = k_file s /\ k_ofile s' = k_ofile s /\ k_ftlock s' = k_ftlock s.

Lemma same_fds_ok o s s' : same_fds s s' -> fds_ok o s -> fds_ok o s'.
Proof.
  intros (E1 & E2 & E3) [H1 H2 H3]. assert (Er : forall f, refs s' f = refs s f) by (intros f; unfold refs; rewrite E2; reflexivity).
  split; auto; rewrite ?E1, ?E2, ?E3; auto. intros f Hf. rewrite Er. auto.
Qed.

Lemma zoom_fs_same {A} (m : M (fs T U) A) s a s' : zoom fs_of m s = Ret a s' -> same_fds s s'.
Proof. intros E. apply zoom_inv in E as (x & _ & ->). repeat split. Qed.
Lemma zoom_user_same {A} (m : M U A) s a s' : zoom proc_user m s = Ret a s' -> same_fds s s'.
Proof. intros E. apply zoom_inv in E as (x & _ & ->). repeat split. Qed.
Lemma zoom_pipe_same {A} p (m : M (pipe U) A) s a s' : zoom (pipe_of p) m s = Ret a s' -> same_fds s s'.
Proof. intros E. apply zoom_inv in E as (x & _ & ->). repeat split. Qed.
Lemma zoom_dev_same {A} (m : M (D * U) A) s a s' : zoom dev_of m s = Ret a s' -> same_fds s s'.
Proof. intros E. apply zoom_inv in E as (x & _ & ->). repeat split. Qed.

(** ** Partial correctness of programs *)

(** Every result of [m] from a state with [P] satisfies [Q]. *)
Definition keeps {A} (P : kern T U D -> Prop) (m : M (kern T U D) A) (Q : A -> kern T U D -> Prop) : Prop :=
  forall s a s', P s -> m s = Ret a s' -> Q a s'.

Lemma keeps_bind {A B} P (Q : A -> kern T U D -> Prop) R (m : M (kern T U D) A) (f : A -> M (kern T U D) B) :
  keeps P m Q -> (forall a, keeps (Q a) (f a) R) -> keeps P (bind m f) R.
Proof. intros Hm Hf s b s' HP E. apply bind_inv in E as (a & s1 & E1 & E2). eapply Hf; eauto. Qed.

Lemma keeps_run {A} P (m : M (kern T U D) A) (Q : A -> kern T U D -> Prop) s a s' :
  m s = Ret a s' -> P s -> keeps P m Q -> Q a s'.
Proof. intros E HP Hm. eapply Hm; eauto. Qed.

Lemma keeps_ret {A} P (a : A) (Q : A -> kern T U D -> Prop) : (forall s, P s -> Q a s) -> keeps P (ret a) Q.
Proof. intros HQ s b s' HP E. unfold ret in E. simplify_eq. auto. Qed.

Lemma keeps_gets {A B} (g : kern T U D -> A) (f : A -> M (kern T U D) B) P R :
  (forall a, keeps P (f a) R) -> keeps P (bind (gets g) f) R.
Proof. intros Hf s b s' HP E. rewrite bind_gets in E. eapply Hf; eauto. Qed.

Lemma keeps_panic {A} P msg (Q : A -> kern T U D -> Prop) : keeps P (panic msg) Q.
Proof. intros s a s' _ E. discriminate E. Qed.

(** Steps outside the table and the descriptors. *)
Lemma keeps_same {A} (m : M (kern T U D) A) o :
  (forall s a s', m s = Ret a s' -> same_fds s s') -> keeps (fds_ok o) m (fun _ => fds_ok o).
Proof. intros Hm s a s' HP E. eapply same_fds_ok; eauto. Qed.

Lemma keeps_fs {A} (m : M (fs T U) A) o : keeps (fds_ok o) (zoom fs_of m) (fun _ => fds_ok o).
Proof. apply keeps_same. intros. eapply zoom_fs_same; eauto. Qed.
Lemma keeps_user {A} (m : M U A) o : keeps (fds_ok o) (zoom proc_user m) (fun _ => fds_ok o).
Proof. apply keeps_same. intros. eapply zoom_user_same; eauto. Qed.
Lemma keeps_pipe {A} p (m : M (pipe U) A) o : keeps (fds_ok o) (zoom (pipe_of p) m) (fun _ => fds_ok o).
Proof. apply keeps_same. intros. eapply zoom_pipe_same; eauto. Qed.
Lemma keeps_dev {A} (m : M (D * U) A) o : keeps (fds_ok o) (zoom dev_of m) (fun _ => fds_ok o).
Proof. apply keeps_same. intros. eapply zoom_dev_same; eauto. Qed.

Lemma keeps_begin o : keeps (fds_ok o) begin_op (fun _ => fds_ok o).
Proof. apply keeps_fs. Qed.
Lemma keeps_end o : keeps (fds_ok o) end_op (fun _ => fds_ok o).
Proof. apply keeps_fs. Qed.

Lemma keeps_ext {A} o o' (m : M (kern T U D) A) Q : (forall f, o f = o' f) -> keeps (fds_ok o') m Q -> keeps (fds_ok o) m Q.
Proof.
  intros E Hm s a s' [H1 H2 H3] Hs. eapply Hm; [|exact Hs]. split; auto. intros f Hf; rewrite <- E; auto.
Qed.

(** ** The table *)

(** A change of a file that is not a change of its references. *)
Lemma set_file_ok o s f g : fi_ref (g (k_file s f)) = fi_ref (k_file s f) -> fds_ok o s -> fds_ok o (set_file f g s).
Proof.
  intros Hg [H1 H2 H3]. split; auto.
  intros k Hk. simpl. unfold upd. destruct (Z.eqb_spec k f) as [->|Hne]; [rewrite Hg|]; apply H2; assumption.
Qed.

Lemma keeps_set_file f g o : (forall x, fi_ref (g x) = fi_ref x) -> keeps (fds_ok o) (modify (set_file f g)) (fun _ => fds_ok o).
Proof. intros Hg s a s' H E. unfold modify in E. simplify_eq. apply set_file_ok; auto. Qed.

(** Giving file [f] [r] references. *)
Lemma set_ref_ok o s f r : fds_ok o s ->
  fds_ok (plus f (r - fi_ref (k_file s f)) o) (set_file f (fi_set_ref r) s).
Proof.
  intros [H1 H2 H3]. split; auto.
  intros k Hk. change (refs (set_file f (fi_set_ref r) s) k) with (refs s k). simpl. unfold plus, upd. specialize (H2 k Hk).
  destruct (Z.eqb_spec k f) as [->|Hne]; [simpl; lia|exact H2].
Qed.

Lemma unlock_ok o s b : fds_ok o s -> fds_ok o (set ftable_lock false (set ftable_lock b s)).
Proof. intros [H1 H2 H3]. split; auto. Qed.

Lemma acquire_ftable s : k_ftlock s = false -> acquire ftable_lock s = Ret tt (set ftable_lock true s).
Proof. intros H. unfold acquire. simpl. rewrite H. reflexivity. Qed.

Lemma filealloc_scan_spec n tbl f0 f : filealloc_scan n tbl f0 = Some f ->
  f0 <= f < f0 + Z.of_nat n /\ fi_ref (tbl f) = 0.
Proof.
  revert f0. induction n as [|n IH]; intros f0 E; simpl in E; [discriminate|].
  destruct (Z.eqb_spec (fi_ref (tbl f0)) 0) as [H0|H0]; [simplify_eq; lia|]. apply IH in E. lia.
Qed.

Lemma refs_bound s f : 0 <= refs s f <= NOFILE.
Proof.
  unfold refs. pose proof (length_filter (fun fd => k_ofile s fd = f) (seqZ 0 NOFILE)) as H. rewrite length_seqZ in H.
  unfold NOFILE in *. lia.
Qed.

(** A new file has one reference, which is not yet a descriptor. *)
Lemma keeps_filealloc o : keeps (fds_ok o) filealloc (fun f s =>
  f = NULL /\ fds_ok o s \/ 0 <= f < NFILE /\ fds_ok (plus f 1 o) s).
Proof.
  intros s f s' H E. unfold filealloc in E.
  rewrite (bind_ret_l _ _ _ _ _ (acquire_ftable s (fd_lock _ _ H))), bind_gets in E.
  destruct (filealloc_scan _ _ 0) as [f'|] eqn:Es.
  - apply filealloc_scan_spec in Es as [Hf Hr]. rewrite bind_modify in E. unfold bind, release, ret in E. simpl in E. injection E as <- <-.
    right. assert (Hf' : 0 <= f' < NFILE) by (unfold NFILE in *; lia). split; [exact Hf'|].
    simpl in Hr. replace 1 with (1 - fi_ref (k_file s f')) at 1 by lia.
    apply (unlock_ok _ (set_file f' (fi_set_ref 1) s) true), set_ref_ok, H.
  - unfold bind, release, ret in E. simpl in E. simplify_eq. left. split; [reflexivity|]. apply (unlock_ok _ s true), H.
Qed.

Lemma keeps_filedup f o : 0 <= f < NFILE -> o f < 2 ^ 30 -> keeps (fds_ok o) (filedup f) (fun _ => fds_ok (plus f 1 o)).
Proof.
  intros Hf Ho s a s' H E. unfold filedup in E.
  rewrite (bind_ret_l _ _ _ _ _ (acquire_ftable s (fd_lock _ _ H))) in E. unfold get_file in E. rewrite bind_gets in E.
  change (k_file (set ftable_lock true s) f) with (k_file s f) in E.
  destruct (Z.ltb_spec (fi_ref (k_file s f)) 1); [discriminate|]. rewrite bind_modify in E.
  unfold bind, release, ret in E. simpl in E. injection E as _ <-.
  pose proof (fd_count _ _ H f Hf). pose proof (refs_bound s f).
  assert (Ei : i32 (fi_ref (k_file s f) + 1) = fi_ref (k_file s f) + 1) by (unfold NOFILE in *; wrap_lia). rewrite Ei.
  replace 1 with (fi_ref (k_file s f) + 1 - fi_ref (k_file s f)) at 1 by lia.
  apply (unlock_ok _ (set_file f (fi_set_ref (fi_ref (k_file s f) + 1)) s) true), set_ref_ok, H.
Qed.

Lemma keeps_fileclose f o : 0 <= f < NFILE -> keeps (fds_ok (plus f 1 o)) (fileclose wakeups f) (fun _ => fds_ok o).
Proof.
  intros Hf s a s' H E. unfold fileclose in E.
  rewrite (bind_ret_l _ _ _ _ _ (acquire_ftable s (fd_lock _ _ H))) in E. unfold get_file in E. rewrite bind_gets in E.
  change (k_file (set ftable_lock true s) f) with (k_file s f) in E.
  destruct (Z.ltb_spec (fi_ref (k_file s f)) 1); [discriminate|]. rewrite bind_modify in E.
  set (r := fi_ref (k_file s f) - 1) in *.
  assert (H1 : fds_ok o (set_file f (fi_set_ref r) s)).
  { pose proof (set_ref_ok _ s f r H) as Hr. unfold plus, r in Hr. rewrite upd_eq in Hr.
    destruct Hr as [A1 A2 A3]. split; auto.
    intros k Hk. etransitivity; [exact (A2 k Hk)|]. change (refs _ k) with (refs s k). unfold upd. destruct (Z.eqb_spec k f); subst; lia. }
  destruct (Z.ltb_spec 0 r).
  { unfold release in E. simpl in E. simplify_eq. apply (unlock_ok _ (set_file f (fi_set_ref r) s) true), H1. }
  assert (r = 0) as Er by lia. clear H. rewrite bind_gets, !bind_modify in E.
  rewrite (bind_ret_l _ _ _ tt (set ftable_lock false (set ftable_lock true
    (set_file f (fi_set_type FD_NONE) (set_file f (fi_set_ref 0) (set_file f (fi_set_ref r) s)))))) in E by reflexivity.
  set (s1 := set ftable_lock false _) in E.
  assert (Hs1 : fds_ok o s1).
  { apply unlock_ok, set_file_ok; [reflexivity|]. apply set_file_ok; [|exact H1]. simpl. rewrite upd_eq. simpl. lia. }
  destruct (fi_type (k_file (set_file f (fi_set_ref r) (set ftable_lock true s)) f)).
  - unfold ret in E. simplify_eq. exact Hs1.
  - eapply keeps_pipe; eauto.
  - revert E. apply (keeps_bind (fds_ok o) (fun _ => fds_ok o) (fun _ => fds_ok o)); [apply keeps_begin| |exact Hs1].
    intros _. apply (keeps_bind _ (fun _ => fds_ok o)); [apply keeps_fs|]. intros _. apply keeps_end.
  - revert E. apply (keeps_bind (fds_ok o) (fun _ => fds_ok o) (fun _ => fds_ok o)); [apply keeps_begin| |exact Hs1].
    intros _. apply (keeps_bind _ (fun _ => fds_ok o)); [apply keeps_fs|]. intros _. apply keeps_end.
Qed.

(** ** The descriptors *)

Lemma set_ofile_refs s fd f k : 0 <= fd < NOFILE ->
  refs (set_ofile fd f s) k = refs s k - (if decide (k_ofile s fd = k) then 1 else 0) + (if decide (f = k) then 1 else 0).
Proof.
  intros Hfd. unfold refs.
  rewrite (filter_count_update (fun x => k_ofile s x = k) (fun x => k_ofile (set_ofile fd f s) x = k) (seqZ 0 NOFILE) fd).
  - simpl. do 2 f_equal. apply decide_ext. rewrite upd_eq. reflexivity.
  - apply NoDup_seqZ.
  - apply elem_of_seqZ. lia.
  - intros x _ Hx. simpl. rewrite upd_ne by exact Hx. reflexivity.
Qed.

Lemma fdalloc_scan_spec n ofile fd0 fd : fdalloc_scan n ofile fd0 = Some fd ->
  fd0 <= fd < fd0 + Z.of_nat n /\ ofile fd = NULL /\ forall d, fd0 <= d < fd -> ofile d <> NULL.
Proof.
  revert fd0. induction n as [|n IH]; intros fd0 E; simpl in E; [discriminate|].
  destruct (Z.eqb_spec (ofile fd0) NULL) as [H0|H0]; [simplify_eq; split; [lia|split; [exact H0|lia]]|].
  apply IH in E as (H1 & H2 & H3). split; [lia|]. split; [exact H2|]. intros d Hd.
  destruct (decide (d = fd0)) as [->|Hne]; [exact H0|]. apply H3. lia.
Qed.

(** A descriptor takes over a reference. *)
Lemma keeps_fdalloc f o : 0 <= f < NFILE -> keeps (fds_ok (plus f 1 o)) (fdalloc f) (fun fd s =>
  fd < 0 /\ fds_ok (plus f 1 o) s \/ 0 <= fd < NOFILE /\ k_ofile s fd = f /\ fds_ok o s).
Proof.
  intros Hf s fd s' H E. unfold fdalloc in E. rewrite bind_gets in E.
  destruct (fdalloc_scan _ _ 0) as [fd'|] eqn:Es.
  - apply fdalloc_scan_spec in Es as (H1 & H2 & _). rewrite bind_modify in E. unfold ret in E. injection E as <- <-.
    assert (Hfd : 0 <= fd' < NOFILE) by (unfold NOFILE in *; lia). right. split; [exact Hfd|].
    split; [simpl; apply upd_eq|]. destruct H as [A1 A2 A3]. split; auto.
    + intros d Hd. simpl. unfold upd. case_test; auto.
    + intros k Hk. rewrite set_ofile_refs by exact Hfd. simpl k_file. rewrite (A2 k Hk), H2.
      rewrite (decide_False (P := NULL = k)) by (unfold NULL; lia). unfold plus, upd.
      destruct (Z.eqb_spec k f) as [->|Hne]; [rewrite decide_True by reflexivity|rewrite decide_False by congruence]; lia.
  - unfold ret in E. simplify_eq. left. split; [lia|exact H].
Qed.

(** Clearing a descriptor leaves its reference to the caller. *)
Lemma clear_fd_ok o s fd f : 0 <= fd < NOFILE -> k_ofile s fd = f -> 0 <= f < NFILE ->
  fds_ok o s -> fds_ok (plus f 1 o) (set_ofile fd NULL s).
Proof.
  intros Hfd Ef Hf [A1 A2 A3]. split; auto.
  - intros d Hd. simpl. unfold upd. case_test; auto.
  - intros k Hk. rewrite set_ofile_refs by exact Hfd. simpl k_file. rewrite (A2 k Hk), Ef.
    rewrite (decide_False (P := NULL = k)) by (unfold NULL; lia). unfold plus, upd.
    destruct (Z.eqb_spec k f) as [->|Hne]; [rewrite decide_True by reflexivity|rewrite decide_False by congruence]; lia.
Qed.

(** ** The calls *)

Lemma keeps_id {A} (m : M (kern T U D) A) o Q : keeps (fds_ok o) m (fun _ => fds_ok o) ->
  (forall a s, fds_ok o s -> Q a s) -> keeps (fds_ok o) m Q.
Proof. intros Hm HQ s a s' H E. apply HQ. eapply Hm; eauto. Qed.

(** One step of a program that leaves the references alone. *)
Ltac keep1 :=
  lazymatch goal with
  | |- keeps _ (bind (gets _) _) _ => apply keeps_gets; intros ?
  | |- keeps (fds_ok ?o) (bind _ _) _ => apply (keeps_bind _ (fun _ => fds_ok o)); [|intros ?]
  | |- keeps _ (zoom fs_of _) _ => apply keeps_fs
  | |- keeps _ (zoom proc_user _) _ => apply keeps_user
  | |- keeps _ (zoom (pipe_of _) _) _ => apply keeps_pipe
  | |- keeps _ (zoom dev_of _) _ => apply keeps_dev
  | |- keeps _ begin_op _ => apply keeps_begin
  | |- keeps _ end_op _ => apply keeps_end
  | |- keeps _ (ret _) _ => apply keeps_ret; auto
  | |- keeps _ (gets _) _ => apply keeps_same; intros ? ? ? ?; unfold gets in *; simplify_eq; repeat split
  | |- keeps _ (panic _) _ => apply keeps_panic
  | |- keeps _ (modify (set_file _ (fi_set_off _))) _ => apply keeps_set_file; reflexivity
  | |- keeps _ (when ?b _) _ => destruct b; cbn [when]
  | |- keeps _ (if ?b then _ else _) _ => destruct b
  | |- keeps _ (match ?x with _ => _ end) _ => destruct x
  end.
Ltac keep := repeat (cbv beta; keep1).

Lemma keeps_argraw n o : keeps (fds_ok o) (argraw n) (fun _ => fds_ok o).
Proof. unfold argraw. keep. Qed.
Lemma keeps_argint n o : keeps (fds_ok o) (argint n) (fun _ => fds_ok o).
Proof. unfold argint. apply (keeps_bind _ (fun _ => fds_ok o)); [apply keeps_argraw|]. intros a. keep. Qed.
Lemma keeps_argaddr n o : keeps (fds_ok o) (argaddr n) (fun _ => fds_ok o).
Proof. apply keeps_argraw. Qed.
Lemma keeps_argstr n max o : keeps (fds_ok o) (argstr n max) (fun _ => fds_ok o).
Proof. unfold argstr, fetchstr. apply (keeps_bind _ (fun _ => fds_ok o)); [apply keeps_argaddr|]. intros a. keep. Qed.

(** The file that a descriptor argument names. *)
Lemma keeps_argfd n o : keeps (fds_ok o) (argfd n) (fun a s => fds_ok o s /\
  forall fd f, a = Some (fd, f) -> 0 <= fd < NOFILE /\ k_ofile s fd = f /\ 0 <= f < NFILE).
Proof.
  unfold argfd. apply (keeps_bind _ (fun _ => fds_ok o)); [apply keeps_argint|]. intros fd s a s' H E.
  destruct ((fd <? 0) || (NOFILE <=? fd)) eqn:Eb; [unfold ret in E; simplify_eq; split; [exact H|congruence]|].
  b2p. rewrite bind_gets in E. unfold ret in E. injection E as <- <-. split; [exact H|].
  destruct (Z.eqb_spec (k_ofile s fd) NULL) as [En|En]; [congruence|]. intros fd' f' E. injection E as <- <-.
  split; [lia|]. split; [reflexivity|]. destruct (fd_range _ _ H fd ltac:(lia)); [congruence|assumption].
Qed.

Lemma keeps_filestat f a o : keeps (fds_ok o) (filestat stack wakeups f a) (fun _ => fds_ok o).
Proof. unfold filestat, get_file. keep. Qed.

Lemma keeps_fileread f a n o : keeps (fds_ok o) (fileread devsw wakeups f a n) (fun _ => fds_ok o).
Proof. unfold fileread, get_file. keep. Qed.

Lemma keeps_filewrite_loop fuel f a n o : forall i, keeps (fds_ok o) (filewrite_loop wakeups fuel f a n i) (fun _ => fds_ok o).
Proof.
  induction fuel as [|fuel IH]; intros i; cbn [filewrite_loop]; [intros s r s' _ E; discriminate E|].
  unfold get_file. keep. apply IH.
Qed.

Lemma keeps_filewrite f a n o : keeps (fds_ok o) (filewrite devsw wakeups f a n) (fun _ => fds_ok o).
Proof. unfold filewrite, get_file. keep. apply keeps_filewrite_loop. Qed.

Lemma fds_ok_ext o o' s : (forall f, o f = o' f) -> fds_ok o s -> fds_ok o' s.
Proof. intros E [H1 H2 H3]. split; auto. intros f Hf. rewrite <- E. auto. Qed.

Lemma plus_inv f d o k : plus f d (plus f (- d) o) k = o k.
Proof. unfold plus, upd. rewrite Z.eqb_refl. destruct (Z.eqb_spec k f); subst; lia. Qed.

Lemma plus_comm f g d e o k : plus f d (plus g e o) k = plus g e (plus f d o) k.
Proof. unfold plus, upd. destruct (Z.eqb_spec k f), (Z.eqb_spec k g), (Z.eqb_spec f g), (Z.eqb_spec g f); subst; lia || congruence. Qed.

(** As [keep], with arguments fetched. *)
Ltac keep_args :=
  repeat (cbv beta; first
    [ keep1
    | apply keeps_argint | apply keeps_argaddr | apply keeps_argstr ]).

Lemma keeps_argfd_only n o : keeps (fds_ok o) (argfd n) (fun _ => fds_ok o).
Proof. intros s a s' H E. apply (keeps_argfd n o s a s' H E). Qed.

Lemma keeps_sys_read o : keeps (fds_ok o) (sys_read devsw wakeups) (fun _ => fds_ok o).
Proof. unfold sys_read. keep_args; [apply keeps_argfd_only|apply keeps_fileread]. Qed.

Lemma keeps_sys_write o : keeps (fds_ok o) (sys_write devsw wakeups) (fun _ => fds_ok o).
Proof. unfold sys_write. keep_args; [apply keeps_argfd_only|apply keeps_filewrite]. Qed.

Lemma keeps_sys_fstat o : keeps (fds_ok o) (sys_fstat stack wakeups) (fun _ => fds_ok o).
Proof. unfold sys_fstat. keep_args; [apply keeps_argfd_only|apply keeps_filestat]. Qed.

Lemma keeps_sys_link o : keeps (fds_ok o) (sys_link wakeups) (fun _ => fds_ok o).
Proof. unfold sys_link, link_bad. keep_args. Qed.

Lemma keeps_sys_unlink o : keeps (fds_ok o) (sys_unlink wakeups) (fun _ => fds_ok o).
Proof. unfold sys_unlink, unlink_bad. keep_args. Qed.

Lemma keeps_sys_mkdir o : keeps (fds_ok o) (sys_mkdir wakeups) (fun _ => fds_ok o).
Proof. unfold sys_mkdir. keep_args. Qed.

Lemma keeps_sys_mknod o : keeps (fds_ok o) (sys_mknod wakeups) (fun _ => fds_ok o).
Proof. unfold sys_mknod. keep_args. Qed.

Lemma keeps_sys_chdir o : keeps (fds_ok o) (sys_chdir wakeups) (fun _ => fds_ok o).
Proof. unfold sys_chdir. keep_args. Qed.

Lemma keeps_sys_dup o : (forall f, o f <= 2 ^ 30) -> keeps (fds_ok o) sys_dup (fun _ => fds_ok o).
Proof.
  intros Ho. unfold sys_dup. eapply keeps_bind; [apply keeps_argfd|]. intros [[fd f]|] s a s' [H Hf] E.
  2: { unfold ret in E. simplify_eq. exact H. }
  destruct (Hf fd f eq_refl) as (_ & _ & Hr). set (o' := plus f (-1) o).
  assert (Eo : forall k, plus f 1 o' k = o k) by (intros k; apply (plus_inv f 1 o)).
  apply bind_inv in E as (d & s1 & E1 & E). destruct (keeps_fdalloc f o' Hr s d s1) as [[Hd H1]|(Hd & _ & H1)];
    [apply (fds_ok_ext o); auto|exact E1| |].
  - replace (d <? 0) with true in E by lia. unfold ret in E. simplify_eq. apply (fds_ok_ext _ o _ Eo), H1.
  - replace (d <? 0) with false in E by lia. apply bind_inv in E as (x & s2 & E2 & E). unfold ret in E. simplify_eq.
    apply (fds_ok_ext _ o _ Eo). eapply keeps_filedup; eauto. unfold o', plus. rewrite upd_eq. specialize (Ho f). lia.
Qed.

Lemma keeps_sys_close o : keeps (fds_ok o) (sys_close wakeups) (fun _ => fds_ok o).
Proof.
  unfold sys_close. eapply keeps_bind; [apply keeps_argfd|]. intros [[fd f]|] s a s' [H Hf] E.
  2: { unfold ret in E. simplify_eq. exact H. }
  destruct (Hf fd f eq_refl) as (Hd & Ef & Hr). rewrite bind_modify in E.
  apply bind_inv in E as (x & s1 & E1 & E). unfold ret in E. simplify_eq.
  eapply keeps_fileclose; [exact Hr| |exact E1]. apply (clear_fd_ok o s fd); auto.
Qed.

Lemma keeps_open_tail o ip i omode : keeps (fds_ok o)
  (let! f := filealloc in
   if f =? NULL then open_fail wakeups ip else
   let! fd := fdalloc f in
   if fd <? 0 then fileclose wakeups f ;; open_fail wakeups ip else
   modify (set_file f (open_file i ip omode)) ;;
   when (negb (Z.land omode O_TRUNC =? 0) && (i_type i =? T_FILE)) (zoom fs_of (itrunc ip)) ;;
   zoom fs_of (iunlock ip) ;;
   end_op ;;
   ret fd) (fun _ => fds_ok o).
Proof.
  eapply keeps_bind; [apply keeps_filealloc|]. intros f s a s' [[-> H]|[Hf H]] E.
  - simpl in E. apply (keeps_run _ _ (fun _ => fds_ok o) _ _ _ E H). unfold open_fail. keep.
  - replace (f =? NULL) with false in E by (unfold NULL in *; lia). apply bind_inv in E as (fd & s1 & E1 & E).
    destruct (keeps_fdalloc f o Hf s fd s1 H E1) as [[Hd H1]|(Hd & _ & H1)].
    + replace (fd <? 0) with true in E by lia. apply (keeps_run _ _ (fun _ => fds_ok o) _ _ _ E H1).
      eapply keeps_bind; [apply keeps_fileclose, Hf|]. intros ?. unfold open_fail. keep.
    + replace (fd <? 0) with false in E by lia. apply (keeps_run _ _ (fun _ => fds_ok o) _ _ _ E H1).
      eapply keeps_bind; [apply keeps_set_file; reflexivity|]. intros ?. keep.
Qed.

Lemma keeps_sys_open o : keeps (fds_ok o) (sys_open wakeups) (fun _ => fds_ok o).
Proof.
  unfold sys_open. repeat (cbv beta; first [apply keeps_open_tail | keep1 | apply keeps_argint | apply keeps_argstr]).
  unfold open_fail. keep.
Qed.

(** Both ends of a new pipe have one reference. *)
Definition piped (o : Z -> Z) (r : option (Z * Z)) (s : kern T U D) : Prop :=
  match r with
  | None => fds_ok o s
  | Some (rf, wf) => 0 <= rf < NFILE /\ 0 <= wf < NFILE /\ fds_ok (plus rf 1 (plus wf 1 o)) s
  end.

Lemma keeps_pipealloc o : keeps (fds_ok o) (pipealloc wakeups) (piped o).
Proof.
  intros s r s' H E. unfold pipealloc in E. apply bind_inv in E as (f0 & s0 & E0 & E).
  destruct (keeps_filealloc o s f0 s0 H E0) as [[-> H0]|[Hf0 H0]].
  { cbn [NULL Z.eqb Pos.eqb orb negb when] in E. unfold bind, ret in E. simpl in E. simplify_eq. exact H0. }
  assert (En : (f0 =? NULL) = false) by (unfold NULL in *; lia). rewrite En in E. cbn [orb negb when] in E.
  apply bind_inv in E as (f1 & s1 & E1 & E).
  destruct (keeps_filealloc _ s0 f1 s1 H0 E1) as [[-> H1]|[Hf1 H1]].
  { rewrite Z.eqb_refl in E. cbn [orb negb when] in E. rewrite (bind_ret_l (ret 0) _ s1 0 s1) in E by reflexivity.
    apply (keeps_run _ _ (piped o) _ _ _ E H1).
    eapply keeps_bind; [apply keeps_fileclose, Hf0|]. intros ?. keep. }
  assert (En1 : (f1 =? NULL) = false) by (unfold NULL in *; lia). rewrite En1 in E. cbn [orb negb when] in E.
  apply bind_inv in E as (pi & s2 & E2 & E). pose proof (keeps_user _ _ _ _ _ H1 E2) as H2. cbv beta in H2.
  destruct (pi =? 0) eqn:Ep.
  - apply (keeps_run _ _ (piped o) _ _ _ E
      (fds_ok_ext _ _ _ (plus_comm f1 f0 1 1 o) H2)).
    eapply keeps_bind; [apply keeps_fileclose, Hf0|]. intros ?. eapply keeps_bind; [apply keeps_fileclose, Hf1|]. intros ?. keep.
  - rewrite !bind_modify in E. unfold ret in E. simplify_eq. split; [exact Hf0|]. split; [exact Hf1|].
    apply set_file_ok; [reflexivity|]. apply set_file_ok; [reflexivity|].
    apply (fds_ok_ext _ _ _ (plus_comm f1 f0 1 1 o)), (same_fds_ok _ s2); [repeat split|exact H2].
Qed.

Lemma fdalloc_other f s fd s' d : fdalloc f s = Ret fd s' -> k_ofile s d <> NULL -> k_ofile s' d = k_ofile s d.
Proof.
  intros E Hd. unfold fdalloc in E. rewrite bind_gets in E. destruct (fdalloc_scan _ _ 0) as [fd'|] eqn:Es.
  - apply fdalloc_scan_spec in Es as (_ & H2 & _). rewrite bind_modify in E. unfold ret in E. simplify_eq. simpl.
    apply upd_ne. congruence.
  - unfold ret in E. simplify_eq. reflexivity.
Qed.

Lemma fdalloc_free f s fd s' : fdalloc f s = Ret fd s' -> 0 <= fd -> k_ofile s fd = NULL.
Proof.
  intros E Hd. unfold fdalloc in E. rewrite bind_gets in E. destruct (fdalloc_scan _ _ 0) as [fd'|] eqn:Es.
  - apply fdalloc_scan_spec in Es as (_ & H2 & _). rewrite bind_modify in E. unfold ret in E. simplify_eq. exact H2.
  - unfold ret in E. simplify_eq. lia.
Qed.

Lemma keeps_pipe_fail rf wf o : 0 <= rf < NFILE -> 0 <= wf < NFILE ->
  keeps (fds_ok (plus rf 1 (plus wf 1 o))) (pipe_fail wakeups rf wf) (fun _ => fds_ok o).
Proof.
  intros H1 H2. unfold pipe_fail. eapply keeps_bind; [apply keeps_fileclose, H1|]. intros ?.
  eapply keeps_bind; [apply keeps_fileclose, H2|]. intros ?. keep.
Qed.

Lemma keeps_sys_pipe o : keeps (fds_ok o) (sys_pipe wakeups) (fun _ => fds_ok o).
Proof.
  unfold sys_pipe. eapply keeps_bind; [apply keeps_argaddr|]. intros fdarray. eapply keeps_bind; [apply keeps_pipealloc|].
  intros [[rf wf]|] s a s' H E; [|unfold ret in E; simplify_eq; exact H]. destruct H as (Hr & Hw & H).
  apply bind_inv in E as (fd0 & s0 & E0 & E).
  destruct (keeps_fdalloc rf _ Hr s fd0 s0 H E0) as [[Hd H0]|(Hd & Ef0 & H0)].
  { replace (fd0 <? 0) with true in E by lia. apply (keeps_pipe_fail rf wf o Hr Hw _ _ _ H0 E). }
  replace (fd0 <? 0) with false in E by lia. apply bind_inv in E as (fd1 & s1 & E1 & E).
  assert (Ef : k_ofile s1 fd0 = rf) by (rewrite (fdalloc_other _ _ _ _ fd0 E1); [exact Ef0|unfold NULL; lia]).
  destruct (keeps_fdalloc wf _ Hw s0 fd1 s1 H0 E1) as [[Hd1 H1]|(Hd1 & Ef1 & H1)].
  { replace (fd1 <? 0) with true in E by lia. rewrite bind_modify in E.
    apply (keeps_pipe_fail rf wf o Hr Hw _ _ _ (clear_fd_ok _ s1 fd0 rf Hd Ef Hr H1) E). }
  replace (fd1 <? 0) with false in E by lia. apply bind_inv in E as (ok & s2 & E2 & E).
  apply bind_inv in E as (ok2 & s3 & E3 & E).
  assert (Hs : same_fds s1 s3).
  { apply zoom_user_same in E2 as (A1 & A2 & A3). destruct ok; [|unfold ret in E3; simplify_eq; repeat split; assumption].
    apply zoom_user_same in E3 as (B1 & B2 & B3). repeat split; congruence. }
  pose proof (same_fds_ok _ _ _ Hs H1) as H3. destruct Hs as (_ & Eof & _). rewrite <- Eof in Ef, Ef1.
  destruct (negb ok2); [|unfold ret in E; simplify_eq; exact H3].
  rewrite !bind_modify in E. apply (keeps_pipe_fail rf wf o Hr Hw _ _ _) in E; [exact E|].
  apply (fds_ok_ext (plus wf 1 (plus rf 1 o))); [intros k; apply plus_comm|].
  apply clear_fd_ok; auto; [|apply clear_fd_ok; auto]. simpl. rewrite upd_ne; [exact Ef1|].
  intros ->. apply fdalloc_free in E1; [|lia]. unfold NULL in *. lia.
Qed.

(** ** What is promised *)

Inductive fcall : Type :=
  | F_dup | F_read | F_write | F_close | F_fstat | F_link | F_unlink | F_open | F_mkdir | F_mknod | F_chdir | F_pipe.

Definition run_fcall (c : fcall) : M (kern T U D) Z :=
  match c with
  | F_dup => sys_dup
  | F_read => sys_read devsw wakeups
  | F_write => sys_write devsw wakeups
  | F_close => sys_close wakeups
  | F_fstat => sys_fstat stack wakeups
  | F_link => sys_link wakeups
  | F_unlink => sys_unlink wakeups
  | F_open => sys_open wakeups
  | F_mkdir => sys_mkdir wakeups
  | F_mknod => sys_mknod wakeups
  | F_chdir => sys_chdir wakeups
  | F_pipe => sys_pipe wakeups
  end.

Definition with_args (a : Z -> Z) (s : kern T U D) : kern T U D :=
  Kern (k_fs s) (k_ftlock s) (k_file s) (k_pipe s) (k_killed s) (k_ofile s) a (k_dev s).

(** A process that makes one call after another, with any arguments. *)
Inductive fcalls : kern T U D -> kern T U D -> Prop :=
  | fcalls_nil s : fcalls s s
  | fcalls_cons c a s r s1 s2 : run_fcall c (with_args a s) = Ret r s1 -> fcalls s1 s2 -> fcalls s s2.

(** C13. Through any sequence of file system calls, failing ones included, the
    reference count of every open file is the number of descriptors that name it
    plus the references held by other processes: no reference is lost or
    counted twice, and the table's lock is free after each call. *)
Theorem descriptors_counted o s s' : (forall f, o f <= 2 ^ 30) -> fds_ok o s -> fcalls s s' -> fds_ok o s'.
Proof using.
  intros Ho H Hc. induction Hc as [s|c a s r s1 s2 E _ IH]; [exact H|]. apply IH. clear IH.
  assert (Ha : fds_ok o (with_args a s)) by (apply (same_fds_ok _ s); [repeat split|exact H]).
  destruct c; simpl in E; [eapply keeps_sys_dup; eauto|eapply keeps_sys_read; eauto|eapply keeps_sys_write; eauto
    |eapply keeps_sys_close; eauto|eapply keeps_sys_fstat; eauto|eapply keeps_sys_link; eauto|eapply keeps_sys_unlink; eauto
    |eapply keeps_sys_open; eauto|eapply keeps_sys_mkdir; eauto|eapply keeps_sys_mknod; eauto|eapply keeps_sys_chdir; eauto
    |eapply keeps_sys_pipe; eauto].
Qed.

(** Whether the first argument is not an open descriptor. *)
Definition bad_fd (s : kern T U D) : Prop :=
  let fd := i32 (k_args s 0) in fd < 0 \/ NOFILE <= fd \/ k_ofile s fd = NULL.

Lemma argfd_bad s : bad_fd s -> argfd 0 s = Ret None s.
Proof using.
  intros H. unfold argfd. rewrite (bind_ret_l _ _ _ (i32 (k_args s 0)) s) by reflexivity.
  destruct ((i32 (k_args s 0) <? 0) || (NOFILE <=? i32 (k_args s 0))) eqn:E; [reflexivity|]. b2p.
  rewrite bind_gets. destruct H as [H|[H|H]]; [lia|lia|]. rewrite H. reflexivity.
Qed.

(** A call on a number that is not an open descriptor of the process fails
    with -1 and changes nothing, whatever the other arguments. *)
Theorem bad_descriptor_refused c s : bad_fd s ->
  c = F_dup \/ c = F_read \/ c = F_write \/ c = F_close \/ c = F_fstat -> run_fcall c s = Ret (-1) s.
Proof using.
  intros H Hc. apply argfd_bad in H.
  destruct Hc as [->|[->|[->|[->| ->]]]]; simpl; unfold sys_dup, sys_read, sys_write, sys_close, sys_fstat;
    repeat first [rewrite (bind_ret_l _ _ _ None s) by exact H | erewrite bind_ret_l by reflexivity]; reflexivity.
Qed.

Lemma fdalloc_run f s : fdalloc f s =
  match fdalloc_scan (Z.to_nat NOFILE) (k_ofile s) 0 with Some fd => Ret fd (set_ofile fd f s) | None => Ret (-1) s end.
Proof using. unfold fdalloc. rewrite bind_gets. destruct (fdalloc_scan _ _ 0); reflexivity. Qed.

Lemma fdalloc_scan_none n ofile fd0 : fdalloc_scan n ofile fd0 = None ->
  forall d, fd0 <= d < fd0 + Z.of_nat n -> ofile d <> NULL.
Proof.
  revert fd0. induction n as [|n IH]; intros fd0 E d Hd; simpl in E; [lia|].
  destruct (Z.eqb_spec (ofile fd0) NULL) as [H0|H0]; [discriminate|].
  destruct (decide (d = fd0)) as [->|Hne]; [exact H0|]. apply (IH (fd0 + 1) E). lia.
Qed.

Lemma filedup_run f s : k_ftlock s = false -> 1 <= fi_ref (k_file s f) < 2 ^ 31 - 1 ->
  filedup f s = Ret f (set ftable_lock false (set ftable_lock true (set_file f (fi_set_ref (fi_ref (k_file s f) + 1)) s))).
Proof.
  intros Hl Hr. unfold filedup. rewrite (bind_ret_l _ _ _ _ _ (acquire_ftable s Hl)). unfold get_file. rewrite bind_gets.
  change (k_file (set ftable_lock true s) f) with (k_file s f). replace (_ <? 1) with false by lia.
  rewrite i32_small by lia. reflexivity.
Qed.

(** A descriptor is a reference. *)
Lemma refs_pos s fd : 0 <= fd < NOFILE -> 1 <= refs s (k_ofile s fd).
Proof using.
  intros Hfd. unfold refs. assert (Hin : fd ∈ filter (fun x => k_ofile s x = k_ofile s fd) (seqZ 0 NOFILE)).
  { apply list_elem_of_filter. split; [reflexivity|apply elem_of_seqZ; lia]. }
  destruct (filter _ _); [apply elem_of_nil in Hin; contradiction|simpl; lia].
Qed.

(** Duplicating an open descriptor gives the lowest free one, which names the
    same open file, with one more reference; when none is free the result is -1
    and nothing changes. *)
Theorem sys_dup_lowest o s : let fd := i32 (k_args s 0) in let f := k_ofile s fd in
  (forall k, 0 <= o k <= 2 ^ 30) -> fds_ok o s -> 0 <= fd < NOFILE -> f <> NULL ->
  (exists s', sys_dup s = Ret (-1) s' /\ s' = s /\ forall d, 0 <= d < NOFILE -> k_ofile s d <> NULL) \/
  (exists d s', sys_dup s = Ret d s' /\ 0 <= d < NOFILE /\ k_ofile s d = NULL /\
     (forall d', 0 <= d' < d -> k_ofile s d' <> NULL) /\ k_ofile s' d = f /\
     (forall d', d' <> d -> k_ofile s' d' = k_ofile s d') /\
     fi_ref (k_file s' f) = fi_ref (k_file s f) + 1 /\ k_fs s' = k_fs s).
Proof using.
  assert (HN : NOFILE = 16) by reflexivity. intros fd f Ho H Hfd Hf. assert (Hr : 0 <= f < NFILE) by (destruct (fd_range _ _ H fd Hfd); [contradiction|assumption]).
  assert (Ea : argfd 0 s = Ret (Some (fd, f)) s).
  { unfold argfd. rewrite (bind_ret_l _ _ _ fd s) by reflexivity. replace (_ || _) with false by lia.
    rewrite bind_gets. fold f. replace (f =? NULL) with false by lia. reflexivity. }
  unfold sys_dup. rewrite (bind_ret_l _ _ _ _ _ Ea).
  pose proof (fdalloc_run f s) as Er. destruct (fdalloc_scan (Z.to_nat NOFILE) (k_ofile s) 0) as [d|] eqn:Es;
    rewrite (bind_ret_l _ _ _ _ _ Er).
  - right. apply fdalloc_scan_spec in Es as (Hd & Hn & Hlow). replace (d <? 0) with false by lia.
    pose proof (fd_count _ _ H f Hr). pose proof (refs_pos s fd Hfd). pose proof (refs_bound s f). specialize (Ho f). fold f in H1.
    erewrite bind_ret_l by (apply filedup_run; [exact (fd_lock _ _ H)|simpl; lia]).
    exists d. eexists. split; [reflexivity|]. split; [lia|]. split; [exact Hn|]. split; [exact Hlow|].
    split; [simpl; apply upd_eq|]. split; [intros d' Hd'; simpl; apply upd_ne, Hd'|]. simpl. rewrite upd_eq. split; reflexivity.
  - left. exists s. split; [reflexivity|]. split; [reflexivity|]. intros d Hd. apply (fdalloc_scan_none _ _ _ Es). lia.
Qed.
End Descriptors.

(** ** Examples *)

Module ExampleCalls.
Import Ideal IdealMem ExampleDisk ExampleFile.

(** A process without strings and without further pages. *)
#[local] Instance ex_userproc : UserProc imem :=
  {| page_alloc := ret 0; page_free _ := ret tt; copyin_str _ _ := ret None; user_sz _ := 8192 |}.

(** Descriptor 0 names open file 0; the other files belong to other processes. *)
Definition ex_proc (fd : Z) : kern (logst bst) imem unit :=
  Kern (k_fs ex_kern) false (k_file ex_kern) (k_pipe ex_kern) false (fun d => if d =? 0 then 0 else NULL)
       (fun _ => fd) tt.
Definition ex_others (f : Z) : Z := if f =? 0 then 0 else 1.
Definition ex_devs : Z -> devops (unit * imem) := fun _ => Devops None None.

Lemma ex_fds fd : fds_ok ex_others (ex_proc fd).
Proof.
  split; [| |reflexivity].
  - intros d _. simpl. destruct (Z.eqb_spec d 0); [right; unfold NFILE; lia|left; reflexivity].
  - intros f Hf. apply Z.eqb_eq.
    apply (forallb_seqZ (fun f => fi_ref (k_file (ex_proc fd) f) =? refs (ex_proc fd) f + ex_others f) NFILE); [vm_compute; reflexivity|exact Hf].
Qed.

Lemma ex_few f : 0 <= ex_others f <= 2 ^ 30.
Proof. unfold ex_others. case_test; lia. Qed.

(** Descriptor 0 is duplicated, and the duplicate is closed. *)
Lemma descriptors_counted_witness : exists s',
  fcalls (TC := log_ctl 1) ex_devs [] 1 (ex_proc 0) s' /\ fds_ok ex_others s'.
Proof.
  assert (Hc : exists s', fcalls (TC := log_ctl 1) ex_devs [] 1 (ex_proc 0) s').
  { eexists. apply (fcalls_cons _ _ _ F_dup (fun _ => 0) _ 1 (set ftable_lock false (set ftable_lock true
      (set_file 0 (fi_set_ref 2) (set_ofile 1 0 (ex_proc 0)))))); [reflexivity|].
    eapply (fcalls_cons _ _ _ F_close (fun _ => 1)); [reflexivity|]. apply fcalls_nil. }
  destruct Hc as [s' Hc]. exists s'. split; [exact Hc|].
  apply (descriptors_counted (TC := log_ctl 1) ex_devs [] 1 ex_others (ex_proc 0) s'); [intros f; apply ex_few|apply ex_fds|exact Hc].
Defined.

Lemma bad_descriptor_refused_witness : run_fcall (TC := log_ctl 1) ex_devs [] 1 F_write (ex_proc 3) = Ret (-1) (ex_proc 3).
Proof.
  apply (bad_descriptor_refused (TC := log_ctl 1) ex_devs [] 1 F_write (ex_proc 3)); [right; right; reflexivity|tauto].
Defined.

Lemma sys_dup_lowest_witness :
  (exists s', sys_dup (ex_proc 0) = Ret (-1) s' /\ s' = ex_proc 0 /\ forall d, 0 <= d < NOFILE -> k_ofile (ex_proc 0) d <> NULL) \/
  (exists d s', sys_dup (ex_proc 0) = Ret d s' /\ 0 <= d < NOFILE /\ k_ofile (ex_proc 0) d = NULL /\
     (forall d', 0 <= d' < d -> k_ofile (ex_proc 0) d' <> NULL) /\ k_ofile s' d = 0 /\
     (forall d', d' <> d -> k_ofile s' d' = k_ofile (ex_proc 0) d') /\
     fi_ref (k_file s' 0) = 1 + 1 /\ k_fs s' = k_fs (ex_proc 0)).
Proof.
  apply (sys_dup_lowest ex_others (ex_proc 0)); [apply ex_few|apply ex_fds|split; closed|discriminate].
Defined.
End ExampleCalls.
