(* ===== verification/GoneDir.v ===== *)
(** * A directory that is gone

    [sys_unlink] ([kernel/sysfile.c]) removes an empty directory even if it is
    the current directory of a process, and then its parent.  The entry ".." of
    the removed directory still names the parent's inode, which is free by
    then, and the kernel panics when the process uses it. *)

From S2P Require Import Prelude Sleeplock Block Log Txn TxnOps UserMem Fs FsBlocks FsInode FsData FsSpec FsDir Pipe File FileSpec Sysfile SysfileSpec Fcntl FsPath.

(** The name "..". *)
Definition dotdot : list Z := [46; 46].

Section Lookup.
Context {T U : Type} `{TX : Txn T} `{TL : !TxnLaws T ROOTDEV} `{UM : UserMem U}.
Implicit Types s : fs T U.

(** A reference that is not the last is given up. *)
Lemma iput_not_last wakeups s ip : f_itlock s = false -> 1 < i_ref (f_inode s ip) < 2 ^ 31 ->
  iput wakeups ip s = Ret tt (set_inode ip (fun i => with_ref (i_ref i - 1) i) s).
Proof using.
  intros Hl Hr. unfold iput. rewrite (bind_ret_l _ _ _ tt (set itable_lock true s)) by (unfold acquire; simpl; rewrite Hl; reflexivity).
  unfold get_inode. rewrite bind_gets. change (f_inode (set itable_lock true s) ip) with (f_inode s ip).
  replace (i_ref (f_inode s ip) =? 1) with false by lia. cbn [andb when]. erewrite bind_ret_l by reflexivity. rewrite bind_modify.
  unfold release, set_inode. simpl. rewrite i32_small by lia. rewrite <- Hl. reflexivity.
Qed.

(** The entry the table has for an inode that is free on the disk. *)
Record free_entry (v : Z -> block) (s : fs T U) (ip d : Z) : Prop := {
  fe_ref : i_ref (f_inode s ip) = 1;
  fe_dev : i_dev (f_inode s ip) = ROOTDEV;
  fe_inum : i_inum (f_inode s ip) = d;
  fe_valid : i_valid (f_inode s ip) = false;
  fe_lk : sl_lk (i_lock (f_inode s ip)) = false;
  fe_locked : sl_locked (i_lock (f_inode s ip)) = false;
  fe_type : i_type (dinode ROOTDEV v (f_sb s) d) = 0
}.

Lemma ilock_free wakeups s v L r ip d : free_entry v s ip d -> ip <> NULL -> blocks ROOTDEV s [] v L r ->
  ilock (S wakeups) ip s = Panic "ilock: no type".
Proof using TL.
  intros [F1 F2 F3 F4 F5 F6 F7] Hip B. unfold ilock, get_inode. rewrite bind_gets. replace (ip =? NULL) with false by lia.
  replace (i_ref (f_inode s ip) <? 1) with false by lia. cbn [orb]. rewrite bind_gets. set (s1 := set_inode ip (with_lock (Sleeplock false true (f_pid s))) s).
  rewrite (bind_ret_l _ _ _ tt s1) by (apply (zoom_ret (inode_lock ip)); apply acquiresleep_free; assumption).
  rewrite bind_gets. assert (E1 : f_inode s1 ip = with_lock (Sleeplock false true (f_pid s)) (f_inode s ip)) by apply upd_eq. rewrite E1.
  cbn [with_lock i_valid i_dev i_inum]. rewrite F4. cbn [negb when]. unfold the_sb. rewrite bind_gets, F2, F3.
  destruct (peek ROOTDEV s1 [] v L r (IBLOCK d (f_sb s1)) B (not_elem_of_nil _) ltac:(simpl; unfold HELDMAX; lia)) as (hb & x & E2 & Dt & B1). step.
  unfold data. rewrite bind_gets. change (f_txn (at_txn x s1)) with x. rewrite Dt, bind_modify.
  match goal with |- context [set_inode ip ?f (at_txn x s1)] => set (s2 := set_inode ip f (at_txn x s1)) end.
  destruct (unpeek ROOTDEV s2 hb _ [] v L r B1 (not_elem_of_nil _)) as (x2 & E3 & B2). step. rewrite bind_modify, bind_gets.
  simpl. rewrite !upd_eq. simpl. change (d_type (v (IBLOCK d (f_sb s))) (dinode_off d)) with (i_type (dinode ROOTDEV v (f_sb s) d)). rewrite F7. reflexivity.
Qed.

(** No entry in use is for a free inode. *)
Lemma scan_free h R v s d : table ROOTDEV h R v s -> i_type (dinode ROOTDEV v (f_sb s) d) = 0 -> (exists j, 0 <= j < NINODE /\ R j = 0) ->
  exists j, iget_scan (Z.to_nat NINODE) (f_inode s) ROOTDEV d 0 None = (None, Some j) /\ 0 <= j < NINODE /\ R j = 0.
Proof using.
  intros Ht Hd (j0 & Hj0 & Hf0). pose proof (iget_scan_spec (Z.to_nat NINODE) (f_inode s) ROOTDEV d 0 None) as Hs.
  change (0 + Z.of_nat (Z.to_nat NINODE)) with NINODE in Hs. destruct (iget_scan _ _ _ _ _ _) as [[j|] e].
  - exfalso. destruct Hs as [Hj Hh]. unfold holds in Hh. b2p. destruct (tb_ref _ _ _ _ _ Ht j Hj) as [Er _].
    destruct (tb_entry _ _ _ _ _ Ht j Hj ltac:(lia)) as (_ & [_ Hl] & _). replace (i_inum (f_inode s j)) with d in Hl by lia. contradiction.
  - destruct Hs as [_ Hs]. destruct e as [j|]; [|destruct (Hs j0 Hj0); destruct (tb_ref _ _ _ _ _ Ht j0 Hj0); congruence].
    destruct Hs as [Hj Hr0]. destruct (tb_ref _ _ _ _ _ Ht j Hj) as [Er _]. exists j. split; [reflexivity|]. split; [exact Hj|congruence].
Qed.

(** The directory is given up again: it is not the last reference. *)
Lemma leave_dir wakeups s c j (f : inode -> inode) : f_itlock s = false -> c <> NULL -> j <> c -> 1 < i_ref (f_inode s c) < 2 ^ 31 ->
  i_lock (f_inode s c) = Sleeplock false true (f_pid s) ->
  exists s', iunlockput wakeups c (set_inode j f s) = Ret tt s' /\ f_inode s' j = f (f_inode s j) /\ f_txn s' = f_txn s /\ f_sb s' = f_sb s.
Proof using.
  intros Hl Hc Hj Hr Hlk. assert (Ec : f_inode (set_inode j f s) c = f_inode s c) by (simpl; apply upd_ne; congruence).
  destruct (iunlock_held (set_inode j f s) c Hc) as (g & E & Hg); [rewrite Ec; lia|rewrite Ec; exact Hlk|].
  set (s1 := at_inodes g (set_inode j f s)) in *.
  assert (E1 : f_inode s1 c = with_lock (Sleeplock false false 0) (f_inode s c)) by (simpl; rewrite Hg, Z.eqb_refl; simpl; rewrite upd_ne by congruence; reflexivity).
  eexists. split; [unfold iunlockput; rewrite (bind_ret_l _ _ _ _ _ E); apply iput_not_last; [exact Hl|rewrite E1; exact Hr]|].
  split; [|split; reflexivity]. simpl. rewrite upd_ne by exact Hj. rewrite Hg. replace (j =? c) with false by lia. apply upd_eq.
Qed.

(** ".." is looked up: the entry is there, for an inode that is free. *)
Lemma namei_gone wakeups s v L r R d : let c := f_cwd s in let i := dinode ROOTDEV v (f_sb s) (i_inum (f_inode s c)) in
  table ROOTDEV NULL R v s -> roomy R -> image_ok ROOTDEV v (f_sb s) -> blocks ROOTDEV s [] v L r ->
  0 <= c < NINODE -> 0 < R c -> i_type i = T_DIR -> dir_get v i dotdot = Some d -> i_type (dinode ROOTDEV v (f_sb s) d) = 0 ->
  exists ip s', namei (S wakeups) dotdot s = Ret ip s' /\ 0 <= ip < NINODE /\ free_entry v s' ip d /\ blocks ROOTDEV s' [] v L r.
Proof using TL.
  intros c i Ht Hroom Him B Hc Hr Hty Hget Hfree. destruct (rm_range _ Hroom c Hc) as [_ Hrc].
  destruct (idup_step ROOTDEV R v s c Ht Hc Hr ltac:(lia)) as (g & E1 & Ht1 & Hn1). set (s1 := at_inodes g s) in *.
  assert (Hpos : 0 < one_more R c c) by (apply one_more_pos; auto). destruct (roomy_one R c Hroom) as [Hfr _].
  destruct (ilock_step ROOTDEV wakeups (one_more R c) v L r s1 c Ht1 Hc Hpos B) as (x & g2 & E2 & B2 & Ht2 & Hi2 & Hd2 & Hv2 & Hld & _).
  set (s2 := at_inodes g2 (at_txn x s1)) in *. assert (Hin2 : i_inum (f_inode s2 c) = i_inum (f_inode s c)) by (simpl; rewrite Hi2; apply Hn1).
  assert (Hty2 : i_type (f_inode s2 c) = T_DIR) by (simpl; rewrite (ld_type _ _ _ _ Hld), Hi2; simpl; rewrite Hn1; exact Hty).
  assert (Hlive : live ROOTDEV v (f_sb s) (i_inum (f_inode s2 c))) by (rewrite Hin2; apply (tb_entry _ _ _ _ _ Ht c Hc Hr)).
  destruct (dirlookup_ok ROOTDEV v L r c dotdot s2 Hd2 (loaded_dir ROOTDEV v _ _ Him Hlive Hld Hty2) B2) as (x3 & B3 & E3).
  assert (Hg : dir_get v (f_inode s2 c) dotdot = Some d).
  { rewrite (dir_get_same v i (f_inode s2 c)); [exact Hget| |]; simpl; rewrite ?(ld_addrs _ _ _ _ Hld), ?(ld_size _ _ _ _ Hld), Hi2; simpl; rewrite Hn1; reflexivity. }
  unfold dir_get in Hg. destruct (dir_find v (f_inode s2 c) dotdot) as [[d' o]|]; [|discriminate]. injection Hg as ->.
  set (s3 := at_txn x3 s2) in *. assert (Ht3 : table ROOTDEV c (one_more R c) v s3) by (apply table_txn, Ht2).
  destruct (scan_free c (one_more R c) v s3 d Ht3 Hfree Hfr) as (j & Ej & Hj & Rj).
  assert (E4 : dirlookup c dotdot s2 = Ret (j, o) (set_inode j (fun i => Inode ROOTDEV d 1 (i_lock i) false (i_type i) (i_major i) (i_minor i)
    (i_nlink i) (i_size i) (i_addrs i)) s3)).
  { rewrite E3. erewrite bind_ret_l; [reflexivity|]. rewrite iget_run by apply Ht3. rewrite Ej. reflexivity. }
  destruct (tb_ref _ _ _ _ _ Ht3 c Hc) as [Er3 _]. destruct (tb_ref _ _ _ _ _ Ht3 j Hj) as [Ej3 _].
  pose proof (tb_locks _ _ _ _ _ Ht3 c Hc) as Hl3. rewrite Z.eqb_refl in Hl3.
  assert (Hjc : j <> c) by (intros ->; lia). pose proof (tb_locks _ _ _ _ _ Ht3 j Hj) as Hlj. replace (j =? c) with false in Hlj by lia.
  assert (Hrc3 : one_more R c c = R c + 1) by (unfold one_more; apply upd_eq).
  match type of E4 with _ = Ret _ (set_inode j ?f s3) =>
    destruct (leave_dir (S wakeups) s3 c j f (tb_itlock _ _ _ _ _ Ht3) ltac:(unfold NULL; lia) Hjc ltac:(lia) Hl3) as (s4 & E5 & Ei & Et & Es) end.
  exists j, s4. split; [|split; [exact Hj|split]].
  - assert (EL : namex_loop (S wakeups) 3 c dotdot [] false s1 = Ret (j, dotdot) s4).
    { cbn [namex_loop]. change (skipelem dotdot) with (Some (dotdot, @nil Z)). cbv iota beta.
      rewrite (bind_ret_l _ _ _ _ _ E2). unfold get_inode. rewrite bind_gets, Hty2, Z.eqb_refl. cbn [negb andb].
      rewrite (bind_ret_l _ _ _ _ _ E4). cbv iota beta. replace (j =? NULL) with false by (unfold NULL; lia). rewrite (bind_ret_l _ _ _ _ _ E5). reflexivity. }
    unfold namei. rewrite (bind_ret_l _ _ _ (j, dotdot) s4); [reflexivity|]. unfold namex. change (cchar dotdot 0 =? slash) with false. cbv iota.
    rewrite (bind_bind _ _ _ _ _ _ (eq_refl : gets f_cwd s = Ret (f_cwd s) s)). fold c. rewrite (bind_ret_l _ _ _ _ _ E1). exact EL.
  - split; rewrite ?Ei, ?Es; auto; apply Hlj.
  - apply (blocks_moved ROOTDEV s3); [exact B3|exact Et|exact Es].
Qed.
End Lookup.

Section Gone.
Context {T U D : Type} `{TX : Txn T} `{TC : TxnCtl T} {TI TA : TxnLaws T ROOTDEV} `{CL : !TxnCtlLaws T ROOTDEV TI TA}.
Context `{UM : UserMem U} `{UP : UserProc U}.

(** C34. A process can make the kernel panic.  If its current directory is a
    directory whose entry ".." names an inode that is free - as it is when both
    the directory and its parent have been removed - then changing to ".."
    panics in [ilock], in every state of the kernel between operations. *)
Theorem parent_gone_panics wakeups (s : kern T U D) v R d u :
  let f := k_fs s in let c := f_cwd f in let i := dinode ROOTDEV v (f_sb f) (i_inum (f_inode f c)) in
  table ROOTDEV NULL R v f -> roomy R -> image_ok ROOTDEV v (f_sb f) -> blocks ROOTDEV (TL := TI) f [] v [] 0 ->
  0 <= c < NINODE -> 0 < R c -> i_type i = T_DIR -> dir_get v i dotdot = Some d -> i_type (dinode ROOTDEV v (f_sb f) d) = 0 ->
  copyin_str (k_args s 0) MAXPATH (f_user f) = Ret (Some dotdot) u ->
  sys_chdir (S wakeups) s = Panic "ilock: no type".
Proof using CL.
  intros f c i Ht Hroom Him [B Hh] Hc Hr Hty Hget Hfree Hstr. destruct (t_begin (f_txn f) v B) as (x & Eb & B1).
  set (s1 := set fs_of (at_txn x f) s). set (s2 := set proc_user u s1).
  assert (B2 : blocks ROOTDEV (TL := TA) (k_fs s2) [] v [] MAXOPBLOCKS) by (split; [exact B1|intros b Hb; apply t_same_home, Hh, Hb]).
  assert (Ht2 : table ROOTDEV NULL R v (k_fs s2)) by (destruct Ht; split; assumption).
  destruct (namei_gone (TL := TA) wakeups (k_fs s2) v [] MAXOPBLOCKS R d Ht2 Hroom Him B2 Hc Hr Hty Hget Hfree) as (ip & f3 & E3 & Hip & Hfe & B3).
  unfold sys_chdir. rewrite (bind_ret_l _ _ _ tt s1) by (unfold begin_op; apply (zoom_ret fs_of), (zoom_ret txn_of), Eb).
  rewrite (bind_ret_l _ _ _ (Some dotdot) s2).
  2: { unfold argstr, argaddr, argraw. change ((0 <=? 0) && (0 <=? 5)) with true. cbv iota. rewrite bind_gets. unfold fetchstr. apply (zoom_ret proc_user). exact Hstr. }
  cbv iota. rewrite (bind_ret_l _ _ _ ip (set fs_of f3 s2)) by apply (zoom_ret fs_of), E3.
  replace (ip =? NULL) with false by (unfold NULL; lia). unfold bind at 1, zoom. change (view fs_of (set fs_of f3 s2)) with f3.
  rewrite (ilock_free wakeups f3 v [] MAXOPBLOCKS ip d Hfe ltac:(unfold NULL; lia) B3). reflexivity.
Qed.
End Gone.

(** ** Examples *)

Module ExampleGone.
Import Ideal IdealMem ExampleDisk ExampleTree ExampleFile.

(** The strings of the process: "a", "a/b", "/a/b", "/a" and "..". *)
Definition strings (a : Z) : list Z :=
  nth (Z.to_nat a) [[97]; [97; 47; 98]; [47; 97; 47; 98]; [47; 97]; [46; 46]] [].
#[local] Instance gone_proc : UserProc imem :=
  {| page_alloc := ret 0; page_free _ := ret tt; copyin_str a _ := ret (Some (strings a)); user_sz _ := 8192 |}.
Definition gone_log : logst bst :=
  Logst (Bst tree_view tree_view (fun _ => 0) (fun _ => false) 0 []) 2 0 false 1 0 (replicate 30 0) false.
Definition gone_kern : kern (logst bst) imem unit :=
  Kern (FS gone_log ex_sb false tree_table 4 7 ex_mem []) false (fun _ => File FD_NONE 0 false false 0 0 0 0)
       (fun _ => Pipe false (fun _ => 0) 0 0 false false (fun _ => false) false tt) false (fun _ => NULL) (fun _ => 0) tt.

(** Calls with one string each: their results, and the panic if there is one. *)
Fixpoint calls (cs : list (fcall * Z)) (s : kern (logst bst) imem unit) : list Z * option string :=
  match cs with
  | [] => ([], None)
  | (c, a) :: cs =>
      match run_fcall (TC := log_ctl 1) (fun _ => Devops None None) [] 1 c (with_args (fun _ => a) s) with
      | Ret r s' => let '(rs, m) := calls cs s' in (r :: rs, m)
      | Panic m => ([], Some m)
      | _ => ([], None)
      end
  end.

(** Such a state is reached by system calls: the process makes the directories
    "a" and "a/b", goes into the second, removes it and then the first - both
    are empty - and goes to "..". *)
Example gone_reached :
  calls [(F_mkdir, 0); (F_mkdir, 1); (F_chdir, 1); (F_unlink, 2); (F_unlink, 3); (F_chdir, 4)] gone_kern =
  ([0; 0; 0; 0; 0], Some "ilock: no type").
Proof. vm_compute. reflexivity. Qed.

(** The root is empty; inode 3, a directory without a name, has ".." for inode
    2, which is free.  It is the current directory. *)
Definition left_blocks (b : Z) : list Z :=
  if b =? 33 then replicate 64 0 ++ disk_inode T_DIR 1 16 36 ++ replicate 64 0 ++ disk_inode T_DIR 0 32 38
  else if b =? 36 then mk_dirent 1 [46]
  else if b =? 38 then mk_dirent 3 [46] ++ mk_dirent 2 dotdot
  else [].
Definition left_view (b : Z) : block := fun x => if b =? 35 then ex_view 35 x else if x <? 0 then 0 else nth (Z.to_nat x) (left_blocks b) 0.
Definition left_table (k : Z) : inode := if k =? 4 then Inode 1 3 1 initsleeplock false 0 0 0 0 0 [] else Inode 0 0 0 initsleeplock false 0 0 0 0 0 [].
Definition left_log : logst bst :=
  Logst (Bst left_view left_view (fun _ => 0) (fun _ => false) 0 []) 2 0 false 1 0 (replicate 30 0) false.
Definition left_fs : fs (logst bst) imem := FS left_log ex_sb false left_table 4 7 ex_mem [].
Definition left_kern : kern (logst bst) imem unit :=
  Kern left_fs false (fun _ => File FD_NONE 0 false false 0 0 0 0)
       (fun _ => Pipe false (fun _ => 0) 0 0 false false (fun _ => false) false tt) false (fun _ => NULL) (fun _ => 4) tt.

Lemma left_live i : live 1 left_view ex_sb i -> i = 1 \/ i = 3.
Proof.
  intros [Hi Ht].
  pose proof (forallb_seqZ (fun i => (i_type (dinode 1 left_view ex_sb i) =? 0) || (i =? 1) || (i =? 3)) 16 i eq_refl Hi) as Hb.
  cbv beta in Hb. lia.
Qed.

Lemma left_root : linked 1 left_view ex_sb 1.
Proof. split; [split; [split; closed|discriminate]|closed]. Qed.

Lemma left_image : image_ok 1 left_view ex_sb.
Proof.
  split.
  - intros i [->| ->]%left_live; [apply (one_block_file _ _ _ 36)|apply (one_block_file _ _ _ 38)]; try reflexivity; closed.
  - intros i [->| ->]%left_live Ht; reflexivity.
  - intros i name j [Hi Hn] Ht Hg. destruct (left_live i Hi) as [->| ->]; [|vm_compute in Hn; discriminate].
    rewrite dir_get_entries in Hg. apply lookup_in_entry in Hg as (de & Hde & <- & _).
    assert (Hb : forallb (fun de => de_inum de =? 1) (entries left_view (dinode 1 left_view ex_sb 1)) = true) by reflexivity.
    rewrite forallb_forall in Hb. specialize (Hb de (proj1 (list_elem_of_In _ _) Hde)). apply Z.eqb_eq in Hb. rewrite Hb. exact left_root.
  - exact left_root.
Qed.

Lemma left_table_ok : table (T := logst bst) (U := imem) 1 NULL tree_refs left_view left_fs.
Proof.
  split; [reflexivity|..].
  - intros k Hk. simpl. unfold left_table, tree_refs. destruct (k =? 4); simpl; lia.
  - intros j k Hj Hk. unfold tree_refs. destruct (Z.eqb_spec j 4), (Z.eqb_spec k 4); lia.
  - intros k Hk. unfold tree_refs. destruct (Z.eqb_spec k 4) as [->|]; [|lia]. intros _. split; [reflexivity|].
    split; [split; [split; closed|discriminate]|discriminate].
  - intros k Hk. replace (k =? NULL) with false by (unfold NULL; lia). simpl. unfold left_table. destruct (k =? 4); split; reflexivity.
Qed.

Lemma left_idle : blocks 1 (TL := ex_TI) left_fs [] left_view [] 0.
Proof.
  split.
  - split; try reflexivity; try (vm_compute; congruence); try (split; vm_compute; congruence).
    + intros _. repeat split. vm_compute. congruence.
    + intros b Hb. apply elem_of_nil in Hb. contradiction.
    + apply NoDup_nil. exact I.
    + apply NoDup_nil. exact I.
    + intros h b Hin. apply elem_of_nil in Hin. contradiction.
  - intros b Hb. right. simpl in Hb. unfold LOGBLOCKS, MAXOPBLOCKS. lia.
Qed.

Lemma parent_gone_panics_witness : sys_chdir (TC := log_ctl 1) 1 left_kern = Panic "ilock: no type".
Proof.
  apply (parent_gone_panics (TC := log_ctl 1) (TI := ex_TI) (TA := ex_TA) (CL := log_ctl_laws 1 2 0) 0 left_kern left_view tree_refs 2 ex_mem);
    [exact left_table_ok|exact tree_roomy|exact left_image|exact left_idle|split; closed|closed|reflexivity|reflexivity|reflexivity|reflexivity].
Defined.
End ExampleGone.
