(* ===== verification/Proc.v ===== *)
(** * Processes

    [kernel/proc.c].  The process table of one CPU's view: processes are
    numbered by their place in the table, [NULLP] is no process.  Page tables
    and trapframes are in memory ([kst]); open files, inodes and the log are
    reached through [ProcEnv].  Giving up the CPU in [sched] is a [Sleep] step
    of the control monad: the thread goes on in whatever state the scheduler
    switches back to it. *)

From S2P Require Import Prelude CString Riscv Kalloc Vm Spinlock.

Definition NPROC : Z := 64.
Definition NOFILE : Z := 16.
Definition NULLP : Z := -1.

Inductive procstate : Type := UNUSED | USED | SLEEPING | RUNNABLE | RUNNING | ZOMBIE.

#[global] Instance procstate_eq : EqDecision procstate.
Proof. solve_decision. Defined.

(** A name is the characters before its NUL; the registers of a saved context
    other than these two are zero. *)
Record proc : Type := Proc {
  p_lock : bool;
  p_state : procstate;
  p_chan : Z;
  p_killed : Z;
  p_xstate : Z;
  p_pid : Z;
  p_parent : Z;
  p_kstack : Z;
  p_size : Z;
  p_pgtbl : Z;
  p_trapframe : Z;
  p_ra : Z;
  p_sp : Z;
  p_ofile : Z -> Z;
  p_cwd : Z;
  p_name : list Z
}.

(** What processes need from the file system. *)
Class ProcEnv (E : Type) : Type := {
  e_filedup : Z -> M (kst * E) Z;
  e_fileclose : Z -> M (kst * E) unit;
  e_idup : Z -> M (kst * E) Z;
  e_iput_op : Z -> M (kst * E) unit;   (* begin_op(); iput(ip); end_op() *)
  e_namei : list Z -> M (kst * E) Z
}.

Record ps (E : Type) : Type := Ps {
  ps_mem : kst;
  ps_proc : Z -> proc;
  ps_nextpid : Z;
  ps_pidlock : bool;
  ps_waitlock : bool;
  ps_init : Z;           (* initproc *)
  ps_cur : Z;            (* mycpu()->proc *)
  ps_cpu : cpu;          (* noff, intena and the interrupt flag *)
  ps_env : E
}.
Arguments Ps {E}.
Arguments ps_mem {E}.
Arguments ps_proc {E}.
Arguments ps_nextpid {E}.
Arguments ps_pidlock {E}.
Arguments ps_waitlock {E}.
Arguments ps_init {E}.
Arguments ps_cur {E}.
Arguments ps_cpu {E}.
Arguments ps_env {E}.

Definition w_lock (x : bool) (p : proc) : proc :=
  Proc x (p_state p) (p_chan p) (p_killed p) (p_xstate p) (p_pid p) (p_parent p) (p_kstack p) (p_size p) (p_pgtbl p) (p_trapframe p) (p_ra p) (p_sp p) (p_ofile p) (p_cwd p) (p_name p).
Definition w_state (x : procstate) (p : proc) : proc :=
  Proc (p_lock p) x (p_chan p) (p_killed p) (p_xstate p) (p_pid p) (p_parent p) (p_kstack p) (p_size p) (p_pgtbl p) (p_trapframe p) (p_ra p) (p_sp p) (p_ofile p) (p_cwd p) (p_name p).
Definition w_chan (x : Z) (p : proc) : proc :=
  Proc (p_lock p) (p_state p) x (p_killed p) (p_xstate p) (p_pid p) (p_parent p) (p_kstack p) (p_size p) (p_pgtbl p) (p_trapframe p) (p_ra p) (p_sp p) (p_ofile p) (p_cwd p) (p_name p).
Definition w_killed (x : Z) (p : proc) : proc :=
  Proc (p_lock p) (p_state p) (p_chan p) x (p_xstate p) (p_pid p) (p_parent p) (p_kstack p) (p_size p) (p_pgtbl p) (p_trapframe p) (p_ra p) (p_sp p) (p_ofile p) (p_cwd p) (p_name p).
Definition w_xstate (x : Z) (p : proc) : proc :=
  Proc (p_lock p) (p_state p) (p_chan p) (p_killed p) x (p_pid p) (p_parent p) (p_kstack p) (p_size p) (p_pgtbl p) (p_trapframe p) (p_ra p) (p_sp p) (p_ofile p) (p_cwd p) (p_name p).
Definition w_pid (x : Z) (p : proc) : proc :=
  Proc (p_lock p) (p_state p) (p_chan p) (p_killed p) (p_xstate p) x (p_parent p) (p_kstack p) (p_size p) (p_pgtbl p) (p_trapframe p) (p_ra p) (p_sp p) (p_ofile p) (p_cwd p) (p_name p).
Definition w_parent (x : Z) (p : proc) : proc :=
  Proc (p_lock p) (p_state p) (p_chan p) (p_killed p) (p_xstate p) (p_pid p) x (p_kstack p) (p_size p) (p_pgtbl p) (p_trapframe p) (p_ra p) (p_sp p) (p_ofile p) (p_cwd p) (p_name p).
Definition w_kstack (x : Z) (p : proc) : proc :=
  Proc (p_lock p) (p_state p) (p_chan p) (p_killed p) (p_xstate p) (p_pid p) (p_parent p) x (p_size p) (p_pgtbl p) (p_trapframe p) (p_ra p) (p_sp p) (p_ofile p) (p_cwd p) (p_name p).
Definition w_size (x : Z) (p : proc) : proc :=
  Proc (p_lock p) (p_state p) (p_chan p) (p_killed p) (p_xstate p) (p_pid p) (p_parent p) (p_kstack p) x (p_pgtbl p) (p_trapframe p) (p_ra p) (p_sp p) (p_ofile p) (p_cwd p) (p_name p).
Definition w_pgtbl (x : Z) (p : proc) : proc :=
  Proc (p_lock p) (p_state p) (p_chan p) (p_killed p) (p_xstate p) (p_pid p) (p_parent p) (p_kstack p) (p_size p) x (p_trapframe p) (p_ra p) (p_sp p) (p_ofile p) (p_cwd p) (p_name p).
Definition w_trapframe (x : Z) (p : proc) : proc :=
  Proc (p_lock p) (p_state p) (p_chan p) (p_killed p) (p_xstate p) (p_pid p) (p_parent p) (p_kstack p) (p_size p) (p_pgtbl p) x (p_ra p) (p_sp p) (p_ofile p) (p_cwd p) (p_name p).
Definition w_context (ra sp : Z) (p : proc) : proc :=
  Proc (p_lock p) (p_state p) (p_chan p) (p_killed p) (p_xstate p) (p_pid p) (p_parent p) (p_kstack p) (p_size p) (p_pgtbl p) (p_trapframe p) ra sp (p_ofile p) (p_cwd p) (p_name p).
Definition w_ofile (x : Z -> Z) (p : proc) : proc :=
  Proc (p_lock p) (p_state p) (p_chan p) (p_killed p) (p_xstate p) (p_pid p) (p_parent p) (p_kstack p) (p_size p) (p_pgtbl p) (p_trapframe p) (p_ra p) (p_sp p) x (p_cwd p) (p_name p).
Definition w_cwd (x : Z) (p : proc) : proc :=
  Proc (p_lock p) (p_state p) (p_chan p) (p_killed p) (p_xstate p) (p_pid p) (p_parent p) (p_kstack p) (p_size p) (p_pgtbl p) (p_trapframe p) (p_ra p) (p_sp p) (p_ofile p) x (p_name p).
Definition w_name (x : list Z) (p : proc) : proc :=
  Proc (p_lock p) (p_state p) (p_chan p) (p_killed p) (p_xstate p) (p_pid p) (p_parent p) (p_kstack p) (p_size p) (p_pgtbl p) (p_trapframe p) (p_ra p) (p_sp p) (p_ofile p) (p_cwd p) x.

Section Proc.
Context {E : Type} `{PE : ProcEnv E}.
(** Addresses the linker decides: the trampoline page, [forkret], and the
    entries of the table, which serve as wait channels; and of the field
    [xstate] of an entry. *)
Context (trampoline forkret : Z) (proc_at xstate_at : Z -> Z).

Definition mem_of : lens (ps E) kst :=
  Lens ps_mem (fun x s => Ps x (ps_proc s) (ps_nextpid s) (ps_pidlock s) (ps_waitlock s) (ps_init s) (ps_cur s) (ps_cpu s) (ps_env s)).
Definition env_of : lens (ps E) (kst * E) :=
  Lens (fun s => (ps_mem s, ps_env s))
       (fun x s => Ps x.1 (ps_proc s) (ps_nextpid s) (ps_pidlock s) (ps_waitlock s) (ps_init s) (ps_cur s) (ps_cpu s) x.2).
Definition set_proc (p : Z) (f : proc -> proc) (s : ps E) : ps E :=
  Ps (ps_mem s) (upd (ps_proc s) p (f (ps_proc s p))) (ps_nextpid s) (ps_pidlock s) (ps_waitlock s) (ps_init s) (ps_cur s) (ps_cpu s) (ps_env s).
Definition set_nextpid (x : Z) (s : ps E) : ps E :=
  Ps (ps_mem s) (ps_proc s) x (ps_pidlock s) (ps_waitlock s) (ps_init s) (ps_cur s) (ps_cpu s) (ps_env s).
Definition set_init (x : Z) (s : ps E) : ps E :=
  Ps (ps_mem s) (ps_proc s) (ps_nextpid s) (ps_pidlock s) (ps_waitlock s) x (ps_cur s) (ps_cpu s) (ps_env s).
Definition set_cur (x : Z) (s : ps E) : ps E :=
  Ps (ps_mem s) (ps_proc s) (ps_nextpid s) (ps_pidlock s) (ps_waitlock s) (ps_init s) x (ps_cpu s) (ps_env s).
Definition set_pcpu (x : cpu) (s : ps E) : ps E :=
  Ps (ps_mem s) (ps_proc s) (ps_nextpid s) (ps_pidlock s) (ps_waitlock s) (ps_init s) (ps_cur s) x (ps_env s).
Definition pid_lock : lens (ps E) bool :=
  Lens ps_pidlock (fun x s => Ps (ps_mem s) (ps_proc s) (ps_nextpid s) x (ps_waitlock s) (ps_init s) (ps_cur s) (ps_cpu s) (ps_env s)).
Definition wait_lock : lens (ps E) bool :=
  Lens ps_waitlock (fun x s => Ps (ps_mem s) (ps_proc s) (ps_nextpid s) (ps_pidlock s) x (ps_init s) (ps_cur s) (ps_cpu s) (ps_env s)).
Definition proc_lock (p : Z) : lens (ps E) bool :=
  Lens (fun s => p_lock (ps_proc s p)) (fun x => set_proc p (w_lock x)).

Definition get_proc (p : Z) : M (ps E) proc := gets (fun s => ps_proc s p).
Definition myproc : M (ps E) Z := gets ps_cur.

(** Spin locks with the interrupt nesting they entail. *)
Definition acquire_off (l : lens (ps E) bool) : M (ps E) unit :=
  modify (fun s => set_pcpu (push_off (ps_cpu s)) s) ;; acquire l.
Definition pop : M (ps E) unit := fun s =>
  match pop_off (ps_cpu s) with
  | inl msg => Panic msg
  | inr c => Ret tt (set_pcpu c s)
  end.
Definition release_off (l : lens (ps E) bool) : M (ps E) unit := release l ;; pop.

(** ** Boot *)

Fixpoint proc_mapstacks_loop (n : nat) (kpgtbl p : Z) : M kst unit :=
  match n with
  | O => ret tt
  | S n =>
      let! pa := kalloc in
      if pa =? 0 then panic "kalloc" else
      kvmmap kpgtbl (KSTACK p) pa PGSIZE (Z.lor PTE_R PTE_W) ;;
      proc_mapstacks_loop n kpgtbl (p + 1)
  end.

Definition proc_mapstacks (kpgtbl : Z) : M kst unit := proc_mapstacks_loop (Z.to_nat NPROC) kpgtbl 0.

Fixpoint procinit_loop (n : nat) (p : Z) : M (ps E) unit :=
  match n with
  | O => ret tt
  | S n =>
      modify (set_proc p (w_lock false)) ;;
      modify (set_proc p (w_state UNUSED)) ;;
      modify (set_proc p (w_kstack (KSTACK p))) ;;
      procinit_loop n (p + 1)
  end.

Definition procinit : M (ps E) unit :=
  modify (set pid_lock false) ;;
  modify (set wait_lock false) ;;
  procinit_loop (Z.to_nat NPROC) 0.

(** ** Allocation *)

Definition allocpid : M (ps E) Z :=
  acquire_off pid_lock ;;
  let! pid := gets ps_nextpid in
  modify (set_nextpid (i32 (pid + 1))) ;;
  release_off pid_lock ;;
  ret pid.

Definition proc_pagetable (trapframe : Z) : M kst Z :=
  let! pagetable := uvmcreate in
  if pagetable =? 0 then ret 0 else
  let! r := mappages pagetable TRAMPOLINE PGSIZE trampoline (Z.lor PTE_R PTE_X) in
  if r <? 0 then uvmfree pagetable 0 ;; ret 0 else
  let! r := mappages pagetable TRAPFRAME PGSIZE trapframe (Z.lor PTE_R PTE_W) in
  if r <? 0 then
    uvmunmap pagetable TRAMPOLINE 1 false ;;
    uvmfree pagetable 0 ;;
    ret 0
  else ret pagetable.

Definition proc_freepagetable (pagetable sz : Z) : M kst unit :=
  uvmunmap pagetable TRAMPOLINE 1 false ;;
  uvmunmap pagetable TRAPFRAME 1 false ;;
  uvmfree pagetable sz.

Definition freeproc (p : Z) : M (ps E) unit :=
  let! x := get_proc p in
  when (negb (p_trapframe x =? 0)) (zoom mem_of (kfree (p_trapframe x))) ;;
  modify (set_proc p (w_trapframe 0)) ;;
  when (negb (p_pgtbl x =? 0)) (zoom mem_of (proc_freepagetable (p_pgtbl x) (p_size x))) ;;
  modify (set_proc p (w_pgtbl 0)) ;;
  modify (set_proc p (w_size 0)) ;;
  modify (set_proc p (w_pid 0)) ;;
  modify (set_proc p (w_parent NULLP)) ;;
  modify (set_proc p (w_name [])) ;;
  modify (set_proc p (w_chan 0)) ;;
  modify (set_proc p (w_killed 0)) ;;
  modify (set_proc p (w_xstate 0)) ;;
  modify (set_proc p (w_state UNUSED)).

(** The loop up to [found]: the entry, with its lock held. *)
Fixpoint allocproc_scan (n : nat) (p : Z) : M (ps E) Z :=
  match n with
  | O => ret NULLP
  | S n =>
      acquire_off (proc_lock p) ;;
      let! x := get_proc p in
      if decide (p_state x = UNUSED) then ret p
      else release_off (proc_lock p) ;; allocproc_scan n (p + 1)
  end.

Definition alloc_failed (p : Z) : M (ps E) Z :=
  freeproc p ;; release_off (proc_lock p) ;; ret NULLP.

Definition allocproc : M (ps E) Z :=
  let! p := allocproc_scan (Z.to_nat NPROC) 0 in
  if p =? NULLP then ret NULLP else
  let! pid := allocpid in
  modify (set_proc p (w_pid pid)) ;;
  modify (set_proc p (w_state USED)) ;;
  let! tf := zoom mem_of kalloc in
  modify (set_proc p (w_trapframe tf)) ;;
  if tf =? 0 then alloc_failed p else
  let! pt := zoom mem_of (proc_pagetable tf) in
  modify (set_proc p (w_pgtbl pt)) ;;
  if pt =? 0 then alloc_failed p else
  let! x := get_proc p in
  modify (set_proc p (w_context forkret (u64 (p_kstack x + PGSIZE)))) ;;
  ret p.

(** The first process; without memory for it the machine cannot start. *)
Definition userinit : M (ps E) unit :=
  let! p := allocproc in
  modify (set_init p) ;;
  let! ip := zoom env_of (e_namei [47]) in
  modify (set_proc p (w_cwd ip)) ;;
  modify (set_proc p (w_state RUNNABLE)) ;;
  release_off (proc_lock p).

Definition growproc (n : Z) : M (ps E) Z :=
  let! p := myproc in
  let! x := get_proc p in
  let sz := p_size x in
  if 0 <? n then
    if TRAPFRAME <? u64 (sz + n) then ret (-1) else
    let! sz := zoom mem_of (uvmalloc (p_pgtbl x) sz (u64 (sz + n)) PTE_W) in
    if sz =? 0 then ret (-1) else
    modify (set_proc p (w_size sz)) ;; ret 0
  else
    let! sz := (if n <? 0 then zoom mem_of (uvmdealloc (p_pgtbl x) sz (u64 (sz + n))) else ret sz) in
    modify (set_proc p (w_size sz)) ;; ret 0.

(** ** Waiting *)

Fixpoint wakeup_loop (n : nat) (chan p : Z) : M (ps E) unit :=
  match n with
  | O => ret tt
  | S n =>
      let! me := myproc in
      when (negb (p =? me))
        (acquire_off (proc_lock p) ;;
         let! x := get_proc p in
         when (bool_decide (p_state x = SLEEPING) && (p_chan x =? chan)) (modify (set_proc p (w_state RUNNABLE))) ;;
         release_off (proc_lock p)) ;;
      wakeup_loop n chan (p + 1)
  end.

Definition wakeup (chan : Z) : M (ps E) unit := wakeup_loop (Z.to_nat NPROC) chan 0.

(** The switch to the scheduler and back. *)
Definition swtch_out (chan : Z) : M (ps E) unit := fun s => Sleep chan s (fun s' => Ret tt s').

Definition sched : M (ps E) unit :=
  let! p := myproc in
  let! x := get_proc p in
  let! c := gets ps_cpu in
  if negb (p_lock x) then panic "sched p->lock"
  else if negb (c_noff c =? 1) then panic "sched locks"
  else if bool_decide (p_state x = RUNNING) then panic "sched RUNNING"
  else if c_intr c then panic "sched interruptible"
  else
    swtch_out (p_chan x) ;;
    modify (fun s => set_pcpu (Cpu (c_intr (ps_cpu s)) (c_noff (ps_cpu s)) (c_intena c)) s).

Definition yield : M (ps E) unit :=
  let! p := myproc in
  acquire_off (proc_lock p) ;;
  modify (set_proc p (w_state RUNNABLE)) ;;
  sched ;;
  release_off (proc_lock p).

Definition sleep (chan : Z) (lk : lens (ps E) bool) : M (ps E) unit :=
  let! p := myproc in
  acquire_off (proc_lock p) ;;
  release_off lk ;;
  modify (set_proc p (w_chan chan)) ;;
  modify (set_proc p (w_state SLEEPING)) ;;
  sched ;;
  modify (set_proc p (w_chan 0)) ;;
  release_off (proc_lock p) ;;
  acquire_off lk.

(** One pass of a CPU's scheduler over the table: [runs p] is what happens
    between switching to process [p] and its switching back. *)
Fixpoint scheduler_pass (runs : Z -> M (ps E) unit) (n : nat) (p : Z) (found : bool) : M (ps E) bool :=
  match n with
  | O => ret found
  | S n =>
      acquire_off (proc_lock p) ;;
      let! x := get_proc p in
      let! found :=
        (if decide (p_state x = RUNNABLE) then
           modify (set_proc p (w_state RUNNING)) ;;
           modify (set_cur p) ;;
           runs p ;;
           modify (set_cur NULLP) ;;
           ret true
         else ret found) in
      release_off (proc_lock p) ;;
      scheduler_pass runs n (p + 1) found
  end.

Definition scheduler_round (runs : Z -> M (ps E) unit) : M (ps E) bool :=
  modify (fun s => set_pcpu (Cpu true (c_noff (ps_cpu s)) (c_intena (ps_cpu s))) s) ;;
  modify (fun s => set_pcpu (Cpu false (c_noff (ps_cpu s)) (c_intena (ps_cpu s))) s) ;;
  scheduler_pass runs (Z.to_nat NPROC) 0 false.

(** ** Being killed *)

Fixpoint kkill_loop (n : nat) (pid p : Z) : M (ps E) Z :=
  match n with
  | O => ret (-1)
  | S n =>
      acquire_off (proc_lock p) ;;
      let! x := get_proc p in
      if p_pid x =? pid then
        modify (set_proc p (w_killed 1)) ;;
        when (bool_decide (p_state x = SLEEPING)) (modify (set_proc p (w_state RUNNABLE))) ;;
        release_off (proc_lock p) ;;
        ret 0
      else release_off (proc_lock p) ;; kkill_loop n pid (p + 1)
  end.

Definition kkill (pid : Z) : M (ps E) Z := kkill_loop (Z.to_nat NPROC) pid 0.

Definition setkilled (p : Z) : M (ps E) unit :=
  acquire_off (proc_lock p) ;;
  modify (set_proc p (w_killed 1)) ;;
  release_off (proc_lock p).

Definition killed (p : Z) : M (ps E) Z :=
  acquire_off (proc_lock p) ;;
  let! x := get_proc p in
  release_off (proc_lock p) ;;
  ret (p_killed x).

(** ** Fork, exit and wait *)

(** [struct trapframe] has 36 registers; [a0] is the fifteenth. *)
Definition TRAPFRAME_SIZE : Z := 288.
Definition TF_a0 : Z := 112.

Fixpoint dup_files (n : nat) (p np i : Z) : M (ps E) unit :=
  match n with
  | O => ret tt
  | S n =>
      let! x := get_proc p in
      when (negb (p_ofile x i =? NULLP))
        (let! f := zoom env_of (e_filedup (p_ofile x i)) in
         modify (set_proc np (fun y => w_ofile (upd (p_ofile y) i f) y))) ;;
      dup_files n p np (i + 1)
  end.

Definition kfork : M (ps E) Z :=
  let! p := myproc in
  let! np := allocproc in
  if np =? NULLP then ret (-1) else
  let! x := get_proc p in
  let! y := get_proc np in
  let! r := zoom mem_of (uvmcopy (p_pgtbl x) (p_pgtbl y) (p_size x)) in
  if r <? 0 then freeproc np ;; release_off (proc_lock np) ;; ret (-1) else
  modify (set_proc np (w_size (p_size x))) ;;
  zoom mem_of (memmove_k (p_trapframe y) (p_trapframe x) TRAPFRAME_SIZE) ;;
  zoom mem_of (st64 (p_trapframe y + TF_a0) 0) ;;
  dup_files (Z.to_nat NOFILE) p np 0 ;;
  let! ip := zoom env_of (e_idup (p_cwd x)) in
  modify (set_proc np (w_cwd ip)) ;;
  modify (set_proc np (w_name (take 15 (p_name x)))) ;;
  let! y := get_proc np in
  let pid := p_pid y in
  release_off (proc_lock np) ;;
  acquire_off wait_lock ;;
  modify (set_proc np (w_parent p)) ;;
  release_off wait_lock ;;
  acquire_off (proc_lock np) ;;
  modify (set_proc np (w_state RUNNABLE)) ;;
  release_off (proc_lock np) ;;
  ret pid.

Fixpoint reparent_loop (n : nat) (p pp : Z) : M (ps E) unit :=
  match n with
  | O => ret tt
  | S n =>
      let! x := get_proc pp in
      when (p_parent x =? p)
        (let! i := gets ps_init in
         modify (set_proc pp (w_parent i)) ;;
         wakeup (proc_at i)) ;;
      reparent_loop n p (pp + 1)
  end.

Definition reparent (p : Z) : M (ps E) unit := reparent_loop (Z.to_nat NPROC) p 0.

Fixpoint close_files (n : nat) (p fd : Z) : M (ps E) unit :=
  match n with
  | O => ret tt
  | S n =>
      let! x := get_proc p in
      when (negb (p_ofile x fd =? NULLP))
        (zoom env_of (e_fileclose (p_ofile x fd)) ;;
         modify (set_proc p (fun y => w_ofile (upd (p_ofile y) fd NULLP) y))) ;;
      close_files n p (fd + 1)
  end.

(** Never returns: a zombie is not switched to again. *)
Definition kexit (status : Z) : M (ps E) unit :=
  let! p := myproc in
  let! i := gets ps_init in
  if p =? i then panic "init exiting" else
  close_files (Z.to_nat NOFILE) p 0 ;;
  let! x := get_proc p in
  zoom env_of (e_iput_op (p_cwd x)) ;;
  modify (set_proc p (w_cwd NULLP)) ;;
  acquire_off wait_lock ;;
  reparent p ;;
  let! x := get_proc p in
  wakeup (proc_at (p_parent x)) ;;
  acquire_off (proc_lock p) ;;
  modify (set_proc p (w_xstate status)) ;;
  modify (set_proc p (w_state ZOMBIE)) ;;
  release_off wait_lock ;;
  sched ;;
  panic "zombie exit".

(** What one scan of [kwait] comes to: a result, or whether there are children. *)
Fixpoint kwait_scan (n : nat) (p addr pp : Z) (havekids : bool) : M (ps E) (Z + bool) :=
  match n with
  | O => ret (inr havekids)
  | S n =>
      let! x := get_proc pp in
      if p_parent x =? p then
        acquire_off (proc_lock pp) ;;
        let! x := get_proc pp in
        if decide (p_state x = ZOMBIE) then
          let! me := get_proc p in
          let! r :=
            (if addr =? 0 then ret 0
             else zoom mem_of (modify (fun k => set_phys (store_le (phys k) (xstate_at pp) 4 (u32 (p_xstate x))) k) ;;
                               copyout (Uproc (p_size me) (p_pgtbl me)) (p_pgtbl me) addr (xstate_at pp) 4)) in
          if r <? 0 then release_off (proc_lock pp) ;; release_off wait_lock ;; ret (inl (-1))
          else
            freeproc pp ;;
            release_off (proc_lock pp) ;;
            release_off wait_lock ;;
            ret (inl (p_pid x))
        else
          release_off (proc_lock pp) ;;
          kwait_scan n p addr (pp + 1) true
      else kwait_scan n p addr (pp + 1) havekids
  end.

Fixpoint kwait_loop (fuel : nat) (p addr : Z) : M (ps E) Z :=
  match fuel with
  | O => nofuel
  | S fuel =>
      let! r := kwait_scan (Z.to_nat NPROC) p addr 0 false in
      match r with
      | inl r => ret r
      | inr havekids =>
          let! k := (if negb havekids then ret 1 else killed p) in
          if negb (k =? 0) then release_off wait_lock ;; ret (-1)
          else sleep (proc_at p) wait_lock ;; kwait_loop fuel p addr
      end
  end.

Definition kwait (fuel : nat) (addr : Z) : M (ps E) Z :=
  let! p := myproc in
  acquire_off wait_lock ;;
  kwait_loop fuel p addr.

(** ** Listing *)

Definition state_name (st : procstate) : string :=
  match st with
  | UNUSED => "unused" | USED => "used" | SLEEPING => "sleep " | RUNNABLE => "runble" | RUNNING => "run   " | ZOMBIE => "zombie"
  end.

(** The lines printed, as pid, state and name. *)
Definition procdump (s : ps E) : list (Z * string * list Z) :=
  (fun p => (p_pid p, state_name (p_state p), p_name p)) <$>
    filter (fun p => p_state p <> UNUSED) (ps_proc s <$> seqZ 0 NPROC).
End Proc.
