(* ===== verification/ProcMem.v ===== *)
(** * The memory of processes

    A process's address space: its page table with the trampoline and the
    trapframe at the top and its own pages below.  Creating and freeing one
    ([proc_pagetable], [proc_freepagetable]) and what stays of it when others
    are worked on. *)

From S2P Require Import Prelude CString Riscv Spinlock Kalloc Vm Proc PageTable AddressSpace CopyUser Spaces.

(** ** Entries above the user's part *)

(** The table may grow and change above [top]. *)
Lemma as_reflag top root s l s' l' : as_wf top root s l -> top <= MAXVA -> grows root s l s' l' ->
  (forall va, 0 <= va < top -> PTE2PA <$> pt_map (phys s') root va = PTE2PA <$> pt_map (phys s) root va) ->
  as_wf top root s' l' /\ confined top root s l s' l' /\
  forall va, 0 <= va < top -> umem (phys s') root va = umem (phys s) root va.
Proof.
  intros Ha Htop Hg Hm. pose proof (gr_end _ _ _ _ _ Hg) as He.
  assert (Hm1 : forall va v, 0 <= va < top -> pt_map (phys s') root va = Some v -> exists w, pt_map (phys s) root va = Some w /\ PTE2PA v = PTE2PA w).
  { intros va v Hva Hv. specialize (Hm va Hva). rewrite Hv in Hm. destruct (pt_map (phys s) root va) as [w|]; [|discriminate]. injection Hm as E. eauto. }
  assert (Hm2 : forall va w, 0 <= va < top -> pt_map (phys s) root va = Some w -> exists v, pt_map (phys s') root va = Some v /\ PTE2PA w = PTE2PA v).
  { intros va w Hva Hw. specialize (Hm va Hva). rewrite Hw in Hm. destruct (pt_map (phys s') root va) as [v|]; [|discriminate]. injection Hm as E. eauto. }
  split; [|split].
  - split; [apply Hg|rewrite He; apply Hg| |].
    + intros va v Hva Hv. destruct (Hm1 va v Hva Hv) as (w & Hw & ->). destruct (as_page _ _ _ _ Ha va w Hva Hw) as (H1 & H2 & H3).
      rewrite He. split; [exact H1|]. split; [intros H; apply H2; eapply grows_free; eauto|].
      intros H. destruct (grows_table _ _ _ _ _ _ Hg H); auto.
    + intros va va' v v' Hva Hva' Hv Hv'. destruct (Hm1 va v Hva Hv) as (w & Hw & ->), (Hm1 va' v' Hva' Hv') as (w' & Hw' & ->).
      apply (as_inj _ _ _ _ Ha); assumption.
  - split; [exact He| | |apply Hg].
    + intros q. split.
      * intros [Hq|[Hq|(va & v & Hva & Hv & ->)]]; [left; eapply grows_free; eauto|destruct (grows_table _ _ _ _ _ _ Hg Hq); [right; left|left]; assumption|].
        right. right. destruct (Hm1 va v Hva Hv) as (w & Hw & ->). exists va, w. auto.
      * intros [Hq|[(path & Hs & Hq)|(va & v & Hva & Hv & ->)]].
        -- destruct (gr_used _ _ _ _ _ Hg q Hq); [left|right; left]; assumption.
        -- right. left. exists path. split; [exact Hs|]. apply Hg; assumption.
        -- right. right. destruct (Hm2 va v Hva Hv) as (w & Hw & ->). exists va, w. auto.
    + intros x Hx. apply (gr_frame _ _ _ _ _ Hg); [intros p Hp; apply Hx; left; exact Hp|].
      intros path p Hs Hp. apply Hx. right. left. exists path. auto.
  - intros va Hva. unfold umem. destruct (pt_map (phys s) root va) as [v|] eqn:Ev.
    + destruct (Hm2 va v Hva Ev) as (w & -> & <-). destruct (as_page _ _ _ _ Ha va v Hva Ev) as (H1 & H2 & H3). f_equal.
      apply (grows_other root s l s' l' (PTE2PA v) _ (as_inv _ _ _ _ Ha) (as_pt _ _ _ _ Ha) Hg H1 H2 H3). unfold in_page, PGSIZE. dlia.
    + destruct (pt_map (phys s') root va) as [v|] eqn:Ev'; [|reflexivity]. destruct (Hm1 va v Hva Ev') as (w & Hw & _). congruence.
Qed.

Lemma as_kept top root s l s' l' : as_wf top root s l -> top <= MAXVA -> grows root s l s' l' ->
  (forall va, 0 <= va < top -> pt_map (phys s') root va = pt_map (phys s) root va) ->
  as_wf top root s' l' /\ confined top root s l s' l' /\
  forall va, 0 <= va < top -> umem (phys s') root va = umem (phys s) root va.
Proof. intros Ha Htop Hg Hm. apply as_reflag; auto. intros va Hva. rewrite Hm by exact Hva. reflexivity. Qed.

Section Above.
Context (top root a : Z).
Hypothesis (Htop : 0 <= top) (Ha : top <= a < MAXVA) (Hal : a mod 4096 = 0) (Htal : top mod 4096 = 0).

(** A page of the kernel's is mapped at [a]. *)
Lemma map_shared s l p perm : as_wf top root s l -> pt_map (phys s) root a = None -> p mod 4096 = 0 -> 0 <= p < 2 ^ 56 -> 0 <= perm < 1024 ->
  exists r s' l', mappages root a PGSIZE p perm s = Ret r s' /\ as_wf top root s' l' /\ confined top root s l s' l' /\
    (r = 0 /\ (forall va, 0 <= va < MAXVA -> pt_map (phys s') root va =
       if va / 4096 =? a / 4096 then Some (leaf p perm) else pt_map (phys s) root va)
     \/ r = -1 /\ forall va, 0 <= va < MAXVA -> pt_map (phys s') root va = pt_map (phys s) root va).
Proof using All.
  intros Has Hnone Hp1 Hp2 Hperm. destruct (mappages_page MAXVA root a perm ltac:(reflexivity) Hperm ltac:(lia) Hal ltac:(reflexivity) s l p
    (as_inv _ _ _ _ Has) (as_pt _ _ _ _ Has) Hp1 Hp2 Hnone) as (r & s' & l' & E & Hg & Hr).
  exists r, s', l'. split; [exact E|]. destruct (as_kept top root s l s' l' Has ltac:(lia) Hg) as (H1 & H2 & _).
  - intros va Hva. destruct Hr as [[_ Hm]|(_ & _ & Hm)]; rewrite Hm by lia; [|reflexivity]. replace (_ =? _) with false by dlia. reflexivity.
  - split; [exact H1|]. split; [exact H2|]. destruct Hr as [Hr|(Hr & _ & Hm)]; auto.
Qed.

(** Its mapping goes away; the page stays. *)
Lemma unmap_shared s l : as_wf top root s l ->
  exists s', uvmunmap root a 1 false s = Ret tt s' /\ as_wf top root s' l /\ confined top root s l s' l /\
    forall va, 0 <= va < MAXVA -> pt_map (phys s') root va = if va / 4096 =? a / 4096 then None else pt_map (phys s) root va.
Proof using All.
  intros Has. assert (HM : MAXVA = 2 ^ 38) by reflexivity.
  assert (Hrun : forall s1, unmap_page root a false s = Ret tt s1 -> uvmunmap root a 1 false s = Ret tt s1).
  { intros s1 E. unfold uvmunmap, PGSIZE. rewrite Hal. change (S (Z.to_nat 1)) with 2%nat. rewrite Z.eqb_refl. cbn [negb].
    replace (u64 (a + 1 * 4096)) with (a + 4096) by (rewrite u64_small; lia). cbn [uvmunmap_loop]. replace (a <? a + 4096) with true by lia.
    rewrite (bind_ret_l _ _ _ _ _ E). unfold PGSIZE. rewrite u64_small, Z.ltb_irrefl by lia. reflexivity. }
  unfold unmap_page in Hrun. rewrite (bind_ret_l _ _ _ _ _ (walk_lookup s root a ltac:(lia))) in Hrun.
  destruct (leaf_slot (phys s) root a) as [slot|] eqn:Es; simpl in Hrun.
  - pose proof (leaf_slot_pos _ _ _ _ _ _ (as_pt _ _ _ _ Has) Es). destruct (Z.eqb_spec slot 0) as [|_]; [lia|].
    unfold ld64, st64 in Hrun. rewrite bind_gets in Hrun. destruct (flag _ PTE_V) eqn:Ef; simpl in Hrun.
    + eexists. split; [apply Hrun; reflexivity|].
      pose proof (leaf_store_grows root s l a slot 0 (as_inv _ _ _ _ Has) (as_pt _ _ _ _ Has) Es) as Hg.
      assert (Hm : forall va, 0 <= va < MAXVA -> pt_map (store_le (phys s) slot 8 0) root va = if va / 4096 =? a / 4096 then None else pt_map (phys s) root va).
      { intros va Hva. rewrite (pt_map_leaf_store _ _ _ _ _ _ _ _ (as_pt _ _ _ _ Has) Es) by lia. reflexivity. }
      destruct (as_kept top root s l _ l Has ltac:(lia) Hg) as (H1 & H2 & _); [|auto].
      intros va Hva. simpl. rewrite Hm by lia. replace (_ =? _) with false by dlia. reflexivity.
    + exists s. split; [apply Hrun; reflexivity|]. split; [exact Has|]. split; [apply isolated_confined, isolated_refl|].
      intros va Hva. destruct (Z.eqb_spec (va / 4096) (a / 4096)) as [E|]; [|reflexivity]. rewrite (pt_map_page _ _ va a E).
      unfold pt_map. rewrite Es, Ef. reflexivity.
  - exists s. split; [apply Hrun; reflexivity|]. split; [exact Has|]. split; [apply isolated_confined, isolated_refl|].
    intros va Hva. destruct (Z.eqb_spec (va / 4096) (a / 4096)) as [E|]; [|reflexivity]. rewrite (pt_map_page _ _ va a E).
    unfold pt_map. rewrite Es. reflexivity.
Qed.
End Above.

(** ** A process's address space *)

Lemma TRAPFRAME_eq : TRAPFRAME = 2 ^ 38 - 8192.
Proof. reflexivity. Qed.
Lemma TRAMPOLINE_eq : TRAMPOLINE = 2 ^ 38 - 4096.
Proof. reflexivity. Qed.
Lemma MAXVA_eq : MAXVA = 2 ^ 38.
Proof. reflexivity. Qed.

(** Only free pages were written. *)
Definition only_free (l : list Z) (s s' : kst) : Prop :=
  kend s' = kend s /\ forall x, (forall q, q ∈ l -> ~ in_page q x) -> phys s' x = phys s x.

(** The layout of [proc_pagetable]: the trampoline, the trapframe and [sz]
    bytes of the process's own. *)
Record user_space (trampoline tf root sz : Z) (s : kst) (l : list Z) : Prop := {
  us_as : as_wf TRAPFRAME root s l;
  us_plain : plain (phys s) root;
  us_trampoline : pt_map (phys s) root TRAMPOLINE = Some (leaf trampoline (Z.lor PTE_R PTE_X));
  us_trapframe : pt_map (phys s) root TRAPFRAME = Some (leaf tf (Z.lor PTE_R PTE_W));
  us_size : 0 <= sz <= TRAPFRAME;
  us_above : forall va, PGROUNDUP sz <= va < TRAPFRAME -> pt_map (phys s) root va = None
}.

Section Pagetable.
Context (trampoline tf : Z).
Hypothesis (Htr : trampoline mod 4096 = 0) (Htr' : 0 <= trampoline < 2 ^ 56) (Htf : tf mod 4096 = 0) (Htf' : 0 <= tf < 2 ^ 56).

(** A table that maps nothing any more goes back. *)
Lemma drop_table root s l s1 l1 : as_wf TRAPFRAME root s1 l1 -> plain (phys s1) root ->
  (forall q, mine TRAPFRAME root s1 l1 q <-> q ∈ l) -> only_free l s s1 -> (forall va, 0 <= va < MAXVA -> pt_map (phys s1) root va = None) ->
  exists s' l', uvmfree root 0 s1 = Ret tt s' /\ kinv s' l' /\ (forall q, q ∈ l' <-> q ∈ l) /\ only_free l s s'.
Proof using Type.
  intros Ha Hp Hmine [He Hf] Hnone. destruct (uvmfree_run TRAPFRAME root 0 s1 l1 Ha ltac:(closed) eq_refl ltac:(closed) Hp) as (s' & l' & E & Hk & He' & Hl & Hf').
  { rewrite PGROUNDUP_eq by lia. exact Hnone. }
  exists s', l'. split; [exact E|]. split; [exact Hk|]. split; [intros q; rewrite Hl; apply Hmine|]. split; [congruence|].
  intros x Hx. rewrite Hf', Hf; auto. intros q Hq. apply Hx, Hmine, Hq.
Qed.

Lemma confined_free root s l s1 l1 s2 l2 : only_free l s s1 -> (forall q, mine TRAPFRAME root s1 l1 q <-> q ∈ l) ->
  confined TRAPFRAME root s1 l1 s2 l2 -> only_free l s s2 /\ forall q, mine TRAPFRAME root s2 l2 q <-> q ∈ l.
Proof using Type.
  intros [He Hf] Hm [Ce Cm Cf _]. split; [split; [congruence|]|intros q; rewrite Cm; apply Hm].
  intros x Hx. rewrite Cf, Hf; auto. intros q Hq. apply Hx, Hm, Hq.
Qed.

Lemma proc_pagetable_run s l : kinv s l ->
  exists r s' l', proc_pagetable trampoline tf s = Ret r s' /\ kinv s' l' /\ only_free l s s' /\
    (r = 0 /\ (forall q, q ∈ l' <-> q ∈ l) \/
     r <> 0 /\ user_space trampoline tf r 0 s' l' /\ (forall q, mine TRAPFRAME r s' l' q <-> q ∈ l) /\
       forall va, 0 <= va < TRAPFRAME -> pt_map (phys s') r va = None).
Proof using All.
  intros Hk. unfold proc_pagetable. pose proof TRAPFRAME_eq as E1. pose proof TRAMPOLINE_eq as E2. pose proof MAXVA_eq as E3.
  destruct (uvmcreate_run s l Hk) as [[-> E]|(p & l1 & s1 & -> & Hp0 & E & Hk1 & Ho & Hok & Hn & Hz)]; rewrite (bind_ret_l _ _ _ _ _ E).
  { exists 0, s, []. simpl. split; [reflexivity|]. split; [exact Hk|]. split; [split; auto|]. left. split; [reflexivity|tauto]. }
  destruct (Z.eqb_spec p 0) as [|_]; [contradiction|]. rewrite <- (proj1 Ho) in Hok.
  destruct (blank_space TRAPFRAME p s1 l1 Hk1 Hok Hn Hz) as (Ha1 & Hp1 & Hnone & Hown).
  assert (Hm1 : forall q, mine TRAPFRAME p s1 l1 q <-> q ∈ p :: l1).
  { intros q. rewrite mine_owns, elem_of_cons. split; [intros [H|H]; [auto|left; apply Hown, H]|intros [->|H]; [right; left|auto]].
    exists []. split; [split; [simpl; lia|constructor]|reflexivity]. }
  assert (Hf1 : only_free (p :: l1) s s1).
  { split; [apply Ho|]. intros x Hx. apply Ho, Hx. left. }
  destruct (map_shared TRAPFRAME p TRAMPOLINE ltac:(lia) ltac:(lia) eq_refl eq_refl s1 l1 trampoline (Z.lor PTE_R PTE_X) Ha1 (Hnone _) Htr Htr' ltac:(closed))
    as (r2 & s2 & l2 & Em2 & Ha2 & C2 & Hr2). rewrite (bind_ret_l _ _ _ _ _ Em2).
  destruct (confined_free p s (p :: l1) s1 l1 s2 l2 Hf1 Hm1 C2) as [Hf2 Hm2]. pose proof (cf_plain _ _ _ _ _ _ C2 Hp1) as Hp2.
  destruct Hr2 as [[-> H2]|[-> H2]]; cbn [Z.ltb Z.compare].
  2:{ destruct (drop_table p s (p :: l1) s2 l2 Ha2 Hp2 Hm2 Hf2) as (s' & l' & E' & Hk' & Hl' & Hf'); [intros va Hva; rewrite H2 by exact Hva; apply Hnone|].
      rewrite (bind_ret_l _ _ _ _ _ E'). exists 0, s', l'. auto 10. }
  assert (Hn2 : pt_map (phys s2) p TRAPFRAME = None) by (rewrite H2 by lia; apply Hnone).
  destruct (map_shared TRAPFRAME p TRAPFRAME ltac:(lia) ltac:(lia) eq_refl eq_refl s2 l2 tf (Z.lor PTE_R PTE_W) Ha2 Hn2 Htf Htf' ltac:(closed))
    as (r3 & s3 & l3 & Em3 & Ha3 & C3 & Hr3). rewrite (bind_ret_l _ _ _ _ _ Em3).
  destruct (confined_free p s (p :: l1) s2 l2 s3 l3 Hf2 Hm2 C3) as [Hf3 Hm3]. pose proof (cf_plain _ _ _ _ _ _ C3 Hp2) as Hp3.
  destruct Hr3 as [[-> H3]|[-> H3]]; cbn [Z.ltb Z.compare].
  - exists p, s3, l3. split; [reflexivity|]. split; [apply Ha3|]. split; [exact Hf3|]. right. split; [exact Hp0|].
    assert (Hno : forall va, 0 <= va < TRAPFRAME -> pt_map (phys s3) p va = None).
    { intros va Hva. rewrite H3, H2, Hnone by lia. replace (va / 4096 =? _) with false by dlia. replace (va / 4096 =? _) with false by dlia. reflexivity. }
    split; [|auto]. split; [exact Ha3|exact Hp3|rewrite H3, H2 by lia; reflexivity|rewrite H3 by lia; reflexivity|lia|].
    intros va. rewrite PGROUNDUP_eq by lia. apply Hno.
  - destruct (unmap_shared TRAPFRAME p TRAMPOLINE ltac:(lia) ltac:(lia) eq_refl eq_refl s3 l3 Ha3) as (s4 & E4 & Ha4 & C4 & H4).
    rewrite (bind_ret_l _ _ _ _ _ E4). destruct (confined_free p s (p :: l1) s3 l3 s4 l3 Hf3 Hm3 C4) as [Hf4 Hm4].
    destruct (drop_table p s (p :: l1) s4 l3 Ha4 (cf_plain _ _ _ _ _ _ C4 Hp3) Hm4 Hf4) as (s' & l' & E' & Hk' & Hl' & Hf').
    { intros va Hva. rewrite H4, H3, H2, Hnone by exact Hva. destruct (_ =? _); reflexivity. }
    rewrite (bind_ret_l _ _ _ _ _ E'). exists 0, s', l'. auto 10.
Qed.
End Pagetable.

Section Free.
Context (trampoline tf root sz : Z).

Lemma proc_freepagetable_run s l : user_space trampoline tf root sz s l ->
  exists s' l', proc_freepagetable root sz s = Ret tt s' /\ kinv s' l' /\ kend s' = kend s /\
    (forall q, q ∈ l' <-> mine TRAPFRAME root s l q) /\
    forall x, (forall q, mine TRAPFRAME root s l q -> ~ in_page q x) -> phys s' x = phys s x.
Proof using Type.
  intros [Ha Hp _ _ Hs Hu]. unfold proc_freepagetable. pose proof TRAPFRAME_eq as E1. pose proof TRAMPOLINE_eq as E2. pose proof MAXVA_eq as E3.
  destruct (unmap_shared TRAPFRAME root TRAMPOLINE ltac:(lia) ltac:(lia) eq_refl eq_refl s l Ha) as (s1 & R1 & Ha1 & C1 & H1).
  rewrite (bind_ret_l _ _ _ _ _ R1).
  destruct (unmap_shared TRAPFRAME root TRAPFRAME ltac:(lia) ltac:(lia) eq_refl eq_refl s1 l Ha1) as (s2 & R2 & Ha2 & C2 & H2).
  rewrite (bind_ret_l _ _ _ _ _ R2). pose proof (confined_trans _ _ _ _ _ _ _ _ C1 C2) as [Ce Cm Cf Cp].
  destruct (uvmfree_run TRAPFRAME root sz s2 l Ha2 ltac:(closed) eq_refl Hs (Cp Hp)) as (s' & l' & R & Hk & He & Hl & Hf).
  { intros va Hva. rewrite PGROUNDUP_eq in * by lia. rewrite H2, H1 by dlia. destruct (Z.eqb_spec (va / 4096) (TRAPFRAME / 4096)); [reflexivity|].
    destruct (Z.eqb_spec (va / 4096) (TRAMPOLINE / 4096)); [reflexivity|]. apply Hu. dlia. }
  exists s', l'. split; [exact R|]. split; [exact Hk|]. split; [congruence|]. split; [intros q; rewrite Hl; apply Cm|].
  intros x Hx. rewrite Hf, Cf; auto. intros q Hq. apply Hx, Cm, Hq.
Qed.
End Free.

Lemma ex_table : exists s, proc_pagetable (KERNBASE + 4096) (KERNBASE + 4096) ex_state = Ret ex_p1 s.
Proof.
  assert (H : match proc_pagetable (KERNBASE + 4096) (KERNBASE + 4096) ex_state with Ret r _ => r = ex_p1 | _ => False end) by (vm_compute; reflexivity).
  destruct (proc_pagetable _ _ _); try contradiction. subst. eauto.
Qed.

Lemma user_space_unchanged trampoline tf root sz s l s' l' : user_space trampoline tf root sz s l ->
  as_wf TRAPFRAME root s' l' -> unchanged TRAPFRAME root s s' -> user_space trampoline tf root sz s' l'.
Proof.
  intros [Ha Hp Ht Hf Hs Hu] Ha' [_ Um _ Up]. split; auto; [rewrite Um; exact Ht|rewrite Um; exact Hf|].
  intros va Hva. rewrite Um. apply Hu, Hva.
Qed.

(** A page that nobody has is given back. *)
Lemma give_page top root s l p : as_wf top root s l -> page_ok (kend s) p -> p ∉ l -> ~ owns top root s p ->
  exists s', kfree p s = Ret tt s' /\ as_wf top root s' (p :: l) /\ unchanged top root s s' /\ only_page p s s'.
Proof.
  intros Ha Hp Hl Ho. destruct (kfree_spec s l p (as_inv _ _ _ _ Ha) Hp Hl) as (s' & E & Hk & He & Hf).
  exists s'. split; [exact E|]. destruct (elsewhere (fun q => q ∈ p :: l) top root s l s' (p :: l) Ha Hk He) as [Ha' Hu]; auto.
  - intros q Hq. apply elem_of_cons in Hq as [->|Hq]; [exact Hp|]. pose proof (kinv_pages _ _ (as_inv _ _ _ _ Ha)) as Hfa. rewrite Forall_forall in Hfa. auto.
  - intros q Hq Hin. apply elem_of_cons in Hin as [->|Hin]; [contradiction|]. apply (owns_ok _ _ _ _ _ Ha Hq), Hin.
  - intros x Hx. apply Hf, Hx. left.
  - split; [exact Ha'|]. split; [exact Hu|]. split; assumption.
Qed.
