(* ===== verification/ProcSpec.v ===== *)
(** * What the process table promises

    Locks of the process table, [wakeup] and one round of the scheduler
    ([kernel/proc.c]): every process that was ready to run has run once. *)

From S2P Require Import Prelude CString Riscv Kalloc Vm Spinlock Proc.

(** ** Locks *)

(** A CPU that holds a lock, and may take another. *)
Definition holds_lock (c : cpu) : Prop := 1 <= c_noff c < 2 ^ 31 - 1 /\ c_intr c = false.

Lemma push_noff c : holds_lock c -> push_off c = Cpu false (c_noff c + 1) (c_intena c).
Proof. intros [H1 H2]. unfold push_off. rewrite i32_small by lia. replace (c_noff c =? 0) with false by lia. reflexivity. Qed.

Lemma pop_noff n i : 1 <= n < 2 ^ 31 - 1 -> pop_off (Cpu false (n + 1) i) = inr (Cpu false n i).
Proof.
  intros H. unfold pop_off. simpl. replace (n + 1 <? 1) with false by lia. rewrite i32_small by lia.
  replace (n + 1 - 1) with n by lia. replace (n =? 0) with false by lia. reflexivity.
Qed.

Section Table.
Context {E : Type}.
Implicit Types s : ps E.

(** All but the table. *)
Record same_rest (s s' : ps E) : Prop := {
  sr_mem : ps_mem s' = ps_mem s;
  sr_nextpid : ps_nextpid s' = ps_nextpid s;
  sr_pidlock : ps_pidlock s' = ps_pidlock s;
  sr_waitlock : ps_waitlock s' = ps_waitlock s;
  sr_init : ps_init s' = ps_init s;
  sr_cur : ps_cur s' = ps_cur s;
  sr_cpu : ps_cpu s' = ps_cpu s;
  sr_env : ps_env s' = ps_env s
}.

Lemma same_rest_refl s : same_rest s s.
Proof. split; reflexivity. Qed.
Lemma same_rest_trans s1 s2 s3 : same_rest s1 s2 -> same_rest s2 s3 -> same_rest s1 s3.
Proof. intros [] []. split; congruence. Qed.

Lemma acquire_proc s p : holds_lock (ps_cpu s) -> p_lock (ps_proc s p) = false ->
  acquire_off (proc_lock p) s =
    Ret tt (set_pcpu (Cpu false (c_noff (ps_cpu s) + 1) (c_intena (ps_cpu s))) (set_proc p (w_lock true) s)).
Proof.
  intros Hc Hl. unfold acquire_off. rewrite bind_modify, push_noff by exact Hc. unfold acquire. simpl. rewrite Hl. reflexivity.
Qed.

Lemma release_proc s p n i : ps_cpu s = Cpu false (n + 1) i -> 1 <= n < 2 ^ 31 - 1 -> p_lock (ps_proc s p) = true ->
  release_off (proc_lock p) s = Ret tt (set_pcpu (Cpu false n i) (set_proc p (w_lock false) s)).
Proof.
  intros Hc Hn Hl. unfold release_off. rewrite (bind_ret_l _ _ _ tt (set_proc p (w_lock false) s)).
  - unfold pop. simpl. rewrite Hc, pop_noff by exact Hn. reflexivity.
  - unfold release. simpl. rewrite Hl. reflexivity.
Qed.

(** [s2] is [s] with entry [p] locked and changed by [f]. *)
Record locked_at (p : Z) (f : proc -> proc) (s s2 : ps E) : Prop := {
  la_rest : same_rest (set_pcpu (Cpu false (c_noff (ps_cpu s) + 1) (c_intena (ps_cpu s))) s) s2;
  la_lock : p_lock (f (w_lock true (ps_proc s p))) = true;
  la_proc : forall q, ps_proc s2 q = if q =? p then f (w_lock true (ps_proc s p)) else ps_proc s q
}.

Lemma acquire_at s p : holds_lock (ps_cpu s) -> p_lock (ps_proc s p) = false ->
  exists s1, acquire_off (proc_lock p) s = Ret tt s1 /\ locked_at p (fun x => x) s s1.
Proof.
  intros Hc Hl. eexists. split; [apply acquire_proc; assumption|]. split; [split; reflexivity|reflexivity|].
  intros q. simpl. unfold upd. destruct (Z.eqb_spec q p) as [->|]; reflexivity.
Qed.

Lemma locked_change p f g s s2 : locked_at p f s s2 -> p_lock (g (f (w_lock true (ps_proc s p)))) = true ->
  locked_at p (fun x => g (f x)) s (set_proc p g s2).
Proof.
  intros [H1 H2 H3] Hg. split; [destruct H1; split; assumption|exact Hg|]. intros q. simpl. unfold upd.
  destruct (Z.eqb_spec q p) as [->|]; [rewrite H3, Z.eqb_refl; reflexivity|]. rewrite H3. replace (q =? p) with false by lia. reflexivity.
Qed.

Lemma release_at p f s s2 : holds_lock (ps_cpu s) -> locked_at p f s s2 ->
  exists s', release_off (proc_lock p) s2 = Ret tt s' /\ same_rest s s' /\
    forall q, ps_proc s' q = if q =? p then w_lock false (f (w_lock true (ps_proc s p))) else ps_proc s q.
Proof.
  intros Hc [H1 H2 H3]. pose proof (sr_cpu _ _ H1) as Ecpu. simpl in Ecpu.
  rewrite (release_proc s2 p _ _ Ecpu); [|apply Hc|rewrite H3, Z.eqb_refl; exact H2].
  eexists. split; [reflexivity|]. split.
  - destruct H1; split; simpl in *; auto. destruct Hc as [_ Hi]. destruct (ps_cpu s); simpl in *. rewrite Hi. reflexivity.
  - intros q. simpl. unfold upd. destruct (Z.eqb_spec q p) as [->|Hne]; [rewrite H3, Z.eqb_refl; reflexivity|].
    rewrite H3. replace (q =? p) with false by lia. reflexivity.
Qed.

(** ** Waking up *)

Definition woken (me chan : Z) (q : Z) (x : proc) : proc :=
  if negb (q =? me) && bool_decide (p_state x = SLEEPING) && (p_chan x =? chan) then w_state RUNNABLE x else x.

Lemma unlocked x : p_lock x = false -> w_lock false (w_lock true x) = x.
Proof. destruct x. simpl. intros ->. reflexivity. Qed.

Lemma wakeup_one chan p s : holds_lock (ps_cpu s) -> p_lock (ps_proc s p) = false ->
  exists s', (acquire_off (proc_lock p) ;; let! x := get_proc p in
       when (bool_decide (p_state x = SLEEPING) && (p_chan x =? chan)) (modify (set_proc p (w_state RUNNABLE))) ;;
       release_off (proc_lock p)) s = Ret tt s' /\ same_rest s s' /\
    forall q, ps_proc s' q = if q =? p then woken (-2) chan (-1) (ps_proc s p) else ps_proc s q.
Proof.
  intros Hc Hl. destruct (acquire_at s p Hc Hl) as (s1 & E1 & L1). rewrite (bind_ret_l _ _ _ _ _ E1).
  unfold get_proc. rewrite bind_gets. rewrite (la_proc _ _ _ _ L1 p), Z.eqb_refl.
  change (p_state (w_lock true ?x)) with (p_state x). change (p_chan (w_lock true ?x)) with (p_chan x). unfold woken.
  cbn [Z.eqb negb andb]. destruct (_ && _).
  - cbn [when]. rewrite bind_modify.
    destruct (release_at p _ s _ Hc (locked_change p _ (w_state RUNNABLE) _ _ L1 eq_refl)) as (s' & E' & S' & P').
    exists s'. split; [exact E'|]. split; [exact S'|]. intros q. rewrite P'. destruct (q =? p); [|reflexivity].
    destruct (ps_proc s p); simpl in *. rewrite Hl. reflexivity.
  - destruct (release_at p _ s _ Hc L1) as (s' & E' & S' & P'). exists s'. split; [exact E'|]. split; [exact S'|].
    intros q. rewrite P'. rewrite (unlocked _ Hl). reflexivity.
Qed.

Lemma wakeup_loop_ok chan : forall n p s, holds_lock (ps_cpu s) ->
  (forall q, p <= q < p + Z.of_nat n -> q <> ps_cur s -> p_lock (ps_proc s q) = false) ->
  exists s', wakeup_loop n chan p s = Ret tt s' /\ same_rest s s' /\
    forall q, ps_proc s' q = if (p <=? q) && (q <? p + Z.of_nat n) then woken (ps_cur s) chan q (ps_proc s q) else ps_proc s q.
Proof.
  induction n as [|n IH]; intros p s Hc Hl; cbn [wakeup_loop].
  { exists s. split; [reflexivity|]. split; [apply same_rest_refl|]. intros q. replace (_ && _) with false by lia. reflexivity. }
  unfold myproc. rewrite bind_gets.
  assert (H1 : exists s1, when (negb (p =? ps_cur s))
      (acquire_off (proc_lock p) ;; let! x := get_proc p in
       when (bool_decide (p_state x = SLEEPING) && (p_chan x =? chan)) (modify (set_proc p (w_state RUNNABLE))) ;;
       release_off (proc_lock p)) s = Ret tt s1 /\ same_rest s s1 /\
      forall q, ps_proc s1 q = if q =? p then woken (ps_cur s) chan q (ps_proc s q) else ps_proc s q).
  { destruct (Z.eqb_spec p (ps_cur s)) as [Hp|Hp]; cbn [negb when].
    - exists s. split; [reflexivity|]. split; [apply same_rest_refl|]. intros q. destruct (Z.eqb_spec q p) as [->|]; [|reflexivity].
      unfold woken. rewrite Hp, Z.eqb_refl. reflexivity.
    - destruct (wakeup_one chan p s Hc (Hl p ltac:(lia) Hp)) as (s1 & E1 & S1 & P1). exists s1. split; [exact E1|].
      split; [exact S1|]. intros q. rewrite P1. destruct (Z.eqb_spec q p) as [->|]; [|reflexivity].
      unfold woken. replace (p =? ps_cur s) with false by lia. reflexivity. }
  destruct H1 as (s1 & E1 & S1 & P1). rewrite (bind_ret_l _ _ _ _ _ E1).
  destruct (IH (p + 1) s1) as (s' & E' & S' & P').
  - rewrite (sr_cpu _ _ S1). exact Hc.
  - intros q Hq Hne. rewrite (sr_cur _ _ S1) in Hne. rewrite P1. replace (q =? p) with false by lia. apply Hl; [lia|exact Hne].
  - exists s'. split; [exact E'|]. split; [eapply same_rest_trans; eauto|]. intros q. rewrite P', P1, (sr_cur _ _ S1).
    destruct (Z.eqb_spec q p) as [->|Hne].
    + replace ((p + 1 <=? p) && _) with false by lia. replace (_ && _) with true by lia. reflexivity.
    + replace ((p <=? q) && (q <? p + Z.of_nat (S n))) with ((p + 1 <=? q) && (q <? p + 1 + Z.of_nat n)) by lia. reflexivity.
Qed.

Lemma wakeup_ok chan s : holds_lock (ps_cpu s) ->
  (forall q, 0 <= q < NPROC -> q <> ps_cur s -> p_lock (ps_proc s q) = false) ->
  exists s', wakeup chan s = Ret tt s' /\ same_rest s s' /\
    forall q, ps_proc s' q = if (0 <=? q) && (q <? NPROC) then woken (ps_cur s) chan q (ps_proc s q) else ps_proc s q.
Proof. intros Hc Hl. apply (wakeup_loop_ok chan (Z.to_nat NPROC) 0 s Hc). exact Hl. Qed.

(** ** The scheduler *)

Definition table_free (s : ps E) : Prop := forall q, 0 <= q < NPROC -> p_lock (ps_proc s q) = false.

(** What a process does between being switched to and switching back: it keeps
    its lock, holds no other, does not stop other processes that are ready to
    run, and leaves its mark in [trace]. *)
Definition well_behaved (trace : E -> list Z) (runs : Z -> M (ps E) unit) : Prop :=
  forall p s, 0 <= p < NPROC -> ps_cur s = p -> p_state (ps_proc s p) = RUNNING -> p_lock (ps_proc s p) = true ->
    c_noff (ps_cpu s) = 1 -> c_intr (ps_cpu s) = false ->
    (forall q, 0 <= q < NPROC -> q <> p -> p_lock (ps_proc s q) = false) ->
    exists s', runs p s = Ret tt s' /\ p_lock (ps_proc s' p) = true /\
      c_noff (ps_cpu s') = 1 /\ c_intr (ps_cpu s') = false /\
      (forall q, 0 <= q < NPROC -> q <> p -> p_lock (ps_proc s' q) = false /\
         (p_state (ps_proc s q) = RUNNABLE -> p_state (ps_proc s' q) = RUNNABLE)) /\
      trace (ps_env s') = trace (ps_env s) ++ [p].

Lemma acquire_first s p : c_noff (ps_cpu s) = 0 -> p_lock (ps_proc s p) = false ->
  acquire_off (proc_lock p) s = Ret tt (set_pcpu (Cpu false 1 (c_intr (ps_cpu s))) (set_proc p (w_lock true) s)).
Proof.
  intros Hn Hl. unfold acquire_off. rewrite bind_modify. unfold push_off. rewrite Hn. unfold acquire. simpl. rewrite Hl. reflexivity.
Qed.

Lemma release_last s p : c_noff (ps_cpu s) = 1 -> c_intr (ps_cpu s) = false -> p_lock (ps_proc s p) = true ->
  release_off (proc_lock p) s =
    Ret tt (set_pcpu (Cpu (c_intena (ps_cpu s)) 0 (c_intena (ps_cpu s))) (set_proc p (w_lock false) s)).
Proof.
  intros Hn Hi Hl. unfold release_off. rewrite (bind_ret_l _ _ _ tt (set_proc p (w_lock false) s)).
  - unfold pop, pop_off. simpl. rewrite Hn, Hi. reflexivity.
  - unfold release. simpl. rewrite Hl. reflexivity.
Qed.

Lemma w_lock_state b x : p_state (w_lock b x) = p_state x.
Proof. reflexivity. Qed.

(** One entry of the table. *)
Lemma schedule_one trace runs p s found : well_behaved trace runs -> 0 <= p < NPROC ->
  c_noff (ps_cpu s) = 0 -> table_free s ->
  exists found' l s', forall (k : bool -> M (ps E) bool),
    (acquire_off (proc_lock p) ;;
     let! x := get_proc p in
     let! found :=
       (if decide (p_state x = RUNNABLE) then
          modify (set_proc p (w_state RUNNING)) ;;
          modify (set_cur p) ;;
          runs p ;;
          modify (set_cur NULLP) ;;
          ret true
        else ret found) in
     release_off (proc_lock p) ;; k found) s = k found' s' /\
    c_noff (ps_cpu s') = 0 /\ table_free s' /\
    (forall q, 0 <= q < NPROC -> q <> p -> p_state (ps_proc s q) = RUNNABLE -> p_state (ps_proc s' q) = RUNNABLE) /\
    trace (ps_env s') = trace (ps_env s) ++ l /\
    (p_state (ps_proc s p) = RUNNABLE /\ l = [p] /\ found' = true \/ p_state (ps_proc s p) <> RUNNABLE /\ l = [] /\ found' = found).
Proof.
  intros Hruns Hp Hn Hfree. pose proof (acquire_first s p Hn (Hfree p Hp)) as E1.
  set (s1 := set_pcpu _ _) in E1.
  assert (P1 : ps_proc s1 p = w_lock true (ps_proc s p)) by (simpl; apply upd_eq).
  assert (Q1 : forall q, q <> p -> ps_proc s1 q = ps_proc s q) by (intros q Hq; simpl; apply upd_ne, Hq).
  destruct (decide (p_state (ps_proc s p) = RUNNABLE)) as [Hr|Hr].
  - set (s2 := set_cur p (set_proc p (w_state RUNNING) s1)).
    assert (P2 : ps_proc s2 p = w_state RUNNING (w_lock true (ps_proc s p))) by (simpl; rewrite !upd_eq; reflexivity).
    assert (Q2 : forall q, q <> p -> ps_proc s2 q = ps_proc s q) by (intros q Hq; simpl; rewrite !upd_ne by exact Hq; reflexivity).
    destruct (Hruns p s2) as (s3 & E3 & L3 & N3 & I3 & O3 & T3); auto; try (rewrite P2; reflexivity).
    { intros q Hq Hne. rewrite Q2 by exact Hne. apply Hfree, Hq. }
    eexists true, [p], _. intros k. rewrite (bind_ret_l _ _ _ _ _ E1). unfold get_proc. rewrite bind_gets, P1, w_lock_state.
    rewrite decide_True by exact Hr. rewrite (bind_ret_l _ _ _ true (set_cur NULLP s3)).
    2: { rewrite !bind_modify. fold s2. rewrite (bind_ret_l _ _ _ _ _ E3), bind_modify. reflexivity. }
    rewrite (bind_ret_l _ _ _ _ _ (release_last (set_cur NULLP s3) p N3 I3 L3)). split; [reflexivity|].
    split; [reflexivity|]. split; [|split; [|split; [exact T3|left; auto]]].
    + intros q Hq. simpl. unfold upd. destruct (Z.eqb_spec q p) as [->|Hne]; [reflexivity|]. apply O3; assumption.
    + intros q Hq Hne Hs. simpl. rewrite upd_ne by exact Hne. apply O3; auto. rewrite Q2 by exact Hne. exact Hs.
  - eexists found, [], _. intros k. rewrite (bind_ret_l _ _ _ _ _ E1). unfold get_proc. rewrite bind_gets, P1, w_lock_state.
    rewrite decide_False by exact Hr. rewrite (bind_ret_l _ _ _ found s1) by reflexivity.
    rewrite (bind_ret_l _ _ _ _ _ (release_last s1 p eq_refl eq_refl ltac:(rewrite P1; reflexivity))). split; [reflexivity|].
    split; [reflexivity|]. split; [|split; [|split; [simpl; rewrite app_nil_r; reflexivity|right; auto]]].
    + intros q Hq. simpl. unfold upd. destruct (Z.eqb_spec q p) as [->|Hne]; [reflexivity|]. apply Hfree, Hq.
    + intros q Hq Hne Hs. simpl. rewrite !upd_ne by exact Hne. exact Hs.
Qed.

Lemma scheduler_pass_ok trace runs : well_behaved trace runs -> forall n p s found,
  0 <= p -> p + Z.of_nat n <= NPROC -> c_noff (ps_cpu s) = 0 -> table_free s ->
  exists found' l s', scheduler_pass runs n p found s = Ret found' s' /\
    c_noff (ps_cpu s') = 0 /\ table_free s' /\ trace (ps_env s') = trace (ps_env s) ++ l /\
    (forall q, p <= q < p + Z.of_nat n -> p_state (ps_proc s q) = RUNNABLE -> q ∈ l) /\
    (forall q, q ∈ l -> p <= q < p + Z.of_nat n) /\ NoDup l /\ found' = found || negb (bool_decide (l = [])).
Proof.
  intros Hruns. induction n as [|n IH]; intros p s found Hp Hn Hc Hfree; cbn [scheduler_pass].
  { exists found, [], s. rewrite app_nil_r. split; [reflexivity|]. split; [exact Hc|]. split; [exact Hfree|]. split; [reflexivity|].
    split; [lia|]. split; [intros q Hq; apply elem_of_nil in Hq; contradiction|]. split; [constructor|].
    rewrite bool_decide_true by reflexivity. rewrite orb_false_r. reflexivity. }
  destruct (schedule_one trace runs p s found Hruns ltac:(lia) Hc Hfree) as (f1 & l1 & s1 & H1).
  destruct (H1 (fun f => scheduler_pass runs n (p + 1) f)) as (E1 & C1 & F1 & R1 & T1 & D1). rewrite E1. clear H1.
  destruct (IH (p + 1) s1 f1) as (f2 & l2 & s2 & E2 & C2 & F2 & T2 & A2 & B2 & N2 & D2); try lia; auto.
  exists f2, (l1 ++ l2), s2. split; [exact E2|]. split; [exact C2|]. split; [exact F2|].
  split; [rewrite T2, T1, app_assoc; reflexivity|]. split; [|split; [|split]].
  - intros q Hq Hs. apply elem_of_app. destruct (decide (q = p)) as [->|Hne].
    + left. destruct D1 as [(_ & -> & _)|[Hx _]]; [left|contradiction].
    + right. apply A2; [lia|]. apply R1; auto. lia.
  - intros q Hq. apply elem_of_app in Hq as [Hq|Hq]; [|apply B2 in Hq; lia].
    destruct D1 as [(_ & -> & _)|(_ & -> & _)]; [apply list_elem_of_singleton in Hq; lia|apply elem_of_nil in Hq; contradiction].
  - destruct D1 as [(_ & -> & _)|(_ & -> & _)]; [|exact N2]. constructor; [|exact N2]. intros Hq. apply B2 in Hq. lia.
  - rewrite D2. destruct D1 as [(_ & -> & ->)|(_ & -> & ->)]; [|reflexivity]. simpl.
    rewrite orb_true_r. reflexivity.
Qed.

(** C28. One round of the scheduler reaches everybody: given processes that run
    and switch back as they should, it ends, every process that was ready to
    run when the round began has run, no process has run twice, the result says
    whether any ran, and all locks are free again. *)
Theorem scheduler_round_fair trace runs s : well_behaved trace runs ->
  c_noff (ps_cpu s) = 0 -> table_free s ->
  exists found l s', scheduler_round runs s = Ret found s' /\ table_free s' /\ c_noff (ps_cpu s') = 0 /\
    trace (ps_env s') = trace (ps_env s) ++ l /\ NoDup l /\ (found = true <-> l <> []) /\
    (forall p, 0 <= p < NPROC -> p_state (ps_proc s p) = RUNNABLE -> p ∈ l).
Proof using.
  intros Hruns Hc Hfree. unfold scheduler_round. rewrite !bind_modify.
  destruct (scheduler_pass_ok trace runs Hruns (Z.to_nat NPROC) 0
    (set_pcpu (Cpu false (c_noff (ps_cpu s)) (c_intena (ps_cpu s))) s) false) as (f & l & s' & E1 & C1 & F1 & T1 & A1 & B1 & N1 & D1);
    auto; try lia; [reflexivity|].
  exists f, l, s'. split; [exact E1|]. split; [exact F1|]. split; [exact C1|]. split; [exact T1|]. split; [exact N1|].
  split; [rewrite D1; simpl; rewrite negb_true_iff, bool_decide_eq_false; reflexivity|]. exact A1.
Qed.
End Table.

Module ExampleSched.
(** Processes 1 and 5 are ready to run, and yield when they have run. *)
Definition ex_entry (st : procstate) : proc := Proc false st 0 0 0 1 NULLP 0 0 0 0 0 0 (fun _ => NULLP) NULLP [].
Definition ex_ps : ps (list Z) :=
  Ps (Kst (fun _ => 0) 0 false 0) (fun p => ex_entry (if (p =? 1) || (p =? 5) then RUNNABLE else SLEEPING)) 7 false false 0 NULLP
     (Cpu true 0 false) [].
Definition ex_runs (p : Z) : M (ps (list Z)) unit :=
  modify (fun s => Ps (ps_mem s) (upd (ps_proc s) p (w_state RUNNABLE (ps_proc s p))) (ps_nextpid s) (ps_pidlock s)
                      (ps_waitlock s) (ps_init s) (ps_cur s) (ps_cpu s) (ps_env s ++ [p])).

Lemma ex_well_behaved : well_behaved (fun l => l) ex_runs.
Proof.
  intros p s Hp Hcur Hst Hl Hn Hi Ho. eexists. split; [reflexivity|]. simpl. rewrite upd_eq.
  split; [exact Hl|]. split; [exact Hn|]. split; [exact Hi|]. split; [|reflexivity].
  intros q Hq Hne. rewrite upd_ne by exact Hne. auto.
Qed.

Lemma scheduler_round_fair_witness :
  exists found l s', scheduler_round ex_runs ex_ps = Ret found s' /\ table_free s' /\ c_noff (ps_cpu s') = 0 /\
    ps_env s' = [] ++ l /\ NoDup l /\ (found = true <-> l <> []) /\
    (forall p, 0 <= p < NPROC -> p_state (ps_proc ex_ps p) = RUNNABLE -> p ∈ l).
Proof.
  apply (scheduler_round_fair (fun l => l) ex_runs ex_ps); [exact ex_well_behaved|reflexivity|intros q _; reflexivity].
Defined.
End ExampleSched.
