(* ===== verification/ProcInv.v ===== *)
(** * Process identifiers

    No two processes have the same pid: an invariant of every operation on the
    process table, kept also at every point where an operation gives up the CPU
    to others that keep it. *)

From S2P Require Import Prelude CString Riscv Kalloc Vm Spinlock Proc.

(** ** Invariants across sleeping *)

(** [I] holds whenever the thread sleeps, and it goes on from any state with
    [I] that others can have made of it ([R]). *)
Fixpoint upholds {S A} (I : S -> Prop) (R : S -> S -> Prop) (Q : A -> S -> Prop) (r : res S A) : Prop :=
  match r with
  | Ret a s => Q a s
  | Panic _ => True
  | NoFuel => True
  | Sleep _ s k => I s /\ forall s', I s' -> R s s' -> upholds I R Q (k s')
  end.

Definition stays {S A} (I : S -> Prop) (R : S -> S -> Prop) (P : S -> Prop) (m : M S A) (Q : A -> S -> Prop) : Prop :=
  forall s, P s -> upholds I R Q (m s).

Section Stays.
Context {S : Type} (I : S -> Prop) (R : S -> S -> Prop).

Lemma stays_bind {A B} P (Q : A -> S -> Prop) (Q' : B -> S -> Prop) (m : M S A) (f : A -> M S B) :
  stays I R P m Q -> (forall a, stays I R (Q a) (f a) Q') -> stays I R P (bind m f) Q'.
Proof.
  intros Hm Hf s HP. specialize (Hm s HP). unfold bind. induction (m s) as [a s1|msg| |c s1 k IH]; simpl in *; auto.
  - apply Hf, Hm.
  - destruct Hm as [H1 H2]. split; auto.
Qed.

Lemma stays_ret {A} P (a : A) (Q : A -> S -> Prop) : (forall s, P s -> Q a s) -> stays I R P (ret a) Q.
Proof. intros HQ s HP. apply HQ, HP. Qed.
Lemma stays_gets {A B} P (g : S -> A) (f : A -> M S B) Q :
  (forall a, stays I R (fun s => P s /\ g s = a) (f a) Q) -> stays I R P (bind (gets g) f) Q.
Proof. intros Hf s HP. rewrite bind_gets. apply Hf. auto. Qed.
Lemma stays_modify P (f : S -> S) (Q : unit -> S -> Prop) : (forall s, P s -> Q tt (f s)) -> stays I R P (modify f) Q.
Proof. intros HQ s HP. apply HQ, HP. Qed.
Lemma stays_panic {A} P msg (Q : A -> S -> Prop) : stays I R P (panic msg) Q.
Proof. intros s HP. exact Logic.I. Qed.
Lemma stays_nofuel {A} P (Q : A -> S -> Prop) : stays I R P nofuel Q.
Proof. intros s HP. exact Logic.I. Qed.
Lemma stays_pre {A} (P P' : S -> Prop) (m : M S A) Q : (forall s, P s -> P' s) -> stays I R P' m Q -> stays I R P m Q.
Proof. intros HP Hm s Hs. apply Hm, HP, Hs. Qed.
Lemma stays_when P b (m : M S unit) : stays I R P m (fun _ => P) -> stays I R P (when b m) (fun _ => P).
Proof. intros Hm. destruct b; [exact Hm|]. apply stays_ret. auto. Qed.

(** Predicates that others leave alone while the thread sleeps. *)
Definition stable (P : S -> Prop) : Prop :=
  (forall s, P s -> I s) /\ forall s s', P s -> I s' -> R s s' -> P s'.

Lemma stays_zoom {T A} (l : lens S T) (m : M T A) P : stable P -> (forall x s, P s -> P (set l x s)) ->
  stays I R P (zoom l m) (fun _ => P).
Proof.
  intros [H1 H2] Hl s HP. unfold zoom. generalize (m (view l s)). intros r. revert s HP.
  induction r as [a x|msg| |c x k IH]; intros s HP; simpl; auto.
  split; [apply H1, Hl, HP|]. intros s' HI HR. apply IH. eapply H2; [|exact HI|exact HR]. apply Hl, HP.
Qed.
Lemma stays_acquire (l : lens S bool) (P Q : S -> Prop) : (forall s, P s -> Q (set l true s)) -> stays I R P (acquire l) (fun _ => Q).
Proof. intros Hl s HP. unfold acquire. destruct (view l s); simpl; auto. Qed.
Lemma stays_release (l : lens S bool) (P Q : S -> Prop) : (forall s, P s -> Q (set l false s)) -> stays I R P (release l) (fun _ => Q).
Proof. intros Hl s HP. unfold release. destruct (view l s); simpl; auto. Qed.
End Stays.

(** ** Pids *)

Section Pids.
Context {E : Type} `{PE : ProcEnv E} (trampoline forkret : Z) (proc_at xstate_at : Z -> Z) (me : Z).
Implicit Types s : ps E.

Record pids_ok (s : ps E) : Prop := {
  po_next : 1 <= ps_nextpid s < 2 ^ 31;
  po_pid : forall p, 0 <= p < NPROC -> p_state (ps_proc s p) <> UNUSED -> 1 <= p_pid (ps_proc s p) < ps_nextpid s;
  po_inj : forall p q, 0 <= p < NPROC -> 0 <= q < NPROC ->
    p_state (ps_proc s p) <> UNUSED -> p_state (ps_proc s q) <> UNUSED ->
    p_pid (ps_proc s p) = p_pid (ps_proc s q) -> p = q
}.

(** When the thread goes on it is the running process again, and the entries of
    other processes that it has locked are as it left them. *)
Definition resumed (s s' : ps E) : Prop :=
  ps_cur s' = ps_cur s /\ p_state (ps_proc s' (ps_cur s)) = RUNNING /\
  forall q, q <> ps_cur s -> p_lock (ps_proc s q) = true -> ps_proc s' q = ps_proc s q.

(** In process [me], which is running. *)
Definition at_me (s : ps E) : Prop := ps_cur s = me /\ 0 <= me < NPROC.
Definition in_proc (s : ps E) : Prop :=
  pids_ok s /\ at_me s /\ p_state (ps_proc s (ps_cur s)) = RUNNING.

(** Besides, holding the lock of entry [p], which is not its own and in state [st]. *)
Definition owns_entry (p : Z) (st : procstate) (s : ps E) : Prop :=
  in_proc s /\ 0 <= p < NPROC /\ p <> ps_cur s /\ p_lock (ps_proc s p) = true /\ p_state (ps_proc s p) = st.

Abbreviation keeps := (stays pids_ok resumed).

Lemma in_proc_stable : stable pids_ok resumed in_proc.
Proof. split; [intros s H; apply H|]. intros s s' (H1 & H2 & H3) HI (E1 & E2 & E3). split; [exact HI|]. unfold at_me in *. rewrite E1. auto. Qed.

Lemma owns_stable p st : stable pids_ok resumed (owns_entry p st).
Proof.
  split; [intros s H; apply H|]. intros s s' (H0 & H1 & H2 & H3 & H4) HI HR.
  split; [eapply in_proc_stable; eauto|]. destruct HR as (E1 & E2 & E3). rewrite E1, (E3 p H2 H3). auto.
Qed.

(** A change of an entry that gives no new pid. *)
Lemma set_proc_pids p f s : (p_state (f (ps_proc s p)) = UNUSED \/ (p_pid (f (ps_proc s p)) = p_pid (ps_proc s p) /\
    (p_state (ps_proc s p) = UNUSED -> p_state (f (ps_proc s p)) = UNUSED))) -> pids_ok s -> pids_ok (set_proc p f s).
Proof.
  intros [Hu|[Ep Hs]] [H1 H2 H3].
  - split; [exact H1| |]; simpl; unfold upd.
    + intros q Hq. destruct (q =? p); [congruence|auto].
    + intros q r Hq Hr. destruct (q =? p), (r =? p); try congruence. auto.
  - assert (Hx : forall q, p_pid (upd (ps_proc s) p (f (ps_proc s p)) q) = p_pid (ps_proc s q) /\
      (p_state (upd (ps_proc s) p (f (ps_proc s p)) q) <> UNUSED -> p_state (ps_proc s q) <> UNUSED)).
    { intros q. unfold upd. destruct (Z.eqb_spec q p) as [->|]; [split; [exact Ep|tauto]|auto]. }
    split; [exact H1| |]; simpl.
    + intros q Hq Hn. destruct (Hx q) as [-> Hs']. auto.
    + intros q r Hq Hr Hn1 Hn2. destruct (Hx q) as [-> Hs1], (Hx r) as [-> Hs2]. auto.
Qed.

(** Changes that keep pid and state. *)
Definition plain (f : proc -> proc) : Prop := forall x, p_pid (f x) = p_pid x /\ p_state (f x) = p_state x.

Lemma plain_in_proc p f s : plain f -> in_proc s -> in_proc (set_proc p f s).
Proof.
  intros Hf (H1 & H2 & H3). destruct (Hf (ps_proc s p)) as [Ep Es]. split; [apply set_proc_pids; [right; rewrite Es; auto|exact H1]|].
  split; [exact H2|]. simpl. unfold upd. destruct (Z.eqb_spec (ps_cur s) p) as [<-|]; [rewrite Es|]; exact H3.
Qed.

Lemma plain_owns q p f st s : plain f -> (p = q -> forall x, p_lock (f x) = p_lock x) ->
  owns_entry q st s -> owns_entry q st (set_proc p f s).
Proof.
  intros Hf Hl (H0 & H1 & H2 & H3 & H4). destruct (Hf (ps_proc s p)) as [Ep Es].
  split; [apply plain_in_proc; assumption|]. split; [exact H1|]. split; [exact H2|]. simpl. unfold upd.
  destruct (Z.eqb_spec q p) as [->|]; [rewrite Hl, Es by reflexivity|]; auto.
Qed.

Lemma same_table s s' : ps_proc s' = ps_proc s -> ps_nextpid s' = ps_nextpid s -> ps_cur s' = ps_cur s ->
  (in_proc s -> in_proc s') /\ (forall p st, owns_entry p st s -> owns_entry p st s').
Proof.
  intros E1 E2 E3. assert (H : in_proc s -> in_proc s').
  { intros ([H1 H2 H3] & H4 & H5). split; [split; rewrite ?E1, ?E2; assumption|]. unfold at_me in *. rewrite E1, E3. auto. }
  split; [exact H|]. intros p st (H0 & H1). split; [apply H, H0|]. rewrite E1, E3. exact H1.
Qed.

(** ** Locks and memory *)

(** Predicates on the table and the running process. *)
Definition on_table (P : ps E -> Prop) : Prop :=
  forall s s', ps_proc s' = ps_proc s -> ps_nextpid s' = ps_nextpid s -> ps_cur s' = ps_cur s -> P s -> P s'.

Lemma in_proc_table : on_table in_proc.
Proof. intros s s' E1 E2 E3 H. apply (same_table s s'); assumption. Qed.
Lemma owns_table p st : on_table (owns_entry p st).
Proof. intros s s' E1 E2 E3 H. apply (same_table s s'); assumption. Qed.

Lemma stays_mem {A} (m : M kst A) P : stable pids_ok resumed P -> on_table P -> keeps P (zoom mem_of m) (fun _ => P).
Proof. intros HS HT. apply stays_zoom; [exact HS|]. intros x s H. eapply HT; [..|exact H]; reflexivity. Qed.
Lemma stays_env {A} (m : M (kst * E) A) P : stable pids_ok resumed P -> on_table P -> keeps P (zoom env_of m) (fun _ => P).
Proof. intros HS HT. apply stays_zoom; [exact HS|]. intros x s H. eapply HT; [..|exact H]; reflexivity. Qed.

Lemma stays_acq (l : lens (ps E) bool) (P Q : ps E -> Prop) : on_table P -> (forall s, P s -> Q (set l true s)) ->
  keeps P (acquire_off l) (fun _ => Q).
Proof.
  intros HT HQ. unfold acquire_off. eapply stays_bind; [apply (stays_modify _ _ P _ (fun _ => P))|].
  - intros s H. eapply HT; [..|exact H]; reflexivity.
  - intros ?. apply stays_acquire, HQ.
Qed.
Lemma stays_rel (l : lens (ps E) bool) (P Q : ps E -> Prop) : on_table Q -> (forall s, P s -> Q (set l false s)) ->
  keeps P (release_off l) (fun _ => Q).
Proof.
  intros HT HQ. unfold release_off. eapply stays_bind; [apply stays_release, HQ|]. intros ? s H. unfold pop.
  destruct (pop_off (ps_cpu s)); simpl; [exact I|]. eapply HT; [..|exact H]; reflexivity.
Qed.

Lemma plain_lock b : plain (w_lock b).
Proof. intros x. auto. Qed.

Lemma acq_proc p : keeps in_proc (acquire_off (proc_lock p)) (fun _ s => in_proc s /\ p_lock (ps_proc s p) = true).
Proof.
  apply (stays_acq _ in_proc (fun s => in_proc s /\ p_lock (ps_proc s p) = true) in_proc_table). intros s H.
  split; [apply (plain_in_proc p); [apply plain_lock|exact H]|]. simpl. rewrite upd_eq. reflexivity.
Qed.
Lemma rel_proc p : keeps in_proc (release_off (proc_lock p)) (fun _ => in_proc).
Proof. apply stays_rel; [exact in_proc_table|]. intros s H. apply (plain_in_proc p); [apply plain_lock|exact H]. Qed.
Lemma acq_wait P : on_table P -> keeps P (acquire_off wait_lock) (fun _ => P).
Proof. intros HT. apply stays_acq; [exact HT|]. intros s H. eapply HT; [..|exact H]; reflexivity. Qed.
Lemma rel_wait P : on_table P -> keeps P (release_off wait_lock) (fun _ => P).
Proof. intros HT. apply stays_rel; [exact HT|]. intros s H. eapply HT; [..|exact H]; reflexivity. Qed.

(** A step that changes an entry and neither pids nor states. *)
Lemma stays_plain p f : plain f -> keeps in_proc (modify (set_proc p f)) (fun _ => in_proc).
Proof. intros Hf. apply stays_modify. intros s H. apply plain_in_proc; assumption. Qed.
Lemma stays_plain_owned q p f st : plain f -> (p = q -> forall x, p_lock (f x) = p_lock x) ->
  keeps (owns_entry q st) (modify (set_proc p f)) (fun _ => owns_entry q st).
Proof. intros Hf Hl. apply stays_modify. intros s H. apply plain_owns; assumption. Qed.

(** Waking a sleeping process. *)
Lemma wake_in_proc p s : in_proc s -> p_state (ps_proc s p) = SLEEPING -> in_proc (set_proc p (w_state RUNNABLE) s).
Proof.
  intros (H1 & H2 & H3) Hs. split; [apply set_proc_pids; [right; split; [reflexivity|congruence]|exact H1]|].
  split; [exact H2|]. simpl. rewrite upd_ne by congruence. exact H3.
Qed.

Lemma keeps_wakeup chan : keeps in_proc (wakeup chan) (fun _ => in_proc).
Proof.
  unfold wakeup. generalize (Z.to_nat NPROC) 0. intros n. induction n as [|n IH]; intros p; cbn [wakeup_loop];
    [apply stays_ret; auto|].
  apply stays_gets. intros me'. apply (stays_pre _ _ _ in_proc); [tauto|].
  eapply stays_bind; [|intros ?; apply IH]. apply stays_when.
  eapply stays_bind; [apply acq_proc|]. intros ?. apply stays_gets. intros x.
  eapply (stays_bind _ _ _ (fun _ => in_proc)); [|intros ?; apply rel_proc].
  destruct (bool_decide _ && _) eqn:Eb; cbn [when]; [|apply stays_ret; tauto].
  b2p. apply bool_decide_eq_true in H. apply stays_modify. intros s [[Hs _] Hx]. apply wake_in_proc; [exact Hs|congruence].
Qed.

Lemma keeps_kkill pid : keeps in_proc (kkill pid) (fun _ => in_proc).
Proof.
  unfold kkill. generalize (Z.to_nat NPROC) 0. intros n. induction n as [|n IH]; intros p; cbn [kkill_loop];
    [apply stays_ret; auto|].
  eapply stays_bind; [apply acq_proc|]. intros ?. apply stays_gets. intros x. destruct (p_pid x =? pid).
  - eapply (stays_bind _ _ _ (fun _ s => in_proc s /\ p_state (ps_proc s p) = p_state x)).
    { apply stays_modify. intros s [[Hs _] Hx]. split; [apply plain_in_proc; [intros y; auto|exact Hs]|]. simpl. rewrite upd_eq. simpl. congruence. }
    intros ?. eapply (stays_bind _ _ _ (fun _ => in_proc)).
    { destruct (bool_decide _) eqn:Eb; cbn [when]; [|apply stays_ret; tauto]. apply bool_decide_eq_true in Eb.
      apply stays_modify. intros s [Hs Hx]. apply wake_in_proc; [exact Hs|congruence]. }
    intros ?. eapply stays_bind; [apply rel_proc|]. intros ?. apply stays_ret. auto.
  - apply (stays_pre _ _ _ in_proc); [tauto|]. eapply stays_bind; [apply rel_proc|]. intros ?. apply IH.
Qed.

(** ** Giving up the CPU *)

Lemma keeps_sched : keeps (fun s => pids_ok s /\ at_me s) sched (fun _ => in_proc).
Proof.
  intros s [H1 H2]. unfold sched, myproc, get_proc. rewrite !bind_gets.
  destruct (negb _); [exact I|]. destruct (negb _); [exact I|]. destruct (bool_decide _); [exact I|]. destruct (c_intr _); [exact I|].
  unfold bind, swtch_out. simpl. split; [exact H1|]. intros s' HI (E1 & E2 & E3).
  apply (in_proc_table s'); try reflexivity. split; [exact HI|]. unfold at_me in *. rewrite E1. auto.
Qed.

(** Leaving the running state with the own entry locked. *)
Lemma leave s st : st <> UNUSED -> in_proc s -> let s' := set_proc (ps_cur s) (w_state st) s in
  pids_ok s' /\ at_me s'.
Proof.
  intros Hst (H1 & H2 & H3). split; [apply set_proc_pids; [right; split; [reflexivity|congruence]|exact H1]|exact H2].
Qed.

Lemma keeps_yield : keeps in_proc yield (fun _ => in_proc).
Proof.
  unfold yield, myproc. apply stays_gets. intros p.
  eapply (stays_bind _ _ _ (fun _ s => in_proc s /\ ps_cur s = p)).
  { apply (stays_acq _ _ (fun s => in_proc s /\ ps_cur s = p)).
    - intros s s' E1 E2 E3 [H Hp]. split; [eapply in_proc_table; eauto|congruence].
    - intros s [H Hp]. split; [apply (plain_in_proc p); [apply plain_lock|exact H]|exact Hp]. }
  intros ?. eapply (stays_bind _ _ _ (fun _ s => pids_ok s /\ at_me s)).
  { apply stays_modify. intros s [H <-]. apply leave; [discriminate|exact H]. }
  intros ?. eapply stays_bind; [apply keeps_sched|]. intros ?. apply rel_proc.
Qed.

Lemma keeps_sleep chan : keeps in_proc (sleep chan wait_lock) (fun _ => in_proc).
Proof.
  unfold sleep, myproc. apply stays_gets. intros p.
  assert (HT : on_table (fun s => in_proc s /\ ps_cur s = p)).
  { intros s s' E1 E2 E3 [H Hp]. split; [eapply in_proc_table; eauto|congruence]. }
  eapply (stays_bind _ _ _ (fun _ s => in_proc s /\ ps_cur s = p)).
  { apply (stays_acq _ _ (fun s => in_proc s /\ ps_cur s = p) HT).
    intros s [H Hp]. split; [apply (plain_in_proc p); [apply plain_lock|exact H]|exact Hp]. }
  intros ?. eapply stays_bind; [apply (rel_wait _ HT)|]. intros ?.
  eapply (stays_bind _ _ _ (fun _ s => in_proc s /\ ps_cur s = p)).
  { apply stays_modify. intros s [H Hp]. split; [apply plain_in_proc; [intros x; auto|exact H]|exact Hp]. }
  intros ?. eapply (stays_bind _ _ _ (fun _ s => pids_ok s /\ at_me s)).
  { apply stays_modify. intros s [H <-]. apply leave; [discriminate|exact H]. }
  intros ?. eapply stays_bind; [apply keeps_sched|]. intros ?.
  eapply stays_bind; [apply stays_plain; intros x; auto|]. intros ?.
  eapply stays_bind; [apply rel_proc|]. intros ?. apply acq_wait, in_proc_table.
Qed.

(** ** Freeing and allocating *)

(** An entry that becomes unused. *)
Lemma unused_in_proc p s s' : in_proc s -> p <> ps_cur s -> ps_nextpid s' = ps_nextpid s -> ps_cur s' = ps_cur s ->
  (forall q, q <> p -> ps_proc s' q = ps_proc s q) -> p_state (ps_proc s' p) = UNUSED -> in_proc s'.
Proof.
  intros ([H1 H2 H3] & H4 & H5) Hp En Ec Hq Hu. split; [|unfold at_me in *; rewrite Ec, Hq by congruence; auto].
  assert (Hne : forall q, p_state (ps_proc s' q) <> UNUSED -> ps_proc s' q = ps_proc s q).
  { intros q Hs. apply Hq. intros ->. contradiction. }
  split; rewrite ?En; [exact H1| |].
  - intros q Hr Hs. rewrite Hne in * by exact Hs. auto.
  - intros q r Hr1 Hr2 Hs1 Hs2. rewrite (Hne q), (Hne r) in * by assumption. auto.
Qed.

Lemma keeps_freeproc p st : keeps (owns_entry p st) (freeproc p) (fun _ => in_proc).
Proof.
  unfold freeproc, get_proc. apply stays_gets. intros x. apply (stays_pre _ _ _ (owns_entry p st)); [tauto|].
  eapply stays_bind; [apply stays_when, stays_mem; [apply owns_stable|apply owns_table]|]. intros ?.
  eapply stays_bind; [apply (stays_plain_owned p p (w_trapframe 0)); [intros y; auto|reflexivity]|]. intros ?.
  eapply stays_bind; [apply stays_when, stays_mem; [apply owns_stable|apply owns_table]|]. intros ?.
  intros s H. rewrite !bind_modify. simpl. destruct H as (H0 & H1 & H2 & H3 & H4).
  apply (unused_in_proc p s); auto; simpl.
  - intros q Hq. rewrite !upd_ne by exact Hq. reflexivity.
  - rewrite !upd_eq. reflexivity.
Qed.

(** With pids left. *)
Definition ready (s : ps E) : Prop := in_proc s /\ ps_nextpid s < 2 ^ 31 - 1.

Lemma ready_table : on_table ready.
Proof. intros s s' E1 E2 E3 [H Hn]. split; [eapply in_proc_table; eauto|congruence]. Qed.

Lemma keeps_scan n : forall p, 0 <= p -> p + Z.of_nat n <= NPROC -> keeps ready (allocproc_scan n p)
  (fun q s => q = NULLP /\ in_proc s \/ owns_entry q UNUSED s /\ ps_nextpid s < 2 ^ 31 - 1).
Proof.
  induction n as [|n IH]; intros p Hp Hn; cbn [allocproc_scan]; [apply stays_ret; intros s [H _]; auto|].
  eapply (stays_bind _ _ _ (fun _ s => ready s /\ p_lock (ps_proc s p) = true)).
  { apply (stays_acq _ _ (fun s => ready s /\ p_lock (ps_proc s p) = true) ready_table). intros s [H Hs].
    split; [split; [apply (plain_in_proc p); [apply plain_lock|exact H]|exact Hs]|]. simpl. rewrite upd_eq. reflexivity. }
  intros ?. apply stays_gets. intros x. destruct (decide (p_state x = UNUSED)) as [Hu|Hu].
  - apply stays_ret. intros s [[[H Hs] Hl] Hx]. right. split; [|exact Hs]. split; [exact H|]. split; [lia|]. subst x.
    split; [|auto]. intros ->. destruct H as (_ & _ & Hr). congruence.
  - apply (stays_pre _ _ _ ready); [tauto|]. eapply (stays_bind _ _ _ (fun _ => ready)); [|intros ?; apply IH; lia].
    apply stays_rel; [exact ready_table|]. intros s [H Hs]. split; [apply (plain_in_proc p); [apply plain_lock|exact H]|exact Hs].
Qed.

(** A pid that no process has. *)
Definition fresh (pid : Z) (s : ps E) : Prop :=
  1 <= pid < ps_nextpid s /\ forall q, 0 <= q < NPROC -> p_state (ps_proc s q) <> UNUSED -> p_pid (ps_proc s q) <> pid.

Lemma keeps_allocpid p : keeps (fun s => owns_entry p UNUSED s /\ ps_nextpid s < 2 ^ 31 - 1) allocpid
  (fun pid s => owns_entry p UNUSED s /\ fresh pid s).
Proof.
  assert (HT : on_table (fun s => owns_entry p UNUSED s /\ ps_nextpid s < 2 ^ 31 - 1)).
  { intros s s' E1 E2 E3 [H Hn]. split; [eapply owns_table; eauto|congruence]. }
  unfold allocpid. eapply stays_bind.
  { apply (stays_acq _ _ (fun s => owns_entry p UNUSED s /\ ps_nextpid s < 2 ^ 31 - 1) HT).
    intros s H. eapply HT; [..|exact H]; reflexivity. }
  intros ?. apply stays_gets. intros pid. eapply (stays_bind _ _ _ (fun _ s => owns_entry p UNUSED s /\ fresh pid s)).
  - apply stays_modify. intros s [[(H0 & H1) Hn] <-]. destruct H0 as ([P1 P2 P3] & H4 & H5).
    assert (Ei : i32 (ps_nextpid s + 1) = ps_nextpid s + 1) by (apply i32_small; lia). rewrite Ei. split; [split; [|exact H1]|].
    + split; [split; simpl; [lia| |exact P3]|auto]. intros q Hq Hs. specialize (P2 q Hq Hs). lia.
    + split; [simpl; lia|]. simpl. intros q Hq Hs. specialize (P2 q Hq Hs). lia.
  - intros ?. eapply (stays_bind _ _ _ (fun _ s => owns_entry p UNUSED s /\ fresh pid s)); [|intros ?; apply stays_ret; auto].
    apply stays_rel.
    + intros s s' E1 E2 E3 [H [H1 H2]]. split; [eapply owns_table; eauto|]. split; [congruence|]. rewrite E1. exact H2.
    + intros s [H [H1 H2]]. split; [eapply owns_table; [..|exact H]; reflexivity|]. split; assumption.
Qed.

(** The entry gets its pid. *)
Lemma take_pid p pid s : owns_entry p UNUSED s -> fresh pid s ->
  owns_entry p USED (set_proc p (w_state USED) (set_proc p (w_pid pid) s)).
Proof.
  intros (([P1 P2 P3] & H4 & H5) & H1 & H2 & H3 & H6) [Hf1 Hf2].
  assert (Hq : forall q, ps_proc (set_proc p (w_state USED) (set_proc p (w_pid pid) s)) q =
    if q =? p then w_state USED (w_pid pid (ps_proc s p)) else ps_proc s q).
  { intros q. simpl. unfold upd. rewrite Z.eqb_refl. destruct (q =? p); reflexivity. }
  split; [split; [split|]|].
  - exact P1.
  - intros q Hr. rewrite Hq. destruct (q =? p); [intros _; exact Hf1|apply P2, Hr].
  - intros q r Hr1 Hr2. rewrite !Hq. destruct (Z.eqb_spec q p), (Z.eqb_spec r p); subst; simpl; auto.
    + intros _ Hs Epid. exfalso. apply (Hf2 r Hr2 Hs). congruence.
    + intros Hs _ Epid. exfalso. apply (Hf2 q Hr1 Hs). congruence.
  - rewrite Hq. replace (ps_cur _ =? p) with false by (simpl; lia). auto.
  - rewrite Hq, Z.eqb_refl. auto.
Qed.

Lemma keeps_alloc_failed p st : keeps (owns_entry p st) (alloc_failed p) (fun q s => q = NULLP /\ in_proc s \/ owns_entry q USED s).
Proof.
  unfold alloc_failed. eapply stays_bind; [apply keeps_freeproc|]. intros ?. eapply stays_bind; [apply rel_proc|].
  intros ?. apply stays_ret. auto.
Qed.

Lemma keeps_allocproc : keeps ready (allocproc trampoline forkret) (fun q s => q = NULLP /\ in_proc s \/ owns_entry q USED s).
Proof.
  unfold allocproc. eapply stays_bind; [apply keeps_scan; unfold NPROC; lia|]. intros p.
  destruct (Z.eqb_spec p NULLP) as [Hp|Hp].
  { apply stays_ret. intros s [[_ H]|[(_ & Hr & _) _]]; [auto|]. exfalso. unfold NULLP in Hp. lia. }
  apply (stays_pre _ _ _ (fun s => owns_entry p UNUSED s /\ ps_nextpid s < 2 ^ 31 - 1)); [intros s [[-> _]|H]; [contradiction|exact H]|].
  eapply stays_bind; [apply keeps_allocpid|]. intros pid s [H Hf]. rewrite !bind_modify. cbv beta.
  apply (take_pid _ _ _ H) in Hf. clear H. revert Hf. generalize (set_proc p (w_state USED) (set_proc p (w_pid pid) s)). clear s.
  assert (Hpl : forall f, plain f -> (forall x, p_lock (f x) = p_lock x) ->
    keeps (owns_entry p USED) (modify (set_proc p f)) (fun _ => owns_entry p USED)).
  { intros f Hf Hl. apply stays_plain_owned; auto. }
  change (keeps (owns_entry p USED) (let! tf := zoom mem_of kalloc in
    modify (set_proc p (w_trapframe tf)) ;;
    if tf =? 0 then alloc_failed p else
    let! pt := zoom mem_of (proc_pagetable trampoline tf) in
    modify (set_proc p (w_pgtbl pt)) ;;
    if pt =? 0 then alloc_failed p else
    let! x := get_proc p in
    modify (set_proc p (w_context forkret (u64 (p_kstack x + PGSIZE)))) ;;
    ret p) (fun q s => q = NULLP /\ in_proc s \/ owns_entry q USED s)).
  eapply stays_bind; [apply stays_mem; [apply owns_stable|apply owns_table]|]. intros tf.
  eapply stays_bind; [apply Hpl; [intros x; auto|reflexivity]|]. intros ?. destruct (tf =? 0); [apply keeps_alloc_failed|].
  eapply stays_bind; [apply stays_mem; [apply owns_stable|apply owns_table]|]. intros pt.
  eapply stays_bind; [apply Hpl; [intros x; auto|reflexivity]|]. intros ?. destruct (pt =? 0); [apply keeps_alloc_failed|].
  apply stays_gets. intros x. apply (stays_pre _ _ _ (owns_entry p USED)); [tauto|].
  eapply stays_bind; [apply Hpl; [intros y; auto|reflexivity]|]. intros ?. apply stays_ret. auto.
Qed.

(** ** The operations *)

Lemma drop_eq {A} (P : ps E -> Prop) (g : ps E -> A) a s : P s /\ g s = a -> P s.
Proof. tauto. Qed.

Lemma keeps_setkilled p : keeps in_proc (setkilled p) (fun _ => in_proc).
Proof.
  unfold setkilled. eapply stays_bind; [apply acq_proc|]. intros ?. apply (stays_pre _ _ _ in_proc); [tauto|].
  eapply stays_bind; [apply stays_plain; intros x; auto|]. intros ?. apply rel_proc.
Qed.

Lemma keeps_killed p : keeps in_proc (killed p) (fun _ => in_proc).
Proof.
  unfold killed. eapply stays_bind; [apply acq_proc|]. intros ?. apply stays_gets. intros x.
  apply (stays_pre _ _ _ in_proc); [tauto|]. eapply stays_bind; [apply rel_proc|]. intros ?. apply stays_ret. auto.
Qed.

Lemma keeps_growproc n : keeps in_proc (growproc n) (fun _ => in_proc).
Proof.
  unfold growproc, myproc, get_proc. apply stays_gets. intros p. apply (stays_pre _ _ _ in_proc); [tauto|].
  apply stays_gets. intros x. apply (stays_pre _ _ _ in_proc); [tauto|]. cbv zeta.
  assert (Hsz : forall sz, keeps in_proc (modify (set_proc p (w_size sz)) ;; ret 0) (fun _ => in_proc)).
  { intros sz. eapply stays_bind; [apply stays_plain; intros y; auto|]. intros ?. apply stays_ret. auto. }
  destruct (0 <? n).
  - destruct (TRAPFRAME <? _); [apply stays_ret; auto|].
    eapply stays_bind; [apply stays_mem; [apply in_proc_stable|apply in_proc_table]|]. intros sz.
    destruct (sz =? 0); [apply stays_ret; auto|apply Hsz].
  - eapply (stays_bind _ _ _ (fun _ => in_proc)); [|intros sz; apply Hsz].
    destruct (n <? 0); [apply stays_mem; [apply in_proc_stable|apply in_proc_table]|apply stays_ret; auto].
Qed.

Lemma keeps_dup_files n p np st : forall i, keeps (owns_entry np st) (dup_files n p np i) (fun _ => owns_entry np st).
Proof.
  induction n as [|n IH]; intros i; cbn [dup_files]; [apply stays_ret; auto|].
  apply stays_gets. intros x. apply (stays_pre _ _ _ (owns_entry np st)); [tauto|].
  eapply stays_bind; [apply stays_when|intros ?; apply IH].
  eapply stays_bind; [apply stays_env; [apply owns_stable|apply owns_table]|]. intros f.
  apply (stays_plain_owned np np); [intros y; auto|reflexivity].
Qed.

(** The entry of a child that is complete but not yet ready to run. *)
Definition set_up (np : Z) (s : ps E) : Prop :=
  in_proc s /\ np <> ps_cur s /\ p_state (ps_proc s np) = USED.

Lemma set_up_table np : on_table (set_up np).
Proof. intros s s' E1 E2 E3 (H1 & H2 & H3). split; [eapply in_proc_table; eauto|]. rewrite E1, E3. auto. Qed.

Lemma set_up_plain np f s : plain f -> set_up np s -> set_up np (set_proc np f s).
Proof.
  intros Hf (H1 & H2 & H3). split; [apply plain_in_proc; assumption|]. split; [exact H2|]. simpl. rewrite upd_eq.
  destruct (Hf (ps_proc s np)) as [_ ->]. exact H3.
Qed.

Lemma keeps_start p np (pid : Z) : keeps (owns_entry np USED)
  (release_off (proc_lock np) ;;
   acquire_off wait_lock ;;
   modify (set_proc np (w_parent p)) ;;
   release_off wait_lock ;;
   acquire_off (proc_lock np) ;;
   modify (set_proc np (w_state RUNNABLE)) ;;
   release_off (proc_lock np) ;;
   ret pid) (fun _ => in_proc).
Proof.
  eapply (stays_bind _ _ _ (fun _ => set_up np)).
  { apply stays_rel; [apply set_up_table|]. intros s (H0 & H1 & H2 & H3 & H4).
    apply (set_up_plain np (w_lock false)); [apply plain_lock|]. split; auto. }
  intros ?. eapply stays_bind; [apply acq_wait, set_up_table|]. intros ?.
  eapply (stays_bind _ _ _ (fun _ => set_up np)).
  { apply stays_modify. intros s H. apply set_up_plain; [intros x; auto|exact H]. }
  intros ?. eapply stays_bind; [apply rel_wait, set_up_table|]. intros ?.
  eapply (stays_bind _ _ _ (fun _ => set_up np)).
  { apply stays_acq; [apply set_up_table|]. intros s H. apply (set_up_plain np (w_lock true)); [apply plain_lock|exact H]. }
  intros ?. eapply (stays_bind _ _ _ (fun _ => in_proc)).
  { apply stays_modify. intros s ((H1 & H2 & H3) & H4 & H5).
    split; [apply set_proc_pids; [right; split; [reflexivity|congruence]|exact H1]|]. split; [exact H2|].
    simpl. rewrite upd_ne by congruence. exact H3. }
  intros ?. eapply stays_bind; [apply rel_proc|]. intros ?. apply stays_ret. auto.
Qed.

Lemma keeps_kfork : keeps ready (kfork trampoline forkret) (fun _ => in_proc).
Proof.
  unfold kfork, myproc, get_proc. apply stays_gets. intros p. apply (stays_pre _ _ _ ready); [tauto|].
  eapply stays_bind; [apply keeps_allocproc|]. intros np. destruct (Z.eqb_spec np NULLP) as [Hp|Hp].
  { apply stays_ret. intros s [[_ H]|H]; [exact H|apply H]. }
  apply (stays_pre _ _ _ (owns_entry np USED)); [intros s [[-> _]|H]; [contradiction|exact H]|].
  assert (Hpl : forall f, plain f -> (forall x, p_lock (f x) = p_lock x) ->
    keeps (owns_entry np USED) (modify (set_proc np f)) (fun _ => owns_entry np USED)).
  { intros f Hf Hl. apply stays_plain_owned; auto. }
  assert (Hmem : forall A (m : M kst A), keeps (owns_entry np USED) (zoom mem_of m) (fun _ => owns_entry np USED)).
  { intros A m. apply stays_mem; [apply owns_stable|apply owns_table]. }
  do 2 (apply stays_gets; intros ?; apply (stays_pre _ _ _ (owns_entry np USED)); [tauto|]).
  eapply stays_bind; [apply Hmem|]. intros r. destruct (r <? 0).
  { eapply stays_bind; [apply keeps_freeproc|]. intros ?. eapply stays_bind; [apply rel_proc|]. intros ?. apply stays_ret. auto. }
  eapply stays_bind; [apply Hpl; [intros x; auto|reflexivity]|]. intros ?.
  eapply stays_bind; [apply Hmem|]. intros ?. eapply stays_bind; [apply Hmem|]. intros ?.
  eapply stays_bind; [apply keeps_dup_files|]. intros ?.
  eapply stays_bind; [apply stays_env; [apply owns_stable|apply owns_table]|]. intros ip.
  eapply stays_bind; [apply Hpl; [intros x; auto|reflexivity]|]. intros ?.
  eapply stays_bind; [apply Hpl; [intros x; auto|reflexivity]|]. intros ?.
  apply stays_gets. intros y. apply (stays_pre _ _ _ (owns_entry np USED)); [tauto|]. apply keeps_start.
Qed.

Lemma keeps_reparent p : keeps in_proc (reparent proc_at p) (fun _ => in_proc).
Proof.
  unfold reparent. generalize (Z.to_nat NPROC) 0. intros n. induction n as [|n IH]; intros pp; cbn [reparent_loop];
    [apply stays_ret; auto|].
  apply stays_gets. intros x. apply (stays_pre _ _ _ in_proc); [tauto|].
  eapply stays_bind; [apply stays_when|intros ?; apply IH].
  apply stays_gets. intros i. apply (stays_pre _ _ _ in_proc); [tauto|].
  eapply stays_bind; [apply stays_plain; intros y; auto|]. intros ?. apply keeps_wakeup.
Qed.

Lemma keeps_close_files n p : forall fd, keeps in_proc (close_files n p fd) (fun _ => in_proc).
Proof.
  induction n as [|n IH]; intros fd; cbn [close_files]; [apply stays_ret; auto|].
  apply stays_gets. intros x. apply (stays_pre _ _ _ in_proc); [tauto|].
  eapply stays_bind; [apply stays_when|intros ?; apply IH].
  eapply stays_bind; [apply stays_env; [apply in_proc_stable|apply in_proc_table]|]. intros ?. apply stays_plain. intros y. auto.
Qed.

Lemma keeps_kexit status : keeps in_proc (kexit proc_at status) (fun _ => in_proc).
Proof.
  unfold kexit, myproc, get_proc. apply stays_gets. intros p. destruct (decide (p = me)) as [->|Hp].
  2: { intros s [(_ & [Hc _] & _) Hs]. congruence. }
  apply (stays_pre _ _ _ in_proc); [tauto|]. apply stays_gets. intros i. apply (stays_pre _ _ _ in_proc); [tauto|].
  destruct (me =? i); [apply stays_panic|].
  eapply stays_bind; [apply keeps_close_files|]. intros ?. apply stays_gets. intros x. apply (stays_pre _ _ _ in_proc); [tauto|].
  eapply stays_bind; [apply stays_env; [apply in_proc_stable|apply in_proc_table]|]. intros ?.
  eapply stays_bind; [apply stays_plain; intros y; auto|]. intros ?.
  eapply stays_bind; [apply acq_wait, in_proc_table|]. intros ?. eapply stays_bind; [apply keeps_reparent|]. intros ?.
  apply stays_gets. intros y. apply (stays_pre _ _ _ in_proc); [tauto|].
  eapply stays_bind; [apply keeps_wakeup|]. intros ?. eapply stays_bind; [apply acq_proc|]. intros ?.
  apply (stays_pre _ _ _ in_proc); [tauto|]. eapply stays_bind; [apply stays_plain; intros z; auto|]. intros ?.
  eapply (stays_bind _ _ _ (fun _ s => pids_ok s /\ at_me s)).
  { apply stays_modify. intros s H. pose proof H as (_ & [Hc _] & _). rewrite <- Hc. apply leave; [discriminate|exact H]. }
  intros ?. eapply stays_bind.
  { apply (rel_wait (fun s => pids_ok s /\ at_me s)). intros s s' E1 E2 E3 [[H1 H2 H3] H4].
    unfold at_me in *. split; [split; rewrite ?E1, ?E2; assumption|]. rewrite E3. exact H4. }
  intros ?. eapply stays_bind; [apply keeps_sched|]. intros ?. apply stays_panic.
Qed.

Lemma keeps_kwait_scan n p addr : forall pp havekids, 0 <= pp -> pp + Z.of_nat n <= NPROC ->
  keeps in_proc (kwait_scan xstate_at n p addr pp havekids) (fun _ => in_proc).
Proof.
  induction n as [|n IH]; intros pp havekids H0 Hn; cbn [kwait_scan]; [apply stays_ret; auto|].
  apply stays_gets. intros x. apply (stays_pre _ _ _ in_proc); [tauto|]. destruct (p_parent x =? p); [|apply IH; lia].
  eapply stays_bind; [apply acq_proc|]. intros ?. apply stays_gets. clear x. intros x.
  destruct (decide (p_state x = ZOMBIE)) as [Hz|Hz].
  2: { apply (stays_pre _ _ _ in_proc); [tauto|]. eapply stays_bind; [apply rel_proc|]. intros ?. apply IH; lia. }
  apply (stays_pre _ _ _ (owns_entry pp ZOMBIE)).
  { intros s [[H Hl] Hx]. subst x. split; [exact H|]. split; [lia|]. split; [|auto].
    intros ->. destruct H as (_ & _ & Hr). congruence. }
  apply stays_gets. intros y. apply (stays_pre _ _ _ (owns_entry pp ZOMBIE)); [tauto|].
  eapply (stays_bind _ _ _ (fun _ => owns_entry pp ZOMBIE)).
  { destruct (addr =? 0); [apply stays_ret; auto|apply stays_mem; [apply owns_stable|apply owns_table]]. }
  intros r. destruct (r <? 0).
  - apply (stays_pre _ _ _ in_proc); [intros s H; apply H|]. eapply stays_bind; [apply rel_proc|]. intros ?.
    eapply stays_bind; [apply rel_wait, in_proc_table|]. intros ?. apply stays_ret. auto.
  - eapply stays_bind; [apply keeps_freeproc|]. intros ?. eapply stays_bind; [apply rel_proc|]. intros ?.
    eapply stays_bind; [apply rel_wait, in_proc_table|]. intros ?. apply stays_ret. auto.
Qed.

Lemma keeps_kwait fuel addr : keeps in_proc (kwait proc_at xstate_at fuel addr) (fun _ => in_proc).
Proof.
  unfold kwait, myproc. apply stays_gets. intros p. apply (stays_pre _ _ _ in_proc); [tauto|].
  eapply stays_bind; [apply acq_wait, in_proc_table|]. intros ?. induction fuel as [|fuel IH]; cbn [kwait_loop]; [apply stays_nofuel|].
  eapply stays_bind; [apply keeps_kwait_scan; unfold NPROC; lia|]. intros [r|havekids]; [apply stays_ret; auto|].
  eapply (stays_bind _ _ _ (fun _ => in_proc)).
  { destruct (negb havekids); [apply stays_ret; auto|apply keeps_killed]. }
  intros k. destruct (negb (k =? 0)).
  - eapply stays_bind; [apply rel_wait, in_proc_table|]. intros ?. apply stays_ret. auto.
  - eapply stays_bind; [apply keeps_sleep|]. intros ?. apply IH.
Qed.

(** ** What is promised *)

Inductive pcall : Type :=
  | P_fork | P_exit (status : Z) | P_wait (fuel : nat) (addr : Z) | P_kill (pid : Z) | P_yield | P_wakeup (chan : Z)
  | P_grow (n : Z) | P_setkilled (p : Z).

Definition run_pcall (c : pcall) : M (ps E) unit :=
  match c with
  | P_fork => let! _ := kfork trampoline forkret in ret tt
  | P_exit status => kexit proc_at status
  | P_wait fuel addr => let! _ := kwait proc_at xstate_at fuel addr in ret tt
  | P_kill pid => let! _ := kkill pid in ret tt
  | P_yield => yield
  | P_wakeup chan => wakeup chan
  | P_grow n => let! _ := growproc n in ret tt
  | P_setkilled p => setkilled p
  end.

(** C12. No two processes ever have the same pid.  Every operation a running
    process performs on the process table - fork, exit, wait, kill, yield,
    waking others, growing, marking as killed - keeps the pids of the processes
    in use distinct, positive and below the next pid to be given out, as long as
    the counter has not run out: at its end, and whenever it gives up the CPU
    on the way to processes that keep them so too and leave alone the entries
    it has locked. *)
Theorem pids_unique c s : in_proc s -> ps_nextpid s < 2 ^ 31 - 1 ->
  upholds pids_ok resumed (fun _ => in_proc) (run_pcall c s).
Proof using.
  intros H Hn. assert (Hrun : keeps (fun s => in_proc s /\ ps_nextpid s < 2 ^ 31 - 1) (run_pcall c) (fun _ => in_proc)).
  { assert (Hu : forall A (m : M (ps E) A) P, keeps P m (fun _ => in_proc) -> keeps P (let! _ := m in ret tt) (fun _ => in_proc)).
    { intros A m P Hm. eapply stays_bind; [exact Hm|]. intros ?. apply stays_ret. auto. }
    destruct c; simpl; [apply Hu, keeps_kfork| | | | | | |]; apply (stays_pre _ _ _ in_proc); try tauto;
      [apply keeps_kexit|apply Hu, keeps_kwait|apply Hu, keeps_kkill|apply keeps_yield|apply keeps_wakeup|apply Hu, keeps_growproc|apply keeps_setkilled]. }
  apply Hrun. auto.
Qed.
End Pids.

Module ExampleFork.
(** One process, pid 1; it forks. *)
#[local] Instance ex_env : ProcEnv unit :=
  {| e_filedup f := ret f; e_fileclose _ := ret tt; e_idup ip := ret ip; e_iput_op _ := ret tt; e_namei _ := ret 0 |}.
Definition ex_entry (p : Z) : proc :=
  Proc false (if p =? 0 then RUNNING else UNUSED) 0 0 0 (if p =? 0 then 1 else 0) NULLP (KSTACK p) 0 0 0 0 0 (fun _ => NULLP) 0 [].
Definition ex_table : ps unit :=
  Ps (Kst (fun _ => 0) 0 false 0) ex_entry 2 false false 0 0 (Cpu true 0 false) tt.

Lemma ex_in_proc : in_proc 0 ex_table.
Proof.
  split; [split; [split; closed| |]|split; [split; [reflexivity|split; closed]|reflexivity]].
  - intros p _ Hs. simpl in *. destruct (p =? 0); [split; closed|contradiction].
  - intros p q _ _ Hp Hq _. simpl in *. destruct (Z.eqb_spec p 0), (Z.eqb_spec q 0); congruence.
Qed.

Lemma pids_unique_witness :
  upholds pids_ok resumed (fun _ => in_proc 0) (run_pcall TRAMPOLINE 0 (fun p => p) (fun p => p) P_fork ex_table).
Proof. apply (pids_unique TRAMPOLINE 0 (fun p => p) (fun p => p) 0 P_fork ex_table); [exact ex_in_proc|closed]. Defined.
End ExampleFork.
