(* ===== verification/ForkSpec.v ===== *)
(** * Fork

    What [kfork] does to the process table and to memory: the pages of the
    processes stay apart, and the child sees what its parent sees. *)

From S2P Require Import Prelude CString Riscv Spinlock Kalloc Vm Proc ProcSpec PageTable AddressSpace CopyUser Spaces ProcMem.

(** What duplicating files and inodes promises: memory is as before.  A file
    of which [n] more copies can be made is [e_live]. *)
Class ForkEnv (E : Type) `{ProcEnv E} : Type := {
  e_live : E -> Z -> Z -> Prop;
  e_quiet : E -> Prop;
  e_live_less : forall e m n f, m <= n -> e_live e n f -> e_live e m f;
  e_filedup_ok : forall f n k e, e_quiet e -> 1 <= n -> e_live e n f ->
    exists e', e_filedup f (k, e) = Ret f (k, e') /\ e_quiet e' /\ forall g m, 1 <= m -> e_live e m g -> e_live e' (m - 1) g;
  e_idup_ok : forall ip k e, e_quiet e -> exists e', e_idup ip (k, e) = Ret ip (k, e') /\ e_quiet e'
}.

Lemma store_le_zero n : forall m a x, store_le m a n 0 x = if (a <=? x) && (x <? a + Z.of_nat n) then 0 else m x.
Proof.
  induction n as [|n IH]; intros m a x; [replace (_ && _) with false by lia; reflexivity|].
  change (store_le m a (S n) 0) with (store_le (store m a 0) (a + 1) n 0). rewrite IH. unfold store. destruct (Z.eqb_spec x a) as [->|]; repeat case_test; try reflexivity; exfalso; lia.
Qed.

Section Fork.
Context {E : Type} `{PE : ProcEnv E} (trampoline forkret cur : Z) (b : bool).

(** ** States *)

(** The state between the steps of a thread of process [cur] that holds [n]
    spin locks, entered with interrupts [b]. *)
Record looks (s : ps E) (tab : Z -> proc) (k : kst) (e : E) (pid n : Z) : Prop := {
  lk_mem : ps_mem s = k;
  lk_env : ps_env s = e;
  lk_pid : ps_nextpid s = pid;
  lk_cur : ps_cur s = cur;
  lk_pidlock : ps_pidlock s = false;
  lk_wait : ps_waitlock s = false;
  lk_noff : c_noff (ps_cpu s) = n;
  lk_intr : if n =? 0 then c_intr (ps_cpu s) = b else c_intr (ps_cpu s) = false /\ c_intena (ps_cpu s) = b;
  lk_tab : forall q, ps_proc s q = tab q
}.

Lemma looks_tab s tab tab' k e pid n : looks s tab k e pid n -> (forall q, tab q = tab' q) -> looks s tab' k e pid n.
Proof. intros [] Ht. split; auto. intros q. rewrite <- Ht. auto. Qed.

Lemma looks_set s tab k e pid n p f : looks s tab k e pid n -> looks (set_proc p f s) (upd tab p (f (tab p))) k e pid n.
Proof.
  intros []. split; auto. intros q. simpl. unfold upd. destruct (q =? p); [f_equal; auto|auto].
Qed.

Lemma looks_mem {A} s tab k e pid n (m : M kst A) a k' : looks s tab k e pid n -> m k = Ret a k' ->
  exists s', zoom mem_of m s = Ret a s' /\ looks s' tab k' e pid n.
Proof.
  intros [] Em. eexists. split; [apply zoom_ret; simpl; rewrite lk_mem0; exact Em|]. split; auto.
Qed.

Lemma looks_env {A} s tab k e pid n (m : M (kst * E) A) a k' e' : looks s tab k e pid n -> m (k, e) = Ret a (k', e') ->
  exists s', zoom env_of m s = Ret a s' /\ looks s' tab k' e' pid n.
Proof.
  intros [] Em. eexists. split; [apply zoom_ret; simpl; rewrite lk_mem0, lk_env0; exact Em|]. split; auto.
Qed.

Lemma looks_acquire s tab k e pid p : looks s tab k e pid 0 -> p_lock (tab p) = false ->
  exists s', acquire_off (proc_lock p) s = Ret tt s' /\ looks s' (upd tab p (w_lock true (tab p))) k e pid 1.
Proof.
  intros [] Hl. eexists. split; [apply acquire_first; [assumption|rewrite lk_tab0; exact Hl]|].
  split; simpl; auto. intros q. unfold upd. destruct (q =? p); [rewrite lk_tab0|]; auto.
Qed.

Lemma looks_release s tab k e pid p : looks s tab k e pid 1 -> p_lock (tab p) = true ->
  exists s', release_off (proc_lock p) s = Ret tt s' /\ looks s' (upd tab p (w_lock false (tab p))) k e pid 0.
Proof.
  intros [] Hl. simpl in lk_intr0. destruct lk_intr0 as [Hi Ha]. eexists. split; [apply release_last; auto; rewrite lk_tab0; exact Hl|].
  split; simpl; auto. intros q. unfold upd. destruct (q =? p); [rewrite lk_tab0|]; auto.
Qed.

Lemma looks_wait {A} s tab k e pid f p (m : M (ps E) A) : looks s tab k e pid 0 ->
  exists s', (acquire_off wait_lock ;; modify (set_proc p f) ;; release_off wait_lock ;; m) s = m s' /\ looks s' (upd tab p (f (tab p))) k e pid 0.
Proof.
  intros []. unfold acquire_off, release_off, acquire, release, pop. destruct s as [? ? ? ? ? ? ? c ?]. simpl in *. subst.
  unfold bind, modify. simpl. unfold push_off, pop_off. rewrite lk_noff0. simpl. eexists. split; [reflexivity|].
  split; simpl; auto. intros q. unfold upd. destruct (q =? p); [f_equal|]; auto.
Qed.

Lemma looks_allocpid s tab k e pid : looks s tab k e pid 1 ->
  exists s', allocpid s = Ret pid s' /\ looks s' tab k e (i32 (pid + 1)) 1.
Proof.
  intros []. unfold allocpid, acquire_off, release_off, acquire, release, pop. destruct s as [? ? ? ? ? ? ? c ?]. simpl in *. subst.
  unfold bind, modify, gets, ret. simpl. unfold push_off, pop_off. rewrite lk_noff0. simpl. eexists. split; [reflexivity|].
  split; simpl; auto. destruct lk_intr0. auto.
Qed.

(** ** The memory of an entry *)

(** The pages of a process. *)
Definition has (k : kst) (x : proc) (q : Z) : Prop :=
  (p_trapframe x <> 0 /\ q = p_trapframe x) \/ (p_pgtbl x <> 0 /\ owns TRAPFRAME (p_pgtbl x) k q).

Record entry_ok (k : kst) (l : list Z) (x : proc) : Prop := {
  en_space : p_pgtbl x <> 0 -> user_space trampoline (p_trapframe x) (p_pgtbl x) (p_size x) k l;
  en_tf : p_trapframe x <> 0 -> page_ok (kend k) (p_trapframe x) /\ (p_trapframe x ∉ l) /\
    (p_pgtbl x <> 0 -> ~ owns TRAPFRAME (p_pgtbl x) k (p_trapframe x));
  en_both : p_pgtbl x <> 0 -> p_trapframe x <> 0;
  en_unused : p_state x = UNUSED -> p_pgtbl x = 0 /\ p_trapframe x = 0 /\ p_size x = 0
}.

(** The process sees what it saw, and its trapframe is what it was. *)
Definition kept (k k' : kst) (x : proc) : Prop :=
  (p_pgtbl x <> 0 -> unchanged TRAPFRAME (p_pgtbl x) k k') /\
  (p_trapframe x <> 0 -> forall a, in_page (p_trapframe x) a -> phys k' a = phys k a).

Lemma entry_kept_refl k x : kept k k x.
Proof. split; auto using unchanged_refl. Qed.
Lemma entry_kept_trans k1 k2 k3 x : kept k1 k2 x -> kept k2 k3 x -> kept k1 k3 x.
Proof.
  intros [A1 A2] [B1 B2]. split; [intros H; eapply unchanged_trans; eauto|]. intros H a Ha. rewrite B2, A2 by assumption. reflexivity.
Qed.

Lemma kept_has k k' x q : kept k k' x -> has k' x q <-> has k x q.
Proof.
  intros [H1 H2]. unfold has. split; intros [H|[Hp H]]; auto; right; (split; [exact Hp|]);
    [rewrite <- (unchanged_owns _ _ _ _ _ (H1 Hp))|rewrite (unchanged_owns _ _ _ _ _ (H1 Hp))]; exact H.
Qed.

Lemma has_ok k l x q : entry_ok k l x -> has k x q -> page_ok (kend k) q /\ q ∉ l.
Proof.
  intros [Hs Ht _ _] [[Hn ->]|[Hn Ho]]; [destruct (Ht Hn) as (? & ? & _); auto|].
  apply (owns_ok _ _ _ _ _ (us_as _ _ _ _ _ _ (Hs Hn)) Ho).
Qed.

(** Work on pages [T] that are not the process's. *)
Lemma entry_keep (T : Z -> Prop) k l k' l' x : entry_ok k l x -> kinv k' l' -> kend k' = kend k ->
  (forall q, T q -> page_ok (kend k) q) -> (forall q, has k x q -> ~ T q) -> (forall q, q ∈ l' -> T q) ->
  (forall a, (forall q, T q -> ~ in_page q a) -> phys k' a = phys k a) ->
  entry_ok k' l' x /\ kept k k' x.
Proof.
  intros He Hk Hend Hok Hhas Hl Hf.
  assert (Hu : p_pgtbl x <> 0 -> as_wf TRAPFRAME (p_pgtbl x) k' l' /\ unchanged TRAPFRAME (p_pgtbl x) k k').
  { intros Hp. apply (elsewhere T _ _ k l k' l'); auto; [apply (us_as _ _ _ _ _ _ (en_space _ _ _ He Hp))|].
    intros q Hq. apply Hhas. right. auto. }
  assert (Hpage : p_trapframe x <> 0 -> forall a, in_page (p_trapframe x) a -> phys k' a = phys k a).
  { intros Hn a Ha. apply Hf. intros q Hq. destruct (en_tf _ _ _ He Hn) as (Ht & _).
    apply (page_ok_ne (kend k) (p_trapframe x) q Ht (Hok q Hq)); [|exact Ha]. intros E1. apply (Hhas q); [|exact Hq]. left. auto. }
  split; [|split; [intros Hp; apply Hu, Hp|exact Hpage]]. split; [| |apply He|apply He].
  - intros Hp. destruct (Hu Hp) as [H1 H2]. eapply user_space_unchanged; [apply (en_space _ _ _ He Hp)|exact H1|exact H2].
  - intros Hn. destruct (en_tf _ _ _ He Hn) as (H1 & H2 & H3). rewrite Hend. split; [exact H1|]. split.
    + intros Hin. apply (Hhas (p_trapframe x)); [left; auto|apply Hl, Hin].
    + intros Hp Ho. destruct (Hu Hp) as [_ H4]. apply (H3 Hp). rewrite <- (unchanged_owns _ _ _ _ _ H4). exact Ho.
Qed.

(** The pages that are free or [x]'s are all free afterwards. *)
Definition given_back (k : kst) (l : list Z) (x : proc) (k' : kst) (l' : list Z) : Prop :=
  kinv k' l' /\ kend k' = kend k /\ (forall q, q ∈ l' <-> q ∈ l \/ has k x q) /\
  forall a, (forall q, q ∈ l \/ has k x q -> ~ in_page q a) -> phys k' a = phys k a.

Definition cleared (x : proc) : proc :=
  Proc (p_lock x) UNUSED 0 0 0 0 NULLP (p_kstack x) 0 0 0 (p_ra x) (p_sp x) (p_ofile x) (p_cwd x) [].

Lemma free_memory k l x : kinv k l -> entry_ok k l x ->
  exists k1 k' l', when (negb (p_trapframe x =? 0)) (kfree (p_trapframe x)) k = Ret tt k1 /\
    when (negb (p_pgtbl x =? 0)) (proc_freepagetable (p_pgtbl x) (p_size x)) k1 = Ret tt k' /\ given_back k l x k' l'.
Proof.
  intros Hk He. assert (H1 : exists k1 l1, when (negb (p_trapframe x =? 0)) (kfree (p_trapframe x)) k = Ret tt k1 /\ kinv k1 l1 /\ kend k1 = kend k /\
    (forall q, q ∈ l1 <-> q ∈ l \/ (p_trapframe x <> 0 /\ q = p_trapframe x)) /\
    (forall a, (forall q, q ∈ l1 -> ~ in_page q a) -> phys k1 a = phys k a)).
  { destruct (Z.eqb_spec (p_trapframe x) 0) as [E0|E0]; cbn [negb when].
    - exists k, l. split; [reflexivity|]. split_and!; auto. intros q. tauto.
    - destruct (en_tf _ _ _ He E0) as (T1 & T2 & _). destruct (kfree_spec k l _ Hk T1 T2) as (k1 & Ek & Hk1 & Hend & Hf).
      exists k1, (p_trapframe x :: l). split; [exact Ek|]. split; [exact Hk1|]. split; [exact Hend|]. split; [intros q; rewrite elem_of_cons; tauto|].
      intros a Ha. apply Hf, Ha. left. }
  destruct H1 as (k1 & l1 & E1 & Hk1 & Hend & Hl1 & Hf1). exists k1.
  destruct (Z.eqb_spec (p_pgtbl x) 0) as [E0|E0]; cbn [negb when].
  - exists k1, l1. split; [exact E1|]. split; [reflexivity|]. split; [exact Hk1|]. split; [exact Hend|]. unfold has. split; [intros q; rewrite Hl1; tauto|].
    intros a Ha. apply Hf1. intros q Hq. apply Ha. apply Hl1 in Hq. tauto.
  - pose proof (en_space _ _ _ He E0) as Hu. destruct (elsewhere (fun q => q ∈ l1) TRAPFRAME (p_pgtbl x) k l k1 l1 (us_as _ _ _ _ _ _ Hu) Hk1 Hend) as [Ha1 Hun]; auto.
    { intros q Hq. pose proof (kinv_pages _ _ Hk1) as Hfa. rewrite Forall_forall, Hend in Hfa. auto. }
    { intros q Hq Hin. apply Hl1 in Hin as [Hin|[Hn ->]]; [apply (owns_ok _ _ _ _ _ (us_as _ _ _ _ _ _ Hu) Hq), Hin|].
      destruct (en_tf _ _ _ He Hn) as (_ & _ & H3). exact (H3 E0 Hq). }
    destruct (proc_freepagetable_run trampoline (p_trapframe x) (p_pgtbl x) (p_size x) k1 l1) as (k' & l' & E2 & Hk' & He2 & Hl2 & Hf2).
    { eapply user_space_unchanged; eauto. }
    assert (Hm : forall q, mine TRAPFRAME (p_pgtbl x) k1 l1 q <-> q ∈ l \/ has k x q).
    { intros q. rewrite mine_owns, Hl1, (unchanged_owns _ _ _ _ _ Hun). unfold has. tauto. }
    exists k', l'. split; [exact E1|]. split; [exact E2|]. split; [exact Hk'|]. split; [congruence|]. split; [intros q; rewrite Hl2; apply Hm|].
    intros a Ha. rewrite Hf2, Hf1; [reflexivity| |].
    + intros q Hq. apply Ha, Hm. left. exact Hq.
    + intros q Hq. apply Ha, Hm, Hq.
Qed.

Lemma looks_when s tab k e pid n c (m : M kst unit) k' : looks s tab k e pid n -> when c m k = Ret tt k' ->
  exists s', when c (zoom mem_of m) s = Ret tt s' /\ looks s' tab k' e pid n.
Proof.
  intros Hs Em. destruct c; cbn [when] in *; [apply (looks_mem _ _ _ _ _ _ _ _ _ Hs Em)|]. injection Em as <-. exists s. auto.
Qed.

Lemma freeproc_run s tab k e pid n p l : looks s tab k e pid n -> kinv k l -> entry_ok k l (tab p) ->
  exists s' k' l', freeproc p s = Ret tt s' /\ looks s' (upd tab p (cleared (tab p))) k' e pid n /\ given_back k l (tab p) k' l'.
Proof.
  intros Hs Hk He. destruct (free_memory k l (tab p) Hk He) as (k1 & k' & l' & E1 & E2 & Hg).
  unfold freeproc, get_proc. rewrite bind_gets, (lk_tab _ _ _ _ _ _ Hs).
  destruct (looks_when _ _ _ _ _ _ _ _ _ Hs E1) as (s1 & R1 & Hs1). rewrite (bind_ret_l _ _ _ _ _ R1), bind_modify.
  apply (looks_set _ _ _ _ _ _ p (w_trapframe 0)) in Hs1.
  destruct (looks_when _ _ _ _ _ _ _ _ _ Hs1 E2) as (s2 & R2 & Hs2). rewrite (bind_ret_l _ _ _ _ _ R2), !bind_modify.
  eexists _, k', l'. split; [reflexivity|]. split; [|exact Hg].
  do 9 eapply (looks_set _ _ _ _ _ _ p) in Hs2.
  eapply looks_tab; [exact Hs2|]. intros q. unfold upd. rewrite Z.eqb_refl. destruct (q =? p); reflexivity.
Qed.

(** ** A new entry *)

Definition all_free (tab : Z -> proc) : Prop := forall q, 0 <= q < NPROC -> p_lock (tab q) = false.

Lemma lock_unlock (tab : Z -> proc) p q : p_lock (tab p) = false -> upd (upd tab p (w_lock true (tab p))) p (w_lock false (upd tab p (w_lock true (tab p)) p)) q = tab q.
Proof.
  intros Hl. unfold upd. rewrite Z.eqb_refl. destruct (Z.eqb_spec q p) as [->|]; [|reflexivity]. apply unlocked, Hl.
Qed.

Lemma scan_run s tab k e pid : looks s tab k e pid 0 -> all_free tab -> forall n p s, looks s tab k e pid 0 ->
  0 <= p -> p + Z.of_nat n <= NPROC ->
  exists r s', allocproc_scan n p s = Ret r s' /\
    (r = NULLP /\ looks s' tab k e pid 0 \/
     0 <= r < NPROC /\ p_state (tab r) = UNUSED /\ looks s' (upd tab r (w_lock true (tab r))) k e pid 1).
Proof.
  intros _ Hfree. induction n as [|n IH]; intros p s1 Hs Hp Hn; cbn [allocproc_scan].
  - exists NULLP, s1. auto.
  - destruct (looks_acquire _ _ _ _ _ p Hs) as (s2 & E2 & Hs2); [apply Hfree; lia|]. rewrite (bind_ret_l _ _ _ _ _ E2).
    unfold get_proc. rewrite bind_gets, (lk_tab _ _ _ _ _ _ Hs2), upd_eq. destruct (decide _) as [Hu|Hu].
    + exists p, s2. split; [reflexivity|]. right. split; [lia|]. auto.
    + destruct (looks_release _ _ _ _ _ p Hs2) as (s3 & E3 & Hs3); [rewrite upd_eq; reflexivity|]. rewrite (bind_ret_l _ _ _ _ _ E3).
      apply IH; [|lia|lia]. eapply looks_tab; [exact Hs3|]. intros q. apply lock_unlock, Hfree. lia.
Qed.

(** The entry [allocproc] makes. *)
Definition allocated (x : proc) (pid tf pt : Z) : proc :=
  Proc true USED (p_chan x) (p_killed x) (p_xstate x) pid (p_parent x) (p_kstack x) (p_size x) pt tf
    forkret (u64 (p_kstack x + PGSIZE)) (p_ofile x) (p_cwd x) (p_name x).

Lemma alloc_failed_run s tab k e pid p l : looks s tab k e pid 1 -> kinv k l -> entry_ok k l (tab p) -> p_lock (tab p) = true ->
  exists s' k' l', alloc_failed p s = Ret NULLP s' /\ looks s' (upd tab p (w_lock false (cleared (tab p)))) k' e pid 0 /\ given_back k l (tab p) k' l'.
Proof.
  intros Hs Hk He Hl. unfold alloc_failed. destruct (freeproc_run s tab k e pid 1 p l Hs Hk He) as (s1 & k' & l' & E1 & Hs1 & Hg).
  rewrite (bind_ret_l _ _ _ _ _ E1). destruct (looks_release _ _ _ _ _ p Hs1) as (s2 & E2 & Hs2); [rewrite upd_eq; exact Hl|].
  rewrite (bind_ret_l _ _ _ _ _ E2). exists s2, k', l'. split; [reflexivity|]. split; [|exact Hg].
  eapply looks_tab; [exact Hs2|]. intros q. unfold upd. rewrite Z.eqb_refl. destruct (q =? p); reflexivity.
Qed.

(** What [allocproc] leaves: no entry, an entry cleared again, or a new one. *)
Definition alloc_result (tab : Z -> proc) (k : kst) (l : list Z) (e : E) (pid r : Z) (s' : ps E) (k' : kst) (l' : list Z) : Prop :=
  (r = NULLP /\ k' = k /\ l' = l /\ looks s' tab k e pid 0) \/
  exists np, 0 <= np < NPROC /\ p_state (tab np) = UNUSED /\
    (r = NULLP /\ looks s' (upd tab np (cleared (tab np))) k' e (i32 (pid + 1)) 0 /\ (forall q, q ∈ l' <-> q ∈ l) \/
     r = np /\ exists tf pt, tf <> 0 /\ pt <> 0 /\ looks s' (upd tab np (allocated (tab np) pid tf pt)) k' e (i32 (pid + 1)) 1 /\
       entry_ok k' l' (allocated (tab np) pid tf pt) /\
       (forall q, q ∈ l <-> q ∈ l' \/ has k' (allocated (tab np) pid tf pt) q) /\
       forall va, 0 <= va < TRAPFRAME -> pt_map (phys k') pt va = None).

(** The entry while it is set up. *)
Definition starting (x : proc) (pid tf pt : Z) : proc :=
  Proc true USED (p_chan x) (p_killed x) (p_xstate x) pid (p_parent x) (p_kstack x) (p_size x) pt tf
    (p_ra x) (p_sp x) (p_ofile x) (p_cwd x) (p_name x).

Lemma looks_entry s tab k e pid n p x g y : looks s (upd tab p x) k e pid n -> g x = y -> looks (set_proc p g s) (upd tab p y) k e pid n.
Proof.
  intros H Hg. apply (looks_set _ _ _ _ _ _ p g) in H. eapply looks_tab; [exact H|]. intros q. unfold upd. rewrite Z.eqb_refl, Hg.
  destruct (q =? p); reflexivity.
Qed.

(** Without memory the entry is cleared again. *)
Lemma alloc_undo s tab k l e pid np tf k1 l1 : 0 <= np < NPROC -> p_state (tab np) = UNUSED -> p_lock (tab np) = false ->
  looks s (upd tab np (starting (tab np) pid tf 0)) k1 e (i32 (pid + 1)) 1 -> kinv k1 l1 -> (tf <> 0 -> page_ok (kend k1) tf /\ (tf ∉ l1)) ->
  (forall q, q ∈ l <-> q ∈ l1 \/ (tf <> 0 /\ q = tf)) -> only_free l k k1 ->
  exists r s' k' l', alloc_failed np s = Ret r s' /\ kinv k' l' /\ only_free l k k' /\ alloc_result tab k l e pid r s' k' l'.
Proof using Type.
  intros Hnp Hu Hun Hs Hk Ht Hl [He Hf].
  destruct (alloc_failed_run s _ k1 e _ np l1 Hs Hk) as (s' & k' & l' & E1 & Hs' & Hk' & He' & Hl' & Hf').
  { rewrite upd_eq. split; simpl; try congruence. intros Hn. destruct (Ht Hn). auto. }
  { rewrite upd_eq. reflexivity. }
  rewrite upd_eq in Hl', Hf'.
  assert (Hq : forall q, q ∈ l1 \/ has k1 (starting (tab np) pid tf 0) q <-> q ∈ l) by (intros q; rewrite Hl; unfold has; simpl; tauto).
  exists NULLP, s', k', l'. split; [exact E1|]. split; [exact Hk'|]. split.
  - split; [congruence|]. intros a Ha. rewrite Hf', Hf; [reflexivity|exact Ha|]. intros q Hq'. apply Ha, Hq, Hq'.
  - right. exists np. split; [exact Hnp|]. split; [exact Hu|]. left. split; [reflexivity|]. split; [|intros q; rewrite Hl'; apply Hq].
    eapply looks_tab; [exact Hs'|]. intros q. unfold upd. rewrite Z.eqb_refl. destruct (q =? np); [|reflexivity].
    unfold cleared, w_lock. simpl. rewrite Hun. reflexivity.
Qed.

Hypothesis (Htr : trampoline mod 4096 = 0) (Htr' : 0 <= trampoline < 2 ^ 56).

Lemma alloc_memory k l : kinv k l ->
  (l = [] /\ kalloc k = Ret 0 k) \/
  exists tf l1 k1 pt k2 l2, l = tf :: l1 /\ kalloc k = Ret tf k1 /\ tf <> 0 /\ page_ok (kend k) tf /\ (tf ∉ l1) /\
    proc_pagetable trampoline tf k1 = Ret pt k2 /\ kinv k2 l2 /\ only_free l k k2 /\
    (pt = 0 /\ (forall q, q ∈ l2 <-> q ∈ l1) \/
     pt <> 0 /\ user_space trampoline tf pt 0 k2 l2 /\ (forall q, mine TRAPFRAME pt k2 l2 q <-> q ∈ l1) /\
       forall va, 0 <= va < TRAPFRAME -> pt_map (phys k2) pt va = None).
Proof using Htr Htr'.
  intros Hk. destruct l as [|tf l1]; [left; split; [reflexivity|apply kalloc_empty, Hk]|right].
  destruct (kalloc_spec k tf l1 Hk) as (k1 & Ek & Hk1 & [He Ho] & Hn & Hok & _). pose proof (kinv_end _ _ Hk) as Hend.
  destruct (proc_pagetable_run trampoline tf Htr Htr' (proj1 Hok)) with (s := k1) (l := l1) as (pt & k2 & l2 & Ep & Hk2 & [He2 Hf2] & Hr); [|exact Hk1|].
  { destruct Hok. unfold PHYSTOP, KERNBASE in *. lia. }
  exists tf, l1, k1, pt, k2, l2. split; [reflexivity|]. split; [exact Ek|]. split; [destruct Hok; lia|]. split; [exact Hok|]. split; [exact Hn|].
  split; [exact Ep|]. split; [exact Hk2|]. split; [|exact Hr]. split; [congruence|]. intros x Hx. rewrite Hf2, Ho; [reflexivity|apply Hx; left|].
  intros q Hq. apply Hx. right. exact Hq.
Qed.

Lemma allocproc_run s tab k e pid l : looks s tab k e pid 0 -> all_free tab -> kinv k l ->
  (forall q, 0 <= q < NPROC -> entry_ok k l (tab q)) ->
  exists r s' k' l', allocproc trampoline forkret s = Ret r s' /\ kinv k' l' /\ only_free l k k' /\ alloc_result tab k l e pid r s' k' l'.
Proof using Htr Htr'.
  intros Hs Hfree Hk Hent. unfold allocproc.
  destruct (scan_run s tab k e pid Hs Hfree (Z.to_nat NPROC) 0 s Hs) as (np & s1 & E1 & Hr); [lia|reflexivity|]. rewrite (bind_ret_l _ _ _ _ _ E1).
  destruct Hr as [[-> Hs1]|(Hnp & Hu & Hs1)].
  { exists NULLP, s1, k, l. split; [reflexivity|]. split; [exact Hk|]. split; [split; auto|]. left. auto. }
  destruct (Z.eqb_spec np NULLP) as [|_]; [unfold NULLP in *; lia|]. destruct (en_unused _ _ _ (Hent np Hnp) Hu) as (Up & Ut & Us).
  assert (Hun : p_lock (tab np) = false) by (apply Hfree, Hnp).
  destruct (looks_allocpid _ _ _ _ _ Hs1) as (s2 & E2 & Hs2). rewrite (bind_ret_l _ _ _ _ _ E2), !bind_modify.
  apply (looks_entry _ _ _ _ _ _ _ _ (w_pid pid) _) with (2 := eq_refl) in Hs2.
  apply (looks_entry _ _ _ _ _ _ _ _ (w_state USED) (starting (tab np) pid 0 0)) in Hs2;
    [|unfold starting, w_state, w_pid, w_lock; simpl; rewrite Up, Ut; reflexivity].
  destruct (alloc_memory k l Hk) as [[-> Ek]|(tf & l1 & k1 & pt & k2 & l2 & -> & Ek & Ht0 & Hok & Hn & Ep & Hk2 & Hf2 & Hr)];
    destruct (looks_mem _ _ _ _ _ _ _ _ _ Hs2 Ek) as (s3 & R3 & Hs3); rewrite (bind_ret_l _ _ _ _ _ R3), bind_modify.
  { apply (looks_entry _ _ _ _ _ _ _ _ (w_trapframe 0) _) with (2 := eq_refl) in Hs3. simpl (0 =? 0). cbv iota.
    apply (alloc_undo _ tab k [] e pid np 0 k []); auto; [congruence|intros q; split; [auto|intros [?|[? _]]; [auto|congruence]]|split; auto]. }
  apply (looks_entry _ _ _ _ _ _ _ _ (w_trapframe tf) _) with (2 := eq_refl) in Hs3. destruct (Z.eqb_spec tf 0) as [|_]; [contradiction|].
  destruct (looks_mem _ _ _ _ _ _ _ _ _ Hs3 Ep) as (s4 & R4 & Hs4). rewrite (bind_ret_l _ _ _ _ _ R4), bind_modify.
  apply (looks_entry _ _ _ _ _ _ _ _ (w_pgtbl pt) _) with (2 := eq_refl) in Hs4. rewrite <- (proj1 Hf2) in Hok.
  destruct Hr as [[-> Hl2]|(Hpt & Hsp & Hm & Hnone)].
  { simpl (0 =? 0). cbv iota. apply (alloc_undo _ tab k (tf :: l1) e pid np tf k2 l2); auto.
    - intros _. split; [exact Hok|]. rewrite Hl2. exact Hn.
    - intros q. rewrite Hl2, elem_of_cons. tauto. }
  destruct (Z.eqb_spec pt 0) as [|_]; [contradiction|]. unfold get_proc. rewrite bind_gets, bind_modify.
  rewrite (lk_tab _ _ _ _ _ _ Hs4), upd_eq. 
  apply (looks_entry _ _ _ _ _ _ _ _ (w_context forkret (u64 (p_kstack (tab np) + PGSIZE))) (allocated (tab np) pid tf pt)) in Hs4; [|reflexivity].
  eexists np, _, k2, l2. split; [reflexivity|]. split; [exact Hk2|]. split; [exact Hf2|]. right. exists np. split; [exact Hnp|]. split; [exact Hu|]. right.
  split; [reflexivity|]. exists tf, pt. split; [exact Ht0|]. split; [exact Hpt|]. split; [exact Hs4|].
  assert (Hno : forall q, q ∈ l2 \/ owns TRAPFRAME pt k2 q <-> q ∈ l1) by (intros q; rewrite <- mine_owns; apply Hm).
  split; [|split; [|exact Hnone]].
  - split; simpl; auto; [rewrite Us; auto| |discriminate]. intros _. split; [exact Hok|]. split; [intros H; apply Hn, Hno; auto|].
    intros _ H. apply Hn, Hno. auto.
  - intros q. unfold has. simpl. rewrite elem_of_cons, <- Hno. tauto.
Qed.

(** ** Work for a child *)

Section Child.
Context (np : Z) (tab : Z -> proc).

(** The entries but [np] are what they were; [np]'s is to be [c]. *)
Record forked (k : kst) (l : list Z) (c : proc) : Prop := {
  fk_kinv : kinv k l;
  fk_others : forall p, 0 <= p < NPROC -> p <> np -> entry_ok k l (tab p);
  fk_child : entry_ok k l c;
  fk_apart : forall p q, 0 <= p < NPROC -> p <> np -> has k (tab p) q -> ~ has k c q
}.

Definition others_kept (k k' : kst) : Prop := forall p, 0 <= p < NPROC -> p <> np -> kept k k' (tab p).

Lemma others_kept_trans k1 k2 k3 : others_kept k1 k2 -> others_kept k2 k3 -> others_kept k1 k3.
Proof. intros H1 H2 p Hp Hn. eapply entry_kept_trans; eauto. Qed.

Lemma forked_step k l c k' l' c' : forked k l c -> kinv k' l' -> kend k' = kend k -> entry_ok k' l' c' ->
  (forall q, q ∈ l' \/ has k' c' q -> q ∈ l \/ has k c q) ->
  (forall a, (forall q, q ∈ l \/ has k c q -> ~ in_page q a) -> phys k' a = phys k a) ->
  forked k' l' c' /\ others_kept k k'.
Proof.
  intros [Hk Ho Hc Ha] Hk' He Hc' Hq Hf.
  assert (Hoth : forall p, 0 <= p < NPROC -> p <> np -> entry_ok k' l' (tab p) /\ kept k k' (tab p)).
  { intros p Hp Hn. apply (entry_keep (fun q => q ∈ l \/ has k c q) k l); auto.
    - intros q [Hql|Hqc]; [|apply (has_ok _ _ _ _ Hc Hqc)]. pose proof (kinv_pages _ _ Hk) as Hfa. rewrite Forall_forall in Hfa. auto.
    - intros q Hqp [Hql|Hqc]; [apply (has_ok _ _ _ _ (Ho p Hp Hn) Hqp), Hql|exact (Ha p q Hp Hn Hqp Hqc)]. }
  split; [split; auto|].
  - intros p Hp Hn. apply Hoth; assumption.
  - intros p q Hp Hn Hqp Hqc. destruct (Hoth p Hp Hn) as [_ Hkp]. apply (kept_has _ _ _ _ Hkp) in Hqp.
    destruct (Hq q (or_intror Hqc)) as [Hql|Hqk]; [apply (has_ok _ _ _ _ (Ho p Hp Hn) Hqp), Hql|exact (Ha p q Hp Hn Hqp Hqk)].
  - intros p Hp Hn. apply Hoth; assumption.
Qed.

(** A page of its own that is only written. *)
Lemma forked_write k l c k' : forked k l c -> p_trapframe c <> 0 -> kinv k' l -> only_page (p_trapframe c) k k' ->
  forked k' l c /\ others_kept k k' /\ (p_pgtbl c <> 0 -> unchanged TRAPFRAME (p_pgtbl c) k k').
Proof.
  intros Hf Ht Hk' [He Ho]. pose proof (fk_child _ _ _ Hf) as Hc. destruct (en_tf _ _ _ Hc Ht) as (H1 & H2 & H3).
  assert (Hu : p_pgtbl c <> 0 -> as_wf TRAPFRAME (p_pgtbl c) k' l /\ unchanged TRAPFRAME (p_pgtbl c) k k').
  { intros Hp. pose proof (us_as _ _ _ _ _ _ (en_space _ _ _ Hc Hp)) as Ha.
    apply (elsewhere (fun q => q ∈ l \/ q = p_trapframe c) _ _ k l k' l Ha Hk' He); auto.
    - intros q [Hq| ->]; [|exact H1]. pose proof (kinv_pages _ _ (fk_kinv _ _ _ Hf)) as Hfa. rewrite Forall_forall in Hfa. auto.
    - intros q Hq [Hl| ->]; [apply (owns_ok _ _ _ _ _ Ha Hq), Hl|exact (H3 Hp Hq)]. }
  assert (Hc' : entry_ok k' l c).
  { split; [| |apply Hc|apply Hc].
    - intros Hp. destruct (Hu Hp). eapply user_space_unchanged; [apply (en_space _ _ _ Hc Hp)|assumption|assumption].
    - intros _. rewrite He. split; [exact H1|]. split; [exact H2|]. intros Hp Hq. destruct (Hu Hp) as [_ H4].
      apply (H3 Hp). rewrite <- (unchanged_owns _ _ _ _ _ H4). exact Hq. }
  destruct (forked_step k l c k' l c Hf Hk' He Hc') as [A B].
  - intros q [Hq|[[_ ->]|[Hp Hq]]]; [auto|right; left; auto|]. right. right. split; [exact Hp|]. destruct (Hu Hp) as [_ H4]. rewrite <- (unchanged_owns _ _ _ _ _ H4). exact Hq.
  - intros a Ha. apply Ho, Ha. right. left. auto.
  - split; [exact A|]. split; [exact B|]. intros Hp. apply Hu, Hp.
Qed.

(** The child's memory is filled from process [me]'s. *)
Lemma fork_copy me k l c : forked k l c -> 0 <= me < NPROC -> me <> np -> p_pgtbl (tab me) <> 0 -> p_pgtbl c <> 0 -> p_size c = 0 ->
  p_state c <> UNUSED -> (forall va, 0 <= va < TRAPFRAME -> pt_map (phys k) (p_pgtbl c) va = None) ->
  exists r k' l' c', uvmcopy (p_pgtbl (tab me)) (p_pgtbl c) (p_size (tab me)) k = Ret r k' /\ forked k' l' c' /\ others_kept k k' /\
    (forall q, q ∈ l' \/ has k' c' q <-> q ∈ l \/ has k c q) /\ (forall a, in_page (p_trapframe c) a -> phys k' a = phys k a) /\
    (r = -1 /\ c' = c \/
     r = 0 /\ c' = w_size (p_size (tab me)) c /\ forall va, 0 <= va < TRAPFRAME -> copy_of (p_pgtbl (tab me)) (p_pgtbl c) (phys k) (phys k') va).
Proof.
  intros Hf Hme Hne Hp1 Hp2 Hsz Hst Hnone. pose proof TRAPFRAME_eq as ET. pose proof MAXVA_eq as EM.
  pose proof (en_space _ _ _ (fk_others _ _ _ Hf me Hme Hne) Hp1) as Hu1. pose proof (en_space _ _ _ (fk_child _ _ _ Hf) Hp2) as Hu2.
  pose proof (us_size _ _ _ _ _ _ Hu1) as Hszm. destruct (en_tf _ _ _ (fk_child _ _ _ Hf) (en_both _ _ _ (fk_child _ _ _ Hf) Hp2)) as (T1 & T2 & T3).
  assert (Hup : 0 <= PGROUNDUP (p_size (tab me)) <= TRAPFRAME) by (rewrite PGROUNDUP_eq by lia; dlia).
  destruct (uvmcopy_run TRAPFRAME (p_pgtbl (tab me)) (p_pgtbl c) (p_size (tab me)) k l) as (r & k' & l' & Er & Htwo & Hi & Hu & Hr); auto; [lia|split| |].
  { apply Hu1. } { apply Hu2. } { intros q Hq1 Hq2. apply (fk_apart _ _ _ Hf me q Hme Hne); right; auto. } { intros va Hva. apply Hnone. lia. }
  set (c' := if r =? 0 then w_size (p_size (tab me)) c else c).
  assert (Hc : p_pgtbl c' = p_pgtbl c /\ p_trapframe c' = p_trapframe c /\ p_state c' = p_state c) by (unfold c'; destruct (r =? 0); auto). destruct Hc as (C1 & C2 & C3).
  assert (Hhas : forall q, q ∈ l' \/ has k' c' q <-> q ∈ l \/ has k c q).
  { intros q. unfold has. rewrite C1, C2. pose proof (iso_mine _ _ _ _ _ _ Hi q) as H1. pose proof (iso_kept _ _ _ _ _ _ Hi q) as H2. rewrite !mine_owns in H1, H2. tauto. }
  assert (Hmine : ~ mine TRAPFRAME (p_pgtbl c) k l (p_trapframe c)) by (rewrite mine_owns; intros [H|H]; [exact (T2 H)|exact (T3 Hp2 H)]).
  assert (Hc' : entry_ok k' l' c').
  { split; rewrite ?C1, ?C2, ?C3; try congruence; [| |intros _; exact (en_both _ _ _ (fk_child _ _ _ Hf) Hp2)].
    - intros _. split; [apply Htwo|apply (iso_plain _ _ _ _ _ _ Hi), Hu2| | | |].
      + rewrite (iso_above _ _ _ _ _ _ Hi) by (rewrite TRAMPOLINE_eq; lia). apply Hu2.
      + rewrite (iso_above _ _ _ _ _ _ Hi) by lia. apply Hu2.
      + unfold c'. destruct (r =? 0); [exact Hszm|rewrite Hsz; lia].
      + intros va. destruct Hr as [[-> Hr]|[-> Hr]]; simpl in c'; subst c'; simpl; intros Hva; [|rewrite Hsz in Hva].
        * specialize (Hr va ltac:(lia)). replace (va <? _) with false in Hr by lia. destruct Hr as [-> _]. apply Hnone. lia.
        * change (PGROUNDUP 0) with 0 in Hva. rewrite Hr by lia. apply Hnone. lia.
    - intros _. rewrite (iso_end _ _ _ _ _ _ Hi). split; [exact T1|]. split; [intros H|intros _ H]; apply Hmine, (iso_mine _ _ _ _ _ _ Hi), mine_owns; auto. }
  assert (Hframe : forall a, (forall q, q ∈ l \/ has k c q -> ~ in_page q a) -> phys k' a = phys k a).
  { intros a Ha. apply (iso_frame _ _ _ _ _ _ Hi). intros q Hq. apply Ha. apply mine_owns in Hq as [Hq|Hq]; [auto|]. right. right. auto. }
  destruct (forked_step k l c k' l' c' Hf (as_inv _ _ _ _ (pr_old _ _ _ _ _ Htwo)) (iso_end _ _ _ _ _ _ Hi) Hc') as [A B]; [intros q; apply Hhas|exact Hframe|].
  exists r, k', l', c'. split; [exact Er|]. split; [exact A|]. split; [exact B|]. split; [exact Hhas|]. split.
  - intros a Ha. apply (iso_frame _ _ _ _ _ _ Hi). intros q Hq. apply (page_ok_ne (kend k) (p_trapframe c) q T1); [|intros <-; contradiction|exact Ha].
    apply (mine_ok TRAPFRAME (p_pgtbl c) k l); [apply Hu2|exact Hq].
  - destruct Hr as [[-> Hr]|[-> _]]; [right|left]; auto. split; [reflexivity|]. split; [reflexivity|]. intros va Hva. specialize (Hr va Hva).
    destruct (va <? PGROUNDUP (p_size (tab me))) eqn:Elt; [exact Hr|]. destruct Hr as [R1 R2]. unfold copy_of. rewrite R1, R2. unfold umem. rewrite Hnone by exact Hva.
    rewrite (us_above _ _ _ _ _ _ Hu1 va) by lia. auto.
Qed.

(** The trapframe of process [me] is copied, with 0 for the result of [fork]. *)
Lemma fork_frame k l c src : forked k l c -> p_trapframe c <> 0 -> let k' := set_phys (store_le (memmove (phys k) (p_trapframe c) src TRAPFRAME_SIZE) (p_trapframe c + TF_a0) 8 0) k in
  kinv k' l /\ only_page (p_trapframe c) k k' /\
  forall i, 0 <= i < TRAPFRAME_SIZE -> phys k' (p_trapframe c + i) = if (TF_a0 <=? i) && (i <? TF_a0 + 8) then 0 else phys k (src + i).
Proof.
  intros Hf Ht k'. destruct (en_tf _ _ _ (fk_child _ _ _ Hf) Ht) as (T1 & T2 & _). set (d := p_trapframe c) in *.
  assert (Hx : forall x, phys k' x = if (d + TF_a0 <=? x) && (x <? d + TF_a0 + 8) then 0 else if (d <=? x) && (x <? d + TRAPFRAME_SIZE) then phys k (src + (x - d)) else phys k x).
  { intros x. unfold k'. simpl. rewrite store_le_zero. destruct (_ && _); [reflexivity|]. rewrite memmove_moved by (unfold TRAPFRAME_SIZE; lia). reflexivity. }
  assert (Ho : forall x, ~ in_page d x -> phys k' x = phys k x).
  { intros x Hn. rewrite Hx. unfold in_page, PGSIZE, TF_a0, TRAPFRAME_SIZE in *. replace (_ && _) with false by lia. replace (_ && _) with false by lia. reflexivity. }
  split; [|split; [split; [reflexivity|exact Ho]|]].
  - pose proof (fk_kinv _ _ _ Hf) as Hk. apply kinv_write; [exact Hk| |].
    + intros x. change (0 <= phys k' x < 256). rewrite Hx. pose proof (kinv_bytes _ _ Hk) as Hb. destruct (_ && _); [lia|]. destruct (_ && _); apply Hb.
    + intros q x Hq Hin. apply Ho. pose proof (kinv_pages _ _ Hk) as Hfa. rewrite Forall_forall in Hfa.
      apply (page_ok_ne (kend k) q d (Hfa q Hq) T1); [intros ->; contradiction|exact Hin].
  - intros i Hi. rewrite Hx. replace ((d + TF_a0 <=? d + i) && _) with ((TF_a0 <=? i) && (i <? TF_a0 + 8)) by lia. destruct (_ && _); [reflexivity|].
    replace (_ && _) with true by lia. f_equal. lia.
Qed.

Context `{FE : !ForkEnv E}.

Lemma dup_files_run me k pid c : me <> np -> forall n s e i f, looks s (upd tab np (w_ofile f c)) k e pid 1 -> e_quiet e ->
  (forall j, i <= j < i + Z.of_nat n -> p_ofile (tab me) j <> NULLP -> e_live e (Z.of_nat n) (p_ofile (tab me) j)) ->
  exists s' e' f', dup_files n me np i s = Ret tt s' /\ looks s' (upd tab np (w_ofile f' c)) k e' pid 1 /\ e_quiet e' /\
    forall j, f' j = if (i <=? j) && (j <? i + Z.of_nat n) && negb (p_ofile (tab me) j =? NULLP) then p_ofile (tab me) j else f j.
Proof.
  intros Hne. induction n as [|n IH]; intros s e i f Hs Hq Hlive; cbn [dup_files].
  - exists s, e, f. split; [reflexivity|]. split; [exact Hs|]. split; [exact Hq|]. intros j. replace (_ && _ && _) with false by lia. reflexivity.
  - unfold get_proc at 1. rewrite bind_gets, (lk_tab _ _ _ _ _ _ Hs), upd_ne by exact Hne.
    destruct (Z.eqb_spec (p_ofile (tab me) i) NULLP) as [E0|E0]; cbn [negb when].
    + rewrite (bind_ret_l _ _ _ _ _ eq_refl). destruct (IH s e (i + 1) f Hs Hq) as (s' & e' & f' & R & H1 & H2 & H3).
      { intros j Hj Hn. apply (e_live_less _ _ (Z.of_nat (S n))); [lia|]. apply Hlive; [lia|exact Hn]. }
      exists s', e', f'. split; [exact R|]. split; [exact H1|]. split; [exact H2|]. intros j. rewrite H3.
      destruct (Z.eqb_spec j i) as [->|]; [rewrite E0, Z.eqb_refl, !andb_false_r; reflexivity|].
      replace ((i + 1 <=? j) && (j <? i + 1 + Z.of_nat n)) with ((i <=? j) && (j <? i + Z.of_nat (S n))) by lia. reflexivity.
    + destruct (e_filedup_ok (p_ofile (tab me) i) (Z.of_nat (S n)) k e Hq ltac:(lia) (Hlive i ltac:(lia) E0)) as (e1 & Ed & Hq1 & Hl1).
      destruct (looks_env _ _ _ _ _ _ _ _ _ _ Hs Ed) as (s1 & R1 & Hs1).
      set (f1 := upd f i (p_ofile (tab me) i)).
      apply (looks_entry _ _ _ _ _ _ _ _ (fun y => w_ofile (upd (p_ofile y) i (p_ofile (tab me) i)) y) (w_ofile f1 c)) in Hs1; [|reflexivity].
      destruct (IH _ e1 (i + 1) f1 Hs1 Hq1) as (s' & e' & f' & R & H1 & H2 & H3).
      { intros j Hj Hn. replace (Z.of_nat n) with (Z.of_nat (S n) - 1) by lia. apply Hl1; [lia|]. apply Hlive; [lia|exact Hn]. }
      exists s', e', f'. split; [|split; [exact H1|split; [exact H2|]]].
      * erewrite bind_ret_l; [exact R|]. rewrite (bind_ret_l _ _ _ _ _ R1). reflexivity.
      * intros j. rewrite H3. unfold f1. destruct (Z.eqb_spec j i) as [->|Hji].
        -- rewrite upd_eq. replace (_ && _ && _) with false by lia. replace (_ && _ && _) with true by lia. reflexivity.
        -- rewrite upd_ne by exact Hji. replace ((i + 1 <=? j) && (j <? i + 1 + Z.of_nat n)) with ((i <=? j) && (j <? i + Z.of_nat (S n))) by lia. reflexivity.
Qed.
End Child.

(** ** The process table *)

(** The processes' memory: each entry's is in order, and they share no page. *)
Record mem_ok (tab : Z -> proc) (k : kst) (l : list Z) : Prop := {
  mo_kinv : kinv k l;
  mo_entry : forall p, 0 <= p < NPROC -> entry_ok k l (tab p);
  mo_apart : forall p p' q, 0 <= p < NPROC -> 0 <= p' < NPROC -> p <> p' -> has k (tab p) q -> ~ has k (tab p') q
}.

(** The pages that are free or a process's. *)
Definition pages (tab : Z -> proc) (k : kst) (l : list Z) (q : Z) : Prop := q ∈ l \/ exists p, 0 <= p < NPROC /\ has k (tab p) q.

Lemma unused_has k l x q : entry_ok k l x -> p_state x = UNUSED -> ~ has k x q.
Proof. intros He Hu. destruct (en_unused _ _ _ He Hu) as (H1 & H2 & _). unfold has. tauto. Qed.

(** The first step: a new entry takes free pages. *)
Lemma forked_start np tab k l k1 l1 c : mem_ok tab k l -> only_free l k k1 -> kinv k1 l1 -> entry_ok k1 l1 c ->
  (forall q, q ∈ l1 \/ has k1 c q -> q ∈ l) -> forked np tab k1 l1 c /\ others_kept np tab k k1.
Proof.
  intros [Mk Me Ma] [He Hf] Hk1 Hc Hl.
  assert (Hoth : forall p, 0 <= p < NPROC -> entry_ok k1 l1 (tab p) /\ kept k k1 (tab p)).
  { intros p Hp. apply (entry_keep (fun q => q ∈ l) k l); auto.
    - intros q Hq. pose proof (kinv_pages _ _ Mk) as Hfa. rewrite Forall_forall in Hfa. auto.
    - intros q Hq Hin. apply (has_ok _ _ _ _ (Me p Hp) Hq), Hin. }
  split; [split; auto|].
  - intros p Hp _. apply Hoth, Hp.
  - intros p q Hp _ Hq Hqc. apply (kept_has _ _ _ _ (proj2 (Hoth p Hp))) in Hq. apply (has_ok _ _ _ _ (Me p Hp) Hq), Hl. auto.
  - intros p Hp _. apply Hoth, Hp.
Qed.

Lemma forked_done np tab k0 l0 k l c : 0 <= np < NPROC -> mem_ok tab k0 l0 -> p_state (tab np) = UNUSED ->
  forked np tab k l c -> others_kept np tab k0 k -> (forall q, q ∈ l \/ has k c q <-> q ∈ l0) ->
  mem_ok (upd tab np c) k l /\ forall q, pages (upd tab np c) k l q <-> pages tab k0 l0 q.
Proof.
  intros Hnp [Mk Me Ma] Hu [Fk Fo Fc Fa] Hk Hl. split; [split; [exact Fk| |]|].
  - intros p Hp. unfold upd. destruct (Z.eqb_spec p np); auto.
  - intros p p' q Hp Hp' Hne. unfold upd. destruct (Z.eqb_spec p np) as [->|H1], (Z.eqb_spec p' np) as [->|H2]; [congruence|..].
    + intros Hq Hq'. exact (Fa p' q Hp' H2 Hq' Hq).
    + intros Hq. exact (Fa p q Hp H1 Hq).
    + rewrite !(kept_has k0 k) by auto. apply Ma; auto.
  - intros q. unfold pages. split.
    + intros [Hq|(p & Hp & Hq)]; [left; apply Hl; auto|]. unfold upd in Hq. destruct (Z.eqb_spec p np) as [->|H1]; [left; apply Hl; auto|].
      right. exists p. rewrite (kept_has k0 k) in Hq by auto. auto.
    + intros [Hq|(p & Hp & Hq)].
      * apply Hl in Hq as [Hq|Hq]; [auto|]. right. exists np. rewrite upd_eq. auto.
      * destruct (Z.eqb_spec p np) as [->|H1]; [exfalso; exact (unused_has _ _ _ _ (Me np Hp) Hu Hq)|]. right. exists p. rewrite upd_ne by exact H1.
        rewrite (kept_has k0 k) by auto. auto.
Qed.

(** The child [y] of [x], made from the memory [k]. *)
Record child_of (k k' : kst) (x y : proc) (pid : Z) : Prop := {
  ch_state : p_state y = RUNNABLE;
  ch_pid : p_pid y = pid;
  ch_parent : p_parent y = cur;
  ch_size : p_size y = p_size x;
  ch_cwd : p_cwd y = p_cwd x;
  ch_name : p_name y = take 15 (p_name x);
  ch_files : forall i, 0 <= i < NOFILE -> p_ofile x i <> NULLP -> p_ofile y i = p_ofile x i;
  ch_memory : forall va, 0 <= va < TRAPFRAME -> copy_of (p_pgtbl x) (p_pgtbl y) (phys k) (phys k') va;
  ch_frame : forall i, 0 <= i < TRAPFRAME_SIZE -> phys k' (p_trapframe y + i) =
    if (TF_a0 <=? i) && (i <? TF_a0 + 8) then 0 else phys k (p_trapframe x + i)
}.

Lemma forked_same np tab k l c y : forked np tab k l c -> p_pgtbl y = p_pgtbl c -> p_trapframe y = p_trapframe c -> p_size y = p_size c ->
  p_state y <> UNUSED -> forked np tab k l y /\ forall q, has k y q <-> has k c q.
Proof.
  intros [Fk Fo [C1 C2 C3 C4] Fa] E1 E2 E3 Hs. assert (Hh : forall q, has k y q <-> has k c q) by (intros q; unfold has; rewrite E1, E2; tauto).
  split; [|exact Hh]. split; auto.
  - split; rewrite ?E1, ?E2, ?E3; auto. contradiction.
  - intros p q Hp Hn. rewrite Hh. apply Fa; assumption.
Qed.

Context `{FE : !ForkEnv E}.

(** The entry as it is when the child can run. *)
Definition born (x c : proc) (f : Z -> Z) : proc :=
  Proc false RUNNABLE (p_chan c) (p_killed c) (p_xstate c) (p_pid c) cur (p_kstack c) (p_size c) (p_pgtbl c) (p_trapframe c)
    (p_ra c) (p_sp c) f (p_cwd x) (take 15 (p_name x)).

Lemma fork_tail np tab s k e pid c : 0 <= np < NPROC -> np <> cur -> looks s (upd tab np c) k e pid 1 -> p_lock c = true -> e_quiet e ->
  (forall j, 0 <= j < NOFILE -> p_ofile (tab cur) j <> NULLP -> e_live e NOFILE (p_ofile (tab cur) j)) ->
  exists s' e' f, (dup_files (Z.to_nat NOFILE) cur np 0 ;;
    let! ip := zoom env_of (e_idup (p_cwd (tab cur))) in
    modify (set_proc np (w_cwd ip)) ;;
    modify (set_proc np (w_name (take 15 (p_name (tab cur))))) ;;
    let! y := get_proc np in
    release_off (proc_lock np) ;;
    acquire_off wait_lock ;;
    modify (set_proc np (w_parent cur)) ;;
    release_off wait_lock ;;
    acquire_off (proc_lock np) ;;
    modify (set_proc np (w_state RUNNABLE)) ;;
    release_off (proc_lock np) ;;
    ret (p_pid y)) s = Ret (p_pid c) s' /\ looks s' (upd tab np (born (tab cur) c f)) k e' pid 0 /\
    forall i, 0 <= i < NOFILE -> p_ofile (tab cur) i <> NULLP -> f i = p_ofile (tab cur) i.
Proof using FE.
  intros Hnp Hne Hs Hl Hq Hlive.
  destruct (dup_files_run np tab cur k pid c ltac:(congruence) (Z.to_nat NOFILE) s e 0 (p_ofile c)) as (s1 & e1 & f & R1 & Hs1 & Hq1 & Hf); [destruct c; exact Hs|exact Hq|exact Hlive|].
  rewrite (bind_ret_l _ _ _ _ _ R1). destruct (e_idup_ok (p_cwd (tab cur)) k e1 Hq1) as (e2 & Ed & Hq2).
  destruct (looks_env _ _ _ _ _ _ _ _ _ _ Hs1 Ed) as (s2 & R2 & Hs2). rewrite (bind_ret_l _ _ _ _ _ R2), !bind_modify.
  apply (looks_entry _ _ _ _ _ _ _ _ (w_cwd (p_cwd (tab cur))) _) with (2 := eq_refl) in Hs2.
  apply (looks_entry _ _ _ _ _ _ _ _ (w_name (take 15 (p_name (tab cur)))) _) with (2 := eq_refl) in Hs2.
  unfold get_proc. rewrite bind_gets, (lk_tab _ _ _ _ _ _ Hs2), upd_eq.
  destruct (looks_release _ _ _ _ _ np Hs2) as (s3 & R3 & Hs3); [rewrite upd_eq; exact Hl|]. rewrite (bind_ret_l _ _ _ _ _ R3). rewrite upd_eq in Hs3.
  match goal with |- context [ (acquire_off wait_lock ;; modify _ ;; release_off wait_lock ;; ?m) s3 ] =>
    destruct (looks_wait _ _ _ _ _ (w_parent cur) np m Hs3) as (s4 & R4 & Hs4) end.
  rewrite R4. rewrite upd_eq in Hs4.
  destruct (looks_acquire _ _ _ _ _ np Hs4) as (s5 & R5 & Hs5); [rewrite upd_eq; reflexivity|]. rewrite (bind_ret_l _ _ _ _ _ R5), bind_modify. rewrite upd_eq in Hs5.
  apply (looks_set _ _ _ _ _ _ np (w_state RUNNABLE)) in Hs5. rewrite upd_eq in Hs5.
  destruct (looks_release _ _ _ _ _ np Hs5) as (s6 & R6 & Hs6); [rewrite upd_eq; reflexivity|]. rewrite (bind_ret_l _ _ _ _ _ R6). rewrite upd_eq in Hs6.
  exists s6, e2, f. split; [reflexivity|]. split.
  - eapply looks_tab; [exact Hs6|]. intros q. unfold upd. destruct (q =? np); reflexivity.
  - intros i Hi Hn. rewrite Hf. replace (_ && _ && _) with true by (unfold NOFILE in *; lia). reflexivity.
Qed.

(** What holds after [kfork] in any case: the other processes are as they were,
    and every page is still free or one process's. *)
Definition fork_keeps (tab : Z -> proc) (k : kst) (l : list Z) (tab' : Z -> proc) (k' : kst) (l' : list Z) : Prop :=
  mem_ok tab' k' l' /\ all_free tab' /\
  (forall p, 0 <= p < NPROC -> p_state (tab p) <> UNUSED -> tab' p = tab p /\ kept k k' (tab p)) /\
  forall q, pages tab' k' l' q <-> pages tab k l q.

Lemma fork_keeps_upd np tab k l k' l' y : 0 <= np < NPROC -> p_state (tab np) = UNUSED -> mem_ok tab k l -> all_free tab ->
  forked np tab k' l' y -> others_kept np tab k k' -> (forall q, q ∈ l' \/ has k' y q <-> q ∈ l) -> p_lock y = false ->
  fork_keeps tab k l (upd tab np y) k' l'.
Proof using Htr Htr'.
  intros Hnp Hu Hm Hfree Hf Ho Hl Hy. destruct (forked_done np tab k l k' l' y Hnp Hm Hu Hf Ho Hl) as [H1 H2].
  split; [exact H1|]. split; [|split; [|exact H2]].
  - intros q Hq. unfold upd. destruct (q =? np); [exact Hy|apply Hfree, Hq].
  - intros p Hp Hs. assert (p <> np) by congruence. rewrite upd_ne by assumption. auto.
Qed.

Definition fork_result (tab : Z -> proc) (k : kst) (l : list Z) (pid r : Z) (tab' : Z -> proc) (k' : kst) (l' : list Z) : Prop :=
  (r = -1 /\ (forall q, q ∈ l' <-> q ∈ l) /\ (forall p, 0 <= p < NPROC -> p_state (tab' p) = UNUSED <-> p_state (tab p) = UNUSED)) \/
  (r = pid /\ exists np, 0 <= np < NPROC /\ p_state (tab np) = UNUSED /\ child_of k k' (tab cur) (tab' np) pid).

(** The child is cleared away when memory runs out. *)
Lemma fork_fail np tab k0 l0 s e pid pid0 k l c : 0 <= np < NPROC -> p_state (tab np) = UNUSED -> mem_ok tab k0 l0 -> all_free tab ->
  looks s (upd tab np c) k e pid 1 -> p_lock c = true -> forked np tab k l c -> others_kept np tab k0 k ->
  (forall q, q ∈ l \/ has k c q <-> q ∈ l0) ->
  exists s' tab' k' l', (freeproc np ;; release_off (proc_lock np) ;; ret (-1)) s = Ret (-1) s' /\ looks s' tab' k' e pid 0 /\
    fork_keeps tab k0 l0 tab' k' l' /\ fork_result tab k0 l0 pid0 (-1) tab' k' l'.
Proof using Htr Htr'.
  intros Hnp Hu Hm Hfree Hs Hlk Hf Ho Hl.
  destruct (freeproc_run s _ k e pid 1 np l Hs (fk_kinv _ _ _ _ _ Hf)) as (s1 & k' & l' & R1 & Hs1 & Hk' & He' & Hl' & Hf'); [rewrite upd_eq; apply Hf|].
  rewrite (bind_ret_l _ _ _ _ _ R1). rewrite upd_eq in *.
  destruct (looks_release _ _ _ _ _ np Hs1) as (s2 & R2 & Hs2); [rewrite upd_eq; exact Hlk|]. rewrite (bind_ret_l _ _ _ _ _ R2). rewrite upd_eq in Hs2.
  set (y := w_lock false (cleared c)) in *. assert (Hy : forall q, ~ has k' y q) by (intros q; unfold has; simpl; tauto).
  assert (Hent : entry_ok k' l' y) by (split; simpl; try congruence; auto).
  destruct (forked_step np tab k l c k' l' y Hf Hk' He' Hent) as [Hf2 Ho2].
  { intros q [Hq|Hq]; [apply Hl', Hq|destruct (Hy q Hq)]. } { exact Hf'. }
  exists s2, (upd tab np y), k', l'. split; [reflexivity|]. split.
  { eapply looks_tab; [exact Hs2|]. intros q. unfold upd. destruct (q =? np); reflexivity. }
  assert (Hq : forall q, q ∈ l' <-> q ∈ l0) by (intros q; rewrite Hl', Hl; tauto). split.
  - apply fork_keeps_upd; auto; [eapply others_kept_trans; eassumption|]. intros q. rewrite Hq. specialize (Hy q). tauto.
  - left. split; [reflexivity|]. split; [exact Hq|]. intros p Hp. unfold upd. destruct (Z.eqb_spec p np) as [->|]; [|tauto]. rewrite Hu. simpl. tauto.
Qed.

Hypothesis Hcur : 0 <= cur < NPROC.

(** C3. [kfork] either returns -1 and leaves the processes and the set of free
    pages as they were, or makes an entry for a child that has its parent's
    size, files, directory and name, a copy of every page of the parent with
    the same permissions and bytes, and the parent's registers but for the
    result 0.  In both cases all other processes see the memory they saw, no two
    processes share a page and no page is lost. *)
Theorem kfork_correct s tab k e pid l : looks s tab k e pid 0 -> mem_ok tab k l -> all_free tab -> p_pgtbl (tab cur) <> 0 -> e_quiet e ->
  (forall j, 0 <= j < NOFILE -> p_ofile (tab cur) j <> NULLP -> e_live e NOFILE (p_ofile (tab cur) j)) ->
  exists r s' tab' k' l' e' pid', kfork trampoline forkret s = Ret r s' /\ looks s' tab' k' e' pid' 0 /\
    fork_keeps tab k l tab' k' l' /\ fork_result tab k l pid r tab' k' l'.
Proof using All.
  intros Hs Hm Hfree Hp Hq Hlive. unfold kfork, myproc. rewrite bind_gets, (lk_cur _ _ _ _ _ _ Hs).
  destruct (allocproc_run s tab k e pid l Hs Hfree (mo_kinv _ _ _ Hm) (mo_entry _ _ _ Hm)) as (r & s1 & k1 & l1 & R1 & Hk1 & Ho1 & Hr). rewrite (bind_ret_l _ _ _ _ _ R1).
  destruct Hr as [(-> & -> & -> & Hs1)|(np & Hnp & Hu & [(-> & Hs1 & Hl1)|(-> & tf & pt & Ht & Hpt & Hs1 & Hc & Hl1 & Hnone)])].
  - exists (-1), s1, tab, k, l, e, pid. split; [reflexivity|]. split; [exact Hs1|]. split; [|left; split; [reflexivity|split; tauto]].
    split; [exact Hm|]. split; [exact Hfree|]. split; [auto using entry_kept_refl|tauto].
  - assert (Hno : forall q, ~ has k1 (cleared (tab np)) q) by (intros q; unfold has; simpl; tauto).
    assert (Hent : entry_ok k1 l1 (cleared (tab np))) by (split; simpl; try congruence; auto).
    assert (Hq1 : forall q, q ∈ l1 \/ has k1 (cleared (tab np)) q <-> q ∈ l) by (intros q; rewrite Hl1; specialize (Hno q); tauto).
    destruct (forked_start np tab k l k1 l1 (cleared (tab np)) Hm Ho1 Hk1 Hent) as [Hf Hok]; [intros q; apply Hq1|].
    exists (-1), s1, (upd tab np (cleared (tab np))), k1, l1, e, (i32 (pid + 1)). split; [reflexivity|]. split; [exact Hs1|]. split.
    + apply fork_keeps_upd; auto. simpl. apply Hfree, Hnp.
    + left. split; [reflexivity|]. split; [exact Hl1|]. intros p Hp'. unfold upd. destruct (Z.eqb_spec p np) as [->|]; [|tauto]. rewrite Hu. simpl. tauto.
  - destruct (Z.eqb_spec np NULLP) as [|_]; [unfold NULLP in *; lia|].
    assert (Hne : cur <> np) by (intros <-; apply Hp; apply (en_unused _ _ _ (mo_entry _ _ _ Hm cur Hcur) Hu)).
    assert (Us : p_size (tab np) = 0) by (apply (en_unused _ _ _ (mo_entry _ _ _ Hm np Hnp) Hu)).
    unfold get_proc at 1 2. rewrite !bind_gets, !(lk_tab _ _ _ _ _ _ Hs1), upd_eq, upd_ne by exact Hne.
    set (c := allocated (tab np) pid tf pt) in *. destruct (forked_start np tab k l k1 l1 c Hm Ho1 Hk1 Hc) as [Hf1 Hok1]; [intros q; apply Hl1|].
    destruct (fork_copy np tab cur k1 l1 c Hf1 Hcur Hne Hp) as (r & k2 & l2 & c2 & R2 & Hf2 & Hok2 & Hl2 & Htf2 & Hr); auto; try discriminate.
    destruct (looks_mem _ _ _ _ _ _ _ _ _ Hs1 R2) as (s2 & R2' & Hs2). rewrite (bind_ret_l _ _ _ _ _ R2').
    assert (Hok : others_kept np tab k k2) by (eapply others_kept_trans; eassumption).
    assert (Hl : forall q, q ∈ l2 \/ has k2 c2 q <-> q ∈ l) by (intros q; rewrite Hl2, <- Hl1; tauto).
    destruct Hr as [[-> ->]|(-> & -> & Hcopy)]; cbn [Z.ltb Z.compare].
    + destruct (fork_fail np tab k l s2 e _ pid k2 l2 c Hnp Hu Hm Hfree Hs2 eq_refl Hf2 Hok Hl) as (s' & tab' & k' & l' & R & H1 & H2 & H3).
      exists (-1), s', tab', k', l', e, (i32 (pid + 1)). auto.
    + rewrite bind_modify. set (sz := p_size (tab cur)) in *. apply (looks_entry _ _ _ _ _ _ _ _ (w_size sz) (w_size sz c)) in Hs2; [|reflexivity].
      destruct (fork_frame np tab k2 l2 (w_size sz c) (p_trapframe (tab cur)) Hf2 Ht) as (Hk3 & Ho3 & Hfr).
      set (k3 := set_phys _ k2) in *. destruct (forked_write np tab k2 l2 (w_size sz c) k3 Hf2 Ht Hk3 Ho3) as (Hf3 & Hok3 & Hun3).
      destruct (looks_mem _ _ _ _ _ _ (memmove_k (p_trapframe c) (p_trapframe (tab cur)) TRAPFRAME_SIZE) tt _ Hs2 eq_refl) as (s3 & R3 & Hs3). rewrite (bind_ret_l _ _ _ _ _ R3).
      destruct (looks_mem _ _ _ _ _ _ (st64 (p_trapframe c + TF_a0) 0) tt k3 Hs3 eq_refl) as (s4 & R4 & Hs4). rewrite (bind_ret_l _ _ _ _ _ R4). cbv zeta.
      destruct (fork_tail np tab s4 k3 e _ (w_size sz c) Hnp ltac:(congruence) Hs4 eq_refl Hq Hlive) as (s' & e' & f & R & Hs' & Hfile).
      rewrite R. set (y := born (tab cur) (w_size sz c) f) in *.
      destruct (forked_same np tab k3 l2 (w_size sz c) y Hf3 eq_refl eq_refl eq_refl ltac:(discriminate)) as [Hfy Hhas].
      exists pid, s', (upd tab np y), k3, l2, e', (i32 (pid + 1)). split; [reflexivity|]. split; [exact Hs'|]. split.
      * apply fork_keeps_upd; auto; [eapply others_kept_trans; eassumption|]. intros q. rewrite Hhas, <- Hl. unfold has. rewrite (unchanged_owns _ _ _ _ _ (Hun3 Hpt)). tauto.
      * right. split; [reflexivity|]. exists np. split; [exact Hnp|]. split; [exact Hu|]. rewrite upd_eq. split; try reflexivity; [exact Hfile| |].
        -- intros va Hva. destruct (Hcopy va Hva) as [H1 H2]. destruct (Hok1 cur Hcur Hne) as [Hu1 _]. specialize (Hu1 Hp). specialize (Hun3 Hpt).
           rewrite (uc_umem _ _ _ _ Hu1) in H1 by exact Hva. rewrite (uc_map _ _ _ _ Hu1) in H2. unfold copy_of. change (p_pgtbl y) with (p_pgtbl (w_size sz c)).
           rewrite (uc_umem _ _ _ _ Hun3 va Hva), (uc_map _ _ _ _ Hun3 va). auto.
        -- intros i Hi. change (p_trapframe y) with (p_trapframe (w_size sz c)). rewrite (Hfr i Hi). destruct (_ && _); [reflexivity|]. apply (Hok cur Hcur Hne).
           ++ exact (en_both _ _ _ (mo_entry _ _ _ Hm cur Hcur) Hp).
           ++ unfold in_page, PGSIZE, TRAPFRAME_SIZE in *. lia.
Qed.
End Fork.
