(* ===== verification/KernelVm.v ===== *)
(** * The kernel's page table

    [kvmmake] and what runs with it at boot: the direct map of devices and
    memory, the trampoline and a guarded stack for each process.  [etext] and
    [trampoline] are addresses decided by the linker. *)

From S2P Require Import Prelude CString Riscv Spinlock Kalloc Vm Proc PageTable AddressSpace CopyUser Spaces ProcMem.

Section Kvm.
Context (etext trampoline : Z).

Definition kvmmake : M kst Z :=
  let! kpgtbl := kalloc in
  memset_k kpgtbl 0 PGSIZE ;;
  kvmmap kpgtbl UART0 UART0 PGSIZE (Z.lor PTE_R PTE_W) ;;
  kvmmap kpgtbl VIRTIO0 VIRTIO0 PGSIZE (Z.lor PTE_R PTE_W) ;;
  kvmmap kpgtbl PLIC PLIC 0x4000000 (Z.lor PTE_R PTE_W) ;;
  kvmmap kpgtbl KERNBASE KERNBASE (etext - KERNBASE) (Z.lor PTE_R PTE_X) ;;
  kvmmap kpgtbl etext etext (PHYSTOP - etext) (Z.lor PTE_R PTE_W) ;;
  kvmmap kpgtbl TRAMPOLINE trampoline PGSIZE (Z.lor PTE_R PTE_X) ;;
  proc_mapstacks kpgtbl ;;
  ret kpgtbl.

(** The kernel's variable and the register that selects the page table. *)
Record kvm : Type := Kvm { kv_mem : kst; kernel_pagetable : Z; kv_satp : Z }.
Definition kv_mem_of : lens kvm kst := Lens kv_mem (fun k s => Kvm k (kernel_pagetable s) (kv_satp s)).

Definition kvminit : M kvm unit :=
  let! pt := zoom kv_mem_of kvmmake in
  modify (fun s => Kvm (kv_mem s) pt (kv_satp s)).

(** The fences order accesses that are in order here. *)
Definition kvminithart : M kvm unit :=
  modify (fun s => Kvm (kv_mem s) (kernel_pagetable s) (MAKE_SATP (kernel_pagetable s))).

(** ** What it maps *)

Definition same (va perm : Z) : option Z := Some (leaf (va / 4096 * 4096) perm).
Definition within (va lo hi : Z) : bool := (lo <=? va) && (va <? hi).

(** Stacks are every second page below the trampoline. *)
Definition stack_of (stacks : list Z) (va : Z) : option Z :=
  let d := TRAMPOLINE / 4096 - va / 4096 in
  if (0 <? d) && (d mod 2 =? 0) then
    match stacks !! Z.to_nat (d / 2 - 1) with Some p => Some (leaf p (Z.lor PTE_R PTE_W)) | None => None end
  else None.

Definition kernel_map (stacks : list Z) (va : Z) : option Z :=
  if within va UART0 (UART0 + 4096) || within va VIRTIO0 (VIRTIO0 + 4096) || within va PLIC (PLIC + 0x4000000) || within va etext PHYSTOP
  then same va (Z.lor PTE_R PTE_W)
  else if within va KERNBASE etext then same va (Z.lor PTE_R PTE_X)
  else if within va TRAMPOLINE MAXVA then Some (leaf trampoline (Z.lor PTE_R PTE_X))
  else stack_of stacks va.

(** The table so far: [f] is mapped, out of the pages [l0] that were free. *)
Record built (root : Z) (s0 : kst) (l0 : list Z) (f : Z -> option Z) (s : kst) (l : list Z) : Prop := {
  bu_as : as_wf 0 root s l;
  bu_map : forall va, 0 <= va < MAXVA -> pt_map (phys s) root va = f va;
  bu_free : suffix l l0;
  bu_tables : forall q, table_page (phys s) root q -> q ∈ l0;
  bu_frame : only_free l0 s0 s;
  bu_plain : plain (phys s) root
}.

Lemma kvmmap_run root s0 l0 f s l va pa size perm : built root s0 l0 f s l ->
  0 <= va -> va mod 4096 = 0 -> 0 < size -> size mod 4096 = 0 -> va + size <= MAXVA -> pa mod 4096 = 0 -> 0 <= pa -> pa + size <= 2 ^ 56 -> 0 <= perm < 1024 ->
  (forall a, va <= a < va + size -> f a = None) -> 2 + crossings va (size / 4096 - 1) <= Z.of_nat (length l) ->
  exists s' l', kvmmap root va pa size perm s = Ret tt s' /\ built root s0 l0 (map_pages f va (size / 4096) pa perm) s' l' /\
    Z.of_nat (length l) <= Z.of_nat (length l') + 2 + crossings va (size / 4096 - 1) /\
    suffix l' l /\ forall q, table_page (phys s') root q -> table_page (phys s) root q \/ q ∈ l.
Proof using Type.
  intros [Ba Bm Bf Bt [Be Bo] Bp] H1 H2 H3 H4 H5 H6 H7 H8 H9 Hf Hlen. pose proof (absent_bound (phys s) root va 2) as Hab.
  destruct (mappages_run root va size pa perm s l) as (r & s' & l' & k & E & Hg & (Hr & Hc1 & Hc2) & Hm);
    auto; [apply Ba|apply Ba|intros a Ha; rewrite Bm by lia; apply Hf, Ha|]. unfold PGSIZE in *.
  destruct Hr as [[-> ->]|(-> & _)]; [|specialize (Hc1 eq_refl); lia]. specialize (Hc2 eq_refl).
  exists s', l'. unfold kvmmap. rewrite (bind_ret_l _ _ _ _ _ E). split; [reflexivity|].
  split; [|split; [lia|split; [apply Hg|intros q Hq; exact (grows_table _ _ _ _ _ _ Hg Hq)]]].
  assert (Hin : forall q, q ∈ l -> q ∈ l0) by (intros q Hq; destruct Bf as [x ->]; apply elem_of_app; auto).
  split.
  - split; [apply Hg|rewrite (gr_end _ _ _ _ _ Hg); apply Hg|intros; lia|intros; lia].
  - intros a Ha. rewrite Hm by exact Ha. unfold map_pages. rewrite Bm by exact Ha. reflexivity.
  - etrans; [apply (gr_free _ _ _ _ _ Hg)|exact Bf].
  - intros q Hq. destruct (grows_table _ _ _ _ _ _ Hg Hq); auto.
  - split; [rewrite (gr_end _ _ _ _ _ Hg); exact Be|]. intros x Hx. rewrite (gr_frame _ _ _ _ _ Hg), Bo; auto.
    intros path p Hs Hp. apply Hx, Bt. exists path. auto.
  - apply Hg, Bp.
Qed.

Lemma built_ext root s0 l0 f g s l : built root s0 l0 f s l -> (forall va, 0 <= va < MAXVA -> f va = g va) -> built root s0 l0 g s l.
Proof using Type. intros [] H. split; auto. intros va Hva. rewrite <- H by exact Hva. auto. Qed.

(** ** The stacks *)

Section Stacks.
Context (root : Z) (s0 : kst) (l0 : list Z) (f : Z -> option Z).
(** Nothing else is mapped where they go. *)
Hypothesis Hf : forall va, KSTACK NPROC <= va < TRAMPOLINE -> f va = None.

Definition with_stacks (stacks : list Z) (va : Z) : option Z := match stack_of stacks va with Some v => Some v | None => f va end.

(** Stacks have pages of their own. *)
Record stacks_ok (stacks : list Z) (s : kst) (l : list Z) : Prop := {
  st_nodup : NoDup stacks;
  st_ok : forall q, q ∈ stacks -> q ∈ l0 /\ (q ∉ l) /\ ~ table_page (phys s) root q
}.

Lemma KSTACK_eq p : KSTACK p = 2 ^ 38 - 4096 - (p + 1) * 8192.
Proof using Type. unfold KSTACK, TRAMPOLINE, PGSIZE. change MAXVA with (2 ^ 38). lia. Qed.

(** One more stack. *)
Lemma with_more stacks pa va : 0 <= va < MAXVA -> Z.of_nat (length stacks) < NPROC ->
  map_pages (with_stacks stacks) (KSTACK (Z.of_nat (length stacks))) 1 pa (Z.lor PTE_R PTE_W) va = with_stacks (stacks ++ [pa]) va.
Proof using Type.
  intros Hva Hn. unfold map_pages, with_stacks, stack_of. rewrite KSTACK_eq. change TRAMPOLINE with (2 ^ 38 - 4096) in *.
  set (d := (2 ^ 38 - 4096) / 4096 - va / 4096). set (i := va / 4096 - _).
  assert (Hi : i = 2 * (Z.of_nat (length stacks) + 1) - d) by (unfold i, d; dlia).
  destruct (Z.eqb_spec i 0) as [E|E].
  - rewrite E. cbn [Z.leb Z.ltb Z.compare andb]. replace ((0 <? d) && (d mod 2 =? 0)) with true by dlia.
    rewrite lookup_app_r by dlia. replace (Z.to_nat (d / 2 - 1) - length stacks)%nat with 0%nat by dlia. simpl. repeat f_equal. lia.
  - replace ((0 <=? i) && (i <? 1)) with false by lia. destruct ((0 <? d) && (d mod 2 =? 0)) eqn:Ed; [|reflexivity].
    destruct (decide (Z.to_nat (d / 2 - 1) < length stacks)%nat) as [H|H]; [rewrite lookup_app_l by exact H; reflexivity|].
    rewrite !lookup_ge_None_2; [reflexivity|rewrite length_app; simpl; dlia|lia].
Qed.

Lemma stacks_free stacks va : 0 <= va -> Z.of_nat (length stacks) < NPROC ->
  KSTACK (Z.of_nat (length stacks)) <= va < KSTACK (Z.of_nat (length stacks)) + 4096 -> with_stacks stacks va = None.
Proof using Hf.
  intros Hva Hn. rewrite KSTACK_eq. intros Hr. unfold with_stacks, stack_of. change TRAMPOLINE with (2 ^ 38 - 4096) in *. unfold NPROC in *.
  assert (Hfv : f va = None) by (apply Hf; rewrite KSTACK_eq; change TRAMPOLINE with (2 ^ 38 - 4096); unfold NPROC; lia).
  set (d := (2 ^ 38 - 4096) / 4096 - va / 4096). assert (Hd : d = 2 * (Z.of_nat (length stacks) + 1)) by (unfold d; dlia).
  replace ((0 <? d) && (d mod 2 =? 0)) with true by dlia. rewrite lookup_ge_None_2 by dlia. exact Hfv.
Qed.

Lemma mapstacks_run : forall n stacks s l, built root s0 l0 (with_stacks stacks) s l -> stacks_ok stacks s l ->
  Z.of_nat (length stacks) + Z.of_nat n = NPROC -> 3 * Z.of_nat n <= Z.of_nat (length l) ->
  exists stacks' s' l', proc_mapstacks_loop n root (Z.of_nat (length stacks)) s = Ret tt s' /\
    built root s0 l0 (with_stacks stacks') s' l' /\ stacks_ok stacks' s' l' /\ Z.of_nat (length stacks') = NPROC.
Proof using Hf.
  induction n as [|n IH]; intros stacks s l Hb Hs Hlen Hl; cbn [proc_mapstacks_loop].
  { exists stacks, s, l. split; [reflexivity|]. split; [exact Hb|]. split; [exact Hs|]. lia. }
  destruct l as [|p l]; [simpl in Hl; lia|]. cbn [length] in Hl. destruct Hb as [Ba Bm Bf Bt [Be Bo] Bp]. pose proof (as_inv _ _ _ _ Ba) as Hk.
  destruct (kalloc_spec s p l Hk) as (s1 & E1 & Hk1 & Ho & Hn & Hok & _). rewrite (bind_ret_l _ _ _ _ _ E1).
  replace (p =? 0) with false by (destruct Hok; pose proof (kinv_end _ _ Hk); lia).
  destruct (as_take 0 root s p l s1 Ba Hk1 Ho) as (Ba1 & Fr & Hm1 & _). destruct (take_tables 0 root s p l s1 Ba Ho) as [Hnode _].
  assert (Hin : p ∈ l0) by (destruct Bf as [x ->]; apply elem_of_app; right; left).
  assert (Hb1 : built root s0 l0 (with_stacks stacks) s1 l).
  { split; auto.
    - intros va Hva. rewrite Hm1. apply Bm, Hva.
    - etrans; [|exact Bf]. exists [p]. reflexivity.
    - intros q Hq. apply Bt. rewrite <- table_page_ext by exact Hnode. exact Hq.
    - destruct Ho as [Oe Of]. split; [congruence|]. intros x Hx. rewrite Of, Bo; auto.
    - revert Bp. apply tables_plain. intros q x (path & Hsp & Hq) Hx. apply Ho. destruct (wf_page _ _ _ _ (as_pt _ _ _ _ Ba) _ _ Hsp Hq) as [Hqok Hqn].
      apply (page_ok_ne (kend s) q p Hqok Hok); [intros ->; apply Hqn; left|exact Hx]. }
  assert (Hnn : Z.of_nat (length stacks) < NPROC) by lia. assert (HM : MAXVA = 2 ^ 38) by reflexivity. pose proof (KSTACK_eq (Z.of_nat (length stacks))) as EK.
  destruct Hok as [Hp1 Hp2]. pose proof (kinv_end _ _ Hk) as Hend. unfold PGSIZE, PHYSTOP, KERNBASE, NPROC in *.
  assert (Hva : 0 <= KSTACK (Z.of_nat (length stacks)) /\ KSTACK (Z.of_nat (length stacks)) mod 4096 = 0 /\ KSTACK (Z.of_nat (length stacks)) + 4096 <= MAXVA).
  { rewrite EK, HM. split; [lia|]. split; [|lia]. clear. dlia. } destruct Hva as (V1 & V2 & V3).
  destruct (kvmmap_run root s0 l0 (with_stacks stacks) s1 l (KSTACK (Z.of_nat (length stacks))) p 4096 (Z.lor PTE_R PTE_W) Hb1 V1 V2 ltac:(lia) eq_refl V3 Hp1 ltac:(lia) ltac:(lia) ltac:(closed))
    as (s2 & l2 & E2 & Hb2 & Hl2 & Hsub & Htab).
  { intros a Ha. apply stacks_free; unfold NPROC; lia. }
  { change (4096 / 4096 - 1) with 0. unfold crossings. rewrite Z.add_0_r. lia. }
  rewrite (bind_ret_l _ _ _ _ _ E2). change (4096 / 4096 - 1) with 0 in Hl2. change (4096 / 4096) with 1 in Hb2.
  assert (Hl2' : Z.of_nat (length l) <= Z.of_nat (length l2) + 2) by (unfold crossings in Hl2; rewrite Z.add_0_r in Hl2; lia).
  assert (Hb3 : built root s0 l0 (with_stacks (stacks ++ [p])) s2 l2) by (eapply built_ext; [exact Hb2|]; intros va Hva; apply with_more; auto).
  destruct (IH (stacks ++ [p]) s2 l2 Hb3) as (stacks' & s' & l' & E3 & H); [|rewrite length_app; simpl; lia|lia|].
  - destruct Hs as [Sn So]. split.
    + apply NoDup_app. split; [exact Sn|]. split; [|apply NoDup_singleton]. intros q Hq Hq'. apply list_elem_of_singleton in Hq' as ->.
      destruct (So p Hq) as (_ & H & _). apply H. left.
    + assert (Hl' : forall q, q ∈ l2 -> q ∈ l) by (intros q Hq; destruct Hsub as [x ->]; apply elem_of_app; auto).
      assert (Ht' : forall q, q ∉ p :: l -> ~ table_page (phys s) root q -> ~ table_page (phys s2) root q).
      { intros q Hq Hnt Ht. destruct (Htab q Ht) as [H|H]; [|apply Hq; right; exact H]. apply Hnt. rewrite <- table_page_ext by exact Hnode. exact H. }
      intros q Hq. apply elem_of_app in Hq as [Hq|Hq].
      * destruct (So q Hq) as (H1 & H2 & H3). split; [exact H1|]. split; [intros H; apply H2; right; auto|auto].
      * apply list_elem_of_singleton in Hq as ->. split; [exact Hin|]. split; [intros H; apply Hn, Hl', H|].
        intros Ht. destruct (Htab p Ht) as [H|H]; [|contradiction]. apply (fr_table _ _ _ _ _ Fr), H.
  - exists stacks', s', l'. rewrite length_app in E3. simpl in E3. replace (Z.of_nat (length stacks) + 1) with (Z.of_nat (length stacks + 1)) by lia. auto.
Qed.
End Stacks.

Lemma map_pages_within f a k pa perm va : a mod 4096 = 0 ->
  map_pages f a k pa perm va = if within va a (a + 4096 * k) then Some (leaf (pa - a + va / 4096 * 4096) perm) else f va.
Proof using Type.
  intros Ha. unfold map_pages, within. replace ((0 <=? va / 4096 - a / 4096) && (va / 4096 - a / 4096 <? k)) with ((a <=? va) && (va <? a + 4096 * k)) by dlia.
  destruct (_ && _); [|reflexivity]. do 2 f_equal. dlia.
Qed.

(** ** The whole table *)

Hypothesis (Het : KERNBASE < etext < PHYSTOP) (Het' : etext mod 4096 = 0) (Htr : 0 <= trampoline < etext) (Htr' : trampoline mod 4096 = 0).

(** The ranges before the stacks. *)
Definition ranges (va : Z) : option Z :=
  map_pages (map_pages (map_pages (map_pages (map_pages (map_pages (fun _ => None)
    UART0 1 UART0 (Z.lor PTE_R PTE_W)) VIRTIO0 1 VIRTIO0 (Z.lor PTE_R PTE_W)) PLIC 0x4000 PLIC (Z.lor PTE_R PTE_W))
    KERNBASE ((etext - KERNBASE) / 4096) KERNBASE (Z.lor PTE_R PTE_X)) etext ((PHYSTOP - etext) / 4096) etext (Z.lor PTE_R PTE_W))
    TRAMPOLINE 1 trampoline (Z.lor PTE_R PTE_X) va.

Lemma ranges_eq va : 0 <= va < MAXVA -> with_stacks ranges [] va = kernel_map [] va.
Proof using All.
  intros Hva. change MAXVA with (2 ^ 38) in Hva. unfold with_stacks, kernel_map. replace (stack_of [] va) with (@None Z) by (unfold stack_of; destruct (_ && _); reflexivity).
  unfold ranges. change PHYSTOP with 2281701376 in *. change KERNBASE with 2147483648 in *.
  rewrite !map_pages_within by (first [exact Het'|reflexivity]).
  change TRAMPOLINE with (2 ^ 38 - 4096). change MAXVA with (2 ^ 38). change UART0 with 268435456. change VIRTIO0 with 268439552. change PLIC with 201326592.
  rewrite !Z.sub_diag. unfold within, same.
  replace (etext + 4096 * ((2281701376 - etext) / 4096)) with 2281701376 by dlia.
  replace (2147483648 + 4096 * ((etext - 2147483648) / 4096)) with etext by dlia.
  rewrite !Z.add_0_l. clear Htr'.
  assert (Hcases : va < 201326592 \/ 201326592 <= va < 268435456 \/ 268435456 <= va < 268439552 \/ 268439552 <= va < 268443648 \/ 268443648 <= va < 2147483648 \/
    2147483648 <= va < etext \/ etext <= va < 2281701376 \/ 2281701376 <= va < 2 ^ 38 - 4096 \/ 2 ^ 38 - 4096 <= va) by lia.
  destruct Hcases as [H|[H|[H|[H|[H|[H|[H|[H|H]]]]]]]];
    repeat match goal with |- context [(?a <=? va) && (va <? ?b)] =>
      first [replace ((a <=? va) && (va <? b)) with false by lia|replace ((a <=? va) && (va <? b)) with true by lia] end; cbn [orb];
    first [reflexivity|do 2 f_equal; dlia].
Qed.

Lemma ranges_free va : KSTACK NPROC <= va < TRAMPOLINE -> ranges va = None.
Proof using All.
  rewrite KSTACK_eq. unfold NPROC. intros Hva. pose proof (ranges_eq va) as E. change MAXVA with (2 ^ 38) in E. change TRAMPOLINE with (2 ^ 38 - 4096) in *. specialize (E ltac:(lia)).
  unfold with_stacks in E. replace (stack_of [] va) with (@None Z) in E by (unfold stack_of; destruct (_ && _); reflexivity). rewrite E. unfold kernel_map, within.
  change PHYSTOP with 2281701376 in *. change KERNBASE with 2147483648 in *. change TRAMPOLINE with (2 ^ 38 - 4096). change UART0 with 268435456. change VIRTIO0 with 268439552. change PLIC with 201326592.
  replace (_ || _) with false by lia. replace (_ && _) with false by lia. replace (_ && _) with false by lia. unfold stack_of. destruct (_ && _); reflexivity.
Qed.

Lemma stack_of_range stacks va v : 0 <= va < MAXVA -> Z.of_nat (length stacks) = NPROC -> stack_of stacks va = Some v -> KSTACK NPROC <= va < TRAMPOLINE.
Proof using Type.
  unfold stack_of, NPROC. change MAXVA with (2 ^ 38). change TRAMPOLINE with (2 ^ 38 - 4096). rewrite KSTACK_eq. intros Hva Hl.
  set (d := (2 ^ 38 - 4096) / 4096 - va / 4096). destruct ((0 <? d) && (d mod 2 =? 0)) eqn:E; [|discriminate].
  destruct (stacks !! Z.to_nat (d / 2 - 1)) as [p|] eqn:El; [|discriminate]. intros _. apply lookup_lt_Some in El. unfold d in *. clear Het Het' Htr Htr'. dlia.
Qed.

Lemma kernel_map_eq stacks va : 0 <= va < MAXVA -> Z.of_nat (length stacks) = NPROC -> with_stacks ranges stacks va = kernel_map stacks va.
Proof using All.
  intros Hva Hl. unfold with_stacks. destruct (stack_of stacks va) as [v|] eqn:E.
  - pose proof (stack_of_range stacks va v Hva Hl E) as Hr. unfold kernel_map. rewrite KSTACK_eq in Hr. unfold NPROC in Hr. change TRAMPOLINE with (2 ^ 38 - 4096) in *. unfold within.
    change PHYSTOP with 2281701376 in *. change KERNBASE with 2147483648 in *. change UART0 with 268435456. change VIRTIO0 with 268439552. change PLIC with 201326592.
    replace (_ || _) with false by lia. replace (_ && _) with false by lia. replace (_ && _) with false by lia. symmetry. exact E.
  - pose proof (ranges_eq va Hva) as R. unfold with_stacks in R. replace (stack_of [] va) with (@None Z) in R by (unfold stack_of; destruct (_ && _); reflexivity).
    rewrite R. unfold kernel_map. rewrite E. replace (stack_of [] va) with (@None Z) by (unfold stack_of; destruct (_ && _); reflexivity). reflexivity.
Qed.

(** The root. *)
Lemma new_root s root l : kinv s (root :: l) -> exists s1 s', kalloc s = Ret root s1 /\ memset_k root 0 PGSIZE s1 = Ret tt s' /\
  built root s (root :: l) (fun _ => None) s' l.
Proof using Type.
  intros Hk. destruct (kalloc_zero s root l Hk) as (s1 & m2 & E & Em & Hk2 & [Oe Of] & Hz). exists s1, (set_phys m2 s1).
  split; [exact E|]. unfold memset_k, modify. rewrite Em. split; [reflexivity|].
  pose proof (kinv_pages _ _ Hk) as Hp. apply Forall_cons in Hp as [Hp _]. pose proof (kinv_nodup _ _ Hk) as Hn. apply NoDup_cons in Hn as [Hn _].
  destruct (blank_space 0 root (set_phys m2 s1) l Hk2) as (Ha & Hpl & Hm & Ho); [rewrite Oe; exact Hp|exact Hn|exact Hz|].
  split; auto.
  - exists [root]. reflexivity.
  - intros q Hq. rewrite (Ho q) by (left; exact Hq). left.
  - split; [exact Oe|]. intros x Hx. apply Of, Hx. left.
Qed.

(** A mapping that takes at most [c] pages and leaves [n]. *)
Lemma kvmmap_next root s0 l0 f s l va pa size perm c n : built root s0 l0 f s l ->
  0 <= va -> va mod 4096 = 0 -> 0 < size -> size mod 4096 = 0 -> va + size <= MAXVA -> pa mod 4096 = 0 -> 0 <= pa -> pa + size <= 2 ^ 56 -> 0 <= perm < 1024 ->
  2 + crossings va (size / 4096 - 1) <= c -> 0 <= n /\ c + n <= Z.of_nat (length l) -> (forall a, va <= a < va + size -> f a = None) ->
  exists s' l', kvmmap root va pa size perm s = Ret tt s' /\ built root s0 l0 (map_pages f va (size / 4096) pa perm) s' l' /\ n <= Z.of_nat (length l').
Proof using Type.
  intros HB H1 H2 H3 H4 H5 H6 H7 H8 H9 Hc Hn Hf.
  destruct (kvmmap_run root s0 l0 f s l va pa size perm HB H1 H2 H3 H4 H5 H6 H7 H8 H9 Hf) as (s' & l' & E & B & C & _); [lia|]. exists s', l'. split; [exact E|]. split; [exact B|]. lia.
Qed.

Lemma kvmmake_run s l : kinv s l -> 400 <= Z.of_nat (length l) ->
  exists root stacks s' l', kvmmake s = Ret root s' /\ built root s l (kernel_map stacks) s' l' /\ stacks_ok root l stacks s' l' /\ Z.of_nat (length stacks) = NPROC.
Proof using All.
  intros Hk Hl. destruct l as [|root l]; [simpl in Hl; lia|]. cbn [length] in Hl. destruct (new_root s root l Hk) as (s1 & s2 & E1 & E2 & B2).
  unfold kvmmake. rewrite (bind_ret_l _ _ _ _ _ E1), (bind_ret_l _ _ _ _ _ E2). unfold PGSIZE.
  assert (HM : MAXVA = 2 ^ 38) by reflexivity. assert (Hc : forall n, 0 <= n < 32768 -> 0 <= crossings KERNBASE n <= 63) by (intros n Hn; unfold crossings, KERNBASE; dlia).
  assert (Hc' : forall n, 0 <= n -> etext / 4096 + n < 557056 -> 0 <= crossings etext n <= 63) by (intros n Hn; unfold crossings; unfold KERNBASE in Het; dlia).
  assert (Hsz : 0 < etext - KERNBASE /\ (etext - KERNBASE) mod 4096 = 0 /\ 0 < PHYSTOP - etext /\ (PHYSTOP - etext) mod 4096 = 0) by (unfold PHYSTOP, KERNBASE in *; dlia).
  destruct Hsz as (S1 & S2 & S3 & S4).
  assert (Hnone : forall f a k pa perm b, a mod 4096 = 0 -> ~ (a <= b < a + 4096 * k) -> f b = None -> map_pages f a k pa perm b = None).
  { intros f a k pa perm b Ha Hb Hf. rewrite map_pages_within by exact Ha. unfold within. replace (_ && _) with false by lia. exact Hf. }
  destruct (kvmmap_next root s (root :: l) _ s2 l UART0 UART0 4096 (Z.lor PTE_R PTE_W) 2 397 B2) as (s3 & l3 & E3 & B3 & C3); [closed..|lia|reflexivity|].
  rewrite (bind_ret_l _ _ _ _ _ E3).
  destruct (kvmmap_next root s (root :: l) _ s3 l3 VIRTIO0 VIRTIO0 4096 (Z.lor PTE_R PTE_W) 2 395 B3) as (s4 & l4 & E4 & B4 & C4); [closed..|lia| |].
  { intros a Ha. apply Hnone; [reflexivity|unfold UART0, VIRTIO0 in *; dlia|reflexivity]. }
  rewrite (bind_ret_l _ _ _ _ _ E4).
  destruct (kvmmap_next root s (root :: l) _ s4 l4 PLIC PLIC 0x4000000 (Z.lor PTE_R PTE_W) 33 362 B4) as (s5 & l5 & E5 & B5 & C5); [closed..|lia| |].
  { intros a Ha. repeat apply Hnone; try reflexivity; unfold UART0, VIRTIO0, PLIC in *; dlia. }
  rewrite (bind_ret_l _ _ _ _ _ E5).
  destruct (kvmmap_next root s (root :: l) _ s5 l5 KERNBASE KERNBASE (etext - KERNBASE) (Z.lor PTE_R PTE_X) 65 297 B5) as (s6 & l6 & E6 & B6 & C6);
    [closed|closed|exact S1|exact S2|unfold PHYSTOP, KERNBASE in *; lia|closed|closed|unfold PHYSTOP, KERNBASE in *; lia|closed| |lia| |].
  { specialize (Hc ((etext - KERNBASE) / 4096 - 1) ltac:(unfold PHYSTOP, KERNBASE in *; dlia)). lia. }
  { intros a Ha. repeat apply Hnone; try reflexivity; unfold UART0, VIRTIO0, PLIC, KERNBASE in *; dlia. }
  rewrite (bind_ret_l _ _ _ _ _ E6).
  destruct (kvmmap_next root s (root :: l) _ s6 l6 etext etext (PHYSTOP - etext) (Z.lor PTE_R PTE_W) 65 232 B6) as (s7 & l7 & E7 & B7 & C7);
    [unfold KERNBASE in *; lia|exact Het'|exact S3|exact S4|unfold PHYSTOP, KERNBASE in *; lia|exact Het'|unfold KERNBASE in *; lia|unfold PHYSTOP, KERNBASE in *; lia|closed| |lia| |].
  { specialize (Hc' ((PHYSTOP - etext) / 4096 - 1) ltac:(unfold PHYSTOP, KERNBASE in *; dlia) ltac:(unfold PHYSTOP, KERNBASE in *; dlia)). lia. }
  { intros a Ha. repeat apply Hnone; try reflexivity; unfold UART0, VIRTIO0, PLIC, PHYSTOP, KERNBASE in *; dlia. }
  rewrite (bind_ret_l _ _ _ _ _ E7).
  destruct (kvmmap_next root s (root :: l) _ s7 l7 TRAMPOLINE trampoline 4096 (Z.lor PTE_R PTE_X) 2 230 B7) as (s8 & l8 & E8 & B8 & C8);
    [closed..|exact Htr'|lia|unfold PHYSTOP, KERNBASE in *; lia|closed|closed|lia| |].
  { intros a Ha. change TRAMPOLINE with (2 ^ 38 - 4096) in Ha. repeat apply Hnone; try reflexivity; try exact Het'; unfold UART0, VIRTIO0, PLIC, PHYSTOP, KERNBASE in *; dlia. }
  rewrite (bind_ret_l _ _ _ _ _ E8). fold ranges in B8.
  assert (B9 : built root s (root :: l) (with_stacks ranges []) s8 l8).
  { eapply built_ext; [exact B8|]. intros va Hva. unfold with_stacks. replace (stack_of [] va) with (@None Z) by (unfold stack_of; destruct (_ && _); reflexivity). reflexivity. }
  destruct (mapstacks_run root s (root :: l) ranges ranges_free (Z.to_nat NPROC) [] s8 l8 B9) as (stacks & s' & l' & E9 & B & Hs & Hn); [split; [constructor|intros q Hq; inversion Hq]|reflexivity|change (Z.of_nat (Z.to_nat NPROC)) with 64; lia|].
  exists root, stacks, s', l'. unfold proc_mapstacks. cbn [length] in E9. rewrite (bind_ret_l _ _ _ _ _ E9). split; [reflexivity|]. split; [|auto].
  eapply built_ext; [exact B|]. intros va Hva. apply kernel_map_eq; auto.
Qed.

(** No entry is the user's, and none is both writable and executable. *)
Lemma kernel_map_flags stacks va v : kernel_map stacks va = Some v -> flag v PTE_U = false /\ flag v PTE_W && flag v PTE_X = false.
Proof using Type.
  assert (H : forall p perm, 0 <= perm < 1024 -> flag perm PTE_U = false -> flag perm PTE_W && flag perm PTE_X = false ->
    flag (leaf p perm) PTE_U = false /\ flag (leaf p perm) PTE_W && flag (leaf p perm) PTE_X = false).
  { intros p perm Hp H1 H2. rewrite !flag_leaf by (first [exact Hp|closed]). auto. }
  unfold kernel_map, same, stack_of. repeat case_match; intros; simplify_eq; apply H; closed.
Qed.

Lemma kernel_map_stack stacks i p : 0 <= i < NPROC -> stacks !! Z.to_nat i = Some p ->
  kernel_map stacks (KSTACK i) = Some (leaf p (Z.lor PTE_R PTE_W)) /\ kernel_map stacks (KSTACK i - 4096) = None /\ kernel_map stacks (KSTACK i + 4096) = None.
Proof using Het Htr.
  intros Hi Hp. unfold NPROC in Hi. unfold kernel_map, within. change PHYSTOP with 2281701376 in *. change KERNBASE with 2147483648 in *. change UART0 with 268435456. change VIRTIO0 with 268439552. change PLIC with 201326592.
  assert (Hno : forall va, 2 ^ 38 - 4096 * 131 <= va < 2 ^ 38 - 4096 -> forall A (x y z w : A),
    (if (268435456 <=? va) && (va <? 268435456 + 4096) || (268439552 <=? va) && (va <? 268439552 + 4096) || (201326592 <=? va) && (va <? 201326592 + 0x4000000) || (etext <=? va) && (va <? 2281701376)
     then x else if (2147483648 <=? va) && (va <? etext) then y else if (TRAMPOLINE <=? va) && (va <? MAXVA) then z else w) = w).
  { intros va Hva A x y z w. change TRAMPOLINE with (2 ^ 38 - 4096). replace (_ || _) with false by lia. replace (_ && _) with false by lia. replace (_ && _) with false by lia. reflexivity. }
  rewrite !Hno by (rewrite KSTACK_eq; lia). rewrite KSTACK_eq. unfold stack_of. change TRAMPOLINE with (2 ^ 38 - 4096).
  assert (E0 : (2 ^ 38 - 4096) / 4096 - (2 ^ 38 - 4096 - (i + 1) * 8192) / 4096 = 2 * (i + 1)) by dlia.
  assert (E1 : (2 ^ 38 - 4096) / 4096 - (2 ^ 38 - 4096 - (i + 1) * 8192 - 4096) / 4096 = 2 * (i + 1) + 1) by dlia.
  assert (E2 : (2 ^ 38 - 4096) / 4096 - (2 ^ 38 - 4096 - (i + 1) * 8192 + 4096) / 4096 = 2 * (i + 1) - 1) by dlia.
  rewrite E0, E1, E2. replace ((0 <? 2 * (i + 1)) && _) with true by dlia. replace (2 * (i + 1) / 2 - 1) with i by dlia. rewrite Hp.
  split; [reflexivity|]. split; match goal with |- context [if ?b then _ else _] => replace b with false by dlia end; reflexivity.
Qed.
End Kvm.

(** C24. With 400 free pages [kvmmake] succeeds and builds the kernel's address
    space: devices and memory at their own addresses, the kernel's code read
    only and executable and everything else not executable, the trampoline at
    the top, and under it for each process a stack on a page of its own between
    two unmapped pages.  Nothing is accessible to users, nothing is writable
    and executable, and only pages that were free are written. *)
Theorem kvmmake_correct etext trampoline s l :
  KERNBASE < etext < PHYSTOP -> etext mod 4096 = 0 -> 0 <= trampoline < etext -> trampoline mod 4096 = 0 -> kinv s l -> 400 <= Z.of_nat (length l) ->
  exists root stacks s' l', kvmmake etext trampoline s = Ret root s' /\ kinv s' l' /\ only_free l s s' /\
    (forall va, 0 <= va < MAXVA -> pt_map (phys s') root va = kernel_map etext trampoline stacks va) /\
    (forall va v, 0 <= va < MAXVA -> pt_map (phys s') root va = Some v -> flag v PTE_U = false /\ flag v PTE_W && flag v PTE_X = false) /\
    NoDup stacks /\ (forall p, p ∈ stacks -> p ∈ l /\ (p ∉ l') /\ ~ table_page (phys s') root p) /\
    forall i, 0 <= i < NPROC -> exists p, stacks !! Z.to_nat i = Some p /\ pt_map (phys s') root (KSTACK i) = Some (leaf p (Z.lor PTE_R PTE_W)) /\
      pt_map (phys s') root (KSTACK i - 4096) = None /\ pt_map (phys s') root (KSTACK i + 4096) = None.
Proof.
  intros H1 H2 H3 H4 Hk Hl. destruct (kvmmake_run etext trampoline H1 H2 H3 H4 s l Hk Hl) as (root & stacks & s' & l' & E & [Ba Bm Bf Bt Bo Bp] & [Sn So] & Hn).
  exists root, stacks, s', l'. split; [exact E|]. split; [apply Ba|]. split; [exact Bo|]. split; [exact Bm|]. split; [|split; [exact Sn|split; [exact So|]]].
  - intros va v Hva Hv. rewrite Bm in Hv by exact Hva. exact (kernel_map_flags _ _ _ _ _ Hv).
  - intros i Hi. assert (Hlt : (Z.to_nat i < length stacks)%nat) by lia. destruct (lookup_lt_is_Some_2 _ _ Hlt) as [p Hp]. exists p. split; [exact Hp|].
    pose proof (KSTACK_eq i) as EK. unfold NPROC in Hi. change MAXVA with (2 ^ 38) in Bm. rewrite !Bm by lia. apply kernel_map_stack; auto.
Qed.

(** A machine with 400 free pages. *)
Definition ex_end : Z := PHYSTOP - 400 * 4096.
Lemma kvmmake_correct_witness : exists s1 root s' l', kinit (boot_state ex_end) = Ret tt s1 /\
  kvmmake (KERNBASE + 8192) (KERNBASE + 4096) s1 = Ret root s' /\ kinv s' l' /\
  pt_map (phys s') root KERNBASE = Some (leaf KERNBASE (Z.lor PTE_R PTE_X)) /\ pt_map (phys s') root (KSTACK 63 - 4096) = None.
Proof.
  destruct (kinit_spec (boot_state ex_end)) as (s1 & E & Hk & He); [reflexivity|intros x; simpl; lia|vm_compute; split; congruence|].
  destruct (kvmmake_correct (KERNBASE + 8192) (KERNBASE + 4096) s1 _ ltac:(closed) ltac:(closed) ltac:(closed) ltac:(closed) Hk) as (root & stacks & s' & l' & E' & Hk' & _ & Hm & _ & _ & _ & Hs).
  { vm_compute. discriminate. }
  exists s1, root, s', l'. split; [exact E|]. split; [exact E'|]. split; [exact Hk'|]. split.
  - rewrite Hm by closed. vm_compute. reflexivity.
  - destruct (Hs 63 ltac:(closed)) as (p & _ & _ & H & _). exact H.
Defined.
