(* ===== verification/Trampoline.v ===== *)
(** * The assembly code

    [kernel/trampoline.S], [kernel/kernelvec.S] and [kernel/swtch.S] as lists
    of instructions, run by an interpreter of the instructions they use: loads
    and stores of 64-bit words through the page table the [satp] register
    selects, in supervisor mode.  Every instruction is fetched through that
    page table too, so that switching page tables under the running code needs
    the same mapping in both. *)

From S2P Require Import Prelude CString Riscv Spinlock Kalloc Vm Proc PageTable AddressSpace CopyUser Spaces ProcMem KernelVm.

(** ** The machine *)

Inductive reg : Set :=
| RA | SP | GP | TP | T0 | T1 | T2 | S0 | S1
| A0 | A1 | A2 | A3 | A4 | A5 | A6 | A7
| S2 | S3 | S4 | S5 | S6 | S7 | S8 | S9 | S10 | S11
| T3 | T4 | T5 | T6.
#[export] Instance reg_eq_dec : EqDecision reg.
Proof. solve_decision. Defined.

Inductive csr : Set := Satp | Sscratch.

Inductive instr : Set :=
| Sd (rs : reg) (off : Z) (base : reg)      (* sd rs, off(base) *)
| Ld (rd : reg) (off : Z) (base : reg)      (* ld rd, off(base) *)
| Li (rd : reg) (v : Z)
| Addi (rd rs : reg) (v : Z)
| Csrw (c : csr) (rs : reg)
| Csrr (rd : reg) (c : csr)
| Sfence                                    (* sfence.vma zero, zero *)
| Jalr (rs : reg)                           (* links in ra *)
| Jret                                      (* ret *)
| Sret.

Record hart : Type := Hart {
  h_regs : reg -> Z;
  h_mem : mem;
  h_satp : Z;
  h_sscratch : Z;
  h_sepc : Z;
  h_pc : Z       (* where the last jump went *)
}.

Definition set_reg (r : reg) (v : Z) (h : hart) : hart :=
  Hart (fun x => if decide (x = r) then v else h_regs h x) (h_mem h) (h_satp h) (h_sscratch h) (h_sepc h) (h_pc h).
Definition set_mem (m : mem) (h : hart) : hart := Hart (h_regs h) m (h_satp h) (h_sscratch h) (h_sepc h) (h_pc h).
Definition set_satp (v : Z) (h : hart) : hart := Hart (h_regs h) (h_mem h) v (h_sscratch h) (h_sepc h) (h_pc h).
Definition set_sscratch (v : Z) (h : hart) : hart := Hart (h_regs h) (h_mem h) (h_satp h) v (h_sepc h) (h_pc h).
Definition set_pc (v : Z) (h : hart) : hart := Hart (h_regs h) (h_mem h) (h_satp h) (h_sscratch h) (h_sepc h) v.

(** The page table [satp] selects. *)
Definition satp_root (satp : Z) : Z := satp mod 2 ^ 44 * 4096.

(** The physical address of [va], for a supervisor access that needs [bit];
    [None] is a page fault.  Pages of users are not for the supervisor. *)
Definition translate (m : mem) (satp va bit : Z) : option Z :=
  if (0 <=? va) && (va <? MAXVA) then
    match pt_map m (satp_root satp) va with
    | Some v => if flag v bit && negb (flag v PTE_U) then Some (PTE2PA v + va mod 4096) else None
    | None => None
    end
  else None.

(** [link] is the address after a jump; words are aligned. *)
Definition step (link : Z) (i : instr) (h : hart) : option hart :=
  match i with
  | Sd rs off base =>
      let va := u64 (h_regs h base + off) in
      if va mod 8 =? 0 then
        match translate (h_mem h) (h_satp h) va PTE_W with
        | Some pa => Some (set_mem (store_le (h_mem h) pa 8 (h_regs h rs)) h)
        | None => None
        end
      else None
  | Ld rd off base =>
      let va := u64 (h_regs h base + off) in
      if va mod 8 =? 0 then
        match translate (h_mem h) (h_satp h) va PTE_R with
        | Some pa => Some (set_reg rd (load (h_mem h) pa 8) h)
        | None => None
        end
      else None
  | Li rd v => Some (set_reg rd v h)
  | Addi rd rs v => Some (set_reg rd (u64 (h_regs h rs + v)) h)
  | Csrw Satp rs => Some (set_satp (h_regs h rs) h)
  | Csrw Sscratch rs => Some (set_sscratch (h_regs h rs) h)
  | Csrr rd Satp => Some (set_reg rd (h_satp h) h)
  | Csrr rd Sscratch => Some (set_reg rd (h_sscratch h) h)
  | Sfence => Some h
  | Jalr rs => Some (set_reg RA link (set_pc (h_regs h rs) h))
  | Jret => Some (set_pc (h_regs h RA) h)
  | Sret => Some (set_pc (h_sepc h) h)
  end.

(** Code on the page [at_va], which has to be mapped to [code]. *)
Fixpoint run (at_va code link : Z) (prog : list instr) (h : hart) : option hart :=
  match prog with
  | [] => Some h
  | i :: prog =>
      if decide (translate (h_mem h) (h_satp h) at_va PTE_X = Some code) then
        match step link i h with
        | Some h' => run at_va code link prog h'
        | None => None
        end
      else None
  end.

(** ** The code *)

Definition save (base : reg) (x : reg * Z) : instr := Sd x.1 x.2 base.
Definition restore (base : reg) (x : reg * Z) : instr := Ld x.1 x.2 base.

(** Where the trapframe has the user's registers, but for [a0]. *)
Definition trapframe_regs : list (reg * Z) :=
  [(RA, 40); (SP, 48); (GP, 56); (TP, 64); (T0, 72); (T1, 80); (T2, 88); (S0, 96); (S1, 104);
   (A1, 120); (A2, 128); (A3, 136); (A4, 144); (A5, 152); (A6, 160); (A7, 168);
   (S2, 176); (S3, 184); (S4, 192); (S5, 200); (S6, 208); (S7, 216); (S8, 224); (S9, 232); (S10, 240); (S11, 248);
   (T3, 256); (T4, 264); (T5, 272); (T6, 280)].

Definition uservec : list instr :=
  [Csrw Sscratch A0; Li A0 TRAPFRAME] ++ map (save A0) trapframe_regs ++
  [Csrr T0 Sscratch; Sd T0 112 A0;
   Ld SP 8 A0;
   Ld TP 32 A0;
   Ld T0 16 A0;
   Ld T1 0 A0;
   Sfence; Csrw Satp T1; Sfence;
   Jalr T0].

Definition userret : list instr :=
  [Sfence; Csrw Satp A0; Sfence; Li A0 TRAPFRAME] ++ map (restore A0) trapframe_regs ++
  [Ld A0 112 A0; Sret].

Definition context_regs : list (reg * Z) :=
  [(RA, 0); (SP, 8); (S0, 16); (S1, 24); (S2, 32); (S3, 40); (S4, 48); (S5, 56); (S6, 64); (S7, 72); (S8, 80); (S9, 88); (S10, 96); (S11, 104)].

Definition swtch : list instr := map (save A0) context_regs ++ map (restore A1) context_regs ++ [Jret].

(** What [kernelvec] keeps on the stack; [tp] is not restored. *)
Definition kernel_saved : list (reg * Z) :=
  [(RA, 0); (GP, 16); (TP, 24); (T0, 32); (T1, 40); (T2, 48); (A0, 72); (A1, 80); (A2, 88); (A3, 96); (A4, 104); (A5, 112); (A6, 120); (A7, 128);
   (T3, 216); (T4, 224); (T5, 232); (T6, 240)].
Definition kernel_restored : list (reg * Z) :=
  [(RA, 0); (GP, 16); (T0, 32); (T1, 40); (T2, 48); (A0, 72); (A1, 80); (A2, 88); (A3, 96); (A4, 104); (A5, 112); (A6, 120); (A7, 128);
   (T3, 216); (T4, 224); (T5, 232); (T6, 240)].

(** [kernelvec] before and after its call of [kerneltrap]. *)
Definition kernelvec_enter : list instr := Addi SP SP (-256) :: map (save SP) kernel_saved.
Definition kernelvec_leave : list instr := map (restore SP) kernel_restored ++ [Addi SP SP 256; Sret].

(** ** Saving and restoring *)

(** A window of [n] bytes from [va] on, on the physical memory at [pa], seen by
    code at [at_va]; the page table is not in it. *)
Record window (at_va code satp va pa n : Z) (m : mem) : Prop := {
  wi_code : translate m satp at_va PTE_X = Some code;
  wi_data : forall o, 0 <= o < n -> translate m satp (va + o) PTE_R = Some (pa + o) /\ translate m satp (va + o) PTE_W = Some (pa + o);
  wi_apart : forall q x, table_page m (satp_root satp) q -> in_page q x -> ~ pa <= x < pa + n
}.

Definition agree_outside (m m' : mem) (pa n : Z) : Prop := forall x, ~ pa <= x < pa + n -> m' x = m x.

Lemma window_kept at_va code satp va pa n m m' pa' n' : window at_va code satp va pa n m ->
  agree_outside m m' pa' n' -> (forall q x, table_page m (satp_root satp) q -> in_page q x -> ~ pa' <= x < pa' + n') -> window at_va code satp va pa n m'.
Proof.
  intros [Wc Wd Wa] Hm Hap. assert (Ht : forall q x, table_page m (satp_root satp) q -> in_page q x -> m' x = m x) by (intros q x Hq Hx; apply Hm, (Hap q x Hq Hx)).
  destruct (tables_ext m m' (satp_root satp) Ht) as [Hn Hp].
  assert (Htr : forall a b, translate m' satp a b = translate m satp a b) by (intros a b; unfold translate; rewrite Hp; reflexivity).
  split; [rewrite Htr; exact Wc|intros o Ho; rewrite !Htr; apply Wd, Ho|]. intros q x Hq. apply Wa. rewrite <- table_page_ext by exact Hn. exact Hq.
Qed.

(** The slots of a save area: aligned words inside the window, apart. *)
Definition slots (n : Z) (rs : list (reg * Z)) : Prop :=
  NoDup (map fst rs) /\ NoDup (map snd rs) /\ Forall (fun x => 0 <= snd x /\ snd x + 8 <= n /\ snd x mod 8 = 0) rs.

Definition saved (regs : reg -> Z) (pa : Z) (rs : list (reg * Z)) (m : mem) : mem :=
  fold_left (fun m x => store_le m (pa + snd x) 8 (regs (fst x))) rs m.

Lemma saved_outside regs pa n rs : forall m, Forall (fun x => 0 <= snd x /\ snd x + 8 <= n /\ snd x mod 8 = 0) rs -> agree_outside m (saved regs pa rs m) pa n.
Proof.
  induction rs as [|[r o] rs IH]; intros m Hf x Hx; cbn [saved fold_left fst snd]; [reflexivity|]. apply Forall_cons in Hf as [(H1 & H2 & _) Hf]. simpl in *.
  fold (saved regs pa rs (store_le m (pa + o) 8 (regs r))). rewrite (IH _ Hf x Hx). apply store_le_outside. lia.
Qed.

Lemma saved_other regs pa rs a : forall m, Forall (fun x => a + 8 <= pa + snd x \/ pa + snd x + 8 <= a) rs -> load (saved regs pa rs m) a 8 = load m a 8.
Proof.
  induction rs as [|[r o] rs IH]; intros m Hf; cbn [saved fold_left fst snd]; [reflexivity|]. apply Forall_cons in Hf as [H Hf].
  fold (saved regs pa rs (store_le m (pa + o) 8 (regs r))). rewrite IH by exact Hf. simpl in *. apply load_store_le_ne. lia.
Qed.

Lemma saved_slot regs pa n rs : (forall r, 0 <= regs r < 2 ^ 64) -> forall m, slots n rs -> forall r o, (r, o) ∈ rs -> load (saved regs pa rs m) (pa + o) 8 = regs r.
Proof.
  intros Hr. induction rs as [|[r0 o0] rs IH]; intros m (Hn & Hd & Hf) r o Hin; [inversion Hin|]. cbn [saved fold_left fst snd].
  fold (saved regs pa rs (store_le m (pa + o0) 8 (regs r0))). cbn [map fst snd] in *. apply NoDup_cons in Hn as [Hn0 Hn], Hd as [Hd0 Hd]. apply Forall_cons in Hf as [Hf0 Hf]. simpl in Hf0.
  apply elem_of_cons in Hin as [E|Hin]; [|apply (IH _ ltac:(repeat split; assumption) r o Hin)]. injection E as -> ->.
  rewrite saved_other; [apply load_store8, Hr|]. rewrite Forall_forall in Hf |- *. intros [r1 o1] H1. simpl. specialize (Hf _ H1). simpl in Hf.
  assert (o1 <> o0) by (intros ->; apply Hd0; apply list_elem_of_fmap; exists (r1, o0); auto). dlia.
Qed.

Lemma saves_run at_va code link satp va pa n rs base : forall h, h_satp h = satp -> window at_va code satp va pa n (h_mem h) -> h_regs h base = va ->
  0 <= va < MAXVA -> va mod 8 = 0 -> va + n <= MAXVA -> Forall (fun x => 0 <= snd x /\ snd x + 8 <= n /\ snd x mod 8 = 0) rs ->
  run at_va code link (map (save base) rs) h = Some (set_mem (saved (h_regs h) pa rs (h_mem h)) h).
Proof.
  induction rs as [|[r o] rs IH]; intros h Hs Hw Hb Hva Hal Hend Hf; cbn [map run saved fold_left]; [destruct h; reflexivity|].
  apply Forall_cons in Hf as [(H1 & H2 & H3) Hf]. cbn [snd] in *. change MAXVA with (2 ^ 38) in *. unfold save at 1. cbn [fst snd step]. rewrite Hs.
  rewrite decide_True by apply Hw. rewrite Hb, u64_small by lia. replace ((va + o) mod 8 =? 0) with true by dlia.
  rewrite (proj2 (wi_data _ _ _ _ _ _ _ Hw o ltac:(lia))). cbv iota. set (h1 := set_mem (store_le (h_mem h) (pa + o) 8 (h_regs h r)) h).
  rewrite (IH h1); [reflexivity|exact Hs| |exact Hb|lia|exact Hal|lia|exact Hf].
  apply (window_kept _ _ _ _ _ _ (h_mem h) _ pa n Hw); [|apply Hw]. intros x Hx. simpl. apply store_le_outside. lia.
Qed.

Definition restored (m : mem) (pa : Z) (rs : list (reg * Z)) (h : hart) : hart :=
  fold_left (fun h x => set_reg (fst x) (load m (pa + snd x) 8) h) rs h.

Lemma restored_rest m pa rs : forall h, h_mem (restored m pa rs h) = h_mem h /\ h_satp (restored m pa rs h) = h_satp h /\
  h_sepc (restored m pa rs h) = h_sepc h /\ h_sscratch (restored m pa rs h) = h_sscratch h.
Proof. induction rs as [|x rs IH]; intros h; [auto|]. apply (IH (set_reg (fst x) (load m (pa + snd x) 8) h)). Qed.

Lemma restored_other m pa rs r : forall h, r ∉ map fst rs -> h_regs (restored m pa rs h) r = h_regs h r.
Proof.
  induction rs as [|[r0 o] rs IH]; intros h Hr; [reflexivity|]. cbn [map fst] in Hr. apply not_elem_of_cons in Hr as [Hne Hr].
  cbn [restored fold_left fst snd]. fold (restored m pa rs (set_reg r0 (load m (pa + o) 8) h)). rewrite IH by exact Hr. simpl. rewrite decide_False by exact Hne. reflexivity.
Qed.

Lemma restored_slot m pa rs : forall h, NoDup (map fst rs) -> forall r o, (r, o) ∈ rs -> h_regs (restored m pa rs h) r = load m (pa + o) 8.
Proof.
  induction rs as [|[r0 o0] rs IH]; intros h Hn r o Hin; [inversion Hin|]. cbn [map fst] in Hn. apply NoDup_cons in Hn as [Hn0 Hn].
  cbn [restored fold_left fst snd]. fold (restored m pa rs (set_reg r0 (load m (pa + o0) 8) h)).
  apply elem_of_cons in Hin as [E|Hin]; [|apply IH; assumption]. injection E as -> ->. rewrite restored_other by exact Hn0. simpl. rewrite decide_True; reflexivity.
Qed.

Lemma restores_run at_va code link satp va pa n rs base m : forall h, h_satp h = satp -> h_mem h = m -> window at_va code satp va pa n m -> h_regs h base = va ->
  0 <= va < MAXVA -> va mod 8 = 0 -> va + n <= MAXVA -> base ∉ map fst rs -> Forall (fun x => 0 <= snd x /\ snd x + 8 <= n /\ snd x mod 8 = 0) rs ->
  run at_va code link (map (restore base) rs) h = Some (restored m pa rs h).
Proof.
  induction rs as [|[r o] rs IH]; intros h Hs Em Hw Hb Hva Hal Hend Hn Hf; cbn [map run restored fold_left fst snd]; [reflexivity|].
  apply Forall_cons in Hf as [(H1 & H2 & H3) Hf]. cbn [map fst snd] in *. apply not_elem_of_cons in Hn as [Hne Hn]. change MAXVA with (2 ^ 38) in *.
  unfold restore at 1. cbn [fst snd step]. rewrite Hs, Em. rewrite decide_True by apply Hw. rewrite Hb, u64_small by lia. replace ((va + o) mod 8 =? 0) with true by dlia.
  rewrite (proj1 (wi_data _ _ _ _ _ _ _ Hw o ltac:(lia))). cbv iota. apply IH; auto; try lia. simpl. rewrite decide_False by exact Hne. exact Hb.
Qed.

(** Code in parts. *)
Lemma run_app at_va code link p1 p2 : forall h, run at_va code link (p1 ++ p2) h = match run at_va code link p1 h with Some h' => run at_va code link p2 h' | None => None end.
Proof.
  induction p1 as [|i p1 IH]; intros h; cbn [app run]; [reflexivity|]. destruct (decide _); [|reflexivity]. destruct (step link i h); [apply IH|reflexivity].
Qed.

Lemma run_one at_va code link i p h h' : translate (h_mem h) (h_satp h) at_va PTE_X = Some code -> step link i h = Some h' ->
  run at_va code link (i :: p) h = run at_va code link p h'.
Proof. intros H E. cbn [run]. rewrite decide_True by exact H. rewrite E. reflexivity. Qed.

Lemma saved_elsewhere regs pa rs x : forall m, Forall (fun s => ~ pa + snd s <= x < pa + snd s + 8) rs -> saved regs pa rs m x = m x.
Proof.
  induction rs as [|[r o] rs IH]; intros m Hf; [reflexivity|]. apply Forall_cons in Hf as [H Hf]. cbn [saved fold_left fst snd] in *.
  fold (saved regs pa rs (store_le m (pa + o) 8 (regs r))). rewrite IH by exact Hf. apply store_le_outside. lia.
Qed.

(** ** User space and back *)

Definition in_range (lo hi : Z) (x : reg * Z) : Prop := lo <= snd x /\ snd x + 8 <= hi /\ snd x mod 8 = 0.

Lemma trapframe_slots : slots 4096 trapframe_regs /\ Forall (in_range 40 288) trapframe_regs /\ (A0 ∉ map fst trapframe_regs) /\ Forall (fun x => snd x <> 112) trapframe_regs /\
  forall r, r = A0 \/ exists o, (r, o) ∈ trapframe_regs.
Proof.
  split; [|split; [|split; [|split]]].
  - split; [|split]; apply (bool_decide_unpack _); vm_compute; exact I.
  - unfold in_range. apply (bool_decide_unpack _). vm_compute. exact I.
  - apply (bool_decide_unpack _). vm_compute. exact I.
  - apply (bool_decide_unpack _). vm_compute. exact I.
  - intros r. assert (H : r = A0 \/ r ∈ map fst trapframe_regs) by (destruct r; first [left; reflexivity|right; apply (bool_decide_unpack _); vm_compute; exact I]).
    destruct H as [H|H]; [auto|right]. apply list_elem_of_fmap in H as ([r' o] & -> & H). exists o. exact H.
Qed.

Section Traps.
Context (trampoline tf link : Z).

#[local] Abbreviation exec := (run TRAMPOLINE trampoline link).

(** Into the kernel: the user's registers are in the trapframe, and the stack,
    the hart number, the page table and the handler are those it names. *)
Lemma uservec_run h : window TRAMPOLINE trampoline (h_satp h) TRAPFRAME tf 4096 (h_mem h) -> (forall r, 0 <= h_regs h r < 2 ^ 64) ->
  (forall m', agree_outside (h_mem h) m' tf 4096 -> translate m' (load (h_mem h) tf 8) TRAMPOLINE PTE_X = Some trampoline) ->
  exists h1, exec uservec h = Some h1 /\ h_satp h1 = load (h_mem h) tf 8 /\ h_sepc h1 = h_sepc h /\ h_pc h1 = load (h_mem h) (tf + 16) 8 /\
    h_regs h1 SP = load (h_mem h) (tf + 8) 8 /\ h_regs h1 TP = load (h_mem h) (tf + 32) 8 /\ h_regs h1 RA = link /\
    (forall r o, (r, o) ∈ (A0, 112) :: trapframe_regs -> load (h_mem h1) (tf + o) 8 = h_regs h r) /\
    agree_outside (h_mem h) (h_mem h1) (tf + 40) 248.
Proof using Type.
  intros Hw Hr Hks. destruct trapframe_slots as ((Sn & Sd' & Sf) & Sr & Sa & S112 & _). pose proof TRAPFRAME_eq as ET. pose proof MAXVA_eq as EM.
  assert (Hal : TRAPFRAME mod 8 = 0) by reflexivity. set (us := h_satp h) in *. set (m := h_mem h) in *.
  unfold uservec. rewrite run_app. erewrite run_one; [|apply Hw|reflexivity]. erewrite run_one; [|apply Hw|reflexivity]. cbn [run].
  set (h2 := set_reg A0 TRAPFRAME _). rewrite run_app.
  rewrite (saves_run _ _ _ us TRAPFRAME tf 4096 trapframe_regs A0 h2) by (first [reflexivity|exact Hw|exact Sf|lia|reflexivity]).
  assert (Hreg2 : forall r, r <> A0 -> h_regs h2 r = h_regs h r) by (intros r Hne; simpl; rewrite decide_False by exact Hne; reflexivity).
  set (m3 := saved (h_regs h2) tf trapframe_regs (h_mem h2)).
  assert (A3 : agree_outside m m3 tf 4096) by (apply saved_outside; exact Sf).
  assert (Hw3 : window TRAMPOLINE trampoline us TRAPFRAME tf 4096 m3) by (apply (window_kept _ _ _ _ _ _ m m3 tf 4096 Hw A3); apply Hw).
  erewrite run_one; [|apply Hw3|reflexivity].
  change ([Sd T0 112 A0; Ld SP 8 A0; Ld TP 32 A0; Ld T0 16 A0; Ld T1 0 A0; Sfence; Csrw Satp T1; Sfence; Jalr T0])
    with (map (save A0) [(T0, 112)] ++ map (restore A0) [(SP, 8); (TP, 32); (T0, 16); (T1, 0)] ++ [Sfence; Csrw Satp T1; Sfence; Jalr T0]).
  set (h4 := set_reg T0 _ _). rewrite run_app.
  rewrite (saves_run _ _ _ us TRAPFRAME tf 4096 [(T0, 112)] A0 h4) by (first [reflexivity|exact Hw3|lia|repeat constructor; simpl; lia]).
  set (m5 := saved (h_regs h4) tf [(T0, 112)] (h_mem h4)). set (h5 := set_mem m5 h4).
  assert (E5 : m5 = store_le m3 (tf + 112) 8 (h_regs h A0)) by reflexivity.
  assert (A5 : agree_outside m m5 tf 4096) by (intros x Hx; rewrite E5, store_le_outside by lia; apply A3, Hx).
  assert (Hw5 : window TRAMPOLINE trampoline us TRAPFRAME tf 4096 m5) by (apply (window_kept _ _ _ _ _ _ m m5 tf 4096 Hw A5); apply Hw).
  rewrite run_app.
  rewrite (restores_run _ _ _ us TRAPFRAME tf 4096 [(SP, 8); (TP, 32); (T0, 16); (T1, 0)] A0 m5 h5)
    by (first [reflexivity|exact Hw5|lia|apply (bool_decide_unpack _); vm_compute; exact I]).
  assert (Hlow : forall o, 0 <= o -> o + 8 <= 40 -> load m5 (tf + o) 8 = load m (tf + o) 8).
  { intros o Ho1 Ho2. rewrite E5, load_store_le_ne by lia. apply saved_other. eapply Forall_impl; [exact Sr|]. intros [r o'] (H1 & H2 & _). simpl in *. lia. }
  set (h6 := restored m5 tf _ h5). assert (H6 : h_mem h6 = m5 /\ h_satp h6 = us /\ h_sepc h6 = h_sepc h /\ h_regs h6 SP = load m (tf + 8) 8 /\
    h_regs h6 TP = load m (tf + 32) 8 /\ h_regs h6 T0 = load m (tf + 16) 8 /\ h_regs h6 T1 = load m tf 8).
  { assert (H0 : load m tf 8 = load m (tf + 0) 8) by (rewrite Z.add_0_r; reflexivity). rewrite H0. split_and!; try reflexivity; rewrite <- Hlow by lia; reflexivity. }
  destruct H6 as (M6 & U6 & P6 & R1 & R2 & R3 & R4). generalize dependent h6. intros h6 M6 U6 P6 R1 R2 R3 R4.
  erewrite run_one; [|rewrite M6, U6; apply Hw5|reflexivity]. erewrite run_one; [|rewrite M6, U6; apply Hw5|reflexivity]. rewrite R4.
  assert (Hk5 : translate m5 (load m tf 8) TRAMPOLINE PTE_X = Some trampoline) by (apply Hks, A5).
  erewrite run_one; [|simpl; rewrite M6; exact Hk5|reflexivity]. erewrite run_one; [|simpl; rewrite M6; exact Hk5|reflexivity]. cbn [run].
  eexists. split; [reflexivity|]. simpl. rewrite M6, R1, R2, R3. split_and!; auto.
  - intros r o Hin. rewrite E5. apply elem_of_cons in Hin as [E|Hin]; [injection E as -> ->; apply load_store8, Hr|].
    assert (Hne : r <> A0) by (intros ->; apply Sa, list_elem_of_fmap; exists (A0, o); auto).
    rewrite Forall_forall in S112, Sr. pose proof (S112 _ Hin) as N. destruct (Sr _ Hin) as (_ & _ & Hm8). simpl in N, Hm8.
    rewrite load_store_le_ne by dlia. rewrite <- Hreg2 by exact Hne. apply (saved_slot _ _ 4096); [|split; [exact Sn|split; [exact Sd'|exact Sf]]|exact Hin].
    intros r'. simpl. destruct (decide (r' = A0)); [lia|apply Hr].
  - intros x Hx. rewrite E5, store_le_outside by lia. apply saved_elsewhere. eapply Forall_impl; [exact Sr|]. intros [r o'] (H1 & H2 & _). simpl in *. lia.
Qed.

(** Back to the user: the registers are those of the trapframe. *)
Lemma userret_run h : translate (h_mem h) (h_satp h) TRAMPOLINE PTE_X = Some trampoline ->
  window TRAMPOLINE trampoline (h_regs h A0) TRAPFRAME tf 4096 (h_mem h) ->
  exists h', exec userret h = Some h' /\ h_satp h' = h_regs h A0 /\ h_pc h' = h_sepc h /\ h_mem h' = h_mem h /\
    forall r o, (r, o) ∈ (A0, 112) :: trapframe_regs -> h_regs h' r = load (h_mem h) (tf + o) 8.
Proof using Type.
  intros Hc Hw. destruct trapframe_slots as ((Sn & Sd' & Sf) & Sr & Sa & S112 & _). pose proof TRAPFRAME_eq as ET. pose proof MAXVA_eq as EM.
  assert (Hal : TRAPFRAME mod 8 = 0) by reflexivity. set (us := h_regs h A0) in *. set (m := h_mem h) in *.
  unfold userret. rewrite run_app. erewrite run_one; [|exact Hc|reflexivity]. erewrite run_one; [|exact Hc|reflexivity].
  do 2 (erewrite run_one; [|apply Hw|reflexivity]). cbn [run]. set (h2 := set_reg A0 TRAPFRAME _). rewrite run_app.
  rewrite (restores_run _ _ _ us TRAPFRAME tf 4096 trapframe_regs A0 m h2) by (first [reflexivity|exact Hw|exact Sf|exact Sa|lia|reflexivity]).
  set (h3 := restored m tf trapframe_regs h2). destruct (restored_rest m tf trapframe_regs h2) as (M3 & U3 & P3 & _). fold h3 in M3, U3, P3.
  assert (B3 : h_regs h3 A0 = TRAPFRAME) by (unfold h3; rewrite restored_other by exact Sa; reflexivity).
  assert (R3 : forall r o, (r, o) ∈ trapframe_regs -> h_regs h3 r = load m (tf + o) 8) by (apply restored_slot, Sn).
  clearbody h3.
  erewrite run_one; [|rewrite M3, U3; apply Hw|cbn [step]; rewrite B3, M3, U3, u64_small by lia; replace ((TRAPFRAME + 112) mod 8 =? 0) with true by reflexivity;
    change (h_mem h2) with m; change (h_satp h2) with us; rewrite (proj1 (wi_data _ _ _ _ _ _ _ Hw 112 ltac:(lia))); reflexivity].
  erewrite run_one; [|simpl; rewrite M3, U3; apply Hw|reflexivity]. cbn [run]. eexists. split; [reflexivity|]. simpl. rewrite M3, U3, P3. split_and!; auto.
  intros r o Hin. apply elem_of_cons in Hin as [E|Hin]; [injection E as -> ->; rewrite decide_True by reflexivity; reflexivity|].
  rewrite decide_False; [apply R3, Hin|]. intros ->. apply Sa, list_elem_of_fmap. exists (A0, o). auto.
Qed.
End Traps.

(** *** The page tables *)

Lemma satp_root_MAKE root : root mod 4096 = 0 -> 0 <= root < 2 ^ 56 -> satp_root (MAKE_SATP root) = root.
Proof.
  intros Hal Hr. unfold satp_root, MAKE_SATP. rewrite <- Z.land_ones, Z.land_lor_distr_l, Z.shiftr_div_pow2 by lia.
  change (Z.land SATP_SV39 (Z.ones 44)) with 0. rewrite Z.lor_0_l, Z.land_ones by lia. rewrite Z.mod_small by (change (2 ^ 12) with 4096; dlia). change (2 ^ 12) with 4096. dlia.
Qed.

Lemma root_ok top root s l : as_wf top root s l -> satp_root (MAKE_SATP root) = root.
Proof.
  intros Ha. destruct (wf_page _ _ _ _ (as_pt _ _ _ _ Ha) [] root) as [[H1 H2] _]; [split; [simpl; lia|constructor]|reflexivity|].
  pose proof (kinv_end _ _ (as_inv _ _ _ _ Ha)). unfold PGSIZE, PHYSTOP, KERNBASE in *. apply satp_root_MAKE; lia.
Qed.

(** A mapped page as the supervisor sees it. *)
Lemma translate_leaf m root va p perm bit o : satp_root (MAKE_SATP root) = root -> 0 <= va -> va mod 4096 = 0 -> va + 4096 <= MAXVA -> 0 <= o < 4096 -> p mod 4096 = 0 -> 0 <= p < 2 ^ 56 ->
  0 <= perm < 1024 -> pt_map m root va = Some (leaf p perm) -> flag perm PTE_U = false -> 0 <= bit < 1024 -> Z.land 1 bit = 0 -> flag perm bit = true ->
  translate m (MAKE_SATP root) (va + o) bit = Some (p + o).
Proof.
  intros Hroot Hva Hal Hend Ho Hp Hp' Hperm Hm Hu Hb Hb' Hf. unfold translate. replace (_ && _) with true by lia. rewrite Hroot, (pt_map_page _ _ (va + o) va) by dlia. rewrite Hm.
  rewrite !flag_leaf by (first [assumption|closed]). rewrite Hu, Hf. cbn [andb negb]. rewrite PTE2PA_leaf by assumption. do 2 f_equal. dlia.
Qed.

Lemma user_window trampoline tf root sz k l : user_space trampoline tf root sz k l -> trampoline mod 4096 = 0 -> 0 <= trampoline < 2 ^ 56 ->
  page_ok (kend k) tf -> ~ table_page (phys k) root tf -> window TRAMPOLINE trampoline (MAKE_SATP root) TRAPFRAME tf 4096 (phys k).
Proof.
  intros Hs Ht Ht' Hok Hnt. pose proof (us_as _ _ _ _ _ _ Hs) as Ha. pose proof (root_ok _ _ _ _ Ha) as Hr. pose proof TRAPFRAME_eq. pose proof TRAMPOLINE_eq. pose proof MAXVA_eq.
  assert (Htf : tf mod 4096 = 0 /\ 0 <= tf < 2 ^ 56) by (destruct Hok; pose proof (kinv_end _ _ (as_inv _ _ _ _ Ha)); unfold PGSIZE, PHYSTOP, KERNBASE in *; lia).
  split.
  - rewrite <- (Z.add_0_r TRAMPOLINE) at 1. rewrite <- (Z.add_0_r trampoline). apply (translate_leaf _ _ _ _ (Z.lor PTE_R PTE_X)); [exact Hr|lia|reflexivity|lia|lia|exact Ht|exact Ht'|closed|apply Hs|reflexivity|closed|reflexivity|reflexivity].
  - intros o Ho. split; (apply (translate_leaf _ _ _ _ (Z.lor PTE_R PTE_W)); [exact Hr|lia|reflexivity|lia|exact Ho|apply Htf|apply Htf|closed|apply Hs|reflexivity|closed|reflexivity|reflexivity]).
  - rewrite Hr. intros q x (path & Hsp & Hq) Hx. destruct (wf_page _ _ _ _ (as_pt _ _ _ _ Ha) _ _ Hsp Hq) as [Hqok _].
    assert (Hne : q <> tf) by (intros ->; apply Hnt; exists path; auto). pose proof (page_ok_ne (kend k) q tf Hqok Hok Hne x Hx) as H'. unfold in_page, PGSIZE in H'. lia.
Qed.

(** The page table with root [kroot] maps the trampoline and is not at [tf]. *)
Definition kernel_table (trampoline tf kroot : Z) (k : kst) : Prop :=
  satp_root (MAKE_SATP kroot) = kroot /\ pt_map (phys k) kroot TRAMPOLINE = Some (leaf trampoline (Z.lor PTE_R PTE_X)) /\
  forall q x, table_page (phys k) kroot q -> in_page q x -> ~ in_page tf x.

Lemma kernel_fetch trampoline tf kroot k m' : trampoline mod 4096 = 0 -> 0 <= trampoline < 2 ^ 56 -> kernel_table trampoline tf kroot k ->
  agree_outside (phys k) m' tf 4096 -> translate m' (MAKE_SATP kroot) TRAMPOLINE PTE_X = Some trampoline.
Proof.
  intros Ht Ht' (Hr & Hm & Hap) Hag. pose proof TRAMPOLINE_eq. pose proof MAXVA_eq. destruct (tables_ext (phys k) m' kroot) as [_ Hp].
  { intros q x Hq Hx. apply Hag. intros Hx'. apply (Hap q x Hq Hx). unfold in_page, PGSIZE. lia. }
  rewrite <- (Z.add_0_r TRAMPOLINE) at 1. rewrite <- (Z.add_0_r trampoline). apply (translate_leaf _ _ _ _ (Z.lor PTE_R PTE_X)); [exact Hr|lia|reflexivity|lia|lia|exact Ht|exact Ht'|closed|rewrite Hp; exact Hm|reflexivity|closed|reflexivity|reflexivity].
Qed.

(** C23. A trap does not lose the user's registers.  [uservec] runs in the
    user's page table without a fault, leaves the user's registers in the
    trapframe and arrives in [usertrap] with the kernel's page table, stack and
    hart number that the trapframe names.  Whatever the kernel does then, as long
    as it leaves the saved registers in the trapframe, [userret] runs without a
    fault on the page table it is given and the user has all its registers
    back, with the trapframe's word for [a0] in [a0], at the address in [sepc]. *)
Theorem trap_keeps_registers trampoline tf link root kroot sz k l h :
  trampoline mod 4096 = 0 -> 0 <= trampoline < 2 ^ 56 -> user_space trampoline tf root sz k l -> page_ok (kend k) tf -> ~ table_page (phys k) root tf ->
  kernel_table trampoline tf kroot k -> load (phys k) tf 8 = MAKE_SATP kroot ->
  h_mem h = phys k -> h_satp h = MAKE_SATP root -> (forall r, 0 <= h_regs h r < 2 ^ 64) ->
  exists h1, run TRAMPOLINE trampoline link uservec h = Some h1 /\ h_satp h1 = MAKE_SATP kroot /\ h_pc h1 = load (phys k) (tf + 16) 8 /\
    h_regs h1 SP = load (phys k) (tf + 8) 8 /\ h_regs h1 TP = load (phys k) (tf + 32) 8 /\ h_regs h1 RA = link /\
    load (h_mem h1) (tf + 112) 8 = h_regs h A0 /\ agree_outside (phys k) (h_mem h1) (tf + 40) 248 /\
    forall root2 sz2 k2 l2 h2, user_space trampoline tf root2 sz2 k2 l2 -> page_ok (kend k2) tf -> ~ table_page (phys k2) root2 tf ->
      h_mem h2 = phys k2 -> translate (phys k2) (h_satp h2) TRAMPOLINE PTE_X = Some trampoline -> h_regs h2 A0 = MAKE_SATP root2 ->
      (forall r o, (r, o) ∈ trapframe_regs -> load (phys k2) (tf + o) 8 = load (h_mem h1) (tf + o) 8) ->
      exists h3, run TRAMPOLINE trampoline link userret h2 = Some h3 /\ h_satp h3 = MAKE_SATP root2 /\ h_pc h3 = h_sepc h2 /\ h_mem h3 = phys k2 /\
        h_regs h3 A0 = load (phys k2) (tf + 112) 8 /\ forall r, r <> A0 -> h_regs h3 r = h_regs h r.
Proof.
  intros Ht Ht' Hs Hok Hnt Hk Hks Em Es Hr. pose proof (user_window _ _ _ _ _ _ Hs Ht Ht' Hok Hnt) as Hw.
  destruct (uservec_run trampoline tf link h) as (h1 & R1 & U1 & _ & C1 & P1 & T1' & A1' & Hsaved & Hag); rewrite ?Em, ?Es in *; auto.
  { intros m' Hag. rewrite Hks. apply (kernel_fetch trampoline tf kroot k m' Ht Ht' Hk Hag). }
  exists h1. split_and!; auto; [congruence|apply (Hsaved A0 112); left|].
  intros root2 sz2 k2 l2 h2 Hs2 Hok2 Hnt2 Em2 Hf2 Ea2 Hkeep. pose proof (user_window _ _ _ _ _ _ Hs2 Ht Ht' Hok2 Hnt2) as Hw2.
  destruct (userret_run trampoline tf link h2) as (h3 & R3 & U3 & C3 & M3 & H3); rewrite ?Em2, ?Ea2; auto.
  exists h3. rewrite Em2, Ea2 in *. split_and!; auto; [apply H3; left|]. intros r Hne. destruct trapframe_slots as (_ & _ & _ & _ & Hall).
  destruct (Hall r) as [|[o Ho]]; [contradiction|]. rewrite (H3 r o) by (right; exact Ho). rewrite (Hkeep r o Ho). apply Hsaved. right. exact Ho.
Qed.

(** ** Switching contexts *)

Section Switch.
Context (at_va code link satp : Z).

Lemma context_slots : slots 112 context_regs /\ (A0 ∉ map fst context_regs) /\ (A1 ∉ map fst context_regs).
Proof using Type. split; [split; [|split]|split]; apply (bool_decide_unpack _); vm_compute; exact I. Qed.

(** A context that code at [at_va] can read and write. *)
Definition context_at (va pa : Z) (m : mem) : Prop := window at_va code satp va pa 112 m /\ 0 <= va /\ va mod 8 = 0 /\ va + 112 <= MAXVA.

Lemma swtch_run h old po new pn : h_satp h = satp -> h_regs h A0 = old -> h_regs h A1 = new -> context_at old po (h_mem h) -> context_at new pn (h_mem h) ->
  (forall x, po <= x < po + 112 -> ~ pn <= x < pn + 112) -> (forall r, 0 <= h_regs h r < 2 ^ 64) ->
  exists h1, run at_va code link swtch h = Some h1 /\ h_satp h1 = satp /\ h_pc h1 = load (h_mem h) pn 8 /\
    (forall r o, (r, o) ∈ context_regs -> h_regs h1 r = load (h_mem h) (pn + o) 8) /\
    (forall r, r ∉ map fst context_regs -> h_regs h1 r = h_regs h r) /\
    (forall r o, (r, o) ∈ context_regs -> load (h_mem h1) (po + o) 8 = h_regs h r) /\ agree_outside (h_mem h) (h_mem h1) po 112.
Proof using Type.
  intros Hs Ho Hn [Wo (O1 & O2 & O3)] [Wn (N1 & N2 & N3)] Hd Hr. destruct context_slots as (Sl & S0' & S1'). pose proof Sl as (Sn & _ & Sf). change MAXVA with (2 ^ 38) in *.
  unfold swtch. rewrite run_app. rewrite (saves_run _ _ _ satp old po 112 context_regs A0 h) by (first [assumption|change MAXVA with (2 ^ 38); lia]).
  set (m1 := saved (h_regs h) po context_regs (h_mem h)). set (h1 := set_mem m1 h).
  assert (Ha : agree_outside (h_mem h) m1 po 112) by (apply saved_outside, Sf).
  assert (Wn1 : window at_va code satp new pn 112 m1) by (apply (window_kept _ _ _ _ _ _ (h_mem h) _ po 112 Wn Ha); apply Wo).
  assert (Hl : forall o, 0 <= o -> o + 8 <= 112 -> load m1 (pn + o) 8 = load (h_mem h) (pn + o) 8).
  { intros o Ho1 Ho2. apply load_ext. intros x Hx. apply Ha. intros Hx'. apply (Hd x Hx'). lia. }
  rewrite run_app, (restores_run _ _ _ satp new pn 112 context_regs A1 m1 h1) by (first [assumption|reflexivity|change MAXVA with (2 ^ 38); lia]).
  set (h2 := restored m1 pn context_regs h1). destruct (restored_rest m1 pn context_regs h1) as (M2 & U2 & _). fold h2 in M2, U2.
  assert (R2 : forall r o, (r, o) ∈ context_regs -> h_regs h2 r = load (h_mem h) (pn + o) 8).
  { intros r o Hin. unfold h2. rewrite (restored_slot m1 pn context_regs h1 Sn r o Hin). rewrite Forall_forall in Sf. destruct (Sf _ Hin) as (F1 & F2 & _). simpl in F1, F2. apply Hl; lia. }
  assert (Q2 : forall r, r ∉ map fst context_regs -> h_regs h2 r = h_regs h r) by (intros r Hnr; unfold h2; rewrite restored_other by exact Hnr; reflexivity).
  change (h_satp h1) with (h_satp h) in U2. rewrite Hs in U2. change (h_mem h1) with m1 in M2. clearbody h2.
  erewrite run_one; [|rewrite M2, U2; apply Wn1|reflexivity]. cbn [run].
  eexists. split; [reflexivity|]. cbn [set_pc h_satp h_pc h_regs h_mem]. rewrite U2, M2. split_and!; auto.
  - rewrite (R2 RA 0) by left. f_equal. lia.
  - intros r o Hin. apply (saved_slot _ _ 112); auto.
Qed.
End Switch.

(** A thread that calls [swtch] goes on where it was: when another call of
    [swtch] switches to the context it left, the stack pointer and all
    callee-saved registers are as they were and the call returns to its caller. *)
Lemma swtch_resumes at_va code link link' satp h old po new pn h2 other po' :
  h_satp h = satp -> h_regs h A0 = old -> h_regs h A1 = new -> context_at at_va code satp old po (h_mem h) -> context_at at_va code satp new pn (h_mem h) ->
  (forall x, po <= x < po + 112 -> ~ pn <= x < pn + 112) -> (forall r, 0 <= h_regs h r < 2 ^ 64) ->
  h_satp h2 = satp -> h_regs h2 A0 = other -> h_regs h2 A1 = old -> context_at at_va code satp other po' (h_mem h2) -> context_at at_va code satp old po (h_mem h2) ->
  (forall x, po' <= x < po' + 112 -> ~ po <= x < po + 112) -> (forall r, 0 <= h_regs h2 r < 2 ^ 64) ->
  exists h1, run at_va code link swtch h = Some h1 /\ h_pc h1 = load (h_mem h) pn 8 /\ h_regs h1 SP = load (h_mem h) (pn + 8) 8 /\ agree_outside (h_mem h) (h_mem h1) po 112 /\
    ((forall x, po <= x < po + 112 -> h_mem h2 x = h_mem h1 x) ->
     exists h3, run at_va code link' swtch h2 = Some h3 /\ h_pc h3 = h_regs h RA /\
       forall r, r ∈ [RA; SP; S0; S1; S2; S3; S4; S5; S6; S7; S8; S9; S10; S11] -> h_regs h3 r = h_regs h r).
Proof.
  intros Hs E1 E2 C1 C2 Hd Hr Hs' E1' E2' C1' C2' Hd' Hr'.
  destruct (swtch_run at_va code link satp h old po new pn Hs E1 E2 C1 C2 Hd Hr) as (h1 & R1 & _ & P1 & L1 & _ & S1' & A1'). exists h1. split; [exact R1|]. split; [exact P1|].
  split; [apply (L1 SP 8); right; left|]. split; [exact A1'|]. intros Hsame.
  destruct (swtch_run at_va code link' satp h2 other po' old po Hs' E1' E2' C1' C2' Hd' Hr') as (h3 & R3 & _ & P3 & L3 & _).
  assert (Hl : forall r o, (r, o) ∈ context_regs -> load (h_mem h2) (po + o) 8 = h_regs h r).
  { intros r o Hin. rewrite <- (S1' r o Hin). apply load_ext. intros x Hx. apply Hsame. destruct context_slots as ((_ & _ & Sf) & _). rewrite Forall_forall in Sf. destruct (Sf _ Hin) as (F1 & F2 & _). simpl in *. lia. }
  exists h3. split; [exact R3|]. split; [rewrite P3, <- (Hl RA 0) by left; f_equal; lia|].
  intros r Hin. change [RA; SP; S0; S1; S2; S3; S4; S5; S6; S7; S8; S9; S10; S11] with (map fst context_regs) in Hin.
  apply list_elem_of_fmap in Hin as ([r' o] & -> & Hin). cbn [fst]. rewrite (L3 _ _ Hin). apply Hl, Hin.
Qed.

(** ** Traps in the kernel *)

Lemma kernel_slots : slots 256 kernel_saved /\ (SP ∉ map fst kernel_restored) /\ NoDup (map fst kernel_restored) /\ Forall (fun x => x ∈ kernel_saved) kernel_restored /\
  forall r, r ∈ [SP; TP; S0; S1; S2; S3; S4; S5; S6; S7; S8; S9; S10; S11] \/ exists o, (r, o) ∈ kernel_restored.
Proof.
  split; [split; [|split]; apply (bool_decide_unpack _); vm_compute; exact I|]. do 3 (split; [apply (bool_decide_unpack _); vm_compute; exact I|]).
  intros r. assert (H : r ∈ [SP; TP; S0; S1; S2; S3; S4; S5; S6; S7; S8; S9; S10; S11] \/ r ∈ map fst kernel_restored)
    by (destruct r; first [left; apply (bool_decide_unpack _); vm_compute; exact I|right; apply (bool_decide_unpack _); vm_compute; exact I]).
  destruct H as [H|H]; [auto|right]. apply list_elem_of_fmap in H as ([r' o] & -> & H). exists o. exact H.
Qed.

(** Interrupted kernel code goes on with all its registers, but for [tp], if
    [kerneltrap] keeps the registers a C function keeps and the frame on the
    stack. *)
Lemma kernelvec_keeps_registers at_va code link satp h sp pa : h_satp h = satp -> h_regs h SP = sp -> 256 <= sp -> sp <= MAXVA -> sp mod 8 = 0 ->
  window at_va code satp (sp - 256) pa 256 (h_mem h) -> (forall r, 0 <= h_regs h r < 2 ^ 64) ->
  exists h1, run at_va code link kernelvec_enter h = Some h1 /\ h_satp h1 = satp /\ h_regs h1 SP = sp - 256 /\ agree_outside (h_mem h) (h_mem h1) pa 256 /\
    forall h2, h_satp h2 = satp -> window at_va code satp (sp - 256) pa 256 (h_mem h2) ->
      (forall r, r ∈ [SP; S0; S1; S2; S3; S4; S5; S6; S7; S8; S9; S10; S11] -> h_regs h2 r = h_regs h1 r) ->
      (forall x, pa <= x < pa + 256 -> h_mem h2 x = h_mem h1 x) ->
      exists h3, run at_va code link kernelvec_leave h2 = Some h3 /\ h_pc h3 = h_sepc h2 /\ h_mem h3 = h_mem h2 /\ h_regs h3 TP = h_regs h2 TP /\
        forall r, r <> TP -> h_regs h3 r = h_regs h r.
Proof.
  intros Hs Hsp H256 Htop Hal Hw Hr. destruct kernel_slots as (Sl & Snr & Sn & Ssub & Hall). pose proof Sl as (_ & _ & Sf). change MAXVA with (2 ^ 38) in *.
  assert (Sfr : Forall (fun x => 0 <= snd x /\ snd x + 8 <= 256 /\ snd x mod 8 = 0) kernel_restored) by (apply (bool_decide_unpack _); vm_compute; exact I).
  unfold kernelvec_enter. erewrite run_one; [|rewrite Hs; apply Hw|reflexivity]. rewrite Hsp. change (sp + -256) with (sp - 256). rewrite u64_small by lia. set (h0 := set_reg SP (sp - 256) h).
  rewrite (saves_run _ _ _ satp (sp - 256) pa 256 kernel_saved SP h0) by (first [assumption|reflexivity|change MAXVA with (2 ^ 38); lia|dlia]).
  eexists. split; [reflexivity|]. set (m1 := saved (h_regs h0) pa kernel_saved (h_mem h0)). split; [exact Hs|]. split; [reflexivity|].
  split; [apply saved_outside, Sf|]. intros h2 Hs2 Hw2 Hkeep Hframe. cbn [h_mem set_mem] in Hframe.
  unfold kernelvec_leave. rewrite run_app.
  rewrite (restores_run _ _ _ satp (sp - 256) pa 256 kernel_restored SP (h_mem h2) h2)
    by (first [assumption|reflexivity|change MAXVA with (2 ^ 38); lia|dlia|rewrite Hkeep by left; reflexivity]).
  set (h3 := restored (h_mem h2) pa kernel_restored h2). destruct (restored_rest (h_mem h2) pa kernel_restored h2) as (M3 & U3 & P3 & _). fold h3 in M3, U3, P3.
  assert (Q3 : forall r, r ∉ map fst kernel_restored -> h_regs h3 r = h_regs h2 r) by (intros r Hnr; unfold h3; apply restored_other, Hnr).
  assert (R3 : forall r o, (r, o) ∈ kernel_restored -> h_regs h3 r = load (h_mem h2) (pa + o) 8) by (apply restored_slot, Sn). clearbody h3.
  assert (E3 : h_regs h3 SP = sp - 256) by (rewrite Q3 by exact Snr; rewrite Hkeep by left; reflexivity).
  erewrite run_one; [|rewrite M3, U3, Hs2; apply Hw2|reflexivity]. erewrite run_one; [|cbn [set_reg h_mem h_satp]; rewrite M3, U3, Hs2; apply Hw2|reflexivity]. cbn [run].
  eexists. split; [reflexivity|]. cbn [set_pc set_reg h_pc h_sepc h_mem h_regs]. rewrite M3, P3. split; [reflexivity|]. split; [reflexivity|].
  split; [rewrite decide_False by discriminate; apply Q3, (bool_decide_unpack _); vm_compute; exact I|].
  intros r Hne. destruct (decide (r = SP)) as [->|Hsp']; [rewrite E3, u64_small, Hsp by lia; lia|]. destruct (Hall r) as [Hin|[o Ho]].
  - rewrite Q3; [rewrite Hkeep; [simpl; rewrite decide_False by exact Hsp'; reflexivity|]|].
    + apply elem_of_cons in Hin as [->|Hin]; [contradiction|]. apply elem_of_cons in Hin as [->|Hin]; [contradiction|]. right. exact Hin.
    + repeat (apply elem_of_cons in Hin as [->|Hin]; [first [contradiction|apply (bool_decide_unpack _); vm_compute; exact I]|]). inversion Hin.
  - rewrite (R3 r o Ho). rewrite Forall_forall in Ssub, Sfr. destruct (Sfr _ Ho) as (F1 & F2 & _). simpl in F1, F2.
    rewrite (load_ext _ _ m1) by (intros x Hx; apply Hframe; lia).
    assert (Hb0 : forall r', 0 <= h_regs h0 r' < 2 ^ 64) by (intros r'; simpl; destruct (decide (r' = SP)); [lia|apply Hr]).
    unfold m1. rewrite (saved_slot (h_regs h0) pa 256 kernel_saved Hb0 _ Sl r o (Ssub _ Ho)). simpl. rewrite decide_False by exact Hsp'. reflexivity.
Qed.

(** *** An example *)

Lemma run_byte_mem at_va code link p : forall h h', run at_va code link p h = Some h' -> byte_mem (h_mem h) -> byte_mem (h_mem h').
Proof.
  induction p as [|i p IH]; intros h h' E Hb; cbn [run] in E; [injection E as <-; exact Hb|]. destruct (decide _); [|discriminate].
  destruct (step link i h) as [h1|] eqn:Es; [|discriminate]. apply (IH h1 h' E).
  destruct i as [| | | |[]|? []| | | |]; cbn [step] in Es; repeat case_match; simplify_eq; try exact Hb. apply store_le_byte_mem, Hb.
Qed.

(** Writing to the trapframe leaves the address space alone. *)
Lemma user_space_trapframe trampoline tf root sz k l m' : user_space trampoline tf root sz k l -> page_ok (kend k) tf -> tf ∉ l -> ~ owns TRAPFRAME root k tf ->
  byte_mem m' -> agree_outside (phys k) m' tf 4096 -> user_space trampoline tf root sz (set_phys m' k) l /\ ~ table_page m' root tf.
Proof.
  intros Hs Hok Hl Ho Hb Hag. pose proof (us_as _ _ _ _ _ _ Hs) as Ha.
  assert (Hpg : forall q x, page_ok (kend k) q -> q <> tf -> in_page q x -> m' x = phys k x).
  { intros q x Hq Hne Hx. apply Hag. pose proof (page_ok_ne (kend k) q tf Hq Hok Hne x Hx) as H'. unfold in_page, PGSIZE in H'. lia. }
  assert (Hk : kinv (set_phys m' k) l).
  { apply kinv_write; [apply Ha|exact Hb|]. intros q x Hq Hx. apply (Hpg q); auto; [|intros ->; auto].
    pose proof (kinv_pages _ _ (as_inv _ _ _ _ Ha)) as Hf. rewrite Forall_forall in Hf. auto. }
  destruct (space_frame TRAPFRAME root k l (set_phys m' k) l Ha Hk eq_refl) as [Ha' Hu].
  { intros q Hq. apply (owns_ok _ _ _ _ _ Ha Hq). } { intros q x Hq. apply Hpg; [apply (owns_ok _ _ _ _ _ Ha Hq)|intros ->; auto]. }
  split; [apply (user_space_unchanged _ _ _ _ k l); auto|]. intros Ht. apply Ho. apply (unchanged_owns _ _ _ _ _ Hu). left. exact Ht.
Qed.

(** A process with an empty address space, whose page table is the kernel's
    too, traps and returns. *)
Definition ex_tf : Z := KERNBASE + 4096.
Definition ex_regs (r : reg) : Z := match r with A0 => 7 | S0 => 8 | _ => 9 end.

Lemma trap_keeps_registers_witness : exists k h h1 h3, h_regs h = ex_regs /\ h_mem h = phys k /\ run TRAMPOLINE ex_tf 0 uservec h = Some h1 /\
  load (h_mem h1) (ex_tf + 112) 8 = 7 /\
  run TRAMPOLINE ex_tf 0 userret (set_reg A0 (MAKE_SATP ex_p1) h1) = Some h3 /\ h_regs h3 A0 = 7 /\ h_regs h3 S0 = 8.
Proof.
  destruct ex_table as [s Es]. destruct (proc_pagetable_run ex_tf ex_tf eq_refl ltac:(closed) eq_refl ltac:(closed) ex_state _ ex_kinv) as (r & s' & l & E & Hk & [Fe _] & Hr).
  unfold ex_tf in E. rewrite Es in E. injection E as <- <-. destruct Hr as [[? _]|(_ & Hs & Hmine & _)]; [discriminate|]. fold ex_tf in Hs.
  assert (Hok : page_ok (kend s) ex_tf) by (rewrite Fe; split; vm_compute; intuition congruence).
  assert (Hnl : ~ mine TRAPFRAME ex_p1 s l ex_tf) by (rewrite Hmine; apply (bool_decide_unpack _); vm_compute; exact I).
  assert (Hl : ex_tf ∉ l) by (intros H; apply Hnl; left; exact H). assert (Ho : ~ owns TRAPFRAME ex_p1 s ex_tf) by (intros H; apply Hnl, mine_owns; auto).
  set (k := set_phys (store_le (phys s) ex_tf 8 (MAKE_SATP ex_p1)) s).
  destruct (user_space_trapframe ex_tf ex_tf ex_p1 0 s l (phys k) Hs Hok Hl Ho) as [Hs1 Hn1]; [apply store_le_byte_mem, Hk|intros x Hx; apply store_le_outside; lia|].
  change (set_phys (phys k) s) with k in Hs1. pose proof (user_window _ _ _ _ _ _ Hs1 eq_refl ltac:(closed) Hok Hn1) as Hw. pose proof (root_ok _ _ _ _ (us_as _ _ _ _ _ _ Hs1)) as Hroot.
  assert (Hkt : kernel_table ex_tf ex_tf ex_p1 k).
  { split; [exact Hroot|]. split; [apply Hs1|]. intros q x Hq Hx. pose proof (wi_apart _ _ _ _ _ _ _ Hw q x) as Hap. rewrite Hroot in Hap. unfold in_page, PGSIZE. intros Hx'. apply (Hap Hq Hx). lia. }
  set (h := Hart ex_regs (phys k) (MAKE_SATP ex_p1) 0 0 0).
  destruct (trap_keeps_registers ex_tf ex_tf 0 ex_p1 ex_p1 0 k l h eq_refl ltac:(closed) Hs1 Hok Hn1 Hkt) as (h1 & R1 & U1 & _ & _ & _ & _ & A1' & Hag & Hback);
    [apply load_store8; closed|reflexivity|reflexivity|intros r; destruct r; simpl; lia|].
  assert (Hb1 : byte_mem (h_mem h1)) by (eapply run_byte_mem; [exact R1|]; apply store_le_byte_mem, Hk).
  destruct (user_space_trapframe ex_tf ex_tf ex_p1 0 k l (h_mem h1) Hs1 Hok Hl) as [Hs2 Hn2]; [|exact Hb1|intros x Hx; apply Hag; lia|].
  { intros Ho1. apply Ho. destruct Ho1 as [Ho1|(va & v & Hva & Hv & E)]; [contradiction|]. destruct (as_page _ _ _ _ (us_as _ _ _ _ _ _ Hs1) va v Hva Hv) as (_ & _ & H).
    exfalso. destruct Hs1 as [_ _ _ _ _ Hu]. rewrite (Hu va) in Hv; [discriminate|]. exact Hva. }
  pose proof (user_window _ _ _ _ _ _ Hs2 eq_refl ltac:(closed) Hok Hn2) as Hw2.
  destruct (Hback ex_p1 0 (set_phys (h_mem h1) k) l (set_reg A0 (MAKE_SATP ex_p1) h1) Hs2 Hok Hn2 eq_refl) as (h3 & R3 & _ & _ & _ & A3 & H3).
  { simpl. rewrite U1. apply Hw2. } { reflexivity. } { intros; reflexivity. }
  exists k, h, h1, h3. split; [reflexivity|]. split; [reflexivity|]. split; [exact R1|]. split; [exact A1'|]. split; [exact R3|]. split; [rewrite A3; exact A1'|]. apply (H3 S0). discriminate.
Defined.
