(* ===== verification/Exec.v ===== *)
(** * Loading programs

    [kernel/exec.c] and [kernel/elf.h].  The state has the memory of the machine
    and the fields of the process that [kexec] changes; the file system is
    behind [ExecFs].  A header read into a local variable is the list of its
    bytes; [ustack] is the address of the local array of argument addresses.
    The arguments are kernel addresses of strings, the list ending where the
    array has a null pointer. *)

From S2P Require Import Prelude CString Riscv Spinlock Kalloc Vm Proc.

Definition MAXARG : Z := 32.
Definition USERSTACK : Z := 1.
Definition ELF_MAGIC : Z := 0x464C457F.
Definition ELF_PROG_LOAD : Z := 1.
Definition NOINODE : Z := -1.

(** ** ELF headers *)

(** The [n]-byte number at offset [o]. *)
Definition field (bs : list Z) (o : Z) (n : nat) : Z := load (fun x => default 0 (bs !! Z.to_nat x)) o n.

Record elfhdr : Type := Elfhdr {
  e_magic : Z;
  e_elf : list Z;
  e_type : Z;
  e_machine : Z;
  e_version : Z;
  e_entry : Z;
  e_phoff : Z;
  e_shoff : Z;
  e_flags : Z;
  e_ehsize : Z;
  e_phentsize : Z;
  e_phnum : Z;
  e_shentsize : Z;
  e_shnum : Z;
  e_shstrndx : Z
}.

Definition ELFHDR : Z := 64.
Definition get_elfhdr (bs : list Z) : elfhdr :=
  Elfhdr (field bs 0 4) (take 12 (drop 4 bs)) (field bs 16 2) (field bs 18 2) (field bs 20 4)
    (field bs 24 8) (field bs 32 8) (field bs 40 8) (field bs 48 4) (field bs 52 2) (field bs 54 2)
    (field bs 56 2) (field bs 58 2) (field bs 60 2) (field bs 62 2).

Record proghdr : Type := Proghdr {
  ph_type : Z;
  ph_flags : Z;
  ph_off : Z;
  ph_vaddr : Z;
  ph_paddr : Z;
  ph_filesz : Z;
  ph_memsz : Z;
  ph_align : Z
}.

Definition PROGHDR : Z := 56.
Definition get_proghdr (bs : list Z) : proghdr :=
  Proghdr (field bs 0 4) (field bs 4 4) (field bs 8 8) (field bs 16 8) (field bs 24 8)
    (field bs 32 8) (field bs 40 8) (field bs 48 8).

Definition flags2perm (flags : Z) : Z :=
  let perm := 0 in
  let perm := if flag flags 1 then PTE_X else perm in
  if flag flags 2 then Z.lor perm PTE_W else perm.

(** ** The file system as [kexec] uses it *)

Class ExecFs (X : Type) : Type := {
  x_begin_op : M (kst * X) unit;
  x_end_op : M (kst * X) unit;
  x_namei : list Z -> M (kst * X) Z;                      (* NOINODE: 0 *)
  x_ilock : Z -> M (kst * X) unit;
  x_iunlockput : Z -> M (kst * X) unit;
  x_read_local : Z -> Z -> Z -> M (kst * X) (Z * list Z);  (* readi(ip, 0, &x, off, n) *)
  x_readi : Z -> Z -> Z -> Z -> M (kst * X) Z              (* readi(ip, 0, dst, off, n) *)
}.

Record xst (X : Type) : Type := Xst {
  x_mem : kst;
  x_env : X;
  x_sz : Z;            (* p->sz *)
  x_pgtbl : Z;         (* p->pagetable *)
  x_tf : Z;            (* p->trapframe *)
  x_name : list Z      (* p->name *)
}.
Arguments Xst {X}.
Arguments x_mem {X}.
Arguments x_env {X}.
Arguments x_sz {X}.
Arguments x_pgtbl {X}.
Arguments x_tf {X}.
Arguments x_name {X}.

Section Exec.
Context {X : Type} `{XF : ExecFs X} (trampoline ustack : Z).

Definition xmem_of : lens (xst X) kst :=
  Lens x_mem (fun k s => Xst k (x_env s) (x_sz s) (x_pgtbl s) (x_tf s) (x_name s)).
Definition xenv_of : lens (xst X) (kst * X) :=
  Lens (fun s => (x_mem s, x_env s)) (fun x s => Xst x.1 x.2 (x_sz s) (x_pgtbl s) (x_tf s) (x_name s)).
Definition set_name (n : list Z) (s : xst X) : xst X := Xst (x_mem s) (x_env s) (x_sz s) (x_pgtbl s) (x_tf s) n.
Definition set_image (pagetable sz : Z) (s : xst X) : xst X := Xst (x_mem s) (x_env s) sz pagetable (x_tf s) (x_name s).

(** [i] and [n] of the source are [uint]s. *)
Fixpoint loadseg_loop (fuel : nat) (pagetable va ip offset sz i : Z) : M (xst X) Z :=
  match fuel with
  | O => nofuel
  | S f =>
      if i <? sz then
        let! pa := zoom xmem_of (walkaddr pagetable (u64 (va + i))) in
        if pa =? 0 then panic "loadseg: address should exist"
        else
          let n := if sz - i <? PGSIZE then sz - i else PGSIZE in
          let! r := zoom xenv_of (x_readi ip pa (u32 (offset + i)) n) in
          if negb (r =? n) then ret (-1)
          else loadseg_loop f pagetable va ip offset sz (u32 (i + PGSIZE))
      else ret 0
  end.

Definition loadseg (pagetable va ip offset sz : Z) : M (xst X) Z :=
  loadseg_loop (Z.to_nat (sz / PGSIZE + 2)) pagetable va ip offset sz 0.

(** One round of the loop over the program headers; [false] is [goto bad]. *)
Definition load_ph (pagetable ip sz off : Z) : M (xst X) (bool * Z) :=
  let! (r, bs) := zoom xenv_of (x_read_local ip (u32 off) PROGHDR) in
  if negb (r =? PROGHDR) then ret (false, sz) else
  let ph := get_proghdr bs in
  if negb (ph_type ph =? ELF_PROG_LOAD) then ret (true, sz) else
  if ph_memsz ph <? ph_filesz ph then ret (false, sz) else
  if u64 (ph_vaddr ph + ph_memsz ph) <? ph_vaddr ph then ret (false, sz) else
  if negb (ph_vaddr ph mod PGSIZE =? 0) then ret (false, sz) else
  let! sz1 := zoom xmem_of (uvmalloc pagetable sz (u64 (ph_vaddr ph + ph_memsz ph)) (flags2perm (ph_flags ph))) in
  if sz1 =? 0 then ret (false, sz) else
  let! r := loadseg pagetable (ph_vaddr ph) ip (u32 (ph_off ph)) (u32 (ph_filesz ph)) in
  if r <? 0 then ret (false, sz1) else ret (true, sz1).

Fixpoint load_phs (n : nat) (pagetable ip sz off : Z) : M (xst X) (bool * Z) :=
  match n with
  | O => ret (true, sz)
  | S n =>
      let! (ok, sz) := load_ph pagetable ip sz off in
      if ok : bool then load_phs n pagetable ip sz (i32 (off + PROGHDR)) else ret (false, sz)
  end.

Definition bad (pagetable sz ip : Z) : M (xst X) Z :=
  when (negb (pagetable =? 0)) (zoom xmem_of (proc_freepagetable pagetable sz)) ;;
  when (negb (ip =? NOINODE)) (zoom xenv_of (x_iunlockput ip ;; x_end_op)) ;;
  ret (-1).

(** The length of a string of the kernel, which ends within a page. *)
Definition kstrlen (a : Z) : M (xst X) Z :=
  let! r := gets (fun s => strlen (Z.to_nat PGSIZE) (phys (x_mem s)) a) in
  match r with Some n => ret n | None => nofuel end.

Definition push_down (sp n : Z) : Z := let sp := u64 (sp - n) in sp - sp mod 16.

(** The loop over the arguments; [None] is [goto bad]. *)
Fixpoint push_args (argv : list Z) (pagetable stackbase argc sp : Z) : M (xst X) (option (Z * Z)) :=
  match argv with
  | [] => ret (Some (argc, sp))
  | a :: argv =>
      if MAXARG <=? argc then ret None else
      let! n := kstrlen a in
      let sp := push_down sp (n + 1) in
      if sp <? stackbase then ret None else
      let! p := gets (fun s => Uproc (x_sz s) (x_pgtbl s)) in
      let! r := zoom xmem_of (copyout p pagetable sp a (n + 1)) in
      if r <? 0 then ret None else
      zoom xmem_of (st64 (ustack + 8 * argc) sp) ;;
      push_args argv pagetable stackbase (argc + 1) sp
  end.

(** What is after the last slash. *)
Fixpoint basename (last s : list Z) : list Z :=
  match s with
  | [] => last
  | c :: s => basename (if c =? 47 then s else last) s
  end.

(** Setting up the stack and entering the image, once the file is closed. *)
Definition exec_stack (path : list Z) (argv : list Z) (entry pagetable sz : Z) : M (xst X) Z :=
  let! oldsz := gets x_sz in
  let sz := PGROUNDUP sz in
  let! sz1 := zoom xmem_of (uvmalloc pagetable sz (u64 (sz + (USERSTACK + 1) * PGSIZE)) PTE_W) in
  if sz1 =? 0 then bad pagetable sz NOINODE else
  let sz := sz1 in
  zoom xmem_of (uvmclear pagetable (u64 (sz - (USERSTACK + 1) * PGSIZE))) ;;
  let sp := sz in
  let stackbase := u64 (sp - USERSTACK * PGSIZE) in
  let! r := push_args argv pagetable stackbase 0 sp in
  match r with
  | None => bad pagetable sz NOINODE
  | Some (argc, sp) =>
      zoom xmem_of (st64 (ustack + 8 * argc) 0) ;;
      let sp := push_down sp ((argc + 1) * 8) in
      if sp <? stackbase then bad pagetable sz NOINODE else
      let! p := gets (fun s => Uproc (x_sz s) (x_pgtbl s)) in
      let! r := zoom xmem_of (copyout p pagetable sp ustack ((argc + 1) * 8)) in
      if r <? 0 then bad pagetable sz NOINODE else
      let! tf := gets x_tf in
      zoom xmem_of (st64 (tf + 120) sp) ;;
      modify (set_name (take 15 (basename path path))) ;;
      let! oldpagetable := gets x_pgtbl in
      modify (set_image pagetable sz) ;;
      zoom xmem_of (st64 (tf + 24) entry) ;;
      zoom xmem_of (st64 (tf + 48) sp) ;;
      zoom xmem_of (proc_freepagetable oldpagetable oldsz) ;;
      ret argc
  end.

Definition kexec (path : list Z) (argv : list Z) : M (xst X) Z :=
  zoom xenv_of x_begin_op ;;
  let! ip := zoom xenv_of (x_namei path) in
  if ip =? NOINODE then zoom xenv_of x_end_op ;; ret (-1) else
  zoom xenv_of (x_ilock ip) ;;
  let! (r, bs) := zoom xenv_of (x_read_local ip 0 ELFHDR) in
  if negb (r =? ELFHDR) then bad 0 0 ip else
  let elf := get_elfhdr bs in
  if negb (e_magic elf =? ELF_MAGIC) then bad 0 0 ip else
  let! tf := gets x_tf in
  let! pagetable := zoom xmem_of (proc_pagetable trampoline tf) in
  if pagetable =? 0 then bad 0 0 ip else
  let! (ok, sz) := load_phs (Z.to_nat (e_phnum elf)) pagetable ip 0 (i32 (e_phoff elf)) in
  if negb ok then bad pagetable sz ip else
  zoom xenv_of (x_iunlockput ip) ;;
  zoom xenv_of x_end_op ;;
  exec_stack path argv (e_entry elf) pagetable sz.
End Exec.
