(* ===== verification/ExecSpec.v ===== *)
(** * What exec does

    [kexec] builds the new address space next to the old one, out of free
    pages, and either gives all of them back or replaces the old one.  The
    image is described by the program headers of the file ([loads]) and the
    arguments. *)

From S2P Require Import Prelude CString Riscv Spinlock Kalloc Vm Proc Exec PageTable AddressSpace CopyUser Spaces ProcMem.

(** ** How many pages there are *)

Definition NPAGES : Z := PHYSTOP / 4096.

Lemma pages_length e l : NoDup l -> 0 < e -> Forall (page_ok e) l -> Z.of_nat (length l) <= NPAGES.
Proof.
  intros Hn He Hf. assert (Hsub : l ⊆+ (fun i => i * 4096) <$> seqZ 0 NPAGES).
  { apply NoDup_submseteq; [exact Hn|]. intros p Hp. rewrite Forall_forall in Hf. destruct (Hf p Hp) as [H1 H2].
    apply list_elem_of_fmap. exists (p / 4096). unfold NPAGES, PHYSTOP, PGSIZE, KERNBASE in *. split; [dlia|]. apply elem_of_seqZ. dlia. }
  apply submseteq_length in Hsub. rewrite length_fmap, length_seqZ in Hsub. unfold NPAGES in *. change (PHYSTOP / 4096) with 557056 in *. lia.
Qed.

(** Pages that are all mapped have page frames of their own. *)
Lemma mapped_bound top root s l n : as_wf top root s l -> 0 <= n -> n * 4096 <= top ->
  (forall va, 0 <= va < n * 4096 -> pt_map (phys s) root va <> None) -> n <= NPAGES.
Proof.
  intros Ha Hn Htop Hall. set (f i := match pt_map (phys s) root (i * 4096) with Some v => PTE2PA v | None => 0 end).
  assert (Hf : forall i, 0 <= i < n -> exists v, pt_map (phys s) root (i * 4096) = Some v /\ f i = PTE2PA v).
  { intros i Hi. unfold f. destruct (pt_map (phys s) root (i * 4096)) as [v|] eqn:E; [eauto|]. exfalso. apply (Hall (i * 4096)); [lia|exact E]. }
  assert (Hl : Z.of_nat (length (f <$> seqZ 0 n)) <= NPAGES).
  { apply (pages_length (kend s)); [|apply Ha|].
    - apply NoDup_fmap_2_strong; [|apply NoDup_seqZ]. intros i j Hi Hj E. apply elem_of_seqZ in Hi, Hj.
      destruct (Hf i ltac:(lia)) as (v & Hv & Ev). destruct (Hf j ltac:(lia)) as (w & Hw & Ew).
      assert (Ed : i * 4096 / 4096 = j * 4096 / 4096) by (apply (as_inj _ _ _ _ Ha _ _ v w); first [lia|assumption|congruence]).
      rewrite !Z.div_mul in Ed by lia. exact Ed.
    - apply Forall_forall. intros q Hq. apply list_elem_of_fmap in Hq as (i & -> & Hi). apply elem_of_seqZ in Hi.
      destruct (Hf i ltac:(lia)) as (v & Hv & ->). apply (as_page _ _ _ _ Ha (i * 4096) v); [lia|exact Hv]. }
  rewrite length_fmap, length_seqZ in Hl. lia.
Qed.

Lemma flag_lor a b bit : flag a bit = true -> flag (Z.lor a b) bit = true.
Proof.
  unfold flag. rewrite !negb_true_iff, !Z.eqb_neq, Z.land_lor_distr_l. intros H E. apply H. apply Z.lor_eq_0_iff in E. apply E.
Qed.

Lemma leaf_user p xperm : 0 <= xperm < 1024 -> flag (leaf p (Z.lor (Z.lor PTE_R PTE_U) xperm)) PTE_U = true.
Proof.
  intros Hx. rewrite flag_leaf by (first [apply (lor_bound 10); [lia|closed|exact Hx]|closed|reflexivity]). apply flag_lor. reflexivity.
Qed.

(** ** The new address space *)

Lemma PGROUNDUP_range sz : 0 <= sz <= TRAPFRAME -> sz <= PGROUNDUP sz < sz + 4096 /\ PGROUNDUP sz mod 4096 = 0 /\ PGROUNDUP sz <= TRAPFRAME.
Proof. intros H. pose proof TRAPFRAME_eq. rewrite PGROUNDUP_eq by lia. dlia. Qed.

Section Image.
Context (trampoline tf pt : Z) (k0 : kst) (l0 : list Z) (scratch : Z -> Prop) (access : Z -> Z -> Prop).

(** Nothing but free pages and the kernel's own variables were written. *)
Definition exec_frame (k : kst) : Prop :=
  kend k = kend k0 /\ forall x, (forall q, q ∈ l0 -> ~ in_page q x) -> ~ scratch x -> phys k x = phys k0 x.

(** The address space under construction: [sz] bytes, with contents [c] and
    entries that grant what [access] says. *)
Record image (sz : Z) (c : Z -> Z) (k : kst) (l : list Z) : Prop := {
  im_space : user_space trampoline tf pt sz k l;
  im_mine : forall q, mine TRAPFRAME pt k l q <-> q ∈ l0;
  im_frame : exec_frame k;
  im_user : forall va, 0 <= va < PGROUNDUP sz -> exists v, pt_map (phys k) pt va = Some v /\ access va v;
  im_bytes : forall va, 0 <= va < PGROUNDUP sz -> umem (phys k) pt va = Some (c va)
}.

Lemma image_step sz c k l sz' c' k' l' : image sz c k l -> isolated TRAPFRAME pt k l k' l' -> as_wf TRAPFRAME pt k' l' ->
  0 <= sz' <= TRAPFRAME -> (forall va, PGROUNDUP sz' <= va < TRAPFRAME -> pt_map (phys k') pt va = None) ->
  (forall va, 0 <= va < PGROUNDUP sz' -> exists v, pt_map (phys k') pt va = Some v /\ access va v) ->
  (forall va, 0 <= va < PGROUNDUP sz' -> umem (phys k') pt va = Some (c' va)) -> image sz' c' k' l'.
Proof.
  intros [[Sa Sp St Sf Ss Su] Im [Fe Ff] Iu Ib] Hi Ha Hsz Hnone Huser Hbytes. pose proof TRAPFRAME_eq as ET. pose proof TRAMPOLINE_eq as ER. pose proof MAXVA_eq as EM.
  split; auto.
  - split; auto; [apply (iso_plain _ _ _ _ _ _ Hi), Sp|rewrite (iso_above _ _ _ _ _ _ Hi) by lia; exact St|rewrite (iso_above _ _ _ _ _ _ Hi) by lia; exact Sf].
  - intros q. rewrite <- Im. split; [apply Hi|apply (iso_kept _ _ _ _ _ _ Hi)].
  - split; [rewrite (iso_end _ _ _ _ _ _ Hi); exact Fe|]. intros x Hx Hs. rewrite (iso_frame _ _ _ _ _ _ Hi), Ff; auto. intros q Hq. apply Hx, Im, Hq.
Qed.

Lemma image_bound sz c k l : image sz c k l -> PGROUNDUP sz <= 4096 * NPAGES /\ Z.of_nat (length l) <= NPAGES.
Proof.
  intros H. destruct (PGROUNDUP_range sz (us_size _ _ _ _ _ _ (im_space _ _ _ _ H))) as (H1 & H2 & H3). pose proof (us_as _ _ _ _ _ _ (im_space _ _ _ _ H)) as Ha.
  pose proof (us_size _ _ _ _ _ _ (im_space _ _ _ _ H)).
  split; [|apply (pages_length (kend k)); apply (as_inv _ _ _ _ Ha)].
  assert (Hn : PGROUNDUP sz / 4096 <= NPAGES); [|dlia]. apply (mapped_bound TRAPFRAME pt k l _ Ha); [dlia|dlia|].
  intros va Hva E. destruct (im_user _ _ _ _ H va ltac:(dlia)) as (v & Hv & _). congruence.
Qed.

(** The contents with zeroed pages after [sz]. *)
Definition grown (sz : Z) (c : Z -> Z) (va : Z) : Z := if va <? PGROUNDUP sz then c va else 0.

Lemma image_same sz c k l k' l' : image sz c k l -> isolated TRAPFRAME pt k l k' l' -> as_wf TRAPFRAME pt k' l' ->
  (forall va, 0 <= va < TRAPFRAME -> pt_map (phys k') pt va = pt_map (phys k) pt va /\ umem (phys k') pt va = umem (phys k) pt va) ->
  image sz c k' l'.
Proof.
  intros H Hi Ha Hm. pose proof (im_space _ _ _ _ H) as Hs. pose proof (us_size _ _ _ _ _ _ Hs) as Hsz. destruct (PGROUNDUP_range sz Hsz) as (R1 & R2 & R3).
  apply (image_step sz c k l); auto; intros va Hva; destruct (Hm va ltac:(lia)) as [E1 E2]; rewrite ?E1, ?E2; apply H || apply Hs; exact Hva.
Qed.

Lemma image_alloc sz c k l newsz xperm : image sz c k l -> 0 <= newsz < 2 ^ 64 -> 0 <= xperm < 1024 ->
  (forall va p, PGROUNDUP sz <= va -> access va (leaf p (Z.lor (Z.lor PTE_R PTE_U) xperm))) ->
  exists r k' l', uvmalloc pt sz newsz xperm k = Ret r k' /\
    (r = 0 /\ image sz c k' l' \/
     r <> 0 /\ r = Z.max sz newsz /\ image r (grown sz c) k' l' /\
       forall va, PGROUNDUP sz <= va < PGROUNDUP r -> exists p, pt_map (phys k') pt va = Some (leaf p (Z.lor (Z.lor PTE_R PTE_U) xperm))).
Proof.
  intros H Hn Hx Hacc. pose proof TRAPFRAME_eq as ET. pose proof MAXVA_eq as EM. pose proof (im_space _ _ _ _ H) as Hs. pose proof (us_size _ _ _ _ _ _ Hs) as Hsz.
  pose proof (us_as _ _ _ _ _ _ Hs) as Ha. destruct (PGROUNDUP_range sz Hsz) as (R1 & R2 & R3).
  destruct (Z.ltb_spec newsz sz) as [Hlt|Hge].
  { exists sz, k, l. unfold uvmalloc. replace (newsz <? sz) with true by lia. split; [reflexivity|]. right. split; [lia|]. split; [lia|].
    split; [|intros va Hva; lia]. apply (image_step sz c k l); auto using isolated_refl; try apply H.
    intros va Hva. unfold grown. replace (va <? _) with true by lia. apply H, Hva. }
  destruct (Z.leb_spec newsz TRAPFRAME) as [Htop|Htop].
  - destruct (PGROUNDUP_range newsz ltac:(lia)) as (N1 & N2 & N3). assert (N4 : PGROUNDUP sz <= PGROUNDUP newsz) by dlia.
    destruct (uvmalloc_run TRAPFRAME pt sz newsz xperm k l Ha) as (r & k' & l' & E & Ha' & Hi & Hr); auto; try lia; [intros va Hva; apply Hs; lia|].
    exists r, k', l'. split; [exact E|]. destruct (Z.eqb_spec r 0) as [->|Hr0]; [left|right]; split; auto.
    + apply (image_same sz c k l); auto. intros va Hva. destruct Hr as [[<- Hr]|[_ Hr]]; [|apply Hr, Hva].
      specialize (Hr va Hva). replace (_ && _) with false in Hr by dlia. exact Hr.
    + destruct Hr as [[-> Hr]|[? _]]; [|contradiction]. split; [lia|]. split.
      * apply (image_step sz c k l); auto; try lia.
        -- intros va Hva. specialize (Hr va ltac:(lia)). replace (_ && _) with false in Hr by lia. destruct Hr as [-> _]. apply Hs. lia.
        -- intros va Hva. specialize (Hr va ltac:(lia)). destruct ((_ <=? va) && _) eqn:Eb.
           ++ destruct Hr as [[p Hp] _]. exists (leaf p (Z.lor (Z.lor PTE_R PTE_U) xperm)). split; [exact Hp|]. apply Hacc. lia.
           ++ destruct Hr as [-> _]. apply H. lia.
        -- intros va Hva. specialize (Hr va ltac:(lia)). unfold grown. destruct ((_ <=? va) && _) eqn:Eb.
           ++ replace (va <? _) with false by lia. apply Hr.
           ++ replace (va <? _) with true by lia. destruct Hr as [_ ->]. apply H. lia.
      * intros va Hva. specialize (Hr va ltac:(lia)). replace (_ && _) with true in Hr by lia. apply Hr.
  - destruct (image_bound sz c k l H) as [B1 B2]. unfold NPAGES, PHYSTOP, KERNBASE in *.
    destruct (uvmalloc_beyond TRAPFRAME pt sz newsz xperm k l Ha) as (k' & l' & E & Ha' & Hi & Hm); auto; try lia; [dlia|apply Hs|].
    exists 0, k', l'. split; [exact E|]. left. split; [reflexivity|]. apply (image_same sz c k l); auto.
Qed.

(** The kernel's variables are in no page of the allocator. *)
Hypothesis Hscr : forall x q, scratch x -> page_ok (kend k0) q -> ~ in_page q x.

Lemma image_scratch sz c k l m' : image sz c k l -> byte_mem m' -> (forall x, ~ scratch x -> m' x = phys k x) ->
  image sz c (set_phys m' k) l.
Proof.
  intros H Hb Hm. destruct H as [Hs Im [Fe Ff] Iu Ib] eqn:Heq. clear Heq. pose proof (us_as _ _ _ _ _ _ Hs) as Ha.
  assert (Hpage : forall q x, page_ok (kend k) q -> in_page q x -> m' x = phys k x).
  { intros q x Hq Hx. apply Hm. intros Hsx. rewrite Fe in Hq. exact (Hscr x q Hsx Hq Hx). }
  assert (Hk : kinv (set_phys m' k) l).
  { apply kinv_write; [apply Ha|exact Hb|]. intros q x Hq Hx. apply (Hpage q); [|exact Hx].
    pose proof (kinv_pages _ _ (as_inv _ _ _ _ Ha)) as Hf. rewrite Forall_forall in Hf. auto. }
  destruct (space_frame TRAPFRAME pt k l (set_phys m' k) l Ha Hk eq_refl) as [Ha' Hu].
  { intros q Hq. apply (owns_ok _ _ _ _ _ Ha Hq). } { intros q x Hq. apply Hpage, (owns_ok _ _ _ _ _ Ha Hq). }
  pose proof TRAPFRAME_eq. destruct (PGROUNDUP_range sz (us_size _ _ _ _ _ _ Hs)) as (R1 & R2 & R3). pose proof (us_size _ _ _ _ _ _ Hs). split.
  - eapply user_space_unchanged; eauto.
  - intros q. rewrite mine_owns, (unchanged_owns _ _ _ _ _ Hu), <- mine_owns. apply Im.
  - split; [exact Fe|]. intros x Hx Hs'. simpl. rewrite Hm, Ff by assumption. reflexivity.
  - intros va Hva. rewrite (uc_map _ _ _ _ Hu). apply Iu, Hva.
  - intros va Hva. rewrite (uc_umem _ _ _ _ Hu) by lia. apply Ib, Hva.
Qed.

(** One page gets new contents [f]. *)
Definition paste (va0 : Z) (f c : Z -> Z) (va : Z) : Z := if va / 4096 =? va0 / 4096 then f (va mod 4096) else c va.

Lemma image_write sz c k l va0 v m' f : image sz c k l -> 0 <= va0 < PGROUNDUP sz -> pt_map (phys k) pt va0 = Some v -> byte_mem m' ->
  (forall x, ~ in_page (PTE2PA v) x -> ~ scratch x -> m' x = phys k x) ->
  (forall i, 0 <= i < 4096 -> m' (PTE2PA v + i) = f i) -> image sz (paste va0 f c) (set_phys m' k) l.
Proof.
  intros H Hva Hv Hb Hm Hf. pose proof (im_space _ _ _ _ H) as Hs. pose proof (us_as _ _ _ _ _ _ Hs) as Ha. pose proof TRAPFRAME_eq as ET.
  destruct (PGROUNDUP_range sz (us_size _ _ _ _ _ _ Hs)) as (R1 & R2 & R3).
  set (m1 := fun x => if (PTE2PA v <=? x) && (x <? PTE2PA v + 4096) then m' x else phys k x).
  destruct (user_write TRAPFRAME pt k l va0 v m1 Ha ltac:(lia) Hv) as (Ha1 & Hi1 & Hm1 & Hu1).
  { intros x. unfold m1. case_test; [apply Hb|]. apply (as_inv _ _ _ _ Ha). }
  { intros x Hx. unfold m1, in_page, PGSIZE in *. replace (_ && _) with false by lia. reflexivity. }
  assert (H1 : image sz (paste va0 f c) (set_phys m1 k) l).
  { apply (image_step sz c k l); auto; [apply Hs|intros va Hva'; simpl; rewrite Hm1; apply Hs, Hva'|intros va Hva'; simpl; rewrite Hm1; apply H, Hva'|].
    intros va Hva'. simpl. unfold paste. destruct (Z.eqb_spec (va / 4096) (va0 / 4096)) as [E|E].
    - unfold umem. rewrite Hm1, (pt_map_page _ _ va va0 E), Hv. unfold m1. replace (_ && _) with true by dlia. rewrite Hf by dlia. reflexivity.
    - rewrite Hu1 by (first [lia|exact E]). apply H, Hva'. }
  change (set_phys m' k) with (set_phys m' (set_phys m1 k)). apply image_scratch; auto.
  intros x Hx. simpl. unfold m1. destruct (_ && _) eqn:E; [reflexivity|]. apply Hm; [unfold in_page, PGSIZE; lia|exact Hx].
Qed.

Lemma image_ext sz c c' k l : image sz c k l -> (forall va, 0 <= va < PGROUNDUP sz -> c va = c' va) -> image sz c' k l.
Proof. intros [] Hc. split; auto. intros va Hva. rewrite <- Hc by exact Hva. auto. Qed.
End Image.

(** ** Taking the user's access away *)

Lemma clear_user v : 0 <= v < 2 ^ 64 -> let w := Z.land v (u64 (Z.lnot PTE_U)) in
  0 <= w < 2 ^ 64 /\ PTE2PA w = PTE2PA v /\ flag w PTE_V = flag v PTE_V /\ flag w PTE_U = false.
Proof.
  intros Hv. assert (E : Z.land v (u64 (Z.lnot PTE_U)) = Z.ldiff v 16).
  { change (u64 (Z.lnot PTE_U)) with (Z.ldiff (Z.ones 64) 16). apply Z.bits_inj'. intros i Hi. rewrite Z.land_spec, !Z.ldiff_spec.
    destruct (Z.ltb_spec i 64) as [Hlt|Hge].
    - rewrite Z.ones_spec_low by lia. reflexivity.
    - rewrite Z.ones_spec_high by lia. rewrite (Z.bits_above_log2 v i) by (first [lia|destruct (Z.eqb_spec v 0) as [->|]; [simpl; lia|apply Z.log2_lt_pow2; [lia|apply Z.lt_le_trans with (2 ^ 64); [lia|apply Z.pow_le_mono_r; lia]]]]).
      reflexivity. }
  rewrite E. cbv zeta. split_and!.
  - apply Z.ldiff_nonneg. lia.
  - rewrite <- E. change (u64 (Z.lnot PTE_U)) with (Z.land (u64 (Z.lnot PTE_U)) (Z.ones 64)). rewrite Z.land_assoc, Z.land_ones by lia. apply Z.mod_pos_bound. lia.
  - unfold PTE2PA. rewrite Z.shiftr_ldiff. change (Z.shiftr 16 10) with 0. rewrite Z.ldiff_0_r. reflexivity.
  - unfold flag. rewrite Z.ldiff_land, <- Z.land_assoc. reflexivity.
  - unfold flag. rewrite Z.ldiff_land, <- Z.land_assoc. change (Z.land (Z.lnot 16) PTE_U) with 0. rewrite Z.land_0_r. reflexivity.
Qed.

Lemma pt_map_word m root va v : byte_mem m -> pt_map m root va = Some v -> 0 <= v < 2 ^ 64.
Proof.
  unfold pt_map. intros Hm Hv. destruct (leaf_slot m root va) as [a|]; [|discriminate]. pose proof (load_bound 8 m a Hm) as Hb.
  destruct (flag (load m a 8) PTE_V); simplify_eq. exact Hb.
Qed.

Lemma uvmclear_run top root s l va v : as_wf top root s l -> top <= MAXVA -> top mod 4096 = 0 -> 0 <= va < top -> pt_map (phys s) root va = Some v ->
  exists s', uvmclear root va s = Ret tt s' /\ as_wf top root s' l /\ isolated top root s l s' l /\
    (forall a, 0 <= a < MAXVA -> pt_map (phys s') root a = if a / 4096 =? va / 4096 then Some (Z.land v (u64 (Z.lnot PTE_U))) else pt_map (phys s) root a) /\
    forall a, 0 <= a < top -> umem (phys s') root a = umem (phys s) root a.
Proof.
  intros Ha Htop Hal Hva Hv. unfold uvmclear. rewrite (bind_ret_l _ _ _ _ _ (walk_lookup s root va ltac:(lia))).
  unfold pt_map in Hv. destruct (leaf_slot (phys s) root va) as [slot|] eqn:Es; [|discriminate]. simpl.
  pose proof (leaf_slot_pos _ _ _ _ _ _ (as_pt _ _ _ _ Ha) Es). destruct (Z.eqb_spec slot 0) as [|_]; [lia|].
  unfold ld64, st64. rewrite bind_gets. destruct (flag (load (phys s) slot 8) PTE_V) eqn:Ef; [|discriminate]. injection Hv as Hv. rewrite Hv in *.
  assert (Gv : 0 <= v < 2 ^ 64) by (rewrite <- Hv; apply (load_bound 8); apply (as_inv _ _ _ _ Ha)).
  destruct (clear_user v Gv) as (Gw & Ew & Vw & _). set (w := Z.land v _) in *. eexists. split; [reflexivity|].
  pose proof (leaf_store_grows root s l va slot w (as_inv _ _ _ _ Ha) (as_pt _ _ _ _ Ha) Es) as Hg.
  assert (Hm : forall a, 0 <= a < MAXVA -> pt_map (store_le (phys s) slot 8 w) root a = if a / 4096 =? va / 4096 then Some w else pt_map (phys s) root a).
  { intros a Ha'. rewrite (pt_map_leaf_store _ _ _ _ _ _ _ _ (as_pt _ _ _ _ Ha) Es) by lia. unfold valid. rewrite Vw, Ef. reflexivity. }
  destruct (as_reflag top root s l _ l Ha Htop Hg) as (H1 & [Ce Cm Cf Cp] & H3).
  { intros a Ha'. simpl. rewrite Hm by lia. destruct (Z.eqb_spec (a / 4096) (va / 4096)) as [E|]; [|reflexivity].
    rewrite (pt_map_page _ _ a va E). unfold pt_map. rewrite Es, Hv, Ef. simpl. f_equal. exact Ew. }
  split; [exact H1|]. split; [|split; [exact Hm|exact H3]]. split; auto; [apply Cm|apply Cm|].
  intros a Ha'. simpl. rewrite Hm by lia. destruct (Z.eqb_spec (a / 4096) (va / 4096)) as [E|]; [|reflexivity]. exfalso. dlia.
Qed.

(** ** The file *)

(** What [kexec] relies on.  [x_look e path] is the contents of the file a path
    names; [x_found e path ip]: in a transaction, [path] has been resolved to
    [ip]; [x_file e ip bs]: [ip] is locked and has contents [bs].  [x_scratch] are the kernel's variables the file
    system writes. *)
Class ExecFsLaws (X : Type) `{XF : ExecFs X} : Type := {
  x_quiet : X -> Prop;
  x_busy : X -> Prop;
  x_look : X -> list Z -> option (list Z);
  x_found : X -> list Z -> Z -> Prop;
  x_file : X -> Z -> list Z -> Prop;
  x_scratch : Z -> Prop;
  x_bytes : forall e ip bs, x_file e ip bs -> Forall (fun b => 0 <= b < 256) bs /\ Z.of_nat (length bs) < 2 ^ 31;
  x_begin_ok : forall k e, x_quiet e -> exists e', x_begin_op (k, e) = Ret tt (k, e') /\ x_busy e' /\ x_look e' = x_look e;
  x_end_ok : forall k e, x_busy e -> exists e', x_end_op (k, e) = Ret tt (k, e') /\ x_quiet e';
  x_namei_ok : forall path k e, x_busy e -> exists ip e', x_namei path (k, e) = Ret ip (k, e') /\
    (ip = NOINODE /\ x_busy e' \/ ip <> NOINODE /\ x_found e' path ip /\ x_look e' = x_look e);
  x_ilock_ok : forall path ip k e, x_found e path ip -> exists e' bs, x_ilock ip (k, e) = Ret tt (k, e') /\ x_file e' ip bs /\ x_look e path = Some bs;
  x_iunlockput_ok : forall ip bs k e, x_file e ip bs -> exists e', x_iunlockput ip (k, e) = Ret tt (k, e') /\ x_busy e';
  x_local_ok : forall ip bs off n k e, x_file e ip bs -> 0 <= off < 2 ^ 32 -> 0 < n < 2 ^ 31 ->
    exists r ys e', x_read_local ip off n (k, e) = Ret (r, ys) (k, e') /\ x_file e' ip bs /\
      (r = n -> off + n <= Z.of_nat (length bs) /\ ys = take (Z.to_nat n) (drop (Z.to_nat off) bs));
  x_readi_ok : forall ip bs pa off n k e, x_file e ip bs -> byte_mem (phys k) -> 0 <= off < 2 ^ 32 -> 0 < n <= PGSIZE -> 0 <= pa -> pa + n <= 2 ^ 64 ->
    (forall x, pa <= x < pa + n -> ~ x_scratch x) ->
    exists r m' e', x_readi ip pa off n (k, e) = Ret r (set_phys m' k, e') /\ x_file e' ip bs /\ byte_mem m' /\
      (forall x, ~ pa <= x < pa + n -> ~ x_scratch x -> m' x = phys k x) /\
      (r = n -> off + n <= Z.of_nat (length bs) /\ forall i, 0 <= i < n -> Some (m' (pa + i)) = bs !! Z.to_nat (off + i))
}.

Section Load.
Context {X : Type} `{XL : ExecFsLaws X} (trampoline tf pt : Z) (k0 : kst) (l0 : list Z) (scratch : Z -> Prop).
Hypothesis Hscr : forall x q, scratch x -> page_ok (kend k0) q -> ~ in_page q x.
Hypothesis Hxs : forall x, x_scratch x -> scratch x.
Context (osz opt : Z) (name : list Z).

#[local] Abbreviation xs k e := (Xst k e osz opt tf name).
#[local] Abbreviation img := (image trampoline tf pt k0 l0 scratch (fun _ v => flag v PTE_U = true)).

Lemma xmem {A} (m : M kst A) k (e : X) a k' : m k = Ret a k' -> zoom xmem_of m (xs k e) = Ret a (xs k' e).
Proof. intros E. apply (zoom_ret xmem_of m (xs k e) a k' E). Qed.
Lemma xenv {A} (m : M (kst * X) A) k e a k' e' : m (k, e) = Ret a (k', e') -> zoom xenv_of m (xs k e) = Ret a (xs k' e').
Proof. intros E. apply (zoom_ret xenv_of m (xs k e) a (k', e') E). Qed.

(** [n] bytes of the file from [off] on, at [va]. *)
Definition overlay (bs : list Z) (off va n : Z) (c : Z -> Z) (x : Z) : Z :=
  if (va <=? x) && (x <? va + n) then default 0 (bs !! Z.to_nat (off + (x - va))) else c x.

(** A page's worth of the file at [va + i]. *)
Lemma overlay_page sz va off n c bs i k l v m' j : 0 <= va -> va mod 4096 = 0 -> va + n <= sz -> 0 <= i < n -> i mod 4096 = 0 ->
  img sz (overlay bs off va i c) k l -> pt_map (phys k) pt (va + i) = Some v ->
  (forall x, ~ PTE2PA v <= x < PTE2PA v + Z.min 4096 (n - i) -> ~ scratch x -> m' x = phys k x) ->
  (forall x, in_page (PTE2PA v) x -> ~ scratch x) ->
  (forall j, 0 <= j < Z.min 4096 (n - i) -> Some (m' (PTE2PA v + j)) = bs !! Z.to_nat (off + i + j)) -> 0 <= j < PGROUNDUP sz ->
  paste (va + i) (fun x => m' (PTE2PA v + x)) (overlay bs off va i c) j = overlay bs off va (Z.min (i + 4096) n) c j.
Proof using Type.
  intros Hva Hal Hfit Hi Hial Him Hv Hm Hns Hb Hj. pose proof (us_size _ _ _ _ _ _ (im_space _ _ _ _ _ _ _ _ _ _ _ Him)) as Hsz.
  unfold paste. destruct (Z.eqb_spec (j / 4096) ((va + i) / 4096)) as [E|E].
  - destruct (Z.ltb_spec (j mod 4096) (Z.min 4096 (n - i))) as [Hlt|Hge].
    + unfold overlay. replace (_ && _) with true by dlia. specialize (Hb (j mod 4096) ltac:(dlia)). replace (off + (j - va)) with (off + i + j mod 4096) by dlia.
      rewrite <- Hb. reflexivity.
    + rewrite Hm by (first [dlia|apply Hns; unfold in_page, PGSIZE; dlia]).
      pose proof (im_bytes _ _ _ _ _ _ _ _ _ _ _ Him j Hj) as Hbj. unfold umem in Hbj. rewrite (pt_map_page _ _ j (va + i) E), Hv in Hbj. injection Hbj as ->.
      unfold overlay. replace (_ && _) with false by dlia. replace (_ && _) with false by dlia. reflexivity.
  - unfold overlay. replace ((va <=? j) && (j <? va + Z.min (i + 4096) n)) with ((va <=? j) && (j <? va + i)) by dlia. reflexivity.
Qed.

Lemma loadseg_loop_run sz va ip bs off n c : 0 <= off < 2 ^ 32 -> 0 <= va -> va mod 4096 = 0 -> va + n <= sz -> 0 <= n < 2 ^ 32 ->
  forall f i k l e, img sz (overlay bs off va (Z.min i n) c) k l -> x_file e ip bs -> 0 <= i -> i mod 4096 = 0 ->
  (i = 0 \/ off + Z.min i n <= Z.of_nat (length bs)) -> (Z.max 0 (n - i) + 4095) / 4096 < Z.of_nat f ->
  exists r k' l' e' c', loadseg_loop f pt va ip off n i (xs k e) = Ret r (xs k' e') /\ x_file e' ip bs /\ img sz c' k' l' /\
    (r = -1 \/ r = 0 /\ (n <> 0 -> off + n <= Z.of_nat (length bs)) /\ c' = overlay bs off va n c).
Proof using All.
  intros Hoff Hva Hal Hfit Hn. pose proof TRAPFRAME_eq as ET. pose proof MAXVA_eq as EM.
  induction f as [|f IH]; intros i k l e Him Hfile Hi Hial Hib Hf; [exfalso; dlia|]. cbn [loadseg_loop].
  destruct (Z.ltb_spec i n) as [Hlt|Hge].
  2:{ exists 0, k, l, e, (overlay bs off va n c). rewrite Z.min_r in Him by lia. split; [reflexivity|]. split; [exact Hfile|]. split; [exact Him|].
      right. split; [reflexivity|]. split; [lia|reflexivity]. }
  rewrite Z.min_l in Him by lia. pose proof (im_space _ _ _ _ _ _ _ _ _ _ _ Him) as Hs. pose proof (us_as _ _ _ _ _ _ Hs) as Ha.
  destruct (PGROUNDUP_range sz (us_size _ _ _ _ _ _ Hs)) as (R1 & R2 & R3). destruct (x_bytes _ _ _ Hfile) as [_ Hlen].
  destruct (im_user _ _ _ _ _ _ _ _ _ _ _ Him (va + i) ltac:(lia)) as (v & Hv & Hu). destruct (as_page _ _ _ _ Ha (va + i) v ltac:(lia) Hv) as (Hok & _).
  pose proof (walkaddr_as TRAPFRAME pt k l (va + i) Ha ltac:(lia)) as Ew. rewrite Hv, Hu in Ew.
  rewrite u64_small by lia. rewrite (bind_ret_l _ _ _ _ _ (xmem _ _ _ _ _ Ew)).
  replace (PTE2PA v =? 0) with false by (destruct Hok; pose proof (kinv_end _ _ (as_inv _ _ _ _ Ha)); lia).
  assert (Hns : forall x, in_page (PTE2PA v) x -> ~ scratch x).
  { intros x Hx Hsx. apply (Hscr x (PTE2PA v) Hsx); [|exact Hx]. rewrite <- (proj1 (im_frame _ _ _ _ _ _ _ _ _ _ _ Him)). exact Hok. }
  replace (if n - i <? PGSIZE then n - i else PGSIZE) with (Z.min 4096 (n - i)) by (unfold PGSIZE; destruct (Z.ltb_spec (n - i) 4096); lia).
  rewrite u32_small by lia. set (nn := Z.min 4096 (n - i)) in *. assert (Hnn : 0 < nn <= 4096) by lia.
  assert (Hpb : 0 <= PTE2PA v /\ PTE2PA v + 4096 <= 2 ^ 64) by (destruct Hok; pose proof (kinv_end _ _ (as_inv _ _ _ _ Ha)); unfold PHYSTOP, KERNBASE, PGSIZE in *; lia).
  destruct (x_readi_ok ip bs (PTE2PA v) (off + i) nn k e Hfile) as (r & m' & e' & Er & Hfile' & Hbm & Hm & Hr); [apply (as_inv _ _ _ _ Ha)|lia|unfold PGSIZE; lia|lia|lia| |].
  { intros x Hx Hsx. apply (Hns x); [unfold in_page, PGSIZE; lia|apply Hxs, Hsx]. }
  rewrite (bind_ret_l _ _ _ _ _ (xenv _ _ _ _ _ _ Er)).
  assert (Hm' : forall x, ~ PTE2PA v <= x < PTE2PA v + nn -> ~ scratch x -> m' x = phys k x) by (intros x Hx Hsx; apply Hm; auto).
  assert (Him' : img sz (paste (va + i) (fun x => m' (PTE2PA v + x)) (overlay bs off va i c)) (set_phys m' k) l).
  { apply (image_write _ _ _ _ _ _ _ Hscr _ _ _ _ _ v); auto; [lia|]. intros x Hx. apply Hm'. unfold in_page, PGSIZE in Hx. lia. }
  destruct (Z.eqb_spec r nn) as [->|Hne]; cbn [negb].
  - destruct (Hr eq_refl) as [Hend Hbytes]. unfold PGSIZE. rewrite u32_small by lia.
    apply (IH (i + 4096) (set_phys m' k) l e'); auto; [|lia|dlia|lia|dlia]. eapply image_ext; [exact Him'|]. intros j Hj. apply (overlay_page sz va off n c bs i k l v m'); auto.
  - eexists (-1), _, l, e', _. split; [reflexivity|]. split; [exact Hfile'|]. split; [exact Him'|]. auto.
Qed.

Lemma loadseg_run sz va ip bs off n c k l e : 0 <= off < 2 ^ 32 -> 0 <= va -> va mod 4096 = 0 -> va + n <= sz -> 0 <= n < 2 ^ 32 ->
  img sz c k l -> x_file e ip bs ->
  exists r k' l' e' c', loadseg pt va ip off n (xs k e) = Ret r (xs k' e') /\ x_file e' ip bs /\ img sz c' k' l' /\
    (r = -1 \/ r = 0 /\ (n <> 0 -> off + n <= Z.of_nat (length bs)) /\ c' = overlay bs off va n c).
Proof using All.
  intros Hoff Hva Hal Hfit Hn Him Hfile. unfold loadseg, PGSIZE. apply loadseg_loop_run with (sz := sz) (l := l); auto; try lia; [|dlia].
  eapply image_ext; [exact Him|]. intros x _. unfold overlay. replace (_ && _) with false by lia. reflexivity.
Qed.

(** ** The segments *)

(** The program header at offset [off]. *)
Definition header (bs : list Z) (off : Z) : proghdr := get_proghdr (take (Z.to_nat PROGHDR) (drop (Z.to_nat off) bs)).

(** A segment that may be loaded: its part in memory holds its part in the
    file, it is page aligned and does not wrap around. *)
Definition loadable (bs : list Z) (ph : proghdr) : Prop :=
  0 <= ph_filesz ph <= ph_memsz ph /\ 0 <= ph_vaddr ph /\ ph_vaddr ph + ph_memsz ph < 2 ^ 64 /\ ph_vaddr ph mod 4096 = 0 /\
  (ph_filesz ph <> 0 -> u32 (ph_off ph) + ph_filesz ph <= Z.of_nat (length bs)).

(** [n] headers from [off] on turn a memory of [sz] bytes with contents [c]
    into one of [sz'] bytes with contents [c']. *)
Inductive loads (bs : list Z) : nat -> Z -> Z -> (Z -> Z) -> Z -> (Z -> Z) -> Prop :=
| loads_done off sz c : loads bs 0 off sz c sz c
| loads_other n off sz c sz' c' : off + PROGHDR <= Z.of_nat (length bs) -> ph_type (header bs off) <> ELF_PROG_LOAD ->
    loads bs n (off + PROGHDR) sz c sz' c' -> loads bs (S n) off sz c sz' c'
| loads_segment n off sz c sz' c' : let ph := header bs off in
    off + PROGHDR <= Z.of_nat (length bs) -> ph_type ph = ELF_PROG_LOAD -> loadable bs ph ->
    loads bs n (off + PROGHDR) (Z.max sz (ph_vaddr ph + ph_memsz ph))
      (overlay bs (u32 (ph_off ph)) (ph_vaddr ph) (ph_filesz ph) (grown sz c)) sz' c' ->
    loads bs (S n) off sz c sz' c'.

Lemma field_range bs o n : Forall (fun b => 0 <= b < 256) bs -> 0 <= field bs o n < 2 ^ (8 * Z.of_nat n).
Proof using Type.
  intros Hb. unfold field. apply load_bound. intros x. destruct (bs !! Z.to_nat x) as [b|] eqn:E; simpl; [|lia].
  rewrite Forall_lookup in Hb. exact (Hb _ _ E).
Qed.

Lemma flags2perm_range f : 0 <= flags2perm f < 1024.
Proof using Type. unfold flags2perm. destruct (flag f 1), (flag f 2); closed. Qed.

Lemma load_ph_run ip bs sz c k l e off : img sz c k l -> x_file e ip bs -> - 2 ^ 31 <= off < 2 ^ 31 ->
  exists ok sz' k' l' e' c', load_ph pt ip sz off (xs k e) = Ret (ok, sz') (xs k' e') /\ x_file e' ip bs /\ img sz' c' k' l' /\
    (ok = true -> 0 <= off /\ off + PROGHDR <= Z.of_nat (length bs) /\ forall n szf cf, loads bs n (off + PROGHDR) sz' c' szf cf -> loads bs (S n) off sz c szf cf).
Proof using All.
  intros Him Hfile Hoff. unfold load_ph. destruct (x_bytes _ _ _ Hfile) as [Hby Hlen].
  assert (Hu : 0 <= u32 off < 2 ^ 32 /\ (u32 off < 2 ^ 31 -> u32 off = off)) by (unfold u32; dlia). destruct Hu as [Hu Hu'].
  destruct (x_local_ok ip bs (u32 off) PROGHDR k e Hfile Hu ltac:(closed)) as (r & ys & e1 & Er & Hf1 & Hr). rewrite (bind_ret_l _ _ _ _ _ (xenv _ _ _ _ _ _ Er)).
  destruct (Z.eqb_spec r PROGHDR) as [->|]; cbn [negb]; [|exists false, sz, k, l, e1, c; split; [reflexivity|]; split; [exact Hf1|]; split; [exact Him|discriminate]].
  destruct (Hr eq_refl) as [Hend ->]. unfold PROGHDR in Hend. assert (Eo : u32 off = off) by (apply Hu'; lia). rewrite Eo in *. clear Hu' Eo. fold (header bs off). set (ph := header bs off).
  assert (Hfail : exists ok sz' k' l' e' c', Ret (false, sz) (xs k e1) = Ret (ok, sz') (xs k' e') /\ x_file e' ip bs /\ img sz' c' k' l' /\
    (ok = true -> 0 <= off /\ off + PROGHDR <= Z.of_nat (length bs) /\ forall n szf cf, loads bs n (off + PROGHDR) sz' c' szf cf -> loads bs (S n) off sz c szf cf)).
  { exists false, sz, k, l, e1, c. split; [reflexivity|]. split; [exact Hf1|]. split; [exact Him|discriminate]. }
  destruct (Z.eqb_spec (ph_type ph) ELF_PROG_LOAD) as [Ht|Ht]; cbn [negb].
  2:{ exists true, sz, k, l, e1, c. split; [reflexivity|]. split; [exact Hf1|]. split; [exact Him|]. intros _. unfold PROGHDR. split; [lia|]. split; [lia|].
      intros n szf cf Hl. apply loads_other; [unfold PROGHDR; lia|exact Ht|exact Hl]. }
  assert (Hby' : Forall (fun b => 0 <= b < 256) (take (Z.to_nat PROGHDR) (drop (Z.to_nat off) bs))) by (apply Forall_take, Forall_drop, Hby).
  assert (Hranges : 0 <= ph_filesz ph < 2 ^ 64 /\ 0 <= ph_memsz ph < 2 ^ 64 /\ 0 <= ph_vaddr ph < 2 ^ 64).
  { split; [|split]; apply (field_range _ _ 8 Hby'). } destruct Hranges as (Gf & Gm & Gv).
  destruct (Z.ltb_spec (ph_memsz ph) (ph_filesz ph)); [exact Hfail|].
  destruct (Z.ltb_spec (u64 (ph_vaddr ph + ph_memsz ph)) (ph_vaddr ph)); [exact Hfail|].
  assert (Hw : u64 (ph_vaddr ph + ph_memsz ph) = ph_vaddr ph + ph_memsz ph) by wrap_lia. rewrite Hw in *.
  unfold PGSIZE. destruct (Z.eqb_spec (ph_vaddr ph mod 4096) 0) as [Hal|]; cbn [negb]; [|exact Hfail].
  destruct (image_alloc trampoline tf pt k0 l0 scratch _ sz c k l (ph_vaddr ph + ph_memsz ph) (flags2perm (ph_flags ph)) Him) as (r & k1 & l1 & Ea & Hr1);
    [wrap_lia|apply flags2perm_range|intros va p _; apply leaf_user, flags2perm_range|]. rewrite (bind_ret_l _ _ _ _ _ (xmem _ _ _ _ _ Ea)).
  destruct Hr1 as [[-> Him1]|(Hr0 & -> & Him1 & _)].
  { exists false, sz, k1, l1, e1, c. split; [reflexivity|]. split; [exact Hf1|]. split; [exact Him1|discriminate]. }
  set (sz1 := Z.max sz (ph_vaddr ph + ph_memsz ph)) in *. destruct (Z.eqb_spec sz1 0) as [|_]; [contradiction|].
  pose proof (us_size _ _ _ _ _ _ (im_space _ _ _ _ _ _ _ _ _ _ _ Him1)) as Hsz1. destruct (image_bound _ _ _ _ _ _ _ _ _ _ _ Him1) as [B1 _].
  destruct (PGROUNDUP_range sz1 Hsz1) as (P1 & _). change (4096 * NPAGES) with 2281701376 in B1.
  assert (Hfs : u32 (ph_filesz ph) = ph_filesz ph) by (apply u32_small; lia). rewrite Hfs.
  destruct (loadseg_run sz1 (ph_vaddr ph) ip bs (u32 (ph_off ph)) (ph_filesz ph) (grown sz c) k1 l1 e1) as (r & k2 & l2 & e2 & c2 & El & Hf2 & Him2 & Hr2);
    auto; try lia; [apply u32_bound|]. rewrite (bind_ret_l _ _ _ _ _ El).
  destruct Hr2 as [->|(-> & Hin & ->)]; cbn [Z.ltb Z.compare].
  - exists false, sz1, k2, l2, e2, c2. split; [reflexivity|]. split; [exact Hf2|]. split; [exact Him2|discriminate].
  - eexists true, sz1, k2, l2, e2, _. split; [reflexivity|]. split; [exact Hf2|]. split; [exact Him2|]. intros _. unfold PROGHDR. split; [lia|]. split; [lia|].
    intros n szf cf Hl. apply loads_segment; [unfold PROGHDR; lia|exact Ht| |exact Hl]. fold ph. split_and!; auto; first [lia|wrap_lia].
Qed.

Lemma load_phs_run ip bs n : forall sz c k l e off, img sz c k l -> x_file e ip bs -> - 2 ^ 31 <= off < 2 ^ 31 ->
  exists ok sz' k' l' e' c', load_phs n pt ip sz off (xs k e) = Ret (ok, sz') (xs k' e') /\ x_file e' ip bs /\ img sz' c' k' l' /\
    (ok = true -> loads bs n (u32 off) sz c sz' c').
Proof using All.
  induction n as [|n IH]; intros sz c k l e off Him Hfile Hoff; cbn [load_phs].
  { exists true, sz, k, l, e, c. split; [reflexivity|]. split; [exact Hfile|]. split; [exact Him|]. constructor. }
  destruct (load_ph_run ip bs sz c k l e off Him Hfile Hoff) as (ok & sz1 & k1 & l1 & e1 & c1 & E & Hf1 & Him1 & Hok). rewrite (bind_ret_l _ _ _ _ _ E).
  destruct ok.
  - destruct (Hok eq_refl) as (H0 & Hend & Hl). destruct (x_bytes _ _ _ Hf1) as [_ Hlen]. unfold PROGHDR in *.
    assert (Hi : i32 (off + 56) = off + 56) by wrap_lia. rewrite Hi.
    destruct (IH sz1 c1 k1 l1 e1 (off + 56) Him1 Hf1 ltac:(lia)) as (ok & sz2 & k2 & l2 & e2 & c2 & E2 & Hf2 & Him2 & Hok2).
    exists ok, sz2, k2, l2, e2, c2. split; [exact E2|]. split; [exact Hf2|]. split; [exact Him2|]. intros ->.
    rewrite u32_small in * by lia. apply Hl. apply Hok2. reflexivity.
  - exists false, sz1, k1, l1, e1, c1. split; [reflexivity|]. split; [exact Hf1|]. split; [exact Him1|discriminate].
Qed.
End Load.

(** ** The stack *)

(** The page under the stack is not the user's, the stack is writable. *)
Definition stack_access (sz va v : Z) : Prop :=
  if va / 4096 =? sz / 4096 - 2 then flag v PTE_U = false
  else flag v PTE_U = true /\ (va / 4096 = sz / 4096 - 1 -> flag v PTE_W = true).

(** [n] bytes of the memory [m] from [src] on, at [dst]. *)
Definition splice (m : mem) (dst src n : Z) (c : Z -> Z) (va : Z) : Z :=
  if (dst <=? va) && (va <? dst + n) then m (src + (va - dst)) else c va.

Lemma cstr_move m m' str : forall a b, (forall i, 0 <= i <= Z.of_nat (length str) -> m' (b + i) = m (a + i)) -> cstr m a str -> cstr m' b str.
Proof.
  induction str as [|x str IH]; intros a b Hx; cbn [cstr length] in *.
  - specialize (Hx 0 ltac:(lia)). rewrite !Z.add_0_r in Hx. congruence.
  - intros (H1 & H2 & H3). split; [exact H1|]. split; [specialize (Hx 0 ltac:(lia)); rewrite !Z.add_0_r in Hx; congruence|].
    apply (IH (a + 1)); [|exact H3]. intros i Hi. specialize (Hx (i + 1) ltac:(lia)). replace (b + 1 + i) with (b + (i + 1)) by lia. rewrite Hx. f_equal. lia.
Qed.

Section Stack.
Context (trampoline tf pt : Z) (k0 : kst) (l0 : list Z) (scratch : Z -> Prop) (sz : Z).
Hypothesis Hscr : forall x q, scratch x -> page_ok (kend k0) q -> ~ in_page q x.
Hypothesis (Hsz : 8192 <= sz) (Hal : sz mod 4096 = 0).

#[local] Abbreviation img := (image trampoline tf pt k0 l0 scratch (stack_access sz) sz).

Lemma image_clear c k l v : image trampoline tf pt k0 l0 scratch (fun _ v => flag v PTE_U = true) sz c k l ->
  pt_map (phys k) pt (sz - 4096) = Some v -> flag v PTE_W = true -> exists k', uvmclear pt (sz - 8192) k = Ret tt k' /\ img c k' l.
Proof using All.
  intros Him Hv Hw. pose proof (im_space _ _ _ _ _ _ _ _ _ _ _ Him) as Hs. pose proof (us_as _ _ _ _ _ _ Hs) as Ha. pose proof (us_size _ _ _ _ _ _ Hs) as Hs'.
  pose proof TRAPFRAME_eq as ET. pose proof MAXVA_eq as EM. assert (Er : PGROUNDUP sz = sz) by (rewrite PGROUNDUP_eq by lia; dlia).
  destruct (im_user _ _ _ _ _ _ _ _ _ _ _ Him (sz - 8192) ltac:(lia)) as (g & Hg & _).
  destruct (uvmclear_run TRAPFRAME pt k l (sz - 8192) g Ha ltac:(lia) eq_refl ltac:(lia) Hg) as (k' & E & Ha' & Hi & Hm & Hu).
  exists k'. split; [exact E|]. destruct Him as [Is Im [Fe Ff] Iu Ib]. split; auto.
  - destruct Hs as [_ Sp St Sf Ss Su]. split; auto; [apply (iso_plain _ _ _ _ _ _ Hi), Sp|rewrite (iso_above _ _ _ _ _ _ Hi) by (rewrite TRAMPOLINE_eq; lia); exact St|
      rewrite (iso_above _ _ _ _ _ _ Hi) by lia; exact Sf|]. intros va Hva. rewrite Hm by lia. destruct (Z.eqb_spec (va / 4096) ((sz - 8192) / 4096)); [dlia|]. apply Su, Hva.
  - intros q. rewrite <- Im. split; [apply Hi|apply (iso_kept _ _ _ _ _ _ Hi)].
  - split; [rewrite (iso_end _ _ _ _ _ _ Hi); exact Fe|]. intros x Hx Hs0. rewrite (iso_frame _ _ _ _ _ _ Hi), Ff; auto. intros q Hq. apply Hx, Im, Hq.
  - intros va Hva. rewrite Hm by lia. unfold stack_access. destruct (Iu va Hva) as (w & Ew & Hw').
    destruct (Z.eqb_spec (va / 4096) ((sz - 8192) / 4096)) as [E1|E1].
    + eexists. split; [reflexivity|]. replace (_ =? _) with true by dlia. apply clear_user.
      exact (pt_map_word _ _ _ _ (kinv_bytes _ _ (as_inv _ _ _ _ Ha)) Hg).
    + exists w. split; [exact Ew|]. replace (va / 4096 =? sz / 4096 - 2) with false by dlia. split; [exact Hw'|]. intros E2.
      rewrite (pt_map_page _ _ va (sz - 4096)) in Ew by dlia. congruence.
  - intros va Hva. rewrite Hu by lia. apply Ib, Hva.
Qed.

(** A copy that stays within the stack succeeds. *)
Lemma copyout_stack p c k l dst src n : img c k l -> sz - 4096 <= dst -> 0 < n -> dst + n <= sz ->
  exists k', copyout p pt dst src n k = Ret 0 k' /\ img (splice (phys k) dst src n c) k' l /\ forall x, scratch x -> phys k' x = phys k x.
Proof using All.
  intros Him Hd Hn Hfit. pose proof (im_space _ _ _ _ _ _ _ _ _ _ _ Him) as Hs. pose proof (us_as _ _ _ _ _ _ Hs) as Ha. pose proof (us_size _ _ _ _ _ _ Hs) as Hs'.
  pose proof TRAPFRAME_eq as ET. pose proof MAXVA_eq as EM. assert (Er : PGROUNDUP sz = sz) by (rewrite PGROUNDUP_eq by lia; dlia).
  assert (Ed : dst / 4096 * 4096 = sz - 4096) by dlia.
  destruct (im_user _ _ _ _ _ _ _ _ _ _ _ Him (sz - 4096) ltac:(lia)) as (v & Hv & Hacc). unfold stack_access in Hacc.
  replace (_ =? _) with false in Hacc by dlia. destruct Hacc as [Hu Hw]. specialize (Hw ltac:(dlia)).
  destruct (as_page _ _ _ _ Ha (sz - 4096) v ltac:(lia) Hv) as (Hok & _).
  pose proof (walkaddr_as TRAPFRAME pt k l (sz - 4096) Ha ltac:(lia)) as Ew. rewrite Hv, Hu in Ew.
  assert (Hpos : PTE2PA v <> 0) by (destruct Hok; pose proof (kinv_end _ _ (as_inv _ _ _ _ Ha)); lia).
  assert (Hns : forall x, in_page (PTE2PA v) x -> ~ scratch x).
  { intros x Hx Hsx. apply (Hscr x (PTE2PA v) Hsx); [|exact Hx]. rewrite <- (proj1 (im_frame _ _ _ _ _ _ _ _ _ _ _ Him)). exact Hok. }
  unfold copyout. replace (Z.to_nat (n / PGSIZE + 3)) with (S (S (Z.to_nat (n / 4096 + 1)))) by (unfold PGSIZE; dlia). cbn [copyout_loop].
  replace (0 <? n) with true by lia. rewrite PGROUNDDOWN_eq, Ed by lia. replace (MAXVA <=? sz - 4096) with false by lia.
  unfold user_page at 1. rewrite (bind_bind _ _ _ _ _ _ Ew). destruct (Z.eqb_spec (PTE2PA v) 0) as [|_]; [contradiction|].
  erewrite bind_ret_l by reflexivity. destruct (Z.eqb_spec (PTE2PA v) 0) as [|_]; [contradiction|].
  rewrite (walk_mapped TRAPFRAME pt k l (sz - 4096) v) by (auto; lia). rewrite Hw. cbn [negb]. unfold PGSIZE. rewrite Z.min_r by lia.
  unfold memmove_k. rewrite bind_modify, Z.sub_diag. cbn [Z.ltb Z.compare]. eexists. split; [reflexivity|].
  assert (Hout : forall x, ~ in_page (PTE2PA v) x -> memmove (phys k) (PTE2PA v + (dst - (sz - 4096))) src n x = phys k x).
  { intros x Hx. rewrite memmove_moved by lia. apply moved_out. unfold in_page, PGSIZE in Hx. lia. }
  split; [|intros x Hx; apply Hout; intros Hp; exact (Hns x Hp Hx)].
  eapply image_ext; [apply (image_write _ _ _ _ _ _ _ Hscr sz c k l (sz - 4096) v _ (fun i => memmove (phys k) (PTE2PA v + (dst - (sz - 4096))) src n (PTE2PA v + i)))|]; auto; try lia.
  - apply memmove_byte_mem; [lia|apply (as_inv _ _ _ _ Ha)].
  - intros va Hva. unfold paste, splice. destruct (Z.eqb_spec (va / 4096) ((sz - 4096) / 4096)) as [E|E].
    + rewrite memmove_moved by lia. pose proof (im_bytes _ _ _ _ _ _ _ _ _ _ _ Him va Hva) as Hb. unfold umem in Hb.
      rewrite (pt_map_page _ _ va (sz - 4096) E), Hv in Hb. injection Hb as Hb. unfold moved.
      destruct ((dst <=? va) && (va <? dst + n)) eqn:Et; [replace (_ && _) with true by dlia; f_equal; dlia|replace (_ && _) with false by dlia; exact Hb].
    + replace (_ && _) with false by dlia. reflexivity.
Qed.

(** *** The arguments *)

Context {X : Type} (e : X) (osz opt : Z) (name : list Z) (ustack : Z) (c0 : Z -> Z).
Hypothesis Hust : forall x, ustack <= x < ustack + 8 * MAXARG -> scratch x.

#[local] Abbreviation xs k := (Xst k e osz opt tf name).

(** A string of the kernel's that [kexec] leaves alone. *)
Definition kernel_string (a : Z) (str : list Z) : Prop :=
  cstr (phys k0) a str /\ Z.of_nat (length str) < 4096 /\
  forall x, a <= x <= a + Z.of_nat (length str) -> ~ scratch x /\ forall q, q ∈ l0 -> ~ in_page q x.

(** The strings [strs] are on the stack, at [ps], above [sp]. *)
Record pushed (sp : Z) (c : Z -> Z) (ps : list Z) (strs : list (list Z)) (k : kst) : Prop := {
  pu_sp : sz - 4096 <= sp <= sz;
  pu_strs : Forall2 (fun p str => cstr c p str /\ sp <= p /\ p mod 16 = 0 /\ p + Z.of_nat (length str) < sz) ps strs;
  pu_below : forall va, va < sz - 4096 -> c va = c0 va;
  pu_ustack : forall i p, ps !! i = Some p -> load (phys k) (ustack + 8 * Z.of_nat i) 8 = p
}.

Lemma kstrlen_run a str c k l : img c k l -> kernel_string a str ->
  kstrlen a (xs k) = Ret (Z.of_nat (length str)) (xs k) /\ cstr (phys k) a str.
Proof using All.
  intros Him (Hc & Hlen & Hout). assert (Hc' : cstr (phys k) a str).
  { eapply cstr_ext; [|exact Hc]. intros x Hx. destruct (Hout x Hx). apply (im_frame _ _ _ _ _ _ _ _ _ _ _ Him); assumption. }
  split; [|exact Hc']. unfold kstrlen. rewrite bind_gets. simpl. unfold strlen.
  rewrite (strlen_loop_cstr _ _ a 0 str) by (rewrite ?Z.add_0_r; first [exact Hc'|unfold PGSIZE; lia]). reflexivity.
Qed.

(** One more string. *)
Lemma pushed_more sp sp1 c ps strs k str a k1 : sz <= TRAPFRAME -> pushed sp c ps strs k -> cstr (phys k) a str -> sz - 4096 <= sp1 -> sp1 mod 16 = 0 ->
  sp1 + Z.of_nat (length str) + 1 <= sp -> (Z.of_nat (length ps) < MAXARG) -> (forall x, scratch x -> phys k1 x = phys k x) ->
  pushed sp1 (splice (phys k) sp1 a (Z.of_nat (length str) + 1) c) (ps ++ [sp1]) (strs ++ [str])
    (set_phys (store_le (phys k1) (ustack + 8 * Z.of_nat (length ps)) 8 sp1) k1).
Proof using All.
  intros Htop [Psp Pst Pb Pu] Hc H1 H2 H3 Hlen Hk. pose proof TRAPFRAME_eq. split; [lia| | |].
  - apply Forall2_app; [|constructor; [|constructor]].
    + eapply Forall2_impl; [exact Pst|]. intros p s0 (G1 & G2 & G3 & G4). split; [|lia]. eapply cstr_ext; [|exact G1].
      intros x Hx. unfold splice. replace (_ && _) with false by lia. reflexivity.
    + split; [|lia]. apply (cstr_move (phys k) _ _ a); [|exact Hc]. intros i Hi. unfold splice. replace (_ && _) with true by lia. f_equal. lia.
  - intros va Hva. unfold splice. replace (_ && _) with false by lia. apply Pb, Hva.
  - intros i p Hi. simpl. apply lookup_app_Some in Hi as [Hi|[Hi Hp]].
    + pose proof (lookup_lt_Some _ _ _ Hi). rewrite load_store_le_ne by lia. rewrite <- (Pu i p Hi). apply load_ext. intros x Hx. apply Hk, Hust. lia.
    + apply list_lookup_singleton_Some in Hp as [E ->]. replace i with (length ps) by lia. apply load_store8. lia.
Qed.

Lemma push_args_run argv : forall args ps strs sp c k l, Forall2 kernel_string argv args -> img c k l -> pushed sp c ps strs k ->
  Z.of_nat (length ps) + Z.of_nat (length argv) < MAXARG ->
  exists r c' k', push_args ustack argv pt (sz - 4096) (Z.of_nat (length ps)) sp (xs k) = Ret r (xs k') /\ img c' k' l /\
    match r with
    | None => True
    | Some (argc, sp') => exists ps', argc = Z.of_nat (length ps') /\ pushed sp' c' ps' (strs ++ args) k'
    end.
Proof using All.
  induction argv as [|a argv IH]; intros args ps strs sp c k l Hargs Him Hp Hlen; cbn [push_args].
  { apply Forall2_nil_inv_l in Hargs as ->. eexists (Some _), c, k. split; [reflexivity|]. split; [exact Him|]. exists ps. rewrite app_nil_r. auto. }
  apply Forall2_cons_inv_l in Hargs as (str & args' & Ha & Hargs & ->). cbn [length] in Hlen.
  replace (MAXARG <=? _) with false by lia. destruct (kstrlen_run a str c k l Him Ha) as [Ek Hc]. rewrite (bind_ret_l _ _ _ _ _ Ek).
  destruct Ha as (_ & Hsl & _). pose proof (pu_sp _ _ _ _ _ Hp) as Hsp. pose proof TRAPFRAME_eq as ET.
  pose proof (us_size _ _ _ _ _ _ (im_space _ _ _ _ _ _ _ _ _ _ _ Him)) as Htop.
  unfold push_down. rewrite u64_small by lia. set (sp1 := _ - _ mod 16).
  assert (Hsp1 : sp1 mod 16 = 0 /\ sp1 + Z.of_nat (length str) + 1 <= sp) by (unfold sp1; dlia). destruct Hsp1 as [Hal1 Hle1].
  destruct (Z.ltb_spec sp1 (sz - 4096)); [exists None, c, k; auto|]. rewrite bind_gets. cbn [x_sz x_pgtbl].
  destruct (copyout_stack (Uproc osz opt) c k l sp1 a (Z.of_nat (length str) + 1) Him ltac:(lia) ltac:(lia) ltac:(lia)) as (k1 & E1 & Him1 & Hs1).
  rewrite (bind_ret_l _ _ _ _ _ (xmem _ _ _ _ _ _ _ _ _ E1)). cbn [Z.ltb Z.compare].
  set (k2 := set_phys (store_le (phys k1) (ustack + 8 * Z.of_nat (length ps)) 8 sp1) k1).
  erewrite bind_ret_l by (apply xmem; unfold st64; reflexivity). fold k2.
  pose proof (pushed_more sp sp1 c ps strs k str a k1 ltac:(lia) Hp Hc ltac:(lia) Hal1 Hle1 ltac:(lia) Hs1) as Hp2. fold k2 in Hp2.
  assert (Him2 : img (splice (phys k) sp1 a (Z.of_nat (length str) + 1) c) k2 l).
  { apply image_scratch; auto; [apply store_le_byte_mem, (as_inv _ _ _ _ (us_as _ _ _ _ _ _ (im_space _ _ _ _ _ _ _ _ _ _ _ Him1)))|].
    intros x Hx. apply store_le_outside. destruct (Z.ltb_spec x (ustack + 8 * Z.of_nat (length ps))); [auto|right]. apply Z.nlt_ge. intros Hlt. apply Hx, Hust. lia. }
  destruct (IH args' (ps ++ [sp1]) (strs ++ [str]) sp1 _ k2 l Hargs Him2 Hp2) as (r & c' & k' & E & Him' & Hr); [rewrite length_app; simpl; lia|].
  exists r, c', k'. rewrite length_app in E. simpl in E. rewrite <- app_assoc in Hr. replace (Z.of_nat (length ps) + 1) with (Z.of_nat (length ps + 1)) by lia. auto.
Qed.
End Stack.

(** ** Leaving and entering *)

Section Switch.
Context (trampoline tf pt : Z) (k0 : kst) (l0 : list Z) (scratch : Z -> Prop) (access : Z -> Z -> Prop).
Hypothesis Hscr : forall x q, scratch x -> page_ok (kend k0) q -> ~ in_page q x.

#[local] Abbreviation img := (image trampoline tf pt k0 l0 scratch access).
#[local] Abbreviation frame := (exec_frame k0 l0 scratch).

Lemma image_round sz c k l : img sz c k l -> img (PGROUNDUP sz) c k l.
Proof using Type.
  intros [[Sa Sp St Sf Ss Su] Im If Iu Ib]. destruct (PGROUNDUP_range sz Ss) as (R1 & R2 & R3). pose proof TRAPFRAME_eq.
  assert (E : PGROUNDUP (PGROUNDUP sz) = PGROUNDUP sz) by (rewrite (PGROUNDUP_eq (PGROUNDUP sz)) by lia; dlia).
  split; [split; auto; [lia|rewrite E; exact Su]|auto|auto|rewrite E; exact Iu|rewrite E; exact Ib].
Qed.

(** Everything free again. *)
Definition restored (k : kst) (l : list Z) : Prop := kinv k l /\ (forall q, q ∈ l <-> q ∈ l0) /\ frame k.

Lemma drop_image sz c k l : img sz c k l -> exists k' l', proc_freepagetable pt sz k = Ret tt k' /\ restored k' l'.
Proof using Type.
  intros [Is Im [Fe Ff] Iu Ib]. destruct (proc_freepagetable_run trampoline tf pt sz k l Is) as (k' & l' & E & Hk & He & Hl & Hf).
  exists k', l'. split; [exact E|]. split; [exact Hk|]. split; [intros q; rewrite Hl; apply Im|]. split; [congruence|].
  intros x Hx Hs. rewrite Hf, Ff; auto. intros q Hq. apply Hx, Im, Hq.
Qed.

(** *** The old address space *)

Context (osz opt : Z).
Hypothesis (Hold : user_space trampoline tf opt osz k0 l0).

(** It does not notice what is done with free pages. *)
Lemma old_space k l : kinv k l -> (forall q, q ∈ l -> q ∈ l0) -> frame k -> as_wf TRAPFRAME opt k l /\ unchanged TRAPFRAME opt k0 k.
Proof using Hscr Hold.
  intros Hk Hl [Fe Ff]. pose proof (us_as _ _ _ _ _ _ Hold) as Ha. apply (space_frame TRAPFRAME opt k0 l0 k l Ha Hk Fe).
  - intros q Hq Hql. apply (owns_ok _ _ _ _ _ Ha Hq), Hl, Hql.
  - intros q x Hq Hx. destruct (owns_ok _ _ _ _ _ Ha Hq) as [Hok Hn]. apply Ff; [|intros Hs; exact (Hscr x q Hs Hok Hx)].
    intros r Hr. pose proof (kinv_pages _ _ (as_inv _ _ _ _ Ha)) as Hf. rewrite Forall_forall in Hf.
    eapply (page_ok_ne (kend k0) q r); eauto. intros ->. contradiction.
Qed.

Hypothesis (Hok : page_ok (kend k0) tf) (Hfree : tf ∉ l0) (Hown : ~ owns TRAPFRAME opt k0 tf).

(** Writing to the trapframe and giving the old address space back. *)
Lemma switch sz c k l m3 : img sz c k l -> byte_mem m3 -> (forall x, ~ in_page tf x -> m3 x = phys k x) ->
  exists k' l', proc_freepagetable opt osz (set_phys m3 k) = Ret tt k' /\ user_space trampoline tf pt sz k' l' /\
    unchanged TRAPFRAME pt k k' /\ (forall q, mine TRAPFRAME pt k' l' q <-> mine TRAPFRAME opt k0 l0 q) /\
    (forall x, (forall q, mine TRAPFRAME opt k0 l0 q -> ~ in_page q x) -> phys k' x = m3 x) /\ kend k' = kend k0.
Proof using All.
  intros [Is Im If Iu Ib] Hb Hm. destruct If as [Fe Ff]. set (k3 := set_phys m3 k). pose proof (us_as _ _ _ _ _ _ Is) as Ha.
  assert (Hll : forall q, q ∈ l -> q ∈ l0) by (intros q Hq; apply Im; left; exact Hq).
  destruct (old_space k l (as_inv _ _ _ _ Ha) Hll (conj Fe Ff)) as [Ho Uo].
  assert (Hnew : forall q, owns TRAPFRAME pt k q -> q ∈ l0) by (intros q Hq; apply Im, mine_owns; auto).
  assert (Hpg : forall q x, page_ok (kend k) q -> q <> tf -> in_page q x -> phys k3 x = phys k x).
  { intros q x Hq Hne Hx. apply Hm. rewrite Fe in Hq. eapply (page_ok_ne (kend k0) q tf); eauto. }
  assert (Hk3 : kinv k3 l).
  { apply kinv_write; [apply Ha|exact Hb|]. intros q x Hq Hx. apply (Hpg q); auto; [|intros ->; auto].
    pose proof (kinv_pages _ _ (as_inv _ _ _ _ Ha)) as Hf. rewrite Forall_forall in Hf. auto. }
  destruct (space_frame TRAPFRAME opt k l k3 l Ho Hk3 eq_refl) as [Ho3 Uo3].
  { intros q Hq. apply (owns_ok _ _ _ _ _ Ho Hq). }
  { intros q x Hq. apply Hpg; [apply (owns_ok _ _ _ _ _ Ho Hq)|]. intros ->. apply Hown. apply (unchanged_owns _ _ _ _ _ Uo), Hq. }
  destruct (space_frame TRAPFRAME pt k l k3 l Ha Hk3 eq_refl) as [Ha3 Ua3].
  { intros q Hq. apply (owns_ok _ _ _ _ _ Ha Hq). }
  { intros q x Hq. apply Hpg; [apply (owns_ok _ _ _ _ _ Ha Hq)|]. intros ->. apply Hfree, Hnew, Hq. }
  pose proof (unchanged_trans _ _ _ _ _ Uo Uo3) as U.
  assert (Hs3 : user_space trampoline tf opt osz k3 l) by (apply (user_space_unchanged _ _ _ _ k0 l0); auto).
  destruct (proc_freepagetable_run trampoline tf opt osz k3 l Hs3) as (k' & l' & E & Hk' & He & Hl' & Hf').
  assert (Hmo : forall q, mine TRAPFRAME opt k3 l q <-> q ∈ l \/ owns TRAPFRAME opt k0 q) by (intros q; rewrite mine_owns, (unchanged_owns _ _ _ _ _ U); tauto).
  assert (Hdis : forall q, owns TRAPFRAME pt k q -> ~ owns TRAPFRAME opt k0 q).
  { intros q Hq Hq'. apply (owns_ok _ _ _ _ _ (us_as _ _ _ _ _ _ Hold) Hq'), Hnew, Hq. }
  destruct (elsewhere (mine TRAPFRAME opt k3 l) TRAPFRAME pt k3 l k' l' Ha3 Hk' He) as [Ha' Ua']; auto.
  { intros q. apply mine_ok, Ho3. }
  { intros q Hq. apply (unchanged_owns _ _ _ _ _ Ua3) in Hq. rewrite Hmo. intros [H|H]; [apply (owns_ok _ _ _ _ _ Ha Hq), H|exact (Hdis q Hq H)]. }
  { intros q. apply Hl'. }
  pose proof (unchanged_trans _ _ _ _ _ Ua3 Ua') as Ua. exists k', l'. split; [exact E|]. split; [apply (user_space_unchanged _ _ _ _ k l); auto|].
  split; [exact Ua|]. split; [|split; [|unfold k3 in He; simpl in He; congruence]].
  - intros q. rewrite !mine_owns, Hl', Hmo, (unchanged_owns _ _ _ _ _ Ua). specialize (Im q). rewrite mine_owns in Im. tauto.
  - intros x Hx. apply Hf'. intros q Hq. apply Hx, mine_owns. apply Hmo in Hq as [Hq|Hq]; auto.
Qed.
End Switch.

(** ** The new program *)

(** A string pointer vector at [sp], on a stack that ends at [sz]. *)
Definition argv_at (c : Z -> Z) (sz sp : Z) (args : list (list Z)) : Prop :=
  exists ps, sz - 4096 <= sp /\ sp mod 16 = 0 /\
    Forall2 (fun p str => cstr c p str /\ sp <= p /\ p + Z.of_nat (length str) < sz) ps args /\
    (forall i p, ps !! i = Some p -> load c (sp + 8 * Z.of_nat i) 8 = p) /\ load c (sp + 8 * Z.of_nat (length ps)) 8 = 0.

(** The file [bs] is a program of [sz] bytes with contents [c]. *)
Definition program (bs : list Z) (entry sz : Z) (c : Z -> Z) : Prop :=
  ELFHDR <= Z.of_nat (length bs) /\ let elf := get_elfhdr (take (Z.to_nat ELFHDR) bs) in
  e_magic elf = ELF_MAGIC /\ e_entry elf = entry /\ loads bs (Z.to_nat (e_phnum elf)) (u32 (e_phoff elf)) 0 (fun _ => 0) sz c.

(** The process about to run that program, with the arguments [args]: the
    program, a page nobody may touch and a page of stack. *)
Record runs (pt tf sz entry psz : Z) (c : Z -> Z) (args : list (list Z)) (k : kst) : Prop := {
  rn_size : sz = PGROUNDUP psz + 8192;
  rn_access : forall va, 0 <= va < sz -> exists v, pt_map (phys k) pt va = Some v /\ stack_access sz va v;
  rn_image : forall va, 0 <= va < PGROUNDUP psz -> umem (phys k) pt va = Some (c va);
  rn_start : exists sp c', (forall va, 0 <= va < sz -> umem (phys k) pt va = Some (c' va)) /\ argv_at c' sz sp args /\
    load (phys k) (tf + 24) 8 = entry /\ load (phys k) (tf + 48) 8 = sp /\ load (phys k) (tf + 120) 8 = sp
}.

Lemma load_move n : forall (m m' : mem) a b, (forall i, 0 <= i < Z.of_nat n -> m' (b + i) = m (a + i)) -> load m' b n = load m a n.
Proof.
  induction n as [|n IH]; intros m m' a b H; [reflexivity|]. change (m' b + 256 * load m' (b + 1) n = m a + 256 * load m (a + 1) n). rewrite (IH m m' (a + 1) (b + 1)).
  - pose proof (H 0 ltac:(lia)) as E. rewrite !Z.add_0_r in E. rewrite E. reflexivity.
  - intros i Hi. specialize (H (i + 1) ltac:(lia)). replace (b + 1 + i) with (b + (i + 1)) by lia. rewrite H. f_equal. lia.
Qed.

(** The vector is copied under the strings. *)
Lemma vector_pushed ustack sz c0 sp c ps args k sp2 : pushed sz ustack c0 sp c ps args k -> sz - 4096 <= sp2 -> sp2 mod 16 = 0 ->
  sp2 + 8 * (Z.of_nat (length ps) + 1) <= sp -> load (phys k) (ustack + 8 * Z.of_nat (length ps)) 8 = 0 ->
  argv_at (splice (phys k) sp2 ustack (8 * (Z.of_nat (length ps) + 1)) c) sz sp2 args.
Proof.
  intros [Psp Pst Pb Pu] H1 H2 H3 H0.
  assert (Hv : forall i, 0 <= i <= Z.of_nat (length ps) -> load (splice (phys k) sp2 ustack (8 * (Z.of_nat (length ps) + 1)) c) (sp2 + 8 * i) 8 = load (phys k) (ustack + 8 * i) 8).
  { intros i Hi. apply load_move. intros j Hj. unfold splice. replace (_ && _) with true by lia. f_equal. lia. }
  exists ps. split; [exact H1|]. split; [exact H2|]. split; [|split].
  - eapply Forall2_impl; [exact Pst|]. intros p s0 (G1 & G2 & G3 & G4). split; [|lia]. eapply cstr_ext; [|exact G1].
    intros x Hx. unfold splice. replace (_ && _) with false by lia. reflexivity.
  - intros i p Hi. pose proof (lookup_lt_Some _ _ _ Hi). rewrite Hv by lia. apply Pu, Hi.
  - rewrite Hv by lia. exact H0.
Qed.

(** The registers [kexec] sets. *)
Definition set_regs (m : mem) (tf entry sp : Z) : mem := store_le (store_le (store_le m (tf + 120) 8 sp) (tf + 24) 8 entry) (tf + 48) 8 sp.
Definition in_regs (tf x : Z) : Prop := tf + 24 <= x < tf + 32 \/ tf + 48 <= x < tf + 56 \/ tf + 120 <= x < tf + 128.

Lemma set_regs_spec m tf entry sp : byte_mem m -> 0 <= entry < 2 ^ 64 -> 0 <= sp < 2 ^ 64 -> let m' := set_regs m tf entry sp in
  byte_mem m' /\ (forall x, ~ in_regs tf x -> m' x = m x) /\ load m' (tf + 24) 8 = entry /\ load m' (tf + 48) 8 = sp /\ load m' (tf + 120) 8 = sp.
Proof.
  intros Hm He Hs. cbv zeta. unfold set_regs, in_regs. split_and!.
  - repeat apply store_le_byte_mem. exact Hm.
  - intros x Hx. rewrite !store_le_outside by lia. reflexivity.
  - rewrite load_store_le_ne by lia. apply load_store8, He.
  - apply load_store8, Hs.
  - rewrite !load_store_le_ne by lia. apply load_store8, Hs.
Qed.

Section Kexec.
Context {X : Type} `{XL : ExecFsLaws X} (trampoline tf ustack : Z) (k0 : kst) (l0 : list Z) (osz opt : Z) (name : list Z).

(** The kernel's variables that are written: the file system's and [ustack]. *)
Definition exec_scratch (x : Z) : Prop := x_scratch x \/ ustack <= x < ustack + 8 * MAXARG.

Hypothesis (Htr : trampoline mod 4096 = 0) (Htr' : 0 <= trampoline < 2 ^ 56).
Hypothesis Hold : user_space trampoline tf opt osz k0 l0.
Hypothesis (Hok : page_ok (kend k0) tf) (Hfree : tf ∉ l0) (Hown : ~ owns TRAPFRAME opt k0 tf).
Hypothesis Hscr : forall x q, exec_scratch x -> page_ok (kend k0) q -> ~ in_page q x.

#[local] Abbreviation xs k e := (Xst k e osz opt tf name).
#[local] Abbreviation img pt access := (image trampoline tf pt k0 l0 exec_scratch access).

(** Back to the old program, or on with the new one. *)
Definition exec_outcome (path : list Z) (args : list (list Z)) (pt entry psz : Z) (c : Z -> Z) (r : Z) (s : xst X) : Prop :=
  exists l', x_tf s = tf /\
    (r = -1 /\ x_sz s = osz /\ x_pgtbl s = opt /\ x_name s = name /\ restored k0 l0 exec_scratch (x_mem s) l' \/
     r = Z.of_nat (length args) /\ x_pgtbl s = pt /\ x_name s = take 15 (basename path path) /\
       user_space trampoline tf pt (x_sz s) (x_mem s) l' /\ (forall q, mine TRAPFRAME pt (x_mem s) l' q <-> mine TRAPFRAME opt k0 l0 q) /\
       runs pt tf (x_sz s) entry psz c args (x_mem s) /\ kend (x_mem s) = kend k0 /\
       forall x, (forall q, mine TRAPFRAME opt k0 l0 q -> ~ in_page q x) -> ~ exec_scratch x -> ~ in_regs tf x -> phys (x_mem s) x = phys k0 x).

Lemma bad_image pt access sz c k l e path args entry psz cp : img pt access sz c k l -> pt <> 0 ->
  exists k', bad pt sz NOINODE (xs k e) = Ret (-1) (xs k' e) /\ exec_outcome path args pt entry psz cp (-1) (xs k' e).
Proof using Type.
  intros Him Hpt. destruct (drop_image _ _ _ _ _ _ _ sz c k l Him) as (k' & l' & E & Hr). exists k'. unfold bad. destruct (Z.eqb_spec pt 0) as [|_]; [contradiction|]. cbn [negb when].
  rewrite (bind_ret_l _ _ _ _ _ (xmem _ _ _ _ _ _ _ _ _ E)). split; [reflexivity|]. exists l'. split; [reflexivity|]. left. auto 10.
Qed.

(** The last part, once the stack is ready. *)
Lemma enter_run path args pt entry psz cp sz sp c k l e : img pt (stack_access sz) sz c k l -> 0 <= psz <= TRAPFRAME -> sz = PGROUNDUP psz + 8192 ->
  (forall va, 0 <= va < PGROUNDUP psz -> c va = cp va) -> argv_at c sz sp args -> 0 <= entry < 2 ^ 64 -> 0 <= sp < 2 ^ 64 ->
  exists k', proc_freepagetable opt osz (set_phys (set_regs (phys k) tf entry sp) k) = Ret tt k' /\
    exec_outcome path args pt entry psz cp (Z.of_nat (length args)) (Xst k' e sz pt tf (take 15 (basename path path))).
Proof using All.
  intros Him Hpsz Esz Hc Hargv He Hsp. pose proof (us_as _ _ _ _ _ _ (im_space _ _ _ _ _ _ _ _ _ _ _ Him)) as Ha. pose proof TRAPFRAME_eq as ET.
  pose proof (us_size _ _ _ _ _ _ (im_space _ _ _ _ _ _ _ _ _ _ _ Him)) as Hsz. destruct (PGROUNDUP_range psz Hpsz) as (R1 & R2 & R3).
  assert (Er : PGROUNDUP sz = sz) by (rewrite PGROUNDUP_eq by lia; dlia).
  destruct (set_regs_spec (phys k) tf entry sp (kinv_bytes _ _ (as_inv _ _ _ _ Ha)) He Hsp) as (Hb & Hout & L1 & L2 & L3). set (m3 := set_regs _ _ _ _) in *.
  destruct (switch trampoline tf pt k0 l0 exec_scratch _ Hscr osz opt Hold Hok Hfree Hown sz c k l m3 Him Hb) as (k' & l' & E & Hs' & Hu & Hmine & Hf & Hke).
  { intros x Hx. apply Hout. unfold in_regs, in_page, PGSIZE in *. lia. }
  exists k'. split; [exact E|]. exists l'. split; [reflexivity|]. right. cbn [x_pgtbl x_name x_sz x_mem].
  assert (Htf : forall x, in_page tf x -> phys k' x = m3 x).
  { intros x Hx. apply Hf. intros q Hq Hx'. pose proof (mine_ok _ _ _ _ _ (us_as _ _ _ _ _ _ Hold) Hq) as Hqok.
    apply (page_ok_ne (kend k0) tf q) with x; auto. intros <-. apply mine_owns in Hq as [Hq|Hq]; contradiction. }
  assert (Hl3 : forall d v, 0 <= d < 4096 - 8 -> load m3 (tf + d) 8 = v -> load (phys k') (tf + d) 8 = v).
  { intros d v Hd <-. apply load_ext. intros x Hx. apply Htf. unfold in_page, PGSIZE. lia. }
  destruct Him as [Is Im [Fe Ff] Iu Ib]. rewrite Er in *. split_and!; auto.
  - split; auto.
    + intros va Hva. rewrite (uc_map _ _ _ _ Hu). apply Iu, Hva.
    + intros va Hva. rewrite (uc_umem _ _ _ _ Hu), Ib by lia. f_equal. apply Hc, Hva.
    + exists sp, c. split_and!; auto; try (apply Hl3; [lia|assumption]). intros va Hva. rewrite (uc_umem _ _ _ _ Hu) by lia. apply Ib, Hva.
  - intros x Hx Hnx Hrx. rewrite Hf by exact Hx. rewrite Hout by exact Hrx. apply Ff; [|exact Hnx]. intros q Hq. apply Hx. left. exact Hq.
Qed.

(** The end of the vector. *)
Lemma vector_run args pt sz ps sp c k l (e : X) c0 : img pt (stack_access sz) sz c k l -> pushed sz ustack c0 sp c ps args k -> Z.of_nat (length ps) < MAXARG ->
  exists k', zoom xmem_of (st64 (ustack + 8 * Z.of_nat (length ps)) 0) (xs k e) = Ret tt (xs k' e) /\ img pt (stack_access sz) sz c k' l /\
    pushed sz ustack c0 sp c ps args k' /\ load (phys k') (ustack + 8 * Z.of_nat (length ps)) 8 = 0.
Proof using Hscr.
  intros Him Hpu Hlen. eexists. split; [apply xmem; unfold st64; reflexivity|]. simpl. split; [|split].
  - apply image_scratch; auto; [apply store_le_byte_mem, (as_inv _ _ _ _ (us_as _ _ _ _ _ _ (im_space _ _ _ _ _ _ _ _ _ _ _ Him)))|].
    intros x Hx. apply store_le_outside. unfold exec_scratch in Hx. unfold MAXARG in *. lia.
  - destruct Hpu as [Psp Pst Pb Pu]. split; auto. intros i p Hi. simpl. pose proof (lookup_lt_Some _ _ _ Hi). rewrite load_store_le_ne by lia. apply Pu, Hi.
  - apply load_store8. lia.
Qed.

(** Two pages more, the lower one for nobody. *)
Lemma stack_pages pt sz c k l : img pt (fun _ v => flag v PTE_U = true) sz c k l -> sz mod 4096 = 0 ->
  exists r k1 l1, uvmalloc pt sz (u64 (sz + 8192)) PTE_W k = Ret r k1 /\
    (r = 0 /\ img pt (fun _ v => flag v PTE_U = true) sz c k1 l1 \/
     r = sz + 8192 /\ r <= TRAPFRAME /\ exists k2, uvmclear pt (u64 (r - 8192)) k1 = Ret tt k2 /\ img pt (stack_access r) r (grown sz c) k2 l1).
Proof using All.
  intros Him Hal. pose proof (us_size _ _ _ _ _ _ (im_space _ _ _ _ _ _ _ _ _ _ _ Him)) as Hsz. pose proof TRAPFRAME_eq as ET.
  destruct (image_bound _ _ _ _ _ _ _ _ _ _ _ Him) as [B1 _]. change (4096 * NPAGES) with 2281701376 in B1.
  assert (E0 : PGROUNDUP sz = sz) by (rewrite PGROUNDUP_eq by lia; dlia). rewrite u64_small by lia.
  destruct (image_alloc _ _ _ _ _ _ _ sz c k l (sz + 8192) PTE_W Him) as (r & k1 & l1 & Ea & Hr); [lia|closed|intros; apply leaf_user; closed|].
  exists r, k1, l1. split; [exact Ea|]. destruct Hr as [[-> Him1]|(Hr0 & Er & Him1 & Hnew)]; [auto|right].
  rewrite Z.max_r in Er by lia. pose proof (us_size _ _ _ _ _ _ (im_space _ _ _ _ _ _ _ _ _ _ _ Him1)) as Hr. split; [exact Er|]. split; [lia|].
  assert (E1 : PGROUNDUP r = r) by (rewrite PGROUNDUP_eq by lia; dlia). rewrite E0, E1 in Hnew. destruct (Hnew (r - 4096) ltac:(lia)) as [p Hp].
  rewrite u64_small by lia. apply (image_clear trampoline tf pt k0 l0 exec_scratch r Hscr ltac:(lia) ltac:(subst r; dlia) (grown sz c) k1 l1 _ Him1 Hp).
  rewrite flag_leaf by closed. reflexivity.
Qed.

Lemma exec_stack_run path argv args pt entry sz c k l e : img pt (fun _ v => flag v PTE_U = true) sz c k l -> pt <> 0 ->
  Forall2 (kernel_string k0 l0 exec_scratch) argv args -> Z.of_nat (length argv) < MAXARG -> 0 <= entry < 2 ^ 64 ->
  exists r s', exec_stack ustack path argv entry pt sz (xs k e) = Ret r s' /\ exec_outcome path args pt entry sz c r s' /\ x_env s' = e.
Proof using All.
  intros Him Hpt Hargs Hlen He. pose proof (us_size _ _ _ _ _ _ (im_space _ _ _ _ _ _ _ _ _ _ _ Him)) as Hsz. destruct (PGROUNDUP_range sz Hsz) as (R1 & R2 & R3).
  pose proof TRAPFRAME_eq as ET. unfold exec_stack. rewrite bind_gets. cbn [x_sz]. change ((USERSTACK + 1) * PGSIZE) with 8192. change (USERSTACK * PGSIZE) with 4096.
  apply image_round in Him. set (sz0 := PGROUNDUP sz) in *. assert (E0 : PGROUNDUP sz0 = sz0) by (rewrite PGROUNDUP_eq by lia; dlia).
  assert (Hbad : forall access sz' c' k' l', img pt access sz' c' k' l' ->
    exists r s', bad pt sz' NOINODE (xs k' e) = Ret r s' /\ exec_outcome path args pt entry sz c r s' /\ x_env s' = e).
  { intros access sz' c' k' l' Him'. destruct (bad_image pt access sz' c' k' l' e path args entry sz c Him' Hpt) as (k2 & E & Ho). exists (-1), (xs k2 e). auto. }
  destruct (stack_pages pt sz0 c k l Him R2) as (r & k1 & l1 & Ea & Hr). rewrite (bind_ret_l _ _ _ _ _ (xmem _ _ _ _ _ _ _ _ _ Ea)).
  destruct Hr as [[-> Him1]|(Er & Htop & k2 & Ec & Him2)]; [apply (Hbad _ _ _ _ _ Him1)|].
  replace (r =? 0) with false by lia. rewrite (bind_ret_l _ _ _ _ _ (xmem _ _ _ _ _ _ _ _ _ Ec)). rewrite u64_small by lia.
  assert (Hust : forall x, ustack <= x < ustack + 8 * MAXARG -> exec_scratch x) by (intros x Hx; right; exact Hx).
  assert (Hal : r mod 4096 = 0) by (subst r; dlia).
  destruct (push_args_run trampoline tf pt k0 l0 exec_scratch r Hscr ltac:(lia) Hal e osz opt name ustack (grown sz0 c) Hust argv args [] [] r (grown sz0 c) k2 l1 Hargs Him2)
    as (res & c3 & k3 & Ep & Him3 & Hres); [split; [lia|constructor|auto|intros i q Hq; discriminate]|simpl; lia|]. cbn [length] in Ep.
  rewrite (bind_ret_l _ _ _ _ _ Ep). destruct res as [[argc sp]|]; [|apply (Hbad _ _ _ _ _ Him3)].
  destruct Hres as (ps & -> & Hpu). simpl in Hpu. pose proof (Forall2_length _ _ _ (pu_strs _ _ _ _ _ _ _ _ Hpu)) as Hlps. pose proof (Forall2_length _ _ _ Hargs) as Hla.
  pose proof (pu_sp _ _ _ _ _ _ _ _ Hpu) as Hsp.
  destruct (vector_run args pt r ps sp c3 k3 l1 e (grown sz0 c) Him3 Hpu) as (k4 & Es & Him4 & Hpu4 & Hz); [lia..|].
  rewrite (bind_ret_l _ _ _ _ _ Es).
  unfold push_down. rewrite u64_small by (unfold MAXARG in *; lia). set (sp2 := _ - _ mod 16).
  assert (Hsp2 : sp2 mod 16 = 0 /\ sp2 + 8 * (Z.of_nat (length ps) + 1) <= sp) by (unfold sp2; dlia). destruct Hsp2 as [Hal2 Hle2].
  destruct (Z.ltb_spec sp2 (r - 4096)); [apply (Hbad _ _ _ _ _ Him4)|]. rewrite bind_gets. cbn [x_sz x_pgtbl].
  rewrite (Z.mul_comm _ 8).
  destruct (copyout_stack trampoline tf pt k0 l0 exec_scratch r Hscr ltac:(lia) Hal (Uproc osz opt) c3 k4 l1 sp2 ustack (8 * (Z.of_nat (length ps) + 1)) Him4) as (k5 & Eo & Him5 & _); [lia..|].
  rewrite (bind_ret_l _ _ _ _ _ (xmem _ _ _ _ _ _ _ _ _ Eo)). cbn [Z.ltb Z.compare]. rewrite bind_gets. cbn [x_tf].
  pose proof (vector_pushed ustack r (grown sz0 c) sp c3 ps args k4 sp2 Hpu4 ltac:(lia) Hal2 Hle2 Hz) as Hargv.
  destruct (enter_run path args pt entry sz c r sp2 _ k5 l1 e Him5 Hsz Er) as (k6 & Ef & Hout); auto; [|lia|].
  { intros va Hva. unfold splice. replace (_ && _) with false by lia. rewrite (pu_below _ _ _ _ _ _ _ _ Hpu4) by lia. unfold grown. fold sz0. rewrite E0. replace (_ <? _) with true by lia. reflexivity. }
  exists (Z.of_nat (length args)). eexists. split; [|split; [exact Hout|reflexivity]]. rewrite <- Hlps.
  erewrite bind_ret_l by (apply xmem; unfold st64; reflexivity). rewrite bind_modify, bind_gets, bind_modify. unfold set_image, set_name.
  cbn [x_mem x_env x_sz x_pgtbl x_tf x_name]. do 2 erewrite bind_ret_l by (apply xmem; unfold st64; reflexivity).
  rewrite (bind_ret_l _ _ _ _ _ (xmem _ _ _ _ _ _ _ _ _ Ef)). reflexivity.
Qed.

Lemma restored_refl : restored k0 l0 exec_scratch k0 l0.
Proof using Hold. split; [apply (us_as _ _ _ _ _ _ Hold)|]. split; [intros q; reflexivity|]. split; [reflexivity|intros; reflexivity]. Qed.

(** What [kexec] comes to: the outcome for some program, that of the file
    when it succeeds. *)
Definition exec_result (e : X) (path : list Z) (args : list (list Z)) (r : Z) (s : xst X) : Prop :=
  exists pt entry psz c, exec_outcome path args pt entry psz c r s /\
    (r = -1 \/ exists bs, x_look e path = Some bs /\ program bs entry psz c).

Lemma failed e path args k l e' : restored k0 l0 exec_scratch k l -> exec_result e path args (-1) (xs k e').
Proof using Type. intros Hr. exists 0, 0, 0, (fun _ => 0). split; [|left; reflexivity]. exists l. split; [reflexivity|]. left. auto 10. Qed.

(** The file is closed and everything free. *)
Lemma bad_file e path args pt sz ip bs k e1 : x_file e1 ip bs -> ip <> NOINODE -> 
  (pt = 0 /\ (exists l, restored k0 l0 exec_scratch k l) \/ pt <> 0 /\ exists c l access, img pt access sz c k l) ->
  exists s', bad pt sz ip (xs k e1) = Ret (-1) s' /\ x_quiet (x_env s') /\ exec_result e path args (-1) s'.
Proof using Type.
  intros Hf Hip Hcase.
  assert (H : exists k' l', when (negb (pt =? 0)) (zoom xmem_of (proc_freepagetable pt sz)) (xs k e1) = Ret tt (xs k' e1) /\ restored k0 l0 exec_scratch k' l').
  { destruct Hcase as [[-> [l Hr]]|[Hpt (c & l & access & Him)]]; [exists k, l; split; [reflexivity|exact Hr]|].
    destruct (drop_image _ _ _ _ _ _ _ _ _ _ _ Him) as (k' & l' & E & Hr). destruct (Z.eqb_spec pt 0) as [|_]; [contradiction|]. exists k', l'. split; [apply xmem, E|exact Hr]. }
  destruct H as (k' & l' & E & Hr). unfold bad. rewrite (bind_ret_l _ _ _ _ _ E). destruct (Z.eqb_spec ip NOINODE) as [|_]; [contradiction|]. cbn [negb when].
  destruct (x_iunlockput_ok ip bs k' e1 Hf) as (e2 & Eu & Hb). destruct (x_end_ok k' e2 Hb) as (e3 & Ee & Hq).
  assert (Ez : zoom xenv_of (x_iunlockput ip ;; x_end_op) (xs k' e1) = Ret tt (xs k' e3)) by (apply xenv; rewrite (bind_ret_l _ _ _ _ _ Eu); exact Ee).
  rewrite (bind_ret_l _ _ _ _ _ Ez). exists (xs k' e3). split; [reflexivity|]. split; [exact Hq|]. eapply failed, Hr.
Qed.

Lemma kexec_run path argv args e : x_quiet e -> Forall2 (kernel_string k0 l0 exec_scratch) argv args -> Z.of_nat (length argv) < MAXARG ->
  exists r s', kexec trampoline ustack path argv (xs k0 e) = Ret r s' /\ x_quiet (x_env s') /\ exec_result e path args r s'.
Proof using All.
  intros Hq Hargs Hlen. pose proof restored_refl as Hrefl. pose proof TRAPFRAME_eq as ET. unfold kexec.
  destruct (x_begin_ok k0 e Hq) as (e1 & E1 & Hb1 & Hl1). rewrite (bind_ret_l _ _ _ _ _ (xenv _ _ _ _ _ _ _ _ _ _ E1)).
  destruct (x_namei_ok path k0 e1 Hb1) as (ip & e2 & E2 & Hip). rewrite (bind_ret_l _ _ _ _ _ (xenv _ _ _ _ _ _ _ _ _ _ E2)).
  destruct (Z.eqb_spec ip NOINODE) as [->|Hne].
  { destruct Hip as [[_ Hb2]|[? _]]; [|contradiction]. destruct (x_end_ok k0 e2 Hb2) as (e3 & E3 & Hq3). rewrite (bind_ret_l _ _ _ _ _ (xenv _ _ _ _ _ _ _ _ _ _ E3)).
    exists (-1), (xs k0 e3). split; [reflexivity|]. split; [exact Hq3|]. eapply failed, Hrefl. }
  destruct Hip as [[? _]|(_ & Hfound & Hl2)]; [contradiction|].
  destruct (x_ilock_ok path ip k0 e2 Hfound) as (e3 & bs & E3 & Hf3 & Hlook). rewrite (bind_ret_l _ _ _ _ _ (xenv _ _ _ _ _ _ _ _ _ _ E3)).
  destruct (x_bytes _ _ _ Hf3) as [Hby Hbl].
  destruct (x_local_ok ip bs 0 ELFHDR k0 e3 Hf3 ltac:(lia) ltac:(closed)) as (r & ys & e4 & E4 & Hf4 & Hr). rewrite (bind_ret_l _ _ _ _ _ (xenv _ _ _ _ _ _ _ _ _ _ E4)).
  assert (Hbad0 : forall k l, restored k0 l0 exec_scratch k l -> exists r s', bad 0 0 ip (xs k e4) = Ret r s' /\ x_quiet (x_env s') /\ exec_result e path args r s').
  { intros k l Hkl. destruct (bad_file e path args 0 0 ip bs k e4 Hf4 Hne (or_introl (conj eq_refl (ex_intro _ l Hkl)))) as (s' & E & H). exists (-1), s'. auto. }
  destruct (Z.eqb_spec r ELFHDR) as [->|]; cbn [negb]; [|apply (Hbad0 k0 l0 Hrefl)]. destruct (Hr eq_refl) as [Hend ->]. rewrite drop_0.
  set (elf := get_elfhdr (take (Z.to_nat ELFHDR) bs)). destruct (Z.eqb_spec (e_magic elf) ELF_MAGIC) as [Hmag|]; cbn [negb]; [|apply (Hbad0 k0 l0 Hrefl)].
  rewrite bind_gets. cbn [x_tf]. assert (Htf : tf mod 4096 = 0 /\ 0 <= tf < 2 ^ 56).
  { destruct Hok as [H1 H2]. pose proof (kinv_end _ _ (as_inv _ _ _ _ (us_as _ _ _ _ _ _ Hold))). unfold PGSIZE, PHYSTOP, KERNBASE in *. lia. }
  destruct (proc_pagetable_run trampoline tf Htr Htr' (proj1 Htf) (proj2 Htf) k0 l0) as (pt & k1 & l1 & E5 & Hk1 & [Fe Ff] & Hpt); [apply (us_as _ _ _ _ _ _ Hold)|].
  rewrite (bind_ret_l _ _ _ _ _ (xmem _ _ _ _ _ _ _ _ _ E5)).
  destruct Hpt as [[-> Hl1']|(Hpt & Hs1 & Hmine & Hnone)]; cbn [Z.eqb].
  { apply (Hbad0 k1 l1). split; [exact Hk1|]. split; [exact Hl1'|]. split; [exact Fe|auto]. }
  destruct (Z.eqb_spec pt 0) as [|_]; [contradiction|].
  assert (Him : img pt (fun _ v => flag v PTE_U = true) 0 (fun _ => 0) k1 l1).
  { split; auto; [split; auto|..]; intros va Hva; rewrite PGROUNDUP_eq in Hva by lia; exfalso; dlia. }
  assert (Hph : - 2 ^ 31 <= i32 (e_phoff elf) < 2 ^ 31) by wrap_lia.
  destruct (load_phs_run trampoline tf pt k0 l0 exec_scratch Hscr (fun x Hx => or_introl Hx) osz opt name ip bs (Z.to_nat (e_phnum elf)) 0 _ k1 l1 e4 _ Him Hf4 Hph)
    as (ok & psz & k2 & l2 & e5 & c & E6 & Hf5 & Him2 & Hloads). rewrite (bind_ret_l _ _ _ _ _ E6).
  destruct ok; cbn [negb].
  2:{ destruct (bad_file e path args pt psz ip bs k2 e5 Hf5 Hne) as (s' & E & H); [right; eauto 10|]. exists (-1), s'. auto. }
  destruct (x_iunlockput_ok ip bs k2 e5 Hf5) as (e6 & E7 & Hb6). rewrite (bind_ret_l _ _ _ _ _ (xenv _ _ _ _ _ _ _ _ _ _ E7)).
  destruct (x_end_ok k2 e6 Hb6) as (e7 & E8 & Hq7). rewrite (bind_ret_l _ _ _ _ _ (xenv _ _ _ _ _ _ _ _ _ _ E8)).
  destruct (exec_stack_run path argv args pt (e_entry elf) psz c k2 l2 e7 Him2 Hpt Hargs Hlen) as (r & s' & E9 & Hout & Henv).
  { apply (field_range _ _ 8). apply Forall_take, Hby. }
  exists r, s'. split; [exact E9|]. split; [rewrite Henv; exact Hq7|]. exists pt, (e_entry elf), psz, c. split; [exact Hout|]. right. exists bs.
  split; [congruence|]. split; [lia|]. split; [exact Hmag|]. split; [reflexivity|]. specialize (Hloads eq_refl). replace (u32 (i32 (e_phoff elf))) with (u32 (e_phoff elf)) in Hloads by wrap_lia. exact Hloads.
Qed.
End Kexec.

Lemma kexec_full {X : Type} `{XL : ExecFsLaws X} (trampoline ustack : Z) (path argv : list Z) (args : list (list Z)) (s : xst X) (l : list Z) :
  trampoline mod 4096 = 0 -> 0 <= trampoline < 2 ^ 56 ->
  user_space trampoline (x_tf s) (x_pgtbl s) (x_sz s) (x_mem s) l ->
  page_ok (kend (x_mem s)) (x_tf s) -> x_tf s ∉ l -> ~ owns TRAPFRAME (x_pgtbl s) (x_mem s) (x_tf s) ->
  (forall x q, exec_scratch ustack x -> page_ok (kend (x_mem s)) q -> ~ in_page q x) ->
  x_quiet (x_env s) -> Forall2 (kernel_string (x_mem s) l (exec_scratch ustack)) argv args -> Z.of_nat (length argv) < MAXARG ->
  exists r s' l', kexec trampoline ustack path argv s = Ret r s' /\ x_quiet (x_env s') /\ x_tf s' = x_tf s /\ kend (x_mem s') = kend (x_mem s) /\
    user_space trampoline (x_tf s') (x_pgtbl s') (x_sz s') (x_mem s') l' /\
    (forall q, mine TRAPFRAME (x_pgtbl s') (x_mem s') l' q <-> mine TRAPFRAME (x_pgtbl s) (x_mem s) l q) /\
    (r = -1 /\ x_sz s' = x_sz s /\ x_pgtbl s' = x_pgtbl s /\ x_name s' = x_name s /\
       (forall q, q ∈ l' <-> q ∈ l) /\ unchanged TRAPFRAME (x_pgtbl s) (x_mem s) (x_mem s') /\
       (forall x, (forall q, q ∈ l -> ~ in_page q x) -> ~ exec_scratch ustack x -> phys (x_mem s') x = phys (x_mem s) x) \/
     r = Z.of_nat (length args) /\ x_name s' = take 15 (basename path path) /\
       (exists bs entry psz c, x_look (x_env s) path = Some bs /\ program bs entry psz c /\
          runs (x_pgtbl s') (x_tf s') (x_sz s') entry psz c args (x_mem s')) /\
       (forall x, (forall q, mine TRAPFRAME (x_pgtbl s) (x_mem s) l q -> ~ in_page q x) -> ~ exec_scratch ustack x -> ~ in_regs (x_tf s) x ->
          phys (x_mem s') x = phys (x_mem s) x)).
Proof.
  destruct s as [k e osz opt tf name]. cbn [x_mem x_env x_sz x_pgtbl x_tf x_name]. intros Htr Htr' Hold Hok Hfree Hown Hscr Hq Hargs Hlen.
  destruct (kexec_run trampoline tf ustack k l osz opt name Htr Htr' Hold Hok Hfree Hown Hscr path argv args e Hq Hargs Hlen)
    as (r & s' & E & Hq' & pt & entry & psz & c & (l' & Htf & Hout) & Hprog).
  exists r, s', l'. split; [exact E|]. split; [exact Hq'|]. split; [exact Htf|].
  destruct Hout as [(-> & Es & Ep & En & Hk & Hl & Hf)|(-> & Ep & En & Hs & Hm & Hruns & He & Hf)]; rewrite Ep, Htf in *.
  - destruct (old_space trampoline tf k l (exec_scratch ustack) Hscr osz opt Hold (x_mem s') l' Hk ltac:(intros q; apply Hl) Hf) as [Ha Hu].
    split; [apply Hf|]. split; [rewrite Es; apply (user_space_unchanged _ _ _ _ k l); auto|].
    split; [intros q; rewrite !mine_owns, (unchanged_owns _ _ _ _ _ Hu), Hl; reflexivity|]. left. split_and!; auto. apply Hf.
  - split; [exact He|]. split; [exact Hs|]. split; [exact Hm|]. right. split; [reflexivity|]. split; [exact En|]. split; [|exact Hf].
    destruct Hprog as [?|(bs & Hbs & Hp)]; [lia|]. exists bs, entry, psz, c. auto.
Qed.

(** C4. [kexec] either fails, returns -1 and leaves the process, its address
    space and all memory but free pages as they were, with the same pages free;
    or it returns the number of arguments and the process has a new address
    space instead of the old one: the program the headers of the ELF file at
    [path] describe, an inaccessible page and a stack with the argument strings
    and the vector of pointers to them, and registers set to its entry point,
    the stack pointer and the vector.  The pages of the old address space are
    free again or in the new one, none is lost, and nothing else is written. *)
Theorem kexec_correct {X : Type} `{XL : ExecFsLaws X} (trampoline ustack : Z) (path argv : list Z) (args : list (list Z)) (s : xst X) (l : list Z) :
  trampoline mod 4096 = 0 -> 0 <= trampoline < 2 ^ 56 ->
  user_space trampoline (x_tf s) (x_pgtbl s) (x_sz s) (x_mem s) l ->
  page_ok (kend (x_mem s)) (x_tf s) -> x_tf s ∉ l -> ~ owns TRAPFRAME (x_pgtbl s) (x_mem s) (x_tf s) ->
  (forall x q, exec_scratch ustack x -> page_ok (kend (x_mem s)) q -> ~ in_page q x) ->
  x_quiet (x_env s) -> Forall2 (kernel_string (x_mem s) l (exec_scratch ustack)) argv args -> Z.of_nat (length argv) < MAXARG ->
  exists r s' l', kexec trampoline ustack path argv s = Ret r s' /\ x_quiet (x_env s') /\ x_tf s' = x_tf s /\
    user_space trampoline (x_tf s') (x_pgtbl s') (x_sz s') (x_mem s') l' /\
    (forall q, mine TRAPFRAME (x_pgtbl s') (x_mem s') l' q <-> mine TRAPFRAME (x_pgtbl s) (x_mem s) l q) /\
    (r = -1 /\ x_sz s' = x_sz s /\ x_pgtbl s' = x_pgtbl s /\ x_name s' = x_name s /\
       (forall q, q ∈ l' <-> q ∈ l) /\ unchanged TRAPFRAME (x_pgtbl s) (x_mem s) (x_mem s') /\
       (forall x, (forall q, q ∈ l -> ~ in_page q x) -> ~ exec_scratch ustack x -> phys (x_mem s') x = phys (x_mem s) x) \/
     r = Z.of_nat (length args) /\ x_name s' = take 15 (basename path path) /\
       (exists bs entry psz c, x_look (x_env s) path = Some bs /\ program bs entry psz c /\
          runs (x_pgtbl s') (x_tf s') (x_sz s') entry psz c args (x_mem s')) /\
       (forall x, (forall q, mine TRAPFRAME (x_pgtbl s) (x_mem s) l q -> ~ in_page q x) -> ~ exec_scratch ustack x -> ~ in_regs (x_tf s) x ->
          phys (x_mem s') x = phys (x_mem s) x)).
Proof.
  intros H1 H2 H3 H4 H5 H6 H7 H8 H9 H10. destruct (kexec_full trampoline ustack path argv args s l H1 H2 H3 H4 H5 H6 H7 H8 H9 H10) as (r & s' & l' & E & Hq & Ht & _ & H).
  exists r, s', l'. auto.
Qed.

(** *** An example *)

Module ExampleExec.
(** One file, in memory, at the path p: four bytes of code at address 0. *)
Definition le (n : nat) (v : Z) : list Z := map (fun i => v / 256 ^ Z.of_nat i mod 256) (seq 0 n).
Definition prog : list Z :=
  le 4 ELF_MAGIC ++ le 12 0 ++ le 2 2 ++ le 2 243 ++ le 4 1 ++ le 8 0 ++ le 8 64 ++ le 8 0 ++ le 4 0 ++ le 2 64 ++ le 2 56 ++ le 2 1 ++ le 2 0 ++ le 2 0 ++ le 2 0 ++
  le 4 1 ++ le 4 5 ++ le 8 120 ++ le 8 0 ++ le 8 0 ++ le 8 4 ++ le 8 8 ++ le 8 4096 ++ [19; 0; 0; 0].
Definition the_path : list Z := [112].

Inductive phase : Set := Quiet | Busy | Held.

(** What reading [n] bytes at [off] gives. *)
Definition read_prog (off n : Z) : list Z := take (Z.to_nat n) (drop (Z.to_nat off) prog).
Definition put (m : mem) (pa : Z) (bs : list Z) : mem := fun x => if (pa <=? x) then default (m x) (bs !! Z.to_nat (x - pa)) else m x.

#[local] Instance one_file : ExecFs phase :=
  {| x_begin_op := modify (fun s => (s.1, Busy)); x_end_op := modify (fun s => (s.1, Quiet));
     x_namei path := ret (if decide (path = the_path) then 1 else NOINODE);
     x_ilock _ := modify (fun s => (s.1, Held)); x_iunlockput _ := modify (fun s => (s.1, Busy));
     x_read_local _ off n := ret (Z.of_nat (length (read_prog off n)), read_prog off n);
     x_readi _ pa off n := modify (fun s => (set_phys (put (phys s.1) pa (read_prog off n)) s.1, s.2)) ;; ret (Z.of_nat (length (read_prog off n))) |}.

Lemma read_prog_full off n : 0 <= off -> 0 < n -> Z.of_nat (length (read_prog off n)) = n -> off + n <= Z.of_nat (length prog).
Proof. intros Ho Hn. unfold read_prog. rewrite length_take, length_drop. lia. Qed.

Lemma prog_bytes : Forall (fun b => 0 <= b < 256) prog.
Proof. apply (bool_decide_unpack _). vm_compute. exact I. Qed.

#[local] Instance one_file_laws : ExecFsLaws phase.
Proof.
  refine {| x_quiet e := e = Quiet; x_busy e := e = Busy; x_look _ path := if decide (path = the_path) then Some prog else None;
    x_found e path ip := e = Busy /\ path = the_path; x_file e ip bs := e = Held /\ bs = prog; x_scratch _ := False |}.
  - intros e ip bs [_ ->]. split; [apply prog_bytes|vm_compute; reflexivity].
  - intros k e _. exists Busy. auto.
  - intros k e _. exists Quiet. auto.
  - intros path k e He. exists (if decide (path = the_path) then 1 else NOINODE), e. split; [reflexivity|].
    destruct (decide (path = the_path)); [right|left]; split; auto.
  - intros path ip k e [_ ->]. exists Held, prog. auto.
  - intros ip bs k e _. exists Busy. auto.
  - intros ip bs off n k e [-> ->] Ho Hn. eexists _, _, Held. split; [reflexivity|]. split; [auto|]. intros E. split; [|reflexivity].
    apply read_prog_full in E; lia.
  - intros ip bs pa off n k e [-> ->] Hb Ho Hn _ _ _. eexists _, (put (phys k) pa (read_prog off n)), Held. split; [reflexivity|]. split; [auto|].
    assert (Hlen : Z.of_nat (length (read_prog off n)) <= n) by (unfold read_prog; rewrite length_take; lia). split_and!.
    + intros x. unfold put. destruct (pa <=? x); [|apply Hb]. destruct (read_prog off n !! _) as [b|] eqn:E; [|apply Hb]. simpl.
      pose proof prog_bytes as Hp. rewrite Forall_lookup in Hp. unfold read_prog in E. apply lookup_take_Some in E as [E _]. rewrite lookup_drop in E. eauto.
    + intros x Hx _. unfold put. destruct (Z.leb_spec pa x); [|reflexivity]. rewrite lookup_ge_None_2 by lia. reflexivity.
    + intros E. apply read_prog_full in E; [|lia..]. split; [exact E|]. intros i Hi. unfold put. replace (pa <=? pa + i) with true by lia.
      unfold read_prog. rewrite lookup_take_lt, lookup_drop by lia. replace (Z.to_nat off + _)%nat with (Z.to_nat (off + i)) by lia.
      destruct (prog !! Z.to_nat (off + i)) eqn:Ep; [reflexivity|]. apply lookup_ge_None in Ep. lia.
Defined.

(** A machine with fourteen free pages and the string p in the kernel. *)
Definition ex_string : Z := 4096.
Definition ex_ustack : Z := 8192.
Definition booted : kst := match kinit (boot_state (PHYSTOP - 57344)) with Ret _ k => k | _ => boot_state 1 end.
Definition ex_machine : kst := set_phys (store (phys booted) ex_string 112) booted.

(** A process without memory of its own. *)
Definition ex_process : M kst (xst phase) :=
  let! tf := kalloc in
  let! pt := proc_pagetable KERNBASE tf in
  let! k := gets id in
  ret (Xst k Quiet 0 pt tf []).

Definition final {S A} (r : res S A) : option A := match r with Ret a _ => Some a | _ => None end.

(** The file is loaded, eight bytes of program. *)
Definition ex_load : M (xst phase) (bool * Z) :=
  let! tf := gets x_tf in
  let! pt := zoom xmem_of (proc_pagetable KERNBASE tf) in
  load_phs 1 pt 1 0 64.

Lemma ex_loads : final ((let! s := ex_process in ret (final (ex_load s))) ex_machine) = Some (Some (true, 8)).
Proof. vm_compute. reflexivity. Qed.

Lemma ex_machine_ok : exists l, kinv ex_machine l /\ kend ex_machine = PHYSTOP - 57344 /\ phys ex_machine 4096 = 112 /\ phys ex_machine 4097 = 0.
Proof.
  assert (C : phys booted 4097 = 0) by (vm_compute; reflexivity).
  destruct (kinit_spec (boot_state (PHYSTOP - 57344))) as (k & E & Hk & He); [reflexivity|intros x; simpl; lia|vm_compute; split; congruence|].
  assert (Eb : booted = k) by (unfold booted; rewrite E; reflexivity). unfold ex_machine. rewrite Eb in *. clear E Eb. set (l := reverse _) in Hk. clearbody l.
  change (kend (boot_state (PHYSTOP - 57344))) with 2281644032 in He. exists l.
  split; [|split; [exact He|split; [apply store_eq; reflexivity|cbn [phys set_phys]; rewrite store_ne by (unfold ex_string; lia); exact C]]].
  apply kinv_write; [exact Hk|apply store_byte_mem; [apply Hk|lia]|]. intros q x Hq Hx. apply store_ne. pose proof (kinv_pages _ _ Hk) as Hf. rewrite Forall_forall in Hf.
  destruct (Hf q Hq) as [_ Hq']. rewrite He in Hq'. unfold in_page, ex_string in *. lia.
Qed.

Definition enough (k : kst) : Prop := final ((let! tf := kalloc in let! pt := proc_pagetable KERNBASE tf in ret (negb (tf =? 0) && negb (pt =? 0))) k) = Some true.
Lemma ex_pages : enough ex_machine.
Proof. vm_compute. reflexivity. Qed.

(** The process is set up. *)
Lemma process_ok k0 l0 : kinv k0 l0 -> kend k0 = 2281644032 -> phys k0 4096 = 112 -> phys k0 4097 = 0 -> enough k0 ->
  exists s k l, ex_process k0 = Ret s k /\ x_env s = Quiet /\ user_space KERNBASE (x_tf s) (x_pgtbl s) (x_sz s) (x_mem s) l /\
  page_ok (kend (x_mem s)) (x_tf s) /\ (x_tf s ∉ l) /\ ~ owns TRAPFRAME (x_pgtbl s) (x_mem s) (x_tf s) /\
  kend (x_mem s) = 2281644032 /\ Forall (page_ok 2281644032) l /\ phys (x_mem s) 4096 = 112 /\ phys (x_mem s) 4097 = 0.
Proof.
  intros Hk He H1 H2 C. unfold enough in C. unfold ex_process.
  destruct l0 as [|tf l1].
  { rewrite (bind_ret_l _ _ _ _ _ (kalloc_empty _ Hk)) in C. unfold bind in C. destruct (proc_pagetable KERNBASE 0 k0); discriminate. }
  pose proof (kinv_pages _ _ Hk) as Hf. rewrite He in Hf. apply Forall_cons in Hf as [Hf0 Hf].
  destruct (kalloc_spec k0 tf l1 Hk) as (k1 & E1 & Hk1 & [Oe Of] & Hn & Hok & _). rewrite (bind_ret_l _ _ _ _ _ E1) in C. rewrite (bind_ret_l _ _ _ _ _ E1). rewrite He in *.
  assert (Htf : tf mod 4096 = 0 /\ 0 <= tf < 2 ^ 56) by (destruct Hok as [P1 P2]; unfold PGSIZE, PHYSTOP, KERNBASE in *; lia). destruct Htf as [Htf Htf'].
  destruct (proc_pagetable_run KERNBASE tf eq_refl ltac:(closed) Htf Htf' k1 l1 Hk1) as (pt & k2 & l2 & E2 & Hk2 & [Fe Ff] & Hr). rewrite (bind_ret_l _ _ _ _ _ E2) in C. rewrite (bind_ret_l _ _ _ _ _ E2).
  destruct Hr as [[-> _]|(_ & Hs & Hmine & _)]; [simpl in C; rewrite andb_false_r in C; discriminate|].
  assert (Hlow : forall x, x < 2281644032 -> phys k2 x = phys k0 x).
  { intros x Hx. rewrite Ff, Of; [reflexivity|unfold in_page; destruct Hok; lia|]. intros q Hq. rewrite Forall_forall in Hf. destruct (Hf q Hq). unfold in_page. lia. }
  assert (Hl : forall q, q ∈ l2 -> q ∈ l1) by (intros q Hq; apply Hmine; left; exact Hq).
  exists (Xst k2 Quiet 0 pt tf []), k2, l2. split; [reflexivity|]. cbn [x_env x_tf x_pgtbl x_mem x_sz]. split_and!; auto.
  - rewrite Fe, Oe. exact Hok.
  - intros Ho. apply Hn, Hmine, mine_owns. auto.
  - congruence.
  - rewrite Forall_forall in *. auto.
  - rewrite Hlow by lia. exact H1.
  - rewrite Hlow by lia. exact H2.
Qed.

Lemma kexec_correct_witness : exists s k r s' l', ex_process ex_machine = Ret s k /\ kexec KERNBASE ex_ustack the_path [ex_string] s = Ret r s' /\
  user_space KERNBASE (x_tf s') (x_pgtbl s') (x_sz s') (x_mem s') l' /\ (r = -1 /\ x_pgtbl s' = x_pgtbl s \/
    r = 1 /\ x_name s' = the_path /\ exists bs entry psz c, program bs entry psz c /\ runs (x_pgtbl s') (x_tf s') (x_sz s') entry psz c [the_path] (x_mem s')).
Proof.
  destruct ex_machine_ok as (l0 & H0 & H1 & H2 & H3).
  destruct (process_ok ex_machine l0 H0 H1 H2 H3 ex_pages) as (s & k & l & E & He & Hs & Hok & Hl & Ho & Hend & Hf & C1 & C2).
  assert (Hlow : forall x q, x < 2281644032 -> page_ok 2281644032 q -> ~ in_page q x) by (intros x q Hx [_ Hq]; unfold in_page; lia).
  destruct (kexec_correct KERNBASE ex_ustack the_path [ex_string] [the_path] s l eq_refl ltac:(closed) Hs Hok Hl Ho) as (r & s' & l' & R & _ & _ & Hs' & _ & Hr).
  - intros x q [[]|Hx] Hq. rewrite Hend in Hq. apply Hlow; [|exact Hq]. unfold ex_ustack, MAXARG in Hx. lia.
  - exact He.
  - constructor; [|constructor]. unfold the_path, ex_string. split; [split; [lia|split; [exact C1|exact C2]]|]. split; [closed|]. intros x Hx. cbn [length] in Hx.
    split; [intros [[]|Hx']; unfold ex_ustack in Hx'; lia|]. intros q Hq. rewrite Forall_forall in Hf. apply Hlow; [lia|auto].
  - closed.
  - exists s, k, r, s', l'. split; [exact E|]. split; [exact R|]. split; [exact Hs'|].
    destruct Hr as [(-> & _ & Hp & _)|(-> & Hn & (bs & entry & psz & c & _ & Hp & Hruns) & _)]; [left; auto|right]. split; [reflexivity|]. split; [exact Hn|]. eauto 10.
Defined.
End ExampleExec.
