(* ===== verification/SysExec.v ===== *)
(** * The exec system call

    [sys_exec] of [kernel/sysfile.c] with the fetching of its arguments
    ([kernel/syscall.c]) from the memory of the process.  [upath] and [uarg] are
    the addresses of its local variables [path] and [uarg]; the array [argv] is
    the list of the pages it has, up to the first null pointer.  Local variables
    are on the kernel stack, which the kernel maps near the top of its address
    space, outside the directly mapped memory the allocator's pages are in. *)

From S2P Require Import Prelude CString Riscv Spinlock Kalloc Vm Proc Exec.

Definition MAXPATH : Z := 128.

(** The string of at most [n] characters at [a]. *)
Fixpoint string_at (n : nat) (m : mem) (a : Z) : list Z :=
  match n with
  | O => []
  | S n => if m a =? 0 then [] else m a :: string_at n m (a + 1)
  end.

Section SysExec.
Context {X : Type} `{XF : ExecFs X} (trampoline ustack upath uarg : Z).

Definition arg (n : Z) : M (xst X) Z :=
  let! tf := gets x_tf in zoom xmem_of (ld64 (tf + 112 + 8 * n)).

(** [fetchaddr(addr, &uarg)]. *)
Definition fetch_addr (addr : Z) : M (xst X) (option Z) :=
  let! sz := gets x_sz in
  if (sz <=? addr) || (sz <? u64 (addr + 8)) then ret None else
  let! p := gets (fun s => Uproc (x_sz s) (x_pgtbl s)) in
  let! r := zoom xmem_of (copyin p (p_pagetable p) uarg addr 8) in
  if negb (r =? 0) then ret None else
  let! v := zoom xmem_of (ld64 uarg) in
  ret (Some v).

(** [fetchstr(addr, buf, max)]: the length, -1 for an error. *)
Definition fetch_str (addr buf max : Z) : M (xst X) Z :=
  let! pagetable := gets x_pgtbl in
  let! r := zoom xmem_of (copyinstr pagetable buf addr max) in
  if r <? 0 then ret (-1) else kstrlen buf.

(** The loop over the argument vector, [n] places of [argv] left; [false] is
    [goto bad]. *)
Fixpoint exec_args (n : nat) (uargv i : Z) (argv : list Z) : M (xst X) (bool * list Z) :=
  match n with
  | O => ret (false, argv)
  | S n =>
      let! u := fetch_addr (u64 (uargv + 8 * i)) in
      match u with
      | None => ret (false, argv)
      | Some u =>
          if u =? 0 then ret (true, argv) else
          let! a := zoom xmem_of kalloc in
          if a =? 0 then ret (false, argv) else
          let argv := argv ++ [a] in
          let! r := fetch_str u a PGSIZE in
          if r <? 0 then ret (false, argv) else exec_args n uargv (i + 1) argv
      end
  end.

Fixpoint free_args (argv : list Z) : M (xst X) unit :=
  match argv with
  | [] => ret tt
  | a :: argv => zoom xmem_of (kfree a) ;; free_args argv
  end.

Definition sys_exec : M (xst X) Z :=
  let! uargv := arg 1 in
  let! addr := arg 0 in
  let! r := fetch_str addr upath MAXPATH in
  if r <? 0 then ret (-1) else
  let! (ok, argv) := exec_args (Z.to_nat MAXARG) uargv 0 [] in
  if negb ok then free_args argv ;; ret (-1) else
  let! path := gets (fun s => string_at (Z.to_nat MAXPATH) (phys (x_mem s)) upath) in
  let! r := kexec trampoline ustack path argv in
  free_args argv ;;
  ret r.

End SysExec.
