(* ===== verification/SysExecSpec.v ===== *)
(** * From the arguments of exec to the new program

    [copyinstr] and the fetching of the argument vector, and the whole system
    call over the interface [ExecFs] ([sys_exec_run]): the arguments the new
    program finds on its stack are the strings the old one passed, and every
    page the call took is free again. *)

From S2P Require Import Prelude CString Riscv Spinlock Kalloc Vm Proc PageTable AddressSpace CopyUser Spaces ProcMem Exec ExecSpec SysExec.

(** ** Strings of user memory *)

(** The user's string at [va]. *)
Definition user_string (root : Z) (s : kst) (va : Z) (str : list Z) : Prop :=
  (forall i c, str !! i = Some c -> c <> 0 /\ umem (phys s) root (va + Z.of_nat i) = Some c) /\
  umem (phys s) root (va + Z.of_nat (length str)) = Some 0 /\ 0 <= va /\ va + Z.of_nat (length str) < TRAPFRAME.

(** The inner loop of [copyinstr]. *)
Lemma copyinstr_page_run n : forall p dst s, byte_mem (phys s) -> (forall x, dst <= x < dst + Z.of_nat n -> ~ p <= x < p + Z.of_nat n) ->
  exists found k m', copyinstr_page n p dst s = Ret (found, Z.of_nat k) (set_phys m' s) /\ byte_mem m' /\ (k <= n)%nat /\
    (forall x, ~ dst <= x < dst + Z.of_nat n -> m' x = phys s x) /\
    (forall i, (i < k)%nat -> m' (dst + Z.of_nat i) = phys s (p + Z.of_nat i) /\ phys s (p + Z.of_nat i) <> 0) /\
    (if found : bool then (k < n)%nat /\ phys s (p + Z.of_nat k) = 0 /\ m' (dst + Z.of_nat k) = 0 else k = n).
Proof.
  induction n as [|n IH]; intros p dst s Hb Hd; cbn [copyinstr_page].
  { exists false, 0%nat, (phys s). split; [destruct s; reflexivity|]. split; [exact Hb|]. split; [lia|]. split; [auto|]. split; [lia|reflexivity]. }
  rewrite bind_gets. destruct (Z.eqb_spec (phys s p) 0) as [E|E].
  { exists true, 0%nat, (store (phys s) dst 0). split; [reflexivity|]. split; [apply store_byte_mem; [exact Hb|lia]|]. split; [lia|].
    split; [intros x Hx; apply store_ne; lia|]. split; [lia|]. rewrite !Z.add_0_r. split; [lia|]. split; [exact E|apply store_eq; reflexivity]. }
  rewrite bind_modify. set (s1 := set_phys (store (phys s) dst (phys s p)) s).
  destruct (IH (p + 1) (dst + 1) s1) as (found & k & m' & E1 & Hb1 & Hk & Ho & Hc & Hf); [apply store_byte_mem; [exact Hb|apply Hb]|intros x Hx; specialize (Hd x ltac:(lia)); lia|].
  rewrite (bind_ret_l _ _ _ _ _ E1). exists found, (S k), m'. split; [unfold ret; repeat f_equal; lia|]. split; [exact Hb1|]. split; [lia|].
  assert (Hsame : forall x, p + 1 <= x < p + Z.of_nat (S n) -> phys s1 x = phys s x).
  { intros x Hx. apply store_ne. specialize (Hd dst ltac:(lia)). lia. }
  split; [intros x Hx; rewrite Ho by lia; apply store_ne; lia|]. split.
  - intros [|i] Hi.
    + rewrite !Z.add_0_r, Ho by lia. split; [apply store_eq; reflexivity|exact E].
    + destruct (Hc i ltac:(lia)) as [H1 H2]. rewrite Hsame in H1, H2 by lia.
      replace (dst + Z.of_nat (S i)) with (dst + 1 + Z.of_nat i) by lia. replace (p + Z.of_nat (S i)) with (p + 1 + Z.of_nat i) by lia. auto.
  - destruct found; [|lia]. destruct Hf as (H1 & H2 & H3). rewrite Hsame in H2 by lia.
    replace (dst + Z.of_nat (S k)) with (dst + 1 + Z.of_nat k) by lia. replace (p + Z.of_nat (S k)) with (p + 1 + Z.of_nat k) by lia. split; [lia|auto].
Qed.

Section Space.
Context (trampoline tf root sz : Z).

#[local] Abbreviation space := (user_space trampoline tf root sz).

(** Kernel memory that is in no page of the process and in no free page. *)
#[local] Abbreviation off_space := (kernel_range TRAPFRAME root).

Lemma space_write s l a n m' : space s l -> off_space s l a n -> byte_mem m' -> (forall x, ~ a <= x < a + n -> m' x = phys s x) ->
  space (set_phys m' s) l /\ unchanged TRAPFRAME root s (set_phys m' s).
Proof.
  intros Hs Hk Hb Ho. pose proof (us_as _ _ _ _ _ _ Hs) as Ha.
  assert (Hx : forall q x, mine TRAPFRAME root s l q -> in_page q x -> m' x = phys s x).
  { intros q x Hq Hx. apply Ho. intros Hr. apply (Hk x q); auto. }
  destruct (space_frame TRAPFRAME root s l (set_phys m' s) l Ha) as [Ha' Hu].
  - apply kinv_write; [apply Ha|exact Hb|]. intros q x Hq Hin. apply (Hx q); [left; exact Hq|exact Hin].
  - reflexivity.
  - intros q Hq. apply (owns_ok _ _ _ _ _ Ha Hq).
  - intros q x Hq Hin. apply (Hx q); [|exact Hin]. apply mine_owns. auto.
  - split; [|exact Hu]. eapply user_space_unchanged; eassumption.
Qed.

Lemma space_below s l : space s l -> user_below TRAPFRAME root s.
Proof.
  intros Hs va v Hva Hv. pose proof TRAPFRAME_eq as E1. pose proof TRAMPOLINE_eq as E2. pose proof MAXVA_eq as E3.
  destruct (decide (va < TRAMPOLINE)) as [H|H].
  - rewrite (pt_map_page _ _ va TRAPFRAME), (us_trapframe _ _ _ _ _ _ Hs) in Hv by dlia. injection Hv as <-. rewrite flag_leaf by closed. reflexivity.
  - rewrite (pt_map_page _ _ va TRAMPOLINE), (us_trampoline _ _ _ _ _ _ Hs) in Hv by dlia. injection Hv as <-. rewrite flag_leaf by closed. reflexivity.
Qed.

(** A round of [copyinstr] in one page. *)
Lemma string_page s l v srcva dst max : space s l -> pt_map (phys s) root srcva = Some v -> 0 <= srcva < TRAPFRAME -> 0 < max -> off_space s l dst max ->
  let n := Z.min (PGSIZE - srcva mod 4096) max in
  exists found str m', copyinstr_page (Z.to_nat n) (PTE2PA v + srcva mod 4096) dst s = Ret (found, Z.of_nat (length str)) (set_phys m' s) /\ byte_mem m' /\
    (forall x, ~ dst <= x < dst + max -> m' x = phys s x) /\
    (forall i c, str !! i = Some c -> c <> 0 /\ m' (dst + Z.of_nat i) = c /\ umem (phys s) root (srcva + Z.of_nat i) = Some c) /\
    (if found : bool then Z.of_nat (length str) < n /\ m' (dst + Z.of_nat (length str)) = 0 /\ umem (phys s) root (srcva + Z.of_nat (length str)) = Some 0
     else Z.of_nat (length str) = n).
Proof.
  intros Hs Hv Hva Hm Hk n. pose proof (us_as _ _ _ _ _ _ Hs) as Ha. set (p := PTE2PA v + srcva mod 4096). unfold PGSIZE in n.
  assert (Hn : 0 < n <= max /\ srcva mod 4096 + n <= 4096) by (unfold n; dlia).
  assert (Hmine : mine TRAPFRAME root s l (PTE2PA v)) by (right; right; eauto).
  destruct (copyinstr_page_run (Z.to_nat n) p dst s) as (found & k & m' & E & Hb & Hle & Ho & Hc & Hf); [apply (kinv_bytes _ _ (as_inv _ _ _ _ Ha))| |].
  { intros x Hx Hp. apply (Hk x (PTE2PA v) ltac:(lia) Hmine). unfold in_page, PGSIZE. unfold p in Hp. dlia. }
  assert (Hu : forall i, (i <= k)%nat -> Z.of_nat i < n -> umem (phys s) root (srcva + Z.of_nat i) = Some (phys s (p + Z.of_nat i))).
  { intros i Hi Hin. unfold umem. rewrite (pt_map_page _ _ (srcva + Z.of_nat i) srcva), Hv by dlia. do 2 f_equal. unfold p. dlia. }
  set (str := (fun i => phys s (p + Z.of_nat i)) <$> seq 0 k). assert (El : length str = k) by (unfold str; rewrite length_fmap, length_seq; reflexivity).
  exists found, str, m'. rewrite El. split; [exact E|]. split; [exact Hb|]. split; [intros x Hx; apply Ho; lia|]. split.
  - intros i c Hi. unfold str in Hi. rewrite list_lookup_fmap in Hi. apply fmap_Some in Hi as (j & Hj & ->). apply lookup_seq in Hj as [-> Hj]. simpl.
    destruct (Hc i Hj) as [H1 H2]. split; [exact H2|]. split; [exact H1|]. apply Hu; lia.
  - destruct found; [|lia]. destruct Hf as (H1 & H2 & H3). split; [lia|]. split; [exact H3|]. rewrite <- H2. apply Hu; lia.
Qed.

(** What [copyinstr] does to memory. *)
Record string_copied (dst srcva max r : Z) (s : kst) (l : list Z) (s' : kst) : Prop := {
  sc_space : space s' l;
  sc_same : unchanged TRAPFRAME root s s';
  sc_end : kend s' = kend s;
  sc_frame : forall x, ~ dst <= x < dst + max -> phys s' x = phys s x;
  sc_result : r = -1 \/ r = 0 /\ exists str, user_string root s srcva str /\ Z.of_nat (length str) < max /\ cstr (phys s') dst str
}.

Lemma string_failed dst srcva max s l : space s l -> string_copied dst srcva max (-1) s l s.
Proof. intros Hs. split; auto using unchanged_refl. Qed.

Lemma cstr_intro m str : forall a, (forall i c, str !! i = Some c -> c <> 0 /\ m (a + Z.of_nat i) = c) -> m (a + Z.of_nat (length str)) = 0 -> cstr m a str.
Proof.
  induction str as [|c str IH]; intros a H H0; cbn [cstr]; [rewrite Z.add_0_r in H0; exact H0|]. destruct (H 0%nat c eq_refl) as [H1 H2]. rewrite Z.add_0_r in H2.
  split; [exact H1|]. split; [exact H2|]. apply IH.
  - intros i d Hi. destruct (H (S i) d Hi) as [H3 H4]. split; [exact H3|]. rewrite <- H4. f_equal. lia.
  - rewrite <- H0. f_equal. simpl. lia.
Qed.

Lemma cstr_elim m str : forall a, cstr m a str -> (forall i c, str !! i = Some c -> c <> 0 /\ m (a + Z.of_nat i) = c) /\ m (a + Z.of_nat (length str)) = 0.
Proof.
  induction str as [|c str IH]; intros a H; cbn [cstr] in H; [rewrite Z.add_0_r; split; [intros i d Hi; discriminate|exact H]|].
  destruct H as (H1 & H2 & H3). destruct (IH _ H3) as [H4 H5]. split.
  - intros [|i] d Hi; simpl in Hi; [injection Hi as <-; rewrite Z.add_0_r; auto|]. destruct (H4 i d Hi) as [H6 H7]. split; [exact H6|]. rewrite <- H7. f_equal. lia.
  - rewrite <- H5. f_equal. simpl. lia.
Qed.

(** A string that goes on in the next page. *)
Lemma join_strings s s1 srcva dst m' m2 str str2 : unchanged TRAPFRAME root s s1 -> 0 <= srcva ->
  (forall i c, str !! i = Some c -> c <> 0 /\ m' (dst + Z.of_nat i) = c /\ umem (phys s) root (srcva + Z.of_nat i) = Some c) ->
  (forall x, x < dst + Z.of_nat (length str) -> m2 x = m' x) ->
  user_string root s1 (srcva + Z.of_nat (length str)) str2 -> cstr m2 (dst + Z.of_nat (length str)) str2 ->
  user_string root s srcva (str ++ str2) /\ cstr m2 dst (str ++ str2).
Proof.
  intros Hu H0 Hc Hm (U1 & U2 & U3 & U4) Hs. destruct (cstr_elim _ _ _ Hs) as [C1 C2]. unfold user_string. rewrite length_app, Nat2Z.inj_add, Z.add_assoc.
  assert (Hlow : forall i c, str2 !! i = Some c -> 0 <= srcva + Z.of_nat (length str) + Z.of_nat i < TRAPFRAME) by (intros i c Hi; apply lookup_lt_Some in Hi; lia).
  assert (Hj : forall i c, (str ++ str2) !! i = Some c -> str !! i = Some c \/ str2 !! (i - length str)%nat = Some c /\ Z.of_nat i = Z.of_nat (length str) + Z.of_nat (i - length str)).
  { intros i c Hi. apply lookup_app_Some in Hi as [Hi|[Hl Hi]]; [auto|]. right. split; [exact Hi|lia]. }
  split; [split; [|split; [|lia]]|apply cstr_intro].
  - intros i c Hi. destruct (Hj i c Hi) as [H|[H E]]; [destruct (Hc i c H) as (? & _ & ?); auto|]. destruct (U1 _ c H) as [N1 N2]. split; [exact N1|].
    rewrite E, Z.add_assoc, <- (uc_umem _ _ _ _ Hu) by (apply (Hlow _ c H)). exact N2.
  - rewrite <- (uc_umem _ _ _ _ Hu) by lia. exact U2.
  - intros i c Hi. destruct (Hj i c Hi) as [H|[H E]].
    + destruct (Hc i c H) as (N1 & N2 & _). split; [exact N1|]. rewrite Hm; [exact N2|]. apply lookup_lt_Some in H. lia.
    + destruct (C1 _ c H) as [N1 N2]. split; [exact N1|]. rewrite E, Z.add_assoc. exact N2.
  - rewrite length_app, Nat2Z.inj_add, Z.add_assoc. exact C2.
Qed.

Lemma copyinstr_loop_run f : forall s l dst srcva max, space s l -> off_space s l dst max -> 0 <= srcva < 2 ^ 64 -> 0 <= max ->
  (srcva mod 4096 + max + 4095) / 4096 < Z.of_nat f ->
  exists r s', copyinstr_loop f root dst srcva max s = Ret r s' /\ string_copied dst srcva max r s l s'.
Proof.
  induction f as [|f IH]; intros s l dst srcva max Hs Hk Hv Hm Hf; [exfalso; dlia|]. pose proof (us_as _ _ _ _ _ _ Hs) as Ha. pose proof MAXVA_eq as EM.
  cbn [copyinstr_loop]. destruct (Z.ltb_spec 0 max) as [H0|H0]; [|exists (-1), s; split; [reflexivity|apply string_failed, Hs]].
  rewrite PGROUNDDOWN_eq by lia. set (va0 := srcva / 4096 * 4096). assert (Eoff : srcva - va0 = srcva mod 4096) by (unfold va0; dlia). rewrite Eoff.
  destruct (decide (MAXVA <= va0)) as [Hbig|Hbig].
  { exists (-1), s. split; [|apply string_failed, Hs]. unfold walkaddr. replace (MAXVA <=? va0) with true by lia. reflexivity. }
  rewrite (bind_ret_l _ _ _ _ _ (walkaddr_as TRAPFRAME root s l va0 Ha ltac:(unfold va0 in *; dlia))).
  destruct (pt_map (phys s) root va0) as [v|] eqn:Ev; [|exists (-1), s; split; [reflexivity|apply string_failed, Hs]].
  destruct (flag v PTE_U) eqn:Eu; [|exists (-1), s; split; [reflexivity|apply string_failed, Hs]].
  assert (Hlow : srcva < TRAPFRAME).
  { destruct (decide (va0 < TRAPFRAME)) as [H|H]; [pose proof TRAPFRAME_eq; unfold va0 in *; dlia|]. rewrite (space_below s l Hs va0 v) in Eu by (auto; lia). discriminate. }
  assert (Ev' : pt_map (phys s) root srcva = Some v) by (rewrite (pt_map_page _ _ srcva va0) by (unfold va0; dlia); exact Ev).
  destruct (as_page _ _ _ _ Ha srcva v ltac:(lia) Ev') as ([_ Hpa] & _). pose proof (kinv_end _ _ (as_inv _ _ _ _ Ha)). replace (PTE2PA v =? 0) with false by lia.
  destruct (string_page s l v srcva dst max Hs Ev' ltac:(lia) H0 Hk) as (found & str & m' & E & Hb & Ho & Hc & Hfound). set (n := Z.min _ max) in *.
  rewrite (bind_ret_l _ _ _ _ _ E). cbv beta iota. destruct (space_write s l dst max m' Hs Hk Hb Ho) as [Hs1 Hu1]. set (s1 := set_phys m' s) in *. unfold PGSIZE in *.
  destruct found.
  - destruct Hfound as (H1 & H2 & H3). exists 0, s1. split; [reflexivity|]. split; auto. right. split; [reflexivity|]. exists str.
    assert (Hend : srcva + Z.of_nat (length str) < TRAPFRAME) by (pose proof TRAPFRAME_eq; dlia).
    split; [|split; [unfold n in H1; lia|apply cstr_intro; [intros i c Hi; destruct (Hc i c Hi) as (? & ? & _); auto|exact H2]]].
    split; [intros i c Hi; destruct (Hc i c Hi) as (? & _ & ?); auto|]. split; [exact H3|lia].
  - rewrite Hfound. destruct (IH s1 l (dst + n) (va0 + 4096) (max - n) Hs1) as (r & s' & E' & [S1 S2 S3 S4 S5]).
    + intros x q Hx Hq. apply (Hk x q); [unfold n in *; dlia|]. rewrite mine_owns in Hq |- *. rewrite (unchanged_owns _ _ _ _ _ Hu1) in Hq. exact Hq.
    + unfold va0. dlia.
    + unfold n. dlia.
    + replace ((va0 + 4096) mod 4096) with 0 by (unfold va0; dlia). unfold n. dlia.
    + rewrite u64_small by (unfold va0; dlia). exists r, s'. split; [exact E'|]. split; auto.
      * eapply unchanged_trans; eassumption.
      * intros x Hx. rewrite S4 by (unfold n in *; dlia). apply Ho, Hx.
      * destruct S5 as [->|(-> & str2 & Hstr & Hlen & Hcs)]; [auto|right]. split; [reflexivity|]. exists (str ++ str2).
        destruct Hstr as (U1 & U2 & U3 & U4). assert (Hne : max - n <> 0) by lia. assert (Hsrc : va0 + 4096 = srcva + n) by (unfold va0, n in *; dlia). rewrite Hsrc in *.
        rewrite <- Hfound in *. destruct (join_strings s s1 srcva dst m' (phys s') str str2 Hu1) as [J1 J2]; auto; [lia|intros x Hx; apply S4; lia|split_and!; auto; lia|].
        split; [exact J1|]. split; [rewrite length_app; lia|exact J2].
Qed.

(** ** Fetching words *)

(** Memory after [n] bytes at [dst] have been fetched; pages may have been
    mapped on the way, from the free ones. *)
Record fetched (dst n : Z) (s : kst) (l : list Z) (s' : kst) (l' : list Z) : Prop := {
  fe_space : space s' l';
  fe_le : umem_le TRAPFRAME root s s';
  fe_mine : forall q, mine TRAPFRAME root s' l' q <-> mine TRAPFRAME root s l q;
  fe_end : kend s' = kend s;
  fe_frame : forall x, ~ dst <= x < dst + n -> (forall q, mine TRAPFRAME root s l q -> ~ in_page q x) -> phys s' x = phys s x
}.

Lemma fetched_refl dst n s l : space s l -> fetched dst n s l s l.
Proof. intros Hs. split; auto using umem_le_refl. Qed.

Lemma fetched_trans dst n s1 l1 s2 l2 s3 l3 : fetched dst n s1 l1 s2 l2 -> fetched dst n s2 l2 s3 l3 -> fetched dst n s1 l1 s3 l3.
Proof.
  intros [A1 A2 A3 A4 A5] [B1 B2 B3 B4 B5]. split; auto; [eapply umem_le_trans; eassumption|intros q; rewrite B3; apply A3|congruence|].
  intros x Hx Hq. rewrite B5, A5; auto. intros q H. apply Hq, A3, H.
Qed.

Lemma fetched_mono a m dst n s l s' l' : dst <= a -> a + m <= dst + n -> fetched a m s l s' l' -> fetched dst n s l s' l'.
Proof. intros H1 H2 [A1 A2 A3 A4 A5]. split; auto. intros x Hx. apply A5. lia. Qed.

Lemma unchanged_mine s l s' q : unchanged TRAPFRAME root s s' -> mine TRAPFRAME root s' l q <-> mine TRAPFRAME root s l q.
Proof. intros Hu. rewrite !mine_owns, (unchanged_owns _ _ _ _ _ Hu). reflexivity. Qed.

Lemma unchanged_le s s' : unchanged TRAPFRAME root s s' -> umem_le TRAPFRAME root s s'.
Proof. intros Hu. split; intros va v Hva Hv; [rewrite (uc_map _ _ _ _ Hu)|rewrite (uc_umem _ _ _ _ Hu) by exact Hva]; exact Hv. Qed.

Lemma fetched_write s l dst n m' : space s l -> off_space s l dst n -> byte_mem m' -> (forall x, ~ dst <= x < dst + n -> m' x = phys s x) ->
  fetched dst n s l (set_phys m' s) l.
Proof.
  intros Hs Hk Hb Ho. destruct (space_write s l dst n m' Hs Hk Hb Ho) as [Hs' Hu].
  split; [exact Hs'|apply unchanged_le, Hu|intros q; apply unchanged_mine, Hu|reflexivity|intros x Hx _; apply Ho, Hx].
Qed.

(** A page of the process, mapped if need be. *)
Lemma fault_space s l va : space s l -> 0 <= va < 2 ^ 64 ->
  exists pa s' l', user_page (Uproc sz root) root va s = Ret pa s' /\ (forall a n, fetched a n s l s' l') /\
    (pa = 0 \/ pa <> 0 /\ va < TRAPFRAME /\ exists v, pt_map (phys s') root va = Some v /\ PTE2PA v = pa).
Proof.
  intros Hs Hva. pose proof (us_as _ _ _ _ _ _ Hs) as Ha. pose proof TRAPFRAME_eq as E1. pose proof TRAMPOLINE_eq as E2. pose proof MAXVA_eq as E3.
  pose proof (us_size _ _ _ _ _ _ Hs) as Hsz.
  destruct (user_page_spec TRAPFRAME root (Uproc sz root) ltac:(lia) ltac:(lia) eq_refl eq_refl ltac:(simpl; lia) s l va Ha (space_below s l Hs) Hva)
    as (pa & s' & l' & E & Ha' & Hi & Hle & _ & Hpa & _).
  exists pa, s', l'. split; [exact E|]. split; [|exact Hpa].
  assert (Habove : forall va', PGROUNDUP sz <= va' < TRAPFRAME -> pt_map (phys s') root va' = None).
  { assert (Hw : exists pa0, walkaddr root va s = Ret pa0 s).
    { destruct (decide (MAXVA <= va)); [exists 0; unfold walkaddr; replace (MAXVA <=? va) with true by lia; reflexivity|].
      eexists. apply (walkaddr_as TRAPFRAME root s l va Ha). lia. }
    destruct Hw as (pa0 & Ew). unfold user_page in E. rewrite (bind_ret_l _ _ _ _ _ Ew) in E. destruct (pa0 =? 0); [|injection E as _ <-; apply Hs].
    destruct (vmfault_spec TRAPFRAME root (Uproc sz root) ltac:(lia) ltac:(lia) eq_refl eq_refl ltac:(simpl; lia) s l va false Ha Hva) as (r & s2 & l2 & E' & _ & _ & Hr).
    rewrite E in E'. injection E' as <- <-. intros va' Hva'. rewrite PGROUNDUP_eq in Hva' by lia. destruct Hr as [[_ [Sm _]]|(_ & Hlt & _ & _ & Hz)].
    - rewrite Sm by dlia. apply (us_above _ _ _ _ _ _ Hs). rewrite PGROUNDUP_eq by lia. exact Hva'.
    - rewrite (zp_map _ _ _ _ _ _ _ Hz) by dlia. simpl in Hlt. replace (va' / 4096 =? va / 4096) with false by dlia.
      apply (us_above _ _ _ _ _ _ Hs). rewrite PGROUNDUP_eq by lia. exact Hva'. }
  intros a n. split; auto; [|intros q; split; apply Hi|apply Hi|intros x _; apply Hi].
  split; auto; [apply Hi, Hs|rewrite (iso_above _ _ _ _ _ _ Hi) by lia; apply Hs ..].
Qed.

Lemma off_space_fetched dst n a m s l s' l' : fetched dst n s l s' l' -> off_space s l a m -> off_space s' l' a m.
Proof. intros F Hk x q Hx Hq. apply (Hk x q Hx), (fe_mine _ _ _ _ _ _ F), Hq. Qed.

Lemma off_space_sub s l a n b m : off_space s l a n -> a <= b -> b + m <= a + n -> off_space s l b m.
Proof. intros Hk H1 H2 x q Hx. apply Hk. lia. Qed.

Lemma copyin_fetched f : forall s l a srcva len, space s l -> off_space s l a len -> 0 <= srcva < 2 ^ 64 -> 0 <= len ->
  (srcva mod 4096 + len + 4095) / 4096 < Z.of_nat f ->
  exists r s' l', copyin_loop f (Uproc sz root) root a srcva len s = Ret r s' /\ fetched a len s l s' l'.
Proof.
  induction f as [|f IH]; intros s l a srcva len Hs Hk Hv Hlen Hf; [exfalso; dlia|]. cbn [copyin_loop].
  destruct (Z.ltb_spec 0 len) as [H0|H0]; [|exists 0, s, l; split; [reflexivity|apply fetched_refl, Hs]].
  rewrite PGROUNDDOWN_eq by lia. set (va0 := srcva / 4096 * 4096). assert (Eoff : srcva - va0 = srcva mod 4096) by (unfold va0; dlia). rewrite Eoff. unfold PGSIZE.
  destruct (fault_space s l va0 Hs ltac:(unfold va0; dlia)) as (pa & s1 & l1 & E & F1 & Hpa). specialize (F1 a len).
  rewrite (bind_ret_l _ _ _ _ _ E). destruct (Z.eqb_spec pa 0) as [->|Hne].
  { exists (-1), s1, l1. split; [reflexivity|exact F1]. }
  destruct Hpa as [|(_ & Hlow & _)]; [contradiction|]. pose proof TRAPFRAME_eq. set (n := Z.min _ len). assert (Hn : 0 < n <= len /\ (n = len \/ n = 4096 - srcva mod 4096)) by (unfold n; dlia).
  unfold memmove_k. rewrite bind_modify. set (s2 := set_phys _ s1). pose proof (fe_space _ _ _ _ _ _ F1) as Hs1. pose proof (us_as _ _ _ _ _ _ Hs1) as Ha1.
  assert (F2 : fetched a len s1 l1 s2 l1).
  { apply fetched_write; [exact Hs1|eapply off_space_fetched; eassumption|apply memmove_byte_mem; [unfold n; dlia|apply Ha1]|].
    intros x Hx. rewrite memmove_moved by (unfold n; dlia). apply moved_out. lia. }
  pose proof (fetched_trans _ _ _ _ _ _ _ _ F1 F2) as F3. rewrite u64_small by (unfold va0; dlia).
  destruct (IH s2 l1 (a + n) (va0 + 4096) (len - n)) as (r & s' & l' & E' & F').
  - apply F2.
  - eapply off_space_sub; [eapply off_space_fetched; eassumption|lia|lia].
  - unfold va0. dlia.
  - lia.
  - replace ((va0 + 4096) mod 4096) with 0 by (unfold va0; dlia). destruct Hn as [Hn [Hn'|Hn']]; dlia.
  - exists r, s', l'. split; [exact E'|]. eapply fetched_trans; [exact F3|]. eapply fetched_mono; [| |exact F']; lia.
Qed.
End Space.

(** ** The argument vector *)

(** The 64-bit word of the user's memory at [va]. *)
Definition user_word (root : Z) (s : kst) (va w : Z) : Prop :=
  0 <= va /\ va + 8 <= TRAPFRAME /\ (forall j, 0 <= j < 8 -> is_Some (umem (phys s) root (va + j))) /\
  load (fun x => default 0 (umem (phys s) root x)) va 8 = w.

(** The vector at [uargv], from entry [i] on: pointers to [strs], then zero. *)
Fixpoint user_vector (root : Z) (s : kst) (uargv i : Z) (strs : list (list Z)) : Prop :=
  match strs with
  | [] => user_word root s (u64 (uargv + 8 * i)) 0
  | str :: strs => exists u, u <> 0 /\ user_word root s (u64 (uargv + 8 * i)) u /\ user_string root s u str /\ user_vector root s uargv (i + 1) strs
  end.

Lemma user_word_mono root s s' va w : umem_le TRAPFRAME root s s' -> user_word root s va w -> user_word root s' va w.
Proof.
  intros [_ Hle] (H1 & H2 & H3 & H4). assert (Hsame : forall j, 0 <= j < 8 -> umem (phys s') root (va + j) = umem (phys s) root (va + j)).
  { intros j Hj. destruct (H3 j Hj) as [b Hb]. rewrite Hb. apply Hle; [lia|exact Hb]. }
  split; [exact H1|]. split; [exact H2|]. split; [intros j Hj; rewrite Hsame by exact Hj; auto|]. rewrite <- H4. apply load_ext. intros x Hx.
  replace x with (va + (x - va)) by lia. rewrite Hsame by lia. reflexivity.
Qed.

Lemma user_string_mono root s s' va str : umem_le TRAPFRAME root s s' -> user_string root s va str -> user_string root s' va str.
Proof.
  intros [_ Hle] (H1 & H2 & H3 & H4). split; [|split; [apply Hle; [lia|exact H2]|lia]].
  intros i c Hi. destruct (H1 i c Hi) as [N1 N2]. split; [exact N1|]. apply Hle; [apply lookup_lt_Some in Hi; lia|exact N2].
Qed.

Section Call.
Context {X : Type} `{XL : ExecFsLaws X} (trampoline tf ustack upath uarg : Z) (k0 : kst) (l0 : list Z) (osz opt : Z) (name : list Z).

(** The local variables of the kernel the call writes to. *)
Definition sys_scratch (x : Z) : Prop := exec_scratch ustack x \/ upath <= x < upath + MAXPATH \/ uarg <= x < uarg + 8.

Hypothesis (Htr : trampoline mod 4096 = 0) (Htr' : 0 <= trampoline < 2 ^ 56).
Hypothesis Hold : user_space trampoline tf opt osz k0 l0.
Hypothesis (Hok : page_ok (kend k0) tf) (Hmine : ~ mine TRAPFRAME opt k0 l0 tf).
Hypothesis Hscr : forall x q, sys_scratch x -> page_ok (kend k0) q -> ~ in_page q x.
Hypothesis Hlocals : uarg + 8 <= upath \/ upath + MAXPATH <= uarg.

#[local] Abbreviation xs k e := (Xst k e osz opt tf name).
#[local] Abbreviation space := (user_space trampoline tf opt osz).
#[local] Abbreviation off_space := (kernel_range TRAPFRAME opt).
#[local] Abbreviation have := (mine TRAPFRAME opt).

(** The call holds the pages [argv]. *)
Record held (k : kst) (l argv : list Z) : Prop := {
  hd_space : space k l;
  hd_le : umem_le TRAPFRAME opt k0 k;
  hd_end : kend k = kend k0;
  hd_nodup : NoDup argv;
  hd_mine : forall q, have k0 l0 q <-> have k l q \/ q ∈ argv;
  hd_apart : forall q, q ∈ argv -> ~ have k l q;
  hd_frame : forall x, ~ sys_scratch x -> (forall q, have k0 l0 q -> ~ in_page q x) -> phys k x = phys k0 x
}.

Lemma held_start : held k0 l0 [].
Proof using Hold.
  split; auto using umem_le_refl; [apply NoDup_nil_2|intros q; split; [auto|intros [H|H]; [exact H|apply elem_of_nil in H; contradiction]]|].
  intros q H. apply elem_of_nil in H. contradiction.
Qed.

Lemma held_page k l argv q : held k l argv -> have k l q \/ q ∈ argv -> page_ok (kend k0) q.
Proof using Hold. intros H Hq. apply (hd_mine _ _ _ H) in Hq. eapply mine_ok; [apply Hold|exact Hq]. Qed.

(** Local variables are in nobody's page. *)
Lemma scratch_off k l argv a n : held k l argv -> (forall x, a <= x < a + n -> sys_scratch x) -> off_space k l a n.
Proof using Hold Hscr. intros H Hs x q Hx Hq. apply Hscr; [apply Hs, Hx|]. eapply held_page; eauto. Qed.

(** Neither are the pages held in the address space. *)
Lemma held_off k l argv a : held k l argv -> a ∈ argv -> off_space k l a 4096.
Proof using Hold.
  intros H Ha x q Hx Hq. assert (Hne : q <> a) by (intros ->; eapply hd_apart; eauto).
  intros Hin. eapply (page_ok_ne (kend k0) q a); eauto using held_page.
Qed.

(** A fetch into a local variable or a page that is held. *)
Lemma held_fetch k l argv a n k' l' : held k l argv -> fetched trampoline tf opt osz a n k l k' l' ->
  (forall x, a <= x < a + n -> sys_scratch x \/ exists q, q ∈ argv /\ in_page q x) -> held k' l' argv.
Proof using Hold.
  intros [H1 H2 H3 H4 H5 H6 H7] [F1 F2 F3 F4 F5] Ha. split; auto; [eapply umem_le_trans; eassumption|congruence|intros q; rewrite F3; apply H5|intros q Hq; rewrite F3; auto|].
  intros x Hx Hq. rewrite F5; auto.
  - intros Hr. destruct (Ha x Hr) as [|(q & Hin & Hp)]; [contradiction|]. apply (Hq q); [apply H5; auto|exact Hp].
  - intros q Hm. apply Hq, H5. auto.
Qed.

(** Pages that are held keep what they have. *)
Lemma held_kept k l argv a n k' l' x q : held k l argv -> fetched trampoline tf opt osz a n k l k' l' -> q ∈ argv -> in_page q x -> ~ a <= x < a + n -> phys k' x = phys k x.
Proof using Hold.
  intros H F Hq Hx Hr. apply (fe_frame _ _ _ _ _ _ _ _ _ _ F); [exact Hr|]. intros q' Hm Hin.
  assert (Hne : q <> q') by (intros ->; eapply hd_apart; eauto). eapply (page_ok_ne (kend k0) q q'); eauto using held_page.
Qed.

Lemma copied_fetched dst srcva max r s l s' : string_copied trampoline tf opt osz dst srcva max r s l s' -> fetched trampoline tf opt osz dst max s l s' l.
Proof using. intros [S1 S2 S3 S4 _]. split; auto; [apply unchanged_le, S2|intros q; apply unchanged_mine, S2]. Qed.

Lemma fetch_str_run k l argv (e : X) addr buf max : held k l argv -> off_space k l buf max ->
  (forall x, buf <= x < buf + max -> sys_scratch x \/ exists q, q ∈ argv /\ in_page q x) -> 0 <= addr < 2 ^ 64 -> 0 < max <= 4096 ->
  exists r k', fetch_str addr buf max (xs k e) = Ret r (xs k' e) /\ held k' l argv /\ fetched trampoline tf opt osz buf max k l k' l /\
    (r = -1 \/ 0 <= r /\ exists str, user_string opt k' addr str /\ Z.of_nat (length str) < max /\ cstr (phys k') buf str).
Proof using All.
  intros H Hoff Hin Ha Hm. unfold fetch_str. rewrite bind_gets. cbn [x_pgtbl].
  destruct (copyinstr_loop_run trampoline tf opt osz (Z.to_nat (max / 4096 + 3)) k l buf addr max (hd_space _ _ _ H) Hoff Ha ltac:(lia) ltac:(dlia)) as (r & k' & E & S).
  pose proof (copied_fetched _ _ _ _ _ _ _ S) as F. rewrite (bind_ret_l _ _ _ r (xs k' e)) by (apply (xmem tf osz opt name); exact E).
  assert (H' : held k' l argv) by (eapply held_fetch; eassumption). destruct (sc_result _ _ _ _ _ _ _ _ _ _ _ S) as [->|(-> & str & U & Hl & C)]; cbn [Z.ltb Z.compare].
  - exists (-1), k'. auto.
  - exists (Z.of_nat (length str)), k'. split; [|split; [exact H'|split; [exact F|right; split; [lia|]]]].
    + unfold kstrlen. rewrite bind_gets. cbn [x_mem]. unfold strlen. rewrite (strlen_loop_cstr _ _ _ 0 str) by (rewrite ?Z.add_0_r; unfold PGSIZE; auto; lia). reflexivity.
    + exists str. split; [|auto]. eapply user_string_mono; [apply F|exact U].
Qed.

Lemma fetch_addr_run k l argv (e : X) addr : held k l argv -> 0 <= addr < 2 ^ 64 ->
  exists u k' l', fetch_addr uarg addr (xs k e) = Ret u (xs k' e) /\ held k' l' argv /\ fetched trampoline tf opt osz uarg 8 k l k' l' /\
    (u = None \/ exists w, u = Some w /\ 0 <= w < 2 ^ 64 /\ user_word opt k' addr w).
Proof using All.
  intros H Ha. pose proof (us_size _ _ _ _ _ _ (hd_space _ _ _ H)) as Hsz. pose proof TRAPFRAME_eq as ET. pose proof TRAMPOLINE_eq as ET2. pose proof MAXVA_eq as ET3. unfold fetch_addr. rewrite bind_gets. cbn [x_sz].
  assert (Hfail : exists u k' l', Ret (@None Z) (xs k e) = Ret u (xs k' e) /\ held k' l' argv /\ fetched trampoline tf opt osz uarg 8 k l k' l' /\ (u = None \/ exists w, u = Some w /\ 0 <= w < 2 ^ 64 /\ user_word opt k' addr w)).
  { exists None, k, l. split; [reflexivity|]. split; [exact H|]. split; [apply fetched_refl, H|auto]. }
  destruct (Z.leb_spec osz addr) as [|Hlow]; [exact Hfail|]. rewrite u64_small by lia. destruct (Z.ltb_spec osz (addr + 8)) as [|Hhi]; [exact Hfail|]. clear Hfail. cbn [orb].
  rewrite bind_gets. cbn [x_sz x_pgtbl p_pagetable].
  assert (Hoff : off_space k l uarg 8) by (apply (scratch_off _ _ _ _ _ H); intros x Hx; right; right; exact Hx).
  destruct (copyin_fetched trampoline tf opt osz (Z.to_nat (8 / PGSIZE + 3)) k l uarg addr 8 (hd_space _ _ _ H) Hoff Ha ltac:(lia) ltac:(change (8 / PGSIZE) with 0; dlia)) as (r & k' & l' & E & F).
  destruct (copyin_loop_spec TRAPFRAME opt (Uproc osz opt) ltac:(lia) ltac:(lia) eq_refl eq_refl ltac:(simpl; lia) (Z.to_nat (8 / PGSIZE + 3)) k l uarg addr 8)
    as (r2 & k2 & l2 & E2 & C); [apply H|eapply space_below, H|exact Ha|lia|change (8 / PGSIZE) with 0; dlia|exact Hoff|].
  rewrite E in E2. injection E2 as <- <-. rewrite (bind_ret_l _ _ _ r (xs k' e)) by (apply (xmem tf osz opt name); exact E).
  assert (H' : held k' l' argv) by (eapply held_fetch; [exact H|exact F|]; intros x Hx; left; right; right; exact Hx).
  destruct (Z.eqb_spec r 0) as [->|Hne]; cbn [negb]; [|exists None, k', l'; auto].
  eexists (Some _), k', l'. split; [reflexivity|]. split; [exact H'|]. split; [exact F|]. right. eexists. split; [reflexivity|].
  split; [apply (load_bound 8), (kinv_bytes _ _ (as_inv _ _ _ _ (us_as _ _ _ _ _ _ (hd_space _ _ _ H'))))|].
  pose proof (ci_bytes _ _ _ _ _ _ _ _ _ _ C eq_refl) as Hb. split; [lia|]. split; [lia|]. split; [intros j Hj; destruct (Hb j Hj) as [_ ->]; eauto|].
  change (x_mem (xs k' e)) with k'. clear - Hb.
  assert (Hl : forall n o, 0 <= o -> o + Z.of_nat n <= 8 -> load (fun x => default 0 (umem (phys k') opt x)) (addr + o) n = load (phys k') (uarg + o) n).
  { induction n as [|n IH]; intros o H1 H2; [reflexivity|]. change (load ?m ?a (S n)) with (m a + 256 * load m (a + 1) n). cbv beta.
    destruct (Hb o ltac:(lia)) as [_ ->]. rewrite <- !Z.add_assoc, IH by lia. reflexivity. }
  specialize (Hl 8%nat 0 ltac:(lia) ltac:(lia)). rewrite !Z.add_0_r in Hl. exact Hl.
Qed.

(** A page more is taken. *)
Lemma held_kalloc k l argv : held k l argv -> kalloc k = Ret 0 k \/
  exists p k1 l1, kalloc k = Ret p k1 /\ p <> 0 /\ held k1 l1 (argv ++ [p]) /\ umem_le TRAPFRAME opt k k1 /\ forall x, ~ in_page p x -> phys k1 x = phys k x.
Proof using All.
  intros H. pose proof (us_as _ _ _ _ _ _ (hd_space _ _ _ H)) as Ha. pose proof (as_inv _ _ _ _ Ha) as Hk. destruct l as [|p l1]; [left; apply kalloc_empty, Hk|right].
  destruct (kalloc_spec k p l1 Hk) as (k1 & E & Hk1 & [He Ho] & Hn & Hp & _). exists p, k1, l1. split; [exact E|]. split; [destruct Hp; pose proof (kinv_end _ _ Hk); lia|].
  assert (Hne : ~ owns TRAPFRAME opt k p) by (intros Hq; apply (owns_ok _ _ _ _ _ Ha Hq); left).
  destruct (space_frame TRAPFRAME opt k (p :: l1) k1 l1 Ha Hk1 He) as [Ha1 Hu].
  { intros q Hq Hin. apply (owns_ok _ _ _ _ _ Ha Hq). right. exact Hin. }
  { intros q x Hq Hx. apply Ho. apply (page_ok_ne (kend k) q p); auto; [apply (owns_ok _ _ _ _ _ Ha Hq)|congruence]. }
  destruct H as [H1 H2 H3 H4 H5 H6 H7]. assert (Hm : forall q, have k (p :: l1) q <-> q = p \/ have k1 l1 q).
  { intros q. rewrite !mine_owns, (unchanged_owns _ _ _ _ _ Hu), elem_of_cons. tauto. }
  split; [|split; [apply unchanged_le, Hu|exact Ho]]. split.
  - eapply user_space_unchanged; eassumption.
  - eapply umem_le_trans; [exact H2|apply unchanged_le, Hu].
  - congruence.
  - apply NoDup_app. split; [exact H4|]. split; [|apply NoDup_singleton]. intros q Hq Hin. apply list_elem_of_singleton in Hin as ->. apply (H6 p Hq), Hm. auto.
  - intros q. rewrite elem_of_app, list_elem_of_singleton, H5, Hm. tauto.
  - intros q Hq Hin. apply elem_of_app in Hq as [Hq|Hq]; [apply (H6 q Hq), Hm; auto|]. apply list_elem_of_singleton in Hq as ->.
    rewrite mine_owns, (unchanged_owns _ _ _ _ _ Hu) in Hin. tauto.
  - intros x Hx Hq. rewrite Ho; [auto|]. apply Hq, H5. left. apply Hm. auto.
Qed.

(** The strings are in the pages held. *)
Definition strings (k : kst) : list Z -> list (list Z) -> Prop := Forall2 (fun a str => cstr (phys k) a str /\ Z.of_nat (length str) < 4096).

Lemma strings_kept k k' argv strs : (forall q x, q ∈ argv -> in_page q x -> phys k' x = phys k x) -> strings k argv strs -> strings k' argv strs.
Proof using Type.
  intros Hx H. induction H as [|a str argv strs [Hc Hl] H IH]; constructor; [split; [|exact Hl]|apply IH; intros q x Hq; apply Hx; right; exact Hq].
  eapply cstr_ext; [|exact Hc]. intros x Hin. apply (Hx a); [left|]. unfold in_page, PGSIZE. lia.
Qed.

Lemma path_kept k k' : (forall x, (forall q, page_ok (kend k0) q -> ~ in_page q x) -> ~ (uarg <= x < uarg + 8) -> phys k' x = phys k x) ->
  forall x, upath <= x < upath + MAXPATH -> phys k' x = phys k x.
Proof using All. intros Hx x Hin. apply Hx; [|lia]. intros q. apply Hscr. right. left. exact Hin. Qed.

Lemma user_vector_mono s s' strs : umem_le TRAPFRAME opt s s' -> forall uargv i, user_vector opt s uargv i strs -> user_vector opt s' uargv i strs.
Proof using Type.
  intros Hle. induction strs as [|str strs IH]; intros uargv i; cbn [user_vector]; [apply user_word_mono, Hle|].
  intros (u & H1 & H2 & H3 & H4). exists u. split; [exact H1|]. split; [eapply user_word_mono; eassumption|]. split; [eapply user_string_mono; eassumption|auto].
Qed.

(** Fetching into the variable [uarg] keeps the strings fetched before. *)
Lemma fetched_word_keeps k l argv k' l' strs : held k l argv -> fetched trampoline tf opt osz uarg 8 k l k' l' -> strings k argv strs ->
  strings k' argv strs /\ forall x, upath <= x < upath + MAXPATH -> phys k' x = phys k x.
Proof using All.
  intros H F Hs. split.
  - eapply strings_kept; [|exact Hs]. intros q x Hq Hx. apply (held_kept k l argv uarg 8 k' l' x q); auto. intros Hr.
    apply (Hscr x q); [right; right; exact Hr|eapply held_page; eauto|exact Hx].
  - apply path_kept. intros x Hq Hr. apply (fe_frame _ _ _ _ _ _ _ _ _ _ F x Hr). intros q Hm. apply Hq. eapply held_page; eauto.
Qed.

(** Taking a page and fetching into it, too. *)
Lemma fetched_page_keeps k l argv p k1 l1 k' l' strs : held k l argv -> held k1 l1 (argv ++ [p]) -> (forall x, ~ in_page p x -> phys k1 x = phys k x) ->
  fetched trampoline tf opt osz p 4096 k1 l1 k' l' -> strings k argv strs -> strings k' argv strs /\ forall x, upath <= x < upath + MAXPATH -> phys k' x = phys k x.
Proof using All.
  intros H H1 Ho F Hs. assert (Hin : p ∈ argv ++ [p]) by (apply elem_of_app; right; left). assert (Hp : page_ok (kend k0) p) by (eapply held_page; eauto). split.
  - eapply strings_kept; [|exact Hs]. intros q x Hq Hx. pose proof (hd_nodup _ _ _ H1) as Hn. apply NoDup_app in Hn as (_ & Hn & _).
    assert (Hne : ~ in_page p x). { apply (page_ok_ne (kend k0) q p); auto; [apply (held_page k l argv); auto|]. intros ->. apply (Hn p Hq). left. }
    rewrite <- Ho by exact Hne. apply (held_kept k1 l1 (argv ++ [p]) p 4096 k' l' x q); auto. apply elem_of_app. auto.
  - apply path_kept. intros x Hq Hr. rewrite <- Ho by (apply Hq, Hp). apply (fe_frame _ _ _ _ _ _ _ _ _ _ F); [apply (Hq p Hp)|]. intros q Hm. apply Hq. eapply held_page; eauto.
Qed.

Lemma exec_args_run n : forall uargv i argv (e : X) k l strs, held k l argv -> strings k argv strs ->
  exists ok argv' k' l', exec_args uarg n uargv i argv (xs k e) = Ret (ok, argv') (xs k' e) /\ held k' l' argv' /\ umem_le TRAPFRAME opt k k' /\
    (forall x, upath <= x < upath + MAXPATH -> phys k' x = phys k x) /\
    (ok = true -> exists strs', strings k' argv' (strs ++ strs') /\ user_vector opt k' uargv i strs' /\ (length strs' < n)%nat).
Proof using All.
  induction n as [|n IH]; intros uargv i argv e k l strs H Hs; cbn [exec_args].
  { exists false, argv, k, l. split; [reflexivity|]. split; [exact H|]. split; [apply umem_le_refl|]. split; [auto|discriminate]. }
  destruct (fetch_addr_run k l argv e (u64 (uargv + 8 * i)) H ltac:(wrap_lia)) as (u & k1 & l1 & E1 & H1 & F1 & Hu). rewrite (bind_ret_l _ _ _ _ _ E1).
  destruct (fetched_word_keeps k l argv k1 l1 strs H F1 Hs) as [Hs1 Hp1]. pose proof (fe_le _ _ _ _ _ _ _ _ _ _ F1) as Hle1.
  destruct Hu as [->|(w & -> & Hw & Hword)].
  { exists false, argv, k1, l1. split; [reflexivity|]. split; [exact H1|]. split; [exact Hle1|]. split; [exact Hp1|discriminate]. }
  destruct (Z.eqb_spec w 0) as [->|Hw0].
  { exists true, argv, k1, l1. split; [reflexivity|]. split; [exact H1|]. split; [exact Hle1|]. split; [exact Hp1|]. intros _. exists []. rewrite app_nil_r. split; [exact Hs1|]. split; [exact Hword|simpl; lia]. }
  destruct (held_kalloc k1 l1 argv H1) as [E2|(p & k2 & l2 & E2 & Hne & H2 & Hle2 & Ho)]; (rewrite bind_ret_l with (1 := xmem _ _ _ _ _ _ _ _ _ E2)).
  { exists false, argv, k1, l1. split; [reflexivity|]. split; [exact H1|]. split; [exact Hle1|]. split; [exact Hp1|discriminate]. }
  replace (p =? 0) with false by lia. assert (Hin : p ∈ argv ++ [p]) by (apply elem_of_app; right; left).
  destruct (fetch_str_run k2 l2 (argv ++ [p]) e w p PGSIZE H2 (held_off _ _ _ _ H2 Hin)) as (r & k3 & E3 & H3 & F3 & Hr); [intros x Hx; right; exists p; auto|exact Hw|unfold PGSIZE; lia|].
  rewrite (bind_ret_l _ _ _ _ _ E3). destruct (fetched_page_keeps k1 l1 argv p k2 l2 k3 l2 strs H1 H2 Ho F3 Hs1) as [Hs3 Hp3].
  assert (Hle3 : umem_le TRAPFRAME opt k1 k3) by (eapply umem_le_trans; [exact Hle2|apply F3]). pose proof (umem_le_trans _ _ _ _ _ Hle1 Hle3) as Hle.
  assert (Hp : forall x, upath <= x < upath + MAXPATH -> phys k3 x = phys k x) by (intros x Hx; rewrite Hp3, Hp1 by exact Hx; reflexivity).
  destruct Hr as [->|(Hr & str & Hstr & Hlen & Hc)].
  { exists false, (argv ++ [p]), k3, l2. split; [reflexivity|]. split; [exact H3|]. split; [exact Hle|]. split; [exact Hp|discriminate]. }
  replace (r <? 0) with false by lia.
  destruct (IH uargv (i + 1) (argv ++ [p]) e k3 l2 (strs ++ [str]) H3) as (ok & argv' & k' & l' & E & H' & Hle' & Hp' & Hok').
  { apply Forall2_app; [exact Hs3|]. constructor; [|constructor]. split; [exact Hc|exact Hlen]. }
  exists ok, argv', k', l'. split; [exact E|]. split; [exact H'|]. split; [exact (umem_le_trans _ _ _ _ _ Hle Hle')|]. split; [intros x Hx; rewrite Hp', Hp by exact Hx; reflexivity|].
  intros Et. destruct (Hok' Et) as (strs' & Hst & Hv & Hln). exists (str :: strs'). rewrite <- app_assoc in Hst. split; [exact Hst|]. split; [|simpl; lia].
  exists w. split; [exact Hw0|]. split; [eapply user_word_mono; [exact (umem_le_trans _ _ _ _ _ Hle3 Hle')|exact Hword]|]. split; [eapply user_string_mono; eassumption|exact Hv].
Qed.

(** The strings are fit for [kexec]. *)
Lemma strings_kernel k l argv strs : held k l argv -> strings k argv strs -> Forall2 (kernel_string k l (exec_scratch ustack)) argv strs.
Proof using All.
  unfold strings. rewrite !Forall2_same_length_lookup. intros H [El Hs]. split; [exact El|]. intros i a str Ha Hstr.
  destruct (Hs i a str Ha Hstr) as [Hc Hlen]. split; [exact Hc|]. split; [exact Hlen|]. apply list_elem_of_lookup_2 in Ha. intros x Hx.
  assert (Hin : in_page a x) by (unfold in_page, PGSIZE; lia). assert (Hp : page_ok (kend k0) a) by (apply (held_page k l argv); auto). split.
  - intros Hsc. apply (Hscr x a); [left; exact Hsc|exact Hp|exact Hin].
  - intros q Hq. apply (held_off _ _ _ _ H Ha); [unfold in_page, PGSIZE in Hin; lia|left; exact Hq].
Qed.

(** The pages that were taken are freed, whatever the address space is now. *)
Lemma free_args_run pt sz nm argv : forall k l (e : X), user_space trampoline tf pt sz k l -> NoDup argv ->
  (forall q, q ∈ argv -> page_ok (kend k) q /\ ~ mine TRAPFRAME pt k l q) ->
  exists k' l', free_args argv (Xst k e sz pt tf nm) = Ret tt (Xst k' e sz pt tf nm) /\ user_space trampoline tf pt sz k' l' /\ unchanged TRAPFRAME pt k k' /\
    kend k' = kend k /\ (forall q, mine TRAPFRAME pt k' l' q <-> mine TRAPFRAME pt k l q \/ q ∈ argv) /\
    forall x, (forall q, q ∈ argv -> ~ in_page q x) -> phys k' x = phys k x.
Proof using All.
  induction argv as [|a argv IH]; intros k l e Hs Hnd Hin; cbn [free_args].
  { exists k, l. split; [reflexivity|]. split; [exact Hs|]. split; [apply unchanged_refl|]. split; [reflexivity|]. split; [|auto].
    intros q. split; [auto|intros [H|H]; [exact H|apply elem_of_nil in H; contradiction]]. }
  apply NoDup_cons in Hnd as [Hna Hnd]. destruct (Hin a ltac:(left)) as [Hp Hm]. rewrite mine_owns in Hm.
  destruct (give_page TRAPFRAME pt k l a (us_as _ _ _ _ _ _ Hs) Hp ltac:(tauto) ltac:(tauto)) as (k1 & E1 & Ha1 & Hu1 & He1 & Ho1).
  rewrite (bind_ret_l _ _ _ _ _ (xmem _ _ _ _ _ _ _ _ _ E1)).
  assert (Hm1 : forall q, mine TRAPFRAME pt k1 (a :: l) q <-> q = a \/ mine TRAPFRAME pt k l q) by (intros q; rewrite !mine_owns, (unchanged_owns _ _ _ _ _ Hu1), elem_of_cons; tauto).
  destruct (IH k1 (a :: l) e) as (k' & l' & E & Hs' & Hu & He & Hm' & Hf); [eapply user_space_unchanged; eassumption|exact Hnd| |].
  { intros q Hq. rewrite He1, Hm1. destruct (Hin q ltac:(right; exact Hq)) as [H1 H2]. split; [exact H1|]. intros [->|H]; contradiction. }
  exists k', l'. split; [exact E|]. split; [exact Hs'|]. split; [eapply unchanged_trans; eassumption|]. split; [congruence|]. split.
  - intros q. rewrite Hm', Hm1, elem_of_cons. tauto.
  - intros x Hx. rewrite Hf by (intros q Hq; apply Hx; right; exact Hq). apply Ho1. apply Hx. left.
Qed.

Lemma string_at_cstr m str : forall n a, cstr m a str -> (length str < n)%nat -> string_at n m a = str.
Proof using All.
  induction str as [|c str IH]; intros [|n] a Hc Hn; cbn [length cstr string_at] in *; try lia; [rewrite Hc; reflexivity|].
  destruct Hc as (H1 & H2 & H3). rewrite H2. replace (c =? 0) with false by lia. f_equal. apply IH; [exact H3|lia].
Qed.

(** A program keeps running when pages that are not its own are written. *)
Lemma runs_unchanged pt sz entry psz c args k k' : sz <= TRAPFRAME -> unchanged TRAPFRAME pt k k' -> (forall x, in_page tf x -> phys k' x = phys k x) ->
  runs pt tf sz entry psz c args k -> runs pt tf sz entry psz c args k'.
Proof using All.
  intros Hsz Hu Ht [R1 R2 R3 (sp & c' & R4 & R5 & R6 & R7 & R8)].
  assert (Hl : forall o, 0 <= o <= 4088 -> load (phys k') (tf + o) 8 = load (phys k) (tf + o) 8).
  { intros o Ho. apply load_ext. intros x Hx. apply Ht. unfold in_page, PGSIZE. lia. }
  assert (Hp : PGROUNDUP psz <= sz) by lia. split; [exact R1| | |exists sp, c'; rewrite !Hl by lia; split; [|auto]].
  - intros va Hva. rewrite (uc_map _ _ _ _ Hu). auto.
  - intros va Hva. rewrite (uc_umem _ _ _ _ Hu) by lia. auto.
  - intros va Hva. rewrite (uc_umem _ _ _ _ Hu) by lia. auto.
Qed.

(** The call fails: the old program goes on with the memory it had. *)
Definition exec_failed (r : Z) (s' : xst X) : Prop :=
  r = -1 /\ x_sz s' = osz /\ x_pgtbl s' = opt /\ x_name s' = name /\ umem_le TRAPFRAME opt k0 (x_mem s') /\
  forall x, (forall q, have k0 l0 q -> ~ in_page q x) -> ~ sys_scratch x -> phys (x_mem s') x = phys k0 x.

(** It succeeds: the file at the path that is the user's string at [a0] runs,
    and its arguments are the strings of the user's vector at [a1]. *)
Definition exec_done (e : X) (a0 a1 r : Z) (s' : xst X) : Prop :=
  exists k1 path args, umem_le TRAPFRAME opt k0 k1 /\ user_string opt k1 a0 path /\ user_vector opt k1 a1 0 args /\
    r = Z.of_nat (length args) /\ x_name s' = take 15 (basename path path) /\
    (exists bs entry psz c, x_look e path = Some bs /\ program bs entry psz c /\ runs (x_pgtbl s') tf (x_sz s') entry psz c args (x_mem s')) /\
    forall x, (forall q, have k0 l0 q -> ~ in_page q x) -> ~ sys_scratch x -> ~ in_regs tf x -> phys (x_mem s') x = phys k0 x.

(** Either way the process has an address space and the pages are all there. *)
Definition exec_called (e : X) (a0 a1 r : Z) (s' : xst X) : Prop :=
  x_quiet (x_env s') /\ x_tf s' = tf /\ exists l', user_space trampoline tf (x_pgtbl s') (x_sz s') (x_mem s') l' /\
    (forall q, mine TRAPFRAME (x_pgtbl s') (x_mem s') l' q <-> have k0 l0 q) /\ (exec_failed r s' \/ exec_done e a0 a1 r s').

Lemma args_freed k l argv e : held k l argv -> x_quiet e -> forall a0 a1, exists s', (free_args argv ;; ret (-1)) (xs k e) = Ret (-1) s' /\ exec_called e a0 a1 (-1) s'.
Proof using All.
  intros H Hq a0 a1. destruct (free_args_run opt osz name argv k l e (hd_space _ _ _ H) (hd_nodup _ _ _ H)) as (k' & l' & E & Hs & Hu & He & Hm & Hf).
  { intros q Hin. rewrite (hd_end _ _ _ H). split; [apply (held_page k l argv); auto|apply (hd_apart _ _ _ H q Hin)]. }
  exists (xs k' e). split; [rewrite (bind_ret_l _ _ _ _ _ E); reflexivity|]. split; [exact Hq|]. split; [reflexivity|]. exists l'. cbn [x_pgtbl x_sz x_mem]. split; [exact Hs|].
  split; [intros q; rewrite Hm, (hd_mine _ _ _ H); reflexivity|left]. split; [reflexivity|]. split; [reflexivity|]. split; [reflexivity|]. split; [reflexivity|]. cbn [x_mem]. split.
  - eapply umem_le_trans; [apply H|apply unchanged_le, Hu].
  - intros x Hx Hsc. rewrite Hf by (intros q Hin; apply Hx, (hd_mine _ _ _ H); auto). apply (hd_frame _ _ _ H); auto.
Qed.

Lemma kexec_called k l argv e path args a0 a1 : held k l argv -> x_quiet e -> strings k argv args -> Z.of_nat (length argv) < MAXARG ->
  user_string opt k a0 path -> user_vector opt k a1 0 args ->
  exists r s', (let! r := kexec trampoline ustack path argv in free_args argv ;; ret r) (xs k e) = Ret r s' /\ exec_called e a0 a1 r s'.
Proof using All.
  intros H Hq Hst Hlen Hpath Hvec. assert (Htf : ~ have k l tf) by (intros Hin; apply Hmine, (hd_mine _ _ _ H); auto). rewrite mine_owns in Htf.
  destruct (kexec_full trampoline ustack path argv args (xs k e) l Htr Htr' (hd_space _ _ _ H)) as (r & s' & l' & E & Hq' & Ht & He & Hs & Hm & Hr);
    cbn [x_mem x_tf x_pgtbl x_sz x_env x_name] in *; [rewrite (hd_end _ _ _ H); exact Hok|tauto|tauto| |exact Hq|apply strings_kernel; auto|exact Hlen|].
  { intros x q Hx. rewrite (hd_end _ _ _ H). apply Hscr. left. exact Hx. }
  destruct s' as [k' e' sz' pt' tf' nm']. cbn [x_mem x_tf x_pgtbl x_sz x_env x_name] in *. subst tf'.
  destruct (free_args_run pt' sz' nm' argv k' l' e' Hs (hd_nodup _ _ _ H)) as (k2 & l2 & E2 & Hs2 & Hu2 & He2 & Hm2 & Hf2).
  { intros q Hin. rewrite He, (hd_end _ _ _ H), Hm. split; [apply (held_page k l argv); auto|apply (hd_apart _ _ _ H q Hin)]. }
  exists r, (Xst k2 e' sz' pt' tf nm'). split; [rewrite (bind_ret_l _ _ _ _ _ E), (bind_ret_l _ _ _ _ _ E2); reflexivity|].
  assert (Hin : forall q, q ∈ argv -> have k0 l0 q) by (intros q Hin; apply (hd_mine _ _ _ H); auto). assert (Hin' : forall q, have k l q -> have k0 l0 q) by (intros q Hq0; apply (hd_mine _ _ _ H); auto).
  split; [exact Hq'|]. split; [reflexivity|]. exists l2. cbn [x_mem x_pgtbl x_sz]. split; [exact Hs2|]. split; [intros q; rewrite Hm2, Hm, (hd_mine _ _ _ H); reflexivity|].
  destruct Hr as [(-> & -> & -> & -> & _ & Hu & Hf)|(-> & Hnm & (bs & entry & psz & c & Hlook & Hprog & Hruns) & Hf)]; [left|right].
  - split; [reflexivity|]. split; [reflexivity|]. split; [reflexivity|]. split; [reflexivity|]. cbn [x_mem].
    split; [eapply umem_le_trans; [apply H|]; eapply umem_le_trans; [apply unchanged_le, Hu|apply unchanged_le, Hu2]|].
    intros x Hx Hsc. rewrite Hf2 by auto. rewrite Hf; [apply (hd_frame _ _ _ H); auto|intros q Hl; apply Hx, Hin'; left; exact Hl|intros Hsx; apply Hsc; left; exact Hsx].
  - exists k, path, args. split; [apply H|]. split; [exact Hpath|]. split; [exact Hvec|]. split; [reflexivity|]. split; [exact Hnm|]. cbn [x_mem x_pgtbl x_sz]. split.
    + exists bs, entry, psz, c. split; [exact Hlook|]. split; [exact Hprog|]. apply (runs_unchanged _ _ _ _ _ _ k'); auto; [apply (us_size _ _ _ _ _ _ Hs)|].
      intros x Hx. apply Hf2. intros q Hq0 Hp. apply (page_ok_ne (kend k0) tf q) in Hx; auto; [apply (held_page k l argv); auto|intros ->; auto].
    + intros x Hx Hsc Hrg. rewrite Hf2 by auto. rewrite Hf; [apply (hd_frame _ _ _ H); auto|auto|intros Hsx; apply Hsc; left; exact Hsx|exact Hrg].
Qed.

Lemma arg_run n k (e : X) : arg n (xs k e) = Ret (load (phys k) (tf + 112 + 8 * n) 8) (xs k e).
Proof using Type. reflexivity. Qed.

Lemma sys_exec_run (e : X) : x_quiet e ->
  exists r s', sys_exec trampoline ustack upath uarg (xs k0 e) = Ret r s' /\ exec_called e (load (phys k0) (tf + 112) 8) (load (phys k0) (tf + 120) 8) r s'.
Proof using All.
  intros Hq. unfold sys_exec. rewrite (bind_ret_l _ _ _ _ _ (arg_run 1 k0 e)), (bind_ret_l _ _ _ _ _ (arg_run 0 k0 e)).
  replace (tf + 112 + 8 * 1) with (tf + 120) by lia. replace (tf + 112 + 8 * 0) with (tf + 112) by lia.
  set (a0 := load _ (tf + 112) 8). set (a1 := load _ (tf + 120) 8). pose proof held_start as H0.
  assert (Ha0 : 0 <= a0 < 2 ^ 64) by (apply (load_bound 8), (kinv_bytes _ _ (as_inv _ _ _ _ (us_as _ _ _ _ _ _ Hold)))).
  assert (Hloc : forall x, upath <= x < upath + MAXPATH -> sys_scratch x) by (intros x Hx; right; left; exact Hx).
  destruct (fetch_str_run k0 l0 [] e a0 upath MAXPATH H0 (scratch_off _ _ _ _ _ H0 Hloc)) as (r & k1 & E1 & H1 & F1 & Hr); [auto|exact Ha0|closed|].
  rewrite (bind_ret_l _ _ _ _ _ E1). destruct Hr as [->|(Hr & path & Hpath & Hlen & Hc)]; [apply (args_freed k1 l0 [] e) with (a0 := a0) (a1 := a1) in H1 as (s' & E & H); [|exact Hq]; exists (-1), s'; auto|].
  replace (r <? 0) with false by lia.
  destruct (exec_args_run (Z.to_nat MAXARG) a1 0 [] e k1 l0 [] H1 ltac:(constructor)) as (ok & argv & k2 & l2 & E2 & H2 & Hle & Hp & Hok2). rewrite (bind_ret_l _ _ _ _ _ E2).
  destruct ok; cbn [negb]; [|destruct (args_freed k2 l2 argv e H2 Hq a0 a1) as (s' & E & H); exists (-1), s'; auto].
  destruct (Hok2 eq_refl) as (args & Hst & Hvec & Hln). rewrite bind_gets. cbn [x_mem]. rewrite (string_at_cstr (phys k2) path).
  - apply (kexec_called k2 l2 argv e path args a0 a1 H2 Hq Hst); [apply Forall2_length in Hst; simpl in Hst; unfold MAXARG in *; lia|eapply user_string_mono; eassumption|exact Hvec].
  - eapply cstr_ext; [|exact Hc]. intros x Hx. apply Hp. lia.
  - unfold MAXPATH in *. lia.
Qed.
End Call.
