(* ===== verification/ExecFile.v ===== *)
(** * The file system [kexec] reads from

    The functions of [Fs] and the log as the interface [ExecFs] of [Exec], and
    the proof that they have its laws: [x_look] is the file the directory tree
    of the disk has under the path.  With it the theorems on [kexec] and the exec
    system call are about the file system of the kernel. *)

From S2P Require Import Prelude CString Riscv Sleeplock Spinlock Kalloc Vm Block Log Txn TxnOps UserMem Fs FsBlocks FsInode FsData FsSpec FsDir File FileSpec FsPath.
From S2P Require Import Proc PageTable AddressSpace CopyUser Spaces ProcMem Exec ExecSpec SysExec SysExecSpec.

(** ** Disks that differ in the log only *)

Section Agree.
Context (dev : Z) (sb : superblock) (v v' : Z -> block) (Hsb : sb_ok sb) (Hv : forall b, sb_inodestart sb <= b -> v' b = v b).

Lemma agree_dinode i : inode_in sb i -> dinode dev v' sb i = dinode dev v sb i.
Proof using Hsb Hv.
  intros Hi. unfold dinode. rewrite (Hv (IBLOCK i sb)); [reflexivity|]. pose proof (IBLOCK_eq sb i Hsb Hi). unfold inode_in in Hi. dlia.
Qed.

Lemma agree_live i : live dev v' sb i <-> live dev v sb i.
Proof using Hsb Hv. unfold live. split; intros [Hi Ht]; (split; [exact Hi|]); rewrite agree_dinode in * by exact Hi; exact Ht. Qed.

Lemma agree_linked i : linked dev v' sb i <-> linked dev v sb i.
Proof using Hsb Hv. unfold linked. rewrite agree_live. split; intros [Hl Hn]; (split; [exact Hl|]); rewrite agree_dinode in * by apply Hl; exact Hn. Qed.

Lemma agree_contents i off n : file_ok v sb i -> has_blocks v i -> 0 <= off -> off + n <= i_size i -> contents v' i off n = contents v i off n.
Proof using Hsb Hv.
  intros Hf Hb Ho Hn. unfold contents. apply list_fmap_ext. intros k x Hx. apply lookup_seqZ in Hx as [-> Hk].
  apply (agree_byte sb v v'); auto; [split; reflexivity|lia].
Qed.

Lemma agree_dir i name : file_ok v sb i -> has_blocks v i -> dir_get v' i name = dir_get v i name.
Proof using Hsb Hv.
  intros Hf Hb. unfold dir_get, dir_find. f_equal. pose proof (hb_size _ _ Hb).
  assert (Hs : forall n off, 0 <= off -> off + DIRENT * Z.of_nat n <= i_size i -> dir_scan n v' i name off = dir_scan n v i name off).
  { induction n as [|n IH]; intros off H0 H1; cbn [dir_scan]; [reflexivity|]. unfold DIRENT in *. rewrite agree_contents, IH by (auto; lia). reflexivity. }
  apply Hs; [lia|]. unfold DIRENT. dlia.
Qed.

Lemma agree_resolve : image_ok dev v sb -> forall ns parent i, linked dev v sb i -> resolve dev v' sb parent i ns = resolve dev v sb parent i ns.
Proof using Hsb Hv.
  intros Him. induction ns as [|n ns IH]; intros parent i Hl; cbn [resolve]; [reflexivity|]. pose proof (proj1 Hl) as Hlv. destruct (im_file _ _ _ Him i Hlv) as [Hf Hb].
  rewrite agree_dinode by apply Hlv. destruct (Z.eqb_spec (i_type (dinode dev v sb i)) T_DIR) as [Ht|]; [|reflexivity]. destruct (_ && _); [reflexivity|].
  rewrite agree_dir by assumption. destruct (dir_get v (dinode dev v sb i) n) as [j|] eqn:E; [|reflexivity]. apply IH, (im_entry _ _ _ Him i n j Hl Ht E).
Qed.

Lemma agree_image : image_ok dev v sb -> image_ok dev v' sb.
Proof using Hsb Hv.
  intros Him. split.
  - intros i Hl. apply agree_live in Hl. rewrite agree_dinode by apply Hl. destruct (im_file _ _ _ Him i Hl) as [Hf [Hb1 Hb2]].
    assert (Hind : ind_of (dinode dev v sb i) <> 0 -> v' (ind_of (dinode dev v sb i)) = v (ind_of (dinode dev v sb i))) by (apply (agree_ind sb); assumption).
    split; [|split; [exact Hb1|intros o Ho; rewrite (addr_of_ext v v') by exact Hind; auto]].
    apply (file_ok_ext v); [exact Hf|exact Hind|]. intros b Hb Hu. rewrite (agree_used sb v v'); auto. pose proof (datastart_pos _ Hsb). lia.
  - intros i Hl. apply agree_live in Hl. rewrite agree_dinode by apply Hl. apply (im_dir _ _ _ Him i Hl).
  - intros i name j Hl. apply agree_linked in Hl. destruct (im_file _ _ _ Him i (proj1 Hl)) as [Hf Hb].
    rewrite agree_dinode, agree_dir, agree_linked by (assumption || apply Hl). apply (im_entry _ _ _ Him i name j Hl).
  - apply agree_linked, Him.
Qed.

Lemma agree_table {T U : Type} h R (s : fs T U) : f_sb s = sb -> table dev h R v s -> table dev h R v' s.
Proof using Hsb Hv.
  intros Es [H1 H2 H3 H4 H5]. split; auto. intros k Hk Hr. destruct (H4 k Hk Hr) as (E1 & E2 & E3). rewrite Es in *. split; [exact E1|].
  split; [apply agree_live, E2|]. intros Hval. destruct (E3 Hval). split; rewrite agree_dinode by apply E2; assumption.
Qed.
End Agree.

(** A part of a file. *)
Lemma contents_slice v i off n m : 0 <= off -> 0 <= n -> off + n <= m -> contents v i off n = take (Z.to_nat n) (drop (Z.to_nat off) (contents v i 0 m)).
Proof.
  intros Ho Hn Hm. apply list_eq. intros k. apply option_eq. intros b. rewrite contents_lookup, lookup_take_Some, lookup_drop, contents_lookup.
  replace (0 + Z.of_nat (Z.to_nat off + k)) with (off + Z.of_nat k) by lia. split; [intros [H ->]|intros [[H ->] H']]; split_and!; try reflexivity; lia.
Qed.

Lemma write_bytes_app xs : forall m a ys, write_bytes m a (xs ++ ys) = write_bytes (write_bytes m a xs) (a + Z.of_nat (length xs)) ys.
Proof.
  induction xs as [|x xs IH]; intros m a ys; cbn [app write_bytes length]; [rewrite Z.add_0_r; reflexivity|]. rewrite IH. f_equal. lia.
Qed.

(** ** The operations *)

Section Operations.
Context {T : Type} `{TX : Txn T} `{TC : TxnCtl T} (wakeups : nat).

(** The file system over the memory of the machine. *)
Definition fs_at : lens (kst * fs T kst) (fs T kst) := Lens (fun x => set Fs.user_of x.1 x.2) (fun s _ => (f_user s, s)).

(** [either_copyout] with [user_dst == 0]. *)
Definition kernel_sink (acc : unit) (dst : Z) (bs : list Z) : M (fs T kst) (bool * unit) :=
  zoom Fs.user_of (modify (fun k => set_phys (write_bytes (phys k) dst bs) k)) ;;
  ret (true, tt).

Definition exec_fs : ExecFs (fs T kst) := {|
  x_begin_op := zoom fs_at (zoom Fs.txn_of t_begin_op);
  x_end_op := zoom fs_at (zoom Fs.txn_of t_end_op);
  x_namei path := zoom fs_at (namei (S wakeups) path);
  x_ilock ip := zoom fs_at (ilock (S wakeups) ip);
  x_iunlockput ip := zoom fs_at (iunlockput (S wakeups) ip);
  x_read_local ip off n := zoom fs_at (readi_local ip off n);
  x_readi ip dst off n := zoom fs_at (let! (tot, _) := readi_gen kernel_sink ip tt dst off n in ret tot)
|}.
End Operations.

(** ** Their laws *)

Section Laws.
Context {T : Type} `{TX : Txn T} `{TC : TxnCtl T} {TI TA : TxnLaws T ROOTDEV} `{CL : !TxnCtlLaws T ROOTDEV TI TA} (wakeups : nat).
(** The disk, the references to inodes the rest of the kernel has, and the
    entry and number of the current directory. *)
Context (sb : superblock) (v0 : Z -> block) (R : Z -> Z) (cwd cwdi : Z).
Hypothesis (Hsb : sb_ok sb) (Him : image_ok ROOTDEV v0 sb) (Hbytes : byte_view v0) (Hroom : roomy R).
Hypothesis (Hcwd : 0 <= cwd < NINODE) (Hcwdr : 0 < R cwd) (Hcwdi : linked ROOTDEV v0 sb cwdi).
#[local] Instance the_fs : ExecFs (fs T kst) := exec_fs wakeups.
Implicit Types e : fs T kst.

(** The disk is [v0] but for the log; entry [h], if any, is locked. *)
Record mounted (TL : TxnLaws T ROOTDEV) (e : fs T kst) (v : Z -> block) (L : list Z) (r h : Z) (R' : Z -> Z) : Prop := {
  mt_sb : f_sb e = sb;
  mt_agree : forall b, sb_inodestart sb <= b -> v b = v0 b;
  mt_cwd : f_cwd e = cwd;
  mt_cwdi : i_inum (f_inode e cwd) = cwdi;
  mt_blocks : blocks ROOTDEV (TL := TL) e [] v L r;
  mt_table : table ROOTDEV h R' v e
}.

Definition more (ip : Z) : Z -> Z := upd R ip (R ip + 1).
Definition from (path : list Z) : Z := if cchar path 0 =? slash then ROOTINO else cwdi.
Definition file_of (i : Z) : list Z := contents v0 (dinode ROOTDEV v0 sb i) 0 (i_size (dinode ROOTDEV v0 sb i)).
Definition look (path : list Z) : option (list Z) := file_of <$> resolve ROOTDEV v0 sb false (from path) (elems path).

Definition quiet e : Prop := exists v, mounted TI e v [] 0 NULL R.
Definition busy e : Prop := exists v L r, mounted TA e v L r NULL R.
Definition found e (path : list Z) (ip : Z) : Prop :=
  0 <= ip < NINODE /\ resolve ROOTDEV v0 sb false (from path) (elems path) = Some (i_inum (f_inode e ip)) /\ exists v L r, mounted TA e v L r NULL (more ip).
Definition opened e (ip : Z) (bs : list Z) : Prop :=
  0 <= ip < NINODE /\ linked ROOTDEV v0 sb (i_inum (f_inode e ip)) /\ i_dev (f_inode e ip) = ROOTDEV /\ i_valid (f_inode e ip) = true /\
  bs = file_of (i_inum (f_inode e ip)) /\ exists v L r, mounted TA e v L r ip (more ip).

(** The memory of the machine is not part of it. *)
Lemma mounted_at TL k e v L r h R' : mounted TL e v L r h R' -> mounted TL (set Fs.user_of k e) v L r h R'.
Proof using Type. intros [H1 H2 H3 H4 H5 [T1 T2 T3 T4 T5]]. split; auto. split; assumption. Qed.

Lemma zoom_fs {A} (m : M (fs T kst) A) k e a e' : m (set Fs.user_of k e) = Ret a e' -> f_user e' = k -> zoom fs_at m (k, e) = Ret a (k, e').
Proof using Type. intros E <-. apply (zoom_ret fs_at m (f_user e', e) a e' E). Qed.

Lemma begin_law k e : quiet e -> exists e', x_begin_op (k, e) = Ret tt (k, e') /\ busy e'.
Proof using CL.
  intros (v & M). apply (mounted_at _ k) in M. set (s := set Fs.user_of k e) in *. destruct M as [M1 M2 M3 M4 [B1 B2] M6].
  destruct (t_begin (f_txn s) v B1) as (x & E & B). exists (at_txn x s). split; [apply zoom_fs; [apply (zoom_ret Fs.txn_of _ s); exact E|reflexivity]|].
  exists v, [], MAXOPBLOCKS. split; auto; [|apply table_txn, M6]. split; [exact B|]. intros b Hb. apply t_same_home, B2, Hb.
Qed.

Lemma end_law k e : busy e -> exists e', x_end_op (k, e) = Ret tt (k, e') /\ quiet e'.
Proof using CL Hsb.
  intros (v & L & r & M). apply (mounted_at _ k) in M. set (s := set Fs.user_of k e) in *. destruct M as [M1 M2 M3 M4 [B1 B2] M6].
  destruct (t_end (f_txn s) v L r B1) as (x & v' & E & B & Hv & _). exists (at_txn x s). split; [apply zoom_fs; [apply (zoom_ret Fs.txn_of _ s); exact E|reflexivity]|].
  assert (Hh : forall b, sb_inodestart sb <= b -> t_home (TxnLaws := TI) b) by (intros b Hb; apply t_same_home, B2; rewrite M1; exact Hb).
  exists v'. split; auto; [intros b Hb; rewrite Hv by auto; auto|split; [exact B|]; intros b Hb; simpl in Hb; apply Hh; rewrite <- M1; exact Hb|].
  apply (agree_table ROOTDEV sb v v' Hsb); auto. apply table_txn, M6.
Qed.

Lemma from_linked path : linked ROOTDEV v0 sb (from path).
Proof using Him Hcwdi. unfold from. destruct (_ =? _); [apply Him|exact Hcwdi]. Qed.

Lemma namei_law path k e : busy e -> exists ip e', x_namei path (k, e) = Ret ip (k, e') /\ (ip = NOINODE /\ busy e' \/ ip <> NOINODE /\ found e' path ip).
Proof using All.
  intros (v & L & r & M). apply (mounted_at _ k) in M. set (s := set Fs.user_of k e) in *. destruct M as [M1 M2 M3 M4 M5 M6].
  assert (Hfrom : start_of s path = from path) by (unfold start_of, from; rewrite M3, M4; reflexivity).
  destruct (namex_run wakeups path false s v L r R) as ([ip nm] & s' & E & (x & g & Es) & B & Hs & Ha); auto; [rewrite M1; apply (agree_image ROOTDEV sb v0); auto| |].
  { intros _. rewrite M1, M3, M4. split; [exact Hcwd|]. split; [exact Hcwdr|]. apply (agree_linked ROOTDEV sb v0 v); auto. }
  exists ip, s'. split; [apply zoom_fs; [unfold namei; rewrite (bind_ret_l _ _ _ _ _ E); reflexivity|rewrite Es; reflexivity]|].
  assert (Hm : forall h R', table ROOTDEV h R' v s' -> mounted TA s' v L r h R').
  { intros h R' Ht. split; auto; [rewrite Es; exact M1|rewrite Es; exact M3|rewrite Hs; auto]. }
  rewrite M1, Hfrom, (agree_resolve ROOTDEV sb v0 v Hsb M2 Him _ _ _ (from_linked path)) in Ha.
  destruct (resolve ROOTDEV v0 sb false (from path) (elems path)) as [j|] eqn:Er.
  - destruct Ha as (Hip & Hj & Ht & _). simpl in Hip, Hj, Ht. right. split; [unfold NOINODE; lia|]. split; [exact Hip|]. rewrite Hj. split; [exact Er|]. exists v, L, r. apply Hm, Ht.
  - destruct Ha as [Hn Ht]. simpl in Hn. subst ip. left. split; [reflexivity|]. exists v, L, r. apply Hm, Ht.
Qed.

Lemma more_pos ip : 0 <= ip < NINODE -> 0 < more ip ip.
Proof using Hroom. intros Hip. destruct (rm_range _ Hroom ip Hip). unfold more, upd. rewrite Z.eqb_refl. lia. Qed.

Lemma ilock_law path ip k e : found e path ip -> exists e' bs, x_ilock ip (k, e) = Ret tt (k, e') /\ opened e' ip bs /\ look path = Some bs.
Proof using All.
  intros (Hip & Hr & v & L & r & M). apply (mounted_at _ k) in M. change (f_inode e ip) with (f_inode (set Fs.user_of k e) ip) in Hr. set (s := set Fs.user_of k e) in *. destruct M as [M1 M2 M3 M4 M5 M6].
  destruct (ilock_step ROOTDEV wakeups (more ip) v L r s ip M6 Hip (more_pos ip Hip) M5) as (x & g & E & B & Ht & Hi & Hd & Hval & _ & Hg).
  exists (at_inodes g (at_txn x s)), (file_of (i_inum (f_inode s ip))). split; [apply zoom_fs; [exact E|reflexivity]|]. split; [|unfold look; rewrite Hr; reflexivity].
  pose proof (walk_linked ROOTDEV v0 sb Him _ _ _ _ (from_linked path) Hr) as Hl.
  split; [exact Hip|]. cbn [f_inode at_inodes]. rewrite Hi. split; [exact Hl|]. split; [exact Hd|]. split; [exact Hval|]. split; [reflexivity|]. exists v, L, r.
  split; auto. cbn [f_inode at_inodes]. destruct (decide (cwd = ip)) as [->|Hne]; [congruence|rewrite Hg by exact Hne; exact M4].
Qed.

Lemma iunlockput_law ip bs k e : opened e ip bs -> exists e', x_iunlockput ip (k, e) = Ret tt (k, e') /\ busy e'.
Proof using All.
  intros (Hip & Hl & _ & _ & _ & v & L & r & M). apply (mounted_at _ k) in M. change (f_inode e ip) with (f_inode (set Fs.user_of k e) ip) in Hl. set (s := set Fs.user_of k e) in *. destruct M as [M1 M2 M3 M4 M5 M6].
  destruct (iunlockput_step ROOTDEV (S wakeups) (more ip) v s ip M6 Hip (more_pos ip Hip)) as (g & E & Ht & Hn & _); [rewrite M1; apply (agree_linked ROOTDEV sb v0 v); auto|].
  exists (at_inodes g s). split; [apply zoom_fs; [exact E|reflexivity]|]. exists v, L, r. split; auto; [cbn [f_inode at_inodes]; rewrite Hn; exact M4|].
  eapply table_ext; [|exact Ht]. intros j Hj. unfold more, upd. rewrite Z.eqb_refl. destruct (Z.eqb_spec j ip); subst; lia.
Qed.

(** A file that is open has the bytes the disk has. *)
Lemma opened_bytes ip bs k e : opened e ip bs -> let s := set Fs.user_of k e in let i := f_inode s ip in
  exists v L r, mounted TA s v L r ip (more ip) /\ has_blocks v i /\ i_size i = Z.of_nat (length bs) /\
    forall o n, 0 <= o -> 0 <= n -> o + n <= i_size i -> contents v i o n = take (Z.to_nat n) (drop (Z.to_nat o) bs).
Proof using All.
  intros (Hip & [Hl _] & Hd & Hval & Ebs & v & L & r & M) s i. apply (mounted_at _ k) in M. exists v, L, r. split; [exact M|].
  change (f_inode e ip) with i in *. destruct (tb_entry _ _ _ _ _ (mt_table _ _ _ _ _ _ _ M) ip Hip (more_pos ip Hip)) as (_ & _ & Hld). specialize (Hld Hval).
  rewrite (mt_sb _ _ _ _ _ _ _ M) in Hld. pose proof (mt_agree _ _ _ _ _ _ _ M) as Hag. change (loaded ROOTDEV v sb i) in Hld.
  pose proof (ld_size _ _ _ _ Hld) as Es. pose proof (ld_addrs _ _ _ _ Hld) as Ea. rewrite (agree_dinode ROOTDEV sb v0 v Hsb Hag) in Es, Ea by apply Hl.
  set (d := dinode ROOTDEV v0 sb (i_inum i)) in *. destruct (im_file _ _ _ Him _ Hl) as [Hf Hb]. fold d in Hf, Hb.
  assert (Hb' : has_blocks v d).
  { apply (agree_live ROOTDEV sb v0 v Hsb Hag) in Hl. destruct (im_file _ _ _ (agree_image ROOTDEV sb v0 v Hsb Hag Him) _ Hl) as [_ H].
    rewrite (agree_dinode ROOTDEV sb v0 v Hsb Hag) in H by apply Hl. exact H. }
  pose proof (hb_size _ _ Hb) as Hsz. split; [apply (has_blocks_same v d); auto|]. split.
  - rewrite Ebs. unfold file_of. fold d. rewrite contents_length by lia. exact Es.
  - intros o n Ho Hn Hle. rewrite Ebs. unfold file_of. fold d. rewrite <- (contents_slice v0 d o n) by lia. rewrite <- (agree_contents sb v0 v Hsb Hag) by (auto; lia).
    unfold contents. apply list_fmap_ext. intros j x _. apply byte_at_same, Ea.
Qed.

Lemma opened_after k k' ip bs e v L r x : let s := set Fs.user_of k e in
  opened e ip bs -> mounted TA s v L r ip (more ip) -> blocks ROOTDEV (TL := TA) (at_txn x s) [] v L r -> opened (FsData.at_user k' (at_txn x s)) ip bs.
Proof using Type.
  intros s (H1 & H2 & H3 & H4 & H5 & _) [M1 M2 M3 M4 M5 M6] B. repeat (split; [assumption|]). exists v, L, r. apply (mounted_at _ k'). split; auto. apply table_txn, M6.
Qed.

Lemma file_bytes i : live ROOTDEV v0 sb i -> Forall (fun b => 0 <= b < 256) (file_of i) /\ Z.of_nat (length (file_of i)) < 2 ^ 31.
Proof using Him Hbytes.
  intros Hl. destruct (im_file _ _ _ Him i Hl) as [_ Hb]. pose proof (hb_size _ _ Hb) as Hs. unfold file_of. split.
  - apply Forall_lookup. intros j b Hj. apply contents_lookup in Hj as [_ ->]. apply Hbytes.
  - rewrite contents_length by lia. change (MAXFILE * BSIZE) with 274432 in Hs. lia.
Qed.

Lemma local_law ip bs off n k e : opened e ip bs -> 0 <= off < 2 ^ 32 -> 0 < n < 2 ^ 31 ->
  exists r ys e', x_read_local ip off n (k, e) = Ret (r, ys) (k, e') /\ opened e' ip bs /\
    (r = n -> off + n <= Z.of_nat (length bs) /\ ys = take (Z.to_nat n) (drop (Z.to_nat off) bs)).
Proof using All.
  intros H Hoff Hn. pose proof H as (Hip & _ & Hd & _). destruct (opened_bytes ip bs k e H) as (v & L & r & M & Hb & Hs & Hc). set (s := set Fs.user_of k e) in *.
  destruct (readi_local_ok ROOTDEV v L r ip off n s Hd Hoff ltac:(lia) Hb (mt_blocks _ _ _ _ _ _ _ M)) as (x & E & B). set (i := f_inode s ip) in *.
  exists (avail i off n), (contents v i off (avail i off n)), (at_txn x s). split; [apply zoom_fs; [exact E|reflexivity]|]. split.
  - apply (opened_after k k ip bs e v L r x H M B).
  - intros Er. rewrite Er. assert (Hle : off + n <= i_size i) by (unfold avail in Er; destruct (_ || _); lia). split; [lia|]. apply Hc; lia.
Qed.

Lemma readi_law ip bs pa off n k e : opened e ip bs -> byte_mem (phys k) -> 0 <= off < 2 ^ 32 -> 0 < n <= PGSIZE -> 0 <= pa -> pa + n <= 2 ^ 64 ->
  exists r m' e', x_readi ip pa off n (k, e) = Ret r (set_phys m' k, e') /\ opened e' ip bs /\ byte_mem m' /\
    (forall x, ~ pa <= x < pa + n -> m' x = phys k x) /\
    (r = n -> off + n <= Z.of_nat (length bs) /\ forall j, 0 <= j < n -> Some (m' (pa + j)) = bs !! Z.to_nat (off + j)).
Proof using All.
  intros H Hk Hoff Hn Hpa Hend. unfold PGSIZE in Hn. pose proof H as (_ & Hlk & Hd & _ & Ebs & _). destruct (opened_bytes ip bs k e H) as (v & L & r & M & Hb & Hs & Hc).
  set (s := set Fs.user_of k e) in *. set (i := f_inode s ip) in *. set (n' := avail i off n). pose proof (hb_size _ _ Hb) as Hsz.
  assert (Hn' : 0 <= n' <= n /\ (0 < n' -> off + n' <= i_size i)) by (unfold n', avail; destruct (_ || _) eqn:Et; [lia|b2p; lia]).
  set (to := fun m => set_phys (write_bytes (phys k) pa (contents v i off m)) k).
  destruct (readi_gen_ok ROOTDEV kernel_sink v L r ip off pa n tt (fun m _ u => u = to m) (fun _ _ => False) s) as (tot & acc & u & x & E & B & Hres); auto; try lia.
  - intros m m2 [] s1 Hm Hm2 Hle Hu. fold i n' in Hle. exists true, tt, (to (m + m2)). split; [|reflexivity]. unfold kernel_sink, to. rewrite u64_small by lia.
    rewrite contents_app, write_bytes_app by lia. rewrite (contents_length v i off m) by lia. cbv [zoom modify bind ret view set Fs.user_of]. rewrite Hu. reflexivity.
  - apply M.
  - unfold to. change (contents v i off 0) with (@nil Z). destruct k; reflexivity.
  - destruct Hres as [[-> ->]|[_ []]]. fold i n'. exists n', (write_bytes (phys k) pa (contents v i off n')), (FsData.at_user (to n') (at_txn x s)).
    split; [|split; [apply (opened_after k (to n') ip bs e v L r x H M B)|]].
    { unfold x_readi, the_fs, exec_fs. change (set_phys _ k, ?e) with (f_user e, e). apply (zoom_ret fs_at _ (k, e)). change (view fs_at (k, e)) with s. rewrite (bind_ret_l _ _ _ _ _ E). reflexivity. }
    assert (Hlen : Z.of_nat (length (contents v i off n')) = n') by (apply contents_length; lia).
    split; [|split].
    + apply write_bytes_byte; [exact Hk|]. destruct (decide (n' = 0)) as [->|]; [constructor|]. rewrite Hc by lia. apply Forall_take, Forall_drop. rewrite Ebs.
      apply (file_bytes _ (proj1 Hlk)).
    + intros y Hy. apply write_bytes_outside. lia.
    + intros Er. assert (Hle : off + n <= i_size i) by lia. split; [lia|]. intros j Hj. rewrite Er. replace (pa + j) with (pa + Z.of_nat (Z.to_nat j)) by lia.
      assert (Hl : exists b, bs !! Z.to_nat (off + j) = Some b) by (apply lookup_lt_is_Some_2; lia). destruct Hl as [b Hl]. rewrite Hl. f_equal. apply write_bytes_lookup.
      rewrite Hc by lia. rewrite lookup_take_lt, lookup_drop by lia. rewrite <- Hl. f_equal. lia.
Qed.

Definition exec_fs_laws : ExecFsLaws (fs T kst).
Proof using All.
  refine {| x_quiet := quiet; x_busy := busy; x_look _ := look; x_found := found; x_file := opened; x_scratch _ := False |}.
  - intros e ip bs (_ & [Hl _] & _ & _ & -> & _). apply file_bytes, Hl.
  - intros k e He. destruct (begin_law k e He) as (e' & E & H). eauto.
  - apply end_law.
  - intros path k e He. destruct (namei_law path k e He) as (ip & e' & E & [H|[H1 H2]]); exists ip, e'; auto 6.
  - apply ilock_law.
  - apply iunlockput_law.
  - apply local_law.
  - intros ip bs pa off n k e H1 H2 H3 H4 H5 H6 _. destruct (readi_law ip bs pa off n k e H1 H2 H3 H4 H5 H6) as (r & m' & e' & E & Hf & Hm & Ho & Hr).
    exists r, m', e'. auto 6.
Defined.
End Laws.

(** C5. The exec system call on the kernel's file system always returns.
    Either it returns -1 and the old program goes on, with its size, page table
    and name and with all the memory it had; or the new program runs: the path
    that is the user's string at the first argument leads, in the directory tree
    of the disk, to a file whose ELF headers describe the memory of the process,
    the arguments on its stack are the strings of the user's vector at the
    second, in order and up to the null pointer, and the result is their
    number.  In both cases the file system is between operations again with the
    same references to inodes, the process has a well-formed address space, the
    pages that held the arguments are free, no page is lost, and nothing else
    in memory is written. *)
Theorem exec_runs_file {T : Type} `{TX : Txn T} `{TC : TxnCtl T} {TI TA : TxnLaws T ROOTDEV} `{CL : !TxnCtlLaws T ROOTDEV TI TA}
    (wakeups : nat) (sb : superblock) (v0 : Z -> block) (R : Z -> Z) (cwd cwdi trampoline ustack upath uarg : Z) (s : xst (fs T kst)) (l : list Z) :
  sb_ok sb -> image_ok ROOTDEV v0 sb -> byte_view v0 -> roomy R -> 0 <= cwd < NINODE -> 0 < R cwd -> linked ROOTDEV v0 sb cwdi ->
  quiet (TI := TI) sb v0 R cwd cwdi (x_env s) ->
  trampoline mod 4096 = 0 -> 0 <= trampoline < 2 ^ 56 ->
  user_space trampoline (x_tf s) (x_pgtbl s) (x_sz s) (x_mem s) l ->
  page_ok (kend (x_mem s)) (x_tf s) -> ~ mine TRAPFRAME (x_pgtbl s) (x_mem s) l (x_tf s) ->
  let scratch x := ustack <= x < ustack + 8 * MAXARG \/ upath <= x < upath + MAXPATH \/ uarg <= x < uarg + 8 in
  (forall x q, scratch x -> page_ok (kend (x_mem s)) q -> ~ in_page q x) -> uarg + 8 <= upath \/ upath + MAXPATH <= uarg ->
  let mem := phys (x_mem s) in
  let outside x := (forall q, mine TRAPFRAME (x_pgtbl s) (x_mem s) l q -> ~ in_page q x) /\ ~ scratch x in
  exists r s' l', sys_exec (XF := exec_fs wakeups) trampoline ustack upath uarg s = Ret r s' /\ quiet (TI := TI) sb v0 R cwd cwdi (x_env s') /\
    x_tf s' = x_tf s /\ user_space trampoline (x_tf s) (x_pgtbl s') (x_sz s') (x_mem s') l' /\
    (forall q, mine TRAPFRAME (x_pgtbl s') (x_mem s') l' q <-> mine TRAPFRAME (x_pgtbl s) (x_mem s) l q) /\
    (r = -1 /\ x_sz s' = x_sz s /\ x_pgtbl s' = x_pgtbl s /\ x_name s' = x_name s /\ umem_le TRAPFRAME (x_pgtbl s) (x_mem s) (x_mem s') /\
       (forall x, outside x -> phys (x_mem s') x = mem x) \/
     exists k1 path args inum entry psz c, umem_le TRAPFRAME (x_pgtbl s) (x_mem s) k1 /\
       user_string (x_pgtbl s) k1 (load mem (x_tf s + 112) 8) path /\ user_vector (x_pgtbl s) k1 (load mem (x_tf s + 120) 8) 0 args /\
       resolve ROOTDEV v0 sb false (from cwdi path) (elems path) = Some inum /\ program (file_of sb v0 inum) entry psz c /\
       runs (x_pgtbl s') (x_tf s) (x_sz s') entry psz c args (x_mem s') /\
       r = Z.of_nat (length args) /\ x_name s' = take 15 (basename path path) /\
       forall x, outside x -> ~ in_regs (x_tf s) x -> phys (x_mem s') x = mem x).
Proof.
  destruct s as [k e sz pt tf nm]. cbn [x_mem x_env x_sz x_pgtbl x_tf x_name]. intros F1 F2 F3 F4 F5 F6 F7 F8 H1 H2 H3 H4 H5 H6 H7.
  pose (XL := exec_fs_laws (TA := TA) wakeups sb v0 R cwd cwdi F1 F2 F3 F4 F5 F6 F7).
  destruct (sys_exec_run (XL := XL) trampoline tf ustack upath uarg k l sz pt nm H1 H2 H3 H4 H5) with (e := e) as (r & s' & E & Hq & Ht & l' & Hs & Hm & Hr); auto.
  { intros x q [[[]|Hx]|Hx]; apply H6; auto. }
  exists r, s', l'. split; [exact E|]. split; [exact Hq|]. split; [exact Ht|]. split; [exact Hs|]. split; [exact Hm|].
  assert (Hout : forall x, ~ (ustack <= x < ustack + 8 * MAXARG \/ upath <= x < upath + MAXPATH \/ uarg <= x < uarg + 8) -> ~ sys_scratch (XL := XL) ustack upath uarg x).
  { intros x Hx [[[]|Hx']|Hx']; tauto. }
  destruct Hr as [(-> & G1 & G2 & G3 & G4 & G5)|(k1 & path & args & G1 & G2 & G3 & G4 & G5 & (bs & entry & psz & c & G6 & G7 & G8) & G9)]; [left|right].
  - split_and!; auto. intros x [Hx Hx']. apply G5; auto.
  - cbn [x_look XL exec_fs_laws] in G6. unfold look in G6. destruct (resolve _ _ _ _ _ _) as [inum|] eqn:Er; [|discriminate]. injection G6 as <-.
    exists k1, path, args, inum, entry, psz, c. split_and!; auto. intros x [Hx Hx'] Hg. apply G9; auto.
Qed.

(** ** An example *)

Module ExampleExecFile.
Import Ideal ExampleDisk ExampleFile ExampleTree ExampleExec.

(** The tree of [ExampleTree] between operations. *)
Definition idle_log : logst bst := Logst (Bst tree_view tree_view (fun _ => 0) (fun _ => false) 0 []) 2 0 false 1 0 (replicate 30 0) false.
Definition idle_fs : fs (logst bst) kst := FS idle_log ex_sb false tree_table 4 7 ex_machine [].

Lemma tree_bytes : byte_view tree_view.
Proof.
  intros b x. unfold tree_view. destruct (b =? 35); [apply ex_byte|]. destruct (x <? 0); [lia|].
  assert (Hb : Forall (fun y => 0 <= y < 256) (tree_blocks b)).
  { unfold tree_blocks. destruct (b =? 33); [|destruct (b =? 36); [|destruct (b =? 38)]]; apply (bool_decide_unpack _); vm_compute; exact I. }
  rewrite nth_lookup. destruct (tree_blocks b !! Z.to_nat x) as [y|] eqn:E; [|simpl; lia]. rewrite Forall_lookup in Hb. apply (Hb _ _ E).
Qed.

Lemma idle_blocks : blocks 1 (TL := ex_TI) idle_fs [] tree_view [] 0.
Proof.
  split.
  - split; try reflexivity; try (vm_compute; congruence); try (split; vm_compute; congruence).
    + intros _. repeat split. vm_compute. congruence.
    + intros b Hb. apply elem_of_nil in Hb. contradiction.
    + apply NoDup_nil. exact I.
    + apply NoDup_nil. exact I.
    + intros h b Hin. apply elem_of_nil in Hin. contradiction.
  - intros b Hb. right. simpl in Hb. unfold LOGBLOCKS, MAXOPBLOCKS. lia.
Qed.

Lemma idle_quiet : quiet (TI := ex_TI) ex_sb tree_view tree_refs 4 1 idle_fs.
Proof. exists tree_view. split; try reflexivity; [exact idle_blocks|]. destruct tree_table_ok as [H1 H2 H3 H4 H5]. split; assumption. Qed.

(** A process calls exec with this disk. *)
Lemma exec_runs_file_witness : exists s k r s', ex_process ex_machine = Ret s k /\
  sys_exec (XF := exec_fs (TC := log_ctl 1) 0) KERNBASE ex_ustack 16384 20480 (Xst (x_mem s) idle_fs (x_sz s) (x_pgtbl s) (x_tf s) (x_name s)) = Ret r s' /\
  quiet (TI := ex_TI) ex_sb tree_view tree_refs 4 1 (x_env s') /\ exists l', user_space KERNBASE (x_tf s) (x_pgtbl s') (x_sz s') (x_mem s') l'.
Proof.
  destruct ex_machine_ok as (l0 & H0 & H1 & H2 & H3).
  destruct (process_ok ex_machine l0 H0 H1 H2 H3 ex_pages) as (s & k & l & E & He & Hs & Hok & Hl & Ho & Hend & Hf & C1 & C2).
  destruct (exec_runs_file (TC := log_ctl 1) (TI := ex_TI) (TA := ex_TA) (CL := log_ctl_laws 1 2 0) 0 ex_sb tree_view tree_refs 4 1 KERNBASE ex_ustack 16384 20480
    (Xst (x_mem s) idle_fs (x_sz s) (x_pgtbl s) (x_tf s) (x_name s)) l ex_sb_ok tree_image tree_bytes tree_roomy ltac:(split; closed) eq_refl (tree_linked 1 ltac:(auto)) idle_quiet
    eq_refl ltac:(closed) Hs Hok) as (r & s' & l' & R & Hq & Ht & Hs' & _).
  - rewrite mine_owns. cbn [x_pgtbl x_mem x_tf]. tauto.
  - intros x q Hx Hq. cbn [x_mem] in Hq. rewrite Hend in Hq. destruct Hq as [_ Hq]. unfold in_page, ex_ustack, MAXARG, MAXPATH in *. lia.
  - right. closed.
  - exists s, k, r, s'. split; [exact E|]. split; [exact R|]. split; [exact Hq|]. exists l'. exact Hs'.
Defined.
End ExampleExecFile.
