(* ===== verification/SleepWakeup.v ===== *)
(** * Sleep and wakeup

    The protocol between [sleep] and [wakeup] of [kernel/proc.c], one lock
    operation or store at a time, on several CPUs.  One thread waits for a
    condition as the kernel's threads do,
    [acquire(lk); while(!cond) sleep(chan, lk); ... release(lk)], and any
    number of threads make the condition true,
    [acquire(lk); cond = 1; wakeup(chan); release(lk)].  [lk] is the condition
    lock and [pl] the lock of the waiting thread's process entry. *)

From S2P Require Import Prelude.

(** Where the waiting thread is. *)
Inductive wpc : Type :=
| W_start      (* about to acquire lk *)
| W_test       (* holding lk, about to test the condition *)
| W_lockp      (* sleep: about to acquire p->lock *)
| W_unlock     (* sleep: about to release lk *)
| W_chan       (* sleep: about to set p->chan *)
| W_state      (* sleep: about to set p->state = SLEEPING *)
| W_switch     (* sleep: sched, about to switch to the scheduler, which releases p->lock *)
| W_away       (* not running *)
| W_back       (* switched back to, holding p->lock: about to clear p->chan *)
| W_unlockp    (* sleep: about to release p->lock *)
| W_relock     (* sleep: about to acquire lk again *)
| W_finish     (* the condition holds: about to release lk *)
| W_done.

(** Where a waking thread is. *)
Inductive kpc : Type :=
| K_start      (* about to acquire lk *)
| K_set        (* about to make the condition true *)
| K_lockp      (* wakeup: about to acquire p->lock *)
| K_check      (* wakeup: p->state == SLEEPING && p->chan == chan, then RUNNABLE *)
| K_unlockp    (* wakeup: about to release p->lock *)
| K_unlock     (* about to release lk *)
| K_done.

(** Who holds a lock. *)
Inductive owner : Type := Free | Waiter | Waker (i : nat).
#[global] Instance owner_eq : EqDecision owner.
Proof. solve_decision. Defined.

Inductive pstate : Type := Running | Sleeping | Runnable.
#[global] Instance pstate_eq : EqDecision pstate.
Proof. solve_decision. Defined.
#[global] Instance wpc_eq : EqDecision wpc.
Proof. solve_decision. Defined.
#[global] Instance kpc_eq : EqDecision kpc.
Proof. solve_decision. Defined.

Record sw : Type := Sw {
  s_lk : owner;
  s_pl : owner;
  s_cond : bool;
  s_pstate : pstate;
  s_chan : bool;         (* p->chan == chan *)
  s_w : wpc;
  s_k : nat -> kpc
}.

Definition at_w (p : wpc) (s : sw) : sw := Sw (s_lk s) (s_pl s) (s_cond s) (s_pstate s) (s_chan s) p (s_k s).
Definition at_k (i : nat) (p : kpc) (s : sw) : sw :=
  Sw (s_lk s) (s_pl s) (s_cond s) (s_pstate s) (s_chan s) (s_w s) (fun j => if decide (j = i) then p else s_k s j).
Definition set_lk (b : owner) (s : sw) : sw := Sw b (s_pl s) (s_cond s) (s_pstate s) (s_chan s) (s_w s) (s_k s).
Definition set_pl (b : owner) (s : sw) : sw := Sw (s_lk s) b (s_cond s) (s_pstate s) (s_chan s) (s_w s) (s_k s).
Definition set_cond (b : bool) (s : sw) : sw := Sw (s_lk s) (s_pl s) b (s_pstate s) (s_chan s) (s_w s) (s_k s).
Definition set_pstate (x : pstate) (s : sw) : sw := Sw (s_lk s) (s_pl s) (s_cond s) x (s_chan s) (s_w s) (s_k s).
Definition set_chan (b : bool) (s : sw) : sw := Sw (s_lk s) (s_pl s) (s_cond s) (s_pstate s) b (s_w s) (s_k s).

Definition is_free (o : owner) : bool := bool_decide (o = Free).

(** The waiting thread, or while it is away the scheduler, makes a step; a
    thread that finds a lock taken spins. *)
Definition exec_w (s : sw) : sw :=
  match s_w s with
  | W_start => if negb (is_free (s_lk s)) then s else at_w W_test (set_lk Waiter s)
  | W_test => at_w (if s_cond s then W_finish else W_lockp) s
  | W_lockp => if negb (is_free (s_pl s)) then s else at_w W_unlock (set_pl Waiter s)
  | W_unlock => at_w W_chan (set_lk Free s)
  | W_chan => at_w W_state (set_chan true s)
  | W_state => at_w W_switch (set_pstate Sleeping s)
  | W_switch => at_w W_away (set_pl Free s)
  | W_away =>
      (* scheduler: acquire(&p->lock); if(p->state == RUNNABLE) run it; else release *)
      if negb (is_free (s_pl s)) then s
      else if decide (s_pstate s = Runnable) then at_w W_back (set_pl Waiter (set_pstate Running s))
      else s
  | W_back => at_w W_unlockp (set_chan false s)
  | W_unlockp => at_w W_relock (set_pl Free s)
  | W_relock => if negb (is_free (s_lk s)) then s else at_w W_test (set_lk Waiter s)
  | W_finish => at_w W_done (set_lk Free s)
  | W_done => s
  end.

Definition exec_k (i : nat) (s : sw) : sw :=
  match s_k s i with
  | K_start => if negb (is_free (s_lk s)) then s else at_k i K_set (set_lk (Waker i) s)
  | K_set => at_k i K_lockp (set_cond true s)
  | K_lockp => if negb (is_free (s_pl s)) then s else at_k i K_check (set_pl (Waker i) s)
  | K_check =>
      at_k i K_unlockp (if bool_decide (s_pstate s = Sleeping) && s_chan s then set_pstate Runnable s else s)
  | K_unlockp => at_k i K_unlock (set_pl Free s)
  | K_unlock => at_k i K_done (set_lk Free s)
  | K_done => s
  end.

(** A schedule: None for the waiting thread, Some i for waking thread i. *)
Fixpoint run (sched : list (option nat)) (s : sw) : sw :=
  match sched with
  | [] => s
  | None :: l => run l (exec_w s)
  | Some i :: l => run l (exec_k i s)
  end.

Definition init_sw : sw := Sw Free Free false Running false W_start (fun _ => K_start).

(** ** The invariant *)

Definition w_has_lk (p : wpc) : bool := match p with W_test | W_lockp | W_unlock | W_finish => true | _ => false end.
Definition w_has_pl (p : wpc) : bool := match p with W_unlock | W_chan | W_state | W_switch | W_back | W_unlockp => true | _ => false end.
Definition k_has_lk (p : kpc) : bool := match p with K_set | K_lockp | K_check | K_unlockp | K_unlock => true | _ => false end.
Definition k_has_pl (p : kpc) : bool := match p with K_check | K_unlockp => true | _ => false end.

(** The waker still has the wakeup to do. *)
Definition to_wake (p : kpc) : Prop := p = K_lockp \/ p = K_check.

(** The waiter is going to sleep, or asleep. *)
Definition w_down (s : sw) : Prop :=
  s_w s = W_chan \/ s_w s = W_state \/ s_w s = W_switch \/ (s_w s = W_away /\ s_pstate s = Sleeping).

Record sw_inv (s : sw) : Prop := {
  i_lk_k : forall i, k_has_lk (s_k s i) = bool_decide (s_lk s = Waker i);
  i_lk_w : w_has_lk (s_w s) = bool_decide (s_lk s = Waiter);
  i_pl_k : forall i, k_has_pl (s_k s i) = bool_decide (s_pl s = Waker i);
  i_pl_w : w_has_pl (s_w s) = bool_decide (s_pl s = Waiter);
  i_chan : s_w s = W_state \/ s_w s = W_switch \/ s_w s = W_away -> s_chan s = true;
  i_asleep : s_w s = W_switch -> s_pstate s = Sleeping;
  i_away : s_w s = W_away -> s_pstate s <> Running;
  i_tested : s_w s = W_lockp \/ s_w s = W_unlock -> s_cond s = false;
  i_woken : w_down s -> s_cond s = true -> exists i, s_lk s = Waker i /\ to_wake (s_k s i);
  i_finished : forall i, s_k s i <> K_start -> s_k s i <> K_set -> s_cond s = true
}.

Lemma init_inv : sw_inv init_sw.
Proof. split; unfold w_down; simpl; intros; intuition congruence. Qed.

(** Cases on what a step tests, and the fields of the invariant one by one. *)
Ltac sw_cases :=
  repeat match goal with
  | |- context [if ?b then _ else _] => destruct b eqn:?
  end;
  unfold is_free in *; rewrite ?negb_true_iff, ?negb_false_iff, ?bool_decide_eq_true, ?bool_decide_eq_false in *.

Lemma exec_w_inv s : sw_inv s -> sw_inv (exec_w s).
Proof.
  intros [LK LW PK PW C1 A1 A2 T1 W1 F1]. unfold w_down in W1. unfold exec_w.
  destruct (s_w s) eqn:Ew; sw_cases; rewrite ?Ew in *; simpl in *;
    repeat match goal with H : true = bool_decide _ |- _ => symmetry in H; apply bool_decide_eq_true in H
                         | H : false = bool_decide _ |- _ => symmetry in H; apply bool_decide_eq_false in H end.
  all: split; unfold w_down; simpl; rewrite ?Ew; simpl; intros.
  all: rewrite ?LK, ?PK, ?bool_decide_true, ?bool_decide_false by congruence.
  all: try first [assumption | discriminate | congruence | intuition congruence].
  all: first [eapply F1; eassumption | exfalso; discriminate (F1 i H H0)].
Qed.

(** A step of waker [i] to [p] that makes [o'] the owner of a lock. *)
Lemma owner_at (h : kpc -> bool) (o o' : owner) (k : nat -> kpc) i p :
  (forall j, h (k j) = bool_decide (o = Waker j)) -> h p = bool_decide (o' = Waker i) ->
  (forall j, j <> i -> o = Waker j <-> o' = Waker j) ->
  forall j, h (if decide (j = i) then p else k j) = bool_decide (o' = Waker j).
Proof.
  intros Hk Hp Ho j. destruct (decide (j = i)) as [->|Hne]; [exact Hp|]. rewrite Hk. apply bool_decide_ext, Ho, Hne.
Qed.

Lemma exec_k_inv i s : sw_inv s -> sw_inv (exec_k i s).
Proof.
  intros [LK LW PK PW C1 A1 A2 T1 W1 F1]. unfold w_down in W1. unfold exec_k.
  pose proof (LK i) as LKi. pose proof (PK i) as PKi. pose proof (F1 i) as F1i.
  assert (HLW : w_has_lk (s_w s) = true -> s_lk s = Waiter) by (rewrite LW; apply bool_decide_eq_true).
  assert (HPW : w_has_pl (s_w s) = true -> s_pl s = Waiter) by (rewrite PW; apply bool_decide_eq_true).
  destruct (s_k s i) eqn:Ek; sw_cases; simpl in *;
    repeat match goal with H : true = bool_decide _ |- _ => symmetry in H; apply bool_decide_eq_true in H
                         | H : false = bool_decide _ |- _ => symmetry in H; apply bool_decide_eq_false in H end.
  all: split; unfold w_down; simpl.
  all: try (first [eapply (owner_at k_has_lk); [exact LK| |] | eapply (owner_at k_has_pl); [exact PK| |]];
            [simpl; first [symmetry; apply bool_decide_true; congruence | symmetry; apply bool_decide_false; congruence]|intros j Hj; intuition congruence]).
  all: try (rewrite ?LW, ?PW; apply bool_decide_ext; intuition congruence).
  all: try first [assumption | discriminate | congruence | intuition congruence].
  all: try (intros j H1 H2; destruct (decide (j = i)) as [->|Hne]; [first [reflexivity | congruence | intuition congruence]|first [reflexivity | eapply F1; eassumption]]).
  all: try (rewrite ?LW, ?PW; apply bool_decide_false; congruence).
  all: try (intros j; destruct (decide (j = i)); [reflexivity|rewrite ?LK, ?PK; apply bool_decide_false; congruence]).
  all: try (intros Hd Hc; exfalso; destruct (W1 Hd Hc) as (j & Hj & Hw); unfold to_wake in Hw;
            first [congruence | assert (j = i) as -> by congruence; rewrite Ek in Hw; intuition congruence]).
  - intros [Hw|Hw]; rewrite Hw in HLW; specialize (HLW eq_refl); congruence.
  - intros _ _. exists i. split; [exact LKi|]. rewrite decide_True by reflexivity. left. reflexivity.
  - intros _ _. exists i. split; [exact LKi|]. rewrite decide_True by reflexivity. right. reflexivity.
  - intros Hw. rewrite Hw in HPW. specialize (HPW eq_refl). congruence.
  - intros [Hw|[Hw|[Hw|[_ Hw]]]] _; [..|discriminate]; rewrite Hw in HPW; specialize (HPW eq_refl); congruence.
  - intros [Hw|[Hw|[Hw|[Hw Hs]]]] _; [rewrite Hw in HPW; specialize (HPW eq_refl); congruence..|].
    rewrite Hs, C1 in * by auto. discriminate.
Qed.

Lemma sw_run_inv sched : forall s, sw_inv s -> sw_inv (run sched s).
Proof. induction sched as [|[i|] l IH]; intros s H; simpl; auto using exec_w_inv, exec_k_inv. Qed.

(** ** No wakeup is lost *)

(** How many steps the waiting thread has at most still to make once the
    condition holds and nobody is in its way. *)
Definition w_left (s : sw) : nat :=
  match s_w s with
  | W_start => 3 | W_test => 2 | W_lockp => 12 | W_unlock => 11 | W_chan => 10 | W_state => 9 | W_switch => 8 | W_away => 6
  | W_back => 5 | W_unlockp => 4 | W_relock => 3 | W_finish => 1 | W_done => 0
  end.

Definition quiet (s : sw) : Prop := forall i, s_k s i = K_start \/ s_k s i = K_done.

Lemma quiet_owner s : sw_inv s -> quiet s -> (s_lk s = Free \/ s_lk s = Waiter) /\ (s_pl s = Free \/ s_pl s = Waiter).
Proof.
  intros [LK LW PK PW C1 A1 A2 T1 W1 F1] Hq. split.
  - destruct (s_lk s) as [| |i] eqn:E; auto. specialize (LK i). rewrite bool_decide_true in LK by reflexivity.
    destruct (Hq i) as [Hk|Hk]; rewrite Hk in LK; discriminate.
  - destruct (s_pl s) as [| |i] eqn:E; auto. specialize (PK i). rewrite bool_decide_true in PK by reflexivity.
    destruct (Hq i) as [Hk|Hk]; rewrite Hk in PK; discriminate.
Qed.

(** A step of the waiting thread then makes progress. *)
Lemma quiet_step s : sw_inv s -> quiet s -> s_cond s = true -> s_w s <> W_done ->
  (w_left (exec_w s) < w_left s)%nat /\ quiet (exec_w s) /\ s_cond (exec_w s) = true.
Proof.
  intros H Hq Hc Hd. destruct (quiet_owner s H Hq) as [Hl Hp]. destruct H as [LK LW PK PW C1 A1 A2 T1 W1 F1].
  assert (Hdown : ~ w_down s).
  { intros Hw. destruct (W1 Hw Hc) as (i & Hi & _). destruct Hl; congruence. }
  assert (HLW : s_lk s = Waiter -> w_has_lk (s_w s) = true) by (rewrite LW; apply bool_decide_eq_true).
  assert (HPW : s_pl s = Waiter -> w_has_pl (s_w s) = true) by (rewrite PW; apply bool_decide_eq_true).
  unfold w_down in Hdown. unfold exec_w, w_left, is_free.
  destruct (s_w s) eqn:Ew; try (exfalso; tauto).
  - destruct Hl as [Hl|Hl]; [|discriminate (HLW Hl)]. rewrite Hl, bool_decide_true by reflexivity. simpl. auto with lia.
  - rewrite Hc. simpl. auto with lia.
  - specialize (T1 ltac:(auto)). congruence.
  - specialize (T1 ltac:(auto)). congruence.
  - destruct Hp as [Hp|Hp]; [|discriminate (HPW Hp)]. rewrite Hp, bool_decide_true by reflexivity. cbn [negb].
    rewrite decide_True by (destruct (s_pstate s) eqn:Es; [exfalso; apply A2; auto|exfalso; tauto|reflexivity]). simpl. auto with lia.
  - simpl. auto with lia.
  - simpl. auto with lia.
  - destruct Hl as [Hl|Hl]; [|discriminate (HLW Hl)]. rewrite Hl, bool_decide_true by reflexivity. simpl. auto with lia.
  - simpl. auto with lia.
Qed.

Lemma quiet_finish n : forall s, sw_inv s -> quiet s -> s_cond s = true -> (w_left s <= n)%nat ->
  exists m, (m <= n)%nat /\ s_w (run (replicate m None) s) = W_done.
Proof.
  induction n as [|n IH]; intros s H Hq Hc Hn.
  - exists 0%nat. split; [lia|]. simpl. unfold w_left in Hn. destruct (s_w s); try lia. reflexivity.
  - destruct (decide (s_w s = W_done)) as [Hd|Hd]; [exists 0%nat; split; [lia|exact Hd]|].
    destruct (quiet_step s H Hq Hc Hd) as (H1 & H2 & H3).
    destruct (IH (exec_w s) (exec_w_inv s H) H2 H3) as (m & Hm & Em); [lia|]. exists (Datatypes.S m). split; [lia|exact Em].
Qed.

(** C11. No wakeup is lost: however the steps of a thread that waits for a
    condition and of any number of threads that make it true are interleaved,
    it is never left asleep once the condition holds and the wakeups are
    complete - it then finishes within a dozen of its own (and the scheduler's)
    steps. *)
Theorem no_lost_wakeup sched : let s := run sched init_sw in
  quiet s -> (exists i, s_k s i = K_done) ->
  ~ (s_w s = W_away /\ s_pstate s = Sleeping) /\
  exists m, (m <= 12)%nat /\ s_w (run (replicate m None) s) = W_done.
Proof.
  intros s Hq [i Hi]. assert (H : sw_inv s) by apply sw_run_inv, init_inv.
  assert (Hc : s_cond s = true) by (apply (i_finished s H i); congruence). split.
  - intros Hw. destruct (i_woken s H) as (j & Hj & _); [unfold w_down; auto|exact Hc|].
    destruct (quiet_owner s H Hq) as [[Hl|Hl] _]; congruence.
  - apply quiet_finish; auto. unfold w_left. destruct (s_w s); lia.
Qed.

(** The waiting thread goes to sleep, and a waker comes in between. *)
Lemma no_lost_wakeup_witness : let s := run [None; None; None; None; Some 3; None; None; Some 3; Some 3; None; Some 3; Some 3; Some 3; Some 3]%nat init_sw in
  ~ (s_w s = W_away /\ s_pstate s = Sleeping) /\
  exists m, (m <= 12)%nat /\ s_w (run (replicate m None) s) = W_done.
Proof.
  apply (no_lost_wakeup [None; None; None; None; Some 3; None; None; Some 3; Some 3; None; Some 3; Some 3; Some 3; Some 3]%nat).
  - intros i. simpl. destruct (decide (i = 3%nat)) as [->|Hne]; [right; reflexivity|left].
    vm_compute. repeat match goal with |- context [match ?x with _ => _ end] => destruct x end; reflexivity || contradiction.
  - exists 3%nat. reflexivity.
Defined.
