(* ===== verification/Sh.v ===== *)
(** * The shell

    [user/sh.c]: the parser of command lines and the execution of commands.
    The line is a buffer of characters; a command holds pointers into it, the
    start and the end of each word, as the C structures do.  The position
    [*ps] is the state of the parser.  [panic] of the shell is the [Panic] of
    the control monad. *)

From S2P Require Import Prelude Fcntl.

Definition MAXARGS : nat := 10.

(** ** Commands *)

(** A word: where it begins and where it ends in the line. *)
Definition word : Type := nat * nat.

Inductive cmd : Type :=
| EXEC (argv : list word)
| REDIR (c : cmd) (file : word) (mode fd : Z)
| PIPE (left right : cmd)
| LIST (left right : cmd)
| BACK (c : cmd).

(** ** Tokens *)

Definition whitespace : list Z := [32; 9; 13; 10; 11].          (* " \t\r\n\v" *)
Definition symbols : list Z := [60; 124; 62; 38; 59; 40; 41].   (* "<|>&;()" *)

(** [strchr(s, c) != 0] for a string [s]. *)
Definition strchr (s : list Z) (c : Z) : bool := existsb (Z.eqb c) s.

Section Parse.
(** The line with its NUL, and the position [es] of the NUL. *)
Context (b : list Z) (es : nat).

Definition ch (s : nat) : Z := nth s b 0.

(** [while(s < es && strchr(whitespace, *s)) s++;] with at most [n] turns. *)
Fixpoint skip_ws (n : nat) (s : nat) : nat :=
  match n with
  | O => s
  | S n => if strchr whitespace (ch s) then skip_ws n (S s) else s
  end.

Fixpoint skip_word (n : nat) (s : nat) : nat :=
  match n with
  | O => s
  | S n => if negb (strchr whitespace (ch s)) && negb (strchr symbols (ch s)) then skip_word n (S s) else s
  end.

(** The kind of token, and its word. *)
Definition gettoken : M nat (Z * word) := fun s =>
  let q := skip_ws (es - s) s in
  let c := ch q in
  let '(r, eq) :=
    if c =? 0 then (0, q)
    else if strchr [124; 40; 41; 59; 38; 60] c then (c, S q)
    else if c =? 62 then (if ch (S q) =? 62 then (43, S (S q)) else (62, S q))
    else (97, skip_word (es - q) q) in
  Ret (r, (q, eq)) (skip_ws (es - eq) eq).

Definition peek (toks : list Z) : M nat bool := fun s =>
  let s := skip_ws (es - s) s in
  Ret (negb (ch s =? 0) && strchr toks (ch s)) s.

(** ** The parser

    The redirections of a command are collected first and put around it by
    [redirs_on], since the arguments of an [execcmd] are filled in while there
    are already redirections around it. *)

Definition redir : Type := word * Z * Z.   (* file, mode, fd *)
Definition redirs_on (c : cmd) (rs : list redir) : cmd :=
  foldl (fun c '(file, mode, fd) => REDIR c file mode fd) c rs.

Fixpoint parseredirs (fuel : nat) : M nat (list redir) :=
  match fuel with
  | O => nofuel
  | S fuel =>
      let! more := peek [60; 62] in
      if negb more then ret [] else
      let! (tok, _) := gettoken in
      let! (t, file) := gettoken in
      if negb (t =? 97) then panic "missing file for redirection" else
      let rd :=
        if tok =? 60 then [(file, O_RDONLY, 0)]
        else if tok =? 62 then [(file, Z.lor (Z.lor O_WRONLY O_CREATE) O_TRUNC, 1)]
        else if tok =? 43 then [(file, Z.lor O_WRONLY O_CREATE, 1)]
        else [] in
      let! rs := parseredirs fuel in
      ret (rd ++ rs)
  end.

(** The loop of [parseexec]: the arguments so far and the redirections. *)
Fixpoint parseargs (fuel : nat) (argv : list word) (rs : list redir) : M nat cmd :=
  match fuel with
  | O => nofuel
  | S fuel =>
      let! stop := peek [124; 41; 38; 59] in
      if stop then ret (redirs_on (EXEC argv) rs) else
      let! (tok, w) := gettoken in
      if tok =? 0 then ret (redirs_on (EXEC argv) rs) else
      if negb (tok =? 97) then panic "syntax" else
      let argv := argv ++ [w] in
      if (MAXARGS <=? length argv)%nat then panic "too many args" else
      let! more := parseredirs fuel in
      parseargs fuel argv (rs ++ more)
  end.

(** [while(peek(ps, es, "&"))] of [parseline]. *)
Fixpoint parsebacks (fuel : nat) (c : cmd) : M nat cmd :=
  match fuel with
  | O => nofuel
  | S fuel =>
      let! amp := peek [38] in
      if amp then gettoken ;; parsebacks fuel (BACK c) else ret c
  end.

Fixpoint parseline (fuel : nat) : M nat cmd :=
  match fuel with
  | O => nofuel
  | S fuel =>
      let! c := parsepipe fuel in
      let! c := parsebacks fuel c in
      let! semi := peek [59] in
      if semi then
        gettoken ;;
        let! r := parseline fuel in
        ret (LIST c r)
      else ret c
  end
with parsepipe (fuel : nat) : M nat cmd :=
  match fuel with
  | O => nofuel
  | S fuel =>
      let! c := parseexec fuel in
      let! bar := peek [124] in
      if bar then
        gettoken ;;
        let! r := parsepipe fuel in
        ret (PIPE c r)
      else ret c
  end
with parseblock (fuel : nat) : M nat cmd :=
  match fuel with
  | O => nofuel
  | S fuel =>
      let! open := peek [40] in
      if negb open then panic "parseblock" else
      gettoken ;;
      let! c := parseline fuel in
      let! close := peek [41] in
      if negb close then panic "syntax - missing )" else
      gettoken ;;
      let! rs := parseredirs fuel in
      ret (redirs_on c rs)
  end
with parseexec (fuel : nat) : M nat cmd :=
  match fuel with
  | O => nofuel
  | S fuel =>
      let! open := peek [40] in
      if open then parseblock fuel else
      let! rs := parseredirs fuel in
      parseargs fuel [] rs
  end.
End Parse.

(** ** The whole command *)

(** NUL-terminate all the counted strings. *)
Fixpoint nulterminate (c : cmd) (b : list Z) : list Z :=
  match c with
  | EXEC argv => foldl (fun b '(_, eq) => <[eq:=0]> b) b argv
  | REDIR c (_, efile) _ _ => <[efile:=0]> (nulterminate c b)
  | PIPE l r => nulterminate r (nulterminate l b)
  | LIST l r => nulterminate r (nulterminate l b)
  | BACK c => nulterminate c b
  end.

Fixpoint strlen (b : list Z) : nat :=
  match b with
  | [] => O
  | c :: b => if c =? 0 then O else S (strlen b)
  end.

(** Enough fuel for a line of [n] characters: each call in the parser's
    recursion that does not consume a character is at most the fourth in a row. *)
Definition parse_fuel (n : nat) : nat := 4 * n + 6.

(** The command, and the line it points into as it is left. *)
Definition parsecmd (b : list Z) : res (list Z) cmd :=
  let es := strlen b in
  match (let! c := parseline b es (parse_fuel es) in
         let! _ := peek b es [] in
         let! s := gets (fun s => s) in
         if negb (s =? es)%nat then panic "syntax" else ret c) O with
  | Ret c _ => Ret c (nulterminate c b)
  | Panic msg => Panic msg
  | _ => NoFuel
  end.

(** The string that starts at position [q]. *)
Definition str_at (b : list Z) (q : nat) : list Z := take (strlen (drop q b)) (drop q b).

(** ** Running commands

    What a process does from [runcmd] on: its system calls, in order, each
    with what it goes on with for every result of the call. *)

Inductive prog : Type :=
| Exit (status : Z)
| Exec (path : list Z) (argv : list (list Z)) (failed : prog)
| Open (path : list Z) (mode : Z) (k : Z -> prog)
| Close (fd : Z) (k : prog)
| Dup (fd : Z) (k : Z -> prog)
| Pipe (k : option (Z * Z) -> prog)
| Fork (k : Z -> prog)                       (* the child goes on with 0 *)
| Wait (k : prog)
| Err (msg : string) (arg : list Z) (k : prog).   (* fprintf(2, msg, arg) *)

Definition sh_panic (msg : string) : prog := Err msg [] (Exit 1).

Definition fork1 (k : Z -> prog) : prog :=
  Fork (fun pid => if pid =? -1 then sh_panic "fork" else k pid).

Fixpoint runcmd (b : list Z) (c : cmd) : prog :=
  match c with
  | EXEC argv =>
      match (fun w : word => str_at b w.1) <$> argv with
      | [] => Exit 1
      | (path :: _) as args => Exec path args (Err "exec %s failed" path (Exit 0))
      end
  | REDIR c (file, _) mode fd =>
      Close fd (Open (str_at b file) mode (fun r =>
        if r <? 0 then Err "open %s failed" (str_at b file) (Exit 1) else runcmd b c))
  | LIST l r =>
      fork1 (fun pid => if pid =? 0 then runcmd b l else Wait (runcmd b r))
  | PIPE l r =>
      Pipe (fun p =>
        match p with
        | None => sh_panic "pipe"
        | Some (p0, p1) =>
            fork1 (fun pid =>
              if pid =? 0 then Close 1 (Dup p1 (fun _ => Close p0 (Close p1 (runcmd b l)))) else
              fork1 (fun pid =>
                if pid =? 0 then Close 0 (Dup p0 (fun _ => Close p0 (Close p1 (runcmd b r)))) else
                Close p0 (Close p1 (Wait (Wait (Exit 0))))))
        end)
  | BACK c =>
      fork1 (fun pid => if pid =? 0 then runcmd b c else Exit 0)
  end.

(** ** The main loop *)

(** [gets(buf, max)] of [user/ulib.c] from an input that ends: the line with its
    end-of-line character, and the rest of the input. *)
Fixpoint gets_line (n : nat) (input : list Z) : list Z * list Z :=
  match n, input with
  | S n, c :: input =>
      if (c =? 10) || (c =? 13) then ([c], input)
      else let '(l, rest) := gets_line n input in (c :: l, rest)
  | _, _ => ([], input)
  end.

Definition NBUF_SH : nat := 100.

(** What the shell does for one line. *)
Inductive action : Type :=
| A_chdir (dir : list Z)
| A_run (line : list Z).      (* in a child: runcmd(parsecmd(line)); then wait *)

Fixpoint skip_blanks (l : list Z) : list Z :=
  match l with
  | c :: l' => if (c =? 32) || (c =? 9) then skip_blanks l' else l
  | [] => []
  end.

(** The body of the loop: [l] is what [getcmd] left in the buffer. *)
Definition sh_line (l : list Z) : list action :=
  let cmd := skip_blanks (take (strlen l) l) in
  match cmd with
  | 10 :: _ => []
  | 99 :: 100 :: 32 :: _ => [A_chdir (drop 3 (take (length cmd - 1) cmd))]
  | _ => [A_run cmd]
  end.

(** [while(getcmd(buf, sizeof(buf)) >= 0)], for at most [fuel] lines. *)
Fixpoint sh_main (fuel : nat) (input : list Z) : option (list action) :=
  match fuel with
  | O => None
  | S fuel =>
      let '(l, rest) := gets_line (NBUF_SH - 1) input in
      if nth 0 l 0 =? 0 then Some []
      else acts ← sh_main fuel rest; Some (sh_line l ++ acts)
  end.
