(* ===== verification/ShSpec.v ===== *)
(** * The grammar of the shell

    What command lines mean ([line] on token sequences, [spells] on
    characters), and that the parser of Sh.v recognises exactly these. *)

From S2P Require Import Prelude Fcntl Sh.

(** ** Tokens *)

Inductive tok : Type := Word (w : list Z) | Sym (c : Z) | App.

Definition white (c : Z) : bool := strchr whitespace c.
Definition wordch (c : Z) : bool := negb (c =? 0) && negb (white c) && negb (strchr symbols c).

Definition spell (t : tok) : list Z :=
  match t with Word w => w | Sym c => [c] | App => [62; 62] end.
Definition tok_ok (t : tok) : Prop :=
  match t with
  | Word w => w <> [] /\ Forall (fun c => wordch c = true) w
  | Sym c => strchr symbols c = true
  | App => True
  end.
(** What may come right after a token. *)
Definition ends (t : tok) (l : list Z) : Prop :=
  match t with
  | Word _ => wordch (hd 0 l) = false
  | Sym c => c = 62 -> hd 0 l <> 62
  | App => True
  end.

(** [l] is written as the tokens [ts], with any white space around them. *)
Inductive spells : list tok -> list Z -> Prop :=
| spells_nil ws : Forall (fun c => white c = true) ws -> spells [] ws
| spells_cons ws t ts l : Forall (fun c => white c = true) ws -> tok_ok t -> ends t l -> spells ts l ->
    spells (t :: ts) (ws ++ spell t ++ l).

(** ** Commands *)

Inductive rkind : Type := RIn | ROut | RApp.
Definition rtok (k : rkind) : tok := match k with RIn => Sym 60 | ROut => Sym 62 | RApp => App end.
Definition rmode (k : rkind) : Z :=
  match k with RIn => O_RDONLY | ROut => Z.lor (Z.lor O_WRONLY O_CREATE) O_TRUNC | RApp => Z.lor O_WRONLY O_CREATE end.
Definition rfd (k : rkind) : Z := match k with RIn => 0 | _ => 1 end.

Inductive tcmd : Type :=
| TExec (args : list (list Z))
| TRedir (t : tcmd) (k : rkind) (file : list Z)
| TPipe (l r : tcmd)
| TList (l r : tcmd)
| TBack (t : tcmd).

Definition redirected (t : tcmd) (rs : list (rkind * list Z)) : tcmd := foldl (fun t '(k, f) => TRedir t k f) t rs.
Definition red_toks (r : rkind * list Z) : list tok := [rtok r.1; Word r.2].

(** A simple command: its arguments with redirections between them. *)
Inductive item : Type := Arg (w : list Z) | Red (k : rkind) (f : list Z).
Definition item_toks (i : item) : list tok := match i with Arg w => [Word w] | Red k f => red_toks (k, f) end.
Definition args_of (l : list item) : list (list Z) := omap (fun i => match i with Arg w => Some w | Red _ _ => None end) l.
Definition reds_of (l : list item) : list (rkind * list Z) := omap (fun i => match i with Arg _ => None | Red k f => Some (k, f) end) l.

Fixpoint backs (n : nat) (t : tcmd) : tcmd := match n with O => t | S n => backs n (TBack t) end.

(** line ::= pipe &* | pipe &* ; line
    pipe ::= exec | exec '|' pipe
    exec ::= (argument or redirection)* | '(' line ')' redirection*          *)
Inductive line : tcmd -> list tok -> Prop :=
| line_end t ts n : pipe t ts -> line (backs n t) (ts ++ replicate n (Sym 38))
| line_seq t ts n u us : pipe t ts -> line u us -> line (TList (backs n t) u) (ts ++ replicate n (Sym 38) ++ Sym 59 :: us)
with pipe : tcmd -> list tok -> Prop :=
| pipe_one t ts : exec t ts -> pipe t ts
| pipe_more t ts u us : exec t ts -> pipe u us -> pipe (TPipe t u) (ts ++ Sym 124 :: us)
with exec : tcmd -> list tok -> Prop :=
| exec_simple l : (length (args_of l) < MAXARGS)%nat ->
    exec (redirected (TExec (args_of l)) (reds_of l)) (concat (item_toks <$> l))
| exec_block t ts rs : line t ts -> exec (redirected t rs) (Sym 40 :: ts ++ Sym 41 :: concat (red_toks <$> rs)).

Scheme line_mut := Induction for line Sort Prop
with pipe_mut := Induction for pipe Sort Prop
with exec_mut := Induction for exec Sort Prop.
Combined Scheme grammar_ind from line_mut, pipe_mut, exec_mut.

(** ** Words in the line *)

Definition at_word (b : list Z) (w : word) (x : list Z) : Prop :=
  let '(q, e) := w in
  exists pre post, b = pre ++ x ++ post /\ length pre = q /\ e = (q + length x)%nat /\ x <> [] /\
    Forall (fun c => wordch c = true) x /\ post <> [] /\ wordch (hd 0 post) = false.

Inductive words (b : list Z) : cmd -> tcmd -> Prop :=
| words_exec argv args : Forall2 (at_word b) argv args -> words b (EXEC argv) (TExec args)
| words_redir c t w k f : words b c t -> at_word b w f -> words b (REDIR c w (rmode k) (rfd k)) (TRedir t k f)
| words_pipe l r t u : words b l t -> words b r u -> words b (PIPE l r) (TPipe t u)
| words_list l r t u : words b l t -> words b r u -> words b (LIST l r) (TList t u)
| words_back c t : words b c t -> words b (BACK c) (TBack t).

Definition red_word (b : list Z) (r : redir) (x : rkind * list Z) : Prop :=
  let '(w, m, f) := r in at_word b w x.2 /\ m = rmode x.1 /\ f = rfd x.1.

Lemma words_redirs b : forall rs xs c t, words b c t -> Forall2 (red_word b) rs xs ->
  words b (redirs_on c rs) (redirected t xs).
Proof.
  induction rs as [|[[w m] f] rs IH]; intros xs c t Hc H; inversion H as [|? [k x] ? xs' Hx Hr]; subst; simpl in *; [exact Hc|].
  destruct Hx as (Hw & -> & ->). apply IH; [constructor; assumption|assumption].
Qed.

Lemma at_word_fun b w x y : at_word b w x -> at_word b w y -> x = y.
Proof.
  destruct w as [q e]. intros (p1 & r1 & E1 & L1 & -> & _) (p2 & r2 & E2 & L2 & L & _).
  rewrite E1 in E2. apply app_inj_1 in E2 as [-> E]; [|lia]. apply app_inj_1 in E as [-> _]; [reflexivity|lia].
Qed.

Lemma rkind_inj k k' : rmode k = rmode k' -> k = k'.
Proof. destruct k, k'; vm_compute; congruence. Qed.

Lemma words_fun b c t : words b c t -> forall u, words b c u -> t = u.
Proof.
  induction 1 as [argv args H|c t w k f Hc IH Hw|l r t u Hl IHl Hr IHr|l r t u Hl IHl Hr IHr|c t Hc IH];
    intros v Hv; inversion Hv; subst; clear Hv.
  - f_equal. eapply Forall2_unique; [eassumption|eassumption|]. intros. eapply at_word_fun; eassumption.
  - f_equal; [apply IH; assumption|apply rkind_inj; congruence|eapply at_word_fun; eassumption].
  - f_equal; auto.
  - f_equal; auto.
  - f_equal; auto.
Qed.

(** ** Lexing *)

#[local] Arguments strchr : simpl never.
#[local] Arguments Nat.leb : simpl never.

(** Position [s] of the line, with the characters [l] up to its end. *)
Definition here (b : list Z) (es s : nat) (l : list Z) : Prop :=
  exists pre post, b = pre ++ l ++ 0 :: post /\ length pre = s /\ es = (s + length l)%nat.

Lemma here_len b es s l : here b es s l -> (es - s)%nat = length l.
Proof. intros (pre & post & -> & <- & ->). lia. Qed.

Lemma here_ch b es s l : here b es s l -> ch b s = hd 0 l.
Proof.
  intros (pre & post & -> & <- & _). unfold ch. rewrite app_nth2, Nat.sub_diag by lia. destruct l; reflexivity.
Qed.

Lemma here_app b es s l l' : here b es s (l ++ l') -> here b es (s + length l) l'.
Proof.
  intros (pre & post & -> & <- & ->). exists (pre ++ l), post. rewrite !length_app, <- !app_assoc. auto with lia.
Qed.

Lemma here_cons b es s c l : here b es s (c :: l) -> here b es (S s) l.
Proof. intros H. apply (here_app _ _ _ [c]) in H. rewrite Nat.add_1_r in H. exact H. Qed.

Lemma skip_ws_ok b es ws : forall s l, here b es s (ws ++ l) -> Forall (fun c => white c = true) ws ->
  white (hd 0 l) = false -> skip_ws b (es - s) s = (s + length ws)%nat.
Proof.
  induction ws as [|c ws IH]; intros s l H Hw Hl.
  - rewrite (here_len _ _ _ _ H). pose proof (here_ch _ _ _ _ H) as Hc. rewrite Nat.add_0_r.
    destruct l as [|c l]; [reflexivity|]. simpl in *. rewrite Hc. unfold white in Hl. rewrite Hl. reflexivity.
  - apply Forall_cons in Hw as [Hc Hw]. pose proof (here_ch _ _ _ _ H) as Hch. simpl in Hch.
    assert (H' : here b es (S s) (ws ++ l)) by exact (here_cons _ _ _ _ _ H). rewrite (here_len _ _ _ _ H). simpl. rewrite Hch. unfold white in Hc. rewrite Hc.
    rewrite <- (here_len _ _ _ _ H'), (IH _ _ H' Hw Hl). simpl. lia.
Qed.

Lemma skip_word_ok b es w : forall s l, here b es s (w ++ l) -> Forall (fun c => wordch c = true) w ->
  wordch (hd 0 l) = false -> Forall (fun c => c <> 0) l -> skip_word b (es - s) s = (s + length w)%nat.
Proof.
  induction w as [|c w IH]; intros s l H Hw Hl Hz.
  - rewrite (here_len _ _ _ _ H). pose proof (here_ch _ _ _ _ H) as Hc. rewrite Nat.add_0_r.
    destruct l as [|c l]; [reflexivity|]. simpl in *. apply Forall_cons in Hz as [Hz _]. rewrite Hc.
    unfold wordch, white in Hl. apply Z.eqb_neq in Hz. rewrite Hz in Hl. simpl in Hl. rewrite Hl. reflexivity.
  - apply Forall_cons in Hw as [Hc Hw]. pose proof (here_ch _ _ _ _ H) as Hch. simpl in Hch.
    assert (H' : here b es (S s) (w ++ l)) by exact (here_cons _ _ _ _ _ H). rewrite (here_len _ _ _ _ H). simpl. rewrite Hch.
    unfold wordch, white in Hc. apply andb_prop in Hc as [Hc1 Hc2]. apply andb_prop in Hc1 as [_ Hc1]. rewrite Hc1, Hc2.
    simpl. rewrite <- (here_len _ _ _ _ H'), (IH _ _ H' Hw Hl Hz). simpl. lia.
Qed.

(** Symbols and the first characters of words are not white. *)
Lemma symbol_char c : strchr symbols c = true -> c <> 0 /\ white c = false.
Proof.
  unfold white, whitespace, strchr, symbols. simpl. lia.
Qed.

Lemma tok_head t l : tok_ok t -> white (hd 0 (spell t ++ l)) = false /\ hd 0 (spell t ++ l) <> 0.
Proof.
  destruct t as [w|c|]; simpl.
  - intros [Hne Hw]. destruct w as [|c w]; [congruence|]. apply Forall_cons in Hw as [Hc _]. simpl.
    unfold wordch in Hc. destruct (Z.eqb_spec c 0); [discriminate|]. split; [|assumption].
    destruct (white c); [discriminate|reflexivity].
  - intros Hc. apply symbol_char in Hc as [Hz Hc]. auto.
  - intros _. split; [reflexivity|congruence].
Qed.

Lemma spells_skip ts l : spells ts l -> exists ws l', l = ws ++ l' /\ Forall (fun c => white c = true) ws /\
  white (hd 0 l') = false /\ spells ts l'.
Proof.
  destruct 1 as [ws Hw|ws t ts l Hw Ht He Hs].
  - exists ws, []. rewrite app_nil_r. repeat split; auto. apply (spells_nil []). constructor.
  - exists ws, (spell t ++ l). split; [reflexivity|]. split; [exact Hw|]. split; [apply tok_head, Ht|].
    apply (spells_cons []); auto.
Qed.

Lemma spells_nz ts l : spells ts l -> Forall (fun c => c <> 0) l.
Proof.
  assert (Hws : forall ws, Forall (fun c => white c = true) ws -> Forall (fun c => c <> 0) ws).
  { intros ws H. eapply Forall_impl; [exact H|]. intros c Hc ->. discriminate. }
  induction 1 as [ws Hw|ws t ts l Hw Ht He Hs IH]; [auto|]. rewrite !Forall_app. split; [auto|]. split; [|exact IH].
  destruct t as [w|c|]; simpl in *.
  - destruct Ht as [_ Ht]. eapply Forall_impl; [exact Ht|]. intros c Hc ->. discriminate.
  - apply symbol_char in Ht as [Ht _]. auto.
  - repeat constructor; congruence.
Qed.

(** The first token is in a list of symbols. *)
Definition first_in (toks : list Z) (ts : list tok) : bool :=
  match ts with [] => false | t :: _ => strchr toks (hd 0 (spell t)) end.

Lemma peek_ok b es toks s l ts : here b es s l -> spells ts l ->
  exists s' l', peek b es toks s = Ret (first_in toks ts) s' /\ here b es s' l' /\ spells ts l' /\ (length l' <= length l)%nat.
Proof.
  intros H Hs. destruct (spells_skip _ _ Hs) as (ws & l' & -> & Hw & Hl & Hs'). unfold peek.
  rewrite (skip_ws_ok _ _ _ _ _ H Hw Hl). apply here_app in H. exists (s + length ws)%nat, l'.
  split; [|split; [exact H|split; [exact Hs'|rewrite length_app; lia]]]. f_equal. rewrite (here_ch _ _ _ _ H).
  destruct Hs' as [ws' Hw'|ws' t ts l' Hw' Ht He Hs'].
  - destruct ws' as [|c ws']; [reflexivity|]. apply Forall_cons in Hw' as [Hc _]. simpl in Hl. congruence.
  - destruct ws' as [|c ws']; [|apply Forall_cons in Hw' as [Hc _]; simpl in Hl; congruence].
    simpl. destruct (tok_head t l' Ht) as [_ Hnz]. apply Z.eqb_neq in Hnz. rewrite Hnz. simpl.
    destruct t as [[|c w]|c|]; try reflexivity. destruct Ht as [Ht _]. congruence.
Qed.

(** What [gettoken] returns for a token. *)
Definition code (ts : list tok) : Z :=
  match ts with [] => 0 | Word _ :: _ => 97 | Sym c :: _ => c | App :: _ => 43 end.

Lemma after_token b es q x ts l : here b es q (x ++ l) -> spells ts l ->
  exists l', here b es (skip_ws b (es - (q + length x)) (q + length x)) l' /\ spells ts l' /\ (length l' <= length l)%nat.
Proof.
  intros H Hs. apply here_app in H. destruct (spells_skip _ _ Hs) as (ws & l' & -> & Hw & Hl & Hs').
  rewrite (skip_ws_ok _ _ _ _ _ H Hw Hl). apply here_app in H. exists l'.
  split; [exact H|]. split; [exact Hs'|rewrite length_app; lia].
Qed.

Lemma symbol_cases c : strchr symbols c = true -> strchr [124; 40; 41; 59; 38; 60] c = true \/ c = 62.
Proof.
  unfold strchr, symbols. simpl. rewrite !orb_true_iff, !Z.eqb_eq. intros H.
  lia.
Qed.

Lemma wordch_not c : wordch c = true -> (c =? 0) = false /\ strchr [124; 40; 41; 59; 38; 60] c = false /\ (c =? 62) = false.
Proof.
  unfold wordch, strchr, symbols. simpl. rewrite !andb_true_iff, !negb_true_iff, !orb_false_iff. intros [[H0 _] H].
  repeat split; intuition.
Qed.

Lemma here_at_word b es q w l : here b es q (w ++ l) -> tok_ok (Word w) -> wordch (hd 0 l) = false ->
  at_word b (q, (q + length w)%nat) w.
Proof.
  intros (pre & post & -> & <- & _) [Hne Hw] Hl. exists pre, (l ++ 0 :: post). rewrite <- app_assoc.
  repeat apply conj; auto; [destruct l; discriminate|]. destruct l; [reflexivity|exact Hl].
Qed.

Lemma token_end b es q t ts l : here b es q (spell t ++ l) -> tok_ok t -> ends t l -> spells ts l -> 
  exists w, gettoken b es q = Ret (code (t :: ts), w) (skip_ws b (es - (q + length (spell t))) (q + length (spell t))) /\
    forall x, t = Word x -> at_word b w x.
Proof.
  intros H Ht He Hs. destruct (tok_head t l Ht) as [Hwh _].
  pose proof (skip_ws_ok b es [] q _ H (Forall_nil_2 _) Hwh) as E0. pose proof (here_ch _ _ _ _ H) as Hc.
  rewrite Nat.add_0_r in E0. unfold gettoken. rewrite E0, Hc. destruct t as [w|c|].
  - destruct Ht as [Hne Hw]. exists (q, (q + length w)%nat). simpl. split.
    + pose proof (skip_word_ok b es w q l H Hw He (spells_nz _ _ Hs)) as Ew.
      destruct w as [|c w]; [congruence|]. apply Forall_cons in Hw as [Hc1 _].
      destruct (wordch_not c Hc1) as (E1 & E2 & E3). simpl. rewrite E1, E2, E3. simpl in Ew. rewrite Ew. reflexivity.
    + intros x [= <-]. apply (here_at_word b es q w l); [exact H|split; assumption|exact He].
  - exists (q, S q). simpl. rewrite Nat.add_1_r. split; [|discriminate]. destruct (symbol_char c Ht) as [Hz _].
    apply Z.eqb_neq in Hz. rewrite Hz. destruct (symbol_cases c Ht) as [E|E]; [rewrite E; reflexivity|]. subst c. simpl.
    pose proof (here_ch _ _ _ _ (here_cons _ _ _ _ _ H)) as Hc1. rewrite Hc1.
    specialize (He eq_refl). apply Z.eqb_neq in He. rewrite He. reflexivity.
  - exists (q, S (S q)). simpl. replace (q + 2)%nat with (S (S q)) by lia. split; [|discriminate].
    pose proof (here_ch _ _ _ _ (here_cons _ _ _ _ _ H)) as Hc1. simpl in Hc1. rewrite Hc1. reflexivity.
Qed.

Lemma gettoken_skip b es ws s l : here b es s (ws ++ l) -> Forall (fun c => white c = true) ws -> white (hd 0 l) = false ->
  gettoken b es s = gettoken b es (s + length ws)%nat.
Proof.
  intros H Hw Hl. unfold gettoken. rewrite (skip_ws_ok _ _ _ _ _ H Hw Hl). apply here_app in H.
  pose proof (skip_ws_ok b es [] _ _ H (Forall_nil_2 _) Hl) as E. rewrite Nat.add_0_r in E. rewrite E. reflexivity.
Qed.

Lemma gettoken_ok b es s l ts : here b es s l -> spells ts l ->
  exists w s' l', gettoken b es s = Ret (code ts, w) s' /\ here b es s' l' /\ spells (tail ts) l' /\
    (length l' <= length l)%nat /\ (ts <> [] -> length l' < length l)%nat /\
    forall x us, ts = Word x :: us -> at_word b w x.
Proof.
  intros H Hs. destruct Hs as [ws Hw|ws t ts l Hw Ht He Hs].
  - rewrite <- (app_nil_r ws) in H. rewrite (gettoken_skip _ _ _ _ _ H Hw eq_refl). apply here_app in H.
    pose proof (skip_ws_ok b es [] _ _ H (Forall_nil_2 _) eq_refl) as E. rewrite Nat.add_0_r in E.
    unfold gettoken. rewrite E, (here_ch _ _ _ _ H). simpl. rewrite E.
    eexists _, _, []. split; [reflexivity|]. split; [exact H|]. split; [apply (spells_nil []); constructor|].
    split; [simpl; lia|]. split; [congruence|discriminate].
  - destruct (tok_head t l Ht) as [Hh _]. rewrite (gettoken_skip _ _ _ _ _ H Hw Hh). apply here_app in H.
    destruct (token_end _ _ _ _ _ _ H Ht He Hs) as (w & E & Hx). rewrite E.
    destruct (after_token _ _ _ _ _ _ H Hs) as (l' & H' & Hs' & Hlen).
    assert (Hpos : (0 < length (spell t))%nat).
    { destruct t as [[|c w']| |]; simpl in *; try lia. destruct Ht as [Ht _]. congruence. }
    eexists w, _, l'. split; [reflexivity|]. split; [exact H'|]. split; [exact Hs'|]. rewrite !length_app.
    split; [lia|]. split; [lia|]. intros x us [= -> ->]. auto.
Qed.

(** ** The parser *)

Lemma spells_toks ts l : spells ts l -> Forall tok_ok ts.
Proof. induction 1; constructor; auto. Qed.

Lemma first_case cs t ts : tok_ok t -> first_in cs (t :: ts) = true -> forallb (strchr symbols) cs = true ->
  (exists c, t = Sym c /\ strchr cs c = true) \/ t = App.
Proof.
  intros Ht Hf Hc. destruct t as [w|c|]; simpl in Hf; [|eauto|auto]. exfalso. destruct Ht as [Hne Hw].
  destruct w as [|c w]; [congruence|]. apply Forall_cons in Hw as [Hw _]. simpl in Hf.
  unfold strchr in Hf. apply existsb_exists in Hf as (c' & Hin & E). apply Z.eqb_eq in E as <-.
  rewrite forallb_forall in Hc. apply Hc in Hin. unfold wordch in Hw. rewrite Hin in Hw.
  rewrite andb_false_r in Hw. discriminate.
Qed.

Lemma strchr1 c d : strchr [c] d = true -> d = c.
Proof. unfold strchr. simpl. lia. Qed.

Lemma first_one c ts l : spells ts l -> first_in [c] ts = true -> strchr symbols c = true -> c <> 62 ->
  exists us, ts = Sym c :: us.
Proof.
  intros Hs Hf Hc Hn. apply spells_toks in Hs. destruct ts as [|t ts]; [discriminate|]. apply Forall_cons in Hs as [Ht _].
  destruct (first_case _ _ _ Ht Hf) as [(d & -> & Hd)| ->]; [simpl; rewrite Hc; reflexivity| |].
  - apply strchr1 in Hd as ->. eauto.
  - apply strchr1 in Hf. simpl in Hf. congruence.
Qed.

Lemma first_redir ts l : spells ts l -> first_in [60; 62] ts = true -> exists k us, ts = rtok k :: us.
Proof.
  intros Hs Hf. apply spells_toks in Hs. destruct ts as [|t ts]; [discriminate|]. apply Forall_cons in Hs as [Ht _].
  destruct (first_case _ _ _ Ht Hf eq_refl) as [(d & -> & Hd)| ->]; [|exists RApp; eauto].
  assert (d = 60 \/ d = 62) as [-> | ->] by (revert Hd; unfold strchr; simpl; lia); [exists RIn|exists ROut]; eauto.
Qed.

Lemma first_rtok k us : first_in [60; 62] (rtok k :: us) = true.
Proof. destruct k; reflexivity. Qed.

Lemma first_word cs w us : tok_ok (Word w) -> forallb (strchr symbols) cs = true -> first_in cs (Word w :: us) = false.
Proof.
  intros Ht Hc. destruct (first_in cs (Word w :: us)) eqn:E; [|reflexivity].
  destruct (first_case _ _ _ Ht E Hc) as [(c & Hc' & _)|Hc']; discriminate.
Qed.

Section Parser.
Context (b : list Z) (es : nat).

(** A run that ends, in an error or with a result that [Q] describes. *)
Definition outcome {A} (Q : A -> nat -> Prop) (r : res nat A) : Prop :=
  match r with Ret a s => Q a s | Panic _ => True | _ => False end.

Lemma outcome_bind {A B} (Q : A -> nat -> Prop) (R : B -> nat -> Prop) (m : M nat A) f s :
  outcome Q (m s) -> (forall a s', Q a s' -> outcome R (f a s')) -> outcome R (bind m f s).
Proof. unfold bind. destruct (m s) as [a s'|msg| |c s' k]; simpl; auto; tauto. Qed.

Lemma outcome_mono {A} (Q Q' : A -> nat -> Prop) (r : res nat A) :
  outcome Q r -> (forall a s, Q a s -> Q' a s) -> outcome Q' r.
Proof. destruct r; simpl; auto. Qed.

(** Position [s] has the tokens [ts] before it, in at most [n] characters. *)
Definition at_toks (n : nat) (ts : list tok) (s : nat) : Prop :=
  exists l, here b es s l /\ spells ts l /\ (length l <= n)%nat.

Lemma at_mono n m ts s : at_toks n ts s -> (n <= m)%nat -> at_toks m ts s.
Proof. intros (l & H & Hs & Hl) Hm. exists l. auto with lia. Qed.

Lemma run_peek {A} n toks ts s (f : bool -> M nat A) : at_toks n ts s ->
  exists s', at_toks n ts s' /\ (let! x := peek b es toks in f x) s = f (first_in toks ts) s'.
Proof.
  intros (l & H & Hs & Hl). destruct (peek_ok b es toks s l ts H Hs) as (s' & l' & E & H' & Hs' & Hl').
  exists s'. split; [exists l'; auto with lia|]. apply bind_ret_l, E.
Qed.

Lemma run_token {A} n ts s (f : Z * word -> M nat A) : at_toks n ts s ->
  exists w s', at_toks n (tail ts) s' /\ (ts <> [] -> (0 < n)%nat /\ at_toks (n - 1) (tail ts) s') /\
    (forall x us, ts = Word x :: us -> at_word b w x) /\
    (let! x := gettoken b es in f x) s = f (code ts, w) s'.
Proof.
  intros (l & H & Hs & Hl). destruct (gettoken_ok b es s l ts H Hs) as (w & s' & l' & E & H' & Hs' & Hl' & Hlt & Hx).
  exists w, s'. split; [exists l'; auto with lia|]. split; [intros Hne; specialize (Hlt Hne); split; [lia|]; exists l'; auto with lia|].
  split; [exact Hx|]. apply bind_ret_l, E.
Qed.

Ltac peeking H s1 H1 :=
  match goal with |- context [bind (peek b es ?t) ?f ?s] => destruct (run_peek _ t _ s f H) as (s1 & H1 & ->) end.
Ltac getting H w s1 H1 H2 Hw :=
  match goal with |- context [bind (gettoken b es) ?f ?s] => destruct (run_token _ _ s f H) as (w & s1 & H1 & H2 & Hw & ->) end.

Lemma at_toks_ok n ts s : at_toks n ts s -> Forall tok_ok ts.
Proof. intros (l & _ & Hs & _). eapply spells_toks, Hs. Qed.

Lemma at_spells n ts s : at_toks n ts s -> exists l, spells ts l.
Proof. intros (l & _ & Hs & _). eauto. Qed.

Lemma code_word t ts : tok_ok t -> code (t :: ts) = 97 -> exists x, t = Word x.
Proof. destruct t as [w|c|]; simpl; intros Ht Hc; eauto; [|discriminate]. subst c. vm_compute in Ht. discriminate. Qed.

Lemma redirs_sound fuel : forall n s ts, at_toks n ts s -> (n < fuel)%nat ->
  outcome (fun rs s' => exists xs ts', ts = concat (red_toks <$> xs) ++ ts' /\ Forall2 (red_word b) rs xs /\
    first_in [60; 62] ts' = false /\ at_toks n ts' s') (parseredirs b es fuel s).
Proof.
  induction fuel as [|fuel IH]; intros n s ts H Hf; [lia|]. simpl.
  peeking H s1 H1.
  destruct (first_in [60; 62] ts) eqn:F; simpl.
  2: { exists [], ts. repeat split; auto. }
  destruct (at_spells _ _ _ H1) as (l1 & Hs1). destruct (first_redir _ _ Hs1 F) as (k & us & ->).
  getting H1 w0 s2 H2' H2 Hw0.
  destruct H2 as [Hn H2]; [discriminate|]. simpl in H2.
  getting H2 w s3 H3 H3' Hw.
  destruct (Z.eqb_spec (code us) 97) as [Ec|Ec]; simpl; [|exact I].
  destruct us as [|t us]; [discriminate|]. pose proof (at_toks_ok _ _ _ H2) as Hok. apply Forall_cons in Hok as [Ht _].
  destruct (code_word _ _ Ht Ec) as [x ->]. simpl in H3. specialize (Hw x us eq_refl).
  eapply outcome_bind; [apply (IH (n - 1)%nat s3 us H3); lia|].
  intros rs s4 (xs & ts' & -> & Hxs & F' & H4). simpl. exists ((k, x) :: xs), ts'.
  split; [reflexivity|]. split; [|split; [exact F'|apply (at_mono _ _ _ _ H4); lia]].
  destruct k; simpl; (constructor; [repeat split; exact Hw|exact Hxs]).
Qed.

Lemma redirs_complete xs : forall fuel n s ts', at_toks n (concat (red_toks <$> xs) ++ ts') s ->
  first_in [60; 62] ts' = false -> (n < fuel)%nat ->
  exists rs s', parseredirs b es fuel s = Ret rs s' /\ Forall2 (red_word b) rs xs /\ at_toks n ts' s'.
Proof.
  intros fuel n s ts' H F Hf.
  assert (Hok := at_toks_ok _ _ _ H). revert fuel n s H Hf.
  induction xs as [|[k x] xs IH]; intros [|fuel] n s H Hf; [lia| |lia|]; simpl in *.
  - peeking H s1 H1. rewrite F. exists [], s1. repeat split; auto.
  - peeking H s1 H1. rewrite first_rtok. simpl. getting H1 w0 s2 H2' H2 Hw0.
    destruct H2 as [Hn H2]; [discriminate|]. simpl in H2. getting H2 w s3 H3' H3 Hw. simpl.
    destruct H3 as [Hn' H3]; [discriminate|]. simpl in H3. apply Forall_cons in Hok as [_ Hok]. apply Forall_cons in Hok as [_ Hok].
    destruct (IH Hok fuel (n - 1 - 1)%nat s3 H3 ltac:(lia)) as (rs & s4 & E & Hrs & H4).
    erewrite bind_ret_l by exact E. eexists _, s4. split; [reflexivity|]. split; [|apply (at_mono _ _ _ _ H4); lia].
    destruct k; simpl; (constructor; [repeat split; eapply Hw; reflexivity|exact Hrs]).
Qed.

(** What may come after a simple command. *)
Definition follow (cs : list Z) (ts : list tok) : Prop :=
  match ts with [] => True | t :: _ => exists c, t = Sym c /\ strchr cs c = true end.

Definition after_exec : list Z := [124; 41; 38; 59].

Lemma args_of_app l l' : args_of (l ++ l') = args_of l ++ args_of l'.
Proof. apply omap_app. Qed.
Lemma reds_of_app l l' : reds_of (l ++ l') = reds_of l ++ reds_of l'.
Proof. apply omap_app. Qed.
Lemma args_of_reds (xs : list (rkind * list Z)) : args_of (uncurry Red <$> xs) = [].
Proof. induction xs as [|[k x] xs IH]; [reflexivity|exact IH]. Qed.
Lemma reds_of_reds (xs : list (rkind * list Z)) : reds_of (uncurry Red <$> xs) = xs.
Proof. induction xs as [|[k x] xs IH]; [reflexivity|]. simpl. f_equal. exact IH. Qed.
Lemma item_toks_reds (xs : list (rkind * list Z)) : item_toks <$> (uncurry Red <$> xs) = red_toks <$> xs.
Proof. induction xs as [|[k x] xs IH]; [reflexivity|]. simpl. f_equal. exact IH. Qed.

Lemma args_sound fuel : forall n s ts argv rs, at_toks n ts s -> (n < fuel)%nat -> (length argv < MAXARGS)%nat ->
  outcome (fun c s' => exists items ts' ws rds, ts = concat (item_toks <$> items) ++ ts' /\
    c = redirs_on (EXEC (argv ++ ws)) (rs ++ rds) /\ Forall2 (at_word b) ws (args_of items) /\
    Forall2 (red_word b) rds (reds_of items) /\ (length argv + length ws < MAXARGS)%nat /\ at_toks n ts' s')
    (parseargs b es fuel argv rs s).
Proof.
  induction fuel as [|fuel IH]; intros n s ts argv rs H Hf Ha; [lia|]. simpl.
  assert (Hdone : forall s', at_toks n ts s' -> exists items ts' ws rds, ts = concat (item_toks <$> items) ++ ts' /\
    redirs_on (EXEC argv) rs = redirs_on (EXEC (argv ++ ws)) (rs ++ rds) /\ Forall2 (at_word b) ws (args_of items) /\
    Forall2 (red_word b) rds (reds_of items) /\ (length argv + length ws < MAXARGS)%nat /\ at_toks n ts' s').
  { intros s' H'. exists [], ts, [], []. rewrite !app_nil_r. simpl. repeat split; auto. lia. }
  peeking H s1 H1. destruct (first_in [124; 41; 38; 59] ts) eqn:F; [apply Hdone, H1|].
  getting H1 w s2 H2' H2 Hw. destruct (Z.eqb_spec (code ts) 0) as [E0|E0].
  { apply Hdone. destruct ts as [|t ts]; [exact H2'|]. pose proof (at_toks_ok _ _ _ H) as Hok. apply Forall_cons in Hok as [Ht _].
    destruct t as [x|c|]; try discriminate. simpl in E0. subst c. discriminate. }
  destruct (Z.eqb_spec (code ts) 97) as [E1|E1]; simpl; [|exact I].
  destruct ts as [|t ts]; [discriminate|]. pose proof (at_toks_ok _ _ _ H) as Hok. apply Forall_cons in Hok as [Ht _].
  destruct (code_word _ _ Ht E1) as [x ->]. destruct H2 as [Hn H2]; [discriminate|]. simpl in H2. specialize (Hw x ts eq_refl).
  destruct (Nat.leb_spec MAXARGS (length (argv ++ [w]))) as [Hm|Hm]; [exact I|].
  eapply outcome_bind; [apply (redirs_sound fuel (n - 1)%nat s2 ts H2); lia|].
  intros more s3 (xs & ts1 & -> & Hxs & _ & H3). eapply (outcome_mono); [apply (IH (n - 1)%nat s3 ts1 (argv ++ [w]) (rs ++ more) H3); [lia|exact Hm]|].
  intros c s4 (items & ts' & ws & rds & -> & -> & Hws & Hrds & Hlen & H4).
  exists (Arg x :: (uncurry Red <$> xs) ++ items), ts', (w :: ws), (more ++ rds). simpl.
  rewrite fmap_app, concat_app, item_toks_reds, <- !app_assoc. split; [reflexivity|].
  split; [reflexivity|]. fold (args_of ((uncurry Red <$> xs) ++ items)). rewrite args_of_app, args_of_reds.
  split; [constructor; assumption|]. fold (reds_of ((uncurry Red <$> xs) ++ items)). rewrite reds_of_app, reds_of_reds.
  split; [apply Forall2_app; assumption|]. rewrite length_app in Hlen. simpl in Hlen.
  split; [lia|]. apply (at_mono _ _ _ _ H4). lia.
Qed.

Lemma split_reds items : exists xs items', items = (uncurry Red <$> xs) ++ items' /\
  (items' = [] \/ exists w l, items' = Arg w :: l).
Proof.
  induction items as [|[w|k f] items IH].
  - exists [], []. auto.
  - exists [], (Arg w :: items). eauto.
  - destruct IH as (xs & items' & -> & H). exists ((k, f) :: xs), items'. auto.
Qed.

Lemma follow_no_redir ts : follow after_exec ts -> first_in [60; 62] ts = false.
Proof.
  destruct ts as [|t ts]; [reflexivity|]. intros (c & -> & Hc). simpl. revert Hc. unfold strchr, after_exec. simpl. lia.
Qed.

Lemma first_item items ts' : Forall tok_ok (concat (item_toks <$> items) ++ ts') ->
  (items = [] \/ exists w l, items = Arg w :: l) -> follow after_exec ts' ->
  first_in [60; 62] (concat (item_toks <$> items) ++ ts') = false.
Proof.
  intros Hok [-> | (w & l & ->)] Hf; [apply follow_no_redir, Hf|]. simpl in *. apply Forall_cons in Hok as [Hw _].
  exact (first_word [60; 62] w [] Hw eq_refl).
Qed.

Lemma simple_complete m : forall items fuel n s ts' argv rs, (length items <= m)%nat ->
  at_toks n (concat (item_toks <$> items) ++ ts') s -> follow after_exec ts' -> (n < fuel)%nat ->
  (length argv + length (args_of items) < MAXARGS)%nat ->
  exists ws rds s', (let! more := parseredirs b es fuel in parseargs b es fuel argv (rs ++ more)) s =
      Ret (redirs_on (EXEC (argv ++ ws)) (rs ++ rds)) s' /\
    Forall2 (at_word b) ws (args_of items) /\ Forall2 (red_word b) rds (reds_of items) /\ at_toks n ts' s'.
Proof.
  induction m as [|m IH]; intros items fuel n s ts' argv rs Hm H Hf Hfu Hlen.
  all: destruct (split_reds items) as (xs & items' & -> & Hi).
  all: rewrite fmap_app, concat_app, item_toks_reds, <- app_assoc in H.
  all: rewrite args_of_app, args_of_reds in *; rewrite reds_of_app, reds_of_reds; simpl in Hlen.
  all: pose proof (at_toks_ok _ _ _ H) as Hok; apply Forall_app in Hok as [_ Hok].
  all: destruct (redirs_complete xs fuel n s _ H (first_item _ _ Hok Hi Hf) Hfu) as (more & s1 & E & Hmore & H1).
  all: erewrite bind_ret_l by exact E; destruct fuel as [|fuel]; [lia|]; simpl; peeking H1 s2 H2.
  all: destruct Hi as [-> | (w & l & ->)].
  2: { rewrite length_app in Hm. simpl in Hm. lia. }
  1,2: simpl in *; destruct ts' as [|t ts'];
    [simpl; getting H2 w0 s3 H3 H3' Hw0; simpl; exists [], more, s3|destruct Hf as (c & -> & Hc); simpl; fold after_exec; rewrite Hc; exists [], more, s2];
    rewrite !app_nil_r; auto.
  simpl in *. apply Forall_cons in Hok as [Hw _]. rewrite (first_word after_exec w [] Hw eq_refl : strchr [124; 41; 38; 59] (hd 0 w) = false).
  getting H2 wd s3 H3' H3 Hwd. simpl. destruct H3 as [Hn H3]; [discriminate|]. simpl in H3.
  destruct (Nat.leb_spec MAXARGS (length (argv ++ [wd]))) as [Hle|Hle]; [rewrite length_app in Hle; simpl in Hle; lia|].
  destruct (IH l fuel (n - 1)%nat s3 ts' (argv ++ [wd]) (rs ++ more)) as (ws & rds & s4 & E4 & Hws & Hrds & H4); auto.
  { rewrite length_app in Hm. simpl in Hm. lia. }
  { lia. }
  { rewrite length_app. simpl. unfold args_of in Hlen |- *. lia. }
  exists (wd :: ws), (more ++ rds), s4. rewrite E4, <- !app_assoc. split; [reflexivity|].
  split; [constructor; [eapply Hwd; reflexivity|exact Hws]|]. split; [apply Forall2_app; assumption|].
  apply (at_mono _ _ _ _ H4). lia.
Qed.

Fixpoint cbacks (k : nat) (c : cmd) : cmd := match k with O => c | S k => cbacks k (BACK c) end.

Lemma words_backs k : forall c t, words b c t -> words b (cbacks k c) (backs k t).
Proof. induction k as [|k IH]; intros c t H; [exact H|]. apply IH. constructor. exact H. Qed.

Lemma backs_sound fuel : forall n s ts c, at_toks n ts s -> (n < fuel)%nat ->
  outcome (fun c' s' => exists k ts', ts = replicate k (Sym 38) ++ ts' /\ c' = cbacks k c /\ at_toks n ts' s')
    (parsebacks b es fuel c s).
Proof.
  induction fuel as [|fuel IH]; intros n s ts c H Hf; [lia|]. simpl. peeking H s1 H1.
  destruct (first_in [38] ts) eqn:F; [|exists O, ts; auto].
  destruct (at_spells _ _ _ H1) as (l & Hl). destruct (first_one 38 _ _ Hl F eq_refl ltac:(lia)) as (us & ->).
  getting H1 w s2 H2' H2 Hw. destruct H2 as [Hn H2]; [discriminate|]. simpl in H2.
  eapply outcome_mono; [apply (IH (n - 1)%nat s2 us (BACK c) H2); lia|].
  intros c' s3 (k & ts' & -> & -> & H3). exists (S k), ts'. repeat split; auto. apply (at_mono _ _ _ _ H3). lia.
Qed.

Lemma backs_complete k : forall fuel n s ts' c, at_toks n (replicate k (Sym 38) ++ ts') s -> first_in [38] ts' = false ->
  (n < fuel)%nat -> exists s', parsebacks b es fuel c s = Ret (cbacks k c) s' /\ at_toks n ts' s'.
Proof.
  induction k as [|k IH]; intros [|fuel] n s ts' c H F Hf; [lia| |lia|]; simpl in *; peeking H s1 H1.
  - rewrite F. exists s1. auto.
  - simpl. getting H1 w s2 H2' H2 Hw. destruct H2 as [Hn H2]; [discriminate|]. simpl in H2.
    destruct (IH fuel (n - 1)%nat s2 ts' (BACK c) H2 F ltac:(lia)) as (s3 & E & H3). exists s3.
    split; [exact E|]. apply (at_mono _ _ _ _ H3). lia.
Qed.

(** A sound result for the nonterminal [N]. *)
Definition parsed (N : tcmd -> list tok -> Prop) (n : nat) (ts : list tok) (c : cmd) (s : nat) : Prop :=
  exists t ts1 ts', ts = ts1 ++ ts' /\ N t ts1 /\ words b c t /\ at_toks n ts' s.

Lemma line_sound fuel n s ts :
  (forall n s ts, at_toks n ts s -> (4 * n + 5 <= fuel)%nat -> outcome (parsed pipe n ts) (parsepipe b es fuel s)) ->
  (forall n s ts, at_toks n ts s -> (4 * n + 6 <= fuel)%nat -> outcome (parsed line n ts) (parseline b es fuel s)) ->
  at_toks n ts s -> (4 * n + 6 <= S fuel)%nat -> outcome (parsed line n ts) (parseline b es (S fuel) s).
Proof.
  intros IHp IHl H Hf. simpl. eapply outcome_bind; [apply (IHp n s ts H); lia|].
  intros c s1 (t & ts1 & us & -> & Ht & Hc & H1).
  eapply outcome_bind; [apply (backs_sound fuel n s1 us c H1); lia|]. intros c' s2 (k & ts' & -> & -> & H2).
  apply (words_backs k) in Hc. peeking H2 s3 H3. destruct (first_in [59] ts') eqn:F.
  - destruct (at_spells _ _ _ H3) as (l & Hl). destruct (first_one 59 _ _ Hl F eq_refl ltac:(lia)) as (us & ->).
    getting H3 w s4 H4' H4 Hw. destruct H4 as [Hn H4]; [discriminate|]. simpl in H4.
    eapply outcome_bind; [apply (IHl (n - 1)%nat s4 us H4); lia|]. intros r s5 (u & ts2 & vs & -> & Hu & Hr & H5).
    exists (TList (backs k t) u), (ts1 ++ replicate k (Sym 38) ++ Sym 59 :: ts2), vs.
    split; [rewrite <- !app_assoc; reflexivity|]. split; [constructor; assumption|]. split; [constructor; assumption|].
    apply (at_mono _ _ _ _ H5). lia.
  - exists (backs k t), (ts1 ++ replicate k (Sym 38)), ts'. split; [rewrite <- app_assoc; reflexivity|].
    split; [constructor; assumption|]. auto.
Qed.

Lemma pipe_sound fuel n s ts :
  (forall n s ts, at_toks n ts s -> (4 * n + 4 <= fuel)%nat -> outcome (parsed exec n ts) (parseexec b es fuel s)) ->
  (forall n s ts, at_toks n ts s -> (4 * n + 5 <= fuel)%nat -> outcome (parsed pipe n ts) (parsepipe b es fuel s)) ->
  at_toks n ts s -> (4 * n + 5 <= S fuel)%nat -> outcome (parsed pipe n ts) (parsepipe b es (S fuel) s).
Proof.
  intros IHe IHp H Hf. simpl. eapply outcome_bind; [apply (IHe n s ts H); lia|].
  intros c s1 (t & ts1 & us & -> & Ht & Hc & H1). peeking H1 s3 H3. destruct (first_in [124] us) eqn:F.
  - destruct (at_spells _ _ _ H3) as (l & Hl). destruct (first_one 124 _ _ Hl F eq_refl ltac:(lia)) as (vs & ->).
    getting H3 w s4 H4' H4 Hw. destruct H4 as [Hn H4]; [discriminate|]. simpl in H4.
    eapply outcome_bind; [apply (IHp (n - 1)%nat s4 vs H4); lia|]. intros r s5 (u & ts2 & xs & -> & Hu & Hr & H5).
    exists (TPipe t u), (ts1 ++ Sym 124 :: ts2), xs. split; [rewrite <- !app_assoc; reflexivity|].
    split; [constructor; assumption|]. split; [constructor; assumption|]. apply (at_mono _ _ _ _ H5). lia.
  - exists t, ts1, us. split; [reflexivity|]. split; [constructor; assumption|]. auto.
Qed.

Lemma block_sound fuel n s ts :
  (forall n s ts, at_toks n ts s -> (4 * n + 6 <= fuel)%nat -> outcome (parsed line n ts) (parseline b es fuel s)) ->
  at_toks n ts s -> (4 * n + 3 <= S fuel)%nat -> outcome (parsed exec n ts) (parseblock b es (S fuel) s).
Proof.
  intros IHl H Hf. simpl. peeking H s1 H1. destruct (first_in [40] ts) eqn:F; [|exact I]. simpl.
  destruct (at_spells _ _ _ H1) as (l & Hl). destruct (first_one 40 _ _ Hl F eq_refl ltac:(lia)) as (us & ->).
  getting H1 w s2 H2' H2 Hw. destruct H2 as [Hn H2]; [discriminate|]. simpl in H2.
  eapply outcome_bind; [apply (IHl (n - 1)%nat s2 us H2); lia|]. intros c s3 (t & ts1 & vs & -> & Ht & Hc & H3).
  peeking H3 s4 H4. destruct (first_in [41] vs) eqn:F'; [|exact I]. simpl.
  destruct (at_spells _ _ _ H4) as (l' & Hl'). destruct (first_one 41 _ _ Hl' F' eq_refl ltac:(lia)) as (xs & ->).
  getting H4 w' s5 H5' H5 Hw'. destruct H5 as [Hn' H5]; [discriminate|]. simpl in H5.
  eapply outcome_bind; [apply (redirs_sound fuel (n - 1 - 1)%nat s5 xs H5); lia|].
  intros rs s6 (rds & ts' & -> & Hrs & _ & H6).
  exists (redirected t rds), (Sym 40 :: ts1 ++ Sym 41 :: concat (red_toks <$> rds)), ts'.
  split; [simpl; rewrite <- app_assoc; reflexivity|]. split; [constructor; assumption|].
  split; [apply words_redirs; assumption|]. apply (at_mono _ _ _ _ H6). lia.
Qed.

Lemma exec_sound fuel n s ts :
  (forall n s ts, at_toks n ts s -> (4 * n + 3 <= fuel)%nat -> outcome (parsed exec n ts) (parseblock b es fuel s)) ->
  at_toks n ts s -> (4 * n + 4 <= S fuel)%nat -> outcome (parsed exec n ts) (parseexec b es (S fuel) s).
Proof.
  intros IHb H Hf. simpl. peeking H s1 H1. destruct (first_in [40] ts) eqn:F; [apply IHb; [exact H1|lia]|].
  eapply outcome_bind; [apply (redirs_sound fuel n s1 ts H1); lia|]. intros rs s2 (xs & us & -> & Hrs & _ & H2).
  eapply outcome_mono; [apply (args_sound fuel n s2 us [] rs H2); [lia|unfold MAXARGS; simpl; lia]|].
  intros c s3 (items & ts' & ws & rds & -> & -> & Hws & Hrds & Hlen & H3).
  exists (redirected (TExec (args_of items)) (xs ++ reds_of items)), (concat (item_toks <$> ((uncurry Red <$> xs) ++ items))), ts'.
  rewrite fmap_app, concat_app, item_toks_reds, <- app_assoc. split; [reflexivity|]. split.
  - rewrite <- (item_toks_reds xs), <- concat_app, <- fmap_app. rewrite <- (reds_of_reds xs) at 1. rewrite <- reds_of_app.
    replace (args_of items) with (args_of ((uncurry Red <$> xs) ++ items)) by (rewrite args_of_app, args_of_reds; reflexivity).
    constructor. rewrite args_of_app, args_of_reds. apply Forall2_length in Hws. simpl in *. lia.
  - split; [|exact H3]. apply words_redirs; [constructor; exact Hws|apply Forall2_app; assumption].
Qed.

Lemma parse_sound fuel :
  (forall n s ts, at_toks n ts s -> (4 * n + 6 <= fuel)%nat -> outcome (parsed line n ts) (parseline b es fuel s)) /\
  (forall n s ts, at_toks n ts s -> (4 * n + 5 <= fuel)%nat -> outcome (parsed pipe n ts) (parsepipe b es fuel s)) /\
  (forall n s ts, at_toks n ts s -> (4 * n + 4 <= fuel)%nat -> outcome (parsed exec n ts) (parseexec b es fuel s)) /\
  (forall n s ts, at_toks n ts s -> (4 * n + 3 <= fuel)%nat -> outcome (parsed exec n ts) (parseblock b es fuel s)).
Proof.
  induction fuel as [|fuel (IHl & IHp & IHe & IHb)].
  { repeat split; intros; lia. }
  repeat split; intros.
  - apply line_sound; assumption.
  - apply pipe_sound; assumption.
  - apply exec_sound; assumption.
  - apply block_sound; assumption.
Qed.

(** [N] is parsed by [p] wherever it is followed by one of [cs] or the end. *)
Definition parses (p : nat -> M nat cmd) (d : nat) (cs : list Z) (t : tcmd) (ts : list tok) : Prop :=
  forall fuel n s ts', at_toks n (ts ++ ts') s -> follow cs ts' -> (4 * n + d <= fuel)%nat ->
  exists c s', p fuel s = Ret c s' /\ words b c t /\ at_toks n ts' s'.

Lemma follow_mono cs cs' ts : follow cs ts -> (forall c, strchr cs c = true -> strchr cs' c = true) -> follow cs' ts.
Proof. destruct ts as [|t ts]; [auto|]. intros (c & -> & Hc) H. exists c. auto. Qed.

Lemma follow_first cs c ts : follow cs ts -> strchr cs c = false -> first_in [c] ts = false.
Proof.
  destruct ts as [|t ts]; [reflexivity|]. intros (d & -> & Hd) Hc. simpl.
  destruct (strchr [c] d) eqn:E; [|reflexivity]. apply strchr1 in E as ->. congruence.
Qed.

Lemma line_complete t ts k ts2 r : parses (parsepipe b es) 5 [41; 38; 59] t ts ->
  (r = None /\ ts2 = [] \/ exists u us, r = Some u /\ ts2 = Sym 59 :: us /\ parses (parseline b es) 6 [41] u us) ->
  parses (parseline b es) 6 [41] (match r with None => backs k t | Some u => TList (backs k t) u end)
    (ts ++ replicate k (Sym 38) ++ ts2).
Proof.
  intros Hp Hr fuel n s ts' H Hf Hfu. destruct fuel as [|fuel]; [lia|]. simpl. rewrite <- !app_assoc in H.
  assert (Hf2 : follow [41; 59] (ts2 ++ ts')).
  { destruct Hr as [[-> ->] | (u & us & -> & -> & _)]; [|exists 59; auto].
    eapply follow_mono; [exact Hf|]. unfold strchr. simpl. lia. }
  destruct (Hp fuel n s _ H) as (c & s1 & E & Hc & H1); [|lia|].
  { destruct k; [|exists 38; auto]. eapply follow_mono; [exact Hf2|]. unfold strchr. simpl. lia. }
  erewrite bind_ret_l by exact E.
  destruct (backs_complete k fuel n s1 _ c H1 (follow_first _ 38 _ Hf2 eq_refl)) as (s2 & E2 & H2); [lia|].
  erewrite bind_ret_l by exact E2. apply (words_backs k) in Hc. peeking H2 s3 H3.
  destruct Hr as [[-> ->] | (u & us & -> & -> & Hu)].
  - simpl in *. rewrite (follow_first _ 59 _ Hf eq_refl). exists (cbacks k c), s3. auto.
  - simpl. getting H3 w s4 H4' H4 Hw. destruct H4 as [Hn H4]; [discriminate|]. simpl in H4.
    destruct (Hu fuel (n - 1)%nat s4 ts' H4 Hf) as (c' & s5 & E5 & Hc' & H5); [lia|].
    erewrite bind_ret_l by exact E5. exists (LIST (cbacks k c) c'), s5. split; [reflexivity|].
    split; [constructor; assumption|]. apply (at_mono _ _ _ _ H5). lia.
Qed.

Lemma pipe_complete t ts ts2 r : parses (parseexec b es) 4 after_exec t ts ->
  (r = None /\ ts2 = [] \/ exists u us, r = Some u /\ ts2 = Sym 124 :: us /\ parses (parsepipe b es) 5 [41; 38; 59] u us) ->
  parses (parsepipe b es) 5 [41; 38; 59] (match r with None => t | Some u => TPipe t u end) (ts ++ ts2).
Proof.
  intros He Hr fuel n s ts' H Hf Hfu. destruct fuel as [|fuel]; [lia|]. simpl. rewrite <- !app_assoc in H.
  destruct (He fuel n s _ H) as (c & s1 & E & Hc & H1); [|lia|].
  { destruct Hr as [[-> ->] | (u & us & -> & -> & _)]; [|exists 124; auto].
    eapply follow_mono; [exact Hf|]. unfold strchr. simpl. lia. }
  erewrite bind_ret_l by exact E. peeking H1 s3 H3. destruct Hr as [[-> ->] | (u & us & -> & -> & Hu)].
  - simpl in *. rewrite (follow_first _ 124 _ Hf eq_refl). exists c, s3. auto.
  - simpl. getting H3 w s4 H4' H4 Hw. destruct H4 as [Hn H4]; [discriminate|]. simpl in H4.
    destruct (Hu fuel (n - 1)%nat s4 ts' H4 Hf) as (c' & s5 & E5 & Hc' & H5); [lia|].
    erewrite bind_ret_l by exact E5. exists (PIPE c c'), s5. split; [reflexivity|].
    split; [constructor; assumption|]. apply (at_mono _ _ _ _ H5). lia.
Qed.

Lemma simple_no_paren items ts' : Forall tok_ok (concat (item_toks <$> items) ++ ts') -> follow after_exec ts' ->
  first_in [40] (concat (item_toks <$> items) ++ ts') = false.
Proof.
  intros Hok Hf. destruct items as [|[w|k f] items]; simpl in *; [apply (follow_first _ 40 _ Hf eq_refl)| |destruct k; reflexivity].
  apply Forall_cons in Hok as [Hw _]. exact (first_word [40] w [] Hw eq_refl).
Qed.

Lemma exec_simple_complete items : (length (args_of items) < MAXARGS)%nat ->
  parses (parseexec b es) 4 after_exec (redirected (TExec (args_of items)) (reds_of items)) (concat (item_toks <$> items)).
Proof.
  intros Hlen fuel n s ts' H Hf Hfu. destruct fuel as [|fuel]; [lia|]. simpl. peeking H s1 H1.
  rewrite (simple_no_paren _ _ (at_toks_ok _ _ _ H) Hf).
  destruct (simple_complete (length items) items fuel n s1 ts' [] [] ltac:(lia) H1 Hf ltac:(lia) Hlen)
    as (ws & rds & s2 & E & Hws & Hrds & H2).
  exists (redirs_on (EXEC ws) rds), s2. split; [exact E|]. split; [|exact H2].
  apply words_redirs; [constructor; exact Hws|exact Hrds].
Qed.

Lemma exec_block_complete t ts rs : parses (parseline b es) 6 [41] t ts ->
  parses (parseexec b es) 4 after_exec (redirected t rs) (Sym 40 :: ts ++ Sym 41 :: concat (red_toks <$> rs)).
Proof.
  intros Hl fuel n s ts' H Hf Hfu. destruct fuel as [|[|fuel]]; [lia|lia|]. simpl in H. rewrite <- app_assoc in H.
  simpl. peeking H s1 H1. simpl. peeking H1 s2 H2. simpl. getting H2 w s3 H3' H3 Hw.
  destruct H3 as [Hn H3]; [discriminate|]. simpl in H3.
  destruct (Hl fuel (n - 1)%nat s3 _ H3) as (c & s4 & E & Hc & H4); [exists 41; auto|lia|].
  erewrite bind_ret_l by exact E. peeking H4 s5 H5. simpl. getting H5 w' s6 H6' H6 Hw'.
  destruct H6 as [Hn' H6]; [discriminate|]. simpl in H6.
  destruct (redirs_complete rs fuel (n - 1 - 1)%nat s6 ts' H6 (follow_no_redir _ Hf)) as (rds & s7 & E7 & Hrds & H7); [lia|].
  erewrite bind_ret_l by exact E7. exists (redirs_on c rds), s7. split; [reflexivity|].
  split; [apply words_redirs; assumption|]. apply (at_mono _ _ _ _ H7). lia.
Qed.

Lemma parse_complete :
  (forall t ts, line t ts -> parses (parseline b es) 6 [41] t ts) /\
  (forall t ts, pipe t ts -> parses (parsepipe b es) 5 [41; 38; 59] t ts) /\
  (forall t ts, exec t ts -> parses (parseexec b es) 4 after_exec t ts).
Proof.
  apply (grammar_ind (fun t ts _ => parses (parseline b es) 6 [41] t ts)
    (fun t ts _ => parses (parsepipe b es) 5 [41; 38; 59] t ts) (fun t ts _ => parses (parseexec b es) 4 after_exec t ts)).
  - intros t ts k _ IH. pose proof (line_complete t ts k [] None IH (or_introl (conj eq_refl eq_refl))) as H.
    rewrite app_nil_r in H. exact H.
  - intros t ts k u us _ IH _ IHu. apply (line_complete t ts k (Sym 59 :: us) (Some u) IH). right. eauto.
  - intros t ts _ IH. pose proof (pipe_complete t ts [] None IH (or_introl (conj eq_refl eq_refl))) as H.
    rewrite app_nil_r in H. exact H.
  - intros t ts u us _ IH _ IHu. apply (pipe_complete t ts (Sym 124 :: us) (Some u) IH). right. eauto.
  - intros items. apply exec_simple_complete.
  - intros t ts rs _. apply exec_block_complete.
Qed.
End Parser.

(** ** Every line is made of tokens *)

Lemma spells_white c ts l : white c = true -> spells ts l -> spells ts (c :: l).
Proof.
  intros Hc [ws Hw|ws t ts' l' Hw Ht He Hs].
  - constructor. constructor; assumption.
  - apply (spells_cons (c :: ws)); auto.
Qed.

Lemma span_word l : exists w l', l = w ++ l' /\ Forall (fun c => wordch c = true) w /\ wordch (hd 0 l') = false.
Proof.
  induction l as [|c l (w & l' & -> & Hw & Hl)]; [exists [], []; auto|].
  destruct (wordch c) eqn:E; [exists (c :: w), l'; auto|exists [], (c :: w ++ l'); auto].
Qed.

Lemma lex_exists n : forall l, (length l <= n)%nat -> Forall (fun c => c <> 0) l -> exists ts, spells ts l.
Proof.
  induction n as [|n IH]; intros l Hl Hz.
  all: destruct l as [|c l]; [exists []; apply (spells_nil []), Forall_nil_2|].
  { simpl in Hl. lia. }
  simpl in Hl.
  apply Forall_cons in Hz as [Hc Hz]. destruct (white c) eqn:Ew.
  { destruct (IH l ltac:(lia) Hz) as (ts & Hts). exists ts. apply spells_white; assumption. }
  destruct (strchr symbols c) eqn:Es.
  - destruct (Z.eqb_spec c 62) as [->|Hn]; [|].
    + destruct l as [|c' l]; [|destruct (Z.eqb_spec c' 62) as [->|Hn]].
      * exists [Sym 62]. apply (spells_cons [] (Sym 62) [] []); [apply Forall_nil_2|reflexivity|simpl; lia|apply (spells_nil []), Forall_nil_2].
      * apply Forall_cons in Hz as [_ Hz]. destruct (IH l ltac:(simpl in Hl; lia) Hz) as (ts & Hts).
        exists (App :: ts). apply (spells_cons [] App ts l); simpl; auto.
      * destruct (IH (c' :: l) ltac:(lia) Hz) as (ts & Hts). exists (Sym 62 :: ts).
        apply (spells_cons [] (Sym 62) ts (c' :: l)); simpl; auto.
    + destruct (IH l ltac:(lia) Hz) as (ts & Hts). exists (Sym c :: ts). apply (spells_cons [] (Sym c) ts l); simpl; auto; congruence.
  - destruct (span_word l) as (w & l' & -> & Hw & Hl'). apply Forall_app in Hz as [_ Hz]. rewrite length_app in Hl.
    destruct (IH l' ltac:(lia) Hz) as (ts & Hts). exists (Word (c :: w) :: ts).
    apply (spells_cons [] (Word (c :: w)) ts l'); simpl; auto. split; [discriminate|]. constructor; [|exact Hw].
    unfold wordch. apply Z.eqb_neq in Hc. rewrite Hc, Ew, Es. reflexivity.
Qed.

(** ** Terminating the words *)

(** The command as the programs see it: strings up to their NUL. *)
Inductive reads (b : list Z) : cmd -> tcmd -> Prop :=
| reads_exec argv : reads b (EXEC argv) (TExec ((fun w : word => str_at b w.1) <$> argv))
| reads_redir c t w k : reads b c t -> reads b (REDIR c w (rmode k) (rfd k)) (TRedir t k (str_at b w.1))
| reads_pipe l r t u : reads b l t -> reads b r u -> reads b (PIPE l r) (TPipe t u)
| reads_list l r t u : reads b l t -> reads b r u -> reads b (LIST l r) (TList t u)
| reads_back c t : reads b c t -> reads b (BACK c) (TBack t).

(** The ends of all words of a command. *)
Fixpoint word_ends (c : cmd) : list nat :=
  match c with
  | EXEC argv => snd <$> argv
  | REDIR c w _ _ => word_ends c ++ [snd w]
  | PIPE l r | LIST l r => word_ends l ++ word_ends r
  | BACK c => word_ends c
  end.
Definition zeros (b : list Z) (es : list nat) : list Z := foldl (fun b e => <[e:=0]> b) b es.

Lemma nulterminate_zeros c : forall b, nulterminate c b = zeros b (word_ends c).
Proof.
  unfold zeros. induction c as [argv|c IH w m f|l IHl r IHr|l IHl r IHr|c IH]; intros b; simpl.
  - revert b. induction argv as [|[q e] argv IH]; intros b; [reflexivity|]. apply IH.
  - destruct w as [q e]. rewrite foldl_app, IH. reflexivity.
  - rewrite foldl_app, IHl. apply IHr.
  - rewrite foldl_app, IHl. apply IHr.
  - apply IH.
Qed.

Lemma zeros_lookup es : forall b i, (i < length b)%nat ->
  zeros b es !! i = if decide (i ∈ es) then Some 0 else b !! i.
Proof.
  unfold zeros. induction es as [|e es IH]; intros b i Hi; [rewrite decide_False by apply not_elem_of_nil; reflexivity|].
  cbn [foldl].
  rewrite IH by (rewrite length_insert; exact Hi). destruct (decide (i ∈ es)) as [H|H].
  - rewrite decide_True by (apply elem_of_cons; auto). reflexivity.
  - destruct (decide (i = e)) as [->|Hne].
    + rewrite decide_True by (apply elem_of_cons; auto). apply list_lookup_insert_eq, Hi.
    + rewrite decide_False by (rewrite elem_of_cons; intuition). apply list_lookup_insert_ne. congruence.
Qed.

Lemma str_at_word b' q x : (forall i c, x !! i = Some c -> c <> 0 /\ b' !! (q + i)%nat = Some c) ->
  b' !! (q + length x)%nat = Some 0 -> str_at b' q = x.
Proof.
  intros Hx H0. unfold str_at. revert q Hx H0. induction x as [|c x IH]; intros q Hx H0.
  - simpl in H0. rewrite Nat.add_0_r in H0. rewrite (drop_S _ _ _ H0). reflexivity.
  - destruct (Hx O c eq_refl) as [Hc E]. rewrite Nat.add_0_r in E. rewrite (drop_S _ _ _ E). simpl.
    apply Z.eqb_neq in Hc. rewrite Hc. simpl. f_equal. apply IH.
    + intros i d Hd. destruct (Hx (S i) d Hd) as [? E']. split; [assumption|]. rewrite <- E'. f_equal. lia.
    + simpl in H0. rewrite <- H0. f_equal. lia.
Qed.

(** Words keep their characters, whatever ends of words are overwritten. *)
Lemma terminated_word b es w x : at_word b w x -> snd w ∈ es ->
  (forall e, e ∈ es -> exists w' x', at_word b w' x' /\ e = snd w') -> str_at (zeros b es) w.1 = x.
Proof.
  destruct w as [q e]. simpl. intros (pre & post & -> & <- & -> & Hne & Hx & Hp & Hend) Hin Hes.
  apply str_at_word.
  - intros i c Hi. pose proof (lookup_lt_Some _ _ _ Hi) as Hlt. rewrite Forall_lookup in Hx. specialize (Hx i c Hi).
    split; [intros ->; discriminate|]. rewrite zeros_lookup by (rewrite !length_app; lia).
    assert (Hl : (pre ++ x ++ post) !! (length pre + i)%nat = Some c).
    { rewrite lookup_app_r, lookup_app_l by lia. rewrite <- Hi. f_equal. lia. }
    rewrite decide_False; [exact Hl|]. intros Hi'. destruct (Hes _ Hi') as ([q' e'] & x' & Hw' & E). simpl in E. subst e'.
    destruct Hw' as (pre' & post' & Eb & Hq' & E' & _ & _ & Hp' & Hend'). rewrite Eb in Hl.
    rewrite E' in Hl. rewrite lookup_app_r in Hl by lia. rewrite lookup_app_r in Hl by lia.
    replace (q' + length x' - length pre' - length x')%nat with O in Hl by lia.
    destruct post' as [|d post']; [congruence|]. simpl in Hl, Hend'. congruence.
  - rewrite zeros_lookup, decide_True; [reflexivity|exact Hin|]. destruct post; [congruence|]. rewrite !length_app. simpl. lia.
Qed.

Lemma words_ends b c t : words b c t -> forall e, e ∈ word_ends c -> exists w x, at_word b w x /\ e = snd w.
Proof.
  induction 1 as [argv args H|c t w k f Hc IH Hw|l r t u Hl IHl Hr IHr|l r t u Hl IHl Hr IHr|c t Hc IH]; intros e He; simpl in He.
  - apply list_elem_of_fmap in He as (w & -> & Hw). apply list_elem_of_lookup in Hw as (i & Hi).
    destruct (Forall2_lookup_l _ _ _ _ _ H Hi) as (x & _ & Hx). eauto.
  - apply elem_of_app in He as [He|He]; [auto|]. apply list_elem_of_singleton in He. eauto.
  - apply elem_of_app in He as [He|He]; auto.
  - apply elem_of_app in He as [He|He]; auto.
  - auto.
Qed.

Lemma words_reads b es c t : words b c t -> (forall e, e ∈ word_ends c -> e ∈ es) ->
  (forall e, e ∈ es -> exists w x, at_word b w x /\ e = snd w) -> reads (zeros b es) c t.
Proof.
  intros H Hin Hes. induction H as [argv args H|c t w k f Hc IH Hw|l r t u Hl IHl Hr IHr|l r t u Hl IHl Hr IHr|c t Hc IH]; simpl in Hin.
  - assert (E : args = (fun w : word => str_at (zeros b es) w.1) <$> argv); [|rewrite E; constructor].
    apply list_eq. intros i. rewrite list_lookup_fmap. pose proof (proj1 (Forall2_lookup _ _ _) H i) as Hi.
    destruct (argv !! i) as [w|] eqn:Ew; inversion Hi as [? x Hw|]; subst; simpl; [|reflexivity].
    f_equal. symmetry. apply terminated_word; auto. apply Hin, list_elem_of_fmap. exists w. split; [reflexivity|].
    apply list_elem_of_lookup. eauto.
  - rewrite <- (terminated_word b es w f); auto; [constructor; apply IH|]; intros; apply Hin; set_solver.
  - constructor; [apply IHl|apply IHr]; intros; apply Hin; set_solver.
  - constructor; [apply IHl|apply IHr]; intros; apply Hin; set_solver.
  - constructor. auto.
Qed.

(** ** Whole lines *)

Lemma strlen_text text rest : Forall (fun c => c <> 0) text -> strlen (text ++ 0 :: rest) = length text.
Proof. induction 1 as [|c text Hc _ IH]; [reflexivity|]. simpl. apply Z.eqb_neq in Hc. rewrite Hc, IH. reflexivity. Qed.

Lemma spells_end ts : spells ts [] -> ts = [].
Proof.
  intros H. destruct ts as [|t ts]; [reflexivity|]. pose proof (spells_toks _ _ H) as Hok. apply Forall_cons in Hok as [Ht _].
  inversion H as [|ws t' ts' l Hw _ _ _ Et El]; subst. exfalso. apply app_eq_nil in El as [_ El]. apply app_eq_nil in El as [El _].
  destruct t as [[|c w]| |]; simpl in *; try discriminate. destruct Ht as [Ht _]. congruence.
Qed.

Lemma peek_end {A} b es n s (f : bool -> M nat A) : at_toks b es n [] s -> (let! x := peek b es [] in f x) s = f false es.
Proof.
  intros (l & H & Hs & _). inversion Hs as [ws Hw|]; subst. unfold bind, peek.
  rewrite <- (app_nil_r l) in H. rewrite (skip_ws_ok _ _ _ _ _ H Hw eq_refl).
  apply here_app in H. rewrite (here_ch _ _ _ _ H). destruct H as (pre & post & _ & _ & ->). simpl.
  rewrite Nat.add_0_r. reflexivity.
Qed.

(** The part of [parsecmd] before the words are terminated. *)
Definition parse_text (b : list Z) (es : nat) : M nat cmd :=
  let! c := parseline b es (parse_fuel es) in
  let! _ := peek b es [] in
  let! s := gets (fun s => s) in
  if negb (s =? es)%nat then panic "syntax" else ret c.

Lemma text_sound b es ts : at_toks b es es ts O ->
  outcome (fun c _ => exists t, line t ts /\ words b c t) (parse_text b es O).
Proof.
  intros H. destruct (parse_sound b es (parse_fuel es)) as [Hl _]. unfold parse_text.
  eapply outcome_bind; [apply (Hl es O ts H); unfold parse_fuel; lia|]. intros c s (t & ts1 & ts' & -> & Ht & Hc & H').
  match goal with |- context [bind (peek _ _ ?t) ?f ?s] => destruct (run_peek _ _ _ t _ s f H') as (s1 & H1 & ->) end.
  rewrite bind_gets. destruct (Nat.eqb_spec s1 es) as [->|]; simpl; [|exact I]. exists t. split; [|exact Hc].
  destruct H1 as (l & Hh & Hs & _). apply here_len in Hh. rewrite Nat.sub_diag in Hh. destruct l; [|discriminate].
  rewrite (spells_end _ Hs), app_nil_r. exact Ht.
Qed.

Lemma text_complete b es t ts : at_toks b es es ts O -> line t ts ->
  exists c s, parse_text b es O = Ret c s /\ words b c t.
Proof.
  intros H Ht. destruct (parse_complete b es) as [Hl _]. unfold parse_text.
  destruct (Hl t ts Ht (parse_fuel es) es O []) as (c & s & E & Hc & H'); [rewrite app_nil_r; exact H|exact I|unfold parse_fuel; lia|].
  erewrite bind_ret_l by exact E. rewrite (peek_end _ _ _ _ _ H'), bind_gets, Nat.eqb_refl. simpl. exists c, es. auto.
Qed.

Lemma parsecmd_run text rest : Forall (fun c => c <> 0) text ->
  match parsecmd (text ++ 0 :: rest) with
  | Ret c b' => exists t ts, spells ts text /\ line t ts /\ reads b' c t /\
      forall u us, spells us text -> line u us -> u = t
  | Panic _ => forall t ts, spells ts text -> ~ line t ts
  | _ => False
  end.
Proof.
  intros Hz. set (b := text ++ 0 :: rest). unfold parsecmd. fold (parse_text b (strlen b)).
  assert (Hes : strlen b = length text) by (apply strlen_text, Hz). rewrite Hes.
  assert (Hat : forall ts, spells ts text -> at_toks b (length text) (length text) ts O).
  { intros ts Hs. exists text. split; [exists [], rest; auto|auto]. }
  destruct (lex_exists (length text) text ltac:(lia) Hz) as (ts & Hts).
  pose proof (text_sound _ _ _ (Hat ts Hts)) as Ho.
  destruct (parse_text b (length text) O) as [c s|msg| |] eqn:E; simpl in Ho; try contradiction.
  - destruct Ho as (t & Ht & Hc). exists t, ts. split; [exact Hts|]. split; [exact Ht|]. split.
    + rewrite nulterminate_zeros. apply words_reads; auto. apply (words_ends b c t Hc).
    + intros u us Hus Hu. destruct (text_complete _ _ u us (Hat us Hus) Hu) as (c' & s' & E' & Hc'). rewrite E in E'.
      injection E' as <- <-. eapply words_fun; eassumption.
  - intros t us Hus Ht. destruct (text_complete _ _ t us (Hat us Hus) Ht) as (c' & s' & E' & _). congruence.
Qed.

(** C17. The parser of the shell accepts exactly the command lines of the grammar
    [line], with white space anywhere between tokens, and the command it
    returns is the one the grammar gives the line: whatever the text, it ends,
    either with a syntax error, when no derivation exists, or with the command
    of the only derivation, whose arguments and file names - read from the
    line after [nulterminate] has written its NULs into it - are the words of the
    line. *)
Theorem parsecmd_grammar text rest : Forall (fun c => c <> 0) text ->
  match parsecmd (text ++ 0 :: rest) with
  | Ret c b' => exists t ts, spells ts text /\ line t ts /\ reads b' c t /\
      forall u us, spells us text -> line u us -> u = t
  | Panic _ => forall t ts, spells ts text -> ~ line t ts
  | _ => False
  end.
Proof. apply parsecmd_run. Qed.

(** [ls -l|wc>o;(a&)<i] *)
Definition ex_line : list Z := [108; 115; 32; 45; 108; 124; 119; 99; 62; 111; 59; 40; 97; 38; 41; 60; 105].

Lemma parsecmd_grammar_witness :
  Forall (fun c => c <> 0) ex_line /\
  exists c b' t ts, parsecmd (ex_line ++ [0; 0]) = Ret c b' /\ spells ts ex_line /\ line t ts /\ reads b' c t.
Proof.
  assert (Hz : Forall (fun c => c <> 0) ex_line) by (unfold ex_line; repeat constructor; discriminate).
  split; [exact Hz|]. pose proof (parsecmd_grammar ex_line [0] Hz) as H.
  destruct (parsecmd (ex_line ++ [0; 0])) as [c b'| | |] eqn:E; try (vm_compute in E; discriminate).
  destruct H as (t & ts & H1 & H2 & H3 & _). exists c, b', t, ts. auto.
Defined.
