(* ===== verification/ShRun.v ===== *)
(** * What the shell runs

    Commands of the shell as the programs they start and the descriptors
    these have, and that [runcmd] of Sh.v starts exactly these: with its
    [close]s, [dup]s and [open]s each program ends up with the right standard
    input and output, and no other descriptor. *)

From S2P Require Import Prelude Fcntl Sh ShSpec.

(** ** Descriptors *)

Inductive desc : Type :=
| D_file (path : list Z) (mode : Z)
| D_read (pipe : nat)       (* the two ends of a pipe *)
| D_write (pipe : nat)
| D_other (id : Z).

Definition fdt : Type := list (option desc).

(** The lowest free descriptor; it is what [open], [dup] and [pipe] give. *)
Fixpoint lowest (t : fdt) : option nat :=
  match t with
  | [] => None
  | None :: _ => Some O
  | Some _ :: t => S <$> lowest t
  end.
Definition fd_get (t : fdt) (fd : Z) : option desc := mjoin (t !! Z.to_nat fd).
Definition fd_close (t : fdt) (fd : Z) : fdt := <[Z.to_nat fd := None]> t.
(** The new descriptor, -1 if there is none. *)
Definition fd_new (d : desc) (t : fdt) : Z * fdt :=
  match lowest t with
  | None => (-1, t)
  | Some i => (Z.of_nat i, <[i := Some d]> t)
  end.

(** The programs a process and its children execute, with their descriptors,
    when files can be opened and processes created; [np] numbers the pipes. *)
Fixpoint execs (p : prog) (t : fdt) (np : nat) : list (list (list Z) * fdt) * nat :=
  match p with
  | Exit _ => ([], np)
  | Exec _ argv _ => ([(argv, t)], np)
  | Open path mode k => let '(fd, t) := fd_new (D_file path mode) t in execs (k fd) t np
  | Close fd k => execs k (fd_close t fd) np
  | Dup fd k =>
      match fd_get t fd with
      | None => execs (k (-1)) t np
      | Some d => let '(fd, t) := fd_new d t in execs (k fd) t np
      end
  | Pipe k =>
      let '(r, t) := fd_new (D_read np) t in
      let '(w, t) := fd_new (D_write np) t in
      execs (k (if (r <? 0) || (w <? 0) then None else Some (r, w))) t (S np)
  | Fork k =>
      let '(l1, np) := execs (k 0) t np in
      let '(l2, np) := execs (k 1) t np in (l1 ++ l2, np)
  | Wait k => execs k t np
  | Err _ _ k => execs k t np
  end.

(** ** What commands mean *)

(** Standard input, output and error, and nothing else. *)
Definition std (i o e : desc) : fdt := [Some i; Some o; Some e] ++ replicate 13 None.

Fixpoint programs (c : tcmd) (i o e : desc) (np : nat) : list (list (list Z) * fdt) * nat :=
  match c with
  | TExec [] => ([], np)
  | TExec args => ([(args, std i o e)], np)
  | TRedir c RIn f => programs c (D_file f (rmode RIn)) o e np
  | TRedir c k f => programs c i (D_file f (rmode k)) e np
  | TPipe l r =>
      let '(l1, np1) := programs l i (D_write np) e (S np) in
      let '(l2, np2) := programs r (D_read np) o e np1 in (l1 ++ l2, np2)
  | TList l r =>
      let '(l1, np1) := programs l i o e np in
      let '(l2, np2) := programs r i o e np1 in (l1 ++ l2, np2)
  | TBack c => programs c i o e np
  end.

Lemma runcmd_programs b c t : reads b c t -> forall i o e np,
  execs (runcmd b c) (std i o e) np = programs t i o e np.
Proof.
  induction 1 as [argv|c t w k Hc IH|l r t u Hl IHl Hr IHr|l r t u Hl IHl Hr IHr|c t Hc IH]; intros i o e np.
  - simpl. destruct argv as [|w argv]; reflexivity.
  - destruct w as [q eq]. destruct k; simpl; apply IH.
  - simpl. fold (std i (D_write np) e). fold (std (D_read np) o e).
    change (execs (runcmd b l) _ (S np)) with (execs (runcmd b l) (std i (D_write np) e) (S np)). rewrite IHl.
    destruct (programs t i (D_write np) e (S np)) as [l1 np1].
    change (execs (runcmd b r) _ np1) with (execs (runcmd b r) (std (D_read np) o e) np1). rewrite IHr.
    destruct (programs u (D_read np) o e np1) as [l2 np2]. rewrite app_nil_r. reflexivity.
  - simpl. rewrite IHl. destruct (programs t i o e np) as [l1 np1]. rewrite IHr. reflexivity.
  - simpl. rewrite IH. destruct (programs t i o e np) as [l1 np1]. rewrite app_nil_r. reflexivity.
Qed.

(** C18. From the text of a command line to running programs.  Let the line be
    in the grammar with meaning [t], and let the shell have standard input,
    output and error open and nothing else.  Then the parser accepts it, and
    [runcmd] starts exactly the programs of [t], each with its arguments: a
    pipeline's programs are connected by a pipe of their own, redirected ones
    have the file in place of the input or output, and no program is left with
    any descriptor but these three. *)
Theorem shell_runs_programs text rest t ts i o e np : Forall (fun c => c <> 0) text -> spells ts text -> line t ts ->
  exists c b', parsecmd (text ++ 0 :: rest) = Ret c b' /\ execs (runcmd b' c) (std i o e) np = programs t i o e np.
Proof.
  intros Hz Hs Hl. pose proof (parsecmd_run text rest Hz) as H.
  destruct (parsecmd (text ++ 0 :: rest)) as [c b'|msg| |]; try contradiction; [|destruct (H t ts Hs Hl)].
  destruct H as (t' & ts' & _ & _ & Hr & Hu). exists c, b'. split; [reflexivity|].
  rewrite (Hu t ts Hs Hl). apply runcmd_programs, Hr.
Qed.

(** [ls|wc>o] *)
Lemma shell_runs_programs_witness : exists c b',
  parsecmd ([108; 115; 124; 119; 99; 62; 111] ++ [0]) = Ret c b' /\
  execs (runcmd b' c) (std (D_other 0) (D_other 1) (D_other 2)) 7 =
    ([([[108; 115]], std (D_other 0) (D_write 7) (D_other 2));
      ([[119; 99]], std (D_read 7) (D_file [111] (rmode ROut)) (D_other 2))], 8%nat).
Proof.
  apply (shell_runs_programs [108; 115; 124; 119; 99; 62; 111] []
    (TPipe (TExec [[108; 115]]) (TRedir (TExec [[119; 99]]) ROut [111]))
    [Word [108; 115]; Sym 124; Word [119; 99]; Sym 62; Word [111]] (D_other 0) (D_other 1) (D_other 2) 7).
  - repeat constructor; discriminate.
  - assert (Hw : forall c l, wordch c = true -> Forall (fun c => wordch c = true) l -> tok_ok (Word (c :: l))).
    { intros c l Hc Hl. split; [discriminate|]. constructor; assumption. }
    apply (spells_cons [] (Word [108; 115]) _ [124; 119; 99; 62; 111]); [constructor|apply Hw; repeat constructor|reflexivity|].
    apply (spells_cons [] (Sym 124) _ [119; 99; 62; 111]); [constructor|reflexivity|discriminate|].
    apply (spells_cons [] (Word [119; 99]) _ [62; 111]); [constructor|apply Hw; repeat constructor|reflexivity|].
    apply (spells_cons [] (Sym 62) _ [111]); [constructor|reflexivity|simpl; discriminate|].
    apply (spells_cons [] (Word [111]) [] []); [constructor|apply Hw; repeat constructor|reflexivity|].
    apply (spells_nil []). constructor.
  - apply (line_end _ [Word [108; 115]; Sym 124; Word [119; 99]; Sym 62; Word [111]] 0).
    apply (pipe_more _ [Word [108; 115]] _ [Word [119; 99]; Sym 62; Word [111]]).
    + apply (exec_simple [Arg [108; 115]]). unfold MAXARGS. simpl. lia.
    + apply pipe_one, (exec_simple [Arg [119; 99]; Red ROut [111]]). unfold MAXARGS. simpl. lia.
Defined.

(** ** The main loop *)

Lemma gets_line_len n : forall input l rest, gets_line n input = (l, rest) -> length input = (length l + length rest)%nat.
Proof.
  induction n as [|n IH]; intros [|c input] l rest H; simpl in H; try (injection H as <- <-; reflexivity).
  destruct ((c =? 10) || (c =? 13)); [injection H as <- <-; reflexivity|].
  destruct (gets_line n input) as [l' rest'] eqn:E. injection H as <- <-. simpl. f_equal. exact (IH _ _ _ E).
Qed.

(** The loop ends when the input does. *)
Lemma sh_main_total fuel : forall input, (length input < fuel)%nat -> sh_main fuel input <> None.
Proof.
  induction fuel as [|fuel IH]; intros input Hf; [lia|]. cbn [sh_main].
  destruct (gets_line (NBUF_SH - 1) input) as [l rest] eqn:E. pose proof (gets_line_len _ _ _ _ E) as Hl.
  destruct l as [|c l]; [discriminate|]. simpl. destruct (c =? 0); [discriminate|].
  destruct (sh_main fuel rest) eqn:E'; [discriminate|]. exfalso. revert E'. apply IH. simpl in Hl. lia.
Qed.

Lemma gets_line_full l : forall n rest, Forall (fun c => c <> 10 /\ c <> 13) l -> (length l < n)%nat ->
  gets_line n (l ++ 10 :: rest) = (l ++ [10], rest).
Proof.
  induction l as [|c l IH]; intros [|n] rest Hl Hn; simpl in *; try lia; [reflexivity|].
  apply Forall_cons in Hl as [[H1 H2] Hl]. apply Z.eqb_neq in H1, H2. rewrite H1, H2. simpl.
  rewrite IH by (auto; lia). reflexivity.
Qed.

(** Lines that fit into the buffer are taken one after the other. *)
Lemma sh_main_lines ls : forall fuel, (length ls < fuel)%nat ->
  Forall (fun l => Forall (fun c => c <> 0 /\ c <> 10 /\ c <> 13) l /\ (length l < NBUF_SH - 1)%nat) ls ->
  sh_main fuel (concat ((fun l => l ++ [10]) <$> ls)) = Some (concat ((fun l => sh_line (l ++ [10])) <$> ls)).
Proof.
  induction ls as [|l ls IH]; intros [|fuel] Hf Hls; simpl in Hf; try lia; [reflexivity|].
  apply Forall_cons in Hls as [[Hl Hlen] Hls]. cbn [sh_main fmap list_fmap concat]. rewrite <- app_assoc. cbn [app].
  rewrite gets_line_full; [|eapply Forall_impl; [exact Hl|]; intros c Hc; apply Hc|exact Hlen].
  assert (E : (nth 0 (l ++ [10]) 0 =? 0) = false).
  { apply Z.eqb_neq. destruct l as [|c l]; [simpl; lia|]. apply Forall_cons in Hl as [Hc _]. apply Hc. }
  rewrite E. specialize (IH fuel ltac:(lia) Hls).
  match goal with |- (_ ← ?x; _) = _ => change x with (sh_main fuel (concat ((fun l => l ++ [10]) <$> ls))) end.
  rewrite IH. reflexivity.
Qed.
