(* ===== verification/UserInit.v ===== *)
(** * The first process

    [user/init.c]: the device nodes and descriptors it sets up before it starts
    programs, and the loop that keeps a shell running.  Descriptors are those of
    [ShRun]; a name is there or not.  Results of [fork] and [wait] are inputs of
    the loop. *)

From S2P Require Import Prelude Fcntl Sh ShSpec ShRun.

Record ust : Type := Ust {
  u_names : list (list Z);   (* names in the file system *)
  u_fds : fdt;
  u_started : list (list Z * fdt)   (* programs executed by children, with their descriptors *)
}.

(** "console", "/dev" and "/dev/fb"; "drawdemo" and "sh" *)
Definition CONSOLE_NAME : list Z := [99; 111; 110; 115; 111; 108; 101].
Definition DEV_NAME : list Z := [47; 100; 101; 118].
Definition FB_NAME : list Z := DEV_NAME ++ [47; 102; 98].
Definition DRAWDEMO : list Z := [100; 114; 97; 119; 100; 101; 109; 111].
Definition SH : list Z := [115; 104].

(** The directory a name is in; the empty name is the root. *)
Fixpoint upto_slash (r : list Z) : list Z :=
  match r with
  | [] => []
  | c :: r => if c =? 47 then r else upto_slash r
  end.
Definition dirname (path : list Z) : list Z := rev (upto_slash (rev path)).

Definition there (path : list Z) (s : ust) : bool := bool_decide (path = []) || bool_decide (path ∈ u_names s).

Definition u_open (path : list Z) (s : ust) : Z * ust :=
  if there path s then
    let '(fd, t) := fd_new (D_file path O_RDWR) (u_fds s) in (fd, Ust (u_names s) t (u_started s))
  else (-1, s).

(** [mknod] and [mkdir]: a new name in a directory that is there. *)
Definition u_create (path : list Z) (s : ust) : ust :=
  if negb (there path s) && there (dirname path) s then Ust (path :: u_names s) (u_fds s) (u_started s) else s.

Definition u_dup (fd : Z) (s : ust) : ust :=
  match fd_get (u_fds s) fd with
  | None => s
  | Some d => Ust (u_names s) (snd (fd_new d (u_fds s))) (u_started s)
  end.

(** A child that executes a program. *)
Definition u_spawn (prog : list Z) (s : ust) : ust := Ust (u_names s) (u_fds s) (u_started s ++ [(prog, u_fds s)]).

(** The first part of [main], up to the loop; [pid] is the result of [fork]. *)
Definition init_setup (pid : Z) (s : ust) : ust :=
  let '(fd, s) := u_open CONSOLE_NAME s in
  let s := if fd <? 0 then snd (u_open CONSOLE_NAME (u_create CONSOLE_NAME s)) else s in
  let s := u_create DEV_NAME s in
  let '(fd, s) := u_open FB_NAME s in
  let s := if fd <? 0 then u_create FB_NAME s else s in
  let s := u_dup 0 s in
  let s := u_dup 0 s in
  if pid <? 0 then s else u_spawn DRAWDEMO s.

(** [for(;;) wpid = wait(0) ...]: [Some rest] when the shell [pid] is gone,
    [None] when the loop ends in [exit(1)]; [waits] are the results of [wait],
    and with no more results the process is still waiting. *)
Inductive waited : Type := ShellGone (rest : list Z) | WaitFailed | Waiting.

Fixpoint wait_shell (pid : Z) (waits : list Z) : waited :=
  match waits with
  | [] => Waiting
  | wpid :: waits => if wpid =? pid then ShellGone waits else if wpid <? 0 then WaitFailed else wait_shell pid waits
  end.

(** The loop of [main], a round for each result of [fork].  [true]: still
    running. *)
Fixpoint init_loop (forks waits : list Z) (s : ust) : bool * ust :=
  match forks with
  | [] => (true, s)
  | pid :: forks =>
      if pid <? 0 then (false, s) else
      let s := u_spawn SH s in
      match wait_shell pid waits with
      | ShellGone waits => init_loop forks waits s
      | WaitFailed => (false, s)
      | Waiting => (true, s)
      end
  end.

Definition init_main (pid : Z) (forks waits : list Z) (s : ust) : bool * ust := init_loop forks waits (init_setup pid s).

(** ** What the programs it starts have *)

(** A process that has just been started has no descriptors. *)
Definition no_fds : fdt := replicate 16 None.
Definition console : desc := D_file CONSOLE_NAME O_RDWR.
Definition framebuffer : desc := D_file FB_NAME O_RDWR.

Definition setup_fds (fb : bool) : fdt :=
  if fb then [Some console; Some framebuffer; Some console; Some console] ++ replicate 12 None else std console console console.

Lemma setup_run pid names : let s := init_setup pid (Ust names no_fds []) in let fb := bool_decide (FB_NAME ∈ names) in
  u_fds s = setup_fds fb /\ u_started s = (if pid <? 0 then [] else [(DRAWDEMO, setup_fds fb)]) /\ FB_NAME ∈ u_names s /\ CONSOLE_NAME ∈ u_names s.
Proof.
  assert (Hc : forall s, there CONSOLE_NAME s = bool_decide (CONSOLE_NAME ∈ u_names s)) by reflexivity.
  assert (Hd : forall s, there DEV_NAME s = bool_decide (DEV_NAME ∈ u_names s)) by reflexivity.
  assert (Hf : forall s, there FB_NAME s = bool_decide (FB_NAME ∈ u_names s)) by reflexivity.
  (* the console is there, and open *)
  assert (H1 : exists names1, (forall n, n ∈ names1 <-> n = CONSOLE_NAME \/ n ∈ names) /\
    (let '(fd, s) := u_open CONSOLE_NAME (Ust names no_fds []) in if fd <? 0 then snd (u_open CONSOLE_NAME (u_create CONSOLE_NAME s)) else s) =
      Ust names1 (Some console :: replicate 15 None) []).
  { unfold u_open at 1. rewrite Hc. cbn [u_names]. destruct (bool_decide_reflect (CONSOLE_NAME ∈ names)) as [H|H].
    - exists names. split; [intros n; split; [auto|intros [->|]; auto]|reflexivity].
    - exists (CONSOLE_NAME :: names). split; [intros n; apply elem_of_cons|]. change (-1 <? 0) with true. cbv iota. unfold u_create. rewrite Hc. cbn [u_names].
      rewrite bool_decide_eq_false_2 by exact H. change (there (dirname CONSOLE_NAME) _) with true. cbn [negb andb].
      unfold u_open. rewrite Hc. cbn [u_names]. rewrite bool_decide_eq_true_2 by (left; reflexivity). reflexivity. }
  destruct H1 as (names1 & H1 & E1). unfold init_setup. destruct (u_open CONSOLE_NAME (Ust names no_fds [])) as [fd s0]. rewrite E1. clear E1 fd s0.
  (* so is the directory *)
  assert (H2 : exists names2, (forall n, n ∈ names2 <-> n = DEV_NAME \/ n ∈ names1) /\
    u_create DEV_NAME (Ust names1 (Some console :: replicate 15 None) []) = Ust names2 (Some console :: replicate 15 None) []).
  { unfold u_create. rewrite Hd. cbn [u_names]. change (there (dirname DEV_NAME) _) with true. destruct (bool_decide_reflect (DEV_NAME ∈ names1)) as [H|H]; cbn [negb andb].
    - exists names1. split; [intros n; split; [auto|intros [->|]; auto]|reflexivity].
    - exists (DEV_NAME :: names1). split; [intros n; apply elem_of_cons|reflexivity]. }
  destruct H2 as (names2 & H2 & ->). unfold u_open. rewrite Hf. cbn [u_names].
  assert (E : bool_decide (FB_NAME ∈ names2) = bool_decide (FB_NAME ∈ names)).
  { apply bool_decide_ext. rewrite H2, H1. split; [intros [|[|]]; [discriminate|discriminate|assumption]|auto]. }
  assert (Hcons : CONSOLE_NAME ∈ names2) by (rewrite H2, H1; auto). rewrite E. destruct (bool_decide_reflect (FB_NAME ∈ names)) as [H|H].
  - destruct (pid <? 0); (split; [reflexivity|]; split; [reflexivity|]; split; [|exact Hcons]).
    all: apply (H2 FB_NAME); rewrite H1; auto.
  - change (-1 <? 0) with true. cbv iota. unfold u_create. rewrite Hf. cbn [u_names]. rewrite E, ?bool_decide_eq_false_2 by exact H.
    change (there (dirname FB_NAME) ?s) with (there DEV_NAME s). rewrite Hd. cbn [u_names]. rewrite bool_decide_eq_true_2 by (rewrite H2; auto). cbn [negb andb].
    destruct (pid <? 0); (split; [reflexivity|]; split; [reflexivity|]; split; [left; reflexivity|right; exact Hcons]).
Qed.

Lemma wait_reaps pid waits : Forall (fun w => 0 <= w) waits -> wait_shell pid waits <> WaitFailed.
Proof.
  induction 1 as [|w waits Hw Hws IH]; cbn [wait_shell]; [discriminate|]. destruct (w =? pid); [discriminate|]. replace (w <? 0) with false by lia. exact IH.
Qed.

Lemma wait_rest pid waits rest : wait_shell pid waits = ShellGone rest -> exists reaped, waits = reaped ++ pid :: rest /\ pid ∉ reaped.
Proof.
  induction waits as [|w waits IH]; cbn [wait_shell]; [discriminate|]. destruct (Z.eqb_spec w pid) as [->|Hne].
  - intros [= ->]. exists []. split; [reflexivity|apply not_elem_of_nil].
  - destruct (w <? 0); [discriminate|]. intros E. destruct (IH E) as (r & -> & Hr). exists (w :: r). split; [reflexivity|]. rewrite elem_of_cons. intros [|]; [congruence|contradiction].
Qed.

(** How often the shell is started: once more for every time the current one is
    waited for. *)
Fixpoint shells (forks waits : list Z) : nat :=
  match forks with
  | [] => O
  | pid :: forks => S (match wait_shell pid waits with ShellGone rest => shells forks rest | _ => O end)
  end.

Lemma init_loop_run forks : forall waits s, Forall (fun p => 0 <= p) forks -> Forall (fun w => 0 <= w) waits ->
  exists s', init_loop forks waits s = (true, s') /\ u_fds s' = u_fds s /\ u_started s' = u_started s ++ replicate (shells forks waits) (SH, u_fds s).
Proof.
  induction forks as [|pid forks IH]; intros waits s Hf Hw; cbn [init_loop shells].
  { exists s. split; [reflexivity|]. split; [reflexivity|]. rewrite app_nil_r. reflexivity. }
  inversion_clear Hf as [|? ? Hp Hfs]. replace (pid <? 0) with false by lia. pose proof (wait_reaps pid waits Hw) as Hn.
  destruct (wait_shell pid waits) as [rest| |] eqn:E; [|congruence|].
  - destruct (wait_rest _ _ _ E) as (r & -> & _). apply Forall_app in Hw as [_ Hw]. inversion_clear Hw as [|? ? _ Hrest].
    destruct (IH rest (u_spawn SH s) Hfs Hrest) as (s' & E' & F & St). exists s'. split; [exact E'|]. split; [exact F|]. rewrite St. simpl. rewrite <- app_assoc. reflexivity.
  - eexists. split; [reflexivity|]. split; reflexivity.
Qed.

(** C19. The programs [init] starts and their descriptors.  As long as [fork] and
    [wait] succeed [init] does not exit; it starts [drawdemo] once, if its [fork]
    succeeds, and a shell again each time the one it started last is gone,
    however many orphans it reaps between.  On an image without /dev/fb it creates the node, and all of
    them have the console as standard input, output and error and nothing else.
    On an image that has the node (any image that has been booted before) it
    opens the node and keeps it open: their standard output is the framebuffer,
    and descriptor 3 is a fourth one. *)
Theorem init_starts (names : list (list Z)) (pid : Z) (forks waits : list Z) :
  Forall (fun p => 0 <= p) forks -> Forall (fun w => 0 <= w) waits ->
  exists s, init_main pid forks waits (Ust names no_fds []) = (true, s) /\ FB_NAME ∈ u_names (init_setup pid (Ust names no_fds [])) /\
    let t := if bool_decide (FB_NAME ∈ names) then [Some console; Some framebuffer; Some console; Some console] ++ replicate 12 None else std console console console in
    u_started s = (if pid <? 0 then [] else [(DRAWDEMO, t)]) ++ replicate (shells forks waits) (SH, t).
Proof.
  intros Hf Hw. destruct (setup_run pid names) as (F & St & Hfb & _). destruct (init_loop_run forks waits (init_setup pid (Ust names no_fds [])) Hf Hw) as (s & E & F' & St').
  exists s. split; [exact E|]. split; [exact Hfb|]. cbv zeta. rewrite St', St, F. reflexivity.
Qed.

(** The shell (process 4) exits, an orphan (7) and the new shell (5) follow. *)
Lemma init_starts_witness : exists s, init_main 3 [4; 5; 6] [4; 7; 5] (Ust [FB_NAME; DEV_NAME] no_fds []) = (true, s) /\
  FB_NAME ∈ u_names (init_setup 3 (Ust [FB_NAME; DEV_NAME] no_fds [])) /\
  u_started s = (DRAWDEMO, [Some console; Some framebuffer; Some console; Some console] ++ replicate 12 None) ::
    replicate 3 (SH, [Some console; Some framebuffer; Some console; Some console] ++ replicate 12 None).
Proof. apply (init_starts [FB_NAME; DEV_NAME] 3 [4; 5; 6] [4; 7; 5]); repeat constructor; lia. Defined.
