(* ===== verification/UserText.v ===== *)
(** * Text utilities

    [user/cat.c], [user/wc.c], [user/echo.c] and [user/grep.c].  Standard input
    or an open file is [stream]: the bytes still to be read, how many of them
    the next calls of [read] deliver at most - a pipe or the console may deliver
    fewer than asked for, but not none before the end - and whether a read after
    them fails. *)

From S2P Require Import Prelude.

Record stream : Type := Stream { st_input : list Z; st_sizes : list nat; st_fails : bool }.

(** [read(fd, buf, n)]: the bytes, [Some []] for a result of 0 and [None] for a
    negative one. *)
Definition uread (n : nat) (s : stream) : option (list Z) * stream :=
  let k := match st_sizes s with [] => n | k :: _ => Nat.min n (S k) end in
  (if bool_decide (st_input s = []) && st_fails s then None else Some (take k (st_input s)),
   Stream (drop k (st_input s)) (tail (st_sizes s)) (st_fails s)).

(** A read is a piece of the input, or the end of it. *)
Lemma uread_spec n s : (0 < n)%nat ->
  exists r s', uread n s = (r, s') /\ st_fails s' = st_fails s /\
    (st_input s = [] /\ r = (if st_fails s then None else Some []) \/
     exists c bs, r = Some (c :: bs) /\ (length (c :: bs) <= n)%nat /\ st_input s = (c :: bs) ++ st_input s').
Proof.
  intros Hn. unfold uread. eexists _, _. split; [reflexivity|]. split; [reflexivity|]. cbn [st_input st_fails].
  set (k := match st_sizes s with [] => n | k :: _ => Nat.min n (S k) end).
  assert (Hk : (0 < k <= n)%nat) by (unfold k; destruct (st_sizes s); lia). clearbody k.
  destruct (st_input s) as [|c l]; [left; split; [reflexivity|destruct (st_fails s), k; reflexivity]|].
  right. destruct k as [|k]; [lia|]. exists c, (take k l). simpl. rewrite take_drop. repeat split; rewrite ?length_take; lia.
Qed.

(** ** cat *)

(** What is written to standard output, and whether the program goes on instead
    of exiting with an error; [write bs] says whether the write of [bs] is
    complete. *)
Fixpoint cat (write : list Z -> bool) (fuel : nat) (s : stream) : option (list Z * bool) :=
  match fuel with
  | O => None
  | S fuel =>
      let '(r, s) := uread 512 s in
      match r with
      | None => Some ([], false)
      | Some [] => Some ([], true)
      | Some buf =>
          if write buf then '(out, ok) ← cat write fuel s; Some (buf ++ out, ok)
          else Some (buf, false)
      end
  end.

(** ** wc *)

Record counts : Type := Counts { w_lines : Z; w_words : Z; w_chars : Z; w_inword : bool }.

Definition is_blank (c : Z) : bool := existsb (Z.eqb c) [32; 13; 9; 10; 11].   (* " \r\t\n\v" *)

(** The body of the loop over the buffer. *)
Definition wc_char (a : counts) (c : Z) : counts :=
  let l := if c =? 10 then w_lines a + 1 else w_lines a in
  if is_blank c then Counts l (w_words a) (w_chars a + 1) false
  else if negb (w_inword a) then Counts l (w_words a + 1) (w_chars a + 1) true
  else Counts l (w_words a) (w_chars a + 1) (w_inword a).

(** The counts it prints; the inner [None] is the read error. *)
Fixpoint wc (fuel : nat) (a : counts) (s : stream) : option (option counts) :=
  match fuel with
  | O => None
  | S fuel =>
      let '(r, s) := uread 512 s in
      match r with
      | None => Some None
      | Some [] => Some (Some a)
      | Some buf => wc fuel (foldl wc_char a buf) s
      end
  end.

(** ** echo *)

(** The writes for arguments 1, 2, ... *)
Fixpoint echo (args : list (list Z)) : list (list Z) :=
  match args with
  | [] => []
  | [a] => [a; [10]]
  | a :: args => a :: [32] :: echo args
  end.

(** ** grep

    Patterns and lines without their NUL. *)

(** The loop of [matchstar]; [mh] is [matchhere] on the rest of the pattern. *)
Fixpoint matchstar (mh : list Z -> bool) (c : Z) (text : list Z) : bool :=
  mh text ||
  match text with
  | [] => false
  | ch :: text => ((ch =? c) || (c =? 46)) && matchstar mh c text
  end.

Fixpoint matchhere (re : list Z) (text : list Z) : bool :=
  match re with
  | [] => true
  | c :: re1 =>
      match re1 with
      | 42 :: re2 => matchstar (matchhere re2) c text
      | _ =>
          if (c =? 36) && bool_decide (re1 = []) then bool_decide (text = [])
          else match text with
               | [] => false
               | ch :: text => ((c =? 46) || (c =? ch)) && matchhere re1 text
               end
      end
  end.

(** The loop of [match]: at every position, the end included. *)
Fixpoint match_from (re : list Z) (text : list Z) : bool :=
  matchhere re text ||
  match text with
  | [] => false
  | _ :: text => match_from re text
  end.

Definition match_re (re text : list Z) : bool :=
  match re with
  | 94 :: re => matchhere re text
  | _ => match_from re text
  end.

(** [strchr(p, '\n')]: what is before the newline and what is after it; none when
    the string ends first. *)
Fixpoint cut_line (p : list Z) : option (list Z * list Z) :=
  match p with
  | [] => None
  | c :: p =>
      if c =? 0 then None
      else if c =? 10 then Some ([], p)
      else '(l, rest) ← cut_line p; Some (c :: l, rest)
  end.

(** The inner loop: what is printed for the lines in the buffer, and what is
    left in it. *)
Fixpoint grep_buf (fuel : nat) (pattern p : list Z) : option (list Z * list Z) :=
  match fuel with
  | O => None
  | S fuel =>
      match cut_line p with
      | None => Some ([], p)
      | Some (l, rest) =>
          '(out, p) ← grep_buf fuel pattern rest;
          Some ((if match_re pattern l then l ++ [10] else []) ++ out, p)
      end
  end.

Definition GREPBUF : nat := 1024.

(** The outer loop, [buf] being the first [m] bytes of the buffer. *)
Fixpoint grep (fuel : nat) (pattern buf : list Z) (s : stream) : option (list Z) :=
  match fuel with
  | O => None
  | S fuel =>
      let '(r, s) := uread (GREPBUF - length buf - 1) s in
      match r with
      | None | Some [] => Some []
      | Some more =>
          let buf := buf ++ more in
          '(out, buf) ← grep_buf (S (length buf)) pattern buf;
          rest ← grep fuel pattern buf s;
          Some (out ++ rest)
      end
  end.
