(* ===== verification/UserTextSpec.v ===== *)
(** * What the text utilities compute

    The meaning of patterns and that [grep] matches by it; that [cat], [wc] and
    [grep] do not depend on how their input arrives. *)

From S2P Require Import Prelude UserText.

(** ** Patterns *)

Inductive atom : Type := One (c : Z) | Star (c : Z).

(** The pattern as a sequence of atoms, and whether it ends in [$]. *)
Fixpoint atoms (re : list Z) : list atom * bool :=
  match re with
  | [] => ([], false)
  | c :: re1 =>
      match re1 with
      | 42 :: re2 => let '(a, e) := atoms re2 in (Star c :: a, e)
      | [] => if c =? 36 then ([], true) else ([One c], false)
      | _ => let '(a, e) := atoms re1 in (One c :: a, e)
      end
  end.

Definition accepts (c ch : Z) : Prop := c = 46 \/ c = ch.

(** The strings a sequence of atoms stands for. *)
Inductive lang : list atom -> list Z -> Prop :=
| lang_nil : lang [] []
| lang_one c ch a s : accepts c ch -> lang a s -> lang (One c :: a) (ch :: s)
| lang_star c s1 s2 a : Forall (accepts c) s1 -> lang a s2 -> lang (Star c :: a) (s1 ++ s2).

Definition prefix_matches (p : list atom * bool) (text : list Z) : Prop :=
  exists s rest, text = s ++ rest /\ lang p.1 s /\ (p.2 = true -> rest = []).

Lemma prefix_nil e text : prefix_matches ([], e) text <-> (e = true -> text = []).
Proof.
  split.
  - intros (s & rest & -> & Hs & He). inversion Hs; subst. exact He.
  - intros H. exists [], text. repeat split; [constructor|exact H].
Qed.

Lemma prefix_one c a e text : prefix_matches (One c :: a, e) text <->
  exists ch t, text = ch :: t /\ accepts c ch /\ prefix_matches (a, e) t.
Proof.
  split.
  - intros (s & rest & -> & Hs & He). inversion Hs as [|? ch ? s' Ha Hs'|]; subst. exists ch, (s' ++ rest).
    split; [reflexivity|]. split; [exact Ha|]. exists s', rest. auto.
  - intros (ch & t & -> & Ha & s & rest & -> & Hs & He). exists (ch :: s), rest. split; [reflexivity|].
    split; [constructor; assumption|exact He].
Qed.

Lemma prefix_star c a e text : prefix_matches (Star c :: a, e) text <->
  exists s1 t, text = s1 ++ t /\ Forall (accepts c) s1 /\ prefix_matches (a, e) t.
Proof.
  split.
  - intros (s & rest & -> & Hs & He). inversion Hs as [| |? s1 s2 ? Ha Hs']; subst. exists s1, (s2 ++ rest).
    split; [rewrite app_assoc; reflexivity|]. split; [exact Ha|]. exists s2, rest. auto.
  - intros (s1 & t & -> & Ha & s & rest & -> & Hs & He). exists (s1 ++ s), rest. split; [apply app_assoc|].
    split; [constructor; assumption|exact He].
Qed.

Lemma accepts_iff c ch : ((c =? 46) || (c =? ch)) = true <-> accepts c ch.
Proof. unfold accepts. rewrite orb_true_iff, !Z.eqb_eq. tauto. Qed.

Lemma accepts_star c ch : ((ch =? c) || (c =? 46)) = true <-> accepts c ch.
Proof. unfold accepts. lia. Qed.

Lemma matchstar_iff mh c text : matchstar mh c text = true <->
  exists s1 t, text = s1 ++ t /\ Forall (accepts c) s1 /\ mh t = true.
Proof.
  induction text as [|ch text IH]; simpl; rewrite orb_true_iff.
  - split.
    + intros [H|H]; [|discriminate]. exists [], []. auto.
    + intros (s1 & t & E & Hs & Ht). symmetry in E. apply app_eq_nil in E as [-> ->]. auto.
  - rewrite andb_true_iff, IH. split.
    + intros [H|[Hc (s1 & t & -> & Hs & Ht)]]; [exists [], (ch :: text); auto|].
      exists (ch :: s1), t. split; [reflexivity|]. split; [|exact Ht]. constructor; [|exact Hs].
      apply accepts_star, Hc.
    + intros (s1 & t & E & Hs & Ht). destruct s1 as [|d s1]; simpl in E; [subst; auto|]. injection E as <- ->.
      apply Forall_cons in Hs as [Hd Hs]. right. split; [|eauto]. apply accepts_star, Hd.
Qed.

Lemma matchhere_iff n : forall re text, (length re <= n)%nat -> matchhere re text = true <-> prefix_matches (atoms re) text.
Proof.
  induction n as [|n IH]; intros re text Hn.
  { destruct re; [|simpl in Hn; lia]. simpl. rewrite prefix_nil. split; congruence. }
  destruct re as [|c re1]; [simpl; rewrite prefix_nil; split; congruence|]. simpl in Hn.
  assert (Hs : (exists re2, re1 = 42 :: re2) \/ ~ exists re2, re1 = 42 :: re2).
  { destruct re1 as [|d re1]; [right; intros (? & ?); discriminate|].
    destruct (decide (d = 42)) as [->|]; [left; eauto|right; intros (? & ?); congruence]. }
  destruct Hs as [(re2 & ->)|Hns].
  - change (matchhere (c :: 42 :: re2) text) with (matchstar (matchhere re2) c text).
    change (atoms (c :: 42 :: re2)) with (let '(a, e) := atoms re2 in (Star c :: a, e)).
    rewrite matchstar_iff. simpl in Hn. destruct (atoms re2) as [a e] eqn:E. rewrite prefix_star.
    split; intros (s1 & t & -> & Hs & Ht); exists s1, t; (split; [reflexivity|split; [exact Hs|]]).
    + rewrite <- E. apply IH; [lia|exact Ht].
    + apply IH; [lia|]. rewrite E. exact Ht.
  - assert (Hm : matchhere (c :: re1) text = if (c =? 36) && bool_decide (re1 = []) then bool_decide (text = [])
        else match text with [] => false | ch :: text => ((c =? 46) || (c =? ch)) && matchhere re1 text end).
    { destruct re1 as [|d re1]; [reflexivity|]. simpl. destruct d as [|p|p]; try reflexivity.
      repeat (destruct p as [p|p|]; try reflexivity). exfalso. eauto. }
    assert (Ha : re1 = [] /\ c = 36 /\ atoms (c :: re1) = ([], true) \/
                 ~ (re1 = [] /\ c = 36) /\ atoms (c :: re1) = (One c :: (atoms re1).1, (atoms re1).2)).
    { destruct re1 as [|d re1]; [simpl; destruct (Z.eqb_spec c 36); [left|right]; intuition|]. right. split; [intros [? _]; discriminate|].
      assert (E : atoms (c :: d :: re1) = let '(a, e) := atoms (d :: re1) in (One c :: a, e)).
      { simpl. destruct d as [|p|p]; try reflexivity. repeat (destruct p as [p|p|]; try reflexivity). exfalso. eauto. }
      rewrite E. destruct (atoms (d :: re1)). reflexivity. }
    rewrite Hm. clear Hm. destruct Ha as [(-> & -> & ->)|[Hne ->]].
    + rewrite prefix_nil, Z.eqb_refl. simpl. rewrite bool_decide_eq_true. tauto.
    + rewrite prefix_one. replace ((c =? 36) && bool_decide (re1 = [])) with false.
      2: { symmetry. apply andb_false_iff. destruct (Z.eqb_spec c 36); [|auto]. right. apply bool_decide_eq_false. tauto. }
      rewrite <- surjective_pairing. destruct text as [|ch text]; [split; [discriminate|intros (? & ? & ? & _); discriminate]|].
      rewrite andb_true_iff, accepts_iff, IH by lia. split; [intros [Hc Ht]; eauto|]. intros (ch' & t & [= <- <-] & ?). assumption.
Qed.

(** C25. The matcher of [grep] decides the language of patterns: a pattern that
    starts with a circumflex matches a line when one of its strings is a prefix
    of the line, any other pattern when one of its strings occurs anywhere in
    it, with nothing after it if the pattern ends in a dollar; a dot stands for
    any character, and a character followed by a star for any number of it. *)
Theorem match_decides re text : match_re re text = true <->
  match re with
  | 94 :: re' => prefix_matches (atoms re') text
  | _ => exists pre suf, text = pre ++ suf /\ prefix_matches (atoms re) suf
  end.
Proof.
  assert (Hfrom : match_from re text = true <-> exists pre suf, text = pre ++ suf /\ prefix_matches (atoms re) suf).
  { induction text as [|ch text IH]; cbn [match_from]; rewrite orb_true_iff, (matchhere_iff (length re) re) by lia.
    - split; [intros [H|H]; [exists [], []; auto|discriminate]|]. intros (pre & suf & E & H).
      symmetry in E. apply app_eq_nil in E as [-> ->]. auto.
    - rewrite IH. split.
      + intros [H|(pre & suf & -> & H)]; [exists [], (ch :: text)|exists (ch :: pre), suf]; auto.
      + intros ([|d pre] & suf & E & H); simpl in E; [subst; auto|]. injection E as <- ->. right. eauto. }
  unfold match_re. destruct re as [|[|p|p] re']; try exact Hfrom.
  repeat (destruct p as [p|p|]; try exact Hfrom). apply (matchhere_iff (length re')). lia.
Qed.

(** ** Input in pieces *)

(** [cat] copies its input, and notices when it cannot be read to the end. *)
Lemma cat_copies fuel : forall s, (length (st_input s) < fuel)%nat ->
  cat (fun _ => true) fuel s = Some (st_input s, negb (st_fails s)).
Proof.
  induction fuel as [|fuel IH]; intros s Hf; [lia|]. cbn [cat].
  destruct (uread_spec 512 s ltac:(lia)) as (r & s' & E & Ef & [[Hi ->]|(c & bs & -> & _ & Hi)]); rewrite E.
  - rewrite Hi. destruct (st_fails s); reflexivity.
  - rewrite IH by (rewrite Hi, length_app in Hf; simpl in Hf; lia). rewrite Hi, Ef. reflexivity.
Qed.

(** Output that cannot be written ends it: what was written is a prefix. *)
Lemma cat_prefix write fuel : forall s out ok, cat write fuel s = Some (out, ok) -> out `prefix_of` st_input s.
Proof.
  induction fuel as [|fuel IH]; intros s out ok E; [discriminate|]. cbn [cat] in E.
  destruct (uread_spec 512 s ltac:(lia)) as (r & s' & Er & Ef & [[Hi ->]|(c & bs & -> & _ & Hi)]); rewrite Er in E.
  - rewrite Hi. destruct (st_fails s); injection E as <- _; reflexivity.
  - rewrite Hi. destruct (write (c :: bs)); [|injection E as <- _; apply prefix_app_r; reflexivity].
    destruct (cat write fuel s') as [[out' ok']|] eqn:E'; [|discriminate]. injection E as <- <-. apply (prefix_app (c :: bs)), (IH s' _ ok'), E'.
Qed.

Lemma wc_folds fuel : forall a s, (length (st_input s) < fuel)%nat ->
  wc fuel a s = Some (if st_fails s then None else Some (foldl wc_char a (st_input s))).
Proof.
  induction fuel as [|fuel IH]; intros a s Hf; [lia|]. cbn [wc].
  destruct (uread_spec 512 s ltac:(lia)) as (r & s' & E & Ef & [[Hi ->]|(c & bs & -> & _ & Hi)]); rewrite E.
  - rewrite Hi. destruct (st_fails s); reflexivity.
  - rewrite IH by (rewrite Hi, length_app in Hf; simpl in Hf; lia). rewrite Hi, foldl_app, Ef. reflexivity.
Qed.

(** The number of words: of characters that are not blank and come first or
    after a blank. *)
Fixpoint nwords (after_blank : bool) (l : list Z) : Z :=
  match l with
  | [] => 0
  | c :: l => (if negb (is_blank c) && after_blank then 1 else 0) + nwords (is_blank c) l
  end.
Definition nlines (l : list Z) : Z := Z.of_nat (length (filter (fun c => c = 10) l)).

Lemma wc_counted l : forall a, let r := foldl wc_char a l in
  w_lines r = w_lines a + nlines l /\ w_words r = w_words a + nwords (negb (w_inword a)) l /\
  w_chars r = w_chars a + Z.of_nat (length l).
Proof.
  induction l as [|c l IH]; intros a; cbn [foldl nwords length]; [unfold nlines; simpl; lia|].
  destruct (IH (wc_char a c)) as (H1 & H2 & H3). rewrite H1, H2, H3. clear H1 H2 H3 IH. unfold nlines, wc_char.
  rewrite filter_cons. destruct (Z.eqb_spec c 10) as [->|Hc]; [rewrite decide_True by reflexivity|rewrite decide_False by exact Hc].
  - simpl. repeat split; lia.
  - destruct (is_blank c), (w_inword a); simpl; repeat split; lia.
Qed.

(** [wc] counts the lines, the words and the characters of its whole input,
    however [read] splits it up: words that straddle two pieces count once. *)
Theorem wc_correct input sizes : exists inword,
  wc (S (length input)) (Counts 0 0 0 false) (Stream input sizes false) =
  Some (Some (Counts (nlines input) (nwords true input) (Z.of_nat (length input)) inword)).
Proof.
  rewrite wc_folds by (simpl; lia). cbn [st_input st_fails]. destruct (wc_counted input (Counts 0 0 0 false)) as (H1 & H2 & H3).
  destruct (foldl wc_char (Counts 0 0 0 false) input) as [l w c i]. cbn [w_lines w_words w_chars w_inword negb] in *.
  exists i. do 2 f_equal. f_equal; lia.
Qed.

(** ** grep on a stream *)

Definition nl (ls : list (list Z)) : list Z := concat ((fun l => l ++ [10]) <$> ls).
Definition plain (l : list Z) : Prop := Forall (fun c => c <> 0 /\ c <> 10) l.

Lemma cut_plain l : plain l -> cut_line l = None.
Proof.
  induction 1 as [|c l [H0 H10] _ IH]; [reflexivity|]. simpl. apply Z.eqb_neq in H0, H10. rewrite H0, H10, IH. reflexivity.
Qed.

Lemma cut_nl l rest : plain l -> cut_line (l ++ 10 :: rest) = Some (l, rest).
Proof.
  induction 1 as [|c l [H0 H10] _ IH]; [reflexivity|]. simpl. apply Z.eqb_neq in H0, H10. rewrite H0, H10, IH. reflexivity.
Qed.

Definition matching (re : list Z) (ls : list (list Z)) : list Z := nl (filter (fun l => match_re re l = true) ls).

Lemma matching_cons re l ls : matching re (l :: ls) = (if match_re re l then l ++ [10] else []) ++ matching re ls.
Proof.
  unfold matching. rewrite filter_cons. destruct (match_re re l); reflexivity.
Qed.

Lemma matching_app re ls ls' : matching re (ls ++ ls') = matching re ls ++ matching re ls'.
Proof. unfold matching, nl. rewrite filter_app, fmap_app, concat_app. reflexivity. Qed.

Lemma nl_cons l ls : nl (l :: ls) = l ++ 10 :: nl ls.
Proof. unfold nl. simpl. rewrite <- app_assoc. reflexivity. Qed.

Lemma grep_buf_lines re ls p : Forall plain ls -> plain p -> forall fuel, (length (nl ls ++ p) < fuel)%nat ->
  grep_buf fuel re (nl ls ++ p) = Some (matching re ls, p).
Proof.
  intros Hls Hp. induction Hls as [|l ls Hl _ IH]; intros [|fuel] Hf; try lia; cbn [grep_buf].
  - simpl. rewrite cut_plain by exact Hp. reflexivity.
  - rewrite nl_cons, <- app_assoc in *. simpl in *. rewrite cut_nl by exact Hl. rewrite length_app in Hf. simpl in Hf.
    rewrite IH by lia. simpl. rewrite matching_cons. reflexivity.
Qed.

(** A buffer that holds the beginning of the lines holds some whole lines and
    the beginning of the next. *)
Lemma split_lines ls : forall b r t, Forall plain ls -> plain t -> b ++ r = nl ls ++ t ->
  exists ls1 ls2 p, ls = ls1 ++ ls2 /\ b = nl ls1 ++ p /\ plain p /\ p ++ r = nl ls2 ++ t.
Proof.
  induction ls as [|l ls IH]; intros b r t Hls Ht E.
  - exists [], [], b. simpl in *. repeat split; auto. unfold plain in *. rewrite <- E in Ht. apply Forall_app in Ht. tauto.
  - apply Forall_cons in Hls as [Hl Hls]. rewrite nl_cons, <- app_assoc in E. simpl in E.
    destruct (decide (length b <= length l)%nat) as [Hle|Hle].
    + exists [], (l :: ls), b. rewrite nl_cons, <- app_assoc. repeat split; auto.
      assert (Hb : b = take (length b) l).
      { rewrite <- (take_app_le l (10 :: nl ls ++ t) (length b)) by lia. rewrite <- E, take_app_length. reflexivity. }
      rewrite Hb. apply Forall_take, Hl.
    + assert (Hb : b = l ++ drop (length l) b).
      { rewrite <- (take_drop (length l) b) at 1. f_equal. rewrite <- (take_app_le b r (length l)) by lia.
        rewrite E, take_app_length. reflexivity. }
      set (d := drop (length l) b) in *. assert (Hd : d <> []).
      { intros Hd. rewrite Hd, app_nil_r in Hb. rewrite Hb in Hle. lia. }
      rewrite Hb, <- app_assoc in E. apply app_inv_head in E. destruct d as [|c d]; [congruence|]. injection E as -> E.
      destruct (IH d r t Hls Ht E) as (ls1 & ls2 & p & -> & -> & Hp & Er). exists (l :: ls1), ls2, p.
      rewrite nl_cons, <- app_assoc. repeat split; auto.
Qed.

Lemma grep_stream re fuel : forall buf s ls t, Forall plain ls -> plain t -> plain buf ->
  Forall (fun l => length l < GREPBUF - 1)%nat ls -> (length t < GREPBUF - 1)%nat ->
  buf ++ st_input s = nl ls ++ t -> (length (st_input s) < fuel)%nat -> grep fuel re buf s = Some (matching re ls).
Proof.
  induction fuel as [|fuel IH]; intros buf s ls t Hls Ht Hb Hlen Htl E Hf; [lia|]. cbn [grep].
  assert (Hbuf : (length buf < GREPBUF - 1)%nat).
  { destruct (split_lines ls buf (st_input s) t Hls Ht E) as ([|l ls1] & ls2 & p & -> & -> & Hp & E2).
    - simpl in *. destruct ls2 as [|l ls2]; [simpl in E2; rewrite <- E2, length_app in Htl; lia|].
      apply Forall_cons in Hlen as [Hl _]. rewrite nl_cons, <- app_assoc in E2.
      destruct (decide (length p <= length l)%nat) as [Hle|Hle]; [lia|]. exfalso.
      assert (Hc : p !! length l = Some 10).
      { rewrite <- (lookup_app_l p (st_input s)) by lia. rewrite E2, lookup_app_r, Nat.sub_diag by lia. reflexivity. }
      destruct (proj1 (Forall_lookup _ _) Hp _ _ Hc). congruence.
    - exfalso. rewrite nl_cons in Hb. unfold plain in Hb. rewrite !Forall_app, Forall_cons in Hb. destruct Hb as [[_ [[_ Hn] _]] _]. congruence. }
  destruct (uread_spec (GREPBUF - length buf - 1) s ltac:(lia)) as (r & s' & Er & _ & [[Hnil Hr]|(c & more & -> & _ & Hi)]); rewrite Er.
  - subst r. rewrite Hnil, app_nil_r in E. destruct (st_fails s),  ls as [|l ls]; try reflexivity; exfalso; rewrite E in Hb;
    rewrite nl_cons in Hb; unfold plain in Hb; rewrite !Forall_app, Forall_cons in Hb; destruct Hb as [[_ [[_ Hn] _]] _]; congruence.
  - rewrite Hi, app_assoc in E. destruct (split_lines ls _ (st_input s') t Hls Ht E) as (ls1 & ls2 & p & -> & Eb & Hp & E2).
    rewrite Eb. apply Forall_app in Hls as [Hls1 Hls2]. apply Forall_app in Hlen as [_ Hlen].
    rewrite grep_buf_lines by (auto; lia). simpl. rewrite (IH p s' ls2 t) by (auto; rewrite Hi, length_app in Hf; simpl in Hf; lia).
    simpl. rewrite matching_app. reflexivity.
Qed.

(** C26. [grep] prints the lines that match.  For an input of lines that fit into
    its buffer, the output is, in order, the complete lines the pattern matches,
    each with its newline, however [read] splits up the input; a last line
    without a newline is not printed. *)
Theorem grep_prints re ls t sizes fails :
  Forall plain ls -> plain t -> Forall (fun l => length l < GREPBUF - 1)%nat ls -> (length t < GREPBUF - 1)%nat ->
  grep (S (length (nl ls ++ t))) re [] (Stream (nl ls ++ t) sizes fails) =
  Some (nl (filter (fun l => match_re re l = true) ls)).
Proof. intros. apply (grep_stream re _ [] _ ls t); auto; first [apply Forall_nil_2|simpl; lia]. Qed.

(** The pattern [b*c$] on the lines abc and cb, read in pieces of 1, 2 and 4. *)
Lemma grep_prints_witness :
  grep (S (length (nl [[97; 98; 99]; [99; 98]] ++ [99]))) [98; 42; 99; 36] [] (Stream (nl [[97; 98; 99]; [99; 98]] ++ [99]) [0%nat; 1%nat; 3%nat] false)
  = Some [97; 98; 99; 10].
Proof.
  rewrite (grep_prints [98; 42; 99; 36] [[97; 98; 99]; [99; 98]] [99] [0%nat; 1%nat; 3%nat] false); [reflexivity|..].
  all: repeat constructor; simpl; lia.
Defined.
