(* ===== verification/Device.v ===== *)
(** * Memory-mapped devices, the interrupt controller and the UART

    [kernel/plic.c] and [kernel/uart.c].  A device is something whose registers
    can be read and written ([Mmio]); what the drivers rely on is that writes
    take effect in order ([MmioLaws]).  The state of the UART driver is its
    lock and flag, next to the console it hands input to. *)

From S2P Require Import Prelude Riscv UserMem Ring Console Spinlock.

Class Mmio (D : Type) : Type := {
  rd8 : Z -> M D Z;
  wr8 : Z -> Z -> M D unit;
  rd32 : Z -> M D Z;
  wr32 : Z -> Z -> M D unit
}.

(** The writes a device has seen, as address and value. *)
Class MmioLaws (D : Type) `{Mmio D} : Type := {
  written : D -> list (Z * Z);
  wr8_ok : forall a v d, exists d', wr8 a v d = Ret tt d' /\ written d' = written d ++ [(a, v)];
  wr32_ok : forall a v d, exists d', wr32 a v d = Ret tt d' /\ written d' = written d ++ [(a, v)];
  rd8_ok : forall a d, exists v d', rd8 a d = Ret v d' /\ 0 <= v < 256 /\ written d' = written d;
  rd32_ok : forall a d, exists v d', rd32 a d = Ret v d' /\ 0 <= v < 2 ^ 32 /\ written d' = written d
}.

(** ** The interrupt controller *)

Definition UART0_IRQ : Z := 10.
Definition VIRTIO0_IRQ : Z := 1.
Definition PLIC_SENABLE (hart : Z) : Z := PLIC + 0x2080 + hart * 0x100.
Definition PLIC_SPRIORITY (hart : Z) : Z := PLIC + 0x201000 + hart * 0x2000.
Definition PLIC_SCLAIM (hart : Z) : Z := PLIC + 0x201004 + hart * 0x2000.

Section Plic.
Context {D : Type} `{Mmio D}.

Definition plicinit : M D unit :=
  wr32 (PLIC + UART0_IRQ * 4) 1 ;;
  wr32 (PLIC + VIRTIO0_IRQ * 4) 1.

(** [hart] is [cpuid()]. *)
Definition plicinithart (hart : Z) : M D unit :=
  wr32 (PLIC_SENABLE hart) (Z.lor (Z.shiftl 1 UART0_IRQ) (Z.shiftl 1 VIRTIO0_IRQ)) ;;
  wr32 (PLIC_SPRIORITY hart) 0.

Definition plic_claim (hart : Z) : M D Z :=
  let! irq := rd32 (PLIC_SCLAIM hart) in ret (i32 irq).

Definition plic_complete (hart irq : Z) : M D unit := wr32 (PLIC_SCLAIM hart) irq.
End Plic.

(** ** The UART *)

Definition RHR : Z := 0.
Definition THR : Z := 0.
Definition IER : Z := 1.
Definition IER_RX_ENABLE : Z := Z.shiftl 1 0.
Definition IER_TX_ENABLE : Z := Z.shiftl 1 1.
Definition FCR : Z := 2.
Definition FCR_FIFO_ENABLE : Z := Z.shiftl 1 0.
Definition FCR_FIFO_CLEAR : Z := Z.shiftl 3 1.
Definition ISR : Z := 2.
Definition LCR : Z := 3.
Definition LCR_EIGHT_BITS : Z := Z.shiftl 3 0.
Definition LCR_BAUD_LATCH : Z := Z.shiftl 1 7.
Definition LSR : Z := 5.
Definition LSR_RX_READY : Z := Z.shiftl 1 0.
Definition LSR_TX_IDLE : Z := Z.shiftl 1 5.

Record uart (D U : Type) : Type := Uart {
  u_dev : D;
  tx_locked : bool;      (* tx_lock *)
  tx_busy : Z;
  u_cpu : cpu;
  panicking : bool;
  panicked : bool;
  u_cons : cons U
}.
Arguments Uart {D U}.
Arguments u_dev {D U}.
Arguments tx_locked {D U}.
Arguments tx_busy {D U}.
Arguments u_cpu {D U}.
Arguments panicking {D U}.
Arguments panicked {D U}.
Arguments u_cons {D U}.

Section Uart.
Context {D U : Type} `{MD : Mmio D} `{UM : UserMem U}.

Definition regs_of : lens (uart D U) D :=
  Lens u_dev (fun d s => Uart d (tx_locked s) (tx_busy s) (u_cpu s) (panicking s) (panicked s) (u_cons s)).
Definition tx_lock : lens (uart D U) bool :=
  Lens tx_locked (fun l s => Uart (u_dev s) l (tx_busy s) (u_cpu s) (panicking s) (panicked s) (u_cons s)).
Definition set_busy (b : Z) (s : uart D U) : uart D U :=
  Uart (u_dev s) (tx_locked s) b (u_cpu s) (panicking s) (panicked s) (u_cons s).
Definition uart_cpu : lens (uart D U) cpu :=
  Lens u_cpu (fun c s => Uart (u_dev s) (tx_locked s) (tx_busy s) c (panicking s) (panicked s) (u_cons s)).
Definition cons_of : lens (uart D U) (cons U) :=
  Lens u_cons (fun c s => Uart (u_dev s) (tx_locked s) (tx_busy s) (u_cpu s) (panicking s) (panicked s) c).

Definition ReadReg (reg : Z) : M (uart D U) Z := zoom regs_of (rd8 (UART0 + reg)).
Definition WriteReg (reg v : Z) : M (uart D U) unit := zoom regs_of (wr8 (UART0 + reg) v).

Definition uartinit : M (uart D U) unit :=
  WriteReg IER 0 ;;
  WriteReg LCR LCR_BAUD_LATCH ;;
  WriteReg 0 3 ;;
  WriteReg 1 0 ;;
  WriteReg LCR LCR_EIGHT_BITS ;;
  WriteReg FCR (Z.lor FCR_FIFO_ENABLE FCR_FIFO_CLEAR) ;;
  WriteReg IER (Z.lor IER_TX_ENABLE IER_RX_ENABLE) ;;
  modify (set tx_lock false).

(** The wait channel [&tx_chan]. *)
Definition tx_chan : Z := 0.

(** [while(tx_busy != 0) sleep(&tx_chan, &tx_lock);] *)
Fixpoint uartwrite_wait (fuel : nat) : M (uart D U) unit :=
  match fuel with
  | O => nofuel
  | S fuel =>
      let! busy := gets tx_busy in
      if negb (busy =? 0) then sleep tx_chan tx_lock ;; uartwrite_wait fuel else ret tt
  end.

Fixpoint uartwrite_loop (fuel : nat) (buf : list Z) : M (uart D U) unit :=
  match buf with
  | [] => ret tt
  | c :: buf =>
      uartwrite_wait fuel ;;
      WriteReg THR c ;;
      modify (set_busy 1) ;;
      uartwrite_loop fuel buf
  end.

(** [fuel] bounds how often a thread that waits finds the UART still busy. *)
Definition uart_write (fuel : nat) (buf : list Z) : M (uart D U) unit :=
  acquire tx_lock ;;
  uartwrite_loop fuel buf ;;
  release tx_lock.

(** [while((ReadReg(LSR) & LSR_TX_IDLE) == 0);] *)
Fixpoint spin_idle (fuel : nat) : M (uart D U) unit :=
  match fuel with
  | O => nofuel
  | S fuel =>
      let! l := ReadReg LSR in
      if Z.land l LSR_TX_IDLE =? 0 then spin_idle fuel else ret tt
  end.

Definition uartputc_sync (fuel : nat) (c : Z) : M (uart D U) unit :=
  let! p := gets panicking in
  when (negb p) (modify (fun s => set uart_cpu (push_off (u_cpu s)) s)) ;;
  let! dead := gets panicked in
  if dead : bool then nofuel            (* for(;;); *)
  else
    spin_idle fuel ;;
    WriteReg THR (u8 c) ;;
    when (negb p) (fun s => match pop_off (u_cpu s) with
                            | inl msg => Panic msg
                            | inr c => Ret tt (set uart_cpu c s)
                            end).

Definition uartgetc : M (uart D U) Z :=
  let! l := ReadReg LSR in
  if negb (Z.land l LSR_RX_READY =? 0) then ReadReg RHR else ret (-1).

(** The loop of [uartintr] over the characters that have arrived. *)
Fixpoint uartintr_input (fuel : nat) : M (uart D U) unit :=
  match fuel with
  | O => nofuel
  | S fuel =>
      let! c := uartgetc in
      if c =? -1 then ret tt
      else zoom cons_of (consoleintr c) ;; uartintr_input fuel
  end.

(** Waking the sending thread is left to the scheduler: it is asleep on
    [tx_chan]. *)
Definition uartintr (fuel : nat) : M (uart D U) unit :=
  ReadReg ISR ;;
  acquire tx_lock ;;
  let! l := ReadReg LSR in
  when (negb (Z.land l LSR_TX_IDLE =? 0)) (modify (set_busy 0)) ;;
  release tx_lock ;;
  uartintr_input fuel.
End Uart.

(** ** Transmission *)

Section Transmit.
Context {D U : Type} `{MmioLaws D} `{UserMem U}.
Implicit Types s : uart D U.

(** The bytes written to the transmit register. *)
Definition sent (d : D) : list Z := omap (fun w => if w.1 =? UART0 + THR then Some w.2 else None) (written d).

(** What happens while a sender sleeps: the UART becomes free again, input may
    arrive, nobody else sends. *)
Definition completes s (e : unit) s' : Prop :=
  tx_busy s' = 0 /\ tx_locked s' = false /\ sent (u_dev s') = sent (u_dev s).

Definition busy_free s : Prop := tx_busy s <> 0 /\ tx_locked s = false.

Lemma send_one c s : exists s', WriteReg THR c s = Ret tt s' /\ sent (u_dev s') = sent (u_dev s) ++ [c] /\
  tx_locked s' = tx_locked s /\ tx_busy s' = tx_busy s.
Proof.
  destruct (wr8_ok (UART0 + THR) c (u_dev s)) as (d' & E & W). exists (set regs_of d' s).
  split; [apply zoom_ret, E|]. simpl. unfold sent. rewrite W, omap_app. split; [reflexivity|auto].
Qed.

Lemma uartwrite_wait_spec fuel s : (2 <= fuel)%nat -> tx_locked s = true ->
  against busy_free completes (uartwrite_wait fuel s)
    (fun _ _ s' => tx_busy s' = 0 /\ tx_locked s' = true /\ sent (u_dev s') = sent (u_dev s)).
Proof.
  intros Hf Hl. destruct fuel as [|[|fuel]]; [lia|lia|]. simpl. unfold bind at 1. simpl.
  destruct (Z.eqb_spec (tx_busy s) 0) as [E|E]; simpl; [auto|]. unfold bind, sleep. simpl. rewrite Hl. simpl.
  split; [split; [exact E|reflexivity]|]. intros e s' (Hb & Hl' & Hs). unfold acquire. simpl. rewrite Hl'. simpl.
  rewrite Hb. simpl. auto.
Qed.

Lemma uartwrite_loop_spec fuel buf : (2 <= fuel)%nat -> forall s, tx_locked s = true ->
  against busy_free completes (uartwrite_loop fuel buf s)
    (fun _ _ s' => tx_locked s' = true /\ sent (u_dev s') = sent (u_dev s) ++ buf).
Proof.
  intros Hf. induction buf as [|c buf IH]; intros s Hl; simpl; [rewrite app_nil_r; auto|].
  eapply against_bind; [apply uartwrite_wait_spec; assumption|]. intros es [] s1 (Hb & Hl1 & Hs1).
  destruct (send_one c s1) as (s2 & E & Hs2 & Hl2 & _). erewrite bind_ret_l by exact E. rewrite bind_modify.
  eapply against_mono; [apply (IH (set_busy 1 s2)); simpl; congruence|].
  intros es' [] s3 [Hl3 Hs3]. split; [exact Hl3|]. rewrite Hs3. simpl. rewrite Hs2, Hs1, <- app_assoc. reflexivity.
Qed.

(** Whatever is written to the console device reaches the wire in order: the
    sender sleeps only while the UART is busy, wakes when it is free, and at the
    end exactly the bytes of the buffer have been transmitted. *)
Theorem uart_write_sends fuel buf s : (2 <= fuel)%nat -> tx_locked s = false ->
  against busy_free completes (uart_write fuel buf s)
    (fun _ _ s' => tx_locked s' = false /\ sent (u_dev s') = sent (u_dev s) ++ buf).
Proof.
  intros Hf Hl. unfold uart_write. unfold bind at 1, acquire. simpl. rewrite Hl. simpl.
  eapply against_bind; [apply uartwrite_loop_spec; [exact Hf|reflexivity]|]. intros es [] s1 [Hl1 Hs1].
  unfold release. simpl. rewrite Hl1. simpl. auto.
Qed.
End Transmit.
