(* ===== verification/Boot.v ===== *)
(** * Start-up

    [kernel/entry.S] and [kernel/start.c]: each hart starts in machine mode,
    gets a stack, sets up the machine's control registers and goes on in
    supervisor mode at [main]. *)

From S2P Require Import Prelude Riscv.

Definition NCPU : Z := 8.
Definition MSTATUS_MPP_MASK : Z := Z.shiftl 3 11.
Definition MSTATUS_MPP_S : Z := Z.shiftl 1 11.
Definition SIE_SEIE : Z := Z.shiftl 1 9.
Definition SIE_STIE : Z := Z.shiftl 1 5.
Definition MIE_STIE : Z := Z.shiftl 1 5.

(** The control registers used. *)
Inductive mcsr : Set :=
| Mstatus | Mepc | Satp | Medeleg | Mideleg | Sie | Pmpaddr0 | Pmpcfg0
| Mie | Menvcfg | Mcounteren | Stimecmp | Time | Mhartid.
#[export] Instance mcsr_eq_dec : EqDecision mcsr.
Proof. solve_decision. Defined.

Inductive mode : Set := User | Supervisor | Machine.

(** A hart: its control registers, the registers [tp] and [sp], its mode and
    where it goes on. *)
Record boot : Type := Boot { b_csr : mcsr -> Z; b_tp : Z; b_sp : Z; b_mode : mode; b_pc : Z }.

Definition rd (c : mcsr) : M boot Z := gets (fun b => b_csr b c).
Definition wr (c : mcsr) (v : Z) : M boot unit :=
  modify (fun b => Boot (fun x => if decide (x = c) then v else b_csr b x) (b_tp b) (b_sp b) (b_mode b) (b_pc b)).
Definition w_tp (v : Z) : M boot unit := modify (fun b => Boot (b_csr b) v (b_sp b) (b_mode b) (b_pc b)).
Definition w_sp (v : Z) : M boot unit := modify (fun b => Boot (b_csr b) (b_tp b) v (b_mode b) (b_pc b)).

(** The mode in the [MPP] field; 2 is reserved. *)
Definition mpp (mstatus : Z) : option mode :=
  match Z.land (Z.shiftr mstatus 11) 3 with 0 => Some User | 1 => Some Supervisor | 3 => Some Machine | _ => None end.

(** The instruction [mret]: to the mode in [MPP] at [mepc], with [MIE] from
    [MPIE], [MPIE] set and [MPP] cleared. *)
Definition mret : M boot unit :=
  let! s := rd Mstatus in
  let! pc := rd Mepc in
  match mpp s with
  | Some m =>
      wr Mstatus (Z.lor (Z.lor (Z.ldiff (Z.ldiff s MSTATUS_MPP_MASK) 8) (if Z.testbit s 7 then 8 else 0)) 128) ;;
      modify (fun b => Boot (b_csr b) (b_tp b) (b_sp b) m pc)
  | None => panic "mret"
  end.

Section Start.
Context (stack0 start_at main : Z).

(** [_entry] *)
Definition entry : M boot unit :=
  let sp := stack0 in
  let a0 := 1024 * 4 in
  let! a1 := rd Mhartid in
  let a1 := a1 + 1 in
  let a0 := a0 * a1 in
  w_sp (sp + a0) ;;
  modify (fun b => Boot (b_csr b) (b_tp b) (b_sp b) (b_mode b) start_at).

Definition timerinit : M boot unit :=
  let! x := rd Mie in
  wr Mie (Z.lor x MIE_STIE) ;;
  let! x := rd Menvcfg in
  wr Menvcfg (Z.lor x (Z.shiftl 1 63)) ;;
  let! x := rd Mcounteren in
  wr Mcounteren (Z.lor x 2) ;;
  let! t := rd Time in
  wr Stimecmp (u64 (t + 1000000)).

Definition start : M boot unit :=
  let! x := rd Mstatus in
  let x := Z.land x (u64 (Z.lnot MSTATUS_MPP_MASK)) in
  let x := Z.lor x MSTATUS_MPP_S in
  wr Mstatus x ;;
  wr Mepc main ;;
  wr Satp 0 ;;
  wr Medeleg 0xffff ;;
  wr Mideleg 0xffff ;;
  let! x := rd Sie in
  wr Sie (Z.lor (Z.lor x SIE_SEIE) SIE_STIE) ;;
  wr Pmpaddr0 0x3fffffffffffff ;;
  wr Pmpcfg0 0xf ;;
  timerinit ;;
  let! id := rd Mhartid in
  w_tp (i32 id) ;;
  mret.

(** A hart goes on in [main], in supervisor mode, with its number in [tp], a
    stack of its own, paging off, traps delegated, all memory accessible and
    the clock set. *)
Lemma boot_correct b : b_mode b = Machine -> 0 <= b_csr b Mstatus < 2 ^ 64 -> 0 <= b_csr b Mhartid < NCPU ->
  exists b', (entry ;; start) b = Ret tt b' /\ b_mode b' = Supervisor /\ b_pc b' = main /\ b_tp b' = b_csr b Mhartid /\
    b_sp b' = stack0 + 4096 * b_csr b Mhartid + 4096 /\ b_csr b' Satp = 0 /\ b_csr b' Medeleg = 0xffff /\ b_csr b' Mideleg = 0xffff /\
    Z.testbit (b_csr b' Sie) 9 = true /\ Z.testbit (b_csr b' Sie) 5 = true /\ Z.testbit (b_csr b' Mie) 5 = true /\
    b_csr b' Pmpaddr0 = 2 ^ 54 - 1 /\ b_csr b' Pmpcfg0 = 15 /\ b_csr b' Stimecmp = u64 (b_csr b Time + 1000000) /\ mpp (b_csr b' Mstatus) = Some User.
Proof using Type.
  destruct b as [c tp sp md pc]. cbn [b_csr b_mode]. intros Hm Hs Hh. unfold NCPU in Hh.
  assert (Hmpp : forall x, mpp (Z.lor (Z.land x (u64 (Z.lnot MSTATUS_MPP_MASK))) MSTATUS_MPP_S) = Some Supervisor).
  { intros x. unfold mpp. rewrite Z.shiftr_lor, Z.shiftr_land, Z.land_lor_distr_l, <- Z.land_assoc.
    change (Z.land (Z.shiftr (u64 (Z.lnot MSTATUS_MPP_MASK)) 11) 3) with 0. rewrite Z.land_0_r. reflexivity. }
  assert (Hus : forall x m, m = 0 \/ m = 8 -> mpp (Z.lor (Z.lor (Z.ldiff (Z.ldiff x MSTATUS_MPP_MASK) 8) m) 128) = Some User).
  { intros x m Hmm. unfold mpp. rewrite !Z.shiftr_lor, !Z.shiftr_ldiff. change (Z.shiftr 8 11) with 0. change (Z.shiftr 128 11) with 0. rewrite Z.ldiff_0_r, Z.lor_0_r.
    replace (Z.shiftr m 11) with 0 by (destruct Hmm as [->| ->]; reflexivity). rewrite Z.lor_0_r, Z.ldiff_land, <- Z.land_assoc.
    change (Z.land (Z.lnot (Z.shiftr MSTATUS_MPP_MASK 11)) 3) with 0. rewrite Z.land_0_r. reflexivity. }
  lazy -[Z.land Z.lor Z.lnot Z.ldiff Z.shiftl Z.shiftr Z.testbit Z.add Z.mul u64 i32 mpp MSTATUS_MPP_MASK MSTATUS_MPP_S SIE_SEIE SIE_STIE MIE_STIE Z.le Z.lt].
  rewrite Hmpp. eexists. split; [reflexivity|]. cbn [b_csr b_tp b_sp b_mode b_pc].
  split_and!; auto; try (rewrite !Z.lor_spec, ?orb_true_r; reflexivity).
  - apply i32_small. lia.
  - lia.
  - apply Hus. destruct (Z.testbit _ 7); auto.
Qed.
End Start.
