(* ===== verification/Trap.v ===== *)
(** * Traps and system calls

    [kernel/trap.c], the dispatch of [kernel/syscall.c] and the system calls on
    processes of [kernel/sysproc.c].  The state is the process table of Proc.v
    with, as its environment, the supervisor registers of the CPU, the tick
    counter, the animation and what the kernel has printed; devices and the file
    system are behind [SysEnv]. *)

From S2P Require Import Prelude CString Riscv Kalloc Vm Spinlock Proc Fb DebugGraph Animation Device.

(** ** The registers of [riscv.h] that traps use *)

Record regs : Type := Regs {
  g_sepc : Z; g_scause : Z; g_stval : Z; g_sstatus : Z; g_stvec : Z; g_satp : Z;
  g_tp : Z; g_time : Z; g_stimecmp : Z
}.

Definition SSTATUS_SPP : Z := Z.shiftl 1 8.
Definition SSTATUS_SPIE : Z := Z.shiftl 1 5.
Definition SSTATUS_SIE : Z := Z.shiftl 1 1.

Record tenv (F : Type) : Type := Tenv {
  te_regs : regs;
  te_ticks : Z;
  te_tickslock : bool;
  te_anim : anim;
  te_dbg : dbg;
  te_out : list (string * list Z);     (* the calls of printf *)
  te_files : F
}.
Arguments Tenv {F}.
Arguments te_regs {F}.
Arguments te_ticks {F}.
Arguments te_tickslock {F}.
Arguments te_anim {F}.
Arguments te_dbg {F}.
Arguments te_out {F}.
Arguments te_files {F}.

(** The rest of the kernel: interrupts of devices, and the system calls that
    work on files, by number; these use the memory and the table entry of the
    process that makes them.  Kernel.v has the instance. *)
Class SysEnv (F : Type) : Type := {
  f_mmio : Mmio F;
  f_uartintr : M F unit;
  f_virtio_intr : M F unit;
  f_call : Z -> M (kst * proc * F) Z;
  f_proc : ProcEnv F
}.
#[global] Existing Instance f_mmio.
#[global] Existing Instance f_proc.

Section Env.
Context {F : Type} `{SE : SysEnv F}.

Definition files_of : lens (kst * tenv F) (kst * F) :=
  Lens (fun x => (x.1, te_files x.2))
       (fun y x => (y.1, Tenv (te_regs x.2) (te_ticks x.2) (te_tickslock x.2) (te_anim x.2) (te_dbg x.2) (te_out x.2) y.2)).

(** Processes reach files through the larger environment. *)
#[export] Instance trap_env : ProcEnv (tenv F) := {
  e_filedup f := zoom files_of (e_filedup f);
  e_fileclose f := zoom files_of (e_fileclose f);
  e_idup i := zoom files_of (e_idup i);
  e_iput_op i := zoom files_of (e_iput_op i);
  e_namei path := zoom files_of (e_namei path)
}.
End Env.

Section Trap.
Context {F : Type} `{SE : SysEnv F}.
(** Addresses decided by the linker; [ticks_at] is [&ticks]. *)
Context (trampoline uservec kernelvec usertrap_at forkret fb ticks_at : Z) (proc_at xstate_at : Z -> Z).
(** How often waiting threads are woken for nothing. *)
Context (wakeups : nat).
Local Abbreviation st := (ps (tenv F)).

Definition with_env (f : tenv F -> tenv F) (s : st) : st :=
  Ps (ps_mem s) (ps_proc s) (ps_nextpid s) (ps_pidlock s) (ps_waitlock s) (ps_init s) (ps_cur s) (ps_cpu s) (f (ps_env s)).
Definition on_regs (f : regs -> regs) : M st unit :=
  modify (with_env (fun e => Tenv (f (te_regs e)) (te_ticks e) (te_tickslock e) (te_anim e) (te_dbg e) (te_out e) (te_files e))).
Definition get_reg (f : regs -> Z) : M st Z := gets (fun s => f (te_regs (ps_env s))).
Definition set_ticks (t : Z) : M st unit :=
  modify (with_env (fun e => Tenv (te_regs e) t (te_tickslock e) (te_anim e) (te_dbg e) (te_out e) (te_files e))).
Definition printk (fmt : string) (args : list Z) : M st unit :=
  modify (with_env (fun e => Tenv (te_regs e) (te_ticks e) (te_tickslock e) (te_anim e) (te_dbg e) (te_out e ++ [(fmt, args)]) (te_files e))).

Definition tickslock : lens st bool :=
  Lens (fun s => te_tickslock (ps_env s))
       (fun x => with_env (fun e => Tenv (te_regs e) (te_ticks e) x (te_anim e) (te_dbg e) (te_out e) (te_files e))).
Definition devices : lens st F :=
  Lens (fun s => te_files (ps_env s))
       (fun x => with_env (fun e => Tenv (te_regs e) (te_ticks e) (te_tickslock e) (te_anim e) (te_dbg e) (te_out e) x)).
(** The animation draws into the framebuffer in memory. *)
Definition anim_of : lens st asys :=
  Lens (fun s => Asys (te_anim (ps_env s)) (phys (ps_mem s)) (te_dbg (ps_env s)) (te_ticks (ps_env s)))
       (fun a s => set mem_of (set_phys (s_mem a) (ps_mem s))
          (with_env (fun e => Tenv (te_regs e) (te_ticks e) (te_tickslock e) (s_anim a) (s_dbg a) (te_out e) (te_files e)) s)).

Definition r_sepc : M st Z := get_reg g_sepc.
Definition w_sepc (x : Z) : M st unit :=
  on_regs (fun r => Regs x (g_scause r) (g_stval r) (g_sstatus r) (g_stvec r) (g_satp r) (g_tp r) (g_time r) (g_stimecmp r)).
Definition r_scause : M st Z := get_reg g_scause.
Definition r_stval : M st Z := get_reg g_stval.
Definition r_satp : M st Z := get_reg g_satp.
Definition r_tp : M st Z := get_reg g_tp.
Definition r_time : M st Z := get_reg g_time.
Definition w_stvec (x : Z) : M st unit :=
  on_regs (fun r => Regs (g_sepc r) (g_scause r) (g_stval r) (g_sstatus r) x (g_satp r) (g_tp r) (g_time r) (g_stimecmp r)).
Definition w_stimecmp (x : Z) : M st unit :=
  on_regs (fun r => Regs (g_sepc r) (g_scause r) (g_stval r) (g_sstatus r) (g_stvec r) (g_satp r) (g_tp r) (g_time r) x).

(** The interrupt-enable bit of [sstatus] is the flag of the CPU in Spinlock.v;
    the register keeps the others. *)
Definition r_sstatus : M st Z :=
  gets (fun s => Z.lor (Z.ldiff (g_sstatus (te_regs (ps_env s))) SSTATUS_SIE)
                       (if c_intr (ps_cpu s) then SSTATUS_SIE else 0)).
Definition set_intr (b : bool) : M st unit :=
  modify (fun s => set_pcpu (Cpu b (c_noff (ps_cpu s)) (c_intena (ps_cpu s))) s).
Definition w_sstatus (x : Z) : M st unit :=
  set_intr (negb (Z.land x SSTATUS_SIE =? 0)) ;;
  on_regs (fun r => Regs (g_sepc r) (g_scause r) (g_stval r) (Z.ldiff x SSTATUS_SIE) (g_stvec r) (g_satp r) (g_tp r) (g_time r) (g_stimecmp r)).
Definition intr_on : M st unit := let! x := r_sstatus in w_sstatus (Z.lor x SSTATUS_SIE).
Definition intr_off : M st unit := let! x := r_sstatus in w_sstatus (Z.ldiff x SSTATUS_SIE).
Definition intr_get : M st bool := let! x := r_sstatus in ret (negb (Z.land x SSTATUS_SIE =? 0)).
Definition cpuid : M st Z := r_tp.

(** ** The trapframe of the current process *)

Definition TF_kernel_satp : Z := 0.
Definition TF_kernel_sp : Z := 8.
Definition TF_kernel_trap : Z := 16.
Definition TF_epc : Z := 24.
Definition TF_kernel_hartid : Z := 32.
Definition TF_a7 : Z := 168.

Definition tf_load (p off : Z) : M st Z :=
  let! x := get_proc p in zoom mem_of (ld64 (p_trapframe x + off)).
Definition tf_store (p off v : Z) : M st unit :=
  let! x := get_proc p in zoom mem_of (st64 (p_trapframe x + off) v).

(** ** System calls on processes *)

Definition argraw (n : Z) : M st Z := let! p := myproc in tf_load p (TF_a0 + 8 * n).
Definition argint (n : Z) : M st Z := let! a := argraw n in ret (i32 a).

Definition sys_exit : M st Z := let! n := argint 0 in kexit proc_at n ;; ret 0.
Definition sys_getpid : M st Z := let! p := myproc in let! x := get_proc p in ret (p_pid x).
Definition sys_fork : M st Z := kfork trampoline forkret.
Definition sys_wait : M st Z := let! p := argraw 0 in kwait proc_at xstate_at wakeups p.
Definition sys_kill : M st Z := let! pid := argint 0 in kkill pid.
Definition sys_uptime : M st Z :=
  acquire_off tickslock ;;
  let! xticks := gets (fun s => te_ticks (ps_env s)) in
  release_off tickslock ;;
  ret xticks.

(** The loop of [sys_pause]. *)
Fixpoint pause_loop (fuel : nat) (n ticks0 : Z) : M st Z :=
  match fuel with
  | O => nofuel
  | S fuel =>
      let! t := gets (fun s => te_ticks (ps_env s)) in
      if u32 (t - ticks0) <? u32 n then
        let! p := myproc in
        let! k := killed p in
        if negb (k =? 0) then release_off tickslock ;; ret (-1)
        else sleep ticks_at tickslock ;; pause_loop fuel n ticks0
      else release_off tickslock ;; ret 0
  end.

Definition sys_pause : M st Z :=
  let! n := argint 0 in
  let n := if n <? 0 then 0 else n in
  acquire_off tickslock ;;
  let! ticks0 := gets (fun s => te_ticks (ps_env s)) in
  pause_loop wakeups n ticks0.

Definition sys_sbrk : M st Z :=
  let! n := argint 0 in
  let! p := myproc in
  let! x := get_proc p in
  let addr := i32 (p_size x) in
  let! r := growproc n in
  if r <? 0 then ret (-1) else ret addr.

Definition sys_hello : M st Z := printk "Hello from xv6 kernel!\n" [] ;; ret 0.

(** One line of the table [sys_kinfo] prints; the name is printed with [%s]. *)
Definition kinfo_line (x : proc) : M st unit :=
  printk "%d\t" [p_pid x] ;;
  printk (match p_state x with
          | SLEEPING => "SLEEPING\t" | RUNNING => "RUNNING\t\t" | RUNNABLE => "RUNNABLE\t" | _ => "OTHER\t\t"
          end) [] ;;
  printk "%s\n" (p_name x).

Fixpoint kinfo_loop (n : nat) (p : Z) : M st unit :=
  match n with
  | O => ret tt
  | S n =>
      let! x := get_proc p in
      when (negb (bool_decide (p_state x = UNUSED))) (kinfo_line x) ;;
      kinfo_loop n (p + 1)
  end.

Definition sys_kinfo : M st Z :=
  let! p := myproc in
  let! x := get_proc p in
  printk "kernel: kinfo() called by pid %d\n" [p_pid x] ;;
  let! m := zoom mem_of kalloc in
  (if m =? 0 then printk "kernel: memory allocation failed!\n" []
   else printk "kernel: allocated one page at %p\n" [m]) ;;
  printk "PID\tSTATE\t\tNAME\n" [] ;;
  kinfo_loop (Z.to_nat NPROC) 0 ;;
  printk "kernel: kinfo() done.\n" [] ;;
  ret 0.

Definition on_animation (m : M asys Z) : M st Z := zoom anim_of m.

(** ** Dispatch *)

(** The entries of [syscalls] that work on files: fork exit wait, and the others
    of the table, are below. *)
Definition file_call (num : Z) : bool :=
  bool_decide (num ∈ [4; 5; 7; 8; 9; 10; 15; 16; 17; 18; 19; 20; 21]).

(** Memory, entry [p] of the process table, and files. *)
Definition call_of (p : Z) : lens st (kst * proc * F) :=
  Lens (fun s => (ps_mem s, ps_proc s p, te_files (ps_env s)))
       (fun x s => set mem_of x.1.1 (set_proc p (fun _ => x.1.2) (set devices x.2 s))).

Definition sysfile (num : Z) : M st Z :=
  let! p := myproc in zoom (call_of p) (f_call num).

Definition syscalls (num : Z) : option (M st Z) :=
  if file_call num then Some (sysfile num)
  else match num with
  | 1 => Some sys_fork
  | 2 => Some sys_exit
  | 3 => Some sys_wait
  | 6 => Some sys_kill
  | 11 => Some sys_getpid
  | 12 => Some sys_sbrk
  | 13 => Some sys_pause
  | 14 => Some sys_uptime
  | 22 => Some sys_hello
  | 23 => Some sys_kinfo
  | 24 => Some (on_animation sys_start_anim)
  | 25 => Some (on_animation sys_stop_anim)
  | 26 => Some (let! n := argint 0 in on_animation (sys_set_speed n))
  | 27 => Some (on_animation (sys_view_anim fb ;; ret 0))
  | 28 => Some (let! x := argint 0 in let! y := argint 1 in let! c := argint 2 in on_animation (sys_fb_write fb x y c))
  | 29 => Some (let! c := argint 0 in on_animation (sys_fb_clear fb c))
  | _ => None
  end.

Definition NSYSCALLS : Z := 30.

Definition syscall : M st unit :=
  let! p := myproc in
  let! a7 := tf_load p TF_a7 in
  let num := i32 a7 in
  let unknown :=
    let! x := get_proc p in
    printk "%d %s: unknown sys call %d\n" [p_pid x; num] ;;
    tf_store p TF_a0 (u64 (-1)) in
  if (0 <? num) && (num <? NSYSCALLS) then
    match syscalls num with
    | Some call => let! r := call in tf_store p TF_a0 (u64 r)
    | None => unknown
    end
  else unknown.

(** ** Interrupts *)

Definition trapinit : M st unit := modify (set tickslock false).
Definition trapinithart : M st unit := w_stvec kernelvec.

Definition clockintr : M st unit :=
  let! id := cpuid in
  when (id =? 0)
    (acquire_off tickslock ;;
     let! t := gets (fun s => te_ticks (ps_env s)) in
     set_ticks (u32 (t + 1)) ;;
     wakeup ticks_at ;;
     release_off tickslock) ;;
  let! t := r_time in
  w_stimecmp (u64 (t + 1000000)).

(** 0: not recognised; 1: another device; 2: the timer. *)
Definition devintr : M st Z :=
  let! scause := r_scause in
  if scause =? 0x8000000000000009 then
    let! hart := cpuid in
    let! irq := zoom devices (plic_claim hart) in
    (if irq =? UART0_IRQ then zoom devices f_uartintr
     else if irq =? VIRTIO0_IRQ then zoom devices f_virtio_intr
     else when (negb (irq =? 0)) (printk "unexpected irq=%d\n" [irq])) ;;
    when (negb (irq =? 0)) (zoom devices (plic_complete hart irq)) ;;
    ret 1
  else if scause =? 0x8000000000000005 then clockintr ;; ret 2
  else ret 0.

(** ** Traps *)

Definition prepare_return : M st unit :=
  let! p := myproc in
  intr_off ;;
  w_stvec (TRAMPOLINE + (uservec - trampoline)) ;;
  let! satp := r_satp in
  tf_store p TF_kernel_satp satp ;;
  let! x := get_proc p in
  tf_store p TF_kernel_sp (u64 (p_kstack x + PGSIZE)) ;;
  tf_store p TF_kernel_trap usertrap_at ;;
  let! hart := r_tp in
  tf_store p TF_kernel_hartid hart ;;
  let! x := r_sstatus in
  w_sstatus (Z.lor (Z.ldiff x SSTATUS_SPP) SSTATUS_SPIE) ;;
  let! epc := tf_load p TF_epc in
  w_sepc epc.

(** The part of [usertrap] that looks at the cause of the trap; the result is
    [which_dev]. *)
Definition user_cause (p sepc : Z) : M st Z :=
  let! scause := r_scause in
  if scause =? 8 then
    let! k := killed p in
    when (negb (k =? 0)) (kexit proc_at (-1)) ;;
    let! epc := tf_load p TF_epc in
    tf_store p TF_epc (u64 (epc + 4)) ;;
    intr_on ;;
    syscall ;;
    ret 0
  else
    let! which_dev := devintr in
    if negb (which_dev =? 0) then ret which_dev else
    let! stval := r_stval in
    let! x := get_proc p in
    let! handled :=
      (if (scause =? 15) || (scause =? 13)
       then let! r := zoom mem_of (vmfault (Uproc (p_size x) (p_pgtbl x)) (p_pgtbl x) stval (scause =? 13)) in ret (r =? 0)
       else ret false) in
    (if handled : bool then ret tt
     else
       printk "usertrap(): unexpected scause=0x%lx pid=%d\n" [scause; p_pid x] ;;
       printk "            sepc=0x%lx stval=0x%lx\n" [sepc; stval] ;;
       setkilled p) ;;
    ret 0.

(** The part after it. *)
Definition user_leave (p which_dev : Z) : M st Z :=
  let! k := killed p in
  when (negb (k =? 0)) (kexit proc_at (-1)) ;;
  when (which_dev =? 2) yield ;;
  prepare_return ;;
  let! x := get_proc p in
  ret (MAKE_SATP (p_pgtbl x)).

Definition usertrap : M st Z :=
  let! sst := r_sstatus in
  if negb (Z.land sst SSTATUS_SPP =? 0) then panic "usertrap: not from user mode" else
  w_stvec kernelvec ;;
  let! p := myproc in
  let! sepc := r_sepc in
  tf_store p TF_epc sepc ;;
  let! which_dev := user_cause p sepc in
  user_leave p which_dev.

Definition kerneltrap : M st unit :=
  let! sepc := r_sepc in
  let! sstatus := r_sstatus in
  let! scause := r_scause in
  if Z.land sstatus SSTATUS_SPP =? 0 then panic "kerneltrap: not from supervisor mode" else
  let! on := intr_get in
  if on : bool then panic "kerneltrap: interrupts enabled" else
  let! which_dev := devintr in
  if which_dev =? 0 then
    let! stval := r_stval in
    printk "kerneltrap: unexpected scause=0x%lx sepc=0x%lx stval=0x%lx\n" [scause; sepc; stval] ;;
    panic "kerneltrap"
  else
    when (which_dev =? 2)
      (zoom anim_of (anim_tick fb) ;;
       let! p := myproc in
       when (negb (p =? NULLP)) yield) ;;
    w_sepc sepc ;;
    w_sstatus sstatus.
End Trap.
