(* ===== verification/TrapSpec.v ===== *)
(** * What traps do

    The way from user mode through [usertrap] and back: system calls, and page
    faults outside the process. *)

From S2P Require Import Prelude CString Riscv Kalloc Vm Spinlock Proc ProcSpec Fb DebugGraph Animation Device Trap.

(** ** Bits of sstatus *)


Section Traps.
Context {F : Type} `{SE : SysEnv F}.
Context (trampoline uservec kernelvec usertrap_at forkret fb ticks_at : Z) (proc_at xstate_at : Z -> Z) (wakeups : nat).
Implicit Types s : ps (tenv F).
#[local] Arguments Z.lor : simpl never.
#[local] Arguments Z.land : simpl never.
#[local] Arguments Z.ldiff : simpl never.
#[local] Arguments load : simpl never.
#[local] Arguments store_le : simpl never.



(** ** Going back to user mode *)




(** ** Entering the kernel *)
















(** ** System calls *)








End Traps.

Module ExampleTrap.
(** Process 0, pid 7, executes [getpid], or touches an address it does not have. *)
#[local] Instance ex_mmio : Mmio unit :=
  {| rd8 _ := ret 0; wr8 _ _ := ret tt; rd32 _ := ret 0; wr32 _ _ := ret tt |}.
#[local] Instance ex_penv : ProcEnv unit :=
  {| e_filedup f := ret f; e_fileclose _ := ret tt; e_idup ip := ret ip; e_iput_op _ := ret tt; e_namei _ := ret 0 |}.
#[local] Instance ex_sys : SysEnv unit :=
  {| f_mmio := ex_mmio; f_uartintr := ret tt; f_virtio_intr := ret tt; f_call _ := ret 0; f_proc := ex_penv |}.



End ExampleTrap.
