(* ===== verification/Virtio.v ===== *)
(** * The disk driver

    [kernel/virtio_disk.c] and [kernel/virtio.h].  The descriptors, the two
    rings and the driver's bookkeeping are the fields of [disk]; of the buffers
    of the cache the state has the fields the driver uses.  A pointer handed to
    the device says which object it points to.  Device registers are behind the
    class [Mmio] of Device.v.  The state counts the wakeups of every channel: a
    thread asleep is woken when the count has grown since it went to sleep. *)

From S2P Require Import Prelude CString Riscv Kalloc Block Device.

Definition NUM : Z := 8.
Definition VRING_DESC_F_NEXT : Z := 1.
Definition VRING_DESC_F_WRITE : Z := 2.
Definition VIRTIO_BLK_T_IN : Z := 0.
Definition VIRTIO_BLK_T_OUT : Z := 1.

Definition VIRTIO_MMIO_MAGIC_VALUE : Z := 0x000.
Definition VIRTIO_MMIO_VERSION : Z := 0x004.
Definition VIRTIO_MMIO_DEVICE_ID : Z := 0x008.
Definition VIRTIO_MMIO_VENDOR_ID : Z := 0x00c.
Definition VIRTIO_MMIO_DEVICE_FEATURES : Z := 0x010.
Definition VIRTIO_MMIO_DRIVER_FEATURES : Z := 0x020.
Definition VIRTIO_MMIO_QUEUE_SEL : Z := 0x030.
Definition VIRTIO_MMIO_QUEUE_NUM_MAX : Z := 0x034.
Definition VIRTIO_MMIO_QUEUE_NUM : Z := 0x038.
Definition VIRTIO_MMIO_QUEUE_READY : Z := 0x044.
Definition VIRTIO_MMIO_QUEUE_NOTIFY : Z := 0x050.
Definition VIRTIO_MMIO_INTERRUPT_STATUS : Z := 0x060.
Definition VIRTIO_MMIO_INTERRUPT_ACK : Z := 0x064.
Definition VIRTIO_MMIO_STATUS : Z := 0x070.
Definition VIRTIO_MMIO_QUEUE_DESC_LOW : Z := 0x080.
Definition VIRTIO_MMIO_QUEUE_DESC_HIGH : Z := 0x084.
Definition VIRTIO_MMIO_DRIVER_DESC_LOW : Z := 0x090.
Definition VIRTIO_MMIO_DRIVER_DESC_HIGH : Z := 0x094.
Definition VIRTIO_MMIO_DEVICE_DESC_LOW : Z := 0x0a0.
Definition VIRTIO_MMIO_DEVICE_DESC_HIGH : Z := 0x0a4.
Definition VIRTIO_CONFIG_S_ACKNOWLEDGE : Z := 1.
Definition VIRTIO_CONFIG_S_DRIVER : Z := 2.
Definition VIRTIO_CONFIG_S_DRIVER_OK : Z := 4.
Definition VIRTIO_CONFIG_S_FEATURES_OK : Z := 8.
Definition VIRTIO_BLK_F_RO : Z := 5.
Definition VIRTIO_BLK_F_SCSI : Z := 7.
Definition VIRTIO_BLK_F_CONFIG_WCE : Z := 11.
Definition VIRTIO_BLK_F_MQ : Z := 12.
Definition VIRTIO_F_ANY_LAYOUT : Z := 27.
Definition VIRTIO_RING_F_INDIRECT_DESC : Z := 28.
Definition VIRTIO_RING_F_EVENT_IDX : Z := 29.

(** What a descriptor's address points to: nothing, the header [ops[i]], the data
    of buffer [b], or the byte [info[i].status]. *)
Inductive vaddr : Type :=
| A_null
| A_op (i : Z)
| A_data (b : Z)
| A_status (i : Z).

Record virtq_desc : Type := Desc { d_addr : vaddr; d_len : Z; d_flags : Z; d_next : Z }.
Record virtio_blk_req : Type := Op { op_type : Z; op_reserved : Z; op_sector : Z }.

(** The part of [struct buf] the driver uses. *)
Record vbuf : Type := Vbuf { vb_disk : Z; vb_blockno : Z; vb_data : block }.

Record disk : Type := Disk {
  k_pages : Z * Z * Z;             (* where desc, avail and used are *)
  k_desc : Z -> virtq_desc;
  k_avail_idx : Z;                 (* avail->idx *)
  k_avail_ring : Z -> Z;           (* avail->ring *)
  k_dev_idx : Z;                   (* used->idx *)
  k_used_ring : Z -> Z;            (* used->ring[].id *)
  k_free : Z -> bool;
  k_used_idx : Z;
  k_info_b : Z -> Z;
  k_info_status : Z -> Z;
  k_ops : Z -> virtio_blk_req;
  k_lock : bool;
  k_wakes : Z -> Z                 (* how often each channel was woken *)
}.

(** The driver, the buffers and the device registers.  [V] is what else the
    device has; the driver does not see it. *)
Record vst (D V : Type) : Type := Vst { v_disk : disk; v_bufs : Z -> vbuf; v_regs : D; v_dev : V }.
Arguments Vst {D V}.
Arguments v_disk {D V}.
Arguments v_bufs {D V}.
Arguments v_regs {D V}.
Arguments v_dev {D V}.

Definition set_desc (i : Z) (x : virtq_desc) (k : disk) : disk :=
  Disk (k_pages k) (upd (k_desc k) i x) (k_avail_idx k) (k_avail_ring k) (k_dev_idx k) (k_used_ring k) (k_free k)
       (k_used_idx k) (k_info_b k) (k_info_status k) (k_ops k) (k_lock k) (k_wakes k).
Definition set_avail (idx : Z) (ring : Z -> Z) (k : disk) : disk :=
  Disk (k_pages k) (k_desc k) idx ring (k_dev_idx k) (k_used_ring k) (k_free k)
       (k_used_idx k) (k_info_b k) (k_info_status k) (k_ops k) (k_lock k) (k_wakes k).
Definition set_used (idx : Z) (ring : Z -> Z) (k : disk) : disk :=
  Disk (k_pages k) (k_desc k) (k_avail_idx k) (k_avail_ring k) idx ring (k_free k)
       (k_used_idx k) (k_info_b k) (k_info_status k) (k_ops k) (k_lock k) (k_wakes k).
Definition set_free (i : Z) (x : bool) (k : disk) : disk :=
  Disk (k_pages k) (k_desc k) (k_avail_idx k) (k_avail_ring k) (k_dev_idx k) (k_used_ring k) (upd (k_free k) i x)
       (k_used_idx k) (k_info_b k) (k_info_status k) (k_ops k) (k_lock k) (k_wakes k).
Definition set_used_idx (x : Z) (k : disk) : disk :=
  Disk (k_pages k) (k_desc k) (k_avail_idx k) (k_avail_ring k) (k_dev_idx k) (k_used_ring k) (k_free k)
       x (k_info_b k) (k_info_status k) (k_ops k) (k_lock k) (k_wakes k).
Definition set_info_b (i b : Z) (k : disk) : disk :=
  Disk (k_pages k) (k_desc k) (k_avail_idx k) (k_avail_ring k) (k_dev_idx k) (k_used_ring k) (k_free k)
       (k_used_idx k) (upd (k_info_b k) i b) (k_info_status k) (k_ops k) (k_lock k) (k_wakes k).
Definition set_info_status (i x : Z) (k : disk) : disk :=
  Disk (k_pages k) (k_desc k) (k_avail_idx k) (k_avail_ring k) (k_dev_idx k) (k_used_ring k) (k_free k)
       (k_used_idx k) (k_info_b k) (upd (k_info_status k) i x) (k_ops k) (k_lock k) (k_wakes k).
Definition set_op (i : Z) (x : virtio_blk_req) (k : disk) : disk :=
  Disk (k_pages k) (k_desc k) (k_avail_idx k) (k_avail_ring k) (k_dev_idx k) (k_used_ring k) (k_free k)
       (k_used_idx k) (k_info_b k) (k_info_status k) (upd (k_ops k) i x) (k_lock k) (k_wakes k).
Definition set_klock (x : bool) (k : disk) : disk :=
  Disk (k_pages k) (k_desc k) (k_avail_idx k) (k_avail_ring k) (k_dev_idx k) (k_used_ring k) (k_free k)
       (k_used_idx k) (k_info_b k) (k_info_status k) (k_ops k) x (k_wakes k).
Definition add_wake (ch : Z) (k : disk) : disk :=
  Disk (k_pages k) (k_desc k) (k_avail_idx k) (k_avail_ring k) (k_dev_idx k) (k_used_ring k) (k_free k)
       (k_used_idx k) (k_info_b k) (k_info_status k) (k_ops k) (k_lock k) (upd (k_wakes k) ch (k_wakes k ch + 1)).

Section Driver.
Context {D V : Type} `{MD : Mmio D}.
Local Abbreviation st := (vst D V).

Definition on_disk (f : disk -> disk) : M st unit :=
  modify (fun s => Vst (f (v_disk s)) (v_bufs s) (v_regs s) (v_dev s)).
Definition get_disk {A} (f : disk -> A) : M st A := gets (fun s => f (v_disk s)).
Definition set_bdisk (b x : Z) : M st unit :=
  modify (fun s => let bf := v_bufs s b in
    Vst (v_disk s) (upd (v_bufs s) b (Vbuf x (vb_blockno bf) (vb_data bf))) (v_regs s) (v_dev s)).
Definition vregs : lens st D := Lens v_regs (fun r s => Vst (v_disk s) (v_bufs s) r (v_dev s)).
Definition vdisk_lock : lens st bool :=
  Lens (fun s => k_lock (v_disk s)) (fun x s => Vst (set_klock x (v_disk s)) (v_bufs s) (v_regs s) (v_dev s)).

(** [wakeup(ch)] *)
Definition wakeup (ch : Z) : M st unit := on_disk (add_wake ch).

(** The macro [R(r)], read and written. *)
Definition R_read (r : Z) : M st Z := zoom vregs (rd32 (VIRTIO0 + r)).
Definition R_write (r v : Z) : M st unit := zoom vregs (wr32 (VIRTIO0 + r) v).

(** The wait channel [&disk.free[0]]; a buffer's is its number. *)
Definition free_chan : Z := -1.

(** ** Descriptors *)

Fixpoint alloc_desc_loop (n : nat) (i : Z) : M st Z :=
  match n with
  | O => ret (-1)
  | S n =>
      let! free := get_disk (fun k => k_free k i) in
      if free : bool then on_disk (set_free i false) ;; ret i
      else alloc_desc_loop n (i + 1)
  end.
Definition alloc_desc : M st Z := alloc_desc_loop (Z.to_nat NUM) 0.

Definition free_desc (i : Z) : M st unit :=
  if NUM <=? i then panic "free_desc 1" else
  let! free := get_disk (fun k => k_free k i) in
  if free : bool then panic "free_desc 2" else
  on_disk (set_desc i (Desc A_null 0 0 0)) ;;
  on_disk (set_free i true) ;;
  wakeup free_chan.

(** A chain is at most NUM long unless it has a cycle. *)
Fixpoint free_chain (fuel : nat) (i : Z) : M st unit :=
  match fuel with
  | O => nofuel
  | S fuel =>
      let! flag := get_disk (fun k => d_flags (k_desc k i)) in
      let! nxt := get_disk (fun k => d_next (k_desc k i)) in
      free_desc i ;;
      if negb (Z.land flag VRING_DESC_F_NEXT =? 0) then free_chain fuel nxt else ret tt
  end.

Fixpoint free_all (idx : list Z) : M st unit :=
  match idx with
  | [] => ret tt
  | i :: idx => free_desc i ;; free_all idx
  end.

(** The loop of [alloc3_desc], [idx] being the descriptors allocated so far. *)
Fixpoint alloc3_loop (n : nat) (idx : list Z) : M st (option (list Z)) :=
  match n with
  | O => ret (Some idx)
  | S n =>
      let! i := alloc_desc in
      if i <? 0 then free_all idx ;; ret None
      else alloc3_loop n (idx ++ [i])
  end.
Definition alloc3_desc : M st (option (list Z)) := alloc3_loop 3 [].

(** ** Transfers *)

Fixpoint alloc_wait (fuel : nat) : M st (list Z) :=
  match fuel with
  | O => nofuel
  | S fuel =>
      let! r := alloc3_desc in
      match r with
      | Some idx => ret idx
      | None => sleep free_chan vdisk_lock ;; alloc_wait fuel
      end
  end.

(** Format the three descriptors. *)
Definition rw_format (idx : list Z) (b : Z) (write : bool) (sector : Z) : M st unit :=
  let i0 := nth 0 idx 0 in let i1 := nth 1 idx 0 in let i2 := nth 2 idx 0 in
  on_disk (set_op i0 (Op (if write then VIRTIO_BLK_T_OUT else VIRTIO_BLK_T_IN) 0 sector)) ;;
  on_disk (set_desc i0 (Desc (A_op i0) 16 VRING_DESC_F_NEXT i1)) ;;
  on_disk (set_desc i1 (Desc (A_data b) BSIZE (Z.lor (if write then 0 else VRING_DESC_F_WRITE) VRING_DESC_F_NEXT) i2)) ;;
  on_disk (set_info_status i0 0xff) ;;
  on_disk (set_desc i2 (Desc (A_status i0) 1 VRING_DESC_F_WRITE 0)).

(** Record the buffer, put the chain into the avail ring and tell the device. *)
Definition rw_submit (i0 b : Z) : M st unit :=
  set_bdisk b 1 ;;
  on_disk (set_info_b i0 b) ;;
  on_disk (fun k => set_avail (k_avail_idx k) (upd (k_avail_ring k) (k_avail_idx k mod NUM) i0) k) ;;
  on_disk (fun k => set_avail (u16 (k_avail_idx k + 1)) (k_avail_ring k) k) ;;
  R_write VIRTIO_MMIO_QUEUE_NOTIFY 0.

Fixpoint rw_wait (fuel : nat) (b : Z) : M st unit :=
  match fuel with
  | O => nofuel
  | S fuel =>
      let! bf := gets (fun s => v_bufs s b) in
      if vb_disk bf =? 1 then sleep b vdisk_lock ;; rw_wait fuel b else ret tt
  end.

Definition rw_finish (i0 : Z) : M st unit :=
  on_disk (set_info_b i0 0) ;;
  free_chain (Z.to_nat NUM) i0 ;;
  release vdisk_lock.

Definition virtio_disk_rw (fuel : nat) (b : Z) (write : bool) : M st unit :=
  let! bf := gets (fun s => v_bufs s b) in
  let sector := u32 (vb_blockno bf * (BSIZE / 512)) in
  acquire vdisk_lock ;;
  let! idx := alloc_wait fuel in
  rw_format idx b write sector ;;
  rw_submit (nth 0 idx 0) b ;;
  rw_wait fuel b ;;
  rw_finish (nth 0 idx 0).

(** ** Interrupts *)

Fixpoint intr_loop (fuel : nat) : M st unit :=
  match fuel with
  | O => nofuel
  | S fuel =>
      let! k := get_disk (fun k => k) in
      if k_used_idx k =? k_dev_idx k then ret tt else
      let id := k_used_ring k (k_used_idx k mod NUM) in
      if negb (k_info_status k id =? 0) then panic "virtio_disk_intr status" else
      set_bdisk (k_info_b k id) 0 ;;
      wakeup (k_info_b k id) ;;
      on_disk (set_used_idx (u16 (k_used_idx k + 1))) ;;
      intr_loop fuel
  end.

Definition virtio_disk_intr (fuel : nat) : M st unit :=
  acquire vdisk_lock ;;
  let! x := R_read VIRTIO_MMIO_INTERRUPT_STATUS in
  R_write VIRTIO_MMIO_INTERRUPT_ACK (Z.land x 3) ;;
  intr_loop fuel ;;
  release vdisk_lock.

(** ** Setting up the device

    The three pages of the queue come from the page allocator. *)

Definition kst_of : lens (kst * st) kst := Lens fst (fun k x => (k, snd x)).
Definition vst_of : lens (kst * st) st := Lens snd (fun v x => (fst x, v)).

Definition clear_feature (f bit : Z) : Z := Z.ldiff f (Z.shiftl 1 bit).
Definition driver_features (f : Z) : Z :=
  fold_left clear_feature
    [VIRTIO_BLK_F_RO; VIRTIO_BLK_F_SCSI; VIRTIO_BLK_F_CONFIG_WCE; VIRTIO_BLK_F_MQ; VIRTIO_F_ANY_LAYOUT;
     VIRTIO_RING_F_EVENT_IDX; VIRTIO_RING_F_INDIRECT_DESC] f.

(** [memset(page, 0, PGSIZE)] of a queue page: the structures in it are zero. *)
Definition zero_page (pa : Z) : M (kst * st) unit :=
  zoom kst_of (modify (fun k => set_phys (memset (phys k) pa 0 PGSIZE) k)).

(** The checks, up to the size of the queue; the result is the status. *)
Definition negotiate : M st Z :=
  on_disk (set_klock false) ;;
  let! magic := R_read VIRTIO_MMIO_MAGIC_VALUE in
  let! version := R_read VIRTIO_MMIO_VERSION in
  let! device := R_read VIRTIO_MMIO_DEVICE_ID in
  let! vendor := R_read VIRTIO_MMIO_VENDOR_ID in
  if negb ((magic =? 0x74726976) && (version =? 2) && (device =? 2) && (vendor =? 0x554d4551))
  then panic "could not find virtio disk" else
  R_write VIRTIO_MMIO_STATUS 0 ;;
  let status := Z.lor 0 VIRTIO_CONFIG_S_ACKNOWLEDGE in
  R_write VIRTIO_MMIO_STATUS status ;;
  let status := Z.lor status VIRTIO_CONFIG_S_DRIVER in
  R_write VIRTIO_MMIO_STATUS status ;;
  let! features := R_read VIRTIO_MMIO_DEVICE_FEATURES in
  R_write VIRTIO_MMIO_DRIVER_FEATURES (u32 (driver_features features)) ;;
  let status := Z.lor status VIRTIO_CONFIG_S_FEATURES_OK in
  R_write VIRTIO_MMIO_STATUS status ;;
  let! status := R_read VIRTIO_MMIO_STATUS in
  if Z.land status VIRTIO_CONFIG_S_FEATURES_OK =? 0 then panic "virtio disk FEATURES_OK unset" else
  R_write VIRTIO_MMIO_QUEUE_SEL 0 ;;
  let! ready := R_read VIRTIO_MMIO_QUEUE_READY in
  if negb (ready =? 0) then panic "virtio disk should not be ready" else
  let! max := R_read VIRTIO_MMIO_QUEUE_NUM_MAX in
  if max =? 0 then panic "virtio disk has no queue 0" else
  if max <? NUM then panic "virtio disk max queue too short" else
  ret status.

Definition start_queue (desc avail used status : Z) : M st unit :=
  on_disk (fun k => Disk (desc, avail, used) (fun _ => Desc A_null 0 0 0) 0 (fun _ => 0) 0 (fun _ => 0) (k_free k)
                      (k_used_idx k) (k_info_b k) (k_info_status k) (k_ops k) (k_lock k) (k_wakes k)) ;;
  R_write VIRTIO_MMIO_QUEUE_NUM NUM ;;
  R_write VIRTIO_MMIO_QUEUE_DESC_LOW (u32 desc) ;;
  R_write VIRTIO_MMIO_QUEUE_DESC_HIGH (u32 (Z.shiftr desc 32)) ;;
  R_write VIRTIO_MMIO_DRIVER_DESC_LOW (u32 avail) ;;
  R_write VIRTIO_MMIO_DRIVER_DESC_HIGH (u32 (Z.shiftr avail 32)) ;;
  R_write VIRTIO_MMIO_DEVICE_DESC_LOW (u32 used) ;;
  R_write VIRTIO_MMIO_DEVICE_DESC_HIGH (u32 (Z.shiftr used 32)) ;;
  R_write VIRTIO_MMIO_QUEUE_READY 1 ;;
  on_disk (fun k => fold_left (fun k i => set_free i true k) (seqZ 0 NUM) k) ;;
  R_write VIRTIO_MMIO_STATUS (Z.lor status VIRTIO_CONFIG_S_DRIVER_OK).

Definition virtio_disk_init : M (kst * st) unit :=
  let! status := zoom vst_of negotiate in
  let! desc := zoom kst_of kalloc in
  let! avail := zoom kst_of kalloc in
  let! used := zoom kst_of kalloc in
  if (desc =? 0) || (avail =? 0) || (used =? 0) then panic "virtio disk kalloc" else
  zero_page desc ;; zero_page avail ;; zero_page used ;;
  zoom vst_of (start_queue desc avail used status).
End Driver.
