(* ===== verification/VirtioSpec.v ===== *)
(** * What the disk driver does

    Any number of threads transfer blocks at the same time, the device takes
    chains from the avail ring and completes them in any order, and interrupts
    arrive whenever nobody holds the lock.  Requests are accounted for by where
    they are: [pend] in the avail ring, [busy] taken by the device, [fin] in the
    used ring, [seen] noticed by the interrupt handler. *)

From S2P Require Import Prelude CString Riscv Kalloc Block Device Virtio.

(** ** The device, as the VIRTIO specification describes it *)

Record vdev : Type := Vdev {
  dv_last : Z;             (* the avail ring has been read up to here *)
  dv_busy : list Z;        (* chains taken and not completed *)
  dv_bytes : Z -> Z        (* the disk *)
}.

Section Device.
Context {D : Type}.
Local Abbreviation st := (vst D vdev).

(** Take the next chain from the avail ring. *)
Definition dev_fetch (s : st) : option st :=
  let k := v_disk s in let v := v_dev s in
  if dv_last v =? k_avail_idx k then None
  else Some (Vst k (v_bufs s) (v_regs s)
               (Vdev (u16 (dv_last v + 1)) (dv_busy v ++ [k_avail_ring k (dv_last v mod NUM)]) (dv_bytes v))).

(** The transfer of a request: the bytes of the disk and the buffers after it. *)
Definition dev_transfer (s : st) (op : virtio_blk_req) (d : virtq_desc) : option ((Z -> Z) * (Z -> vbuf)) :=
  let bytes := dv_bytes (v_dev s) in let start := op_sector op * 512 in
  match d_addr d with
  | A_data b =>
      let bf := v_bufs s b in
      if op_type op =? VIRTIO_BLK_T_OUT then
        Some ((fun a => if (start <=? a) && (a <? start + d_len d) then vb_data bf (a - start) else bytes a), v_bufs s)
      else if (op_type op =? VIRTIO_BLK_T_IN) && negb (Z.land (d_flags d) VRING_DESC_F_WRITE =? 0) then
        Some (bytes, upd (v_bufs s) b (Vbuf (vb_disk bf) (vb_blockno bf)
               (fun i => if (0 <=? i) && (i <? d_len d) then bytes (start + i) else vb_data bf i)))
      else None
  | _ => None
  end.

(** Complete the chain that is [j]th among those taken: do the transfer, write
    the status, and put the chain into the used ring. *)
Definition dev_complete (j : nat) (s : st) : option st :=
  let k := v_disk s in let v := v_dev s in
  h ← dv_busy v !! j;
  let d0 := k_desc k h in let d1 := k_desc k (d_next d0) in let d2 := k_desc k (d_next d1) in
  match d_addr d0, d_addr d2 with
  | A_op i, A_status i' =>
      '(bytes, bufs) ← dev_transfer s (k_ops k i) d1;
      Some (Vst (set_used (u16 (k_dev_idx k + 1)) (upd (k_used_ring k) (k_dev_idx k mod NUM) h)
                   (set_info_status i' 0 k))
                bufs (v_regs s) (Vdev (dv_last v) (delete j (dv_busy v)) bytes))
  | _, _ => None
  end.
End Device.

(** Whatever the device does is one of these, and registers. *)
Definition dev_act {D} (s s1 : vst D vdev) : Prop := dev_fetch s = Some s1 \/ exists j, dev_complete j s = Some s1.
Class VirtioDevice (D : Type) : Type := {
  dev_step : vst D vdev -> vst D vdev -> Prop;
  dev_step_ok : forall s s', dev_step s s' -> exists s1, dev_act s s1 /\ s' = Vst (v_disk s1) (v_bufs s1) (v_regs s') (v_dev s1)
}.

(** ** Threads *)

Section System.
Context {D : Type} {MM : Mmio D} {ML : MmioLaws D} {VD : VirtioDevice D}.
Local Abbreviation st := (vst D vdev).
Implicit Types s : st.

(** A call of [virtio_disk_rw]: the buffer, its block, the direction, the
    contents of buffer and block at the time of the call, and where it is. *)
Record thread : Type := Thread {
  t_buf : Z; t_block : Z; t_write : bool; t_data : block; t_old : block; t_run : res st unit
}.
Record config : Type := Config { c_st : st; c_threads : list thread; c_panicked : bool }.

Definition block_on (s : st) (blk : Z) : block := fun i => dv_bytes (v_dev s) (blk * BSIZE + i).

Definition continue (r : res st unit) (s : st) (ts : list thread) : config :=
  match r with
  | Ret _ s' | Sleep _ s' _ => Config s' ts false
  | _ => Config s ts true
  end.

Inductive vstep : config -> config -> Prop :=
| V_call s ts fuel b w r : let blk := vb_blockno (v_bufs s b) in
    b ∉ (t_buf <$> ts) -> blk ∉ (t_block <$> ts) -> 0 <= blk < 2 ^ 31 ->
    virtio_disk_rw fuel b w s = r -> r <> NoFuel ->
    vstep (Config s ts false) (continue r s (ts ++ [Thread b blk w (vb_data (v_bufs s b)) (block_on s blk) r]))
| V_resume s ts i t ch s0 k r : ts !! i = Some t -> t_run t = Sleep ch s0 k -> k s = r -> r <> NoFuel ->
    vstep (Config s ts false)
      (continue r s (<[i := Thread (t_buf t) (t_block t) (t_write t) (t_data t) (t_old t) r]> ts))
| V_return s ts i t u s0 : ts !! i = Some t -> t_run t = Ret u s0 ->
    vstep (Config s ts false) (Config s (delete i ts) false)
| V_intr s ts fuel r : virtio_disk_intr fuel s = r -> r <> NoFuel -> vstep (Config s ts false) (continue r s ts)
| V_device s ts s' : dev_step s s' -> vstep (Config s ts false) (Config s' ts false)
| V_holder s ts bufs : (forall b, b ∈ (t_buf <$> ts) -> bufs b = v_bufs s b) ->
    vstep (Config s ts false) (Config (Vst (v_disk s) bufs (v_regs s) (v_dev s)) ts false).

(** What the transfer leaves in both places. *)
Definition t_result (t : thread) : block := if t_write t then t_data t else t_old t.

(** ** Wakeups *)

Definition wakes_le s s' : Prop := forall ch, k_wakes (v_disk s) ch <= k_wakes (v_disk s') ch.

(** A thread that went to sleep on [ch] in [s0] has been woken. *)
Definition woken s0 (ch : Z) s : Prop := k_wakes (v_disk s0) ch < k_wakes (v_disk s) ch.

Lemma wakes_refl s : wakes_le s s.
Proof. intros ch. lia. Qed.

Lemma wakes_same s s' : k_wakes (v_disk s') = k_wakes (v_disk s) -> wakes_le s s'.
Proof. intros E ch. rewrite E. lia. Qed.

Lemma wakes_trans s1 s2 s3 : wakes_le s1 s2 -> wakes_le s2 s3 -> wakes_le s1 s3.
Proof. intros H1 H2 ch. specialize (H1 ch). specialize (H2 ch). lia. Qed.

Lemma wakes_grow s s' ch n : 0 <= n -> k_wakes (v_disk s') = upd (k_wakes (v_disk s)) ch (k_wakes (v_disk s) ch + n) -> wakes_le s s'.
Proof. intros Hn E c. rewrite E. unfold upd. destruct (Z.eqb_spec c ch) as [->|]; lia. Qed.

Lemma woken_mono s0 ch s s' : wakes_le s s' -> woken s0 ch s -> woken s0 ch s'.
Proof. intros H1 H2. unfold woken in *. specialize (H1 ch). lia. Qed.

(** ** The accounting of requests *)

(** Three descriptors and what they are for. *)
Record req : Type := Req { q0 : Z; q1 : Z; q2 : Z; q_buf : Z; q_block : Z; q_write : bool }.
#[export] Instance req_eq_dec : EqDecision req.
Proof. solve_decision. Defined.

Definition descs (l : list req) : list Z := concat ((fun q => [q0 q; q1 q; q2 q]) <$> l).

Definition laid_out (k : disk) (q : req) : Prop :=
  k_desc k (q0 q) = Desc (A_op (q0 q)) 16 VRING_DESC_F_NEXT (q1 q) /\
  k_desc k (q1 q) = Desc (A_data (q_buf q)) BSIZE (Z.lor (if q_write q then 0 else VRING_DESC_F_WRITE) VRING_DESC_F_NEXT) (q2 q) /\
  k_desc k (q2 q) = Desc (A_status (q0 q)) 1 VRING_DESC_F_WRITE 0 /\
  k_ops k (q0 q) = Op (if q_write q then VIRTIO_BLK_T_OUT else VIRTIO_BLK_T_IN) 0 (q_block q * 2) /\
  k_info_b k (q0 q) = q_buf q.

Record ring_ok s (pend busy fin seen : list req) : Prop := {
  r_nodup : NoDup (descs (pend ++ busy ++ fin ++ seen));
  r_range : forall i, i ∈ descs (pend ++ busy ++ fin ++ seen) -> 0 <= i < NUM;
  r_free : forall i, 0 <= i < NUM -> k_free (v_disk s) i = true <-> i ∉ descs (pend ++ busy ++ fin ++ seen);
  r_laid : forall q, q ∈ pend ++ busy ++ fin ++ seen -> laid_out (v_disk s) q;
  r_bufs : NoDup (q_buf <$> pend ++ busy ++ fin ++ seen);
  r_last : 0 <= dv_last (v_dev s) < 2 ^ 16;
  r_avail : k_avail_idx (v_disk s) = u16 (dv_last (v_dev s) + Z.of_nat (length pend));
  r_avail_ring : forall j q, pend !! j = Some q -> k_avail_ring (v_disk s) ((dv_last (v_dev s) + Z.of_nat j) mod NUM) = q0 q;
  r_busy : dv_busy (v_dev s) = q0 <$> busy;
  r_idx : 0 <= k_used_idx (v_disk s) < 2 ^ 16;
  r_used : k_dev_idx (v_disk s) = u16 (k_used_idx (v_disk s) + Z.of_nat (length fin));
  r_used_ring : forall j q, fin !! j = Some q -> k_used_ring (v_disk s) ((k_used_idx (v_disk s) + Z.of_nat j) mod NUM) = q0 q;
  r_status : forall q, q ∈ fin ++ seen -> k_info_status (v_disk s) (q0 q) = 0;
  r_waiting : forall q, q ∈ pend ++ busy ++ fin -> vb_disk (v_bufs s (q_buf q)) = 1;
  r_done : forall q, q ∈ seen -> vb_disk (v_bufs s (q_buf q)) = 0
}.

Lemma descs_app a b : descs (a ++ b) = descs a ++ descs b.
Proof. unfold descs. rewrite fmap_app, concat_app. reflexivity. Qed.

#[local] Instance descs_perm : Proper ((≡ₚ) ==> (≡ₚ)) descs.
Proof.
  intros a b Hp. unfold descs. induction Hp as [|x a b _ IH|x y a|a b c _ IH1 _ IH2]; simpl.
  - reflexivity.
  - rewrite IH. reflexivity.
  - solve_Permutation.
  - etransitivity; eassumption.
Qed.

Lemma length_descs l : length (descs l) = (3 * length l)%nat.
Proof. induction l as [|q l IH]; [reflexivity|]. change (descs (q :: l)) with (q0 q :: q1 q :: q2 q :: descs l). simpl in *. lia. Qed.

Lemma descs_cons q l : descs (q :: l) = q0 q :: q1 q :: q2 q :: descs l.
Proof. reflexivity. Qed.

Lemma descs_elem q l : q ∈ l -> q0 q ∈ descs l /\ q1 q ∈ descs l /\ q2 q ∈ descs l.
Proof.
  intros (l1 & l2 & ->)%list_elem_of_split. rewrite descs_app, descs_cons, !elem_of_app, !elem_of_cons. tauto.
Qed.

(** Eight descriptors are enough for two requests. *)
Lemma few_requests s pend busy fin seen : ring_ok s pend busy fin seen -> (length (pend ++ busy ++ fin ++ seen) <= 2)%nat.
Proof.
  intros Hr. assert (Hl : (length (descs (pend ++ busy ++ fin ++ seen)) <= length (seqZ 0 NUM))%nat).
  { apply NoDup_incl_length; [apply NoDup_ListNoDup, (r_nodup _ _ _ _ _ Hr)|].
    intros i Hi. apply list_elem_of_In, elem_of_seqZ. apply list_elem_of_In, (r_range _ _ _ _ _ Hr) in Hi. lia. }
  rewrite length_descs, length_seqZ in Hl. change (Z.to_nat NUM) with 8%nat in Hl. lia.
Qed.

Lemma u16_mod z : u16 z mod NUM = z mod NUM.
Proof. unfold NUM, u16. change (2 ^ 16) with (8 * 8192). dlia. Qed.

(** ** Descriptors *)

(** Nothing but the contents of free descriptors is different. *)
Record quiet s s' : Prop := {
  qt_free : forall i, k_free (v_disk s') i = k_free (v_disk s) i;
  qt_desc : forall i, k_free (v_disk s) i = false -> k_desc (v_disk s') i = k_desc (v_disk s) i;
  qt_avail : k_avail_idx (v_disk s') = k_avail_idx (v_disk s) /\ k_avail_ring (v_disk s') = k_avail_ring (v_disk s);
  qt_used : k_dev_idx (v_disk s') = k_dev_idx (v_disk s) /\ k_used_ring (v_disk s') = k_used_ring (v_disk s) /\
    k_used_idx (v_disk s') = k_used_idx (v_disk s);
  qt_info : k_info_b (v_disk s') = k_info_b (v_disk s) /\ k_info_status (v_disk s') = k_info_status (v_disk s) /\
    k_ops (v_disk s') = k_ops (v_disk s);
  qt_lock : k_lock (v_disk s') = k_lock (v_disk s);
  qt_bufs : v_bufs s' = v_bufs s;
  qt_dev : v_dev s' = v_dev s;
  qt_regs : v_regs s' = v_regs s;
  qt_wakes : wakes_le s s'
}.

Definition taken (i : Z) s : st := Vst (set_free i false (v_disk s)) (v_bufs s) (v_regs s) (v_dev s).
Definition given (i : Z) s : st :=
  Vst (add_wake free_chan (set_free i true (set_desc i (Desc A_null 0 0 0) (v_disk s)))) (v_bufs s) (v_regs s) (v_dev s).

Lemma alloc_desc_loop_run n : forall i s, exists r s', alloc_desc_loop n i s = Ret r s' /\
  (r = -1 /\ s' = s /\ (forall j, i <= j < i + Z.of_nat n -> k_free (v_disk s) j = false) \/
   i <= r < i + Z.of_nat n /\ k_free (v_disk s) r = true /\ s' = taken r s).
Proof.
  induction n as [|n IH]; intros i s.
  - exists (-1), s. split; [reflexivity|]. left. repeat split. lia.
  - cbn [alloc_desc_loop]. unfold get_disk. rewrite bind_gets. destruct (k_free (v_disk s) i) eqn:E.
    + eexists _, _. split; [reflexivity|]. right. split; [lia|]. auto.
    + destruct (IH (i + 1) s) as (r & s' & Er & [(-> & -> & Hf)|(Hr & Hf & ->)]); eexists _, _; (split; [exact Er|]).
      * left. repeat split. intros j Hj. destruct (decide (j = i)) as [->|]; [exact E|apply Hf; lia].
      * right. repeat split; auto; lia.
Qed.

Lemma alloc_desc_run s : exists r s', alloc_desc s = Ret r s' /\
  (r = -1 /\ s' = s /\ (forall j, 0 <= j < NUM -> k_free (v_disk s) j = false) \/ 0 <= r < NUM /\ k_free (v_disk s) r = true /\ s' = taken r s).
Proof.
  unfold alloc_desc. destruct (alloc_desc_loop_run (Z.to_nat NUM) 0 s) as (r & s' & E & [(-> & -> & Hn)|(Hr & Hf & ->)]);
    eexists _, _; (split; [exact E|]); [left; auto|right]. change (Z.of_nat (Z.to_nat NUM)) with NUM in Hr. auto with lia.
Qed.

Lemma free_desc_run i s : i < NUM -> k_free (v_disk s) i = false -> free_desc i s = Ret tt (given i s).
Proof.
  intros Hi Hf. unfold free_desc. replace (NUM <=? i) with false by lia. unfold get_disk. rewrite bind_gets, Hf. reflexivity.
Qed.

#[local] Ltac cases_upd :=
  unfold upd;
  repeat match goal with |- context [if ?a =? ?b then _ else _] => destruct (Z.eqb_spec a b) as [->|] end;
  rewrite ?Z.eqb_refl; intros; auto; try congruence; try lia.

(** Fewer than three descriptors are free. *)
Definition scarce s : Prop :=
  exists l, (length l <= 2)%nat /\ forall j, 0 <= j < NUM -> k_free (v_disk s) j = true -> j ∈ l.

Lemma scarce_in s l : (length l <= 2)%nat -> (forall j, 0 <= j < NUM -> k_free (v_disk s) j = false \/ j ∈ l) -> scarce s.
Proof. intros Hl Hj. exists l. split; [exact Hl|]. intros j Hr Hf. destruct (Hj j Hr); congruence || auto. Qed.

(** Three descriptors, or everything as it was. *)
Lemma alloc3_run s : exists r s', alloc3_desc s = Ret r s' /\
  (r = None /\ quiet s s' /\ scarce s \/
   exists i0 i1 i2, r = Some [i0; i1; i2] /\ NoDup [i0; i1; i2] /\
     (forall i, i ∈ [i0; i1; i2] -> 0 <= i < NUM /\ k_free (v_disk s) i = true) /\ s' = taken i2 (taken i1 (taken i0 s))).
Proof.
  unfold alloc3_desc. cbn [alloc3_loop].
  destruct (alloc_desc_run s) as (i0 & s0 & E0 & [(-> & -> & Hn)|(Hi0 & Hf0 & ->)]); erewrite bind_ret_l by exact E0.
  { eexists _, _. split; [reflexivity|]. left. split; [reflexivity|]. split; [split; auto using wakes_refl|].
    exists []. split; [simpl; lia|]. intros j Hj Hf. rewrite Hn in Hf by exact Hj. discriminate. }
  replace (i0 <? 0) with false by lia. cbn [app].
  destruct (alloc_desc_run (taken i0 s)) as (i1 & s1 & E1 & [(-> & -> & Hn)|(Hi1 & Hf1 & ->)]); erewrite bind_ret_l by exact E1.
  { cbn [Z.ltb Z.compare free_all]. rewrite (bind_ret_l _ _ _ tt (given i0 (taken i0 s))).
    2: { erewrite bind_ret_l; [reflexivity|]. apply free_desc_run; [lia|]. simpl. apply upd_eq. }
    eexists _, _. split; [reflexivity|]. left. split; [reflexivity|].
    split; [split; simpl; auto; intros i; simpl; cases_upd|]. apply (scarce_in s [i0]); [simpl; lia|].
    intros j Hj. destruct (decide (j = i0)) as [->|Hne]; [right; apply list_elem_of_here|left]. rewrite <- (Hn j Hj). simpl. rewrite upd_ne; auto. }
  simpl in Hf1. assert (N01 : i1 <> i0) by (intros ->; rewrite upd_eq in Hf1; discriminate). rewrite upd_ne in Hf1 by exact N01.
  replace (i1 <? 0) with false by lia. cbn [app].
  destruct (alloc_desc_run (taken i1 (taken i0 s))) as (i2 & s2 & E2 & [(-> & -> & Hn)|(Hi2 & Hf2 & ->)]); erewrite bind_ret_l by exact E2.
  { cbn [Z.ltb Z.compare free_all]. rewrite (bind_ret_l _ _ _ tt (given i1 (given i0 (taken i1 (taken i0 s))))).
    2: { erewrite bind_ret_l; [erewrite bind_ret_l; [reflexivity|]|].
         - apply free_desc_run; [lia|]. simpl. rewrite upd_ne, upd_eq by congruence. reflexivity.
         - apply free_desc_run; [lia|]. simpl. rewrite upd_ne, upd_eq by congruence. reflexivity. }
    eexists _, _. split; [reflexivity|]. left. split; [reflexivity|].
    split; [split; simpl; auto; intros i; simpl; cases_upd|]. apply (scarce_in s [i0; i1]); [simpl; lia|].
    intros j Hj. rewrite !elem_of_cons. destruct (decide (j = i0)) as [->|N0]; [auto|]. destruct (decide (j = i1)) as [->|N1]; [auto|].
    left. rewrite <- (Hn j Hj). simpl. rewrite !upd_ne; auto. }
  simpl in Hf2. assert (N12 : i2 <> i1) by (intros ->; rewrite upd_eq in Hf2; discriminate). rewrite upd_ne in Hf2 by exact N12.
  assert (N02 : i2 <> i0) by (intros ->; rewrite upd_eq in Hf2; discriminate). rewrite upd_ne in Hf2 by exact N02.
  replace (i2 <? 0) with false by lia. eexists _, _. split; [reflexivity|]. right. exists i0, i1, i2.
  split; [reflexivity|]. split; [rewrite !NoDup_cons, !elem_of_cons, !elem_of_nil; split; [intuition congruence|split; [intuition congruence|split; [tauto|apply NoDup_nil_2]]]|]. split; [|reflexivity].
  intros i Hi. repeat (apply elem_of_cons in Hi as [->|Hi]; [auto|]). apply elem_of_nil in Hi. contradiction.
Qed.

(** Descriptors are scarce only with two requests under way. *)
Lemma scarce_two s pend busy fin seen : ring_ok s pend busy fin seen -> scarce s -> (2 <= length (pend ++ busy ++ fin ++ seen))%nat.
Proof.
  intros Hr (l & Hl & Hin). set (all := pend ++ busy ++ fin ++ seen).
  assert (Hlen : (length (seqZ 0 NUM) <= length (descs all ++ l))%nat).
  { apply NoDup_incl_length; [apply NoDup_ListNoDup, NoDup_seqZ|]. intros i Hi. apply list_elem_of_In, elem_of_seqZ in Hi.
    apply list_elem_of_In, elem_of_app. destruct (decide (i ∈ descs all)) as [Hd|Hd]; [auto|right].
    apply Hin; [lia|]. apply (r_free _ _ _ _ _ Hr i); [lia|exact Hd]. }
  rewrite length_app, length_descs, length_seqZ in Hlen. change (Z.to_nat NUM) with 8%nat in Hlen. lia.
Qed.

Lemma laid_fresh k k' q : (forall i, i ∈ [q0 q; q1 q; q2 q] -> k_desc k' i = k_desc k i) ->
  k_ops k' (q0 q) = k_ops k (q0 q) -> k_info_b k' (q0 q) = k_info_b k (q0 q) -> laid_out k q -> laid_out k' q.
Proof.
  intros Hd Ho Hb (L0 & L1 & L2 & L3 & L4). unfold laid_out. rewrite Ho, Hb, !Hd by (rewrite !elem_of_cons; tauto). auto.
Qed.

Lemma perm_snoc (pend busy fin seen : list req) q :
  (pend ++ [q]) ++ busy ++ fin ++ seen ≡ₚ q :: pend ++ busy ++ fin ++ seen.
Proof. rewrite <- app_assoc. simpl. symmetry. apply Permutation_middle. Qed.

Lemma ring_mod a b c : 0 <= b < NUM -> 0 <= c < NUM -> b <> c -> (a + b) mod NUM <> (a + c) mod NUM.
Proof. unfold NUM. intros. dlia. Qed.

(** The state when a chain has been handed to the device. *)
Definition submitted (r : D) (b blk : Z) (w : bool) (i0 i1 i2 : Z) s : st :=
  let k := v_disk s in let bf := v_bufs s b in
  Vst (Disk (k_pages k)
         (upd (upd (upd (k_desc k) i0 (Desc (A_op i0) 16 VRING_DESC_F_NEXT i1))
                   i1 (Desc (A_data b) BSIZE (Z.lor (if w then 0 else VRING_DESC_F_WRITE) VRING_DESC_F_NEXT) i2))
              i2 (Desc (A_status i0) 1 VRING_DESC_F_WRITE 0))
         (u16 (k_avail_idx k + 1)) (upd (k_avail_ring k) (k_avail_idx k mod NUM) i0) (k_dev_idx k) (k_used_ring k)
         (upd (upd (upd (k_free k) i0 false) i1 false) i2 false) (k_used_idx k) (upd (k_info_b k) i0 b)
         (upd (k_info_status k) i0 0xff)
         (upd (k_ops k) i0 (Op (if w then VIRTIO_BLK_T_OUT else VIRTIO_BLK_T_IN) 0 (blk * 2))) (k_lock k) (k_wakes k))
      (upd (v_bufs s) b (Vbuf 1 (vb_blockno bf) (vb_data bf))) r (v_dev s).

(** The device has been told to look at the queue. *)
Definition told (d d' : D) : Prop := wr32 (VIRTIO0 + VIRTIO_MMIO_QUEUE_NOTIFY) 0 d = Ret tt d'.

Lemma submit_run s b blk w i0 i1 i2 (K : M st unit) : exists r, told (v_regs s) r /\
  (rw_format [i0; i1; i2] b w (blk * 2) ;; rw_submit i0 b ;; K) (taken i2 (taken i1 (taken i0 s))) = K (submitted r b blk w i0 i1 i2 s).
Proof.
  destruct (wr32_ok (VIRTIO0 + VIRTIO_MMIO_QUEUE_NOTIFY) 0 (v_regs s)) as (d' & Ew & _). exists d'. split; [exact Ew|].
  unfold rw_format, rw_submit, R_write, bind, zoom. simpl. rewrite Ew. reflexivity.
Qed.

Section Submit.
Context (s : st) (pend busy fin seen : list req) (r : D) (b blk : Z) (w : bool) (i0 i1 i2 : Z).
Hypothesis (Hr : ring_ok s pend busy fin seen) (Hnd : NoDup [i0; i1; i2])
  (Hi : forall i, i ∈ [i0; i1; i2] -> 0 <= i < NUM /\ k_free (v_disk s) i = true)
  (Hb : forall q, q ∈ pend ++ busy ++ fin ++ seen -> q_buf q <> b).

Lemma submit_fresh i : i ∈ [i0; i1; i2] -> i ∉ descs (pend ++ busy ++ fin ++ seen).
Proof using Hi Hr. intros Hin. destruct (Hi i Hin) as [Hi1 Hi2]. apply (r_free _ _ _ _ _ Hr i Hi1). exact Hi2. Qed.

Lemma submit_apart q i j : q ∈ pend ++ busy ++ fin ++ seen -> i ∈ [q0 q; q1 q; q2 q] -> j ∈ [i0; i1; i2] -> i <> j.
Proof using Hi Hr.
  intros Hq Hiq Hj ->. apply (submit_fresh j Hj). destruct (descs_elem _ _ Hq) as (? & ? & ?).
  rewrite !elem_of_cons, elem_of_nil in Hiq. intuition congruence.
Qed.

Lemma submit_laid q : q ∈ pend ++ busy ++ fin ++ seen -> laid_out (v_disk (submitted r b blk w i0 i1 i2 s)) q.
Proof using Hi Hr.
  intros Hin. eapply laid_fresh; [..|apply (r_laid _ _ _ _ _ Hr), Hin]; simpl.
  - intros i Hiq. rewrite !upd_ne; [reflexivity|..]; eapply submit_apart; eauto; rewrite !elem_of_cons; auto.
  - rewrite upd_ne; [reflexivity|]. eapply submit_apart; eauto; rewrite !elem_of_cons; auto.
  - rewrite upd_ne; [reflexivity|]. eapply submit_apart; eauto; rewrite !elem_of_cons; auto.
Qed.

Lemma submit_avail j q : (pend ++ [Req i0 i1 i2 b blk w]) !! j = Some q ->
  upd (k_avail_ring (v_disk s)) (k_avail_idx (v_disk s) mod NUM) i0 ((dv_last (v_dev s) + Z.of_nat j) mod NUM) = q0 q.
Proof using Hr.
  assert (Hlen := few_requests _ _ _ _ _ Hr). rewrite length_app in Hlen.
  rewrite (r_avail _ _ _ _ _ Hr), u16_mod. intros [Hj|[Hj1 Hj2]]%lookup_app_Some.
  - rewrite upd_ne; [apply Hr, Hj|]. apply lookup_lt_Some in Hj. apply ring_mod; unfold NUM; lia.
  - assert (Ej : j = length pend) by (apply lookup_lt_Some in Hj2; simpl in Hj2; lia).
    subst j. rewrite Nat.sub_diag in Hj2. injection Hj2 as <-. apply upd_eq.
Qed.

Lemma submit_ring : ring_ok (submitted r b blk w i0 i1 i2 s) (pend ++ [Req i0 i1 i2 b blk w]) busy fin seen.
Proof using Hr Hnd Hi Hb.
  set (all := pend ++ busy ++ fin ++ seen) in *. rewrite !NoDup_cons, !elem_of_cons, !elem_of_nil in Hnd.
  assert (Hfr := submit_fresh). setoid_rewrite elem_of_cons in Hfr. setoid_rewrite elem_of_cons in Hfr. setoid_rewrite elem_of_cons in Hfr.
  assert (Hin : forall q, q ∈ pend \/ q ∈ busy \/ q ∈ fin \/ q ∈ seen -> q ∈ all) by (intros q; unfold all; rewrite !elem_of_app; tauto).
  split; rewrite ?perm_snoc; fold all; rewrite ?descs_cons; cbn [q0 q1 q2]; try apply Hr; simpl.
  - rewrite !NoDup_cons, !elem_of_cons. pose proof (r_nodup _ _ _ _ _ Hr). intuition eauto.
  - intros i. rewrite perm_snoc, descs_cons, !elem_of_cons. simpl. intros Hiq. destruct (decide (i ∈ [i0; i1; i2])) as [Hi'|Hi'].
    + apply Hi, Hi'.
    + apply (r_range _ _ _ _ _ Hr). rewrite !elem_of_cons in Hi'. tauto.
  - intros i Hrg. rewrite perm_snoc, descs_cons, !elem_of_cons. simpl. pose proof (r_free _ _ _ _ _ Hr i Hrg) as Hf. unfold upd.
    destruct (Z.eqb_spec i i2), (Z.eqb_spec i i1), (Z.eqb_spec i i0); intuition congruence.
  - intros q'. rewrite perm_snoc. intros [->|Hq]%elem_of_cons; [|apply submit_laid, Hq].
    unfold laid_out. simpl. unfold upd. rewrite !Z.eqb_refl.
    destruct (Z.eqb_spec i0 i2), (Z.eqb_spec i0 i1), (Z.eqb_spec i1 i2); try (exfalso; intuition congruence). auto.
  - apply NoDup_cons. split; [|apply (r_bufs _ _ _ _ _ Hr)]. intros (q' & E & Hq)%list_elem_of_fmap. apply (Hb q' Hq). congruence.
  - rewrite (r_avail _ _ _ _ _ Hr), length_app. simpl. wrap_lia.
  - apply submit_avail.
  - intros q' Hq. rewrite upd_ne; [apply Hr, Hq|]. rewrite elem_of_app in Hq.
    eapply (submit_apart q'); [apply Hin; tauto|rewrite !elem_of_cons; auto..].
  - intros q'. rewrite <- app_assoc, !elem_of_app, list_elem_of_singleton. intros Hq.
    destruct (decide (q_buf q' = b)) as [->|Hne]; [rewrite upd_eq; reflexivity|]. rewrite upd_ne by exact Hne.
    apply (r_waiting _ _ _ _ _ Hr). rewrite !elem_of_app. destruct Hq as [?|[->|?]]; [tauto|contradiction|tauto].
  - intros q' Hq. rewrite upd_ne; [apply Hr, Hq|]. apply Hb, Hin. tauto.
Qed.
End Submit.

(** ** Sections of the driver *)

Lemma quiet_ring s s' pend busy fin seen : quiet s s' -> ring_ok s pend busy fin seen -> ring_ok s' pend busy fin seen.
Proof.
  intros [Qf Qd [Qa1 Qa2] (Qu1 & Qu2 & Qu3) (Qi1 & Qi2 & Qi3) _ Qb Qv] Hr.
  split; rewrite ?Qa1, ?Qa2, ?Qu1, ?Qu2, ?Qu3, ?Qi1, ?Qi2, ?Qi3, ?Qb, ?Qv; try apply Hr.
  - intros i Hi. rewrite Qf. apply (r_free _ _ _ _ _ Hr i Hi).
  - intros q Hq. eapply laid_fresh; [..|apply (r_laid _ _ _ _ _ Hr), Hq]; [|rewrite Qi3; reflexivity|rewrite Qi1; reflexivity].
    intros i Hi. apply Qd. destruct (descs_elem _ _ Hq) as (? & ? & ?). assert (Hin : i ∈ descs (pend ++ busy ++ fin ++ seen)).
    { rewrite !elem_of_cons, elem_of_nil in Hi. intuition congruence. }
    apply not_true_iff_false. intros Hf. apply (r_free _ _ _ _ _ Hr i (r_range _ _ _ _ _ Hr i Hin)) in Hf. contradiction.
Qed.

Lemma ring_lock s x pend busy fin seen : ring_ok s pend busy fin seen -> ring_ok (set vdisk_lock x s) pend busy fin seen.
Proof. intros []. split; assumption. Qed.

(** What [virtio_disk_rw] does once it has its descriptors. *)
Definition rw_rest (m : nat) (b : Z) (w : bool) (sector : Z) (idx : list Z) : M st unit :=
  rw_format idx b w sector ;; rw_submit (nth 0 idx 0) b ;; rw_wait m b ;; rw_finish (nth 0 idx 0).

(** Where a thread is when it sleeps. *)
Definition desc_wait (n m : nat) (b : Z) (w : bool) (sector : Z) (k : st -> res st unit) : Prop :=
  forall s, k s = (let! idx := (acquire vdisk_lock ;; alloc_wait n) in rw_rest m b w sector idx) s.
Definition io_wait (n : nat) (b i0 : Z) (k : st -> res st unit) : Prop :=
  forall s, k s = ((acquire vdisk_lock ;; rw_wait n b) ;; rw_finish i0) s.

Lemma alloc_phase n m b blk w s pend busy fin seen r : k_lock (v_disk s) = true -> ring_ok s pend busy fin seen ->
  (forall q, q ∈ pend ++ busy ++ fin ++ seen -> q_buf q <> b) ->
  (let! idx := alloc_wait n in rw_rest m b w (blk * 2) idx) s = r -> (n = O \/ m = O -> r <> NoFuel) ->
  exists c s' k, r = Sleep c s' k /\ k_lock (v_disk s') = false /\ v_dev s' = v_dev s /\ wakes_le s s' /\
    (c = free_chan /\ v_bufs s' = v_bufs s /\ v_regs s' = v_regs s /\ ring_ok s' pend busy fin seen /\
       (exists n', n = S n' /\ desc_wait n' m b w (blk * 2) k) /\ scarce s \/
     exists i0 i1 i2 n', c = b /\ m = S n' /\ v_bufs s' = upd (v_bufs s) b (Vbuf 1 (vb_blockno (v_bufs s b)) (vb_data (v_bufs s b))) /\
       told (v_regs s) (v_regs s') /\ ring_ok s' (pend ++ [Req i0 i1 i2 b blk w]) busy fin seen /\ io_wait n' b i0 k).
Proof.
  intros Hl Hr Hb E Hf. destruct n as [|n]; [exfalso; apply Hf; [auto|]; symmetry; exact E|]. cbn [alloc_wait] in E.
  destruct (alloc3_run s) as (o & s1 & E1 & [(-> & Hq & Hsc)|(i0 & i1 & i2 & -> & Hnd & Hi & ->)]).
  - unfold bind at 1 2 in E. rewrite E1 in E. cbn [bindr] in E. unfold bind at 1, sleep in E. simpl in E.
    rewrite (qt_lock _ _ Hq), Hl in E. simpl in E. subst r. eexists _, _, _. split; [reflexivity|]. split; [reflexivity|].
    split; [apply Hq|]. split; [apply Hq|]. left. split; [reflexivity|]. split; [apply Hq|]. split; [apply Hq|].
    split; [apply (ring_lock s1 false), (quiet_ring s), Hr; exact Hq|].
    split; [|exact Hsc]. exists n. split; [reflexivity|]. intros s'. reflexivity.
  - erewrite bind_ret_l in E by (erewrite bind_ret_l by exact E1; reflexivity).
    destruct (submit_run s b blk w i0 i1 i2 (rw_wait m b ;; rw_finish i0)) as (r' & Ht & Er). unfold rw_rest in E. cbn [nth] in E. rewrite Er in E.
    destruct m as [|m]; [exfalso; apply Hf; [auto|]; symmetry; exact E|]. set (s1 := submitted r' b blk w i0 i1 i2 s) in *.
    assert (Ed : vb_disk (v_bufs s1 b) = 1) by (simpl; rewrite upd_eq; reflexivity).
    cbn [rw_wait] in E. unfold bind at 1 2 in E. simpl gets in E. cbn [gets bindr] in E. rewrite Ed in E. simpl (1 =? 1) in E.
    unfold bind, sleep in E. simpl in E. rewrite Hl in E. simpl in E. subst r. eexists _, _, _. split; [reflexivity|]. split; [reflexivity|].
    split; [reflexivity|]. split; [apply wakes_same; reflexivity|]. right. exists i0, i1, i2, m. do 3 (split; [reflexivity|]). split; [exact Ht|].
    split; [apply (ring_lock s1 false), submit_ring; assumption|]. intros s'. reflexivity.
Qed.

Section Finish.
Context (s : st) (pend busy fin l1 l2 : list req) (q : req).
Hypothesis (Hr : ring_ok s pend busy fin (l1 ++ q :: l2)).

(** The state when the chain of [q] has been freed. *)
Definition finished : st :=
  let k := v_disk s in let null := Desc A_null 0 0 0 in
  let bump w := upd w free_chan (w free_chan + 1) in
  Vst (Disk (k_pages k) (upd (upd (upd (k_desc k) (q0 q) null) (q1 q) null) (q2 q) null) (k_avail_idx k) (k_avail_ring k)
         (k_dev_idx k) (k_used_ring k) (upd (upd (upd (k_free k) (q0 q) true) (q1 q) true) (q2 q) true) (k_used_idx k)
         (upd (k_info_b k) (q0 q) 0) (k_info_status k) (k_ops k) false
         (bump (bump (bump (k_wakes k)))))
      (v_bufs s) (v_regs s) (v_dev s).

Lemma finish_perm : pend ++ busy ++ fin ++ l1 ++ q :: l2 ≡ₚ q :: pend ++ busy ++ fin ++ l1 ++ l2.
Proof using. solve_Permutation. Qed.

Lemma finish_nodup : NoDup ([q0 q; q1 q; q2 q] ++ descs (pend ++ busy ++ fin ++ l1 ++ l2)).
Proof using Hr. pose proof (r_nodup _ _ _ _ _ Hr) as Hnd. rewrite finish_perm, descs_cons in Hnd. exact Hnd. Qed.

Lemma finish_taken i : i ∈ [q0 q; q1 q; q2 q] -> i < NUM /\ k_free (v_disk s) i = false.
Proof using Hr.
  intros Hi. assert (Hin : i ∈ descs (pend ++ busy ++ fin ++ l1 ++ q :: l2)).
  { rewrite finish_perm, descs_cons. rewrite !elem_of_cons, elem_of_nil in *. tauto. }
  pose proof (r_range _ _ _ _ _ Hr i Hin) as Hrg. split; [lia|]. apply not_true_iff_false. intros Hf.
  apply (r_free _ _ _ _ _ Hr i Hrg) in Hf. contradiction.
Qed.

Lemma finish_run : k_lock (v_disk s) = true -> rw_finish (q0 q) s = Ret tt finished.
Proof using Hr.
  intros Hl. pose proof finish_nodup as Hnd. simpl in Hnd. rewrite !NoDup_cons, !elem_of_cons in Hnd.
  assert (T0 : q0 q ∈ [q0 q; q1 q; q2 q]) by (rewrite !elem_of_cons; auto). assert (T1 : q1 q ∈ [q0 q; q1 q; q2 q]) by (rewrite !elem_of_cons; auto).
  assert (T2 : q2 q ∈ [q0 q; q1 q; q2 q]) by (rewrite !elem_of_cons; auto).
  apply finish_taken in T0 as [B0 T0], T1 as [B1 T1], T2 as [B2 T2].
  destruct (r_laid _ _ _ _ _ Hr q) as (L0 & L1 & L2 & _); [rewrite finish_perm; apply elem_of_cons; auto|].
  assert (N01 : q1 q <> q0 q) by intuition. assert (N02 : q2 q <> q0 q) by intuition. assert (N12 : q2 q <> q1 q) by intuition.
  unfold rw_finish, on_disk. rewrite bind_modify. change (Z.to_nat NUM) with 8%nat. cbn [free_chain]. unfold get_disk.
  set (s1 := Vst (set_info_b (q0 q) 0 (v_disk s)) (v_bufs s) (v_regs s) (v_dev s)).
  assert (E0 : free_desc (q0 q) s1 = Ret tt (given (q0 q) s1)) by (apply free_desc_run; assumption).
  assert (E1 : free_desc (q1 q) (given (q0 q) s1) = Ret tt (given (q1 q) (given (q0 q) s1))).
  { apply free_desc_run; [assumption|]. simpl. rewrite upd_ne; assumption. }
  assert (E2 : free_desc (q2 q) (given (q1 q) (given (q0 q) s1)) = Ret tt (given (q2 q) (given (q1 q) (given (q0 q) s1)))).
  { apply free_desc_run; [assumption|]. simpl. rewrite !upd_ne; assumption. }
  erewrite bind_ret_l.
  2: { rewrite !bind_gets. erewrite bind_ret_l by exact E0. simpl (k_desc (v_disk s1) (q0 q)). rewrite L0. cbn [d_flags d_next Z.land Z.eqb negb].
       simpl (negb _). cbv iota. rewrite !bind_gets. simpl (k_desc (v_disk (given _ s1)) (q1 q)). rewrite upd_ne, L1 by exact N01. cbn [d_flags d_next].
       erewrite bind_ret_l by exact E1. replace (negb (Z.land (Z.lor (if q_write q then 0 else VRING_DESC_F_WRITE) VRING_DESC_F_NEXT) VRING_DESC_F_NEXT =? 0)) with true by (destruct (q_write q); reflexivity).
       rewrite !bind_gets. simpl (k_desc (v_disk (given _ (given _ s1))) (q2 q)). rewrite !upd_ne, L2 by assumption. cbn [d_flags d_next].
       erewrite bind_ret_l by exact E2. reflexivity. }
  unfold release. simpl. rewrite Hl. reflexivity.
Qed.

Lemma finish_wakes : wakes_le s finished /\ k_wakes (v_disk s) free_chan < k_wakes (v_disk finished) free_chan.
Proof using.
  split; [intros ch; simpl; cases_upd|]. simpl. rewrite !upd_eq. lia.
Qed.

Lemma finish_apart q' i : q' ∈ pend ++ busy ++ fin ++ l1 ++ l2 -> i ∈ [q0 q'; q1 q'; q2 q'] -> i <> q0 q /\ i <> q1 q /\ i <> q2 q.
Proof using Hr.
  intros Hq Hi. pose proof finish_nodup as Hnd. apply NoDup_app in Hnd as (_ & Hnd & _).
  destruct (descs_elem _ _ Hq) as (? & ? & ?).
  assert (Hin : i ∈ descs (pend ++ busy ++ fin ++ l1 ++ l2)) by (rewrite !elem_of_cons, elem_of_nil in Hi; intuition congruence).
  repeat split; intros ->; (eapply Hnd; [|exact Hin]); rewrite !elem_of_cons; auto.
Qed.

Lemma finish_ring : ring_ok finished pend busy fin (l1 ++ l2).
Proof using Hr.
  pose proof finish_nodup as Hnd. apply NoDup_app in Hnd as (_ & Hdis & Hnd).
  assert (Hsub : forall q', q' ∈ pend ++ busy ++ fin ++ l1 ++ l2 -> q' ∈ pend ++ busy ++ fin ++ l1 ++ q :: l2).
  { intros q' Hq. rewrite finish_perm. apply elem_of_cons. auto. }
  split; try apply Hr; try exact Hnd; simpl.
  - intros i Hi. apply (r_range _ _ _ _ _ Hr). rewrite finish_perm, descs_cons, !elem_of_cons. auto.
  - intros i Hi. pose proof (r_free _ _ _ _ _ Hr i Hi) as Hf. rewrite finish_perm, descs_cons, !elem_of_cons in Hf.
    assert (Hd : i = q0 q \/ i = q1 q \/ i = q2 q -> i ∉ descs (pend ++ busy ++ fin ++ l1 ++ l2)).
    { intros Hq. apply Hdis. rewrite !elem_of_cons. tauto. }
    unfold upd. destruct (Z.eqb_spec i (q2 q)), (Z.eqb_spec i (q1 q)), (Z.eqb_spec i (q0 q)); intuition.
  - intros q' Hq. eapply laid_fresh; [..|apply (r_laid _ _ _ _ _ Hr), Hsub, Hq]; simpl.
    + intros i Hi. destruct (finish_apart q' i Hq Hi) as (? & ? & ?). rewrite !upd_ne by assumption. reflexivity.
    + reflexivity.
    + destruct (finish_apart q' (q0 q') Hq) as (? & ? & ?); [rewrite !elem_of_cons; auto|]. rewrite upd_ne by assumption. reflexivity.
  - pose proof (r_bufs _ _ _ _ _ Hr) as Hb. rewrite finish_perm in Hb. apply NoDup_cons in Hb. apply Hb.
  - intros q' Hq. apply (r_status _ _ _ _ _ Hr). revert Hq. rewrite !elem_of_app, elem_of_cons. tauto.
  - intros q' Hq. apply (r_done _ _ _ _ _ Hr). revert Hq. rewrite !elem_of_app, elem_of_cons. tauto.
Qed.
End Finish.

(** The contents of the buffers are the same. *)
Definition same_data s s' : Prop :=
  forall b, vb_blockno (v_bufs s' b) = vb_blockno (v_bufs s b) /\ vb_data (v_bufs s' b) = vb_data (v_bufs s b).

Definition noticed (q : req) s : st :=
  let bf := v_bufs s (q_buf q) in
  Vst (set_used_idx (u16 (k_used_idx (v_disk s) + 1)) (add_wake (q_buf q) (v_disk s)))
      (upd (v_bufs s) (q_buf q) (Vbuf 0 (vb_blockno bf) (vb_data bf))) (v_regs s) (v_dev s).

Lemma notice_perm (pend busy fin seen : list req) q :
  pend ++ busy ++ (q :: fin) ++ seen ≡ₚ pend ++ busy ++ fin ++ seen ++ [q].
Proof. solve_Permutation. Qed.

Lemma notice_ring s pend busy q fin seen : ring_ok s pend busy (q :: fin) seen -> ring_ok (noticed q s) pend busy fin (seen ++ [q]).
Proof.
  intros Hr. pose proof (r_bufs _ _ _ _ _ Hr) as Hb.
  assert (Hp : pend ++ busy ++ (q :: fin) ++ seen ≡ₚ q :: pend ++ busy ++ fin ++ seen) by solve_Permutation.
  rewrite Hp in Hb. apply NoDup_cons in Hb as [Hb _].
  assert (Hne : forall q', q' ∈ pend ++ busy ++ fin ++ seen -> q_buf q' <> q_buf q).
  { intros q' Hq E. apply Hb. rewrite <- E. apply list_elem_of_fmap_2, Hq. }
  assert (Hid := r_idx _ _ _ _ _ Hr). assert (Hu := r_used _ _ _ _ _ Hr). simpl in Hu.
  split; try apply Hr; simpl; rewrite <- ?notice_perm; try apply Hr.
  - intros i. rewrite <- notice_perm. apply Hr.
  - intros i. rewrite <- notice_perm. apply Hr.
  - intros q'. rewrite <- notice_perm. apply Hr.
  - split; wrap_lia.
  - rewrite Hu. wrap_lia.
  - intros j q' Hj. rewrite <- (r_used_ring _ _ _ _ _ Hr (S j) q' Hj). f_equal. rewrite <- Zplus_mod_idemp_l, u16_mod, Zplus_mod_idemp_l. f_equal. lia.
  - intros q' Hq. apply (r_status _ _ _ _ _ Hr). revert Hq. rewrite !elem_of_app, list_elem_of_singleton, elem_of_cons. tauto.
  - intros q' Hq. rewrite upd_ne; [apply (r_waiting _ _ _ _ _ Hr)|apply Hne]; revert Hq; rewrite !elem_of_app, ?elem_of_cons; tauto.
  - intros q'. rewrite elem_of_app, list_elem_of_singleton. intros [Hq| ->]; [|rewrite upd_eq; reflexivity].
    rewrite upd_ne; [apply (r_done _ _ _ _ _ Hr), Hq|apply Hne; rewrite !elem_of_app; tauto].
Qed.

(** The interrupt handler notices every completed request. *)
Lemma intr_loop_run fuel : forall s pend busy fin seen, ring_ok s pend busy fin seen ->
  intr_loop fuel s = NoFuel /\ (fuel <= length fin)%nat \/
  exists s', intr_loop fuel s = Ret tt s' /\ ring_ok s' pend busy [] (seen ++ fin) /\ k_lock (v_disk s') = k_lock (v_disk s) /\
    v_dev s' = v_dev s /\ same_data s s' /\ v_regs s' = v_regs s /\ wakes_le s s' /\ (forall q, q ∈ fin -> woken s (q_buf q) s').
Proof.
  induction fuel as [|fuel IH]; intros s pend busy fin seen Hr; [left; split; [reflexivity|lia]|].
  cbn [intr_loop]. unfold get_disk. rewrite bind_gets. pose proof (r_idx _ _ _ _ _ Hr) as Hid. pose proof (r_used _ _ _ _ _ Hr) as Hu.
  assert (Hlen := few_requests _ _ _ _ _ Hr). rewrite !length_app in Hlen. destruct fin as [|q fin].
  - right. exists s. replace (k_used_idx (v_disk s) =? k_dev_idx (v_disk s)) with true by (simpl in Hu; wrap_lia).
    rewrite app_nil_r. split; [reflexivity|]. split; [exact Hr|]. split; [reflexivity|]. split; [reflexivity|]. split; [intros b; auto|].
    split; [reflexivity|]. split; [apply wakes_refl|]. intros q Hq. apply elem_of_nil in Hq. contradiction.
  - replace (k_used_idx (v_disk s) =? k_dev_idx (v_disk s)) with false by (simpl in Hu, Hlen; wrap_lia).
    pose proof (r_used_ring _ _ _ _ _ Hr 0%nat q eq_refl) as Eq. rewrite Z.add_0_r in Eq. rewrite Eq.
    rewrite (r_status _ _ _ _ _ Hr q) by (apply elem_of_app; left; apply elem_of_cons; auto).
    destruct (r_laid _ _ _ _ _ Hr q) as (_ & _ & _ & _ & Lb); [rewrite !elem_of_app, elem_of_cons; auto|].
    cbn [Z.eqb negb]. rewrite Lb.
    assert (Es : (set_bdisk (q_buf q) 0 ;; wakeup (q_buf q) ;; on_disk (set_used_idx (u16 (k_used_idx (v_disk s) + 1))) ;; intr_loop fuel) s =
      intr_loop fuel (noticed q s)) by reflexivity. rewrite Es.
    destruct (IH _ _ _ _ _ (notice_ring _ _ _ _ _ _ Hr)) as [[En Hn]|(s' & E & R' & L' & V' & D' & G' & W' & K')].
    + left. split; [exact En|simpl; lia].
    + right. exists s'. split; [exact E|]. rewrite <- app_assoc in R'. split; [exact R'|]. split; [exact L'|]. split; [exact V'|].
      assert (Wq : wakes_le s (noticed q s)) by (intros ch; simpl; cases_upd).
      split; [intros b; destruct (D' b) as [-> ->]; simpl; unfold upd; destruct (Z.eqb_spec b (q_buf q)) as [->|]; auto|].
      split; [rewrite G'; reflexivity|]. split; [eapply wakes_trans; eassumption|].
      assert (Wk : woken s (q_buf q) (noticed q s)) by (unfold woken; simpl; rewrite upd_eq; lia).
      intros q' [->|Hq']%elem_of_cons; [eapply woken_mono; eassumption|]. specialize (K' q' Hq'). unfold woken in *. specialize (Wq (q_buf q')). lia.
Qed.

(** The interrupt has been acknowledged. *)
Definition acked (d d' : D) : Prop := exists x d1, rd32 (VIRTIO0 + VIRTIO_MMIO_INTERRUPT_STATUS) d = Ret x d1 /\
  wr32 (VIRTIO0 + VIRTIO_MMIO_INTERRUPT_ACK) (Z.land x 3) d1 = Ret tt d'.

Lemma intr_run fuel s pend busy fin seen : ring_ok s pend busy fin seen -> k_lock (v_disk s) = false ->
  virtio_disk_intr fuel s = NoFuel /\ (fuel <= length fin)%nat \/
  exists s', virtio_disk_intr fuel s = Ret tt s' /\ ring_ok s' pend busy [] (seen ++ fin) /\ k_lock (v_disk s') = false /\
    v_dev s' = v_dev s /\ same_data s s' /\ acked (v_regs s) (v_regs s') /\ wakes_le s s' /\ (forall q, q ∈ fin -> woken s (q_buf q) s').
Proof.
  intros Hr Hl. unfold virtio_disk_intr. set (s1 := set vdisk_lock true s).
  assert (E1 : acquire vdisk_lock s = Ret tt s1) by (unfold acquire; simpl; rewrite Hl; reflexivity).
  erewrite bind_ret_l by exact E1. destruct (rd32_ok (VIRTIO0 + VIRTIO_MMIO_INTERRUPT_STATUS) (v_regs s1)) as (x & d1 & Ed & _ & _).
  erewrite bind_ret_l by (apply zoom_ret, Ed). set (s2 := set vregs d1 s1).
  destruct (wr32_ok (VIRTIO0 + VIRTIO_MMIO_INTERRUPT_ACK) (Z.land x 3) (v_regs s2)) as (d2 & Ew & _).
  erewrite bind_ret_l by (apply zoom_ret, Ew). set (s3 := set vregs d2 s2).
  assert (R3 : ring_ok s3 pend busy fin seen) by (destruct Hr; split; assumption).
  destruct (intr_loop_run fuel s3 _ _ _ _ R3) as [[En Hn]|(s' & E & R' & L' & V' & D' & G' & W' & K')].
  - left. split; [|exact Hn]. unfold bind. rewrite En. reflexivity.
  - right. exists (set vdisk_lock false s'). split; [erewrite bind_ret_l by exact E; unfold release; simpl; rewrite L'; reflexivity|].
    split; [apply ring_lock, R'|]. split; [reflexivity|]. split; [exact V'|]. split; [exact D'|]. split; [|split; [exact W'|exact K']].
    exists x, d1. split; [exact Ed|]. change (v_regs (set vdisk_lock false s')) with (v_regs s'). rewrite G'. exact Ew.
Qed.

(** ** The device's steps *)

Lemma fetch_ring s s1 pend busy fin seen : ring_ok s pend busy fin seen -> dev_fetch s = Some s1 ->
  exists q pend', pend = q :: pend' /\ ring_ok s1 pend' (busy ++ [q]) fin seen /\ v_bufs s1 = v_bufs s /\
    k_lock (v_disk s1) = k_lock (v_disk s) /\ dv_bytes (v_dev s1) = dv_bytes (v_dev s) /\ k_wakes (v_disk s1) = k_wakes (v_disk s).
Proof.
  intros Hr E. unfold dev_fetch in E. destruct (Z.eqb_spec (dv_last (v_dev s)) (k_avail_idx (v_disk s))) as [|Hne]; [discriminate|].
  injection E as <-. pose proof (r_avail _ _ _ _ _ Hr) as Ha. pose proof (r_last _ _ _ _ _ Hr) as Hlast.
  destruct pend as [|q pend]; [exfalso; simpl in Ha; apply Hne; wrap_lia|]. exists q, pend. split; [reflexivity|].
  split; [|repeat split]. assert (Hp : forall l, (q :: pend) ++ busy ++ l ≡ₚ pend ++ (busy ++ [q]) ++ l) by (intros; solve_Permutation).
  pose proof (r_avail_ring _ _ _ _ _ Hr 0%nat q eq_refl) as Eq. rewrite Z.add_0_r in Eq.
  split; simpl; rewrite <- ?Hp; try apply Hr.
  - intros i. rewrite <- Hp. apply Hr.
  - intros i. rewrite <- Hp. apply Hr.
  - intros q'. rewrite <- Hp. apply Hr.
  - split; wrap_lia.
  - rewrite Ha. cbn [length]. wrap_lia.
  - intros j q' Hj. rewrite <- (r_avail_ring _ _ _ _ _ Hr (S j) q' Hj). f_equal.
    rewrite <- Zplus_mod_idemp_l, u16_mod, Zplus_mod_idemp_l. f_equal. lia.
  - rewrite fmap_app, (r_busy _ _ _ _ _ Hr), Eq. reflexivity.
  - intros q' Hq. apply (r_waiting _ _ _ _ _ Hr). rewrite Hp. exact Hq.
Qed.

(** What completing [q] changes. *)
Definition transferred (q : req) s s1 : Prop :=
  (forall b, vb_disk (v_bufs s1 b) = vb_disk (v_bufs s b) /\ vb_blockno (v_bufs s1 b) = vb_blockno (v_bufs s b)) /\
  (forall b, b <> q_buf q -> vb_data (v_bufs s1 b) = vb_data (v_bufs s b)) /\
  (forall a, ~ q_block q * BSIZE <= a < q_block q * BSIZE + BSIZE -> dv_bytes (v_dev s1) a = dv_bytes (v_dev s) a) /\
  (forall i, 0 <= i < BSIZE ->
     let x := if q_write q then vb_data (v_bufs s (q_buf q)) i else dv_bytes (v_dev s) (q_block q * BSIZE + i) in
     vb_data (v_bufs s1 (q_buf q)) i = x /\ dv_bytes (v_dev s1) (q_block q * BSIZE + i) = x).

(** Where the bytes of a block are. *)
Lemma sector_start blk i : blk * 2 * 512 + i = blk * BSIZE + i.
Proof. unfold BSIZE. lia. Qed.

Lemma transfer_ok s q o bytes bufs : laid_out (v_disk s) q ->
  dev_transfer s (k_ops (v_disk s) (q0 q)) (k_desc (v_disk s) (q1 q)) = Some (bytes, bufs) ->
  transferred q s (Vst o bufs (v_regs s) (Vdev (dv_last (v_dev s)) (dv_busy (v_dev s)) bytes)).
Proof.
  intros (_ & L1 & _ & L3 & _) E. rewrite L1, L3 in E. unfold dev_transfer in E. cbn [d_addr d_len d_flags op_type op_sector] in E.
  assert (Es : q_block q * 2 * 512 = q_block q * BSIZE) by (unfold BSIZE; lia). rewrite Es in E.
  destruct (q_write q) eqn:Ew; cbn in E; injection E as <- <-; split_and!; simpl; rewrite ?Ew.
  - auto.
  - auto.
  - intros a Ha. replace ((q_block q * BSIZE <=? a) && (a <? q_block q * BSIZE + BSIZE)) with false by lia. reflexivity.
  - intros i Hi. split; [reflexivity|].
    replace ((q_block q * BSIZE <=? q_block q * BSIZE + i) && (q_block q * BSIZE + i <? q_block q * BSIZE + BSIZE)) with true by lia.
    f_equal. lia.
  - intros b. unfold upd. destruct (Z.eqb_spec b (q_buf q)) as [->|]; auto.
  - intros b Hb. rewrite upd_ne by exact Hb. reflexivity.
  - auto.
  - intros i Hi. rewrite upd_eq. simpl. replace ((0 <=? i) && (i <? BSIZE)) with true by lia. auto.
Qed.

Lemma complete_perm (pend busy busy' l l' : list req) q : busy ≡ₚ q :: busy' ->
  pend ++ busy ++ l ++ l' ≡ₚ pend ++ busy' ++ (l ++ [q]) ++ l'.
Proof. intros ->. solve_Permutation. Qed.

Lemma complete_ring j s s1 pend busy fin seen : ring_ok s pend busy fin seen -> dev_complete j s = Some s1 ->
  exists q, busy !! j = Some q /\ ring_ok s1 pend (delete j busy) (fin ++ [q]) seen /\ transferred q s s1 /\
    k_lock (v_disk s1) = k_lock (v_disk s) /\ k_wakes (v_disk s1) = k_wakes (v_disk s).
Proof.
  intros Hr E. unfold dev_complete in E. destruct (dv_busy (v_dev s) !! j) as [h|] eqn:Ej; [|discriminate]. simpl in E.
  rewrite (r_busy _ _ _ _ _ Hr), list_lookup_fmap in Ej. destruct (busy !! j) as [q|] eqn:Eq; [|discriminate]. injection Ej as <-.
  exists q. split; [reflexivity|]. assert (Hb : busy ≡ₚ q :: delete j busy) by (apply delete_Permutation, Eq).
  assert (Hp : forall l l', pend ++ busy ++ l ++ l' ≡ₚ pend ++ delete j busy ++ (l ++ [q]) ++ l').
  { intros l l'. rewrite (complete_perm pend busy (delete j busy) l l' q Hb). reflexivity. }
  assert (Hl : laid_out (v_disk s) q).
  { apply (r_laid _ _ _ _ _ Hr). rewrite !elem_of_app. right. left. apply (list_elem_of_lookup_2 _ _ _ Eq). }
  pose proof Hl as (L0 & L1 & L2 & L3 & L4). rewrite L0 in E. cbn [d_addr d_next] in E. rewrite L1 in E. cbn [d_next] in E. rewrite L2 in E.
  cbn [d_addr] in E. rewrite <- L1 in E. destruct (dev_transfer s (k_ops (v_disk s) (q0 q)) (k_desc (v_disk s) (q1 q))) as [[bytes bufs]|] eqn:Et; [|discriminate].
  simpl in E. injection E as <-. pose proof (transfer_ok s q (v_disk s) bytes bufs Hl Et) as Ht.
  assert (Hlen := few_requests _ _ _ _ _ Hr). rewrite !length_app in Hlen.
  split; [|split; [exact Ht|split; reflexivity]]. destruct Ht as (Ht & _). simpl in Ht.
  split; simpl; rewrite <- ?Hp; try apply Hr.
  - intros i. rewrite <- Hp. apply Hr.
  - intros i. rewrite <- Hp. apply Hr.
  - intros q'. rewrite <- Hp. apply (r_laid _ _ _ _ _ Hr).
  - rewrite (r_busy _ _ _ _ _ Hr), list_fmap_delete. reflexivity.
  - rewrite (r_used _ _ _ _ _ Hr), length_app. simpl. wrap_lia.
  - rewrite (r_used _ _ _ _ _ Hr), u16_mod. intros i q' [Hi|[Hi1 Hi2]]%lookup_app_Some.
    + rewrite upd_ne; [apply Hr, Hi|]. apply lookup_lt_Some in Hi. apply ring_mod; unfold NUM; lia.
    + assert (Ei : i = length fin) by (apply lookup_lt_Some in Hi2; simpl in Hi2; lia). subst i. rewrite Nat.sub_diag in Hi2.
      injection Hi2 as <-. apply upd_eq.
  - intros q' Hq. unfold upd. destruct (Z.eqb_spec (q0 q') (q0 q)) as [|Hne]; [reflexivity|]. apply (r_status _ _ _ _ _ Hr).
    rewrite <- app_assoc, !elem_of_app, list_elem_of_singleton in Hq. rewrite elem_of_app. destruct Hq as [?|[->|?]]; [tauto|congruence|tauto].
  - intros q' Hq. rewrite (proj1 (Ht _)). apply (r_waiting _ _ _ _ _ Hr). revert Hq.
    rewrite !elem_of_app, list_elem_of_singleton, (elem_of_Permutation_proper q' _ _ Hb), elem_of_cons. tauto.
  - intros q' Hq. rewrite (proj1 (Ht _)). apply Hr, Hq.
Qed.

(** ** Threads and requests *)

Definition holds s (b blk : Z) (x y : block) : Prop :=
  vb_blockno (v_bufs s b) = blk /\
  forall i, 0 <= i < BSIZE -> vb_data (v_bufs s b) i = x i /\ dv_bytes (v_dev s) (blk * BSIZE + i) = y i.

(** A thread has no request yet, or one of its own, or has returned; [pre] are
    the requests still to be carried out, [post] the others. *)
Definition tinv s (pre post : list req) (t : thread) : Prop :=
  0 <= t_block t < 2 ^ 31 /\
  match t_run t with
  | Ret _ _ => holds s (t_buf t) (t_block t) (t_result t) (t_result t) /\ (forall q, q ∈ pre ++ post -> q_buf q <> t_buf t)
  | Sleep _ _ k =>
      holds s (t_buf t) (t_block t) (t_data t) (t_old t) /\ (forall q, q ∈ pre ++ post -> q_buf q <> t_buf t) /\
        (exists n m, desc_wait n m (t_buf t) (t_write t) (t_block t * 2) k) \/
      (exists q n, q_buf q = t_buf t /\ q_block q = t_block t /\ q_write q = t_write t /\ io_wait n (t_buf t) (q0 q) k /\
        (q ∈ pre /\ holds s (t_buf t) (t_block t) (t_data t) (t_old t) \/
         q ∈ post /\ holds s (t_buf t) (t_block t) (t_result t) (t_result t)))
  | _ => False
  end.

Record cinv s (ts : list thread) (pend busy fin seen : list req) : Prop := {
  ci_lock : k_lock (v_disk s) = false;
  ci_ring : ring_ok s pend busy fin seen;
  ci_bufs : NoDup (t_buf <$> ts);
  ci_blocks : NoDup (t_block <$> ts);
  ci_thr : forall t, t ∈ ts -> tinv s (pend ++ busy) (fin ++ seen) t;
  ci_req : forall q, q ∈ pend ++ busy ++ fin ++ seen ->
    exists t, t ∈ ts /\ q_buf q = t_buf t /\ q_block q = t_block t /\ q_write q = t_write t
}.

(** Only what is in its buffer and block, and requests for its buffer, matter to
    a thread. *)
Lemma tinv_frame s s' pre post pre' post' t :
  (forall x y, holds s (t_buf t) (t_block t) x y -> holds s' (t_buf t) (t_block t) x y) ->
  (forall q, q_buf q = t_buf t -> (q ∈ pre' <-> q ∈ pre) /\ (q ∈ post' <-> q ∈ post)) ->
  tinv s pre post t -> tinv s' pre' post' t.
Proof.
  intros Hh Hq [Hb Ht]. split; [exact Hb|].
  assert (Hn : (forall q, q ∈ pre ++ post -> q_buf q <> t_buf t) -> forall q, q ∈ pre' ++ post' -> q_buf q <> t_buf t).
  { intros H q Hin E. apply (H q); [|exact E]. destruct (Hq q E). rewrite elem_of_app in *. tauto. }
  destruct (t_run t); try exact Ht; [destruct Ht as [Ht Hnq]; split; auto|].
  destruct Ht as [(Ht & Hnq & Hk)|(q & n & E1 & E2 & E3 & Hk & Ht)]; [left; auto|right].
  exists q, n. do 4 (split; [assumption|]). destruct (Hq q E1) as [H1 H2].
  destruct Ht as [[Hin Ht]|[Hin Ht]]; [left|right]; (split; [tauto|auto]).
Qed.

Lemma holds_same s s' b blk x y : same_data s s' -> dv_bytes (v_dev s') = dv_bytes (v_dev s) -> holds s b blk x y -> holds s' b blk x y.
Proof. intros Hd Hv [H1 H2]. destruct (Hd b) as [E1 E2]. unfold holds. rewrite E1, E2, Hv. auto. Qed.

Lemma upd_vbuf_same s s' b x : v_bufs s' = upd (v_bufs s) b (Vbuf x (vb_blockno (v_bufs s b)) (vb_data (v_bufs s b))) -> same_data s s'.
Proof. intros E b'. rewrite E. unfold upd. destruct (Z.eqb_spec b' b) as [->|]; auto. Qed.

Lemma cinv_perm s ts ts' pend busy fin seen : ts ≡ₚ ts' -> cinv s ts pend busy fin seen -> cinv s ts' pend busy fin seen.
Proof.
  intros Hp [Hl Hr Hb Hk Ht Hq]. split; auto; rewrite <- ?Hp; auto.
  - intros t. rewrite <- Hp. apply Ht.
  - intros q Hin. destruct (Hq q Hin) as (t & Hin' & E). exists t. rewrite <- Hp. auto.
Qed.

(** The thread waits for descriptors, or it has handed its request to the
    device and waits for that. *)
Definition waits (n m : nat) (b blk : Z) (w : bool) s s' (pend pend' rest : list req) (c : Z) (k : st -> res st unit) : Prop :=
  pend' = pend /\ c = free_chan /\ (exists n', n = S n' /\ desc_wait n' m b w (blk * 2) k) /\
    (2 <= length (pend ++ rest))%nat /\ v_regs s' = v_regs s \/
  exists q n', pend' = pend ++ [q] /\ q_buf q = b /\ c = b /\ m = S n' /\ io_wait n' b (q0 q) k /\ told (v_regs s) (v_regs s') /\ v_dev s' = v_dev s.

(** A thread that goes for descriptors. *)
Lemma alloc_cinv n m s ts pend busy fin seen b blk w data old r : k_lock (v_disk s) = true -> ring_ok s pend busy fin seen ->
  NoDup (b :: (t_buf <$> ts)) -> NoDup (blk :: (t_block <$> ts)) -> 0 <= blk < 2 ^ 31 -> holds s b blk data old ->
  (forall t, t ∈ ts -> tinv s (pend ++ busy) (fin ++ seen) t) ->
  (forall q, q ∈ pend ++ busy ++ fin ++ seen -> exists t, t ∈ ts /\ q_buf q = t_buf t /\ q_block q = t_block t /\ q_write q = t_write t) ->
  (let! idx := alloc_wait n in rw_rest m b w (blk * 2) idx) s = r -> (n = O \/ m = O -> r <> NoFuel) ->
  exists c s' k pend', r = Sleep c s' k /\ cinv s' (Thread b blk w data old r :: ts) pend' busy fin seen /\ wakes_le s s' /\
    waits n m b blk w s s' pend pend' (busy ++ fin ++ seen) c k.
Proof.
  intros Hl Hr Hb Hk Hrg Hh Ht Hq E Hf.
  assert (Hqb : forall q, q ∈ pend ++ busy ++ fin ++ seen -> q_buf q <> b).
  { intros q Hin. destruct (Hq q Hin) as (t & Hin' & E1 & _). apply NoDup_cons in Hb as [Hb _]. intros Eb. apply Hb.
    rewrite <- Eb, E1. apply list_elem_of_fmap_2, Hin'. }
  destruct (alloc_phase n m b blk w s _ _ _ _ r Hl Hr Hqb E Hf) 
    as (c & s' & k & -> & Hl' & Hv & Hw & [(-> & Hbf & Hrg' & Hr' & (n' & -> & Hk') & Hsc)|(i0 & i1 & i2 & n' & -> & -> & Hbf & Htl & Hr' & Hk')]).
  - exists free_chan, s', k, pend. split; [reflexivity|].
    split; [|split; [exact Hw|left; pose proof (scarce_two _ _ _ _ _ Hr Hsc); eauto 8]].
    assert (Hs : forall b blk x y, holds s b blk x y -> holds s' b blk x y).
    { intros *. apply holds_same; [intros b'; rewrite Hbf; auto|rewrite Hv; reflexivity]. }
    split; auto.
    + intros t [->|Hin]%elem_of_cons; [|apply (tinv_frame s s' (pend ++ busy) (fin ++ seen)); [apply Hs|tauto|auto]].
      split; [exact Hrg|]. left. simpl. split; [auto|]. split; [|eauto]. intros q. rewrite <- app_assoc. apply Hqb.
    + intros q Hin. destruct (Hq q Hin) as (t & ? & ?). exists t. rewrite elem_of_cons. auto.
  - exists b, s', k, (pend ++ [Req i0 i1 i2 b blk w]). split; [reflexivity|].
    split; [|split; [exact Hw|right; exists (Req i0 i1 i2 b blk w), n'; auto 9]].
    assert (Hs : forall b blk x y, holds s b blk x y -> holds s' b blk x y).
    { intros *. apply holds_same; [apply (upd_vbuf_same _ _ _ _ Hbf)|rewrite Hv; reflexivity]. }
    split; auto.
    + intros t [->|Hin]%elem_of_cons.
      * split; [exact Hrg|]. right. exists (Req i0 i1 i2 b blk w), n'. simpl. do 4 (split; [auto|]). left. split; [|auto].
        rewrite !elem_of_app, list_elem_of_singleton. auto.
      * apply (tinv_frame s s' (pend ++ busy) (fin ++ seen)); [apply Hs| |auto]. intros q Eq. split; [|reflexivity].
        rewrite <- app_assoc, !elem_of_app, list_elem_of_singleton. split; [|tauto]. intros [?|[->|?]]; [tauto| |tauto]. exfalso. simpl in Eq.
        apply NoDup_cons in Hb as [Hb _]. apply Hb. rewrite Eq. apply list_elem_of_fmap_2, Hin.
    + intros q. rewrite perm_snoc. intros [->|Hin]%elem_of_cons.
      * eexists. split; [apply list_elem_of_here|]. auto.
      * destruct (Hq q Hin) as (t & ? & ?). exists t. rewrite elem_of_cons. auto.
Qed.

Definition with_run (r : res st unit) (t : thread) : thread :=
  Thread (t_buf t) (t_block t) (t_write t) (t_data t) (t_old t) r.

Lemma acquire_klock s : k_lock (v_disk s) = false -> acquire vdisk_lock s = Ret tt (set vdisk_lock true s).
Proof. intros Hl. unfold acquire. simpl. rewrite Hl. reflexivity. Qed.

Lemma relock s : k_lock (v_disk s) = false -> set vdisk_lock false (set vdisk_lock true s) = s.
Proof. destruct s as [[] ? ? ?]. simpl. intros ->. reflexivity. Qed.

(** One's own request is gone, the others are not concerned. *)
Lemma finish_cinv s t ts pend busy fin l1 l2 q : cinv s (t :: ts) pend busy fin (l1 ++ q :: l2) ->
  q_buf q = t_buf t -> q_block q = t_block t -> q_write q = t_write t -> holds s (t_buf t) (t_block t) (t_result t) (t_result t) ->
  exists s', rw_finish (q0 q) (set vdisk_lock true s) = Ret tt s' /\ cinv s' (with_run (Ret tt s') t :: ts) pend busy fin (l1 ++ l2) /\
    wakes_le s s' /\ woken s free_chan s' /\ v_regs s' = v_regs s /\ v_dev s' = v_dev s.
Proof.
  intros [Hl Hr Hb Hk Ht Hq] E1 E2 E3 Hh. set (s1 := set vdisk_lock true s).
  assert (R1 : ring_ok s1 pend busy fin (l1 ++ q :: l2)) by (apply ring_lock, Hr).
  exists (finished s1 q). split; [apply (finish_run _ _ _ _ _ _ _ R1); reflexivity|].
  split; [|destruct (finish_wakes s1 q); split; [assumption|split; [assumption|split; reflexivity]]].
  pose proof (r_bufs _ _ _ _ _ Hr) as Hqb. rewrite finish_perm in Hqb. apply NoDup_cons in Hqb as [Hqb _].
  assert (Hne : forall q', q' ∈ pend ++ busy ++ fin ++ l1 ++ l2 -> q_buf q' <> t_buf t).
  { intros q' Hin Eq. apply Hqb. rewrite E1, <- Eq. apply list_elem_of_fmap_2, Hin. }
  split; auto.
  - apply (finish_ring s1 pend busy fin l1 l2 q R1).
  - intros t' [->|Hin]%elem_of_cons.
    + split; [apply (Ht t), list_elem_of_here|]. split; [exact Hh|]. intros q'. rewrite <- app_assoc. apply Hne.
    + apply (tinv_frame s (finished s1 q) (pend ++ busy) (fin ++ l1 ++ q :: l2)); [auto| |apply Ht, elem_of_cons; auto].
      intros q' Eq. split; [reflexivity|]. rewrite !elem_of_app, elem_of_cons. split; [tauto|]. intros [?|[?|[->|?]]]; try tauto.
      exfalso. simpl in Hb. apply NoDup_cons in Hb as [Hb _]. apply Hb. rewrite <- E1, Eq. apply list_elem_of_fmap_2, Hin.
  - intros q' Hin. destruct (Hq q') as (t' & [->|Hin']%elem_of_cons & E).
    + rewrite finish_perm. apply elem_of_cons. auto.
    + destruct E as [E _]. exfalso. apply (Hne q' Hin), E.
    + exists t'. split; [apply elem_of_cons; auto|exact E].
Qed.

Lemma io_cinv n s t ts pend busy fin seen q k r : cinv s (t :: ts) pend busy fin seen -> io_wait n (t_buf t) (q0 q) k ->
  q_buf q = t_buf t -> q_block q = t_block t -> q_write q = t_write t -> q ∈ pend ++ busy ++ fin ++ seen ->
  (q ∈ pend ++ busy /\ holds s (t_buf t) (t_block t) (t_data t) (t_old t) \/
   q ∈ fin ++ seen /\ holds s (t_buf t) (t_block t) (t_result t) (t_result t)) ->
  k s = r -> (n = O -> r <> NoFuel) ->
  (exists s' l1 l2, seen = l1 ++ q :: l2 /\ r = Ret tt s' /\ cinv s' (with_run r t :: ts) pend busy fin (l1 ++ l2) /\
     wakes_le s s' /\ woken s free_chan s' /\ v_regs s' = v_regs s /\ v_dev s' = v_dev s) \/
  (exists k' n', (q ∉ seen) /\ n = S n' /\ r = Sleep (t_buf t) s k' /\ io_wait n' (t_buf t) (q0 q) k' /\
     cinv s (with_run r t :: ts) pend busy fin seen).
Proof.
  intros Hc Hk E1 E2 E3 Hin Hph Er Hf. rewrite (Hk s) in Er. pose proof Hc as [Hl Hr Hb Hbk Ht Hq].
  unfold bind at 1 2 in Er. rewrite (acquire_klock s Hl) in Er. cbn [bindr] in Er. set (s1 := set vdisk_lock true s) in *.
  destruct n as [|n]; [exfalso; apply Hf; [reflexivity|]; symmetry; exact Er|]. cbn [rw_wait] in Er. rewrite bind_gets in Er.
  change (v_bufs s1 (t_buf t)) with (v_bufs s (t_buf t)) in Er. destruct (decide (q ∈ seen)) as [Hs|Hns].
  - rewrite <- E1 in Er. rewrite (r_done _ _ _ _ _ Hr q Hs) in Er. cbn [Z.eqb bindr] in Er. unfold ret in Er. cbn [bindr] in Er.
    apply list_elem_of_split in Hs as (l1 & l2 & ->).
    assert (Hh : holds s (t_buf t) (t_block t) (t_result t) (t_result t)).
    { destruct Hph as [[Hp _]|[_ Hh]]; [exfalso|exact Hh]. pose proof (r_nodup _ _ _ _ _ Hr) as Hnd.
      rewrite app_assoc, descs_app in Hnd. apply NoDup_app in Hnd as (_ & Hnd & _). apply (Hnd (q0 q)); apply descs_elem; [exact Hp|].
      rewrite !elem_of_app, elem_of_cons. auto. }
    destruct (finish_cinv s t ts _ _ _ _ _ q Hc E1 E2 E3 Hh) as (s' & Ef & Hc' & Hw).
    fold s1 in Ef. rewrite Ef in Er. subst r. left. exists s', l1, l2. auto.
  - rewrite <- E1 in Er. rewrite (r_waiting _ _ _ _ _ Hr q) in Er by (revert Hin; rewrite !elem_of_app; tauto).
    simpl (1 =? 1) in Er. cbv iota in Er. unfold bind, sleep in Er. simpl in Er. 
    change (Vst (set_klock false (set_klock true (v_disk s))) (v_bufs s) (v_regs s) (v_dev s)) with (set vdisk_lock false s1) in Er.
    unfold s1 in Er. rewrite relock in Er by exact Hl. rewrite E1 in Er. subst r. right. eexists _, n. split; [exact Hns|].
    split; [reflexivity|]. split; [reflexivity|]. split; [intros s'; reflexivity|]. split; auto.
    + intros t' [->|Hin']%elem_of_cons; [|apply Ht, elem_of_cons; auto]. split; [apply (Ht t), list_elem_of_here|].
      right. exists q, n. cbn [with_run t_buf t_block t_write t_data t_old]. do 3 (split; [assumption|]). split; [|exact Hph].
      intros s'. reflexivity.
    + intros q' Hin'. destruct (Hq q' Hin') as (t' & [->|Ht']%elem_of_cons & E).
      * eexists. split; [apply list_elem_of_here|exact E].
      * exists t'. split; [apply elem_of_cons; auto|exact E].
Qed.

(** Steps that carry out no transfer. *)
Lemma cinv_move s s' ts pend busy fin seen pend' busy' fin' seen' : cinv s ts pend busy fin seen ->
  k_lock (v_disk s') = k_lock (v_disk s) -> ring_ok s' pend' busy' fin' seen' ->
  (forall t x y, t ∈ ts -> holds s (t_buf t) (t_block t) x y -> holds s' (t_buf t) (t_block t) x y) ->
  pend' ++ busy' ≡ₚ pend ++ busy -> fin' ++ seen' ≡ₚ fin ++ seen -> cinv s' ts pend' busy' fin' seen'.
Proof.
  intros [Hl Hr Hb Hk Ht Hq] Hl' Hr' Hh Hp1 Hp2. split; auto; [congruence|..].
  - intros t Hin. apply (tinv_frame s s' (pend ++ busy) (fin ++ seen)); [eauto|intros q _; rewrite Hp1, Hp2; tauto|auto].
  - intros q Hin. apply Hq. revert Hin. rewrite !app_assoc, <- !(app_assoc _ fin), <- !(app_assoc _ fin'). rewrite Hp1, Hp2. auto.
Qed.

Lemma NoDup_fmap_elem {A B} (f : A -> B) (l : list A) x y : NoDup (f <$> l) -> x ∈ l -> y ∈ l -> f x = f y -> x = y.
Proof.
  intros Hnd [i Hi]%list_elem_of_lookup [j Hj]%list_elem_of_lookup E. assert (i = j) as ->; [|congruence].
  apply (NoDup_lookup _ _ _ (f x) Hnd); rewrite list_lookup_fmap, ?Hi, ?Hj; simpl; congruence.
Qed.

(** The thread whose request it is. *)
Lemma complete_own s s1 t pend busy busy' fin seen q : ring_ok s pend busy fin seen -> transferred q s s1 -> busy ≡ₚ q :: busy' ->
  q_buf q = t_buf t -> q_block q = t_block t -> q_write q = t_write t ->
  tinv s (pend ++ busy) (fin ++ seen) t -> tinv s1 (pend ++ busy') ((fin ++ [q]) ++ seen) t.
Proof.
  intros Hr (Tn & _ & _ & Tq) Hp E1 E2 E3 [Hrg Hrun]. split; [exact Hrg|].
  assert (Hqb : q ∈ busy) by (rewrite Hp; apply list_elem_of_here).
  assert (Hqa : q ∈ pend ++ busy ++ fin ++ seen) by (rewrite !elem_of_app; auto).
  assert (Hno : ~ forall q, q ∈ (pend ++ busy) ++ fin ++ seen -> q_buf q <> t_buf t).
  { intros Hno. apply (Hno q); [rewrite <- app_assoc; exact Hqa|exact E1]. }
  destruct (t_run t) as [u s0| | |c s0 k]; try exact Hrun; [tauto|].
  right. destruct Hrun as [(_ & Hno' & _)|(q' & n & F1 & F2 & F3 & Hio & Hph)]; [contradiction|].
  assert (q' = q) as ->.
  { apply (NoDup_fmap_elem q_buf _ _ _ (r_bufs _ _ _ _ _ Hr)); [rewrite !elem_of_app in *; tauto|exact Hqa|congruence]. }
  exists q, n. do 4 (split; [assumption|]). right. split; [rewrite !elem_of_app, list_elem_of_singleton; auto|].
  destruct Hph as [[_ [Hh1 Hh2]]|[Hpost _]].
  - split; [rewrite (proj2 (Tn _)); exact Hh1|]. intros i Hi. destruct (Tq i Hi) as [T1 T2]. destruct (Hh2 i Hi) as [G1 G2].
    rewrite <- E1, <- E2. rewrite T1, T2. unfold t_result. rewrite <- E3, E1, E2. destruct (q_write q); auto.
  - exfalso. pose proof (r_nodup _ _ _ _ _ Hr) as Hnd. rewrite app_assoc, descs_app in Hnd. apply NoDup_app in Hnd as (_ & Hnd & _).
    apply (Hnd (q0 q)); apply descs_elem; rewrite ?elem_of_app; rewrite ?elem_of_app in Hpost; auto.
Qed.

Lemma complete_cinv j s s1 ts pend busy fin seen : cinv s ts pend busy fin seen -> dev_complete j s = Some s1 ->
  exists q, busy !! j = Some q /\ cinv s1 ts pend (delete j busy) (fin ++ [q]) seen /\ k_wakes (v_disk s1) = k_wakes (v_disk s).
Proof.
  intros [Hl Hr Hb Hk Ht Hq] E. destruct (complete_ring j s s1 _ _ _ _ Hr E) as (q & Ej & Hr' & Htr & Hl' & Hw).
  exists q. split; [exact Ej|]. split; [|exact Hw]. assert (Hqin : q ∈ busy) by (apply (list_elem_of_lookup_2 _ _ _ Ej)).
  assert (Hp : busy ≡ₚ q :: delete j busy) by (apply delete_Permutation, Ej).
  destruct (Hq q) as (t0 & Hin0 & E1 & E2 & E3); [rewrite !elem_of_app; auto|].
  split; [congruence|exact Hr'|exact Hb|exact Hk| |].
  - intros t Hin. destruct (decide (t_buf t = q_buf q)) as [Et|Hne].
    + assert (t = t0) as -> by (apply (NoDup_fmap_elem t_buf _ _ _ Hb Hin Hin0); congruence).
      apply (complete_own s s1 t0 pend busy _ fin seen q); auto.
    + destruct Htr as (Tn & Td & Tb & Tq). apply (tinv_frame s s1 (pend ++ busy) (fin ++ seen)); [| |apply Ht, Hin].
      * intros x y [Hh1 Hh2]. split; [rewrite (proj2 (Tn _)); exact Hh1|]. intros i Hi. rewrite Td by exact Hne. rewrite Tb; [auto|].
        assert (t_block t <> q_block q); [|unfold BSIZE in *; lia]. intros Eb. apply Hne.
        assert (t = t0) as -> by (apply (NoDup_fmap_elem t_block _ _ _ Hk Hin Hin0); congruence). congruence.
      * intros q' Eq. rewrite !elem_of_app, list_elem_of_singleton, (elem_of_Permutation_proper q' _ _ Hp), elem_of_cons.
        assert (q' <> q) by congruence. tauto.
  - intros q' Hin. apply Hq. revert Hin. rewrite (complete_perm pend busy (delete j busy) fin seen q Hp). auto.
Qed.

(** ** Every step *)

Definition cok (c : config) : Prop :=
  c_panicked c = false /\ exists pend busy fin seen, cinv (c_st c) (c_threads c) pend busy fin seen.

Lemma cinv_tail s t ts pend busy fin seen : cinv s (t :: ts) pend busy fin seen -> (forall q, q ∈ pend ++ busy ++ fin ++ seen -> q_buf q <> t_buf t) ->
  cinv s ts pend busy fin seen.
Proof.
  intros [Hl Hr Hb Hk Ht Hq] Hno. simpl in Hb, Hk. apply NoDup_cons in Hb as [_ Hb], Hk as [_ Hk].
  split; auto; [intros t' Hin; apply Ht, elem_of_cons; auto|].
  intros q Hin. destruct (Hq q Hin) as (t' & [->|Hin']%elem_of_cons & E); [|eauto]. exfalso. apply (Hno q Hin), E.
Qed.

(** A call, up to the point where the thread waits. *)
Lemma call_cinv fuel b w s ts r pend busy fin seen : cinv s ts pend busy fin seen -> let blk := vb_blockno (v_bufs s b) in
  b ∉ (t_buf <$> ts) -> blk ∉ (t_block <$> ts) -> 0 <= blk < 2 ^ 31 -> virtio_disk_rw fuel b w s = r -> (fuel = O -> r <> NoFuel) ->
  exists c s' k pend', r = Sleep c s' k /\
    cinv s' (ts ++ [Thread b blk w (vb_data (v_bufs s b)) (block_on s blk) r]) pend' busy fin seen /\ wakes_le s s' /\
    waits fuel fuel b blk w s s' pend pend' (busy ++ fin ++ seen) c k.
Proof.
  intros Hc blk Hb Hk Hrg E Hf. pose proof Hc as [Hl Hr Hnb Hnk Ht Hq].
  unfold virtio_disk_rw in E. rewrite bind_gets in E. cbv zeta in E. fold blk in E.
  replace (u32 (blk * (BSIZE / 512))) with (blk * 2) in E by (change (BSIZE / 512) with 2; wrap_lia).
  erewrite bind_ret_l in E by (apply acquire_klock, Hl).
  destruct (alloc_cinv fuel fuel (set vdisk_lock true s) ts pend busy fin seen b blk w (vb_data (v_bufs s b)) (block_on s blk) r)
    as (c & s' & k & pend' & -> & Hc' & Hw); auto using ring_lock.
  - apply NoDup_cons. auto.
  - apply NoDup_cons. auto.
  - split; [reflexivity|]. intros i _. auto.
  - intros [H0|H0]; apply Hf, H0.
  - exists c, s', k, pend'. split; [reflexivity|]. split; [|exact Hw]. eapply cinv_perm; [apply Permutation_cons_append|exact Hc'].
Qed.

Lemma insert_delete_perm {A} (l : list A) i x y : l !! i = Some x -> <[i := y]> l ≡ₚ y :: delete i l.
Proof.
  intros H. rewrite insert_take_drop, delete_take_drop by (eapply lookup_lt_Some; eauto). symmetry. apply Permutation_middle.
Qed.

(** A thread that waited for descriptors goes on. *)
Lemma resume_desc n m s ts i t ch s0 k r pend busy fin seen : cinv s ts pend busy fin seen -> ts !! i = Some t -> t_run t = Sleep ch s0 k ->
  (forall q, q ∈ pend ++ busy ++ fin ++ seen -> q_buf q <> t_buf t) -> desc_wait n m (t_buf t) (t_write t) (t_block t * 2) k ->
  k s = r -> (n = O \/ m = O -> r <> NoFuel) ->
  exists c s' k' pend', r = Sleep c s' k' /\ cinv s' (<[i := with_run r t]> ts) pend' busy fin seen /\ wakes_le s s' /\
    waits n m (t_buf t) (t_block t) (t_write t) s s' pend pend' (busy ++ fin ++ seen) c k'.
Proof.
  intros Hc Hi Et Hno Hdw Er Hf.
  apply (cinv_perm _ _ _ _ _ _ _ (delete_Permutation ts i t Hi)) in Hc. pose proof Hc as [Hl Hr Hb Hk Ht Hq].
  assert (Hins := insert_delete_perm ts i t (with_run r t) Hi).
  destruct (Ht t (list_elem_of_here _ _)) as [Hrg Hrun]. rewrite Et in Hrun.
  destruct Hrun as [(Hh & _ & _)|(q & n' & E1 & _ & _ & _ & Hph)].
  2: { exfalso. apply (Hno q); [|exact E1]. destruct Hph as [[? _]|[? _]]; rewrite !elem_of_app in *; tauto. }
  rewrite (Hdw s) in Er. unfold bind at 1 2 in Er. rewrite (acquire_klock s Hl) in Er. cbn [bindr] in Er.
  destruct (cinv_tail _ _ _ _ _ _ _ Hc Hno) as [_ _ _ _ Ht' Hq'].
  destruct (alloc_cinv n m (set vdisk_lock true s) (delete i ts) pend busy fin seen (t_buf t) (t_block t) (t_write t) (t_data t) (t_old t) r)
    as (c & s' & k' & pend' & -> & Hc' & Hw); auto using ring_lock.
  exists c, s', k', pend'. split; [reflexivity|]. split; [|exact Hw]. eapply cinv_perm; [symmetry; exact Hins|exact Hc'].
Qed.

(** A thread that waited for its request goes on. *)
Lemma resume_io n s ts i t ch s0 k r q pend busy fin seen : cinv s ts pend busy fin seen -> ts !! i = Some t -> t_run t = Sleep ch s0 k ->
  q ∈ pend ++ busy ++ fin ++ seen -> q_buf q = t_buf t -> io_wait n (t_buf t) (q0 q) k -> k s = r -> (n = O -> r <> NoFuel) ->
  (exists s' l1 l2, seen = l1 ++ q :: l2 /\ r = Ret tt s' /\ cinv s' (<[i := with_run r t]> ts) pend busy fin (l1 ++ l2) /\
     wakes_le s s' /\ woken s free_chan s' /\ v_regs s' = v_regs s /\ v_dev s' = v_dev s) \/
  (exists k' n', (q ∉ seen) /\ n = S n' /\ r = Sleep (t_buf t) s k' /\ io_wait n' (t_buf t) (q0 q) k' /\
     cinv s (<[i := with_run r t]> ts) pend busy fin seen).
Proof.
  intros Hc Hi Et Hin E1 Hio Er Hf.
  apply (cinv_perm _ _ _ _ _ _ _ (delete_Permutation ts i t Hi)) in Hc. pose proof Hc as [Hl Hr Hb Hk Ht Hq].
  assert (Hins := insert_delete_perm ts i t (with_run r t) Hi).
  destruct (Ht t (list_elem_of_here _ _)) as [Hrg Hrun]. rewrite Et in Hrun.
  destruct Hrun as [(_ & Hno & _)|(q' & n' & F1 & F2 & F3 & _ & Hph)]; [exfalso; apply (Hno q); [rewrite <- app_assoc; exact Hin|exact E1]|].
  assert (q' = q) as ->.
  { apply (NoDup_fmap_elem q_buf _ _ _ (r_bufs _ _ _ _ _ Hr)); [|exact Hin|congruence].
    destruct Hph as [[? _]|[? _]]; rewrite !elem_of_app in *; tauto. }
  destruct (io_cinv n s t (delete i ts) pend busy fin seen q k r Hc Hio E1 F2 F3 Hin Hph Er Hf)
    as [(s' & l1 & l2 & Es & -> & Hc' & Hw)|(k' & n2 & Hns & -> & -> & Hk' & Hc')].
  - left. exists s', l1, l2. split; [exact Es|]. split; [reflexivity|]. split; [|exact Hw]. eapply cinv_perm; [symmetry; exact Hins|exact Hc'].
  - right. exists k', n2. do 3 (split; [auto|]). split; [exact Hk'|]. eapply cinv_perm; [symmetry; exact Hins|exact Hc'].
Qed.

Lemma resume_cinv s ts i t ch s0 k r : cok (Config s ts false) -> ts !! i = Some t -> t_run t = Sleep ch s0 k -> k s = r -> r <> NoFuel ->
  cok (continue r s (<[i := with_run r t]> ts)).
Proof.
  intros (_ & pend & busy & fin & seen & Hc) Hi Et Er Hf. cbn [c_st c_threads] in Hc.
  destruct (ci_thr _ _ _ _ _ _ Hc t (list_elem_of_lookup_2 _ _ _ Hi)) as [_ Hrun]. rewrite Et in Hrun.
  destruct Hrun as [(_ & Hno & n & m & Hdw)|(q & n & E1 & _ & _ & Hio & Hph)].
  - destruct (resume_desc n m s ts i t ch s0 k r pend busy fin seen) as (c & s' & k' & pend' & -> & Hc' & _); auto.
    { intros q. rewrite app_assoc. apply Hno. }
    split; [reflexivity|]. exists pend', busy, fin, seen. exact Hc'.
  - destruct (resume_io n s ts i t ch s0 k r q pend busy fin seen) as [(s' & l1 & l2 & _ & -> & Hc' & _)|(k' & n' & _ & _ & -> & _ & Hc')]; auto.
    { destruct Hph as [[? _]|[? _]]; rewrite !elem_of_app in *; tauto. }
    + split; [reflexivity|]. exists pend, busy, fin, (l1 ++ l2). exact Hc'.
    + split; [reflexivity|]. exists pend, busy, fin, seen. exact Hc'.
Qed.

(** The registers play no part. *)
Lemma cinv_regs s r ts pend busy fin seen : cinv s ts pend busy fin seen -> cinv (Vst (v_disk s) (v_bufs s) r (v_dev s)) ts pend busy fin seen.
Proof. intros [Hl Hr Hb Hk Ht Hq]. split; auto. destruct Hr; split; assumption. Qed.

Lemma fetch_cinv s s1 ts pend busy fin seen : cinv s ts pend busy fin seen -> dev_fetch s = Some s1 ->
  exists q pend', pend = q :: pend' /\ cinv s1 ts pend' (busy ++ [q]) fin seen /\ k_wakes (v_disk s1) = k_wakes (v_disk s).
Proof.
  intros Hc Hs. destruct (fetch_ring s s1 _ _ _ _ (ci_ring _ _ _ _ _ _ Hc) Hs) as (q & pend' & -> & Hr' & Eb & El & Ev & Ew).
  exists q, pend'. split; [reflexivity|]. split; [|exact Ew]. eapply cinv_move; [exact Hc|exact El|exact Hr'| |solve_Permutation|reflexivity].
  intros t x y _. apply holds_same; [intros b; rewrite Eb; auto|exact Ev].
Qed.

Lemma device_cinv s s' ts : cok (Config s ts false) -> dev_step s s' -> cok (Config s' ts false).
Proof.
  intros (_ & pend & busy & fin & seen & Hc) Hd. split; [reflexivity|]. cbn [c_st c_threads] in *.
  destruct (dev_step_ok s s' Hd) as (s1 & [Hs|[j Hs]] & ->).
  - destruct (fetch_cinv s s1 ts _ _ _ _ Hc Hs) as (q & pend' & -> & Hc' & _). exists pend', (busy ++ [q]), fin, seen. apply cinv_regs, Hc'.
  - destruct (complete_cinv j s s1 _ _ _ _ _ Hc Hs) as (q & _ & Hc' & _). exists pend, (delete j busy), (fin ++ [q]), seen. apply cinv_regs, Hc'.
Qed.

Lemma intr_cinv fuel s ts pend busy fin seen : cinv s ts pend busy fin seen -> virtio_disk_intr fuel s <> NoFuel ->
  exists s', virtio_disk_intr fuel s = Ret tt s' /\ cinv s' ts pend busy [] (seen ++ fin) /\ acked (v_regs s) (v_regs s') /\
    wakes_le s s' /\ (forall q, q ∈ fin -> woken s (q_buf q) s').
Proof.
  intros Hc Hf. pose proof Hc as [Hl Hr _ _ _ _].
  destruct (intr_run fuel s _ _ _ _ Hr Hl) as [[En _]|(s' & En & Hr' & Hl' & Hv & Hd & Hw)]; [congruence|]. exists s'. split; [exact En|].
  split; [|exact Hw]. eapply cinv_move; [exact Hc|congruence|exact Hr'| |reflexivity|solve_Permutation].
  intros t x y _. apply holds_same; [exact Hd|rewrite Hv; reflexivity].
Qed.

(** The holders of other buffers do what they like with them. *)
Lemma holder_cinv s ts bufs pend busy fin seen : cinv s ts pend busy fin seen -> (forall b, b ∈ (t_buf <$> ts) -> bufs b = v_bufs s b) ->
  cinv (Vst (v_disk s) bufs (v_regs s) (v_dev s)) ts pend busy fin seen.
Proof.
  intros Hc Hbf. assert (Hq : forall q, q ∈ pend ++ busy ++ fin ++ seen -> bufs (q_buf q) = v_bufs s (q_buf q)).
  { intros q Hin. destruct (ci_req _ _ _ _ _ _ Hc q Hin) as (t & Ht & -> & _). apply Hbf, list_elem_of_fmap_2, Ht. }
  pose proof (ci_ring _ _ _ _ _ _ Hc) as Hr. eapply cinv_move; [exact Hc|reflexivity| | |reflexivity|reflexivity].
  - split; try apply Hr; simpl; intros q Hin; rewrite Hq by (revert Hin; rewrite !elem_of_app; tauto); apply Hr, Hin.
  - intros t x y Ht. unfold holds. simpl. rewrite Hbf by apply list_elem_of_fmap_2, Ht. auto.
Qed.

Lemma cok_step c c' : vstep c c' -> cok c -> cok c'.
Proof.
  intros Hs Hc. destruct Hs as [s ts fuel b w r blk Hb Hk Hrg E Hf|s ts i t ch s0 k r Hi Et Er Hf|s ts i t u s0 Hi Et|s ts fuel r E Hf|s ts s' Hd|s ts bufs Hbf].
  - destruct Hc as (_ & pend & busy & fin & seen & Hc). cbn [c_st c_threads] in Hc.
    destruct (call_cinv fuel b w s ts r _ _ _ _ Hc Hb Hk Hrg E) as (c & s' & k & pend' & -> & Hc' & _); [auto|].
    split; [reflexivity|]. exists pend', busy, fin, seen. exact Hc'.
  - apply (resume_cinv s ts i t ch s0 k); assumption.
  - destruct Hc as (_ & pend & busy & fin & seen & Hc). split; [reflexivity|]. exists pend, busy, fin, seen. cbn [c_st c_threads] in *.
    apply (cinv_perm _ _ _ _ _ _ _ (delete_Permutation ts i t Hi)) in Hc. apply (cinv_tail _ _ _ _ _ _ _ Hc).
    destruct (ci_thr _ _ _ _ _ _ Hc t (list_elem_of_here _ _)) as [_ Hrun]. rewrite Et in Hrun. intros q. rewrite app_assoc. apply Hrun.
  - destruct Hc as (_ & pend & busy & fin & seen & Hc). cbn [c_st c_threads] in *. subst r.
    destruct (intr_cinv fuel s ts _ _ _ _ Hc Hf) as (s' & -> & Hc' & _). split; [reflexivity|]. exists pend, busy, [], (seen ++ fin). exact Hc'.
  - apply (device_cinv s); assumption.
  - destruct Hc as (_ & pend & busy & fin & seen & Hc). split; [reflexivity|]. exists pend, busy, fin, seen. apply holder_cinv; assumption.
Qed.

(** What [virtio_disk_init] sets up, and a device that has just been reset. *)
Definition fresh s : Prop :=
  k_lock (v_disk s) = false /\ (forall i, 0 <= i < NUM -> k_free (v_disk s) i = true) /\
  k_avail_idx (v_disk s) = 0 /\ k_dev_idx (v_disk s) = 0 /\ k_used_idx (v_disk s) = 0 /\
  dv_last (v_dev s) = 0 /\ dv_busy (v_dev s) = [].

Lemma idle_cinv s : fresh s -> cinv s [] [] [] [] [].
Proof.
  intros (Hl & Hf & Ha & Hd & Hu & Hv & Hb). 
  assert (Hno : forall (q : req) (P : Prop), q ∈ [] -> P) by (intros q P Hq; apply elem_of_nil in Hq; contradiction).
  split; auto; [|apply NoDup_nil_2|apply NoDup_nil_2|intros t Ht; apply elem_of_nil in Ht; contradiction|intros q Hq; apply (Hno q), Hq].
  split; simpl; rewrite ?Hv, ?Hu, ?Ha, ?Hd, ?Hb; try reflexivity; try apply NoDup_nil_2; try (split; reflexivity || lia);
    try (intros q Hq; apply (Hno q), Hq); try (intros j q Hj; discriminate).
  - intros i Hi. apply elem_of_nil in Hi. contradiction.
  - intros i Hi. rewrite Hf by exact Hi. split; [intros _; apply not_elem_of_nil|reflexivity].
Qed.

Lemma fresh_cok s : fresh s -> cok (Config s [] false).
Proof. intros Hf. split; [reflexivity|]. exists [], [], [], []. apply idle_cinv, Hf. Qed.

Lemma reachable_cok s0 c : fresh s0 -> rtc vstep (Config s0 [] false) c -> cok c.
Proof.
  intros Hf Hs. apply fresh_cok in Hf. induction Hs as [c|c1 c2 c3 H1 _ IH]; [exact Hf|]. apply IH, (cok_step _ _ H1), Hf.
Qed.

(** C15. The disk driver is correct under concurrency.  However calls of
    [virtio_disk_rw], wakeups, interrupts and the device interleave - the device
    completing requests in any order, and no two calls being for the same buffer
    or block - the driver never panics, and whenever a call has returned, the
    block on the disk and the buffer both hold what was in the buffer when a
    write was asked for, or in the block when a read was; in particular nobody
    else's transfer has touched them. *)
Theorem virtio_transfers s0 c : fresh s0 -> rtc vstep (Config s0 [] false) c ->
  c_panicked c = false /\
  forall t u s, t ∈ c_threads c -> t_run t = Ret u s -> holds (c_st c) (t_buf t) (t_block t) (t_result t) (t_result t).
Proof.
  intros Hf Hs. destruct (reachable_cok s0 c Hf Hs) as (Hp & pend & busy & fin & seen & Hc). split; [exact Hp|].
  intros t u s Hin Et. destruct (ci_thr _ _ _ _ _ _ Hc t Hin) as [_ Hrun]. rewrite Et in Hrun. apply Hrun.
Qed.

End System.

(** ** Setting up *)

Section Init.
Context {D : Type} {MM : Mmio D}.
Local Abbreviation st := (vst D vdev).

Lemma R_read_frame r (s s' : st) x : R_read r s = Ret x s' -> v_disk s' = v_disk s /\ v_bufs s' = v_bufs s /\ v_dev s' = v_dev s.
Proof. unfold R_read. intros (d & _ & ->)%zoom_inv. auto. Qed.

Lemma R_write_frame r v (s s' : st) : R_write r v s = Ret tt s' -> v_disk s' = v_disk s /\ v_bufs s' = v_bufs s /\ v_dev s' = v_dev s.
Proof. unfold R_write. intros (d & _ & ->)%zoom_inv. auto. Qed.

(** Take a sequence of register accesses apart. *)
#[local] Ltac regs H :=
  let x := fresh "x" in let s1 := fresh "s" in let E := fresh "E" in
  apply bind_inv in H as (x & s1 & E & H);
  first [apply R_read_frame in E as (? & ? & ?) | destruct x; apply R_write_frame in E as (? & ? & ?)].

Lemma negotiate_frame (s s' : st) x : negotiate s = Ret x s' ->
  v_disk s' = set_klock false (v_disk s) /\ v_bufs s' = v_bufs s /\ v_dev s' = v_dev s.
Proof.
  intros H. unfold negotiate, on_disk in H. rewrite bind_modify in H. do 4 regs H.
  destruct (negb _) in H; [discriminate|]. cbv zeta in H. do 7 regs H. destruct (_ =? 0) in H; [discriminate|]. do 2 regs H.
  destruct (negb _) in H; [discriminate|]. regs H. do 2 (destruct (_ : bool) in H; [discriminate|]). injection H as _ <-.
  simpl in *. split_and!; congruence.
Qed.

(** When the driver has been set up, every descriptor is free and the rings are
    empty. *)
Lemma virtio_disk_init_fresh k k' (s s' : st) : virtio_disk_init (k, s) = Ret tt (k', s') ->
  k_used_idx (v_disk s) = 0 -> dv_last (v_dev s) = 0 -> dv_busy (v_dev s) = [] -> fresh s'.
Proof.
  intros H Hu Hv Hb. unfold virtio_disk_init in H. apply bind_inv in H as (x & [k1 s1] & E & H). apply zoom_inv in E as (s1' & E & [= -> <-]).
  apply negotiate_frame in E as (Ed & _ & Ev). simpl in Ed, Ev.
  do 3 (apply bind_inv in H as (? & [? ?] & E & H); apply zoom_inv in E as (? & _ & [= -> ->]); simpl in H).
  destruct (_ || _) in H; [discriminate|]. do 3 (apply bind_inv in H as ([] & [? ?] & E & H); apply zoom_inv in E as (? & _ & [= -> ->]); simpl in H).
  apply zoom_inv in H as (s2 & H & [= _ ->]). simpl in H. unfold start_queue, on_disk in H. rewrite bind_modify in H. do 8 regs H.
  rewrite bind_modify in H. apply R_write_frame in H as (F & _ & G). simpl in *.
  assert (Es : exists d, v_disk s2 = fold_left (fun k i => set_free i true k) (seqZ 0 NUM) d /\ k_lock d = false /\ k_avail_idx d = 0 /\
    k_dev_idx d = 0 /\ k_used_idx d = 0).
  { eexists. split; [exact F|]. repeat match goal with E : v_disk _ = _ |- _ => rewrite E end. simpl. auto. }
  destruct Es as (d & Es & D1 & D2 & D3 & D4). unfold fresh. rewrite Es. simpl.
  split_and!; auto; [|congruence|congruence].
  intros i Hi. unfold NUM in Hi. unfold upd. repeat case_test; try reflexivity. lia.
Qed.
End Init.

Module ExampleDisk.
(** Registers that read as zero and remember what was written. *)
#[local] Instance ex_mmio : Mmio (list (Z * Z)) :=
  {| rd8 _ := ret 0; wr8 a v := modify (fun l => l ++ [(a, v)]); rd32 _ := ret 0; wr32 a v := modify (fun l => l ++ [(a, v)]) |}.
#[local] Instance ex_laws : MmioLaws (list (Z * Z)).
Proof.
  refine {| written l := l |}.
  - intros a v d. eexists. split; reflexivity.
  - intros a v d. eexists. split; reflexivity.
  - intros a d. exists 0, d. split; [reflexivity|]. split; [lia|reflexivity].
  - intros a d. exists 0, d. split; [reflexivity|]. split; [lia|reflexivity].
Defined.
#[local] Instance ex_device : VirtioDevice (list (Z * Z)).
Proof.
  refine {| dev_step := dev_act |}; intros s s1 Ha; exists s1; (split; [exact Ha|destruct s1; reflexivity]).
Defined.
Definition ex_disk : disk :=
  Disk (0, 0, 0) (fun _ => Desc A_null 0 0 0) 0 (fun _ => 0) 0 (fun _ => 0) (fun _ => true) 0 (fun _ => 0) (fun _ => 0) (fun _ => Op 0 0 0) false (fun _ => 0).
(** Buffer 3 holds sevens and is for block 5. *)
Definition ex_vst : vst (list (Z * Z)) vdev :=
  Vst ex_disk (fun b => Vbuf 0 (if b =? 3 then 5 else 0) (fun _ => 7)) [] (Vdev 0 [] (fun a => a mod 256)).

Lemma ex_fresh : fresh ex_vst.
Proof. repeat split. Qed.

Lemma virtio_transfers_witness :
  let c := continue (virtio_disk_rw 2 3 true ex_vst) ex_vst
    [Thread 3 5 true (fun _ => 7) (block_on ex_vst 5) (virtio_disk_rw 2 3 true ex_vst)] in
  c_panicked c = false /\
  forall t u s, t ∈ c_threads c -> t_run t = Ret u s -> holds (c_st c) (t_buf t) (t_block t) (t_result t) (t_result t).
Proof.
  apply (virtio_transfers ex_vst); [exact ex_fresh|]. apply rtc_once.
  apply (V_call ex_vst [] 2 3 true); [apply not_elem_of_nil|apply not_elem_of_nil|closed|reflexivity|vm_compute; discriminate].
Defined.

End ExampleDisk.
