(* ===== verification/VirtioLive.v ===== *)
(** * Transfers come to an end

    The system of VirtioSpec.v with the scheduler and the device kept to what
    they promise: a thread asleep goes on only after a [wakeup] of its channel,
    the interrupt handler runs only when the device has an interrupt pending,
    and the device is sure to look at the avail ring only after it has been
    notified.  No state of it is a dead end: whatever has happened, every call
    of [virtio_disk_rw] that is under way can still return. *)

From stdpp Require Import relations.
From S2P Require Import Prelude CString Riscv Kalloc Block Device Virtio VirtioSpec.

(** ** What the device promises *)

(** Once notified the device looks at the avail ring until it is empty; it
    completes what it has taken; and it raises an interrupt, which stays until
    it is acknowledged. *)
Class WorkingDevice (D : Type) {MM : Mmio D} {VD : VirtioDevice D} : Type := {
  dev_notified : D -> bool;
  dev_pending : D -> bool;
  dev_notify : forall d d', wr32 (VIRTIO0 + VIRTIO_MMIO_QUEUE_NOTIFY) 0 d = Ret tt d' ->
    dev_notified d' = true /\ dev_pending d' = dev_pending d;
  dev_status : forall x d d', rd32 (VIRTIO0 + VIRTIO_MMIO_INTERRUPT_STATUS) d = Ret x d' -> dev_notified d' = dev_notified d;
  dev_ack : forall x d d', wr32 (VIRTIO0 + VIRTIO_MMIO_INTERRUPT_ACK) x d = Ret tt d' -> dev_notified d' = dev_notified d;
  dev_looks : forall s s', dev_step s s' -> dev_notified (v_regs s) = true ->
    dv_last (v_dev s') <> k_avail_idx (v_disk s') -> dev_notified (v_regs s') = true;
  dev_interrupts : forall s s', dev_step s s' ->
    dev_pending (v_regs s) = true \/ k_dev_idx (v_disk s') <> k_dev_idx (v_disk s) -> dev_pending (v_regs s') = true;
  dev_fetches : forall s s1, dev_fetch s = Some s1 -> dev_notified (v_regs s) = true ->
    exists s', dev_step s s' /\ s' = Vst (v_disk s1) (v_bufs s1) (v_regs s') (v_dev s1);
  dev_completes : forall j s s1, dev_complete j s = Some s1 ->
    exists s', dev_step s s' /\ s' = Vst (v_disk s1) (v_bufs s1) (v_regs s') (v_dev s1)
}.

Section Live.
Context {D : Type} {MM : Mmio D} {ML : MmioLaws D} {VD : VirtioDevice D} {WD : WorkingDevice D}.
Local Abbreviation st := (vst D vdev).
Local Abbreviation thr := (thread (D := D)).
Implicit Types s : st.

(** ** Steps *)

(** What goes on by itself: threads that have been woken, pending interrupts
    and the device. *)
Inductive work : config -> config -> Prop :=
| W_resume s ts i t ch s0 k r : ts !! i = Some t -> t_run t = Sleep ch s0 k -> woken s0 ch s -> k s = r -> r <> NoFuel ->
    work (Config s ts false) (continue r s (<[i := with_run r t]> ts))
| W_intr s ts fuel r : dev_pending (v_regs s) = true -> virtio_disk_intr fuel s = r -> r <> NoFuel ->
    work (Config s ts false) (continue r s ts)
| W_device s ts s' : dev_step s s' -> work (Config s ts false) (Config s' ts false).

(** And with it new calls, returns, and the holders of other buffers. *)
Inductive wstep (fuel : nat) : config -> config -> Prop :=
| W_work c c' : work c c' -> wstep fuel c c'
| W_call s ts b w r : let blk := vb_blockno (v_bufs s b) in
    0 <= b -> b ∉ (t_buf <$> ts) -> blk ∉ (t_block <$> ts) -> 0 <= blk < 2 ^ 31 ->
    virtio_disk_rw fuel b w s = r -> r <> NoFuel ->
    wstep fuel (Config s ts false) (continue r s (ts ++ [Thread b blk w (vb_data (v_bufs s b)) (block_on s blk) r]))
| W_return s ts i t u s0 : ts !! i = Some t -> t_run t = Ret u s0 ->
    wstep fuel (Config s ts false) (Config s (delete i ts) false)
| W_holder s ts bufs : (forall b, b ∈ (t_buf <$> ts) -> bufs b = v_bufs s b) ->
    wstep fuel (Config s ts false) (Config (Vst (v_disk s) bufs (v_regs s) (v_dev s)) ts false).

Lemma work_vstep c c' : work c c' -> vstep c c'.
Proof using All.
  intros [s ts i t ch s0 k r Hi Et Hw Er Hf|s ts fuel r Hp Er Hf|s ts s' Hd].
  - apply (V_resume s ts i t ch s0 k r); assumption.
  - apply (V_intr s ts fuel r); assumption.
  - apply V_device, Hd.
Qed.

Lemma wstep_vstep fuel c c' : wstep fuel c c' -> vstep c c'.
Proof using All.
  intros [c1 c2 Hw|s ts b w r blk Hb Hb1 Hk Hrg E Hf|s ts i t u s0 Hi Et|s ts bufs Hbf].
  - apply work_vstep, Hw.
  - apply (V_call s ts fuel b w r); assumption.
  - apply (V_return s ts i t u s0); assumption.
  - apply V_holder, Hbf.
Qed.

(** ** Nobody sleeps who could go on *)

(** After [k] steps, a thread that waits for descriptors has been woken or
    there are two requests under way; one that waits for its request has been
    woken or the handler has not seen it completed. *)
Definition tlive (fuel k : nat) s (all seen : list req) (t : thread) : Prop :=
  0 <= t_buf t /\ forall ch s0 kk, t_run t = Sleep ch s0 kk -> k_wakes (v_disk s0) ch <= k_wakes (v_disk s) ch /\
    (ch = free_chan /\ (forall q, q ∈ all -> q_buf q <> t_buf t) /\ (woken s0 ch s \/ (2 <= length all)%nat) /\
       (exists n m, (fuel <= n + k)%nat /\ (fuel <= m + k)%nat /\ desc_wait n m (t_buf t) (t_write t) (t_block t * 2) kk) \/
     ch = t_buf t /\ exists q n, q ∈ all /\ q_buf q = t_buf t /\ (woken s0 ch s \/ (q ∉ seen)) /\ (fuel <= n + k)%nat /\
       io_wait n (t_buf t) (q0 q) kk).

Record winv (fuel k : nat) s (ts : list thread) (pend busy fin seen : list req) : Prop := {
  wi_cinv : cinv s ts pend busy fin seen;
  wi_notified : pend <> [] -> dev_notified (v_regs s) = true;
  wi_pending : fin <> [] -> dev_pending (v_regs s) = true;
  wi_live : forall t, t ∈ ts -> tlive fuel k s (pend ++ busy ++ fin ++ seen) seen t
}.

Lemma tlive_frame fuel k k' s s' all all' seen seen' t : tlive fuel k s all seen t -> wakes_le s s' -> (k <= k')%nat ->
  (forall q, q_buf q = t_buf t -> q ∈ all' <-> q ∈ all) ->
  ((2 <= length all)%nat -> (2 <= length all')%nat \/ woken s free_chan s') ->
  (forall q, q_buf q = t_buf t -> q ∈ seen' -> q ∈ seen \/ woken s (t_buf t) s') ->
  tlive fuel k' s' all' seen' t.
Proof using All.
  intros [Hb Ht] Hw Hk Hq Hl Hs. split; [exact Hb|]. intros ch s0 kk Et. destruct (Ht ch s0 kk Et) as [Hle Hrun].
  pose proof (Hw ch) as Hwc. split; [lia|]. destruct Hrun as [(-> & Hno & Hwk & n & m & Hn & Hm & Hd)|(-> & q & n & Hin & Eq & Hwk & Hn & Hio)].
  - left. split; [reflexivity|]. split; [intros q Hin E; apply (Hno q); [apply Hq; assumption|exact E]|]. split.
    + destruct Hwk as [Hwk|Hwk]; [left; eapply woken_mono; eassumption|]. destruct (Hl Hwk) as [H2|H2]; [auto|left]. unfold woken in *. lia.
    + exists n, m. split; [lia|]. split; [lia|exact Hd].
  - right. split; [reflexivity|]. exists q, n. split; [apply Hq; assumption|]. split; [exact Eq|]. split; [|split; [lia|exact Hio]].
    destruct Hwk as [Hwk|Hwk]; [left; eapply woken_mono; eassumption|]. destruct (decide (q ∈ seen')) as [Hin'|Hin']; [left|auto].
    destruct (Hs q Eq Hin') as [H2|H2]; [contradiction|]. unfold woken in *. lia.
Qed.

(** A frame for steps that only move requests on. *)
Lemma winv_move fuel k s s' (ts : list thread) pend busy fin seen pend' busy' fin' seen' :
  (forall t, t ∈ ts -> tlive fuel k s (pend ++ busy ++ fin ++ seen) seen t) -> wakes_le s s' ->
  pend' ++ busy' ++ fin' ++ seen' ≡ₚ pend ++ busy ++ fin ++ seen ->
  (forall q, q ∈ seen' -> q ∈ seen \/ woken s (q_buf q) s') ->
  forall t, t ∈ ts -> tlive fuel (S k) s' (pend' ++ busy' ++ fin' ++ seen') seen' t.
Proof using All.
  intros Ht Hw Hp Hs t Hin. eapply tlive_frame; [apply Ht, Hin|exact Hw|lia|intros q _; rewrite Hp; reflexivity|rewrite Hp; auto|].
  intros q <- Hq. apply Hs, Hq.
Qed.

Lemma ring_looks s pend busy fin seen : ring_ok s pend busy fin seen -> pend <> [] -> dv_last (v_dev s) <> k_avail_idx (v_disk s).
Proof using All.
  intros Hr Hp. pose proof (r_avail _ _ _ _ _ Hr) as Ha. pose proof (r_last _ _ _ _ _ Hr) as Hlast.
  assert (Hlen := few_requests _ _ _ _ _ Hr). destruct pend as [|q pend]; [contradiction|]. simpl in Ha, Hlen. rewrite !length_app in Hlen. wrap_lia.
Qed.

Lemma winv_fetch fuel k s s1 s' ts pend busy fin seen : winv fuel k s ts pend busy fin seen -> dev_fetch s = Some s1 -> dev_step s s' ->
  s' = Vst (v_disk s1) (v_bufs s1) (v_regs s') (v_dev s1) ->
  exists q pend', pend = q :: pend' /\ winv fuel (S k) s' ts pend' (busy ++ [q]) fin seen.
Proof using All.
  intros [Hc Hn Hpd Ht] Hs Hd E. destruct (fetch_cinv s s1 ts _ _ _ _ Hc Hs) as (q & pend' & -> & Hc' & Ew). exists q, pend'. split; [reflexivity|].
  apply (cinv_regs _ (v_regs s')) in Hc'. rewrite <- E in Hc'. split; [exact Hc'| | |].
  - intros Hp. apply (dev_looks s); [exact Hd|apply Hn; discriminate|]. apply (ring_looks s' _ _ _ _ (ci_ring _ _ _ _ _ _ Hc') Hp).
  - intros Hf. apply (dev_interrupts s); [exact Hd|left; apply Hpd, Hf].
  - eapply winv_move; [exact Ht|apply wakes_same; rewrite E; exact Ew|solve_Permutation|auto].
Qed.

Lemma complete_used j s s1 : dev_complete j s = Some s1 -> k_used_idx (v_disk s1) = k_used_idx (v_disk s).
Proof using All.
  unfold dev_complete. destruct (dv_busy (v_dev s) !! j) as [h|]; [|discriminate]. cbn [mbind option_bind].
  destruct (d_addr (k_desc (v_disk s) h)); try discriminate.
  destruct (d_addr (k_desc (v_disk s) (d_next (k_desc (v_disk s) (d_next (k_desc (v_disk s) h)))))); try discriminate.
  destruct (dev_transfer _ _ _) as [[? ?]|]; [|discriminate]. simpl. intros [= <-]. reflexivity.
Qed.

Lemma winv_complete fuel k j s s1 s' ts pend busy fin seen : winv fuel k s ts pend busy fin seen -> dev_complete j s = Some s1 -> dev_step s s' ->
  s' = Vst (v_disk s1) (v_bufs s1) (v_regs s') (v_dev s1) ->
  exists q, busy !! j = Some q /\ winv fuel (S k) s' ts pend (delete j busy) (fin ++ [q]) seen.
Proof using All.
  intros [Hc Hn Hpd Ht] Hs Hd E. destruct (complete_cinv j s s1 ts _ _ _ _ Hc Hs) as (q & Hq & Hc' & Ew). exists q. split; [exact Hq|].
  apply (cinv_regs _ (v_regs s')) in Hc'. rewrite <- E in Hc'. pose proof (ci_ring _ _ _ _ _ _ Hc) as Hr. pose proof (ci_ring _ _ _ _ _ _ Hc') as Hr'.
  split; [exact Hc'| | |].
  - intros Hp. apply (dev_looks s); [exact Hd|apply Hn, Hp|]. apply (ring_looks s' _ _ _ _ Hr' Hp).
  - intros _. apply (dev_interrupts s); [exact Hd|right]. assert (Hu : k_used_idx (v_disk s') = k_used_idx (v_disk s)).
    { rewrite E. apply (complete_used j _ _ Hs). }
    rewrite (r_used _ _ _ _ _ Hr), (r_used _ _ _ _ _ Hr'), Hu, length_app. simpl. pose proof (r_idx _ _ _ _ _ Hr). wrap_lia.
  - eapply winv_move; [exact Ht|apply wakes_same; rewrite E; exact Ew| |auto].
    rewrite (complete_perm pend busy (delete j busy) fin seen q (delete_Permutation _ _ _ Hq)). reflexivity.
Qed.

Lemma winv_intr fuel k n s ts pend busy fin seen : winv fuel k s ts pend busy fin seen -> virtio_disk_intr n s <> NoFuel ->
  exists s', virtio_disk_intr n s = Ret tt s' /\ winv fuel (S k) s' ts pend busy [] (seen ++ fin).
Proof using All.
  intros [Hc Hn Hpd Ht] Hf. destruct (intr_cinv n s ts _ _ _ _ Hc Hf) as (s' & E & Hc' & (x & d1 & E1 & E2) & Hw & Hk). exists s'. split; [exact E|].
  split; [exact Hc'| |congruence|].
  - intros Hp. rewrite (dev_ack _ _ _ E2), (dev_status _ _ _ E1). apply Hn, Hp.
  - eapply winv_move; [exact Ht|exact Hw|solve_Permutation|]. intros q. rewrite elem_of_app. intros [?|?]; auto.
Qed.

(** The other threads when one goes on. *)
Lemma insert_others {A} (f : A -> Z) (ts : list A) i t x t' : NoDup (f <$> ts) -> ts !! i = Some t -> t' ∈ <[i := x]> ts ->
  t' = x \/ t' ∈ ts /\ f t' <> f t.
Proof using All.
  intros Hnd Hi [j Hj]%list_elem_of_lookup. destruct (decide (i = j)) as [->|Hne].
  - rewrite list_lookup_insert_eq in Hj by (eapply lookup_lt_Some; eauto). left. congruence.
  - rewrite list_lookup_insert_ne in Hj by exact Hne. right. split; [apply (list_elem_of_lookup_2 _ _ _ Hj)|]. intros E. apply Hne.
    apply (NoDup_lookup _ _ _ (f t) Hnd); rewrite list_lookup_fmap, ?Hi, ?Hj; simpl; congruence.
Qed.

(** A thread that now waits, and what the others see of it. *)
Lemma waits_live fuel k n m b blk w s s' pend pend' busy fin seen c kk t :
  waits n m b blk w s s' pend pend' (busy ++ fin ++ seen) c kk -> wakes_le s s' ->
  (forall q, q ∈ pend ++ busy ++ fin ++ seen -> q_buf q <> b) -> (fuel <= n + k)%nat -> (fuel <= m + k)%nat ->
  ring_ok s' pend' busy fin seen -> 0 <= b -> t_buf t = b -> t_block t = blk -> t_write t = w -> t_run t = Sleep c s' kk ->
  tlive fuel (S k) s' (pend' ++ busy ++ fin ++ seen) seen t /\
  forall t', tlive fuel k s (pend ++ busy ++ fin ++ seen) seen t' -> t_buf t' <> b -> tlive fuel (S k) s' (pend' ++ busy ++ fin ++ seen) seen t'.
Proof using All.
  intros Hwt Hw Hno Hn Hm Hr Hb <- <- <- Et. destruct Hwt as [(-> & -> & (n' & -> & Hd) & H2 & _)|(q & n' & -> & Eq & -> & -> & Hio & _)].
  - split; [|intros t' Ht' _; eapply tlive_frame; [exact Ht'|exact Hw|lia|tauto|auto|auto]].
    split; [exact Hb|]. intros ch s0 kk' E. rewrite Et in E. injection E as <- <- <-. split; [lia|]. left.
    split; [reflexivity|]. split; [exact Hno|]. split; [auto|]. exists n', m. split; [lia|]. split; [lia|exact Hd].
  - split.
    + split; [exact Hb|]. intros ch s0 kk' E. rewrite Et in E. injection E as <- <- <-. split; [lia|]. right. split; [reflexivity|].
      exists q, n'. split; [rewrite !elem_of_app, list_elem_of_singleton; auto|]. split; [exact Eq|]. split; [|split; [lia|exact Hio]].
      right. intros Hin. apply (Hno q); [rewrite !elem_of_app; auto|exact Eq].
    + intros t' Ht' Hne. eapply tlive_frame; [exact Ht'|exact Hw|lia| |rewrite <- app_assoc, !length_app; simpl; lia|auto].
      intros q' E. rewrite <- app_assoc. simpl. rewrite !elem_of_app, elem_of_cons, !elem_of_app. assert (q' <> q) by congruence. tauto.
Qed.

Lemma waits_regs n m b blk w s s' pend pend' rest c kk fin : waits n m b blk w s s' pend pend' rest c kk ->
  (pend <> [] -> dev_notified (v_regs s) = true) -> (fin <> ([] : list req) -> dev_pending (v_regs s) = true) ->
  (pend' <> [] -> dev_notified (v_regs s') = true) /\ (fin <> [] -> dev_pending (v_regs s') = true).
Proof using All.
  intros [(-> & _ & _ & _ & ->)|(q & n' & -> & _ & _ & _ & _ & Htl & _)] Hn Hp; [auto|].
  destruct (dev_notify _ _ Htl) as [H1 H2]. split; [auto|rewrite H2; exact Hp].
Qed.

(** A thread that waited for descriptors goes on. *)
Lemma winv_desc fuel k n m s ts i t ch s0 kk r pend busy fin seen : winv fuel k s ts pend busy fin seen -> ts !! i = Some t ->
  t_run t = Sleep ch s0 kk -> (forall q, q ∈ pend ++ busy ++ fin ++ seen -> q_buf q <> t_buf t) ->
  desc_wait n m (t_buf t) (t_write t) (t_block t * 2) kk -> (fuel <= n + k)%nat -> (fuel <= m + k)%nat ->
  kk s = r -> (n = O \/ m = O -> r <> NoFuel) ->
  exists c s' k' pend', r = Sleep c s' k' /\ winv fuel (S k) s' (<[i := with_run r t]> ts) pend' busy fin seen /\
    (c = free_chan /\ (2 <= length (pend ++ busy ++ fin ++ seen))%nat \/ c = t_buf t /\ exists q, pend' = pend ++ [q]).
Proof using All.
  intros [Hc Hn Hpd Ht] Hi Et Hno Hdw Hfn Hfm Er Hf.
  destruct (resume_desc n m s ts i t ch s0 kk r pend busy fin seen Hc Hi Et Hno Hdw Er Hf) as (c & s' & k' & pend' & -> & Hc' & Hw & Hwt).
  exists c, s', k', pend'. split; [reflexivity|].
  destruct (waits_live fuel k _ _ _ _ _ _ _ _ _ _ _ _ _ _ (with_run (Sleep c s' k') t) Hwt Hw Hno Hfn Hfm (ci_ring _ _ _ _ _ _ Hc')) as [L1 L2]; auto.
  { apply (Ht t), (list_elem_of_lookup_2 _ _ _ Hi). }
  destruct (waits_regs _ _ _ _ _ _ _ _ _ _ _ _ fin Hwt Hn Hpd) as [R1 R2]. split.
  - split; auto. intros t' Hin. destruct (insert_others t_buf ts i t _ t' (ci_bufs _ _ _ _ _ _ Hc) Hi Hin) as [->|[Hin' Hne]]; auto.
  - destruct Hwt as [(_ & -> & _ & H2 & _)|(q & n' & -> & _ & -> & _)]; eauto.
Qed.

(** A thread that waited for its request goes on. *)
Lemma winv_io fuel k n s ts i t ch s0 kk r q pend busy fin seen : winv fuel k s ts pend busy fin seen -> ts !! i = Some t ->
  t_run t = Sleep ch s0 kk -> q ∈ pend ++ busy ++ fin ++ seen -> q_buf q = t_buf t -> io_wait n (t_buf t) (q0 q) kk -> (fuel <= n + k)%nat ->
  kk s = r -> (n = O -> r <> NoFuel) ->
  exists s' seen', winv fuel (S k) s' (<[i := with_run r t]> ts) pend busy fin seen' /\
    (r = Ret tt s' \/ (q ∉ seen) /\ exists kk', r = Sleep (t_buf t) s' kk').
Proof using All.
  intros [Hc Hn Hpd Ht] Hi Et Hin Eq Hio Hfn Er Hf. pose proof (ci_bufs _ _ _ _ _ _ Hc) as Hb.
  assert (Htb : 0 <= t_buf t) by apply (Ht t), (list_elem_of_lookup_2 _ _ _ Hi).
  destruct (resume_io n s ts i t ch s0 kk r q pend busy fin seen Hc Hi Et Hin Eq Hio Er Hf)
    as [(s' & l1 & l2 & Es & -> & Hc' & Hw & Hwf & Erg & _)|(k' & n' & Hns & -> & -> & Hio' & Hc')].
  - exists s', (l1 ++ l2). split; [|auto]. split; [exact Hc'|rewrite Erg; exact Hn|rewrite Erg; exact Hpd|].
    intros t' Hin'. destruct (insert_others t_buf ts i t _ t' Hb Hi Hin') as [->|[Hin2 Hne]].
    + split; [exact Htb|]. intros ch' s0' kk' E. discriminate.
    + eapply tlive_frame; [apply Ht, Hin2|exact Hw|lia| |auto|].
      * intros q' E. rewrite Es, !elem_of_app, elem_of_cons. assert (q' <> q) by congruence. tauto.
      * intros q' E Hq'. left. rewrite Es. revert Hq'. rewrite !elem_of_app, elem_of_cons. tauto.
  - exists s, seen. split; [|right; eauto]. split; auto.
    intros t' Hin'. destruct (insert_others t_buf ts i t _ t' Hb Hi Hin') as [->|[Hin2 Hne]].
    + split; [exact Htb|]. intros ch' s0' kk' [= <- <- <-]. split; [lia|]. right. split; [reflexivity|]. exists q, n'. auto 8 with lia.
    + eapply tlive_frame; [apply Ht, Hin2|apply wakes_refl|lia|tauto|auto|auto].
Qed.

Lemma winv_work fuel k c c' : work c c' -> c_panicked c = false ->
  (exists pend busy fin seen, winv fuel k (c_st c) (c_threads c) pend busy fin seen) ->
  c_panicked c' = false /\ exists pend busy fin seen, winv fuel (S k) (c_st c') (c_threads c') pend busy fin seen.
Proof using All.
  intros Hs _ (pend & busy & fin & seen & W). destruct Hs as [s ts i t ch s0 kk r Hi Et Hw Er Hf|s ts n r Hp Er Hf|s ts s' Hd]; cbn [c_st c_threads] in W.
  - destruct (wi_live _ _ _ _ _ _ _ _ W t (list_elem_of_lookup_2 _ _ _ Hi)) as [_ Ht]. destruct (Ht ch s0 kk Et) as [_ Hrun].
    destruct Hrun as [(_ & Hno & _ & n & m & Hn & Hm & Hd)|(_ & q & n & Hin & Eq & _ & Hn & Hio)].
    + destruct (winv_desc fuel k n m s ts i t ch s0 kk r pend busy fin seen) as (c & s' & k' & pend' & -> & W' & _); auto.
      split; [reflexivity|]. eexists _, _, _, _. exact W'.
    + destruct (winv_io fuel k n s ts i t ch s0 kk r q pend busy fin seen) as (s' & seen' & W' & [->|(_ & kk' & ->)]); auto;
        (split; [reflexivity|]; eexists _, _, _, _; exact W').
  - subst r. destruct (winv_intr fuel k n s ts _ _ _ _ W Hf) as (s' & -> & W'). split; [reflexivity|]. eexists _, _, _, _. exact W'.
  - split; [reflexivity|]. destruct (dev_step_ok s s' Hd) as (s1 & [Hs|[j Hs]] & E).
    + destruct (winv_fetch fuel k s s1 s' ts _ _ _ _ W Hs Hd E) as (q & pend' & -> & W'). eexists _, _, _, _. exact W'.
    + destruct (winv_complete fuel k j s s1 s' ts _ _ _ _ W Hs Hd E) as (q & _ & W'). eexists _, _, _, _. exact W'.
Qed.

Lemma winv_step fuel k c c' : wstep fuel c c' -> c_panicked c = false ->
  (exists pend busy fin seen, winv fuel k (c_st c) (c_threads c) pend busy fin seen) ->
  c_panicked c' = false /\ exists pend busy fin seen, winv fuel (S k) (c_st c') (c_threads c') pend busy fin seen.
Proof using All.
  intros Hs Hp HW. destruct Hs as [c1 c2 Hw|s ts b w r blk Hb0 Hb Hk Hrg E Hf|s ts i t u s0 Hi Et|s ts bufs Hbf].
  - apply (winv_work fuel k c1); assumption.
  - destruct HW as (pend & busy & fin & seen & [Hc Hn Hpd Ht]). cbn [c_st c_threads] in *.
    destruct (call_cinv fuel b w s ts r _ _ _ _ Hc Hb Hk Hrg E) as (c & s' & kk & pend' & -> & Hc' & Hw & Hwt); [auto|].
    assert (Hno : forall q, q ∈ pend ++ busy ++ fin ++ seen -> q_buf q <> b).
    { intros q Hin Eq. destruct (ci_req _ _ _ _ _ _ Hc q Hin) as (t & Hint & E1 & _). apply Hb. rewrite <- Eq, E1. apply list_elem_of_fmap_2, Hint. }
    set (T := Thread b blk w (vb_data (v_bufs s b)) (block_on s blk) (Sleep c s' kk)) in *.
    destruct (waits_live fuel k _ _ _ _ _ _ _ _ _ _ _ _ _ _ T Hwt Hw Hno ltac:(lia) ltac:(lia) (ci_ring _ _ _ _ _ _ Hc')) as [L1 L2]; auto.
    destruct (waits_regs _ _ _ _ _ _ _ _ _ _ _ _ fin Hwt Hn Hpd) as [R1 R2].
    split; [reflexivity|]. exists pend', busy, fin, seen. split; auto.
    intros t [Hin|Hin]%elem_of_app; [|apply list_elem_of_singleton in Hin as ->; exact L1]. apply L2; [apply Ht, Hin|]. intros E1. apply Hb. rewrite <- E1.
    apply list_elem_of_fmap_2, Hin.
  - destruct HW as (pend & busy & fin & seen & [Hc Hn Hpd Ht]). cbn [c_st c_threads] in *. split; [reflexivity|].
    exists pend, busy, fin, seen. assert (Hperm := delete_Permutation ts i t Hi). split; auto.
    + apply (cinv_perm _ _ _ _ _ _ _ Hperm) in Hc. apply (cinv_tail _ _ _ _ _ _ _ Hc).
      destruct (ci_thr _ _ _ _ _ _ Hc t (list_elem_of_here _ _)) as [_ Hrun]. rewrite Et in Hrun. intros q. rewrite app_assoc. apply Hrun.
    + intros t' Hin. eapply tlive_frame; [apply Ht; rewrite Hperm; apply elem_of_cons; auto|apply wakes_refl|lia|tauto|auto|auto].
  - destruct HW as (pend & busy & fin & seen & [Hc Hn Hpd Ht]). cbn [c_st c_threads] in *. split; [reflexivity|].
    exists pend, busy, fin, seen. split; auto; [apply holder_cinv; assumption|].
    intros t Hin. eapply tlive_frame; [apply Ht, Hin|apply wakes_same; reflexivity|lia|tauto|auto|auto].
Qed.

(** ** The way to the end *)

Lemma fetch_can s q pend busy fin seen : ring_ok s (q :: pend) busy fin seen -> exists s1, dev_fetch s = Some s1.
Proof using Type.
  intros Hr. unfold dev_fetch. pose proof (r_avail _ _ _ _ _ Hr) as Ha. pose proof (r_last _ _ _ _ _ Hr) as Hlast.
  assert (Hlen := few_requests _ _ _ _ _ Hr). simpl in Ha, Hlen. rewrite !length_app in Hlen.
  replace (dv_last (v_dev s) =? k_avail_idx (v_disk s)) with false by wrap_lia. eauto.
Qed.

Lemma complete_can s q pend busy fin seen : ring_ok s pend (q :: busy) fin seen -> exists s1, dev_complete 0 s = Some s1.
Proof using Type.
  intros Hr. unfold dev_complete. rewrite (r_busy _ _ _ _ _ Hr). simpl.
  destruct (r_laid _ _ _ _ _ Hr q) as (L0 & L1 & L2 & L3 & _); [rewrite !elem_of_app, elem_of_cons; auto|].
  rewrite L0. simpl. rewrite L1. simpl. rewrite L2, L3. simpl. unfold dev_transfer. simpl. destruct (q_write q); simpl; eauto.
Qed.

(** What a thread has before it, in steps of the device, the handler and its
    own. *)
Definition weight (t : thr) : nat :=
  match t_run t with Sleep ch _ _ => if ch =? free_chan then 5 else 1 | _ => 0 end.
Definition todo (ts : list thr) (pend busy fin : list req) : nat :=
  (sum_list (weight <$> ts) + 3 * length pend + 2 * length busy + length fin)%nat.
Definition asleep (t : thr) : bool := match t_run t with Sleep _ _ _ => true | _ => false end.

(** A call: everything but where the thread is. *)
Definition call_of (t : thr) : Z * Z * bool * block * block := (t_buf t, t_block t, t_write t, t_data t, t_old t).

Lemma weight_insert (ts : list thr) i t x : ts !! i = Some t ->
  (sum_list (weight <$> <[i := x]> ts) + weight t = sum_list (weight <$> ts) + weight x)%nat.
Proof using All.
  revert i. induction ts as [|y ts IH]; intros [|i] Hi; try discriminate; csimpl.
  - injection Hi as ->. lia.
  - specialize (IH i Hi). lia.
Qed.

Lemma calls_insert (ts : list thr) i t r : ts !! i = Some t -> call_of <$> <[i := with_run r t]> ts = call_of <$> ts.
Proof using All.
  intros Hi. rewrite list_fmap_insert. apply list_insert_id. rewrite list_lookup_fmap, Hi. reflexivity.
Qed.

(** One step on the way: work that brings the end nearer. *)
Definition nearer (fuel k : nat) s ts pend busy fin : Prop :=
  exists s' ts' pend' busy' fin' seen', work (Config s ts false) (Config s' ts' false) /\ winv fuel (S k) s' ts' pend' busy' fin' seen' /\
    (todo ts' pend' busy' fin' < todo ts pend busy fin)%nat /\ call_of <$> ts' = call_of <$> ts.

Lemma nearer_device fuel k s ts pend busy fin seen : winv fuel k s ts pend busy fin seen -> pend <> [] \/ busy <> [] ->
  nearer fuel k s ts pend busy fin.
Proof using All.
  intros W Hne. pose proof (ci_ring _ _ _ _ _ _ (wi_cinv _ _ _ _ _ _ _ _ W)) as Hr. destruct pend as [|q pend].
  - destruct busy as [|q busy]; [destruct Hne; contradiction|]. destruct (complete_can s q _ _ _ _ Hr) as [s1 Hs].
    destruct (dev_completes 0 s s1 Hs) as (s' & Hd & E). destruct (winv_complete fuel k 0 s s1 s' ts _ _ _ _ W Hs Hd E) as (q' & [= <-] & W').
    eexists _, _, _, _, _, _. split; [apply W_device, Hd|]. split; [exact W'|]. split; [|reflexivity]. unfold todo. rewrite length_app. simpl. lia.
  - destruct (fetch_can s q _ _ _ _ Hr) as [s1 Hs].
    destruct (dev_fetches s s1 Hs) as (s' & Hd & E); [apply (wi_notified _ _ _ _ _ _ _ _ W); discriminate|].
    destruct (winv_fetch fuel k s s1 s' ts _ _ _ _ W Hs Hd E) as (q' & pend' & [= <- <-] & W').
    eexists _, _, _, _, _, _. split; [apply W_device, Hd|]. split; [exact W'|]. split; [|reflexivity]. unfold todo. rewrite length_app. simpl. lia.
Qed.

Lemma nearer_intr fuel k s ts pend busy fin seen : winv fuel k s ts pend busy fin seen -> fin <> [] -> nearer fuel k s ts pend busy fin.
Proof using All.
  intros W Hne. pose proof (wi_cinv _ _ _ _ _ _ _ _ W) as Hc.
  assert (Hf : virtio_disk_intr (S (length fin)) s <> NoFuel).
  { destruct (intr_run (S (length fin)) s _ _ _ _ (ci_ring _ _ _ _ _ _ Hc) (ci_lock _ _ _ _ _ _ Hc)) as [[_ Hn]|(s' & -> & _)]; [lia|discriminate]. }
  destruct (winv_intr fuel k _ s ts _ _ _ _ W Hf) as (s' & E & W'). eexists s', ts, _, _, _, _.
  split; [apply (W_intr s ts (S (length fin)) (Ret tt s')); [apply (wi_pending _ _ _ _ _ _ _ _ W), Hne|exact E|discriminate]|].
  split; [exact W'|]. split; [|reflexivity]. unfold todo. destruct fin; [contradiction|]. simpl. lia.
Qed.

(** All requests have been seen: the thread of one of them returns. *)
Lemma nearer_seen fuel k s ts q seen : winv fuel k s ts [] [] [] (q :: seen) -> (k < fuel)%nat -> nearer fuel k s ts [] [] [].
Proof using All.
  intros W Hk. pose proof (wi_cinv _ _ _ _ _ _ _ _ W) as Hc. destruct (ci_req _ _ _ _ _ _ Hc q (list_elem_of_here _ _)) as (t & Hin & Eq & _).
  pose proof Hin as [i Hi]%list_elem_of_lookup. destruct (ci_thr _ _ _ _ _ _ Hc t Hin) as [_ Hrun]. destruct (wi_live _ _ _ _ _ _ _ _ W t Hin) as [Hb Hlive].
  destruct (t_run t) as [u s0| | |ch s0 kk] eqn:Et; [exfalso|contradiction|contradiction|].
  { destruct Hrun as [_ Hno]. apply (Hno q); [apply list_elem_of_here|exact Eq]. }
  destruct (Hlive ch s0 kk eq_refl) as [_ [(_ & Hno & _)|(-> & q' & n & Hin' & Eq' & Hwk & Hn & Hio)]].
  { exfalso. apply (Hno q); [apply list_elem_of_here|exact Eq]. }
  assert (q' = q) as ->.
  { apply (NoDup_fmap_elem q_buf _ _ _ (r_bufs _ _ _ _ _ (ci_ring _ _ _ _ _ _ Hc))); [exact Hin'|apply list_elem_of_here|congruence]. }
  destruct Hwk as [Hwk|Hwk]; [|exfalso; apply Hwk, list_elem_of_here].
  destruct (winv_io fuel k n s ts i t _ s0 kk (kk s) q _ _ _ _ W Hi Et Hin' Eq' Hio Hn eq_refl ltac:(lia)) as (s' & seen' & W' & [Er|(Hns & _)]);
    [|exfalso; apply Hns, list_elem_of_here].
  rewrite Er in W'. eexists s', _, _, _, _, _.
  split; [apply (W_resume s ts i t (t_buf t) s0 kk (Ret tt s')); [exact Hi|exact Et|exact Hwk|exact Er|discriminate]|]. split; [exact W'|].
  split; [|apply calls_insert, Hi]. unfold todo. pose proof (weight_insert ts i t (with_run (Ret tt s') t) Hi) as Hwi.
  assert (Ew : weight t = 1%nat) by (unfold weight; rewrite Et; replace (t_buf t =? free_chan) with false by (unfold free_chan; lia); reflexivity).
  change (weight (with_run (Ret tt s') t)) with 0%nat in Hwi. simpl. lia.
Qed.

(** No request is under way: a thread that waits for descriptors gets them. *)
Lemma nearer_free fuel k s ts t : winv fuel k s ts [] [] [] [] -> (k < fuel)%nat -> t ∈ ts -> asleep t = true -> nearer fuel k s ts [] [] [].
Proof using All.
  intros W Hk Hin Ha. pose proof Hin as [i Hi]%list_elem_of_lookup. destruct (wi_live _ _ _ _ _ _ _ _ W t Hin) as [Hb Hlive].
  unfold asleep in Ha. destruct (t_run t) as [u s0| | |ch s0 kk] eqn:Et; try discriminate.
  destruct (Hlive ch s0 kk eq_refl) as [_ [(-> & Hno & Hwk & n & m & Hn & Hm & Hd)|(_ & q & n & Hq & _)]]; [|apply elem_of_nil in Hq; contradiction].
  destruct Hwk as [Hwk|Hwk]; [|simpl in Hwk; lia].
  destruct (winv_desc fuel k n m s ts i t _ s0 kk (kk s) _ _ _ _ W Hi Et Hno Hd Hn Hm eq_refl ltac:(lia)) as (c & s' & k' & pend' & Er & W' & [[_ H2]|[-> [q ->]]]);
    [simpl in H2; lia|].
  rewrite Er in W'. eexists s', _, _, _, _, _.
  split; [apply (W_resume s ts i t free_chan s0 kk (Sleep (t_buf t) s' k')); [exact Hi|exact Et|exact Hwk|exact Er|discriminate]|]. split; [exact W'|].
  split; [|apply calls_insert, Hi]. unfold todo. pose proof (weight_insert ts i t (with_run (Sleep (t_buf t) s' k') t) Hi) as Hwi.
  assert (Ew : weight t = 5%nat) by (unfold weight; rewrite Et; reflexivity).
  assert (Ew' : weight (with_run (Sleep (t_buf t) s' k') t) = 1%nat) by (unfold weight; simpl; replace (t_buf t =? free_chan) with false by (unfold free_chan; lia); reflexivity).
  simpl. lia.
Qed.

Lemma nearer_always fuel k s ts pend busy fin seen t : winv fuel k s ts pend busy fin seen -> (k < fuel)%nat -> t ∈ ts -> asleep t = true ->
  nearer fuel k s ts pend busy fin.
Proof using All.
  intros W Hk Hin Ha. destruct pend as [|q pend]; [|eapply nearer_device; [exact W|left; discriminate]].
  destruct busy as [|q busy]; [|eapply nearer_device; [exact W|right; discriminate]].
  destruct fin as [|q fin]; [|eapply nearer_intr; [exact W|discriminate]].
  destruct seen as [|q seen]; [eapply nearer_free; eassumption|eapply nearer_seen; eassumption].
Qed.

Lemma all_return d : forall fuel k s ts pend busy fin seen, winv fuel k s ts pend busy fin seen -> (todo ts pend busy fin <= d)%nat -> (k + d < fuel)%nat ->
  exists s' ts' k' pend' busy' fin' seen', rtc work (Config s ts false) (Config s' ts' false) /\ winv fuel k' s' ts' pend' busy' fin' seen' /\
    call_of <$> ts' = call_of <$> ts /\ forall t, t ∈ ts' -> asleep t = false.
Proof using All.
  induction d as [|d IH]; intros fuel k s ts pend busy fin seen W Hd Hf;
    (destruct (decide (Exists (fun t => asleep t = true) ts)) as [(t & Hin & Ha)%Exists_exists|Hno];
      [|exists s, ts, k, pend, busy, fin, seen; split; [apply rtc_refl|]; split; [exact W|]; split; [reflexivity|]; intros t Hin;
        apply not_true_is_false; intros Ha; apply Hno, Exists_exists; eauto]);
    destruct (nearer_always fuel k s ts pend busy fin seen t W ltac:(lia) Hin Ha) as (s1 & ts1 & p1 & b1 & f1 & n1 & Hw & W1 & Hlt & Ec); [lia|].
  destruct (IH fuel (S k) s1 ts1 p1 b1 f1 n1 W1 ltac:(lia) ltac:(lia)) as (s' & ts' & k' & p' & b' & f' & n' & Hr & W' & Ec' & Ha').
  exists s', ts', k', p', b', f', n'. split; [eapply rtc_l; eassumption|]. split; [exact W'|]. split; [congruence|exact Ha'].
Qed.

Lemma todo_bound s (ts : list thr) pend busy fin seen : ring_ok s pend busy fin seen -> (todo ts pend busy fin <= 5 * length ts + 6)%nat.
Proof using All.
  intros Hr. assert (Hlen := few_requests _ _ _ _ _ Hr). rewrite !length_app in Hlen. unfold todo.
  assert (sum_list (weight <$> ts) <= 5 * length ts)%nat; [|lia]. clear. induction ts as [|t ts IH]; csimpl; [lia|].
  assert (weight t <= 5)%nat; [|lia]. unfold weight. destruct (t_run t); try lia. destruct (_ =? _); lia.
Qed.

Lemma reachable_winv fuel s0 k c : fresh s0 -> nsteps (wstep fuel) k (Config s0 [] false) c ->
  c_panicked c = false /\ exists pend busy fin seen, winv fuel k (c_st c) (c_threads c) pend busy fin seen.
Proof using All.
  intros Hfr. revert c. induction k as [|k IH]; intros c Hs.
  - inversion Hs; subst. split; [reflexivity|]. exists [], [], [], []. pose proof (idle_cinv s0 Hfr) as Hc.
    split; [exact Hc|congruence|congruence|intros t Ht; apply elem_of_nil in Ht; contradiction].
  - apply nsteps_inv_r in Hs as (c1 & H1 & H2). destruct (IH c1 H1) as [Hp HW]. apply (winv_step fuel k c1); assumption.
Qed.

(** C20. Transfers come to an end.  In the system in which a thread asleep goes
    on only after a wakeup of its channel, the handler runs only for a pending
    interrupt and the device is only sure to look at the queue after it has been
    notified, no state is a dead end: whatever any number of calls, interrupts
    and the device have done in k steps, the calls under way can all still
    return, by what woken threads, the handler and the device do, with block
    and buffer of each holding what it asked for.  (The loops of the calls have
    fuel for the steps made so far and those left, five for every call and six
    for the requests the device has.) *)
Theorem virtio_returns fuel s0 k c : fresh s0 -> nsteps (wstep fuel) k (Config s0 [] false) c ->
  (k + 5 * length (c_threads c) + 6 < fuel)%nat ->
  exists c', rtc work c c' /\ c_panicked c' = false /\ call_of <$> c_threads c' = call_of <$> c_threads c /\
    forall t, t ∈ c_threads c' -> (exists u s, t_run t = Ret u s) /\ holds (c_st c') (t_buf t) (t_block t) (t_result t) (t_result t).
Proof using All.
  intros Hfr Hs Hf. destruct (reachable_winv fuel s0 k c Hfr Hs) as (Hp & pend & busy & fin & seen & W). destruct c as [s ts p]. simpl in *. subst p.
  pose proof (todo_bound s ts _ _ _ _ (ci_ring _ _ _ _ _ _ (wi_cinv _ _ _ _ _ _ _ _ W))) as Hb.
  destruct (all_return (todo ts pend busy fin) fuel k s ts pend busy fin seen W ltac:(lia) ltac:(lia))
    as (s' & ts' & k' & p' & b' & f' & n' & Hr & W' & Ec & Ha).
  exists (Config s' ts' false). split; [exact Hr|]. split; [reflexivity|]. split; [exact Ec|]. simpl. intros t Hin.
  destruct (ci_thr _ _ _ _ _ _ (wi_cinv _ _ _ _ _ _ _ _ W') t Hin) as [_ Hrun]. specialize (Ha t Hin). unfold asleep in Ha.
  destruct (t_run t) as [u s1| | |]; [|contradiction|contradiction|discriminate]. split; [eauto|apply Hrun].
Qed.
End Live.

(** ** An example *)

Module ExampleLive.
(** The registers of a device that obeys the promises: whether it is to look at
    the avail ring, whether it has an interrupt pending, and what was written. *)
Record regs : Type := Regs { g_notified : bool; g_pending : bool; g_log : list (Z * Z) }.
Definition g_write (a v : Z) (d : regs) : regs :=
  Regs (g_notified d || (a =? VIRTIO0 + VIRTIO_MMIO_QUEUE_NOTIFY))
       (g_pending d && negb (a =? VIRTIO0 + VIRTIO_MMIO_INTERRUPT_ACK)) (g_log d ++ [(a, v)]).

#[local] Instance ex_mmio : Mmio regs :=
  {| rd8 _ := ret 0; wr8 a v := modify (g_write a v);
     rd32 a := gets (fun d => if (a =? VIRTIO0 + VIRTIO_MMIO_INTERRUPT_STATUS) && g_pending d then 1 else 0);
     wr32 a v := modify (g_write a v) |}.
#[local] Instance ex_laws : MmioLaws regs.
Proof.
  refine {| written := g_log |}.
  - intros a v d. eexists. split; reflexivity.
  - intros a v d. eexists. split; reflexivity.
  - intros a d. exists 0, d. split; [reflexivity|]. split; [lia|reflexivity].
  - intros a d. eexists _, d. split; [reflexivity|]. split; [destruct (_ && _); lia|reflexivity].
Defined.

Definition ex_step (s s' : vst regs vdev) : Prop :=
  (exists s1, dev_fetch s = Some s1 /\ g_notified (v_regs s) = true /\
     s' = Vst (v_disk s1) (v_bufs s1) (Regs (negb (dv_last (v_dev s1) =? k_avail_idx (v_disk s1))) (g_pending (v_regs s)) (g_log (v_regs s))) (v_dev s1)) \/
  (exists j s1, dev_complete j s = Some s1 /\
     s' = Vst (v_disk s1) (v_bufs s1) (Regs (g_notified (v_regs s)) true (g_log (v_regs s))) (v_dev s1)).
#[local] Instance ex_device : VirtioDevice regs.
Proof.
  refine {| dev_step := ex_step |}. intros s s' [(s1 & E & _ & ->)|(j & s1 & E & ->)]; exists s1; (split; [|reflexivity]); [left|right]; eauto.
Defined.
#[local] Instance ex_working : WorkingDevice regs.
Proof.
  refine {| dev_notified := g_notified; dev_pending := g_pending |}.
  - intros d d' [= <-]. simpl. rewrite orb_true_r, andb_true_r. auto.
  - intros x d d' [= _ <-]. reflexivity.
  - intros x d d' [= <-]. simpl. apply orb_false_r.
  - intros s s' [(s1 & _ & _ & ->)|(j & s1 & _ & ->)] Hn Hne; simpl in *; [|exact Hn]. apply negb_true_iff. apply Z.eqb_neq, Hne.
  - intros s s' [(s1 & E & _ & ->)|(j & s1 & _ & ->)] H; simpl in *; [|reflexivity]. destruct H as [H|H]; [exact H|exfalso; apply H].
    unfold dev_fetch in E. destruct (_ =? _); [discriminate|]. injection E as <-. reflexivity.
  - intros s s1 E Hn. eexists. split; [left; eauto|reflexivity].
  - intros j s s1 E. eexists. split; [right; eauto|reflexivity].
Defined.

Definition ex_disk : disk :=
  Disk (0, 0, 0) (fun _ => Desc A_null 0 0 0) 0 (fun _ => 0) 0 (fun _ => 0) (fun _ => true) 0 (fun _ => 0) (fun _ => 0) (fun _ => Op 0 0 0) false (fun _ => 0).
(** Buffer 3 holds sevens and is for block 5. *)
Definition ex_vst : vst regs vdev :=
  Vst ex_disk (fun b => Vbuf 0 (if b =? 3 then 5 else 0) (fun _ => 7)) (Regs false false []) (Vdev 0 [] (fun a => a mod 256)).

(** A call that has gone to sleep. *)
Definition ex_called : config :=
  continue (virtio_disk_rw 20 3 true ex_vst) ex_vst [Thread 3 5 true (fun _ => 7) (block_on ex_vst 5) (virtio_disk_rw 20 3 true ex_vst)].

Lemma virtio_returns_witness :
  exists c', rtc work ex_called c' /\ c_panicked c' = false /\ call_of <$> c_threads c' = call_of <$> c_threads ex_called /\
    forall t, t ∈ c_threads c' -> (exists u s, t_run t = Ret u s) /\ holds (c_st c') (t_buf t) (t_block t) (t_result t) (t_result t).
Proof.
  apply (virtio_returns 20 ex_vst 1 ex_called); [repeat split| |vm_compute; lia].
  apply nsteps_once. apply (W_call 20 ex_vst [] 3 true); [closed|apply not_elem_of_nil|apply not_elem_of_nil|closed|reflexivity|vm_compute; discriminate].
Defined.
End ExampleLive.
