(* ===== verification/VirtioDisk.v ===== *)
(** * The disk driver as the buffer cache sees it

    [virtio_disk_rw] behind the interface [DiskDriver] of Bio.v.  A buffer is
    numbered by its block here.  The calls sleep; for a thread that is alone
    ([attended]), with a device that serves a request while the thread sleeps and
    then interrupts, they return, with what [DiskLaws] says of the bytes of the
    blocks the device can address. *)

From stdpp Require Import relations.
From S2P Require Import Prelude CString Riscv Kalloc Block Device Virtio VirtioSpec VirtioLive Sleeplock Bio.

Section Driver.
Context {D V : Type} {MM : Mmio D} (fuel : nat).

(** The fields of the buffer of block [b] before the call. *)
Definition hold (b : Z) (x : block) (s : vst D V) : vst D V :=
  Vst (v_disk s) (upd (v_bufs s) b (Vbuf (vb_disk (v_bufs s b)) b x)) (v_regs s) (v_dev s).

Definition virtio_driver : DiskDriver (vst D V) := {|
  disk_rw b write x :=
    modify (hold b x) ;;
    virtio_disk_rw fuel b write ;;
    gets (fun s => vb_data (v_bufs s b))
|}.
End Driver.

Section Alone.
Context {D : Type} {MM : Mmio D} {ML : MmioLaws D}.
Local Abbreviation st := (vst D vdev).
Implicit Types s : st.
Context (fuel : nat).

(** What the device does to its registers when it interrupts. *)
Context (raise : D -> D).

(** The device takes a request and completes it. *)
Definition serve s : st :=
  match dev_fetch s with
  | Some s1 =>
      match dev_complete 0 s1 with
      | Some s2 => Vst (v_disk s2) (v_bufs s2) (raise (v_regs s2)) (v_dev s2)
      | None => s1
      end
  | None => s
  end.

(** The thread is woken once, after the device and the interrupt handler. *)
Definition attended {A} (r : res st A) : res st A :=
  match r with
  | Sleep _ s k =>
      match virtio_disk_intr fuel (serve s) with
      | Ret _ s' => k s'
      | Panic m => Panic m
      | _ => NoFuel
      end
  | r => r
  end.

(** No transfer is under way. *)
Definition idle s : Prop := cinv s [] [] [] [] [].

Lemma serve_one s t q : (2 <= fuel)%nat -> cinv s [t] [q] [] [] [] ->
  exists s', virtio_disk_intr fuel (serve s) = Ret tt s' /\ cinv s' [t] [] [] [] [q] /\
    forall a, ~ q_block q * BSIZE <= a < q_block q * BSIZE + BSIZE -> dv_bytes (v_dev s') a = dv_bytes (v_dev s) a.
Proof using Type*.
  intros Hf Hc. pose proof (ci_ring _ _ _ _ _ _ Hc) as Hr. destruct (fetch_can _ _ _ _ _ _ Hr) as [s1 E1].
  destruct (fetch_ring _ _ _ _ _ _ Hr E1) as (q1 & p1 & [= <- <-] & Hr1 & _ & _ & Ev1 & _).
  destruct (fetch_cinv _ _ _ _ _ _ _ Hc E1) as (q1 & p1 & [= <- <-] & Hc1 & _). cbn [app] in Hr1, Hc1.
  destruct (complete_can _ _ _ _ _ _ Hr1) as [s2 E2].
  destruct (complete_ring _ _ _ _ _ _ _ Hr1 E2) as (q2 & [= <-] & Hr2 & (_ & _ & Tb & _) & _).
  destruct (complete_cinv _ _ _ _ _ _ _ _ Hc1 E2) as (q2 & [= <-] & Hc2 & _). cbn in Hr2, Hc2.
  set (s3 := Vst (v_disk s2) (v_bufs s2) (raise (v_regs s2)) (v_dev s2)).
  assert (Es : serve s = s3) by (unfold serve; rewrite E1, E2; reflexivity). rewrite Es.
  pose proof (cinv_regs s2 (raise (v_regs s2)) _ _ _ _ _ Hc2 : cinv s3 [t] [] [] [q] []) as Hc3.
  destruct (intr_run fuel s3 _ _ _ _ (ci_ring _ _ _ _ _ _ Hc3) (ci_lock _ _ _ _ _ _ Hc3)) as [[_ H]|(s' & E & _ & _ & Ev & _)]; [simpl in H; lia|].
  destruct (intr_cinv fuel s3 _ _ _ _ _ Hc3) as (s'' & E' & Hc' & _); [congruence|]. rewrite E in E'. injection E' as <-.
  exists s'. split; [exact E|]. split; [exact Hc'|]. intros a Ha. rewrite Ev. change (v_dev s3) with (v_dev s2). rewrite Tb, Ev1 by exact Ha. reflexivity.
Qed.

(** A transfer of a thread that is alone: reading gives the block, writing
    replaces it, and no other block changes. *)
Theorem attended_rw b w x s : (2 <= fuel)%nat -> idle s -> 0 <= b < 2 ^ 31 ->
  exists y s', attended (disk_rw (DiskDriver := virtio_driver fuel) b w x s) = Ret y s' /\ idle s' /\
    (forall i, 0 <= i < BSIZE -> y i = if w then x i else block_on s b i) /\
    (forall b' i, 0 <= i < BSIZE -> block_on s' b' i = if w && (b' =? b) then x i else block_on s b' i).
Proof using Type*.
  intros Hf Hi Hb. unfold disk_rw, virtio_driver. rewrite bind_modify. set (s0 := hold b x s).
  assert (H0 : cinv s0 [] [] [] [] []) by (apply holder_cinv; [exact Hi|intros ? H; apply elem_of_nil in H; contradiction]).
  assert (Eb : v_bufs s0 b = Vbuf (vb_disk (v_bufs s b)) b x) by apply upd_eq.
  destruct (call_cinv fuel b w s0 [] (virtio_disk_rw fuel b w s0) [] [] [] [] H0) as (c & s1 & k & pend & Er & Hc & _ & Hw);
    [apply not_elem_of_nil|apply not_elem_of_nil|rewrite Eb; exact Hb|reflexivity|intros ->; lia|]. rewrite Eb in Hc, Hw. cbn [vb_blockno vb_data app] in Hc, Hw.
  destruct Hw as [(_ & _ & _ & H2 & _)|(q & n & -> & Eq & -> & Em & Hio & _ & Ev)]; [simpl in H2; lia|]. cbn [app] in Hc.
  set (t := Thread b b w x (block_on s0 b) (virtio_disk_rw fuel b w s0)) in *.
  destruct (ci_req _ _ _ _ _ _ Hc q (list_elem_of_here _ _)) as (t' & Ht & _ & Eqb & _). apply list_elem_of_singleton in Ht as ->.
  destruct (serve_one s1 t q Hf Hc) as (s2 & E2 & Hc2 & Hb2).
  destruct (resume_io n s2 [t] 0 t b s1 k (k s2) q [] [] [] [q] Hc2 eq_refl Er (list_elem_of_here _ _) Eq Hio eq_refl)
    as [(s' & l1 & l2 & El & E3 & Hc3 & _ & _ & _ & Ev3)|(k' & n' & Hns & _)]; [intros ->; lia| |exfalso; apply Hns, list_elem_of_here].
  destruct l1 as [|? l1]; [|destruct l1; discriminate]. injection El as <-. cbn in Hc3.
  pose proof (ci_thr _ _ _ _ _ _ Hc3 _ (list_elem_of_here _ _)) as [_ Hrun]. cbn [with_run t_run] in Hrun. rewrite E3 in Hrun, Hc3. destruct Hrun as [[_ Hh] Hno]. cbn in Hh.
  exists (vb_data (v_bufs s' b)), s'. split; [unfold bind; rewrite Er; cbn [bindr attended]; rewrite E2, E3; reflexivity|].
  split; [apply (cinv_tail _ _ _ _ _ _ _ Hc3); intros q' H; apply elem_of_nil in H; contradiction|].
  assert (Hres : forall i, t_result (with_run (Ret tt s') t) i = if w then x i else block_on s b i) by (intros i; unfold t_result; simpl; destruct w; reflexivity).
  split; [intros i Hi'; rewrite <- Hres; apply Hh, Hi'|]. intros b' i Hi'. destruct (Z.eqb_spec b' b) as [->|Hne].
  - unfold block_on at 1. rewrite (proj2 (Hh i Hi')), Hres. destruct w; reflexivity.
  - rewrite andb_false_r. unfold block_on. rewrite Ev3, Hb2, Ev by (rewrite Eqb; cbn; unfold BSIZE in *; lia). reflexivity.
Qed.
End Alone.
