(* ===== verification/Kernel.v ===== *)
(** * The kernel put together

    The environments the process table ([ProcEnv]) and the trap handlers
    ([SysEnv]) are written against, from the components of the kernel: the files
    over the log, the buffer cache and the disk driver, the user memory of the
    process that makes the call, and the console, the framebuffer device, the
    UART and the interrupt controller.  A system call sees its process through
    the views below: they put the fields of the process table and the memory of
    the machine where the file system has them, and back. *)

From S2P Require Import Prelude CString Riscv Sleeplock Spinlock Kalloc Vm Block Bio Log Txn UserMem Fs Pipe File Sysfile Fb Devfb Console.
From S2P Require Import Device Virtio VirtioDisk Proc Exec SysExec ExecFile Trap.
From S2P Require Import ProcSpec PageTable AddressSpace CopyUser Spaces ProcMem ForkSpec.
Import VmUser.

Definition CONSOLE : Z := 1.
Definition FB_DEVICE : Z := 2.

(** ** The memory of the current process *)

Definition vm_proc : UserProc uenv := {|
  page_alloc := zoom ue_lens kalloc;
  page_free pa := zoom ue_lens (kfree pa);
  copyin_str addr max :=
    let! u := gets (fun u => u) in
    let! r := zoom ue_lens (copyinstr (p_pagetable (ue_proc u)) (ue_buf u) addr max) in
    if r <? 0 then ret None
    else gets (fun u => Some (string_at (Z.to_nat max) (phys (ue_kst u)) (ue_buf u)));
  user_sz u := p_sz (ue_proc u)
|}.

(** ** The devices *)

Record devs (R : Type) : Type := Devs {
  dd_plic : R;                 (* the registers of the interrupt controller *)
  dd_uart : uart R unit;       (* the UART and the console *)
  dd_fblock : bool;            (* the lock of the framebuffer device *)
  dd_killed : bool             (* myproc()->killed *)
}.
Arguments Devs {R}.
Arguments dd_plic {R}.
Arguments dd_uart {R}.
Arguments dd_fblock {R}.
Arguments dd_killed {R}.

Section Devices.
Context {R : Type} (fb hdr : Z) (fuel : nat).

(** The console as the current process uses it. *)
Definition console_of : lens (devs R * uenv) (cons uenv) :=
  Lens (fun x => let c := u_cons (dd_uart x.1) in
          Cons (cs_lock c) (cs_buf c) (cs_r c) (cs_w c) (cs_e c) (cs_out c) (dd_killed x.1) x.2)
       (fun c x => let d := x.1 in
          (Devs (dd_plic d) (set cons_of (Cons (cs_lock c) (cs_buf c) (cs_r c) (cs_w c) (cs_e c) (cs_out c) false tt) (dd_uart d))
                (dd_fblock d) (dd_killed d), cs_user c)).

Definition fb_of : lens (devs R * uenv) fbst :=
  Lens (fun x => Fbst (ue_kst x.2) (dd_fblock x.1))
       (fun s x => (Devs (dd_plic x.1) (dd_uart x.1) (f_locked s) (dd_killed x.1), set ue_lens (f_k s) x.2)).

(** The table, as [consoleinit] and [fbdev_register] fill it. *)
Definition devsw (major : Z) : devops (devs R * uenv) :=
  if major =? CONSOLE then
    Devops (Some (fun user dst n => zoom console_of (consoleread fuel user dst n)))
           (Some (fun user src n => zoom console_of (consolewrite user src n)))
  else if major =? FB_DEVICE then
    Devops (Some (fun user dst n => let! p := gets (fun x => ue_proc x.2) in zoom fb_of (fbdev_read fb p user dst n)))
           (Some (fun user src n => let! p := gets (fun x => ue_proc x.2) in zoom fb_of (fbdev_write fb hdr p user src n)))
  else Devops None None.
End Devices.

(** ** Files and processes *)

Section Files.
Context {T R : Type} `{TX : Txn T} `{TC : TxnCtl T}.
(** Where the kernel has the pixels, the local variables of the calls and the
    trampoline; what its stack holds in the holes of [struct stat]; how the layers
    below learn the pid of the current process; how often waiting threads are
    woken for nothing. *)
Context (trampoline fb hdr buf ustack upath uarg : Z) (stack : list Z) (as_pid : Z -> T -> T) (wakeups : nat).
Local Abbreviation files := (kern T uenv (devs R)).

#[local] Instance the_user : UserMem uenv := vm_user.
#[local] Instance the_proc : UserProc uenv := vm_proc.

Definition retype {U U'} (u : U') (s : fs T U) : fs T U' :=
  FS (f_txn s) (f_sb s) (f_itlock s) (f_inode s) (f_cwd s) (f_pid s) u (f_console s).

(** The files as the code of [proc.c] reaches them, with the machine's memory. *)
Definition files_at : lens (kst * files) files :=
  Lens (fun x => set proc_user (set ue_lens x.1 (f_user (k_fs x.2))) x.2)
       (fun s _ => (ue_kst (f_user (k_fs s)), s)).

Definition file_env : ProcEnv files := {|
  e_filedup f := zoom files_at (filedup f);
  e_fileclose f := zoom files_at (fileclose wakeups f);
  e_idup ip := zoom files_at (zoom fs_of (idup ip));
  e_iput_op ip := zoom files_at (begin_op ;; zoom fs_of (iput wakeups ip) ;; end_op);
  e_namei path := zoom files_at (zoom fs_of (namei wakeups path))
|}.

(** The same for a system call of process [p]: its pid, current directory,
    descriptors, address space, and the arguments in its trapframe. *)
Definition call_at : lens (kst * proc * files) files :=
  Lens (fun x => let '(k, p, s) := x in let f := k_fs s in let d := k_dev s in
          Kern (FS (as_pid (p_pid p) (f_txn f)) (f_sb f) (f_itlock f) (f_inode f) (p_cwd p) (p_pid p)
                   (Uenv k (Uproc (p_size p) (p_pgtbl p)) buf) (f_console f))
               (k_ftlock s) (k_file s) (k_pipe s) (negb (p_killed p =? 0)) (p_ofile p)
               (fun n => load (phys k) (p_trapframe p + TF_a0 + 8 * n) 8)
               (Devs (dd_plic d) (dd_uart d) (dd_fblock d) (negb (p_killed p =? 0))))
       (fun s x => let '(_, p, _) := x in
          (ue_kst (f_user (k_fs s)), w_cwd (f_cwd (k_fs s)) (w_ofile (k_ofile s) p), s)).

(** [kexec] replaces the address space and the name. *)
Definition exec_at : lens (kst * proc * files) (xst (fs T kst)) :=
  Lens (fun x => let '(k, p, s) := x in
          Xst k (retype k (k_fs (view call_at x))) (p_size p) (p_pgtbl p) (p_trapframe p) (p_name p))
       (fun e x => let '(_, p, s) := x in
          (x_mem e, w_name (x_name e) (w_size (x_sz e) (w_pgtbl (x_pgtbl e) p)),
           set fs_of (retype (set ue_lens (x_mem e) (f_user (k_fs s))) (x_env e)) s)).

(** The entries of the table [syscalls] that are in [sysfile.c]. *)
Definition file_calls (num : Z) : M (kst * proc * files) Z :=
  let sw := devsw fb hdr wakeups in
  match num with
  | 4 => zoom call_at (sys_pipe wakeups)
  | 5 => zoom call_at (sys_read sw wakeups)
  | 7 => zoom exec_at (sys_exec (XF := exec_fs wakeups) trampoline ustack upath uarg)
  | 8 => zoom call_at (sys_fstat stack wakeups)
  | 9 => zoom call_at (sys_chdir wakeups)
  | 10 => zoom call_at sys_dup
  | 15 => zoom call_at (sys_open wakeups)
  | 16 => zoom call_at (sys_write sw wakeups)
  | 17 => zoom call_at (sys_mknod wakeups)
  | 18 => zoom call_at (sys_unlink wakeups)
  | 19 => zoom call_at (sys_link wakeups)
  | 20 => zoom call_at (sys_mkdir wakeups)
  | 21 => zoom call_at (sys_close wakeups)
  | _ => ret (-1)
  end.

(** *** What duplicating files promises [kfork] *)

Lemma zoom_files {A} (m : M files A) k s a s' : m (set proc_user (set ue_lens k (f_user (k_fs s))) s) = Ret a s' ->
  ue_kst (f_user (k_fs s')) = k -> zoom files_at m (k, s) = Ret a (k, s').
Proof using Type. intros E <-. apply (zoom_ret files_at m (ue_kst (f_user (k_fs s')), s) a s' E). Qed.

(** The tables' locks are free; a file has a reference, and room for [n] more. *)
Definition files_quiet (s : files) : Prop := k_ftlock s = false /\ f_itlock (k_fs s) = false.
Definition file_live (s : files) (n f : Z) : Prop := 1 <= fi_ref (k_file s f) /\ fi_ref (k_file s f) + n < 2 ^ 31.

Definition file_env_fork : ForkEnv files (H := file_env).
Proof using Type.
  refine (Build_ForkEnv files file_env file_live files_quiet _ _ _).
  - intros s m n f Hm [H1 H2]. split; [exact H1|lia].
  - intros f n k s [Hl Hi] Hn [H1 H2].
    set (s0 := set proc_user (set ue_lens k (f_user (k_fs s))) s).
    exists (set ftable_lock false (set_file f (fi_set_ref (i32 (fi_ref (k_file s f) + 1))) s0)). split.
    + apply zoom_files; [|reflexivity]. unfold filedup, acquire, release, get_file. fold s0.
      unfold bind at 1. simpl. rewrite Hl. simpl. rewrite bind_gets. simpl. replace (fi_ref (k_file s f) <? 1) with false by lia. reflexivity.
    + split; [split; [reflexivity|exact Hi]|]. intros g m Hm [G1 G2]. unfold file_live. simpl. unfold upd.
      destruct (Z.eqb_spec g f) as [->|]; [|lia]. simpl. rewrite i32_small by lia. lia.
  - intros ip k s [Hl Hi]. set (s0 := set proc_user (set ue_lens k (f_user (k_fs s))) s).
    exists (set fs_of (set itable_lock false (set_inode ip (fun i => with_ref (i32 (i_ref i + 1)) i) (k_fs s0))) s0).
    split; [apply zoom_files; [|reflexivity]|split; [exact Hl|reflexivity]]. fold s0.
    apply zoom_ret. unfold idup, acquire, release. unfold bind at 1. simpl. rewrite Hi. reflexivity.
Defined.
End Files.

(** ** The rest *)

Section Machine.
Context {R V : Type} {MM : Mmio R}.
Context (trampoline fb hdr buf ustack upath uarg : Z) (stack : list Z) (wakeups : nat).

#[local] Instance the_driver : DiskDriver (vst R V) := virtio_driver wakeups.
#[local] Instance the_cache : BlockCache (bcache (vst R V)) := bio_cache wakeups.
Local Abbreviation log := (logst (bcache (vst R V))).
#[local] Instance the_ctl : TxnCtl log := log_ctl wakeups.
Local Abbreviation files := (kern log uenv (devs R)).

Definition set_pid (pid : Z) (l : log) : log :=
  let c := l_cache l in set cache_of (Bcache (c_lock c) (c_buf c) (c_prev c) (c_next c) (c_disk c) pid) l.

Definition set_dev (d : devs R) (s : files) : files :=
  Kern (k_fs s) (k_ftlock s) (k_file s) (k_pipe s) (k_killed s) (k_ofile s) (k_args s) d.
Definition plic_of : lens files R :=
  Lens (fun s => dd_plic (k_dev s)) (fun r s => let d := k_dev s in set_dev (Devs r (dd_uart d) (dd_fblock d) (dd_killed d)) s).
Definition uart_of : lens files (uart R unit) :=
  Lens (fun s => dd_uart (k_dev s)) (fun u s => let d := k_dev s in set_dev (Devs (dd_plic d) u (dd_fblock d) (dd_killed d)) s).
Definition disk_of : lens files (vst R V) :=
  Lens (fun s => c_disk (l_cache (f_txn (k_fs s))))
       (fun v s => let l := f_txn (k_fs s) in let c := l_cache l in
          set fs_of (set Fs.txn_of (set cache_of (Bcache (c_lock c) (c_buf c) (c_prev c) (c_next c) v (c_pid c)) l) (k_fs s)) s).

Definition plic_mmio : Mmio files := {|
  rd8 a := zoom plic_of (rd8 a);
  wr8 a v := zoom plic_of (wr8 a v);
  rd32 a := zoom plic_of (rd32 a);
  wr32 a v := zoom plic_of (wr32 a v)
|}.

(** The kernel below the trap handlers. *)
Definition kernel : SysEnv files := {|
  f_mmio := plic_mmio;
  f_uartintr := zoom uart_of (uartintr wakeups);
  f_virtio_intr := zoom disk_of (virtio_disk_intr wakeups);
  f_call := file_calls trampoline fb hdr buf ustack upath uarg stack set_pid wakeups;
  f_proc := file_env wakeups
|}.
End Machine.

Module ExampleForked.
(** A machine with ten free pages, whose files are those of the kernel. *)
#[local] Instance no_regs : Mmio unit :=
  {| rd8 _ := ret 0; wr8 _ _ := ret tt; rd32 _ := ret 0; wr32 _ _ := ret tt |}.
Local Abbreviation files := (kern (logst (bcache (vst unit unit))) uenv (devs unit)).
#[local] Instance files_env : ProcEnv files := f_proc (SysEnv := kernel KERNBASE 0 0 0 0 0 0 [] 1).
#[local] Instance files_fork : ForkEnv files := file_env_fork 1.

Definition machine : kst := match kinit (boot_state (PHYSTOP - 40960)) with Ret _ k => k | _ => boot_state 1 end.
Definition no_lock : sleeplock := Sleeplock false false 0.
Definition ex_disk : vst unit unit :=
  Vst (Disk (0, 0, 0) (fun _ => Desc A_null 0 0 0) 0 (fun _ => 0) 0 (fun _ => 0) (fun _ => true) 0 (fun _ => 0) (fun _ => 0)
        (fun _ => Op 0 0 0) false (fun _ => 0)) (fun _ => Vbuf 0 0 (fun _ => 0)) tt tt.
Definition ex_fs : fs (logst (bcache (vst unit unit))) uenv :=
  FS (Logst (Bcache false (fun _ => Buf false 0 0 no_lock 0 (fun _ => 0)) (fun _ => 0) (fun _ => 0) ex_disk 0) 2 0 false 1 0 [] false)
     (Sb 0 0 0 0 0 0 0 0) false (fun _ => Inode 1 1 1 no_lock true T_DIR 0 0 1 0 []) 0 0 (Uenv machine (Uproc 0 0) 0) [].
(** File 3 is open, once. *)
Definition ex_files : files :=
  Kern ex_fs false (fun f => if f =? 3 then File FD_INODE 1 true true 0 1 0 0 else File FD_NONE 0 false false 0 0 0 0)
       (fun _ => Pipe.Pipe false (fun _ => 0) 0 0 false false (fun _ => false) false tt) false (fun _ => NULL) (fun _ => 0)
       (Devs tt (Uart tt false 0 (Cpu false 0 false) false false (Cons false (fun _ => 0) 0 0 0 [] false tt)) false false).

Definition blank : proc := Proc false UNUSED 0 0 0 0 NULLP 0 0 0 0 0 0 (fun _ => NULLP) NULLP [].
Definition ex_boot : ps files := Ps machine (fun _ => blank) 1 false false NULLP 0 (Cpu false 0 false) ex_files.
(** Descriptor 0 names it; the current directory is entry 0 of the inode table. *)
Definition opens (p : proc) : proc := w_cwd 0 (w_ofile (fun fd => if fd =? 0 then 3 else NULLP) p).
Definition start : M (ps files) unit := allocproc KERNBASE 0 ;; release_off (proc_lock 0) ;; modify (set_proc 0 opens).

Lemma machine_ok : exists l, kinv machine l.
Proof.
  destruct (kinit_spec (boot_state (PHYSTOP - 40960))) as (k & E & Hk & _); [reflexivity|intros x; simpl; lia|vm_compute; split; congruence|].
  eexists. unfold machine. rewrite E. exact Hk.
Qed.

(** Entry 0 is allocated, and its process forks: file 3 is open twice. *)
Definition result {S A} (r : res S A) : option A := match r with Ret a _ => Some a | _ => None end.
Lemma ex_results : result (allocproc KERNBASE 0 ex_boot) = Some 0 /\ result ((start ;; kfork KERNBASE 0) ex_boot) = Some 2.
Proof. vm_compute. auto. Qed.

(** [kfork] with the files of the kernel. *)
Lemma kfork_correct_witness :
  exists s tab k l s' tab' k' l', start ex_boot = Ret tt s /\ p_ofile (tab 0) 0 = 3 /\
    kfork KERNBASE 0 s = Ret 2 s' /\ fork_keeps KERNBASE tab k l tab' k' l' /\ fork_result 0 tab k l 2 2 tab' k' l'.
Proof.
  destruct machine_ok as [l0 Hk0]. destruct ex_results as [C1 C2]. pose (tab0 := fun _ : Z => blank).
  assert (Hs0 : looks 0 false ex_boot tab0 machine ex_files 1 0) by (split; reflexivity).
  assert (He0 : forall k l, entry_ok KERNBASE k l blank) by (intros k l; split; simpl; try congruence; auto).
  destruct (allocproc_run KERNBASE 0 0 false eq_refl ltac:(closed) ex_boot tab0 machine ex_files 1 l0 Hs0 ltac:(intros q _; reflexivity) Hk0 ltac:(intros q _; apply He0))
    as (r & s1 & k & l & R1 & Hk & _ & Hr).
  rewrite R1 in C1. injection C1 as ->. destruct Hr as [[H _]|(np & Hnp & _ & [[H _]|(<- & tf & pt & Ht & Hpt & Hs1 & Hc & _)])]; [discriminate..|].
  destruct (looks_release _ _ _ _ _ _ _ 0 Hs1 eq_refl) as (s & R2 & Hs).
  assert (R3 : start ex_boot = Ret tt (set_proc 0 opens s)).
  { unfold start. rewrite (bind_ret_l _ _ _ _ _ R1), (bind_ret_l _ _ _ _ _ R2). reflexivity. }
  rewrite (bind_ret_l _ _ _ _ _ R3) in C2. apply (looks_set _ _ _ _ _ _ _ _ 0 opens) in Hs.
  set (x := opens (w_lock false (allocated 0 (tab0 0) 1 tf pt))).
  apply (looks_tab _ _ _ _ (upd tab0 0 x)) in Hs; [|intros q; rewrite ?upd_eq; unfold upd; destruct (q =? 0); reflexivity].
  assert (Hx : entry_ok KERNBASE k l x) by (destruct Hc; split; auto; discriminate).
  assert (Hm : mem_ok KERNBASE (upd tab0 0 x) k l).
  { split; [exact Hk| |].
    - intros p _. unfold upd. destruct (p =? 0); [exact Hx|apply He0].
    - intros p p' q _ _ Hne. unfold upd. destruct (Z.eqb_spec p 0), (Z.eqb_spec p' 0); try congruence; unfold has; simpl; tauto. }
  destruct (kfork_correct KERNBASE 0 0 false eq_refl ltac:(closed) ltac:(closed) (set_proc 0 opens s) (upd tab0 0 x) k ex_files 2 l Hs Hm) as (r & s' & tab' & k' & l' & e' & pid' & R & _ & H1 & H2).
  { intros q _. unfold upd. destruct (q =? 0); reflexivity. } { exact Hpt. } { split; reflexivity. }
  { intros j _ Hj. rewrite upd_eq in *. simpl in *. destruct (j =? 0); [split; reflexivity|congruence]. }
  rewrite R in C2. injection C2 as ->. exists (set_proc 0 opens s), (upd tab0 0 x), k, l, s', tab', k', l'. auto.
Defined.
End ExampleForked.

Module ExampleCall.
Import ExampleForked.
#[local] Existing Instance no_regs.
Local Abbreviation files := (kern (logst (bcache (vst unit unit))) uenv (devs unit)).
#[local] Instance ex_kernel : SysEnv files := kernel KERNBASE 0 0 0 0 0 0 [] 1.

(** Process 0, pid 7, with file 3 under descriptor 0, traps with [dup(0)] in its
    registers. *)
Definition ex_proc : proc :=
  opens (Proc false RUNNING 0 0 0 7 NULLP 0 4096 0x80001000 0x80002000 0 0 (fun _ => NULLP) 0 []).
Definition ex_trap : ps (tenv files) :=
  Ps (Kst (store_le (fun _ => 0) (0x80002000 + TF_a7) 8 10) 0 false 0) (fun _ => ex_proc) 8 false false 0 0 (Cpu true 0 false)
     (Tenv (Regs 0x100 8 0 0 0 0 0 0 0) 0 false Animation.anim_boot DebugGraph.dbg_boot [] ex_files).

(** The process goes on after the [ecall] with the new descriptor 1 in its a0,
    which names file 3; file 3 has one reference more. *)
Example dup_trap :
  match usertrap TRAMPOLINE TRAMPOLINE 0 0 0 0 0 (fun p => p) (fun p => p) 0 ex_trap with
  | Ret satp s =>
      satp = MAKE_SATP 0x80001000 /\ g_sepc (te_regs (ps_env s)) = 0x104 /\
      load (phys (ps_mem s)) (0x80002000 + TF_a0) 8 = 1 /\
      p_ofile (ps_proc s 0) 1 = 3 /\ fi_ref (k_file (te_files (ps_env s)) 3) = 2
  | _ => False
  end.
Proof. vm_compute. auto. Qed.
End ExampleCall.
