(* ===== verification/Umalloc.v ===== *)
(** * The user memory allocator

    [user/umalloc.c], the allocator of Kernighan and Ritchie.  A header is known
    by its address; its two fields are the maps [h_ptr] and [h_size] from
    addresses to values, whether or not there is a block at the address. *)

From S2P Require Import Prelude.

(** [sizeof(Header)]. *)
Definition HEADER : Z := 16.
Definition SBRK_ERROR : Z := u64 (-1).

Record heap : Type := Heap {
  h_ptr : Z -> Z;       (* s.ptr *)
  h_size : Z -> Z;      (* s.size *)
  h_freep : Z;
  h_brk : Z             (* the end of the process's memory *)
}.

Definition set_ptr (p q : Z) (s : heap) : heap := Heap (upd (h_ptr s) p q) (h_size s) (h_freep s) (h_brk s).
Definition set_size (p n : Z) (s : heap) : heap := Heap (h_ptr s) (upd (h_size s) p n) (h_freep s) (h_brk s).
Definition set_freep (p : Z) (s : heap) : heap := Heap (h_ptr s) (h_size s) p (h_brk s).

Section Umalloc.
(** The address of [base], and whether the kernel grants [n] more bytes. *)
Context (base : Z) (grant : Z -> Z -> bool).

(** [sbrk(n)]; [n] is an int. *)
Definition sbrk (n : Z) : M heap Z :=
  let! b := gets h_brk in
  if grant b n then modify (fun s => Heap (h_ptr s) (h_size s) (h_freep s) (b + n)) ;; ret b
  else ret SBRK_ERROR.

(** The loop of [free]: where [bp] belongs. *)
Fixpoint free_find (fuel : nat) (p bp : Z) : M heap Z :=
  match fuel with
  | O => nofuel
  | S fuel =>
      let! np := gets (fun s => h_ptr s p) in
      if (p <? bp) && (bp <? np) then ret p
      else if (np <=? p) && ((p <? bp) || (bp <? np)) then ret p
      else free_find fuel np bp
  end.

(** Join [bp] with the block [np] after it if they touch, else link them. *)
Definition free_next (bp np : Z) : M heap unit :=
  let! bsize := gets (fun s => h_size s bp) in
  if bp + HEADER * bsize =? np then
    let! nsize := gets (fun s => h_size s np) in
    modify (set_size bp (u32 (bsize + nsize))) ;;
    let! nnp := gets (fun s => h_ptr s np) in
    modify (set_ptr bp nnp)
  else modify (set_ptr bp np).

(** Join the block [p] with [bp] after it if they touch, else link them. *)
Definition free_prev (p bp : Z) : M heap unit :=
  let! psize := gets (fun s => h_size s p) in
  if p + HEADER * psize =? bp then
    let! bsize := gets (fun s => h_size s bp) in
    modify (set_size p (u32 (psize + bsize))) ;;
    let! bnp := gets (fun s => h_ptr s bp) in
    modify (set_ptr p bnp)
  else modify (set_ptr p bp).

Definition free (fuel : nat) (ap : Z) : M heap unit :=
  let bp := ap - HEADER in
  let! freep := gets h_freep in
  let! p := free_find fuel freep bp in
  let! np := gets (fun s => h_ptr s p) in
  free_next bp np ;;
  free_prev p bp ;;
  modify (set_freep p).

Definition morecore (fuel : nat) (nu : Z) : M heap Z :=
  let nu := if nu <? 4096 then 4096 else nu in
  let! p := sbrk (i32 (u64 (nu * HEADER))) in
  if p =? SBRK_ERROR then ret 0 else
  modify (set_size p nu) ;;
  free fuel (p + HEADER) ;;
  gets h_freep.

(** The block [p] is large enough: unlink it, or cut its end off. *)
Definition malloc_take (nunits prevp p size : Z) : M heap Z :=
  let! p :=
    (if size =? nunits then
       let! np := gets (fun s => h_ptr s p) in
       modify (set_ptr prevp np) ;; ret p
     else
       let rest := u32 (size - nunits) in
       modify (set_size p rest) ;;
       let p := p + HEADER * rest in
       modify (set_size p nunits) ;; ret p) in
  modify (set_freep prevp) ;;
  ret (p + HEADER).

Fixpoint malloc_loop (fuel : nat) (nunits prevp p : Z) : M heap Z :=
  match fuel with
  | O => nofuel
  | S n =>
      let! size := gets (fun s => h_size s p) in
      if nunits <=? size then
        malloc_take nunits prevp p size
      else
        let! freep := gets h_freep in
        if p =? freep then
          let! p := morecore n nunits in
          if p =? 0 then ret 0 else
          let! np := gets (fun s => h_ptr s p) in
          malloc_loop n nunits p np
        else
          let! np := gets (fun s => h_ptr s p) in
          malloc_loop n nunits p np
  end.

Definition malloc (fuel : nat) (nbytes : Z) : M heap Z :=
  let nunits := u32 ((nbytes + HEADER - 1) / HEADER + 1) in
  let! freep := gets h_freep in
  when (freep =? 0)
    (modify (set_freep base) ;; modify (set_ptr base base) ;; modify (set_size base 0)) ;;
  let! prevp := gets h_freep in
  let! p := gets (fun s => h_ptr s prevp) in
  malloc_loop fuel nunits prevp p.
End Umalloc.
