(* ===== verification/UmallocSpec.v ===== *)
(** * The user memory allocator keeps the heap in order

    The heap is a row of blocks, free or in use, without gaps; the free list is
    the circular list of the free ones in the order of their addresses, with
    [base] first, and no two blocks next to each other are both free. *)

From S2P Require Import Prelude Umalloc.

Record blk : Type := Blk { b_at : Z; b_n : Z; b_free : bool }.

(** The blocks fill the memory from [lo] to [hi]. *)
Fixpoint tiles (lo hi : Z) (bs : list blk) : Prop :=
  match bs with
  | [] => lo = hi
  | b :: bs => b_at b = lo /\ 0 < b_n b /\ tiles (lo + HEADER * b_n b) hi bs
  end.

(** No two neighbours are both free. *)
Fixpoint apart (bs : list blk) : Prop :=
  match bs with
  | b :: bs' => (match bs' with c :: _ => b_free b && b_free c = false | [] => True end) /\ apart bs'
  | [] => True
  end.

(** The addresses of the free blocks. *)
Fixpoint frees (bs : list blk) : list Z :=
  match bs with
  | [] => []
  | b :: bs => if b_free b then b_at b :: frees bs else frees bs
  end.

(** Following [ptr] from [p] passes through [l] and arrives at [q]. *)
Fixpoint seg (ptr : Z -> Z) (p : Z) (l : list Z) (q : Z) : Prop :=
  match l with
  | [] => p = q
  | x :: l => p = x /\ seg ptr (ptr x) l q
  end.

Lemma frees_app a b : frees (a ++ b) = frees a ++ frees b.
Proof. induction a as [|x a IH]; simpl; [reflexivity|]. destruct (b_free x); simpl; rewrite IH; reflexivity. Qed.

Lemma tiles_app lo hi a b : tiles lo hi (a ++ b) <-> exists mid, tiles lo mid a /\ tiles mid hi b.
Proof.
  revert lo. induction a as [|x a IH]; intros lo; simpl.
  - split; [eauto|]. intros (mid & <- & H). exact H.
  - rewrite IH. split; [intros (H1 & H2 & mid & H3 & H4); eauto 6|]. intros (mid & (H1 & H2 & H3) & H4). eauto 6.
Qed.

Lemma tiles_le lo hi bs : tiles lo hi bs -> lo <= hi.
Proof. revert lo. induction bs as [|b bs IH]; intros lo; simpl; [lia|]. intros (_ & Hn & H). apply IH in H. unfold HEADER in H. lia. Qed.

Lemma tiles_in lo hi bs b : tiles lo hi bs -> b ∈ bs -> lo <= b_at b /\ b_at b + HEADER * b_n b <= hi /\ 0 < b_n b.
Proof.
  revert lo. induction bs as [|c bs IH]; intros lo Ht Hb; [apply elem_of_nil in Hb; contradiction|].
  destruct Ht as (E & Hn & Ht). apply elem_of_cons in Hb as [->|Hb].
  - apply tiles_le in Ht. lia.
  - destruct (IH _ Ht Hb). unfold HEADER in *. lia.
Qed.

Lemma frees_elem bs x : x ∈ frees bs -> exists b, b ∈ bs /\ b_at b = x /\ b_free b = true.
Proof.
  induction bs as [|b bs IH]; simpl; [intros H; apply elem_of_nil in H; contradiction|].
  destruct (b_free b) eqn:E; [intros [->|H]%elem_of_cons|intros H]; try (destruct (IH H) as (c & ? & ? & ?); exists c; rewrite elem_of_cons; auto).
  exists b. rewrite elem_of_cons. auto.
Qed.

Lemma elem_frees bs b : b ∈ bs -> b_free b = true -> b_at b ∈ frees bs.
Proof.
  intros (l1 & l2 & ->)%list_elem_of_split Hf. rewrite frees_app. simpl. rewrite Hf, elem_of_app, elem_of_cons. auto.
Qed.

Lemma frees_bound lo hi bs x : tiles lo hi bs -> x ∈ frees bs -> lo <= x < hi.
Proof. intros Ht (b & Hb & <- & _)%frees_elem. destruct (tiles_in lo hi bs b Ht Hb) as (? & ? & ?). unfold HEADER in *. lia. Qed.

Lemma apart_app a b : apart (a ++ b) <->
  apart a /\ apart b /\ (match last a, head b with Some x, Some y => b_free x && b_free y = false | _, _ => True end).
Proof.
  induction a as [|x a IH]; simpl; [tauto|]. destruct a as [|y a]; simpl in *; [destruct b; simpl; tauto|]. rewrite IH. tauto.
Qed.

Lemma seg_app ptr p l1 l2 q : seg ptr p (l1 ++ l2) q <-> exists r, seg ptr p l1 r /\ seg ptr r l2 q.
Proof.
  revert p. induction l1 as [|x l1 IH]; intros p; simpl.
  - split; [eauto|]. intros (r & -> & H). exact H.
  - rewrite IH. split; [intros (-> & r & H1 & H2); eauto|]. intros (r & (-> & H1) & H2). eauto.
Qed.

Lemma seg_ext ptr ptr' p l q : (forall x, x ∈ l -> ptr' x = ptr x) -> seg ptr p l q -> seg ptr' p l q.
Proof.
  revert p. induction l as [|x l IH]; intros p He; simpl; [auto|]. intros [-> H]. split; [reflexivity|].
  rewrite He by (apply elem_of_cons; auto). apply IH; [|exact H]. intros y Hy. apply He, elem_of_cons. auto.
Qed.

(** Where a segment begins. *)
Lemma seg_head ptr p l q : seg ptr p l q -> p = default q (head l).
Proof. destruct l; simpl; intros H; [exact H|apply H]. Qed.

(** Strictly increasing addresses above [x]. *)
Fixpoint asc (x : Z) (l : list Z) : Prop :=
  match l with
  | [] => True
  | y :: l => x < y /\ asc y l
  end.

Lemma asc_frees lo hi bs x : tiles lo hi bs -> x < lo -> asc x (frees bs).
Proof.
  revert lo x. induction bs as [|b bs IH]; intros lo x Ht Hx; simpl; [exact I|]. destruct Ht as (E & Hn & Ht).
  assert (b_at b < lo + HEADER * b_n b) by (unfold HEADER; lia).
  destruct (b_free b); [simpl; split; [lia|]|]; apply (IH (lo + HEADER * b_n b)); auto; lia.
Qed.

Lemma last_cons_default {A} (x y : A) l : default x (last (y :: l)) = default y (last l).
Proof.
  revert x y. induction l as [|z l IH]; intros x y; [reflexivity|]. change (last (y :: z :: l)) with (last (z :: l)).
  rewrite !IH. reflexivity.
Qed.

Lemma last_app_default {A} (x p : A) l1 l2 : default x (last (l1 ++ p :: l2)) = default p (last l2).
Proof.
  rewrite last_app. transitivity (default x (last (p :: l2))); [|apply last_cons_default].
  destruct (last (p :: l2)) eqn:E; [reflexivity|]. apply last_None in E. discriminate E.
Qed.

Lemma asc_app x l1 l2 : asc x (l1 ++ l2) <-> asc x l1 /\ asc (default x (last l1)) l2.
Proof.
  revert x. induction l1 as [|y l1 IH]; intros x; [simpl; tauto|].
  rewrite last_cons_default. cbn [app asc]. rewrite IH. tauto.
Qed.

Lemma asc_last x l : asc x l -> x <= default x (last l).
Proof.
  revert x. induction l as [|y l IH]; intros x; [simpl; lia|]. rewrite last_cons_default. intros [H1 H2]. apply IH in H2. lia.
Qed.

Lemma seg_last ptr x F r : seg ptr x (x :: F) r -> ptr (default x (last F)) = r.
Proof.
  revert x. induction F as [|y F IH]; intros x [_ Hx]; [exact Hx|]. rewrite last_cons_default. destruct Hx as [_ Hx].
  apply IH. split; [reflexivity|exact Hx].
Qed.

Section Free.
Context (base lo : Z).
Hypothesis (Hbase : 0 < base) (Hlo : base + HEADER <= lo).

(** ** Finding the place of a block *)

Lemma walk_low s bp F2 : base < bp -> Forall (fun y => bp < y) F2 -> forall H1 p fuel, (length H1 < fuel)%nat ->
  asc p H1 -> base <= p -> Forall (fun x => x < bp) (p :: H1) -> seg (h_ptr s) (h_ptr s p) (H1 ++ F2) base ->
  free_find fuel p bp s = Ret (default p (last H1)) s.
Proof using.
  intros Hb HF2. induction H1 as [|x H1 IH]; intros p [|fuel] Hf Ha Hbp Hlt Hs; simpl in Hf; try lia; cbn [free_find]; rewrite bind_gets.
  - apply Forall_cons in Hlt as [Hp _]. apply seg_head in Hs. simpl in Hs. rewrite Hs. destruct F2 as [|y F2]; simpl.
    + replace ((p <? bp) && (bp <? base)) with false by lia. replace ((base <=? p) && ((p <? bp) || (bp <? base))) with true by lia. reflexivity.
    + apply Forall_cons in HF2 as [Hy _]. replace ((p <? bp) && (bp <? y)) with true by lia. reflexivity.
  - destruct Hs as [Ex Hs]. rewrite Ex. destruct Ha as [Hpx Ha]. apply Forall_cons in Hlt as [Hp Hlt]. pose proof Hlt as Hlt'. apply Forall_cons in Hlt' as [Hx _].
    replace ((p <? bp) && (bp <? x)) with false by lia. replace ((x <=? p) && ((p <? bp) || (bp <? x))) with false by lia.
    rewrite last_cons_default. apply IH; auto; lia.
Qed.

Lemma walk_high s bp : base < bp -> forall H2 p fuel, asc p H2 -> Forall (fun y => bp < y) (p :: H2) -> seg (h_ptr s) (h_ptr s p) H2 base ->
  free_find (S (length H2) + fuel) p bp s = free_find fuel base bp s.
Proof using.
  intros Hb. induction H2 as [|x H2 IH]; intros p fuel Ha Hgt Hs; cbn [length Nat.add free_find]; rewrite bind_gets; apply Forall_cons in Hgt as [Hp Hgt].
  - simpl in Hs. rewrite Hs. replace ((p <? bp) && (bp <? base)) with false by lia.
    replace ((base <=? p) && ((p <? bp) || (bp <? base))) with false by lia. reflexivity.
  - destruct Hs as [Ex Hs]. rewrite Ex. destruct Ha as [Hpx Ha]. replace ((p <? bp) && (bp <? x)) with false by lia.
    replace ((x <=? p) && ((p <? bp) || (bp <? x))) with false by lia. apply (IH x fuel); auto.
Qed.

(** From anywhere in the list, the search arrives at the last block below. *)
Lemma free_find_run s bp F1 F2 p fuel : base < bp -> asc base (F1 ++ F2) -> Forall (fun x => x < bp) F1 -> Forall (fun y => bp < y) F2 ->
  seg (h_ptr s) base (base :: F1 ++ F2) base -> p ∈ base :: F1 ++ F2 -> (length (base :: F1 ++ F2) <= fuel)%nat ->
  free_find fuel p bp s = Ret (default base (last F1)) s.
Proof using.
  intros Hb Ha H1 H2 [_ Hs] Hp Hf. simpl in Hf. rewrite length_app in Hf.
  assert (Hbase' : forall k, (length F1 < k)%nat -> free_find k base bp s = Ret (default base (last F1)) s).
  { intros k Hk. apply (walk_low s bp F2); auto; [apply asc_app in Ha; apply Ha|lia]. }
  apply elem_of_cons in Hp as [->|Hp]; [apply Hbase'; lia|]. apply elem_of_app in Hp as [Hp|Hp]; apply list_elem_of_split in Hp as (l1 & l2 & ->).
  - rewrite last_app_default. rewrite length_app in Hf. simpl in Hf. apply Forall_app in H1 as [_ H1]. rewrite <- app_assoc in Hs, Ha. simpl in Hs, Ha.
    apply seg_app in Hs as (r & _ & -> & Hs). apply asc_app in Ha as [Ha1 [Ha2 Ha]]. apply (walk_low s bp F2); auto; [lia|apply asc_app in Ha; apply Ha|].
    apply asc_last in Ha1. lia.
  - rewrite app_assoc in Hs, Ha. apply seg_app in Hs as (r & _ & -> & Hs). apply asc_app in Ha as [_ [_ Ha]]. apply Forall_app in H2 as [_ H2].
    rewrite length_app in Hf. simpl in Hf. replace fuel with (S (length l2) + (fuel - S (length l2)))%nat by lia.
    rewrite (walk_high s bp Hb l2 p); auto. apply Hbase'. lia.
Qed.

(** ** The heap *)

(** More than the machine has. *)
Definition HEAPMAX : Z := 2 ^ 27.

Record rep (bs : list blk) (s : heap) : Prop := {
  rp_tiles : tiles lo (h_brk s) bs;
  rp_apart : apart bs;
  rp_size : forall b, b ∈ bs -> h_size s (b_at b) = b_n b;
  rp_base : h_size s base = 0;
  rp_chain : seg (h_ptr s) base (base :: frees bs) base;
  rp_freep : h_freep s ∈ base :: frees bs;
  rp_small : h_brk s - lo <= HEAPMAX
}.

(** The block after a freed one joins it, if it is free. *)
Definition join_next (n : Z) (b2 : list blk) : Z * list blk :=
  match b2 with
  | b :: r => if b_free b then (n + b_n b, r) else (n, b2)
  | [] => (n, [])
  end.
(** It joins the block before, if that is free. *)
Definition join_prev (b1 : list blk) (a n : Z) : list blk :=
  match last b1 with
  | Some b => if b_free b then removelast b1 ++ [Blk (b_at b) (b_n b + n) true] else b1 ++ [Blk a n true]
  | None => [Blk a n true]
  end.
Definition freed (b1 : list blk) (a n : Z) (b2 : list blk) : list blk :=
  join_prev b1 a (join_next n b2).1 ++ (join_next n b2).2.

Lemma next_test hi a n b2 : lo <= a -> 0 < n -> tiles (a + HEADER * n) hi b2 ->
  (a + HEADER * n =? default base (head (frees b2))) = match b2 with b :: _ => b_free b | [] => false end.
Proof using Hlo.
  intros Ha Hn Ht. unfold HEADER in *. destruct b2 as [|b b2]; simpl; [lia|]. destruct Ht as (E & Hb & Ht).
  destruct (b_free b); simpl; [lia|]. destruct (frees b2) as [|x l] eqn:Ef; simpl; [lia|].
  assert (Hx : x ∈ frees b2) by (rewrite Ef; apply list_elem_of_here). apply (frees_bound _ _ _ _ Ht) in Hx. unfold HEADER in *. lia.
Qed.

Lemma prev_test s a b1 : tiles lo a b1 -> (forall b, b ∈ b1 -> h_size s (b_at b) = b_n b) -> h_size s base = 0 ->
  let p := default base (last (frees b1)) in
  (p + HEADER * h_size s p =? a) = match last b1 with Some b => b_free b | None => false end.
Proof using Hlo.
  intros Ht Hsz Hb p. pose proof (tiles_le _ _ _ Ht) as Hla. destruct (last b1) as [b|] eqn:El.
  2: { apply last_None in El. subst b1. unfold p. simpl. rewrite Hb. unfold HEADER in *. lia. }
  apply last_Some in El as [c1 ->]. apply tiles_app in Ht as (mid & Ht1 & E & Hn & Ht2). simpl in Ht2. unfold p. rewrite frees_app. simpl.
  destruct (b_free b) eqn:Ef.
  - rewrite last_snoc. simpl. rewrite Hsz by (apply elem_of_app; right; apply list_elem_of_here). lia.
  - rewrite app_nil_r. destruct (last (frees c1)) as [x|] eqn:Ex; simpl; [|rewrite Hb; unfold HEADER in *; lia].
    assert (Hx : x ∈ frees c1) by (apply last_Some_elem_of, Ex). apply frees_elem in Hx as (c & Hc & <- & _).
    rewrite Hsz by (apply elem_of_app; auto). destruct (tiles_in _ _ _ _ Ht1 Hc) as (? & ? & ?). unfold HEADER in *. lia.
Qed.

(** The list with a new continuation after its last block below. *)
Lemma relink ptr ptr' F1 F2 M t : seg ptr base (base :: F1 ++ F2) base -> asc base F1 ->
  let p := default base (last F1) in
  (forall x, x ∈ base :: F1 -> x <> p -> ptr' x = ptr x) -> ptr' p = t -> seg ptr' t M base -> seg ptr' base (base :: F1 ++ M) base.
Proof using.
  intros Hs Ha p Hx Hp Hm. simpl. split; [reflexivity|]. destruct Hs as [_ Hs].
  assert (Hgen : forall F x, asc x F -> seg ptr (ptr x) (F ++ F2) base ->
    (forall y, y ∈ x :: F -> y <> default x (last F) -> ptr' y = ptr y) -> ptr' (default x (last F)) = t -> seg ptr' (ptr' x) (F ++ M) base).
  { induction F as [|y F IH]; intros x Hax Hsx Hxx Hlast; [simpl in *; subst t; rewrite <- Hlast in Hm; exact Hm|].
    rewrite last_cons_default in *. destruct Hax as [Hxy Hax]. destruct Hsx as [Exy Hsx]. simpl.
    rewrite (Hxx x) by (try apply list_elem_of_here; apply asc_last in Hax; lia). split; [exact Exy|].
    apply IH; auto. intros z Hz. apply Hxx. apply elem_of_cons. auto. }
  apply (Hgen F1 base); auto.
Qed.

(** ** Freeing *)

Lemma join_elem n b2 b : b ∈ (join_next n b2).2 -> b ∈ b2.
Proof. unfold join_next. destruct b2 as [|c b2']; [auto|]. destruct (b_free c); [|auto]. intros H. apply elem_of_cons. auto. Qed.

Section FreeBlock.
Context (b1 b2 : list blk) (a n : Z) (s : heap).
Hypothesis (Hrep : rep (b1 ++ Blk a n false :: b2) s).

Lemma fb_tiles : tiles lo a b1 /\ 0 < n /\ tiles (a + HEADER * n) (h_brk s) b2.
Proof using Hrep.
  pose proof (rp_tiles _ _ Hrep) as Ht. apply tiles_app in Ht as (mid & H1 & E & Hn & H2). simpl in *. subst mid. auto.
Qed.

Lemma fb_frees : frees (b1 ++ Blk a n false :: b2) = frees b1 ++ frees b2.
Proof using. rewrite frees_app. reflexivity. Qed.

Lemma fb_bounds : lo <= a /\ Forall (fun x => x < a) (frees b1) /\ Forall (fun y => a < y) (frees b2).
Proof using Hrep.
  destruct fb_tiles as (H1 & Hn & H2). split; [apply (tiles_le _ _ _ H1)|]. split; apply Forall_forall; intros x Hx.
  - apply (frees_bound _ _ _ _ H1 Hx).
  - apply (frees_bound _ _ _ _ H2) in Hx. unfold HEADER in Hx. lia.
Qed.

Lemma fb_asc : asc base (frees b1 ++ frees b2).
Proof using Hrep Hlo.
  rewrite <- fb_frees. apply (asc_frees _ _ _ _ (rp_tiles _ _ Hrep)). unfold HEADER in Hlo. lia.
Qed.

Lemma fb_next : seg (h_ptr s) (default base (head (frees b2))) (frees b2) base /\
  h_ptr s (default base (last (frees b1))) = default base (head (frees b2)).
Proof using Hrep Hlo.
  pose proof (rp_chain _ _ Hrep) as Hc. rewrite fb_frees in Hc. change (base :: frees b1 ++ frees b2) with ((base :: frees b1) ++ frees b2) in Hc.
  apply seg_app in Hc as (r & Hc1 & Hc2). pose proof (seg_head _ _ _ _ Hc2) as Er. split; [rewrite <- Er; exact Hc2|]. rewrite <- Er.
  apply (seg_last _ _ _ _ Hc1).
Qed.

Lemma fb_size b : b ∈ b1 \/ b ∈ b2 -> h_size s (b_at b) = b_n b.
Proof using Hrep. intros Hb. apply (rp_size _ _ Hrep). rewrite elem_of_app, elem_of_cons. tauto. Qed.

Lemma fb_own : h_size s a = n.
Proof using Hrep. apply (rp_size _ _ Hrep (Blk a n false)), elem_of_app. right. apply list_elem_of_here. Qed.

Lemma fb_pred : base <= default base (last (frees b1)) < a.
Proof using Hrep Hlo.
  destruct fb_bounds as (La & B1 & _). pose proof (asc_last _ _ (proj1 (proj1 (asc_app _ _ _) fb_asc))). split; [lia|].
  destruct (last (frees b1)) as [x|] eqn:Ex; simpl; [|unfold HEADER in Hlo; lia].
  apply (proj1 (Forall_forall _ _) B1), last_Some_elem_of, Ex.
Qed.

(** The next block, and the end of the list from there. *)
Definition succ : Z := default base (head (frees (join_next n b2).2)).

Lemma free_next_run : exists s1, free_next a (default base (head (frees b2))) s = Ret tt s1 /\
  (forall x, h_ptr s1 x = upd (h_ptr s) a succ x) /\ (forall x, h_size s1 x = upd (h_size s) a (join_next n b2).1 x) /\
  h_freep s1 = h_freep s /\ h_brk s1 = h_brk s.
Proof using Hrep Hlo.
  destruct fb_tiles as (T1 & Hn & T2). destruct fb_bounds as (La & _). destruct fb_next as [Hseg _].
  unfold free_next. rewrite bind_gets, fb_own, (next_test (h_brk s) a n b2 La Hn T2). unfold succ, join_next.
  pose proof fb_size as Hsz. pose proof fb_own as Hown. destruct b2 as [|b b2']; [|destruct (b_free b) eqn:Eb].
  - eexists. split; [reflexivity|]. simpl. split; [reflexivity|]. split; [|auto]. intros x. rewrite upd_same; auto.
  - destruct T2 as (Eb' & Hbn & T2). rewrite bind_gets, bind_modify, bind_gets. eexists. split; [reflexivity|]. simpl. rewrite Eb. simpl.
    rewrite (Hsz b) by (right; apply list_elem_of_here). simpl in Hseg. rewrite Eb in Hseg. simpl in Hseg. destruct Hseg as [_ Hseg].
    apply seg_head in Hseg. rewrite Hseg.
    rewrite u32_small; [auto|]. pose proof (tiles_le _ _ _ T2). pose proof (rp_small _ _ Hrep). unfold HEADER, HEAPMAX in *. lia.
  - eexists. split; [reflexivity|]. simpl. rewrite Eb. split; [reflexivity|]. split; [|auto]. intros x. rewrite upd_same; auto.
Qed.

Lemma succ_seg : seg (h_ptr s) succ (frees (join_next n b2).2) base.
Proof using Hrep Hlo.
  destruct fb_next as [Hseg _]. unfold succ, join_next. destruct b2 as [|b b2']; [exact Hseg|]. destruct (b_free b) eqn:Eb; [|exact Hseg].
  simpl in *. rewrite Eb in Hseg. destruct Hseg as [_ Hseg]. rewrite <- (seg_head _ _ _ _ Hseg). exact Hseg.
Qed.

Lemma join_tiles : 0 < (join_next n b2).1 /\ tiles (a + HEADER * (join_next n b2).1) (h_brk s) (join_next n b2).2.
Proof using Hrep.
  destruct fb_tiles as (_ & Hn & T2). unfold join_next. destruct b2 as [|b b2']; [auto|]. destruct (b_free b); [|auto].
  destruct T2 as (_ & Hb & T2). simpl. split; [lia|]. replace (a + HEADER * (n + b_n b)) with (a + HEADER * n + HEADER * b_n b) by lia. exact T2.
Qed.

Definition prev_free : bool := match last b1 with Some b => b_free b | None => false end.

(** If the block before is free, it is the last free block below. *)
Lemma prev_free_inv : prev_free = true -> exists c1 m, b1 = c1 ++ [Blk (default base (last (frees b1))) m true] /\
  h_size s (default base (last (frees b1))) = m.
Proof using Hrep.
  unfold prev_free. destruct (last b1) as [b|] eqn:El; [|discriminate]. intros Ef. pose proof (fb_size b) as Hsz.
  apply last_Some in El as [c1 El]. rewrite El in *. rewrite frees_app. simpl. rewrite Ef, last_snoc. simpl.
  exists c1, (b_n b). destruct b as [pa m f]. simpl in *. subst f. split; [reflexivity|]. apply Hsz. left. apply elem_of_app. right. apply list_elem_of_here.
Qed.

(** What is written: the header of the block and that of the one before. *)
Lemma free_effect fuel : (length (base :: frees b1 ++ frees b2) <= fuel)%nat ->
  let p := default base (last (frees b1)) in
  exists s', free fuel (a + HEADER) s = Ret tt s' /\ h_freep s' = p /\ h_brk s' = h_brk s /\
    (forall x, h_ptr s' x = upd (upd (h_ptr s) a succ) p (if prev_free then succ else a) x) /\
    (forall x, h_size s' x = upd (upd (h_size s) a (join_next n b2).1) p (if prev_free then h_size s p + (join_next n b2).1 else h_size s p) x).
Proof using Hrep Hlo.
  intros Hf p. destruct fb_tiles as (T1 & Hn & T2). destruct fb_bounds as (La & B1 & B2). destruct fb_next as [_ Hptr]. fold p in Hptr.
  pose proof (rp_chain _ _ Hrep) as Hc. pose proof (rp_freep _ _ Hrep) as Hfp. rewrite fb_frees in Hc, Hfp. pose proof fb_pred as Hp. fold p in Hp.
  unfold free. replace (a + HEADER - HEADER) with a by lia. rewrite bind_gets. cbv zeta.
  erewrite bind_ret_l by (apply (free_find_run s a (frees b1) (frees b2)); auto using fb_asc; lia).
  fold p. rewrite bind_gets, Hptr. destruct free_next_run as (s1 & E1 & P1 & Z1 & F1 & K1). erewrite bind_ret_l by exact E1.
  unfold free_prev. pose proof (prev_test s a b1 T1 (fun b Hb => fb_size b (or_introl Hb)) (rp_base _ _ Hrep)) as Hprev.
  cbv zeta in Hprev. fold p in Hprev. fold prev_free in Hprev.
  assert (Zp : h_size s1 p = h_size s p) by (rewrite Z1; apply upd_ne; lia). assert (Za : h_size s1 a = (join_next n b2).1) by (rewrite Z1; apply upd_eq).
  assert (Pa : h_ptr s1 a = succ) by (rewrite P1; apply upd_eq).
  destruct prev_free eqn:Epf.
  - destruct (prev_free_inv Epf) as (c1 & m & Eb1 & Hm). fold p in Eb1, Hm. rewrite Eb1 in T1. apply tiles_app in T1 as (mid & Tc & Em & Hm0 & Ee). simpl in Em, Hm0, Ee.
    destruct join_tiles as [Hj Tj]. apply tiles_le in Tj, Tc. pose proof (rp_small _ _ Hrep) as Hsm.
    eexists. split.
    { erewrite bind_ret_l; [reflexivity|]. rewrite bind_gets, Zp, Hprev. rewrite bind_gets, bind_modify, bind_gets. reflexivity. }
    simpl. rewrite Pa, Za. split_and!; auto; intros x.
    + unfold upd at 1 2. rewrite P1. reflexivity.
    + rewrite u32_small by (unfold HEADER, HEAPMAX in *; lia). unfold upd at 1 2. rewrite Z1. reflexivity.
  - eexists. split.
    { erewrite bind_ret_l; [reflexivity|]. rewrite bind_gets, Zp, Hprev. reflexivity. }
    simpl. split_and!; auto; intros x; unfold upd at 1 2.
    + rewrite P1. reflexivity.
    + destruct (Z.eqb_spec x p) as [->|]; [exact Zp|apply Z1].
Qed.

Lemma join_apart : apart (join_next n b2).2 /\ match head (join_next n b2).2 with Some y => b_free y = false | None => True end.
Proof using Hrep.
  pose proof (rp_apart _ _ Hrep) as Ha. apply apart_app in Ha as (_ & [_ Ha] & _). unfold join_next. destruct b2 as [|b b2']; [auto|].
  destruct (b_free b) eqn:Eb; [|auto]. destruct Ha as [Hh Ha]. split; [exact Ha|]. destruct b2' as [|c b2']; [exact I|]. simpl. rewrite Eb in Hh. exact Hh.
Qed.

Lemma join_prev_eq m : join_prev b1 a m =
  if prev_free then removelast b1 ++ [Blk (default base (last (frees b1))) (h_size s (default base (last (frees b1))) + m) true]
  else b1 ++ [Blk a m true].
Proof using Hrep.
  pose proof prev_free_inv as Hpf. unfold join_prev. destruct prev_free eqn:Ep; unfold prev_free in Ep.
  - destruct (Hpf eq_refl) as (c1 & k & Eb & Ek). rewrite Ek. destruct (last b1) as [b|] eqn:El; [|discriminate]. rewrite Ep.
    rewrite Eb, last_snoc in El. injection El as <-. reflexivity.
  - destruct (last b1) as [b|] eqn:El; [rewrite Ep; reflexivity|]. apply last_None in El. rewrite El. reflexivity.
Qed.

(** The chain after the two headers have been written. *)
Lemma freed_chain ptr' : let p := default base (last (frees b1)) in
  (forall x, ptr' x = upd (upd (h_ptr s) a succ) p (if prev_free then succ else a) x) ->
  seg ptr' base (base :: frees (freed b1 a n b2)) base /\ p ∈ base :: frees (freed b1 a n b2).
Proof using Hrep Hlo.
  intros p Hptr. pose proof fb_pred as Hp. fold p in Hp. pose proof succ_seg as Hs. destruct fb_bounds as (La & B1 & _).
  pose proof (rp_chain _ _ Hrep) as Hc. rewrite fb_frees in Hc. pose proof (proj1 (proj1 (asc_app _ _ _) fb_asc)) as Hasc.
  assert (Hpin : p ∈ base :: frees b1).
  { unfold p. destruct (last (frees b1)) as [x|] eqn:Ex; simpl; [|apply list_elem_of_here]. apply elem_of_cons. right. apply last_Some_elem_of, Ex. }
  assert (Hs' : seg ptr' succ (frees (join_next n b2).2) base).
  { apply (seg_ext (h_ptr s)); [|exact Hs]. intros x Hx. destruct join_tiles as [Hj Tj]. apply (frees_bound _ _ _ _ Tj) in Hx.
    unfold HEADER in Hx. rewrite Hptr, !upd_ne; [reflexivity|lia..]. }
  assert (Hlow : forall x, x ∈ base :: frees b1 -> x <> p -> ptr' x = h_ptr s x).
  { intros x Hx Hne. rewrite Hptr, !upd_ne; auto. apply elem_of_cons in Hx as [->|Hx]; [lia|]. pose proof (proj1 (Forall_forall _ _) B1 x Hx). simpl in *. lia. }
  unfold freed. rewrite join_prev_eq, frees_app. fold p. destruct prev_free eqn:Epf.
  - destruct (prev_free_inv Epf) as (c1 & m & Eb & Em). fold p in Eb, Em. assert (Ef : frees (removelast b1 ++ [Blk p (h_size s p + (join_next n b2).1) true]) = frees b1).
    { rewrite Eb, removelast_last, !frees_app. reflexivity. }
    rewrite Ef. split; [|rewrite app_comm_cons, elem_of_app; auto].
    apply (relink (h_ptr s) ptr' (frees b1) (frees b2) _ succ); auto. fold p. rewrite Hptr. apply upd_eq.
  - rewrite frees_app, <- app_assoc. simpl. split; [|rewrite app_comm_cons, elem_of_app; auto].
    apply (relink (h_ptr s) ptr' (frees b1) (frees b2) _ a); auto; [fold p; rewrite Hptr; apply upd_eq|].
    simpl. split; [reflexivity|]. rewrite Hptr, upd_ne, upd_eq by lia. exact Hs'.
Qed.

Lemma freed_tiles : tiles lo (h_brk s) (freed b1 a n b2).
Proof using Hrep.
  destruct fb_tiles as (T1 & Hn & _). destruct join_tiles as [Hj Tj]. unfold freed. rewrite join_prev_eq. destruct prev_free eqn:Epf.
  - destruct (prev_free_inv Epf) as (c1 & m & Eb & Em). set (p := default base (last (frees b1))) in *. rewrite Em, Eb, removelast_last.
    rewrite Eb in T1. apply tiles_app in T1 as (mid & Tc & Emid & Hm & Ee). simpl in Emid, Hm, Ee. subst mid.
    rewrite <- app_assoc. apply tiles_app. exists p. split; [exact Tc|]. simpl. split_and!; [reflexivity|lia|].
    replace (p + HEADER * (m + (join_next n b2).1)) with (a + HEADER * (join_next n b2).1) by lia. exact Tj.
  - rewrite <- app_assoc. apply tiles_app. exists a. split; [exact T1|]. simpl. auto.
Qed.

Lemma freed_apart : apart (freed b1 a n b2).
Proof using Hrep.
  destruct join_apart as [Aj Hh]. pose proof (rp_apart _ _ Hrep) as Ha. apply apart_app in Ha as (A1 & _ & _).
  unfold freed. rewrite join_prev_eq. destruct prev_free eqn:Epf.
  - destruct (prev_free_inv Epf) as (c1 & m & Eb & _). rewrite Eb in A1. rewrite Eb at 1. rewrite removelast_last.
    apply apart_app. split_and!; [|exact Aj|rewrite last_snoc; destruct (head _); [simpl in *; rewrite Hh; reflexivity|exact I]].
    apply apart_app in A1 as (Ac & _ & Al). apply apart_app. split_and!; simpl; auto.
  - apply apart_app. split_and!; [|exact Aj|rewrite last_snoc; destruct (head _); [simpl in *; rewrite Hh; reflexivity|exact I]].
    apply apart_app. split_and!; simpl; auto. unfold prev_free in Epf. destruct (last b1); [rewrite Epf; reflexivity|exact I].
Qed.

(** Blocks before and after the freed one, and the one it became. *)
Lemma freed_elem b : b ∈ freed b1 a n b2 -> let p := default base (last (frees b1)) in
  (b ∈ b1 ++ b2 /\ b_at b <> p /\ b_at b <> a) \/ (prev_free = false /\ b ∈ b1 /\ b_at b = p) \/
  b = (if prev_free then Blk p (h_size s p + (join_next n b2).1) true else Blk a (join_next n b2).1 true).
Proof using Hrep Hlo.
  intros Hb p. pose proof fb_pred as Hp. fold p in Hp. destruct fb_tiles as (T1 & Hn & _). destruct join_tiles as [Hj Tj].
  assert (Hafter : b ∈ (join_next n b2).2 -> b ∈ b1 ++ b2 /\ b_at b <> p /\ b_at b <> a).
  { intros Hin. destruct (tiles_in _ _ _ _ Tj Hin) as (? & ? & ?). split; [apply elem_of_app; right; apply (join_elem n), Hin|]. unfold HEADER in *. lia. }
  unfold freed in Hb. rewrite join_prev_eq in Hb. fold p in Hb. destruct prev_free eqn:Epf.
  - destruct (prev_free_inv Epf) as (c1 & m & Eb & _). fold p in Eb. rewrite Eb, removelast_last in Hb.
    rewrite !elem_of_app, list_elem_of_singleton in Hb. destruct Hb as [[Hb| ->]|Hb]; [|auto|left; auto]. left.
    rewrite Eb in T1. apply tiles_app in T1 as (mid & Tc & Emid & _). simpl in Emid. subst mid. destruct (tiles_in _ _ _ _ Tc Hb) as (? & ? & ?).
    split; [rewrite Eb, !elem_of_app; auto|]. unfold HEADER in *. lia.
  - rewrite !elem_of_app, list_elem_of_singleton in Hb. destruct Hb as [[Hb| ->]|Hb]; [|auto|left; auto].
    destruct (tiles_in _ _ _ _ T1 Hb) as (? & ? & ?). destruct (decide (b_at b = p)); [auto|left]. split; [apply elem_of_app; auto|]. unfold HEADER in *. lia.
Qed.

(** [free] gives the block back, and does not touch what is in use. *)
Lemma free_rep fuel : (length (base :: frees b1 ++ frees b2) <= fuel)%nat ->
  exists s', free fuel (a + HEADER) s = Ret tt s' /\ rep (freed b1 a n b2) s' /\ h_brk s' = h_brk s /\
    (forall x, x <> a -> x ∉ base :: frees b1 -> h_ptr s' x = h_ptr s x /\ h_size s' x = h_size s x).
Proof using Hrep Hlo.
  intros Hf. destruct (free_effect fuel Hf) as (s' & E & Ep & Ek & P & Z). exists s'. split; [exact E|].
  set (p := default base (last (frees b1))) in *. pose proof fb_pred as Hp. fold p in Hp.
  destruct (freed_chain (h_ptr s') P) as [Hchain Hfp]. fold p in Hfp.
  split; [|split; [exact Ek|]].
  - split; rewrite ?Ek, ?Ep; auto using freed_tiles, freed_apart; [|..|apply Hrep].
    + intros b Hb. destruct (freed_elem b Hb) as [(Hin & N1 & N2)|[(Epf & Hin & Eb)| ->]].
      * fold p in N1. rewrite Z, !upd_ne by assumption. apply fb_size. apply elem_of_app, Hin.
      * fold p in Eb. rewrite Z, Eb, upd_eq, Epf. rewrite <- Eb. apply fb_size. auto.
      * fold p. rewrite Z. destruct prev_free; simpl; [apply upd_eq|]. rewrite upd_ne, upd_eq by lia. reflexivity.
    + rewrite Z. destruct (decide (base = p)) as [Ebp|Hne]; [|rewrite !upd_ne by lia; apply Hrep]. rewrite <- Ebp, upd_eq.
      destruct prev_free eqn:Epf; [|apply Hrep]. exfalso. destruct (prev_free_inv Epf) as (c1 & m & Eb & _). fold p in Eb.
      destruct fb_tiles as (T1 & _). rewrite Eb in T1. apply tiles_app in T1 as (mid & Tc & Emid & _). simpl in Emid. apply tiles_le in Tc.
      unfold HEADER in Hlo. lia.
  - intros x Hx Hno. assert (x <> p).
    { intros ->. apply Hno. unfold p. destruct (last (frees b1)) as [y|] eqn:Ey; simpl; [|apply list_elem_of_here]. apply elem_of_cons. right. apply last_Some_elem_of, Ey. }
    rewrite P, Z, !upd_ne by assumption. auto.
Qed.
End FreeBlock.

(** ** Taking a block *)

Lemma app_cons_unique (p : Z) l1 : forall l1' l2 l2', p ∉ l1 -> p ∉ l1' -> l1 ++ p :: l2 = l1' ++ p :: l2' -> l1 = l1'.
Proof using.
  induction l1 as [|x l1 IH]; intros [|y l1'] l2 l2' H1 H2 E; simpl in E.
  - reflexivity.
  - injection E as -> _. exfalso. apply H2, list_elem_of_here.
  - injection E as -> _. exfalso. apply H1, list_elem_of_here.
  - injection E as -> E. f_equal. apply (IH l1' l2 l2'); auto; intros Hin; [apply H1|apply H2]; apply elem_of_cons; auto.
Qed.

Lemma asc_elem x l y : asc x l -> y ∈ l -> x < y.
Proof using.
  revert x. induction l as [|z l IH]; intros x Ha Hy; [apply elem_of_nil in Hy; contradiction|]. destruct Ha as [Hz Ha].
  apply elem_of_cons in Hy as [->|Hy]; [exact Hz|]. specialize (IH z Ha Hy). lia.
Qed.

Lemma asc_notin x l1 p l2 : asc x (l1 ++ p :: l2) -> p ∉ x :: l1.
Proof using.
  revert x. induction l1 as [|y l1 IH]; intros x Ha Hp; simpl in Ha.
  - apply list_elem_of_singleton in Hp. lia.
  - destruct Ha as [Hy Ha]. apply elem_of_cons in Hp as [->|Hp]; [|apply (IH y Ha Hp)].
    assert (y < x) by (apply (asc_elem y (l1 ++ x :: l2) x Ha), elem_of_app; right; apply list_elem_of_here). lia.
Qed.

(** The predecessor of a free block in the list. *)
Lemma pred_unique bs s b1 p m b2 x : rep bs s -> bs = b1 ++ Blk p m true :: b2 -> x ∈ base :: frees bs -> h_ptr s x = p ->
  x = default base (last (frees b1)).
Proof using Hlo.
  intros Hr -> Hx Hp. pose proof (rp_chain _ _ Hr) as Hc. pose proof (asc_frees _ _ _ base (rp_tiles _ _ Hr) ltac:(unfold HEADER in Hlo; lia)) as Ha.
  rewrite frees_app in *. simpl in Hc, Ha, Hx. change (base :: frees b1 ++ p :: frees b2) with ((base :: frees b1) ++ p :: frees b2) in Hx.
  apply list_elem_of_split in Hx as (l1 & l2 & El). assert (Hc' : seg (h_ptr s) base ((base :: frees b1) ++ p :: frees b2) base) by exact Hc.
  rewrite El in Hc'. apply seg_app in Hc' as (r & _ & -> & Hc'). apply seg_head in Hc'. rewrite Hp in Hc'.
  assert (Hpb : p <> base).
  { assert (base < p) by (apply (asc_elem base _ p Ha), elem_of_app; right; apply list_elem_of_here). lia. }
  destruct l2 as [|y l2]; simpl in Hc'; [congruence|]. subst y.
  assert (Hl : base :: frees b1 = l1 ++ [x]).
  { apply (app_cons_unique p _ _ (frees b2) l2); [apply (asc_notin _ _ _ _ Ha)| |rewrite <- app_assoc; exact El].
    intros Hin. pose proof (asc_notin base (frees b1) p (frees b2) Ha) as Hno. clear Hc. 
    assert (Hnd : asc (base - 1) (l1 ++ x :: p :: l2)) by (rewrite <- El; simpl; split; [lia|exact Ha]).
    apply (asc_notin (base - 1) (l1 ++ [x]) p l2); [rewrite <- app_assoc; exact Hnd|apply elem_of_cons; auto]. }
  rewrite <- (last_cons_default base), Hl, last_snoc. reflexivity.
Qed.

(** The heap after [nu] units were cut off the end of a free block. *)
Definition allotted (b1 : list blk) (p m nu : Z) (b2 : list blk) : list blk :=
  b1 ++ (if m =? nu then [] else [Blk p (m - nu) true]) ++ Blk (p + HEADER * (m - nu)) nu false :: b2.

Section Take.
Context (b1 b2 : list blk) (p m nu : Z) (s : heap).
Hypothesis (Hrep : rep (b1 ++ Blk p m true :: b2) s) (Hnu : 0 < nu <= m).

Lemma tk_tiles : tiles lo p b1 /\ tiles (p + HEADER * m) (h_brk s) b2.
Proof using Hrep.
  pose proof (rp_tiles _ _ Hrep) as Ht. apply tiles_app in Ht as (mid & H1 & E & Hn & H2). simpl in *. subst mid. auto.
Qed.

Lemma tk_frees : frees (b1 ++ Blk p m true :: b2) = frees b1 ++ p :: frees b2.
Proof using. rewrite frees_app. reflexivity. Qed.

Lemma allotted_tiles : tiles lo (h_brk s) (allotted b1 p m nu b2).
Proof using Hrep Hnu.
  destruct tk_tiles as [T1 T2]. unfold allotted. apply tiles_app. exists p. split; [exact T1|].
  assert (E : p + HEADER * (m - nu) + HEADER * nu = p + HEADER * m) by lia.
  destruct (Z.eqb_spec m nu) as [->|Hne]; simpl.
  - split_and!; [lia|lia|]. replace (p + HEADER * nu) with (p + HEADER * (nu - nu) + HEADER * nu) by lia. rewrite E. exact T2.
  - split_and!; [reflexivity|lia|reflexivity|lia|]. rewrite E. exact T2.
Qed.

Lemma allotted_apart : apart (allotted b1 p m nu b2).
Proof using Hrep.
  pose proof (rp_apart _ _ Hrep) as Ha. apply apart_app in Ha as (A1 & [A2 A3] & A4). simpl in A4. unfold allotted.
  assert (A5 : apart (Blk (p + HEADER * (m - nu)) nu false :: b2)) by (split; [destruct b2; auto|exact A3]).
  apply apart_app. destruct (m =? nu); (split; [exact A1|split]).
  - exact A5.
  - simpl. destruct (last b1); [apply andb_false_r|exact I].
  - split; [reflexivity|exact A5].
  - exact A4.
Qed.

Lemma allotted_frees : frees (allotted b1 p m nu b2) = frees b1 ++ (if m =? nu then [] else [p]) ++ frees b2.
Proof using. unfold allotted. rewrite !frees_app. destruct (m =? nu); reflexivity. Qed.

Lemma allotted_elem b : b ∈ allotted b1 p m nu b2 -> (b ∈ b1 ++ b2 /\ b_at b <> p /\ b_at b <> p + HEADER * (m - nu)) \/
  (m <> nu /\ b = Blk p (m - nu) true) \/ b = Blk (p + HEADER * (m - nu)) nu false.
Proof using Hrep Hnu.
  destruct tk_tiles as [T1 T2]. intros Hb. unfold allotted in Hb. rewrite !elem_of_app, elem_of_cons in Hb. destruct Hb as [Hb|[Hb|[Hb|Hb]]]; auto.
  - left. destruct (tiles_in _ _ _ _ T1 Hb) as (? & ? & ?). rewrite elem_of_app. unfold HEADER in *. split; [auto|lia].
  - right. left. destruct (Z.eqb_spec m nu); [apply elem_of_nil in Hb; contradiction|]. apply list_elem_of_singleton in Hb. auto.
  - left. destruct (tiles_in _ _ _ _ T2 Hb) as (? & ? & ?). rewrite elem_of_app. unfold HEADER in *. split; [auto|lia].
Qed.

Lemma tk_pred : default base (last (frees b1)) ∈ base :: frees b1.
Proof using.
  destruct (last (frees b1)) as [x|] eqn:Ex; simpl; [|apply list_elem_of_here]. apply elem_of_cons. right. apply last_Some_elem_of, Ex.
Qed.

Lemma tk_pred_lt : default base (last (frees b1)) < p.
Proof using Hrep Hlo.
  destruct tk_tiles as [T1 _]. pose proof (tiles_le _ _ _ T1). pose proof tk_pred as [->|Hp]%elem_of_cons; [unfold HEADER in Hlo; lia|].
  apply (frees_bound _ _ _ _ T1 Hp).
Qed.

Lemma tk_asc : asc base (frees b1 ++ p :: frees b2).
Proof using Hrep Hlo. rewrite <- tk_frees. apply (asc_frees _ _ _ _ (rp_tiles _ _ Hrep)). unfold HEADER in Hlo. lia. Qed.

Lemma tk_size b : b ∈ b1 ++ b2 -> h_size s (b_at b) = b_n b.
Proof using Hrep. intros [Hb|Hb]%elem_of_app; apply (rp_size _ _ Hrep); rewrite elem_of_app, elem_of_cons; auto. Qed.

(** What the block is taken from, and what stays as it is. *)
Definition takes (s' : heap) : Prop := let q := p + HEADER * (m - nu) in
  malloc_take nu (default base (last (frees b1))) p m s = Ret (q + HEADER) s' /\ rep (allotted b1 p m nu b2) s' /\ h_brk s' = h_brk s /\
  (forall x, x ∉ base :: frees (b1 ++ Blk p m true :: b2) -> x <> q -> h_ptr s' x = h_ptr s x /\ h_size s' x = h_size s x).

Lemma take_exact : m = nu -> exists s', takes s'.
Proof using Hrep Hnu Hlo.
  intros Em. unfold takes, malloc_take. set (q := p + HEADER * (m - nu)). assert (Eq : q = p) by (unfold q, HEADER; lia). rewrite Eq.
  set (prevp := default base (last (frees b1))). replace (m =? nu) with true by lia.
  erewrite bind_ret_l by reflexivity. rewrite bind_modify. eexists. split; [reflexivity|].
  pose proof (rp_chain _ _ Hrep) as Hc. rewrite tk_frees in *. pose proof tk_pred as Hpp. pose proof tk_pred_lt as Hlt. fold prevp in Hpp, Hlt.
  assert (Ef : frees (allotted b1 p m nu b2) = frees b1 ++ frees b2) by (rewrite allotted_frees; replace (m =? nu) with true by lia; reflexivity).
  split; [|split; [reflexivity|]].
  - split; simpl; auto using allotted_tiles, allotted_apart; try apply Hrep.
    + intros b Hb. destruct (allotted_elem b Hb) as [(Hin & _)|[(? & _)|Hb']]; [apply tk_size, Hin|contradiction|]. rewrite Hb'. simpl. fold q. rewrite Eq, <- Em.
      apply (rp_size _ _ Hrep (Blk p m true)), elem_of_app. right. apply list_elem_of_here.
    + rewrite Ef. apply (relink (h_ptr s) _ (frees b1) (p :: frees b2) _ (h_ptr s p)); auto; [apply (asc_app _ _ (p :: frees b2)), tk_asc|intros x _ Hx; apply upd_ne, Hx|apply upd_eq|].
      change (base :: frees b1 ++ p :: frees b2) with ((base :: frees b1) ++ p :: frees b2) in Hc. apply seg_app in Hc as (r & _ & -> & Hc).
      apply (seg_ext (h_ptr s)); [|exact Hc]. intros x Hx. apply upd_ne. destruct tk_tiles as [_ T2]. apply (frees_bound _ _ _ _ T2) in Hx. unfold HEADER in Hx. lia.
    + rewrite Ef, app_comm_cons, elem_of_app. auto.
  - intros x Hx Hxp. simpl. split; [|reflexivity]. apply upd_ne. intros ->. apply Hx. rewrite app_comm_cons, elem_of_app. auto.
Qed.

Lemma take_cut : m <> nu -> exists s', takes s'.
Proof using Hrep Hnu Hlo.
  intros Hne. unfold takes, malloc_take. set (q := p + HEADER * (m - nu)). set (prevp := default base (last (frees b1))).
  destruct tk_tiles as [T1 T2]. pose proof (tiles_le _ _ _ T1) as L1. pose proof (tiles_le _ _ _ T2) as L2. pose proof (rp_small _ _ Hrep) as Hsm.
  replace (m =? nu) with false by lia. rewrite u32_small by (unfold HEADER, HEAPMAX in *; lia). fold q.
  erewrite bind_ret_l by reflexivity. rewrite bind_modify. eexists. split; [reflexivity|].
  pose proof (rp_chain _ _ Hrep) as Hc. rewrite tk_frees in *. pose proof tk_pred as Hpp. fold prevp in Hpp.
  assert (Ef : frees (allotted b1 p m nu b2) = frees b1 ++ p :: frees b2) by (rewrite allotted_frees; replace (m =? nu) with false by lia; reflexivity).
  split; [|split; [reflexivity|]].
  - assert (Hqp : q <> p) by (unfold q, HEADER; lia). split; simpl; auto using allotted_tiles, allotted_apart; try apply Hrep.
    + intros b Hb. destruct (allotted_elem b Hb) as [(Hin & N1 & N2)|[(_ & ->)| ->]]; simpl; fold q.
      * rewrite !upd_ne by assumption. apply tk_size, Hin.
      * rewrite upd_ne, upd_eq by congruence. reflexivity.
      * apply upd_eq.
    + rewrite !upd_ne; [apply Hrep|..]; unfold q, HEADER in *; lia.
    + rewrite Ef. exact Hc.
    + rewrite Ef, app_comm_cons, elem_of_app. auto.
  - intros x Hx Hxq. simpl. split; [reflexivity|]. rewrite !upd_ne; auto. intros ->. apply Hx. rewrite app_comm_cons, elem_of_app. right. apply list_elem_of_here.
Qed.

Lemma take_run : exists s', takes s'.
Proof using Hrep Hnu Hlo. destruct (Z.eq_dec m nu); [apply take_exact|apply take_cut]; assumption. Qed.
End Take.

(** ** Searching the list *)

(** Going round the list from [freep] back to it. *)
Lemma rotate bs s : rep bs s -> exists W, seg (h_ptr s) (h_ptr s (h_freep s)) W (h_freep s) /\ (h_freep s ∉ W) /\
  (forall x, (x ∈ base :: frees bs) <-> (x = h_freep s \/ x ∈ W)) /\ length W = length (frees bs).
Proof using Hlo.
  intros Hr. pose proof (rp_freep _ _ Hr) as Hf. pose proof (rp_chain _ _ Hr) as Hc.
  pose proof (asc_frees _ _ _ base (rp_tiles _ _ Hr) ltac:(unfold HEADER in Hlo; lia)) as Ha.
  assert (Ha' : asc (base - 1) (base :: frees bs)) by (split; [lia|exact Ha]).
  apply list_elem_of_split in Hf as (X & Y & El). rewrite El in Hc, Ha'. apply seg_app in Hc as (r & Hx & -> & Hy).
  exists (Y ++ X). split; [apply seg_app; eauto|]. split; [|split].
  - pose proof (asc_notin _ _ _ _ Ha') as Hno. apply asc_app in Ha' as [_ [_ Hay]]. intros [Hin|Hin]%elem_of_app.
    + pose proof (asc_elem _ _ _ Hay Hin). lia.
    + apply Hno, elem_of_cons. auto.
  - intros x. rewrite El, !elem_of_app, elem_of_cons. tauto.
  - apply (f_equal length) in El. rewrite length_app in *. simpl in El. lia.
Qed.

(** The free block [p] of [bs] is large enough, and [s'] is the state when it
    has been taken. *)
Definition found (bs : list blk) (nu q : Z) (s s' : heap) : Prop :=
  exists b1 p m b2, bs = b1 ++ Blk p m true :: b2 /\ 0 < nu <= m /\ q = p + HEADER * (m - nu) /\ rep (allotted b1 p m nu b2) s' /\
    h_brk s' = h_brk s /\ (forall x, x ∉ base :: frees bs -> x <> q -> h_ptr s' x = h_ptr s x /\ h_size s' x = h_size s x).

Lemma take_found bs s nu x p : rep bs s -> 0 < nu -> x ∈ base :: frees bs -> p ∈ base :: frees bs -> h_ptr s x = p -> nu <= h_size s p ->
  exists q s', malloc_take nu x p (h_size s p) s = Ret (q + HEADER) s' /\ found bs nu q s s'.
Proof using Hlo.
  intros Hr Hnu Hx Hp Hxp Hsz. assert (Hpf : p ∈ frees bs).
  { apply elem_of_cons in Hp as [->|Hp]; [rewrite (rp_base _ _ Hr) in Hsz; lia|exact Hp]. }
  apply frees_elem in Hpf as (b & Hb & Eb & Ef). pose proof (rp_size _ _ Hr b Hb) as Hm. rewrite Eb in Hm.
  apply list_elem_of_split in Hb as (b1 & b2 & El). destruct b as [pa m f]. simpl in *. subst pa f.
  rewrite (pred_unique bs s b1 p m b2 x Hr El Hx Hxp). rewrite Hm in *. rewrite El in Hr.
  destruct (take_run b1 b2 p m nu s Hr ltac:(lia)) as (s' & E & Hr' & Hk & Hfr). exists (p + HEADER * (m - nu)), s'. split; [exact E|].
  exists b1, p, m, b2. rewrite El. auto 10.
Qed.

(** ** Blocks in use *)

Definition live (bs : list blk) : list blk := filter (fun b => b_free b = false) bs.

Lemma live_app a b : live (a ++ b) = live a ++ live b.
Proof using. apply filter_app. Qed.

Lemma live_freed b1 a n b2 : live (freed b1 a n b2) = live b1 ++ live b2.
Proof using.
  unfold freed. rewrite live_app. f_equal.
  - unfold join_prev. destruct (last b1) as [b|] eqn:El; [|apply last_None in El; subst b1; reflexivity].
    destruct (b_free b) eqn:Eb; [|rewrite live_app; apply app_nil_r]. apply last_Some in El as [c1 ->]. rewrite removelast_last, !live_app. f_equal.
    unfold live. rewrite !filter_cons, Eb. reflexivity.
  - unfold join_next. destruct b2 as [|b b2']; [reflexivity|]. destruct (b_free b) eqn:Eb; [|reflexivity]. simpl. unfold live.
    rewrite filter_cons, Eb. reflexivity.
Qed.

Lemma live_allotted b1 p m nu b2 : live (allotted b1 p m nu b2) = live b1 ++ Blk (p + HEADER * (m - nu)) nu false :: live b2.
Proof using. unfold allotted. rewrite !live_app. f_equal. destruct (m =? nu); reflexivity. Qed.

Definition inside (b : blk) (x : Z) : Prop := b_at b <= x < b_at b + HEADER * b_n b.

Lemma tiles_disjoint low hi l1 b l2 c x : tiles low hi (l1 ++ b :: l2) -> c ∈ l1 ++ l2 -> inside b x -> ~ inside c x.
Proof using.
  intros Ht Hc Hb. apply tiles_app in Ht as (mid & T1 & E & Hn & T2). unfold inside in *. apply elem_of_app in Hc as [Hc|Hc].
  - destruct (tiles_in _ _ _ _ T1 Hc) as (? & ? & ?). lia.
  - destruct (tiles_in _ _ _ _ T2 Hc) as (? & ? & ?). lia.
Qed.

(** A place inside a block in use is no header of the free list. *)
Lemma inside_live bs hi b x : tiles lo hi bs -> b ∈ bs -> b_free b = false -> inside b x -> x ∉ base :: frees bs.
Proof using Hlo.
  intros Ht Hb Hf Hx [->|Hin]%elem_of_cons.
  - destruct (tiles_in _ _ _ _ Ht Hb) as (? & _). unfold inside, HEADER in *. lia.
  - apply frees_elem in Hin as (c & Hc & Ec & Ecf). apply list_elem_of_split in Hb as (l1 & l2 & ->).
    assert (Hne : c ∈ l1 ++ l2).
    { rewrite elem_of_app, elem_of_cons in Hc. rewrite elem_of_app. destruct Hc as [?|[->|?]]; [auto|congruence|auto]. }
    assert (Hcn : 0 < b_n c) by (apply (tiles_in _ _ _ _ Ht); rewrite elem_of_app, elem_of_cons in *; tauto).
    apply (tiles_disjoint _ _ _ _ _ c x Ht Hne Hx). unfold inside, HEADER. lia.
Qed.

(** What blocks in use hold is not changed. *)
Definition kept (bs : list blk) (s s' : heap) : Prop :=
  forall b x, b ∈ bs -> b_free b = false -> inside b x -> h_ptr s' x = h_ptr s x /\ h_size s' x = h_size s x.

(** A block of [nu] units was added to those in use. *)
Definition served (bs : list blk) (nu q : Z) (s s' : heap) : Prop :=
  exists bs', rep bs' s' /\ live bs' ≡ₚ Blk q nu false :: live bs /\ kept bs s s'.

Lemma found_served bs nu q s s' : rep bs s -> found bs nu q s s' -> served bs nu q s s'.
Proof using Hlo.
  intros Hr (b1 & p & m & b2 & El & Hnu & Eq & Hr' & Hk & Hfr). exists (allotted b1 p m nu b2). split; [exact Hr'|]. split.
  - rewrite live_allotted, <- Eq. rewrite El, live_app. simpl. unfold live. rewrite filter_cons. simpl. symmetry. apply Permutation_middle.
  - intros b x Hb Hf Hx. apply Hfr.
    + apply (inside_live bs (h_brk s) b); auto. apply Hr.
    + intros ->. pose proof (rp_tiles _ _ Hr) as Ht. rewrite El in Ht, Hb. assert (Hne : b ∈ b1 ++ b2).
      { rewrite elem_of_app, elem_of_cons in Hb. rewrite elem_of_app. destruct Hb as [?|[->|?]]; [auto|discriminate|auto]. }
      apply (tiles_disjoint _ _ _ _ _ b q Ht Hne); [|exact Hx]. rewrite Eq. unfold inside, HEADER. simpl. lia.
Qed.

(** ** The loop of [malloc] *)

Context (grant : Z -> Z -> bool).

(** The loop finds a block, or asks for memory when none is large enough. *)
Lemma search bs s nu : rep bs s -> 0 < nu -> forall W x fuel, x ∈ base :: frees bs -> seg (h_ptr s) (h_ptr s x) W (h_freep s) ->
  h_freep s ∉ W -> (forall y, y ∈ W -> y ∈ base :: frees bs) -> (length W < fuel)%nat ->
  (exists q s', malloc_loop grant fuel nu x (h_ptr s x) s = Ret (q + HEADER) s' /\ found bs nu q s s') \/
  ((forall y, y = h_freep s \/ y ∈ W -> h_size s y < nu) /\
   malloc_loop grant fuel nu x (h_ptr s x) s =
     (let! p := morecore grant (fuel - length W - 1) nu in
      if p =? 0 then ret 0 else let! np := gets (fun s => h_ptr s p) in malloc_loop grant (fuel - length W - 1) nu p np) s).
Proof using Hlo.
  intros Hr Hnu. induction W as [|y W IH]; intros x [|fuel] Hx Hs Hno Hin Hf; try (simpl in Hf; lia); cbn [malloc_loop]; rewrite bind_gets.
  - simpl in Hs. rewrite Hs. destruct (Z.leb_spec nu (h_size s (h_freep s))) as [Hle|Hgt].
    + left. apply (take_found bs s nu x); auto. apply Hr.
    + right. split; [intros y [->|Hy]; [exact Hgt|apply elem_of_nil in Hy; contradiction]|].
      rewrite bind_gets, Z.eqb_refl. simpl length. rewrite Nat.sub_0_r. replace (S fuel - 1)%nat with fuel by lia. reflexivity.
  - destruct Hs as [Ey Hs]. rewrite Ey. destruct (Z.leb_spec nu (h_size s y)) as [Hle|Hgt].
    + left. apply (take_found bs s nu x); auto. apply Hin, list_elem_of_here.
    + rewrite bind_gets. replace (y =? h_freep s) with false by (symmetry; apply Z.eqb_neq; intros ->; apply Hno, list_elem_of_here).
      rewrite bind_gets. destruct (IH y fuel) as [Hl|[Hsm E]]; auto.
      * apply Hin, list_elem_of_here.
      * intros Hf'. apply Hno, elem_of_cons. auto.
      * intros z Hz. apply Hin, elem_of_cons. auto.
      * simpl in Hf. lia.
      * right. split; [|exact E]. intros z [->|[->|Hz]%elem_of_cons]; auto.
Qed.

(** The kernel does not hand out more memory than there is. *)
Hypothesis (Hgrant : forall b n, grant b n = true -> b + n - lo <= HEAPMAX) (Hhi : lo + HEAPMAX < 2 ^ 38).

(** The kernel's memory becomes a block in use, which is freed. *)
Lemma grown_rep bs s n : rep bs s -> 0 < n -> grant (h_brk s) (n * HEADER) = true ->
  rep (bs ++ [Blk (h_brk s) n false]) (set_size (h_brk s) n (Heap (h_ptr s) (h_size s) (h_freep s) (h_brk s + n * HEADER))).
Proof using Hlo Hgrant.
  intros Hr Hn Hg. pose proof (rp_tiles _ _ Hr) as Ht. pose proof (tiles_le _ _ _ Ht) as Hle. split; simpl.
  - apply tiles_app. exists (h_brk s). split; [exact Ht|]. simpl. split_and!; [reflexivity|lia|]. lia.
  - apply apart_app. split_and!; [apply Hr|split; exact I|simpl; destruct (last bs); [apply andb_false_r|exact I]].
  - intros b [Hb|Hb]%elem_of_app.
    + rewrite upd_ne; [apply Hr, Hb|]. destruct (tiles_in _ _ _ _ Ht Hb) as (? & ? & ?). unfold HEADER in *. lia.
    + apply list_elem_of_singleton in Hb. subst b. apply upd_eq.
  - rewrite upd_ne by (unfold HEADER in Hlo; lia). apply Hr.
  - rewrite frees_app. simpl. rewrite app_nil_r. apply (rp_chain _ _ Hr).
  - rewrite frees_app. simpl. rewrite app_nil_r. apply Hr.
  - apply Hgrant, Hg.
Qed.

Lemma freed_last_big bs a n nu : nu <= n -> (forall b, b ∈ bs -> 0 < b_n b) -> exists b, b ∈ freed bs a n [] /\ b_free b = true /\ nu <= b_n b.
Proof using.
  intros Hn Hpos. unfold freed. simpl. rewrite app_nil_r. unfold join_prev. destruct (last bs) as [b|] eqn:El.
  - apply last_Some in El as [c1 ->]. assert (0 < b_n b) by (apply Hpos, elem_of_app; right; apply list_elem_of_here).
    destruct (b_free b) eqn:Eb; [rewrite removelast_last|]; eexists; (split; [apply elem_of_app; right; apply list_elem_of_here|]); simpl; split; auto; lia.
  - eexists. split; [apply list_elem_of_here|]. auto.
Qed.

Lemma morecore_run bs s fuel nu : rep bs s -> 0 < nu -> nu * HEADER < 2 ^ 31 -> (length (base :: frees bs) <= fuel)%nat ->
  morecore grant fuel nu s = Ret 0 s /\ grant (h_brk s) (Z.max nu 4096 * HEADER) = false \/
  exists s' bs', morecore grant fuel nu s = Ret (h_freep s') s' /\ rep bs' s' /\ live bs' = live bs /\ kept bs s s' /\
    (length bs' <= S (length bs))%nat /\ (exists b, b ∈ bs' /\ b_free b = true /\ nu <= b_n b).
Proof using Hlo Hgrant Hhi.
  intros Hr Hnu Hmax Hf. unfold morecore. set (n := if nu <? 4096 then 4096 else nu). assert (En : n = Z.max nu 4096) by (unfold n; destruct (Z.ltb_spec nu 4096); lia).
  assert (Ei : i32 (u64 (n * HEADER)) = n * HEADER) by (unfold HEADER in *; rewrite u64_small, i32_small; lia). rewrite Ei, <- En.
  pose proof (rp_tiles _ _ Hr) as Ht. pose proof (tiles_le _ _ _ Ht) as Hle. pose proof (rp_small _ _ Hr) as Hsm.
  unfold sbrk. destruct (grant (h_brk s) (n * HEADER)) eqn:Eg; cycle 1.
  { left. split; [|reflexivity]. erewrite bind_ret_l by (rewrite bind_gets, Eg; reflexivity). rewrite Z.eqb_refl. reflexivity. }
  right. erewrite bind_ret_l by (rewrite bind_gets, Eg; reflexivity).
  replace (h_brk s =? SBRK_ERROR) with false by (symmetry; apply Z.eqb_neq; change SBRK_ERROR with (2 ^ 64 - 1); unfold HEADER, HEAPMAX in *; lia).
  rewrite bind_modify. pose proof (grown_rep bs s n Hr ltac:(lia) Eg) as Hr1. set (s1 := set_size _ _ _) in *.
  destruct (free_rep bs [] (h_brk s) n s1 Hr1 fuel) as (s' & E & Hr' & _ & Hfr); [rewrite app_nil_r; exact Hf|].
  erewrite bind_ret_l by exact E. exists s', (freed bs (h_brk s) n []). split; [reflexivity|]. split; [exact Hr'|].
  split; [rewrite live_freed; apply app_nil_r|]. split_and!.
  - intros b x Hb Hfb Hx. pose proof (inside_live bs (h_brk s) b x Ht Hb Hfb Hx) as Hno.
    assert (Hxk : x <> h_brk s) by (destruct (tiles_in _ _ _ _ Ht Hb) as (? & ? & ?); unfold inside in Hx; lia).
    destruct (Hfr x Hxk Hno) as [-> ->]. simpl. rewrite upd_ne by exact Hxk. auto.
  - unfold freed, join_prev. simpl. rewrite app_nil_r. destruct (last bs) as [b|] eqn:El; [|simpl; lia].
    destruct (b_free b); [|rewrite length_app; simpl; lia]. apply last_Some in El as [c1 ->]. rewrite removelast_last, !length_app. simpl. lia.
  - apply freed_last_big; [lia|]. intros b Hb. apply (tiles_in _ _ _ _ Ht Hb).
Qed.

(** Bytes asked for, in units, with the header. *)
Definition units (nbytes : Z) : Z := (nbytes + 15) / 16 + 1.
Definition MAXREQ : Z := 2 ^ 31 - 32.

Lemma length_frees bs : (length (frees bs) <= length bs)%nat.
Proof using. induction bs as [|b bs IH]; simpl; [lia|]. destruct (b_free b); simpl; lia. Qed.

Lemma loop_run bs s nu fuel : rep bs s -> 0 < nu -> nu * HEADER < 2 ^ 31 -> (2 * length bs + 4 <= fuel)%nat ->
  malloc_loop grant fuel nu (h_freep s) (h_ptr s (h_freep s)) s = Ret 0 s /\ grant (h_brk s) (Z.max nu 4096 * HEADER) = false \/
  exists q s', malloc_loop grant fuel nu (h_freep s) (h_ptr s (h_freep s)) s = Ret (q + HEADER) s' /\ served bs nu q s s'.
Proof using Hlo Hgrant Hhi Hbase.
  intros Hr Hnu Hmax Hf. destruct (rotate bs s Hr) as (W & Hs & Hno & Hin & Hlen). pose proof (length_frees bs) as Hlf.
  destruct (search bs s nu Hr Hnu W (h_freep s) fuel) as [(q & s' & E & Hfd)|[Hsm E]]; auto; try lia; [apply Hin; auto|intros y Hy; apply Hin; auto| |].
  { right. exists q, s'. split; [exact E|]. apply found_served; assumption. }
  rewrite E. destruct (morecore_run bs s (fuel - length W - 1) nu Hr Hnu Hmax) as [[Em Eg]|(s1 & bs1 & Em & Hr1 & Hl1 & Hk1 & Hn1 & b & Hb & Hbf & Hbn)]; [simpl; lia|..].
  { left. split; [|exact Eg]. erewrite bind_ret_l by exact Em. reflexivity. }
  right. erewrite bind_ret_l by exact Em. pose proof (rp_freep _ _ Hr1) as Hfp.
  assert (Hf0 : 0 < h_freep s1).
  { apply elem_of_cons in Hfp as [->|Hfp]; [exact Hbase|]. apply (frees_bound _ _ _ _ (rp_tiles _ _ Hr1)) in Hfp. unfold HEADER in Hlo. lia. }
  replace (h_freep s1 =? 0) with false by lia. rewrite bind_gets. destruct (rotate bs1 s1 Hr1) as (W1 & Hs1 & Hno1 & Hin1 & Hlen1). pose proof (length_frees bs1).
  destruct (search bs1 s1 nu Hr1 Hnu W1 (h_freep s1) (fuel - length W - 1)) as [(q & s' & E1 & Hfd)|[Hsm1 _]]; auto; try lia; [intros y Hy; apply Hin1; auto| |].
  - exists q, s'. split; [exact E1|]. destruct (found_served _ _ _ _ _ Hr1 Hfd) as (bs' & Hr' & Hl' & Hk'). exists bs'. rewrite Hl', Hl1. split; [exact Hr'|].
    split; [reflexivity|]. intros c x Hc Hcf Hx. destruct (Hk1 c x Hc Hcf Hx) as [<- <-]. assert (Hc1 : c ∈ live bs1) by (rewrite Hl1; apply list_elem_of_filter; auto).
    apply list_elem_of_filter in Hc1 as [_ Hc1]. apply (Hk' c x); auto.
  - exfalso. assert (Hbi : b_at b ∈ base :: frees bs1) by (apply elem_of_cons; right; apply elem_frees; auto). apply Hin1, Hsm1 in Hbi.
    rewrite (rp_size _ _ Hr1 b Hb) in Hbi. lia.
Qed.

(** ** A program that uses the allocator *)

(** In order, or not used yet. *)
Definition ready (bs : list blk) (s : heap) : Prop := rep bs s \/ bs = [] /\ h_freep s = 0 /\ h_brk s = lo.

Lemma units_bound nb : 0 <= nb <= MAXREQ -> 0 < units nb /\ units nb * HEADER < 2 ^ 31 /\ nb <= HEADER * (units nb - 1) /\ u32 ((nb + HEADER - 1) / HEADER + 1) = units nb.
Proof using. unfold units, MAXREQ, HEADER. intros Hnb. replace (nb + 16 - 1) with (nb + 15) by lia. split_and!; [dlia..|]. apply u32_small. dlia. Qed.

Lemma malloc_run bs s nb fuel : ready bs s -> 0 <= nb <= MAXREQ -> (2 * length bs + 4 <= fuel)%nat ->
  exists r s', malloc base grant fuel nb s = Ret r s' /\
    (r = 0 /\ ready bs s' /\ kept bs s s' \/ exists q, r = q + HEADER /\ served bs (units nb) q s s').
Proof using Hlo Hgrant Hhi Hbase.
  intros Hr Hnb Hf. destruct (units_bound nb Hnb) as (Hu & Hm & _ & Eu). unfold malloc. rewrite Eu. cbv zeta. rewrite bind_gets.
  assert (Hgo : forall s1, rep bs s1 -> (forall x, x <> base -> h_ptr s1 x = h_ptr s x /\ h_size s1 x = h_size s x) ->
    exists r s', malloc_loop grant fuel (units nb) (h_freep s1) (h_ptr s1 (h_freep s1)) s1 = Ret r s' /\
      (r = 0 /\ ready bs s' /\ kept bs s s' \/ exists q, r = q + HEADER /\ served bs (units nb) q s s')).
  { intros s1 Hr1 Hsame.
    assert (Hk : forall s', kept bs s1 s' -> kept bs s s').
    { intros s' Hk b x Hb Hbf Hx. assert (Hxb : x <> base).
      { destruct (tiles_in _ _ _ _ (rp_tiles _ _ Hr1) Hb) as (? & _). unfold inside, HEADER in *. lia. }
      destruct (Hk b x Hb Hbf Hx) as [-> ->]. apply Hsame, Hxb. }
    destruct (loop_run bs s1 (units nb) fuel Hr1 Hu Hm Hf) as [[E _]|(q & s' & E & bs' & Hr' & Hl' & Hk')]; eexists _, _; (split; [exact E|]).
    - left. split; [reflexivity|]. split; [left; exact Hr1|]. apply Hk. intros b x _ _ _. auto.
    - right. exists q. split; [reflexivity|]. exists bs'. auto. }
  destruct Hr as [Hr|(-> & Hfp & Hk)].
  - assert (Hf0 : 0 < h_freep s).
    { pose proof (rp_freep _ _ Hr) as [->|Hfp]%elem_of_cons; [exact Hbase|]. apply (frees_bound _ _ _ _ (rp_tiles _ _ Hr)) in Hfp. unfold HEADER in Hlo. lia. }
    replace (h_freep s =? 0) with false by lia. cbn [when]. unfold bind at 1. cbn [ret bindr]. rewrite !bind_gets. apply (Hgo s Hr). auto.
  - rewrite Hfp. cbn [when Z.eqb]. set (s1 := set_size base 0 (set_ptr base base (set_freep base s))).
    rewrite (bind_ret_l _ _ s tt s1) by reflexivity. rewrite !bind_gets. apply (Hgo s1).
    + split; simpl; auto; [intros b Hb; apply elem_of_nil in Hb; contradiction|apply upd_eq|split; [reflexivity|apply upd_eq]|apply list_elem_of_here|].
      rewrite Hk. unfold HEAPMAX. lia.
    + intros x Hx. simpl. rewrite !upd_ne by exact Hx. auto.
Qed.

Definition blk_of (e : Z * Z) : blk := Blk (e.1 - HEADER) (units e.2) false.

(** The heap and the pointers the program holds, with the sizes it asked for. *)
Inductive ustep : heap * list (Z * Z) -> heap * list (Z * Z) -> Prop :=
| U_malloc s l nb fuel r s' : 0 <= nb <= MAXREQ -> malloc base grant fuel nb s = Ret r s' ->
    ustep (s, l) (s', if r =? 0 then l else (r, nb) :: l)
| U_free s l1 ap nb l2 fuel s' : free fuel ap s = Ret tt s' -> ustep (s, l1 ++ (ap, nb) :: l2) (s', l1 ++ l2)
| U_write s l s' : h_freep s' = h_freep s -> h_brk s' = h_brk s ->
    (forall x, (forall ap nb, (ap, nb) ∈ l -> ~ ap <= x < ap + HEADER * (units nb - 1)) -> h_ptr s' x = h_ptr s x /\ h_size s' x = h_size s x) ->
    ustep (s, l) (s', l).

Definition orderly (c : heap * list (Z * Z)) : Prop := exists bs, ready bs c.1 /\ live bs ≡ₚ (blk_of <$> c.2).

(** More fuel does not change what is returned. *)
Lemma free_find_mono n : forall n' p bp s r s', free_find n p bp s = Ret r s' -> (n <= n')%nat -> free_find n' p bp s = Ret r s'.
Proof using.
  induction n as [|n IH]; intros [|n'] p bp s r s' E Hn; try discriminate; [lia|]. cbn [free_find] in *. rewrite bind_gets in *.
  destruct (_ && _); [exact E|]. destruct (_ && _); [exact E|]. apply IH; [exact E|lia].
Qed.

Lemma free_mono n n' ap s s' : free n ap s = Ret tt s' -> (n <= n')%nat -> free n' ap s = Ret tt s'.
Proof using.
  unfold free. intros E Hn. rewrite bind_gets in *. apply bind_inv in E as (p & s1 & E1 & E). erewrite bind_ret_l by (eapply free_find_mono; eauto). exact E.
Qed.

Lemma morecore_mono n n' nu s r s' : morecore grant n nu s = Ret r s' -> (n <= n')%nat -> morecore grant n' nu s = Ret r s'.
Proof using.
  unfold morecore. intros E Hn. apply bind_inv in E as (p & s1 & E1 & E). erewrite bind_ret_l by exact E1.
  destruct (p =? SBRK_ERROR); [exact E|]. rewrite bind_modify in *. apply bind_inv in E as ([] & s2 & E2 & E).
  erewrite bind_ret_l by (eapply free_mono; eauto). exact E.
Qed.

Lemma malloc_loop_mono n : forall n' nu x p s r s', malloc_loop grant n nu x p s = Ret r s' -> (n <= n')%nat -> malloc_loop grant n' nu x p s = Ret r s'.
Proof using.
  induction n as [|n IH]; intros [|n'] nu x p s r s' E Hn; try discriminate; [lia|]. cbn [malloc_loop] in *. rewrite bind_gets in *.
  destruct (nu <=? _); [exact E|]. rewrite bind_gets in *. destruct (p =? _); [|rewrite bind_gets in *; apply IH; [exact E|lia]].
  apply bind_inv in E as (y & s1 & E1 & E). erewrite bind_ret_l by (eapply morecore_mono; [exact E1|lia]).
  destruct (y =? 0); [exact E|]. rewrite bind_gets in *. apply IH; [exact E|lia].
Qed.

Lemma malloc_mono n n' nb s r s' : malloc base grant n nb s = Ret r s' -> (n <= n')%nat -> malloc base grant n' nb s = Ret r s'.
Proof using.
  unfold malloc. intros E Hn. rewrite bind_gets in *. apply bind_inv in E as ([] & s1 & E1 & E). erewrite bind_ret_l by exact E1.
  rewrite !bind_gets in *. eapply malloc_loop_mono; eauto.
Qed.

(** ** Every step keeps order *)

Lemma live_split bs e l1 l2 : live bs ≡ₚ (blk_of <$> l1 ++ e :: l2) ->
  exists b1 b2, bs = b1 ++ blk_of e :: b2 /\ live b1 ++ live b2 ≡ₚ (blk_of <$> l1 ++ l2).
Proof using.
  intros Hp. assert (Hin : blk_of e ∈ live bs) by (rewrite Hp, fmap_app, fmap_cons, elem_of_app; right; apply list_elem_of_here).
  apply list_elem_of_filter in Hin as [_ Hin]. apply list_elem_of_split in Hin as (b1 & b2 & ->). exists b1, b2. split; [reflexivity|].
  rewrite live_app in Hp. change (live (blk_of e :: b2)) with (blk_of e :: live b2) in Hp. rewrite <- Permutation_middle in Hp.
  rewrite fmap_app, fmap_cons, <- Permutation_middle in Hp. apply Permutation_cons_inv in Hp. rewrite Hp, fmap_app. reflexivity.
Qed.

Lemma payload_inside bs l b x : live bs ≡ₚ (blk_of <$> l) -> tiles lo b (bs) -> forall ap nb, (ap, nb) ∈ l -> ap <= x < ap + HEADER * (units nb - 1) ->
  exists c, c ∈ bs /\ b_free c = false /\ inside c x /\ x <> b_at c /\ c = blk_of (ap, nb).
Proof using.
  intros Hp Ht ap nb Hin Hx. exists (blk_of (ap, nb)). assert (Hc : blk_of (ap, nb) ∈ live bs) by (rewrite Hp; apply list_elem_of_fmap_2, Hin).
  apply list_elem_of_filter in Hc as [Hf Hc]. split_and!; auto; unfold inside, blk_of, HEADER in *; simpl; lia.
Qed.

Lemma write_rep bs s l s' : rep bs s -> live bs ≡ₚ (blk_of <$> l) -> h_freep s' = h_freep s -> h_brk s' = h_brk s ->
  (forall x, (forall ap nb, (ap, nb) ∈ l -> ~ ap <= x < ap + HEADER * (units nb - 1)) -> h_ptr s' x = h_ptr s x /\ h_size s' x = h_size s x) ->
  rep bs s'.
Proof using Hlo.
  intros Hr Hp Ef Ek Hw. pose proof (rp_tiles _ _ Hr) as Ht.
  assert (Hhead : forall b, b ∈ bs -> h_ptr s' (b_at b) = h_ptr s (b_at b) /\ h_size s' (b_at b) = h_size s (b_at b)).
  { intros b Hb. apply Hw. intros ap nb Hin Hx. destruct (payload_inside bs l _ _ Hp Ht ap nb Hin Hx) as (c & Hc & _ & Hci & Hcx & _).
    destruct (decide (b_at b = b_at c)); [contradiction|]. apply list_elem_of_split in Hb as (l1 & l2 & ->).
    assert (Hbn : 0 < b_n b) by (apply (tiles_in _ _ _ _ Ht), elem_of_app; right; apply list_elem_of_here).
    apply (tiles_disjoint _ _ _ _ _ c (b_at b) Ht); [|unfold inside, HEADER; lia|exact Hci].
    rewrite elem_of_app, elem_of_cons in Hc. rewrite elem_of_app. destruct Hc as [?|[->|?]]; [auto|contradiction|auto]. }
  assert (Hb : h_ptr s' base = h_ptr s base /\ h_size s' base = h_size s base).
  { apply Hw. intros ap nb Hin Hx. destruct (payload_inside bs l _ _ Hp Ht ap nb Hin Hx) as (c & Hc & _ & Hci & _).
    destruct (tiles_in _ _ _ _ Ht Hc) as (? & _). unfold inside, HEADER in *. lia. }
  split; rewrite ?Ef, ?Ek; try apply Hr.
  - intros b Hb'. rewrite (proj2 (Hhead b Hb')). apply Hr, Hb'.
  - rewrite (proj2 Hb). apply Hr.
  - apply (seg_ext (h_ptr s)); [|apply Hr]. intros x [->|Hx]%elem_of_cons; [apply Hb|]. apply frees_elem in Hx as (b & Hb' & <- & _). apply Hhead, Hb'.
Qed.

Lemma served_orderly bs nb q s s' l : served bs (units nb) q s s' -> live bs ≡ₚ (blk_of <$> l) -> orderly (s', (q + HEADER, nb) :: l) /\ q + HEADER <> 0.
Proof using Hlo Hbase.
  intros (bs' & Hr' & Hl' & _) Hp. split.
  - exists bs'. split; [left; exact Hr'|]. rewrite Hl', Hp. simpl. unfold blk_of at 2. simpl. replace (q + HEADER - HEADER) with q by lia. reflexivity.
  - assert (Hin : Blk q (units nb) false ∈ live bs') by (rewrite Hl'; apply list_elem_of_here). apply list_elem_of_filter in Hin as [_ Hin].
    destruct (tiles_in _ _ _ _ (rp_tiles _ _ Hr') Hin) as (? & _). simpl in *. unfold HEADER in *. lia.
Qed.

Lemma orderly_step c c' : ustep c c' -> orderly c -> orderly c'.
Proof using Hlo Hgrant Hhi Hbase.
  intros Hs (bs & Hr & Hp). destruct Hs as [s l nb fuel r s' Hnb E|s l1 ap nb l2 fuel s' E|s l s' Ef Ek Hw]; simpl in *.
  - destruct (malloc_run bs s nb (Nat.max fuel (2 * length bs + 4)) Hr Hnb ltac:(lia)) as (r1 & s1 & E1 & Hres).
    rewrite (malloc_mono fuel (Nat.max fuel (2 * length bs + 4)) _ _ _ _ E) in E1 by lia. injection E1 as <- <-.
    destruct Hres as [(-> & Hr' & _)|(q & -> & Hsv)]; [exists bs; auto|]. destruct (served_orderly _ _ _ _ _ _ Hsv Hp) as [Ho Hne].
    apply Z.eqb_neq in Hne. rewrite Hne. exact Ho.
  - destruct (live_split bs (ap, nb) l1 l2 Hp) as (b1 & b2 & -> & Hp'). destruct Hr as [Hr|(Enil & _)]; [|destruct b1; discriminate].
    destruct (free_rep b1 b2 (ap - HEADER) (units nb) s Hr (Nat.max fuel (length (base :: frees b1 ++ frees b2))) ltac:(lia)) as (s1 & E1 & Hr1 & _).
    replace (ap - HEADER + HEADER) with ap in E1 by lia. rewrite (free_mono fuel _ _ _ _ E) in E1 by lia. injection E1 as <-.
    exists (freed b1 (ap - HEADER) (units nb) b2). split; [left; exact Hr1|]. rewrite live_freed. exact Hp'.
  - exists bs. split; [|exact Hp]. destruct Hr as [Hr|(-> & Hf & Hk)]; [left; eapply write_rep; eauto|right; split; [reflexivity|split; simpl; congruence]].
Qed.

Lemma tiles_nodup bs : forall a b, tiles a b bs -> NoDup bs.
Proof using.
  induction bs as [|c bs IH]; intros a b Ht; [constructor|]. constructor; [|destruct Ht as (_ & _ & Ht); eapply IH, Ht].
  intros Hin. pose proof (tiles_in _ _ _ _ Ht (list_elem_of_here _ _)) as (_ & _ & Hn).
  apply (tiles_disjoint a b [] c bs c (b_at c) Ht); [exact Hin|..]; unfold inside, HEADER; lia.
Qed.

Lemma tiles_far bs a b c d : tiles a b bs -> c ∈ bs -> d ∈ bs -> c <> d -> b_at c + HEADER * b_n c <= b_at d \/ b_at d + HEADER * b_n d <= b_at c.
Proof using.
  intros Ht Hc Hd Hne. pose proof (tiles_in _ _ _ _ Ht Hc) as (_ & _ & Hnc). pose proof (tiles_in _ _ _ _ Ht Hd) as (_ & _ & Hnd).
  apply list_elem_of_split in Hc as (l1 & l2 & ->). assert (Hd' : d ∈ l1 ++ l2).
  { rewrite elem_of_app, elem_of_cons in *. destruct Hd as [?|[->|?]]; [auto|contradiction|auto]. }
  pose proof (tiles_disjoint _ _ _ _ _ d (b_at c) Ht Hd') as H1. pose proof (tiles_disjoint _ _ _ _ _ d (b_at d) Ht Hd') as H2.
  unfold inside, HEADER in *. lia.
Qed.

Lemma apart_all_free bs : apart bs -> live bs = [] -> (length bs <= 1)%nat.
Proof using.
  destruct bs as [|b [|c bs]]; simpl; intros Ha Hl; try lia. destruct Ha as [Hbc _]. unfold live in Hl. rewrite !filter_cons in Hl.
  destruct (decide (b_free b = false)); [discriminate|]. destruct (decide (b_free c = false)); [discriminate|].
  destruct (b_free b), (b_free c); simpl in *; congruence.
Qed.

(** The bytes the program was given lie in the heap, and no two allocations overlap. *)
Definition in_heap (s : heap) (e : Z * Z) : Prop := lo + HEADER <= e.1 /\ e.1 + e.2 <= h_brk s.
Definition no_overlap (d e : Z * Z) : Prop := d.1 + d.2 <= e.1 \/ e.1 + e.2 <= d.1.
(** What the program keeps in its allocations. *)
Definition unharmed (l : list (Z * Z)) (s s' : heap) : Prop :=
  forall e x, e ∈ l -> e.1 <= x < e.1 + e.2 -> h_ptr s' x = h_ptr s x /\ h_size s' x = h_size s x.
(** All of the heap is one free block. *)
Definition one_block (s : heap) : Prop :=
  h_brk s = lo \/ h_ptr s base = lo /\ h_ptr s lo = base /\ HEADER * h_size s lo = h_brk s - lo.

Definition requests (l : list (Z * Z)) : Prop := forall e, e ∈ l -> 0 <= e.2 <= MAXREQ.

Lemma requests_step c c' : ustep c c' -> requests c.2 -> requests c'.2.
Proof using.
  intros Hs Hq. destruct Hs as [s l nb fuel r s' Hnb E|s l1 ap nb l2 fuel s' E|s l s' Ef Ek Hw]; simpl in *; [|intros e He; apply Hq|exact Hq].
  - destruct (r =? 0); [exact Hq|]. intros e [->|He]%elem_of_cons; [exact Hnb|apply Hq, He].
  - rewrite elem_of_app, elem_of_cons in *. tauto.
Qed.

Lemma held_block bs s l e : ready bs s -> live bs ≡ₚ (blk_of <$> l) -> requests l -> e ∈ l ->
  blk_of e ∈ bs /\ tiles lo (h_brk s) bs /\ e.2 <= HEADER * (b_n (blk_of e) - 1).
Proof using.
  intros Hr Hp Hq He. assert (Hin : blk_of e ∈ live bs) by (rewrite Hp; apply list_elem_of_fmap_2, He).
  apply list_elem_of_filter in Hin as [_ Hin]. split; [exact Hin|]. split; [|apply (units_bound _ (Hq e He))].
  destruct Hr as [Hr|(-> & _)]; [apply Hr|]. apply not_elem_of_nil in Hin as [].
Qed.

Lemma held_in_heap bs s l e : ready bs s -> live bs ≡ₚ (blk_of <$> l) -> requests l -> e ∈ l -> in_heap s e.
Proof using.
  intros Hr Hp Hq He. destruct (held_block bs s l e Hr Hp Hq He) as (Hin & Ht & Hn).
  destruct (tiles_in _ _ _ _ Ht Hin) as (? & ? & ?). unfold in_heap, blk_of, HEADER in *. simpl in *. lia.
Qed.

Lemma held_apart bs s l i j d e : ready bs s -> live bs ≡ₚ (blk_of <$> l) -> requests l ->
  l !! i = Some d -> l !! j = Some e -> i <> j -> no_overlap d e.
Proof using.
  intros Hr Hp Hq Hi Hj Hne. destruct (held_block bs s l d Hr Hp Hq (list_elem_of_lookup_2 _ _ _ Hi)) as (Hd & Ht & Hdn).
  destruct (held_block bs s l e Hr Hp Hq (list_elem_of_lookup_2 _ _ _ Hj)) as (He & _ & Hen).
  assert (Hnd : NoDup (blk_of <$> l)) by (rewrite <- Hp; apply NoDup_filter; eapply tiles_nodup, Ht).
  assert (Hde : blk_of d <> blk_of e).
  { intros E. apply Hne. eapply (NoDup_lookup _ i j (blk_of d) Hnd); rewrite list_lookup_fmap; [rewrite Hi|rewrite Hj]; simpl; congruence. }
  pose proof (tiles_far _ _ _ _ _ Ht Hd He Hde). unfold no_overlap, blk_of, HEADER in *. simpl in *. lia.
Qed.

Lemma kept_unharmed bs s s' l : ready bs s -> live bs ≡ₚ (blk_of <$> l) -> requests l -> kept bs s s' -> unharmed l s s'.
Proof using.
  intros Hr Hp Hq Hk e x He Hx. destruct (held_block bs s l e Hr Hp Hq He) as (Hin & Ht & Hn).
  apply (Hk (blk_of e) x Hin eq_refl). unfold inside, blk_of, HEADER in *. simpl in *. lia.
Qed.

Lemma malloc_unharmed bs s l nb fuel : ready bs s -> live bs ≡ₚ (blk_of <$> l) -> requests l -> 0 <= nb <= MAXREQ -> (2 * length bs + 4 <= fuel)%nat ->
  exists r s', malloc base grant fuel nb s = Ret r s' /\ unharmed l s s'.
Proof using Hlo Hgrant Hhi Hbase.
  intros Hr Hp Hq Hnb Hf. destruct (malloc_run bs s nb fuel Hr Hnb Hf) as (r & s' & E & Hres). exists r, s'. split; [exact E|].
  apply (kept_unharmed bs); auto. destruct Hres as [(_ & _ & ?)|(q & _ & _ & _ & _ & ?)]; assumption.
Qed.

Lemma free_unharmed bs s l1 e l2 fuel : ready bs s -> live bs ≡ₚ (blk_of <$> l1 ++ e :: l2) -> requests (l1 ++ e :: l2) -> (S (length bs) <= fuel)%nat ->
  exists s', free fuel e.1 s = Ret tt s' /\ unharmed (l1 ++ l2) s s'.
Proof using Hlo.
  intros Hr Hp Hq Hf. destruct (live_split bs e l1 l2 Hp) as (b1 & b2 & -> & Hp'). destruct Hr as [Hr|(Enil & _)]; [|destruct b1; discriminate].
  assert (Hfuel : (length (base :: frees b1 ++ frees b2) <= fuel)%nat).
  { pose proof (length_frees b1). pose proof (length_frees b2). rewrite length_app in Hf. simpl in *. rewrite length_app. lia. }
  destruct (free_rep b1 b2 (e.1 - HEADER) (units e.2) s Hr fuel Hfuel) as (s' & E & _ & _ & Hk).
  replace (e.1 - HEADER + HEADER) with (e.1) in E by lia. exists s'. split; [exact E|]. intros d x Hd Hx.
  assert (Hin : blk_of d ∈ live b1 ++ live b2) by (rewrite Hp'; apply list_elem_of_fmap_2, Hd). rewrite <- live_app in Hin.
  apply list_elem_of_filter in Hin as [_ Hin]. pose proof (rp_tiles _ _ Hr) as Ht.
  assert (Hdn : d.2 <= HEADER * (units d.2 - 1)) by (apply units_bound, Hq; rewrite elem_of_app, elem_of_cons in *; tauto).
  assert (Hdi : inside (blk_of d) x) by (unfold inside, blk_of, HEADER in *; simpl; lia).
  apply Hk.
  - intros ->. apply (tiles_disjoint _ _ _ _ _ _ _ Ht Hin) in Hdi; [exact Hdi|].
    pose proof (tiles_in _ _ _ _ Ht (proj2 (elem_of_app _ _ _) (or_intror (list_elem_of_here _ _)))) as (_ & _ & ?).
    unfold inside, blk_of, HEADER in *. simpl in *. lia.
  - intros Hx1. apply (inside_live _ _ (blk_of d) x Ht); [rewrite elem_of_app, elem_of_cons in *; tauto|reflexivity|exact Hdi|].
    rewrite frees_app, elem_of_cons, elem_of_app in *. tauto.
Qed.

Lemma all_freed bs s : ready bs s -> live bs = [] -> one_block s.
Proof using.
  intros [Hr|(_ & _ & Hk)] Hl; [|left; exact Hk]. pose proof (apart_all_free _ (rp_apart _ _ Hr) Hl) as Hlen.
  destruct bs as [|b [|c bs]]; [left; symmetry; apply Hr| |simpl in Hlen; lia]. right.
  destruct (rp_tiles _ _ Hr) as (Hat & Hn & Hend). pose proof (rp_chain _ _ Hr) as Hc. pose proof (rp_size _ _ Hr b (list_elem_of_here _ _)) as Hsz.
  unfold live in Hl. rewrite filter_cons in Hl. destruct (decide (b_free b = false)) as [|Hb]; [discriminate|]. apply not_false_is_true in Hb.
  cbn [frees] in Hc. rewrite Hb in Hc. rewrite Hat in *. simpl in Hc, Hend. destruct Hc as (_ & Hc1 & Hc2). split_and!; [exact Hc1|exact Hc2|]. rewrite Hsz. lia.
Qed.

(** C16. Any number of calls to [malloc] (for up to [MAXREQ] bytes) and [free] (of
    what was allocated and not yet freed) and writes by the program to what it
    was given leave every allocation inside the heap and apart from the others;
    the next call to [malloc] or [free] returns without touching what the
    program keeps in the others; and when all was freed the heap is one free
    block again. *)
Theorem heap_safe s0 s l : h_freep s0 = 0 -> h_brk s0 = lo -> rtc ustep (s0, []) (s, l) ->
  (forall e, e ∈ l -> in_heap s e) /\
  (forall i j d e, l !! i = Some d -> l !! j = Some e -> i <> j -> no_overlap d e) /\
  (exists n, forall fuel, (n <= fuel)%nat ->
     (forall nb, 0 <= nb <= MAXREQ -> exists r s', malloc base grant fuel nb s = Ret r s' /\ unharmed l s s') /\
     (forall l1 e l2, l = l1 ++ e :: l2 -> exists s', free fuel e.1 s = Ret tt s' /\ unharmed (l1 ++ l2) s s')) /\
  (l = [] -> one_block s).
Proof using Hlo Hgrant Hhi Hbase.
  intros Hf Hk Hs. assert (Hinv : orderly (s, l) /\ requests (s, l).2).
  { change (h_freep (s0, @nil (Z * Z)).1 = 0) in Hf. eapply (rtc_ind_r (fun c => orderly c /\ requests c.2) (s0, [])); [..|exact Hs].
    - split; [exists []; split; [right; auto|reflexivity]|]. intros e He. apply not_elem_of_nil in He as [].
    - intros c c' _ Hst [Ho Hq]. split; [eapply orderly_step|eapply requests_step]; eauto. }
  destruct Hinv as [(bs & Hr & Hp) Hq]. simpl in Hr, Hp, Hq. split_and!.
  - intros e. apply (held_in_heap bs s l e Hr Hp Hq).
  - intros i j d e. apply (held_apart bs s l i j d e Hr Hp Hq).
  - exists (2 * length bs + 4)%nat. intros fuel Hfu. split.
    + intros nb Hnb. apply (malloc_unharmed bs s l nb fuel Hr Hp Hq Hnb Hfu).
    + intros l1 e l2 ->. apply (free_unharmed bs s l1 e l2 fuel Hr Hp Hq). lia.
  - intros ->. apply (all_freed bs s Hr). apply Permutation_nil_r. rewrite Hp. reflexivity.
Qed.
End Free.

Module ExampleHeap.
(** A process whose memory ends at 8192 and may grow to a megabyte. *)
Definition gr (b n : Z) : bool := (0 <=? n) && (b + n <=? 2 ^ 20).
Definition h0 : heap := Heap (fun _ => 0) (fun _ => 0) 0 8192.
Definition after {A} (m : res heap A) : heap := match m with Ret _ s => s | _ => h0 end.
Definition h1 : heap := after (malloc 4096 gr 10 100 h0).
Definition h2 : heap := after (malloc 4096 gr 10 24 h1).
Definition h3 : heap := after (free 10 73616 h2).

(** Two allocations, then the first is freed: the second is kept. *)
Lemma heap_safe_witness : malloc 4096 gr 10 100 h0 = Ret 73616 h1 /\ malloc 4096 gr 10 24 h1 = Ret 73568 h2 /\ free 10 73616 h2 = Ret tt h3 /\
  (forall e, e ∈ [(73568, 24)] -> in_heap 8192 h3 e).
Proof.
  assert (E1 : malloc 4096 gr 10 100 h0 = Ret 73616 h1) by reflexivity.
  assert (E2 : malloc 4096 gr 10 24 h1 = Ret 73568 h2) by reflexivity.
  assert (E3 : free 10 73616 h2 = Ret tt h3) by reflexivity. split; [exact E1|]. split; [exact E2|]. split; [exact E3|].
  refine (proj1 (heap_safe 4096 8192 _ _ gr _ _ h0 h3 [(73568, 24)] eq_refl eq_refl _)); [lia|unfold HEADER; lia|..].
  - intros b n. unfold gr, HEAPMAX. intros [H1 H2]%andb_prop. lia.
  - unfold HEAPMAX. lia.
  - eapply rtc_l; [apply (U_malloc 4096 gr h0 [] 100 10 _ _ ltac:(unfold MAXREQ; lia) E1)|]. simpl.
    eapply rtc_l; [apply (U_malloc 4096 gr h1 [(73616, 100)] 24 10 _ _ ltac:(unfold MAXREQ; lia) E2)|]. simpl.
    eapply rtc_l; [apply (U_free 4096 gr h2 [(73568, 24)] 73616 100 [] 10 _ E3)|]. apply rtc_refl.
Defined.
End ExampleHeap.
